(* ===== verification/_CoqProject ===== *)
-Q . S2P
Prelude.v
CLib.v
Packets.v
PacketsTls.v
PacketsHttp.v
Kavl.v
KavlAvl.v
KavlOps.v
Mpool.v
MpoolSpec.v
Params.v
World.v
Desync.v
Stream.v
DesyncPacket.v
DesyncSpec.v
DesyncTtl.v
DesyncLimits.v
Conev.v
ConevSpec.v
ConevProps.v
Socks.v
SocksProps.v
Cache.v
CacheProps.v
Conn.v
ConnProps.v
Extend.v
FilterProps.v
Proxy.v
TunnelProps.v
Text.v
Main.v
MainProps.v
HevIo.v
HevSocks.v
HevSocksProps.v
HevUdp.v
HevRing.v
HevTcp.v
HevTcpProps.v
HevList.v
HevFrames.v
HevSched.v
HevTunnel.v
HevTunnelInv.v
HevTunnelStop.v
HevConfig.v
HevConfigProps.v
HevMain.v
HevMainProps.v
Rhn.v
DnsName.v
DnsNameProps.v
DnsCompress.v
DnsMessage.v
RhnText.v
DnsStore.v
DnsCents.v
DnsHash.v
DnsCache.v
DnsRrl.v
DnsSort.v
DnsHeap.v
DnsEntry.v
DnsFree.v
DnsCopy.v
DnsTable.v
DnsPurge.v
DnsCent.v
DnsMerge.v
DnsAdd.v
DnsLookup.v
DnsEmpty.v
DnsHosts.v
DnsControl.v
DnsParse.v
DnsServe.v
DnsSpec.v
