(* ===== verification/Prelude.v ===== *)
(** * The native core of ToInet-Mobile: byedpi, the tunnel to it, the cache of pdnsd

    ToInet-Mobile is an Android application that routes the traffic of a device
    through a local SOCKS proxy.  This development models the two C programs this
    takes, and of the DNS proxy that comes with them the domain names, the cache
    and the control socket, and proves what makes them correct.

    The proxy is [src/app/src/main/cpp/byedpi/].  It is one thread: [main] reads
    options into [params], [run] opens a listening socket and [event_loop] waits
    for events with epoll and calls a handler for each.  A client's SOCKS request
    ([on_request]) opens a connection to the server; the first packet of the
    client is sent to it in parts, out of order or hidden behind fake packets
    ([desync]), as the group of options that was chosen for the connection says;
    then bytes are relayed ([on_tunnel]).  When the answer looks blocked the next
    group is tried ([on_tunnel_check]) and what worked is remembered by address
    ([mode_add_get]).

    The tunnel is hev-socks5-tunnel, under [src/app/src/main/jni/].  lwIP turns
    the packets of the device into TCP and UDP flows; each flow is a session, a
    cooperative task with a connection to the proxy ([hev_socks5_session_run]).
    A TCP session queues what lwIP received for the proxy and passes what the
    proxy sent through a ring buffer, by reference, to lwIP; a UDP session queues
    frames and wraps each into a SOCKS datagram.  The programs meet in the SOCKS
    protocol: two theorems are about both.  Three tasks stand around the sessions:
    one reads the device, one drives the timers of lwIP, one waits for a request to
    stop; all call lwIP under one mutex.  A scheduler, cooperative and in one
    thread, runs them.

    pdnsd, under the same directory, answers DNS queries from a cache.  Names travel
    in its messages compressed: a name may end in a pointer to an earlier one.  The
    cache (cache.c, hash.c) holds entries by name in a hash table; an entry has an
    array of record sets by type; the sets, and negative entries, also stand in a list by
    age, from which the cache is purged when it has grown too large.  Clients
    change the cache through a control socket (status.c): they delete and invalidate
    records, add them, one by one or from a file in the format of /etc/hosts, add
    negative entries, and empty the cache.

    ** Files

    - [Prelude]: results of C code ([res]: a value or undefined behaviour),
      machine integers, blocks of bytes, tactics.
    - [CLib]: the functions of the C library the parsers use, as definitions.
    - [Packets] (packets.c): TLS and HTTP parsing and rewriting;  [PacketsTls]
      and [PacketsHttp]: its theorems.
    - [Kavl], [KavlAvl], [KavlOps] (kavl.h): the AVL tree: the tree with its
      stored balances and 32-bit sizes, the paths and rotations, the operations.
    - [Mpool], [MpoolSpec] (mpool.c): the key-value store and its refinement to
      a finite map.
    - [Params] (params.h, proxy.h, conev.h): options, socket addresses, events.
    - [World]: the state of the program and of the system it runs on.
    - [Desync] (desync.c); [Stream], [DesyncPacket], [DesyncSpec], [DesyncTtl],
      [DesyncLimits]: what it sends.
    - [Conev], [ConevSpec], [ConevProps] (conev.c): the pool of events.
    - [Socks] (the SOCKS half of proxy.c), [Cache] and [Extend] (extend.c), [Conn]
      and [Proxy] (the rest of proxy.c), [Text] and [Main] (main.c); [SocksProps],
      [CacheProps], [FilterProps], [ConnProps], [TunnelProps], [MainProps]: their
      theorems.
    - [HevIo] (hev-task-io-socket.c), [HevSocks] (hev-socks5-client.c and its
      classes, hev-socks5-misc.c, hev-socks5-udp.c, hev-socks5-session.c),
      [HevSocksProps]: the tunnel's side of the SOCKS protocol, with the proxy as
      its peer.
    - [HevUdp] (hev-utils.c, the way back in hev-socks5-session-udp.c): a datagram
      from lwIP to the proxy and back.
    - [HevRing] (hev-ring-buffer.c), [HevTcp], [HevTcpProps]
      (hev-socks5-session-tcp.c), [HevList] (hev-list.c), [HevFrames] (the frame
      queue of hev-socks5-session-udp.c).
    - [HevSched] (hev-task-system-schedule.c), [HevTunnel] (hev-task-mutex.c, the
      tasks of hev-socks5-tunnel.c, their sessions as hev-socks5-session.c runs
      them), [HevTunnelInv] (its invariant), [HevTunnelStop]: the scheduler and the
      tasks as a transition system, whose choices are what the environment decides.
    - [HevConfig], [HevConfigProps] (hev-config.c): from a YAML document to the
      settings.
    - [HevMain], [HevMainProps] (hev-main.c, hev-tunnel-linux.c, the start and end in
      hev-socks5-tunnel.c): what a run takes and gives back.
    - [Rhn] (helpers.c, helpers.h of pdnsd), [DnsName] (dns.c), [DnsNameProps]
      (decompression), [DnsCompress] (comparison and compression), [DnsMessage]
      (messages with several names), [RhnText] (names as text), [DnsParse]
      (which texts are names).
    - The cache of pdnsd, definitions: [DnsStore] (cache.h, rr_types.h: record types,
      entries, record sets and the state of memory), [DnsCents] (cache.c: building,
      copying, freeing and listing entries, the merge sort of the list), [DnsHash]
      (hash.c), [DnsCache] (the rest of cache.c: purging, conflicts, adding, looking
      up, emptying), [DnsHosts] (dns.c: reading hosts files), [DnsControl] (status.c).
    - The cache of pdnsd, proofs: [DnsRrl] (the list and its links with entries and
      sets; how computations are reasoned about, [crun]), [DnsSort], [DnsHeap] (the
      invariant [store_ok]), [DnsEntry], [DnsFree], [DnsCopy] (records, deletion and
      copies of entries), [DnsTable] (the hash table; the invariant [inv] of all),
      [DnsPurge], [DnsCent] (purging all, and one entry), [DnsMerge], [DnsAdd]
      ([cache_ok], which callers see, and what they keep: [frame]), [DnsLookup],
      [DnsEmpty], [DnsServe] (the control socket), [DnsSpec] (the properties, with runs).

    A definition has the name of the C function it translates.  A function whose
    body is long is split where the code has a block with one entry; the parts
    say which lines they are.  Pointers into a buffer are offsets of type [Z];
    pointers to events are indices of the pool; pointers to heap blocks are
    [positive]s.  A loop without a structural bound gets fuel.  Where the bound
    is a property of the data (a scan of a buffer, the height of a tree, the
    chain of paired events) the definition gives itself enough and theorems show
    that [OutOfFuel] does not occur; where only the environment ends the loop
    (the event loop, [on_accept], [on_tunnel], [on_udp_tunnel], [wait_send]) the
    fuel is an argument.

    ** The system

    [World.world] holds the program's state and an arbitrary function that
    answers system calls; [sane] restricts the answers to those the manual pages
    allow.  Every theorem about effects holds for all such systems, so for every
    interleaving of packets, short writes and failures.  A descriptor closed
    twice, an assertion that fails or a null pointer dereferenced is a [Fault],
    and so are bytes read that were never stored ([Uninit]) and a byte that lwIP
    refers to and that is no longer what it was ([Stale]).

    Tasks of the tunnel are cooperative: the model of a session lets any callbacks
    of lwIP run where the task waits (in the yielder, or for the mutex), and
    nowhere else.  lwIP answers calls and is otherwise bound only by what its
    interface says.  [HevTunnel] has the other view: all tasks, each at a place of
    its code, the scheduler that picks one, and of each session only what the others
    see of it (its timeout, its node in the list, its calls of lwIP).  A call of lwIP
    is there the list of its effects: packets for the device, new sessions, ended
    ones.  The theorem on stopping is about runs in which the device has room and
    the allocator memory; what can go wrong otherwise are concrete runs.

    The cache of pdnsd is a state of its own ([DnsStore.cache]): maps from addresses
    to entries, sets and list entries.  Addresses are not used twice, so that a use of
    freed memory, or a second release, is a [Fault], and a leak is an object that is
    left.  What [malloc] and [time] answer is a function in that state.  Functions run
    under the lock of the cache; where it is given up, what other threads do is an
    argument, bound only by keeping the cache consistent.

    ** Theorems

    - Parsers ([PacketsTls], [PacketsHttp]): no access outside the buffer for any
      bytes; the extension search equals a reference search over the list of
      extensions; what is built by the encoder of a ClientHello or a request is
      parsed back; a changed SNI, a changed header and a split record are
      exactly the intended packet.  The inputs where the code overflows are
      theorems too.
    - Tree and store ([KavlOps], [MpoolSpec]): any sequence of operations keeps
      the tree an AVL tree with right sizes, and acts as on a sorted list; the
      store acts as a finite map and gives every block back.
    - Sending ([DesyncSpec], [DesyncTtl], [DesyncLimits]): the bytes the peer gets
      are those of the modified packet, for every combination of modes and every
      answer of the system that the code does not mistake; no access outside the
      work buffer, for groups without HTTP rewriting and packets that do not fill
      it; no descriptor leaked; no lowered time-to-live left behind unless a
      [sendfile] fails.  The answers it does mistake are concrete runs.
    - Events ([ConevProps]): the invariant of the pool, of the pairs and of the
      batch of events; an event handed out is never one that was closed or reused
      since the batch was read; a connection is closed as a whole, each
      descriptor once.
    - Requests ([SocksProps]): an address is read inside its message, what is
      written is read back, a greeting gets the one answer it should.
    - Choice of a group ([CacheProps], [FilterProps]): the cache is a finite map
      with expiry; a connection gets the first group whose filters it passes, as a
      specification of its own says, if no group has a range of ports; after a
      failure the handlers try only later groups, so falling back ends.
    - Connections ([ConnProps], [TunnelProps]): opening one leaks no descriptor,
      whatever the system answers; relaying loses, repeats and reorders nothing.
    - Configuration ([MainProps]): every command line that is accepted gives
      options that the rest of the program can rely on.
    - Sessions of the tunnel ([HevRing], [HevTcpProps], [HevFrames]): the ring
      buffer is a bounded queue in which bytes stay until they are released; for
      every scheduling a TCP session relays both directions byte for byte, as long
      as no [tcp_write] fails, and lwIP sees no byte change before the session ends; a
      UDP session sends the first buffer of each datagram once, in order, and frees
      each frame and buffer once, if none is queued while it is destroyed.
    - Both programs ([HevSocksProps], [HevUdp]): the handshake, without pipelining and credentials,
      ends with the proxy knowing the destination of the session; a datagram arrives
      with its destination and payload, and a nonempty answer of at most 1500 bytes
      comes back from where it was sent to.
    - Tasks of the tunnel ([HevTunnelInv], [HevTunnelStop]): under every schedule at
      most one task is inside the mutex, the set of sessions is a well-formed list
      of those that live, no pointer goes wrong; in calm runs with finitely many events
      from outside a stop request ends every task, in every order, without a packet or
      a tick having to come.
    - Start and end ([HevConfigProps], [HevMainProps]): every document leaves
      well-formed settings, those of a specification, and is accepted exactly when that
      says so; a run releases what it took, on every path, except a known number of
      descriptors on each error, if pipes can be made non-blocking and there is memory
      for the connections of lwIP.
    - Names ([DnsNameProps], [DnsCompress], [DnsMessage], [RhnText]): decompression
      succeeds on exactly the messages that hold a name, within its limits, and ends
      on all; names written compressed one after the other are read back; the
      longest common end is found; what a name is printed as is parsed back.  A text is accepted exactly when it says a name.
    - Cache ([DnsSpec]): the hash table is a finite map of names without regard to
      case; [sort_rrl] sorts the list by age; purging keeps the invariant, with exact counts,
      and ends below the limit, unless only local records are left; copies are deep, and
      without memory leave nothing behind; the search by name and its wildcards; a
      look-up gives what the search finds, without what is out of date and nothing
      else; emptying deletes what the list of names selects; destroying leaves nothing.
    - Control socket ([DnsSpec]): whatever requests come of those that are modelled,
      however cut up, whatever files are read, each gets one answer and leaves a
      consistent cache without a leak.

    ** Not modelled

    Of the proxy: the Windows half of the sources ([win_service.c], [#ifdef
    _WIN32]), debug output, [daemonize] and the pid file, the parsing done inside
    [getopt_long] ([main] takes its results), [native-lib.c] (JNI glue that calls
    [main]) and the poll(2) variant of conev.c.  Of the tunnel: the YAML parser
    (its document is an argument), the JNI functions that start and join the
    thread, the object system (constructors and class tables), the second task of
    a UDP session, text of log lines, scripts, and the server role of its core,
    which the application does not use.  Of the task system: stacks, the reactor,
    timers, channels.  Of pdnsd: the functions of the lock, the file the
    cache is saved in, reports and dumps, the reverse records of the configuration,
    queries to servers and the threads that answer them, the configuration, and the
    commands of the control socket that report, change servers or read a
    configuration.  lwIP and the YAML parser are third-party; so
    is badvpn, which is bundled with the application. *)
From stdpp Require Export base tactics decidable option list numbers sorting gmap strings.
From Stdlib Require Export ZArith Lia ZifyBool.

#[global] Open Scope Z_scope.

(** * Results of C code: a value, or undefined behaviour

    Every translated routine is total in Rocq.  Where the C code would read or
    write outside an object, fail an [assert], or follow a null pointer, the
    translation returns [Fault]; where a loop is given fuel that turns out not
    to be enough it returns [Fault OutOfFuel], and theorems show that this last
    case does not occur. *)
Inductive fault : Set :=
  | OutOfBounds
  | AssertFail
  | NullDeref
  | BadFree
  | BadCast
  | Overflow       (* of a signed integer *)
  | DivByZero
  | Uninit         (* a value that was never stored is read *)
  | Stale          (* memory another component still uses was changed or freed *)
  | OutOfFuel.

Inductive res (A : Type) : Type :=
  | Ok (a : A)
  | Fault (e : fault).
Arguments Ok {_} _.
Arguments Fault {_} _.

#[export] Instance fault_eq_dec : EqDecision fault.
Proof. solve_decision. Defined.
#[export] Instance res_eq_dec {A} `{EqDecision A} : EqDecision (res A).
Proof. solve_decision. Defined.

#[export] Instance res_ret : MRet res := @Ok.
#[export] Instance res_bind : MBind res := fun A B f m =>
  match m with Ok a => f a | Fault e => Fault e end.

(** [succeeds m P]: [m] is defined behaviour and its value satisfies [P]. *)
Definition succeeds {A} (m : res A) (P : A -> Prop) : Prop :=
  match m with Ok a => P a | Fault _ => False end.

(** [allowed m P]: if [m] is defined behaviour, its value satisfies [P]. *)
Definition allowed {A} (m : res A) (P : A -> Prop) : Prop :=
  match m with Ok a => P a | Fault _ => True end.

Lemma succeeds_Ok {A} (m : res A) (P : A -> Prop) :
  succeeds m P <-> exists a, m = Ok a /\ P a.
Proof. destruct m; simpl; naive_solver. Qed.

Lemma succeeds_bind {A B} (m : res A) (f : A -> res B) (P : B -> Prop) :
  succeeds m (fun a => succeeds (f a) P) -> succeeds (m ≫= f) P.
Proof. by destruct m. Qed.

Lemma succeeds_mono {A} (m : res A) (P Q : A -> Prop) :
  succeeds m P -> (forall a, P a -> Q a) -> succeeds m Q.
Proof. destruct m; simpl; auto. Qed.

Lemma res_bind_Ok {A B} (m : res A) (f : A -> res B) (b : B) :
  m ≫= f = Ok b <-> exists a, m = Ok a /\ f a = Ok b.
Proof. destruct m as [a|e]; cbn; naive_solver. Qed.

Lemma res_bind_assoc {A B C} (m : res A) (f : A -> res B) (g : B -> res C) :
  (m ≫= f) ≫= g = m ≫= (fun a => f a ≫= g).
Proof. by destruct m. Qed.

(** * Machine integers

    An object of C type [uintN_t] is the [Z] it holds; the wrap-around of an
    assignment to it is written with these. *)
Definition u8 (z : Z) : Z := z mod 2 ^ 8.
Definition u16 (z : Z) : Z := z mod 2 ^ 16.
Definition u32 (z : Z) : Z := z mod 2 ^ 32.
Definition size_t (z : Z) : Z := z mod 2 ^ 64.
(** conversion to a signed [int] (two's complement) *)
Definition s32 (z : Z) : Z := (z + 2 ^ 31) mod 2 ^ 32 - 2 ^ 31.
Definition INT_MAX : Z := 2 ^ 31 - 1.
Definition UINT_MAX : Z := 2 ^ 32 - 1.
Definition LONG_MAX : Z := 2 ^ 63 - 1.
Definition LONG_MIN : Z := - 2 ^ 63.

Lemma u8_range z : 0 <= u8 z < 256.
Proof. unfold u8. apply Z.mod_pos_bound. lia. Qed.
Lemma u16_range z : 0 <= u16 z < 65536.
Proof. unfold u16. apply Z.mod_pos_bound. lia. Qed.
Lemma u8_small z : 0 <= z < 256 -> u8 z = z.
Proof. apply Z.mod_small. Qed.
Lemma u16_small z : 0 <= z < 65536 -> u16 z = z.
Proof. apply Z.mod_small. Qed.
Lemma size_t_small z : 0 <= z < 2 ^ 64 -> size_t z = z.
Proof. apply Z.mod_small. Qed.
Lemma s32_small z : - 2 ^ 31 <= z < 2 ^ 31 -> s32 z = z.
Proof. intros. unfold s32. rewrite Z.mod_small; lia. Qed.

(** * Bytes in memory

    An object of [n] chars is a list of [n] integers; pointers into it are
    offsets of type [Z], so that arithmetic before the first byte or past the
    last can be written as the code does, and faults when used. *)
Notation zlen l := (Z.of_nat (length l)).

Definition byte_at (b : list Z) (i : Z) : Z := nth (Z.to_nat i) b 0.
Definition is_bytes (b : list Z) : Prop := Forall (fun x => 0 <= x < 256) b.

(** [b[i]] *)
Definition rd (b : list Z) (i : Z) : res Z :=
  if (0 <=? i) && (i <? zlen b) then Ok (byte_at b i) else Fault OutOfBounds.

(** [b[i] = v] *)
Definition wr (b : list Z) (i v : Z) : res (list Z) :=
  if (0 <=? i) && (i <? zlen b) then Ok (<[Z.to_nat i := v]> b)
  else Fault OutOfBounds.

(** The [n] bytes at offset [o]. *)
Definition sub (b : list Z) (o n : Z) : list Z :=
  take (Z.to_nat n) (drop (Z.to_nat o) b).

(** [b] with the bytes from offset [o] on overwritten by [d]. *)
Definition put (b : list Z) (o : Z) (d : list Z) : list Z :=
  take (Z.to_nat o) b ++ d ++ drop (Z.to_nat o + length d) b.

Definition in_range (b : list Z) (o n : Z) : bool :=
  (0 <=? o) && (0 <=? n) && (o + n <=? zlen b).

(** read or write [n] bytes at once; an empty block is always permitted *)
Definition rdn (b : list Z) (o n : Z) : res (list Z) :=
  if n =? 0 then Ok [] else
  if in_range b o n then Ok (sub b o n) else Fault OutOfBounds.
Definition wrn (b : list Z) (o : Z) (d : list Z) : res (list Z) :=
  if zlen d =? 0 then Ok b else
  if in_range b o (zlen d) then Ok (put b o d) else Fault OutOfBounds.

(** The characters of a string literal, without its terminating NUL. *)
Definition chars (s : string) : list Z :=
  map (fun a => Z.of_N (Ascii.N_of_ascii a)) (String.list_ascii_of_string s).

(** a character constant, as the [Z] it is promoted to *)
Definition chr (s : string) : Z := byte_at (chars s) 0.

(** * Tactics *)

(** Split on every integer comparison that decides an [if] or a boolean. *)
Ltac zcase :=
  match goal with
  | |- context [?a <? ?b] => destruct (Z.ltb_spec a b)
  | |- context [?a <=? ?b] => destruct (Z.leb_spec a b)
  | |- context [?a =? ?b] => destruct (Z.eqb_spec a b)
  end; cbn [andb orb negb].
(** Split on the condition of the outermost [if]; [lia] reads the resulting
    boolean equation. *)
Ltac ccase :=
  match goal with
  | |- context [if ?c then _ else _] => destruct c eqn:?
  end.
Ltac zcases := repeat zcase; try lia.

Ltac zcase_in H :=
  match type of H with
  | context [?a <? ?b] => destruct (Z.ltb_spec a b)
  | context [?a <=? ?b] => destruct (Z.leb_spec a b)
  | context [?a =? ?b] => destruct (Z.eqb_spec a b)
  end; cbn [andb orb negb] in H.

(** Open a chain of binds known to succeed. *)
Ltac invert_ok H :=
  repeat match type of H with
  | mbind _ _ = Ok _ =>
      let x := fresh "v" in let Hx := fresh "Hv" in
      apply res_bind_Ok in H as (x & Hx & H)
  | (if ?c then _ else Fault _) = Ok _ => destruct c eqn:?; [|discriminate H]
  | (if ?c then Fault _ else _) = Ok _ => destruct c eqn:?; [discriminate H|]
  | mret _ = Ok _ => injection H as H
  | Ok _ = Ok _ => injection H as H
  | Fault _ = Ok _ => discriminate H
  end.

Ltac bool_lia :=
  repeat match goal with
  | H : _ && _ = true |- _ => apply andb_prop in H as [? ?]
  | H : _ || _ = false |- _ => apply orb_false_iff in H as [? ?]
  end; lia.

(** * Lemmas on blocks of bytes *)
Section Blocks.
Implicit Types b d : list Z.

Lemma rd_ok b i : 0 <= i < zlen b -> rd b i = Ok (byte_at b i).
Proof. intros. unfold rd. zcases; reflexivity. Qed.

Lemma rd_Ok b i v : rd b i = Ok v <-> 0 <= i < zlen b /\ v = byte_at b i.
Proof.
  unfold rd. destruct (Z.leb_spec 0 i), (Z.ltb_spec i (zlen b)); simpl;
    split; intros; simplify_eq; try lia; naive_solver lia.
Qed.

Lemma rd_fault b i e : rd b i = Fault e -> ~ 0 <= i < zlen b.
Proof. unfold rd. zcases; done. Qed.

Lemma wr_ok b i v : 0 <= i < zlen b -> wr b i v = Ok (<[Z.to_nat i := v]> b).
Proof. intros. unfold wr. zcases; reflexivity. Qed.

Lemma wr_Ok b i v b' :
  wr b i v = Ok b' <-> 0 <= i < zlen b /\ b' = <[Z.to_nat i := v]> b.
Proof.
  unfold wr. destruct (Z.leb_spec 0 i), (Z.ltb_spec i (zlen b)); simpl;
    split; intros; simplify_eq; try lia; naive_solver lia.
Qed.

Lemma byte_at_lookup b i : 0 <= i < zlen b -> b !! Z.to_nat i = Some (byte_at b i).
Proof.
  intros H. unfold byte_at.
  destruct (lookup_lt_is_Some_2 b (Z.to_nat i)) as [x Hx]; [lia|].
  by rewrite Hx, (nth_lookup_Some _ _ _ _ Hx).
Qed.

Lemma byte_at_default b i : ~ i < zlen b -> byte_at b i = 0.
Proof. intros. unfold byte_at. apply nth_overflow. lia. Qed.

(** Two blocks are equal when they have the same length and bytes. *)
Lemma bytes_ext b d :
  length b = length d ->
  (forall i, 0 <= i < zlen b -> byte_at b i = byte_at d i) -> b = d.
Proof.
  intros Hl H. apply list_eq_same_length with (length b); auto.
  intros i x y Hi Hx Hy. specialize (H (Z.of_nat i) ltac:(lia)).
  unfold byte_at in H. rewrite Nat2Z.id in H.
  by rewrite (nth_lookup_Some _ _ _ _ Hx), (nth_lookup_Some _ _ _ _ Hy) in H.
Qed.

Lemma byte_at_range b i : is_bytes b -> 0 <= byte_at b i < 256.
Proof.
  intros Hb. unfold byte_at. destruct (nth_in_or_default (Z.to_nat i) b 0) as [Hin| ->]; [|lia].
  unfold is_bytes in Hb. rewrite List.Forall_forall in Hb. auto.
Qed.

Lemma byte_at_insert b i j v :
  0 <= i < zlen b -> 0 <= j ->
  byte_at (<[Z.to_nat i := v]> b) j = if j =? i then v else byte_at b j.
Proof.
  intros Hi Hj. unfold byte_at. rewrite !nth_lookup. zcases.
  - subst. rewrite list_lookup_insert_eq; [done|lia].
  - rewrite list_lookup_insert_ne; [done|lia].
Qed.

Lemma length_sub b o n :
  0 <= o -> 0 <= n -> o + n <= zlen b -> length (sub b o n) = Z.to_nat n.
Proof. intros. unfold sub. rewrite length_take, length_drop. lia. Qed.

Lemma zlen_sub b o n :
  0 <= o -> 0 <= n -> o + n <= zlen b -> zlen (sub b o n) = n.
Proof. intros. rewrite length_sub; lia. Qed.

Lemma byte_at_sub b o n i :
  0 <= o -> 0 <= i < n -> byte_at (sub b o n) i = byte_at b (o + i).
Proof.
  intros. unfold byte_at, sub. rewrite !nth_lookup.
  rewrite lookup_take_lt by lia. rewrite lookup_drop. do 2 f_equal. lia.
Qed.

Lemma length_put b o d :
  0 <= o -> o + zlen d <= zlen b -> length (put b o d) = length b.
Proof. intros. unfold put. rewrite !length_app, length_take, length_drop. lia. Qed.

Lemma byte_at_app b d i :
  0 <= i ->
  byte_at (b ++ d) i = if i <? zlen b then byte_at b i else byte_at d (i - zlen b).
Proof.
  intros. unfold byte_at. zcases.
  - apply app_nth1. lia.
  - rewrite app_nth2 by lia. f_equal. lia.
Qed.

Lemma byte_at_put b o d i :
  0 <= o -> o + zlen d <= zlen b -> 0 <= i ->
  byte_at (put b o d) i =
    if (o <=? i) && (i <? o + zlen d) then byte_at d (i - o) else byte_at b i.
Proof.
  intros Ho Hl Hi. unfold put.
  assert (Hz : zlen (take (Z.to_nat o) b) = o) by (rewrite length_take; lia).
  rewrite byte_at_app by lia. rewrite Hz.
  zcases.
  - unfold byte_at. rewrite !nth_lookup, lookup_take_lt by lia. done.
  - rewrite byte_at_app by lia. zcases; done.
  - rewrite byte_at_app by lia. zcases.
    unfold byte_at. rewrite !nth_lookup, lookup_drop. do 2 f_equal. lia.
Qed.

Lemma put_nil b o : 0 <= o -> put b o [] = b.
Proof. intros. unfold put. simpl. by rewrite Nat.add_0_r, take_drop. Qed.

Lemma rdn_ok b o n :
  0 <= o -> 0 <= n -> o + n <= zlen b -> rdn b o n = Ok (sub b o n).
Proof.
  intros. unfold rdn, in_range. zcases; [|done].
  subst. unfold sub. by rewrite take_0.
Qed.

Lemma rdn_Ok b o n d :
  rdn b o n = Ok d -> 0 <= n /\ zlen d = n /\
  (n = 0 \/ (0 <= o /\ o + n <= zlen b)) /\ d = sub b o n.
Proof.
  unfold rdn, in_range. destruct (Z.eqb_spec n 0) as [->|Hn].
  - intros [= <-]. unfold sub. rewrite take_0. split_and!; auto; lia.
  - intros H. repeat zcase_in H; try discriminate H. injection H as <-.
    rewrite zlen_sub by lia. split_and!; auto; lia.
Qed.

Lemma wrn_ok b o d :
  0 <= o -> o + zlen d <= zlen b -> wrn b o d = Ok (put b o d).
Proof.
  intros. unfold wrn, in_range. zcases; [|done].
  destruct d; simpl in *; [|lia]. by rewrite put_nil.
Qed.

Lemma wrn_Ok b o d b' :
  wrn b o d = Ok b' ->
  (zlen d = 0 /\ b' = b) \/ (0 <= o /\ o + zlen d <= zlen b /\ b' = put b o d).
Proof.
  unfold wrn, in_range. destruct (Z.eqb_spec (zlen d) 0) as [E|Hn].
  - intros [= <-]. auto.
  - intros H. repeat zcase_in H; try discriminate H. injection H as <-. right. auto.
Qed.

Lemma sub_app_join b o n m :
  0 <= o -> 0 <= n -> 0 <= m -> o + n + m <= zlen b ->
  sub b o n ++ sub b (o + n) m = sub b o (n + m).
Proof.
  intros. unfold sub.
  replace (Z.to_nat (n + m)) with (Z.to_nat n + Z.to_nat m)%nat by lia.
  rewrite <- take_take_drop, drop_drop. do 3 f_equal. lia.
Qed.

Lemma sub_all b : sub b 0 (zlen b) = b.
Proof. unfold sub. rewrite drop_0, take_ge; [done|lia]. Qed.

Lemma sub_app_l b d o n :
  0 <= o -> 0 <= n -> o + n <= zlen b -> sub (b ++ d) o n = sub b o n.
Proof.
  intros. unfold sub. rewrite drop_app_le by lia.
  rewrite take_app_le; [done|]. rewrite length_drop. lia.
Qed.

Lemma sub_app_r b d o n :
  zlen b <= o -> sub (b ++ d) o n = sub d (o - zlen b) n.
Proof.
  intros. unfold sub. rewrite drop_app_ge by lia. do 2 f_equal. lia.
Qed.
Lemma put_app b o d1 d2 : 0 <= o -> o + zlen d1 + zlen d2 <= zlen b ->
  put (put b o d1) (o + zlen d1) d2 = put b o (d1 ++ d2).
Proof.
  intros. apply bytes_ext.
  - rewrite !length_put; rewrite ?length_app, ?length_put; lia.
  - rewrite !length_put by (rewrite ?length_put; lia). intros i Hi.
    rewrite !byte_at_put by (rewrite ?length_put, ?length_app; lia).
    rewrite length_app. destruct ((o + zlen d1 <=? i) && (i <? o + zlen d1 + zlen d2)) eqn:E1.
    + replace ((o <=? i) && (i <? o + Z.of_nat (length d1 + length d2))) with true by lia.
      rewrite byte_at_app by lia. replace (i - o <? zlen d1) with false by lia. f_equal. lia.
    + destruct ((o <=? i) && (i <? o + zlen d1)) eqn:E2.
      * replace ((o <=? i) && (i <? o + Z.of_nat (length d1 + length d2))) with true by lia.
        rewrite byte_at_app by lia. by replace (i - o <? zlen d1) with true by lia.
      * by replace ((o <=? i) && (i <? o + Z.of_nat (length d1 + length d2))) with false by lia.
Qed.

Lemma sub_put_out b o d i n : 0 <= o -> o + zlen d <= zlen b -> 0 <= i -> 0 <= n -> i + n <= zlen b ->
  i + n <= o \/ o + zlen d <= i -> sub (put b o d) i n = sub b i n.
Proof.
  intros. apply bytes_ext.
  - rewrite !length_sub; rewrite ?length_put; lia.
  - rewrite zlen_sub by (rewrite ?length_put; lia). intros j Hj.
    rewrite !byte_at_sub by lia. rewrite byte_at_put by lia.
    by replace ((o <=? i + j) && (i + j <? o + zlen d)) with false by lia.
Qed.

Lemma sub_put_in b o d i n : 0 <= o -> o + zlen d <= zlen b -> o <= i -> 0 <= n -> i + n <= o + zlen d ->
  sub (put b o d) i n = sub d (i - o) n.
Proof.
  intros. apply bytes_ext.
  - rewrite !length_sub; rewrite ?length_put; lia.
  - rewrite zlen_sub by (rewrite ?length_put; lia). intros j Hj.
    rewrite !byte_at_sub by lia. rewrite byte_at_put by lia.
    replace ((o <=? i + j) && (i + j <? o + zlen d)) with true by lia. f_equal. lia.
Qed.

Lemma sub_put_same b o d : 0 <= o -> o + zlen d <= zlen b -> sub (put b o d) o (zlen d) = d.
Proof. intros. rewrite sub_put_in by lia. by rewrite Z.sub_diag, sub_all. Qed.
Lemma insert_put b o v : 0 <= o < zlen b -> <[Z.to_nat o := v]> b = put b o [v].
Proof.
  intros Ho. apply bytes_ext; [rewrite length_put, length_insert; cbn [length]; lia|].
  intros i Hi. rewrite length_insert in Hi. rewrite byte_at_insert, byte_at_put by (cbn [length]; lia). cbn [length]. zcases; try done.
  subst. by rewrite Z.sub_diag.
Qed.

End Blocks.

(** [rstep] evaluates the read at the head of a bind, its bounds left to [lia];
    [rstep_hook] is extended by the files that add reading operations. *)
Ltac rstep_hook m := fail.
Ltac rstep :=
  lazymatch goal with
  | |- context [@mbind res _ _ _ _ ?m] =>
      lazymatch m with
      | rd ?b ?i => rewrite (rd_ok b i) by (rewrite ?length_insert; lia)
      | Ok _ => idtac
      | mret _ => idtac
      | _ => rstep_hook m
      end
  end; cbn [mbind res_bind mret res_ret].

Create HintDb bytes.
#[export] Hint Resolve u8_range u16_range byte_at_range : bytes.

(** Bounded quantification over indices, by evaluation. *)
Lemma forall_upto (P : Z -> bool) (k : nat) :
  forallb (fun i => P (Z.of_nat i)) (seq 0 k) = true ->
  forall i, 0 <= i < Z.of_nat k -> P i = true.
Proof.
  rewrite forallb_forall. intros H i Hi. rewrite <- (Z2Nat.id i) by lia.
  apply H, in_seq. lia.
Qed.
