(* ===== verification/CLib.v ===== *)
(** The parts of the C library that the program calls on byte buffers
    ([<ctype.h>], [<string.h>], [strtol]), as executable definitions on the
    buffers of [Prelude], with the lemmas the parsers are verified with. *)
From S2P Require Import Prelude.

(** * Characters, in the "C" locale *)
Definition isspace (c : Z) : bool := ((9 <=? c) && (c <=? 13)) || (c =? 32).
Definition isblank (c : Z) : bool := (c =? 9) || (c =? 32).
Definition isdigit (c : Z) : bool := (48 <=? c) && (c <=? 57).
Definition tolower (c : Z) : Z := if (65 <=? c) && (c <=? 90) then c + 32 else c.
Definition toupper (c : Z) : Z := if (97 <=? c) && (c <=? 122) then c - 32 else c.

(** * Scanning loops

    [scan_while f b p] is [while (f(b[p])) p++;] and [scan_back f b p] is
    [while (f(b[p-1])) p--;].  The fuel covers the whole object, and every step
    reads a byte, so the loops end by finding a byte or by leaving the object. *)
Fixpoint scan_loop (fuel : nat) (f : Z -> bool) (b : list Z) (p : Z) : res Z :=
  match fuel with
  | O => Fault OutOfFuel
  | S k => c ← rd b p; if f c then scan_loop k f b (p + 1) else mret p
  end.
Definition scan_while f b p : res Z := scan_loop (S (length b)) f b p.

Fixpoint scan_back_loop (fuel : nat) (f : Z -> bool) (b : list Z) (p : Z) : res Z :=
  match fuel with
  | O => Fault OutOfFuel
  | S k => c ← rd b (p - 1); if f c then scan_back_loop k f b (p - 1) else mret p
  end.
Definition scan_back f b p : res Z := scan_back_loop (S (length b)) f b p.

(** * [<string.h>]

    A length is converted to [size_t] first.  [memchr] and the comparison
    functions read one byte at a time and stop at the first decisive one; a
    count that exceeds the object by any amount behaves like one that exceeds
    it by one byte, which bounds the recursion. *)
Fixpoint memchr_loop (k : nat) (b : list Z) (p c : Z) : res (option Z) :=
  match k with
  | O => mret None
  | S k => v ← rd b p; if v =? c then mret (Some p) else memchr_loop k b (p + 1) c
  end.
Definition memchr (b : list Z) (p c n : Z) : res (option Z) :=
  memchr_loop (Z.to_nat (Z.min (size_t n) (zlen b + 1))) b p c.

Fixpoint strncmp_loop (fold : Z -> Z) (k : nat) (b1 : list Z) (p1 : Z)
    (b2 : list Z) (p2 : Z) : res Z :=
  match k with
  | O => mret 0
  | S k =>
      x ← rd b1 p1; y ← rd b2 p2;
      if fold x =? fold y then
        if x =? 0 then mret 0 else strncmp_loop fold k b1 (p1 + 1) b2 (p2 + 1)
      else mret (fold x - fold y)
  end.
Definition strncmp_with fold b1 p1 b2 p2 n : res Z :=
  strncmp_loop fold (Z.to_nat (Z.min (size_t n) (zlen b1 + zlen b2 + 1))) b1 p1 b2 p2.
Definition strncmp := strncmp_with id.
Definition strncasecmp := strncmp_with tolower.

Fixpoint cmp_bytes (l1 l2 : list Z) : Z :=
  match l1, l2 with
  | x :: l1, y :: l2 => if x =? y then cmp_bytes l1 l2 else x - y
  | _, _ => 0
  end.
(** [memcmp] may read all [n] bytes of both objects. *)
Definition memcmp (b1 : list Z) (p1 : Z) (b2 : list Z) (p2 n : Z) : res Z :=
  x ← rdn b1 p1 (size_t n); y ← rdn b2 p2 (size_t n); mret (cmp_bytes x y).

Definition memmove (b : list Z) (dst src n : Z) : res (list Z) :=
  d ← rdn b src (size_t n); wrn b dst d.
Definition memset (b : list Z) (dst c n : Z) : res (list Z) :=
  if in_range b dst (size_t n) || (size_t n =? 0)
  then wrn b dst (replicate (Z.to_nat (size_t n)) c) else Fault OutOfBounds.

(** A C string constant as an object: its characters and the final NUL. *)
Definition cstr (s : string) : list Z := chars s ++ [0].
Definition strlen (s : list Z) (p : Z) : res Z :=
  q ← scan_while (fun c => negb (c =? 0)) s p; mret (q - p).

(** * [strtol] *)
Definition digit_val (c : Z) : Z :=
  if isdigit c then c - 48
  else if (97 <=? c) && (c <=? 122) then c - 87
  else if (65 <=? c) && (c <=? 90) then c - 55 else 99.

Fixpoint digits_loop (fuel : nat) (base : Z) (b : list Z) (p acc : Z) : res (Z * Z) :=
  match fuel with
  | O => Fault OutOfFuel
  | S k =>
      c ← rd b p;
      if digit_val c <? base
      then digits_loop k base b (p + 1) (acc * base + digit_val c)
      else mret (acc, p)
  end.

Definition clamp_long (z : Z) : Z := Z.max LONG_MIN (Z.min LONG_MAX z).

(** [strtol(b + p, &end, base)]: the value and [end], for base 10 or 0. *)
Definition strtol (b : list Z) (p base : Z) : res (Z * Z) :=
  q ← scan_while isspace b p;
  c ← rd b q;
  let neg := c =? 45 in
  let q := if neg || (c =? 43) then q + 1 else q in
  c ← rd b q;
  '(base, q) ←
    (if base =? 0 then
       if c =? 48 then
         c1 ← rd b (q + 1);
         if (c1 =? 120) || (c1 =? 88) then
           c2 ← rd b (q + 2);
           mret (if digit_val c2 <? 16 then (16, q + 2) else (8, q))
         else mret (8, q)
       else mret (10, q)
     else mret (base, q) : res (Z * Z));
  '(v, e) ← digits_loop (S (length b)) base b q 0;
  if e =? q then mret (0, p)
  else mret (clamp_long (if neg then - v else v), e).

(** * Specifications *)
Section Scans.
Variable f : Z -> bool.

Lemma scan_loop_Ok b fuel p q :
  scan_loop fuel f b p = Ok q ->
  0 <= p <= q /\ q < zlen b /\
  (forall i, p <= i < q -> f (byte_at b i) = true) /\ f (byte_at b q) = false.
Proof.
  revert p. induction fuel as [|k IH]; intros p H; [done|].
  cbn in H. invert_ok H. apply rd_Ok in Hv as [Hp ->].
  destruct (f (byte_at b p)) eqn:Hf.
  - destruct (IH _ H) as (? & ? & Hall & ?). split_and!; auto; try lia.
    intros i Hi. destruct (decide (i = p)) as [->|]; [done|apply Hall; lia].
  - injection H as <-. split_and!; auto; lia.
Qed.

Lemma scan_loop_ok b fuel p q :
  0 <= p <= q -> q < zlen b -> q - p < Z.of_nat fuel ->
  (forall i, p <= i < q -> f (byte_at b i) = true) ->
  f (byte_at b q) = false -> scan_loop fuel f b p = Ok q.
Proof.
  revert p. induction fuel as [|k IH]; intros p Hp Hq Hk Hall Hf; [lia|].
  cbn. rewrite rd_ok by lia. cbn.
  destruct (decide (p = q)) as [->|]; [by rewrite Hf|].
  rewrite Hall by lia. apply IH; try lia; auto. intros; apply Hall; lia.
Qed.

Lemma scan_while_Ok b p q :
  scan_while f b p = Ok q <->
  0 <= p <= q /\ q < zlen b /\
  (forall i, p <= i < q -> f (byte_at b i) = true) /\ f (byte_at b q) = false.
Proof.
  split; [apply scan_loop_Ok|]. intros (?&?&?&?). apply scan_loop_ok; auto; lia.
Qed.

Lemma scan_loop_fuel b fuel p :
  0 <= p <= zlen b -> zlen b - p < Z.of_nat fuel -> scan_loop fuel f b p <> Fault OutOfFuel.
Proof.
  revert p. induction fuel as [|k IH]; intros p Hp Hk; [lia|].
  cbn. destruct (rd b p) as [c|e] eqn:E; cbn.
  - apply rd_Ok in E as [? ->]. case_match; [apply IH; lia|done].
  - intros [= ->]. unfold rd in E. by case_match.
Qed.

(** The scan succeeds whenever some byte from [p] on stops it. *)
Lemma scan_while_total b p j :
  0 <= p <= j -> j < zlen b -> f (byte_at b j) = false ->
  exists q, scan_while f b p = Ok q /\ p <= q <= j.
Proof.
  intros Hp Hj Hf. remember (Z.to_nat (j - p)) as n eqn:Hn.
  revert p Hp Hn. induction n as [|n IH]; intros p Hp Hn.
  - exists p. split; [|lia]. assert (p = j) as -> by lia.
    apply scan_while_Ok. split_and!; auto; lia.
  - destruct (f (byte_at b p)) eqn:Hfp.
    + destruct (IH (p + 1)) as (q & Hq & ?); [lia|lia|].
      exists q. split; [|lia]. apply scan_while_Ok in Hq as (?&?&Hall&?).
      apply scan_while_Ok. split_and!; auto; try lia.
      intros i Hi. destruct (decide (i = p)) as [->|]; [done|apply Hall; lia].
    + exists p. split; [|lia]. apply scan_while_Ok. split_and!; auto; lia.
Qed.

Lemma scan_back_loop_Ok b fuel p q :
  scan_back_loop fuel f b p = Ok q ->
  1 <= q <= p /\ p <= zlen b /\
  (forall i, q <= i < p -> f (byte_at b i) = true) /\ f (byte_at b (q - 1)) = false.
Proof.
  revert p. induction fuel as [|k IH]; intros p H; [done|].
  cbn in H. invert_ok H. apply rd_Ok in Hv as [Hp ->].
  destruct (f (byte_at b (p - 1))) eqn:Hf.
  - destruct (IH _ H) as (? & ? & Hall & ?). split_and!; auto; try lia.
    intros i Hi. destruct (decide (i = p - 1)) as [->|]; [done|apply Hall; lia].
  - injection H as <-. split_and!; auto; lia.
Qed.

Lemma scan_back_loop_ok b fuel p q :
  1 <= q <= p -> p <= zlen b -> p - q < Z.of_nat fuel ->
  (forall i, q <= i < p -> f (byte_at b i) = true) ->
  f (byte_at b (q - 1)) = false -> scan_back_loop fuel f b p = Ok q.
Proof.
  revert p. induction fuel as [|k IH]; intros p Hp Hq Hk Hall Hf; [lia|].
  cbn. rewrite rd_ok by lia. cbn.
  destruct (decide (p = q)) as [->|]; [by rewrite Hf|].
  rewrite Hall by lia. apply IH; try lia; auto. intros; apply Hall; lia.
Qed.

Lemma scan_back_Ok b p q :
  scan_back f b p = Ok q <->
  1 <= q <= p /\ p <= zlen b /\
  (forall i, q <= i < p -> f (byte_at b i) = true) /\ f (byte_at b (q - 1)) = false.
Proof.
  split; [apply scan_back_loop_Ok|]. intros (?&?&?&?).
  apply scan_back_loop_ok; auto; lia.
Qed.

(** The backward scan succeeds whenever some byte before [p] stops it. *)
Lemma scan_back_total b p j :
  0 <= j < p -> p <= zlen b -> f (byte_at b j) = false ->
  exists q, scan_back f b p = Ok q /\ j < q <= p.
Proof.
  intros Hj Hp Hf. remember (Z.to_nat (p - j)) as n eqn:Hn.
  revert p Hj Hp Hn. induction n as [|n IH]; intros p Hj Hp Hn; [lia|].
  destruct (f (byte_at b (p - 1))) eqn:Hfp.
  - assert (j <> p - 1) by congruence.
    destruct (IH (p - 1)) as (q & Hq & ?); [lia|lia|lia|].
    exists q. split; [|lia]. apply scan_back_Ok in Hq as (?&?&Hall&?).
    apply scan_back_Ok. split_and!; auto; try lia.
    intros i Hi. destruct (decide (i = p - 1)) as [->|]; [done|apply Hall; lia].
  - exists p. split; [|lia]. apply scan_back_Ok. split_and!; auto; lia.
Qed.
End Scans.

Section Memchr.
Implicit Types b : list Z.

Lemma memchr_loop_Some b k p c q :
  memchr_loop k b p c = Ok (Some q) ->
  0 <= p <= q /\ q < p + Z.of_nat k /\ q < zlen b /\ byte_at b q = c /\
  (forall i, p <= i < q -> byte_at b i <> c).
Proof.
  revert p. induction k as [|k IH]; intros p H; [done|].
  cbn in H. invert_ok H. apply rd_Ok in Hv as [Hp ->].
  destruct (Z.eqb_spec (byte_at b p) c) as [Hc|Hc].
  - injection H as <-. split_and!; auto; lia.
  - destruct (IH _ H) as (?&?&?&?&Hall). split_and!; auto; try lia.
    intros i Hi. destruct (decide (i = p)) as [->|]; [done|apply Hall; lia].
Qed.

Lemma memchr_loop_None b k p c :
  memchr_loop k b p c = Ok None ->
  (k = 0%nat \/ (0 <= p /\ p + Z.of_nat k <= zlen b)) /\
  (forall i, p <= i < p + Z.of_nat k -> byte_at b i <> c).
Proof.
  revert p. induction k as [|k IH]; intros p H; [split; [auto|lia]|].
  cbn in H. invert_ok H. apply rd_Ok in Hv as [Hp ->].
  destruct (Z.eqb_spec (byte_at b p) c) as [Hc|Hc]; [done|].
  destruct (IH _ H) as (Hr & Hall). split; [lia|].
  intros i Hi. destruct (decide (i = p)) as [->|]; [done|apply Hall; lia].
Qed.

Lemma memchr_loop_first b k p c q :
  0 <= p <= q -> q < p + Z.of_nat k -> q < zlen b -> byte_at b q = c ->
  (forall i, p <= i < q -> byte_at b i <> c) -> memchr_loop k b p c = Ok (Some q).
Proof.
  revert p. induction k as [|k IH]; intros p Hp Hk Hq Hc Hall; [lia|].
  cbn. rewrite rd_ok by lia. cbn.
  destruct (Z.eqb_spec (byte_at b p) c) as [E|E].
  - destruct (decide (p = q)) as [->|]; [done|]. destruct (Hall p); [lia|done].
  - apply IH; auto; try lia; [|intros; apply Hall; lia].
    destruct (decide (p = q)) as [->|]; [done|lia].
Qed.

Lemma memchr_loop_none b k p c :
  0 <= p -> p + Z.of_nat k <= zlen b ->
  (forall i, p <= i < p + Z.of_nat k -> byte_at b i <> c) ->
  memchr_loop k b p c = Ok None.
Proof.
  revert p. induction k as [|k IH]; intros p Hp Hk Hall; [done|].
  cbn. rewrite rd_ok by lia. cbn.
  destruct (Z.eqb_spec (byte_at b p) c) as [E|E]; [destruct (Hall p); [lia|done]|].
  apply IH; try lia. intros; apply Hall; lia.
Qed.

Context (b : list Z) (p c n : Z) (Hp : 0 <= p) (Hn : 0 <= n) (Hlen : p + n <= zlen b).
Hypothesis Hsmall : zlen b < 2 ^ 63.

Lemma memchr_eq : memchr b p c n = memchr_loop (Z.to_nat n) b p c.
Proof. unfold memchr. rewrite size_t_small by lia. f_equal. lia. Qed.

Lemma memchr_Some q :
  memchr b p c n = Ok (Some q) <->
  p <= q < p + n /\ byte_at b q = c /\ (forall i, p <= i < q -> byte_at b i <> c).
Proof.
  rewrite memchr_eq. split.
  - intros (?&?&?&?&?)%memchr_loop_Some. split_and!; auto; lia.
  - intros (?&?&?). apply memchr_loop_first; auto; lia.
Qed.

Lemma memchr_None :
  memchr b p c n = Ok None <-> (forall i, p <= i < p + n -> byte_at b i <> c).
Proof.
  rewrite memchr_eq. split.
  - intros [_ H]%memchr_loop_None. intros; apply H; lia.
  - intros H. apply memchr_loop_none; try lia. intros; apply H; lia.
Qed.

Lemma memchr_total : exists o, memchr b p c n = Ok o.
Proof.
  rewrite memchr_eq.
  enough (forall k p, 0 <= p -> p + Z.of_nat k <= zlen b -> exists o, memchr_loop k b p c = Ok o)
    as H by (apply H; lia).
  clear. intros k. induction k as [|k IH]; intros p Hp Hk; [by eexists|].
  cbn. rewrite rd_ok by lia. cbn. case_match; [by eexists|apply IH; lia].
Qed.
End Memchr.

Section Compare.
Variable fold : Z -> Z.

(** Two ranges without NUL compare equal exactly when they agree bytewise. *)
Lemma strncmp_loop_zero k b1 p1 b2 p2 :
  0 <= p1 -> p1 + Z.of_nat k <= zlen b1 -> 0 <= p2 -> p2 + Z.of_nat k <= zlen b2 ->
  exists z, strncmp_loop fold k b1 p1 b2 p2 = Ok z /\
    ((forall i, 0 <= i < Z.of_nat k -> byte_at b2 (p2 + i) <> 0 /\ fold 0 <> fold (byte_at b2 (p2 + i))) ->
     z = 0 <-> forall i, 0 <= i < Z.of_nat k ->
                 fold (byte_at b1 (p1 + i)) = fold (byte_at b2 (p2 + i))).
Proof.
  revert p1 p2. induction k as [|k IH]; intros p1 p2 H1 H1' H2 H2'.
  { exists 0. split; [done|]. intros _. split; [intros _ i Hi; lia|done]. }
  cbn. rewrite !rd_ok by lia. cbn.
  destruct (IH (p1 + 1) (p2 + 1)) as (z & Hz & Hzz); try lia.
  destruct (Z.eqb_spec (fold (byte_at b1 p1)) (fold (byte_at b2 p2))) as [E|E].
  - destruct (Z.eqb_spec (byte_at b1 p1) 0) as [E0|E0].
    + exists 0. split; [done|]. intros Hb2. exfalso.
      destruct (Hb2 0) as [_ Hc]; [lia|]. rewrite Z.add_0_r in Hc. congruence.
    + exists z. split; [done|]. intros Hb2. rewrite Hzz.
      * split; intros Hall i Hi.
        -- destruct (decide (i = 0)) as [->|]; [by rewrite !Z.add_0_r|].
           specialize (Hall (i - 1) ltac:(lia)).
           by replace (p1 + i) with (p1 + 1 + (i - 1)) by lia;
              replace (p2 + i) with (p2 + 1 + (i - 1)) by lia.
        -- specialize (Hall (i + 1) ltac:(lia)).
           by replace (p1 + 1 + i) with (p1 + (i + 1)) by lia;
              replace (p2 + 1 + i) with (p2 + (i + 1)) by lia.
      * intros i Hi. specialize (Hb2 (i + 1) ltac:(lia)).
        by replace (p2 + 1 + i) with (p2 + (i + 1)) by lia.
  - eexists. split; [done|]. intros _. split; [intros; lia|].
    intros Hall. specialize (Hall 0 ltac:(lia)). rewrite !Z.add_0_r in Hall. congruence.
Qed.
End Compare.

Lemma cmp_bytes_refl l : cmp_bytes l l = 0.
Proof. induction l; simpl; [done|]. by rewrite Z.eqb_refl. Qed.

Lemma cmp_bytes_zero l1 l2 : length l1 = length l2 -> cmp_bytes l1 l2 = 0 <-> l1 = l2.
Proof.
  revert l2. induction l1 as [|x l1 IH]; intros [|y l2]; simpl; try done.
  intros [= Hl]. destruct (Z.eqb_spec x y) as [->|].
  - rewrite IH by done. split; [by intros ->|by intros [=]].
  - split; [lia|]. intros [=]. lia.
Qed.

Lemma memmove_ok b dst src n :
  0 <= src -> 0 <= dst -> 0 <= n -> src + n <= zlen b -> dst + n <= zlen b ->
  zlen b < 2 ^ 63 -> memmove b dst src n = Ok (put b dst (sub b src n)).
Proof.
  intros. unfold memmove. rewrite size_t_small by lia. rewrite rdn_ok by lia. cbn.
  apply wrn_ok; rewrite ?zlen_sub; lia.
Qed.

Lemma memset_ok b dst c n :
  0 <= dst -> 0 <= n -> dst + n <= zlen b -> zlen b < 2 ^ 63 ->
  memset b dst c n = Ok (put b dst (replicate (Z.to_nat n) c)).
Proof.
  intros. unfold memset, in_range. rewrite size_t_small by lia. zcases.
  apply wrn_ok; rewrite ?length_replicate; lia.
Qed.

Lemma toupper_tolower c : toupper (tolower c) = toupper c.
Proof. unfold tolower; zcases; unfold toupper; zcases. Qed.
Lemma tolower_toupper c : tolower (toupper c) = tolower c.
Proof. unfold toupper; zcases; unfold tolower; zcases. Qed.
Lemma tolower_idem c : tolower (tolower c) = tolower c.
Proof. unfold tolower at 2 3; zcases; unfold tolower; zcases. Qed.
