(* ===== verification/Packets.v ===== *)
(** [byedpi/packets.c]: recognising TLS and HTTP packets, finding the host name
    in them, and rewriting them.  Buffers are [list Z]; [bsize] is the number of
    bytes the caller declares valid, which may be smaller than the object. *)
From S2P Require Import Prelude CLib.

(** * Data *)
Definition IS_TCP := 1.
Definition IS_UDP := 2.
Definition IS_HTTP := 4.
Definition IS_HTTPS := 8.

Definition MH_HMIX := 1.
Definition MH_SPACE := 2.
Definition MH_DMIX := 4.

Definition tls_data_init : list Z := [
  22; 3; 1; 2; 0; 1; 0; 1; 252; 3; 3; 3; 95; 111; 44; 237;
  19; 34; 248; 220; 178; 242; 96; 72; 45; 114; 102; 111; 87; 221; 19; 157;
  27; 55; 220; 250; 54; 46; 186; 249; 146; 153; 58; 32; 249; 223; 12; 46;
  138; 85; 137; 130; 49; 99; 26; 239; 168; 190; 8; 88; 167; 163; 90; 24;
  211; 150; 95; 4; 92; 180; 98; 175; 137; 215; 15; 139; 0; 62; 19; 2;
  19; 3; 19; 1; 192; 44; 192; 48; 0; 159; 204; 169; 204; 168; 204; 170;
  192; 43; 192; 47; 0; 158; 192; 36; 192; 40; 0; 107; 192; 35; 192; 39;
  0; 103; 192; 10; 192; 20; 0; 57; 192; 9; 192; 19; 0; 51; 0; 157;
  0; 156; 0; 61; 0; 60; 0; 53; 0; 47; 0; 255; 1; 0; 1; 117;
  0; 0; 0; 22; 0; 20; 0; 0; 17; 119; 119; 119; 46; 119; 105; 107;
  105; 112; 101; 100; 105; 97; 46; 111; 114; 103; 0; 11; 0; 4; 3; 0;
  1; 2; 0; 10; 0; 22; 0; 20; 0; 29; 0; 23; 0; 30; 0; 25;
  0; 24; 1; 0; 1; 1; 1; 2; 1; 3; 1; 4; 0; 16; 0; 14;
  0; 12; 2; 104; 50; 8; 104; 116; 116; 112; 47; 49; 46; 49; 0; 22;
  0; 0; 0; 23; 0; 0; 0; 49; 0; 0; 0; 13; 0; 42; 0; 40;
  4; 3; 5; 3; 6; 3; 8; 7; 8; 8; 8; 9; 8; 10; 8; 11;
  8; 4; 8; 5; 8; 6; 4; 1; 5; 1; 6; 1; 3; 3; 3; 1;
  3; 2; 4; 2; 5; 2; 6; 2; 0; 43; 0; 9; 8; 3; 4; 3;
  3; 3; 2; 3; 1; 0; 45; 0; 2; 1; 1; 0; 51; 0; 38; 0;
  36; 0; 29; 0; 32; 17; 140; 184; 140; 232; 138; 8; 144; 30; 238; 25;
  217; 221; 232; 212; 6; 177; 209; 226; 171; 224; 22; 99; 214; 220; 218; 132;
  164; 184; 75; 251; 14; 0; 21; 0; 172; 0; 0; 0; 0; 0; 0].
(** [char tls_data[517]], [http_data[43]], [udp_data[64]]: an initialiser
    shorter than the array leaves the rest zero. *)
Definition tls_data : list Z := tls_data_init ++ replicate (517 - length tls_data_init) 0.
Definition http_data : list Z :=
  chars "GET / HTTP/1.1" ++ [13; 10] ++ chars "Host: www.wikipedia.org" ++ [13; 10; 13; 10].
Definition udp_data : list Z := replicate 64 0.

(** [ANTOHS(data, i)] and [SHTONA(data, i, x)]: big-endian 16-bit access. *)
Definition ANTOHS (data : list Z) (i : Z) : res Z :=
  x ← rd data i; y ← rd data (i + 1); mret (u16 (Z.shiftl x 8 + u8 y)).
Definition SHTONA (data : list Z) (i x : Z) : res (list Z) :=
  data ← wr data i (u8 (Z.shiftr x 8)); wr data (i + 1) (Z.land x 255).

(** * Searching *)
Fixpoint strncasestr_loop (fuel : nat) (b : list Z) (a as_ : Z) (n : list Z) (p : Z)
    : res (option Z) :=
  match fuel with
  | O => Fault OutOfFuel
  | S k =>
      c ← rd n 0;
      o ← memchr b p c (as_ - (p - a));
      match o with
      | None => mret None
      | Some p =>
          if a + as_ <? p + zlen n then mret None else
          z ← strncasecmp b p n 0 (zlen n);
          if z =? 0 then mret (Some p) else strncasestr_loop k b a as_ n (p + 1)
      end
  end.
(** [strncasestr(b + a, as, n, strlen(n))] *)
Definition strncasestr (b : list Z) (a as_ : Z) (n : list Z) : res (option Z) :=
  strncasestr_loop (S (Z.to_nat as_)) b a as_ n a.

Fixpoint find_tls_ext_loop (fuel : nat) (type : Z) (data : list Z) (size skip : Z) : res Z :=
  match fuel with
  | O => Fault OutOfFuel
  | S k =>
      if skip + 4 <? size then
        epyt ← ANTOHS data skip;
        if type =? epyt then mret skip
        else
          len ← ANTOHS data (skip + 2);
          find_tls_ext_loop k type data size (skip + (len + 4))
      else mret 0
  end.

Definition find_tls_ext_offset (type : Z) (data : list Z) (size skip : Z) : res Z :=
  if size <=? skip + 2 then mret 0 else
  ext_len ← ANTOHS data skip;
  let skip := skip + 2 in
  let size := if ext_len <? size - skip then ext_len + skip else size in
  find_tls_ext_loop (S (Z.to_nat size)) type data size skip.

Definition chello_ext_offset (type : Z) (data : list Z) (size : Z) : res Z :=
  if size <? 44 then mret 0 else
  sid_len ← rd data 43;
  if size <? 44 + sid_len + 2 then mret 0 else
  cip_len ← ANTOHS data (44 + sid_len);
  let skip := 44 + sid_len + 2 + cip_len + 2 in
  find_tls_ext_offset type data size skip.

(** * TLS *)

(** [host] is the C string without its NUL; the result is the return value and
    the buffer afterwards. *)
Definition change_tls_sni (host buffer : list Z) (bsize : Z) : res (Z * list Z) :=
  sni_offs ← chello_ext_offset 0 buffer bsize;
  if sni_offs =? 0 then mret (-1, buffer) else
  pad_offs ← chello_ext_offset 21 buffer bsize;
  if pad_offs =? 0 then mret (-1, buffer) else
  o ← ANTOHS buffer (sni_offs + 2);
  let old_sz := u16 (o - 5) in
  free_sz ← ANTOHS buffer (pad_offs + 2);
  let new_sz := u16 (zlen host) in
  let diff := new_sz - old_sz in
  if negb (free_sz =? size_t (bsize - pad_offs - 4)) || (free_sz <? diff)
  then mret (-1, buffer) else
  buffer ← SHTONA buffer (sni_offs + 2) (old_sz + diff + 5);
  buffer ← SHTONA buffer (sni_offs + 4) (old_sz + diff + 3);
  buffer ← SHTONA buffer (sni_offs + 7) (old_sz + diff);
  buffer ← SHTONA buffer (pad_offs + 2) (free_sz - diff);
  let host_end := sni_offs + 9 + old_sz in
  let oth_sz := s32 (bsize - (sni_offs + 9 + old_sz)) in
  buffer ← memmove buffer (host_end + diff) host_end oth_sz;
  d ← rdn host 0 new_sz;
  buffer ← wrn buffer (sni_offs + 9) d;
  mret (0, buffer).

Definition is_tls_chello (buffer : list Z) (bsize : Z) : res bool :=
  if 5 <? bsize then
    v ← ANTOHS buffer 0;
    if v =? 5635 then t ← rd buffer 5; mret (t =? 1) else mret false
  else mret false.

Definition is_tls_shello (buffer : list Z) (bsize : Z) : res bool :=
  if 5 <? bsize then
    v ← ANTOHS buffer 0;
    if v =? 5635 then t ← rd buffer 5; mret (t =? 2) else mret false
  else mret false.

(** The return value, and the offset stored to [*hs] if it is stored to. *)
Definition parse_tls (buffer : list Z) (bsize : Z) : res (Z * option Z) :=
  c ← is_tls_chello buffer bsize;
  if negb c then mret (0, None) else
  sni_offs ← chello_ext_offset 0 buffer bsize;
  if (sni_offs =? 0) || (bsize <=? sni_offs + 12) then mret (0, None) else
  len ← ANTOHS buffer (sni_offs + 7);
  if bsize <? sni_offs + 9 + len then mret (0, None) else
  mret (len, Some (sni_offs + 9)).

Definition neq_tls_sid (req : list Z) (qn : Z) (resp : list Z) (sn : Z) : res bool :=
  if (qn <? 75) || (sn <? 75) then mret false else
  c ← is_tls_chello req qn;
  if negb c then mret false else
  v ← ANTOHS resp 0;
  if negb (v =? 5635) then mret false else
  sid_len ← rd req 43;
  let skip := 44 + sid_len + 3 in
  o ← find_tls_ext_offset 43 resp sn skip;
  if o =? 0 then mret false else
  s ← rd resp 43;
  if negb (sid_len =? s) then mret true else
  z ← memcmp req 44 resp 44 sid_len;
  mret (negb (z =? 0)).

(** The return value and the buffer afterwards. *)
Definition part_tls (buffer : list Z) (bsize n pos : Z) : res (Z * list Z) :=
  if (n <? 3) || (size_t (bsize - n) <? 5) || (pos <? 0) || (n <? pos + 5)
  then mret (0, buffer) else
  r_sz ← ANTOHS buffer 3;
  if r_sz <? pos then mret (n, buffer) else
  buffer ← memmove buffer (5 + pos + 5) (5 + pos) (n - (5 + pos));
  d ← rdn buffer 0 3;
  buffer ← wrn buffer (5 + pos) d;
  buffer ← SHTONA buffer 3 pos;
  buffer ← SHTONA buffer (5 + pos + 3) (r_sz - pos);
  mret (5, buffer).

(** * HTTP *)
Definition methods : list string :=
  ["HEAD"; "GET"; "POST"; "PUT"; "DELETE"; "OPTIONS"; "CONNECT"; "TRACE"; "PATCH"]%string.

Fixpoint match_method (ms : list string) (buffer : list Z) : res bool :=
  match ms with
  | [] => mret false
  | m :: ms =>
      z ← strncmp buffer 0 (cstr m) 0 (zlen (chars m));
      if z =? 0 then mret true else match_method ms buffer
  end.

Definition is_http (buffer : list Z) (bsize : Z) : res bool :=
  if bsize <? 16 then mret false else
  c ← rd buffer 0;
  if (chr "T" <? c) || (c <? chr "C") then mret false
  else match_method methods buffer.

(** The last ':' of [[h, l_end)], by repeated [memchr]. *)
Fixpoint last_colon (fuel : nat) (buffer : list Z) (h l_end : Z) (h_end : option Z)
    : res (option Z) :=
  match fuel with
  | O => Fault OutOfFuel
  | S k =>
      o ← memchr buffer h (chr ":") (l_end - h);
      match o with
      | None => mret h_end
      | Some h => if h + 1 <? l_end then last_colon k buffer (h + 1) l_end (Some h)
                  else mret (Some h)
      end
  end.

Record http_host := HttpHost {
  hh_len : Z;          (* the return value *)
  hh_hs : option Z;    (* what is stored to [*hs] *)
  hh_port : option Z   (* what is stored to [*port] *)
}.
Definition no_host := HttpHost 0 None None.

(** Header skipping: [while ((buff_end - host) > 0 && isblank( *host)) host++;] *)
Fixpoint skip_blank (fuel : nat) (buffer : list Z) (host buff_end : Z) : res Z :=
  match fuel with
  | O => Fault OutOfFuel
  | S k =>
      if 0 <? buff_end - host then
        c ← rd buffer host;
        if isblank c then skip_blank k buffer (host + 1) buff_end else mret host
      else mret host
  end.

(** [parse_http(buffer, bsize, &hs, port)]; [want_port] says whether the
    caller passed a non-null [port]. *)
Definition parse_http (buffer : list Z) (bsize : Z) (want_port : bool) : res http_host :=
  h ← is_http buffer bsize;
  if negb h then mret no_host else
  o ← strncasestr buffer 0 bsize (10 :: chars "Host:");
  match o with
  | None => mret no_host
  | Some host =>
      host ← skip_blank (S (Z.to_nat bsize)) buffer (host + 6) bsize;
      o ← memchr buffer host 10 (bsize - host);
      match o with
      | None => mret no_host
      | Some l_end =>
          l_end ← scan_back isspace buffer l_end;
          c ← rd buffer (l_end - 1);
          h_end ← (if isdigit c
                   then last_colon (S (Z.to_nat bsize)) buffer host l_end None
                   else mret None);
          match h_end with
          | None => mret (HttpHost (l_end - host) (Some host)
                            (if want_port then Some 80 else None))
          | Some h_end =>
              if want_port then
                '(i, e) ← strtol buffer (h_end + 1) 10;
                if (i <=? 0) || negb (e =? l_end) || (65535 <? i) then mret no_host
                else mret (HttpHost (h_end - host) (Some host) (Some (u16 i)))
              else mret (HttpHost (h_end - host) (Some host) None)
          end
      end
  end.

Definition get_http_code (b : list Z) (n : Z) : res Z :=
  if n <? 13 then mret 0 else
  z ← strncmp b 0 (cstr "HTTP/1.") 0 7;
  if negb (z =? 0) then mret 0 else
  o ← memchr b 13 10 n;
  match o with
  | None => mret 0
  | Some _ =>
      '(num, e) ← strtol b 9 10;
      if (num <? 100) || (511 <? num) then mret 0 else
      c ← rd b e;
      if negb (isspace c) then mret 0 else mret num
  end.

(** Drop leading labels of [location] until it is no longer than [len]:
    [None] stands for the early [return 1]. *)
Fixpoint cut_location (fuel : nat) (resp : list Z) (location e len : Z) : res (option Z) :=
  match fuel with
  | O => Fault OutOfFuel
  | S k =>
      if len <? e - location then
        o ← memchr resp location (chr ".") (e - location);
        match o with
        | None => mret None
        | Some p => cut_location k resp (p + 1) e len
        end
      else mret (Some location)
  end.

(** The same for [host], with the code's update of [len]. *)
Fixpoint cut_host (fuel : nat) (req : list Z) (host len d : Z) : res (option (Z * Z)) :=
  match fuel with
  | O => Fault OutOfFuel
  | S k =>
      if d <? len then
        o ← memchr req host (chr ".") len;
        match o with
        | None => mret None
        | Some p => cut_host k req (p + 1) (len - ((host - p) + 1)) d
        end
      else mret (Some (host, len))
  end.

Definition skip_scheme (resp : list Z) (location l_end : Z) : res Z :=
  if 7 <? l_end - location then
    z ← strncmp resp location (cstr "http://") 0 7;
    if z =? 0 then mret (location + 7) else
    z ← strncmp resp location (cstr "https://") 0 8;
    if z =? 0 then mret (location + 8) else mret location
  else mret location.

Definition is_http_redirect (req : list Z) (qn : Z) (resp : list Z) (sn : Z) : res bool :=
  ph ← parse_http req qn false;
  let len := hh_len ph in
  if (len <=? 0) || (sn <? 29) then mret false else
  match hh_hs ph with
  | None => Fault NullDeref
  | Some host =>
      code ← get_http_code resp sn;
      if (308 <? code) || (code <? 300) then mret false else
      o ← strncasestr resp 0 sn (10 :: chars "Location:");
      match o with
      | None => mret false
      | Some location =>
          let location := location + 11 in
          if sn <=? location + 8 then mret false else
          o ← memchr resp location 10 (sn - location);
          match o with
          | None => mret false
          | Some l_end =>
              l_end ← scan_back isspace resp l_end;
              location ← skip_scheme resp location l_end;
              o ← memchr resp location (chr "/") (l_end - location);
              let e := default l_end o in
              o ← cut_location (S (length resp)) resp location e len;
              match o with
              | None => mret true
              | Some location =>
                  o ← cut_host (S (length req)) req host len (e - location);
                  match o with
                  | None => mret true
                  | Some (host, len) =>
                      if negb (e - location =? len) then mret true else
                      z ← strncmp req host resp location len;
                      mret (negb (z =? 0))
                  end
              end
          end
      end
  end.

(** [for (i = 0; i < hlen; i += 2) host[i] = toupper(host[i]);] *)
Fixpoint upper_even (fuel : nat) (buffer : list Z) (host hlen i : Z) : res (list Z) :=
  match fuel with
  | O => Fault OutOfFuel
  | S k =>
      if i <? hlen then
        c ← rd buffer (host + i);
        buffer ← wr buffer (host + i) (toupper c);
        upper_even k buffer host hlen (i + 2)
      else mret buffer
  end.

Definition mod_http_hmix (buffer : list Z) (par : Z) : res (list Z) :=
  c ← rd buffer par; buffer ← wr buffer par (tolower c);
  c ← rd buffer (par + 1); buffer ← wr buffer (par + 1) (toupper c);
  c ← rd buffer (par + 3); wr buffer (par + 3) (toupper c).

Definition mod_http_space (buffer : list Z) (par host hlen : Z) : res (list Z) :=
  e ← scan_while (fun c => negb (isspace c)) buffer (host + hlen);
  let hlen := e - host in
  let sc := host - (par + 5) in
  buffer ← memmove buffer (par + 5) host hlen;
  memset buffer (par + 5 + hlen) 9 sc.

Definition mod_http (buffer : list Z) (bsize m : Z) : res (Z * list Z) :=
  ph ← parse_http buffer bsize false;
  let hlen := hh_len ph in
  if hlen =? 0 then mret (-1, buffer) else
  match hh_hs ph with
  | None => Fault NullDeref
  | Some host =>
      q ← scan_back (fun c => negb (c =? chr ":")) buffer host;
      let par := q - 1 - 4 in
      buffer ← (if negb (Z.land m MH_HMIX =? 0) then mod_http_hmix buffer par else mret buffer);
      buffer ← (if negb (Z.land m MH_DMIX =? 0)
                then upper_even (S (Z.to_nat hlen)) buffer host hlen 0 else mret buffer);
      buffer ← (if negb (Z.land m MH_SPACE =? 0)
                then mod_http_space buffer par host hlen else mret buffer);
      mret (0, buffer)
  end.

(** * Lemmas *)

(** The 16-bit value [ANTOHS] yields when both bytes are inside the object. *)
Definition be16 (b : list Z) (i : Z) : Z :=
  u16 (Z.shiftl (byte_at b i) 8 + u8 (byte_at b (i + 1))).

Lemma antohs_ok b i : 0 <= i -> i + 1 < zlen b -> ANTOHS b i = Ok (be16 b i).
Proof. intros. unfold ANTOHS. rewrite !rd_ok by lia. done. Qed.

Ltac rstep_hook m ::=
  lazymatch m with
  | ANTOHS ?b ?i => rewrite (antohs_ok b i) by lia
  end.

Lemma be16_range b i : 0 <= be16 b i < 65536.
Proof. apply u16_range. Qed.
#[export] Hint Resolve be16_range : bytes.

(** The same 16 bits are read whether [char] is signed or unsigned: [be16]
    depends on the bytes modulo 256 only. *)
Lemma be16_char_signedness b i (k1 k2 : Z) :
  u16 (Z.shiftl (byte_at b i + 256 * k1) 8 + u8 (byte_at b (i + 1) + 256 * k2)) = be16 b i.
Proof.
  unfold be16, u16, u8. rewrite !Z.shiftl_mul_pow2 by lia.
  replace (byte_at b (i + 1) + 256 * k2) with (byte_at b (i + 1) + k2 * 2 ^ 8) by lia.
  rewrite Z.mod_add by lia.
  replace ((byte_at b i + 256 * k1) * 2 ^ 8 + byte_at b (i + 1) mod 2 ^ 8)
    with (byte_at b i * 2 ^ 8 + byte_at b (i + 1) mod 2 ^ 8 + k1 * 2 ^ 16) by lia.
  apply Z.mod_add. lia.
Qed.

(** Writing a 16-bit value and reading it back. *)
Lemma shtona_ok b i x :
  0 <= i -> i + 1 < zlen b ->
  SHTONA b i x = Ok (put b i [u8 (Z.shiftr x 8); Z.land x 255]).
Proof.
  intros Hi Hl. unfold SHTONA. rewrite wr_ok by lia. cbn.
  rewrite wr_ok by (rewrite length_insert; lia). f_equal.
  apply bytes_ext.
  { rewrite length_put by (simpl; lia). by rewrite !length_insert. }
  intros j Hj. rewrite !length_insert in Hj.
  rewrite byte_at_insert by (rewrite ?length_insert; lia).
  rewrite byte_at_insert by lia. rewrite byte_at_put by (simpl; lia). simpl.
  zcases; subst.
  - by replace (i + 1 - i) with 1 by lia.
  - by rewrite Z.sub_diag.
Qed.

Lemma be16_of_bytes x y b i :
  0 <= i -> byte_at b i = x -> byte_at b (i + 1) = y -> 0 <= x < 256 -> 0 <= y < 256 ->
  be16 b i = x * 256 + y.
Proof.
  intros Hi <- <- Hx Hy. unfold be16. rewrite Z.shiftl_mul_pow2, (u8_small _ Hy) by lia.
  apply u16_small. lia.
Qed.

(** ** Walking the extensions *)
Lemma find_tls_ext_loop_spec fuel type data size skip :
  0 <= skip -> size <= zlen data -> Z.max 0 (size - skip) < Z.of_nat fuel ->
  succeeds (find_tls_ext_loop fuel type data size skip)
    (fun r => r = 0 \/ (skip <= r /\ r + 4 < size /\ be16 data r = type)).
Proof.
  revert skip. induction fuel as [|k IH]; intros skip Hs Hl Hf; cbn.
  - lia.
  - zcase; [|by left].
    rstep. zcase; [right; split_and!; auto; lia|].
    rstep.
    pose proof (be16_range data (skip + 2)).
    eapply succeeds_mono; [apply IH; lia|]. simpl. intros r [->|?]; [auto|right]. lia.
Qed.

Lemma find_tls_ext_offset_spec type data size skip :
  0 <= skip -> size <= zlen data ->
  succeeds (find_tls_ext_offset type data size skip)
    (fun r => r = 0 \/ (skip + 2 <= r /\ r + 4 < size /\ be16 data r = type)).
Proof.
  intros Hs Hl. unfold find_tls_ext_offset. zcase; [by left|].
  rstep. pose proof (be16_range data skip).
  zcase; (eapply succeeds_mono; [apply find_tls_ext_loop_spec; lia|]);
    simpl; intros r [->|?]; auto; right; lia.
Qed.

Lemma chello_ext_offset_spec type data size :
  is_bytes data -> size <= zlen data ->
  succeeds (chello_ext_offset type data size)
    (fun r => r = 0 \/ (50 <= r /\ r + 4 < size /\ be16 data r = type)).
Proof.
  intros Hb Hl. unfold chello_ext_offset. zcase; [by left|].
  rstep. pose proof (byte_at_range data 43 Hb).
  zcase; [by left|]. rstep.
  pose proof (be16_range data (44 + byte_at data 43)).
  eapply succeeds_mono; [apply find_tls_ext_offset_spec; lia|].
  simpl; intros r [->|?]; auto; right; lia.
Qed.

Lemma is_tls_chello_ok b n : n <= zlen b ->
  is_tls_chello b n = Ok ((5 <? n) && (be16 b 0 =? 5635) && (byte_at b 5 =? 1)).
Proof.
  intros. unfold is_tls_chello. destruct (Z.ltb_spec 5 n); [|done].
  rstep. destruct (be16 b 0 =? 5635); [|reflexivity].
  by rewrite rd_ok by lia.
Qed.

Lemma is_tls_shello_ok b n : n <= zlen b ->
  is_tls_shello b n = Ok ((5 <? n) && (be16 b 0 =? 5635) && (byte_at b 5 =? 2)).
Proof.
  intros. unfold is_tls_shello. destruct (Z.ltb_spec 5 n); [|done].
  rstep. destruct (be16 b 0 =? 5635); [|reflexivity].
  by rewrite rd_ok by lia.
Qed.

(** What [parse_tls] can answer on any packet. *)
Lemma parse_tls_spec b n :
  is_bytes b -> n <= zlen b ->
  succeeds (parse_tls b n) (fun '(len, hs) =>
    match hs with
    | None => len = 0
    | Some h => 0 <= len /\ 59 <= h /\ h + len <= n /\
                be16 b (h - 9) = 0 /\ len = be16 b (h - 2)
    end).
Proof.
  intros Hb Hl. unfold parse_tls. rewrite is_tls_chello_ok by lia. cbn.
  case_match; [done|].
  eapply succeeds_bind, succeeds_mono; [by apply chello_ext_offset_spec|].
  intros o [->|Ho]; cbn; [done|]. ccase; [done|].
  rstep. pose proof (be16_range b (o + 7)).
  ccase; [done|].
  cbn. replace (o + 9 - 9) with o by lia. replace (o + 9 - 2) with (o + 7) by lia.
  split_and!; try lia; apply Ho.
Qed.
