(* ===== verification/PacketsTls.v ===== *)
(** TLS ClientHello packets as [Packets] sees them: an encoder for the part of
    the format the code relies on, and what [find_tls_ext_offset],
    [chello_ext_offset], [parse_tls], [change_tls_sni] and [part_tls] do on
    encoded packets. *)
From S2P Require Import Prelude CLib Packets.

(** * The format *)
Definition be16_enc (x : Z) : list Z := [u8 (Z.shiftr x 8); Z.land x 255].

Record ext := Ext { ext_type : Z; ext_data : list Z }.
Definition ext_enc (e : ext) : list Z :=
  be16_enc (ext_type e) ++ be16_enc (zlen (ext_data e)) ++ ext_data e.
Definition exts_enc (es : list ext) : list Z := concat (map ext_enc es).
Definition ext_wf (e : ext) : Prop :=
  0 <= ext_type e < 65536 /\ zlen (ext_data e) < 65536.

(** Record header and handshake fields up to the session id; one compression
    method. *)
Record hello := Hello {
  hl_record : list Z;   (* record version (1 byte) and length (2) *)
  hl_fixed : list Z;    (* handshake length (3), version (2), random (32) *)
  hl_sid : list Z;
  hl_ciphers : list Z
}.
Definition hello_wf (h : hello) : Prop :=
  length (hl_record h) = 3%nat /\ length (hl_fixed h) = 37%nat /\
  zlen (hl_sid h) < 256 /\ zlen (hl_ciphers h) < 65536.
Definition hello_head (h : hello) : list Z :=
  [22; 3] ++ hl_record h ++ [1] ++ hl_fixed h ++ [zlen (hl_sid h)] ++ hl_sid h ++
  be16_enc (zlen (hl_ciphers h)) ++ hl_ciphers h ++ [1; 0].
Definition hello_enc (h : hello) (es : list ext) : list Z :=
  hello_head h ++ be16_enc (zlen (exts_enc es)) ++ exts_enc es.

Definition sni_ext (host : list Z) : ext :=
  Ext 0 (be16_enc (zlen host + 3) ++ [0] ++ be16_enc (zlen host) ++ host).
Definition pad_ext (n : Z) : ext := Ext 21 (replicate (Z.to_nat n) 0).

(** The offset the code should find: that of the first extension of the type,
    unless only an empty extension body is left before [size]. *)
Fixpoint first_ext (type : Z) (es : list ext) (off size : Z) : Z :=
  match es with
  | [] => 0
  | e :: es =>
      if off + 4 <? size then
        if type =? ext_type e then off
        else first_ext type es (off + (zlen (ext_data e) + 4)) size
      else 0
  end.

(** * Lemmas on the encoding *)
Lemma length_be16_enc x : length (be16_enc x) = 2%nat.
Proof. done. Qed.

Lemma be16_enc_value x : 0 <= x < 65536 -> u8 (Z.shiftr x 8) * 256 + Z.land x 255 = x.
Proof.
  intros Hx. rewrite Z.shiftr_div_pow2 by lia. change 255 with (Z.ones 8).
  rewrite Z.land_ones by lia. rewrite u8_small by (split; [apply Z.div_pos|apply Z.div_lt_upper_bound]; lia).
  pose proof (Z.div_mod x (2 ^ 8)). lia.
Qed.

Lemma byte_at_mid pre x post : byte_at (pre ++ x :: post) (zlen pre) = x.
Proof. rewrite byte_at_app by lia. rewrite Z.ltb_irrefl, Z.sub_diag. done. Qed.

Lemma be16_mid pre x post i :
  i = zlen pre -> 0 <= x < 65536 -> be16 (pre ++ be16_enc x ++ post) i = x.
Proof.
  intros -> Hx. rewrite <- (be16_enc_value x Hx) at 2.
  apply be16_of_bytes; [lia| | | |].
  - by apply byte_at_mid.
  - unfold be16_enc. cbn [app]. rewrite cons_middle, app_assoc.
    replace (zlen pre + 1) with (zlen (pre ++ [u8 (Z.shiftr x 8)]))
      by (rewrite length_app; simpl; lia).
    by apply byte_at_mid.
  - apply u8_range.
  - change 255 with (Z.ones 8). rewrite Z.land_ones by lia. apply Z.mod_pos_bound. lia.
Qed.

Lemma length_ext_enc e : zlen (ext_enc e) = zlen (ext_data e) + 4.
Proof. unfold ext_enc. rewrite !length_app. simpl. lia. Qed.

Lemma exts_enc_app l1 l2 : exts_enc (l1 ++ l2) = exts_enc l1 ++ exts_enc l2.
Proof. unfold exts_enc. by rewrite map_app, concat_app. Qed.

Lemma exts_enc_cons e es : exts_enc (e :: es) = ext_enc e ++ exts_enc es.
Proof. done. Qed.

(** The walk over the extensions finds what [first_ext] says. *)
Lemma find_tls_ext_loop_enc fuel type es pre post size :
  Forall ext_wf es -> size = zlen pre + zlen (exts_enc es) -> size - zlen pre < Z.of_nat fuel ->
  find_tls_ext_loop fuel type (pre ++ exts_enc es ++ post) size (zlen pre) =
    Ok (first_ext type es (zlen pre) size).
Proof.
  revert pre es. induction fuel as [|k IH]; intros pre es Hwf Hsize Hfuel; [lia|].
  cbn [find_tls_ext_loop]. destruct es as [|e es]; cbn [first_ext].
  { simpl in Hsize. ccase; [lia|done]. }
  ccase; [|done].
  apply Forall_cons in Hwf as [[Ht Hl] Hwf].
  remember (pre ++ exts_enc (e :: es) ++ post) as B eqn:EB.
  assert (E1 : B = pre ++ be16_enc (ext_type e) ++
                   be16_enc (zlen (ext_data e)) ++ ext_data e ++ exts_enc es ++ post).
  { rewrite EB, exts_enc_cons. unfold ext_enc. by rewrite <- !app_assoc. }
  assert (E2 : B = (pre ++ ext_enc e) ++ exts_enc es ++ post).
  { by rewrite EB, exts_enc_cons, <- !app_assoc. }
  pose proof (length_ext_enc e). rewrite exts_enc_cons, length_app in Hsize.
  assert (zlen B >= size) by (rewrite E2, !length_app; lia).
  assert (B1 : be16 B (zlen pre) = ext_type e) by (rewrite E1; by apply be16_mid).
  assert (B2 : be16 B (zlen pre + 2) = zlen (ext_data e)).
  { rewrite E1, app_assoc. apply be16_mid; rewrite ?length_app, ?length_be16_enc; lia. }
  rstep. rewrite B1. ccase; [done|]. rstep. rewrite B2, E2.
  replace (zlen pre + (zlen (ext_data e) + 4)) with (zlen (pre ++ ext_enc e))
    by (rewrite length_app; lia).
  apply IH; auto; rewrite length_app; lia.
Qed.

Lemma length_hello_head h : hello_wf h ->
  zlen (hello_head h) = 44 + zlen (hl_sid h) + 2 + zlen (hl_ciphers h) + 2.
Proof.
  intros (H1 & H2 & H3 & H4). unfold hello_head.
  rewrite !length_app, H1, H2. simpl. lia.
Qed.

Lemma length_hello_enc h es : zlen (hello_enc h es) = zlen (hello_head h) + 2 + zlen (exts_enc es).
Proof. unfold hello_enc. rewrite !length_app. simpl. lia. Qed.

Lemma hello_is_chello h es post : hello_wf h ->
  is_tls_chello (hello_enc h es ++ post) (zlen (hello_enc h es)) = Ok true.
Proof.
  intros Hwf. pose proof (length_hello_head h Hwf) as Hh. pose proof (length_hello_enc h es).
  rewrite is_tls_chello_ok by (rewrite length_app; lia).
  replace (5 <? zlen (hello_enc h es)) with true by lia.
  destruct Hwf as (H1 & _). unfold hello_enc, hello_head.
  by destruct (hl_record h) as [|r1 [|r2 [|r3 [|]]]]; try discriminate H1.
Qed.

(** [chello_ext_offset] on an encoded ClientHello. *)
Lemma chello_ext_offset_enc h es post type :
  hello_wf h -> Forall ext_wf es -> 0 < zlen (exts_enc es) < 65536 ->
  chello_ext_offset type (hello_enc h es ++ post) (zlen (hello_enc h es)) =
    Ok (first_ext type es (zlen (hello_head h) + 2) (zlen (hello_enc h es))).
Proof.
  intros Hwf Hes Hlen. pose proof (length_hello_head h Hwf) as Hh.
  pose proof (length_hello_enc h es) as He. pose proof Hwf as (H1 & H2 & H3 & H4).
  assert (Hb : zlen (hello_enc h es ++ post) >= zlen (hello_enc h es)) by (rewrite length_app; lia).
  unfold chello_ext_offset. ccase; [lia|]. rstep.
  set (A := [22; 3] ++ hl_record h ++ [1] ++ hl_fixed h).
  assert (HA : zlen A = 43) by (unfold A; rewrite !length_app, H1, H2; simpl; lia).
  set (T := be16_enc (zlen (exts_enc es)) ++ exts_enc es ++ post).
  set (C := hl_ciphers h ++ [1; 0] ++ T).
  assert (E : hello_enc h es ++ post =
    A ++ zlen (hl_sid h) :: hl_sid h ++ be16_enc (zlen (hl_ciphers h)) ++ C).
  { unfold hello_enc, hello_head, A, C, T. by rewrite <- !app_assoc. }
  clearbody A C.
  assert (Hsid : byte_at (hello_enc h es ++ post) 43 = zlen (hl_sid h)).
  { rewrite E, <- HA. apply byte_at_mid. }
  rewrite Hsid. ccase; [lia|]. rstep.
  replace (be16 (hello_enc h es ++ post) (44 + zlen (hl_sid h))) with (zlen (hl_ciphers h)).
  2:{ symmetry. rewrite E.
      rewrite (cons_middle (zlen (hl_sid h))), (app_assoc A), (app_assoc (A ++ _)).
      apply be16_mid; [rewrite !length_app; simpl|]; lia. }
  rewrite <- Hh.
  unfold find_tls_ext_offset. ccase; [lia|]. rstep.
  replace (be16 (hello_enc h es ++ post) (zlen (hello_head h))) with (zlen (exts_enc es)).
  2:{ unfold hello_enc. rewrite <- !app_assoc. symmetry. apply be16_mid; lia. }
  replace (if zlen (exts_enc es) <? zlen (hello_enc h es) - (zlen (hello_head h) + 2)
           then zlen (exts_enc es) + (zlen (hello_head h) + 2) else zlen (hello_enc h es))
    with (zlen (hello_enc h es)) by (ccase; lia).
  assert (E' : hello_enc h es ++ post =
    (hello_head h ++ be16_enc (zlen (exts_enc es))) ++ exts_enc es ++ post).
  { unfold hello_enc. by rewrite <- !app_assoc. }
  replace (zlen (hello_head h) + 2) with (zlen (hello_head h ++ be16_enc (zlen (exts_enc es))))
    by (rewrite length_app, length_be16_enc; lia).
  rewrite E'. apply find_tls_ext_loop_enc; auto; rewrite ?length_app, ?length_be16_enc; lia.
Qed.

(** [first_ext] on a list whose first extension of the type is known. *)
Lemma first_ext_found type l1 e l2 off size :
  Forall (fun x => ext_type x <> type) l1 -> ext_type e = type ->
  off + zlen (exts_enc l1) + 4 < size ->
  first_ext type (l1 ++ e :: l2) off size = off + zlen (exts_enc l1).
Proof.
  intros Hl1 He. revert off. induction Hl1 as [|x l1 Hx _ IH]; intros off Hs.
  - cbn. rewrite He, Z.eqb_refl. simpl in Hs. ccase; lia.
  - cbn [app first_ext]. rewrite exts_enc_cons, length_app in *.
    pose proof (length_ext_enc x).
    replace (off + 4 <? size) with true by lia.
    replace (type =? ext_type x) with false by lia.
    rewrite IH by lia. lia.
Qed.

Lemma first_ext_none type es off size :
  Forall (fun x => ext_type x <> type) es -> first_ext type es off size = 0.
Proof.
  intros H. revert off. induction H as [|x es Hx _ IH]; intros off; [done|].
  cbn. replace (type =? ext_type x) with false by lia. rewrite IH. by case_match.
Qed.

(** * The server name *)
Lemma sni_ext_wf host : zlen host < 65531 -> ext_wf (sni_ext host).
Proof. intros. split; simpl; rewrite ?length_app; simpl; lia. Qed.

Lemma length_sni_ext host : zlen (ext_data (sni_ext host)) = zlen host + 5.
Proof. simpl. lia. Qed.

(** [A ++ sni header ++ host ++ T] splits at the fields the code reads. *)
Definition sni_hdr (w : Z) : list Z :=
  be16_enc 0 ++ be16_enc (w + 5) ++ be16_enc (w + 3) ++ [0] ++ be16_enc w.

Lemma length_sni_hdr w : length (sni_hdr w) = 9%nat.
Proof. done. Qed.

Lemma sni_ext_enc host : ext_enc (sni_ext host) = sni_hdr (zlen host) ++ host.
Proof.
  unfold ext_enc. rewrite length_sni_ext. unfold sni_ext, sni_hdr.
  cbn [ext_type ext_data]. by rewrite <- !app_assoc.
Qed.

Lemma sni_hdr_be16 A w T o :
  o = zlen A -> 0 <= w < 65531 ->
  be16 (A ++ sni_hdr w ++ T) (o + 2) = w + 5 /\ be16 (A ++ sni_hdr w ++ T) (o + 7) = w.
Proof.
  intros -> Hw. unfold sni_hdr. split.
  - rewrite <- !app_assoc, (app_assoc A). apply be16_mid; rewrite ?length_app, ?length_be16_enc; lia.
  - rewrite <- !app_assoc, !(app_assoc A), !(app_assoc (A ++ _)), (app_assoc ((A ++ _) ++ _)),
      (app_assoc (((A ++ _) ++ _) ++ _)).
    apply be16_mid; rewrite ?length_app, ?length_be16_enc; simpl; lia.
Qed.

Lemma hello_split h l1 e l2 :
  hello_enc h (l1 ++ e :: l2) =
    (hello_head h ++ be16_enc (zlen (exts_enc (l1 ++ e :: l2))) ++ exts_enc l1) ++
    ext_enc e ++ exts_enc l2.
Proof. unfold hello_enc. rewrite exts_enc_app, exts_enc_cons, <- !app_assoc. done. Qed.

Section Sni.
Context (h : hello) (Hwf : hello_wf h).
Context (l1 l2 : list ext) (Hl1 : Forall ext_wf l1) (Hl2 : Forall ext_wf l2).
Hypothesis no_sni_before : Forall (fun x => ext_type x <> 0) l1.

Definition sni_offset : Z := zlen (hello_head h) + 2 + zlen (exts_enc l1).

Lemma parse_tls_enc host post :
  3 < zlen host -> zlen (exts_enc (l1 ++ sni_ext host :: l2)) < 65536 ->
  let b := hello_enc h (l1 ++ sni_ext host :: l2) in
  parse_tls (b ++ post) (zlen b) = Ok (zlen host, Some (sni_offset + 9)) /\
  sub (b ++ post) (sni_offset + 9) (zlen host) = host.
Proof.
  intros Hhost Hlen b. set (es := l1 ++ sni_ext host :: l2) in *.
  assert (Hes : zlen (exts_enc es) = zlen (exts_enc l1) + (zlen host + 9) + zlen (exts_enc l2)).
  { unfold es. rewrite exts_enc_app, exts_enc_cons, !length_app.
    pose proof (length_ext_enc (sni_ext host)). rewrite length_sni_ext in *. lia. }
  assert (Hb : zlen b = sni_offset + (zlen host + 9) + zlen (exts_enc l2)).
  { unfold b. rewrite length_hello_enc. unfold sni_offset. lia. }
  pose proof (length_hello_head h Hwf).
  assert (E : b ++ post =
    (hello_head h ++ be16_enc (zlen (exts_enc es)) ++ exts_enc l1) ++
    sni_hdr (zlen host) ++ host ++ exts_enc l2 ++ post).
  { unfold b, es at 1. rewrite hello_split, sni_ext_enc. by rewrite <- !app_assoc. }
  assert (HA : zlen (hello_head h ++ be16_enc (zlen (exts_enc es)) ++ exts_enc l1) = sni_offset).
  { rewrite !length_app, length_be16_enc. unfold sni_offset. lia. }
  split.
  - unfold parse_tls, b. rewrite hello_is_chello by done. cbn [mbind res_bind negb].
    rewrite chello_ext_offset_enc; [|done| |lia].
    2:{ apply Forall_app. split; [done|]. apply Forall_cons. split; [|done].
        apply sni_ext_wf. lia. }
    cbn [mbind res_bind]. fold es b.
    assert (Hf : first_ext 0 es (zlen (hello_head h) + 2) (zlen b) = sni_offset).
    { apply first_ext_found; auto. unfold sni_offset in *. lia. }
    rewrite Hf. ccase; [unfold sni_offset in *; lia|].
    assert (zlen (b ++ post) >= zlen b) by (rewrite length_app; lia).
    rewrite antohs_ok by (unfold sni_offset in *; lia). cbn [mbind res_bind].
    destruct (sni_hdr_be16 _ (zlen host) (host ++ exts_enc l2 ++ post) _ (eq_sym HA))
      as [_ Hn]; [lia|].
    rewrite <- E in Hn. rewrite Hn. ccase; [lia|done].
  - rewrite E. rewrite sub_app_r by lia. rewrite HA.
    replace (sni_offset + 9 - sni_offset) with 9 by lia.
    rewrite sub_app_r by done. rewrite length_sni_hdr.
    rewrite sub_app_l by lia. apply sub_all.
Qed.

(** ** [change_tls_sni] *)
Lemma put_mid P X Y Q : length X = length Y -> put (P ++ X ++ Q) (zlen P) Y = P ++ Y ++ Q.
Proof.
  intros HX. unfold put. rewrite Nat2Z.id, take_app_length.
  rewrite drop_app_ge by lia. replace (length P + length Y - length P)%nat with (length X) by lia.
  by rewrite drop_app_length.
Qed.

Lemma shtona_mid P x y Q i :
  i = zlen P -> SHTONA (P ++ be16_enc x ++ Q) i y = Ok (P ++ be16_enc y ++ Q).
Proof.
  intros ->. rewrite shtona_ok by (rewrite ?length_app; simpl; lia).
  f_equal. by apply put_mid.
Qed.

(** The first three stores turn the header for [o] into the one for [w]. *)
Lemma sni_hdr_stores A o w Q i :
  i = zlen A ->
  (b ← SHTONA (A ++ sni_hdr o ++ Q) (i + 2) (w + 5);
   b ← SHTONA b (i + 4) (w + 3); SHTONA b (i + 7) w) = Ok (A ++ sni_hdr w ++ Q).
Proof.
  intros ->. unfold sni_hdr. rewrite <- !app_assoc, (app_assoc A).
  rewrite shtona_mid by (rewrite length_app; simpl; lia). cbn [mbind res_bind].
  rewrite (app_assoc (A ++ _)).
  rewrite shtona_mid by (rewrite !length_app; simpl; lia). cbn [mbind res_bind].
  rewrite (app_assoc ((A ++ _) ++ _)), (app_assoc (((A ++ _) ++ _) ++ _)).
  rewrite shtona_mid by (rewrite !length_app; simpl; lia).
  by rewrite <- !app_assoc.
Qed.

Section Change.
Context (old host : list Z) (n : Z).
Hypothesis no_pad : Forall (fun x => ext_type x <> 21) (l1 ++ l2).
Hypothesis n_range : 0 < n < 32768.
Hypothesis host_short : zlen host < 32768.
Hypothesis old_short : zlen old < 32768.

Definition es_with (host : list Z) (n : Z) : list ext :=
  l1 ++ sni_ext host :: (l2 ++ [pad_ext n]).
Hypothesis total_short : zlen (exts_enc (es_with old n)) < 65536.

Definition pad_hdr (n : Z) : list Z := be16_enc 21 ++ be16_enc n.

Lemma exts_enc_pad k : 0 <= k -> exts_enc [pad_ext k] = pad_hdr k ++ replicate (Z.to_nat k) 0.
Proof.
  intros. cbn. by rewrite app_nil_r, length_replicate, Z2Nat.id by lia.
Qed.

Lemma length_es_with x k : 0 <= k ->
  zlen (exts_enc (es_with x k)) =
    zlen (exts_enc l1) + (zlen x + 9) + zlen (exts_enc l2) + (k + 4).
Proof.
  intros. unfold es_with. rewrite exts_enc_app, exts_enc_cons, exts_enc_app, exts_enc_pad by lia.
  rewrite !length_app, length_replicate.
  pose proof (length_ext_enc (sni_ext x)). rewrite length_sni_ext in *. simpl. lia.
Qed.

Lemma es_with_wf x k : zlen x < 32768 -> 0 <= k < 65536 -> Forall ext_wf (es_with x k).
Proof.
  intros. unfold es_with. apply Forall_app; split; [done|]. constructor.
  - apply sni_ext_wf. lia.
  - apply Forall_app; split; [done|]. repeat constructor; simpl; rewrite ?length_replicate; lia.
Qed.

Let L := zlen (exts_enc (es_with old n)).
Let A := hello_head h ++ be16_enc L ++ exts_enc l1.
Let M := exts_enc l2.

Lemma hello_with_split x k :
  0 <= k -> zlen (exts_enc (es_with x k)) = L ->
  hello_enc h (es_with x k) =
    A ++ sni_hdr (zlen x) ++ x ++ M ++ pad_hdr k ++ replicate (Z.to_nat k) 0.
Proof.
  intros Hk HL. unfold es_with in *. rewrite hello_split, HL, sni_ext_enc, exts_enc_app.
  rewrite exts_enc_pad by lia. unfold A, M. by rewrite <- ?app_assoc.
Qed.

Lemma length_A : zlen A = sni_offset.
Proof. unfold A. rewrite !length_app, length_be16_enc. unfold sni_offset. lia. Qed.

(** Everything before the [memmove]. *)
Lemma change_tls_sni_guards :
  zlen host - zlen old <= n ->
  let b := hello_enc h (es_with old n) in
  let T := M ++ pad_hdr (n - (zlen host - zlen old)) ++ replicate (Z.to_nat n) 0 in
  change_tls_sni host b (zlen b) =
    (b ← memmove (A ++ sni_hdr (zlen host) ++ old ++ T)
           (sni_offset + 9 + zlen host) (sni_offset + 9 + zlen old) (zlen T);
     b ← wrn b (sni_offset + 9) host; mret (0, b)).
Proof.
  intros Hdiff b T. pose proof (length_hello_head h Hwf) as Hh.
  pose proof (length_es_with old n ltac:(lia)) as HL. fold L M in HL.
  pose proof total_short as Htot. fold L in Htot.
  assert (Hb : zlen b = zlen (hello_head h) + 2 + L) by apply length_hello_enc.
  assert (Hwfs : Forall ext_wf (es_with old n)) by (apply es_with_wf; lia).
  pose proof (hello_with_split old n ltac:(lia) eq_refl) as E. fold b in E.
  pose proof length_A as HA. pose proof HA as HA'. unfold sni_offset in HA.
  assert (Hoff : forall type, chello_ext_offset type b (zlen b) =
    Ok (first_ext type (es_with old n) (zlen (hello_head h) + 2) (zlen b))).
  { intros type. rewrite <- (app_nil_r b) at 1. apply chello_ext_offset_enc; auto. lia. }
  assert (Hf1 : first_ext 0 (es_with old n) (zlen (hello_head h) + 2) (zlen b) = sni_offset).
  { apply first_ext_found; auto. lia. }
  pose proof no_pad as [Hp1 Hp2]%Forall_app.
  assert (Hlp : zlen (exts_enc (l1 ++ sni_ext old :: l2)) =
            zlen (exts_enc l1) + (zlen old + 9) + zlen M).
  { rewrite exts_enc_app, exts_enc_cons, !length_app.
    pose proof (length_ext_enc (sni_ext old)). rewrite length_sni_ext in *. fold M. lia. }
  destruct (ex_intro (fun p => p = sni_offset + 9 + zlen old + zlen M) _ eq_refl) as [pad_offs Hpo].
  assert (Hf2 : first_ext 21 (es_with old n) (zlen (hello_head h) + 2) (zlen b) = pad_offs).
  { replace (es_with old n) with ((l1 ++ sni_ext old :: l2) ++ pad_ext n :: [])
      by (unfold es_with; by rewrite <- app_assoc).
    rewrite first_ext_found; auto.
    - rewrite Hlp, Hpo. unfold sni_offset. lia.
    - apply Forall_app; split; [done|by constructor].
    - rewrite Hlp. lia. }
  unfold change_tls_sni. rewrite (Hoff 0), Hf1. cbn [mbind res_bind].
  ccase; [lia|].
  rewrite (Hoff 21), Hf2. cbn [mbind res_bind].
  ccase; [lia|].
  rstep.
  destruct (sni_hdr_be16 A (zlen old) (old ++ M ++ pad_hdr n ++ replicate (Z.to_nat n) 0)
              sni_offset) as [Ho _]; [by rewrite length_A|lia|].
  rewrite <- E in Ho. rewrite Ho, u16_small by lia.
  rstep.
  assert (Hn : be16 b (pad_offs + 2) = n).
  { rewrite E. unfold pad_hdr. rewrite <- !app_assoc.
    rewrite (app_assoc A), (app_assoc (A ++ _)), (app_assoc ((A ++ _) ++ _)),
      (app_assoc (((A ++ _) ++ _) ++ _)).
    apply be16_mid; [|lia]. rewrite !length_app, length_sni_hdr, length_be16_enc. lia. }
  rewrite Hn, u16_small by lia.
  replace (zlen old + 5 - 5) with (zlen old) by lia.
  rewrite size_t_small by lia.
  replace (n =? zlen b - pad_offs - 4) with true by lia.
  replace (n <? zlen host - zlen old) with false by lia. cbn [negb orb].
  replace (zlen old + (zlen host - zlen old)) with (zlen host) by lia.
  rewrite E.
  assert (Hst := sni_hdr_stores A (zlen old) (zlen host)
           (old ++ M ++ pad_hdr n ++ replicate (Z.to_nat n) 0) sni_offset ltac:(by rewrite length_A)).
  apply res_bind_Ok in Hst as (b1 & H1 & (b2 & H2 & H3)%res_bind_Ok).
  rewrite H1. cbn [mbind res_bind]. rewrite H2. cbn [mbind res_bind].
  rewrite H3. cbn [mbind res_bind].
  set (k := n - (zlen host - zlen old)) in *.
  replace (SHTONA _ (pad_offs + 2) k) with
    (Ok (A ++ sni_hdr (zlen host) ++ old ++ T)).
  2:{ symmetry. unfold T, pad_hdr. rewrite <- !app_assoc.
      rewrite (app_assoc A), (app_assoc (A ++ _)), (app_assoc ((A ++ _) ++ _)),
        (app_assoc (((A ++ _) ++ _) ++ _)).
      rewrite shtona_mid by (rewrite !length_app, length_sni_hdr, length_be16_enc; lia).
      by rewrite <- !app_assoc. }
  cbn [mbind res_bind].
  assert (HT : zlen T = zlen b - (sni_offset + 9 + zlen old)).
  { rewrite E. unfold T, pad_hdr. rewrite !length_app, length_sni_hdr.
    rewrite !length_be16_enc. lia. }
  rewrite <- E, <- HT, s32_small by lia.
  replace (sni_offset + 9 + zlen old + (zlen host - zlen old))
    with (sni_offset + 9 + zlen host) by lia.
  rewrite rdn_ok by lia. by rewrite sub_all.
Qed.

(** The name gets shorter: the hello is rewritten exactly to the hello with
    the new name, the freed bytes going to the padding. *)
Lemma change_tls_sni_shrink :
  zlen host <= zlen old <= zlen host + n -> n + (zlen old - zlen host) < 65536 ->
  let b := hello_enc h (es_with old n) in
  let b' := hello_enc h (es_with host (n + (zlen old - zlen host))) in
  change_tls_sni host b (zlen b) = Ok (0, b') /\ length b' = length b.
Proof.
  intros Hw Hn b b'. unfold b. rewrite change_tls_sni_guards by lia.
  replace (n - (zlen host - zlen old)) with (n + (zlen old - zlen host)) by lia.
  pose proof (length_es_with old n ltac:(lia)) as HL.
  pose proof (length_es_with host (n + (zlen old - zlen host)) ltac:(lia)) as HL'.
  assert (HLL : zlen (exts_enc (es_with host (n + (zlen old - zlen host)))) = L)
    by (unfold L; lia).
  pose proof total_short. pose proof length_A as HA.
  assert (Hhead := length_hello_head h Hwf).
  set (d := zlen old - zlen host) in *.
  set (Q := M ++ pad_hdr (n + d)).
  set (P := A ++ sni_hdr (zlen host)).
  assert (HP : zlen P = sni_offset + 9) by (unfold P; rewrite length_app, length_sni_hdr; lia).
  assert (HQ : zlen Q = zlen M + 4) by (unfold Q; rewrite length_app; simpl; lia).
  split; [|pose proof (length_hello_enc h (es_with host (n + d)));
           pose proof (length_hello_enc h (es_with old n)); unfold b', b; lia].
  replace (A ++ sni_hdr (zlen host) ++ old ++ M ++ pad_hdr (n + d) ++ replicate (Z.to_nat n) 0)
    with (P ++ old ++ Q ++ replicate (Z.to_nat n) 0)
    by (unfold P, Q; by rewrite <- ?app_assoc).
  replace (M ++ pad_hdr (n + d) ++ replicate (Z.to_nat n) 0)
    with (Q ++ replicate (Z.to_nat n) 0) by (unfold Q; by rewrite <- ?app_assoc).
  set (T := Q ++ replicate (Z.to_nat n) 0).
  assert (HT : zlen T = zlen Q + n) by (unfold T; rewrite length_app, length_replicate; lia).
  assert (Hlen : zlen (P ++ old ++ T) = sni_offset + 9 + zlen old + zlen T)
    by (rewrite !length_app; lia).
  assert (sni_offset < 2 ^ 32) by (unfold sni_offset; destruct Hwf as (?&?&?&?); lia).
  assert (zlen M < 65536) by (unfold M; lia).
  rewrite memmove_ok by lia. cbn [mbind res_bind].
  assert (Hmoved : put (P ++ old ++ T) (sni_offset + 9 + zlen host)
                     (sub (P ++ old ++ T) (sni_offset + 9 + zlen old) (zlen T)) =
                   P ++ take (length host) old ++ T ++ replicate (Z.to_nat d) 0).
  { rewrite (app_assoc P old T) at 2. rewrite sub_app_r by (rewrite length_app; lia).
    replace (sni_offset + 9 + zlen old - zlen (P ++ old)) with 0 by (rewrite length_app; lia).
    rewrite sub_all. unfold put. rewrite take_app_ge by lia.
    rewrite take_app_le by lia. rewrite <- app_assoc.
    replace (Z.to_nat (sni_offset + 9 + zlen host) - length P)%nat with (length host) by lia.
    do 3 f_equal. rewrite drop_app_ge by lia. rewrite drop_app_ge by lia.
    unfold T. rewrite drop_app_ge by (fold T; lia).
    rewrite drop_replicate. f_equal. fold T. lia. }
  rewrite Hmoved.
  rewrite wrn_ok by (rewrite ?length_app, ?length_take, ?length_replicate; lia).
  cbn [mbind res_bind mret res_ret]. do 2 f_equal.
  rewrite <- HP, put_mid by (rewrite length_take; lia).
  unfold b'. rewrite hello_with_split by lia.
  unfold P, T, Q, M. rewrite <- ?app_assoc. do 6 f_equal.
  rewrite <- replicate_add. f_equal. lia.
Qed.

(** The name gets longer: the code moves the rest of the packet past the
    end of the buffer. *)
Lemma change_tls_sni_grow :
  zlen old < zlen host <= zlen old + n ->
  let b := hello_enc h (es_with old n) in
  change_tls_sni host b (zlen b) = Fault OutOfBounds.
Proof.
  intros Hw b. unfold b. rewrite change_tls_sni_guards by lia.
  pose proof (length_es_with old n ltac:(lia)) as HL.
  pose proof total_short. pose proof length_A as HA.
  assert (Hhead := length_hello_head h Hwf).
  set (T := M ++ pad_hdr _ ++ _).
  set (B := A ++ sni_hdr (zlen host) ++ old ++ T).
  assert (HB : zlen B = sni_offset + 9 + zlen old + zlen T)
    by (unfold B; rewrite !length_app, length_sni_hdr; lia).
  assert (HT : zlen T = zlen M + 4 + n)
    by (unfold T; rewrite !length_app, length_replicate; simpl; lia).
  assert (zlen M < 65536) by (unfold M; lia).
  assert (sni_offset < 2 ^ 32) by (unfold sni_offset; destruct Hwf as (?&?&?&?); lia).
  unfold memmove. rewrite size_t_small by lia. rewrite rdn_ok by lia.
  cbn [mbind res_bind]. unfold wrn, in_range. rewrite zlen_sub by lia.
  by repeat (ccase; [lia|]).
Qed.
End Change.
End Sni.

(** * The program's own fake ClientHello *)
Definition builtin_hello : hello :=
  Hello (sub tls_data 2 3) (sub tls_data 6 37) (sub tls_data 44 32) (sub tls_data 78 62).
Definition builtin_exts : list ext :=
  map (fun '(t, o, n) => Ext t (sub tls_data o n))
    [(11, 174, 4); (10, 182, 22); (16, 208, 14); (22, 226, 0); (23, 230, 0); (49, 234, 0); (13, 238, 42); (43, 284, 9); (45, 297, 2); (51, 303, 38)].
Definition builtin_host : list Z := chars "www.wikipedia.org".

Lemma tls_data_is_hello :
  tls_data = hello_enc builtin_hello (es_with [] builtin_exts builtin_host 172).
Proof. vm_compute. reflexivity. Qed.

(** * [part_tls] *)
Lemma length_5 {A} (l : list A) : length l = 5%nat ->
  exists a b c d e, l = [a; b; c; d; e].
Proof. intros H. destruct l as [|a [|b [|c [|d [|e [|]]]]]]; naive_solver. Qed.

Section PartTls.
Context (t v1 v2 len : Z) (P Q slack : list Z).
Let hdr := [t; v1; v2].
Let b := hdr ++ be16_enc len ++ P ++ Q ++ slack.
Let n := 5 + zlen P + zlen Q.
Hypothesis len_range : 0 <= len < 65536.
Hypothesis small : zlen b < 2 ^ 31.

Lemma part_tls_guard :
  5 <= zlen slack ->
  part_tls b (zlen b) n (zlen P) =
    if len <? zlen P then Ok (n, b) else
    (buffer ← memmove b (5 + zlen P + 5) (5 + zlen P) (zlen Q);
     d ← rdn buffer 0 3;
     buffer ← wrn buffer (5 + zlen P) d;
     buffer ← SHTONA buffer 3 (zlen P);
     buffer ← SHTONA buffer (5 + zlen P + 3) (len - zlen P);
     mret (5, buffer)).
Proof.
  intros Hs. assert (Hb : zlen b = n + zlen slack)
    by (unfold b, n; rewrite !length_app; simpl; lia).
  unfold part_tls. rewrite size_t_small by (unfold n in *; lia).
  ccase; [unfold n in *; lia|]. rewrite antohs_ok by (unfold n in *; lia).
  cbn [mbind res_bind].
  assert (Hr : be16 b 3 = len) by (unfold b; by apply be16_mid).
  rewrite Hr. replace (n - (5 + zlen P)) with (zlen Q) by (unfold n; lia). done.
Qed.

Lemma part_tls_moves :
  5 <= zlen slack -> zlen P <= len ->
  part_tls b (zlen b) n (zlen P) =
    Ok (5, (hdr ++ be16_enc (zlen P) ++ P) ++ (hdr ++ be16_enc (len - zlen P) ++ Q) ++
           drop 5 slack).
Proof.
  intros Hs Hp. rewrite part_tls_guard by done. ccase; [lia|].
  set (X := hdr ++ be16_enc len ++ P).
  assert (HX : zlen X = 5 + zlen P) by (unfold X; rewrite !length_app; simpl; lia).
  assert (Eb : b = X ++ Q ++ slack) by (unfold b, X; by rewrite <- !app_assoc).
  assert (Hb : zlen b = 5 + zlen P + zlen Q + zlen slack) by (rewrite Eb, !length_app; lia).
  rewrite memmove_ok by lia. cbn [mbind res_bind].
  destruct (length_5 (take 5 (Q ++ slack))) as (y1 & y2 & y3 & y4 & y5 & Ey).
  { rewrite length_take, length_app. lia. }
  assert (Hmoved : put b (5 + zlen P + 5) (sub b (5 + zlen P) (zlen Q)) =
                   X ++ [y1; y2; y3; y4; y5] ++ Q ++ drop 5 slack).
  { rewrite Eb at 2. rewrite sub_app_r by lia. rewrite HX, Z.sub_diag.
    rewrite sub_app_l by lia. rewrite sub_all. rewrite Eb. unfold put.
    rewrite take_app_ge by lia. rewrite <- Ey, <- app_assoc.
    replace (Z.to_nat (5 + zlen P + 5) - length X)%nat with 5%nat by lia.
    do 3 f_equal. rewrite drop_app_ge by lia. rewrite drop_app_ge by lia.
    f_equal. lia. }
  rewrite Hmoved. rewrite rdn_ok by (rewrite ?length_app; lia). cbn [mbind res_bind].
  replace (sub (X ++ _) 0 3) with hdr.
  2:{ unfold X. rewrite <- app_assoc. unfold sub. rewrite drop_0.
      by rewrite take_app_length' by done. }
  rewrite wrn_ok by (rewrite ?length_app; simpl; lia). cbn [mbind res_bind].
  change [y1; y2; y3; y4; y5] with ([y1; y2; y3] ++ [y4; y5]).
  rewrite <- HX, <- (app_assoc [y1; y2; y3]), put_mid by done.
  replace (X ++ hdr ++ _) with (hdr ++ be16_enc len ++ P ++ hdr ++ [y4; y5] ++ Q ++ drop 5 slack)
    by (unfold X; by rewrite <- !app_assoc).
  rewrite shtona_mid by done. cbn [mbind res_bind].
  set (Y := hdr ++ be16_enc (zlen P) ++ P ++ hdr).
  assert (HY : zlen Y = zlen X + 3) by (unfold Y; rewrite HX, !length_app; simpl; lia).
  replace (hdr ++ be16_enc (zlen P) ++ P ++ hdr ++ _) with (Y ++ [y4; y5] ++ Q ++ drop 5 slack)
    by (unfold Y; by rewrite <- !app_assoc).
  rewrite <- HY, shtona_ok by (rewrite ?length_app; simpl; lia).
  rewrite put_mid by done. unfold Y. cbn [mbind res_bind mret res_ret].
  by rewrite <- !app_assoc.
Qed.
End PartTls.

(** * Properties *)

(** C3: on every buffer of bytes and every declared length inside it,
    [parse_tls] is defined behaviour; when it reports a host name, the name lies
    inside the declared length, 9 bytes behind an extension of type 0, and its
    length is the 16-bit field in front of it. *)
Theorem parse_tls_in_bounds (b : list Z) (n : Z) :
  is_bytes b -> n <= zlen b ->
  exists len hs, parse_tls b n = Ok (len, hs) /\
    match hs with
    | None => len = 0
    | Some h => 0 <= len /\ 59 <= h /\ h + len <= n /\
                be16 b (h - 9) = 0 /\ len = be16 b (h - 2)
    end.
Proof.
  intros Hb Hn. pose proof (parse_tls_spec b n Hb Hn) as H.
  apply succeeds_Ok in H as ([len hs] & H & P). by exists len, hs.
Qed.

Lemma tls_data_bytes : is_bytes tls_data.
Proof. unfold is_bytes. apply (bool_decide_unpack _). vm_compute. exact I. Qed.

Lemma parse_tls_in_bounds_witness :
  is_bytes tls_data /\ parse_tls tls_data 517 = Ok (17, Some 153) /\
  exists len hs, parse_tls tls_data 517 = Ok (len, hs) /\
    match hs with
    | None => len = 0
    | Some h => 0 <= len /\ 59 <= h /\ h + len <= 517 /\
                be16 tls_data (h - 9) = 0 /\ len = be16 tls_data (h - 2)
    end.
Proof.
  split; [exact tls_data_bytes|]. split; [vm_compute; reflexivity|].
  apply (parse_tls_in_bounds tls_data 517); [exact tls_data_bytes|vm_compute; discriminate].
Defined.

(** [find_tls_ext_offset] is the reference search over the encoded list:
    on a buffer holding a 16-bit length and that many bytes of encoded
    extensions it returns the offset of the first extension of the requested
    type (0 when there is none), and terminates within the buffer. *)
Theorem find_tls_ext_offset_reference (type : Z) (es : list ext) (pre post : list Z) :
  Forall ext_wf es -> 0 < zlen (exts_enc es) < 65536 ->
  let data := pre ++ be16_enc (zlen (exts_enc es)) ++ exts_enc es ++ post in
  find_tls_ext_offset type data (zlen data) (zlen pre) =
    Ok (first_ext type es (zlen pre + 2) (zlen pre + 2 + zlen (exts_enc es))).
Proof.
  intros Hes Hlen data.
  assert (Hd : zlen data = zlen pre + 2 + zlen (exts_enc es) + zlen post)
    by (unfold data; rewrite !length_app, length_be16_enc; lia).
  unfold find_tls_ext_offset. ccase; [lia|]. rstep.
  assert (be16 data (zlen pre) = zlen (exts_enc es)) as -> by (apply be16_mid; lia).
  replace (if _ <? _ then _ else _) with (zlen pre + 2 + zlen (exts_enc es)) by (ccase; lia).
  replace (zlen pre + 2) with (zlen (pre ++ be16_enc (zlen (exts_enc es))))
    by (rewrite length_app, length_be16_enc; lia).
  unfold data. rewrite (app_assoc pre).
  apply find_tls_ext_loop_enc; auto; rewrite ?length_app, ?length_be16_enc; lia.
Qed.

Lemma find_tls_ext_offset_reference_witness :
  find_tls_ext_offset 7 ([1; 2] ++ be16_enc 9 ++ exts_enc [Ext 5 []; Ext 7 [3]] ++ []) 13 2 = Ok 8.
Proof.
  apply (find_tls_ext_offset_reference 7 [Ext 5 []; Ext 7 [3]] [1; 2] []).
  - repeat constructor; simpl; lia.
  - vm_compute. split; reflexivity.
Defined.

(** C2: [parse_tls] inverts the encoding of a ClientHello: whatever session id,
    cipher list and other extensions surround the server-name extension, it
    returns exactly the encoded host name. *)
Theorem parse_tls_hello (h : hello) (l1 l2 : list ext) (host post : list Z) :
  hello_wf h -> Forall ext_wf l1 -> Forall ext_wf l2 ->
  Forall (fun x => ext_type x <> 0) l1 -> 3 < zlen host ->
  zlen (exts_enc (l1 ++ sni_ext host :: l2)) < 65536 ->
  let b := hello_enc h (l1 ++ sni_ext host :: l2) in
  exists off, parse_tls (b ++ post) (zlen b) = Ok (zlen host, Some off) /\
              sub (b ++ post) off (zlen host) = host.
Proof.
  intros. exists (sni_offset h l1 + 9). by apply parse_tls_enc.
Qed.

Lemma builtin_wf : hello_wf builtin_hello.
Proof. vm_compute. repeat split. Qed.
Lemma builtin_exts_wf : Forall ext_wf builtin_exts.
Proof. repeat constructor; vm_compute; congruence. Qed.

Lemma parse_tls_hello_witness :
  exists off, parse_tls (hello_enc builtin_hello (sni_ext builtin_host :: builtin_exts) ++ [9])
      (zlen (hello_enc builtin_hello (sni_ext builtin_host :: builtin_exts))) = Ok (17, Some off) /\
    sub (hello_enc builtin_hello (sni_ext builtin_host :: builtin_exts) ++ [9]) off 17 = builtin_host.
Proof.
  apply (parse_tls_hello builtin_hello [] builtin_exts builtin_host [9]).
  - exact builtin_wf.
  - constructor.
  - exact builtin_exts_wf.
  - constructor.
  - vm_compute. reflexivity.
  - vm_compute. reflexivity.
Defined.

(** C1: changing the server name to one that is not longer rewrites a padded
    ClientHello exactly into the ClientHello for the new name: every other
    field is kept, the freed bytes go to the padding extension, and the packet
    keeps its length. *)
Theorem change_tls_sni_exact (h : hello) (l1 l2 : list ext) (old host : list Z) (n : Z) :
  hello_wf h -> Forall ext_wf l1 -> Forall ext_wf l2 ->
  Forall (fun x => ext_type x <> 0) l1 -> Forall (fun x => ext_type x <> 21) (l1 ++ l2) ->
  0 < n < 32768 -> zlen old < 32768 ->
  zlen host <= zlen old <= zlen host + n ->
  zlen (exts_enc (es_with l1 l2 old n)) < 65536 ->
  let b := hello_enc h (es_with l1 l2 old n) in
  let b' := hello_enc h (es_with l1 l2 host (n + (zlen old - zlen host))) in
  change_tls_sni host b (zlen b) = Ok (0, b') /\ length b' = length b.
Proof. intros. apply change_tls_sni_shrink; auto; lia. Qed.

Lemma change_tls_sni_exact_witness :
  change_tls_sni (chars "ya.ru") tls_data 517 =
    Ok (0, hello_enc builtin_hello (es_with [] builtin_exts (chars "ya.ru") 184)).
Proof.
  rewrite tls_data_is_hello.
  apply (change_tls_sni_exact builtin_hello [] builtin_exts builtin_host (chars "ya.ru") 172).
  - exact builtin_wf.
  - constructor.
  - exact builtin_exts_wf.
  - constructor.
  - repeat constructor; vm_compute; congruence.
  - lia.
  - vm_compute. reflexivity.
  - vm_compute. split; congruence.
  - vm_compute. reflexivity.
Defined.

(** The option that sets the server name of the built-in fake ClientHello
    writes past the end of [tls_data] for every name longer than the built-in
    one that the size check still accepts. *)
Theorem change_tls_sni_builtin_overflow (host : list Z) :
  17 < zlen host <= 189 -> change_tls_sni host tls_data 517 = Fault OutOfBounds.
Proof.
  intros H. rewrite tls_data_is_hello.
  change 517 with (zlen (hello_enc builtin_hello (es_with [] builtin_exts builtin_host 172))).
  change 17 with (zlen builtin_host) in H.
  apply change_tls_sni_grow; try lia.
  - exact builtin_wf.
  - constructor.
  - exact builtin_exts_wf.
  - constructor.
  - repeat constructor; vm_compute; congruence.
  - vm_compute. reflexivity.
  - revert H. change (zlen builtin_host) with 17. lia.
Qed.

Lemma change_tls_sni_builtin_overflow_witness :
  change_tls_sni (chars "connectivitycheck.android.com") tls_data 517 = Fault OutOfBounds.
Proof. apply change_tls_sni_builtin_overflow. vm_compute. split; congruence. Defined.

(** C4: [part_tls] cuts a TLS record in two: the payload before [pos] and the
    payload behind it become two records with the same type and version whose
    lengths add up to the original one, the bytes after the record follow, and
    the packet grows by the 5 bytes the code reports. *)
Theorem part_tls_two_records (t v1 v2 len : Z) (P Q slack : list Z) :
  0 <= len < 65536 -> zlen P <= len -> 5 <= zlen slack ->
  zlen ([t; v1; v2] ++ be16_enc len ++ P ++ Q ++ slack) < 2 ^ 31 ->
  let b := [t; v1; v2] ++ be16_enc len ++ P ++ Q ++ slack in
  part_tls b (zlen b) (5 + zlen P + zlen Q) (zlen P) =
    Ok (5, ([t; v1; v2] ++ be16_enc (zlen P) ++ P) ++
           ([t; v1; v2] ++ be16_enc (len - zlen P) ++ Q) ++ drop 5 slack).
Proof. intros. by apply part_tls_moves. Qed.

Lemma part_tls_two_records_witness :
  part_tls ([22; 3; 1; 0; 4; 10; 11; 12; 13] ++ [0; 0; 0; 0; 0; 7]) 15 9 1 =
    Ok (5, [22; 3; 1; 0; 1; 10; 22; 3; 1; 0; 3; 11; 12; 13; 7]).
Proof.
  apply (part_tls_two_records 22 3 1 4 [10] [11; 12; 13] [0; 0; 0; 0; 0; 7]); vm_compute; congruence || (split; congruence).
Defined.
