(* ===== verification/PacketsHttp.v ===== *)
(** HTTP requests as [Packets] sees them: what [parse_http] and [mod_http]
    answer on any buffer, and where the response checks leave their buffers. *)
From S2P Require Import Prelude CLib Packets.

(** [n] occurs at offset [q] of [b] up to ASCII case. *)
Definition matches (b : list Z) (q : Z) (n : list Z) : Prop :=
  forall i, 0 <= i < zlen n -> tolower (byte_at b (q + i)) = tolower (byte_at n i).

(** * [strncasestr] *)
Section Search.
Context (b n : list Z) (a as_ : Z).
Hypothesis a_range : 0 <= a /\ 0 <= as_ /\ a + as_ <= zlen b.
Hypothesis b_small : zlen b < 2 ^ 31.
Hypothesis n_nonempty : 0 < zlen n < 2 ^ 31.
Hypothesis n_no_nul : forall i, 0 <= i < zlen n -> byte_at n i <> 0 /\ tolower 0 <> tolower (byte_at n i).
Hypothesis n_first : forall c, tolower c = tolower (byte_at n 0) -> c = byte_at n 0.

Lemma strncasecmp_matches q :
  0 <= q -> q + zlen n <= zlen b ->
  exists z, strncasecmp b q n 0 (zlen n) = Ok z /\ (z = 0 <-> matches b q n).
Proof.
  intros Hq Hn. unfold strncasecmp, strncmp_with. rewrite size_t_small by lia.
  replace (Z.min (zlen n) (zlen b + zlen n + 1)) with (zlen n) by lia.
  destruct (strncmp_loop_zero tolower (Z.to_nat (zlen n)) b q n 0) as (z & Hz & Hiff); try lia.
  exists z. split; [done|]. rewrite Hiff; [|intros i Hi; apply n_no_nul; lia].
  unfold matches. rewrite Z2Nat.id by lia. done.
Qed.

Lemma strncasestr_loop_spec fuel p :
  a <= p <= a + as_ -> a + as_ - p < Z.of_nat fuel ->
  succeeds (strncasestr_loop fuel b a as_ n p) (fun o =>
    match o with
    | Some q => p <= q /\ q + zlen n <= a + as_ /\ matches b q n /\
                forall r, p <= r < q -> ~ matches b r n
    | None => forall r, p <= r -> r + zlen n <= a + as_ -> ~ matches b r n
    end).
Proof.
  revert p. induction fuel as [|k IH]; intros p Hp Hk; [lia|].
  assert (Hfirst : forall r, matches b r n -> byte_at b r = byte_at n 0).
  { intros r Hr. apply n_first. rewrite <- (Hr 0) by lia. by rewrite Z.add_0_r. }
  cbn [strncasestr_loop]. rstep. replace (as_ - (p - a)) with (a + as_ - p) by lia.
  destruct (memchr_total b p (byte_at n 0) (a + as_ - p)) as [o Ho]; try lia.
  rewrite Ho. cbn [mbind res_bind]. destruct o as [q|].
  2:{ rewrite memchr_None in Ho by lia. intros r Hr1 Hr2 Hm.
      apply (Ho r); [lia|]. by apply Hfirst. }
  apply memchr_Some in Ho as (Hq & Hc & Hbefore); try lia.
  assert (Hskip : forall r, p <= r < q -> ~ matches b r n).
  { intros r Hr Hm. apply (Hbefore r); [lia|]. by apply Hfirst. }
  ccase.
  { intros r Hr1 Hr2. apply Hskip. lia. }
  destruct (strncasecmp_matches q) as (z & Hz & Hiff); try lia.
  rewrite Hz. cbn [mbind res_bind].
  destruct (Z.eqb_spec z 0) as [Hz0|Hz0].
  { cbn. split_and!; try lia; [by apply Hiff|done]. }
  eapply succeeds_mono; [apply IH; lia|].
  intros [q'|] H'; cbn in *.
  - destruct H' as (? & ? & ? & Hb). split_and!; try lia; [done|].
    intros r Hr. destruct (decide (r < q)); [apply Hskip; lia|].
    destruct (decide (r = q)) as [->|]; [by rewrite <- Hiff|apply Hb; lia].
  - intros r Hr1 Hr2. destruct (decide (r < q)); [apply Hskip; lia|].
    destruct (decide (r = q)) as [->|]; [by rewrite <- Hiff|apply H'; lia].
Qed.

Lemma strncasestr_spec :
  succeeds (strncasestr b a as_ n) (fun o =>
    match o with
    | Some q => a <= q /\ q + zlen n <= a + as_ /\ matches b q n /\
                forall r, a <= r < q -> ~ matches b r n
    | None => forall r, a <= r -> r + zlen n <= a + as_ -> ~ matches b r n
    end).
Proof. apply strncasestr_loop_spec; lia. Qed.
End Search.

(** The needles of the program meet the side conditions. *)
Definition host_needle : list Z := 10 :: chars "Host:".

Lemma tolower_nonletter c k :
  ~ 97 <= k <= 122 -> ~ 65 <= k <= 90 -> tolower c = tolower k -> c = k.
Proof. unfold tolower. zcases; lia. Qed.

Lemma host_needle_ok :
  (forall i, 0 <= i < zlen host_needle ->
     byte_at host_needle i <> 0 /\ tolower 0 <> tolower (byte_at host_needle i)) /\
  (forall c, tolower c = tolower (byte_at host_needle 0) -> c = byte_at host_needle 0).
Proof.
  split.
  - intros i Hi. change (zlen host_needle) with 6 in Hi.
    assert (i = 0 \/ i = 1 \/ i = 2 \/ i = 3 \/ i = 4 \/ i = 5) as H by lia.
    destruct H as [->|[->|[->|[->|[->| ->]]]]]; split; vm_compute; congruence.
  - intros c. change (byte_at host_needle 0) with 10. apply tolower_nonletter; lia.
Qed.

Lemma host_needle_colon b p : matches b p host_needle -> byte_at b (p + 5) = 58 /\ byte_at b p = 10.
Proof.
  intros H. split.
  - apply tolower_nonletter; [lia..|]. by apply (H 5).
  - rewrite <- (Z.add_0_r p). apply tolower_nonletter; [lia..|]. by apply (H 0).
Qed.

(** * The helpers of [parse_http] *)
Lemma match_method_safe ms b :
  Forall (fun m => zlen (chars m) <= zlen b) ms -> zlen b < 2 ^ 31 ->
  exists r, match_method ms b = Ok r.
Proof.
  induction 1 as [|m ms Hm _ IH]; intros Hb; [by eexists|].
  cbn [match_method]. unfold strncmp, strncmp_with, cstr.
  rewrite size_t_small by lia. rewrite length_app. simpl (length [0]).
  destruct (strncmp_loop_zero id (Z.to_nat (Z.min (zlen (chars m))
              (zlen b + Z.of_nat (length (chars m) + 1) + 1))) b 0 (chars m ++ [0]) 0)
    as (z & Hz & _); rewrite ?length_app; try lia.
  rewrite Hz. cbn [mbind res_bind]. ccase; [by eexists|auto].
Qed.

Lemma is_http_safe b n : n <= zlen b -> zlen b < 2 ^ 31 -> exists r, is_http b n = Ok r.
Proof.
  intros Hn Hb. unfold is_http. ccase; [by eexists|]. rstep. ccase; [by eexists|].
  apply match_method_safe; [|done].
  assert (Hall : Forall (fun m => zlen (chars m) <= 16) methods) by (by repeat constructor).
  eapply Forall_impl; [exact Hall|]. simpl. lia.
Qed.

Lemma skip_blank_spec fuel b h e :
  0 <= h <= e -> e <= zlen b -> e - h < Z.of_nat fuel ->
  exists q, skip_blank fuel b h e = Ok q /\ h <= q <= e /\
    (forall i, h <= i < q -> isblank (byte_at b i) = true) /\
    (q < e -> isblank (byte_at b q) = false).
Proof.
  revert h. induction fuel as [|k IH]; intros h Hh He Hk; [lia|].
  cbn [skip_blank]. ccase.
  - rstep. destruct (isblank (byte_at b h)) eqn:Hbl.
    + destruct (IH (h + 1)) as (q & Hq & Hr & Hall & Hend); try lia.
      exists q. split_and!; auto; try lia.
      intros i Hi. destruct (decide (i = h)) as [->|]; [done|apply Hall; lia].
    + exists h. split_and!; auto; lia.
  - exists h. split_and!; auto; lia.
Qed.

Lemma isblank_isspace c : isblank c = true -> isspace c = true.
Proof. unfold isblank, isspace. lia. Qed.

(** [last_colon] finds the last ':' before [l_end], or returns [acc]. *)
Lemma last_colon_spec fuel b h e acc :
  0 <= h < e -> e <= zlen b -> zlen b < 2 ^ 31 -> e - h < Z.of_nat fuel ->
  exists o, last_colon fuel b h e acc = Ok o /\
    ((o = acc /\ forall i, h <= i < e -> byte_at b i <> 58) \/
     (exists q, o = Some q /\ h <= q < e /\ byte_at b q = 58 /\
        forall i, q < i < e -> byte_at b i <> 58)).
Proof.
  revert h acc. induction fuel as [|k IH]; intros h acc Hh He Hb Hk; [lia|].
  cbn [last_colon].
  destruct (memchr_total b h (chr ":") (e - h)) as [o Ho]; try lia.
  rewrite Ho. cbn [mbind res_bind]. destruct o as [q|].
  - apply memchr_Some in Ho as (Hq & Hc & Hbefore); try lia.
    ccase.
    + destruct (IH (q + 1) (Some q)) as (o & Ho & Hcase); try lia.
      exists o. split; [done|]. right.
      destruct Hcase as [[-> Hno]|(q' & -> & ? & ? & ?)].
      * exists q. split_and!; auto; try lia. intros i Hi. apply Hno. lia.
      * exists q'. split_and!; auto; lia.
    + exists (Some q). split; [done|]. right. exists q. split_and!; auto; lia.
  - rewrite memchr_None in Ho by lia. exists acc. split; [done|]. left.
    split; [done|]. intros i Hi. apply Ho. lia.
Qed.

(** * [parse_http] *)

(** The Host line of [b[0..n)]: its newline-prefixed name at [p], the value from
    [h], trimmed on the right to [l], the line feed at [nl]. *)
Record host_line (b : list Z) (n p h l nl : Z) : Prop := {
  hl_name : 0 <= p /\ p + 6 <= n /\ matches b p host_needle;
  hl_name_first : forall r, 0 <= r < p -> ~ matches b r host_needle;
  hl_blanks : p + 6 <= h <= n /\ (forall i, p + 6 <= i < h -> isblank (byte_at b i) = true);
  hl_nonblank : h < n -> isblank (byte_at b h) = false;
  hl_nl : h <= nl < n /\ byte_at b nl = 10 /\ (forall i, h <= i < nl -> byte_at b i <> 10);
  hl_trim : p + 5 < l <= nl /\ (forall i, l <= i < nl -> isspace (byte_at b i) = true) /\
            isspace (byte_at b (l - 1)) = false
}.

(** Where the host name ends: at the last ':' of a value ending in a digit, or
    at the end of the value. *)
Definition host_end (b : list Z) (h l e : Z) : Prop :=
  (isdigit (byte_at b (l - 1)) = true /\ h <= e < l /\ byte_at b e = 58 /\
     forall i, e < i < l -> byte_at b i <> 58) \/
  (e = l /\ (isdigit (byte_at b (l - 1)) = false \/ forall i, h <= i < l -> byte_at b i <> 58)).

Lemma host_end_range b n p h l nl e :
  host_line b n p h l nl -> host_end b h l e ->
  p + 6 <= e <= n /\ (e < h -> forall i, h <= i < nl -> isspace (byte_at b i) = true).
Proof.
  intros HL He. pose proof (hl_trim _ _ _ _ _ _ HL) as (? & Hsp & _).
  pose proof (hl_nl _ _ _ _ _ _ HL) as (? & _). pose proof (hl_blanks _ _ _ _ _ _ HL) as (? & _).
  destruct He as [(? & ? & _)|(-> & _)]; split; try lia; intros; apply Hsp; lia.
Qed.

Section ParseHttp.
Context (b : list Z) (n : Z).
Hypothesis n_range : n <= zlen b < 2 ^ 31.

Lemma host_search :
  0 <= n -> succeeds (strncasestr b 0 n host_needle) (fun o =>
    match o with
    | Some q => 0 <= q /\ q + 6 <= n /\ matches b q host_needle /\
                forall r, 0 <= r < q -> ~ matches b r host_needle
    | None => forall r, 0 <= r -> r + 6 <= n -> ~ matches b r host_needle
    end).
Proof.
  intros Hn. destruct host_needle_ok as [H1 H2].
  apply (strncasestr_spec b host_needle 0 n); auto; simpl; lia.
Qed.

(** The value ends where [parse_http] says. *)
Lemma http_end_spec p h l nl fuel :
  host_line b n p h l nl -> n < Z.of_nat fuel ->
  exists o, (if isdigit (byte_at b (l - 1)) then last_colon fuel b h l None else mret None) = Ok o /\
            host_end b h l (default l o).
Proof.
  intros HL Hf. pose proof (hl_trim _ _ _ _ _ _ HL) as (? & _ & Hns).
  pose proof (hl_nl _ _ _ _ _ _ HL) as (? & _).
  pose proof (hl_blanks _ _ _ _ _ _ HL) as (? & Hbl).
  pose proof (hl_name _ _ _ _ _ _ HL) as (? & ? & Hm). apply host_needle_colon in Hm as [Hcolon _].
  destruct (isdigit (byte_at b (l - 1))) eqn:Hd.
  - assert (h < l).
    { destruct (Z.lt_ge_cases h l); [done|exfalso].
      destruct (decide (l = p + 6)) as [->|].
      - replace (p + 6 - 1) with (p + 5) in Hd by lia. rewrite Hcolon in Hd. done.
      - rewrite isblank_isspace in Hns; [done|]. apply Hbl. lia. }
    destruct (last_colon_spec fuel b h l None) as (o & Ho & Hcase); try lia.
    exists o. split; [done|]. destruct Hcase as [[-> Hno]|(q & -> & ? & ? & ?)]; cbn.
    + right. auto.
    + left. auto.
  - exists None. split; [done|]. right. auto.
Qed.

Lemma parse_http_line p h l nl :
  host_line b n p h l nl -> is_http b n = Ok true ->
  exists e, parse_http b n false = Ok (HttpHost (e - h) (Some h) None) /\ host_end b h l e.
Proof.
  intros HL Hhttp. pose proof (hl_name _ _ _ _ _ _ HL) as (Hp & Hpn & Hm).
  pose proof (hl_blanks _ _ _ _ _ _ HL) as (Hh & Hbl).
  pose proof (hl_nl _ _ _ _ _ _ HL) as (Hnl & Hnlc & Hnlf).
  pose proof (hl_trim _ _ _ _ _ _ HL) as (Hl & Hsp & Hns).
  unfold parse_http. rewrite Hhttp. cbn [mbind res_bind negb]. fold host_needle.
  pose proof (host_search ltac:(lia)) as Hs. apply succeeds_Ok in Hs as (o & -> & Ho).
  cbn [mbind res_bind]. destruct o as [q|]; [|by destruct (Ho p); try lia].
  assert (q = p) as ->.
  { destruct Ho as (? & ? & Hq & Hf). destruct (Z.lt_trichotomy q p) as [?|[?|?]]; [|done|].
    - by destruct (hl_name_first _ _ _ _ _ _ HL q); try lia.
    - by destruct (Hf p); try lia. }
  destruct (skip_blank_spec (S (Z.to_nat n)) b (p + 6) n) as (q & Hq & Hqr & Hqb & Hqe); try lia.
  rewrite Hq. cbn [mbind res_bind].
  assert (q = h) as ->.
  { destruct (Z.lt_trichotomy q h) as [Hlt|[?|Hlt]]; [|done|].
    - specialize (Hqe ltac:(lia)). rewrite Hbl in Hqe by lia. done.
    - pose proof (hl_nonblank _ _ _ _ _ _ HL ltac:(lia)) as Hc. rewrite Hqb in Hc by lia. done. }
  assert (memchr b h 10 (n - h) = Ok (Some nl)) as ->.
  { apply memchr_Some; [lia..|]. split_and!; auto; lia. }
  cbn [mbind res_bind].
  assert (scan_back isspace b nl = Ok l) as ->.
  { apply scan_back_Ok. split_and!; auto; lia. }
  cbn [mbind res_bind]. rewrite rd_ok by lia. cbn [mbind res_bind].
  destruct (http_end_spec p h l nl (S (Z.to_nat n)) HL ltac:(lia)) as (o & -> & Hend).
  cbn [mbind res_bind]. exists (default l o). split; [|done]. by destruct o.
Qed.

Lemma parse_http_cases :
  parse_http b n false = Ok no_host \/
  (is_http b n = Ok true /\ exists p h l nl, host_line b n p h l nl).
Proof.
  destruct (is_http_safe b n) as [r Hr]; try lia. unfold parse_http. rewrite Hr.
  cbn [mbind res_bind]. destruct r; cbn [negb]; [|by left]. fold host_needle.
  assert (Hn : 0 <= n).
  { unfold is_http in Hr. destruct (n <? 16) eqn:?; [done|lia]. }
  pose proof (host_search Hn) as Hs. apply succeeds_Ok in Hs as (o & -> & Ho).
  cbn [mbind res_bind]. destruct o as [p|]; [|by left].
  destruct Ho as (Hp & Hpn & Hm & Hfirst).
  destruct (skip_blank_spec (S (Z.to_nat n)) b (p + 6) n) as (h & Hh & Hhr & Hbl & Hnb); try lia.
  rewrite Hh. cbn [mbind res_bind].
  destruct (memchr_total b h 10 (n - h)) as [o Hnl]; try lia. rewrite Hnl. cbn [mbind res_bind].
  destruct o as [nl|]; [|by left]. apply memchr_Some in Hnl as (? & ? & ?); try lia.
  right. split; [done|].
  pose proof (host_needle_colon _ _ Hm) as [Hcolon _].
  destruct (scan_back_total isspace b nl (p + 5)) as (l & Hl & ?); try lia.
  { by rewrite Hcolon. }
  apply scan_back_Ok in Hl as (? & ? & ? & ?).
  exists p, h, l, nl. constructor; auto; split_and!; auto; lia.
Qed.
End ParseHttp.

(** * [mod_http] *)

(** [b'] is [b] up to letter case, and identical outside [[lo, hi)]. *)
Definition recased (b b' : list Z) (lo hi : Z) : Prop :=
  length b' = length b /\
  (forall i, 0 <= i -> tolower (byte_at b' i) = tolower (byte_at b i)) /\
  (forall i, 0 <= i -> ~ lo <= i < hi -> byte_at b' i = byte_at b i).

Lemma recased_refl b lo hi : recased b b lo hi.
Proof. by split_and!. Qed.

Lemma recased_trans b b1 b2 lo hi :
  recased b b1 lo hi -> recased b1 b2 lo hi -> recased b b2 lo hi.
Proof.
  intros (L1 & T1 & E1) (L2 & T2 & E2). split_and!; [congruence| |].
  - intros i Hi. rewrite T2, T1 by done. done.
  - intros i Hi Hn. rewrite E2, E1 by done. done.
Qed.

Lemma recased_widen b b' lo hi lo' hi' :
  lo' <= lo -> hi <= hi' -> recased b b' lo hi -> recased b b' lo' hi'.
Proof. intros ? ? (? & ? & E). split_and!; auto. intros i ? ?. apply E; lia. Qed.

Lemma recased_insert b i c :
  0 <= i < zlen b -> tolower c = tolower (byte_at b i) ->
  recased b (<[Z.to_nat i := c]> b) i (i + 1).
Proof.
  intros Hi Hc. split_and!; [by rewrite length_insert| |]; intros j Hj;
    rewrite byte_at_insert by lia; intros; ccase; try done; [|lia].
  by replace j with i by lia.
Qed.

Lemma wr_recased b i c :
  0 <= i < zlen b -> tolower c = tolower (byte_at b i) ->
  exists b', wr b i c = Ok b' /\ recased b b' i (i + 1).
Proof. intros. rewrite wr_ok by lia. eexists. split; [done|]. by apply recased_insert. Qed.

Ltac recase_step :=
  match goal with
  | |- context [wr ?b ?i ?c ≫= _] =>
      let b' := fresh "b" in let H := fresh "H" in let R := fresh "R" in
      destruct (wr_recased b i c) as (b' & H & R);
      [lia|by rewrite ?tolower_toupper, ?tolower_idem|];
      rewrite H; cbn [mbind res_bind];
      let L := fresh "L" in pose proof (proj1 R) as L
  end.

Lemma mod_http_hmix_spec b par :
  0 <= par -> par + 4 <= zlen b ->
  exists b', mod_http_hmix b par = Ok b' /\ recased b b' par (par + 4).
Proof.
  intros Hp Hl. unfold mod_http_hmix. rstep. recase_step. rstep. recase_step. rstep.
  destruct (wr_recased b1 (par + 3) (toupper (byte_at b1 (par + 3)))) as (b' & Hb' & R');
    [lia|by rewrite tolower_toupper|].
  exists b'. split; [done|].
  repeat (eapply recased_trans; [eapply recased_widen; [| |eassumption]; lia|]).
  apply recased_refl.
Qed.

Lemma upper_even_spec fuel b h len i :
  0 <= h -> 0 <= i -> h + len <= zlen b -> Z.max 0 (len - i) < Z.of_nat fuel ->
  exists b', upper_even fuel b h len i = Ok b' /\ recased b b' h (h + len).
Proof.
  revert b i. induction fuel as [|k IH]; intros b i Hh Hi Hl Hf; [lia|].
  cbn [upper_even]. ccase.
  - rstep. recase_step. destruct (IH b0 (i + 2)) as (b' & Hb' & R'); try lia.
    exists b'. split; [done|]. eapply recased_trans; [|done].
    eapply recased_widen; [| |eassumption]; lia.
  - exists b. split; [done|apply recased_refl].
Qed.

Section ModHttp.
Context (b : list Z) (n m p h l nl e : Z).
Hypothesis n_range : n <= zlen b < 2 ^ 31.
Hypothesis line : host_line b n p h l nl.
Hypothesis http : is_http b n = Ok true.
Hypothesis parsed : parse_http b n false = Ok (HttpHost (e - h) (Some h) None).
Hypothesis end_at : host_end b h l e.

Definition has_flag (f : Z) : bool := negb (Z.land m f =? 0).

(** The name starts at [p + 1], so [par] is [p + 1]. *)
Lemma par_colon : scan_back (fun c => negb (c =? chr ":")) b h = Ok (p + 6).
Proof.
  pose proof (hl_name _ _ _ _ _ _ line) as (? & ? & [Hc _]%host_needle_colon).
  pose proof (hl_blanks _ _ _ _ _ _ line) as (? & Hbl).
  apply scan_back_Ok. split_and!; try lia.
  - intros i Hi. specialize (Hbl i ltac:(lia)). unfold isblank in Hbl.
    change (chr ":") with 58. lia.
  - replace (p + 6 - 1) with (p + 5) by lia. by rewrite Hc.
Qed.

Lemma byte_l_space : isspace (byte_at b l) = true.
Proof.
  pose proof (hl_nl _ _ _ _ _ _ line) as (? & Hnl & _).
  pose proof (hl_trim _ _ _ _ _ _ line) as (? & Hsp & _).
  destruct (decide (l = nl)) as [->|]; [by rewrite Hnl|]. apply Hsp. lia.
Qed.

(** Header-name and host-name mixing only change letter case. *)
Lemma mod_http_case_spec :
  0 < e - h ->
  exists b2, recased b b2 (p + 1) e /\
    mod_http b n m =
      (b' ← (if has_flag MH_SPACE then mod_http_space b2 (p + 1) h (e - h) else mret b2);
       mret (0, b')).
Proof.
  intros He. pose proof (hl_name _ _ _ _ _ _ line) as (? & ? & _).
  pose proof (hl_blanks _ _ _ _ _ _ line) as (? & _).
  pose proof (host_end_range _ _ _ _ _ _ _ line end_at) as [? _].
  unfold mod_http. rewrite parsed. cbn [mbind res_bind hh_len hh_hs].
  replace (e - h =? 0) with false by lia. rewrite par_colon. cbn [mbind res_bind].
  replace (p + 6 - 1 - 4) with (p + 1) by lia. fold (has_flag MH_HMIX) (has_flag MH_DMIX) (has_flag MH_SPACE).
  assert (exists b1, (if has_flag MH_HMIX then mod_http_hmix b (p + 1) else mret b) = Ok b1 /\
                     recased b b1 (p + 1) e) as (b1 & -> & R1).
  { ccase; [|exists b; split; [done|apply recased_refl]].
    destruct (mod_http_hmix_spec b (p + 1)) as (b1 & -> & R); try lia.
    exists b1. split; [done|]. eapply recased_widen; [| |done]; lia. }
  cbn [mbind res_bind]. pose proof (proj1 R1) as L1.
  assert (exists b2, (if has_flag MH_DMIX then upper_even (S (Z.to_nat (e - h))) b1 h (e - h) 0
                      else mret b1) = Ok b2 /\ recased b b2 (p + 1) e) as (b2 & -> & R2).
  { ccase; [|by exists b1].
    destruct (upper_even_spec (S (Z.to_nat (e - h))) b1 h (e - h) 0) as (b2 & -> & R); try lia.
    exists b2. split; [done|]. eapply recased_trans; [done|].
    eapply recased_widen; [| |done]; lia. }
  cbn [mbind res_bind]. by exists b2.
Qed.

(** [MH_SPACE] moves the value next to the colon and turns the blanks into
    tabs behind it. *)
Lemma mod_http_space_spec b2 :
  recased b b2 (p + 1) e -> h <= e ->
  exists b' w, mod_http_space b2 (p + 1) h (e - h) = Ok b' /\
    length b' = length b /\ e <= w <= l /\
    (forall i, 0 <= i -> ~ p + 1 <= i < w -> byte_at b' i = byte_at b i) /\
    (forall i, p + 1 <= i < p + 6 -> tolower (byte_at b' i) = tolower (byte_at b i)) /\
    (forall i, 0 <= i < w - h -> tolower (byte_at b' (p + 6 + i)) = tolower (byte_at b (h + i))) /\
    (forall i, p + 6 + (w - h) <= i < w -> byte_at b' i = 9).
Proof.
  intros (L2 & T2 & E2) Heh. pose proof (hl_name _ _ _ _ _ _ line) as (? & ? & _).
  pose proof (hl_blanks _ _ _ _ _ _ line) as (? & _).
  pose proof (hl_nl _ _ _ _ _ _ line) as (? & ? & _).
  pose proof (hl_trim _ _ _ _ _ _ line) as (? & _).
  assert (e <= l) by (pose proof end_at as [(?&?&?)|(?&_)]; lia).
  unfold mod_http_space. replace (h + (e - h)) with e by lia.
  destruct (scan_while_total (fun c => negb (isspace c)) b2 e l) as (w & Hw & Hwr); try lia.
  { rewrite E2 by lia. by rewrite byte_l_space. }
  rewrite Hw. cbn [mbind res_bind].
  replace (h - (p + 1 + 5)) with (h - (p + 6)) by lia. replace (p + 1 + 5) with (p + 6) by lia.
  rewrite memmove_ok by lia. cbn [mbind res_bind].
  assert (Lm : length (put b2 (p + 6) (sub b2 h (w - h))) = length b2)
    by (apply length_put; rewrite ?zlen_sub; lia).
  rewrite memset_ok by lia.
  eexists _, w. split; [reflexivity|]. split_and!; try lia.
  - rewrite length_put; rewrite ?length_replicate; lia.
  - intros i Hi Hn. rewrite byte_at_put by (rewrite ?length_replicate; lia).
    rewrite length_replicate. ccase; [lia|].
    rewrite byte_at_put by (rewrite ?zlen_sub; lia). rewrite zlen_sub by lia.
    ccase; [lia|]. apply E2; lia.
  - intros i Hi. rewrite byte_at_put by (rewrite ?length_replicate; lia).
    rewrite length_replicate. ccase; [lia|].
    rewrite byte_at_put by (rewrite ?zlen_sub; lia). rewrite zlen_sub by lia.
    ccase; [lia|]. apply T2; lia.
  - intros i Hi. rewrite byte_at_put by (rewrite ?length_replicate; lia).
    rewrite length_replicate. ccase; [lia|].
    rewrite byte_at_put by (rewrite ?zlen_sub; lia). rewrite zlen_sub by lia.
    ccase; [|lia]. rewrite byte_at_sub by lia.
    replace (h + (p + 6 + i - (p + 6))) with (h + i) by lia. apply T2; lia.
  - intros i Hi. rewrite byte_at_put by (rewrite ?length_replicate; lia).
    rewrite length_replicate. ccase; [|lia].
    unfold byte_at. rewrite nth_lookup, lookup_replicate_2 by lia. done.
Qed.

(** A blank value: the length passed to [memmove] is negative. *)
Lemma mod_http_space_blank b2 :
  length b2 = length b -> byte_at b2 l = byte_at b l -> e < h ->
  mod_http_space b2 (p + 1) h (e - h) = Fault OutOfBounds.
Proof.
  intros L2 E2 Heh.
  pose proof (hl_name _ _ _ _ _ _ line) as (? & ? & _).
  pose proof (hl_blanks _ _ _ _ _ _ line) as (? & _).
  pose proof (hl_nl _ _ _ _ _ _ line) as (? & ? & _).
  pose proof (hl_trim _ _ _ _ _ _ line) as (? & _).
  assert (Eel : e = l) by (pose proof end_at as [(?&?&?)|(?&_)]; lia).
  rewrite Eel in Heh |- *.
  unfold mod_http_space. replace (h + (l - h)) with l by lia.
  assert (scan_while (fun c => negb (isspace c)) b2 l = Ok l) as ->.
  { apply scan_while_Ok. rewrite E2, byte_l_space. split_and!; try done; lia. }
  cbn [mbind res_bind]. unfold memmove, rdn, in_range, size_t.
  rewrite <- (Z.mod_add (l - h) 1) by lia. rewrite Z.mod_small by lia.
  ccase; [lia|]. ccase; [lia|done].
Qed.
End ModHttp.

(** * A request in the shape clients send *)
Lemma byte_at_seg A B C i j :
  j = zlen A + i -> 0 <= i < zlen B -> byte_at (A ++ B ++ C) j = byte_at B i.
Proof.
  intros -> Hi. rewrite byte_at_app by lia. ccase; [lia|].
  rewrite byte_at_app by lia. ccase; [|lia]. f_equal. lia.
Qed.

Lemma Forall_byte_at (P : Z -> Prop) b i : Forall P b -> 0 <= i < zlen b -> P (byte_at b i).
Proof.
  intros H Hi. apply (Forall_lookup_1 _ _ _ _ H (byte_at_lookup _ _ Hi)).
Qed.

Record request := Request {
  rq_pre : list Z;      (* everything before the line feed in front of the name *)
  rq_name : list Z;     (* "Host:" in any letter case *)
  rq_blanks : list Z;
  rq_host : list Z;
  rq_port : list Z;     (* empty, or ':' and digits *)
  rq_eol : list Z;      (* trailing white space before the line feed *)
  rq_tail : list Z
}.
Definition request_bytes (q : request) : list Z :=
  rq_pre q ++ [10] ++ rq_name q ++ rq_blanks q ++ rq_host q ++ rq_port q ++ rq_eol q ++
  [10] ++ rq_tail q.

Definition host_char (c : Z) : Prop := c <> 58 /\ isspace c = false.
Record request_wf (q : request) : Prop := {
  rw_name : map tolower (rq_name q) = chars "host:";
  rw_first : forall r, 0 <= r < zlen (rq_pre q) -> ~ matches (request_bytes q) r host_needle;
  rw_blanks : Forall (fun c => isblank c = true) (rq_blanks q);
  rw_host : rq_host q <> [] /\ Forall host_char (rq_host q);
  rw_port : rq_port q = [] \/
            exists ds, rq_port q = 58 :: ds /\ ds <> [] /\ Forall (fun c => isdigit c = true) ds;
  rw_eol : Forall (fun c => isspace c = true /\ c <> 10) (rq_eol q)
}.

Section Request.
Context (q : request) (wf : request_wf q).
Let b := request_bytes q.
Let p := zlen (rq_pre q).
Let h := p + 6 + zlen (rq_blanks q).
Let e := h + zlen (rq_host q).
Let l := e + zlen (rq_port q).
Let nl := l + zlen (rq_eol q).

Lemma length_name : length (rq_name q) = 5%nat.
Proof. rewrite <- (length_map tolower), (rw_name _ wf). done. Qed.

Lemma length_request : zlen b = nl + 1 + zlen (rq_tail q).
Proof.
  unfold b, nl, l, e, h, p, request_bytes. rewrite !length_app, length_name. simpl. lia.
Qed.

Lemma request_matches : matches b p host_needle.
Proof.
  intros i Hi. change (zlen host_needle) with 6 in Hi. unfold b, request_bytes.
  destruct (decide (i = 0)) as [->|].
  { rewrite (byte_at_seg (rq_pre q) [10] _ 0) by (simpl; lia). done. }
  rewrite (app_assoc (rq_pre q)).
  rewrite (byte_at_seg _ (rq_name q) _ (i - 1))
    by (rewrite ?length_app, ?length_name; unfold p; simpl; lia).
  pose proof (rw_name _ wf) as Hn. pose proof length_name as Hl.
  destruct (rq_name q) as [|c1 [|c2 [|c3 [|c4 [|c5 [|]]]]]]; try discriminate Hl.
  cbn in Hn. injection Hn as H1 H2 H3 H4 H5.
  assert (i = 1 \/ i = 2 \/ i = 3 \/ i = 4 \/ i = 5) as Hcase by lia.
  by destruct Hcase as [->|[->|[->|[->| ->]]]]; cbn.
Qed.

Lemma request_blank i : p + 6 <= i < h -> isblank (byte_at b i) = true.
Proof.
  intros Hi. unfold b, request_bytes. rewrite (app_assoc (rq_pre q)), (app_assoc (_ ++ _)).
  rewrite (byte_at_seg _ (rq_blanks q) _ (i - (p + 6)))
    by (rewrite ?length_app, ?length_name; unfold h, p in *; simpl; lia).
  apply (Forall_byte_at _ _ _ (rw_blanks _ wf)). unfold h in Hi. lia.
Qed.

Lemma request_host i : h <= i < e -> host_char (byte_at b i).
Proof.
  intros Hi. unfold b, request_bytes.
  rewrite (app_assoc (rq_pre q)), (app_assoc (_ ++ _)), (app_assoc ((_ ++ _) ++ _)).
  rewrite (byte_at_seg _ (rq_host q) _ (i - h))
    by (rewrite ?length_app, ?length_name; unfold e, h, p in *; simpl; lia).
  apply (Forall_byte_at _ _ _ (proj2 (rw_host _ wf))). unfold e in Hi. lia.
Qed.

Lemma request_port i : e <= i < l ->
  (i = e /\ byte_at b i = 58 /\ e + 1 < l) \/ (e < i /\ isdigit (byte_at b i) = true).
Proof.
  intros Hi. unfold b, request_bytes.
  rewrite (app_assoc (rq_pre q)), (app_assoc (_ ++ _)), (app_assoc ((_ ++ _) ++ _)),
    (app_assoc (((_ ++ _) ++ _) ++ _)).
  rewrite (byte_at_seg _ (rq_port q) _ (i - e))
    by (rewrite ?length_app, ?length_name; unfold l, e, h, p in *; simpl; lia).
  unfold l in *. destruct (rw_port _ wf) as [E|(ds & E & Hne & Hds)]; rewrite E in *.
  { simpl in Hi. lia. }
  destruct (decide (i = e)) as [->|].
  - left. rewrite Z.sub_diag. split_and!; try done. destruct ds; [done|]. simpl. lia.
  - right. split; [lia|]. change (58 :: ds) with ([58] ++ ds).
    rewrite byte_at_app by lia. simpl (zlen [58]). ccase; [lia|].
    apply (Forall_byte_at _ _ _ Hds). simpl in Hi. lia.
Qed.

Lemma request_eol i : l <= i < nl -> isspace (byte_at b i) = true /\ byte_at b i <> 10.
Proof.
  intros Hi. unfold b, request_bytes.
  rewrite (app_assoc (rq_pre q)), (app_assoc (_ ++ _)), (app_assoc ((_ ++ _) ++ _)),
    (app_assoc (((_ ++ _) ++ _) ++ _)), (app_assoc ((((_ ++ _) ++ _) ++ _) ++ _)).
  rewrite (byte_at_seg _ (rq_eol q) _ (i - l))
    by (rewrite ?length_app, ?length_name; unfold nl, l, e, h, p in *; simpl; lia).
  apply (Forall_byte_at _ _ _ (rw_eol _ wf)). unfold nl in Hi. lia.
Qed.

Lemma request_nl : byte_at b nl = 10.
Proof.
  unfold b, request_bytes.
  rewrite (app_assoc (rq_pre q)), (app_assoc (_ ++ _)), (app_assoc ((_ ++ _) ++ _)),
    (app_assoc (((_ ++ _) ++ _) ++ _)), (app_assoc ((((_ ++ _) ++ _) ++ _) ++ _)),
    (app_assoc (((((_ ++ _) ++ _) ++ _) ++ _) ++ _)).
  rewrite (byte_at_seg _ [10] _ 0)
    by (rewrite ?length_app, ?length_name; unfold nl, l, e, h, p in *; simpl; lia).
  done.
Qed.

Lemma isdigit_nonspace c : isdigit c = true -> isspace c = false /\ c <> 58.
Proof. unfold isdigit, isspace. lia. Qed.

Lemma request_value i : h <= i < l -> isspace (byte_at b i) = false.
Proof.
  intros Hi. destruct (Z.lt_ge_cases i e); [by apply request_host; lia|].
  destruct (request_port i) as [(-> & -> & _)|[_ Hd%isdigit_nonspace]]; [lia|done|apply Hd].
Qed.

Lemma request_line : host_line b (zlen b) p h l nl.
Proof.
  pose proof length_request as Hl. pose proof (rw_host _ wf) as [Hne _].
  assert (0 < zlen (rq_host q)) by (destruct (rq_host q); [done|simpl; lia]).
  assert (Hr : p + 6 <= h < e /\ e <= l <= nl) by (unfold nl, l, e, h in *; lia).
  constructor.
  - split_and!; [unfold p; lia|lia|apply request_matches].
  - apply (rw_first _ wf).
  - split; [lia|apply request_blank].
  - intros _. destruct (isblank (byte_at b h)) eqn:E; [|done].
    apply isblank_isspace in E. by rewrite request_value in E by lia.
  - split_and!; [lia|lia|apply request_nl|]. intros i Hi.
    destruct (Z.lt_ge_cases i l); [|apply request_eol; lia].
    intros E. pose proof (request_value i ltac:(lia)) as V. by rewrite E in V.
  - split_and!; [lia|lia| |apply request_value; lia]. intros i Hi. apply request_eol. lia.
Qed.

Lemma request_end x : host_end b h l x -> x = e.
Proof.
  pose proof (rw_host _ wf) as [Hne _].
  assert (0 < zlen (rq_host q)) by (destruct (rq_host q); [done|simpl; lia]).
  assert (Hr : h < e <= l) by (unfold l, e in *; lia).
  intros [(Hd & Hx & Hc & Hno)|(-> & Hx)].
  - destruct (Z.lt_trichotomy x e) as [Hlt|[?|Hgt]]; [|done|].
    + destruct (request_host x ltac:(lia)). done.
    + destruct (request_port x) as [(? & _)|[_ H2%isdigit_nonspace]]; [lia|lia|].
      by destruct H2.
  - destruct (decide (e = l)) as [|Hel]; [done|exfalso].
    destruct (request_port e) as [(_ & Hc & Hl)|[? _]]; [lia| |lia].
    destruct Hx as [Hx|Hx]; [|by apply (Hx e); [lia|]].
    destruct (request_port (l - 1)) as [(? & _)|[_ H2]]; [lia|lia|congruence].
Qed.

Lemma parse_request :
  zlen b < 2 ^ 31 -> is_http b (zlen b) = Ok true ->
  parse_http b (zlen b) false = Ok (HttpHost (zlen (rq_host q)) (Some h) None).
Proof.
  intros Hs Hh. destruct (parse_http_line b (zlen b) ltac:(lia) _ _ _ _ request_line Hh)
    as (x & Hx & He).
  rewrite Hx, (request_end x He). unfold e. do 2 f_equal. lia.
Qed.

Lemma request_host_sub : sub b h (zlen (rq_host q)) = rq_host q.
Proof.
  unfold b, request_bytes.
  rewrite (app_assoc (rq_pre q)), (app_assoc (_ ++ _)), (app_assoc ((_ ++ _) ++ _)).
  rewrite sub_app_r by (rewrite !length_app, length_name; unfold h, p; simpl; lia).
  replace (h - _) with 0 by (rewrite !length_app, length_name; unfold h, p; simpl; lia).
  rewrite sub_app_l by lia. apply sub_all.
Qed.
End Request.

(** * The checks on server responses *)

(** Every label of the host is non-empty from [p] on: no '.' at [p] and no two
    adjacent ones. *)
Definition labels_nonempty (b : list Z) (p : Z) : Prop :=
  byte_at b p <> chr "." /\
  forall i, p <= i -> byte_at b i = chr "." -> byte_at b (i + 1) <> chr ".".

(** The update [len -= (host - p) + 1] never makes [len] smaller, so the loop
    that should shorten the host never reaches its exit condition. *)
Lemma cut_host_never_exits fuel req host len d r :
  d < len -> labels_nonempty req host -> cut_host fuel req host len d <> Ok (Some r).
Proof.
  revert host len. induction fuel as [|k IH]; intros host len Hd [Hp Hl]; [done|].
  cbn [cut_host]. ccase; [|lia].
  destruct (memchr req host (chr ".") len) as [[p|]|e] eqn:Hm; cbn [mbind res_bind]; try done.
  unfold memchr in Hm. apply memchr_loop_Some in Hm as (Hr & _ & _ & Hc & _).
  assert (host <> p) by congruence.
  apply IH; [lia|]. split; [apply Hl; [lia|done]|]. intros i Hi. apply Hl. lia.
Qed.

(** * Properties *)

(** on every packet, [parse_http] is defined behaviour: it either reports
    no host, or points at the value of the first Host header, after its blanks,
    and the end it reports lies inside the declared length; it lies before the
    start (a negative length) only if the value is nothing but white space. *)
Theorem parse_http_in_bounds (b : list Z) (n : Z) :
  n <= zlen b < 2 ^ 31 ->
  parse_http b n false = Ok no_host \/
  exists p h l nl e, host_line b n p h l nl /\ host_end b h l e /\
    parse_http b n false = Ok (HttpHost (e - h) (Some h) None) /\ p + 6 <= e <= n /\
    (e < h -> forall i, h <= i < nl -> isspace (byte_at b i) = true).
Proof.
  intros Hn. destruct (parse_http_cases b n Hn) as [?|(Hh & p & h & l & nl & HL)]; [by left|right].
  destruct (parse_http_line b n Hn p h l nl HL Hh) as (e & He & Hend).
  destruct (host_end_range _ _ _ _ _ _ _ HL Hend) as [? ?].
  by exists p, h, l, nl, e.
Qed.

Lemma parse_http_in_bounds_witness :
  parse_http http_data 43 false = Ok (HttpHost 17 (Some 22) None) /\
  (parse_http http_data 43 false = Ok no_host \/
   exists p h l nl e, host_line http_data 43 p h l nl /\ host_end http_data h l e /\
     parse_http http_data 43 false = Ok (HttpHost (e - h) (Some h) None) /\ p + 6 <= e <= 43 /\
     (e < h -> forall i, h <= i < nl -> isspace (byte_at http_data i) = true)).
Proof.
  split; [vm_compute; reflexivity|].
  apply (parse_http_in_bounds http_data 43). vm_compute. split; congruence.
Defined.

(** C5: [parse_http] inverts the construction of a request: from any request
    whose first Host header holds [host], optional port, in any letter case and
    spacing, it returns exactly [host]. *)
Theorem parse_http_request (q : request) :
  request_wf q -> zlen (request_bytes q) < 2 ^ 31 ->
  is_http (request_bytes q) (zlen (request_bytes q)) = Ok true ->
  exists off,
    parse_http (request_bytes q) (zlen (request_bytes q)) false =
      Ok (HttpHost (zlen (rq_host q)) (Some off) None) /\
    sub (request_bytes q) off (zlen (rq_host q)) = rq_host q.
Proof.
  intros wf Hs Hh. eexists. split; [by apply parse_request|by apply request_host_sub].
Qed.

Definition sample_request : request :=
  Request (chars "GET /x HTTP/1.1" ++ [13]) (chars "HoSt:") [32; 9] (chars "example.org")
    (chars ":8080") [13] (chars "A: b").

Lemma parse_http_request_witness :
  exists off,
    parse_http (request_bytes sample_request) 48 false = Ok (HttpHost 11 (Some off) None) /\
    sub (request_bytes sample_request) off 11 = chars "example.org".
Proof.
  apply (parse_http_request sample_request).
  - constructor.
    + vm_compute. reflexivity.
    + intros r Hr Hm. apply host_needle_colon in Hm as [_ Hm].
      revert Hm. change (zlen (rq_pre sample_request)) with 16 in Hr.
      assert (r = 0 \/ r = 1 \/ r = 2 \/ r = 3 \/ r = 4 \/ r = 5 \/ r = 6 \/ r = 7 \/ r = 8 \/
        r = 9 \/ r = 10 \/ r = 11 \/ r = 12 \/ r = 13 \/ r = 14 \/ r = 15) as H by lia.
      repeat destruct H as [->|H]; [..|rewrite H]; vm_compute; congruence.
    + repeat constructor.
    + split; [discriminate|]. repeat constructor; vm_compute; congruence.
    + right. exists (chars "8080"). split_and!; [reflexivity|discriminate|repeat constructor].
    + repeat constructor. discriminate.
  - vm_compute. reflexivity.
  - vm_compute. reflexivity.
Defined.

(** on a packet with a non-empty host, [mod_http] succeeds, keeps the
    packet's length and everything outside the Host line; without [MH_SPACE] it
    only changes letter case; with it, the value is moved next to the colon and
    as many tabs as there were blanks follow it. *)
Theorem mod_http_effect (b : list Z) (n m p h l nl e : Z) :
  n <= zlen b < 2 ^ 31 -> host_line b n p h l nl -> host_end b h l e ->
  parse_http b n false = Ok (HttpHost (e - h) (Some h) None) -> 0 < e - h ->
  exists b', mod_http b n m = Ok (0, b') /\ length b' = length b /\
    (forall i, 0 <= i -> ~ p + 1 <= i < l -> byte_at b' i = byte_at b i) /\
    if Z.land m MH_SPACE =? 0
    then forall i, 0 <= i -> tolower (byte_at b' i) = tolower (byte_at b i)
    else exists w, e <= w <= l /\
      (forall i, 0 <= i < w - h -> tolower (byte_at b' (p + 6 + i)) = tolower (byte_at b (h + i))) /\
      (forall i, p + 6 + (w - h) <= i < w -> byte_at b' i = 9).
Proof.
  intros Hn HL Hend Hparse He.
  assert (e <= l) by (destruct Hend as [(?&?&?)|(->&_)]; lia).
  destruct (mod_http_case_spec b n m p h l nl e Hn HL Hparse Hend He) as (b2 & R & ->).
  unfold has_flag. destruct (Z.land m MH_SPACE =? 0); cbn [negb].
  - exists b2. destruct R as (? & ? & R). split_and!; auto. intros i Hi Ho. apply R; lia.
  - destruct (mod_http_space_spec b n p h l nl e Hn HL Hend b2 R ltac:(lia))
      as (b' & w & -> & ? & ? & Hout & _ & ? & ?).
    exists b'. split_and!; auto; [intros i Hi Ho; apply Hout; lia|]. by exists w.
Qed.

Lemma http_data_line : host_line http_data 43 15 22 39 40.
Proof.
  constructor.
  - split_and!; [lia|lia|]. intros i Hi. apply Z.eqb_eq.
    apply (forall_upto (fun i => tolower (byte_at http_data (15 + i)) =? tolower (byte_at host_needle i)) 6);
      [vm_compute; reflexivity|change (zlen host_needle) with 6 in Hi; lia].
  - intros r Hr Hm. apply host_needle_colon in Hm as [_ Hm]. revert Hm. apply Z.eqb_neq, negb_true_iff.
    apply (forall_upto (fun r => negb (byte_at http_data r =? 10)) 15); [vm_compute; reflexivity|lia].
  - split; [lia|]. intros i Hi. by replace i with 21 by lia.
  - done.
  - split_and!; [lia|lia|done|]. intros i Hi.
    pose proof (forall_upto (fun r => (r <? 22) || negb (byte_at http_data r =? 10)) 40 eq_refl i). lia.
  - split_and!; [lia|lia| |done]. intros i Hi. by replace i with 39 by lia.
Qed.

Lemma mod_http_effect_witness :
  exists b', mod_http http_data 43 5 = Ok (0, b') /\ length b' = length http_data /\
    (forall i, 0 <= i -> ~ 16 <= i < 39 -> byte_at b' i = byte_at http_data i) /\
    forall i, 0 <= i -> tolower (byte_at b' i) = tolower (byte_at http_data i).
Proof.
  apply (mod_http_effect http_data 43 5 15 22 39 40 39).
  - vm_compute. split; congruence.
  - exact http_data_line.
  - right. split; [reflexivity|]. left. reflexivity.
  - vm_compute. reflexivity.
  - reflexivity.
Defined.

(** A Host header with a blank value makes [mod_http] with [MH_SPACE] call
    [memmove] with a negative length: the block it names is outside the packet. *)
Theorem mod_http_blank_host_overflow (b : list Z) (n m p h l nl e : Z) :
  n <= zlen b < 2 ^ 31 -> host_line b n p h l nl -> host_end b h l e ->
  parse_http b n false = Ok (HttpHost (e - h) (Some h) None) -> e - h < 0 ->
  Z.land m (MH_HMIX + MH_DMIX) = 0 -> Z.land m MH_SPACE <> 0 ->
  mod_http b n m = Fault OutOfBounds.
Proof.
  intros Hn HL Hend Hparse He Hm Hs. unfold mod_http. rewrite Hparse.
  cbn [mbind res_bind hh_len hh_hs]. replace (e - h =? 0) with false by lia.
  rewrite (par_colon b n p h l nl) by done. cbn [mbind res_bind].
  replace (p + 6 - 1 - 4) with (p + 1) by lia.
  assert (Hz : forall f, Z.land (MH_HMIX + MH_DMIX) f = f -> Z.land m f = 0).
  { intros f Hf. rewrite <- Hf, Z.land_assoc, Hm. apply Z.land_0_l. }
  rewrite (Hz MH_HMIX), (Hz MH_DMIX) by done. replace (Z.land m MH_SPACE =? 0) with false by lia.
  cbn [mbind res_bind Z.eqb negb mret res_ret].
  rewrite (mod_http_space_blank b n p h l nl e); (done || lia).
Qed.

Definition blank_request : list Z :=
  chars "GET / HTTP/1.1" ++ [10] ++ chars "Host: " ++ [13; 10; 13; 10].

Lemma blank_request_line : host_line blank_request 25 14 21 20 22.
Proof.
  constructor.
  - split_and!; [lia|lia|]. intros i Hi. change (zlen host_needle) with 6 in Hi.
    assert (i = 0 \/ i = 1 \/ i = 2 \/ i = 3 \/ i = 4 \/ i = 5) as H by lia.
    by destruct H as [->|[->|[->|[->|[->| ->]]]]].
  - intros r Hr Hm. apply host_needle_colon in Hm as [_ Hm]. revert Hm.
    assert (r = 0 \/ r = 1 \/ r = 2 \/ r = 3 \/ r = 4 \/ r = 5 \/ r = 6 \/ r = 7 \/ r = 8 \/
        r = 9 \/ r = 10 \/ r = 11 \/ r = 12 \/ r = 13) as H by lia.
    repeat destruct H as [->|H]; [..|rewrite H]; vm_compute; congruence.
  - split; [lia|]. intros i Hi. by replace i with 20 by lia.
  - done.
  - split_and!; [lia|lia|done|]. intros i Hi. by replace i with 21 by lia.
  - split_and!; [lia|lia| |done]. intros i Hi.
    assert (i = 20 \/ i = 21) as [-> | ->] by lia; done.
Qed.

Lemma mod_http_blank_host_overflow_witness :
  mod_http blank_request 25 MH_SPACE = Fault OutOfBounds.
Proof.
  apply (mod_http_blank_host_overflow blank_request 25 MH_SPACE 14 21 20 22 20).
  - vm_compute. split; congruence.
  - exact blank_request_line.
  - right. split; [reflexivity|]. left. reflexivity.
  - vm_compute. reflexivity.
  - reflexivity.
  - reflexivity.
  - discriminate.
Defined.

(** The redirect check never recognises a redirect to a parent domain as
    the same site: when the Location host is shorter than the requested one, it
    answers "redirect to another site" or reads outside its buffers, but never
    "same site". *)
Theorem is_http_redirect_no_parent_domain (req : list Z) (host len d : Z) (fuel : nat) :
  d < len -> labels_nonempty req host ->
  forall r, cut_host fuel req host len d <> Ok (Some r).
Proof. intros Hd Hl r. by apply cut_host_never_exits. Qed.

Lemma is_http_redirect_no_parent_domain_witness :
  cut_host 4 (chars "www.example.com/a") 0 15 11 <> Ok (Some (4, 11)).
Proof.
  apply (is_http_redirect_no_parent_domain (chars "www.example.com/a") 0 15 11 4); [done|].
  split; [done|]. intros i Hi Hc Hd. destruct (decide (i < 17)) as [Hlt|].
  - pose proof (forall_upto (fun i => negb ((byte_at (chars "www.example.com/a") i =? 46) &&
      (byte_at (chars "www.example.com/a") (i + 1) =? 46))) 17 eq_refl i ltac:(lia)) as H.
    change (chr ".") with 46 in *. cbv beta in H. rewrite Hc, Hd in H. discriminate.
  - revert Hc. rewrite byte_at_default by (simpl; lia). discriminate.
Defined.
