(* ===== verification/Kavl.v ===== *)
(** The intrusive AVL tree of kavl.h: search, insertion and removal, on trees
    whose nodes carry the balance factor and the subtree size of [KAVL_HEAD].

    The C code keeps the way from the root to a node in two arrays of
    [KAVL_MAX_DEPTH] entries ([path] and [stack], or [path] and [dir]) and
    changes the nodes on it in place.  Here that way is a list of [frame]s,
    innermost first: the fields of each node on it, the direction taken and the
    subtree on the other side; [plug] puts a tree back under it. *)
From S2P Require Import Prelude.

Definition KAVL_MAX_DEPTH : Z := 64.

(** conversion to [signed char], the type of the balance factor *)
Definition s8 (z : Z) : Z := (z + 128) mod 256 - 128.

(** What the tree asks of its comparison: [cmp x y] is negative, zero or
    positive as [x] comes before, equals or comes after [y]. *)
Class Ordering {E : Type} (cmp : E -> E -> Z) : Prop := {
  cmp_refl x : cmp x x = 0;
  cmp_opp x y : cmp x y < 0 <-> 0 < cmp y x;
  cmp_trans x y z : cmp x y < 0 -> cmp y z < 0 -> cmp x z < 0;
  cmp_zero x y z : cmp x y = 0 -> cmp x z < 0 <-> cmp y z < 0
}.

(** [struct elem *] with its [head]: the payload, [balance], [size], [p[0]] and
    [p[1]]; [Leaf] is the null pointer. *)
Inductive tree (E : Type) : Type :=
  | Leaf
  | Node (x : E) (balance size : Z) (l r : tree E).
Arguments Leaf {_}.
Arguments Node {_} _ _ _ _ _.

(** A node of [path] without the subtree in direction [f_dir]. *)
Record frame (E : Type) : Type := Frame {
  f_dir : bool;
  f_elem : E;
  f_balance : Z;
  f_size : Z;
  f_other : tree E
}.
Arguments Frame {_} _ _ _ _ _.
Arguments f_dir {_} _.
Arguments f_elem {_} _.
Arguments f_balance {_} _.
Arguments f_size {_} _.
Arguments f_other {_} _.

Section Kavl.
Context {E : Type} (cmp : E -> E -> Z).
Implicit Types (t p q r : tree E) (x : E) (fs : list (frame E)).

(** Directions: [false] is 0 (left), [true] is 1 (right). *)
Definition node (d : bool) x (b s : Z) (t_d t_opp : tree E) : tree E :=
  if d then Node x b s t_opp t_d else Node x b s t_d t_opp.

(** [p->head.p[d]] *)
Definition child (d : bool) t : tree E :=
  match t with Leaf => Leaf | Node _ _ _ l r => if d then r else l end.

(** [kavl_size] (and, of a child, [kavl_size_child]) *)
Definition kavl_size t : Z :=
  match t with Leaf => 0 | Node _ _ s _ _ => s end.

Definition balance t : Z :=
  match t with Leaf => 0 | Node _ b _ _ _ => b end.
Definition set_balance (b : Z) t : tree E :=
  match t with Leaf => Leaf | Node x _ s l r => Node x b s l r end.

Definition plug1 (f : frame E) t : tree E :=
  node (f_dir f) (f_elem f) (f_balance f) (f_size f) t (f_other f).
Definition plug fs t : tree E := foldl (fun t f => plug1 f t) t fs.

(** * Search *)
Fixpoint kavl_find (p : tree E) x (cnt : Z) : option E * Z :=
  match p with
  | Leaf => (None, cnt)
  | Node y _ _ l r =>
      let c := cmp x y in
      let cnt := if 0 <=? c then u32 (cnt + (kavl_size l + 1)) else cnt in
      if c <? 0 then kavl_find l x cnt
      else if 0 <? c then kavl_find r x cnt
      else (Some y, cnt)
  end.

(** * Rotations *)

(** one rotation: (a,(b,c)q)p => ((a,b)p,c)q *)
Definition kavl_rotate1 p (dir : bool) : res (tree E) :=
  let opp := negb dir in
  match p, child opp p with
  | Node xp bp size_p _ _, Node xq bq size_q _ _ =>
      let q := child opp p in
      let size_p' := u32 (size_p - (size_q - kavl_size (child dir q))) in
      let p' := node dir xp bp size_p' (child dir p) (child dir q) in
      mret (node dir xq bq size_p p' (child opp q))
  | _, _ => Fault NullDeref
  end.

(** two consecutive rotations: (a,((b,c)r,d)q)p => ((a,b)p,(c,d)q)r *)
Definition kavl_rotate2 p (dir : bool) : res (tree E) :=
  let opp := negb dir in
  let q := child opp p in
  let r := child dir q in
  match p, q, r with
  | Node xp _ size_p _ _, Node xq _ size_q _ _, Node xr br _ _ _ =>
      let size_x_dir := kavl_size (child dir r) in
      let size_p' := u32 (size_p - (size_q - size_x_dir)) in
      let size_q' := u32 (size_q - (size_x_dir + 1)) in
      let b1 := if dir then -1 else 1 in
      let '(bq, bp) :=
        if br =? b1 then (0, - b1) else if br =? 0 then (0, 0) else (b1, 0) in
      let p' := node dir xp bp size_p' (child dir p) (child dir r) in
      let q' := node dir xq bq size_q' (child opp r) (child opp q) in
      mret (node dir xr 0 size_p p' q')
  | _, _, _ => Fault NullDeref
  end.

(** * Insertion *)
Inductive insert_pos : Type :=
  | Present (y : E) (cnt : Z)
  | Place (above below : list (frame E)) (cnt : Z).

(** The search for the place of [x].  [above] is the way from the root to [bp]
    (without it) and [below] the way from [bp] on, so that [path] is both, and
    [stack[0..top)] holds the directions of [below]. *)
Fixpoint insert_find (p : tree E) x (above below : list (frame E)) (cnt : Z)
    : res insert_pos :=
  match p with
  | Leaf => mret (Place above below cnt)
  | Node y b s l r =>
      let c := cmp x y in
      let cnt := if 0 <=? c then u32 (cnt + (kavl_size l + 1)) else cnt in
      if c =? 0 then mret (Present y cnt) else
      let '(above, below) := if negb (b =? 0) then (below ++ above, []) else (above, below) in
      if KAVL_MAX_DEPTH <=? zlen (below ++ above) then Fault OutOfBounds else
      let which := 0 <? c in
      insert_find (if which then r else l) x above
        (Frame which y b s (child (negb which) p) :: below) cnt
  end.

Definition grow_size (f : frame E) : frame E :=
  Frame (f_dir f) (f_elem f) (f_balance f) (u32 (f_size f + 1)) (f_other f).
Definition shift_balance (f : frame E) : frame E :=
  Frame (f_dir f) (f_elem f)
    (if f_dir f then s8 (f_balance f + 1) else s8 (f_balance f - 1)) (f_size f) (f_other f).

(** The balance factors of the root and of its child in direction [dir], set
    after a single rotation. *)
Definition set_balances (t : tree E) (dir : bool) (b bc : Z) : tree E :=
  match t with
  | Leaf => Leaf
  | Node y _ s _ _ => node dir y b s (set_balance bc (child dir t)) (child (negb dir) t)
  end.

(** Lines 163-169: the rotation that restores the balance at [bp], whose
    balance factor is -2 or 2. *)
Definition insert_rebalance (bp : tree E) : res (tree E) :=
  let which := balance bp <? 0 in
  let b1 := if which then -1 else 1 in
  let q := child (negb which) bp in
  if balance q =? b1 then r ← kavl_rotate1 bp which; mret (set_balances r which 0 0)
  else kavl_rotate2 bp which.

(** The value returned is the element of the tree equal to [x] ([None] stands
    for [x] itself, now a node), [*cnt_], and the new root. *)
Definition kavl_insert (root : tree E) x : res (option E * Z * tree E) :=
  pos ← insert_find root x [] [] 0;
  match pos with
  | Present y cnt => mret (Some y, cnt, root)
  | Place above below cnt =>
      let new := Node x 0 1 Leaf Leaf in
      match below with
      | [] => mret (None, cnt, new)
      | _ =>
          let above := map grow_size above in
          let below := map grow_size below in
          let below := map shift_balance below in
          let bp := plug below new in
          if (-2 <? balance bp) && (balance bp <? 2)
          then mret (None, cnt, plug above bp)
          else r ← insert_rebalance bp; mret (None, cnt, plug above r)
      end
  end.

(** * Removal *)

(** The way to the node equal to [x], and the node.  The array has one more
    entry in front, the node [fake] above the root: when [p] is reached, the
    node before it has just been stored at index [zlen fs]. *)
Fixpoint erase_find (p : tree E) x fs (cnt : Z) : res (option (tree E * list (frame E) * Z)) :=
  if KAVL_MAX_DEPTH <=? zlen fs then Fault OutOfBounds else
  match p with
  | Leaf => mret None
  | Node y b s l r =>
      let c := cmp x y in
      let cnt := if 0 <? c then u32 (cnt + (kavl_size l + 1)) else cnt in
      if c =? 0 then mret (Some (p, fs, u32 (cnt + (kavl_size l + 1)))) else
      let which := 0 <? c in
      erase_find (if which then r else l) x (Frame which y b s (child (negb which) p) :: fs) cnt
  end.

(** The way to the first node, for a null [x]. *)
Fixpoint erase_first (p : tree E) fs : res (option (tree E * list (frame E) * Z)) :=
  if KAVL_MAX_DEPTH <=? zlen fs then Fault OutOfBounds else
  match p with
  | Leaf => Fault OutOfBounds
  | Node y b s Leaf r =>
      if KAVL_MAX_DEPTH <=? zlen fs + 1 then Fault OutOfBounds else mret (Some (p, fs, 1))
  | Node y b s l r => erase_first l (Frame false y b s r :: fs)
  end.

Definition shrink_size (f : frame E) : frame E :=
  Frame (f_dir f) (f_elem f) (f_balance f) (u32 (f_size f - 1)) (f_other f).

(** Lines 216-222 and 224: the way from [q] to the parent of the first node [r]
    below it, that node, and what takes its place. *)
Fixpoint erase_succ (q : tree E) (d : Z) fs : res (tree E * list (frame E)) :=
  if KAVL_MAX_DEPTH <=? d then Fault OutOfBounds else
  match q with
  | Node y b s r qr =>
      match r with
      | Node _ _ _ Leaf _ => mret (r, Frame false y b s qr :: fs)
      | _ => erase_succ r (d + 1) (Frame false y b s qr :: fs)
      end
  | Leaf => Fault NullDeref
  end.

(** Lines 203-232: [p] is taken out; the result is the way to the place where
    a subtree became lower, and the subtree there. *)
Definition erase_unlink (p : tree E) fs : res (tree E * list (frame E)) :=
  match p with
  | Leaf => Fault NullDeref
  | Node _ bp sp pl Leaf => mret (pl, fs)
  | Node _ bp sp pl (Node xq bq sq Leaf qr as q) =>
      if KAVL_MAX_DEPTH <=? zlen fs + 1 then Fault OutOfBounds else
      mret (qr, Frame true xq bp (u32 (sp - 1)) pl :: fs)
  | Node _ bp sp pl q =>
      if KAVL_MAX_DEPTH <=? zlen fs + 1 then Fault OutOfBounds else
      '(r, qs) ← erase_succ q (zlen fs + 2) [];
      match r with
      | Leaf => Fault NullDeref
      | Node xr _ _ _ rr =>
          mret (rr, map shrink_size qs ++ Frame true xr bp (u32 (sp - 1)) pl :: fs)
      end
  end.

(** Lines 233-253: the rebalancing, from the inside out; [t] is the subtree
    that became lower. *)
Fixpoint erase_rebalance (t : tree E) fs : res (tree E) :=
  match fs with
  | [] => mret t
  | f :: fs =>
      let which := f_dir f in
      let b1 := if which then -1 else 1 in
      let b2 := if which then -2 else 2 in
      let b := s8 (f_balance f + b1) in
      let q := node which (f_elem f) b (f_size f) t (f_other f) in
      if b =? b1 then mret (plug fs q)
      else if b =? b2 then
        let r := f_other f in
        if balance r =? - b1 then
          q' ← kavl_rotate2 q which; erase_rebalance q' fs
        else
          q' ← kavl_rotate1 q which;
          if balance r =? 0 then mret (plug fs (set_balances q' which (- b1) b1))
          else erase_rebalance (set_balances q' which 0 0) fs
      else erase_rebalance q fs
  end.

(** [None] for [x] is the null pointer.  The element removed, [*cnt_] and the
    new root. *)
Definition kavl_erase (root : tree E) (x : option E) : res (option E * Z * tree E) :=
  found ← match x with
          | Some x => erase_find root x [] 0
          | None => erase_first root []
          end;
  match found with
  | None => mret (None, 0, root)
  | Some (p, fs, cnt) =>
      '(t, fs) ← erase_unlink p (map shrink_size fs);
      root ← erase_rebalance t fs;
      match p with
      | Node y _ _ _ _ => mret (Some y, cnt, root)
      | Leaf => Fault NullDeref
      end
  end.
End Kavl.
