(* ===== verification/KavlAvl.v ===== *)
(** The AVL tree of kavl.h: its invariant (order, balance factors, subtree
    sizes), the effect of the rotations, and the shape of the way from the root
    to a node. *)

From S2P Require Import Prelude Kavl.

Section Avl.
Context {E : Type}.
Implicit Types (t p q r : tree E) (x y : E) (fs : list (frame E)).

(** * The invariant *)
Fixpoint height t : Z :=
  match t with Leaf => 0 | Node _ _ _ l r => 1 + Z.max (height l) (height r) end.

Fixpoint elements t : list E :=
  match t with Leaf => [] | Node x _ _ l r => elements l ++ x :: elements r end.

Definition count t : Z := zlen (elements t).

(** Balance factors are differences of heights within one, sizes are the
    numbers of elements (modulo [2^32]). *)
Fixpoint wf t : Prop :=
  match t with
  | Leaf => True
  | Node _ b s l r =>
      wf l /\ wf r /\ b = height r - height l /\ -1 <= b <= 1 /\
      s = u32 (count l + 1 + count r)
  end.

Definition sorted (cmp : E -> E -> Z) (l : list E) : Prop := StronglySorted (fun x y => cmp x y < 0) l.

(** The whole invariant of a tree. *)
Definition avl_tree (cmp : E -> E -> Z) t : Prop := wf t /\ sorted cmp (elements t).

(** The sign of a direction: heights in direction [d] minus the others. *)
Definition sgn (d : bool) : Z := if d then 1 else -1.

(** The subtree in the place of a frame has height [h] and [n] elements. *)
Definition frame_ok (f : frame E) (h n : Z) : Prop :=
  wf (f_other f) /\ f_balance f = sgn (f_dir f) * (h - height (f_other f)) /\
  -1 <= f_balance f <= 1 /\ f_size f = u32 (n + 1 + count (f_other f)).

Definition height_up (f : frame E) (h : Z) : Z := 1 + Z.max h (height (f_other f)).
Definition count_up (f : frame E) (n : Z) : Z := n + 1 + count (f_other f).

Fixpoint path_ok fs (h n : Z) : Prop :=
  match fs with
  | [] => True
  | f :: fs => frame_ok f h n /\ path_ok fs (height_up f h) (count_up f n)
  end.

(** The elements before and after the place at the end of a path. *)
Fixpoint path_l fs : list E :=
  match fs with
  | [] => []
  | f :: fs => path_l fs ++ (if f_dir f then elements (f_other f) ++ [f_elem f] else [])
  end.
Fixpoint path_r fs : list E :=
  match fs with
  | [] => []
  | f :: fs => (if f_dir f then [] else f_elem f :: elements (f_other f)) ++ path_r fs
  end.

(** * Machine arithmetic of sizes *)
Lemma u32_idem a : u32 (u32 a) = u32 a.
Proof. unfold u32. by apply Z.mod_mod. Qed.
Lemma u32_add_l a b : u32 (u32 a + b) = u32 (a + b).
Proof. unfold u32. apply Zplus_mod_idemp_l. Qed.
Lemma u32_add_r a b : u32 (a + u32 b) = u32 (a + b).
Proof. unfold u32. apply Zplus_mod_idemp_r. Qed.
Lemma u32_sub_l a b : u32 (u32 a - b) = u32 (a - b).
Proof. unfold u32. apply Zminus_mod_idemp_l. Qed.
Lemma u32_sub_r a b : u32 (a - u32 b) = u32 (a - b).
Proof. unfold u32. apply Zminus_mod_idemp_r. Qed.
Lemma u32_sub3 a b c : u32 (u32 a - (u32 b - u32 c)) = u32 (a - (b - c)).
Proof. by rewrite u32_sub_l, <- (u32_sub_r a (u32 b - u32 c)), u32_sub_l, (u32_sub_r b), u32_sub_r. Qed.

(** * Trees *)
Lemma height_nonneg t : 0 <= height t.
Proof. induction t; simpl; lia. Qed.

Lemma count_node x b s l r : count (Node x b s l r) = count l + 1 + count r.
Proof. unfold count. simpl. rewrite length_app. simpl. lia. Qed.

Lemma count_nonneg t : 0 <= count t.
Proof. unfold count. lia. Qed.

Lemma kavl_size_count t : wf t -> kavl_size t = u32 (count t).
Proof. destruct t; [done|]. intros (? & ? & ? & ? & ->). by rewrite count_node. Qed.

Lemma wf_node d x b s t o :
  wf (node d x b s t o) <->
  wf t /\ wf o /\ b = sgn d * (height t - height o) /\ -1 <= b <= 1 /\
  s = u32 (count t + 1 + count o).
Proof.
  destruct d; simpl; [|naive_solver lia].
  rewrite (Z.add_comm (count o + 1)), Z.add_assoc, (Z.add_comm (count t) (count o)).
  replace (count t + 1 + count o) with (count t + count o + 1) by lia.
  replace (count o + count t + 1) with (count t + count o + 1) by lia. naive_solver lia.
Qed.

Lemma height_node d x b s t o : height (node d x b s t o) = 1 + Z.max (height t) (height o).
Proof. destruct d; simpl; lia. Qed.
Lemma count_node_dir d x b s t o : count (node d x b s t o) = count t + 1 + count o.
Proof. destruct d; simpl node; rewrite count_node; lia. Qed.
Lemma balance_node d x b s t o : balance (node d x b s t o) = b.
Proof. by destruct d. Qed.
Lemma child_node d x b s t o : child d (node d x b s t o) = t.
Proof. by destruct d. Qed.
Lemma child_node_opp d x b s t o : child (negb d) (node d x b s t o) = o.
Proof. by destruct d. Qed.

Lemma node_view d t : t <> Leaf ->
  exists x b s, t = node d x b s (child d t) (child (negb d) t).
Proof. destruct t as [|x b s l r]; [done|]. intros _. exists x, b, s. by destruct d. Qed.

(** An AVL tree of height [h] has at least [2^(h/2)] places for a new node, so
    the number of elements bounds the length of every path. *)
Lemma count_height t : wf t -> 2 ^ height t <= (count t + 1) ^ 2.
Proof.
  induction t as [|x b s l IHl r IHr]; [intros _; done|].
  intros (Hl & Hr & Hb & Hb1 & _). rewrite count_node. simpl height.
  specialize (IHl Hl). specialize (IHr Hr).
  pose proof (height_nonneg l). pose proof (height_nonneg r).
  pose proof (count_nonneg l). pose proof (count_nonneg r).
  assert (Hpow : forall k, 0 <= k -> 2 ^ (1 + k) = 2 * 2 ^ k).
  { intros k Hk. rewrite Z.pow_add_r by lia. lia. }
  assert (b = -1 \/ b = 0 \/ b = 1) as [-> | [-> | ->]] by lia.
  - replace (height l) with (1 + height r) in * by lia.
    rewrite Z.max_l, !Hpow in * by lia. nia.
  - replace (height l) with (height r) in * by lia.
    rewrite Z.max_id, !Hpow in * by lia. nia.
  - replace (height r) with (1 + height l) in * by lia.
    rewrite Z.max_r, !Hpow in * by lia. nia.
Qed.

Lemma height_bound t : wf t -> count t < UINT_MAX -> height t < KAVL_MAX_DEPTH.
Proof.
  intros Ht Hc. apply Z.nle_gt. intros Hge. pose proof (count_height t Ht) as H.
  assert (2 ^ 64 <= 2 ^ height t) by (apply Z.pow_le_mono_r; [lia|exact Hge]).
  pose proof (count_nonneg t). unfold UINT_MAX in Hc.
  assert (count t + 1 <= 2 ^ 32 - 1) by lia.
  assert ((count t + 1) ^ 2 <= (2 ^ 32 - 1) ^ 2) by (apply Z.pow_le_mono_l; lia). lia.
Qed.

(** * Paths *)
Lemma plug_app fs1 fs2 t : plug (fs1 ++ fs2) t = plug fs2 (plug fs1 t).
Proof. apply foldl_app. Qed.

Lemma elements_plug1 f t :
  elements (plug1 f t) = path_l [f] ++ elements t ++ path_r [f].
Proof.
  unfold plug1. destruct f as [[] x b s o]; simpl; rewrite ?app_nil_r; [|done].
  by rewrite <- app_assoc.
Qed.

Lemma elements_plug fs t : elements (plug fs t) = path_l fs ++ elements t ++ path_r fs.
Proof.
  revert t. induction fs as [|f fs IH]; intros t; [simpl; by rewrite app_nil_r|].
  change (plug (f :: fs) t) with (plug fs (plug1 f t)).
  rewrite IH, elements_plug1. cbn [path_l path_r app]. by rewrite app_nil_r, <- !app_assoc.
Qed.

Lemma path_l_app fs1 fs2 : path_l (fs1 ++ fs2) = path_l fs2 ++ path_l fs1.
Proof.
  induction fs1 as [|f fs1 IH]; simpl; [by rewrite app_nil_r|]. by rewrite IH, <- !app_assoc.
Qed.
Lemma path_r_app fs1 fs2 : path_r (fs1 ++ fs2) = path_r fs1 ++ path_r fs2.
Proof. induction fs1 as [|f fs1 IH]; simpl; [done|]. by rewrite IH, <- !app_assoc. Qed.

Lemma height_plug1 f t : height (plug1 f t) = height_up f (height t).
Proof. apply height_node. Qed.
Lemma count_plug1 f t : count (plug1 f t) = count_up f (count t).
Proof. apply count_node_dir. Qed.

Lemma wf_plug1 f t : wf (plug1 f t) <-> wf t /\ frame_ok f (height t) (count t).
Proof. unfold plug1, frame_ok. rewrite wf_node. naive_solver. Qed.

Lemma wf_plug fs t : wf (plug fs t) <-> wf t /\ path_ok fs (height t) (count t).
Proof.
  revert t. induction fs as [|f fs IH]; intros t; simpl; [naive_solver|].
  rewrite IH, wf_plug1, height_plug1, count_plug1. naive_solver.
Qed.

(** The height and the count at the top of a path depend only on the subtrees
    beside it. *)
Definition height_top fs (h : Z) : Z := foldl (fun h f => height_up f h) h fs.
Definition count_top fs (n : Z) : Z := foldl (fun n f => count_up f n) n fs.

Lemma path_ok_app fs1 fs2 h n :
  path_ok (fs1 ++ fs2) h n <->
  path_ok fs1 h n /\ path_ok fs2 (height_top fs1 h) (count_top fs1 n).
Proof.
  revert h n. induction fs1 as [|f fs1 IH]; intros h n; simpl; [naive_solver|].
  rewrite IH. naive_solver.
Qed.

Lemma height_plug fs t : height (plug fs t) = height_top fs (height t).
Proof.
  revert t. induction fs as [|f fs IH]; intros t; [done|].
  change (plug (f :: fs) t) with (plug fs (plug1 f t)). by rewrite IH, height_plug1.
Qed.
Lemma count_plug fs t : count (plug fs t) = count_top fs (count t).
Proof.
  revert t. induction fs as [|f fs IH]; intros t; [done|].
  change (plug (f :: fs) t) with (plug fs (plug1 f t)). by rewrite IH, count_plug1.
Qed.

Lemma length_plug fs t : zlen fs + height t <= height (plug fs t).
Proof.
  revert t. induction fs as [|f fs IH]; intros t; simpl; [lia|].
  pose proof (IH (plug1 f t)) as H. rewrite height_plug1 in H. unfold height_up in H.
  change (foldl _ _ fs) with (plug fs (plug1 f t)). lia.
Qed.

(** The sizes along a path after an insertion or a removal below it. *)
Lemma path_ok_grow fs h n : path_ok fs h n -> path_ok (map grow_size fs) h (n + 1).
Proof.
  revert h n. induction fs as [|f fs IH]; intros h n; simpl; [done|].
  intros [(Ho & Hb & Hr & Hs) Hfs]. split.
  - unfold frame_ok. simpl. rewrite Hs, u32_add_l. split_and!; auto; try lia. f_equal. lia.
  - unfold height_up, count_up in *. simpl.
    replace (n + 1 + 1 + count (f_other f)) with (n + 1 + count (f_other f) + 1) by lia. auto.
Qed.
Lemma path_ok_shrink fs h n : path_ok fs h n -> path_ok (map shrink_size fs) h (n - 1).
Proof.
  revert h n. induction fs as [|f fs IH]; intros h n; simpl; [done|].
  intros [(Ho & Hb & Hr & Hs) Hfs]. split.
  - unfold frame_ok. simpl. rewrite Hs, u32_sub_l. split_and!; auto; try lia. f_equal. lia.
  - unfold height_up, count_up in *. simpl.
    replace (n - 1 + 1 + count (f_other f)) with (n + 1 + count (f_other f) - 1) by lia. auto.
Qed.

(** Maps of frames that keep the elements. *)
Lemma path_map g fs :
  (forall f, f_dir (g f) = f_dir f /\ f_elem (g f) = f_elem f /\ f_other (g f) = f_other f) ->
  path_l (map g fs) = path_l fs /\ path_r (map g fs) = path_r fs.
Proof.
  intros Hg. induction fs as [|f fs [IHl IHr]]; simpl; [done|].
  destruct (Hg f) as (-> & -> & ->). by rewrite IHl, IHr.
Qed.

Lemma path_top_map g fs h n :
  (forall f, f_other (g f) = f_other f) ->
  height_top (map g fs) h = height_top fs h /\ count_top (map g fs) n = count_top fs n.
Proof.
  intros Hg. revert h n. induction fs as [|f fs IH]; intros h n; [done|].
  cbn [map height_top count_top foldl]. unfold height_up at 2, count_up at 2. rewrite Hg. apply IH.
Qed.

Lemma count_top_add fs n k : count_top fs (n + k) = count_top fs n + k.
Proof.
  revert n. induction fs as [|f fs IH]; intros n; [done|].
  cbn [count_top foldl]. fold (count_top fs (count_up f (n + k))) (count_top fs (count_up f n)).
  rewrite <- IH. f_equal. unfold count_up. lia.
Qed.

(** * Rotations *)

(** A rotation keeps the elements in order; the sizes it writes are right
    whenever those it reads are. *)
Lemma rotate1_eq d (xp xq : E) bp sp bq sq a b c :
  kavl_rotate1 (node d xp bp sp a (node d xq bq sq b c)) d =
  Ok (node d xq bq sp (node d xp bp (u32 (sp - (sq - kavl_size b))) a b) c).
Proof. by destruct d. Qed.

Lemma rotate2_eq d (xp xq xr : E) bp sp bq sq br sr a b c e :
  kavl_rotate2 (node d xp bp sp a (node d xq bq sq (node d xr br sr b c) e)) d =
  let '(bq', bp') :=
    if br =? - sgn d then (0, sgn d) else if br =? 0 then (0, 0) else (- sgn d, 0) in
  Ok (node d xr 0 sp (node d xp bp' (u32 (sp - (sq - kavl_size b))) a b)
                     (node d xq bq' (u32 (sq - (kavl_size b + 1))) c e)).
Proof. destruct d; cbn; repeat (destruct (br =? _)); done. Qed.

Lemma elements_node d x b s t o :
  elements (node d x b s t o) =
  if d then elements o ++ x :: elements t else elements t ++ x :: elements o.
Proof. by destruct d. Qed.

Lemma set_balances_eq d (xp xq : E) bp sp bq sq a b c nq np :
  set_balances (node d xq bq sq (node d xp bp sp a b) c) d nq np =
  node d xq nq sq (node d xp np sp a b) c.
Proof. by destruct d. Qed.

Lemma rotated_size ca b cc sp sq :
  wf b -> sq = u32 (count b + 1 + cc) -> sp = u32 (ca + 1 + (count b + 1 + cc)) ->
  u32 (sp - (sq - kavl_size b)) = u32 (ca + 1 + count b) /\
  u32 (sq - (kavl_size b + 1)) = u32 cc.
Proof.
  intros Hb -> ->. rewrite (kavl_size_count b Hb), u32_sub3. split; [f_equal; lia|].
  rewrite u32_sub_l, <- u32_sub_r, u32_add_l, u32_sub_r. f_equal. lia.
Qed.

Lemma wf_balance_range t : wf t -> -1 <= balance t <= 1.
Proof. destruct t; simpl; [lia|]. naive_solver. Qed.

(** The tree [p] is two levels higher on the side opposite to [d]. *)
Section Rebalance.
Context (d : bool) (xp : E) (bp sp : Z) (a q : tree E).
Hypothesis (wf_a : wf a) (wf_q : wf q) (heavy : height q = height a + 2).
Hypothesis (size_p : sp = u32 (count a + 1 + count q)).
Local Notation p := (node d xp bp sp a q).

Lemma heavy_view : exists xq bq sq b c, q = node d xq bq sq b c.
Proof.
  destruct (node_view d q) as (xq & bq & sq & ->); [|eauto 6].
  intros ->. pose proof (height_nonneg a). simpl in heavy. lia.
Qed.

Lemma rebalance_single nq np :
  balance q = - sgn d /\ nq = 0 /\ np = 0 \/ balance q = 0 /\ nq = sgn d /\ np = - sgn d ->
  exists r, kavl_rotate1 p d = Ok r /\ wf (set_balances r d nq np) /\
    elements (set_balances r d nq np) = elements p /\
    height (set_balances r d nq np) = height q + (if nq =? 0 then 0 else 1).
Proof.
  destruct heavy_view as (xq & bq & sq & b & c & Hq). rewrite Hq in *. clear Hq.
  rewrite rotate1_eq, balance_node. intros Hbal. eexists. split; [done|].
  rewrite set_balances_eq. apply wf_node in wf_q as (Hb & Hc & Hbq & Hr & Hs).
  rewrite height_node in heavy. rewrite count_node_dir in size_p.
  destruct (rotated_size (count a) b (count c) sp sq Hb Hs size_p) as [-> _].
  split_and!.
  - apply wf_node. rewrite wf_node, height_node, count_node_dir.
    destruct d; simpl sgn in *; split_and!; auto; try lia;
      rewrite size_p; f_equal; lia.
  - rewrite !elements_node. destruct d; by rewrite <- ?app_assoc.
  - rewrite !height_node. destruct d; simpl sgn in *; case_match; lia.
Qed.

Lemma rebalance_double :
  balance q = sgn d ->
  exists r, kavl_rotate2 p d = Ok r /\ wf r /\ elements r = elements p /\ height r = height q.
Proof.
  destruct heavy_view as (xq & bq & sq & r & c & Hq). rewrite Hq in *. clear Hq.
  apply wf_node in wf_q as (Hr & Hc & Hbq & Hrq & Hs). rewrite balance_node. intros ->.
  rewrite height_node in heavy. pose proof (height_nonneg c). pose proof (height_nonneg a).
  destruct (node_view d r) as (xr & br & sr & Hv).
  { intros ->. destruct d; simpl in *; lia. }
  remember (child d r) as b1. remember (child (negb d) r) as b2. subst r. clear Heqb1 Heqb2.
  apply wf_node in Hr as (Hb1 & Hb2 & Hbr & Hrr & Hsr).
  rewrite height_node in *. rewrite !count_node_dir in *. rewrite rotate2_eq.
  destruct (rotated_size (count a) b1 (count b2 + 1 + count c) sp sq Hb1) as [-> ->];
    [by rewrite Hs; f_equal; lia|by rewrite size_p; f_equal; lia|].
  case_match eqn:Hbal. eexists. split; [done|].
  assert (z = sgn d * (height b2 - height c) /\ z0 = sgn d * (height a - height b1)) as [-> ->].
  { revert Hbal. destruct d; simpl sgn in *; repeat ccase; intros [= <- <-]; lia. }
  rewrite !height_node. clear Hbal. split_and!.
  - apply wf_node. rewrite !wf_node, !height_node, !count_node_dir.
    destruct d; simpl sgn in *; split_and!; auto; try lia; rewrite ?size_p; f_equal; lia.
  - rewrite !elements_node. destruct d; rewrite <- ?app_assoc; simpl; by rewrite <- ?app_assoc.
  - destruct d; simpl sgn in *; lia.
Qed.
End Rebalance.

End Avl.
