(* ===== verification/KavlOps.v ===== *)
(** Search, insertion and removal in the tree of kavl.h: each keeps the AVL
    invariant, does what it should to the ordered list of the elements, counts
    the elements up to the key, and never uses more than the
    [KAVL_MAX_DEPTH] entries of its arrays. *)
From S2P Require Import Prelude Kavl KavlAvl.

Section Ops.
Context {E : Type} (cmp : E -> E -> Z) `{Hcmp : !Ordering cmp}.
Implicit Types (t p q r root : tree E) (x y : E) (fs : list (frame E)).

(** [m] is the element equal to [x] in the ordered list [l], if there is one,
    and [l1] and [l2] are the elements before and after its place. *)
Definition at_place x (l l1 : list E) (m : option E) (l2 : list E) : Prop :=
  l = l1 ++ option_list m ++ l2 /\
  Forall (fun y => cmp y x < 0) l1 /\ Forall (fun y => cmp x y < 0) l2 /\
  forall y, m = Some y -> cmp x y = 0.

(** The number of elements up to and including the place. *)
Definition rank (l1 : list E) (m : option E) : Z := zlen l1 + zlen (option_list m).

Lemma cmp_lt_trans x y z : cmp x y < 0 -> cmp y z < 0 -> cmp x z < 0.
Proof. apply cmp_trans. Qed.
Lemma cmp_gt x y : 0 < cmp x y <-> cmp y x < 0.
Proof. by rewrite (cmp_opp y x). Qed.
Lemma cmp_zero_sym x y : cmp x y = 0 -> cmp y x = 0.
Proof.
  intros H. pose proof (cmp_opp x y). pose proof (cmp_opp y x). lia.
Qed.
Lemma cmp_zero_r x y z : cmp x y = 0 -> cmp z x < 0 <-> cmp z y < 0.
Proof.
  intros H. rewrite !(cmp_opp z).
  pose proof (cmp_zero x y z H). pose proof (cmp_zero y x z (cmp_zero_sym _ _ H)).
  assert (cmp x z = 0 <-> cmp y z = 0); [|lia].
  assert (Hz : forall a b, cmp a b = 0 -> cmp a z = 0 -> cmp b z = 0).
  { intros a b Hab Haz. pose proof (cmp_zero_sym _ _ Haz) as Hza.
    pose proof (cmp_zero z a b Hza). pose proof (cmp_zero a b z Hab).
    pose proof (cmp_opp z b). lia. }
  split; eauto using cmp_zero_sym.
Qed.

Lemma sorted_app l1 l2 :
  sorted cmp (l1 ++ l2) <->
  (forall x y, x ∈ l1 -> y ∈ l2 -> cmp x y < 0) /\ sorted cmp l1 /\ sorted cmp l2.
Proof. apply StronglySorted_app. Qed.

Lemma sorted_node x b s l r :
  sorted cmp (elements (Node x b s l r)) <->
  sorted cmp (elements l) /\ sorted cmp (elements r) /\
  Forall (fun y => cmp y x < 0) (elements l) /\ Forall (fun y => cmp x y < 0) (elements r).
Proof.
  simpl. rewrite sorted_app. unfold sorted. rewrite StronglySorted_cons, !Forall_forall.
  split; [intros (H & ? & ? & ?); split_and!; auto; intros y Hy; apply H; [done|left]|].
  intros (? & ? & Hl & Hr). split_and!; auto. intros y z Hy [->|Hz]%elem_of_cons; [auto|].
  eauto using cmp_lt_trans.
Qed.

(** * Searching *)
Lemma at_place_left x y b s l r l1 m l2 :
  sorted cmp (elements (Node y b s l r)) -> cmp x y < 0 ->
  at_place x (elements l) l1 m l2 ->
  at_place x (elements (Node y b s l r)) l1 m (l2 ++ y :: elements r).
Proof.
  intros (_ & _ & _ & Hr)%sorted_node Hc (E0 & H1 & H2 & Hm).
  split; [simpl; by rewrite E0, <- !app_assoc|]. split_and!; auto.
  apply Forall_app. split; [done|]. constructor; [done|].
  eapply Forall_impl; [exact Hr|]. simpl. eauto using cmp_lt_trans.
Qed.

Lemma at_place_right x y b s l r l1 m l2 :
  sorted cmp (elements (Node y b s l r)) -> 0 < cmp x y ->
  at_place x (elements r) l1 m l2 ->
  at_place x (elements (Node y b s l r)) (elements l ++ y :: l1) m l2.
Proof.
  intros (_ & _ & Hl & _)%sorted_node Hc%cmp_gt (E0 & H1 & H2 & Hm).
  split; [simpl; by rewrite E0, <- !app_assoc|]. split_and!; auto.
  apply Forall_app. split; [|by constructor].
  eapply Forall_impl; [exact Hl|]. simpl. eauto using cmp_lt_trans.
Qed.

Lemma at_place_here x y b s l r :
  sorted cmp (elements (Node y b s l r)) -> cmp x y = 0 ->
  at_place x (elements (Node y b s l r)) (elements l) (Some y) (elements r).
Proof.
  intros (_ & _ & Hl & Hr)%sorted_node Hc. split; [done|]. split_and!.
  - eapply Forall_impl; [exact Hl|]. simpl. intros z. apply (cmp_zero_r x y z Hc).
  - eapply Forall_impl; [exact Hr|]. simpl. intros z. apply (cmp_zero x y z Hc).
  - by intros ? [= <-].
Qed.

Lemma at_place_leaf x : at_place x [] [] None [].
Proof. split; [done|]. split_and!; [constructor|constructor|by intros]. Qed.

Lemma count_step cnt (l : tree E) n : wf l -> u32 (u32 (cnt + (kavl_size l + 1)) + n) = u32 (cnt + (count l + 1 + n)).
Proof.
  intros Hl. rewrite (kavl_size_count l Hl), u32_add_l.
  replace (cnt + (u32 (count l) + 1) + n) with (cnt + 1 + n + u32 (count l)) by lia.
  rewrite u32_add_r. f_equal. lia.
Qed.

Lemma kavl_find_spec p x cnt :
  wf p -> sorted cmp (elements p) -> cnt = u32 cnt ->
  exists l1 m l2, at_place x (elements p) l1 m l2 /\
    kavl_find cmp p x cnt = (m, u32 (cnt + rank l1 m)).
Proof.
  revert cnt. induction p as [|y b s l IHl r IHr]; intros cnt Hwf Hs Hcnt.
  { exists [], None, []. split; [apply at_place_leaf|]. simpl. by rewrite Z.add_0_r, <- Hcnt. }
  destruct Hwf as (Hl & Hr & _). pose proof Hs as (Hsl & Hsr & _)%sorted_node.
  simpl kavl_find. destruct (Z.lt_trichotomy (cmp x y) 0) as [Hc|[Hc|Hc]].
  - replace (0 <=? cmp x y) with false by lia. replace (cmp x y <? 0) with true by lia.
    destruct (IHl cnt Hl Hsl Hcnt) as (l1 & m & l2 & Hp & ->).
    eexists _, _, _. split; [by apply (at_place_left x y b s); eauto|done].
  - rewrite Hc. cbn -[u32]. eexists _, _, _. split; [by apply (at_place_here x y b s)|]. f_equal.
    pose proof (count_step cnt l 0 Hl) as H. rewrite (Z.add_0_r (u32 _)), u32_idem in H.
    rewrite H. f_equal. unfold rank, count. simpl. lia.
  - replace (0 <=? cmp x y) with true by lia. replace (cmp x y <? 0) with false by lia.
    replace (0 <? cmp x y) with true by lia.
    destruct (IHr (u32 (cnt + (kavl_size l + 1))) Hr Hsr) as (l1 & m & l2 & Hp & ->);
      [by rewrite u32_idem|].
    eexists _, _, _. split; [by apply (at_place_right x y b s); eauto|]. f_equal.
    rewrite count_step by done. f_equal. unfold rank, count. rewrite length_app. simpl. lia.
Qed.
(** * Insertion *)

(** What the search keeps: below [bp] every node is balanced, and [bp] itself
    is not, unless it is the root. *)
Definition bp_inv (above below : list (frame E)) : Prop :=
  (above = [] /\ below = []) \/
  exists zs b, below = zs ++ [b] /\ Forall (fun f => f_balance f = 0) zs /\
               (f_balance b = 0 -> above = []).

Lemma bp_inv_step above below (y : E) b s :
  bp_inv above below ->
  exists above' below',
    (if negb (b =? 0) then (below ++ above, []) else (above, below)) = (above', below') /\
    below' ++ above' = below ++ above /\
    forall w o, bp_inv above' (Frame w y b s o :: below').
Proof.
  intros HJ. destruct (Z.eqb_spec b 0) as [->|Hb]; simpl; eexists _, _; (split; [done|]).
  - split; [done|]. intros w o. right. destruct HJ as [[-> ->]|(zs & f & -> & Hz & Hf)].
    + by exists [], (Frame w y 0 s o).
    + exists (Frame w y 0 s o :: zs), f. split; [done|]. split; [by constructor|done].
  - split; [done|]. intros w o. right. exists [], (Frame w y b s o).
    split; [done|]. split; [constructor|done].
Qed.

Lemma insert_find_spec p x above below cnt :
  wf p -> sorted cmp (elements p) -> bp_inv above below ->
  zlen (below ++ above) + height p <= KAVL_MAX_DEPTH ->
  cnt = u32 cnt ->
  (exists l1 y l2, at_place x (elements p) l1 (Some y) l2 /\
     insert_find cmp p x above below cnt = Ok (Present y (u32 (cnt + rank l1 (Some y))))) \/
  (exists fs above' below', at_place x (elements p) (path_l fs) None (path_r fs) /\
     plug fs Leaf = p /\ below' ++ above' = fs ++ below ++ above /\ bp_inv above' below' /\
     insert_find cmp p x above below cnt =
       Ok (Place above' below' (u32 (cnt + rank (path_l fs) None)))).
Proof.
  revert above below cnt.
  induction p as [|y b s l IHl r IHr]; intros above below cnt Hwf Hs HJ Hd Hcnt.
  { right. exists [], above, below. split; [apply at_place_leaf|].
    repeat split; [done|]. unfold rank. simpl. by rewrite Z.add_0_r, <- Hcnt. }
  pose proof Hwf as (Hl & Hr & _). pose proof Hs as (Hsl & Hsr & _)%sorted_node.
  simpl in Hd. pose proof (height_nonneg l). pose proof (height_nonneg r).
  destruct (bp_inv_step above below y b s) as (above2 & below2 & Eab & Hab & HJ'); [done|].
  simpl insert_find. rewrite Eab.
  assert (Hc0 : cnt = u32 cnt) by done.
  destruct (Z.lt_trichotomy (cmp x y) 0) as [Hc|[Hc|Hc]].
  - replace (0 <=? cmp x y) with false by lia. replace (cmp x y =? 0) with false by lia.
    replace (0 <? cmp x y) with false by lia. rewrite Hab.
    replace (KAVL_MAX_DEPTH <=? _) with false by lia. simpl negb.
    destruct (IHl above2 (Frame false y b s r :: below2) cnt) as
      [(l1 & z & l2 & Hp & ->)|(fs & a' & b' & Hp & Hplug & Happ & HJ2 & ->)]; auto.
    { simpl. rewrite Hab. lia. }
    + left. eexists _, _, _. split; [by apply (at_place_left x y b s); eauto|done].
    + right. exists (fs ++ [Frame false y b s r]), a', b'.
      rewrite path_l_app, path_r_app, plug_app, Hplug.
      split; [simpl; rewrite app_nil_r; by apply (at_place_left x y b s)|].
      split; [done|]. split; [by rewrite Happ, <- app_assoc; simpl; rewrite Hab|]. done.
  - left. rewrite Hc. cbn -[u32]. eexists _, _, _. split; [by apply (at_place_here x y b s)|].
    pose proof (count_step cnt l 0 Hl) as Hk. rewrite (Z.add_0_r (u32 _)), u32_idem in Hk.
    rewrite Hk. do 3 f_equal. unfold rank, count. simpl. lia.
  - replace (0 <=? cmp x y) with true by lia. replace (cmp x y =? 0) with false by lia.
    replace (0 <? cmp x y) with true by lia. rewrite Hab.
    replace (KAVL_MAX_DEPTH <=? _) with false by lia. simpl negb.
    destruct (IHr above2 (Frame true y b s l :: below2) (u32 (cnt + (kavl_size l + 1)))) as
      [(l1 & z & l2 & Hp & ->)|(fs & a' & b' & Hp & Hplug & Happ & HJ2 & ->)];
      auto using eq_sym, u32_idem.
    { simpl. rewrite Hab. lia. }
    + left. eexists _, _, _. split; [by apply (at_place_right x y b s); eauto|].
      rewrite count_step by done. do 3 f_equal. unfold rank, count. rewrite length_app. simpl. lia.
    + right. exists (fs ++ [Frame true y b s l]), a', b'.
      rewrite path_l_app, path_r_app, plug_app, Hplug.
      split; [simpl; rewrite app_nil_r, <- app_assoc; by apply (at_place_right x y b s)|].
      split; [done|]. split; [by rewrite Happ, <- app_assoc; simpl; rewrite Hab|].
      split; [done|]. rewrite count_step by done. do 3 f_equal. unfold rank, count. simpl.
      rewrite !length_app. simpl. lia.
Qed.

(** Nodes with balance 0 above a subtree that became higher become higher too. *)
Lemma grow_balanced fs h n t :
  path_ok fs h n -> Forall (fun f => f_balance f = 0) fs ->
  wf t -> height t = h + 1 -> count t = n + 1 ->
  let u := plug (map shift_balance (map grow_size fs)) t in
  wf u /\ height u = height_top fs h + 1 /\
  (fs <> [] -> balance u <> 0).
Proof.
  revert h n t. induction fs as [|[d y b s o] fs IH]; intros h n t Hfs Hz Ht Hh Hn; [by simpl|].
  apply Forall_cons in Hz as [Hb Hz]. simpl in Hb. subst b.
  destruct Hfs as [(Ho & Hb & _ & Hs) Hfs]. simpl in Ho, Hb, Hs.
  set (u := plug1 (shift_balance (grow_size (Frame d y 0 s o))) t).
  assert (Hu : wf u /\ height u = height_up (Frame d y 0 s o) h + 1 /\ balance u <> 0).
  { unfold u, plug1. cbn [shift_balance grow_size f_dir f_elem f_balance f_size f_other].
    rewrite wf_node, height_node, balance_node. unfold height_up. simpl f_other.
    rewrite Hs, u32_add_l. change (s8 (0 + 1)) with 1. change (s8 (0 - 1)) with (-1).
    split_and!; auto; destruct d; simpl sgn in *; try lia; f_equal; lia. }
  destruct Hu as (Hu1 & Hu2 & Hu3).
  destruct (IH _ _ u Hfs Hz Hu1 Hu2) as (H1 & H2 & H3).
  { unfold u. rewrite count_plug1. unfold count_up. simpl. lia. }
  split_and!; auto. intros _. destruct fs as [|f fs]; [exact Hu3|]. by apply H3.
Qed.

Lemma insert_rebalance_spec d x b s t o :
  wf t -> wf o -> height t = height o + 2 -> balance t <> 0 ->
  b = 2 * sgn d -> s = u32 (count t + 1 + count o) ->
  exists r, insert_rebalance (node d x b s t o) = Ok r /\ wf r /\ height r = height t /\
    elements r = elements (node d x b s t o).
Proof.
  intros Ht Ho Hh Hbal -> Hs.
  assert (Hnode : node d x (2 * sgn d) s t o = node (negb d) x (2 * sgn d) s o t) by by destruct d.
  rewrite Hnode. unfold insert_rebalance. rewrite balance_node.
  replace (2 * sgn d <? 0) with (negb d) by by destruct d.
  rewrite child_node_opp.
  assert (Hs' : s = u32 (count o + 1 + count t)) by (rewrite Hs; f_equal; lia).
  pose proof (wf_balance_range t Ht) as Hr.
  destruct (Z.eqb_spec (balance t) (if negb d then -1 else 1)) as [Hb|Hb].
  - destruct (rebalance_single (negb d) x (2 * sgn d) s o t Ho Ht Hh Hs' 0 0)
      as (r & -> & H1 & H2 & H3); [left; destruct d; simpl in *; lia|].
    exists (set_balances r (negb d) 0 0). split_and!; auto. rewrite H3. simpl. lia.
  - destruct (rebalance_double (negb d) x (2 * sgn d) s o t Ho Ht Hh Hs')
      as (r & -> & H1 & H2 & H3); [destruct d; simpl in *; lia|]. exists r. by split_and!.
Qed.

(** The subtree at [bp] after the insertion below it. *)
Lemma insert_at_bp zs b new :
  path_ok (zs ++ [b]) 0 0 -> Forall (fun f => f_balance f = 0) zs ->
  wf new -> height new = 1 -> count new = 1 ->
  let bp := plug (map shift_balance (map grow_size (zs ++ [b]))) new in
  let H := height_top (zs ++ [b]) 0 in
  exists r,
    (if (-2 <? balance bp) && (balance bp <? 2) then Ok bp else insert_rebalance bp) = Ok r /\
    wf r /\ elements r = elements bp /\ height r = if f_balance b =? 0 then H + 1 else H.
Proof.
  intros Hp Hz Hnew Hh Hn. rewrite !map_app, plug_app. unfold height_top. rewrite foldl_app. cbn zeta.
  apply path_ok_app in Hp as [Hzs [Hb _]].
  destruct (grow_balanced zs 0 0 new Hzs Hz Hnew Hh Hn) as (Ht & Hht & Hbal).
  assert (Hct : count (plug (map shift_balance (map grow_size zs)) new) = count_top zs 0 + 1).
  { rewrite count_plug, Hn. destruct (path_top_map shift_balance (map grow_size zs) 0 1) as [_ ->]; [done|].
    destruct (path_top_map grow_size zs 0 1) as [_ ->]; [done|]. apply (count_top_add zs 0 1). }
  remember (plug (map shift_balance (map grow_size zs)) new) as t eqn:Et.
  fold (height_top zs 0). remember (height_top zs 0) as ht eqn:Eh.
  remember (count_top zs 0) as ct.
  assert (Hzs0 : zs = [] -> ht = 0) by (by intros ->).
  assert (Hzs1 : zs <> [] -> balance t <> 0).
  { intros Hz1. apply Hbal. by destruct zs. }
  clear Et Eh Hbal. destruct b as [d x b s o], Hb as (Ho & Hb & Hr & Hs). simpl in Ho, Hb, Hr, Hs.
  simpl foldl. unfold height_up. simpl f_balance. simpl f_other. pose proof (height_nonneg o).
  change (plug (map shift_balance (map grow_size [Frame d x b s o])) t) with
    (node d x (if d then s8 (b + 1) else s8 (b - 1)) (u32 (s + 1)) t o).
  rewrite balance_node.
  assert (Hb' : (if d then s8 (b + 1) else s8 (b - 1)) = sgn d * (ht + 1 - height o)).
  { destruct d; simpl sgn in *; unfold s8; rewrite Z.mod_small by lia; lia. }
  rewrite Hb'. assert (Hs' : u32 (s + 1) = u32 (count t + 1 + count o)).
  { rewrite Hs, u32_add_l, Hct. f_equal. lia. }
  rewrite Hs'. destruct ((-2 <? sgn d * (ht + 1 - height o)) && (sgn d * (ht + 1 - height o) <? 2)) eqn:Hrange.
  - eexists. split; [done|]. rewrite wf_node, height_node.
    destruct d; simpl sgn in *; (split; [split_and!; auto; lia|]); (split; [done|]); ccase; lia.
  - assert (ht = height o + 1) by (destruct d; simpl sgn in *; lia).
    destruct (insert_rebalance_spec d x (sgn d * (ht + 1 - height o))
      (u32 (count t + 1 + count o)) t o) as (r & -> & H1 & H2 & H3); auto; try lia.
    { apply Hzs1. intros Hz1. specialize (Hzs0 Hz1). lia. }
    eexists. split; [done|]. split_and!; auto. rewrite H2. destruct d; simpl sgn in *; ccase; lia.
Qed.

(** [kavl_insert] on a tree that satisfies the invariant. *)
Lemma kavl_insert_spec root x :
  avl_tree cmp root -> count root < UINT_MAX ->
  exists l1 m l2 root', at_place x (elements root) l1 m l2 /\
    kavl_insert cmp root x = Ok (m, u32 (rank l1 m), root') /\
    avl_tree cmp root' /\ elements root' = l1 ++ default x m :: l2 /\
    (m <> None -> root' = root).
Proof.
  intros [Hwf Hs] Hc. pose proof (height_bound root Hwf Hc) as Hh.
  unfold kavl_insert.
  destruct (insert_find_spec root x [] [] 0) as
    [(l1 & y & l2 & Hp & ->)|(fs & above & below & Hp & Hplug & Happ & HJ & ->)];
    [done|done|by left|simpl; lia|done|..]; cbn [mbind res_bind mret res_ret].
  { exists l1, (Some y), l2, root. split; [done|]. split; [by rewrite Z.add_0_l|].
    split; [done|]. split; [by destruct Hp as (-> & _)|done]. }
  rewrite app_nil_r in Happ. exists (path_l fs), None, (path_r fs).
  assert (Hsorted : sorted cmp (path_l fs ++ x :: path_r fs)).
  { destruct Hp as (E0 & H1 & H2 & _). rewrite E0 in Hs. simpl in Hs.
    apply sorted_app in Hs as (H12 & Hs1 & Hs2). apply sorted_app. rewrite Forall_forall in H1.
    split; [|split; [done|by constructor]]. intros y z Hy [->|Hz]%elem_of_cons; auto. }
  destruct HJ as [[-> ->]|(zs & b & -> & Hz & Hb0)].
  { simpl in Happ. subst fs. simpl in *. subst root.
    eexists. split; [done|]. split; [done|]. split; [|done].
    split; [|done]. simpl. split_and!; auto; lia. }
  rewrite <- Hplug in Hwf. apply wf_plug in Hwf as [_ Hpath]. rewrite <- Happ in Hpath.
  apply path_ok_app in Hpath as [Hbelow Habove].
  destruct (insert_at_bp zs b (Node x 0 1 Leaf Leaf) Hbelow Hz) as (r & Hr & Hwr & Her & Hhr);
    [simpl; split_and!; auto; lia|done|done|].
  assert (Hel : forall t, elements (plug (map grow_size above) t) =
                          path_l above ++ elements t ++ path_r above).
  { intros t. rewrite elements_plug. by destruct (path_map grow_size above) as [-> ->]. }
  assert (Hel2 : elements r = path_l (zs ++ [b]) ++ [x] ++ path_r (zs ++ [b])).
  { rewrite Her, elements_plug.
    destruct (path_map shift_balance (map grow_size (zs ++ [b]))) as [-> ->]; [done|].
    by destruct (path_map grow_size (zs ++ [b])) as [-> ->]. }
  exists (plug (map grow_size above) r). split; [done|].
  assert (Hfinal : elements (plug (map grow_size above) r) = path_l fs ++ x :: path_r fs).
  { rewrite Hel, Hel2, <- Happ, (path_l_app _ above), (path_r_app _ above). by rewrite <- !app_assoc. }
  split; [|split; [split; [|by rewrite Hfinal]|by rewrite Hfinal]]; [|].
  - rewrite Z.add_0_l.
    assert (Hne : forall A (u v : A), match zs ++ [b] with [] => u | _ => v end = v)
      by (by destruct zs).
    rewrite Hne. revert Hr. destruct (_ && _); [by intros [= ->]|]. by intros ->.
  - apply wf_plug. split; [done|]. rewrite Hhr.
    destruct (Z.eqb_spec (f_balance b) 0) as [Hb|Hb]; [by rewrite (Hb0 Hb)|].
    assert (count r = count (plug (zs ++ [b]) Leaf) + 1) as ->.
    { unfold count. rewrite Hel2, elements_plug, !length_app. simpl. lia. }
    rewrite count_plug. by apply path_ok_grow.
Qed.

(** * Removal *)
Lemma erase_find_spec p x fs cnt :
  wf p -> sorted cmp (elements p) -> zlen fs + height p < KAVL_MAX_DEPTH -> cnt = u32 cnt ->
  (exists l1 l2, at_place x (elements p) l1 None l2 /\ erase_find cmp p x fs cnt = Ok None) \/
  (exists qs y b s ql qr, plug qs (Node y b s ql qr) = p /\
     at_place x (elements p) (path_l qs ++ elements ql) (Some y) (elements qr ++ path_r qs) /\
     erase_find cmp p x fs cnt =
       Ok (Some (Node y b s ql qr, qs ++ fs, u32 (cnt + rank (path_l qs ++ elements ql) (Some y))))).
Proof.
  revert fs cnt. induction p as [|y b s l IHl r IHr]; intros fs cnt Hwf Hs Hd Hcnt.
  { left. exists [], []. split; [apply at_place_leaf|]. simpl in *. ccase; [lia|done]. }
  pose proof Hwf as (Hl & Hr & _). pose proof Hs as (Hsl & Hsr & _)%sorted_node.
  simpl in Hd. pose proof (height_nonneg l). pose proof (height_nonneg r).
  cbn [erase_find]. replace (KAVL_MAX_DEPTH <=? zlen fs) with false by lia.
  destruct (Z.lt_trichotomy (cmp x y) 0) as [Hc|[Hc|Hc]].
  - replace (cmp x y =? 0) with false by lia. replace (0 <? cmp x y) with false by lia. cbn [negb child].
    destruct (IHl (Frame false y b s r :: fs) cnt) as
      [(l1 & l2 & Hp & ->)|(qs & z & bz & sz & ql & qr & Hplug & Hp & ->)]; auto; [simpl; lia|..].
    + left. eexists _, _. split; [by apply (at_place_left x y b s); eauto|done].
    + right. exists (qs ++ [Frame false y b s r]), z, bz, sz, ql, qr.
      rewrite path_l_app, path_r_app, plug_app, Hplug. split; [done|]. simpl.
      rewrite app_nil_r, app_assoc. split; [by apply (at_place_left x y b s)|].
      by rewrite <- !app_assoc.
  - rewrite Hc. cbn -[u32]. right. exists [], y, b, s, l, r. split; [done|]. simpl.
    rewrite app_nil_r. split; [by apply (at_place_here x y b s)|].
    pose proof (count_step cnt l 0 Hl) as Hk. rewrite (Z.add_0_r (u32 _)), u32_idem in Hk.
    rewrite Hk. do 4 f_equal. unfold rank, count. simpl. lia.
  - replace (cmp x y =? 0) with false by lia. replace (0 <? cmp x y) with true by lia. cbn [negb child].
    destruct (IHr (Frame true y b s l :: fs) (u32 (cnt + (kavl_size l + 1)))) as
      [(l1 & l2 & Hp & ->)|(qs & z & bz & sz & ql & qr & Hplug & Hp & ->)];
      auto using eq_sym, u32_idem; [simpl; lia|..].
    + left. eexists _, _. split; [by apply (at_place_right x y b s); eauto|done].
    + right. exists (qs ++ [Frame true y b s l]), z, bz, sz, ql, qr.
      rewrite path_l_app, path_r_app, plug_app, Hplug. split; [done|]. simpl.
      rewrite app_nil_r, <- !app_assoc. split; [by apply (at_place_right x y b s)|].
      rewrite count_step by done. simpl. do 4 f_equal. unfold rank, count.
      rewrite !length_app. simpl. rewrite !length_app. simpl. lia.
Qed.

Lemma erase_first_spec p fs :
  p <> Leaf -> zlen fs + height p < KAVL_MAX_DEPTH ->
  exists qs y b s qr, plug qs (Node y b s Leaf qr) = p /\ path_l qs = [] /\
    erase_first p fs = Ok (Some (Node y b s Leaf qr, qs ++ fs, 1)).
Proof.
  revert fs. induction p as [|y b s l IHl r _]; intros fs Hp Hd; [done|].
  simpl in Hd. pose proof (height_nonneg l). pose proof (height_nonneg r).
  cbn [erase_first]. replace (KAVL_MAX_DEPTH <=? zlen fs) with false by lia.
  destruct l as [|y' b' s' l r'].
  - exists [], y, b, s, r. simpl. ccase; [lia|]. done.
  - destruct (IHl (Frame false y b s r :: fs)) as (qs & z & bz & sz & qr & Hplug & Hl & Heq);
      [done|simpl in *; lia|].
    exists (qs ++ [Frame false y b s r]), z, bz, sz, qr. rewrite plug_app, Hplug, path_l_app, Hl.
    rewrite Heq. by rewrite <- app_assoc.
Qed.

Lemma erase_succ_spec q d fs :
  child false q <> Leaf -> d + height q <= KAVL_MAX_DEPTH + 1 ->
  exists qs xr br sr rr, plug qs (Node xr br sr Leaf rr) = q /\ path_l qs = [] /\
    erase_succ q d fs = Ok (Node xr br sr Leaf rr, qs ++ fs).
Proof.
  revert d fs. induction q as [|y b s l IHl r _]; intros d fs Hq Hd; [done|].
  simpl in Hq. destruct l as [|y' b' s' l' r']; [done|].
  set (l := Node y' b' s' l' r') in *. simpl in Hd.
  pose proof (height_nonneg l'). pose proof (height_nonneg r'). pose proof (height_nonneg r).
  change (height l) with (1 + Z.max (height l') (height r')) in Hd.
  cbn [erase_succ]. replace (KAVL_MAX_DEPTH <=? d) with false by lia. unfold l.
  destruct l' as [|y2 b2 s2 l2 r2].
  - by exists [Frame false y b s r], y', b', s', r'.
  - destruct (IHl (d + 1) (Frame false y b s r :: fs)) as (qs & xr & br & sr & rr & Hp & Hl & Hq2);
      [done|unfold l; simpl in *; lia|]. unfold l in Hq2. rewrite Hq2.
    exists (qs ++ [Frame false y b s r]), xr, br, sr, rr.
    by rewrite plug_app, Hp, path_l_app, Hl, <- app_assoc.
Qed.

(** After the removal every path is in order for the old heights and the new
    counts, and the subtree at its end is one level lower. *)
Lemma erase_unlink_spec y bp sp pl pr fs :
  let p := Node y bp sp pl pr in
  wf p -> path_ok fs (height p) (count p) -> zlen fs + height p < KAVL_MAX_DEPTH ->
  exists t fs', erase_unlink p (map shrink_size fs) = Ok (t, fs') /\
    wf t /\ path_ok fs' (height t + 1) (count t) /\
    path_l fs' ++ elements t ++ path_r fs' =
      (path_l fs ++ elements pl) ++ (elements pr ++ path_r fs).
Proof.
  intros p Hwf Hfs Hd. pose proof Hwf as (Hl & Hr & Hb & Hb1 & Hs).
  destruct (path_map shrink_size fs) as [El Er]; [done|].
  apply path_ok_shrink in Hfs. unfold p in *. rewrite count_node in Hfs.
  pose proof (height_nonneg pl). simpl height in Hfs, Hd.
  assert (Hlen : zlen (map shrink_size fs) = zlen fs) by (by rewrite length_map).
  destruct pr as [|xq bq sq ql qr].
  { exists pl, (map shrink_size fs). split; [done|]. split; [done|].
    simpl in *. rewrite El, Er. split; [|by rewrite <- app_assoc].
    by replace (height pl + 1) with (1 + height pl `max` 0) by lia;
       replace (count pl) with (count pl + 1 + 0 - 1) by lia. }
  set (q := Node xq bq sq ql qr) in *.
  assert (Hup : forall xr, frame_ok (Frame true xr bp (u32 (sp - 1)) pl) (height q) (count q - 1)).
  { intros xr. split; [done|]. cbn [f_balance f_dir f_other f_size sgn].
    split; [lia|]. split; [done|].
    rewrite Hs, u32_sub_l. f_equal. lia. }
  assert (Hpath : forall xr, path_ok (Frame true xr bp (u32 (sp - 1)) pl :: map shrink_size fs)
                    (height q) (count q - 1)).
  { intros xr. split; [done|]. unfold height_up, count_up. cbn [f_other].
    replace (1 + Z.max (height q) (height pl)) with (1 + Z.max (height pl) (height q)) by lia.
    by replace (count q - 1 + 1 + count pl) with (count pl + 1 + count q - 1) by lia. }
  pose proof (height_nonneg ql). pose proof (height_nonneg qr).
  assert (Hq : height q = 1 + Z.max (height ql) (height qr)) by done.
  destruct ql as [|y2 b2 s2 l2 r2].
  - eexists qr, _. split; [|split; [apply Hr|split]].
    + simpl. rewrite Hlen. ccase; [lia|done].
    + replace (height qr + 1) with (height q) by (rewrite Hq; simpl; lia).
      replace (count qr) with (count q - 1) by (unfold q; rewrite count_node; unfold count; simpl; lia).
      apply Hpath.
    + simpl. rewrite El, Er. by rewrite <- !app_assoc.
  - destruct (erase_succ_spec q (zlen fs + 2) []) as (qs & xr & br & sr & rr & Hplug & Hpl & Hsucc);
      [done|lia|].
    pose proof Hr as Hwq. rewrite <- Hplug in Hwq. apply wf_plug in Hwq as [Hwr Hqs].
    apply path_ok_shrink in Hqs.
    assert (Hcr : count (Node xr br sr Leaf rr) - 1 = count rr)
      by (rewrite count_node; unfold count; simpl; lia).
    assert (Hhr : height (Node xr br sr Leaf rr) = height rr + 1)
      by (simpl; pose proof (height_nonneg rr); lia).
    rewrite Hcr, Hhr in Hqs.
    exists rr, (map shrink_size qs ++ Frame true xr bp (u32 (sp - 1)) pl :: map shrink_size fs).
    split; [|split; [apply Hwr|split]].
    + unfold erase_unlink. fold q. rewrite Hlen. unfold q at 1. ccase; [lia|].
      rewrite Hsucc. cbn [mbind res_bind]. by rewrite app_nil_r.
    + apply path_ok_app. split; [done|].
      destruct (path_top_map shrink_size qs (height rr + 1) (count rr)) as [-> ->]; [done|].
      rewrite <- Hhr, <- Hcr, <- height_plug, Hplug.
      pose proof (count_top_add qs (count (Node xr br sr Leaf rr)) (-1)) as Hct.
      rewrite <- count_plug, Hplug in Hct.
      change (count (Node xr br sr Leaf rr) - 1) with (count (Node xr br sr Leaf rr) + -1).
      rewrite Hct. apply Hpath.
    + destruct (path_map shrink_size qs) as [El2 Er2]; [done|].
      assert (Eq : elements q = xr :: elements rr ++ path_r qs)
        by (rewrite <- Hplug, elements_plug, Hpl; done).
      rewrite Eq, path_l_app, path_r_app, El2, Er2, Hpl. cbn [path_l path_r f_dir f_elem f_other].
      rewrite El, Er, app_nil_r. simpl. by rewrite <- !app_assoc.
Qed.

(** The rebalancing loop. *)
Lemma erase_rebalance_spec fs t :
  wf t -> path_ok fs (height t + 1) (count t) ->
  exists root, erase_rebalance t fs = Ok root /\ wf root /\
    elements root = path_l fs ++ elements t ++ path_r fs.
Proof.
  revert t. induction fs as [|[d y b s o] fs IH]; intros t Ht Hfs.
  { exists t. simpl. by rewrite app_nil_r. }
  destruct Hfs as [(Ho & Hb & Hb1 & Hs) Hfs]. simpl in Ho, Hb, Hb1, Hs.
  unfold height_up, count_up in Hfs. cbn [f_other] in Hfs.
  cbn [erase_rebalance f_dir f_elem f_balance f_size f_other].
  pose proof (height_nonneg t). pose proof (height_nonneg o).
  assert (Hnew : s8 (b + (if d then -1 else 1)) = sgn d * (height t - height o)).
  { destruct d; simpl sgn in *; unfold s8; rewrite Z.mod_small by lia; lia. }
  rewrite Hnew. set (q := node d y (sgn d * (height t - height o)) s t o).
  assert (Hel : path_l (Frame d y b s o :: fs) ++ elements t ++ path_r (Frame d y b s o :: fs) =
                path_l fs ++ elements q ++ path_r fs).
  { unfold q. rewrite elements_node. cbn [path_l path_r f_dir f_elem f_other].
    destruct d; rewrite ?app_nil_r, <- !app_assoc; simpl; by rewrite <- ?app_assoc. }
  rewrite Hel. clear Hel.
  assert (Hcq : forall r, elements r = elements q -> count r = count t + 1 + count o).
  { intros r Hr. unfold count. rewrite Hr. apply count_node_dir. }
  assert (Hdone : forall r, wf r -> elements r = elements q -> height r = height o + 1 ->
    height o = height t + 1 \/ height o = height t + 2 ->
    exists root, mret (plug fs r) = Ok root /\ wf root /\
      elements root = path_l fs ++ elements q ++ path_r fs).
  { intros r Hr Her Hhr Hto. eexists. split; [done|]. rewrite elements_plug, Her. split; [|done].
    apply wf_plug. split; [done|]. rewrite Hhr, (Hcq r Her).
    by replace (height o + 1) with (1 + Z.max (height t + 1) (height o)) by lia. }
  assert (Hrec : forall r, wf r -> elements r = elements q ->
    height r + 1 = 1 + Z.max (height t + 1) (height o) ->
    exists root, erase_rebalance r fs = Ok root /\ wf root /\
      elements root = path_l fs ++ elements q ++ path_r fs).
  { intros r Hr Her Hhr. rewrite <- Her. apply IH; [done|]. by rewrite Hhr, (Hcq r Her). }
  destruct (Z.eqb_spec (sgn d * (height t - height o)) (if d then -1 else 1)) as [E1|E1];
    [|destruct (Z.eqb_spec (sgn d * (height t - height o)) (if d then -2 else 2)) as [E2|E2]].
  - assert (Hho : height o = height t + 1) by (destruct d; simpl sgn in *; lia).
    apply Hdone; auto; unfold q; [|rewrite height_node; lia].
    apply wf_node. split_and!; auto; destruct d; simpl sgn in *; lia.
  - assert (Hho : height o = height t + 2) by (destruct d; simpl sgn in *; lia).
    assert (Hs' : s = u32 (count t + 1 + count o)) by done.
    pose proof (wf_balance_range o Ho).
    destruct (Z.eqb_spec (balance o) (- (if d then -1 else 1))) as [Eo|Eo];
      [|destruct (Z.eqb_spec (balance o) 0) as [E0|E0]].
    + destruct (rebalance_double d y (sgn d * (height t - height o)) s t o) as (r & Hr & Hw & He & Hh);
        auto; [destruct d; simpl in *; lia|].
      fold q in Hr, He. rewrite Hr. apply Hrec; auto; lia.
    + destruct (rebalance_single d y (sgn d * (height t - height o)) s t o Ht Ho Hho Hs'
        (sgn d) (- sgn d)) as (r & Hr & Hw & He & Hh); [auto|].
      fold q in Hr, He. rewrite Hr. cbn [mbind res_bind].
      replace (- (if d then -1 else 1)) with (sgn d) by by destruct d.
      replace (if d then -1 else 1) with (- sgn d) by by destruct d.
      apply Hdone; auto. rewrite Hh. destruct d; simpl; lia.
    + destruct (rebalance_single d y (sgn d * (height t - height o)) s t o Ht Ho Hho Hs' 0 0)
        as (r & Hr & Hw & He & Hh); [left; destruct d; simpl in *; lia|].
      fold q in Hr, He. rewrite Hr. cbn [mbind res_bind]. apply Hrec; auto. rewrite Hh. simpl. lia.
  - assert (Hho : height o = height t) by (destruct d; simpl sgn in *; lia).
    apply Hrec; auto; unfold q; [|rewrite height_node; lia].
    apply wf_node. split_and!; auto; destruct d; simpl sgn in *; lia.
Qed.

Lemma sorted_remove l1 l2 l3 : sorted cmp (l1 ++ l2 ++ l3) -> sorted cmp (l1 ++ l3).
Proof.
  intros (H & H1 & (_ & _ & H3)%sorted_app)%sorted_app. apply sorted_app.
  split_and!; auto. intros x y Hx Hy. apply H; [done|]. apply elem_of_app. by right.
Qed.

(** Taking out the node at the end of a path. *)
Lemma erase_node_spec root qs y b s ql qr :
  avl_tree cmp root -> height root < KAVL_MAX_DEPTH -> plug qs (Node y b s ql qr) = root ->
  exists t fs root', erase_unlink (Node y b s ql qr) (map shrink_size qs) = Ok (t, fs) /\
    erase_rebalance t fs = Ok root' /\ avl_tree cmp root' /\
    elements root' = (path_l qs ++ elements ql) ++ (elements qr ++ path_r qs).
Proof.
  intros [Hwf Hs] Hh Hplug. rewrite <- Hplug in *. apply wf_plug in Hwf as [Hp Hqs].
  pose proof (length_plug qs (Node y b s ql qr)).
  destruct (erase_unlink_spec y b s ql qr qs Hp Hqs) as (t & fs & Hun & Ht & Hfs & Hel); [lia|].
  destruct (erase_rebalance_spec fs t Ht Hfs) as (root' & Hre & Hr & Her).
  exists t, fs, root'. rewrite Her, Hel. split_and!; auto. split; [done|].
  rewrite Her, Hel. rewrite elements_plug in Hs. simpl in Hs.
  apply (sorted_remove _ [y]). by rewrite <- !app_assoc in Hs |- *.
Qed.

(** [kavl_erase] on a tree that satisfies the invariant. *)
Lemma kavl_erase_spec root x :
  avl_tree cmp root -> count root < UINT_MAX ->
  exists l1 m l2 root', at_place x (elements root) l1 m l2 /\
    kavl_erase cmp root (Some x) = Ok (m, if m then u32 (rank l1 m) else 0, root') /\
    avl_tree cmp root' /\ elements root' = l1 ++ l2 /\ (m = None -> root' = root).
Proof.
  intros Hroot Hc. pose proof Hroot as [Hwf Hs]. pose proof (height_bound root Hwf Hc) as Hh.
  unfold kavl_erase.
  destruct (erase_find_spec root x [] 0) as
    [(l1 & l2 & Hp & ->)|(qs & y & b & s & ql & qr & Hplug & Hp & ->)]; [done..| |];
    cbn [mbind res_bind mret res_ret].
  - exists l1, None, l2, root. destruct Hp as (E0 & Hp). by split_and!.
  - rewrite app_nil_r.
    destruct (erase_node_spec root qs y b s ql qr Hroot Hh Hplug)
      as (t & fs & root' & -> & Hre & Hav & Hel).
    cbn [mbind res_bind]. rewrite Hre.
    eexists _, (Some y), _, root'. split; [exact Hp|]. by rewrite Z.add_0_l.
Qed.

(** For a null [x] the first element is taken out; there must be one. *)
Lemma kavl_erase_first_spec root :
  avl_tree cmp root -> count root < UINT_MAX ->
  match elements root with
  | [] => kavl_erase cmp root None = Fault OutOfBounds
  | y :: l => exists root', kavl_erase cmp root None = Ok (Some y, 1, root') /\
                avl_tree cmp root' /\ elements root' = l
  end.
Proof.
  intros Hroot Hc. pose proof Hroot as [Hwf Hs]. pose proof (height_bound root Hwf Hc) as Hh.
  assert (root = Leaf \/ root <> Leaf) as [->|Hne] by (destruct root; auto); [done|].
  destruct (erase_first_spec root [] Hne Hh) as (qs & y & b & s & qr & Hplug & Hl & Heq).
  destruct (erase_node_spec root qs y b s Leaf qr Hroot Hh Hplug)
    as (t & fs & root' & Hun & Hre & Hav & Hel).
  assert (elements root = y :: elements qr ++ path_r qs) as ->
    by (rewrite <- Hplug, elements_plug, Hl; done).
  exists root'. unfold kavl_erase. rewrite Heq. cbn [mbind res_bind]. rewrite app_nil_r, Hun.
  cbn [mbind res_bind]. rewrite Hre. rewrite Hl in Hel. done.
Qed.
(** * Sequences of operations *)
Inductive kavl_op : Type := KInsert (x : E) | KErase (x : E).

Definition kavl_step (root : tree E) (op : kavl_op) : res (tree E) :=
  match op with
  | KInsert x => '(_, _, root) ← kavl_insert cmp root x; mret root
  | KErase x => '(_, _, root) ← kavl_erase cmp root (Some x); mret root
  end.
Fixpoint kavl_run (root : tree E) (ops : list kavl_op) : res (tree E) :=
  match ops with
  | [] => mret root
  | op :: ops => root ← kavl_step root op; kavl_run root ops
  end.

(** The specification: an ordered list without duplicates. *)
Fixpoint list_insert (x : E) (l : list E) : list E :=
  match l with
  | [] => [x]
  | y :: l' => if cmp x y <? 0 then x :: l else if cmp x y =? 0 then l else y :: list_insert x l'
  end.
Definition list_erase (x : E) (l : list E) : list E := List.filter (fun y => negb (cmp x y =? 0)) l.
Definition list_step (l : list E) (op : kavl_op) : list E :=
  match op with KInsert x => list_insert x l | KErase x => list_erase x l end.

Lemma list_insert_place x l l1 m l2 :
  at_place x l l1 m l2 -> list_insert x l = l1 ++ default x m :: l2.
Proof.
  intros (-> & H1 & H2 & Hm). induction H1 as [|y l1 Hy H1 IH]; simpl.
  - destruct m as [y|]; simpl.
    + rewrite (Hm y eq_refl). done.
    + destruct H2 as [|z l2 Hz H2]; [done|]. simpl. by replace (cmp x z <? 0) with true by lia.
  - apply cmp_gt in Hy. replace (cmp x y <? 0) with false by lia.
    replace (cmp x y =? 0) with false by lia. by rewrite IH.
Qed.

Lemma list_erase_place x l l1 m l2 : at_place x l l1 m l2 -> list_erase x l = l1 ++ l2.
Proof.
  intros (-> & H1 & H2 & Hm). unfold list_erase. rewrite !List.filter_app.
  assert (Hid : forall l, Forall (fun y => cmp x y <> 0) l ->
    List.filter (fun y => negb (cmp x y =? 0)) l = l).
  { intros l. induction 1 as [|y l Hy _ IH]; simpl; [done|].
    replace (cmp x y =? 0) with false by lia. simpl. by rewrite IH. }
  rewrite (Hid l1), (Hid l2).
  - f_equal. destruct m as [y|]; simpl; [|done]. by rewrite (Hm y eq_refl).
  - eapply Forall_impl; [exact H2|]. simpl. lia.
  - eapply Forall_impl; [exact H1|]. simpl. intros y Hy%cmp_gt. lia.
Qed.

Lemma kavl_step_spec root op :
  avl_tree cmp root -> count root < UINT_MAX ->
  exists root', kavl_step root op = Ok root' /\ avl_tree cmp root' /\
    elements root' = list_step (elements root) op /\ count root' <= count root + 1.
Proof.
  intros Hroot Hc. destruct op as [x|x]; simpl.
  - destruct (kavl_insert_spec root x Hroot Hc) as (l1 & m & l2 & root' & Hp & -> & Hr & He & _).
    exists root'. split; [done|]. split; [done|]. rewrite (list_insert_place _ _ _ _ _ Hp).
    split; [done|]. destruct Hp as (Hp & _). unfold count. rewrite He, Hp, !length_app. simpl.
    rewrite ?length_app. simpl. lia.
  - destruct (kavl_erase_spec root x Hroot Hc) as (l1 & m & l2 & root' & Hp & -> & Hr & He & _).
    exists root'. split; [done|]. split; [done|]. rewrite (list_erase_place _ _ _ _ _ Hp).
    split; [done|]. destruct Hp as (Hp & _). unfold count. rewrite He, Hp, !length_app. lia.
Qed.

Lemma kavl_run_spec ops root :
  avl_tree cmp root -> count root + zlen ops <= UINT_MAX ->
  exists root', kavl_run root ops = Ok root' /\ avl_tree cmp root' /\
    elements root' = foldl list_step (elements root) ops /\ count root' <= count root + zlen ops.
Proof.
  revert root. induction ops as [|op ops IH]; intros root Hroot Hc; simpl in *.
  { exists root. split_and!; auto; lia. }
  destruct (kavl_step_spec root op Hroot) as (root1 & -> & H1 & H2 & H3); [lia|].
  cbn [mbind res_bind]. destruct (IH root1 H1) as (root2 & -> & H4 & H5 & H6); [lia|].
  exists root2. split; [done|]. split; [done|]. rewrite H5, H2. split; [done|lia].
Qed.

(** The place of a key in an ordered list is unique, and counts the elements
    up to the key. *)
Definition rank_ref (x : E) (l : list E) : Z := zlen (List.filter (fun y => 0 <=? cmp x y) l).
Definition find_ref (x : E) (l : list E) : option E := List.find (fun y => cmp x y =? 0) l.

Lemma place_ref x l l1 m l2 :
  at_place x l l1 m l2 -> rank l1 m = rank_ref x l /\ m = find_ref x l.
Proof.
  intros (-> & H1 & H2 & Hm). unfold rank, rank_ref, find_ref.
  induction H1 as [|y l1 Hy H1 [IH1 IH2]]; simpl.
  - assert (H0 : List.filter (fun y => 0 <=? cmp x y) l2 = [] /\
                 List.find (fun y => cmp x y =? 0) l2 = None).
    { induction H2 as [|z l2 Hz H2 [IHa IHb]]; simpl; [done|].
      replace (0 <=? cmp x z) with false by lia. by replace (cmp x z =? 0) with false by lia. }
    destruct H0 as [Ha Hb]. destruct m as [y|]; simpl; [|by rewrite Ha, Hb].
    rewrite (Hm y eq_refl). simpl. by rewrite Ha.
  - apply cmp_gt in Hy. replace (0 <=? cmp x y) with true by lia.
    replace (cmp x y =? 0) with false by lia. split; [simpl; lia|done].
Qed.

End Ops.

(** * Properties *)

(** C6: from the empty tree, every sequence of fewer than [2^32 - 1] insertions
    and removals runs inside the [KAVL_MAX_DEPTH] entries of the path arrays and
    never follows a null pointer; the tree it builds is ordered, its balance
    factors and sizes are right, and it holds what the sequence makes of an
    ordered list without duplicates. *)
Theorem kavl_run_reference {E : Type} (cmp : E -> E -> Z) (ops : list kavl_op) :
  Ordering cmp -> zlen ops < UINT_MAX ->
  exists root, kavl_run cmp Leaf ops = Ok root /\ avl_tree cmp root /\
    elements root = foldl (list_step cmp) [] ops.
Proof.
  intros Hcmp Hn. destruct (kavl_run_spec cmp ops Leaf) as (root & Hr & Ht & He & _).
  - split; [done|constructor].
  - unfold count. simpl. lia.
  - by exists root.
Qed.

(** Integers in their order, for the witnesses. *)
#[export] Instance Zsub_ordering : Ordering Z.sub.
Proof. split; lia. Qed.

Definition kavl_sample : list kavl_op :=
  map KInsert [5; 3; 8; 1; 4; 7; 9; 2; 6; 3] ++ map KErase [5; 8; 12; 1].

Lemma kavl_run_reference_witness :
  exists root, kavl_run Z.sub Leaf kavl_sample = Ok root /\ avl_tree Z.sub root /\
    elements root = [2; 3; 4; 6; 7; 9].
Proof. apply (kavl_run_reference Z.sub kavl_sample); [apply Zsub_ordering|reflexivity]. Defined.

(** In every tree built that way [kavl_find] returns the element equal to
    the key, or null when there is none, and stores the number of elements that
    are smaller than or equal to it, as the comment on [kavl_find] says. *)
Theorem kavl_find_reference {E : Type} (cmp : E -> E -> Z) (ops : list kavl_op) (root : tree E) (x : E) :
  Ordering cmp -> zlen ops < UINT_MAX -> kavl_run cmp Leaf ops = Ok root ->
  kavl_find cmp root x 0 = (find_ref cmp x (elements root), rank_ref cmp x (elements root)).
Proof.
  intros Hcmp Hn Hrun.
  destruct (kavl_run_spec cmp ops Leaf) as (root2 & Hr & [Hw Hs] & He & Hc);
    [split; [done|constructor]|unfold count; simpl; lia|].
  rewrite Hrun in Hr. injection Hr as <-.
  destruct (kavl_find_spec cmp root x 0 Hw Hs eq_refl) as (l1 & m & l2 & Hp & ->).
  destruct (place_ref cmp x _ _ _ _ Hp) as [H1 <-]. f_equal. rewrite Z.add_0_l, H1.
  apply Z.mod_small. rewrite <- H1. destruct Hp as (Hp & _). unfold rank.
  assert (count root = zlen l1 + zlen (option_list m) + zlen l2)
    by (unfold count; rewrite Hp, !length_app; lia).
  unfold count, UINT_MAX in *. simpl in Hc. lia.
Qed.

Definition kavl_built : tree Z :=
  match kavl_run Z.sub Leaf kavl_sample with Ok t => t | Fault _ => Leaf end.

Lemma kavl_find_reference_witness :
  kavl_find Z.sub kavl_built 6 0 = (Some 6, 4) /\
  kavl_find Z.sub kavl_built 6 0 =
    (find_ref Z.sub 6 (elements kavl_built), rank_ref Z.sub 6 (elements kavl_built)).
Proof.
  split; [reflexivity|].
  apply (kavl_find_reference Z.sub kavl_sample kavl_built 6); [apply Zsub_ordering|done|done].
Defined.
