(* ===== verification/Mpool.v ===== *)
(** mpool.c: the key-value store over the tree of kavl.h.  It holds the cache of
    chosen desync groups and the host and address lists.

    A pointer to a heap block is a [positive]; the heap is the set of live
    blocks, so that a second [free] of a block, or one of a foreign block, is a
    fault.  The bytes an element's [data] points to are kept in the element
    ([e_data], of length [len]): nothing changes them after [mem_add]. *)
From S2P Require Import Prelude CLib Kavl KavlAvl KavlOps.

(** * The heap *)
Definition heap : Type := gset positive.

(** [malloc] and [calloc]; whether they succeed is the environment's choice. *)
Definition malloc (ok : bool) (h : heap) : option positive * heap :=
  if ok then let p := fresh h in (Some p, {[p]} ∪ h) else (None, h).
Definition free (p : positive) (h : heap) : res heap :=
  if decide (p ∈ h) then Ok (h ∖ {[p]}) else Fault BadFree.

(** * Elements and pools *)
Record elem : Type := Elem {
  e_ptr : positive;    (* the block of the element *)
  e_dptr : positive;   (* [data] *)
  e_data : list Z;     (* the [len] bytes at [data] *)
  e_m : Z;
  e_time : Z
}.
Definition e_len (e : elem) : Z := zlen (e_data e).

Record mphdr : Type := Mphdr {
  h_ptr : positive;
  stat : bool;
  root : tree elem
}.
Definition set_root (hdr : mphdr) (t : tree elem) : mphdr := Mphdr (h_ptr hdr) (stat hdr) t.

Definition scmp (p q : elem) : Z :=
  if negb (e_len p =? e_len q) then (if e_len p <? e_len q then -1 else 1)
  else cmp_bytes (e_data p) (e_data q).

(** [temp], the key on the stack: it has only [len] and [data]. *)
Definition temp (str : list Z) : elem := Elem 1 1 str 0 0.

Definition mem_pool (ok : bool) (cst : bool) (h : heap) : option mphdr * heap :=
  let '(p, h) := malloc ok h in
  match p with
  | None => (None, h)
  | Some p => (Some (Mphdr p cst Leaf), h)
  end.

(** [str] are the bytes from the pointer [str] on, [len] of which are the key. *)
Definition mem_get (hdr : mphdr) (str : list Z) (len : Z) : res (option elem) :=
  key ← rdn str 0 len;
  mret (kavl_find scmp (root hdr) (temp key) 0).1.

(** [ok1] and [ok2]: whether the two allocations succeed; [dptr] is the block
    [str] points into. *)
Definition mem_add (ok1 ok2 : bool) (hdr : mphdr) (dptr : positive) (str : list Z) (len : Z)
    (h : heap) : res (option elem * mphdr * heap) :=
  let '(e, h) := malloc ok1 h in
  match e with
  | None => mret (None, hdr, h)
  | Some e =>
      let '(d, h) := if negb (stat hdr) then malloc ok2 h else (Some dptr, h) in
      match d with
      | None => h ← free e h; mret (None, hdr, h)
      | Some d =>
          data ← rdn str 0 len;
          let el := Elem e d data 0 0 in
          '(v, _, t) ← kavl_insert scmp (root hdr) el;
          match v with
          | None => mret (Some el, set_root hdr t, h)
          | Some v =>
              h ← (if negb (stat hdr) then free d h else mret h);
              h ← free e h;
              mret (Some v, set_root hdr t, h)
          end
      end
  end.

Definition mem_delete (hdr : mphdr) (str : list Z) (len : Z) (h : heap) : res (mphdr * heap) :=
  key ← rdn str 0 len;
  '(e, _, t) ← kavl_erase scmp (root hdr) (Some (temp key));
  let hdr := set_root hdr t in
  match e with
  | None => mret (hdr, h)
  | Some e =>
      h ← (if negb (stat hdr) then free (e_dptr e) h else mret h);
      h ← free (e_ptr e) h;
      mret (hdr, h)
  end.

(** [while (hdr->root) ...] *)
Fixpoint mem_destroy_loop (fuel : nat) (hdr : mphdr) (h : heap) : res (mphdr * heap) :=
  match fuel with
  | O => Fault OutOfFuel
  | S k =>
      match root hdr with
      | Leaf => mret (hdr, h)
      | Node _ _ _ _ _ =>
          '(e, _, t) ← kavl_erase scmp (root hdr) None;
          let hdr := set_root hdr t in
          match e with
          | None => mret (hdr, h)
          | Some e =>
              h ← (if negb (stat hdr) then free (e_dptr e) h else mret h);
              h ← free (e_ptr e) h;
              mem_destroy_loop k hdr h
          end
      end
  end.
Definition mem_destroy (hdr : mphdr) (h : heap) : res heap :=
  '(hdr, h) ← mem_destroy_loop (S (length (elements (root hdr)))) hdr h;
  free (h_ptr hdr) h.

(** An assignment through the pointer to an element ([val->m], [val->time]). *)
Fixpoint tree_map {E} (f : E -> E) (t : tree E) : tree E :=
  match t with
  | Leaf => Leaf
  | Node x b s l r => Node (f x) b s (tree_map f l) (tree_map f r)
  end.
Definition elem_set (hdr : mphdr) (p : positive) (m time : Z) : mphdr :=
  set_root hdr (tree_map (fun e =>
    if decide (e_ptr e = p) then Elem (e_ptr e) (e_dptr e) (e_data e) m time else e) (root hdr)).

(** * The order of keys *)
Lemma cmp_bytes_swap l1 l2 : cmp_bytes l1 l2 = - cmp_bytes l2 l1.
Proof.
  revert l2. induction l1 as [|x l1 IH]; intros [|y l2]; simpl; try done.
  destruct (Z.eqb_spec x y), (Z.eqb_spec y x); try lia. apply IH.
Qed.

Lemma cmp_bytes_trans l1 l2 l3 :
  length l1 = length l2 -> length l2 = length l3 ->
  cmp_bytes l1 l2 < 0 -> cmp_bytes l2 l3 < 0 -> cmp_bytes l1 l3 < 0.
Proof.
  revert l2 l3. induction l1 as [|x l1 IH]; intros [|y l2] [|z l3]; simpl; try done.
  intros [= H1] [= H2].
  destruct (Z.eqb_spec x y), (Z.eqb_spec y z), (Z.eqb_spec x z); try lia. eauto.
Qed.

Lemma scmp_zero p q : scmp p q = 0 <-> e_data p = e_data q.
Proof.
  unfold scmp, e_len. destruct (Z.eqb_spec (zlen (e_data p)) (zlen (e_data q))) as [E|E]; simpl.
  - apply cmp_bytes_zero. lia.
  - split; [case_match; lia|]. intros Hd. by rewrite Hd in E.
Qed.

#[export] Instance scmp_ordering : Ordering scmp.
Proof.
  assert (Hswap : forall x y, scmp x y = - scmp y x).
  { intros x y. unfold scmp. rewrite (Z.eqb_sym (e_len y)).
    destruct (Z.eqb_spec (e_len x) (e_len y)); simpl; [apply cmp_bytes_swap|].
    destruct (Z.ltb_spec (e_len x) (e_len y)), (Z.ltb_spec (e_len y) (e_len x)); lia. }
  split.
  - intros x. by apply scmp_zero.
  - intros x y. rewrite (Hswap x y). lia.
  - intros x y z. unfold scmp.
    destruct (Z.eqb_spec (e_len x) (e_len y)) as [E1|], (Z.eqb_spec (e_len y) (e_len z)) as [E2|],
      (Z.eqb_spec (e_len x) (e_len z)) as [E3|]; simpl; repeat ccase; try lia.
    unfold e_len in *. apply cmp_bytes_trans; lia.
  - intros x y z Hz%scmp_zero. unfold scmp, e_len. by rewrite Hz.
Qed.
