(* ===== verification/MpoolSpec.v ===== *)
(** The store of mpool.c refines a finite map from keys to elements, and owns
    its heap blocks: no block is leaked, freed twice or shared. *)
From S2P Require Import Prelude CLib Kavl KavlAvl KavlOps Mpool.

(** * Abstract state and invariant *)
Definition elem_map (l : list elem) : gmap (list Z) elem :=
  list_to_map ((fun e => (e_data e, e)) <$> l).
(** What a pool stands for: a finite map from keys to elements. *)
Definition pool_map (hdr : mphdr) : gmap (list Z) elem := elem_map (elements (root hdr)).

(** The blocks of an element, and of a pool. *)
Definition elem_blocks (cst : bool) (e : elem) : list positive :=
  if cst then [e_ptr e] else [e_dptr e; e_ptr e].
Definition owned (hdr : mphdr) : list positive :=
  h_ptr hdr :: flat_map (elem_blocks (stat hdr)) (elements (root hdr)).

(** The part of the heap that is not the pool's. *)
Definition foreign (hdr : mphdr) (h : heap) : heap := h ∖ list_to_set (owned hdr).

Record pool_inv (hdr : mphdr) (h : heap) : Prop := {
  pi_tree : avl_tree scmp (root hdr);
  pi_nodup : NoDup (owned hdr);
  pi_live : forall p, p ∈ owned hdr -> p ∈ h;
  pi_count : count (root hdr) < UINT_MAX
}.

(** * Sorted lists of elements as maps *)
Lemma elem_keys l : ((fun e => (e_data e, e)) <$> l).*1 = e_data <$> l.
Proof. rewrite <- list_fmap_compose. done. Qed.

Lemma sorted_nodup l : sorted scmp l -> NoDup (e_data <$> l).
Proof.
  induction l as [|e l IH]; simpl; [constructor|].
  intros [Hf Hs]%StronglySorted_cons. constructor; [|by apply IH].
  intros (x & Hx & Hin)%list_elem_of_fmap. rewrite Forall_forall in Hf.
  specialize (Hf x Hin). apply scmp_zero in Hx. lia.
Qed.

Lemma place_lookup l x l1 m l2 :
  sorted scmp l -> at_place scmp x l l1 m l2 -> elem_map l !! e_data x = m.
Proof.
  intros Hs (-> & H1 & H2 & Hm). destruct m as [y|].
  - specialize (Hm y eq_refl). apply scmp_zero in Hm. rewrite Hm.
    apply elem_of_list_to_map_1; [rewrite elem_keys; by apply sorted_nodup|].
    apply (list_elem_of_fmap_2 (fun e => (e_data e, e))). set_solver.
  - apply not_elem_of_list_to_map_1. rewrite elem_keys.
    intros (y & Hy%scmp_zero & Hin)%list_elem_of_fmap. rewrite !Forall_forall in *.
    apply elem_of_app in Hin as [Hin|Hin]; [|specialize (H2 _ Hin); lia].
    specialize (H1 _ Hin). pose proof (cmp_opp x y). pose proof (cmp_opp y x). lia.
Qed.

Lemma elem_map_insert l1 x l2 :
  sorted scmp (l1 ++ x :: l2) ->
  elem_map (l1 ++ x :: l2) = <[e_data x := x]> (elem_map (l1 ++ l2)) /\
  elem_map (l1 ++ l2) !! e_data x = None.
Proof.
  intros Hs%sorted_nodup.
  assert (Hp : (e_data <$> (l1 ++ x :: l2)) ≡ₚ e_data x :: (e_data <$> (l1 ++ l2)))
    by (by rewrite <- Permutation_middle).
  pose proof Hs as Hs2. rewrite Hp in Hs2. apply NoDup_cons in Hs2 as [Hx _].
  unfold elem_map. split.
  - rewrite <- list_to_map_cons. apply list_to_map_proper; [by rewrite elem_keys|].
    by rewrite <- Permutation_middle.
  - apply not_elem_of_list_to_map_1. by rewrite elem_keys.
Qed.

Lemma elem_map_delete l1 x l2 :
  sorted scmp (l1 ++ x :: l2) ->
  elem_map (l1 ++ l2) = delete (e_data x) (elem_map (l1 ++ x :: l2)).
Proof. intros [-> H]%elem_map_insert. by rewrite delete_insert_id. Qed.

(** * Blocks *)
Lemma blocks_app cst l1 l2 :
  flat_map (elem_blocks cst) (l1 ++ l2) = flat_map (elem_blocks cst) l1 ++ flat_map (elem_blocks cst) l2.
Proof. apply flat_map_app. Qed.

Lemma blocks_insert cst l1 e l2 :
  flat_map (elem_blocks cst) (l1 ++ e :: l2) ≡ₚ
  elem_blocks cst e ++ flat_map (elem_blocks cst) (l1 ++ l2).
Proof. rewrite !blocks_app. simpl. by rewrite Permutation_app_swap_app. Qed.

Lemma malloc_spec ok h :
  malloc ok h = (None, h) /\ ok = false \/
  exists p, p ∉ h /\ malloc ok h = (Some p, {[p]} ∪ h) /\ ok = true.
Proof. destruct ok; [right|by left]. exists (fresh h). split; [apply is_fresh|done]. Qed.

Lemma free_ok p h : p ∈ h -> free p h = Ok (h ∖ {[p]}).
Proof. intros. unfold free. by rewrite decide_True. Qed.

Lemma free_fresh p h : p ∉ h -> free p ({[p]} ∪ h) = Ok h.
Proof. intros. rewrite free_ok by set_solver. f_equal. set_solver. Qed.

(** The blocks of an element of the pool can be freed, in the order of the code. *)
Definition free_elem (cst : bool) (e : elem) (h : heap) : res heap :=
  (if negb cst then free (e_dptr e) h else mret h) ≫= free (e_ptr e).

Lemma free_elem_ok cst e h :
  NoDup (elem_blocks cst e) -> (forall p, p ∈ elem_blocks cst e -> p ∈ h) ->
  free_elem cst e h = Ok (h ∖ list_to_set (elem_blocks cst e)).
Proof.
  unfold free_elem, elem_blocks. destruct cst; simpl; intros Hn Hl.
  - rewrite free_ok by set_solver. f_equal. set_solver.
  - apply NoDup_cons in Hn as [Hn _]. rewrite (free_ok (e_dptr e)) by set_solver. simpl.
    rewrite free_ok by set_solver. f_equal. set_solver.
Qed.

(** * The operations *)
Lemma set_root_eta hdr : set_root hdr (root hdr) = hdr.
Proof. by destruct hdr. Qed.

Section Operations.
Context (hdr : mphdr) (h : heap) (Hinv : pool_inv hdr h).

(** Taking an element out of the list gives its blocks back. *)
Lemma pool_inv_remove t l1 y l2 :
  elements (root hdr) = l1 ++ y :: l2 -> avl_tree scmp t -> elements t = l1 ++ l2 ->
  free_elem (stat hdr) y h = Ok (h ∖ list_to_set (elem_blocks (stat hdr) y)) /\
  pool_inv (set_root hdr t) (h ∖ list_to_set (elem_blocks (stat hdr) y)) /\
  pool_map (set_root hdr t) = delete (e_data y) (pool_map hdr) /\
  foreign (set_root hdr t) (h ∖ list_to_set (elem_blocks (stat hdr) y)) = foreign hdr h.
Proof.
  intros El Ht Et. destruct Hinv as [[_ Hs] Hn Hl Hc].
  assert (Hp : owned hdr ≡ₚ elem_blocks (stat hdr) y ++ owned (set_root hdr t)).
  { unfold owned. cbn [set_root stat h_ptr root]. rewrite El, Et, blocks_insert.
    by rewrite Permutation_middle. }
  rewrite Hp in Hn. apply NoDup_app in Hn as (Hn1 & Hd & Hn2).
  split; [|split; [|split]].
  - apply free_elem_ok; [done|]. intros p Hpin. apply Hl. rewrite Hp. set_solver.
  - split; [done..| |].
    + intros p Hpin. assert (p ∉ elem_blocks (stat hdr) y) by naive_solver.
      specialize (Hl p). rewrite Hp in Hl. set_solver.
    + unfold count in *. cbn [root set_root]. rewrite Et. rewrite El in Hc.
      rewrite length_app in *. simpl in Hc. lia.
  - unfold pool_map. cbn [root set_root]. rewrite El, Et. apply elem_map_delete. by rewrite <- El.
  - unfold foreign. apply set_eq. intros p. rewrite !elem_of_difference, !elem_of_list_to_set, Hp.
    set_solver.
Qed.

Context (str : list Z) (len : Z) (Hlen : 0 <= len <= zlen str).
Local Notation key := (sub str 0 len).

Lemma mem_get_lookup : mem_get hdr str len = Ok (pool_map hdr !! key).
Proof.
  destruct Hinv as [[Hw Hs] _ _ _]. unfold mem_get. rewrite rdn_ok by lia. cbn [mbind res_bind].
  destruct (kavl_find_spec scmp (root hdr) (temp key) 0 Hw Hs eq_refl)
    as (l1 & m & l2 & Hp & ->). simpl. by rewrite <- (place_lookup _ _ _ _ _ Hs Hp).
Qed.

Lemma mem_delete_spec :
  exists hdr' h', mem_delete hdr str len h = Ok (hdr', h') /\ pool_inv hdr' h' /\
    stat hdr' = stat hdr /\ count (root hdr') <= count (root hdr) /\
    pool_map hdr' = delete key (pool_map hdr) /\ foreign hdr' h' = foreign hdr h.
Proof.
  pose proof Hinv as [Ht _ _ Hc]. unfold mem_delete. rewrite rdn_ok by lia. cbn [mbind res_bind].
  destruct (kavl_erase_spec scmp (root hdr) (temp key) Ht Hc)
    as (l1 & m & l2 & t & Hp & -> & Ht' & El & Hnone). cbn [mbind res_bind].
  pose proof (place_lookup _ _ _ _ _ (proj2 Ht) Hp) as Hk. change (e_data (temp key)) with key in Hk.
  fold (pool_map hdr) in Hk. destruct Hp as (E0 & _ & _ & Hm). destruct m as [y|].
  - destruct (pool_inv_remove t l1 y l2 E0 Ht' El) as (Hf & Hi & Hmap & Hfr).
    specialize (Hm y eq_refl). apply scmp_zero in Hm. simpl in Hm.
    eexists _, _. split; [|split; [exact Hi|split; [done|split; [|by rewrite Hmap, Hm]]]].
    2: { unfold count. cbn [root set_root]. rewrite E0, El, !length_app. simpl. lia. }
    unfold free_elem in Hf. cbn [set_root stat].
    rewrite <- (res_bind_assoc _ (free (e_ptr y))), Hf. done.
  - rewrite Hnone by done. rewrite set_root_eta. exists hdr, h.
    rewrite delete_id by done. split_and!; done || lia.
Qed.
(** The result of an insertion as a pool. *)
Lemma pool_inv_add t l1 e l2 :
  count (root hdr) + 1 < UINT_MAX ->
  elements (root hdr) = l1 ++ l2 -> avl_tree scmp t -> elements t = l1 ++ e :: l2 ->
  NoDup (elem_blocks (stat hdr) e) -> (forall p, p ∈ elem_blocks (stat hdr) e -> p ∉ h) ->
  pool_inv (set_root hdr t) (list_to_set (elem_blocks (stat hdr) e) ∪ h) /\
  pool_map (set_root hdr t) = <[e_data e := e]> (pool_map hdr) /\
  foreign (set_root hdr t) (list_to_set (elem_blocks (stat hdr) e) ∪ h) = foreign hdr h.
Proof.
  intros Hc El Ht Et Hn Hfresh. destruct Hinv as [_ Hn2 Hl _].
  assert (Hp : owned (set_root hdr t) ≡ₚ elem_blocks (stat hdr) e ++ owned hdr).
  { unfold owned. cbn [set_root stat h_ptr root]. rewrite El, Et, blocks_insert.
    by rewrite Permutation_middle. }
  split; [split; [done|..]|split].
  - rewrite Hp. apply NoDup_app. split_and!; auto. intros p Hpe Hpo. by apply (Hfresh p), Hl.
  - intros p. rewrite Hp. specialize (Hl p). set_solver.
  - unfold count in *. cbn [root set_root]. rewrite Et. rewrite El in Hc.
    rewrite length_app in *. simpl. lia.
  - unfold pool_map. cbn [root set_root]. rewrite El, Et.
    apply elem_map_insert. rewrite <- Et. apply Ht.
  - unfold foreign. apply set_eq. intros p.
    rewrite !elem_of_difference, elem_of_union, !elem_of_list_to_set, Hp.
    specialize (Hfresh p). set_solver.
Qed.

(** What [mem_add] promises: out of memory, the element that was there, or a
    new one. *)
Definition mem_add_post (ok1 ok2 : bool) (r : option elem * mphdr * heap) : Prop :=
  let '(v, hdr', h') := r in
  pool_inv hdr' h' /\ stat hdr' = stat hdr /\ foreign hdr' h' = foreign hdr h /\
  count (root hdr') <= count (root hdr) + 1 /\
  match v with
  | None => (ok1 && (stat hdr || ok2)) = false /\ hdr' = hdr /\ h' = h
  | Some e =>
      (ok1 && (stat hdr || ok2)) = true /\
      match pool_map hdr !! key with
      | Some old => e = old /\ hdr' = hdr /\ h' = h
      | None => e_data e = key /\ e_m e = 0 /\ e_time e = 0 /\
          pool_map hdr' = <[key := e]> (pool_map hdr)
      end
  end.

Lemma mem_add_spec ok1 ok2 dptr :
  count (root hdr) + 1 < UINT_MAX ->
  exists r, mem_add ok1 ok2 hdr dptr str len h = Ok r /\ mem_add_post ok1 ok2 r.
Proof.
  intros Hc. pose proof Hinv as [Ht _ _ Hc']. unfold mem_add.
  destruct (malloc_spec ok1 h) as [[-> ->]|(p & Hp & -> & ->)].
  { eexists. split; [done|]. unfold mem_add_post. rewrite ?Est. split_and!; auto; lia. }
  destruct (stat hdr) eqn:Est; cbn [negb].
  - rewrite rdn_ok by lia. cbn [mbind res_bind].
    destruct (kavl_insert_spec scmp (root hdr) (Elem p dptr key 0 0) Ht Hc')
      as (l1 & m & l2 & t & Hpl & -> & Ht' & El & Hsome). cbn [mbind res_bind].
    pose proof (place_lookup _ _ _ _ _ (proj2 Ht) Hpl) as Hk. simpl e_data in Hk.
    fold (pool_map hdr) in Hk. destruct Hpl as (E0 & _).
    destruct m as [y|]; cbn [mbind res_bind mret res_ret].
    + rewrite free_fresh, Hsome, set_root_eta by done. eexists. split; [done|].
      unfold mem_add_post. rewrite Hk, ?Est. split_and!; auto; lia.
    + destruct (pool_inv_add t l1 (Elem p dptr key 0 0) l2) as (Hi & Hm & Hfr); rewrite ?Est; simpl; auto.
      { repeat constructor; set_solver. }
      { set_solver. }
      eexists. split; [done|]. rewrite Est in Hi, Hfr. simpl in Hi, Hfr.
      replace ({[p]} ∪ h) with ({[p]} ∪ ∅ ∪ h) by set_solver.
      unfold mem_add_post. rewrite Hk, Est. split_and!; auto. cbn [root set_root].
      unfold count. rewrite El, E0, !length_app. simpl. lia.
  - destruct (malloc_spec ok2 ({[p]} ∪ h)) as [[-> ->]|(d & Hd & -> & ->)].
    { rewrite free_fresh by done. eexists. split; [done|].
      unfold mem_add_post. rewrite ?Est. split_and!; auto; lia. }
    rewrite rdn_ok by lia. cbn [mbind res_bind].
    destruct (kavl_insert_spec scmp (root hdr) (Elem p d key 0 0) Ht Hc')
      as (l1 & m & l2 & t & Hpl & -> & Ht' & El & Hsome). cbn [mbind res_bind].
    pose proof (place_lookup _ _ _ _ _ (proj2 Ht) Hpl) as Hk. simpl e_data in Hk.
    fold (pool_map hdr) in Hk. destruct Hpl as (E0 & _).
    destruct m as [y|]; cbn [mbind res_bind mret res_ret].
    + rewrite free_fresh by done. cbn [mbind res_bind].
      rewrite free_fresh, Hsome, set_root_eta by done. eexists. split; [done|].
      unfold mem_add_post. rewrite Hk, ?Est. split_and!; auto; lia.
    + destruct (pool_inv_add t l1 (Elem p d key 0 0) l2) as (Hi & Hm & Hfr); rewrite ?Est; simpl; auto.
      { repeat constructor; set_solver. }
      { set_solver. }
      eexists. split; [done|]. rewrite Est in Hi, Hfr. simpl in Hi, Hfr.
      replace ({[d]} ∪ ({[p]} ∪ h)) with ({[d]} ∪ ({[p]} ∪ ∅) ∪ h) by set_solver.
      unfold mem_add_post. rewrite Hk, Est. split_and!; auto. cbn [root set_root].
      unfold count. rewrite El, E0, !length_app. simpl. lia.
Qed.
End Operations.

(** [mem_destroy] frees every block of the pool once, and nothing else. *)
Lemma mem_destroy_loop_spec fuel hdr h :
  pool_inv hdr h -> (length (elements (root hdr)) < fuel)%nat ->
  mem_destroy_loop fuel hdr h =
    Ok (set_root hdr Leaf, h ∖ list_to_set (flat_map (elem_blocks (stat hdr)) (elements (root hdr)))).
Proof.
  revert hdr h. induction fuel as [|k IH]; intros hdr h Hinv Hf; [lia|].
  pose proof Hinv as [Ht Hn Hl Hc]. cbn [mem_destroy_loop].
  pose proof (kavl_erase_first_spec scmp (root hdr) Ht Hc) as He.
  destruct (elements (root hdr)) as [|y l] eqn:El.
  { destruct (root hdr) as [|x b s t1 t2] eqn:Er; [|simpl in El; by destruct (elements t1)].
    rewrite <- Er, set_root_eta. do 2 f_equal. simpl. set_solver. }
  destruct He as (t & -> & Ht' & Et). cbn [mbind res_bind].
  destruct (root hdr) as [|x b s t1 t2] eqn:Er; [done|]. rewrite <- Er in *.
  destruct (pool_inv_remove hdr h Hinv t [] y l) as (Hfree & Hi & _ & Hp); [done..|].
  unfold free_elem in Hfree. cbn [set_root stat].
  rewrite <- (res_bind_assoc _ (free (e_ptr y))), Hfree. cbn [mbind res_bind].
  rewrite IH; [|done|simpl; rewrite Et; simpl in Hf; lia].
  cbn [set_root stat root h_ptr]. rewrite Et. do 2 f_equal. simpl.
  rewrite list_to_set_app_L. set_solver.
Qed.

Lemma mem_destroy_spec hdr h :
  pool_inv hdr h -> mem_destroy hdr h = Ok (h ∖ list_to_set (owned hdr)).
Proof.
  intros Hinv. unfold mem_destroy. rewrite mem_destroy_loop_spec by (done || lia).
  pose proof Hinv as [_ Hn Hl _]. unfold owned in *. apply NoDup_cons in Hn as [Hn _].
  cbn [mbind res_bind set_root h_ptr]. rewrite free_ok.
  - f_equal. simpl. set_solver.
  - assert (h_ptr hdr ∈ h) by (apply Hl; left).
    apply elem_of_difference. split; [done|]. by rewrite elem_of_list_to_set.
Qed.

(** * Assignments through element pointers *)
Section Assign.
Context {E : Type} (cmp : E -> E -> Z) (f : E -> E).

Lemma elements_tree_map t : elements (tree_map f t) = f <$> elements t.
Proof. induction t as [|x b s l IHl r IHr]; simpl; [done|]. by rewrite fmap_app, IHl, IHr. Qed.

Lemma wf_tree_map t : wf (tree_map f t) <-> wf t.
Proof.
  assert (Hh : forall t, height (tree_map f t) = height t).
  { intros u. induction u as [|x b s l IHl r IHr]; simpl; [done|]. by rewrite IHl, IHr. }
  assert (Hc : forall t, count (tree_map f t) = count t).
  { intros u. unfold count. by rewrite elements_tree_map, length_fmap. }
  induction t as [|x b s l IHl r IHr]; simpl; [done|]. by rewrite IHl, IHr, !Hh, !Hc.
Qed.

Lemma sorted_fmap l :
  (forall x y, cmp (f x) (f y) = cmp x y) -> sorted cmp l -> sorted cmp (f <$> l).
Proof.
  intros Hf. induction l as [|x l IH]; [done|]. intros [Hx Hs]%StronglySorted_cons.
  apply StronglySorted_cons. split; [|by apply IH]. apply Forall_fmap.
  eapply Forall_impl; [exact Hx|]. intros y. simpl. by rewrite Hf.
Qed.
End Assign.

Lemma owned_in e hdr : e ∈ elements (root hdr) -> forall p, p ∈ elem_blocks (stat hdr) e ->
  p ∈ flat_map (elem_blocks (stat hdr)) (elements (root hdr)).
Proof. intros He p Hp. apply list_elem_of_In, in_flat_map. exists e. by rewrite <- !list_elem_of_In. Qed.

(** Elements of a pool are identified by their pointers. *)
Lemma ptr_inj hdr h e1 e2 :
  pool_inv hdr h -> e1 ∈ elements (root hdr) -> e2 ∈ elements (root hdr) ->
  e_ptr e1 = e_ptr e2 -> e1 = e2.
Proof.
  intros [_ Hn _ _] H1 H2 Hp. unfold owned in Hn. apply NoDup_cons in Hn as [_ Hn].
  induction (elements (root hdr)) as [|e l IH]; [by apply elem_of_nil in H1|].
  simpl in Hn. apply NoDup_app in Hn as (_ & Hd & Hn).
  assert (Hin : forall e', e' ∈ l -> e_ptr e = e_ptr e' -> False).
  { intros e' He' Heq. apply (Hd (e_ptr e)); [destruct (stat hdr); set_solver|].
    rewrite Heq. apply list_elem_of_In, in_flat_map. exists e'.
    rewrite <- !list_elem_of_In. split; [done|]. destruct (stat hdr); set_solver. }
  apply elem_of_cons in H1 as [->|H1]; apply elem_of_cons in H2 as [->|H2]; auto.
  - exfalso. eauto.
  - exfalso. eauto.
Qed.

Lemma pool_map_elem hdr k e :
  pool_map hdr !! k = Some e -> e ∈ elements (root hdr) /\ e_data e = k.
Proof.
  intros H%elem_of_list_to_map_2. apply list_elem_of_fmap in H as (x & [= -> ->] & Hx). done.
Qed.

Lemma pool_map_in hdr h e :
  pool_inv hdr h -> e ∈ elements (root hdr) -> pool_map hdr !! e_data e = Some e.
Proof.
  intros [[_ Hs] _ _ _] He. apply elem_of_list_to_map_1; [rewrite elem_keys; by apply sorted_nodup|].
  by apply (list_elem_of_fmap_2 (fun e => (e_data e, e))).
Qed.

Definition elem_with (e : elem) (m time : Z) : elem :=
  Elem (e_ptr e) (e_dptr e) (e_data e) m time.

Lemma elem_set_spec hdr h k e m time :
  pool_inv hdr h -> pool_map hdr !! k = Some e ->
  let hdr' := elem_set hdr (e_ptr e) m time in
  pool_inv hdr' h /\ stat hdr' = stat hdr /\ foreign hdr' h = foreign hdr h /\
  count (root hdr') = count (root hdr) /\
  pool_map hdr' = <[k := elem_with e m time]> (pool_map hdr).
Proof.
  intros Hinv Hk. pose proof Hinv as [[Hw Hs] Hn Hl Hc].
  destruct (pool_map_elem hdr k e Hk) as [He <-].
  set (f := fun x => if decide (e_ptr x = e_ptr e)
                     then Elem (e_ptr x) (e_dptr x) (e_data x) m time else x).
  assert (Hf : forall x, e_data (f x) = e_data x) by (intros x; unfold f; by case_decide).
  assert (Hfb : forall c x, elem_blocks c (f x) = elem_blocks c x)
    by (intros c x; unfold f; by case_decide).
  cbn zeta. unfold elem_set. fold f.
  assert (Hel : elements (tree_map f (root hdr)) = f <$> elements (root hdr))
    by apply elements_tree_map.
  assert (Hb : owned (set_root hdr (tree_map f (root hdr))) = owned hdr).
  { unfold owned. cbn [set_root root h_ptr stat]. rewrite Hel. f_equal.
    generalize (elements (root hdr)). intros l.
    induction l as [|x l IH]; cbn [fmap list_fmap flat_map]; [done|]. by rewrite Hfb, <- IH. }
  assert (Hct : count (tree_map f (root hdr)) = count (root hdr))
    by (unfold count; by rewrite Hel, length_fmap).
  assert (Hsf : sorted scmp (f <$> elements (root hdr))).
  { apply sorted_fmap; [|done]. intros x y. unfold scmp, e_len. by rewrite !Hf. }
  assert (Hinv' : pool_inv (set_root hdr (tree_map f (root hdr))) h).
  { split; rewrite ?Hb; auto; [|cbn [root set_root]; by rewrite Hct].
    split; [by apply wf_tree_map|]. cbn [root set_root]. by rewrite Hel. }
  split; [done|]. split; [done|]. split; [unfold foreign; by rewrite Hb|]. split; [done|].
  apply map_eq. intros k. destruct (decide (k = e_data e)) as [->|Hne].
  - rewrite lookup_insert_eq. assert (f e = elem_with e m time) as <-
      by (unfold f; by rewrite decide_True).
    rewrite <- (Hf e). apply (pool_map_in _ h); [done|]. cbn [root set_root]. rewrite Hel.
    by apply list_elem_of_fmap_2.
  - rewrite lookup_insert_ne by done. destruct (pool_map hdr !! k) as [x|] eqn:Hx.
    + destruct (pool_map_elem hdr k x Hx) as [Hxin <-].
      assert (Hfx : f x = x).
      { unfold f. rewrite decide_False; [done|]. intros Hp. apply Hne. f_equal.
        exact (ptr_inj hdr h x e Hinv Hxin He Hp). }
      pose proof (pool_map_in _ h (f x) Hinv') as Hx'. rewrite Hf, Hfx in Hx'. apply Hx'.
      cbn [root set_root]. rewrite Hel, <- Hfx at 1. by apply list_elem_of_fmap_2.
    + apply eq_None_not_Some. intros [x Hx2].
      apply pool_map_elem in Hx2 as [Hin <-]. cbn [root set_root] in Hin. rewrite Hel in Hin.
      apply list_elem_of_fmap in Hin as (y & -> & Hy). rewrite Hf in Hx.
      rewrite (pool_map_in hdr h y Hinv Hy) in Hx. done.
Qed.

(** * Sessions *)

(** The calls a client makes: [OpSet] is [mem_get] and an assignment through
    the pointer it returns. *)
Inductive pool_op : Type :=
  | OpAdd (ok1 ok2 : bool) (dptr : positive) (key : list Z)
  | OpDelete (key : list Z)
  | OpSet (key : list Z) (m time : Z).

Definition run_op (st : mphdr * heap) (op : pool_op) : res (mphdr * heap) :=
  let '(hdr, h) := st in
  match op with
  | OpAdd ok1 ok2 dptr key =>
      '(_, hdr, h) ← mem_add ok1 ok2 hdr dptr key (zlen key) h; mret (hdr, h)
  | OpDelete key => mem_delete hdr key (zlen key) h
  | OpSet key m time =>
      o ← mem_get hdr key (zlen key);
      match o with
      | Some e => mret (elem_set hdr (e_ptr e) m time, h)
      | None => mret (hdr, h)
      end
  end.
Fixpoint run_ops (st : mphdr * heap) (ops : list pool_op) : res (mphdr * heap) :=
  match ops with
  | [] => mret st
  | op :: ops => st ← run_op st op; run_ops st ops
  end.

(** The specification: a finite map from keys to [m] and [time]. *)
Notation store := (gmap (list Z) (Z * Z)).
Definition values (hdr : mphdr) : store := (fun e => (e_m e, e_time e)) <$> pool_map hdr.
Definition store_op (cst : bool) (s : store) (op : pool_op) : store :=
  match op with
  | OpAdd ok1 ok2 _ key =>
      if ok1 && (cst || ok2)
      then match s !! key with Some _ => s | None => <[key := (0, 0)]> s end
      else s
  | OpDelete key => delete key s
  | OpSet key m time => match s !! key with Some _ => <[key := (m, time)]> s | None => s end
  end.

Lemma run_op_spec hdr h op :
  pool_inv hdr h -> count (root hdr) + 1 < UINT_MAX ->
  exists hdr' h', run_op (hdr, h) op = Ok (hdr', h') /\ pool_inv hdr' h' /\
    stat hdr' = stat hdr /\ foreign hdr' h' = foreign hdr h /\
    count (root hdr') <= count (root hdr) + 1 /\
    values hdr' = store_op (stat hdr) (values hdr) op.
Proof.
  intros Hinv Hc. unfold values. destruct op as [ok1 ok2 dptr key|key|key m time]; cbn [run_op store_op].
  - destruct (mem_add_spec hdr h Hinv key (zlen key) ltac:(lia) ok1 ok2 dptr Hc)
      as ([[v hdr'] h'] & -> & Hi & Hst & Hf & Hn & Hv). rewrite sub_all in Hv.
    exists hdr', h'. split; [done|]. split_and!; auto. rewrite lookup_fmap.
    destruct v as [e|]; [destruct Hv as [-> Hv]|destruct Hv as (-> & -> & _); done].
    destruct (pool_map hdr !! key) as [old|]; simpl; [by destruct Hv as (_ & -> & _)|].
    destruct Hv as (_ & Hm & Ht & ->). by rewrite fmap_insert, Hm, Ht.
  - destruct (mem_delete_spec hdr h Hinv key (zlen key) ltac:(lia))
      as (hdr' & h' & -> & Hi & Hst & Hn & Hm & Hf). rewrite sub_all in Hm.
    exists hdr', h'. split_and!; auto; [lia|]. by rewrite Hm, fmap_delete.
  - rewrite (mem_get_lookup hdr h Hinv key (zlen key)), sub_all by lia. cbn [mbind res_bind].
    rewrite lookup_fmap. destruct (pool_map hdr !! key) as [e|] eqn:Hk; simpl.
    + destruct (elem_set_spec hdr h key e m time Hinv Hk) as (Hi & Hst & Hf & Hn & Hm).
      eexists _, h. split; [done|]. split_and!; auto; [lia|]. by rewrite Hm, fmap_insert.
    + exists hdr, h. split_and!; auto; lia.
Qed.

Lemma run_ops_spec ops hdr h :
  pool_inv hdr h -> count (root hdr) + zlen ops < UINT_MAX ->
  exists hdr' h', run_ops (hdr, h) ops = Ok (hdr', h') /\ pool_inv hdr' h' /\
    stat hdr' = stat hdr /\ foreign hdr' h' = foreign hdr h /\
    values hdr' = foldl (store_op (stat hdr)) (values hdr) ops.
Proof.
  revert hdr h. induction ops as [|op ops IH]; intros hdr h Hinv Hc; cbn [run_ops foldl].
  { exists hdr, h. by split_and!. }
  simpl in Hc. destruct (run_op_spec hdr h op Hinv) as (hdr1 & h1 & -> & Hi & Hst & Hf & Hn & Hv);
    [lia|]. cbn [mbind res_bind].
  destruct (IH hdr1 h1 Hi) as (hdr2 & h2 & -> & Hi2 & Hst2 & Hf2 & Hv2); [lia|].
  exists hdr2, h2. split; [done|]. rewrite Hf2, Hst2, Hf, Hst in *. by rewrite Hv2, Hv.
Qed.

Lemma mem_pool_spec cst h p h' :
  malloc true h = (Some p, h') ->
  mem_pool true cst h = (Some (Mphdr p cst Leaf), h') /\
  pool_inv (Mphdr p cst Leaf) h' /\ foreign (Mphdr p cst Leaf) h' = h.
Proof.
  intros Hm. unfold mem_pool. rewrite Hm.
  destruct (malloc_spec true h) as [[_ H]|(q & Hq & Hm2 & _)]; [done|].
  rewrite Hm in Hm2. injection Hm2 as -> ->.
  split; [done|]. split; [split|]; unfold foreign, owned; simpl.
  - split; [done|]. constructor.
  - repeat constructor. set_solver.
  - set_solver.
  - done.
  - set_solver.
Qed.

(** * Properties *)

(** C7: a pool refines a finite map: any sequence of [mem_add], [mem_delete] and
    assignments to elements, on a new pool, runs without a memory error, acts on
    the pool as on a finite map from keys to values (an allocation that fails
    changes nothing), and [mem_get] is the lookup in that map. *)
Theorem pool_refines_map (cst : bool) (h0 h1 : heap) (hdr : mphdr) (ops : list pool_op) :
  mem_pool true cst h0 = (Some hdr, h1) -> zlen ops < UINT_MAX ->
  exists hdr' h', run_ops (hdr, h1) ops = Ok (hdr', h') /\
    values hdr' = foldl (store_op cst) ∅ ops /\
    forall key, exists o, mem_get hdr' key (zlen key) = Ok o /\
      (e ← o; Some (e_m e, e_time e)) = foldl (store_op cst) ∅ ops !! key.
Proof.
  intros Hp Hn. destruct (malloc true h0) as [[p|] h'] eqn:Hm; [|done].
  destruct (mem_pool_spec cst h0 p h' Hm) as (Hp2 & Hi & _). rewrite Hp in Hp2.
  injection Hp2 as -> ->.
  destruct (run_ops_spec ops _ _ Hi) as (hdr' & h2 & -> & Hi2 & _ & _ & Hv);
    [unfold count; simpl; lia|].
  change (values (Mphdr p cst Leaf)) with (∅ : store) in Hv. cbn [stat] in Hv.
  exists hdr', h2. split; [done|]. split; [done|]. intros key. eexists.
  split; [apply (mem_get_lookup hdr' h2 Hi2); lia|]. rewrite sub_all, <- Hv. unfold values.
  rewrite lookup_fmap. by destruct (pool_map hdr' !! key).
Qed.

Definition sample_ops : list pool_op :=
  [OpAdd true true 1 [97; 98]; OpAdd true true 1 [97]; OpAdd true false 1 [99];
   OpAdd true true 1 [97; 98]; OpSet [97] 2 50; OpAdd true true 1 [100]; OpDelete [97; 98]].

Lemma pool_refines_map_witness :
  exists hdr' h', run_ops (Mphdr 1 false Leaf, {[1%positive]}) sample_ops = Ok (hdr', h') /\
    values hdr' = foldl (store_op false) ∅ sample_ops /\
    forall key, exists o, mem_get hdr' key (zlen key) = Ok o /\
      (e ← o; Some (e_m e, e_time e)) = foldl (store_op false) ∅ sample_ops !! key.
Proof.
  apply (pool_refines_map false ∅ {[1%positive]} (Mphdr 1 false Leaf) sample_ops).
  - vm_compute. reflexivity.
  - vm_compute. reflexivity.
Defined.

(** no leak and no double free: after any sequence of operations on a new
    pool, [mem_destroy] succeeds and the heap is what it was before [mem_pool]. *)
Theorem pool_session_no_leak (cst : bool) (h0 h1 : heap) (hdr : mphdr) (ops : list pool_op) :
  mem_pool true cst h0 = (Some hdr, h1) -> zlen ops < UINT_MAX ->
  exists hdr' h', run_ops (hdr, h1) ops = Ok (hdr', h') /\ mem_destroy hdr' h' = Ok h0.
Proof.
  intros Hp Hn. destruct (malloc true h0) as [[p|] h'] eqn:Hm; [|done].
  destruct (mem_pool_spec cst h0 p h' Hm) as (Hp2 & Hi & Hf). rewrite Hp in Hp2.
  injection Hp2 as -> ->.
  destruct (run_ops_spec ops _ _ Hi) as (hdr' & h2 & -> & Hi2 & _ & Hf2 & _);
    [unfold count; simpl; lia|].
  exists hdr', h2. split; [done|]. rewrite mem_destroy_spec by done. f_equal.
  by rewrite <- Hf, <- Hf2.
Qed.

Lemma pool_session_no_leak_witness :
  exists hdr' h', run_ops (Mphdr 1 false Leaf, {[1%positive]}) sample_ops = Ok (hdr', h') /\
    mem_destroy hdr' h' = Ok ∅.
Proof.
  apply (pool_session_no_leak false ∅ {[1%positive]} (Mphdr 1 false Leaf) sample_ops).
  - vm_compute. reflexivity.
  - vm_compute. reflexivity.
Defined.
