(* ===== verification/Params.v ===== *)
(** Configuration and shared data: params.h, the event types of conev.h, the
    socket addresses of proxy.h, and the constants of the system interface. *)
From S2P Require Import Prelude Packets Mpool.

(** * params.h *)
Definition OFFSET_SNI : Z := 1.
Definition OFFSET_HOST : Z := 2.
Definition OFFSET_END : Z := 3.

Definition DETECT_HTTP_LOCAT : Z := 1.
Definition DETECT_TLS_ERR : Z := 2.
Definition DETECT_TORST : Z := 8.

Inductive demode : Set :=
  | DESYNC_NONE
  | DESYNC_SPLIT
  | DESYNC_DISORDER
  | DESYNC_OOB
  | DESYNC_DISOOB
  | DESYNC_FAKE.
#[export] Instance demode_eq_dec : EqDecision demode.
Proof. solve_decision. Defined.

Record part : Type := Part { p_m : demode; p_flag : Z; p_pos : Z }.

(** [data] is the null pointer or the bytes from it to the end of its object. *)
Record packet : Type := Packet { pk_size : Z; pk_data : option (list Z) }.

Record desync_params : Type := DesyncParams {
  dp_ttl : Z;
  dp_ip_options : option (list Z);
  dp_ip_options_len : Z;
  dp_md5sig : bool;
  dp_fake_data : packet;
  dp_udp_fake_count : Z;
  dp_fake_offset : Z;
  dp_drop_sack : bool;
  dp_oob_char : Z * Z;
  dp_parts : list part;        (* with [parts_n] *)
  dp_mod_http : Z;
  dp_tlsrec : list part;       (* with [tlsrec_n] *)
  dp_proto : Z;
  dp_detect : Z;
  dp_hosts : option mphdr;
  dp_pf : Z * Z;
  dp_file_ptr : option (list Z);
  dp_file_size : Z
}.

(** * Socket addresses: the 28 bytes of [struct sockaddr_ina] (proxy.h)

    The members of the union share these bytes.  The program runs on
    little-endian processors, so a [uint16_t] in host order has its low byte
    first; ports and addresses are kept in network order. *)
Definition AF_INET : Z := 2.
Definition AF_INET6 : Z := 10.
Notation sockaddr := (list Z).
Definition zero_addr : sockaddr := replicate 28 0.

Definition get16 (b : list Z) (o : Z) : Z := byte_at b o + 256 * byte_at b (o + 1).
Definition put16 (b : list Z) (o v : Z) : list Z := put b o [u8 v; u8 (Z.shiftr v 8)].

Definition sa_family (a : sockaddr) : Z := get16 a 0.
Definition set_family (a : sockaddr) (f : Z) : sockaddr := put16 a 0 f.
(** [sin_port] and [sin6_port], as the [uint16_t] the program compares *)
Definition sin_port (a : sockaddr) : Z := get16 a 2.
Definition set_port (a : sockaddr) (p : Z) : sockaddr := put16 a 2 p.
Definition sin_addr (a : sockaddr) : list Z := sub a 4 4.
Definition sin6_addr (a : sockaddr) : list Z := sub a 8 16.

Definition sizeof_sockaddr_in : Z := 16.
Definition sizeof_sockaddr_in6 : Z := 28.
(** The macro [SA_SIZE]. *)
Definition SA_SIZE (a : sockaddr) : Z :=
  if sa_family a =? AF_INET6 then sizeof_sockaddr_in6 else sizeof_sockaddr_in.
(** The bytes a call that is given [&a, SA_SIZE(&a)] gets. *)
Definition sa_bytes (a : sockaddr) : list Z := sub a 0 (SA_SIZE a).

(** [htons] *)
Definition htons (v : Z) : Z := 256 * u8 v + u8 (Z.shiftr v 8).

Record params : Type := Params {
  ps_dp : list desync_params;   (* with [dp_count] *)
  ps_sfdelay : Z;
  ps_wait_send : bool;
  ps_def_ttl : Z;
  ps_custom_ttl : bool;
  ps_tfo : bool;
  ps_timeout : Z;
  ps_cache_ttl : Z;
  ps_ipv6 : bool;
  ps_resolve : bool; 
  ps_udp : bool;
  ps_max_open : Z;
  ps_debug : Z;
  ps_bfsize : Z;
  ps_baddr : sockaddr;
  ps_laddr : sockaddr;
  ps_mempool : option mphdr;
  ps_protect_path : option (list Z);
  ps_fake_tls : packet;         (* the globals of main.c *)
  ps_fake_http : packet;
  ps_fake_udp : packet
}.
Definition dp_count (p : params) : Z := zlen (ps_dp p).

(** A group as [add] of main.c leaves it: all zero. *)
Definition zero_group : desync_params :=
  DesyncParams 0 None 0 false (Packet 0 None) 0 0 false (0, 0) [] 0 [] 0 0 None (0, 0) None 0.
(** The initial values of the globals of main.c. *)
Definition initial_params : params :=
  Params [] 3 true 0 false false 0 100800 true true true 512 0 16384
    (set_family zero_addr AF_INET6) (set_family zero_addr AF_INET) None None
    (Packet 517 (Some tls_data)) (Packet 43 (Some http_data)) (Packet 64 (Some udp_data)).

(** Assignments to members. *)
Definition put_dp v (p : params) := Params v (ps_sfdelay p) (ps_wait_send p) (ps_def_ttl p) (ps_custom_ttl p)
  (ps_tfo p) (ps_timeout p) (ps_cache_ttl p) (ps_ipv6 p) (ps_resolve p) (ps_udp p) (ps_max_open p)
  (ps_debug p) (ps_bfsize p) (ps_baddr p) (ps_laddr p) (ps_mempool p) (ps_protect_path p) (ps_fake_tls p)
  (ps_fake_http p) (ps_fake_udp p).
Definition put_sfdelay v (p : params) := Params (ps_dp p) v (ps_wait_send p) (ps_def_ttl p) (ps_custom_ttl p)
  (ps_tfo p) (ps_timeout p) (ps_cache_ttl p) (ps_ipv6 p) (ps_resolve p) (ps_udp p) (ps_max_open p)
  (ps_debug p) (ps_bfsize p) (ps_baddr p) (ps_laddr p) (ps_mempool p) (ps_protect_path p) (ps_fake_tls p)
  (ps_fake_http p) (ps_fake_udp p).
Definition put_wait_send v (p : params) := Params (ps_dp p) (ps_sfdelay p) v (ps_def_ttl p) (ps_custom_ttl p)
  (ps_tfo p) (ps_timeout p) (ps_cache_ttl p) (ps_ipv6 p) (ps_resolve p) (ps_udp p) (ps_max_open p)
  (ps_debug p) (ps_bfsize p) (ps_baddr p) (ps_laddr p) (ps_mempool p) (ps_protect_path p) (ps_fake_tls p)
  (ps_fake_http p) (ps_fake_udp p).
Definition put_def_ttl v (p : params) := Params (ps_dp p) (ps_sfdelay p) (ps_wait_send p) v (ps_custom_ttl p)
  (ps_tfo p) (ps_timeout p) (ps_cache_ttl p) (ps_ipv6 p) (ps_resolve p) (ps_udp p) (ps_max_open p)
  (ps_debug p) (ps_bfsize p) (ps_baddr p) (ps_laddr p) (ps_mempool p) (ps_protect_path p) (ps_fake_tls p)
  (ps_fake_http p) (ps_fake_udp p).
Definition put_custom_ttl v (p : params) := Params (ps_dp p) (ps_sfdelay p) (ps_wait_send p) (ps_def_ttl p) v
  (ps_tfo p) (ps_timeout p) (ps_cache_ttl p) (ps_ipv6 p) (ps_resolve p) (ps_udp p) (ps_max_open p)
  (ps_debug p) (ps_bfsize p) (ps_baddr p) (ps_laddr p) (ps_mempool p) (ps_protect_path p) (ps_fake_tls p)
  (ps_fake_http p) (ps_fake_udp p).
Definition put_tfo v (p : params) := Params (ps_dp p) (ps_sfdelay p) (ps_wait_send p) (ps_def_ttl p)
  (ps_custom_ttl p) v (ps_timeout p) (ps_cache_ttl p) (ps_ipv6 p) (ps_resolve p) (ps_udp p) (ps_max_open p)
  (ps_debug p) (ps_bfsize p) (ps_baddr p) (ps_laddr p) (ps_mempool p) (ps_protect_path p) (ps_fake_tls p)
  (ps_fake_http p) (ps_fake_udp p).
Definition put_timeout v (p : params) := Params (ps_dp p) (ps_sfdelay p) (ps_wait_send p) (ps_def_ttl p)
  (ps_custom_ttl p) (ps_tfo p) v (ps_cache_ttl p) (ps_ipv6 p) (ps_resolve p) (ps_udp p) (ps_max_open p)
  (ps_debug p) (ps_bfsize p) (ps_baddr p) (ps_laddr p) (ps_mempool p) (ps_protect_path p) (ps_fake_tls p)
  (ps_fake_http p) (ps_fake_udp p).
Definition put_cache_ttl v (p : params) := Params (ps_dp p) (ps_sfdelay p) (ps_wait_send p) (ps_def_ttl p)
  (ps_custom_ttl p) (ps_tfo p) (ps_timeout p) v (ps_ipv6 p) (ps_resolve p) (ps_udp p) (ps_max_open p)
  (ps_debug p) (ps_bfsize p) (ps_baddr p) (ps_laddr p) (ps_mempool p) (ps_protect_path p) (ps_fake_tls p)
  (ps_fake_http p) (ps_fake_udp p).
Definition put_ipv6 v (p : params) := Params (ps_dp p) (ps_sfdelay p) (ps_wait_send p) (ps_def_ttl p)
  (ps_custom_ttl p) (ps_tfo p) (ps_timeout p) (ps_cache_ttl p) v (ps_resolve p) (ps_udp p) (ps_max_open p)
  (ps_debug p) (ps_bfsize p) (ps_baddr p) (ps_laddr p) (ps_mempool p) (ps_protect_path p) (ps_fake_tls p)
  (ps_fake_http p) (ps_fake_udp p).
Definition put_resolve v (p : params) := Params (ps_dp p) (ps_sfdelay p) (ps_wait_send p) (ps_def_ttl p)
  (ps_custom_ttl p) (ps_tfo p) (ps_timeout p) (ps_cache_ttl p) (ps_ipv6 p) v (ps_udp p) (ps_max_open p)
  (ps_debug p) (ps_bfsize p) (ps_baddr p) (ps_laddr p) (ps_mempool p) (ps_protect_path p) (ps_fake_tls p)
  (ps_fake_http p) (ps_fake_udp p).
Definition put_udp v (p : params) := Params (ps_dp p) (ps_sfdelay p) (ps_wait_send p) (ps_def_ttl p)
  (ps_custom_ttl p) (ps_tfo p) (ps_timeout p) (ps_cache_ttl p) (ps_ipv6 p) (ps_resolve p) v (ps_max_open p)
  (ps_debug p) (ps_bfsize p) (ps_baddr p) (ps_laddr p) (ps_mempool p) (ps_protect_path p) (ps_fake_tls p)
  (ps_fake_http p) (ps_fake_udp p).
Definition put_max_open v (p : params) := Params (ps_dp p) (ps_sfdelay p) (ps_wait_send p) (ps_def_ttl p)
  (ps_custom_ttl p) (ps_tfo p) (ps_timeout p) (ps_cache_ttl p) (ps_ipv6 p) (ps_resolve p) (ps_udp p) v
  (ps_debug p) (ps_bfsize p) (ps_baddr p) (ps_laddr p) (ps_mempool p) (ps_protect_path p) (ps_fake_tls p)
  (ps_fake_http p) (ps_fake_udp p).
Definition put_debug v (p : params) := Params (ps_dp p) (ps_sfdelay p) (ps_wait_send p) (ps_def_ttl p)
  (ps_custom_ttl p) (ps_tfo p) (ps_timeout p) (ps_cache_ttl p) (ps_ipv6 p) (ps_resolve p) (ps_udp p)
  (ps_max_open p) v (ps_bfsize p) (ps_baddr p) (ps_laddr p) (ps_mempool p) (ps_protect_path p) (ps_fake_tls p)
  (ps_fake_http p) (ps_fake_udp p).
Definition put_bfsize v (p : params) := Params (ps_dp p) (ps_sfdelay p) (ps_wait_send p) (ps_def_ttl p)
  (ps_custom_ttl p) (ps_tfo p) (ps_timeout p) (ps_cache_ttl p) (ps_ipv6 p) (ps_resolve p) (ps_udp p)
  (ps_max_open p) (ps_debug p) v (ps_baddr p) (ps_laddr p) (ps_mempool p) (ps_protect_path p) (ps_fake_tls p)
  (ps_fake_http p) (ps_fake_udp p).
Definition put_baddr v (p : params) := Params (ps_dp p) (ps_sfdelay p) (ps_wait_send p) (ps_def_ttl p)
  (ps_custom_ttl p) (ps_tfo p) (ps_timeout p) (ps_cache_ttl p) (ps_ipv6 p) (ps_resolve p) (ps_udp p)
  (ps_max_open p) (ps_debug p) (ps_bfsize p) v (ps_laddr p) (ps_mempool p) (ps_protect_path p) (ps_fake_tls p)
  (ps_fake_http p) (ps_fake_udp p).
Definition put_laddr v (p : params) := Params (ps_dp p) (ps_sfdelay p) (ps_wait_send p) (ps_def_ttl p)
  (ps_custom_ttl p) (ps_tfo p) (ps_timeout p) (ps_cache_ttl p) (ps_ipv6 p) (ps_resolve p) (ps_udp p)
  (ps_max_open p) (ps_debug p) (ps_bfsize p) (ps_baddr p) v (ps_mempool p) (ps_protect_path p) (ps_fake_tls p)
  (ps_fake_http p) (ps_fake_udp p).
Definition put_mempool v (p : params) := Params (ps_dp p) (ps_sfdelay p) (ps_wait_send p) (ps_def_ttl p)
  (ps_custom_ttl p) (ps_tfo p) (ps_timeout p) (ps_cache_ttl p) (ps_ipv6 p) (ps_resolve p) (ps_udp p)
  (ps_max_open p) (ps_debug p) (ps_bfsize p) (ps_baddr p) (ps_laddr p) v (ps_protect_path p) (ps_fake_tls p)
  (ps_fake_http p) (ps_fake_udp p).
Definition put_protect_path v (p : params) := Params (ps_dp p) (ps_sfdelay p) (ps_wait_send p) (ps_def_ttl p)
  (ps_custom_ttl p) (ps_tfo p) (ps_timeout p) (ps_cache_ttl p) (ps_ipv6 p) (ps_resolve p) (ps_udp p)
  (ps_max_open p) (ps_debug p) (ps_bfsize p) (ps_baddr p) (ps_laddr p) (ps_mempool p) v (ps_fake_tls p)
  (ps_fake_http p) (ps_fake_udp p).
Definition put_fake_tls v (p : params) := Params (ps_dp p) (ps_sfdelay p) (ps_wait_send p) (ps_def_ttl p)
  (ps_custom_ttl p) (ps_tfo p) (ps_timeout p) (ps_cache_ttl p) (ps_ipv6 p) (ps_resolve p) (ps_udp p)
  (ps_max_open p) (ps_debug p) (ps_bfsize p) (ps_baddr p) (ps_laddr p) (ps_mempool p) (ps_protect_path p) v
  (ps_fake_http p) (ps_fake_udp p).
Definition put_fake_http v (p : params) := Params (ps_dp p) (ps_sfdelay p) (ps_wait_send p) (ps_def_ttl p)
  (ps_custom_ttl p) (ps_tfo p) (ps_timeout p) (ps_cache_ttl p) (ps_ipv6 p) (ps_resolve p) (ps_udp p)
  (ps_max_open p) (ps_debug p) (ps_bfsize p) (ps_baddr p) (ps_laddr p) (ps_mempool p) (ps_protect_path p)
  (ps_fake_tls p) v (ps_fake_udp p).
Definition put_fake_udp v (p : params) := Params (ps_dp p) (ps_sfdelay p) (ps_wait_send p) (ps_def_ttl p)
  (ps_custom_ttl p) (ps_tfo p) (ps_timeout p) (ps_cache_ttl p) (ps_ipv6 p) (ps_resolve p) (ps_udp p)
  (ps_max_open p) (ps_debug p) (ps_bfsize p) (ps_baddr p) (ps_laddr p) (ps_mempool p) (ps_protect_path p)
  (ps_fake_tls p) (ps_fake_http p) v.
Definition put_dp_ttl v (p : desync_params) := DesyncParams v (dp_ip_options p) (dp_ip_options_len p)
  (dp_md5sig p) (dp_fake_data p) (dp_udp_fake_count p) (dp_fake_offset p) (dp_drop_sack p) (dp_oob_char p)
  (dp_parts p) (dp_mod_http p) (dp_tlsrec p) (dp_proto p) (dp_detect p) (dp_hosts p) (dp_pf p) (dp_file_ptr p)
  (dp_file_size p).
Definition put_dp_ip_options v (p : desync_params) := DesyncParams (dp_ttl p) v (dp_ip_options_len p)
  (dp_md5sig p) (dp_fake_data p) (dp_udp_fake_count p) (dp_fake_offset p) (dp_drop_sack p) (dp_oob_char p)
  (dp_parts p) (dp_mod_http p) (dp_tlsrec p) (dp_proto p) (dp_detect p) (dp_hosts p) (dp_pf p) (dp_file_ptr p)
  (dp_file_size p).
Definition put_dp_ip_options_len v (p : desync_params) := DesyncParams (dp_ttl p) (dp_ip_options p) v
  (dp_md5sig p) (dp_fake_data p) (dp_udp_fake_count p) (dp_fake_offset p) (dp_drop_sack p) (dp_oob_char p)
  (dp_parts p) (dp_mod_http p) (dp_tlsrec p) (dp_proto p) (dp_detect p) (dp_hosts p) (dp_pf p) (dp_file_ptr p)
  (dp_file_size p).
Definition put_dp_md5sig v (p : desync_params) := DesyncParams (dp_ttl p) (dp_ip_options p)
  (dp_ip_options_len p) v (dp_fake_data p) (dp_udp_fake_count p) (dp_fake_offset p) (dp_drop_sack p)
  (dp_oob_char p) (dp_parts p) (dp_mod_http p) (dp_tlsrec p) (dp_proto p) (dp_detect p) (dp_hosts p) (dp_pf p)
  (dp_file_ptr p) (dp_file_size p).
Definition put_dp_fake_data v (p : desync_params) := DesyncParams (dp_ttl p) (dp_ip_options p)
  (dp_ip_options_len p) (dp_md5sig p) v (dp_udp_fake_count p) (dp_fake_offset p) (dp_drop_sack p)
  (dp_oob_char p) (dp_parts p) (dp_mod_http p) (dp_tlsrec p) (dp_proto p) (dp_detect p) (dp_hosts p) (dp_pf p)
  (dp_file_ptr p) (dp_file_size p).
Definition put_dp_udp_fake_count v (p : desync_params) := DesyncParams (dp_ttl p) (dp_ip_options p)
  (dp_ip_options_len p) (dp_md5sig p) (dp_fake_data p) v (dp_fake_offset p) (dp_drop_sack p) (dp_oob_char p)
  (dp_parts p) (dp_mod_http p) (dp_tlsrec p) (dp_proto p) (dp_detect p) (dp_hosts p) (dp_pf p) (dp_file_ptr p)
  (dp_file_size p).
Definition put_dp_fake_offset v (p : desync_params) := DesyncParams (dp_ttl p) (dp_ip_options p)
  (dp_ip_options_len p) (dp_md5sig p) (dp_fake_data p) (dp_udp_fake_count p) v (dp_drop_sack p)
  (dp_oob_char p) (dp_parts p) (dp_mod_http p) (dp_tlsrec p) (dp_proto p) (dp_detect p) (dp_hosts p) (dp_pf p)
  (dp_file_ptr p) (dp_file_size p).
Definition put_dp_drop_sack v (p : desync_params) := DesyncParams (dp_ttl p) (dp_ip_options p)
  (dp_ip_options_len p) (dp_md5sig p) (dp_fake_data p) (dp_udp_fake_count p) (dp_fake_offset p) v
  (dp_oob_char p) (dp_parts p) (dp_mod_http p) (dp_tlsrec p) (dp_proto p) (dp_detect p) (dp_hosts p) (dp_pf p)
  (dp_file_ptr p) (dp_file_size p).
Definition put_dp_oob_char v (p : desync_params) := DesyncParams (dp_ttl p) (dp_ip_options p)
  (dp_ip_options_len p) (dp_md5sig p) (dp_fake_data p) (dp_udp_fake_count p) (dp_fake_offset p)
  (dp_drop_sack p) v (dp_parts p) (dp_mod_http p) (dp_tlsrec p) (dp_proto p) (dp_detect p) (dp_hosts p)
  (dp_pf p) (dp_file_ptr p) (dp_file_size p).
Definition put_dp_parts v (p : desync_params) := DesyncParams (dp_ttl p) (dp_ip_options p)
  (dp_ip_options_len p) (dp_md5sig p) (dp_fake_data p) (dp_udp_fake_count p) (dp_fake_offset p)
  (dp_drop_sack p) (dp_oob_char p) v (dp_mod_http p) (dp_tlsrec p) (dp_proto p) (dp_detect p) (dp_hosts p)
  (dp_pf p) (dp_file_ptr p) (dp_file_size p).
Definition put_dp_mod_http v (p : desync_params) := DesyncParams (dp_ttl p) (dp_ip_options p)
  (dp_ip_options_len p) (dp_md5sig p) (dp_fake_data p) (dp_udp_fake_count p) (dp_fake_offset p)
  (dp_drop_sack p) (dp_oob_char p) (dp_parts p) v (dp_tlsrec p) (dp_proto p) (dp_detect p) (dp_hosts p)
  (dp_pf p) (dp_file_ptr p) (dp_file_size p).
Definition put_dp_tlsrec v (p : desync_params) := DesyncParams (dp_ttl p) (dp_ip_options p)
  (dp_ip_options_len p) (dp_md5sig p) (dp_fake_data p) (dp_udp_fake_count p) (dp_fake_offset p)
  (dp_drop_sack p) (dp_oob_char p) (dp_parts p) (dp_mod_http p) v (dp_proto p) (dp_detect p) (dp_hosts p)
  (dp_pf p) (dp_file_ptr p) (dp_file_size p).
Definition put_dp_proto v (p : desync_params) := DesyncParams (dp_ttl p) (dp_ip_options p)
  (dp_ip_options_len p) (dp_md5sig p) (dp_fake_data p) (dp_udp_fake_count p) (dp_fake_offset p)
  (dp_drop_sack p) (dp_oob_char p) (dp_parts p) (dp_mod_http p) (dp_tlsrec p) v (dp_detect p) (dp_hosts p)
  (dp_pf p) (dp_file_ptr p) (dp_file_size p).
Definition put_dp_detect v (p : desync_params) := DesyncParams (dp_ttl p) (dp_ip_options p)
  (dp_ip_options_len p) (dp_md5sig p) (dp_fake_data p) (dp_udp_fake_count p) (dp_fake_offset p)
  (dp_drop_sack p) (dp_oob_char p) (dp_parts p) (dp_mod_http p) (dp_tlsrec p) (dp_proto p) v (dp_hosts p)
  (dp_pf p) (dp_file_ptr p) (dp_file_size p).
Definition put_dp_hosts v (p : desync_params) := DesyncParams (dp_ttl p) (dp_ip_options p)
  (dp_ip_options_len p) (dp_md5sig p) (dp_fake_data p) (dp_udp_fake_count p) (dp_fake_offset p)
  (dp_drop_sack p) (dp_oob_char p) (dp_parts p) (dp_mod_http p) (dp_tlsrec p) (dp_proto p) (dp_detect p) v
  (dp_pf p) (dp_file_ptr p) (dp_file_size p).
Definition put_dp_pf v (p : desync_params) := DesyncParams (dp_ttl p) (dp_ip_options p) (dp_ip_options_len p)
  (dp_md5sig p) (dp_fake_data p) (dp_udp_fake_count p) (dp_fake_offset p) (dp_drop_sack p) (dp_oob_char p)
  (dp_parts p) (dp_mod_http p) (dp_tlsrec p) (dp_proto p) (dp_detect p) (dp_hosts p) v (dp_file_ptr p)
  (dp_file_size p).
Definition put_dp_file_ptr v (p : desync_params) := DesyncParams (dp_ttl p) (dp_ip_options p)
  (dp_ip_options_len p) (dp_md5sig p) (dp_fake_data p) (dp_udp_fake_count p) (dp_fake_offset p)
  (dp_drop_sack p) (dp_oob_char p) (dp_parts p) (dp_mod_http p) (dp_tlsrec p) (dp_proto p) (dp_detect p)
  (dp_hosts p) (dp_pf p) v (dp_file_size p).
Definition put_dp_file_size v (p : desync_params) := DesyncParams (dp_ttl p) (dp_ip_options p)
  (dp_ip_options_len p) (dp_md5sig p) (dp_fake_data p) (dp_udp_fake_count p) (dp_fake_offset p)
  (dp_drop_sack p) (dp_oob_char p) (dp_parts p) (dp_mod_http p) (dp_tlsrec p) (dp_proto p) (dp_detect p)
  (dp_hosts p) (dp_pf p) (dp_file_ptr p) v.

Definition set_dp (p : params) (l : list desync_params) : params := put_dp l p.
Definition set_mempool (p : params) (m : option mphdr) : params := put_mempool m p.
Definition set_wait_send (p : params) (b : bool) : params := put_wait_send b p.

(** * conev.h *)
Inductive eid : Set :=
  | EV_ACCEPT
  | EV_REQUEST
  | EV_CONNECT
  | EV_IGNORE
  | EV_TUNNEL
  | EV_PRE_TUNNEL
  | EV_UDP_TUNNEL
  | EV_DESYNC.
#[export] Instance eid_eq_dec : EqDecision eid.
Proof. solve_decision. Defined.

Definition FLAG_S4 : Z := 1.
Definition FLAG_S5 : Z := 2.
Definition FLAG_CONN : Z := 4.

Definition POLLIN : Z := 1.
Definition POLLOUT : Z := 4.
Definition POLLERR : Z := 8.
Definition POLLHUP : Z := 16.
Definition POLLRDHUP : Z := 8192.

Record buffer : Type := Buffer { b_size : Z; b_offset : Z; b_data : option (list Z) }.
Definition no_buffer : buffer := Buffer 0 0 None.

(** A pointer to a [struct eval] is its index in [pool->items]. *)
Record eval : Type := MkEval {
  ev_fd : Z;
  ev_index : Z;
  ev_mod_iter : Z;
  ev_type : eid;
  ev_pair : option nat;
  ev_buff : buffer;
  ev_flag : Z;
  ev_in6 : sockaddr;
  ev_recv_count : Z;
  ev_attempt : Z;
  ev_cache : bool
}.
(** what [memset(val, 0, sizeof( *val))] leaves *)
Definition zero_eval : eval := MkEval 0 0 0 EV_ACCEPT None no_buffer 0 zero_addr 0 0 false.

Definition set_fd v (e : eval) := MkEval v (ev_index e) (ev_mod_iter e) (ev_type e) (ev_pair e) (ev_buff e) (ev_flag e) (ev_in6 e) (ev_recv_count e) (ev_attempt e) (ev_cache e).
Definition set_index v (e : eval) := MkEval (ev_fd e) v (ev_mod_iter e) (ev_type e) (ev_pair e) (ev_buff e) (ev_flag e) (ev_in6 e) (ev_recv_count e) (ev_attempt e) (ev_cache e).
Definition set_mod_iter v (e : eval) := MkEval (ev_fd e) (ev_index e) v (ev_type e) (ev_pair e) (ev_buff e) (ev_flag e) (ev_in6 e) (ev_recv_count e) (ev_attempt e) (ev_cache e).
Definition set_type v (e : eval) := MkEval (ev_fd e) (ev_index e) (ev_mod_iter e) v (ev_pair e) (ev_buff e) (ev_flag e) (ev_in6 e) (ev_recv_count e) (ev_attempt e) (ev_cache e).
Definition set_pair v (e : eval) := MkEval (ev_fd e) (ev_index e) (ev_mod_iter e) (ev_type e) v (ev_buff e) (ev_flag e) (ev_in6 e) (ev_recv_count e) (ev_attempt e) (ev_cache e).
Definition set_buff v (e : eval) := MkEval (ev_fd e) (ev_index e) (ev_mod_iter e) (ev_type e) (ev_pair e) v (ev_flag e) (ev_in6 e) (ev_recv_count e) (ev_attempt e) (ev_cache e).
Definition set_flag v (e : eval) := MkEval (ev_fd e) (ev_index e) (ev_mod_iter e) (ev_type e) (ev_pair e) (ev_buff e) v (ev_in6 e) (ev_recv_count e) (ev_attempt e) (ev_cache e).
Definition set_in6 v (e : eval) := MkEval (ev_fd e) (ev_index e) (ev_mod_iter e) (ev_type e) (ev_pair e) (ev_buff e) (ev_flag e) v (ev_recv_count e) (ev_attempt e) (ev_cache e).
Definition set_recv_count v (e : eval) := MkEval (ev_fd e) (ev_index e) (ev_mod_iter e) (ev_type e) (ev_pair e) (ev_buff e) (ev_flag e) (ev_in6 e) v (ev_attempt e) (ev_cache e).
Definition set_attempt v (e : eval) := MkEval (ev_fd e) (ev_index e) (ev_mod_iter e) (ev_type e) (ev_pair e) (ev_buff e) (ev_flag e) (ev_in6 e) (ev_recv_count e) v (ev_cache e).
Definition set_cache v (e : eval) := MkEval (ev_fd e) (ev_index e) (ev_mod_iter e) (ev_type e) (ev_pair e) (ev_buff e) (ev_flag e) (ev_in6 e) (ev_recv_count e) (ev_attempt e) v.

Record poolhd : Type := Pool {
  ph_max : Z;
  ph_count : Z;
  ph_efd : Z;
  ph_links : list nat;
  ph_items : list eval;
  ph_pevents : list (nat * Z);   (* what [epoll_wait] stored: [data.ptr], [events] *)
  ph_iters : Z
}.
Definition no_pool : poolhd := Pool 0 0 0 [] [] [] 0.

(** * The system interface (Linux) *)
Definition MSG_OOB : Z := 1.
Definition SOCK_STREAM : Z := 1.
Definition SOCK_DGRAM : Z := 2.
Definition SOCK_NONBLOCK : Z := 2048.
Definition SOL_SOCKET : Z := 1.
Definition SO_REUSEADDR : Z := 2.
Definition SO_ERROR : Z := 4.
Definition SO_RCVTIMEO : Z := 20.
Definition SO_SNDTIMEO : Z := 21.
Definition SO_ATTACH_FILTER : Z := 26.
Definition SO_DETACH_FILTER : Z := 27.
Definition IPPROTO_IP : Z := 0.
Definition IPPROTO_TCP : Z := 6.
Definition IPPROTO_IPV6 : Z := 41.
Definition IP_TTL : Z := 2.
Definition IP_OPTIONS : Z := 4.
Definition IPV6_UNICAST_HOPS : Z := 16.
Definition IPV6_V6ONLY : Z := 26.
Definition TCP_NODELAY : Z := 1.
Definition TCP_SYNCNT : Z := 7.
Definition TCP_INFO : Z := 11.
Definition TCP_MD5SIG : Z := 14.
Definition TCP_USER_TIMEOUT : Z := 18.
Definition TCP_FASTOPEN_CONNECT : Z := 30.
Definition EPOLL_CTL_ADD : Z := 1.
Definition EPOLL_CTL_DEL : Z := 2.
Definition EPOLL_CTL_MOD : Z := 3.
Definition EINTR : Z := 4.
Definition EAGAIN : Z := 11.
Definition ENETUNREACH : Z := 101.
Definition ECONNRESET : Z := 104.
Definition ETIMEDOUT : Z := 110.
Definition ECONNREFUSED : Z := 111.
Definition EHOSTUNREACH : Z := 113.
Definition EINPROGRESS : Z := 115.
