(* ===== verification/World.v ===== *)
(** The state of the program and of the system it runs on.

    The system is an arbitrary function [w_env] from the calls made so far, with
    their answers, to the answer of the next call: every theorem holds for all
    of them.  [sane] restricts the answers to those the manual pages allow (a
    [send] of n bytes accepts at most n, a new descriptor is not an open one,
    [epoll_wait] reports registered descriptors, ...); the kernel's tables that
    this needs, the open descriptors and the interest list of the epoll
    instance, are part of the state. *)
From S2P Require Import Prelude Mpool Params.

(** * System calls *)
Inductive sysreq : Type :=
  | SysSend (fd : Z) (data : list Z) (flags : Z)
  | SysSendto (fd : Z) (data : list Z) (addr : list Z)
  | SysSendfile (out_fd in_fd n : Z)
  | SysSendmsg (fd passed_fd : Z)
  | SysRecv (fd len : Z)
  | SysRecvfrom (fd len : Z)
  | SysSocket (domain type : Z)
  | SysAccept (fd : Z)
  | SysMemfd
  | SysEpollCreate (n : Z)
  | SysClose (fd : Z)
  | SysBind (fd : Z) (addr : list Z)
  | SysConnect (fd : Z) (addr : list Z)
  | SysListen (fd n : Z)
  | SysSetsockopt (fd level opt : Z) (val : list Z)
  | SysGetsockopt (fd level opt len : Z)
  | SysGetsockname (fd : Z)
  | SysGetpeername (fd : Z)
  | SysEpollCtl (op fd events : Z) (ptr : nat)
  | SysEpollWait (max : Z)
  | SysFtruncate (fd len : Z)
  | SysMmap (fd len : Z)
  | SysPoke (fd : Z) (data : list Z)   (* a store to a shared mapping of [fd] *)
  | SysMunmap (fd len : Z)
  | SysGetaddrinfo (host : list Z) (family socktype flags : Z)
  | SysTime
  | SysSleep (ms : Z)
  | SysAlloc (n : Z)                   (* whether [malloc] succeeds *)
  | SysReadFile (path : list Z)
  | SysSignal (sig : Z)
  | SysNonblock (fd : Z)               (* [ioctl (fd, FIONBIO, &one)] *)
  | SysYield (timeout : Z).            (* the tunnel's scheduler: fails when no time is left *)

(** The return value, the value of [errno] after a failure, the bytes stored
    (received data, an address, an option's value), the address stored by
    [recvfrom], and the events of [epoll_wait] as descriptors and flags. *)
Record sysrsp : Type := Rsp {
  r_ret : Z;
  r_errno : Z;
  r_data : list Z;
  r_addr : list Z;
  r_events : list (Z * Z)
}.
Notation trace := (list (sysreq * sysrsp)).   (* the newest call first *)

(** * State *)
Record world : Type := World {
  w_env : trace -> sysreq -> sysrsp;
  w_trace : trace;
  w_errno : Z;
  w_fds : gset Z;              (* open descriptors *)
  w_interest : gmap Z nat;     (* descriptors in the epoll instance, with [data.ptr] *)
  w_heap : heap;               (* blocks of the pools of mpool.c *)
  w_params : params;
  w_pool : poolhd;
  w_buf : list Z;              (* the work buffer of [event_loop] *)
  w_not_exit : bool            (* [NOT_EXIT] *)
}.
Definition with_trace v w := World (w_env w) v (w_errno w) (w_fds w) (w_interest w) (w_heap w) (w_params w) (w_pool w) (w_buf w) (w_not_exit w).
Definition with_errno v w := World (w_env w) (w_trace w) v (w_fds w) (w_interest w) (w_heap w) (w_params w) (w_pool w) (w_buf w) (w_not_exit w).
Definition with_fds v w := World (w_env w) (w_trace w) (w_errno w) v (w_interest w) (w_heap w) (w_params w) (w_pool w) (w_buf w) (w_not_exit w).
Definition with_interest v w := World (w_env w) (w_trace w) (w_errno w) (w_fds w) v (w_heap w) (w_params w) (w_pool w) (w_buf w) (w_not_exit w).
Definition with_heap v w := World (w_env w) (w_trace w) (w_errno w) (w_fds w) (w_interest w) v (w_params w) (w_pool w) (w_buf w) (w_not_exit w).
Definition with_params v w := World (w_env w) (w_trace w) (w_errno w) (w_fds w) (w_interest w) (w_heap w) v (w_pool w) (w_buf w) (w_not_exit w).
Definition with_pool v w := World (w_env w) (w_trace w) (w_errno w) (w_fds w) (w_interest w) (w_heap w) (w_params w) v (w_buf w) (w_not_exit w).
Definition with_buf v w := World (w_env w) (w_trace w) (w_errno w) (w_fds w) (w_interest w) (w_heap w) (w_params w) (w_pool w) v (w_not_exit w).
Definition with_not_exit v w := World (w_env w) (w_trace w) (w_errno w) (w_fds w) (w_interest w) (w_heap w) (w_params w) (w_pool w) (w_buf w) v.

(** * What answers are possible *)
Definition clip (lo hi z : Z) : Z := Z.max lo (Z.min hi z).
(** exactly [n] bytes *)
Definition fit (n : Z) (d : list Z) : list Z :=
  map u8 (take (Z.to_nat n) (d ++ replicate (Z.to_nat n) 0)).

Definition status (r : sysrsp) : sysrsp :=
  Rsp (if r_ret r <? 0 then -1 else 0) (r_errno r) (r_data r) (r_addr r) (r_events r).
Definition amount (lo hi : Z) (r : sysrsp) : sysrsp :=
  let n := clip lo hi (r_ret r) in
  Rsp n (r_errno r) (fit n (r_data r)) (fit 28 (r_addr r)) [].
Definition new_fd (fds : gset Z) (r : sysrsp) : sysrsp :=
  let ok := (2 <? r_ret r) && bool_decide (r_ret r ∉ fds) in
  Rsp (if ok then r_ret r else -1) (r_errno r) [] (fit 28 (r_addr r)) [].

Definition sane (w : world) (q : sysreq) (r : sysrsp) : sysrsp :=
  match q with
  | SysSend _ d _ | SysSendto _ d _ => amount (-1) (zlen d) r
  | SysSendfile _ _ n => amount (-1) n r
  | SysSendmsg _ _ => amount (-1) 1 r
  | SysRecv _ n | SysRecvfrom _ n => amount (-1) n r
  | SysSocket _ _ | SysAccept _ | SysMemfd | SysEpollCreate _ => new_fd (w_fds w) r
  | SysClose _ | SysSleep _ | SysSignal _ | SysMunmap _ _ | SysPoke _ _ => Rsp 0 0 [] [] []
  | SysGetsockopt _ level opt n =>
      let r := status r in
      let d := if (level =? IPPROTO_TCP) && (opt =? TCP_INFO)   (* may be shorter *)
               then map u8 (take (Z.to_nat n) (r_data r)) else fit n (r_data r) in
      Rsp (r_ret r) (r_errno r) d [] []
  | SysGetsockname _ | SysGetpeername _ | SysGetaddrinfo _ _ _ _ =>
      let r := status r in Rsp (r_ret r) (r_errno r) [] (fit 28 (r_addr r)) []
  | SysEpollWait n =>
      let ev := take (Z.to_nat n)
        (List.filter (fun e => bool_decide (is_Some (w_interest w !! e.1))) (r_events r)) in
      if r_ret r <? 0 then Rsp (-1) (r_errno r) [] [] [] else Rsp (zlen ev) 0 [] [] ev
  | SysTime => Rsp (clip 0 LONG_MAX (r_ret r)) 0 [] [] []
  | SysReadFile _ =>
      if r_ret r <? 0 then Rsp (-1) (r_errno r) [] [] []
      else Rsp (zlen (r_data r)) 0 (map u8 (r_data r)) [] []
  | _ => status r
  end.

(** What a call changes in the kernel's tables. *)
Definition kernel (q : sysreq) (r : sysrsp) (w : world) : world :=
  if r_ret r <? 0 then with_errno (r_errno r) w else
  match q with
  | SysSocket _ _ | SysAccept _ | SysMemfd | SysEpollCreate _ =>
      with_fds ({[r_ret r]} ∪ w_fds w) w
  | SysClose fd =>
      with_fds (w_fds w ∖ {[fd]}) (with_interest (delete fd (w_interest w)) w)
  | SysEpollCtl op fd _ ptr =>
      with_interest (if op =? EPOLL_CTL_DEL then delete fd (w_interest w)
                     else <[fd := ptr]> (w_interest w)) w
  | _ => w
  end.

(** * Effects *)
Definition io (A : Type) : Type := world -> res (A * world).

#[export] Instance io_ret : MRet io := fun A a w => Ok (a, w).
#[export] Instance io_bind : MBind io := fun A B f m w =>
  match m w with Ok (a, w') => f a w' | Fault e => Fault e end.

Definition get {A} (f : world -> A) : io A := fun w => Ok (f w, w).
Definition modify (f : world -> world) : io unit := fun w => Ok (tt, f w).
Definition fault {A} (e : fault) : io A := fun _ => Fault e.
(** A routine on buffers, as an effect. *)
Definition lift {A} (m : res A) : io A := fun w =>
  match m with Ok a => Ok (a, w) | Fault e => Fault e end.
Definition c_assert (b : bool) : io unit := if b then mret tt else fault AssertFail.

Definition sys (q : sysreq) : io sysrsp := fun w =>
  let r := sane w q (w_env w (w_trace w) q) in
  Ok (r, with_trace ((q, r) :: w_trace w) (kernel q r w)).
(** A call of which only the return value is used. *)
Definition call (q : sysreq) : io Z := r ← sys q; mret (r_ret r).

(** Closing a descriptor that is not open would hit whatever gets the number
    next. *)
Definition close (fd : Z) : io unit := fun w =>
  if decide (fd ∈ w_fds w) then (r ← sys (SysClose fd); mret tt) w else Fault BadFree.

Definition get_e : io Z := get w_errno.

(** [ *val]; a pointer is always to an item of the pool. *)
Definition item (v : nat) : io eval := fun w =>
  match ph_items (w_pool w) !! v with Some e => Ok (e, w) | None => Fault OutOfBounds end.
Definition set_items (l : list eval) (p : poolhd) : poolhd :=
  Pool (ph_max p) (ph_count p) (ph_efd p) (ph_links p) l (ph_pevents p) (ph_iters p).
Definition upd (v : nat) (f : eval -> eval) : io unit := fun w =>
  match ph_items (w_pool w) !! v with
  | Some e => Ok (tt, with_pool (set_items (<[v := f e]> (ph_items (w_pool w))) (w_pool w)) w)
  | None => Fault OutOfBounds
  end.
(** [val->pair], dereferenced *)
Definition pair_of (v : nat) : io nat :=
  e ← item v;
  match ev_pair e with Some p => mret p | None => fault NullDeref end.

(** [params.dp[m]] *)
Definition dp_at (m : Z) : io desync_params :=
  ps ← get w_params;
  match (if 0 <=? m then ps_dp ps !! Z.to_nat m else None) with
  | Some d => mret d
  | None => fault OutOfBounds
  end.

Lemma dp_at_ok m dp w :
  0 <= m -> ps_dp (w_params w) !! Z.to_nat m = Some dp -> dp_at m w = Ok (dp, w).
Proof.
  intros Hm H. unfold dp_at, mbind, io_bind, get. replace (0 <=? m) with true by lia. by rewrite H.
Qed.

(** The work buffer: [len] bytes read at, and stored from, an offset. *)
Definition buf_get (o n : Z) : io (list Z) := b ← get w_buf; lift (rdn b o n).
Definition buf_put (o : Z) (d : list Z) : io unit :=
  b ← get w_buf; b ← lift (wrn b o d); modify (with_buf b).

(** An [int] as an option value. *)
Definition le32 (v : Z) : list Z :=
  [u8 v; u8 (Z.shiftr v 8); u8 (Z.shiftr v 16); u8 (Z.shiftr v 24)].
Definition get32 (b : list Z) (o : Z) : Z :=
  byte_at b o + 2 ^ 8 * byte_at b (o + 1) + 2 ^ 16 * byte_at b (o + 2) + 2 ^ 24 * byte_at b (o + 3).

(** * Weakest preconditions *)
Definition wp {A} (m : io A) (Q : A -> world -> Prop) (w : world) : Prop :=
  match m w with Ok (a, w') => Q a w' | Fault _ => False end.
(** the same, for runs that may fault *)
Definition wlp {A} (m : io A) (Q : A -> world -> Prop) (w : world) : Prop :=
  match m w with Ok (a, w') => Q a w' | Fault _ => True end.

Section Wp.
Context {A B : Type}.
Implicit Types (Q : A -> world -> Prop).

Lemma wp_ret (a : A) Q w : Q a w -> wp (mret a) Q w.
Proof. done. Qed.
Lemma wp_bind (m : io A) (f : A -> io B) (Q : B -> world -> Prop) w :
  wp m (fun a w => wp (f a) Q w) w -> wp (m ≫= f) Q w.
Proof. unfold wp, mbind, io_bind. by destruct (m w) as [[]|]. Qed.
Lemma wp_mono (m : io A) Q Q' w :
  wp m Q w -> (forall a w, Q a w -> Q' a w) -> wp m Q' w.
Proof. unfold wp. destruct (m w) as [[]|]; auto. Qed.
Lemma wp_get (f : world -> A) Q w : Q (f w) w -> wp (get f) Q w.
Proof. done. Qed.
Lemma wp_modify (f : world -> world) (Q : unit -> world -> Prop) w : Q tt (f w) -> wp (modify f) Q w.
Proof. done. Qed.
Lemma wp_lift (m : res A) Q w : succeeds m (fun a => Q a w) -> wp (lift m) Q w.
Proof. unfold wp, lift. by destruct m. Qed.
Lemma wp_Ok (m : io A) Q w : wp m Q w -> exists a w', m w = Ok (a, w') /\ Q a w'.
Proof. unfold wp. destruct (m w) as [[a w']|]; [eauto|done]. Qed.

Lemma wlp_ret (a : A) Q w : Q a w -> wlp (mret a) Q w.
Proof. done. Qed.
Lemma wlp_bind (m : io A) (f : A -> io B) (Q : B -> world -> Prop) w :
  wlp m (fun a w => wlp (f a) Q w) w -> wlp (m ≫= f) Q w.
Proof. unfold wlp, mbind, io_bind. by destruct (m w) as [[]|]. Qed.
Lemma wlp_mono (m : io A) Q Q' w :
  wlp m Q w -> (forall a w, Q a w -> Q' a w) -> wlp m Q' w.
Proof. unfold wlp. destruct (m w) as [[]|]; auto. Qed.
Lemma wlp_wp (m : io A) Q w : wp m Q w -> wlp m Q w.
Proof. unfold wlp, wp. by destruct (m w) as [[]|]. Qed.
End Wp.

Lemma wp_sys q Q w :
  (forall r, r = sane w q (w_env w (w_trace w) q) ->
     Q r (with_trace ((q, r) :: w_trace w) (kernel q r w))) ->
  wp (sys q) Q w.
Proof. intros H. by apply H. Qed.

(** ** The primitives *)
Lemma wp_close fd Q w :
  fd ∈ w_fds w ->
  (forall r, r_ret r = 0 ->
     Q tt (with_trace ((SysClose fd, r) :: w_trace w) (kernel (SysClose fd) r w))) ->
  wp (close fd) Q w.
Proof.
  intros Hfd H. unfold wp, close. rewrite decide_True by done.
  match goal with |- match ?m w with _ => _ end => change (wp m Q w) end.
  apply wp_bind, wp_sys. intros r Hr. apply wp_ret, H. by rewrite Hr.
Qed.

Lemma wp_call q Q w :
  (forall r, r = sane w q (w_env w (w_trace w) q) ->
     Q (r_ret r) (with_trace ((q, r) :: w_trace w) (kernel q r w))) ->
  wp (call q) Q w.
Proof. intros H. apply wp_bind, wp_sys. intros r Hr. by apply wp_ret, H. Qed.
Lemma wp_item v e Q w : ph_items (w_pool w) !! v = Some e -> Q e w -> wp (item v) Q w.
Proof. intros H HQ. unfold wp, item. by rewrite H. Qed.
Lemma wp_upd v f e Q w :
  ph_items (w_pool w) !! v = Some e ->
  Q tt (with_pool (set_items (<[v := f e]> (ph_items (w_pool w))) (w_pool w)) w) ->
  wp (upd v f) Q w.
Proof. intros H HQ. unfold wp, upd. by rewrite H. Qed.
Lemma wp_assert b (Q : unit -> world -> Prop) w : b = true -> Q tt w -> wp (c_assert b) Q w.
Proof. intros -> HQ. done. Qed.
Lemma wp_pair_of v e q Q w :
  ph_items (w_pool w) !! v = Some e -> ev_pair e = Some q -> Q q w -> wp (pair_of v) Q w.
Proof. intros He Hq HQ. apply wp_bind. eapply wp_item; [done|]. rewrite Hq. by apply wp_ret. Qed.

(** * A system where every call succeeds

    Sockets take all the data at once, get new numbers and have sent
    everything; used to show that the hypotheses of theorems can hold. *)
Definition env_ok (tr : trace) (q : sysreq) : sysrsp :=
  match q with
  | SysSocket _ _ | SysAccept _ | SysMemfd | SysEpollCreate _ => Rsp (10 + zlen tr) 0 [] [] []
  | SysGetsockopt _ _ _ _ => Rsp 0 0 (1 :: replicate 231 0) [] []
  | SysSend _ d _ | SysSendto _ d _ => Rsp (zlen d) 0 [] [] []
  | SysSendfile _ _ n => Rsp n 0 [] [] []
  | _ => Rsp 0 0 [] zero_addr []
  end.
(** A program that has just started in it, with a group and a work buffer; the
    descriptors below 10 are open. *)
Definition world_ok (dp : list desync_params) (buf : list Z) : world :=
  World env_ok [] 0 (list_to_set (seqZ 0 10)) ∅ ∅ (set_dp initial_params dp) no_pool buf true.
