(* ===== verification/Desync.v ===== *)
(** desync.c: sending the first bytes of a connection in parts, with fake,
    out-of-order and urgent data in between.

    [buffer] is the work buffer; the C pointers [buffer + lp] are offsets into
    it.  Only the Linux branches are modelled.  Log output is left out. *)
From S2P Require Import Prelude CLib Packets Mpool Params World.

(** * Socket options *)
Definition get_family (dst : sockaddr) : Z :=
  if sa_family dst =? AF_INET6 then
    if bool_decide (sub (sin6_addr dst) 0 12 = [0; 0; 0; 0; 0; 0; 0; 0; 0; 0; 255; 255])
    then AF_INET else AF_INET6
  else sa_family dst.

Definition setttl (fd ttl family : Z) : io Z :=
  if family =? AF_INET then
    r ← call (SysSetsockopt fd IPPROTO_IP IP_TTL (le32 ttl));
    mret (if r <? 0 then -1 else 0)
  else
    r ← call (SysSetsockopt fd IPPROTO_IPV6 IPV6_UNICAST_HOPS (le32 ttl));
    mret (if r <? 0 then -1 else 0).

(** A classic BPF instruction: code, jt, jf, k. *)
Definition sock_filter (code jt jf k : Z) : list Z :=
  [u8 code; u8 (Z.shiftr code 8); jt; jf] ++ le32 k.
Definition sack_filter : list Z :=
  sock_filter 48 0 0 12 ++ sock_filter 116 0 0 4 ++ sock_filter 53 0 3 11 ++
  sock_filter 48 0 0 34 ++ sock_filter 21 0 1 5 ++ sock_filter 6 0 0 0 ++
  sock_filter 6 0 0 262144.

Definition c_drop_sack (fd : Z) : io Z :=
  r ← call (SysSetsockopt fd SOL_SOCKET SO_ATTACH_FILTER sack_filter);
  mret (if r =? -1 then -1 else 0).

(** * Waiting *)
Definition delay (ms : Z) : io unit := _ ← call (SysSleep ms); mret tt.

(** [struct tcp_info]: [tcpi_state] is its first byte; [tcpi_notsent_bytes] is
    at offset 144. *)
Definition sizeof_tcp_info : Z := 232.
Definition tcpi_notsent_offset : Z := 144.

(** [i] rounds of the loop are left. *)
Fixpoint wait_send_loop (i : nat) (sfd : Z) : io unit :=
  ps ← get w_params;
  match i with
  | O => delay (ps_sfdelay ps)
  | S i =>
      if negb (ps_wait_send ps) then delay (ps_sfdelay ps) else
      r ← sys (SysGetsockopt sfd IPPROTO_TCP TCP_INFO sizeof_tcp_info);
      if r_ret r <? 0 then delay (ps_sfdelay ps) else
      (* the bytes the kernel did not store keep their initial zero *)
      let tcpi := r_data r ++ replicate (Z.to_nat sizeof_tcp_info - length (r_data r)) 0 in
      if negb (byte_at tcpi 0 =? 1) then mret tt else
      if zlen (r_data r) <? tcpi_notsent_offset then
        _ ← modify (fun w => with_params (set_wait_send (w_params w) false) w);
        delay (ps_sfdelay ps)
      else if get32 tcpi tcpi_notsent_offset =? 0 then mret tt
      else _ ← delay 1; wait_send_loop i sfd
  end.
Definition wait_send (sfd : Z) : io unit := wait_send_loop 500 sfd.
Definition wait_send_if_support (sfd : Z) : io unit :=
  ps ← get w_params; if ps_wait_send ps then wait_send sfd else mret tt.

(** * Fake data *)

(** The packet to fake with: [fake_data] of the group or the default one, from
    [fake_offset] on. *)
Definition fake_packet (dflt : packet) (opt : desync_params) : packet :=
  let pkt := match pk_data (dp_fake_data opt) with
             | Some _ => dp_fake_data opt
             | None => dflt
             end in
  if negb (dp_fake_offset opt =? 0) then
    if dp_fake_offset opt <? pk_size pkt
    then Packet (pk_size pkt - dp_fake_offset opt)
                (drop (Z.to_nat (dp_fake_offset opt)) <$> pk_data pkt)
    else Packet 0 (pk_data pkt)
  else pkt.

(** The first [n] bytes of a packet. *)
Definition packet_bytes (pkt : packet) (n : Z) : res (list Z) :=
  match pk_data pkt with
  | Some d => rdn d 0 n
  | None => if n =? 0 then mret [] else Fault NullDeref
  end.

(** [struct tcp_md5sig] *)
Definition tcp_md5sig (addr : sockaddr) (keylen : Z) : list Z :=
  addr ++ replicate 100 0 ++ [0; 0; keylen; 0] ++ replicate 84 0.

Definition set_md5sig (opt : desync_params) (sfd : Z) (addr : sockaddr) (keylen : Z) : io Z :=
  if dp_md5sig opt
  then call (SysSetsockopt sfd IPPROTO_TCP TCP_MD5SIG (tcp_md5sig addr keylen))
  else mret 0.
(** [len] bytes of the options, of which 0 remove them again *)
Definition set_ip_options (opt : desync_params) (sfd fa len : Z) : io Z :=
  match dp_ip_options opt with
  | Some o => if fa =? AF_INET
              then d ← lift (rdn o 0 len); call (SysSetsockopt sfd IPPROTO_IP IP_OPTIONS d)
              else mret 0
  | None => mret 0
  end.

(** The [while (1)] body, each [break] a result: whether [p] is mapped, and
    [len]. *)
Definition send_fake_body (sfd ffd off pos fa : Z) (opt : desync_params) (pkt : packet)
    (addr : sockaddr) : io (bool * Z) :=
  r ← call (SysFtruncate ffd pos);
  if r <? 0 then mret (false, -1) else
  r ← call (SysMmap ffd pos);
  if r <? 0 then mret (false, -1) else
  d ← lift (packet_bytes pkt (if pk_size pkt <? pos then pk_size pkt else pos));
  _ ← call (SysPoke ffd d);
  r ← setttl sfd (if negb (dp_ttl opt =? 0) then dp_ttl opt else 8) fa;
  if r <? 0 then mret (true, -1) else
  r ← set_md5sig opt sfd addr 5;
  if r <? 0 then mret (true, -1) else
  r ← set_ip_options opt sfd fa (dp_ip_options_len opt);
  if r <? 0 then mret (true, -1) else
  len ← call (SysSendfile sfd ffd pos);
  if len <? 0 then mret (true, len) else
  _ ← wait_send sfd;
  d ← buf_get off pos;
  _ ← call (SysPoke ffd d);
  ps ← get w_params;
  r ← setttl sfd (ps_def_ttl ps) fa;
  if r <? 0 then mret (true, len) else
  r ← set_ip_options opt sfd fa 0;
  if r <? 0 then mret (true, len) else
  _ ← set_md5sig opt sfd addr 0;
  mret (true, len).

Definition send_fake (sfd off cnt pos fa : Z) (opt : desync_params) : io Z :=
  r ← (if dp_md5sig opt then sys (SysGetpeername sfd) else mret (Rsp 0 0 [] zero_addr []));
  if r_ret r <? 0 then mret (-1) else
  ps ← get w_params;
  let pkt := fake_packet (if negb (cnt =? IS_HTTP) then ps_fake_tls ps else ps_fake_http ps) opt in
  ffd ← call SysMemfd;
  if ffd <? 0 then mret (-1) else
  '(p, len) ← send_fake_body sfd ffd off pos fa opt pkt (r_addr r);
  _ ← (if (p : bool) then call (SysMunmap ffd pos) else mret 0);
  _ ← close ffd;
  mret len.

(** * Sending parts *)
Definition send_oob (sfd off pos : Z) (c : Z * Z) : io Z :=
  rchar ← buf_get (off + pos) 1;
  _ ← buf_put (off + pos) [if negb (c.2 =? 0) then c.1 else chr "a"];
  d ← buf_get off (pos + 1);
  len ← call (SysSend sfd d MSG_OOB);
  _ ← buf_put (off + pos) rchar;
  if len <? 0 then mret (-1) else
  _ ← wait_send_if_support sfd;
  mret (len - 1).

Definition send_disorder (sfd off pos fa : Z) : io Z :=
  r ← setttl sfd 1 fa;
  if r <? 0 then mret (-1) else
  d ← buf_get off pos;
  len ← call (SysSend sfd d 0);
  _ ← (if len <? 0 then mret tt else wait_send_if_support sfd);
  ps ← get w_params;
  r ← setttl sfd (ps_def_ttl ps) fa;
  if r <? 0 then mret (-1) else mret len.

Definition send_late_oob (sfd off pos fa : Z) (c : Z * Z) : io Z :=
  r ← setttl sfd 1 fa;
  if r <? 0 then mret (-1) else
  len ← send_oob sfd off pos c;
  ps ← get w_params;
  r ← setttl sfd (ps_def_ttl ps) fa;
  if r <? 0 then mret (-1) else mret len.

(** * desync *)

(** The kind of the packet and the position of its host. *)
Definition classify (b : list Z) (n : Z) : res (Z * Z) :=
  '(len, host) ← parse_tls b n;
  if negb (len =? 0) then mret (IS_HTTPS, default 0 host) else
  ph ← parse_http b n false;
  if negb (hh_len ph =? 0) then mret (IS_HTTP, default 0 (hh_hs ph)) else mret (0, 0).

(** Lines 455-478: cutting the TLS record; [i] is the index of the next part.
    The buffer and [n] afterwards. *)
Fixpoint tlsrec_loop (ts : list part) (i : Z) (b : list Z) (bfsize n lp host : Z)
    : res (list Z * Z) :=
  match ts with
  | [] => mret (b, n)
  | part :: ts =>
      let pos := p_pos part + i * 5 in
      let pos := if p_flag part =? OFFSET_SNI then pos + (host - 5)
                 else if pos <? 0 then pos + n else pos in
      if pos <? lp then mret (b, n) else
      '(r, d) ← part_tls (drop (Z.to_nat lp) b) (bfsize - lp) (n - lp) (pos - lp);
      let b := take (Z.to_nat lp) b ++ d in
      if r =? 0 then mret (b, n) else tlsrec_loop ts (i + 1) b bfsize (n + 5) (pos + 5) host
  end.

(** The position of a part; [None] when it does not apply to the packet. *)
Definition part_pos (part : part) (type host n : Z) : option Z :=
  if p_flag part =? OFFSET_SNI then
    if negb (type =? IS_HTTPS) then None else Some (p_pos part + host)
  else if p_flag part =? OFFSET_HOST then
    if negb (type =? IS_HTTP) then None else Some (p_pos part + host)
  else if (p_pos part <? 0) || (p_flag part =? OFFSET_END) then Some (p_pos part + n)
  else Some (p_pos part).

(** The [switch (part.m)]. *)
Definition send_part (m : demode) (sfd type lp pos fa : Z) (opt : desync_params) : io Z :=
  match m with
  | DESYNC_FAKE =>
      if negb (pos =? lp) then send_fake sfd lp type (pos - lp) fa opt else mret 0
  | DESYNC_DISORDER => send_disorder sfd lp (pos - lp) fa
  | DESYNC_OOB => send_oob sfd lp (pos - lp) (dp_oob_char opt)
  | DESYNC_DISOOB => send_late_oob sfd lp (pos - lp) fa (dp_oob_char opt)
  | DESYNC_SPLIT | DESYNC_NONE =>
      d ← buf_get lp (pos - lp);
      s ← call (SysSend sfd d 0);
      _ ← wait_send_if_support sfd;
      mret s
  end.

Inductive step (A : Type) : Type := Return (v : Z) | Next (a : A).
Arguments Return {_} _.
Arguments Next {_} _.

Fixpoint parts_loop (l : list part) (sfd type host n offset lp fa : Z) (opt : desync_params)
    : io (step Z) :=
  match l with
  | [] => mret (Next lp)
  | part :: l =>
      match part_pos part type host n with
      | None => parts_loop l sfd type host n offset lp fa opt
      | Some pos =>
          if negb (offset =? 0) && (pos <=? offset)
          then parts_loop l sfd type host n offset lp fa opt
          else if (pos <? 0) || (n <? pos) || (pos <? lp) then mret (Next lp)
          else
            s ← send_part (p_m part) sfd type lp pos fa opt;
            if s <? 0 then
              e ← get_e; mret (Return (if e =? EAGAIN then lp else -1))
            else if negb (s =? pos - lp) then mret (Return (lp + s))
            else parts_loop l sfd type host n offset pos fa opt
      end
  end.

(** Lines 446-479: the packet modified; [None] is the early return of -1. *)
Definition modify_packet (dp : desync_params) (b : list Z) (bfsize n type host : Z)
    : res (option (list Z * Z)) :=
  if (type =? IS_HTTP) && negb (dp_mod_http dp =? 0) then
    '(r, b) ← mod_http b n (dp_mod_http dp);
    mret (if negb (r =? 0) then None else Some (b, n))
  else if (type =? IS_HTTPS) && negb (zlen (dp_tlsrec dp) =? 0) then
    x ← tlsrec_loop (dp_tlsrec dp) 0 b bfsize n 0 host; mret (Some x)
  else mret (Some (b, n)).

Definition desync (sfd bfsize n offset : Z) (dst : sockaddr) (dp_c : Z) : io Z :=
  dp ← dp_at dp_c;
  let fa := get_family dst in
  b ← get w_buf;
  '(type, host) ← lift (classify b n);
  m ← lift (modify_packet dp b bfsize n type host);
  match m with
  | None => mret (-1)
  | Some (b, n) =>
      _ ← modify (with_buf b);
      r ← (if dp_drop_sack dp then c_drop_sack sfd else mret 0);
      if negb (r =? 0) then mret (-1) else
      s ← parts_loop (dp_parts dp) sfd type host n offset offset fa dp;
      match s with
      | Return v => mret v
      | Next lp =>
          if lp <? n then
            d ← buf_get lp (n - lp);
            r ← call (SysSend sfd d 0);
            if r <? 0 then e ← get_e; mret (if e =? EAGAIN then lp else -1) else mret n
          else mret n
      end
  end.

Definition post_desync (sfd dp_c : Z) : io Z :=
  dp ← dp_at dp_c;
  if dp_drop_sack dp then
    r ← call (SysSetsockopt sfd SOL_SOCKET SO_DETACH_FILTER (le32 dp_c));
    mret (if r =? -1 then -1 else 0)
  else mret 0.

(** [for (i = 0; i < udp_fake_count; i++)] with [k] rounds left *)
Fixpoint udp_fake_loop (k : nat) (sfd : Z) (pkt : packet) (dst : sockaddr) : io bool :=
  match k with
  | O => mret true
  | S k =>
      d ← lift (packet_bytes pkt (pk_size pkt));
      len ← call (SysSendto sfd d (sub dst 0 sizeof_sockaddr_in6));
      if len <? 0 then mret false else udp_fake_loop k sfd pkt dst
  end.

(** [off] is the offset of [buffer] in the work buffer. *)
Definition desync_udp (sfd off n : Z) (dst : sockaddr) (dp_c : Z) : io Z :=
  dp ← dp_at dp_c;
  let fa := get_family dst in
  ps ← get w_params;
  let send_it := d ← buf_get off n; call (SysSendto sfd d (sub dst 0 sizeof_sockaddr_in6)) in
  if negb (dp_udp_fake_count dp =? 0) then
    let pkt := fake_packet (ps_fake_udp ps) dp in
    r ← setttl sfd (if negb (dp_ttl dp =? 0) then dp_ttl dp else 8) fa;
    if r <? 0 then mret (-1) else
    ok ← udp_fake_loop (Z.to_nat (dp_udp_fake_count dp)) sfd pkt dst;
    if negb ok then mret (-1) else
    ps ← get w_params;
    r ← setttl sfd (ps_def_ttl ps) fa;
    if r <? 0 then mret (-1) else send_it
  else send_it.
