(* ===== verification/Stream.v ===== *)
(** What a peer receives: the byte stream of a descriptor, computed from the
    trace of system calls, and the frame that the routines of desync.c keep. *)
From S2P Require Import Prelude Mpool Params World.

(** * The stream of a descriptor

    A byte sent with [MSG_OOB] as the last of an accepted block is urgent data:
    it is not part of the stream.  The bytes sent from a file by [sendfile] are
    taken from its pages whenever they are (re)transmitted, so that what the
    peer gets is what was stored there last: going back in time, [m] has the
    content of each file. *)
Definition sent_bytes (d : list Z) (flags r : Z) : list Z :=
  if (flags =? MSG_OOB) && (r =? zlen d) then sub d 0 (r - 1) else sub d 0 r.

Fixpoint stream_at (m : gmap Z (list Z)) (fd : Z) (tr : trace) : list Z :=
  match tr with
  | [] => []
  | (q, r) :: tr =>
      match q with
      | SysSend f d flags =>
          stream_at m fd tr ++ (if f =? fd then sent_bytes d flags (r_ret r) else [])
      | SysSendfile f ffd _ =>
          stream_at m fd tr ++
          (if f =? fd then sub (default [] (m !! ffd)) 0 (r_ret r) else [])
      | SysPoke ffd d => stream_at (if decide (is_Some (m !! ffd)) then m else <[ffd := d]> m) fd tr
      | SysMemfd => stream_at (delete (r_ret r) m) fd tr
      | _ => stream_at m fd tr
      end
  end.
Definition stream (fd : Z) (tr : trace) : list Z := stream_at ∅ fd tr.

(** [d] is what the calls [new] add to the stream; in general, with the content
    of files before ([m']) and after ([m]) them. *)
Definition adds_at (m m' : gmap Z (list Z)) (fd : Z) (new : trace) (d : list Z) : Prop :=
  forall old, stream_at m fd (new ++ old) = stream_at m' fd old ++ d.
Definition adds (fd : Z) (new : trace) (d : list Z) : Prop := adds_at ∅ ∅ fd new d.

Lemma adds_nil m fd : adds_at m m fd [] [].
Proof. intros old. by rewrite app_nil_r. Qed.
Lemma adds_app m1 m2 m3 fd new1 new2 d1 d2 :
  adds_at m2 m1 fd new1 d1 -> adds_at m3 m2 fd new2 d2 ->
  adds_at m3 m1 fd (new2 ++ new1) (d1 ++ d2).
Proof. intros H1 H2 old. by rewrite <- app_assoc, H2, H1, app_assoc. Qed.

(** Calls that add nothing. *)
Definition quiet (q : sysreq) : bool :=
  match q with SysSend _ _ _ | SysSendfile _ _ _ | SysPoke _ _ | SysMemfd => false | _ => true end.
(** Calls that neither open nor close a descriptor. *)
Definition nofd (q : sysreq) : bool :=
  match q with
  | SysSocket _ _ | SysAccept _ | SysMemfd | SysEpollCreate _ | SysClose _ => false
  | _ => true
  end.
Definition quiet_trace (new : trace) : Prop := Forall (fun e => quiet e.1 = true) new.

Lemma adds_quiet m fd new : quiet_trace new -> adds_at m m fd new [].
Proof.
  induction 1 as [|[q r] new Hq _ IH]; [apply adds_nil|]. intros old.
  rewrite app_nil_r. simpl. specialize (IH old). rewrite app_nil_r in IH.
  destruct q; done.
Qed.
Lemma adds_send m fd d flags r :
  adds_at m m fd [(SysSend fd d flags, r)] (sent_bytes d flags (r_ret r)).
Proof. intros old. simpl. by rewrite Z.eqb_refl. Qed.
Lemma adds_sendfile m fd ffd n r :
  adds_at m m fd [(SysSendfile fd ffd n, r)] (sub (default [] (m !! ffd)) 0 (r_ret r)).
Proof. intros old. simpl. by rewrite Z.eqb_refl. Qed.
Lemma adds_poke_last m fd ffd d r :
  m !! ffd = None -> adds_at m (<[ffd := d]> m) fd [(SysPoke ffd d, r)] [].
Proof.
  intros Hm old. simpl. rewrite decide_False, app_nil_r; [done|]. rewrite Hm. by intros [? ?].
Qed.
Lemma adds_poke_old m fd ffd d d' r :
  m !! ffd = Some d' -> adds_at m m fd [(SysPoke ffd d, r)] [].
Proof. intros Hm old. simpl. rewrite decide_True, app_nil_r; [done|]. rewrite Hm. eauto. Qed.
Lemma adds_memfd m fd r : adds_at m (delete (r_ret r) m) fd [(SysMemfd, r)] [].
Proof. intros old. simpl. by rewrite app_nil_r. Qed.

(** * The frame *)

(** Parameters that differ at most in [wait_send]. *)
Definition same_params (p p' : params) : Prop := exists b, p' = set_wait_send p b.

(** What a routine of desync.c leaves alone; [new] are its calls. *)
Record frame (w w' : world) (new : trace) : Prop := {
  f_trace : w_trace w' = new ++ w_trace w;
  f_buf : w_buf w' = w_buf w;
  f_params : same_params (w_params w) (w_params w');
  f_pool : w_pool w' = w_pool w;
  f_heap : w_heap w' = w_heap w;
  f_env : w_env w' = w_env w
}.
Definition keeps (w w' : world) (new : trace) : Prop := frame w w' new /\ w_fds w' = w_fds w.
(** It adds [d] to the stream of [fd]. *)
Definition eff (fd : Z) (w w' : world) (new : trace) (d : list Z) : Prop :=
  keeps w w' new /\ adds fd new d.

Lemma same_params_refl p : same_params p p.
Proof. exists (ps_wait_send p). by destruct p. Qed.
Lemma same_params_trans p1 p2 p3 : same_params p1 p2 -> same_params p2 p3 -> same_params p1 p3.
Proof. intros [b1 ->] [b2 ->]. by exists b2. Qed.

Lemma frame_trans w1 w2 w3 n1 n2 : frame w1 w2 n1 -> frame w2 w3 n2 -> frame w1 w3 (n2 ++ n1).
Proof.
  intros [T1 B1 P1 Q1 H1 E1] [T2 B2 P2 Q2 H2 E2]. split; try congruence.
  - by rewrite T2, T1, app_assoc.
  - by eapply same_params_trans.
Qed.
Lemma frame_sys w q r : frame w (with_trace ((q, r) :: w_trace w) (kernel q r w)) [(q, r)].
Proof.
  split; try done; unfold kernel; repeat case_match; try done; apply same_params_refl.
Qed.

Lemma keeps_refl w : keeps w w [].
Proof. split; [split|]; auto using same_params_refl. Qed.
Lemma k_buf w w' new : keeps w w' new -> w_buf w' = w_buf w.
Proof. intros [[] _]. done. Qed.
Lemma keeps_trans w1 w2 w3 n1 n2 : keeps w1 w2 n1 -> keeps w2 w3 n2 -> keeps w1 w3 (n2 ++ n1).
Proof. intros [F1 E1] [F2 E2]. split; [by eapply frame_trans|congruence]. Qed.
Lemma keeps_sys w q r :
  nofd q = true -> keeps w (with_trace ((q, r) :: w_trace w) (kernel q r w)) [(q, r)].
Proof.
  intros Hq. split; [apply frame_sys|]. unfold kernel. case_match; [done|]. by destruct q.
Qed.

Lemma eff_compose fd w1 w2 w3 n1 n2 d1 d2 :
  eff fd w1 w2 n1 d1 -> eff fd w2 w3 n2 d2 -> eff fd w1 w3 (n2 ++ n1) (d1 ++ d2).
Proof. intros [K1 A1] [K2 A2]. split; [by eapply keeps_trans|by eapply adds_app]. Qed.
Lemma eff_sys fd w q r d :
  nofd q = true -> adds fd [(q, r)] d -> eff fd w (with_trace ((q, r) :: w_trace w) (kernel q r w)) [(q, r)] d.
Proof. intros Hn H. split; [by apply keeps_sys|done]. Qed.
Lemma eff_quiet fd w w' new : keeps w w' new -> quiet_trace new -> eff fd w w' new [].
Proof. intros K Q. split; [done|by apply adds_quiet]. Qed.

(** * Routines that send nothing *)
Definition silent {A} (m : io A) (w : world) (P : A -> trace -> Prop) : Prop :=
  wp m (fun a w' => exists new, keeps w w' new /\ quiet_trace new /\ P a new) w.

Lemma silent_bind {A B} (m : io A) (f : A -> io B) w P Q :
  silent m w P ->
  (forall a w' new, keeps w w' new -> P a new -> silent (f a) w' (fun b new' => Q b (new' ++ new))) ->
  silent (m ≫= f) w Q.
Proof.
  intros Hm Hf. apply wp_bind. eapply wp_mono; [exact Hm|].
  intros a w' (new & K & Hq & Hp). eapply wp_mono; [by apply (Hf a w' new)|].
  intros b w2 (new2 & K2 & Hq2 & HQ). exists (new2 ++ new).
  split; [by eapply keeps_trans|]. split; [by apply Forall_app|done].
Qed.
Lemma silent_ret {A} (a : A) w P : P a [] -> silent (mret a) w P.
Proof. intros. apply wp_ret. exists []. split; [apply keeps_refl|]. split; [constructor|done]. Qed.
Lemma silent_sys q w P :
  quiet q && nofd q = true -> (forall r, r = sane w q (w_env w (w_trace w) q) -> P r [(q, r)]) ->
  silent (sys q) w P.
Proof.
  intros [Hq Hn]%andb_true_iff H. apply wp_sys. intros r Hr. exists [(q, r)].
  split; [by apply keeps_sys|].
  split; [by constructor|by apply H].
Qed.
Lemma silent_call q w P :
  quiet q && nofd q = true -> (forall r, r = sane w q (w_env w (w_trace w) q) -> P (r_ret r) [(q, r)]) ->
  silent (call q) w P.
Proof.
  intros Hq H. eapply silent_bind; [by apply (silent_sys _ _ (fun a new => P (r_ret a) new))|].
  intros r w' new _ HP. by apply silent_ret.
Qed.
Lemma silent_get {A} (f : world -> A) w P : P (f w) [] -> silent (get f) w P.
Proof. intros. apply wp_get. exists []. split; [apply keeps_refl|]. split; [constructor|done]. Qed.
Lemma silent_mono {A} (m : io A) w (P Q : A -> trace -> Prop) :
  silent m w P -> (forall a new, P a new -> Q a new) -> silent m w Q.
Proof. intros H HPQ. eapply wp_mono; [exact H|]. naive_solver. Qed.

(** * Answers *)
Lemma sane_send w fd d flags r : zlen d < 2 ^ 62 ->
  -1 <= r_ret (sane w (SysSend fd d flags) r) <= zlen d.
Proof. simpl. unfold clip. lia. Qed.
Lemma sane_sendfile w o i n r : 0 <= n -> -1 <= r_ret (sane w (SysSendfile o i n) r) <= n.
Proof. simpl. unfold clip. lia. Qed.

(** The calls after which a routine may be believed: options are set, and an
    urgent byte is sent with all the data before it or not at all. *)
Definition clean (e : sysreq * sysrsp) : Prop :=
  match e.1 with
  | SysSetsockopt _ _ _ _ => 0 <= r_ret e.2
  | SysSend _ d flags => flags = MSG_OOB -> r_ret e.2 < 0 \/ r_ret e.2 = zlen d
  | _ => True
  end.
