(* ===== verification/DesyncPacket.v ===== *)
(** The packet that desync.c sends: which packets it recognises and how it
    modifies them never leaves the work buffer. *)
From S2P Require Import Prelude CLib Packets PacketsHttp Params World Desync.

(** * Buffer operations succeed in bounds *)
Lemma ANTOHS_in b i :
  0 <= i -> i + 1 < zlen b -> exists v, ANTOHS b i = Ok v.
Proof. intros. unfold ANTOHS. repeat rstep. eauto. Qed.
Lemma SHTONA_in b i x :
  0 <= i -> i + 1 < zlen b -> exists b', SHTONA b i x = Ok b' /\ length b' = length b.
Proof.
  intros. unfold SHTONA. rewrite wr_ok by lia. cbn [mbind res_bind].
  rewrite wr_ok by (rewrite length_insert; lia). eexists. split; [done|]. by rewrite !length_insert.
Qed.
Lemma memmove_in b dst src n :
  0 <= src -> 0 <= dst -> 0 <= n -> src + n <= zlen b -> dst + n <= zlen b -> zlen b < 2 ^ 63 ->
  exists b', memmove b dst src n = Ok b' /\ length b' = length b.
Proof.
  intros. rewrite memmove_ok by done. eexists. split; [done|].
  apply length_put; rewrite ?zlen_sub; lia.
Qed.
Lemma wrn_in b o d :
  0 <= o -> o + zlen d <= zlen b -> exists b', wrn b o d = Ok b' /\ length b' = length b.
Proof. intros. rewrite wrn_ok by done. eexists. split; [done|]. by apply length_put. Qed.

(** * Recognising the packet *)
Lemma classify_ok b n :
  is_bytes b -> n <= zlen b < 2 ^ 31 -> exists type host, classify b n = Ok (type, host).
Proof.
  intros Hb Hn. unfold classify.
  destruct (proj1 (succeeds_Ok _ _) (parse_tls_spec b n Hb ltac:(lia))) as ([len hs] & -> & _).
  cbn [mbind res_bind]. ccase; [eauto|].
  assert (exists x, parse_http b n false = Ok x) as (x & ->).
  { destruct (parse_http_cases b n Hn) as [->|(Hh & p & h & l & nl & HL)]; [eauto|].
    destruct (parse_http_line b n Hn p h l nl HL Hh) as (e & -> & _). eauto. }
  cbn [mbind res_bind]. ccase; eauto.
Qed.

(** * Cutting records *)
Lemma part_tls_ok b bsize n pos :
  zlen b = bsize -> 0 <= n <= bsize -> bsize < 2 ^ 31 ->
  exists r b', part_tls b bsize n pos = Ok (r, b') /\ length b' = length b /\
    (r <> 0 -> 0 <= pos /\ pos + 5 <= n /\ n + 5 <= bsize).
Proof.
  intros Hb Hn Hs. unfold part_tls. rewrite size_t_small by lia. ccase; [by exists 0, b|].
  destruct (ANTOHS_in b 3) as (v & ->); [lia..|]. cbn [mbind res_bind].
  ccase; [exists n, b; split; [done|]; split; [done|lia]|].
  destruct (memmove_in b (5 + pos + 5) (5 + pos) (n - (5 + pos))) as (b1 & -> & H1); [lia..|].
  cbn [mbind res_bind]. rewrite rdn_ok by lia. cbn [mbind res_bind].
  destruct (wrn_in b1 (5 + pos) (sub b1 0 3)) as (b2 & -> & H2); [lia|rewrite zlen_sub; lia|].
  cbn [mbind res_bind]. destruct (SHTONA_in b2 3 pos) as (b3 & -> & H3); [lia..|].
  cbn [mbind res_bind]. destruct (SHTONA_in b3 (5 + pos + 3) (v - pos)) as (b4 & -> & H4); [lia..|].
  exists 5, b4. split; [done|]. split; [congruence|lia].
Qed.

(** However many records are asked for, the packet stays in the buffer. *)
Lemma tlsrec_loop_ok ts i b bfsize n lp host :
  zlen b = bfsize -> 0 <= lp <= n -> n <= bfsize -> bfsize < 2 ^ 31 ->
  exists b' n', tlsrec_loop ts i b bfsize n lp host = Ok (b', n') /\
    length b' = length b /\ n <= n' <= bfsize /\ n' <= n + 5 * zlen ts.
Proof.
  revert i b n lp. induction ts as [|p ts IH]; intros i b n lp Hb Hlp Hn Hs; cbn [tlsrec_loop].
  { exists b, n. split; [done|]. simpl. lia. }
  set (pos := if p_flag p =? OFFSET_SNI then _ else _). ccase.
  { exists b, n. split; [done|]. simpl. lia. }
  destruct (part_tls_ok (drop (Z.to_nat lp) b) (bfsize - lp) (n - lp) (pos - lp))
    as (r & d & -> & Hd & Hr); [rewrite ?length_drop; lia..|].
  cbn [mbind res_bind]. rewrite length_drop in Hd.
  assert (Hl : length (take (Z.to_nat lp) b ++ d) = length b) by (rewrite length_app, length_take; lia).
  ccase; [exists (take (Z.to_nat lp) b ++ d), n; split; [done|]; split; [done|simpl; lia]|].
  destruct (IH (i + 1) (take (Z.to_nat lp) b ++ d) (n + 5) (pos + 5)) as (b' & n' & -> & ? & ? & ?);
    [lia..|]. exists b', n'. split; [done|]. split; [congruence|]. simpl length. lia.
Qed.

(** A group that does not rewrite HTTP headers. *)
Lemma modify_packet_ok dp b bfsize n type host :
  zlen b = bfsize -> 0 <= n <= bfsize -> bfsize < 2 ^ 31 -> dp_mod_http dp = 0 ->
  exists b' n', modify_packet dp b bfsize n type host = Ok (Some (b', n')) /\
    length b' = length b /\ n <= n' <= bfsize /\ n' <= n + 5 * zlen (dp_tlsrec dp).
Proof.
  intros Hb Hn Hs Hm. unfold modify_packet. rewrite Hm, andb_false_r. ccase.
  - destruct (tlsrec_loop_ok (dp_tlsrec dp) 0 b bfsize n 0 host) as (b' & n' & -> & H); [lia..|].
    exists b', n'. done.
  - exists b, n. split; [done|]. lia.
Qed.
