(* ===== verification/DesyncSpec.v ===== *)
(** desync.c delivers the stream: whatever the parts, the modes and the system's
    answers, the bytes the peer gets are those of the (modified) buffer, and the
    time-to-live of the socket is restored. *)
From S2P Require Import Prelude CLib Packets Mpool Params World Stream Desync DesyncPacket.

(** * Buffer access *)
Lemma wp_buf_get o n Q w :
  0 <= o -> 0 <= n -> o + n <= zlen (w_buf w) -> Q (sub (w_buf w) o n) w -> wp (buf_get o n) Q w.
Proof.
  intros. apply wp_bind, wp_get, wp_lift. by rewrite rdn_ok.
Qed.
Lemma wp_buf_put o d Q w :
  0 <= o -> o + zlen d <= zlen (w_buf w) -> Q tt (with_buf (put (w_buf w) o d) w) ->
  wp (buf_put o d) Q w.
Proof.
  intros. apply wp_bind, wp_get, wp_bind, wp_lift. rewrite wrn_ok by done. simpl.
  by apply wp_modify.
Qed.

(** Storing a byte and then the old one. *)
Lemma put_restore b i c :
  0 <= i -> i + 1 <= zlen b -> put (put b i [c]) i (sub b i 1) = b.
Proof.
  intros. apply bytes_ext.
  - rewrite !length_put; rewrite ?zlen_sub; simpl; try lia. rewrite length_put; simpl; lia.
  - intros j Hj. rewrite byte_at_put by (rewrite ?length_put, ?zlen_sub; simpl; lia).
    rewrite zlen_sub by lia. ccase.
    + rewrite byte_at_sub by lia. f_equal. lia.
    + rewrite byte_at_put by (simpl; lia). simpl. ccase; [lia|done].
Qed.

Lemma sub_sub b o n m : 0 <= m <= n -> sub (sub b o n) 0 m = sub b o m.
Proof. intros. unfold sub. rewrite drop_0, take_take. f_equal. lia. Qed.

(** * Routines that send nothing *)

(** An option is set unless the call fails. *)
Lemma setttl_spec sfd ttl fa w :
  silent (setttl sfd ttl fa) w
    (fun a new => (a = 0 \/ a = -1) /\ (Forall clean new -> a = 0)).
Proof.
  unfold setttl. case_match;
    (eapply silent_bind; [eapply (silent_call _ _ (fun a new => Forall clean new -> 0 <= a));
       [done|by intros r _ [Hc _]%Forall_cons]|]);
    intros r w' new _ Hr; apply silent_ret; (split; [ccase; auto|]);
    intros Hc%Hr; ccase; lia.
Qed.

(** Waiting only looks at the socket and the clock. *)
Lemma delay_spec ms w : silent (delay ms) w (fun _ _ => True).
Proof.
  unfold delay. eapply silent_bind; [by apply (silent_call _ _ (fun _ _ => True))|].
  intros. by apply silent_ret.
Qed.
Lemma silent_wait_flag b w :
  silent (modify (fun w => with_params (set_wait_send (w_params w) b) w)) w (fun _ _ => True).
Proof.
  apply wp_modify. exists []. split; [|split; [constructor|done]]. split; [|done]. split; try done. by exists b.
Qed.
Lemma wait_send_loop_spec i sfd w : silent (wait_send_loop i sfd) w (fun _ _ => True).
Proof.
  revert w. induction i as [|i IH]; intros w; cbn [wait_send_loop];
    (eapply silent_bind; [by apply (silent_get _ _ (fun _ _ => True))|]);
    intros ps w1 n1 _ _; [apply delay_spec|].
  case_match; [apply delay_spec|].
  eapply silent_bind; [by apply (silent_sys _ _ (fun _ _ => True))|]. intros r w2 n2 _ _.
  case_match; [apply delay_spec|]. cbn zeta.
  case_match; [by apply silent_ret|]. case_match.
  - eapply silent_bind; [apply silent_wait_flag|]. intros _ w3 n3 _ _. apply delay_spec.
  - case_match; [by apply silent_ret|].
    eapply silent_bind; [apply delay_spec|]. intros _ w3 n3 _ _. apply IH.
Qed.
Lemma wait_send_if_support_spec sfd w :
  silent (wait_send_if_support sfd) w (fun _ _ => True).
Proof.
  unfold wait_send_if_support.
  eapply silent_bind; [by apply (silent_get _ _ (fun _ _ => True))|]. intros ps w1 n1 _ _.
  case_match; [apply wait_send_loop_spec|by apply silent_ret].
Qed.

(** * Parts *)

(** The routine sends bytes of the buffer from [lp] on; when all its calls are
    [clean] its answer is the number of bytes the peer got, or they are none. *)
Definition sends (sfd lp pos : Z) (m : io Z) (w : world) : Prop :=
  wp m (fun s w' => exists new d, eff sfd w w' new d /\
    (Forall clean new ->
       s < 0 /\ d = [] \/ 0 <= s <= pos - lp /\ d = sub (w_buf w) lp s)) w.

Lemma send_plain_spec sfd lp pos w :
  0 <= lp <= pos -> pos <= zlen (w_buf w) < 2 ^ 31 ->
  wp (call (SysSend sfd (sub (w_buf w) lp (pos - lp)) 0))
    (fun s w' => exists new, s <= pos - lp /\
       eff sfd w w' new (if s <? 0 then [] else sub (w_buf w) lp s)) w.
Proof.
  intros H1 H2. unfold call. apply wp_bind, wp_sys. intros r Hr. apply wp_ret.
  set (d := sub (w_buf w) lp (pos - lp)) in *.
  assert (Hd : zlen d = pos - lp) by (apply zlen_sub; lia).
  assert (Hrange : -1 <= r_ret r <= zlen d) by (rewrite Hr; apply sane_send; lia).
  eexists. split; [lia|]. apply eff_sys; [done|].
  assert (sent_bytes d 0 (r_ret r) = if r_ret r <? 0 then [] else sub (w_buf w) lp (r_ret r)) as <-.
  { unfold sent_bytes, d. simpl. ccase; [|apply sub_sub; lia].
    unfold sub. replace (Z.to_nat (r_ret r)) with 0%nat by lia. by rewrite take_0. }
  apply adds_send.
Qed.

(** After the data, calls that send nothing. *)
Lemma sends_then {A} sfd lp pos (m : io A) (f : A -> io Z) w :
  wp m (fun a w' => exists new d, eff sfd w w' new d /\
     silent (f a) w' (fun s new' => Forall clean (new' ++ new) ->
       s < 0 /\ d = [] \/ 0 <= s <= pos - lp /\ d = sub (w_buf w) lp s)) w ->
  sends sfd lp pos (m ≫= f) w.
Proof.
  intros H. apply wp_bind. eapply wp_mono; [exact H|]. intros a w1 (new & d & He & Hs).
  eapply wp_mono; [exact Hs|]. intros s w2 (new2 & K2 & Hq2 & Hp).
  exists (new2 ++ new), d. split; [|done].
  rewrite <- (app_nil_r d). by eapply eff_compose, eff_quiet.
Qed.

(** Calls that send nothing, then the data. *)
Lemma sends_after {A} sfd lp pos (m : io A) (f : A -> io Z) w P :
  silent m w P ->
  (forall a w' new, P a new -> keeps w w' new ->
     sends sfd lp pos (f a) w' \/ exists v, f a = mret v /\ v < 0) ->
  sends sfd lp pos (m ≫= f) w.
Proof.
  intros Hm Hf. apply wp_bind. eapply wp_mono; [exact Hm|]. intros a w1 (new & K & Hq & Hp).
  pose proof (k_buf _ _ _ K) as Hb. pose proof (eff_quiet sfd _ _ _ K Hq) as He.
  destruct (Hf a w1 new Hp K) as [Hs|(v & -> & Hv)].
  - eapply wp_mono; [exact Hs|]. intros s w2 (new2 & d & He2 & Hc).
    exists (new2 ++ new), d. split; [exact (eff_compose _ _ _ _ _ _ [] _ He He2)|].
    rewrite <- Hb. intros [Hc2 _]%Forall_app. auto.
  - apply wp_ret. exists new, []. split; [done|]. intros _. by left.
Qed.

Lemma send_split_spec sfd lp pos w :
  0 <= lp <= pos -> pos <= zlen (w_buf w) < 2 ^ 31 ->
  sends sfd lp pos (d ← buf_get lp (pos - lp); s ← call (SysSend sfd d 0);
                    _ ← wait_send_if_support sfd; mret s) w.
Proof.
  intros H1 H2. apply wp_bind, wp_buf_get; [lia..|]. apply sends_then.
  eapply wp_mono; [by apply send_plain_spec|]. intros s w1 (new & Hs & He).
  eexists _, _. split; [exact He|].
  eapply silent_bind; [apply wait_send_if_support_spec|]. intros _ w2 n2 _ _.
  apply silent_ret. intros _. destruct (Z.ltb_spec s 0); [auto|]. right. split; [lia|done].
Qed.

Lemma send_disorder_spec sfd lp pos fa w :
  0 <= lp <= pos -> pos <= zlen (w_buf w) < 2 ^ 31 ->
  sends sfd lp pos (send_disorder sfd lp (pos - lp) fa) w.
Proof.
  intros H1 H2. unfold send_disorder. eapply sends_after; [apply setttl_spec|].
  intros a w1 n1 Ha Hb%k_buf. ccase; [right; eexists; split; [done|lia]|left].
  apply wp_bind, wp_buf_get; [rewrite ?Hb; lia..|]. apply sends_then.
  eapply wp_mono; [apply send_plain_spec; rewrite ?Hb; lia|]. intros s w2 (new & Hs & He2).
  eexists _, _. split; [exact He2|].
  eapply silent_bind; [instantiate (1 := fun _ _ => True);
    case_match; [by apply silent_ret|apply wait_send_if_support_spec]|].
  intros _ w3 n3 _ _. eapply silent_bind; [by apply (silent_get _ _ (fun _ _ => True))|].
  intros ps w4 n4 _ _. eapply silent_bind; [apply setttl_spec|]. intros r w5 n5 _ [Hr Hc].
  destruct (Z.ltb_spec r 0); apply silent_ret.
  - intros Hall. rewrite !Forall_app in Hall. assert (r = 0) by (apply Hc; tauto). lia.
  - intros _. destruct (Z.ltb_spec s 0); [auto|]. right. split; [lia|done].
Qed.

(** [send_oob] stores the urgent byte over the buffer and takes it back. *)
Lemma eff_with_buf fd b w w' new d :
  eff fd (with_buf b w) w' new d -> eff fd w (with_buf (w_buf w) w') new d.
Proof. intros [[[T B P Q H E] F] A]. split; [|done]. split; [|done]. by split. Qed.

Lemma send_oob_spec sfd lp pos c w :
  0 <= lp <= pos -> pos < zlen (w_buf w) < 2 ^ 31 ->
  sends sfd lp pos (send_oob sfd lp (pos - lp) c) w.
Proof.
  intros H1 H2. unfold send_oob. replace (lp + (pos - lp)) with pos by lia.
  apply wp_bind, wp_buf_get; [lia..|].
  set (x := if negb (c.2 =? 0) then c.1 else chr "a").
  apply wp_bind, wp_buf_put; [lia|simpl; lia|].
  set (b1 := put (w_buf w) pos [x]).
  assert (Hb1 : length b1 = length (w_buf w)) by (apply length_put; simpl; lia).
  apply wp_bind, wp_buf_get; [lia|lia|cbn [w_buf with_buf]; lia|]. cbn [w_buf with_buf].
  set (d := sub b1 lp (pos - lp + 1)).
  assert (Hd : zlen d = pos - lp + 1) by (apply zlen_sub; lia).
  assert (Hpre : sub d 0 (pos - lp) = sub (w_buf w) lp (pos - lp)).
  { unfold d. rewrite sub_sub by lia. unfold b1, put, sub.
    rewrite drop_app_le by (rewrite length_take; lia).
    rewrite take_app_le by (rewrite length_drop, length_take; lia).
    rewrite skipn_firstn_comm, take_take. f_equal. lia. }
  apply wp_bind. unfold call at 1. apply wp_bind, wp_sys. intros r Hr. apply wp_ret.
  assert (Hrange : -1 <= r_ret r <= zlen d) by (rewrite Hr; apply sane_send; lia).
  pose proof (eff_sys sfd (with_buf b1 w) (SysSend sfd d MSG_OOB) r _ eq_refl
    (adds_send ∅ sfd d MSG_OOB r)) as He.
  pose proof (k_buf _ _ _ (proj1 He)) as Hb2. change (w_buf (with_buf b1 w)) with b1 in Hb2.
  apply wp_bind, wp_buf_put; [lia|rewrite Hb2, zlen_sub; lia|].
  rewrite Hb2. unfold b1 at 1. rewrite put_restore by lia. apply eff_with_buf in He.
  destruct (Z.ltb_spec (r_ret r) 0) as [Hneg|Hpos].
  - apply wp_ret. eexists _, _. split; [exact He|]. intros _. left. split; [lia|].
    unfold sent_bytes, sub. ccase; [lia|]. by replace (Z.to_nat (r_ret r)) with 0%nat by lia.
  - apply wp_bind. eapply wp_mono; [apply wait_send_if_support_spec|].
    intros _ w3 (n3 & K3 & Hq3 & _). apply wp_ret.
    pose proof (eff_compose _ _ _ _ _ _ _ _ He (eff_quiet _ _ _ _ K3 Hq3)) as He4.
    rewrite app_nil_r in He4.
    eexists _, _. split; [exact He4|]. rewrite Forall_app. intros [_ [Hc _]%Forall_cons].
    destruct (Hc eq_refl) as [Hc2|Hc2]; simpl in Hc2; [lia|]. right. split; [lia|].
    unfold sent_bytes. rewrite Hc2, !Z.eqb_refl. simpl. rewrite Hd.
    replace (pos - lp + 1 - 1) with (pos - lp) by lia. done.
Qed.

Lemma send_late_oob_spec sfd lp pos fa c w :
  0 <= lp <= pos -> pos < zlen (w_buf w) < 2 ^ 31 ->
  sends sfd lp pos (send_late_oob sfd lp (pos - lp) fa c) w.
Proof.
  intros H1 H2. unfold send_late_oob. eapply sends_after; [apply setttl_spec|].
  intros a w1 n1 Ha Hb%k_buf. ccase; [right; eexists; split; [done|lia]|left].
  apply sends_then. eapply wp_mono; [apply send_oob_spec; rewrite ?Hb; lia|].
  intros s w2 (new & d & He & Hc). exists new, d. split; [done|].
  eapply silent_bind; [by apply (silent_get _ _ (fun _ _ => True))|]. intros ps w3 n3 _ _.
  eapply silent_bind; [apply setttl_spec|]. intros r w4 n4 _ [_ Hr].
  destruct (Z.ltb_spec r 0); apply silent_ret; intros Hall; rewrite !Forall_app in Hall.
  - assert (r = 0) by (apply Hr; tauto). lia.
  - apply Hc. tauto.
Qed.

(** * Fake data *)
Lemma set_md5sig_spec opt sfd addr k w : silent (set_md5sig opt sfd addr k) w (fun _ _ => True).
Proof. unfold set_md5sig. case_match; [by apply silent_call|by apply silent_ret]. Qed.

(** The lengths of the packets and options a group is configured with. *)
Definition opt_wf (opt : desync_params) : Prop :=
  match dp_ip_options opt with
  | Some o => 0 <= dp_ip_options_len opt <= zlen o
  | None => True
  end.
Definition packet_wf (p : packet) : Prop :=
  match pk_data p with Some d => 0 <= pk_size p <= zlen d | None => pk_size p = 0 end.

Lemma set_ip_options_spec opt sfd fa len w :
  opt_wf opt -> len = dp_ip_options_len opt \/ len = 0 ->
  silent (set_ip_options opt sfd fa len) w (fun _ _ => True).
Proof.
  intros Hw Hl. unfold set_ip_options, opt_wf in *. destruct (dp_ip_options opt) as [o|];
    [|by apply silent_ret].
  case_match; [|by apply silent_ret].
  apply wp_bind, wp_lift. rewrite rdn_ok by lia. simpl. by apply silent_call.
Qed.

Lemma fake_packet_wf dflt opt :
  packet_wf dflt -> packet_wf (dp_fake_data opt) -> 0 <= dp_fake_offset opt ->
  packet_wf (fake_packet dflt opt).
Proof.
  intros Hd Hf Ho. unfold fake_packet.
  assert (H : packet_wf (match pk_data (dp_fake_data opt) with
                         | Some _ => dp_fake_data opt | None => dflt end)) by (by case_match).
  revert H. generalize (match pk_data (dp_fake_data opt) with
                        | Some _ => dp_fake_data opt | None => dflt end).
  intros p Hp. unfold packet_wf in *. destruct (Z.eqb_spec (dp_fake_offset opt) 0); simpl; [done|].
  destruct (Z.ltb_spec (dp_fake_offset opt) (pk_size p)); simpl; destruct (pk_data p) as [d|]; simpl;
    try lia. rewrite length_drop. lia.
Qed.

Lemma packet_bytes_ok p n Q w :
  packet_wf p -> 0 <= n <= pk_size p -> (forall d, zlen d = n -> Q d w) ->
  wp (lift (packet_bytes p n)) Q w.
Proof.
  intros Hp Hn HQ. apply wp_lift. unfold packet_bytes, packet_wf in *.
  destruct (pk_data p) as [d|]; simpl.
  - rewrite rdn_ok by lia. apply HQ, zlen_sub; lia.
  - replace (n =? 0) with true by lia. apply HQ. simpl. lia.
Qed.

(** The trace of a fake: the real data is stored in the file before the routine
    returns, so a retransmission after the fake carries it. *)
Lemma wp_keeps_call q Q w :
  nofd q = true ->
  (forall r, r = sane w q (w_env w (w_trace w) q) ->
     keeps w (with_trace ((q, r) :: w_trace w) (kernel q r w)) [(q, r)] ->
     Q (r_ret r) (with_trace ((q, r) :: w_trace w) (kernel q r w))) ->
  wp (call q) Q w.
Proof. intros Hn H. apply wp_bind, wp_sys. intros r Hr. apply wp_ret, H; [done|by apply keeps_sys]. Qed.

(** What [send_fake_body] did to the file: the content [m'] it needs before it,
    given that nothing is stored later. *)
Definition fakes (sfd ffd lp pos : Z) (m : io (bool * Z)) (w : world) : Prop :=
  wp m (fun a w' => exists new d m', keeps w w' new /\
    adds_at ∅ m' sfd new d /\ (forall f, f <> ffd -> m' !! f = None) /\
    (a.2 < 0 /\ d = [] \/ 0 <= a.2 <= pos - lp /\ d = sub (w_buf w) lp a.2)) w.

Lemma fakes_after {A} sfd ffd lp pos (m : io A) (f : A -> io (bool * Z)) w P :
  silent m w P ->
  (forall a w', (exists new, P a new) -> w_buf w' = w_buf w ->
     fakes sfd ffd lp pos (f a) w') ->
  fakes sfd ffd lp pos (m ≫= f) w.
Proof.
  intros Hm Hf. apply wp_bind. eapply wp_mono; [exact Hm|]. intros a w1 (new & K & Hq & Hp).
  pose proof (k_buf _ _ _ K) as Hb.
  eapply wp_mono; [apply (Hf a w1); [eauto|done]|].
  intros b w2 (new2 & d & m' & K2 & Ha & Hm' & Hd). rewrite Hb in Hd.
  exists (new2 ++ new), d, m'. split; [by eapply keeps_trans|]. split; [|done].
  rewrite <- (app_nil_l d). by eapply adds_app; [apply adds_quiet|].
Qed.
Lemma fakes_fail sfd ffd lp pos b v w : v < 0 -> fakes sfd ffd lp pos (mret (b, v)) w.
Proof.
  intros Hv. apply wp_ret. exists [], [], ∅. split; [apply keeps_refl|]. split; [apply adds_nil|].
  split; [done|by left].
Qed.
Lemma fakes_poke sfd ffd lp pos d0 (f : Z -> io (bool * Z)) w :
  (forall a w', w_buf w' = w_buf w -> fakes sfd ffd lp pos (f a) w') ->
  fakes sfd ffd lp pos (call (SysPoke ffd d0) ≫= f) w.
Proof.
  intros Hf. apply wp_bind, wp_keeps_call; [done|]. intros r _ K.
  eapply wp_mono; [apply Hf, (k_buf _ _ _ K)|].
  intros b w2 (new & d & m' & K2 & Ha & Hm & Hd). rewrite (k_buf _ _ _ K) in Hd.
  assert (exists m2, adds_at m' m2 sfd [(SysPoke ffd d0, r)] [] /\ forall f, f <> ffd -> m2 !! f = None)
    as (m2 & Hp & Hm2).
  { destruct (m' !! ffd) as [x|] eqn:Hx.
    - exists m'. split; [by eapply adds_poke_old|done].
    - exists (<[ffd := d0]> m'). split; [by apply adds_poke_last|].
      intros g Hg. rewrite lookup_insert_ne by done. auto. }
  eexists _, d, m2. split; [exact (keeps_trans _ _ _ _ _ K K2)|]. split; [|done].
  rewrite <- (app_nil_l d). by eapply adds_app.
Qed.

(** From [sendfile] on. *)
Lemma fakes_sendfile sfd ffd lp pos opt fa addr w :
  opt_wf opt -> 0 <= lp < pos -> pos <= zlen (w_buf w) ->
  fakes sfd ffd lp pos
    (len ← call (SysSendfile sfd ffd (pos - lp));
     if len <? 0 then mret (true, len) else
     _ ← wait_send sfd;
     d ← buf_get lp (pos - lp);
     _ ← call (SysPoke ffd d);
     ps ← get w_params;
     r ← setttl sfd (ps_def_ttl ps) fa;
     if r <? 0 then mret (true, len) else
     r ← set_ip_options opt sfd fa 0;
     if r <? 0 then mret (true, len) else
     _ ← set_md5sig opt sfd addr 0;
     mret (true, len)) w.
Proof.
  intros Hopt H1 H2. apply wp_bind, wp_keeps_call; [done|]. intros r Hr K.
  assert (Hrange : -1 <= r_ret r <= pos - lp) by (rewrite Hr; apply sane_sendfile; lia).
  pose proof (k_buf _ _ _ K) as Hb. destruct (Z.ltb_spec (r_ret r) 0) as [Hneg|Hpos].
  { apply wp_ret. eexists _, [], ∅. split; [exact K|]. split; [|split; [done|by left]].
    pose proof (adds_sendfile ∅ sfd ffd (pos - lp) r) as Ha. rewrite lookup_empty in Ha.
    unfold sub in Ha. simpl in Ha. by rewrite take_nil in Ha. }
  apply wp_bind. eapply wp_mono; [apply wait_send_loop_spec|]. intros _ w2 (n2 & K2 & Q2 & _).
  pose proof (k_buf _ _ _ K2) as Hb2. rewrite Hb in Hb2.
  apply wp_bind, wp_buf_get; rewrite ?Hb2; [lia..|].
  apply wp_bind, wp_keeps_call; [done|]. intros r3 _ K3.
  match goal with |- wp ?m _ ?w3 => assert (Htail : silent m w3 (fun a _ => a = (true, r_ret r))) end.
  { eapply silent_bind; [by apply (silent_get _ _ (fun _ _ => True))|]. intros ps w4 n4 _ _.
    eapply silent_bind; [apply setttl_spec|]. intros r4 w5 n5 _ _.
    case_match; [by apply silent_ret|].
    eapply silent_bind; [apply set_ip_options_spec; auto|]. intros r5 w6 n6 _ _.
    case_match; [by apply silent_ret|].
    eapply silent_bind; [apply set_md5sig_spec|]. intros r6 w7 n7 _ _. by apply silent_ret. }
  eapply wp_mono; [exact Htail|]. intros a w4 (n4 & K4 & Q4 & ->). simpl.
  eexists _, _, _. split; [exact (keeps_trans _ _ _ _ _ (keeps_trans _ _ _ _ _
    (keeps_trans _ _ _ _ _ K K2) K3) K4)|]. split.
  - eapply adds_app; [|by apply adds_quiet]. eapply adds_app; [|by apply adds_poke_last].
    eapply adds_app; [|by apply adds_quiet]. apply adds_sendfile.
  - split; [intros f Hf; by rewrite lookup_insert_ne|]. right. split; [lia|].
    rewrite !app_nil_r, lookup_insert_eq. simpl. apply sub_sub. lia.
Qed.

Lemma send_fake_body_spec sfd ffd lp pos fa opt pkt addr w :
  opt_wf opt -> packet_wf pkt -> 0 <= pk_size pkt -> 0 <= lp < pos -> pos <= zlen (w_buf w) ->
  fakes sfd ffd lp pos (send_fake_body sfd ffd lp (pos - lp) fa opt pkt addr) w.
Proof.
  intros Hopt Hpkt Hsz H1 H2. unfold send_fake_body.
  eapply fakes_after; [by apply (silent_call _ _ (fun _ _ => True))|]. intros a1 w1 _ Hb1.
  ccase; [apply fakes_fail; lia|].
  eapply fakes_after; [by apply (silent_call _ _ (fun _ _ => True))|]. intros a2 w2 _ Hb2.
  ccase; [apply fakes_fail; lia|].
  apply wp_bind, packet_bytes_ok; [done|ccase; lia|]. intros d _.
  apply fakes_poke. intros _ w3 Hb3.
  eapply fakes_after; [apply setttl_spec|]. intros a4 w4 _ Hb4.
  case_match; [apply fakes_fail; lia|].
  eapply fakes_after; [apply set_md5sig_spec|]. intros a5 w5 _ Hb5.
  case_match; [apply fakes_fail; lia|].
  eapply fakes_after; [apply set_ip_options_spec; auto|]. intros a6 w6 _ Hb6.
  case_match; [apply fakes_fail; lia|].
  apply fakes_sendfile; [done|lia|]. rewrite Hb6, Hb5, Hb4, Hb3, Hb2, Hb1. lia.
Qed.

(** A call that opens a descriptor: it is a new one. *)
Lemma new_fd_fresh fds r : let x := r_ret (new_fd fds r) in x = -1 \/ 2 < x /\ x ∉ fds.
Proof.
  unfold new_fd. simpl. destruct (Z.ltb_spec 2 (r_ret r)); simpl; [|auto].
  case_bool_decide; auto.
Qed.

(** [send_fake]: what the peer has in the end are the real bytes. *)
Lemma send_fake_tail_spec sfd lp pos fa opt pkt addr w :
  opt_wf opt -> packet_wf pkt -> 0 <= pk_size pkt -> 0 <= lp < pos -> pos <= zlen (w_buf w) ->
  sends sfd lp pos
    (ffd ← call SysMemfd;
     if ffd <? 0 then mret (-1) else
     '(p, len) ← send_fake_body sfd ffd lp (pos - lp) fa opt pkt addr;
     _ ← (if (p : bool) then call (SysMunmap ffd (pos - lp)) else mret 0);
     _ ← close ffd;
     mret len) w.
Proof.
  intros Hopt Hpkt Hsz H1 H2. apply wp_bind. unfold call at 1. apply wp_bind, wp_sys.
  intros r Hr. apply wp_ret.
  assert (Hm : forall m', (forall f, f <> r_ret r -> m' !! f = None) ->
            adds_at m' ∅ sfd [(SysMemfd, r)] []).
  { intros m' Hm'. replace (∅ : gmap Z (list Z)) with (delete (r_ret r) m'); [apply adds_memfd|].
    apply map_eq. intros f. rewrite lookup_empty. destruct (decide (f = r_ret r)) as [->|Hne].
    - apply lookup_delete_eq.
    - rewrite lookup_delete_ne by done. auto. }
  destruct (new_fd_fresh (w_fds w) (w_env w (w_trace w) SysMemfd)) as [Hx|[Hx1 Hx2]];
    change (r_ret (new_fd _ _)) with (r_ret (sane w SysMemfd (w_env w (w_trace w) SysMemfd))) in *;
    rewrite <- Hr in *.
  { rewrite Hx. apply wp_ret. eexists _, []. split; [split; [split; [apply frame_sys|]|by apply Hm]|].
    - unfold kernel. by rewrite Hx.
    - intros _. by left. }
  replace (r_ret r <? 0) with false by lia.
  set (w1 := with_trace _ _). assert (Hf1 : frame w w1 [(SysMemfd, r)]) by apply frame_sys.
  assert (Hfds1 : w_fds w1 = {[r_ret r]} ∪ w_fds w).
  { unfold w1, kernel. by replace (r_ret r <? 0) with false by lia. }
  apply wp_bind. eapply wp_mono; [apply send_fake_body_spec; [done..|by rewrite (f_buf _ _ _ Hf1)]|].
  intros [p len] w2 (n2 & d & m' & [Hf2 Hfds2] & Ha & Hm' & Hd). simpl in Hd.
  apply wp_bind. eapply wp_mono with (Q := fun _ w' => exists new, keeps w2 w' new /\ quiet_trace new /\ True).
  { destruct p; [by apply silent_call|by apply silent_ret]. }
  intros _ w3 (n3 & [Hf3 Hfds3] & Q3 & _).
  apply wp_bind, wp_close; [set_solver|]. intros r4 Hr4. apply wp_ret.
  change (w_buf (kernel SysMemfd r w)) with (w_buf w1) in Hd. rewrite (f_buf _ _ _ Hf1) in Hd.
  eexists _, d. split; [|intros _; exact Hd]. split; [split|].
  - exact (frame_trans _ _ _ _ _ (frame_trans _ _ _ _ _ (frame_trans _ _ _ _ _ Hf1 Hf2) Hf3)
             (frame_sys _ _ _)).
  - unfold kernel. rewrite Hr4. simpl. set_solver.
  - rewrite <- (app_nil_l d), <- (app_nil_r ([] ++ d)), <- (app_nil_r (([] ++ d) ++ [])).
    eapply adds_app; [|by apply adds_quiet; constructor].
    eapply adds_app; [|by apply adds_quiet]. eapply adds_app; [|exact Ha]. by apply Hm.
Qed.

(** * Parts *)

(** The configuration a group is given by main.c. *)
Definition conf_wf (ps : params) (dp : desync_params) : Prop :=
  opt_wf dp /\ 0 <= dp_fake_offset dp /\ packet_wf (dp_fake_data dp) /\
  packet_wf (ps_fake_tls ps) /\ packet_wf (ps_fake_http ps).

Lemma packet_wf_size p : packet_wf p -> 0 <= pk_size p.
Proof. unfold packet_wf. case_match; lia. Qed.
Lemma conf_wf_same ps ps' dp : same_params ps ps' -> conf_wf ps dp -> conf_wf ps' dp.
Proof. by intros [b ->]. Qed.

Lemma send_fake_spec sfd lp type pos fa opt w :
  conf_wf (w_params w) opt -> 0 <= lp < pos -> pos <= zlen (w_buf w) ->
  sends sfd lp pos (send_fake sfd lp type (pos - lp) fa opt) w.
Proof.
  intros Hconf H1 H2. unfold send_fake.
  eapply sends_after with (P := fun _ _ => True);
    [case_match; [by apply silent_sys|by apply silent_ret]|].
  intros r w1 n1 _ [F _].
  destruct (Z.ltb_spec (r_ret r) 0); [right; eexists; split; [done|lia]|left].
  apply wp_bind, wp_get.
  assert (packet_wf (fake_packet (if negb (type =? IS_HTTP) then ps_fake_tls (w_params w1)
                                  else ps_fake_http (w_params w1)) opt)).
  { destruct (conf_wf_same _ _ _ (f_params _ _ _ F) Hconf) as (_ & ? & ? & ? & ?).
    apply fake_packet_wf; [by case_match|done..]. }
  apply send_fake_tail_spec; [apply Hconf|done|by apply packet_wf_size|done|].
  by rewrite (f_buf _ _ _ F).
Qed.

Lemma sub_nil b o : sub b o 0 = [].
Proof. unfold sub. by rewrite take_0. Qed.
Lemma sends_nothing sfd lp pos w : lp <= pos -> sends sfd lp pos (mret 0) w.
Proof.
  intros. apply wp_ret. exists [], []. split; [apply eff_quiet; [apply keeps_refl|constructor]|].
  intros _. right. split; [lia|]. by rewrite sub_nil.
Qed.

Lemma send_part_spec m sfd type lp pos fa opt w :
  conf_wf (w_params w) opt -> 0 <= lp <= pos -> pos < zlen (w_buf w) < 2 ^ 31 ->
  sends sfd lp pos (send_part m sfd type lp pos fa opt) w.
Proof.
  intros Hconf H1 H2. destruct m; cbn [send_part].
  - apply send_split_spec; lia.
  - apply send_split_spec; lia.
  - apply send_disorder_spec; lia.
  - by apply send_oob_spec.
  - by apply send_late_oob_spec.
  - destruct (Z.eqb_spec pos lp) as [->|]; simpl; [by apply sends_nothing|].
    apply send_fake_spec; [done|lia..].
Qed.

(** The parts sent so far are the bytes of the buffer from [lp] on; where they
    end is known whether the calls were [clean] or not. *)
Definition parts_sent (b : list Z) (n lp : Z) (s : step Z) (d : list Z) : Prop :=
  exists k, 0 <= k <= n - lp /\ d = sub b lp k /\
    match s with Return v => v = -1 \/ v = lp + k | Next lp' => lp' = lp + k end.
Definition step_range (n lp : Z) (s : step Z) : Prop :=
  match s with Return _ => True | Next lp' => lp <= lp' <= n end.

Lemma parts_sent_nil b n lp s :
  lp <= n -> match s with Return v => v = -1 \/ v = lp | Next lp' => lp' = lp end ->
  parts_sent b n lp s [].
Proof.
  intros Hn Hs. exists 0. split; [lia|]. split; [by rewrite sub_nil|]. destruct s; lia.
Qed.

Lemma parts_loop_spec sfd type host n offset fa opt w lp l :
  conf_wf (w_params w) opt -> 0 <= lp <= n -> n < zlen (w_buf w) < 2 ^ 31 ->
  wp (parts_loop l sfd type host n offset lp fa opt)
    (fun s w' => exists new d, eff sfd w w' new d /\ step_range n lp s /\
       (Forall clean new -> parts_sent (w_buf w) n lp s d)) w.
Proof.
  revert lp w. induction l as [|p l IH]; intros lp w Hconf H1 H2; cbn [parts_loop].
  { apply wp_ret. exists [], []. split; [apply eff_quiet; [apply keeps_refl|constructor]|].
    split; [simpl; lia|]. intros _. apply parts_sent_nil; lia. }
  destruct (part_pos p type host n) as [pos|]; [|by apply IH].
  ccase; [by apply IH|]. ccase.
  { apply wp_ret. exists [], []. split; [apply eff_quiet; [apply keeps_refl|constructor]|].
    split; [simpl; lia|]. intros _. apply parts_sent_nil; lia. }
  apply wp_bind. eapply wp_mono; [apply send_part_spec; [done|lia..]|].
  intros s w1 (n1 & d1 & He1 & Hd1). destruct He1 as [[F1 E1] A1].
  destruct (Z.ltb_spec s 0); [|destruct (Z.eqb_spec s (pos - lp)) as [->|]; simpl].
  - apply wp_bind, wp_get, wp_ret. exists n1, d1. split; [done|]. split; [done|]. intros Hc.
    destruct (Hd1 Hc) as [[_ ->]|]; [|lia]. apply parts_sent_nil; [lia|]. ccase; lia.
  - eapply wp_mono; [apply IH; [by eapply conf_wf_same; [apply F1|]|lia|]|].
    { rewrite (f_buf _ _ _ F1). lia. }
    intros s w2 (n2 & d2 & He2 & Hr & Hd2). exists (n2 ++ n1), (d1 ++ d2).
    split; [eapply eff_compose; [by split|done]|].
    split; [destruct s; simpl in *; [done|lia]|]. rewrite Forall_app. intros [Hc2 Hc1].
    destruct (Hd1 Hc1) as [[]|[_ ->]]; [lia|]. destruct (Hd2 Hc2) as (k & Hk & -> & Hs).
    exists (pos - lp + k). split; [lia|]. split; [|destruct s; lia].
    rewrite (f_buf _ _ _ F1). rewrite <- (sub_app_join _ _ (pos - lp) k) by lia. do 2 f_equal. lia.
  - apply wp_ret. exists n1, d1. split; [done|]. split; [done|]. intros Hc.
    destruct (Hd1 Hc) as [[]|[? ->]]; [lia|]. exists s. split; [lia|]. split; [done|lia].
Qed.

(** * The whole routine *)

(** The last call was a [send] of the rest of the packet that took only a part
    of it. *)
Definition short_last (new : trace) : Prop :=
  exists fd d r rest, new = (SysSend fd d 0, r) :: rest /\ 0 <= r_ret r < zlen d.

(** What [desync] returns and what it has sent: [k] bytes from [offset] on. *)
Definition outcome (b : list Z) (n offset v : Z) (d : list Z) (new : trace) : Prop :=
  exists k, 0 <= k <= n - offset /\ d = sub b offset k /\
    (v = -1 \/ v = offset + k \/ (v = n /\ short_last new)).

(** The last part. *)
Lemma send_rest_spec sfd lp n w :
  0 <= lp <= n -> n <= zlen (w_buf w) < 2 ^ 31 ->
  wp (if lp <? n then
        d ← buf_get lp (n - lp);
        r ← call (SysSend sfd d 0);
        if r <? 0 then e ← get_e; mret (if e =? EAGAIN then lp else -1) else mret n
      else mret n)
    (fun v w' => exists new d, eff sfd w w' new d /\ outcome (w_buf w) n lp v d new) w.
Proof.
  intros H1 H2. destruct (Z.ltb_spec lp n).
  - apply wp_bind, wp_buf_get; [lia..|]. unfold call. apply wp_bind, wp_bind, wp_sys.
    intros r Hr. apply wp_ret. set (d := sub (w_buf w) lp (n - lp)) in *.
    assert (Hd : zlen d = n - lp) by (apply zlen_sub; lia).
    assert (Hrange : -1 <= r_ret r <= zlen d) by (rewrite Hr; apply sane_send; lia).
    pose proof (eff_sys sfd w (SysSend sfd d 0) r _ eq_refl (adds_send ∅ sfd d 0 r)) as He.
    replace (sent_bytes d 0 (r_ret r)) with (sub d 0 (r_ret r)) in He by done.
    destruct (Z.ltb_spec (r_ret r) 0).
    + apply wp_bind, wp_get, wp_ret. eexists _, _. split; [exact He|].
      exists 0. split; [lia|]. split; [|ccase; lia].
      rewrite sub_nil. unfold sub at 1. by replace (Z.to_nat (r_ret r)) with 0%nat by lia.
    + apply wp_ret. eexists _, _. split; [exact He|].
      exists (r_ret r). split; [lia|]. split; [apply sub_sub; lia|].
      destruct (decide (r_ret r = n - lp)); [right; left; lia|].
      right. right. split; [done|]. eexists _, _, _, _. split; [done|]. lia.
  - apply wp_ret. exists [], []. split; [apply eff_quiet; [apply keeps_refl|constructor]|].
    exists 0. split; [lia|]. split; [by rewrite sub_nil|]. lia.
Qed.

Lemma short_last_app n1 n2 : short_last n2 -> short_last (n2 ++ n1).
Proof. intros (fd & d & r & rest & -> & H). exists fd, d, r, (rest ++ n1). done. Qed.

Lemma outcome_after b n lp lp' v d1 d new1 new :
  0 <= lp -> n <= zlen b -> parts_sent b n lp (Next lp') d1 -> outcome b n lp' v d new ->
  outcome b n lp v (d1 ++ d) (new ++ new1).
Proof.
  intros H0 Hn (k1 & Hk1 & -> & ->) (k & Hk & -> & Hv). exists (k1 + k). split; [lia|]. split.
  - rewrite sub_app_join by lia. done.
  - destruct Hv as [|[|[? Hs]]]; [auto|right; left; lia|].
    right. right. split; [done|]. by apply short_last_app.
Qed.

Lemma send_all_spec sfd type host n offset fa dp w :
  conf_wf (w_params w) dp -> 0 <= offset <= n -> n < zlen (w_buf w) < 2 ^ 31 ->
  wp (s ← parts_loop (dp_parts dp) sfd type host n offset offset fa dp;
      match s with
      | Return v => mret v
      | Next lp =>
          if lp <? n then
            d ← buf_get lp (n - lp);
            r ← call (SysSend sfd d 0);
            if r <? 0 then e ← get_e; mret (if e =? EAGAIN then lp else -1) else mret n
          else mret n
      end)
    (fun v w' => exists new d, eff sfd w w' new d /\
       (Forall clean new -> outcome (w_buf w) n offset v d new)) w.
Proof.
  intros Hconf H1 H2. apply wp_bind. eapply wp_mono; [by apply parts_loop_spec|].
  intros s w1 (n1 & d1 & He1 & Hr & Hd1). pose proof (k_buf _ _ _ (proj1 He1)) as Hb1.
  destruct s as [v|lp].
  - apply wp_ret. exists n1, d1. split; [done|]. intros Hc.
    destruct (Hd1 Hc) as (k & Hk & -> & Hv). exists k. naive_solver.
  - simpl in Hr. eapply wp_mono; [apply send_rest_spec; rewrite ?Hb1; lia|].
    intros v w2 (n2 & d2 & He2 & Ho). exists (n2 ++ n1), (d1 ++ d2).
    split; [by eapply eff_compose|]. intros [_ Hc]%Forall_app. rewrite Hb1 in Ho.
    eapply outcome_after; eauto; lia.
Qed.

Lemma c_drop_sack_spec sfd w : silent (c_drop_sack sfd) w (fun _ _ => True).
Proof.
  unfold c_drop_sack. eapply silent_bind; [by apply (silent_call _ _ (fun _ _ => True))|].
  intros r w1 n1 _ _. by apply silent_ret.
Qed.

(** From the modified packet on. *)
Lemma desync_tail_spec sfd type host n offset fa dp w :
  conf_wf (w_params w) dp -> 0 <= offset <= n -> n < zlen (w_buf w) < 2 ^ 31 ->
  wp (r ← (if dp_drop_sack dp then c_drop_sack sfd else mret 0);
      if negb (r =? 0) then mret (-1) else
      s ← parts_loop (dp_parts dp) sfd type host n offset offset fa dp;
      match s with
      | Return v => mret v
      | Next lp =>
          if lp <? n then
            d ← buf_get lp (n - lp);
            r ← call (SysSend sfd d 0);
            if r <? 0 then e ← get_e; mret (if e =? EAGAIN then lp else -1) else mret n
          else mret n
      end)
    (fun v w' => exists new d, eff sfd w w' new d /\
       (Forall clean new -> outcome (w_buf w) n offset v d new)) w.
Proof.
  intros Hconf H1 H2. apply wp_bind.
  eapply wp_mono with (Q := fun _ w' => exists new, keeps w w' new /\ quiet_trace new /\ True).
  { case_match; [apply c_drop_sack_spec|by apply silent_ret]. }
  intros r w1 (n1 & K1 & Q1 & _). pose proof (eff_quiet sfd _ _ _ K1 Q1) as He1.
  pose proof (k_buf _ _ _ K1) as Hb1. ccase.
  - apply wp_ret. exists n1, []. split; [done|]. intros _. exists 0. split; [lia|].
    split; [by rewrite sub_nil|auto].
  - eapply wp_mono; [apply send_all_spec; rewrite ?Hb1; try done|].
    { eapply conf_wf_same; [apply K1|done]. }
    intros v w2 (n2 & d2 & He2 & Ho). exists (n2 ++ n1), d2.
    split; [exact (eff_compose _ _ _ _ _ _ _ _ He1 He2)|]. rewrite Hb1 in Ho.
    intros [Hc _]%Forall_app. destruct (Ho Hc) as (k & Hk & Hd & Hv). exists k.
    split; [done|]. split; [done|]. destruct Hv as [|[|[? ?]]]; auto.
    right. right. split; [done|]. by apply short_last_app.
Qed.

Lemma desync_spec sfd bfsize n offset dst m dp w type host b' n' :
  0 <= m -> ps_dp (w_params w) !! Z.to_nat m = Some dp -> conf_wf (w_params w) dp ->
  classify (w_buf w) n = Ok (type, host) ->
  modify_packet dp (w_buf w) bfsize n type host = Ok (Some (b', n')) ->
  0 <= offset <= n' -> n' < zlen b' < 2 ^ 31 ->
  wp (desync sfd bfsize n offset dst m)
    (fun v w' => exists new d, eff sfd (with_buf b' w) w' new d /\
       (Forall clean new -> outcome b' n' offset v d new)) w.
Proof.
  intros Hm Hdp Hconf Hcl Hmod H1 H2. unfold desync, dp_at.
  apply wp_bind, wp_bind, wp_get. replace (0 <=? m) with true by lia. rewrite Hdp. apply wp_ret.
  apply wp_bind, wp_get, wp_bind, wp_lift. rewrite Hcl. cbn [succeeds].
  apply wp_bind, wp_lift. rewrite Hmod. cbn [succeeds]. apply wp_bind, wp_modify.
  by apply desync_tail_spec.
Qed.

(** * Properties *)

(** C8: [desync] delivers the packet, if the system answers as the code expects
    ([clean]: options can be set, and a block with an urgent byte is accepted whole or
    not at all).  With any parts, modes and position to resume from, it leaves the
    modified packet in the buffer and the descriptors as they were, and the bytes it
    has added to the peer's stream are exactly those of the modified packet from
    [offset] to the position it returns; or it returns -1; or it returns [n'] although
    the last [send] was short.  What the excluded answers do is shown by
    [oob_partial_send_repeats_byte] and [short_last_send_is_lost]. *)
Theorem desync_stream (sfd bfsize n offset m type host n' : Z) (dst : sockaddr)
    (dp : desync_params) (b' : list Z) (w : world) :
  0 <= m -> ps_dp (w_params w) !! Z.to_nat m = Some dp -> conf_wf (w_params w) dp ->
  classify (w_buf w) n = Ok (type, host) ->
  modify_packet dp (w_buf w) bfsize n type host = Ok (Some (b', n')) ->
  0 <= offset <= n' -> n' < zlen b' < 2 ^ 31 ->
  exists v w' new, desync sfd bfsize n offset dst m w = Ok (v, w') /\
    w_buf w' = b' /\ w_fds w' = w_fds w /\ w_trace w' = new ++ w_trace w /\
    (Forall clean new ->
     exists k, 0 <= k <= n' - offset /\
       stream sfd (w_trace w') = stream sfd (w_trace w) ++ sub b' offset k /\
       (v = -1 \/ v = offset + k \/ (v = n' /\ short_last new))).
Proof.
  intros Hm Hdp Hconf Hcl Hmod H1 H2.
  destruct (wp_Ok _ _ _ (desync_spec sfd bfsize n offset dst m dp w type host b' n'
    Hm Hdp Hconf Hcl Hmod H1 H2)) as (v & w' & E & new & d & [[F Hfds] A] & Ho).
  exists v, w', new. split; [done|]. split; [by rewrite (f_buf _ _ _ F)|]. split; [done|].
  split; [by rewrite (f_trace _ _ _ F)|]. intros Hc. destruct (Ho Hc) as (k & Hk & -> & Hv).
  exists k. split; [done|]. split; [|done]. rewrite (f_trace _ _ _ F). apply A.
Qed.

(** A group with a part of every kind, for a request to the built-in host. *)
Definition sample_parts : list part :=
  [Part DESYNC_SPLIT 0 1; Part DESYNC_DISORDER 0 3; Part DESYNC_OOB 0 5;
   Part DESYNC_FAKE OFFSET_HOST 0; Part DESYNC_DISOOB OFFSET_HOST 2].
Definition sample_group (mod_http : Z) (tlsrec : list part) : desync_params :=
  DesyncParams 0 None 0 true (Packet 0 None) 1 2 true (0, 0) sample_parts mod_http tlsrec 0 0
    None (0, 0) None 0.
Definition sample_world (mod_http : Z) (tlsrec : list part) : world :=
  world_ok [sample_group mod_http tlsrec] (http_data ++ replicate 10 0).

Lemma sample_conf mh tr : conf_wf (w_params (sample_world mh tr)) (sample_group mh tr).
Proof. repeat split; vm_compute; congruence. Qed.

Definition sample_modified : list Z :=
  match modify_packet (sample_group 2 []) (w_buf (sample_world 2 [])) 53 43 IS_HTTP 22 with
  | Ok (Some (b, _)) => b
  | _ => []
  end.

Lemma desync_stream_witness :
  exists v w' new k, desync 5 53 43 1 zero_addr 0 (sample_world 2 []) = Ok (v, w') /\
    w_buf w' = sample_modified /\ w_trace w' = new ++ [] /\ Forall clean new /\ v = 43 /\ k = 42 /\
    stream 5 (w_trace w') = stream 5 [] ++ sub sample_modified 1 k.
Proof.
  destruct (desync_stream 5 53 43 1 0 IS_HTTP 22 43 zero_addr (sample_group 2 [])
    sample_modified (sample_world 2 [])) as (v & w' & new & E & Hb & _ & Ht & Hs).
  - lia.
  - reflexivity.
  - apply sample_conf.
  - vm_compute. reflexivity.
  - vm_compute. reflexivity.
  - lia.
  - vm_compute. split; reflexivity.
  - assert (Hv : v = 43 /\ Forall clean (w_trace w') /\ length (stream 5 (w_trace w')) = 42%nat).
    { apply (f_equal (fun x => match x with Ok (a, b) => Some (a, w_trace b) | _ => None end)) in E.
      remember (w_trace w') as tr eqn:Htr. clear - E. vm_compute in E. injection E as <- <-.
      split; [done|]. split; [|vm_compute; reflexivity].
      repeat constructor; vm_compute; try congruence; intros; right; reflexivity. }
    destruct Hv as (-> & Hc & Hl).
    change (w_trace (sample_world 2 [])) with (@nil (sysreq * sysrsp)) in *.
    rewrite Ht, app_nil_r in Hc. destruct (Hs Hc) as (k & Hk & Hst & _).
    exists 43, w', new, k. rewrite Hst in Hl |- *.
    assert (zlen sample_modified = 53) by reflexivity.
    change (stream 5 []) with (@nil Z) in *. rewrite length_app, length_sub in Hl by lia.
    simpl length in Hl. split_and!; auto. lia.
Defined.

(** C9: For a group that does not rewrite HTTP headers, and every packet in the work
    buffer: the packet is classified and its records are cut, as long as they fit, with
    no access outside the buffer; and if the packet does not then fill the buffer to its
    last byte, [desync] is defined: no access outside the buffer, no descriptor left
    open or closed twice, and after [clean] calls the position returned is -1 or inside
    the packet.  A packet that fills the buffer is the run
    [oob_at_buffer_end_overflows]. *)
Theorem desync_safe (sfd bfsize n offset m : Z) (dst : sockaddr) (dp : desync_params) (w : world) :
  0 <= m -> ps_dp (w_params w) !! Z.to_nat m = Some dp -> conf_wf (w_params w) dp ->
  dp_mod_http dp = 0 -> is_bytes (w_buf w) -> zlen (w_buf w) = bfsize -> bfsize < 2 ^ 31 ->
  0 <= offset <= n -> n <= bfsize ->
  exists type host b' n', classify (w_buf w) n = Ok (type, host) /\
    modify_packet dp (w_buf w) bfsize n type host = Ok (Some (b', n')) /\
    n <= n' <= bfsize /\ n' <= n + 5 * zlen (dp_tlsrec dp) /\
    (n' < bfsize -> exists v w' new, desync sfd bfsize n offset dst m w = Ok (v, w') /\
    w_fds w' = w_fds w /\ w_buf w' = b' /\ zlen b' = bfsize /\
    w_trace w' = new ++ w_trace w /\ (Forall clean new -> v = -1 \/ offset <= v <= n')).
Proof.
  intros Hm Hdp Hconf Hmh Hby Hl Hs Ho Hn.
  destruct (classify_ok (w_buf w) n) as (type & host & Hcl); [done|lia|].
  destruct (modify_packet_ok dp (w_buf w) bfsize n type host) as (b' & n' & Hmod & Hlb & Hn' & Hn2);
    [lia..|done|].
  exists type, host, b', n'. split_and!; try done; [lia..|]. intros Hfit.
  destruct (wp_Ok _ _ _ (desync_spec sfd bfsize n offset dst m dp w type host b' n'
    Hm Hdp Hconf Hcl Hmod ltac:(lia) ltac:(lia))) as (v & w' & E & new & d & [[F Hfds] _] & Hout).
  exists v, w', new. split; [done|]. split; [done|]. split; [by rewrite (f_buf _ _ _ F)|].
  split; [lia|]. split; [by rewrite (f_trace _ _ _ F)|].
  intros Hc. destruct (Hout Hc) as (k & Hk & _ & Hv). lia.
Qed.

Definition hello_world : world :=
  world_ok [sample_group 0 [Part DESYNC_NONE OFFSET_SNI 2; Part DESYNC_NONE OFFSET_SNI 1]]
    (tls_data ++ replicate 20 0).

Lemma desync_safe_witness :
  exists v w' b' n' new, desync 5 537 517 0 zero_addr 0 hello_world = Ok (v, w') /\ v = 522 /\
    w_fds w' = w_fds hello_world /\ w_buf w' = b' /\ zlen b' = 537 /\ 517 <= n' <= 527 /\
    w_trace w' = new ++ [] /\ (Forall clean new -> v = -1 \/ 0 <= v <= n').
Proof.
  destruct (desync_safe 5 537 517 0 0 zero_addr
    (sample_group 0 [Part DESYNC_NONE OFFSET_SNI 2; Part DESYNC_NONE OFFSET_SNI 1]) hello_world)
    as (type & host & b' & n' & _ & _ & Hn1 & Hn2 & H).
  - lia.
  - reflexivity.
  - repeat split; vm_compute; congruence.
  - reflexivity.
  - apply List.Forall_forall. intros x Hx.
    assert (Hall : forallb (fun x => (0 <=? x) && (x <? 256)) (tls_data ++ replicate 20 0) = true)
      by (vm_compute; reflexivity).
    rewrite forallb_forall in Hall. apply Hall in Hx. lia.
  - vm_compute. reflexivity.
  - lia.
  - lia.
  - lia.
  - assert (Hn : 517 <= n' <= 527) by (change (zlen (dp_tlsrec (sample_group 0 [Part DESYNC_NONE OFFSET_SNI 2; Part DESYNC_NONE OFFSET_SNI 1]))) with 2 in Hn2; lia).
    destruct (H ltac:(lia)) as (v & w' & new & E & H1 & H2 & H3 & H4 & H5).
    exists v, w', b', n', new. split; [exact E|]. split; [|split_and!; assumption || lia].
    apply (f_equal (fun x => match x with Ok (a, _) => Some a | _ => None end)) in E.
    clear - E. vm_compute in E. congruence.
Defined.
