(* ===== verification/DesyncTtl.v ===== *)
(** The time-to-live of the socket: the low values that keep fake and disordered
    segments from reaching the server never outlast [desync]. *)
From S2P Require Import Prelude CLib Packets Mpool Params World Stream Desync DesyncSpec.

(** * The time-to-live of a descriptor, from the trace *)
Definition sets_ttl (fd : Z) (q : sysreq) : option (list Z) :=
  match q with
  | SysSetsockopt f level opt val =>
      if (f =? fd) && (((level =? IPPROTO_IP) && (opt =? IP_TTL)) ||
                       ((level =? IPPROTO_IPV6) && (opt =? IPV6_UNICAST_HOPS)))
      then Some val else None
  | _ => None
  end.
Fixpoint last_ttl (fd : Z) (tr : trace) : option (list Z) :=
  match tr with
  | [] => None
  | (q, r) :: tr =>
      match (if r_ret r <? 0 then None else sets_ttl fd q) with
      | Some v => Some v
      | None => last_ttl fd tr
      end
  end.
(** the newer value, if there is one *)
Definition newer (t' t : option (list Z)) : option (list Z) :=
  match t' with Some _ => t' | None => t end.

Lemma last_ttl_app fd n2 n1 : last_ttl fd (n2 ++ n1) = newer (last_ttl fd n2) (last_ttl fd n1).
Proof. induction n2 as [|[q r] n2 IH]; [done|]. simpl. by destruct (if r_ret r <? 0 then _ else _). Qed.

(** Options are set, and [sendfile] does not fail. *)
Definition options_ok (e : sysreq * sysrsp) : Prop :=
  match e.1 with
  | SysSetsockopt _ _ _ _ | SysSendfile _ _ _ => 0 <= r_ret e.2
  | _ => True
  end.

(** * Runs that are followed only for their effect on it *)
Definition ttl_run {A} (fd : Z) (m : io A) (w : world) (Q : A -> option (list Z) -> Prop) : Prop :=
  wlp m (fun a w' => exists new, w_trace w' = new ++ w_trace w /\
    same_params (w_params w) (w_params w') /\
    (Forall options_ok new -> Q a (last_ttl fd new))) w.

Section Rules.
Context {A B : Type} (fd : Z).
Implicit Types (w : world) (m : io A).

Lemma ttl_bind m (f : A -> io B) w P Q :
  ttl_run fd m w P ->
  (forall a w', same_params (w_params w) (w_params w') ->
     ttl_run fd (f a) w' (fun b t' => forall t, P a t -> Q b (newer t' t))) ->
  ttl_run fd (m ≫= f) w Q.
Proof.
  intros Hm Hf. apply wlp_bind. eapply wlp_mono; [exact Hm|].
  intros a w' (new & Ht & Hs & Hp). eapply wlp_mono; [by apply Hf|].
  intros b w2 (new2 & Ht2 & Hs2 & Hq). exists (new2 ++ new).
  split; [by rewrite Ht2, Ht, app_assoc|]. split; [by eapply same_params_trans|].
  rewrite Forall_app, last_ttl_app. intros [H2 H1]. auto.
Qed.
Lemma ttl_ret (a : A) w Q : Q a None -> ttl_run fd (mret a) w Q.
Proof. intros. apply wlp_ret. exists []. split; [done|]. split; [apply same_params_refl|done]. Qed.
Lemma ttl_get (f : world -> A) w Q : Q (f w) None -> ttl_run fd (get f) w Q.
Proof. intros. apply wlp_wp, wp_get. exists []. split; [done|]. split; [apply same_params_refl|done]. Qed.
Lemma ttl_lift (m : res A) w Q : (forall a, Q a None) -> ttl_run fd (lift m) w Q.
Proof.
  intros H. unfold ttl_run, wlp, lift. destruct m as [a|]; [|done].
  exists []. split; [done|]. split; [apply same_params_refl|done].
Qed.
Lemma ttl_mono m w (P Q : A -> option (list Z) -> Prop) :
  ttl_run fd m w P -> (forall a t, P a t -> Q a t) -> ttl_run fd m w Q.
Proof. intros H HPQ. eapply wlp_mono; [exact H|]. naive_solver. Qed.
End Rules.

Lemma ttl_sys fd q w Q :
  (forall r, options_ok (q, r) -> Q r (if r_ret r <? 0 then None else sets_ttl fd q)) ->
  ttl_run fd (sys q) w Q.
Proof.
  intros H. apply wlp_wp, wp_sys. intros r Hr. exists [(q, r)]. split; [done|].
  split; [apply (f_params _ _ _ (frame_sys w q r))|]. intros [Ho _]%Forall_cons.
  specialize (H r Ho). simpl. by destruct (if r_ret r <? 0 then _ else _).
Qed.
Lemma ttl_call fd q w Q :
  (forall r, options_ok (q, r) -> Q (r_ret r) (if r_ret r <? 0 then None else sets_ttl fd q)) ->
  ttl_run fd (call q) w Q.
Proof.
  intros H. eapply ttl_bind; [by apply (ttl_sys fd q w (fun r t => Q (r_ret r) t))|].
  intros r w' _. apply ttl_ret. done.
Qed.

(** ** Calls that do not touch it *)
Definition ttl_kept {A} (fd : Z) (m : io A) (w : world) : Prop :=
  ttl_run fd m w (fun _ t => t = None).

Lemma kept_bind {A B} fd (m : io A) (f : A -> io B) w :
  ttl_kept fd m w -> (forall a w', ttl_kept fd (f a) w') -> ttl_kept fd (m ≫= f) w.
Proof.
  intros Hm Hf. eapply ttl_bind; [exact Hm|]. intros a w' _. eapply ttl_mono; [apply Hf|].
  by intros b t -> ? ->.
Qed.
Lemma kept_call fd q w : sets_ttl fd q = None -> ttl_kept fd (call q) w.
Proof. intros H. apply ttl_call. intros. rewrite H. by case_match. Qed.
Lemma kept_sys fd q w : sets_ttl fd q = None -> ttl_kept fd (sys q) w.
Proof. intros H. apply ttl_sys. intros. rewrite H. by case_match. Qed.
Lemma kept_ret {A} fd (a : A) w : ttl_kept fd (mret a) w.
Proof. by apply ttl_ret. Qed.
Lemma kept_get {A} fd (f : world -> A) w : ttl_kept fd (get f) w.
Proof. by apply ttl_get. Qed.
Lemma kept_lift {A} fd (m : res A) w : ttl_kept fd (lift m) w.
Proof. by apply ttl_lift. Qed.
Lemma kept_modify fd f w :
  w_trace (f w) = w_trace w -> same_params (w_params w) (w_params (f w)) -> ttl_kept fd (modify f) w.
Proof. intros Ht Hs. apply wlp_wp, wp_modify. exists []. done. Qed.
Lemma kept_close fd f w : ttl_kept fd (close f) w.
Proof.
  unfold ttl_kept, ttl_run, wlp, close. case_decide; [|done].
  match goal with |- match ?m w with _ => _ end => change (ttl_kept fd m w) end.
  apply kept_bind; [by apply kept_sys|]. intros. apply kept_ret.
Qed.
Lemma kept_sockopt fd f level opt val :
  (level =? IPPROTO_IP) && (opt =? IP_TTL) = false ->
  (level =? IPPROTO_IPV6) && (opt =? IPV6_UNICAST_HOPS) = false ->
  sets_ttl fd (SysSetsockopt f level opt val) = None.
Proof. intros H1 H2. simpl. by rewrite H1, H2, andb_false_r. Qed.

Create HintDb ttl.
#[export] Hint Resolve kept_ret kept_get kept_lift kept_close : ttl.
#[export] Hint Resolve kept_call kept_sys kept_sockopt : ttl.
Ltac kept :=
  repeat (first [ solve [eauto with ttl] | apply kept_bind; [|intros] | case_match ]).

Lemma delay_kept fd ms w : ttl_kept fd (delay ms) w.
Proof. unfold delay. kept. Qed.
#[export] Hint Resolve delay_kept : ttl.
Lemma wait_send_loop_kept fd i sfd w : ttl_kept fd (wait_send_loop i sfd) w.
Proof.
  revert w. induction i as [|i IH]; intros w; cbn [wait_send_loop]; cbn zeta; kept.
  apply kept_modify; [done|]. by exists false.
Qed.
#[export] Hint Resolve wait_send_loop_kept : ttl.
Lemma wait_send_if_support_kept fd sfd w : ttl_kept fd (wait_send_if_support sfd) w.
Proof. unfold wait_send_if_support, wait_send. kept. Qed.
#[export] Hint Resolve wait_send_if_support_kept : ttl.
Lemma buf_get_kept fd o n w : ttl_kept fd (buf_get o n) w.
Proof. unfold buf_get. kept. Qed.
Lemma buf_put_kept fd o d w : ttl_kept fd (buf_put o d) w.
Proof.
  unfold buf_put. kept. apply kept_modify; [done|]. exact (same_params_refl _).
Qed.
#[export] Hint Resolve buf_get_kept buf_put_kept : ttl.
Lemma set_md5sig_kept fd opt sfd addr k w : ttl_kept fd (set_md5sig opt sfd addr k) w.
Proof. unfold set_md5sig. kept. Qed.
Lemma set_ip_options_kept fd opt sfd fa len w : ttl_kept fd (set_ip_options opt sfd fa len) w.
Proof. unfold set_ip_options. kept. Qed.
#[export] Hint Resolve set_md5sig_kept set_ip_options_kept : ttl.
Lemma send_oob_kept fd sfd off pos c w : ttl_kept fd (send_oob sfd off pos c) w.
Proof. unfold send_oob. kept. Qed.
#[export] Hint Resolve send_oob_kept : ttl.

(** * Restoring it *)

(** [setttl] gives the socket the new value. *)
Lemma setttl_ttl fd ttl fa w :
  ttl_run fd (setttl fd ttl fa) w (fun a t => a = 0 /\ t = Some (le32 ttl)).
Proof.
  unfold setttl. case_match; (eapply ttl_bind;
    [eapply (ttl_call _ _ _ (fun a t => 0 <= a /\ t = Some (le32 ttl)));
     intros r Hr; unfold options_ok in Hr; simpl in Hr; simpl;
     rewrite Z.eqb_refl; simpl; ccase; lia || done|]);
    intros r w' _; apply ttl_ret; intros t [Hr ->]; (split; [ccase; lia|done]).
Qed.

(** Either nothing was set, or last the value all connections have. *)
Definition restored (p : params) (t : option (list Z)) : Prop :=
  t = None \/ t = Some (le32 (ps_def_ttl p)).

Lemma restored_same p p' t : same_params p p' -> restored p' t -> restored p t.
Proof. by intros [b ->]. Qed.
Lemma restored_kept {A} fd (m : io A) w p :
  ttl_kept fd m w -> ttl_run fd m w (fun _ t => restored p t).
Proof. intros H. eapply ttl_mono; [exact H|]. intros a t ->. by left. Qed.
Lemma restored_bind {A B} fd (m : io A) (f : A -> io B) w :
  ttl_run fd m w (fun _ t => restored (w_params w) t) ->
  (forall a w', ttl_run fd (f a) w' (fun _ t => restored (w_params w') t)) ->
  ttl_run fd (m ≫= f) w (fun _ t => restored (w_params w) t).
Proof.
  intros Hm Hf. eapply ttl_bind; [exact Hm|]. intros a w' Hs. eapply ttl_mono; [apply Hf|].
  intros b t' Ht'%(restored_same _ _ _ Hs) t Ht. by destruct Ht' as [->| ->]; [|right].
Qed.

(** The end of a routine that set it back: what came before does not matter. *)
Lemma set_back {A} fd fa w (v v' : A) :
  ttl_run fd (ps ← get w_params; r ← setttl fd (ps_def_ttl ps) fa; if r <? 0 then mret v else mret v') w
    (fun _ t => t = Some (le32 (ps_def_ttl (w_params w)))).
Proof.
  eapply ttl_bind; [by apply (ttl_get _ _ _ (fun a t => a = w_params w /\ t = None))|].
  intros ps w1 _. eapply ttl_bind; [apply setttl_ttl|]. intros r w2 _.
  case_match; apply ttl_ret; by intros t [_ ->] t2 [-> ->].
Qed.

(** [m] ends by setting the value back. *)
Definition backs {A} (fd : Z) (p : params) (m : io A) (w : world) : Prop :=
  ttl_run fd m w (fun _ t => t = Some (le32 (ps_def_ttl p))).

Lemma backs_same {A} fd p p' (m : io A) w : same_params p p' -> backs fd p' m w -> backs fd p m w.
Proof. by intros [b ->]. Qed.
Lemma backs_restored {A} fd p (m : io A) w :
  backs fd p m w -> ttl_run fd m w (fun _ t => restored p t).
Proof. intros H. eapply ttl_mono; [exact H|]. intros a t ->. by right. Qed.
(** After [m], of which [P] is known. *)
Lemma backs_bind {A B} fd (m : io A) (f : A -> io B) w (P : A -> Prop) :
  ttl_run fd m w (fun a _ => P a) ->
  (forall a w', backs fd (w_params w') (f a) w' \/ (exists b, f a = mret b) /\ ~ P a) ->
  backs fd (w_params w) (m ≫= f) w.
Proof.
  intros Hm Hf. eapply ttl_bind; [exact Hm|]. intros a w' Hs.
  destruct (Hf a w') as [H|[[b ->] HP]].
  - apply (backs_same _ _ _ _ _ Hs) in H. eapply ttl_mono; [exact H|]. by intros b t' -> t _.
  - apply ttl_ret. intros t Ha. done.
Qed.
Lemma backs_kept {A B} fd (m : io A) (f : A -> io B) w :
  ttl_kept fd m w -> (forall a w', backs fd (w_params w') (f a) w') ->
  backs fd (w_params w) (m ≫= f) w.
Proof.
  intros Hm Hf. eapply backs_bind with (P := fun _ => True); [by eapply ttl_mono|].
  intros a w'. left. apply Hf.
Qed.
(** ... and before calls that leave it. *)
Lemma backs_then {A B} fd (m : io A) (f : A -> io B) w :
  backs fd (w_params w) m w -> (forall a w', ttl_kept fd (f a) w') ->
  backs fd (w_params w) (m ≫= f) w.
Proof.
  intros Hm Hf. eapply ttl_bind; [exact Hm|]. intros a w' _. eapply ttl_mono; [apply Hf|].
  by intros b t -> t' ->.
Qed.
Lemma setttl_zero fd ttl fa w : ttl_run fd (setttl fd ttl fa) w (fun a _ => 0 <= a).
Proof. eapply ttl_mono; [apply setttl_ttl|]. intros a t [-> _]. lia. Qed.

(** Continue, unless the call failed. *)
Ltac unless_failed :=
  let r := fresh "r" in intros r ?; destruct (Z.ltb_spec r 0); [right; split; [by eexists|lia]|left].

Lemma send_disorder_backs fd off pos fa w :
  backs fd (w_params w) (send_disorder fd off pos fa) w.
Proof.
  unfold send_disorder. eapply backs_bind; [apply setttl_zero|]. unless_failed.
  apply backs_kept; [kept|]. intros d w2. apply backs_kept; [kept|]. intros len w3.
  apply backs_kept; [kept|]. intros _ w4. apply set_back.
Qed.
Lemma send_late_oob_backs fd off pos fa c w :
  backs fd (w_params w) (send_late_oob fd off pos fa c) w.
Proof.
  unfold send_late_oob. eapply backs_bind; [apply setttl_zero|]. unless_failed.
  apply backs_kept; [kept|]. intros len w2. apply set_back.
Qed.

Lemma set_md5sig_zero fd opt sfd addr k w :
  ttl_run fd (set_md5sig opt sfd addr k) w (fun a _ => 0 <= a).
Proof.
  unfold set_md5sig. case_match; [by apply ttl_call|apply ttl_ret; lia].
Qed.
Lemma set_ip_options_zero fd opt sfd fa len w :
  ttl_run fd (set_ip_options opt sfd fa len) w (fun a _ => 0 <= a).
Proof.
  unfold set_ip_options. repeat case_match; try (apply ttl_ret; lia).
  eapply ttl_bind; [by apply (ttl_lift _ _ _ (fun _ _ => True))|]. intros d w' _.
  by apply ttl_call.
Qed.

Lemma backs_sendfile fd ffd off pos fa opt addr w :
  backs fd (w_params w)
    (len ← call (SysSendfile fd ffd pos);
     if len <? 0 then mret (true, len) else
     _ ← wait_send fd;
     d ← buf_get off pos;
     _ ← call (SysPoke ffd d);
     ps ← get w_params;
     r ← setttl fd (ps_def_ttl ps) fa;
     if r <? 0 then mret (true, len) else
     r ← set_ip_options opt fd fa 0;
     if r <? 0 then mret (true, len) else
     _ ← set_md5sig opt fd addr 0;
     mret (true, len)) w.
Proof.
  eapply backs_bind with (P := fun a => 0 <= a); [by apply ttl_call|].
  intros len w1. destruct (Z.ltb_spec len 0); [right; split; [by eexists|lia]|left].
  apply backs_kept; [unfold wait_send; kept|]. intros _ w2. apply backs_kept; [kept|]. intros d w3.
  apply backs_kept; [kept|]. intros _ w4.
  eapply ttl_bind; [by apply (ttl_get _ _ _ (fun a t => a = w_params w4 /\ t = None))|].
  intros ps w5 _. eapply ttl_bind; [apply setttl_ttl|]. intros r w6 _.
  case_match; [apply ttl_ret; by intros t [_ ->] t2 [-> ->]|].
  eapply ttl_mono with (P := fun _ t => t = None); [kept|].
  by intros a t -> t2 [_ ->] t3 [-> ->].
Qed.

(** A descriptor is mapped and stored to: nothing is set before. *)
Lemma send_fake_body_restored fd ffd off pos fa opt pkt addr w :
  ttl_run fd (send_fake_body fd ffd off pos fa opt pkt addr) w (fun _ t => restored (w_params w) t).
Proof.
  unfold send_fake_body. apply restored_bind; [apply restored_kept; kept|]. intros r w1.
  case_match; [apply restored_kept, kept_ret|].
  apply restored_bind; [apply restored_kept; kept|]. intros r2 w2.
  case_match; [apply restored_kept, kept_ret|].
  apply restored_bind; [apply restored_kept; kept|]. intros d w3.
  apply restored_bind; [apply restored_kept; kept|]. intros _ w4. apply backs_restored.
  eapply backs_bind; [apply setttl_zero|]. unless_failed.
  eapply backs_bind; [apply set_md5sig_zero|]. unless_failed.
  eapply backs_bind; [apply set_ip_options_zero|]. unless_failed.
  apply backs_sendfile.
Qed.

Lemma send_fake_restored fd off cnt pos fa opt w :
  ttl_run fd (send_fake fd off cnt pos fa opt) w (fun _ t => restored (w_params w) t).
Proof.
  unfold send_fake. apply restored_bind; [apply restored_kept; kept|]. intros r w1.
  case_match; [apply restored_kept, kept_ret|].
  apply restored_bind; [apply restored_kept; kept|]. intros ps w2. cbn zeta.
  apply restored_bind; [apply restored_kept; kept|]. intros ffd w3.
  case_match; [apply restored_kept, kept_ret|].
  apply restored_bind; [apply send_fake_body_restored|]. intros [p len] w4.
  apply restored_kept. kept.
Qed.

Lemma send_part_restored m fd type lp pos fa opt w :
  ttl_run fd (send_part m fd type lp pos fa opt) w (fun _ t => restored (w_params w) t).
Proof.
  destruct m; cbn [send_part]; try solve [apply restored_kept; kept].
  - apply backs_restored, send_disorder_backs.
  - apply backs_restored, send_late_oob_backs.
  - case_match; [apply send_fake_restored|apply restored_kept, kept_ret].
Qed.

Lemma parts_loop_restored l fd type host n offset lp fa opt w :
  ttl_run fd (parts_loop l fd type host n offset lp fa opt) w (fun _ t => restored (w_params w) t).
Proof.
  revert lp w. induction l as [|p l IH]; intros lp w; cbn [parts_loop];
    [apply restored_kept, kept_ret|].
  case_match; [|apply IH]. case_match; [apply IH|]. case_match; [apply restored_kept, kept_ret|].
  apply restored_bind; [apply send_part_restored|]. intros s w1.
  case_match; [apply restored_kept; kept|]. case_match; [apply restored_kept, kept_ret|apply IH].
Qed.

Lemma desync_restored fd bfsize n offset dst m w :
  ttl_run fd (desync fd bfsize n offset dst m) w (fun _ t => restored (w_params w) t).
Proof.
  unfold desync, dp_at. apply restored_bind.
  { apply restored_kept. kept; unfold fault; by intros. }
  intros dp w1. cbn zeta. apply restored_bind; [apply restored_kept; kept|]. intros b w2.
  apply restored_bind; [apply restored_kept; kept|]. intros [type host] w3.
  apply restored_bind; [apply restored_kept; kept|]. intros [[b' n']|] w4;
    [|apply restored_kept, kept_ret].
  apply restored_bind; [apply restored_kept; kept; apply kept_modify; [done|exact (same_params_refl _)]|].
  intros _ w5. apply restored_bind; [apply restored_kept; unfold c_drop_sack; kept|]. intros r w6.
  case_match; [apply restored_kept, kept_ret|].
  apply restored_bind; [apply parts_loop_restored|]. intros s w7. apply restored_kept. kept.
Qed.

(** * Properties *)

(** C10: If options can be set and [sendfile] does not fail ([options_ok]), a
    time-to-live lowered for a fake or a disordered part does not outlast [desync]: the
    last value it has set on the socket, if any, is the one of the program's connections
    ([def_ttl]), whatever the packet, parts and other answers.  A [sendfile] that fails
    leaves the lower value: [fake_failure_keeps_ttl]. *)
Theorem desync_ttl (sfd bfsize n offset m v : Z) (dst : sockaddr) (w w' : world) (new : trace) :
  desync sfd bfsize n offset dst m w = Ok (v, w') -> w_trace w' = new ++ w_trace w ->
  Forall options_ok new ->
  last_ttl sfd new = None \/ last_ttl sfd new = Some (le32 (ps_def_ttl (w_params w))).
Proof.
  intros E Ht Hok. pose proof (desync_restored sfd bfsize n offset dst m w) as H.
  unfold ttl_run, wlp in H. rewrite E in H. destruct H as (new' & Ht' & _ & H).
  rewrite Ht in Ht'. apply app_inv_tail in Ht'. subst new'. exact (H Hok).
Qed.

Lemma desync_ttl_witness :
  exists v w', desync 5 53 43 0 zero_addr 0 (sample_world 0 []) = Ok (v, w') /\
    (last_ttl 5 (w_trace w') = None \/ last_ttl 5 (w_trace w') = Some (le32 0)).
Proof.
  destruct (desync 5 53 43 0 zero_addr 0 (sample_world 0 [])) as [[v w']|] eqn:E.
  - exists v, w'. split; [done|].
    apply (desync_ttl 5 53 43 0 0 v zero_addr (sample_world 0 []) w' (w_trace w')); [done| |].
    + by rewrite app_nil_r.
    + apply (f_equal (fun x => match x with Ok (a, b) => w_trace b | _ => [] end)) in E.
      remember (w_trace w') as tr. clear - E. vm_compute in E. subst tr.
      repeat constructor; vm_compute; congruence.
  - exfalso. vm_compute in E. discriminate.
Defined.
