(* ===== verification/DesyncLimits.v ===== *)
(** UDP, and where the guarantees of desync.c end: runs that the hypotheses of
    [desync_stream], [desync_safe] and [desync_ttl] leave out. *)
From S2P Require Import Prelude CLib Packets Mpool Params World Stream Desync DesyncSpec DesyncTtl.

(** * Datagrams *)

(** What was sent with [sendto], in order, and where to. *)
Fixpoint datagrams (fd : Z) (tr : trace) : list (list Z * list Z) :=
  match tr with
  | [] => []
  | (SysSendto f d a, r) :: tr =>
      datagrams fd tr ++ (if (f =? fd) && (0 <=? r_ret r) then [(d, a)] else [])
  | _ :: tr => datagrams fd tr
  end.
Lemma datagrams_app fd n2 n1 : datagrams fd (n2 ++ n1) = datagrams fd n1 ++ datagrams fd n2.
Proof.
  induction n2 as [|[q r] n2 IH]; simpl; [by rewrite app_nil_r|].
  destruct q; try done. by rewrite IH, app_assoc.
Qed.

Definition is_sendto (q : sysreq) : bool := match q with SysSendto _ _ _ => true | _ => false end.

(** [m] keeps the frame and sends the datagrams [ds], when it returns [a]. *)
Definition posts {A} (fd : Z) (m : io A) (w : world) (P : A -> list (list Z * list Z) -> Prop) : Prop :=
  wp m (fun a w' => exists new, keeps w w' new /\ P a (datagrams fd new)) w.
Lemma posts_bind {A B} fd (m : io A) (f : A -> io B) w P Q :
  posts fd m w P ->
  (forall a ds w' new, P a ds -> keeps w w' new -> posts fd (f a) w' (fun b ds' => Q b (ds ++ ds'))) ->
  posts fd (m ≫= f) w Q.
Proof.
  intros Hm Hf. apply wp_bind. eapply wp_mono; [exact Hm|]. intros a w1 (n1 & K1 & Hp).
  eapply wp_mono; [by eapply Hf|]. intros b w2 (n2 & K2 & Hq).
  exists (n2 ++ n1). split; [by eapply keeps_trans|]. by rewrite datagrams_app.
Qed.
Lemma posts_ret {A} fd (a : A) w P : P a [] -> posts fd (mret a) w P.
Proof. intros. apply wp_ret. exists []. split; [apply keeps_refl|done]. Qed.
Lemma posts_setttl fd ttl fa w : posts fd (setttl fd ttl fa) w (fun _ ds => ds = []).
Proof.
  unfold setttl. case_match; (apply wp_bind, wp_keeps_call; [done|]; intros r _ K; apply wp_ret;
    eexists; split; [exact K|done]).
Qed.
Lemma posts_sendto fd d a w :
  posts fd (call (SysSendto fd d a)) w
    (fun r ds => ds = if r <? 0 then [] else [(d, a)]).
Proof.
  apply wp_keeps_call; [done|]. intros r _ K. eexists. split; [exact K|].
  simpl. rewrite Z.eqb_refl. simpl. zcases; done.
Qed.

(** a step that only computes *)
Lemma posts_pure {A B} fd (m : io A) (f : A -> io B) w a Q :
  m w = Ok (a, w) -> posts fd (f a) w Q -> posts fd (m ≫= f) w Q.
Proof. intros Hm H. unfold posts, wp, mbind, io_bind. rewrite Hm. exact H. Qed.

(** All the bytes of a packet. *)
Definition packet_all (pkt : packet) : list Z :=
  match pk_data pkt with Some d => sub d 0 (pk_size pkt) | None => [] end.
Lemma packet_bytes_all pkt : packet_wf pkt -> packet_bytes pkt (pk_size pkt) = Ok (packet_all pkt).
Proof.
  unfold packet_wf, packet_bytes, packet_all. destruct (pk_data pkt) as [d|].
  - intros. apply rdn_ok; lia.
  - by intros ->.
Qed.

Lemma udp_fake_loop_spec k fd pkt dst w :
  packet_wf pkt ->
  posts fd (udp_fake_loop k fd pkt dst) w (fun ok ds =>
    exists j, (j <= k)%nat /\ (ok = true -> j = k) /\
      ds = replicate j (packet_all pkt, sub dst 0 sizeof_sockaddr_in6)).
Proof.
  intros Hp. revert w. induction k as [|k IH]; intros w; cbn [udp_fake_loop].
  { apply posts_ret. exists 0%nat. split; [lia|done]. }
  eapply posts_pure; [unfold lift; by rewrite packet_bytes_all|].
  eapply posts_bind; [apply posts_sendto|]. intros r ds w1 n1 -> _.
  destruct (Z.ltb_spec r 0); [apply posts_ret; exists 0%nat; split; [lia|done]|].
  eapply wp_mono; [apply IH|]. intros ok w2 (n2 & K & j & Hj & Hok & Hd).
  exists n2. split; [done|]. rewrite Hd. exists (S j). split; [lia|].
  split; [intros; f_equal; auto|done].
Qed.

(** The datagrams a UDP packet is sent as. *)
Definition udp_fakes (ps : params) (dp : desync_params) (dst : sockaddr) : list (list Z * list Z) :=
  replicate (Z.to_nat (dp_udp_fake_count dp))
    (packet_all (fake_packet (ps_fake_udp ps) dp), sub dst 0 sizeof_sockaddr_in6).

Lemma posts_payload fd off n dst w :
  0 <= off -> 0 <= n -> off + n <= zlen (w_buf w) ->
  posts fd (d ← buf_get off n; call (SysSendto fd d (sub dst 0 sizeof_sockaddr_in6))) w
    (fun v ds => ds = if v <? 0 then [] else [(sub (w_buf w) off n, sub dst 0 sizeof_sockaddr_in6)]).
Proof. intros. apply wp_bind, wp_buf_get; [lia..|]. apply posts_sendto. Qed.

(** [desync_udp] sends the configured number of fake datagrams and then,
    once, the packet itself, all to the same address; when a call fails it
    returns -1 and the packet has not been sent. *)
Theorem desync_udp_datagrams (fd off n m : Z) (dst : sockaddr) (dp : desync_params) (w : world) :
  0 <= m -> ps_dp (w_params w) !! Z.to_nat m = Some dp ->
  packet_wf (ps_fake_udp (w_params w)) -> packet_wf (dp_fake_data dp) -> 0 <= dp_fake_offset dp ->
  0 <= dp_udp_fake_count dp -> 0 <= off -> 0 <= n -> off + n <= zlen (w_buf w) ->
  exists v w' new, desync_udp fd off n dst m w = Ok (v, w') /\
    w_trace w' = new ++ w_trace w /\ w_buf w' = w_buf w /\ w_fds w' = w_fds w /\
    if v <? 0
    then exists j, datagrams fd new = take j (udp_fakes (w_params w) dp dst)
    else datagrams fd new = udp_fakes (w_params w) dp dst ++
           [(sub (w_buf w) off n, sub dst 0 sizeof_sockaddr_in6)].
Proof.
  intros Hm Hdp Hu Hf Ho Hc H1 H2 H3.
  assert (H : posts fd (desync_udp fd off n dst m) w (fun v ds =>
    if v <? 0 then exists j, ds = take j (udp_fakes (w_params w) dp dst)
    else ds = udp_fakes (w_params w) dp dst ++ [(sub (w_buf w) off n, sub dst 0 sizeof_sockaddr_in6)])).
  { unfold desync_udp. eapply posts_pure; [by apply dp_at_ok|]. eapply posts_pure; [done|].
    destruct (Z.eqb_spec (dp_udp_fake_count dp) 0) as [Hz|Hz]; simpl.
    { unfold udp_fakes. rewrite Hz. eapply wp_mono; [by apply posts_payload|].
      intros v w1 (new & K & Hd). exists new. split; [done|]. rewrite Hd. ccase; [by exists 0%nat|done]. }
    eapply posts_bind; [apply posts_setttl|]. intros r ds w1 n1 -> K1.
    destruct (Z.ltb_spec r 0); [apply posts_ret; by exists 0%nat|].
    eapply posts_bind; [by apply udp_fake_loop_spec, fake_packet_wf|].
    intros ok ds w2 n2 (j & Hj & Hok & ->) K2.
    assert (Htake : replicate j _ = take j (udp_fakes (w_params w) dp dst)) by
      (unfold udp_fakes; rewrite take_replicate, Nat.min_l by done; reflexivity).
    destruct ok; simpl; [|apply posts_ret; exists j; by rewrite app_nil_r].
    rewrite (Hok eq_refl) in *. eapply posts_pure; [done|].
    eapply posts_bind; [apply posts_setttl|]. intros r3 ds w3 n3 -> K3.
    destruct (Z.ltb_spec r3 0); [apply posts_ret; eexists; rewrite !app_nil_r; exact Htake|].
    assert (Hb : w_buf w3 = w_buf w) by (rewrite (k_buf _ _ _ K3), (k_buf _ _ _ K2); apply (k_buf _ _ _ K1)).
    eapply wp_mono; [apply posts_payload; rewrite ?Hb; done|]. rewrite Hb.
    intros v w4 (new & K & Hd). exists new. split; [done|]. rewrite Hd. simpl.
    ccase; [eexists; rewrite !app_nil_r; exact Htake|done]. }
  apply wp_Ok in H as (v & w' & E & new & [F Hfds] & Hd). exists v, w', new.
  split; [done|]. split; [apply F|]. split; [apply F|]. done.
Qed.

Lemma desync_udp_datagrams_witness :
  exists v w' new, desync_udp 5 0 43 zero_addr 0 (sample_world 0 []) = Ok (v, w') /\
    w_trace w' = new ++ [] /\ w_buf w' = http_data ++ replicate 10 0 /\
    w_fds w' = w_fds (sample_world 0 []) /\
    if v <? 0
    then exists j, datagrams 5 new = take j [(replicate 62 0, zero_addr)]
    else datagrams 5 new = [(replicate 62 0, zero_addr); (http_data, zero_addr)].
Proof.
  destruct (desync_udp_datagrams 5 0 43 0 zero_addr (sample_group 0 []) (sample_world 0 []))
    as (v & w' & new & E & Ht & Hb & Hf & Hd);
    [lia|reflexivity|vm_compute; split; congruence|vm_compute; congruence|vm_compute; congruence
    |vm_compute; congruence|lia|lia|vm_compute; congruence|].
  exists v, w', new. split; [exact E|]. split; [exact Ht|]. split; [exact Hb|]. split; [exact Hf|].
  destruct (v <? 0); vm_compute in Hd |- *; exact Hd.
Defined.

(** * Where the guarantees end *)

(** [env_ok], except that the first call that [p] selects is answered by [a]. *)
Definition env_once (p : sysreq -> bool) (a : sysrsp) (tr : trace) (q : sysreq) : sysrsp :=
  if p q && forallb (fun e => negb (p e.1)) tr then a else env_ok tr q.
Definition with_env (env : trace -> sysreq -> sysrsp) (w : world) : world :=
  World env (w_trace w) (w_errno w) (w_fds w) (w_interest w) (w_heap w) (w_params w) (w_pool w)
    (w_buf w) (w_not_exit w).
Definition group (parts tlsrec : list part) : desync_params :=
  DesyncParams 0 None 0 false (Packet 0 None) 0 0 false (0, 0) parts 0 tlsrec 0 0 None (0, 0) None 0.

Definition is_oob (q : sysreq) : bool :=
  match q with SysSend _ _ flags => flags =? MSG_OOB | _ => false end.
Definition is_send (q : sysreq) : bool := match q with SysSend _ _ _ => true | _ => false end.
Definition is_sendfile (q : sysreq) : bool := match q with SysSendfile _ _ _ => true | _ => false end.

Definition start (env : trace -> sysreq -> sysrsp) (parts tlsrec : list part) (buf : list Z) : world :=
  with_env env (world_ok [group parts tlsrec] buf).

(** The position returned, and what was sent on descriptor 5. *)
Definition result (r : res (Z * world)) : option (Z * list Z) :=
  match r with Ok (v, w) => Some (v, stream 5 (w_trace w)) | Fault _ => None end.
Definition again (r : res (Z * world)) (f : Z -> io Z) : res (Z * world) :=
  match r with Ok (v, w) => f v w | Fault e => Fault e end.

Definition request_buf : list Z := http_data ++ replicate 10 0.

(** An urgent part that the socket takes two of six bytes of: [send_oob] counts
    one byte less than was sent, so the request continues at byte 1 and the
    server gets byte 1 twice. *)
Theorem oob_partial_send_repeats_byte :
  let w := start (env_once is_oob (Rsp 2 0 [] [] [])) [Part DESYNC_OOB 0 5] [] request_buf in
  let r := desync 5 53 43 0 zero_addr 0 w in
  result r = Some (1, chars "GE") /\
  result (again r (fun v => desync 5 53 43 v zero_addr 0)) =
    Some (43, chars "GE" ++ drop 1 http_data).
Proof. split; vm_compute; reflexivity. Qed.

(** The rest of the packet, of which the socket takes 10 bytes: [desync] reports
    the whole packet as sent, and nobody sends the other 33 bytes. *)
Theorem short_last_send_is_lost :
  result (desync 5 53 43 0 zero_addr 0 (start (env_once is_send (Rsp 10 0 [] [] [])) [] [] request_buf))
  = Some (43, take 10 http_data).
Proof. vm_compute. reflexivity. Qed.

(** An urgent part at the end of a packet that fills the work buffer: the byte
    behind the buffer is overwritten. *)
Theorem oob_at_buffer_end_overflows :
  desync 5 43 43 0 zero_addr 0 (start env_ok [Part DESYNC_OOB OFFSET_END 0] [] http_data)
  = Fault OutOfBounds.
Proof. vm_compute. reflexivity. Qed.

(** A TLS record longer than the packet's first one is asked for: [part_tls]
    changes nothing but does not return 0, and [desync] sends five bytes of the
    buffer behind the packet. *)
Definition short_record_hello : list Z :=
  take 3 tls_data ++ [0; 1] ++ drop 5 tls_data ++ [201; 202; 203; 204; 205].
Theorem tlsrec_stale_bytes :
  result (desync 5 522 517 0 zero_addr 0
            (start env_ok [] [Part DESYNC_NONE 0 2] short_record_hello))
  = Some (522, short_record_hello).
Proof. vm_compute. reflexivity. Qed.

(** [sendfile] fails with EAGAIN: [desync] asks to be called again (position 0),
    and the socket is left with the time-to-live of the fake. *)
Theorem fake_failure_keeps_ttl :
  match desync 5 53 43 0 zero_addr 0
          (start (env_once is_sendfile (Rsp (-1) EAGAIN [] [] [])) [Part DESYNC_FAKE 0 5] [] request_buf) with
  | Ok (v, w) => v = 0 /\ last_ttl 5 (w_trace w) = Some (le32 8)
  | Fault _ => False
  end.
Proof. vm_compute. split; reflexivity. Qed.
