(* ===== verification/Conev.v ===== *)
(** conev.c: the pool of connections, registered with epoll.

    An event is one of [pool->items]; the first [count] of [pool->links] are the
    events in use, and [ev_index] is the position of an event in [links].  Only
    the epoll variant (Linux) is modelled.  [malloc]'s result for the items
    counts as zeroed: no member is read before [add_event] clears it. *)
From S2P Require Import Prelude Mpool Params World.

Definition set_max v (p : poolhd) := Pool v (ph_count p) (ph_efd p) (ph_links p) (ph_items p) (ph_pevents p) (ph_iters p).
Definition set_count v (p : poolhd) := Pool (ph_max p) v (ph_efd p) (ph_links p) (ph_items p) (ph_pevents p) (ph_iters p).
Definition set_links v (p : poolhd) := Pool (ph_max p) (ph_count p) (ph_efd p) v (ph_items p) (ph_pevents p) (ph_iters p).
Definition set_pevents v (p : poolhd) := Pool (ph_max p) (ph_count p) (ph_efd p) (ph_links p) (ph_items p) v (ph_iters p).
Definition set_iters v (p : poolhd) := Pool (ph_max p) (ph_count p) (ph_efd p) (ph_links p) (ph_items p) (ph_pevents p) v.

Definition upd_pool (f : poolhd -> poolhd) : io unit := modify (fun w => with_pool (f (w_pool w)) w).
(** [pool->links[x]] *)
Definition link (x : Z) : io nat :=
  p ← get w_pool;
  match (if 0 <=? x then ph_links p !! Z.to_nat x else None) with
  | Some v => mret v
  | None => fault OutOfBounds
  end.
Definition set_link (x : Z) (v : nat) : io unit :=
  p ← get w_pool;
  if (0 <=? x) && (x <? zlen (ph_links p))
  then upd_pool (set_links (<[Z.to_nat x := v]> (ph_links p)))
  else fault OutOfBounds.

(** [free(val->buff.data); val->buff.data = 0] *)
Definition free_buff (v : nat) : io unit :=
  upd v (fun e => set_buff (Buffer (b_size (ev_buff e)) (b_offset (ev_buff e)) None) e).

(** * destroy_pool *)
Fixpoint destroy_loop (xs : list nat) : io unit :=
  match xs with
  | [] => mret tt
  | x :: xs =>
      val ← link (Z.of_nat x);
      e ← item val;
      _ ← (if negb (ev_fd e =? 0) then _ ← close (ev_fd e); upd val (set_fd 0) else mret tt);
      _ ← (match b_data (ev_buff e) with Some _ => free_buff val | None => mret tt end);
      destroy_loop xs
  end.
Definition destroy_pool : io unit :=
  p ← get w_pool;
  _ ← destroy_loop (seq 0 (Z.to_nat (ph_count p)));
  _ ← (if negb (ph_efd p =? 0) then close (ph_efd p) else mret tt);
  upd_pool (fun _ => no_pool).

(** * init_pool: whether it succeeds *)
Definition init_pool (count : Z) : io bool :=
  r ← call (SysAlloc 1);
  if r <? 0 then mret false else
  efd ← call (SysEpollCreate count);
  if efd <? 0 then mret false else
  pevents ← call (SysAlloc count);
  links ← call (SysAlloc count);
  items ← call (SysAlloc count);
  _ ← upd_pool (fun _ => Pool count 0 efd [] [] [] 0);
  if (pevents <? 0) || (links <? 0) || (items <? 0) then
    _ ← destroy_pool; mret false
  else
    _ ← upd_pool (fun _ => Pool count 0 efd (seq 0 (Z.to_nat count))
                             (replicate (Z.to_nat count) zero_eval) [] 0);
    mret true.

(** * add_event *)
Definition add_event (type : eid) (fd e : Z) : io (option nat) :=
  _ ← c_assert (0 <? fd);
  p ← get w_pool;
  if ph_max p <=? ph_count p then mret None else
  val ← link (ph_count p);
  _ ← upd val (fun _ => set_type type (set_index (ph_count p) (set_fd fd
                          (set_mod_iter (ph_iters p) zero_eval))));
  r ← call (SysEpollCtl EPOLL_CTL_ADD fd (Z.lor POLLRDHUP e) val);
  if negb (r =? 0) then mret None else
  _ ← upd_pool (set_count (ph_count p + 1));
  mret (Some val).

(** * del_event

    The swap of the freed event with the last one in use. *)
Definition unlink (val : nat) : io unit :=
  _ ← upd_pool (fun p => set_count (ph_count p - 1) p);
  p ← get w_pool;
  ev ← link (ph_count p);
  if bool_decide (ev = val) then mret tt else
  v ← item val;
  _ ← set_link (ev_index v) ev;
  _ ← set_link (ph_count p) val;
  upd ev (set_index (ev_index v)).

(** Lines 85-94: the descriptor and the data of an event are given up; [iters]
    is the current batch. *)
Definition shut (val : nat) (v : eval) (iters : Z) : io unit :=
  _ ← call (SysEpollCtl EPOLL_CTL_DEL (ev_fd v) 0 0);
  _ ← (match b_data (ev_buff v) with
       | Some _ => _ ← c_assert (negb (b_size (ev_buff v) =? 0)); free_buff val
       | None => mret tt
       end);
  _ ← close (ev_fd v);
  upd val (fun e => set_mod_iter iters (set_fd (-1) e)).

(** [fuel] bounds the length of the chain of pairs. *)
Fixpoint del_event_loop (fuel : nat) (val : nat) : io unit :=
  match fuel with
  | O => fault OutOfFuel
  | S fuel =>
      v ← item val;
      p ← get w_pool;
      _ ← c_assert ((-1 <=? ev_fd v) && (ev_mod_iter v <=? ph_iters p));
      if ev_fd v =? -1 then mret tt else
      _ ← shut val v (ph_iters p);
      _ ← unlink val;
      v ← item val;
      _ ← (match ev_pair v with
           | Some q =>
               b ← item q;
               _ ← (if bool_decide (ev_pair b = Some val) then upd q (set_pair None) else mret tt);
               e ← pair_of val;
               _ ← upd val (set_pair None);
               del_event_loop fuel e
           | None => mret tt
           end);
      p ← get w_pool;
      c_assert (0 <? ph_count p)
  end.
Definition del_event (val : nat) : io unit :=
  p ← get w_pool;
  del_event_loop (S (length (ph_items p))) val.

(** * next_event

    [epoll_wait] stores the events; its answer names descriptors, for which it
    has the pointers given to [epoll_ctl]. *)
Definition wait_events : io Z :=
  p ← get w_pool;
  m ← get w_interest;
  r ← sys (SysEpollWait (ph_max p));
  _ ← upd_pool (fun p => if r_ret r <? 0 then p else
         set_pevents (map (fun e => (default 0%nat (m !! e.1), e.2)) (r_events r)) p);
  mret (r_ret r).

(** The event and its flags, and [offs]. *)
Fixpoint next_event_loop (fuel : nat) (offs : Z) : io (option (nat * Z) * Z) :=
  match fuel with
  | O => fault OutOfFuel
  | S fuel =>
      p ← get w_pool;
      _ ← c_assert ((-1 <=? offs) && (offs <? ph_max p));
      i ← (if offs <? 0 then
             n ← wait_events;
             let i := n - 1 in
             if i <? 0 then mret None else
             _ ← upd_pool (fun p => let p := if ph_iters p =? UINT_MAX then set_iters 0 p else p in
                                    set_iters (ph_iters p + 1) p);
             mret (Some i)
           else mret (Some offs));
      match i with
      | None => mret (None, offs)
      | Some i =>
          p ← get w_pool;
          match (if 0 <=? i then ph_pevents p !! Z.to_nat i else None) with
          | None => fault OutOfBounds
          | Some (val, events) =>
              v ← item val;
              if ev_mod_iter v =? ph_iters p then next_event_loop fuel (i - 1)
              else mret (Some (val, events), i - 1)
          end
      end
  end.
(** [offs + 2] rounds are enough when no event of the batch is newer than the
    batch. *)
Definition next_event (offs : Z) : io (option (nat * Z) * Z) :=
  next_event_loop (Z.to_nat (offs + 3)) offs.

(** * mod_etype *)
Definition mod_etype (val : nat) (type : Z) : io Z :=
  v ← item val;
  _ ← c_assert (0 <? ev_fd v);
  call (SysEpollCtl EPOLL_CTL_MOD (ev_fd v) (Z.lor POLLRDHUP type) val).
