(* ===== verification/ConevSpec.v ===== *)
(** The pool of connections: its invariant, that every operation keeps it, and
    that closing a connection closes exactly the events it is paired with. *)
From S2P Require Import Prelude Mpool Params World Stream Conev.

(** * The invariant *)

(** The event [v] is in use, at position [x]. *)
Definition at_pos (p : poolhd) (x : Z) (v : nat) : Prop :=
  0 <= x < ph_count p /\ ph_links p !! Z.to_nat x = Some v.
Definition active (p : poolhd) (v : nat) : Prop := exists x, at_pos p x v.

(** What is known of an event in use. *)
Record event_ok (w : world) (x : Z) (v : nat) (e : eval) : Prop := {
  eo_index : ev_index e = x;
  eo_fd : 0 < ev_fd e;
  eo_open : ev_fd e ∈ w_fds w;
  eo_registered : w_interest w !! ev_fd e = Some v;
  eo_iter : ev_mod_iter e <= ph_iters (w_pool w);
  eo_buff : b_data (ev_buff e) <> None -> b_size (ev_buff e) <> 0
}.

Record pool_ok (w : world) : Prop := {
  po_links : zlen (ph_links (w_pool w)) = ph_max (w_pool w);
  po_items : zlen (ph_items (w_pool w)) = ph_max (w_pool w);
  po_nodup : NoDup (ph_links (w_pool w));
  po_range : forall v, v ∈ ph_links (w_pool w) -> (v < length (ph_items (w_pool w)))%nat;
  po_count : 0 <= ph_count (w_pool w) <= ph_max (w_pool w);
  po_events : forall x v, at_pos (w_pool w) x v ->
    exists e, ph_items (w_pool w) !! v = Some e /\ event_ok w x v e;
  po_interest : forall fd v, w_interest w !! fd = Some v ->
    active (w_pool w) v /\ exists e, ph_items (w_pool w) !! v = Some e /\ ev_fd e = fd;
  po_efd : 0 < ph_efd (w_pool w) /\ ph_efd (w_pool w) ∈ w_fds w /\
           w_interest w !! ph_efd (w_pool w) = None
}.

(** ** Positions *)
Section Positions.
Context (w : world) (Hw : pool_ok w).
Notation p := (w_pool w).

Lemma at_pos_inj x v y : at_pos p x v -> at_pos p y v -> x = y.
Proof.
  intros [Hx Lx] [Hy Ly]. pose proof (NoDup_lookup _ _ _ _ (po_nodup w Hw) Lx Ly). lia.
Qed.
Lemma at_pos_fun x v u : at_pos p x v -> at_pos p x u -> v = u.
Proof. intros [Hx Lx] [Hy Ly]. congruence. Qed.
Lemma active_event v : active p v ->
  exists x e, at_pos p x v /\ ph_items p !! v = Some e /\ event_ok w x v e.
Proof. intros [x Hx]. destruct (po_events w Hw x v Hx) as (e & He & Ho). by exists x, e. Qed.
Lemma active_fd_inj v u e f :
  active p v -> active p u -> ph_items p !! v = Some e -> ph_items p !! u = Some f ->
  ev_fd e = ev_fd f -> v = u.
Proof.
  intros Hv Hu He Hf Hfd.
  destruct (active_event v Hv) as (x & e' & _ & He' & Ho). rewrite He in He'. injection He' as <-.
  destruct (active_event u Hu) as (y & f' & _ & Hf' & Hp). rewrite Hf in Hf'. injection Hf' as <-.
  pose proof (eo_registered _ _ _ _ Ho) as H1. pose proof (eo_registered _ _ _ _ Hp) as H2.
  rewrite Hfd in H1. congruence.
Qed.
(** The position behind the last event in use. *)
Lemma next_link : ph_count p < ph_max p -> exists v, ph_links p !! Z.to_nat (ph_count p) = Some v /\
  ~ active p v /\ exists e, ph_items p !! v = Some e.
Proof.
  intros Hc. pose proof (po_count w Hw). pose proof (po_links w Hw).
  destruct (lookup_lt_is_Some_2 (ph_links p) (Z.to_nat (ph_count p))) as [v Hv]; [lia|].
  exists v. split; [done|]. split.
  - intros (x & Hx & Lx). pose proof (NoDup_lookup _ _ _ _ (po_nodup w Hw) Lx Hv). lia.
  - apply lookup_lt_is_Some_2, (po_range w Hw). by eapply list_elem_of_lookup_2.
Qed.
End Positions.

(** * add_event *)

(** The environment of an [add_event]: what it does to the pool. *)
Definition added (p : poolhd) (v : nat) (type : eid) (fd : Z) : poolhd :=
  set_count (ph_count p + 1) (set_items (<[v := set_type type (set_index (ph_count p) (set_fd fd
    (set_mod_iter (ph_iters p) zero_eval)))]> (ph_items p)) p).

Lemma wp_link x v Q w :
  0 <= x -> ph_links (w_pool w) !! Z.to_nat x = Some v -> Q v w -> wp (link x) Q w.
Proof.
  intros Hx Hv HQ. apply wp_bind, wp_get. replace (0 <=? x) with true by lia. rewrite Hv.
  by apply wp_ret.
Qed.
Lemma wp_upd_pool f (Q : unit -> world -> Prop) w :
  Q tt (with_pool (f (w_pool w)) w) -> wp (upd_pool f) Q w.
Proof. apply wp_modify. Qed.

Lemma added_active p v type fd u :
  active (added p v type fd) u <->
  active p u \/ (ph_links p !! Z.to_nat (ph_count p) = Some u /\ 0 <= ph_count p).
Proof.
  unfold active, at_pos. simpl. split.
  - intros (x & Hx & Lx). destruct (decide (x = ph_count p)) as [->|]; [right; split; [done|lia]|].
    left. exists x. split; [lia|done].
  - intros [(x & Hx & Lx)|[Hl Hc]]; [exists x|exists (ph_count p)]; (split; [lia|done]).
Qed.

(** The parts of the state that the pool's operations leave alone. *)
Record outside (w w' : world) : Prop := {
  ou_params : w_params w' = w_params w;
  ou_buf : w_buf w' = w_buf w;
  ou_heap : w_heap w' = w_heap w;
  ou_env : w_env w' = w_env w;
  ou_exit : w_not_exit w' = w_not_exit w;
  ou_batch : ph_pevents (w_pool w') = ph_pevents (w_pool w);
  ou_iters : ph_iters (w_pool w') = ph_iters (w_pool w);
  ou_max : ph_max (w_pool w') = ph_max (w_pool w);
  ou_efd : ph_efd (w_pool w') = ph_efd (w_pool w);
  (* an event that is not as before counts as of this batch *)
  ou_items : forall v e', ph_items (w_pool w') !! v = Some e' ->
    exists e, ph_items (w_pool w) !! v = Some e /\
      (ev_mod_iter e' = ev_mod_iter e \/ ev_mod_iter e' = ph_iters (w_pool w))
}.
Lemma outside_refl w : outside w w.
Proof. split; try done. intros v e He. exists e. auto. Qed.
Lemma outside_trans w1 w2 w3 : outside w1 w2 -> outside w2 w3 -> outside w1 w3.
Proof.
  intros [] []. split; try congruence. intros v e3 H3.
  destruct (ou_items1 v e3 H3) as (e2 & H2 & Hc2). destruct (ou_items0 v e2 H2) as (e1 & H1 & Hc1).
  exists e1. split; [done|]. destruct Hc2 as [-> | ->]; [done|]. rewrite ou_iters0. auto.
Qed.

Lemma kernel_pool q r w : w_pool (kernel q r w) = w_pool w.
Proof. unfold kernel. by repeat case_match. Qed.
(** A call does not change the pool. *)
Lemma outside_sys w q r : outside w (with_trace ((q, r) :: w_trace w) (kernel q r w)).
Proof.
  split; simpl; rewrite ?kernel_pool; try done; try (unfold kernel; by repeat case_match).
  intros v e He. exists e. auto.
Qed.
Lemma fds_sys w q r :
  nofd q = true -> w_fds (with_trace ((q, r) :: w_trace w) (kernel q r w)) = w_fds w.
Proof. intros Hn. simpl. unfold kernel. case_match; [done|]. by destruct q. Qed.

Lemma pool_ok_ext w w' :
  pool_ok w -> w_pool w' = w_pool w -> w_fds w ⊆ w_fds w' -> w_interest w' = w_interest w ->
  pool_ok w'.
Proof.
  intros [] Hp Hf Hi. split; rewrite ?Hp, ?Hi; try done.
  - intros x v Hx. destruct (po_events0 x v Hx) as (e & He & []). exists e. split; [done|].
    split; rewrite ?Hp, ?Hi; auto.
  - destruct po_efd0 as (? & ? & ?). auto.
Qed.

(** What [add_event] returns and leaves. *)
Definition add_result (w : world) (type : eid) (fd : Z) (r : option nat) (w' : world) : Prop :=
  pool_ok w' /\ outside w w' /\ w_fds w' = w_fds w /\
  (forall u, active (w_pool w) u -> ph_items (w_pool w') !! u = ph_items (w_pool w) !! u) /\
  match r with
  | None => w_interest w' = w_interest w /\ forall u, active (w_pool w') u <-> active (w_pool w) u
  | Some v =>
      ~ active (w_pool w) v /\ (forall u, active (w_pool w') u <-> active (w_pool w) u \/ u = v) /\
      ph_items (w_pool w') !! v = Some (set_type type (set_index (ph_count (w_pool w)) (set_fd fd
        (set_mod_iter (ph_iters (w_pool w)) zero_eval))))
  end.

Lemma item_stored_ok w v e0 e :
  pool_ok w -> ~ active (w_pool w) v -> ph_items (w_pool w) !! v = Some e0 ->
  ev_mod_iter e = ph_iters (w_pool w) ->
  let w1 := with_pool (set_items (<[v := e]> (ph_items (w_pool w))) (w_pool w)) w in
  pool_ok w1 /\ outside w w1.
Proof.
  intros Hw Hv He Hm w1. split.
  - destruct Hw. split; simpl; rewrite ?length_insert; try done.
    + intros x u Hx. destruct (po_events0 x u Hx) as (f & Hf & []). exists f.
      rewrite list_lookup_insert_ne by (intros ->; apply Hv; by exists x). split; [done|]. by split.
    + intros fd u Hu. destruct (po_interest0 fd u Hu) as (Ha & f & Hf & Hfd). split; [done|].
      exists f. rewrite list_lookup_insert_ne by (by intros ->). done.
  - split; try done. simpl. intros u e' Hu. destruct (decide (u = v)) as [->|].
    + rewrite list_lookup_insert_eq in Hu by (by eapply lookup_lt_Some). injection Hu as <-. eauto.
    + rewrite list_lookup_insert_ne in Hu by done. eauto.
Qed.

Lemma add_event_spec type fd e w :
  pool_ok w -> 0 < fd -> fd ∈ w_fds w -> w_interest w !! fd = None -> fd <> ph_efd (w_pool w) ->
  wp (add_event type fd e) (add_result w type fd) w.
Proof.
  intros Hw Hfd Hopen Hnew Hne. unfold add_event. apply wp_bind, wp_assert; [lia|].
  apply wp_bind, wp_get. destruct (Z.leb_spec (ph_max (w_pool w)) (ph_count (w_pool w))).
  { apply wp_ret. split; [done|]. split; [apply outside_refl|]. done. }
  destruct (next_link w Hw) as (v & Hv & Hna & e0 & He0); [done|].
  apply wp_bind. eapply wp_link; [apply Hw|done|].
  apply wp_bind. eapply wp_upd; [done|].
  set (ev := set_type type _).
  destruct (item_stored_ok w v e0 ev Hw Hna He0 eq_refl) as [Hw1 Ho1]. set (w1 := with_pool _ w) in *.
  apply wp_bind, wp_call. intros r Hr.
  set (w2 := with_trace _ _). assert (Ho2 : outside w w2) by (eapply outside_trans; [done|apply outside_sys]).
  assert (Hp2 : w_pool w2 = w_pool w1) by (unfold w2; simpl; apply kernel_pool).
  assert (Hf2 : w_fds w2 = w_fds w1) by (by apply fds_sys).
  assert (Hold : forall u, active (w_pool w) u -> ph_items (w_pool w2) !! u = ph_items (w_pool w) !! u).
  { intros u Hu. rewrite Hp2. simpl. apply list_lookup_insert_ne. by intros ->. }
  assert (Hst : r_ret r = -1 \/ r_ret r = 0) by (rewrite Hr; simpl; ccase; auto).
  destruct (Z.eqb_spec (r_ret r) 0) as [Hr0|Hr0]; simpl.
  - (* registered *)
    assert (Hi2 : w_interest w2 = <[fd := v]> (w_interest w)).
    { unfold w2. simpl. unfold kernel. by rewrite Hr0. }
    apply wp_bind, wp_upd_pool, wp_ret. change (set_count _ _) with
      (set_count (ph_count (w_pool w) + 1) (w_pool w2)). rewrite Hp2.
    set (w3 := with_pool _ w2). assert (Hp3 : w_pool w3 = added (w_pool w) v type fd) by done.
    assert (Hf3 : w_fds w3 = w_fds w) by exact Hf2.
    assert (Hi3 : w_interest w3 = <[fd := v]> (w_interest w)) by done.
    assert (Ho3 : outside w w3).
    { destruct Ho2. split; rewrite ?Hp3; try done. intros u e' Hu. apply ou_items0. by rewrite Hp2. }
    clearbody w3. split; [|split; [done|split; [done|split; [|split; [done|split]]]]].
    + destruct Hw. split; rewrite ?Hp3; cbn [added set_count set_items ph_links ph_max ph_items ph_count ph_efd];
        rewrite ?length_insert; try done; [lia|..].
      * intros x u [Hx Lx]. simpl in Hx, Lx. destruct (decide (x = ph_count (w_pool w))) as [->|Hxc].
        -- assert (u = v) as -> by congruence. exists ev.
           rewrite list_lookup_insert_eq by (by eapply lookup_lt_Some). split; [done|].
           split; rewrite ?Hf3, ?Hi3, ?Hp3; try done. apply lookup_insert_eq.
        -- assert (Hau : at_pos (w_pool w) x u) by (split; [lia|done]).
           destruct (po_events0 x u Hau) as (f & Hf & []). exists f.
           rewrite list_lookup_insert_ne by (intros ->; apply Hna; by exists x). split; [done|].
           split; rewrite ?Hf3, ?Hi3, ?Hp3; try done.
           rewrite lookup_insert_ne; [done|]. intros ->. congruence.
      * intros g u Hu. rewrite Hi3 in Hu. rewrite added_active. destruct (decide (g = fd)) as [->|Hg].
        -- rewrite lookup_insert_eq in Hu. injection Hu as <-. split; [right; split; [done|lia]|].
           exists ev. by rewrite list_lookup_insert_eq by (by eapply lookup_lt_Some).
        -- rewrite lookup_insert_ne in Hu by done. destruct (po_interest0 g u Hu) as (Ha & f & Hf & Hg').
           split; [by left|]. exists f. rewrite list_lookup_insert_ne by (by intros ->). done.
      * rewrite Hf3, Hi3. rewrite lookup_insert_ne by done. done.
    + intros u Hu. rewrite <- Hold by done. rewrite Hp3, Hp2. done.
    + intros u. rewrite Hp3, added_active. split; [|intros [|]]; [|auto|].
      * intros [?|[Hl _]]; [auto|]. right. congruence.
      * subst u. right. split; [done|]. pose proof (po_count w Hw). lia.
    + rewrite Hp3. simpl. by rewrite list_lookup_insert_eq by (by eapply lookup_lt_Some).
  - apply wp_ret. assert (Hi2 : w_interest w2 = w_interest w).
    { unfold w2. simpl. unfold kernel. destruct Hst as [->|]; [done|lia]. }
    split; [|split; [done|split; [done|split; [done|split; [done|]]]]].
    + eapply pool_ok_ext; [exact Hw1|done|by rewrite Hf2|by rewrite Hi2].
    + intros u. rewrite Hp2. done.
Qed.

(** * del_event *)

(** ** Unlinking *)
Definition unlinked_links (p : poolhd) (x : Z) (v : nat) (ev : nat) : list nat :=
  if bool_decide (ev = v) then ph_links p
  else <[Z.to_nat (ph_count p - 1) := v]> (<[Z.to_nat x := ev]> (ph_links p)).
Definition unlinked_items (p : poolhd) (x : Z) (v ev : nat) (f : eval) : list eval :=
  if bool_decide (ev = v) then ph_items p else <[ev := set_index x f]> (ph_items p).
Definition unlinked (p : poolhd) (x : Z) (v ev : nat) (f : eval) : poolhd :=
  Pool (ph_max p) (ph_count p - 1) (ph_efd p) (unlinked_links p x v ev)
    (unlinked_items p x v ev f) (ph_pevents p) (ph_iters p).

Lemma wp_set_link x v (Q : unit -> world -> Prop) w :
  0 <= x < zlen (ph_links (w_pool w)) ->
  Q tt (with_pool (set_links (<[Z.to_nat x := v]> (ph_links (w_pool w))) (w_pool w)) w) ->
  wp (set_link x v) Q w.
Proof.
  intros Hx HQ. apply wp_bind, wp_get. replace ((0 <=? x) && (x <? _)) with true by lia.
  by apply wp_upd_pool.
Qed.

Lemma unlink_wp v x e ev f (Q : unit -> world -> Prop) w :
  0 <= x < ph_count (w_pool w) -> ph_count (w_pool w) <= zlen (ph_links (w_pool w)) ->
  ph_items (w_pool w) !! v = Some e -> ev_index e = x ->
  ph_links (w_pool w) !! Z.to_nat (ph_count (w_pool w) - 1) = Some ev ->
  ph_items (w_pool w) !! ev = Some f ->
  Q tt (with_pool (unlinked (w_pool w) x v ev f) w) ->
  wp (unlink v) Q w.
Proof.
  intros Hx Hc He Hi Hev Hf HQ. unfold unlink. apply wp_bind, wp_upd_pool.
  apply wp_bind, wp_get, wp_bind. eapply wp_link; [simpl; lia|exact Hev|].
  unfold unlinked, unlinked_links, unlinked_items in HQ. case_bool_decide as Heq.
  - apply wp_ret. simpl. by destruct (w_pool w).
  - apply wp_bind. eapply wp_item; [exact He|]. rewrite Hi.
    apply wp_bind, wp_set_link; [simpl; lia|].
    apply wp_bind, wp_set_link; [simpl; rewrite ?length_insert; lia|].
    eapply wp_upd; [exact Hf|]. exact HQ.
Qed.

Lemma unlinked_at_pos p x v ev f y u :
  NoDup (ph_links p) -> ph_count p <= zlen (ph_links p) -> at_pos p x v ->
  ph_links p !! Z.to_nat (ph_count p - 1) = Some ev ->
  at_pos (unlinked p x v ev f) y u <->
    0 <= y < ph_count p - 1 /\ ((y <> x /\ at_pos p y u) \/ (y = x /\ u = ev)).
Proof.
  intros Hnd Hc [Hx Lx] Hev. unfold at_pos, unlinked, unlinked_links. simpl.
  case_bool_decide as Heq.
  - subst ev. pose proof (NoDup_lookup _ _ _ _ Hnd Lx Hev).
    split; [intros [Hy Ly]; split; [lia|]; left; split; [lia|split; [lia|done]]|].
    intros [Hy [[Hyx [_ Ly]]|[-> ->]]]; [|lia]. split; [lia|done].
  - destruct (decide (x = ph_count p - 1)) as [->|Hxc]; [congruence|].
    split.
    + intros [Hy Ly]. split; [lia|]. rewrite list_lookup_insert_ne in Ly by lia.
      destruct (decide (y = x)) as [->|Hyx].
      * rewrite list_lookup_insert_eq in Ly by lia. right. split; [done|congruence].
      * rewrite list_lookup_insert_ne in Ly by lia. left. split; [done|]. split; [lia|done].
    + intros [Hy [[Hyx [_ Ly]]|[-> ->]]]; (split; [lia|]); rewrite list_lookup_insert_ne by lia.
      * by rewrite list_lookup_insert_ne by lia.
      * by rewrite list_lookup_insert_eq by lia.
Qed.

Lemma unlinked_active p x v ev f u :
  NoDup (ph_links p) -> ph_count p <= zlen (ph_links p) -> at_pos p x v ->
  ph_links p !! Z.to_nat (ph_count p - 1) = Some ev ->
  active (unlinked p x v ev f) u <-> active p u /\ u <> v.
Proof.
  intros Hnd Hc Hx Hev. split.
  - intros [y Hy%unlinked_at_pos]; [|done..]. destruct Hy as [Hy [[Hyx Ha]|[-> ->]]].
    + split; [by exists y|]. intros ->. apply Hyx.
      destruct Hx as [? Lx], Ha as [? La]. pose proof (NoDup_lookup _ _ _ _ Hnd Lx La). lia.
    + assert (He : at_pos p (ph_count p - 1) ev) by (split; [lia|done]). split; [by exists (ph_count p - 1)|].
      intros ->. destruct Hx as [? Lx]. pose proof (NoDup_lookup _ _ _ _ Hnd Lx Hev). lia.
  - intros [[y Hy] Hne]. destruct (decide (y = ph_count p - 1)) as [->|Hyc].
    + assert (u = ev) as -> by (destruct Hy; congruence). exists x.
      apply unlinked_at_pos; [done..|]. destruct Hx as [? Lx].
      split; [|by right]. destruct (decide (x = ph_count p - 1)) as [->|]; [congruence|lia].
    + exists y. apply unlinked_at_pos; [done..|]. pose proof Hy as [? Ly]. split; [lia|].
      left. split; [|done]. intros ->. destruct Hx. congruence.
Qed.

(** ** Shutting *)

(** The event [v], [e] before, is shut: it has no descriptor and no data. *)
Record shutdown (w w' : world) (v : nat) (e : eval) : Prop := {
  sh_pool : exists e', w_pool w' = set_items (<[v := e']> (ph_items (w_pool w))) (w_pool w) /\
    ev_fd e' = -1 /\ ev_mod_iter e' = ph_iters (w_pool w) /\ ev_pair e' = ev_pair e /\
    ev_index e' = ev_index e;
  sh_fds : w_fds w' = w_fds w ∖ {[ev_fd e]};
  sh_interest : w_interest w' = delete (ev_fd e) (w_interest w);
  sh_params : w_params w' = w_params w;
  sh_buf : w_buf w' = w_buf w;
  sh_heap : w_heap w' = w_heap w;
  sh_env : w_env w' = w_env w;
  sh_exit : w_not_exit w' = w_not_exit w
}.

Lemma kernel_del fd r w :
  w_fds (kernel (SysEpollCtl EPOLL_CTL_DEL fd 0 0) r w) = w_fds w /\
  (w_interest (kernel (SysEpollCtl EPOLL_CTL_DEL fd 0 0) r w) = w_interest w \/
   w_interest (kernel (SysEpollCtl EPOLL_CTL_DEL fd 0 0) r w) = delete fd (w_interest w)).
Proof. unfold kernel. case_match; simpl; auto. Qed.


Lemma set_items_id p : set_items (ph_items p) p = p.
Proof. by destruct p. Qed.

Lemma shut_wp v e w :
  ph_items (w_pool w) !! v = Some e -> ev_fd e ∈ w_fds w ->
  (b_data (ev_buff e) <> None -> b_size (ev_buff e) <> 0) ->
  wp (shut v e (ph_iters (w_pool w))) (fun _ w' => shutdown w w' v e) w.
Proof.
  intros He Hfd Hb. unfold shut. apply wp_bind, wp_call. intros r Hr. set (w1 := with_trace _ _).
  assert (Hp1 : w_pool w1 = w_pool w) by apply kernel_pool.
  destruct (kernel_del (ev_fd e) r w) as [Hf1 Hi1].
  change (w_fds (kernel _ r w)) with (w_fds w1) in Hf1. change (w_interest (kernel _ r w)) with (w_interest w1) in Hi1.
  pose proof (outside_sys w (SysEpollCtl EPOLL_CTL_DEL (ev_fd e) 0 0) r) as Ho. change (outside w w1) in Ho.
  clearbody w1.
  apply wp_bind. eapply wp_mono with (Q := fun _ w2 => exists e2,
    w2 = with_pool (set_items (<[v := e2]> (ph_items (w_pool w))) (w_pool w)) w1 /\
    ev_fd e2 = ev_fd e /\ ev_pair e2 = ev_pair e /\ ev_index e2 = ev_index e).
  { destruct (b_data (ev_buff e)) as [d|] eqn:Hd.
    - apply wp_bind, wp_assert; [destruct (Z.eqb_spec (b_size (ev_buff e)) 0); [exfalso; by apply Hb|done]|].
      eapply wp_upd; [by rewrite Hp1|]. eexists. by rewrite Hp1.
    - apply wp_ret. exists e. split; [|done]. rewrite list_insert_id by done.
      rewrite set_items_id, <- Hp1. by destruct w1. }
  intros _ w2 (e2 & -> & Hfd2 & Hpr2 & Hix2).
  apply wp_bind, wp_close; [simpl; by rewrite Hf1|]. intros r3 Hr3.
  eapply wp_upd.
  { simpl. rewrite kernel_pool. simpl. apply list_lookup_insert_eq. by eapply lookup_lt_Some. }
  split; simpl; rewrite ?kernel_pool; simpl; unfold kernel; rewrite ?Hr3; simpl.
  - exists (set_mod_iter (ph_iters (w_pool w)) (set_fd (-1) e2)). rewrite list_insert_insert_eq. done.
  - by rewrite Hf1.
  - destruct Hi1 as [->| ->]; [done|]. by rewrite delete_delete_eq.
  - apply Ho.
  - apply Ho.
  - apply Ho.
  - apply Ho.
  - apply Ho.
Qed.

(** ** Both *)
Record deleted (w w' : world) (v : nat) (e : eval) : Prop := {
  de_ok : pool_ok w';
  de_outside : outside w w';
  de_fds : w_fds w' = w_fds w ∖ {[ev_fd e]};
  de_active : forall u, active (w_pool w') u <-> active (w_pool w) u /\ u <> v;
  de_count : ph_count (w_pool w') = ph_count (w_pool w) - 1;
  de_event : exists e', ph_items (w_pool w') !! v = Some e' /\ ev_fd e' = -1 /\
    ev_mod_iter e' = ph_iters (w_pool w) /\ ev_pair e' = ev_pair e;
  de_others : forall u f, u <> v -> ph_items (w_pool w) !! u = Some f ->
    exists i, ph_items (w_pool w') !! u = Some (set_index i f)
}.

Lemma last_link w v x :
  pool_ok w -> at_pos (w_pool w) x v ->
  exists ev f, ph_links (w_pool w) !! Z.to_nat (ph_count (w_pool w) - 1) = Some ev /\
    ph_items (w_pool w) !! ev = Some f /\ active (w_pool w) ev.
Proof.
  intros Hw [Hx Lx]. pose proof (po_links w Hw). pose proof (po_count w Hw).
  destruct (lookup_lt_is_Some_2 (ph_links (w_pool w)) (Z.to_nat (ph_count (w_pool w) - 1))) as [ev Hev]; [lia|].
  assert (Ha : at_pos (w_pool w) (ph_count (w_pool w) - 1) ev) by (split; [lia|done]).
  destruct (po_events w Hw _ _ Ha) as (f & Hf & _). exists ev, f. split; [done|]. split; [done|].
  by exists (ph_count (w_pool w) - 1).
Qed.

Lemma delete_fd_ne w u v f e :
  pool_ok w -> active (w_pool w) u -> active (w_pool w) v -> u <> v ->
  ph_items (w_pool w) !! u = Some f -> ph_items (w_pool w) !! v = Some e -> ev_fd f <> ev_fd e.
Proof. intros Hw Hu Hv Hne Hf He Heq. apply Hne. by eapply (active_fd_inj w Hw). Qed.

Lemma unlinked_items_lookup p x v ev f u :
  (u <> ev \/ ev = v) -> unlinked_items p x v ev f !! u = ph_items p !! u.
Proof.
  intros H. unfold unlinked_items. case_bool_decide as Hev; [done|].
  apply list_lookup_insert_ne. destruct H; congruence.
Qed.
Lemma unlinked_items_last p x v ev f :
  ev <> v -> ph_items p !! ev = Some f -> unlinked_items p x v ev f !! ev = Some (set_index x f).
Proof.
  intros Hev Hf. unfold unlinked_items. rewrite bool_decide_eq_false_2 by done.
  apply list_lookup_insert_eq. by eapply lookup_lt_Some.
Qed.
Lemma length_unlinked_items p x v ev f : length (unlinked_items p x v ev f) = length (ph_items p).
Proof. unfold unlinked_items. case_bool_decide; [done|apply length_insert]. Qed.

(** The lookup of an event after both. *)
Lemma deleted_lookup w w1 v x e e' ev f u g :
  ph_items (w_pool w) !! v = Some e ->
  w_pool w1 = set_items (<[v := e']> (ph_items (w_pool w))) (w_pool w) ->
  ev_index e' = x -> (ev <> v -> ph_items (w_pool w) !! ev = Some f) -> u <> v ->
  ph_items (w_pool w) !! u = Some g ->
  ph_items (unlinked (w_pool w1) x v ev f) !! u = Some (if decide (u = ev) then set_index x g else g).
Proof.
  intros He Hp Hi Hf Hne Hg. simpl. rewrite Hp. case_decide as Hev.
  - subst u. rewrite unlinked_items_last; [|done|simpl; by rewrite list_lookup_insert_ne, Hf].
    do 2 f_equal. specialize (Hf Hne). congruence.
  - rewrite unlinked_items_lookup by auto. simpl. by rewrite list_lookup_insert_ne.
Qed.

(** Exchanging two entries. *)
Lemma swap_lookup {A} (l : list A) i j a b k c :
  l !! i = Some a -> l !! j = Some b -> <[j := a]> (<[i := b]> l) !! k = Some c ->
  exists k', l !! k' = Some c /\ ((k' = k /\ k <> i /\ k <> j) \/ (k = i /\ k' = j) \/ (k = j /\ k' = i)).
Proof.
  intros Hi Hj Hk. destruct (decide (k = j)) as [->|Hkj].
  - rewrite list_lookup_insert_eq in Hk by (rewrite length_insert; by eapply lookup_lt_Some).
    injection Hk as <-. exists i. auto.
  - rewrite list_lookup_insert_ne in Hk by done. destruct (decide (k = i)) as [->|Hki].
    + rewrite list_lookup_insert_eq in Hk by (by eapply lookup_lt_Some). injection Hk as <-. exists j. auto.
    + rewrite list_lookup_insert_ne in Hk by done. exists k. auto 6.
Qed.
Lemma swap_NoDup {A} (l : list A) i j a b :
  NoDup l -> l !! i = Some a -> l !! j = Some b -> NoDup (<[j := a]> (<[i := b]> l)).
Proof.
  intros Hnd Hi Hj. apply NoDup_alt. intros k1 k2 c H1 H2.
  destruct (swap_lookup _ _ _ _ _ _ _ Hi Hj H1) as (m1 & Hm1 & C1).
  destruct (swap_lookup _ _ _ _ _ _ _ Hi Hj H2) as (m2 & Hm2 & C2).
  pose proof (NoDup_lookup _ _ _ _ Hnd Hm1 Hm2). destruct C1 as [(?&?&?)|[[]|[]]], C2 as [(?&?&?)|[[]|[]]]; congruence.
Qed.

Section Deletion.
Context (w w1 : world) (v : nat) (x : Z) (e e' : eval) (ev : nat) (f : eval).
Context (Hw : pool_ok w) (Hx : at_pos (w_pool w) x v) (He : ph_items (w_pool w) !! v = Some e).
Context (Hsh : shutdown w w1 v e)
  (Hp : w_pool w1 = set_items (<[v := e']> (ph_items (w_pool w))) (w_pool w))
  (Hfd : ev_fd e' = -1) (Hit : ev_mod_iter e' = ph_iters (w_pool w))
  (Hpr : ev_pair e' = ev_pair e) (Hix : ev_index e' = x)
  (Hev : ph_links (w_pool w) !! Z.to_nat (ph_count (w_pool w) - 1) = Some ev)
  (Hf : ph_items (w_pool w1) !! ev = Some f).
Notation w2 := (with_pool (unlinked (w_pool w1) x v ev f) w1).

Lemma del_links : NoDup (ph_links (w_pool w1)) /\ ph_count (w_pool w1) <= zlen (ph_links (w_pool w1)) /\
  at_pos (w_pool w1) x v /\ ph_links (w_pool w1) !! Z.to_nat (ph_count (w_pool w1) - 1) = Some ev.
Proof.
  rewrite Hp. pose proof (po_links w Hw). pose proof (po_count w Hw).
  split; [apply Hw|]. split; [simpl; lia|]. done.
Qed.
Lemma del_active u : active (w_pool w2) u <-> active (w_pool w) u /\ u <> v.
Proof.
  destruct del_links as (? & ? & ? & ?). simpl. rewrite unlinked_active by done. by rewrite Hp.
Qed.
Lemma del_self : ph_items (w_pool w2) !! v = Some e'.
Proof.
  simpl. rewrite unlinked_items_lookup by (destruct (decide (v = ev)); auto). rewrite Hp. simpl.
  apply list_lookup_insert_eq. by eapply lookup_lt_Some.
Qed.
Lemma del_lookup u g :
  u <> v -> ph_items (w_pool w) !! u = Some g ->
  ph_items (w_pool w2) !! u = Some (if decide (u = ev) then set_index x g else g).
Proof.
  intros Hne Hg. apply (deleted_lookup w w1 v x e e'); try done.
  intros Hevv. rewrite Hp in Hf. simpl in Hf. by rewrite list_lookup_insert_ne in Hf.
Qed.
Lemma del_others u g :
  u <> v -> ph_items (w_pool w) !! u = Some g -> exists i, ph_items (w_pool w2) !! u = Some (set_index i g).
Proof.
  intros Hne Hg. rewrite (del_lookup u g) by done. case_decide; [eauto|].
  exists (ev_index g). by destruct g.
Qed.
Lemma del_outside : outside w w2.
Proof.
  destruct Hsh. split; try done; try (simpl; by rewrite Hp).
  intros u g Hg. simpl in Hg. destruct (decide (u = v)) as [->|Hne].
  - pose proof del_self as Hs. simpl in Hs. rewrite Hs in Hg. injection Hg as <-. exists e.
    split; [done|by right].
  - assert (exists g0, ph_items (w_pool w) !! u = Some g0) as [g0 Hg0].
    { apply lookup_lt_is_Some_2. apply lookup_lt_Some in Hg. rewrite length_unlinked_items, Hp in Hg.
      simpl in Hg. by rewrite length_insert in Hg. }
    pose proof (del_lookup u g0 Hne Hg0) as Hl. simpl in Hl. rewrite Hl in Hg. injection Hg as <-.
    exists g0. split; [done|]. left. by case_decide.
Qed.
(** An event still in use keeps what is known of it, with its new position. *)
Lemma del_event_ok y u z g :
  at_pos (w_pool w) z u -> u <> v -> ph_items (w_pool w) !! u = Some g -> event_ok w z u g ->
  event_ok w2 y u (set_index y g).
Proof.
  intros Hz Hne Hg Ho.
  assert (Hfdne : ev_fd g <> ev_fd e).
  { eapply (delete_fd_ne w u v); eauto; [by exists z|by exists x]. }
  destruct Ho. split; try done; simpl.
  - rewrite (sh_fds _ _ _ _ Hsh). set_solver.
  - rewrite (sh_interest _ _ _ _ Hsh), lookup_delete_ne; [done|congruence].
  - by rewrite Hp.
Qed.
Lemma del_events y u : at_pos (w_pool w2) y u ->
  exists g, ph_items (w_pool w2) !! u = Some g /\ event_ok w2 y u g.
Proof.
  intros Hy. assert (Hau : active (w_pool w) u /\ u <> v) by (apply del_active; by exists y).
  destruct Hau as [Ha Hne]. destruct (active_event w Hw u Ha) as (z & g & Hz & Hg & Ho).
  pose proof (del_event_ok y u z g Hz Hne Hg Ho) as Hok.
  rewrite (del_lookup u g) by done. eexists. split; [done|].
  destruct del_links as (? & ? & ? & ?).
  apply unlinked_at_pos in Hy; [|done..]. destruct Hy as [Hyr [[Hyx Hy]|[-> ->]]].
  - rewrite Hp in Hy, Hyr. rewrite decide_False.
    + rewrite (at_pos_inj w Hw z u y Hz Hy) in Ho. pose proof (eo_index _ _ _ _ Ho) as Hgi.
      replace g with (set_index y g) by (destruct g; simpl in *; by subst). exact Hok.
    + intros ->. destruct Hy as [? Ly].
      pose proof (NoDup_lookup _ _ _ _ (po_nodup w Hw) Ly Hev). simpl in Hyr. lia.
  - rewrite decide_True by done. exact Hok.
Qed.
Lemma del_pool_ok : pool_ok w2.
Proof.
  pose proof del_events as Hevents. pose proof del_active as Hact. pose proof del_others as Hoth.
  pose proof (po_count w Hw). pose proof (po_links w Hw). pose proof (po_items w Hw).
  assert (Hcx : 0 <= x < ph_count (w_pool w)) by apply Hx.
  split; simpl; rewrite ?length_unlinked_items.
  - unfold unlinked_links. rewrite Hp. case_bool_decide; simpl; rewrite ?length_insert; lia.
  - rewrite Hp. simpl. rewrite length_insert. lia.
  - unfold unlinked_links. rewrite Hp. simpl. case_bool_decide; [apply Hw|].
    destruct Hx. by apply swap_NoDup; [apply Hw|..].
  - intros u Hu. rewrite Hp. simpl. rewrite length_insert. apply (po_range w Hw).
    revert Hu. unfold unlinked_links. rewrite Hp. simpl. case_bool_decide; [done|].
    intros [k Hk]%list_elem_of_lookup. destruct Hx as [_ Lx].
    destruct (swap_lookup _ _ _ _ _ _ _ Lx Hev Hk) as (k' & Hk' & _).
    by eapply list_elem_of_lookup_2.
  - rewrite Hp. simpl. lia.
  - exact Hevents.
  - intros fd u Hu. rewrite (sh_interest _ _ _ _ Hsh) in Hu.
    apply lookup_delete_Some in Hu as [Hne Hu]. destruct (po_interest w Hw fd u Hu) as (Ha & g & Hg & Hgf).
    assert (u <> v) by (intros ->; congruence). split; [by apply Hact|].
    destruct (Hoth u g) as [i Hi]; [done..|]. exists (set_index i g). done.
  - destruct (po_efd w Hw) as (? & ? & ?). rewrite Hp. simpl.
    destruct (po_events w Hw x v Hx) as (e0 & He0 & Ho). rewrite He in He0. injection He0 as <-.
    rewrite (sh_fds _ _ _ _ Hsh), (sh_interest _ _ _ _ Hsh). split; [done|].
    assert (ev_fd e <> ph_efd (w_pool w)).
    { intros Heq. pose proof (eo_registered _ _ _ _ Ho) as Hr. rewrite Heq in Hr. congruence. }
    split; [set_solver|]. by apply lookup_delete_None; right.
Qed.

Lemma deletion : deleted w w2 v e.
Proof.
  split.
  - exact del_pool_ok.
  - exact del_outside.
  - apply (sh_fds _ _ _ _ Hsh).
  - exact del_active.
  - simpl. by rewrite Hp.
  - exists e'. split; [exact del_self|done].
  - exact del_others.
Qed.
End Deletion.

(** [shut], then [unlink]. *)
Lemma unlink_deleted w w1 v x e :
  pool_ok w -> at_pos (w_pool w) x v -> ph_items (w_pool w) !! v = Some e -> shutdown w w1 v e ->
  wp (unlink v) (fun _ w' => deleted w w' v e) w1.
Proof.
  intros Hw Hx He Hsh. destruct (sh_pool _ _ _ _ Hsh) as (e' & Hp & Hfd & Hit & Hpr & Hix).
  destruct (po_events w Hw x v Hx) as (e0 & He0 & Ho). rewrite He in He0. injection He0 as <-.
  rewrite (eo_index _ _ _ _ Ho) in Hix.
  destruct (last_link w v x Hw Hx) as (ev & f0 & Hev & Hf0 & _).
  assert (exists f, ph_items (w_pool w1) !! ev = Some f) as [f Hf].
  { apply lookup_lt_is_Some_2. rewrite Hp. simpl. rewrite length_insert. by eapply lookup_lt_Some. }
  pose proof (po_count w Hw). pose proof (po_links w Hw).
  apply (unlink_wp v x e' ev f); rewrite ?Hp; simpl; try done; [apply Hx|lia| |by rewrite Hp in Hf|].
  - apply list_lookup_insert_eq. by eapply lookup_lt_Some.
  - rewrite <- Hp. by eapply deletion.
Qed.

(** ** The chain of pairs *)
Definition pair_at (p : poolhd) (v : nat) : option nat := ph_items p !! v ≫= ev_pair.

(** Pairs form cycles: the two ends of a TCP connection point to each other, the
    three sockets of a UDP association to the next one. *)
Record pairs_ok (p : poolhd) : Prop := {
  pa_live : forall v q, active p v -> pair_at p v = Some q ->
    active p q /\ q <> v /\ is_Some (pair_at p q);
  pa_inj : forall v u q, active p v -> active p u ->
    pair_at p v = Some q -> pair_at p u = Some q -> v = u
}.

(** In the middle of [del_event]: the cycle has been opened at [d], which is
    dead, and [s] is the next event to go. *)
Record pairs_open (p : poolhd) (s d : nat) : Prop := {
  pn_live : forall v q, active p v -> pair_at p v = Some q ->
    (active p q /\ q <> v /\ is_Some (pair_at p q)) \/ q = d;
  pn_inj : forall v u q, active p v -> active p u ->
    pair_at p v = Some q -> pair_at p u = Some q -> v = u;
  pn_next : forall v, active p v -> pair_at p v <> Some s;
  pn_dead : exists e, ph_items p !! d = Some e /\ ev_fd e = -1 /\ ev_mod_iter e = ph_iters p /\
    ev_pair e = None /\ ~ active p d;
  pn_head : s = d \/ (active p s /\ (pair_at p s = None -> forall v, active p v -> pair_at p v <> Some d))
}.

(** The events of [D] were in use and are closed; the others are as before, up
    to their position. *)
Record closed (w w' : world) (D : list nat) : Prop := {
  cl_ok : pool_ok w';
  cl_outside : outside w w';
  cl_sub : forall v, v ∈ D -> active (w_pool w) v;
  cl_active : forall u, active (w_pool w') u <-> active (w_pool w) u /\ u ∉ D;
  cl_fds : forall fd, fd ∈ w_fds w' <-> fd ∈ w_fds w /\
    ~ exists v e, v ∈ D /\ ph_items (w_pool w) !! v = Some e /\ ev_fd e = fd;
  cl_others : forall u f, u ∉ D -> ph_items (w_pool w) !! u = Some f ->
    exists i, ph_items (w_pool w') !! u = Some (set_index i f);
  cl_gone : forall v, v ∈ D -> exists e, ph_items (w_pool w') !! v = Some e /\
    ev_fd e = -1 /\ ev_mod_iter e = ph_iters (w_pool w')
}.

Lemma closed_nil w : pool_ok w -> closed w w [].
Proof.
  intros Hw. split; try done.
  - apply outside_refl.
  - by intros v ?%not_elem_of_nil.
  - intros u. split; [|tauto]. intros. split; [done|apply not_elem_of_nil].
  - intros fd. split; [|tauto]. intros. split; [done|]. intros (v & e & ?%not_elem_of_nil & _). done.
  - intros u f _ Hu. exists (ev_index f). rewrite Hu. by destruct f.
  - by intros v ?%not_elem_of_nil.
Qed.
Lemma closed_fd_active w w1 v e u f :
  closed w w1 [v] -> ph_items (w_pool w) !! v = Some e -> active (w_pool w1) u ->
  ph_items (w_pool w1) !! u = Some f ->
  exists g, ph_items (w_pool w) !! u = Some g /\ ev_fd g = ev_fd f.
Proof.
  intros Hc He Hu Hf. apply (cl_active _ _ _ Hc) in Hu as [Ha Hn].
  destruct (ou_items _ _ (cl_outside _ _ _ Hc) u f Hf) as (g & Hg & _).
  destruct (cl_others _ _ _ Hc u g Hn Hg) as [i Hi]. rewrite Hf in Hi. injection Hi as ->. by exists g.
Qed.
Lemma closed_cons w w1 w2 v e D :
  ph_items (w_pool w) !! v = Some e -> closed w w1 [v] -> closed w1 w2 D -> closed w w2 (v :: D).
Proof.
  intros He H1 H2.
  assert (Hsub : forall u, u ∈ D -> active (w_pool w) u /\ u <> v).
  { intros u Hu%(cl_sub _ _ _ H2)%(cl_active _ _ _ H1). set_solver. }
  split.
  - apply H2.
  - eapply outside_trans; [apply H1|apply H2].
  - intros u [->|Hu]%elem_of_cons; [apply (cl_sub _ _ _ H1); set_solver|by apply Hsub].
  - intros u. rewrite (cl_active _ _ _ H2), (cl_active _ _ _ H1). set_solver.
  - intros fd. rewrite (cl_fds _ _ _ H2), (cl_fds _ _ _ H1). split.
    + intros [[Hfd Hv] HD]. split; [done|]. intros (u & f & [->|Hu]%elem_of_cons & Hf & Hff).
      * apply Hv. exists v, f. set_solver.
      * apply HD. destruct (Hsub u Hu). destruct (cl_others _ _ _ H1 u f) as [i Hi]; [set_solver|done|].
        exists u, (set_index i f). done.
    + intros [Hfd HD]. split; [split; [done|]|].
      * intros (u & f & ->%list_elem_of_singleton & Hf & Hff). apply HD. exists v, f. set_solver.
      * intros (u & f & Hu & Hf & Hff). pose proof (cl_sub _ _ _ H2 u Hu) as Ha.
        destruct (closed_fd_active _ _ _ _ _ _ H1 He Ha Hf) as (g & Hg & Hgf).
        apply HD. exists u, g. split; [by right|]. split; [done|congruence].
  - intros u f Hn Hf. destruct (cl_others _ _ _ H1 u f) as [i Hi]; [set_solver|done|].
    destruct (cl_others _ _ _ H2 u _ ltac:(set_solver) Hi) as [j Hj]. exists j. by rewrite Hj.
  - intros u [->|Hu]%elem_of_cons; [|by apply H2].
    destruct (cl_gone _ _ _ H1 v) as (f & Hf & Hfd & Hit); [by left|].
    assert (Hn : v ∉ D) by (intros Hv; destruct (Hsub v Hv); done).
    destruct (cl_others _ _ _ H2 v f Hn Hf) as [j Hj]. exists (set_index j f). split; [done|].
    split; [done|]. simpl. by rewrite Hit, (ou_iters _ _ (cl_outside _ _ _ H2)).
Qed.

(** One event gone, and its pair forgotten. *)
Lemma deleted_closed w w1 v e :
  active (w_pool w) v -> ph_items (w_pool w) !! v = Some e -> deleted w w1 v e -> closed w w1 [v].
Proof.
  intros Ha He Hd. split.
  - apply Hd.
  - apply Hd.
  - by intros u ->%list_elem_of_singleton.
  - intros u. rewrite (de_active _ _ _ _ Hd). set_solver.
  - intros fd. rewrite (de_fds _ _ _ _ Hd). rewrite elem_of_difference, elem_of_singleton. split.
    + intros [? Hne]. split; [done|]. intros (u & f & ->%list_elem_of_singleton & Hf & Hff). congruence.
    + intros [? Hn]. split; [done|]. intros ->. apply Hn. exists v, e. set_solver.
  - intros u f Hu Hf. apply (de_others _ _ _ _ Hd); [set_solver|done].
  - intros u ->%list_elem_of_singleton. destruct (de_event _ _ _ _ Hd) as (e' & He' & Hfd & Hit & _).
    exists e'. rewrite (ou_iters _ _ (de_outside _ _ _ _ Hd)). done.
Qed.
Lemma closed_store w w1 v e1 e2 :
  closed w w1 [v] -> ph_items (w_pool w1) !! v = Some e1 -> ev_fd e2 = -1 ->
  ev_mod_iter e2 = ph_iters (w_pool w1) ->
  closed w (with_pool (set_items (<[v := e2]> (ph_items (w_pool w1))) (w_pool w1)) w1) [v].
Proof.
  intros Hc He Hfd Hm. assert (Hv : ~ active (w_pool w1) v).
  { rewrite (cl_active _ _ _ Hc). set_solver. }
  destruct (item_stored_ok w1 v e1 e2) as [Hok Ho]; [apply Hc|done..|]. split.
  - exact Hok.
  - eapply outside_trans; [apply Hc|exact Ho].
  - apply Hc.
  - apply (cl_active _ _ _ Hc).
  - apply (cl_fds _ _ _ Hc).
  - intros u f Hn Hf. destruct (cl_others _ _ _ Hc u f Hn Hf) as [i Hi]. exists i. simpl.
    rewrite list_lookup_insert_ne by set_solver. done.
  - intros u ->%list_elem_of_singleton. exists e2. simpl.
    by rewrite list_lookup_insert_eq by (by eapply lookup_lt_Some).
Qed.

(** ** The recursion *)

(** What [del_event] does after [shut] and [unlink], lines 108-116. *)
Definition del_rest (fuel : nat) (val : nat) : io unit :=
  v ← item val;
  _ ← (match ev_pair v with
       | Some q =>
           b ← item q;
           _ ← (if bool_decide (ev_pair b = Some val) then upd q (set_pair None) else mret tt);
           e ← pair_of val;
           _ ← upd val (set_pair None);
           del_event_loop fuel e
       | None => mret tt
       end);
  p ← get w_pool;
  c_assert (0 <? ph_count p).

Lemma del_head fuel s x e (Q : unit -> world -> Prop) w :
  pool_ok w -> at_pos (w_pool w) x s -> ph_items (w_pool w) !! s = Some e ->
  (forall w1, deleted w w1 s e -> wp (del_rest fuel s) Q w1) ->
  wp (del_event_loop (S fuel) s) Q w.
Proof.
  intros Hw Hx He HQ. cbn [del_event_loop].
  destruct (po_events w Hw x s Hx) as (e0 & He0 & Ho). rewrite He in He0. injection He0 as <-.
  destruct Ho. apply wp_bind. eapply wp_item; [done|]. apply wp_bind, wp_get, wp_bind, wp_assert; [lia|].
  replace (ev_fd e =? -1) with false by lia.
  apply wp_bind. eapply wp_mono; [by apply (shut_wp s e)|]. intros ? w1 Hsh. cbn beta.
  apply wp_bind. eapply wp_mono; [by eapply (unlink_deleted w w1)|]. intros ? w2 Hd. by apply HQ.
Qed.

(** The end of a chain: the dead event. *)
Lemma del_dead fuel d e (Q : unit -> world -> Prop) w :
  ph_items (w_pool w) !! d = Some e -> ev_fd e = -1 -> ev_mod_iter e = ph_iters (w_pool w) ->
  Q tt w -> wp (del_event_loop (S fuel) d) Q w.
Proof.
  intros He Hfd Hit HQ. cbn [del_event_loop]. apply wp_bind. eapply wp_item; [done|].
  apply wp_bind, wp_get, wp_bind, wp_assert; [rewrite Hfd, Hit; lia|]. rewrite Hfd. by apply wp_ret.
Qed.

Lemma pair_at_some p v e : ph_items p !! v = Some e -> pair_at p v = ev_pair e.
Proof. unfold pair_at. by intros ->. Qed.
Lemma pair_at_Some p v q : pair_at p v = Some q -> exists e, ph_items p !! v = Some e /\ ev_pair e = Some q.
Proof. intros H. apply bind_Some in H as (e & He & Hq). by exists e. Qed.

(** Pairs of the events that remain. *)
Lemma closed_pair w w1 D u : closed w w1 D -> u ∉ D ->
  pair_at (w_pool w1) u = pair_at (w_pool w) u \/ ph_items (w_pool w) !! u = None.
Proof.
  intros Hc Hu. destruct (ph_items (w_pool w) !! u) as [f|] eqn:Hf; [left|by right].
  destruct (cl_others _ _ _ Hc u f Hu Hf) as [i Hi].
  by rewrite (pair_at_some _ _ _ Hi), (pair_at_some _ _ _ Hf).
Qed.
Lemma closed_pair_active w w1 D u :
  pool_ok w -> closed w w1 D -> active (w_pool w1) u -> pair_at (w_pool w1) u = pair_at (w_pool w) u.
Proof.
  intros Hw Hc Ha. apply (cl_active _ _ _ Hc) in Ha as [Ha Hn].
  destruct (closed_pair w w1 D u Hc Hn) as [|Hnone]; [done|].
  destruct (active_event w Hw u Ha) as (x & e & _ & He & _). congruence.
Qed.

(** An event with no pair, that nothing points to: the listening socket. *)
Definition lone (p : poolhd) (u : nat) : Prop := active p u /\ pair_at p u = None.
Lemma lone_count w u : pool_ok w -> active (w_pool w) u -> 0 < ph_count (w_pool w).
Proof. intros Hw (x & Hx & _). lia. Qed.

Lemma closed_pair_sub w w1 D a b :
  closed w w1 D -> a ∉ D -> pair_at (w_pool w1) a = Some b -> pair_at (w_pool w) a = Some b.
Proof.
  intros Hc Ha Hb. destruct (pair_at_Some _ _ _ Hb) as (e1 & He1 & _).
  destruct (ou_items _ _ (cl_outside _ _ _ Hc) a e1 He1) as (e & He & _).
  destruct (closed_pair w w1 D a Hc Ha) as [<-|]; [done|congruence].
Qed.
Lemma closed_lone w w1 D u : pool_ok w -> closed w w1 D -> lone (w_pool w) u -> u ∉ D -> lone (w_pool w1) u.
Proof.
  intros Hw Hc [Ha Hp] Hn. assert (Ha1 : active (w_pool w1) u) by (by apply (cl_active _ _ _ Hc)).
  split; [done|]. by rewrite (closed_pair_active w w1 D u Hw Hc Ha1).
Qed.

(** What is left of [pairs_open] when [s], paired with [q], is gone. *)
Lemma pairs_open_step w w1 s q d :
  pool_ok w -> pairs_open (w_pool w) s d -> active (w_pool w) s -> pair_at (w_pool w) s = Some q ->
  closed w w1 [s] -> pairs_open (w_pool w1) q d.
Proof.
  intros Hw Ho Hs Hq Hc.
  assert (Hpair : forall u, active (w_pool w1) u -> pair_at (w_pool w1) u = pair_at (w_pool w) u)
    by (intros u; by apply (closed_pair_active w w1 [s])).
  assert (Hact : forall u, active (w_pool w1) u <-> active (w_pool w) u /\ u <> s).
  { intros u. rewrite (cl_active _ _ _ Hc). set_solver. }
  destruct (pn_dead _ _ _ Ho) as (e & He & Hfd & Hit & Hpr & Hna).
  split.
  - intros u r Hu. rewrite (Hpair u Hu). intros Hr. apply Hact in Hu as [Hu Hne].
    destruct (pn_live _ _ _ Ho u r Hu Hr) as [(Ha & Hru & Hsome)|]; [left|by right].
    assert (Hrs : r <> s) by (intros ->; by apply (pn_next _ _ _ Ho u Hu)).
    assert (active (w_pool w1) r) as Har by (by apply Hact). split; [done|]. split; [done|].
    by rewrite Hpair.
  - intros v u r Hv Hu. rewrite (Hpair v Hv), (Hpair u Hu). apply Hact in Hv as [Hv _], Hu as [Hu _].
    by apply (pn_inj _ _ _ Ho).
  - intros u Hu. rewrite (Hpair u Hu). apply Hact in Hu as [Hu Hne]. intros Huq.
    apply Hne. by apply (pn_inj _ _ _ Ho u s q).
  - destruct (cl_others _ _ _ Hc d e) as [i Hi]; [set_solver|done|].
    exists (set_index i e). rewrite (ou_iters _ _ (cl_outside _ _ _ Hc)), Hact. naive_solver.
  - destruct (pn_live _ _ _ Ho s q Hs Hq) as [(Ha & Hne & Hsome)|]; [right|by left].
    assert (active (w_pool w1) q) as Haq by (by apply Hact). split; [done|].
    rewrite (Hpair q Haq). intros Hnone. rewrite Hnone in Hsome. by destruct Hsome.
Qed.

(** The last event of an open chain is gone. *)
Lemma pairs_open_last w w1 s d :
  pool_ok w -> pairs_open (w_pool w) s d -> active (w_pool w) s -> pair_at (w_pool w) s = None ->
  closed w w1 [s] -> pairs_ok (w_pool w1).
Proof.
  intros Hw Ho Hs Hq Hc.
  assert (Hpair : forall u, active (w_pool w1) u -> pair_at (w_pool w1) u = pair_at (w_pool w) u)
    by (intros u; by apply (closed_pair_active w w1 [s])).
  assert (Hact : forall u, active (w_pool w1) u <-> active (w_pool w) u /\ u <> s).
  { intros u. rewrite (cl_active _ _ _ Hc). set_solver. }
  destruct (pn_dead _ _ _ Ho) as (e & He & Hfd & Hit & Hpr & Hna).
  split.
  - intros u r Hu. rewrite (Hpair u Hu). intros Hr. apply Hact in Hu as [Hu Hne].
    assert (Hrs : r <> s) by (intros ->; by apply (pn_next _ _ _ Ho u Hu)).
    destruct (pn_live _ _ _ Ho u r Hu Hr) as [(Ha & Hru & Hsome)|Hrd].
    + assert (active (w_pool w1) r) as Har by (by apply Hact). split; [done|]. split; [done|].
      by rewrite Hpair.
    + subst r. destruct (pn_head _ _ _ Ho) as [->|[_ Hd]]; [done|]. by destruct (Hd Hq u Hu).
  - intros v u r Hv Hu. rewrite (Hpair v Hv), (Hpair u Hu). apply Hact in Hv as [Hv _], Hu as [Hu _].
    by apply (pn_inj _ _ _ Ho).
Qed.

(** The chain from [s] up to the dead event [d]. *)
Definition chain_of (p : poolhd) (s d : nat) (D : list nat) : Prop :=
  (forall u, u ∈ D -> rtc (fun a b => pair_at p a = Some b) s u) /\
  (s = d \/ s ∈ D) /\
  (forall a b, a ∈ D -> pair_at p a = Some b -> b ∈ D \/ b = d).

Lemma chain_cons w w1 s q d D :
  pair_at (w_pool w) s = Some q -> closed w w1 [s] -> pair_at (w_pool w1) s = None ->
  (forall v, v ∈ D -> active (w_pool w1) v) ->
  chain_of (w_pool w1) q d D -> chain_of (w_pool w) s d (s :: D).
Proof.
  intros Hq Hc Hs Hsub (Hr & Hh & Hn). split; [|split].
  - intros u [->|Hu]%elem_of_cons; [by apply rtc_refl|]. eapply rtc_l; [exact Hq|].
    specialize (Hr u Hu). clear -Hr Hc Hs. induction Hr as [|a b c Hab _ IH]; [done|].
    eapply rtc_l; [|exact IH]. apply (closed_pair_sub w w1 [s]); [done| |done].
    intros ->%list_elem_of_singleton. congruence.
  - right. by left.
  - intros a b [->|Ha]%elem_of_cons Hab.
    + assert (b = q) as -> by congruence. destruct Hh as [|]; [by right|left; by right].
    + destruct (cl_active _ _ _ Hc a) as [Hca _]. destruct (Hca (Hsub a Ha)) as [_ Hnot].
      destruct (Hn a b Ha) as [|]; [|left; by right|by right].
      destruct (closed_pair w w1 [s] a Hc Hnot) as [->|Hnone]; [done|].
      apply pair_at_Some in Hab as (e & He & _). congruence.
Qed.

Lemma lone_not_next p s d u q :
  pairs_open p s d -> lone p u -> active p s -> pair_at p s = Some q -> u <> q.
Proof.
  intros Ho [Hu Hn] Hs Hq <-. destruct (pn_dead _ _ _ Ho) as (e & _ & _ & _ & _ & Hna).
  destruct (pn_live _ _ _ Ho s u Hs Hq) as [(_ & _ & [r Hr])|Hd]; [congruence|by subst].
Qed.

(** Forgetting the pair of an event that is gone, and going on with [q]. *)
Lemma del_rest_next fuel s q e1 b (Q : unit -> world -> Prop) w1 :
  ph_items (w_pool w1) !! s = Some e1 -> ev_pair e1 = Some q -> ph_items (w_pool w1) !! q = Some b ->
  ev_pair b <> Some s ->
  wp (del_event_loop fuel q) (fun a w2 => 0 < ph_count (w_pool w2) /\ Q a w2)
     (with_pool (set_items (<[s := set_pair None e1]> (ph_items (w_pool w1))) (w_pool w1)) w1) ->
  wp (del_rest fuel s) Q w1.
Proof.
  intros He Hq Hb Hne HQ. unfold del_rest. apply wp_bind. eapply wp_item; [done|]. rewrite Hq.
  apply wp_bind, wp_bind. eapply wp_item; [done|]. rewrite bool_decide_eq_false_2 by done.
  apply wp_bind, wp_ret, wp_bind. eapply wp_pair_of; [done..|]. apply wp_bind. eapply wp_upd; [done|].
  eapply wp_mono; [exact HQ|]. intros [] w2 [Hc H]. apply wp_bind, wp_get, wp_assert; [lia|done].
Qed.
Lemma del_rest_last fuel s e1 (Q : unit -> world -> Prop) w1 :
  ph_items (w_pool w1) !! s = Some e1 -> ev_pair e1 = None -> 0 < ph_count (w_pool w1) -> Q tt w1 ->
  wp (del_rest fuel s) Q w1.
Proof.
  intros He Hq Hc HQ. unfold del_rest. apply wp_bind. eapply wp_item; [done|]. rewrite Hq.
  apply wp_bind, wp_ret, wp_bind, wp_get, wp_assert; [lia|done].
Qed.

Definition chain_closed (w : world) (s d u0 : nat) (w' : world) : Prop :=
  exists D, closed w w' D /\ pairs_ok (w_pool w') /\ lone (w_pool w') u0 /\
    chain_of (w_pool w) s d D /\ u0 ∉ D.

Lemma del_chain fuel s d u0 w :
  pool_ok w -> pairs_open (w_pool w) s d -> lone (w_pool w) u0 -> s <> u0 ->
  ph_count (w_pool w) < Z.of_nat fuel ->
  wp (del_event_loop fuel s) (fun _ w' => chain_closed w s d u0 w') w.
Proof.
  revert s w. induction fuel as [|fuel IH]; intros s w Hw Ho Hl Hne Hfuel.
  { pose proof (po_count w Hw). lia. }
  destruct (decide (s = d)) as [->|Hsd].
  { destruct (pn_dead _ _ _ Ho) as (e & He & Hfd & Hit & Hpr & Hna).
    eapply del_dead; [done..|]. exists []. split; [by apply closed_nil|]. split.
    - split; [|apply Ho]. intros v q Hv Hq.
      destruct (pn_live _ _ _ Ho v q Hv Hq) as [|Hd]; [done|]. subst q.
      by destruct (pn_next _ _ _ Ho v Hv).
    - split; [done|]. split; [|apply not_elem_of_nil]. split; [|split].
      + by intros u ?%not_elem_of_nil.
      + by left.
      + by intros a b ?%not_elem_of_nil. }
  assert (Hs : active (w_pool w) s) by (destruct (pn_head _ _ _ Ho) as [|[]]; done).
  destruct (active_event w Hw s Hs) as (x & e & Hx & He & Hok).
  eapply del_head; [done..|]. intros w1 Hd. pose proof (deleted_closed w w1 s e Hs He Hd) as Hc.
  assert (Hu0 : u0 ∉ [s]) by set_solver.
  pose proof (closed_lone w w1 [s] u0 Hw Hc Hl Hu0) as Hl1.
  destruct (de_event _ _ _ _ Hd) as (e1 & He1 & Hfd1 & Hit1 & Hpr1).
  destruct (ev_pair e) as [q|] eqn:Hq.
  - assert (Hpq : pair_at (w_pool w) s = Some q) by (by rewrite (pair_at_some _ _ _ He)).
    pose proof (lone_not_next _ _ _ _ _ Ho Hl Hs Hpq) as Huq.
    set (w2 := with_pool (set_items (<[s := set_pair None e1]> (ph_items (w_pool w1))) (w_pool w1)) w1).
    assert (Hc2 : closed w w2 [s]).
    { apply (closed_store w w1 s e1); [done..|]. by rewrite (ou_iters _ _ (de_outside _ _ _ _ Hd)). }
    assert (Ho2 : pairs_open (w_pool w2) q d) by (by eapply pairs_open_step).
    assert (Hs2 : pair_at (w_pool w2) s = None).
    { unfold pair_at. simpl. by rewrite list_lookup_insert_eq by (by eapply lookup_lt_Some). }
    assert (Hb : exists b, ph_items (w_pool w1) !! q = Some b /\ ev_pair b <> Some s).
    { assert (Hqs : q <> s) by (intros ->; by destruct (pn_next _ _ _ Ho s Hs)).
      destruct (pn_live _ _ _ Ho s q Hs Hpq) as [(Ha & _ & _)| ->].
      - destruct (active_event w Hw q Ha) as (y & b & _ & Hb & _).
        destruct (de_others _ _ _ _ Hd q b Hqs Hb) as [i Hi]. exists (set_index i b).
        split; [done|]. intros Hbs. apply (pn_next _ _ _ Ho q Ha).
        by rewrite (pair_at_some _ _ _ Hb).
      - destruct (pn_dead _ _ _ Ho) as (b & Hb & _ & _ & Hbp & _).
        destruct (de_others _ _ _ _ Hd d b Hqs Hb) as [i Hi]. exists (set_index i b).
        split; [done|]. simpl. congruence. }
    destruct Hb as (b & Hb & Hbs). eapply del_rest_next; [done| |done..|]; [congruence|].
    eapply wp_mono; [apply (IH q w2)|].
    + apply Hc2.
    + exact Ho2.
    + by eapply closed_lone.
    + congruence.
    + simpl. rewrite (de_count _ _ _ _ Hd). lia.
    + intros [] w3 (D & Hc3 & Hpk & Hl3 & Hch & Hn). split.
      { eapply lone_count; [apply Hc3|apply Hl3]. }
      exists (s :: D). split; [by eapply closed_cons|]. split; [done|]. split; [done|].
      split; [|set_solver]. eapply chain_cons; [done..| |done]. apply Hc3.
  - eapply del_rest_last; [done|congruence|eapply lone_count; [apply Hd|apply Hl1]|].
    exists [s]. split; [done|]. split; [eapply pairs_open_last; [done..| |done]|].
    { by rewrite (pair_at_some _ _ _ He). }
    split; [done|]. split; [|done]. split; [|split].
    + intros u ->%list_elem_of_singleton. apply rtc_refl.
    + right. set_solver.
    + intros a b ->%list_elem_of_singleton. rewrite (pair_at_some _ _ _ He). congruence.
Qed.

(** ** The first event of a cycle *)

(** [v] is gone; its successor [q] forgets it if it was its own. *)
Lemma pairs_open_first w w2 v q :
  pairs_ok (w_pool w) -> active (w_pool w) v -> pair_at (w_pool w) v = Some q ->
  (forall u, active (w_pool w2) u <-> active (w_pool w) u /\ u <> v) ->
  (forall u, active (w_pool w2) u -> pair_at (w_pool w2) u =
     if decide (u = q /\ pair_at (w_pool w) q = Some v) then None else pair_at (w_pool w) u) ->
  (exists e, ph_items (w_pool w2) !! v = Some e /\ ev_fd e = -1 /\
     ev_mod_iter e = ph_iters (w_pool w2) /\ ev_pair e = None) ->
  pairs_open (w_pool w2) q v.
Proof.
  intros Hk Hv Hq Hact Hpair (e & He & Hfd & Hit & Hpr).
  destruct (pa_live _ Hk v q Hv Hq) as (Hqa & Hqv & Hqs).
  assert (Hqa2 : active (w_pool w2) q) by (by apply Hact).
  assert (Hsub : forall u r, active (w_pool w2) u -> pair_at (w_pool w2) u = Some r ->
            active (w_pool w) u /\ u <> v /\ pair_at (w_pool w) u = Some r).
  { intros u r Hu. rewrite (Hpair u Hu). destruct (decide _); [discriminate|]. apply Hact in Hu as [? ?]. auto. }
  split.
  - intros u r Hu Hr. destruct (Hsub u r Hu Hr) as (Hu' & Hne & Hr').
    destruct (pa_live _ Hk u r Hu' Hr') as (Hra & Hru & Hrs).
    destruct (decide (r = v)) as [->|Hrv]; [by right|left].
    assert (Hra2 : active (w_pool w2) r) by (by apply Hact). split; [done|]. split; [done|].
    rewrite (Hpair r Hra2). destruct (decide _) as [Hsp|]; [|done]. destruct Hsp as [-> _].
    destruct Hne. by apply (pa_inj _ Hk u v q).
  - intros u1 u2 r H1 H2 Hr1 Hr2. destruct (Hsub _ _ H1 Hr1) as (? & _ & ?), (Hsub _ _ H2 Hr2) as (? & _ & ?).
    by apply (pa_inj _ Hk u1 u2 r).
  - intros u Hu Hr. destruct (Hsub u q Hu Hr) as (Hu' & Hne & Hr'). apply Hne. by apply (pa_inj _ Hk u v q).
  - exists e. rewrite Hact. naive_solver.
  - right. split; [done|]. rewrite (Hpair q Hqa2). destruct (decide _) as [Hsp|].
    + intros _ u Hu Hr. destruct (Hsub u v Hu Hr) as (Hu' & _ & Hr'). destruct Hsp as [_ Hsp].
      assert (u = q) as -> by (by apply (pa_inj _ Hk u q v)).
      rewrite (Hpair q Hu), decide_True in Hr by done. done.
    + intros Hnone. rewrite Hnone in Hqs. by destruct Hqs.
Qed.

(** Storing to an event in use what [event_ok] does not mention. *)
Lemma patch_ok w q b b' :
  pool_ok w -> ph_items (w_pool w) !! q = Some b ->
  ev_fd b' = ev_fd b -> ev_index b' = ev_index b -> ev_mod_iter b' = ev_mod_iter b ->
  (b_data (ev_buff b') <> None -> b_size (ev_buff b') <> 0) ->
  let w1 := with_pool (set_items (<[q := b']> (ph_items (w_pool w))) (w_pool w)) w in
  pool_ok w1 /\ outside w w1.
Proof.
  intros Hw Hb Hfd Hix Hit Hbuf w1. assert (Hl : (q < length (ph_items (w_pool w)))%nat) by (by eapply lookup_lt_Some).
  split.
  - destruct Hw. split; simpl; rewrite ?length_insert; try done.
    + intros x u Hx. destruct (po_events0 x u Hx) as (f & Hf & []). destruct (decide (u = q)) as [->|Hne].
      * exists b'. rewrite list_lookup_insert_eq by done. split; [done|].
        assert (f = b) as -> by congruence. split; simpl; try congruence; done.
      * exists f. rewrite list_lookup_insert_ne by done. split; [done|]. by split.
    + intros fd u Hu. destruct (po_interest0 fd u Hu) as (Ha & f & Hf & Hff). split; [done|].
      destruct (decide (u = q)) as [->|Hne].
      * exists b'. rewrite list_lookup_insert_eq by done. split; [done|]. congruence.
      * exists f. by rewrite list_lookup_insert_ne.
  - split; try done. simpl. intros u e' Hu. destruct (decide (u = q)) as [->|].
    + rewrite list_lookup_insert_eq in Hu by done. injection Hu as <-. exists b. auto.
    + rewrite list_lookup_insert_ne in Hu by done. eauto.
Qed.

(** ... does not matter when the event is closed afterwards. *)
Lemma closed_patch w w3 q b b' D :
  pool_ok w -> ph_items (w_pool w) !! q = Some b -> ev_fd b' = ev_fd b ->
  outside w (with_pool (set_items (<[q := b']> (ph_items (w_pool w))) (w_pool w)) w) ->
  closed (with_pool (set_items (<[q := b']> (ph_items (w_pool w))) (w_pool w)) w) w3 D -> q ∈ D ->
  closed w w3 D.
Proof.
  intros Hw Hb Hfd Ho Hc Hq. set (w2 := with_pool _ w) in *.
  assert (Hl : (q < length (ph_items (w_pool w)))%nat) by (by eapply lookup_lt_Some).
  assert (Hfds : forall v, option_map ev_fd (ph_items (w_pool w2) !! v) = option_map ev_fd (ph_items (w_pool w) !! v)).
  { intros v. simpl. destruct (decide (v = q)) as [->|Hne].
    - rewrite list_lookup_insert_eq, Hb by done. simpl. by rewrite Hfd.
    - by rewrite list_lookup_insert_ne. }
  split; try apply Hc.
  - eapply outside_trans; [exact Ho|apply Hc].
  - intros fd. rewrite (cl_fds _ _ _ Hc). apply and_iff_compat_l, not_iff_compat.
    split; intros (v & e & Hv & He & Hef); specialize (Hfds v).
    + rewrite He in Hfds. destruct (ph_items (w_pool w) !! v) as [f|] eqn:Hf; simpl in Hfds; [|done].
      exists v, f. split; [done|]. split; [done|congruence].
    + rewrite He in Hfds. destruct (ph_items (w_pool w2) !! v) as [f|] eqn:Hf; simpl in Hfds; [|done].
      exists v, f. split; [done|]. split; [done|congruence].
  - intros u f Hu Hf. apply (cl_others _ _ _ Hc); [done|]. simpl.
    rewrite list_lookup_insert_ne; [done|]. intros ->. done.
Qed.

Lemma del_rest_first fuel s q e1 b (Q : unit -> world -> Prop) w1 :
  ph_items (w_pool w1) !! s = Some e1 -> ev_pair e1 = Some q -> ph_items (w_pool w1) !! q = Some b ->
  q <> s ->
  wp (del_event_loop fuel q) (fun a w2 => 0 < ph_count (w_pool w2) /\ Q a w2)
     (with_pool (set_items (<[q := if decide (ev_pair b = Some s) then set_pair None b else b]>
        (<[s := set_pair None e1]> (ph_items (w_pool w1)))) (w_pool w1)) w1) ->
  wp (del_rest fuel s) Q w1.
Proof.
  intros He Hq Hb Hne HQ. unfold del_rest. apply wp_bind. eapply wp_item; [done|]. rewrite Hq.
  apply wp_bind, wp_bind. eapply wp_item; [done|].
  apply wp_bind. eapply wp_mono with (Q := fun _ w2 => w2 =
    with_pool (set_items (<[q := if decide (ev_pair b = Some s) then set_pair None b else b]>
      (ph_items (w_pool w1))) (w_pool w1)) w1).
  { case_bool_decide as Hbs; destruct (decide _); try done.
    - by eapply wp_upd.
    - apply wp_ret. rewrite list_insert_id, set_items_id by done. by destruct w1. }
  intros _ w2 ->. apply wp_bind. eapply wp_pair_of; [simpl; rewrite list_lookup_insert_ne by done; done|done|].
  apply wp_bind. eapply wp_upd; [simpl; rewrite list_lookup_insert_ne by done; done|].
  simpl. rewrite list_insert_insert_ne by done.
  eapply wp_mono; [exact HQ|]. intros [] w2 [Hc H]. apply wp_bind, wp_get, wp_assert; [lia|done].
Qed.

(** Closing [v] closes its cycle. *)
Definition cycle_closed (w : world) (v u0 : nat) (w' : world) : Prop :=
  exists D, closed w w' D /\ pairs_ok (w_pool w') /\ lone (w_pool w') u0 /\
    (forall u, u ∈ D <-> rtc (fun a b => pair_at (w_pool w) a = Some b) v u).

Lemma cycle_closed_single w w1 v u0 :
  pool_ok w -> pairs_ok (w_pool w) -> lone (w_pool w) u0 -> v <> u0 -> closed w w1 [v] ->
  active (w_pool w) v -> pair_at (w_pool w) v = None -> cycle_closed w v u0 w1.
Proof.
  intros Hw Hk Hl Hne Hc Hv Hp. exists [v].
  assert (Hu0 : u0 ∉ [v]) by set_solver. split; [done|]. split; [|split; [by eapply closed_lone|]].
  - split.
    + intros u r Hu. rewrite (closed_pair_active w w1 [v] u Hw Hc Hu). intros Hr.
      apply (cl_active _ _ _ Hc) in Hu as [Hu Hn]. destruct (pa_live _ Hk u r Hu Hr) as (Hra & Hru & Hrs).
      assert (r <> v) by (intros ->; rewrite Hp in Hrs; by destruct Hrs).
      assert (Hr1 : active (w_pool w1) r) by (apply (cl_active _ _ _ Hc); set_solver).
      split; [done|]. split; [done|]. by rewrite (closed_pair_active w w1 [v] r Hw Hc Hr1).
    + intros u1 u2 r H1 H2. rewrite !(closed_pair_active w w1 [v] _ Hw Hc) by done.
      apply (cl_active _ _ _ Hc) in H1 as [H1 _], H2 as [H2 _]. by apply (pa_inj _ Hk).
  - intros u. split; [intros ->%list_elem_of_singleton; apply rtc_refl|].
    intros Hr. inversion Hr; subst; [set_solver|congruence].
Qed.

Lemma chain_cycle p p2 v q D :
  pair_at p v = Some q -> chain_of p2 q v D ->
  (forall a b, pair_at p2 a = Some b -> pair_at p a = Some b) ->
  (forall a b, a ∈ D -> pair_at p a = Some b -> pair_at p2 a = Some b \/ b = v) ->
  forall u, u ∈ v :: D <-> rtc (fun a b => pair_at p a = Some b) v u.
Proof.
  intros Hq (Hr & Hh & Hn) Hsub Hsup u. split.
  - intros [->|Hu]%elem_of_cons; [apply rtc_refl|]. eapply rtc_l; [exact Hq|].
    eapply rtc_subrel; [|by apply Hr]. exact Hsub.
  - enough (H : forall a, rtc (fun a b => pair_at p a = Some b) a u -> a ∈ v :: D -> u ∈ v :: D)
      by (intros Hu; apply (H v Hu); by left).
    intros a Hau. induction Hau as [a|a b c Hab _ IH]; [done|]. intros Ha. apply IH.
    apply elem_of_cons in Ha as [->|Ha].
    + assert (b = q) as -> by congruence. destruct Hh as [->|]; [by left|by right].
    + destruct (Hsup a b Ha Hab) as [H2| ->]; [|by left].
      destruct (Hn a b Ha H2) as [| ->]; [by right|by left].
Qed.

Definition forget (v : nat) (b : eval) : eval :=
  if decide (ev_pair b = Some v) then set_pair None b else b.
Lemma forget_same v b : ev_fd (forget v b) = ev_fd b /\ ev_index (forget v b) = ev_index b /\
  ev_mod_iter (forget v b) = ev_mod_iter b /\ ev_buff (forget v b) = ev_buff b.
Proof. unfold forget. by destruct (decide _). Qed.
Lemma forget_pair v b : ev_pair (forget v b) = if decide (ev_pair b = Some v) then None else ev_pair b.
Proof. unfold forget. by destruct (decide _). Qed.

(** The events after [v], which is dead in [wa]. *)
Section Rest.
Context (w wa : world) (v q u0 : nat) (e e' b : eval).
Context (Hw : pool_ok w) (Hk : pairs_ok (w_pool w)) (Hv : active (w_pool w) v)
  (Hl : lone (w_pool w) u0) (Hne : v <> u0)
  (He : ph_items (w_pool w) !! v = Some e) (Hq : ev_pair e = Some q) (Hc : closed w wa [v])
  (He' : ph_items (w_pool wa) !! v = Some e') (Hfd : ev_fd e' = -1)
  (Hit : ev_mod_iter e' = ph_iters (w_pool wa)) (Hpr : ev_pair e' = None)
  (Hb : ph_items (w_pool wa) !! q = Some b).
Notation w2 := (with_pool (set_items (<[q := forget v b]> (ph_items (w_pool wa))) (w_pool wa)) wa).

Lemma rest_facts : pair_at (w_pool w) v = Some q /\ q <> v /\ active (w_pool wa) q /\
  pair_at (w_pool w) q = ev_pair b /\ is_Some (ev_pair b) /\ q <> u0.
Proof.
  pose proof (pair_at_some _ _ _ He) as Hpv. rewrite Hq in Hpv.
  destruct (pa_live _ Hk v q Hv Hpv) as (Hqa & Hqv & Hqs).
  assert (Hqw : active (w_pool wa) q) by (apply (cl_active _ _ _ Hc); set_solver).
  pose proof (closed_pair_active w wa [v] q Hw Hc Hqw) as Hqp. rewrite (pair_at_some _ _ _ Hb) in Hqp.
  split; [done|]. split; [done|]. split; [done|]. split; [done|]. rewrite Hqp. split; [done|].
  intros ->. destruct Hl as [_ Hn]. rewrite Hn in Hqs. by destruct Hqs.
Qed.
Lemma rest_patch : pool_ok w2 /\ outside wa w2.
Proof.
  destruct rest_facts as (_ & _ & Hqw & _). destruct (active_event wa (cl_ok _ _ _ Hc) q Hqw) as (y & b0 & _ & Hb0 & Hqok).
  assert (b0 = b) as -> by congruence. destruct (forget_same v b) as (? & ? & ? & Hbb).
  apply (patch_ok wa q b); [apply Hc|done..|]. rewrite Hbb. apply Hqok.
Qed.
Lemma rest_pair u : pair_at (w_pool w2) u =
  if decide (u = q /\ pair_at (w_pool w) q = Some v) then None else pair_at (w_pool wa) u.
Proof.
  destruct rest_facts as (_ & _ & _ & Hqp & _). rewrite Hqp. unfold pair_at. simpl.
  destruct (decide (u = q)) as [->|Hu].
  - rewrite list_lookup_insert_eq by (by eapply lookup_lt_Some). rewrite Hb. simpl.
    rewrite forget_pair. destruct (decide (ev_pair b = Some v)), (decide _); tauto.
  - rewrite list_lookup_insert_ne by done. destruct (decide _); tauto.
Qed.
Lemma rest_open : pairs_open (w_pool w2) q v.
Proof.
  destruct rest_facts as (Hpv & Hqv & Hqw & _).
  apply (pairs_open_first w); [done..| | |].
  - intros u. change (active (w_pool w2) u) with (active (w_pool wa) u).
    rewrite (cl_active _ _ _ Hc). set_solver.
  - intros u Hu. rewrite rest_pair. destruct (decide _); [done|].
    apply (closed_pair_active w wa [v]); done.
  - exists e'. simpl. rewrite list_lookup_insert_ne by done. done.
Qed.
Lemma rest_cycle fuel :
  ph_count (w_pool wa) < Z.of_nat fuel ->
  wp (del_event_loop fuel q) (fun _ w3 => 0 < ph_count (w_pool w3) /\ cycle_closed w v u0 w3) w2.
Proof.
  intros Hfuel. destruct rest_facts as (Hpv & Hqv & Hqw & Hqp & Hqs & Hqu). destruct rest_patch as [Hok2 Ho2].
  assert (Hu0 : u0 ∉ [v]) by set_solver.
  destruct (closed_lone w wa [v] u0 Hw Hc Hl Hu0) as [Hla Hlp].
  eapply wp_mono; [apply (del_chain fuel q v u0 w2 Hok2 rest_open)|].
  - split; [exact Hla|]. rewrite rest_pair. destruct (decide _); [done|exact Hlp].
  - done.
  - exact Hfuel.
  - intros [] w3 (D & Hc3 & Hk3 & Hl3 & Hch & Hn).
    assert (HqD : q ∈ D) by (destruct Hch as (_ & [|] & _); done).
    assert (Hc3' : closed wa w3 D).
    { eapply closed_patch; [apply Hc|exact Hb|apply forget_same|exact Ho2|exact Hc3|done]. }
    split; [eapply lone_count; [apply Hc3|apply Hl3]|].
    exists (v :: D). split; [by eapply closed_cons|]. split; [done|]. split; [done|].
    apply (chain_cycle _ (w_pool w2) v q D Hpv Hch).
    + intros a c. rewrite rest_pair. destruct (decide _); [done|]. intros Hac.
      apply (closed_pair_sub w wa [v]); [done| |done]. intros ->%list_elem_of_singleton.
      rewrite (pair_at_some _ _ _ He') in Hac. congruence.
    + intros a c Ha Hac. rewrite rest_pair. destruct (decide _) as [[-> Hsp]|]; [right; congruence|left].
      pose proof (cl_sub _ _ _ Hc3' a Ha) as Haa. by rewrite (closed_pair_active w wa [v] a Hw Hc Haa).
Qed.
End Rest.

Lemma del_event_cycle v u0 w :
  pool_ok w -> pairs_ok (w_pool w) -> active (w_pool w) v -> lone (w_pool w) u0 -> v <> u0 ->
  wp (del_event v) (fun _ w' => cycle_closed w v u0 w') w.
Proof.
  intros Hw Hk Hv Hl Hne. unfold del_event. apply wp_bind, wp_get.
  destruct (active_event w Hw v Hv) as (x & e & Hx & He & Hok).
  eapply del_head; [done..|]. intros w1 Hd. pose proof (deleted_closed w w1 v e Hv He Hd) as Hc.
  assert (Hu0 : u0 ∉ [v]) by set_solver. pose proof (closed_lone w w1 [v] u0 Hw Hc Hl Hu0) as Hl1.
  destruct (de_event _ _ _ _ Hd) as (e1 & He1 & Hfd1 & Hit1 & Hpr1).
  pose proof (pair_at_some _ _ _ He) as Hpv.
  destruct (ev_pair e) as [q|] eqn:Hq.
  2: { eapply del_rest_last; [done|congruence|eapply lone_count; [apply Hd|apply Hl1]|].
       by apply cycle_closed_single. }
  destruct (pa_live _ Hk v q Hv Hpv) as (Hqa & Hqv & Hqs).
  assert (Hqw : active (w_pool w1) q) by (apply (cl_active _ _ _ Hc); set_solver).
  destruct (active_event w1 (cl_ok _ _ _ Hc) q Hqw) as (y & b & _ & Hb & _).
  eapply (del_rest_first _ v q e1); [done|congruence|done|done|].
  set (wa := with_pool (set_items (<[v := set_pair None e1]> (ph_items (w_pool w1))) (w_pool w1)) w1).
  pose proof (ou_iters _ _ (de_outside _ _ _ _ Hd)) as Hiters.
  assert (Hca : closed w wa [v]) by (apply (closed_store w w1 v e1); [done..|simpl; congruence]).
  apply (rest_cycle w wa v q u0 e (set_pair None e1) b); try done.
  - simpl. apply list_lookup_insert_eq. by eapply lookup_lt_Some.
  - simpl. congruence.
  - simpl. by rewrite list_lookup_insert_ne.
  - simpl. rewrite (de_count _ _ _ _ Hd). pose proof (po_count w Hw). pose proof (po_items w Hw). lia.
Qed.
