(* ===== verification/ConevProps.v ===== *)
(** The properties of the pool: creation, registration, closing, the choice of
    the next event, and destruction. *)
From S2P Require Import Prelude Mpool Params World Stream Conev ConevSpec.

(** * next_event *)

(** Of the batch that [epoll_wait] stored, the events up to [offs] are still to
    be looked at; each is of an event in use, or of one that was closed (and
    perhaps used again) since. *)
Definition batch_ok (w : world) (offs : Z) : Prop :=
  -1 <= offs < ph_max (w_pool w) /\
  forall i, 0 <= i <= offs -> exists v fl, ph_pevents (w_pool w) !! Z.to_nat i = Some (v, fl) /\
    exists e, ph_items (w_pool w) !! v = Some e /\
      (active (w_pool w) v \/ ev_mod_iter e = ph_iters (w_pool w)).

Lemma batch_ok_less w offs : batch_ok w offs -> 0 <= offs -> batch_ok w (offs - 1).
Proof. intros [Hr H] Ho. split; [lia|]. intros i Hi. apply H. lia. Qed.

(** Only the batch and its number change. *)
Record waited (w w' : world) : Prop := {
  wa_ok : pool_ok w';
  wa_active : forall v, active (w_pool w') v <-> active (w_pool w) v;
  wa_items : ph_items (w_pool w') = ph_items (w_pool w);
  wa_max : ph_max (w_pool w') = ph_max (w_pool w);
  wa_fds : w_fds w' = w_fds w;
  wa_interest : w_interest w' = w_interest w;
  wa_params : w_params w' = w_params w;
  wa_buf : w_buf w' = w_buf w;
  wa_heap : w_heap w' = w_heap w;
  wa_exit : w_not_exit w' = w_not_exit w
}.
Lemma waited_refl w : pool_ok w -> waited w w.
Proof. by split. Qed.

(** The answer of [epoll_wait] is about registered descriptors. *)
Lemma sane_epoll_events w n r i e :
  let a := sane w (SysEpollWait n) r in
  0 <= r_ret a -> r_ret a = zlen (r_events a) /\ r_ret a <= Z.max 0 n /\
  (r_events a !! i = Some e -> is_Some (w_interest w !! e.1)).
Proof.
  simpl. destruct (r_ret r <? 0); simpl; [lia|]. intros _. split; [done|].
  split; [rewrite length_take; lia|]. intros He.
  apply list_elem_of_lookup_2, elem_of_take in He as (j & Hj & _).
  apply list_elem_of_lookup_2, list_elem_of_In, filter_In in Hj as [_ Hj].
  by apply bool_decide_eq_true in Hj.
Qed.

(** A new batch, before it gets its number. *)
Definition fresh_batch (w : world) (n : Z) : Prop :=
  n <= ph_max (w_pool w) /\
  forall i, 0 <= i < n -> exists v fl, ph_pevents (w_pool w) !! Z.to_nat i = Some (v, fl) /\
    active (w_pool w) v.

Lemma pool_ok_renumber w evs n :
  pool_ok w -> ph_iters (w_pool w) <= n ->
  pool_ok (with_pool (set_iters n (set_pevents evs (w_pool w))) w).
Proof.
  intros Hw Hn. split; try apply Hw. intros x v Hx.
  destruct (po_events w Hw x v Hx) as (e & He & Ho). exists e. split; [done|].
  split; try apply Ho. simpl. pose proof (eo_iter _ _ _ _ Ho). lia.
Qed.

Lemma wait_events_wp w :
  pool_ok w ->
  wp wait_events (fun n w1 => waited w w1 /\ ph_iters (w_pool w1) = ph_iters (w_pool w) /\
    fresh_batch w1 n) w.
Proof.
  intros Hw. unfold wait_events. apply wp_bind, wp_get, wp_bind, wp_get, wp_bind, wp_sys. intros r Hr.
  set (w1 := with_trace _ _).
  assert (Hp1 : w_pool w1 = w_pool w) by apply kernel_pool.
  assert (Hi1 : w_interest w1 = w_interest w) by (unfold w1, kernel; simpl; by destruct (_ <? _)).
  assert (Hf1 : w_fds w1 = w_fds w) by (by apply fds_sys).
  pose proof (outside_sys w (SysEpollWait (ph_max (w_pool w))) r) as Ho. change (outside w w1) in Ho.
  apply wp_bind, wp_upd_pool, wp_ret.
  assert (Hok1 : pool_ok w1) by (eapply pool_ok_ext; [exact Hw|done|by rewrite Hf1|done]).
  pose proof (fun i e => sane_epoll_events w (ph_max (w_pool w)) (w_env w (w_trace w) (SysEpollWait (ph_max (w_pool w)))) i e) as Hs.
  cbv zeta in Hs. rewrite <- Hr in Hs. clearbody w1.
  destruct (Z.ltb_spec (r_ret r) 0) as [Hneg|Hpos].
  - assert (Hw1 : with_pool (w_pool w1) w1 = w1) by (by destruct w1). rewrite Hw1.
    split; [|split; [by rewrite Hp1|]].
    + split; try done; rewrite ?Hp1; try done; apply Ho.
    + split; [pose proof (po_count w1 Hok1); lia|]. intros i Hi. lia.
  - specialize (Hs). split; [|split; [simpl; by rewrite Hp1|]].
    + split; simpl; rewrite ?Hp1; try done; try apply Ho.
      pose proof (pool_ok_renumber w1 (map (fun e => (default 0%nat (w_interest w !! e.1), e.2)) (r_events r))
        (ph_iters (w_pool w1)) Hok1 ltac:(lia)) as H. rewrite Hp1 in H. exact H.
    + split; [simpl; rewrite Hp1; destruct (Hs 0%nat (0, 0) Hpos) as (_ & H & _);
        pose proof (po_count w Hw); lia|].
      intros i Hi. destruct (Hs 0%nat (0, 0) Hpos) as (Hl & _ & _).
      destruct (lookup_lt_is_Some_2 (r_events r) (Z.to_nat i)) as [ev Hev]; [lia|].
      destruct (Hs (Z.to_nat i) ev Hpos) as (_ & _ & Hreg). destruct (Hreg Hev) as [v Hv].
      exists v, ev.2. simpl. rewrite list_lookup_fmap, Hev. simpl. rewrite Hv. split; [done|].
      rewrite Hp1. by apply (po_interest w Hw) in Hv as [? _].
Qed.

(** What [next_event] gives: an event in use that nothing has touched since the
    batch was stored, and what is left of the batch. *)
Definition next_result (w : world) (r : option (nat * Z) * Z) (w' : world) : Prop :=
  waited w w' /\ ph_iters (w_pool w) <= ph_iters (w_pool w') <= ph_iters (w_pool w) + 1 /\
  match r.1 with
  | None => r.2 = -1
  | Some (v, fl) => active (w_pool w') v /\ batch_ok w' r.2 /\
      ph_pevents (w_pool w') !! Z.to_nat (r.2 + 1) = Some (v, fl) /\
      exists e, ph_items (w_pool w') !! v = Some e /\ ev_mod_iter e <> ph_iters (w_pool w')
  end.

(** The event at position [i] of the batch is fresh. *)
Lemma next_event_take fuel (i : Z) v fl e (Q : option (nat * Z) * Z -> world -> Prop) w :
  0 <= i -> ph_pevents (w_pool w) !! Z.to_nat i = Some (v, fl) -> ph_items (w_pool w) !! v = Some e ->
  (if ev_mod_iter e =? ph_iters (w_pool w) then wp (next_event_loop fuel (i - 1)) Q w
   else Q (Some (v, fl), i - 1) w) ->
  wp (p ← get w_pool;
      match (if 0 <=? i then ph_pevents p !! Z.to_nat i else None) with
      | None => fault OutOfBounds
      | Some (val, events) =>
          v ← item val;
          if ev_mod_iter v =? ph_iters p then next_event_loop fuel (i - 1)
          else mret (Some (val, events), i - 1)
      end) Q w.
Proof.
  intros Hi Hv He HQ. apply wp_bind, wp_get. replace (0 <=? i) with true by lia. rewrite Hv.
  apply wp_bind. eapply wp_item; [done|]. case_match; [done|by apply wp_ret].
Qed.

(** A new batch: its last event is fresh. *)
Lemma next_event_new fuel w :
  pool_ok w -> 0 <= ph_iters (w_pool w) < UINT_MAX ->
  wp (next_event_loop (S fuel) (-1)) (next_result w) w.
Proof.
  intros Hw Hit. pose proof (po_count w Hw). cbn [next_event_loop]. apply wp_bind, wp_get, wp_bind, wp_assert; [lia|].
  apply wp_bind. cbn [Z.ltb Z.compare]. apply wp_bind. eapply wp_mono; [by apply wait_events_wp|].
  intros n w1 (Hwa & Hi1 & Hm & Hb). destruct (Z.ltb_spec (n - 1) 0).
  { apply wp_ret, wp_ret. split; [done|]. split; [lia|done]. }
  apply wp_bind, wp_upd_pool, wp_ret. cbv beta zeta.
  replace (ph_iters (w_pool w1) =? UINT_MAX) with false by lia.
  set (w2 := with_pool _ w1).
  destruct (Hb (n - 1)) as (v & fl & Hv & Ha); [lia|].
  destruct (active_event w1 (wa_ok _ _ Hwa) v Ha) as (x & e & _ & He & Hok).
  assert (Hw2 : waited w w2).
  { destruct Hwa. split; try done. apply (pool_ok_renumber w1 (ph_pevents (w_pool w1))); [done|lia]. }
  pose proof (eo_iter _ _ _ _ Hok). apply (next_event_take fuel (n - 1) v fl e _ w2); [lia|done|done|].
  replace (ev_mod_iter e =? ph_iters (w_pool w2)) with false by (simpl; lia).
  split; [done|]. split; [simpl; lia|]. split; [done|]. split; [split; [cbn [snd]; simpl ph_max; lia|]|split].
  - intros i Hi. destruct (Hb i) as (u & fl' & Hu & Hau); [cbn [snd] in Hi; lia|].
    destruct (active_event w1 (wa_ok _ _ Hwa) u Hau) as (y & f & _ & Hf & _).
    exists u, fl'. split; [done|]. exists f. split; [done|by left].
  - simpl. by replace (n - 1 - 1 + 1) with (n - 1) by lia.
  - exists e. split; [done|]. simpl. lia.
Qed.

Lemma next_event_wp fuel offs w :
  pool_ok w -> batch_ok w offs -> 0 <= ph_iters (w_pool w) < UINT_MAX -> (Z.to_nat (offs + 1) < fuel)%nat ->
  wp (next_event_loop fuel offs) (next_result w) w.
Proof.
  revert offs. induction fuel as [|fuel IH]; intros offs Hw Hb Hit Hfuel; [lia|].
  pose proof (proj1 Hb) as Hr. destruct (decide (offs = -1)) as [->|Hne].
  { by apply next_event_new. }
  cbn [next_event_loop]. apply wp_bind, wp_get, wp_bind, wp_assert; [lia|].
  apply wp_bind. replace (offs <? 0) with false by lia. apply wp_ret. cbv beta iota.
  destruct (proj2 Hb offs) as (v & fl & Hv & e & He & Hor); [lia|].
  apply (next_event_take fuel offs v fl e); [lia|done|done|].
  destruct (Z.eqb_spec (ev_mod_iter e) (ph_iters (w_pool w))).
  - apply IH; [done|apply batch_ok_less; [done|lia]|done|lia].
  - split; [by apply waited_refl|]. split; [lia|]. split; [by destruct Hor|].
    split; [apply batch_ok_less; [done|lia]|]. simpl. replace (offs - 1 + 1) with offs by lia.
    split; [done|]. by exists e.
Qed.

(** [next_event] never hands out an event that has been closed, or closed
    and used again, since the batch was stored, however often the handlers in
    between have done that; it skips those, asks for a new batch when the old
    one is used up, and terminates within its fuel. *)
Theorem next_event_fresh (offs : Z) (w : world) :
  pool_ok w -> batch_ok w offs -> 0 <= ph_iters (w_pool w) < UINT_MAX ->
  exists r offs' w', next_event offs w = Ok ((r, offs'), w') /\
    pool_ok w' /\ (forall v, active (w_pool w') v <-> active (w_pool w) v) /\
    ph_items (w_pool w') = ph_items (w_pool w) /\
    match r with
    | None => offs' = -1
    | Some (v, fl) => active (w_pool w') v /\ batch_ok w' offs' /\
        ph_pevents (w_pool w') !! Z.to_nat (offs' + 1) = Some (v, fl) /\
        exists e, ph_items (w_pool w') !! v = Some e /\ ev_mod_iter e <> ph_iters (w_pool w')
    end.
Proof.
  intros Hw Hb Hit.
  destruct (wp_Ok _ _ _ (next_event_wp (Z.to_nat (offs + 3)) offs w Hw Hb Hit ltac:(destruct Hb; lia)))
    as ([r offs'] & w' & E & Hwa & _ & Hr).
  exists r, offs', w'. split; [done|]. destruct Hwa. done.
Qed.

(** * Keeping the batch *)
Lemma batch_ok_keep w w' offs :
  batch_ok w offs -> outside w w' ->
  (forall v e, active (w_pool w) v -> ph_items (w_pool w) !! v = Some e ->
     exists e', ph_items (w_pool w') !! v = Some e' /\
       (active (w_pool w') v \/ ev_mod_iter e' = ph_iters (w_pool w'))) ->
  (forall v e, ph_items (w_pool w) !! v = Some e -> is_Some (ph_items (w_pool w') !! v)) ->
  batch_ok w' offs.
Proof.
  intros [Hr Hb] Ho Ha Hs. split; [by rewrite (ou_max _ _ Ho)|]. intros i Hi.
  destruct (Hb i Hi) as (v & fl & Hv & e & He & Hor). exists v, fl. rewrite (ou_batch _ _ Ho).
  split; [done|]. destruct Hor as [Hav|Hm]; [by eapply Ha|].
  destruct (Hs v e He) as [e' He']. exists e'. split; [done|]. right.
  destruct (ou_items _ _ Ho v e' He') as (e0 & He0 & Hor). rewrite (ou_iters _ _ Ho).
  destruct Hor as [->|]; [congruence|done].
Qed.
Lemma batch_ok_closed w w' D offs : batch_ok w offs -> closed w w' D -> batch_ok w' offs.
Proof.
  intros Hb Hc. apply (batch_ok_keep w); [done|apply Hc| |].
  - intros v e Ha He. destruct (decide (v ∈ D)) as [Hin|Hout].
    + destruct (cl_gone _ _ _ Hc v Hin) as (e' & He' & _ & Hm). exists e'. auto.
    + destruct (cl_others _ _ _ Hc v e Hout He) as [i Hi]. eexists. split; [done|]. left.
      by apply (cl_active _ _ _ Hc).
  - intros v e He. destruct (decide (v ∈ D)) as [Hin|Hout].
    + destruct (cl_gone _ _ _ Hc v Hin) as (e' & He' & _). eauto.
    + destruct (cl_others _ _ _ Hc v e Hout He) as [i Hi]. eauto.
Qed.
Lemma batch_ok_added w w' type fd r offs :
  pool_ok w -> batch_ok w offs -> add_result w type fd r w' -> batch_ok w' offs.
Proof.
  intros Hw Hb (Hok & Ho & Hfds & Hold & Hr). apply (batch_ok_keep w); [done..| |].
  - intros v e Ha He. exists e. rewrite Hold by done. split; [done|left].
    destruct r as [u|]; [destruct Hr as (_ & Hr & _)|destruct Hr as [_ Hr]]; apply Hr; auto.
  - intros v e He. apply lookup_lt_is_Some_2. apply lookup_lt_Some in He.
    pose proof (po_items w Hw). pose proof (po_items w' Hok). pose proof (ou_max _ _ Ho). lia.
Qed.

(** * Properties *)

(** C11: [del_event] closes the whole cycle of the event (both ends of a TCP
    connection, the three sockets of a UDP association), and nothing else: it
    succeeds within its fuel, exactly the descriptors of the cycle are closed,
    each once, the other events keep everything but their position, no event in
    use is left pointing to a closed one, and what is left of the current batch
    stays valid. *)
Theorem del_event_closes_cycle (v u0 : nat) (offs : Z) (w : world) :
  pool_ok w -> pairs_ok (w_pool w) -> batch_ok w offs -> active (w_pool w) v ->
  lone (w_pool w) u0 -> v <> u0 ->
  exists w' (D : list nat), del_event v w = Ok (tt, w') /\
    pool_ok w' /\ pairs_ok (w_pool w') /\ batch_ok w' offs /\ lone (w_pool w') u0 /\
    (forall u, u ∈ D <-> rtc (fun a b => pair_at (w_pool w) a = Some b) v u) /\
    (forall u, active (w_pool w') u <-> active (w_pool w) u /\ u ∉ D) /\
    (forall fd, fd ∈ w_fds w' <-> fd ∈ w_fds w /\
       ~ exists u e, u ∈ D /\ ph_items (w_pool w) !! u = Some e /\ ev_fd e = fd) /\
    (forall u e, u ∉ D -> ph_items (w_pool w) !! u = Some e ->
       exists i, ph_items (w_pool w') !! u = Some (set_index i e)).
Proof.
  intros Hw Hk Hb Hv Hl Hne.
  destruct (wp_Ok _ _ _ (del_event_cycle v u0 w Hw Hk Hv Hl Hne)) as ([] & w' & E & D & Hc & Hk' & Hl' & HD).
  exists w', D. split; [done|]. split; [apply Hc|]. split; [done|].
  split; [by eapply batch_ok_closed|]. split; [done|]. split; [done|].
  split; [apply Hc|]. split; [apply Hc|apply Hc].
Qed.

(** [add_event] registers an open, unregistered descriptor, or fails without
    effect on the events in use: the invariant, the pairs and the current batch
    are kept, the new event has no pair and counts as of this batch. *)
Theorem add_event_registers (type : eid) (fd e offs : Z) (w : world) :
  pool_ok w -> pairs_ok (w_pool w) -> batch_ok w offs ->
  0 < fd -> fd ∈ w_fds w -> w_interest w !! fd = None -> fd <> ph_efd (w_pool w) ->
  exists r w', add_event type fd e w = Ok (r, w') /\
    pool_ok w' /\ pairs_ok (w_pool w') /\ batch_ok w' offs /\ w_fds w' = w_fds w /\
    (forall u, active (w_pool w) u -> ph_items (w_pool w') !! u = ph_items (w_pool w) !! u) /\
    match r with
    | None => forall u, active (w_pool w') u <-> active (w_pool w) u
    | Some v => ~ active (w_pool w) v /\
        (forall u, active (w_pool w') u <-> active (w_pool w) u \/ u = v) /\
        exists x, ph_items (w_pool w') !! v = Some x /\ ev_fd x = fd /\ ev_type x = type /\
          ev_pair x = None /\ ev_buff x = no_buffer /\ ev_mod_iter x = ph_iters (w_pool w')
    end.
Proof.
  intros Hw Hk Hb Hfd Hopen Hnew Hne.
  destruct (wp_Ok _ _ _ (add_event_spec type fd e w Hw Hfd Hopen Hnew Hne)) as (r & w' & E & Hr).
  pose proof Hr as (Hok & Ho & Hfds & Hold & Hcase). exists r, w'.
  split; [done|]. split; [done|]. split; [|split; [exact (batch_ok_added w w' type fd r offs Hw Hb Hr)|split; [done|split; [done|]]]].
  - assert (Hnew' : forall u q, active (w_pool w') u -> pair_at (w_pool w') u = Some q ->
              active (w_pool w) u /\ pair_at (w_pool w) u = Some q).
    { intros u q Hu Hq. destruct r as [v|].
      - destruct Hcase as (_ & Hact & Hv). apply Hact in Hu as [Hu| ->].
        + split; [done|]. unfold pair_at in *. by rewrite <- Hold.
        + rewrite (pair_at_some _ _ _ Hv) in Hq. done.
      - destruct Hcase as [_ Hact]. apply Hact in Hu. split; [done|].
        unfold pair_at in *. by rewrite <- Hold. }
    assert (Hin : forall u, active (w_pool w) u -> active (w_pool w') u).
    { intros u Hu. destruct r as [v|]; [destruct Hcase as (_ & H & _)|destruct Hcase as [_ H]]; apply H; auto. }
    split.
    + intros u q Hu Hq. destruct (Hnew' u q Hu Hq) as [Hu' Hq'].
      destruct (pa_live _ Hk u q Hu' Hq') as (Hqa & Hqu & Hqs). split; [auto|]. split; [done|].
      unfold pair_at in *. by rewrite Hold.
    + intros u1 u2 q H1 H2 Hq1 Hq2. destruct (Hnew' _ _ H1 Hq1) as [Ha1 Hp1], (Hnew' _ _ H2 Hq2) as [Ha2 Hp2].
      exact (pa_inj _ Hk u1 u2 q Ha1 Ha2 Hp1 Hp2).
  - destruct r as [v|]; [|apply Hcase]. destruct Hcase as (Hna & Hact & Hv).
    split; [done|]. split; [done|]. eexists. split; [done|]. simpl. by rewrite (ou_iters _ _ Ho).
Qed.

(** * init_pool and destroy_pool *)

(** The events from position [k] on, as [destroy_pool] finds them. *)
Definition from_pos (w : world) (k : Z) (fd : Z) : Prop :=
  exists x v e, k <= x /\ at_pos (w_pool w) x v /\ ph_items (w_pool w) !! v = Some e /\ ev_fd e = fd.
Record closable (w : world) (k : Z) : Prop := {
  ca_events : forall x v, k <= x -> at_pos (w_pool w) x v ->
    exists e, ph_items (w_pool w) !! v = Some e /\ 0 < ev_fd e /\ ev_fd e ∈ w_fds w;
  ca_inj : forall x y v u e f, k <= x -> k <= y -> at_pos (w_pool w) x v -> at_pos (w_pool w) y u ->
    ph_items (w_pool w) !! v = Some e -> ph_items (w_pool w) !! u = Some f -> ev_fd e = ev_fd f -> x = y;
  ca_nodup : NoDup (ph_links (w_pool w));
  ca_len : ph_count (w_pool w) <= zlen (ph_links (w_pool w))
}.

Lemma pool_ok_closable w : pool_ok w -> closable w 0.
Proof.
  intros Hw. pose proof (po_count w Hw). pose proof (po_links w Hw). split; [| |apply Hw|lia].
  - intros x v _ Hx. destruct (po_events w Hw x v Hx) as (e & He & []). by exists e.
  - intros x y v u e f _ _ Hx Hy He Hf Hfd.
    assert (v = u) as <- by (apply (active_fd_inj w Hw v u e f); [by exists x|by exists y|done..]).
    by apply (at_pos_inj w Hw x v y).
Qed.

(** One event is closed: its descriptor is gone, the later ones are as before. *)
Lemma closable_step w w1 k v e e1 :
  0 <= k -> closable w k -> at_pos (w_pool w) k v -> ph_items (w_pool w) !! v = Some e ->
  w_pool w1 = set_items (<[v := e1]> (ph_items (w_pool w))) (w_pool w) ->
  w_fds w1 = w_fds w ∖ {[ev_fd e]} ->
  closable w1 (k + 1) /\ forall fd, from_pos w k fd <-> from_pos w1 (k + 1) fd \/ fd = ev_fd e.
Proof.
  intros Hk Hc Hv He Hp Hf.
  assert (Hat : forall x u, at_pos (w_pool w1) x u <-> at_pos (w_pool w) x u).
  { intros x u. unfold at_pos. by rewrite Hp. }
  assert (Hne : forall x u, k + 1 <= x -> at_pos (w_pool w) x u -> u <> v).
  { intros x u Hx [Hxr Hxu] ->. destruct Hv as [Hvr Hvk].
    pose proof (NoDup_lookup _ _ _ _ (ca_nodup _ _ Hc) Hxu Hvk). lia. }
  assert (Hit : forall x u, k + 1 <= x -> at_pos (w_pool w) x u ->
            ph_items (w_pool w1) !! u = ph_items (w_pool w) !! u).
  { intros x u Hx Hu. rewrite Hp. simpl. apply list_lookup_insert_ne. intros ->. by apply (Hne x u). }
  split; [split|].
  - intros x u Hx Hu%Hat. rewrite (Hit x u Hx Hu).
    destruct (ca_events _ _ Hc x u ltac:(lia) Hu) as (f & Hff & Hpos & Hin). exists f.
    split; [done|]. split; [done|]. rewrite Hf. apply elem_of_difference. split; [done|].
    intros Heq%elem_of_singleton. pose proof (ca_inj _ _ Hc x k u v f e ltac:(lia) ltac:(lia) Hu Hv Hff He Heq). lia.
  - intros x y u t f g Hx Hy Hu%Hat Ht%Hat. rewrite (Hit x u Hx Hu), (Hit y t Hy Ht).
    apply (ca_inj _ _ Hc); lia || done.
  - rewrite Hp. apply Hc.
  - rewrite Hp. apply Hc.
  - intros fd. split.
    + intros (x & u & f & Hx & Hu & Hff & Hfd). destruct (decide (x = k)) as [->|Hxk].
      * right. assert (u = v) as -> by (destruct Hu, Hv; congruence). congruence.
      * left. exists x, u, f. rewrite Hat, (Hit x u) by (done || lia). split; [lia|done].
    + intros [(x & u & f & Hx & Hu%Hat & Hff & Hfd)| ->].
      * exists x, u, f. rewrite (Hit x u Hx Hu) in Hff. split; [lia|done].
      * exists k, v, e. done.
Qed.

Lemma destroy_loop_wp n k w :
  0 <= k -> k + Z.of_nat n = ph_count (w_pool w) -> closable w k ->
  wp (destroy_loop (seq (Z.to_nat k) n)) (fun _ w' =>
    ph_efd (w_pool w') = ph_efd (w_pool w) /\ w_params w' = w_params w /\ w_heap w' = w_heap w /\
    forall fd, fd ∈ w_fds w' <-> fd ∈ w_fds w /\ ~ from_pos w k fd) w.
Proof.
  revert k w. induction n as [|n IH]; intros k w Hk Hn Hc; cbn [seq destroy_loop].
  { apply wp_ret. split; [done|]. split; [done|]. split; [done|]. intros fd. split; [|tauto].
    intros Hin. split; [done|]. intros (x & v & e & Hx & [Hr _] & _). lia. }
  pose proof (ca_len _ _ Hc).
  destruct (lookup_lt_is_Some_2 (ph_links (w_pool w)) (Z.to_nat k)) as [v Hv]; [lia|].
  assert (Hat : at_pos (w_pool w) k v) by (split; [lia|done]).
  destruct (ca_events _ _ Hc k v ltac:(lia) Hat) as (e & He & Hpos & Hin).
  apply wp_bind. eapply wp_link; [lia|by rewrite Nat2Z.id|].
  apply wp_bind. eapply wp_item; [done|]. replace (ev_fd e =? 0) with false by lia. cbn [negb].
  assert (Hl : (v < length (ph_items (w_pool w)))%nat) by (by eapply lookup_lt_Some).
  apply wp_bind, wp_bind, wp_close; [done|]. intros r Hr. eapply wp_upd; [simpl; by rewrite kernel_pool|].
  apply wp_bind. eapply wp_mono with (Q := fun _ w1 => exists e1,
    w_pool w1 = set_items (<[v := e1]> (ph_items (w_pool w))) (w_pool w) /\
    w_fds w1 = w_fds w ∖ {[ev_fd e]} /\ w_params w1 = w_params w /\ w_heap w1 = w_heap w).
  { destruct (b_data (ev_buff e)).
    - eapply wp_upd; [simpl; by apply list_lookup_insert_eq; rewrite kernel_pool|]. simpl.
      rewrite kernel_pool. simpl. rewrite list_insert_insert_eq. eexists. split; [done|].
      unfold kernel. rewrite Hr. done.
    - apply wp_ret. simpl. rewrite kernel_pool. eexists. split; [done|]. unfold kernel. by rewrite Hr. }
  intros _ w1 (e1 & Hp1 & Hf1 & Hpa & Hh). destruct (closable_step w w1 k v e e1) as [Hc1 Hfrom]; [done..|].
  replace (S (Z.to_nat k)) with (Z.to_nat (k + 1)) by lia.
  eapply wp_mono; [apply (IH (k + 1) w1); [lia|rewrite Hp1; simpl; lia|done]|].
  intros _ w2 (He2 & Hpa2 & Hh2 & Hf2). rewrite He2, Hpa2, Hh2, Hp1. split; [done|]. split; [done|].
  split; [done|]. intros fd. rewrite Hf2, Hf1, Hfrom. clear. set_solver.
Qed.

(** [destroy_pool] on a pool in any reachable state closes the descriptor of
    every event in use and the epoll instance, each exactly once, and no other
    descriptor. *)
Theorem destroy_pool_closes_all (w : world) :
  pool_ok w ->
  exists w', destroy_pool w = Ok (tt, w') /\ w_pool w' = no_pool /\
    (forall fd, fd ∈ w_fds w' <-> fd ∈ w_fds w /\ fd <> ph_efd (w_pool w) /\
       ~ exists v e, active (w_pool w) v /\ ph_items (w_pool w) !! v = Some e /\ ev_fd e = fd).
Proof.
  intros Hw. enough (H : wp destroy_pool (fun _ w' => w_pool w' = no_pool /\
    (forall fd, fd ∈ w_fds w' <-> fd ∈ w_fds w /\ fd <> ph_efd (w_pool w) /\ ~ from_pos w 0 fd)) w).
  { destruct (wp_Ok _ _ _ H) as ([] & w' & E & Hp & Hf). exists w'. split; [done|]. split; [done|].
    intros fd. rewrite Hf. do 2 apply and_iff_compat_l. apply not_iff_compat. split.
    - intros (x & v & e & _ & Hx & He & Hfd). exists v, e. split; [by exists x|done].
    - intros (v & e & [x Hx] & He & Hfd). exists x, v, e. split; [apply Hx|done]. }
  unfold destroy_pool. apply wp_bind, wp_get, wp_bind. pose proof (po_count w Hw).
  destruct (po_efd w Hw) as (Hpos & Hopen & Hreg).
  eapply wp_mono; [apply (destroy_loop_wp _ 0); [lia|lia|by apply pool_ok_closable]|].
  intros _ w1 (He1 & _ & _ & Hf1). replace (ph_efd (w_pool w) =? 0) with false by lia. cbn [negb].
  apply wp_bind, wp_close.
  { apply Hf1. split; [done|]. intros (x & v & e & _ & Hx & He & Hfd).
    destruct (po_events w Hw x v Hx) as (e' & He' & Ho). rewrite He in He'. injection He' as <-.
    pose proof (eo_registered _ _ _ _ Ho). congruence. }
  intros r Hr. apply wp_upd_pool. split; [done|]. intros fd. simpl. unfold kernel. rewrite Hr. simpl.
  rewrite elem_of_difference, Hf1, elem_of_singleton. tauto.
Qed.

(** * Deciding the invariants, for concrete states *)
Definition event_okb (w : world) (x : Z) (v : nat) (e : eval) : bool :=
  (ev_index e =? x) && (0 <? ev_fd e) && bool_decide (ev_fd e ∈ w_fds w) &&
  bool_decide (w_interest w !! ev_fd e = Some v) && (ev_mod_iter e <=? ph_iters (w_pool w)) &&
  (bool_decide (b_data (ev_buff e) = None) || negb (b_size (ev_buff e) =? 0)).
Definition pos_check (w : world) (f : Z -> nat -> eval -> bool) : bool :=
  forallb (fun x => match ph_links (w_pool w) !! x with
    | Some v => match ph_items (w_pool w) !! v with Some e => f (Z.of_nat x) v e | None => false end
    | None => false end) (seq 0 (Z.to_nat (ph_count (w_pool w)))).
Definition active_list (p : poolhd) : list nat := take (Z.to_nat (ph_count p)) (ph_links p).
Definition pool_okb (w : world) : bool :=
  let p := w_pool w in
  (zlen (ph_links p) =? ph_max p) && (zlen (ph_items p) =? ph_max p) && bool_decide (NoDup (ph_links p)) &&
  forallb (fun v => Nat.ltb v (length (ph_items p))) (ph_links p) &&
  (0 <=? ph_count p) && (ph_count p <=? ph_max p) && pos_check w (event_okb w) &&
  forallb (fun e => bool_decide (e.2 ∈ active_list p) &&
    match ph_items p !! e.2 with Some x => ev_fd x =? e.1 | None => false end) (map_to_list (w_interest w)) &&
  (0 <? ph_efd p) && bool_decide (ph_efd p ∈ w_fds w) && bool_decide (w_interest w !! ph_efd p = None).

Lemma active_list_spec p v : 0 <= ph_count p -> v ∈ active_list p <-> active p v.
Proof.
  intros Hc. unfold active_list, active, at_pos. rewrite elem_of_take. split.
  - intros (i & Hi & Hl). exists (Z.of_nat i). rewrite Nat2Z.id. split; [lia|done].
  - intros (x & Hx & Hl). exists (Z.to_nat x). split; [done|lia].
Qed.
Lemma pos_check_spec w f x v :
  pos_check w f = true -> at_pos (w_pool w) x v ->
  exists e, ph_items (w_pool w) !! v = Some e /\ f x v e = true.
Proof.
  unfold pos_check. rewrite forallb_forall. intros H [Hx Hl].
  specialize (H (Z.to_nat x)). rewrite Hl in H. destruct (ph_items (w_pool w) !! v) as [e|].
  - exists e. split; [done|]. replace x with (Z.of_nat (Z.to_nat x)) by lia. apply H, in_seq. lia.
  - discriminate H. apply in_seq. lia.
Qed.
Lemma event_okb_spec w x v e : event_okb w x v e = true -> event_ok w x v e.
Proof.
  unfold event_okb. rewrite !andb_true_iff, orb_true_iff, !bool_decide_eq_true.
  intros (((((? & ?) & ?) & ?) & ?) & Hb). split; try (done || lia).
  intros Hd Hz. destruct Hb; [done|lia].
Qed.
Lemma pool_okb_spec w : pool_okb w = true -> pool_ok w.
Proof.
  unfold pool_okb. cbv zeta. rewrite !andb_true_iff, !bool_decide_eq_true, !forallb_forall.
  intros ((((((((((? & ?) & ?) & Hr) & ?) & ?) & He) & Hi) & ?) & ?) & ?). split; try (done || lia).
  - intros v Hv. apply list_elem_of_In, Hr, Nat.ltb_lt in Hv. done.
  - intros x v Hx. destruct (pos_check_spec w _ x v He Hx) as (e & Hie & Hf). exists e.
    split; [done|]. by apply event_okb_spec.
  - intros fd v Hv. apply elem_of_map_to_list, list_elem_of_In, Hi in Hv. simpl in Hv.
    apply andb_prop in Hv as [Ha Hv]. rewrite bool_decide_eq_true in Ha.
    apply active_list_spec in Ha; [|lia]. split; [done|].
    destruct (ph_items (w_pool w) !! v) as [e|]; [|done]. exists e. split; [done|lia].
  - split; [lia|done].
Qed.

Definition pairs_okb (p : poolhd) : bool :=
  forallb (fun v => match pair_at p v with
    | None => true
    | Some q => bool_decide (q ∈ active_list p) && negb (Nat.eqb q v) && bool_decide (is_Some (pair_at p q)) &&
        forallb (fun u => negb (bool_decide (pair_at p u = Some q)) || Nat.eqb u v) (active_list p)
    end) (active_list p).
Lemma pairs_okb_spec p : 0 <= ph_count p -> pairs_okb p = true -> pairs_ok p.
Proof.
  intros Hc H. unfold pairs_okb in H. rewrite forallb_forall in H.
  assert (Hv : forall v q, active p v -> pair_at p v = Some q ->
    bool_decide (q ∈ active_list p) && negb (Nat.eqb q v) && bool_decide (is_Some (pair_at p q)) &&
    forallb (fun u => negb (bool_decide (pair_at p u = Some q)) || Nat.eqb u v) (active_list p) = true).
  { intros v q Hv Hq. apply active_list_spec, list_elem_of_In, H in Hv; [|done]. by rewrite Hq in Hv. }
  split.
  - intros v q Ha Hq. specialize (Hv v q Ha Hq).
    rewrite !andb_true_iff, !bool_decide_eq_true in Hv. destruct Hv as (((Hqa & Hqv) & Hqs) & _).
    apply active_list_spec in Hqa; [|done]. split; [done|]. split; [|done]. intros ->.
    by rewrite Nat.eqb_refl in Hqv.
  - intros v u q Ha Hu Hqv Hqu. specialize (Hv v q Ha Hqv). apply andb_prop in Hv as [_ Hv].
    rewrite forallb_forall in Hv. apply active_list_spec, list_elem_of_In, Hv in Hu; [|done].
    rewrite bool_decide_eq_true_2 in Hu by done. simpl in Hu. by apply Nat.eqb_eq in Hu.
Qed.

(** A proxy with a listening socket (event 0) and a connection (1 and 2). *)
Definition sample_open : io unit :=
  _ ← init_pool 5;
  _ ← add_event EV_ACCEPT 5 POLLIN;
  _ ← add_event EV_TUNNEL 6 POLLIN;
  _ ← add_event EV_TUNNEL 7 POLLIN;
  _ ← upd 1 (set_pair (Some 2%nat));
  upd 2 (set_pair (Some 1%nat)).
Definition run_io {A} (m : io A) (w : world) : world := match m w with Ok (_, w) => w | Fault _ => w end.
Definition sample_proxy : world := run_io sample_open (world_ok [zero_group] []).

Lemma sample_proxy_ok : pool_ok sample_proxy /\ pairs_ok (w_pool sample_proxy).
Proof.
  split; [apply pool_okb_spec|apply pairs_okb_spec; [vm_compute; congruence|]]; vm_compute; reflexivity.
Qed.
Lemma sample_active v : v ∈ active_list (w_pool sample_proxy) -> active (w_pool sample_proxy) v.
Proof. apply active_list_spec. vm_compute. congruence. Qed.
Lemma sample_batch : batch_ok sample_proxy (-1).
Proof. split; [vm_compute; split; congruence|]. intros i Hi. lia. Qed.

Lemma next_event_fresh_witness :
  exists r offs' w', next_event (-1) sample_proxy = Ok ((r, offs'), w') /\ pool_ok w' /\
    r = None /\ offs' = -1.
Proof.
  destruct (next_event_fresh (-1) sample_proxy (proj1 sample_proxy_ok) sample_batch)
    as (r & offs' & w' & E & Hok & _); [vm_compute; split; congruence|].
  exists r, offs', w'. split; [exact E|]. split; [exact Hok|].
  apply (f_equal (fun x => match x with Ok (a, _) => Some a | _ => None end)) in E.
  clear - E. vm_compute in E. by injection E as <- <-.
Defined.

Lemma del_event_closes_cycle_witness :
  exists w' (D : list nat), del_event 1 sample_proxy = Ok (tt, w') /\
    pool_ok w' /\ (forall u, u ∈ D <-> rtc (fun a b => pair_at (w_pool sample_proxy) a = Some b) 1%nat u) /\
    w_fds w' = {[11; 5]} ∪ (list_to_set (seqZ 0 5) ∪ list_to_set (seqZ 8 2)).
Proof.
  destruct (del_event_closes_cycle 1 0 (-1) sample_proxy) as (w' & D & E & Hok & _ & _ & _ & HD & _).
  - apply sample_proxy_ok.
  - apply sample_proxy_ok.
  - apply sample_batch.
  - apply sample_active. vm_compute. by apply (bool_decide_eq_true_1 (1%nat ∈ [0; 1; 2]%nat)).
  - split; [apply sample_active|vm_compute; reflexivity].
    by apply (bool_decide_eq_true_1 (0%nat ∈ active_list (w_pool sample_proxy))).
  - lia.
  - exists w', D. split; [exact E|]. split; [exact Hok|]. split; [exact HD|].
    apply (f_equal (fun x => match x with Ok (_, w) => w_fds w | _ => ∅ end)) in E.
    remember (w_fds w') as fds. clear - E.
    assert (H : bool_decide (match del_event 1 sample_proxy with Ok (_, w) => w_fds w | Fault _ => ∅ end =
      {[11; 5]} ∪ (list_to_set (seqZ 0 5) ∪ list_to_set (seqZ 8 2) : gset Z)) = true) by (vm_compute; reflexivity).
    apply bool_decide_eq_true_1 in H. congruence.
Defined.

Lemma add_event_registers_witness :
  exists r w', add_event EV_REQUEST 8 POLLIN sample_proxy = Ok (r, w') /\ r = Some 3%nat /\
    pool_ok w' /\ pairs_ok (w_pool w') /\ batch_ok w' (-1).
Proof.
  destruct (add_event_registers EV_REQUEST 8 POLLIN (-1) sample_proxy) as (r & w' & E & Hok & Hk & Hb & _).
  - apply sample_proxy_ok.
  - apply sample_proxy_ok.
  - apply sample_batch.
  - lia.
  - apply (bool_decide_eq_true_1 (8 ∈ w_fds sample_proxy)). vm_compute. reflexivity.
  - vm_compute. reflexivity.
  - vm_compute. congruence.
  - exists r, w'. split; [exact E|]. split; [|split; [exact Hok|split; [exact Hk|exact Hb]]].
    apply (f_equal (fun x => match x with Ok (a, _) => Some a | _ => None end)) in E.
    clear - E. vm_compute in E. congruence.
Defined.

Lemma destroy_pool_closes_all_witness :
  exists w', destroy_pool sample_proxy = Ok (tt, w') /\ w_pool w' = no_pool /\ 6 ∉ w_fds w'.
Proof.
  destruct (destroy_pool_closes_all sample_proxy) as (w' & E & Hp & Hf); [apply sample_proxy_ok|].
  exists w'. split; [exact E|]. split; [exact Hp|]. rewrite Hf. intros (_ & _ & Hn). apply Hn.
  exists 1%nat, (default zero_eval (ph_items (w_pool sample_proxy) !! 1%nat)).
  split; [apply sample_active|split; vm_compute; reflexivity].
  by apply (bool_decide_eq_true_1 (1%nat ∈ active_list (w_pool sample_proxy))).
Defined.
