(* ===== verification/Socks.v ===== *)
(** The SOCKS part of proxy.c: addresses, name resolution, reading and writing
    requests and replies. *)
From S2P Require Import Prelude CLib Packets Mpool Params World.

(** * proxy.h *)
Definition S_AUTH_NONE : Z := 0.
Definition S_AUTH_BAD : Z := 255.
Definition S_ATP_I4 : Z := 1.
Definition S_ATP_ID : Z := 3.
Definition S_ATP_I6 : Z := 4.
Definition S_CMD_CONN : Z := 1.
Definition S_CMD_AUDP : Z := 3.
Definition S_ER_OK : Z := 0.
Definition S_ER_GEN : Z := 1.
Definition S_ER_NET : Z := 3.
Definition S_ER_HOST : Z := 4.
Definition S_ER_CONN : Z := 5.
Definition S_ER_CMD : Z := 7.
Definition S_ER_ATP : Z := 8.
Definition S4_OK : Z := 90.
Definition S4_ER : Z := 91.
Definition S_VER5 : Z := 5.
Definition S_VER4 : Z := 4.
Definition S_SIZE_MIN : Z := 8.
Definition S_SIZE_I4 : Z := 10.
Definition S_SIZE_I6 : Z := 22.
Definition S_SIZE_ID : Z := 7.
Definition sizeof_s4_req : Z := 8.

(** * Addresses *)
Definition set_sin_addr (a : sockaddr) (x : list Z) : sockaddr := put a 4 x.
Definition set_sin6_addr (a : sockaddr) (x : list Z) : sockaddr := put a 8 x.

(** The members of [*ipv6m] are at 8 ([o64]), 16 ([o16]), 18 ([t16]) and 20
    ([o32]). *)
Definition map_fix (addr : sockaddr) (f6 : Z) : sockaddr :=
  if (sa_family addr =? AF_INET) && negb (f6 =? 0) then
    let addr := set_family addr AF_INET6 in
    let addr := put addr 20 (sin_addr addr) in
    let addr := put addr 8 (replicate 8 0) in
    let addr := put addr 16 [0; 0] in
    put addr 18 [255; 255]
  else if bool_decide (sub addr 8 8 = replicate 8 0) && bool_decide (sub addr 16 2 = [0; 0]) &&
          (get16 addr 18 =? 65535) && (f6 =? 0) then
    let addr := set_family addr AF_INET in
    set_sin_addr addr (sub addr 20 4)
  else addr.

Definition addr_equ (a b : sockaddr) : bool :=
  if sa_family a =? AF_INET then bool_decide (sin_addr a = sin_addr b)
  else bool_decide (sub a 8 8 = sub b 8 8) && bool_decide (sub a 16 8 = sub b 16 8).

Definition nb_socket (domain type : Z) : io Z :=
  fd ← call (SysSocket domain (Z.lor type SOCK_NONBLOCK));
  if fd <? 0 then mret (-1) else mret fd.

(** The C string at offset [o] of the work buffer. *)
Definition c_string (o : Z) : io (list Z) :=
  b ← get w_buf;
  e ← lift (scan_while (fun c => negb (c =? 0)) b o);
  mret (sub b o (e - o)).

Definition AI_ADDRCONFIG : Z := 32.
Definition AF_UNSPEC : Z := 0.

(** [host] is an offset into the work buffer. *)
Definition resolve (host len : Z) (addr : sockaddr) (type : Z) : io (Z * sockaddr) :=
  ps ← get w_params;
  rchar ← buf_get (host + len) 1;
  _ ← buf_put (host + len) [0];
  name ← c_string host;
  r ← sys (SysGetaddrinfo name (if ps_ipv6 ps then AF_UNSPEC else AF_INET) type AI_ADDRCONFIG);
  _ ← buf_put (host + len) rchar;
  if negb (r_ret r =? 0) then mret (-1, addr) else
  mret (0, if sa_family (r_addr r) =? AF_INET6 then r_addr r
           else put addr 0 (sub (r_addr r) 0 sizeof_sockaddr_in)).

(** * Requests and replies *)
Definition auth_socks5 (fd n : Z) : io Z :=
  if n <=? 2 then mret (-1) else
  c ← buf_get 1 1;
  if negb (byte_at c 0 =? n - 2) then mret (-1) else
  ms ← buf_get 2 (n - 2);
  let c := if existsb (fun m => m =? S_AUTH_NONE) ms then S_AUTH_NONE else S_AUTH_BAD in
  _ ← buf_put 1 [c];
  d ← buf_get 0 2;
  r ← call (SysSend fd d 0);
  if r <? 0 then mret (-1) else
  mret (if negb (c =? S_AUTH_BAD) then 0 else -1).

Definition resp_s5_error (fd e : Z) : io Z :=
  call (SysSend fd [5; u8 e; 0; S_ATP_I4; 0; 0; 0; 0; 0; 0] 0).

(** The [errno] of a failed connection as a SOCKS5 reply. *)
Definition s5_code (e : Z) : Z :=
  if e =? 0 then S_ER_OK
  else if e =? ECONNREFUSED then S_ER_CONN
  else if (e =? EHOSTUNREACH) || (e =? ETIMEDOUT) then S_ER_HOST
  else if e =? ENETUNREACH then S_ER_NET
  else S_ER_GEN.
Definition resp_error (fd e flag : Z) : io Z :=
  if flag =? FLAG_S4 then
    call (SysSend fd [0; if negb (e =? 0) then S4_ER else S4_OK; 0; 0; 0; 0; 0; 0] 0)
  else if flag =? FLAG_S5 then resp_s5_error fd (s5_code e)
  else mret 0.

(** The request is at the start of the work buffer. *)
Definition s4_get_addr (n : Z) (dst : sockaddr) : io (Z * sockaddr) :=
  if n <? sizeof_s4_req + 1 then mret (-1, dst) else
  r ← buf_get 0 sizeof_s4_req;
  if negb (byte_at r 1 =? S_CMD_CONN) then mret (-1, dst) else
  let i4 := sub r 4 4 in
  ps ← get w_params;
  x ← (if bool_decide (sub i4 0 3 = [0; 0; 0]) then   (* ntohl(s_addr) <= 255 *)
         if negb (ps_resolve ps) then mret None else
         last ← buf_get (n - 1) 1;
         if negb (byte_at last 0 =? 0) then mret None else
         b ← get w_buf;
         id_end ← lift (scan_while (fun c => negb (c =? 0)) b sizeof_s4_req);
         let len := s32 (n - id_end - 2) in
         if (len <? 3) || (255 <? len) then mret None else
         '(e, dst) ← resolve (id_end + 1) len dst SOCK_STREAM;
         mret (if negb (e =? 0) then None else Some dst)
       else mret (Some (set_sin_addr (set_family dst AF_INET) i4)));
  match x with
  | None => mret (-1, dst)
  | Some dst => mret (0, put dst 2 (sub r 2 2))
  end.

(** The request is at offset [off] of the work buffer. *)
Definition s5_get_addr (off n : Z) (addr : sockaddr) (type : Z) : io (Z * sockaddr) :=
  if n <? S_SIZE_MIN then mret (- S_ER_GEN, addr) else
  r ← buf_get off 5;
  let atp := byte_at r 3 in
  let o := if atp =? S_ATP_I4 then S_SIZE_I4
           else if atp =? S_ATP_ID then byte_at r 4 + S_SIZE_ID
           else if atp =? S_ATP_I6 then S_SIZE_I6 else 0 in
  if n <? o then mret (- S_ER_GEN, addr) else
  ps ← get w_params;
  x ← (if atp =? S_ATP_I4 then
         i4 ← buf_get (off + 4) 4;
         mret (0, set_sin_addr (set_family addr AF_INET) i4)
       else if atp =? S_ATP_ID then
         if negb (ps_resolve ps) then mret (- S_ER_ATP, addr) else
         if byte_at r 4 <? 3 then mret (- S_ER_HOST, addr) else
         '(e, addr) ← resolve (off + 5) (byte_at r 4) addr type;
         mret (if negb (e =? 0) then - S_ER_HOST else 0, addr)
       else if atp =? S_ATP_I6 then
         if negb (ps_ipv6 ps) then mret (- S_ER_ATP, addr) else
         i6 ← buf_get (off + 4) 16;
         mret (0, set_sin6_addr (set_family addr AF_INET6) i6)
       else mret (0, addr));
  if x.1 <? 0 then mret x else
  p ← buf_get (off + o - 2) 2;
  mret (o, put x.2 2 p).

(** [r] is at offset [off] of [b]; with [end] the address is written to end
    there. *)
Definition s5_set_addr (b : list Z) (off n : Z) (addr : sockaddr) (e : bool) : res (Z * list Z) :=
  if n <? S_SIZE_I4 then mret (-1, b) else
  if sa_family addr =? AF_INET then
    let r := if e then off - S_SIZE_I4 else off in
    b ← wrn b (r + 3) [S_ATP_I4];
    b ← wrn b (r + 4) (sin_addr addr);
    b ← wrn b (r + 8) (sub addr 2 2);
    mret (S_SIZE_I4, b)
  else
    if n <? S_SIZE_I6 then mret (-1, b) else
    let r := if e then off - S_SIZE_I6 else off in
    b ← wrn b (r + 3) [S_ATP_I6];
    b ← wrn b (r + 4) (sin6_addr addr);
    b ← wrn b (r + 20) (sub addr 2 2);
    mret (S_SIZE_I6, b).
