(* ===== verification/SocksProps.v ===== *)
(** SOCKS messages: addresses survive the trip through a reply, a request is
    read inside its bounds, and the method negotiation answers as it should. *)
From S2P Require Import Prelude CLib Packets Mpool Params World Stream DesyncSpec Socks.

(** * Addresses *)

(** The part of an address that a SOCKS message carries. *)
Definition ip_of (a : sockaddr) : list Z :=
  if sa_family a =? AF_INET then sin_addr a else sin6_addr a.
Definition same_endpoint (a b : sockaddr) : Prop :=
  sa_family a = sa_family b /\ sin_port a = sin_port b /\ ip_of a = ip_of b.

Lemma get16_put b o d i : 0 <= o -> o + zlen d <= zlen b -> 0 <= i -> i + 2 <= o \/ o + zlen d <= i ->
  get16 (put b o d) i = get16 b i.
Proof.
  intros. unfold get16. rewrite !byte_at_put by lia.
  replace ((o <=? i) && (i <? o + zlen d)) with false by lia.
  by replace ((o <=? i + 1) && (i + 1 <? o + zlen d)) with false by lia.
Qed.
Lemma get16_sub b o n i : 0 <= o -> 0 <= i -> i + 2 <= n -> get16 (sub b o n) i = get16 b (o + i).
Proof. intros. unfold get16. rewrite !byte_at_sub by lia. do 2 f_equal. f_equal. lia. Qed.
Lemma get16_put16 b o v : 0 <= o -> o + 2 <= zlen b -> 0 <= v < 65536 -> get16 (put16 b o v) o = v.
Proof.
  intros. unfold get16, put16. rewrite !byte_at_put by (simpl length; lia). simpl length.
  replace ((o <=? o) && (o <? o + Z.of_nat 2)) with true by lia.
  replace ((o <=? o + 1) && (o + 1 <? o + Z.of_nat 2)) with true by lia.
  replace (o - o) with 0 by lia. replace (o + 1 - o) with 1 by lia. unfold byte_at. simpl.
  rewrite Z.shiftr_div_pow2 by lia. unfold u8.
  rewrite (Z.mod_small (v / 2 ^ 8)) by (split; [apply Z.div_pos|apply Z.div_lt_upper_bound]; lia).
  pose proof (Z.div_mod v (2 ^ 8) ltac:(lia)). lia.
Qed.
Lemma length_put16 b o v : 0 <= o -> o + 2 <= zlen b -> length (put16 b o v) = length b.
Proof. intros. unfold put16. apply length_put; simpl length; lia. Qed.
#[export] Hint Rewrite length_put length_put16 using (simpl length; lia) : bytes.

(** ** IPv4-mapped addresses *)
(** An address byte by byte: then everything about it is computation. *)
Ltac explode a H :=
  do 28 (destruct a as [|? a]; [discriminate H|]); destruct a; [clear H|discriminate H].

(** ** IPv4-mapped addresses *)
Lemma map_fix_mapped a : length a = 28%nat -> sa_family a = AF_INET ->
  map_fix a 6 = [10; 0] ++ sub a 2 6 ++ replicate 10 0 ++ [255; 255] ++ sub a 4 4 ++ sub a 24 4.
Proof. intros Ha Hf. unfold map_fix. rewrite Hf. explode a Ha. reflexivity. Qed.

Lemma map_fix_unmapped a : length a = 28%nat -> sub a 8 8 = replicate 8 0 -> sub a 16 2 = [0; 0] ->
  get16 a 18 = 65535 -> map_fix a 0 = [2; 0] ++ sub a 2 2 ++ sub a 20 4 ++ sub a 8 20.
Proof.
  intros Ha H1 H2 H3. unfold map_fix. rewrite andb_false_r, H1, H2, H3. cbn [Z.eqb].
  rewrite !bool_decide_eq_true_2 by done. explode a Ha. reflexivity.
Qed.

(** ** Addresses in replies *)

(** Offsets into a block some bytes of which have been overwritten. *)
Ltac in_put := simpl length; first [lia | rewrite length_put; in_put].

(** The address type, the address and the port, as they are in a message. *)
Definition addr_enc (a : sockaddr) : list Z :=
  (if sa_family a =? AF_INET then S_ATP_I4 else S_ATP_I6) :: ip_of a ++ sub a 2 2.
Definition enc_size (a : sockaddr) : Z := if sa_family a =? AF_INET then S_SIZE_I4 else S_SIZE_I6.

Lemma length_addr_enc a : length a = 28%nat -> zlen (addr_enc a) = enc_size a - 3.
Proof.
  intros Ha. unfold addr_enc, ip_of, enc_size, sin_addr, sin6_addr.
  destruct (sa_family a =? AF_INET); simpl length; rewrite length_app, !length_sub; done || lia.
Qed.

Lemma s5_set_addr_enc b off n a (e : bool) :
  length a = 28%nat -> enc_size a <= n ->
  let r := if e then off - enc_size a else off in 0 <= r -> r + enc_size a <= zlen b ->
  s5_set_addr b off n a e = Ok (enc_size a, put b (r + 3) (addr_enc a)).
Proof.
  intros Ha Hn r Hr Hb. subst r. pose proof (length_addr_enc a Ha) as Hl.
  unfold s5_set_addr, addr_enc, ip_of, enc_size, S_SIZE_I4, S_SIZE_I6 in *.
  destruct (sa_family a =? AF_INET).
  - replace (n <? 10) with false by lia.
    set (r := if e then off - 10 else off) in *.
    assert (H4 : zlen (sin_addr a) = 4) by (unfold sin_addr; rewrite zlen_sub; lia).
    assert (H2 : zlen (sub a 2 2) = 2) by (rewrite zlen_sub; lia).
    rewrite wrn_ok by (simpl length; lia). cbn [mbind res_bind].
    rewrite wrn_ok by in_put. cbn [mbind res_bind].
    rewrite wrn_ok by in_put. cbn [mbind res_bind].
    replace (r + 4) with (r + 3 + zlen [S_ATP_I4]) by (simpl length; lia).
    rewrite put_app by (simpl length; lia). cbn [app].
    replace (r + 8) with (r + 3 + zlen (S_ATP_I4 :: sin_addr a)) by (simpl length; lia).
    rewrite put_app by (simpl length; lia). done.
  - replace (n <? 10) with false by lia. replace (n <? 22) with false by lia.
    set (r := if e then off - 22 else off) in *.
    assert (H4 : zlen (sin6_addr a) = 16) by (unfold sin6_addr; rewrite zlen_sub; lia).
    assert (H2 : zlen (sub a 2 2) = 2) by (rewrite zlen_sub; lia).
    rewrite wrn_ok by (simpl length; lia). cbn [mbind res_bind].
    rewrite wrn_ok by in_put. cbn [mbind res_bind].
    rewrite wrn_ok by in_put. cbn [mbind res_bind].
    replace (r + 4) with (r + 3 + zlen [S_ATP_I6]) by (simpl length; lia).
    rewrite put_app by (simpl length; lia). cbn [app].
    replace (r + 20) with (r + 3 + zlen (S_ATP_I6 :: sin6_addr a)) by (simpl length; lia).
    rewrite put_app by (simpl length; lia). done.
Qed.

(** Reading a message whose address is encoded behind its first three bytes. *)
Lemma s5_get_addr_enc off n a a0 type w :
  length a = 28%nat -> length a0 = 28%nat -> sa_family a = AF_INET \/ sa_family a = AF_INET6 ->
  0 <= off -> enc_size a <= n -> off + enc_size a <= zlen (w_buf w) ->
  sub (w_buf w) (off + 3) (enc_size a - 3) = addr_enc a ->
  (sa_family a = AF_INET6 -> ps_ipv6 (w_params w) = true) ->
  exists a', s5_get_addr off n a0 type w = Ok ((enc_size a, a'), w) /\ same_endpoint a a' /\
    length a' = 28%nat.
Proof.
  intros Ha H0 Hf Hoff Hn Hb He H6.
  assert (Hsz : 10 <= enc_size a) by (unfold enc_size, S_SIZE_I4, S_SIZE_I6; ccase; lia).
  assert (Hat : forall i k, 0 <= i -> 0 <= k -> i + k <= enc_size a - 3 ->
    sub (w_buf w) (off + 3 + i) k = sub (addr_enc a) i k).
  { intros i k Hi Hk Hik. rewrite <- He. apply bytes_ext.
    - rewrite !length_sub; rewrite ?zlen_sub; lia.
    - rewrite zlen_sub by lia. intros j Hj. rewrite !byte_at_sub by lia. f_equal. lia. }
  assert (Hb3 : byte_at (sub (w_buf w) off 5) 3 = if sa_family a =? AF_INET then S_ATP_I4 else S_ATP_I6).
  { change (if sa_family a =? AF_INET then S_ATP_I4 else S_ATP_I6) with (byte_at (addr_enc a) 0).
    rewrite <- He, !byte_at_sub by lia. f_equal. lia. }
  unfold s5_get_addr, S_SIZE_MIN. replace (n <? 8) with false by lia.
  unfold buf_get, get, lift, mbind, io_bind, mret, io_ret.
  rewrite rdn_ok by lia. rewrite Hb3.
  clear Hsz Hb3. unfold enc_size, addr_enc, ip_of, same_endpoint, S_SIZE_I4, S_SIZE_I6 in *.
  destruct Hf as [Hf|Hf]; rewrite Hf in *; cbn [Z.eqb AF_INET AF_INET6 Pos.eqb] in *;
    cbn [S_ATP_I4 S_ATP_I6 S_ATP_ID Z.eqb Pos.eqb].
  - replace (n <? 10) with false by lia. rewrite rdn_ok by lia. cbn [fst snd Z.ltb Z.compare].
    rewrite rdn_ok by lia. eexists. split; [done|].
    pose proof (Hat 1 4) as E4. pose proof (Hat 5 2) as E2.
    replace (off + 4) with (off + 3 + 1) by lia. rewrite E4 by lia.
    replace (off + 10 - 2) with (off + 3 + 5) by lia. rewrite E2 by lia.
    explode a Ha. explode a0 H0. split; [|reflexivity].
    split_and!; [reflexivity..|]. unfold ip_of. rewrite Hf. reflexivity.
  - replace (n <? 22) with false by lia. rewrite H6 by done. cbn [negb].
    rewrite rdn_ok by lia. cbn [fst snd Z.ltb Z.compare].
    rewrite rdn_ok by lia. eexists. split; [done|].
    pose proof (Hat 1 16) as E4. pose proof (Hat 17 2) as E2.
    replace (off + 4) with (off + 3 + 1) by lia. rewrite E4 by lia.
    replace (off + 22 - 2) with (off + 3 + 17) by lia. rewrite E2 by lia.
    explode a Ha. explode a0 H0. split; [|reflexivity].
    split_and!; [reflexivity..|]. unfold ip_of. rewrite Hf. reflexivity.
Qed.

(** * Requests *)

Lemma with_buf_same w : with_buf (w_buf w) w = w.
Proof. by destruct w. Qed.

(** The resolver leaves the buffer as it was. *)
Lemma resolve_wp host len a type w :
  0 <= host -> 0 <= len -> host + len < zlen (w_buf w) -> length a = 28%nat ->
  wp (resolve host len a type)
    (fun r w' => (exists new, keeps w w' new /\ quiet_trace new) /\ length r.2 = 28%nat) w.
Proof.
  intros Hh Hl Hb Ha. unfold resolve. apply wp_bind, wp_get.
  assert (H1 : zlen (sub (w_buf w) (host + len) 1) = 1) by (rewrite zlen_sub; lia).
  apply wp_bind, wp_buf_get; [lia..|]. apply wp_bind, wp_buf_put; [lia|simpl length; lia|].
  set (b1 := put (w_buf w) (host + len) [0]).
  assert (Hb1 : length b1 = length (w_buf w)) by (apply length_put; simpl length; lia).
  apply wp_bind. unfold c_string. apply wp_bind, wp_get. change (w_buf (with_buf b1 w)) with b1.
  destruct (scan_while_total (fun c => negb (c =? 0)) b1 host (host + len)) as (e & He & _); [lia|lia| |].
  { unfold b1. rewrite byte_at_put by (simpl length; lia).
    replace ((host + len <=? host + len) && (host + len <? host + len + zlen [0])) with true by (simpl length; lia).
    by rewrite Z.sub_diag. }
  apply wp_bind, wp_lift. rewrite He. cbn [succeeds]. apply wp_ret.
  apply wp_bind, wp_sys. intros r Hr. set (q := SysGetaddrinfo _ _ _ _) in *.
  assert (Hfit : length (r_addr r) = 28%nat).
  { rewrite Hr. unfold q. simpl. unfold fit. rewrite length_map, length_take, length_app, length_replicate. lia. }
  apply wp_bind, wp_buf_put; [lia|rewrite H1; simpl; unfold kernel; destruct (r_ret r <? 0); simpl; lia|].
  set (w2 := with_buf _ _).
  assert (Hk : exists new, keeps w w2 new /\ quiet_trace new).
  { exists [(q, r)]. split; [|by repeat constructor]. unfold w2.
    split; [split|]; simpl; unfold kernel; destruct (r_ret r <? 0); simpl; try done;
      try apply same_params_refl; apply put_restore; lia. }
  ccase; apply wp_ret; split; try done; simpl.
  case_match; [done|]. rewrite length_put; [done|lia|].
  rewrite zlen_sub; unfold sizeof_sockaddr_in; lia.
Qed.

(** What a reader of requests may answer: a SOCKS error, or the length of the
    header, inside the message. *)
Definition s5_answer (n r : Z) : Prop := r ∈ [- S_ER_GEN; - S_ER_ATP; - S_ER_HOST] \/ S_SIZE_I4 <= r <= n.
Definition known_atp (t : Z) : bool := (t =? S_ATP_I4) || (t =? S_ATP_ID) || (t =? S_ATP_I6).

Section Request.
Context (off n : Z) (a : sockaddr) (type : Z) (w : world).
Hypothesis Hoff : 0 <= off.
Hypothesis Hn : off + n <= zlen (w_buf w).
Hypothesis Ha : length a = 28%nat.
Let atp : Z := byte_at (w_buf w) (off + 3).

Definition read_request (r : Z * sockaddr) (w' : world) : Prop :=
  (exists new, keeps w w' new /\ quiet_trace new) /\ s5_answer n r.1 /\ length r.2 = 28%nat.

Lemma read_error e a' w' : (exists new, keeps w w' new /\ quiet_trace new) ->
  e ∈ [- S_ER_GEN; - S_ER_ATP; - S_ER_HOST] -> length a' = 28%nat -> wp (mret (e, a')) read_request w'.
Proof. intros. apply wp_ret. split; [done|]. split; [by left|done]. Qed.
Lemma nothing_called : exists new, keeps w w new /\ quiet_trace new.
Proof. exists []. split; [apply keeps_refl|constructor]. Qed.

(** The port is read when the address has been. *)
Lemma read_port o a' w' : (exists new, keeps w w' new /\ quiet_trace new) ->
  S_SIZE_I4 <= o <= n -> length a' = 28%nat ->
  wp (p ← buf_get (off + o - 2) 2; mret (o, put a' 2 p)) read_request w'.
Proof.
  intros Hk Ho Hl. unfold S_SIZE_I4 in *. assert (Hb : w_buf w' = w_buf w) by (destruct Hk as (? & [[] _] & _); done).
  apply wp_bind, wp_buf_get; rewrite ?Hb; [lia..|].
  assert (Hp : zlen (sub (w_buf w) (off + o - 2) 2) = 2) by (rewrite zlen_sub; lia).
  apply wp_ret. split; [done|]. split; [right; unfold S_SIZE_I4; simpl; lia|].
  cbn [snd]. rewrite length_put; lia.
Qed.

Lemma s5_get_addr_wp : is_bytes (w_buf w) -> (8 <= n -> known_atp atp = true) ->
  wp (s5_get_addr off n a type) read_request w.
Proof.
  intros Hbytes Hatp. unfold s5_get_addr, S_SIZE_MIN.
  ccase; [apply read_error; auto using nothing_called; set_solver|].
  apply wp_bind, wp_buf_get; [lia..|]. rewrite !byte_at_sub by lia. fold atp.
  pose proof (byte_at_range (w_buf w) (off + 4) Hbytes) as Hlen.
  set (len := byte_at (w_buf w) (off + 4)) in *. specialize (Hatp ltac:(lia)).
  set (o := if atp =? S_ATP_I4 then S_SIZE_I4 else _). cbn zeta.
  destruct (Z.ltb_spec n o) as [|Ho]; [apply read_error; auto using nothing_called; set_solver|].
  apply wp_bind, wp_get. unfold known_atp in Hatp. subst o.
  destruct (Z.eqb_spec atp S_ATP_I4) as [H4|H4]; [|destruct (Z.eqb_spec atp S_ATP_ID) as [Hd|Hd];
    [|destruct (Z.eqb_spec atp S_ATP_I6) as [H6|H6]; [|done]]].
  - unfold S_SIZE_I4 in *. apply wp_bind, wp_bind, wp_buf_get; [lia..|]. apply wp_ret. cbn [fst snd Z.ltb Z.compare].
    apply read_port; [apply nothing_called|unfold S_SIZE_I4; lia|].
    unfold set_sin_addr, set_family. rewrite length_put; rewrite ?length_put16; rewrite ?zlen_sub; lia.
  - unfold S_SIZE_ID in *. apply wp_bind. ccase; [apply wp_ret|ccase; [apply wp_ret|]].
    + apply read_error; auto using nothing_called; set_solver.
    + apply read_error; auto using nothing_called; set_solver.
    + apply wp_bind. eapply wp_mono; [apply resolve_wp; lia|]. intros [e a'] w1 [Hk Hl].
      apply wp_ret. cbn [fst snd]. destruct (negb (e =? 0)); cbn [Z.ltb Z.compare Z.opp S_ER_HOST].
      * apply read_error; [done|set_solver|done].
      * apply read_port; [done|unfold S_SIZE_I4; lia|done].
  - unfold S_SIZE_I6 in *. apply wp_bind. ccase; [apply wp_ret|].
    + apply read_error; auto using nothing_called; set_solver.
    + apply wp_bind, wp_buf_get; [lia..|]. apply wp_ret. cbn [fst snd Z.ltb Z.compare].
      apply read_port; [apply nothing_called|unfold S_SIZE_I4; lia|].
      unfold set_sin6_addr, set_family. rewrite length_put; rewrite ?length_put16; rewrite ?zlen_sub; lia.
Qed.

(** A type that is not known: the port is taken from in front of the message. *)
Lemma s5_get_addr_unknown : 8 <= n -> known_atp atp = false -> off < 2 ->
  s5_get_addr off n a type w = Fault OutOfBounds.
Proof.
  intros Hn8 Hatp Hlow. unfold s5_get_addr, S_SIZE_MIN. replace (n <? 8) with false by lia.
  unfold buf_get, get, lift, mbind, io_bind, mret, io_ret. rewrite rdn_ok by lia.
  rewrite !byte_at_sub by lia. fold atp. unfold known_atp in Hatp.
  destruct (atp =? S_ATP_I4); [done|]. destruct (atp =? S_ATP_ID); [done|]. destruct (atp =? S_ATP_I6); [done|].
  replace (n <? 0) with false by lia. cbn [fst snd Z.ltb Z.compare].
  unfold rdn, in_range. cbn [Z.eqb]. by replace (0 <=? off + 0 - 2) with false by lia.
Qed.
End Request.

(** * The method negotiation *)
Definition offers_none (methods : list Z) : bool := existsb (fun m => m =? S_AUTH_NONE) methods.
(** What is answered to a greeting of [n] bytes: nothing when the number of
    methods does not fit its length. *)
Definition greeting_reply (b : list Z) (n : Z) : option (list Z) :=
  if (2 <? n) && (byte_at b 1 =? n - 2)
  then Some [byte_at b 0; if offers_none (sub b 2 (n - 2)) then S_AUTH_NONE else S_AUTH_BAD]
  else None.

(** * Properties *)

(** what [s5_set_addr] writes, at the start of a reply or in front of a
    datagram, [s5_get_addr] reads back: family, port and address arrive, the
    length is that of the header, and the rest of the buffer is untouched. *)
Theorem s5_addr_roundtrip (b : list Z) (off n n' type : Z) (a a0 : sockaddr) (e : bool) (w : world) :
  let size := enc_size a in let r := if e then off - size else off in
  length a = 28%nat -> length a0 = 28%nat -> sa_family a = AF_INET \/ sa_family a = AF_INET6 ->
  size <= n -> size <= n' -> 0 <= r -> r + size <= zlen b ->
  (sa_family a = AF_INET6 -> ps_ipv6 (w_params w) = true) ->
  exists b' a', s5_set_addr b off n a e = Ok (size, b') /\ length b' = length b /\
    (forall i, 0 <= i -> i < r + 3 \/ r + size <= i -> byte_at b' i = byte_at b i) /\
    s5_get_addr r n' a0 type (with_buf b' w) = Ok ((size, a'), with_buf b' w) /\ same_endpoint a a'.
Proof.
  intros size r Ha H0 Hf Hn Hn' Hr Hb H6. pose proof (length_addr_enc a Ha) as Hl.
  assert (Hsz : 10 <= size) by (unfold size, enc_size, S_SIZE_I4, S_SIZE_I6; ccase; lia).
  exists (put b (r + 3) (addr_enc a)).
  destruct (s5_get_addr_enc r n' a a0 type (with_buf (put b (r + 3) (addr_enc a)) w))
    as (a' & Hg & Hs & _); simpl; rewrite ?length_put; try done; try lia.
  { rewrite <- Hl. apply sub_put_same; lia. }
  exists a'. split; [by apply s5_set_addr_enc|]. split; [done|]. split_and!; [|done..].
  intros i Hi Hout. rewrite byte_at_put by lia.
  by replace ((r + 3 <=? i) && (i <? r + 3 + zlen (addr_enc a))) with false by lia.
Qed.

Definition sample_v6 : sockaddr := [10; 0; 1; 187; 0; 0; 0; 0; 32; 1; 13; 184] ++ replicate 11 0 ++ [1; 0; 0; 0; 0].
Lemma s5_addr_roundtrip_witness :
  exists b' a', s5_set_addr (replicate 64 7) 22 22 sample_v6 true = Ok (22, b') /\ length b' = 64%nat /\
    (forall i, 0 <= i -> i < 3 \/ 22 <= i -> byte_at b' i = byte_at (replicate 64 7) i) /\
    s5_get_addr 0 64 zero_addr 0 (with_buf b' (world_ok [] [])) = Ok ((22, a'), with_buf b' (world_ok [] [])) /\
    same_endpoint sample_v6 a'.
Proof.
  apply (s5_addr_roundtrip (replicate 64 7) 22 22 64 0 sample_v6 zero_addr true (world_ok [] []));
    try (vm_compute; done). right. reflexivity.
Defined.

(** C16: a request with a known address type is read inside its [n] bytes, for
    every content, resolver and option: the answer is a SOCKS error or the length
    of a header of the message, the buffer is as before (the byte that is
    overwritten for the resolver too) and nothing is sent or left open.  With an
    unknown type, at the start of the buffer, the two bytes before it are read. *)
Theorem s5_get_addr_bounds (off n type : Z) (a : sockaddr) (w : world) :
  0 <= off -> off + n <= zlen (w_buf w) -> is_bytes (w_buf w) -> length a = 28%nat ->
  let known := known_atp (byte_at (w_buf w) (off + 3)) in
  ((8 <= n -> known = true) ->
     exists r a' w' new, s5_get_addr off n a type w = Ok ((r, a'), w') /\ s5_answer n r /\
       keeps w w' new /\ quiet_trace new) /\
  (8 <= n -> known = false -> off < 2 -> s5_get_addr off n a type w = Fault OutOfBounds).
Proof.
  intros Hoff Hn Hb Ha known. split.
  - intros Hk. pose proof (s5_get_addr_wp off n a type w Hoff Hn Ha Hb Hk) as Hwp.
    apply wp_Ok in Hwp as ([r a'] & w' & E & (new & K & Q) & Hr & _). by exists r, a', w', new.
  - intros. by apply s5_get_addr_unknown.
Qed.

(** A request for example.org, and one of type 2. *)
Definition sample_domain : list Z := [5; 1; 0; 3; 11] ++ chars "example.org" ++ [1; 187].
Lemma s5_get_addr_bounds_witness :
  (exists r a' w' new, s5_get_addr 0 18 zero_addr SOCK_STREAM (world_ok [] sample_domain) = Ok ((r, a'), w') /\
     s5_answer 18 r /\ keeps (world_ok [] sample_domain) w' new /\ quiet_trace new) /\
  s5_get_addr 0 18 zero_addr SOCK_STREAM (world_ok [] ([5; 1; 0; 2] ++ replicate 14 0)) = Fault OutOfBounds.
Proof.
  split.
  - apply (s5_get_addr_bounds 0 18 SOCK_STREAM zero_addr (world_ok [] sample_domain));
      [lia|vm_compute; discriminate|apply (bool_decide_unpack _); vm_compute; done|reflexivity|reflexivity].
  - apply (s5_get_addr_bounds 0 18 SOCK_STREAM zero_addr (world_ok [] ([5; 1; 0; 2] ++ replicate 14 0)));
      [lia|vm_compute; discriminate|apply (bool_decide_unpack _); vm_compute; done|reflexivity|lia|reflexivity|lia].
Defined.

(** An IPv4 address becomes ::ffff:a.b.c.d with the same port and, on the way
    back, itself again; an IPv6 address is not changed on the way there.  (The
    bytes 4 to 7, the flow information of an IPv6 address, keep the IPv4
    address.) *)
Theorem map_fix_roundtrip (a : sockaddr) :
  length a = 28%nat ->
  (sa_family a = AF_INET ->
     sin6_addr (map_fix a 6) = replicate 10 0 ++ [255; 255] ++ sin_addr a /\
     sa_family (map_fix a 6) = AF_INET6 /\ sin_port (map_fix a 6) = sin_port a /\
     same_endpoint (map_fix (map_fix a 6) 0) a) /\
  (sa_family a <> AF_INET -> map_fix a 6 = a).
Proof.
  intros Ha. split.
  - intros Hf. rewrite (map_fix_mapped a Ha Hf). rewrite map_fix_unmapped.
    + unfold same_endpoint, ip_of. rewrite Hf. explode a Ha. split_and!; reflexivity.
    + explode a Ha. reflexivity.
    + explode a Ha. reflexivity.
    + explode a Ha. reflexivity.
    + explode a Ha. reflexivity.
  - intros Hf. unfold map_fix. replace (sa_family a =? AF_INET) with false by lia.
    cbn [andb Z.eqb]. by rewrite !andb_false_r.
Qed.

Lemma map_fix_roundtrip_witness :
  let a := [2; 0; 1; 187; 93; 184; 216; 34] ++ replicate 20 0 in
  same_endpoint (map_fix (map_fix a 6) 0) a.
Proof. apply (map_fix_roundtrip ([2; 0; 1; 187; 93; 184; 216; 34] ++ replicate 20 0)); reflexivity. Defined.

(** the answer to a greeting is sent once and is the method "no
    authentication" exactly when the client offers it, else 0xff; a greeting
    whose length is not that of its methods is not answered.  The connection goes
    on only after the method was accepted and the answer sent. *)
Theorem auth_socks5_reply (fd n : Z) (w : world) :
  0 <= n <= zlen (w_buf w) ->
  wp (auth_socks5 fd n) (fun r w' =>
    match greeting_reply (w_buf w) n with
    | None => r = -1 /\ w' = w
    | Some reply => exists rsp, w_trace w' = (SysSend fd reply 0, rsp) :: w_trace w /\
        r = if (0 <=? r_ret rsp) && offers_none (sub (w_buf w) 2 (n - 2)) then 0 else -1
    end) w.
Proof.
  intros Hn. unfold auth_socks5, greeting_reply. destruct (Z.leb_spec n 2).
  { replace (2 <? n) with false by lia. by apply wp_ret. }
  replace (2 <? n) with true by lia. cbn [andb].
  apply wp_bind, wp_buf_get; [lia..|]. rewrite byte_at_sub by lia.
  destruct (byte_at (w_buf w) (1 + 0) =? n - 2) eqn:E; rewrite Z.add_0_r in E; rewrite E; [|by apply wp_ret].
  cbn [negb]. apply wp_bind, wp_buf_get; [lia..|]. fold (offers_none (sub (w_buf w) 2 (n - 2))).
  set (c := if offers_none _ then _ else _). cbn zeta.
  apply wp_bind, wp_buf_put; [lia|simpl length; lia|]. set (b1 := put (w_buf w) 1 [c]).
  assert (Hb1 : length b1 = length (w_buf w)) by (apply length_put; simpl length; lia).
  apply wp_bind, wp_buf_get; [lia..|simpl w_buf; lia|]. simpl w_buf.
  assert (Hs : sub b1 0 2 = [byte_at (w_buf w) 0; c]).
  { apply bytes_ext; [rewrite length_sub; simpl length; lia|]. rewrite zlen_sub by lia. intros i Hi.
    rewrite byte_at_sub by lia. unfold b1. rewrite byte_at_put by (simpl length; lia). simpl zlen.
    assert (i = 0 \/ i = 1) as [-> | ->] by lia; reflexivity. }
  rewrite Hs. apply wp_bind, wp_call. intros r _. unfold c.
  destruct (r_ret r <? 0) eqn:Er; apply wp_ret; exists r; (split; [done|]).
  - by replace (0 <=? r_ret r) with false by lia.
  - replace (0 <=? r_ret r) with true by lia. by destruct (offers_none _).
Qed.

Lemma auth_socks5_reply_witness :
  wp (auth_socks5 7 4) (fun r w' => exists rsp, r = (if (0 <=? r_ret rsp) && true then 0 else -1) /\
    w_trace w' = [(SysSend 7 [5; 0] 0, rsp)]) (world_ok [] [5; 2; 1; 0]).
Proof.
  eapply wp_mono; [apply (auth_socks5_reply 7 4 (world_ok [] [5; 2; 1; 0])); split; vm_compute; discriminate|].
  intros r w' (rsp & Ht & ->). by exists rsp.
Defined.
