(* ===== verification/Cache.v ===== *)
(** extend.c, first part: socket options, the cache of groups by address, and
    the filters of a group. *)
From S2P Require Import Prelude CLib Packets Mpool Params World Desync.

Definition set_timeout (fd s : Z) : io Z :=
  r ← call (SysSetsockopt fd IPPROTO_TCP TCP_USER_TIMEOUT (le32 s));
  mret (if negb (r =? 0) then -1 else 0).

(** * protect: handing the descriptor to the VPN service *)
Definition AF_UNIX : Z := 1.
Definition sizeof_sun_path : Z := 108.
(** [path] is a C string, without its NUL. *)
Definition protect (conn_fd : Z) (path : list Z) : io Z :=
  _ ← (if sizeof_sun_path <? zlen path + 1 then fault OutOfBounds else mret tt);   (* strcpy *)
  let sa := [AF_UNIX; 0] ++ path ++ [0] in
  fd ← call (SysSocket AF_UNIX SOCK_STREAM);
  if fd <? 0 then mret (-1) else
  let tv := 1 :: replicate 15 0 in
  _ ← call (SysSetsockopt fd SOL_SOCKET SO_RCVTIMEO tv);
  _ ← call (SysSetsockopt fd SOL_SOCKET SO_SNDTIMEO tv);
  err ← call (SysConnect fd sa);
  if negb (err =? 0) then _ ← close fd; mret (-1) else
  r ← call (SysSendmsg fd conn_fd);
  if r <? 0 then _ ← close fd; mret (-1) else
  r ← call (SysRecv fd 1);
  if r <? 1 then _ ← close fd; mret (-1) else
  _ ← close fd; mret 0.

Definition socket_mod (fd : Z) (dst : sockaddr) : io Z :=
  ps ← get w_params;
  r ← (if ps_custom_ttl ps then setttl fd (ps_def_ttl ps) (get_family dst) else mret 0);
  if r <? 0 then mret (-1) else
  match ps_protect_path ps with
  | Some path => protect fd path
  | None => mret 0
  end.

(** * The cache *)

(** The length of the key; it starts at the family. *)
Definition key_len (dst : sockaddr) : Z :=
  (if sa_family dst =? AF_INET then sizeof_sockaddr_in else sizeof_sockaddr_in6 - 4) - 2.

(** [params.mempool] *)
Definition pool_ptr : io mphdr :=
  ps ← get w_params;
  match ps_mempool ps with Some h => mret h | None => fault NullDeref end.
Definition set_pool (hdr : mphdr) (h : heap) : io unit :=
  modify (fun w => with_heap h (with_params (set_mempool (w_params w) (Some hdr)) w)).

(** m = -1: get, m > 0: set, m = 0: delete *)
Definition mode_add_get (dst : sockaddr) (m : Z) : io Z :=
  ps ← get w_params;
  _ ← c_assert ((-1 <=? m) && (m <? dp_count ps));
  let len := key_len dst in
  if m =? 0 then
    hdr ← pool_ptr;
    h ← get w_heap;
    '(hdr, h) ← lift (mem_delete hdr dst len h);
    _ ← set_pool hdr h;
    mret 0
  else if 0 <? m then
    t ← call SysTime;
    hdr ← pool_ptr;
    h ← get w_heap;
    ok1 ← call (SysAlloc 1);
    ok2 ← (if (ok1 <? 0) || stat hdr then mret 0 else call (SysAlloc len));
    '(val, hdr, h) ← lift (mem_add (0 <=? ok1) (0 <=? ok2) hdr 1 dst len h);
    match (val : option elem) with
    | None => _ ← set_pool hdr h; mret (-1)
    | Some e => _ ← set_pool (elem_set hdr (e_ptr e) m t) h; mret 0
    end
  else
    hdr ← pool_ptr;
    val ← lift (mem_get hdr dst len);
    match val with
    | None => mret (-1)
    | Some e =>
        t ← call SysTime;
        if LONG_MAX <? e_time e + ps_cache_ttl ps then fault Overflow else
        if e_time e + ps_cache_ttl ps <? t then mret 0 else mret (e_m e)
    end.

(** * The filters of a group *)
Definition check_port (p : Z * Z) (dst : sockaddr) : bool :=
  (p.1 <=? sin_port dst) && (sin_port dst <=? p.2).

(** [val->buff.data], dereferenced *)
Definition buff_data (val : eval) : res (list Z) :=
  match b_data (ev_buff val) with Some d => Ok d | None => Fault NullDeref end.

(** The labels of a host name, from the whole name on. *)
Fixpoint host_loop (fuel : nat) (hosts : mphdr) (data : list Z) (host e : Z) : res bool :=
  match fuel with
  | O => Fault OutOfFuel
  | S fuel =>
      if negb (host <? e) then mret false else
      v ← mem_get hosts (drop (Z.to_nat host) data) (e - host);
      match v with
      | Some _ => mret true
      | None =>
          p ← memchr data host (chr ".") (e - host);
          match p with
          | None => mret false
          | Some p => host_loop fuel hosts data (p + 1) e
          end
      end
  end.
Definition check_host (hosts : mphdr) (val : eval) : res bool :=
  data ← buff_data val;
  '(len, host) ← parse_tls data (b_size (ev_buff val));
  '(len, host) ← (if negb (len =? 0) then mret (len, host) else
                    p ← parse_http data (b_size (ev_buff val)) false;
                    mret (s32 (hh_len p), hh_hs p));
  _ ← (if (len =? 0) || bool_decide (host <> None) then mret tt else Fault AssertFail);
  if len <=? 0 then mret false else
  let host := default 0 host in
  host_loop (S (Z.to_nat len)) hosts data host (host + len).

Definition check_proto_tcp (proto : Z) (val : eval) : res bool :=
  if negb (Z.land proto IS_TCP =? 0) then mret true else
  data ← buff_data val;
  http ← (if negb (Z.land proto IS_HTTP =? 0) then is_http data (b_size (ev_buff val)) else mret false);
  if (http : bool) then mret true else
  tls ← (if negb (Z.land proto IS_HTTPS =? 0) then is_tls_chello data (b_size (ev_buff val)) else mret false);
  mret (tls : bool).

(** Whether a group (without [detect]) takes a TCP connection; [addr] is the
    address behind the pointer [val->pair]. *)
Definition takes_tcp (dp : desync_params) (addr : res sockaddr) (val : eval) : res bool :=
  if negb (dp_detect dp =? 0) then mret false else
  port ← (if (dp_pf dp).1 =? 0 then mret true else a ← addr; mret (check_port (dp_pf dp) a));
  if negb port then mret false else
  p ← (if dp_proto dp =? 0 then mret true else check_proto_tcp (dp_proto dp) val);
  if negb p then mret false else
  match dp_hosts dp with
  | None => mret true
  | Some hosts => check_host hosts val
  end.
(** ... or a UDP flow. *)
Definition takes_udp (dp : desync_params) (addr : sockaddr) : bool :=
  (dp_detect dp =? 0) &&
  ((dp_proto dp =? 0) || negb (Z.land (dp_proto dp) IS_UDP =? 0)) &&
  (((dp_pf dp).1 =? 0) || check_port (dp_pf dp) addr).
