(* ===== verification/CacheProps.v ===== *)
(** The cache of chosen groups ([mode_add_get]) refines a finite map from
    addresses to a group and the time it was stored, with an expiry time. *)
From S2P Require Import Prelude CLib Kavl KavlAvl KavlOps Mpool MpoolSpec Params World Desync Cache.

(** * What the cache stands for *)
Definition cache_key (dst : sockaddr) : list Z := sub dst 0 (key_len dst).

(** [cache_is w hdr s]: [params.mempool] is the sound pool [hdr], which holds [s]. *)
Record cache_is (w : world) (hdr : mphdr) (s : store) : Prop := {
  ca_pool : ps_mempool (w_params w) = Some hdr;
  ca_inv : pool_inv hdr (w_heap w);
  ca_values : values hdr = s
}.

(** What a call with argument [m] answers and leaves, when the clock shows [now]. *)
Inductive cache_step (ttl now : Z) (k : list Z) : Z -> store -> Z -> store -> Prop :=
  | CacheDelete s : cache_step ttl now k 0 s 0 (delete k s)
  | CacheSet m s : 0 < m -> cache_step ttl now k m s 0 (<[k := (m, now)]> s)
  | CacheFull m s : 0 < m -> cache_step ttl now k m s (-1) s   (* out of memory *)
  | CacheMiss s : s !! k = None -> cache_step ttl now k (-1) s (-1) s
  | CacheOld m t s : s !! k = Some (m, t) -> t + ttl < now -> cache_step ttl now k (-1) s 0 s
  | CacheHit m t s : s !! k = Some (m, t) -> now <= t + ttl -> cache_step ttl now k (-1) s m s.

(** The rest of the state. *)
Record cache_frame (w w' : world) : Prop := {
  cf_params : w_params w' = set_mempool (w_params w) (ps_mempool (w_params w'));
  cf_pool : w_pool w' = w_pool w;
  cf_fds : w_fds w' = w_fds w;
  cf_interest : w_interest w' = w_interest w;
  cf_buf : w_buf w' = w_buf w;
  cf_env : w_env w' = w_env w
}.

(** The clock: what the calls [new] have shown last. *)
Fixpoint clock (new : trace) : Z :=
  match new with
  | [] => 0
  | (SysTime, r) :: _ => r_ret r
  | _ :: new => clock new
  end.

(** * Calls that only ask: the time, and whether there is memory *)
Definition asks (q : sysreq) : bool :=
  match q with SysTime | SysAlloc _ => true | _ => false end.

(** [w'] is [w] after the calls [new], all of them asking. *)
Record asked (w w' : world) (new : trace) : Prop := {
  as_trace : w_trace w' = new ++ w_trace w;
  as_params : w_params w' = w_params w;
  as_heap : w_heap w' = w_heap w;
  as_frame : cache_frame w w'
}.

Lemma set_mempool_same p : set_mempool p (ps_mempool p) = p.
Proof. by destruct p. Qed.
Lemma asked_refl w : asked w w [].
Proof. split; [done..|]. split; try done. by rewrite set_mempool_same. Qed.

Lemma asked_call w w' new q (Q : Z -> world -> Prop) :
  asks q = true -> asked w w' new ->
  (forall r w2, r = sane w' q (w_env w' (w_trace w') q) -> asked w w2 ((q, r) :: new) ->
     Q (r_ret r) w2) ->
  wp (call q) Q w'.
Proof.
  intros Hq [T P H [F1 F2 F3 F4 F5 F6]] HQ. apply wp_call. intros r Hr. apply HQ; [done|].
  assert (Hk : exists e, kernel q r w' = with_errno e w').
  { unfold kernel. destruct (r_ret r <? 0); [by eexists|]. exists (w_errno w').
    destruct q; try done; by destruct w'. }
  destruct Hk as [e ->]. split; simpl; try done. by rewrite T.
Qed.

Section Step.
Context (w : world) (hdr : mphdr) (s : store) (dst : sockaddr).
Hypothesis Hc : cache_is w hdr s.
Hypothesis Hdst : length dst = 28%nat.
Let k := cache_key dst.

Lemma key_len_range : 0 <= key_len dst <= 22.
Proof. unfold key_len, sizeof_sockaddr_in, sizeof_sockaddr_in6. ccase; lia. Qed.
Lemma key_in : 0 <= key_len dst <= zlen dst.
Proof. pose proof key_len_range. lia. Qed.

(** What every branch shows of its last state. *)
Definition stepped (m : Z) (r : Z) (w' : world) : Prop :=
  exists new hdr' s', w_trace w' = new ++ w_trace w /\ cache_frame w w' /\
    cache_is w' hdr' s' /\ count (root hdr') <= count (root hdr) + 1 /\
    foreign hdr' (w_heap w') = foreign hdr (w_heap w) /\
    cache_step (ps_cache_ttl (w_params w)) (clock new) k m s r s'.

(** The state after [asked], with a pool put back. *)
Lemma stepped_set w1 new m r hdr' h s' (Q : unit -> world -> Prop) :
  asked w w1 new -> pool_inv hdr' h -> values hdr' = s' -> count (root hdr') <= count (root hdr) + 1 ->
  foreign hdr' h = foreign hdr (w_heap w) ->
  cache_step (ps_cache_ttl (w_params w)) (clock new) k m s r s' ->
  (forall w', stepped m r w' -> Q tt w') -> wp (set_pool hdr' h) Q w1.
Proof.
  intros [T P H [F1 F2 F3 F4 F5 F6]] Hi Hv Hn Hf Hstep HQ. apply wp_modify, HQ.
  exists new, hdr', s'. split; [done|]. split; [by split; simpl; rewrite ?P|].
  split; [by split|]. done.
Qed.
Lemma stepped_same w1 new m r :
  asked w w1 new -> cache_step (ps_cache_ttl (w_params w)) (clock new) k m s r s -> stepped m r w1.
Proof.
  intros [T P H F] Hstep. destruct Hc as [Hp Hi Hv]. exists new, hdr, s.
  split; [done|]. split; [done|]. split; [split; by rewrite ?P, ?H|]. rewrite H. split_and!; done || lia.
Qed.

Lemma asked_pool w1 new (Q : mphdr -> world -> Prop) : asked w w1 new -> Q hdr w1 -> wp pool_ptr Q w1.
Proof.
  intros A HQ. unfold pool_ptr. apply wp_bind, wp_get.
  rewrite (as_params _ _ _ A), (ca_pool _ _ _ Hc). by apply wp_ret.
Qed.

(** m = 0 *)
Lemma cache_delete_wp :
  wp (hdr ← pool_ptr; h ← get w_heap; '(hdr, h) ← lift (mem_delete hdr dst (key_len dst) h);
      _ ← set_pool hdr h; mret 0) (stepped 0) w.
Proof.
  apply wp_bind, (asked_pool w []); [apply asked_refl|]. apply wp_bind, wp_get.
  destruct (mem_delete_spec hdr (w_heap w) (ca_inv _ _ _ Hc) dst (key_len dst) key_in)
    as (hdr' & h' & E & Hi & Hst & Hn & Hm & Hf).
  apply wp_bind, wp_lift. rewrite E. cbn [succeeds]. apply wp_bind.
  eapply (stepped_set w [] 0 0 hdr' h' (delete k s)); [apply asked_refl|done|..]; [| lia|done| |].
  - unfold values. by rewrite Hm, fmap_delete, <- (ca_values _ _ _ Hc).
  - constructor.
  - intros w' Hw. by apply wp_ret.
Qed.

(** m > 0, after the clock and the allocations *)
Lemma cache_set_wp m ok1 ok2 now w1 new :
  0 < m -> count (root hdr) + 1 < UINT_MAX -> asked w w1 new -> now = clock new ->
  wp ('(val, hdr, h) ← lift (mem_add ok1 ok2 hdr 1 dst (key_len dst) (w_heap w));
      match (val : option elem) with
      | None => _ ← set_pool hdr h; mret (-1)
      | Some e => _ ← set_pool (elem_set hdr (e_ptr e) m now) h; mret 0
      end) (stepped m) w1.
Proof.
  intros Hm Hn A ->. apply wp_bind, wp_lift.
  destruct (mem_add_spec hdr (w_heap w) (ca_inv _ _ _ Hc) dst (key_len dst) key_in ok1 ok2 1 Hn)
    as ([[v hdr1] h1] & -> & Hi & Hst & Hf & Hn1 & Hv). cbn [succeeds].
  destruct v as [e|]; apply wp_bind.
  - assert (Hk : pool_map hdr1 !! k = Some e /\
                 <[k := (m, clock new)]> (values hdr1) = <[k := (m, clock new)]> s).
    { rewrite <- (ca_values _ _ _ Hc). destruct Hv as [_ Hv]. unfold values.
      fold (cache_key dst) in Hv. fold k in Hv. destruct (pool_map hdr !! k) as [old|] eqn:Hold.
      - by destruct Hv as (-> & -> & _).
      - destruct Hv as (_ & _ & _ & ->). by rewrite fmap_insert, lookup_insert_eq, insert_insert_eq. }
    destruct Hk as (Hk & Hs).
    destruct (elem_set_spec hdr1 h1 k e m (clock new) Hi Hk) as (Hi2 & _ & Hf2 & Hn2 & Hm2).
    eapply (stepped_set w1 new m 0 _ h1 (<[k := (m, clock new)]> s)); [done|exact Hi2|..].
    + unfold values in *. by rewrite Hm2, fmap_insert.
    + lia.
    + by rewrite Hf2.
    + by constructor.
    + intros w' Hw. by apply wp_ret.
  - destruct Hv as (_ & -> & ->).
    eapply (stepped_set w1 new m (-1) hdr (w_heap w) s); [done|apply Hc|apply Hc|lia|done| |].
    + by constructor.
    + intros w' Hw. by apply wp_ret.
Qed.

(** m = -1 *)
Lemma cache_get_wp :
  map_Forall (fun _ v => v.2 + ps_cache_ttl (w_params w) <= LONG_MAX) s ->
  wp (hdr ← pool_ptr;
      val ← lift (mem_get hdr dst (key_len dst));
      match val with
      | None => mret (-1)
      | Some e =>
          t ← call SysTime;
          if LONG_MAX <? e_time e + ps_cache_ttl (w_params w) then fault Overflow else
          if e_time e + ps_cache_ttl (w_params w) <? t then mret 0 else mret (e_m e)
      end) (stepped (-1)) w.
Proof.
  intros Hov. apply wp_bind, (asked_pool w []); [apply asked_refl|]. apply wp_bind, wp_lift.
  rewrite (mem_get_lookup hdr (w_heap w) (ca_inv _ _ _ Hc) dst (key_len dst) key_in).
  cbn [succeeds]. fold (cache_key dst). fold k.
  assert (Hk : s !! k = (fun e => (e_m e, e_time e)) <$> pool_map hdr !! k)
    by (rewrite <- (ca_values _ _ _ Hc); apply lookup_fmap).
  destruct (pool_map hdr !! k) as [e|]; simpl in Hk.
  - specialize (Hov k _ Hk). simpl in Hov.
    apply wp_bind, (asked_call w w []); [done|apply asked_refl|]. intros r w2 Hr A.
    replace (LONG_MAX <? e_time e + ps_cache_ttl (w_params w)) with false by lia.
    case_match; apply wp_ret; (eapply stepped_same; [done|]); simpl.
    + eapply CacheOld; [done|lia].
    + eapply CacheHit; [done|lia].
  - apply wp_ret. eapply stepped_same; [apply asked_refl|]. by apply CacheMiss.
Qed.
End Step.

(** C12: [mode_add_get] refines a finite map with expiry: for an address and an
    [m] of the range the assertion demands it is defined (no assertion fails, the
    pool stays sound, nothing is leaked) and does to the map exactly what its
    comment says: 0 deletes, a positive number stores it with the current time,
    -1 answers the stored number, 0 when it is older than [cache_ttl], and -1
    when there is none.  Apart from the cache nothing changes. *)
Theorem mode_add_get_refines (w : world) (hdr : mphdr) (s : store) (dst : sockaddr) (m : Z) :
  cache_is w hdr s -> length dst = 28%nat -> count (root hdr) + 1 < UINT_MAX ->
  -1 <= m < dp_count (w_params w) ->
  map_Forall (fun _ v => v.2 + ps_cache_ttl (w_params w) <= LONG_MAX) s ->
  exists r w' new hdr' s', mode_add_get dst m w = Ok (r, w') /\
    w_trace w' = new ++ w_trace w /\ cache_frame w w' /\ cache_is w' hdr' s' /\
    foreign hdr' (w_heap w') = foreign hdr (w_heap w) /\
    cache_step (ps_cache_ttl (w_params w)) (clock new) (cache_key dst) m s r s'.
Proof.
  intros Hc Hd Hn Hm Hov.
  enough (Hwp : wp (mode_add_get dst m) (stepped w hdr s dst m) w).
  { apply wp_Ok in Hwp as (r & w' & E & new & hdr' & s' & ? & ? & ? & _ & ? & ?).
    exists r, w', new, hdr', s'. by split_and!. }
  unfold mode_add_get. apply wp_bind, wp_get, wp_bind, wp_assert; [lia|].
  destruct (Z.eqb_spec m 0) as [->|Hm0]; [by apply cache_delete_wp|].
  destruct (Z.ltb_spec 0 m) as [Hpos|Hneg].
  - apply wp_bind, (asked_call w w []); [done|apply asked_refl|]. intros rt w1 _ A1.
    apply wp_bind, (asked_pool w hdr s Hc w1 _ _ A1), wp_bind, wp_get.
    apply wp_bind. eapply asked_call; [done|exact A1|]. intros r1 w2 _ A2.
    replace (w_heap w1) with (w_heap w) by (symmetry; apply A1). apply wp_bind. case_match.
    + apply wp_ret. by eapply cache_set_wp.
    + eapply asked_call; [done|exact A2|]. intros r2 w3 _ A3. by eapply cache_set_wp.
  - replace m with (-1) by lia. by apply cache_get_wp.
Qed.

(** A cache with one address in it, which is asked for again. *)
Definition sample_addr : sockaddr := [2; 0; 1; 187; 93; 184; 216; 34] ++ replicate 20 0.
Definition sample_hdr : mphdr :=
  Mphdr 1 false (Node (Elem 3 2 (cache_key sample_addr) 2 50) 0 1 Leaf Leaf).
Definition sample_cache : world :=
  let w := world_ok [zero_group; zero_group; zero_group] [] in
  with_heap {[1%positive; 2%positive; 3%positive]}
    (with_params (set_mempool (w_params w) (Some sample_hdr)) w).
Lemma sample_cache_is : cache_is sample_cache sample_hdr {[cache_key sample_addr := (2, 50)]}.
Proof.
  split; [done| |by vm_compute]. split.
  - split; [by vm_compute|]. repeat constructor.
  - apply (bool_decide_unpack _). by vm_compute.
  - intros p Hp. simpl in Hp. unfold sample_cache. simpl. set_solver.
  - by vm_compute.
Qed.
Lemma mode_add_get_refines_witness :
  exists r w' new hdr' s', mode_add_get sample_addr (-1) sample_cache = Ok (r, w') /\
    w_trace w' = new ++ w_trace sample_cache /\ cache_frame sample_cache w' /\ cache_is w' hdr' s' /\
    foreign hdr' (w_heap w') = foreign sample_hdr (w_heap sample_cache) /\
    cache_step 100800 (clock new) (cache_key sample_addr) (-1) {[cache_key sample_addr := (2, 50)]} r s'.
Proof.
  apply (mode_add_get_refines sample_cache sample_hdr).
  - apply sample_cache_is.
  - reflexivity.
  - vm_compute. reflexivity.
  - vm_compute. split; [discriminate|reflexivity].
  - apply map_Forall_singleton. vm_compute. discriminate.
Defined.

(** The key of the cache has the address of an IPv6 peer without its last two
    bytes: hosts of one /112 network share an entry, whatever the call. *)
Theorem ipv6_neighbours_share_entry (a b : sockaddr) (m : Z) (w : world) :
  length a = 28%nat -> length b = 28%nat -> sa_family a = AF_INET6 -> sub a 0 22 = sub b 0 22 ->
  mode_add_get a m w = mode_add_get b m w.
Proof.
  intros Ha Hb Hf Hs.
  assert (Hfb : sa_family b = AF_INET6).
  { rewrite <- Hf. unfold sa_family, get16.
    assert (E : forall i, 0 <= i < 22 -> byte_at b i = byte_at a i).
    { intros i Hi. pose proof (byte_at_sub a 0 22 i) as Ea. rewrite Hs, byte_at_sub in Ea by lia. auto with lia. }
    by rewrite !E by lia. }
  assert (Hk : key_len a = 22 /\ key_len b = 22) by (unfold key_len; by rewrite Hf, Hfb).
  destruct Hk as [Hka Hkb].
  assert (Hget : forall hdr, mem_get hdr a 22 = mem_get hdr b 22)
    by (intros; unfold mem_get; by rewrite !rdn_ok, Hs by lia).
  assert (Hdel : forall hdr h, mem_delete hdr a 22 h = mem_delete hdr b 22 h)
    by (intros; unfold mem_delete; by rewrite !rdn_ok, Hs by lia).
  assert (Hadd : forall o1 o2 hdr h, mem_add o1 o2 hdr 1 a 22 h = mem_add o1 o2 hdr 1 b 22 h)
    by (intros; unfold mem_add; by rewrite !rdn_ok, Hs by lia).
  unfold mode_add_get. rewrite Hka, Hkb. unfold mbind, io_bind, lift.
  repeat (case_match; try done); rewrite ?Hget, ?Hdel, ?Hadd in *; congruence.
Qed.

Lemma ipv6_neighbours_share_entry_witness :
  mode_add_get ([10; 0; 1; 187] ++ replicate 24 0) 2 sample_cache =
  mode_add_get ([10; 0; 1; 187] ++ replicate 18 0 ++ [1; 2; 0; 0; 0; 0]) 2 sample_cache.
Proof. apply ipv6_neighbours_share_entry; vm_compute; reflexivity. Defined.
