(* ===== verification/Conn.v ===== *)
(** proxy.c: opening connections.  Each returns 0, or -1 after closing what it
    has opened. *)
From S2P Require Import Prelude CLib Packets Mpool Params World Desync Conev Socks Cache.

(** An event is closed and -1 returned: the error exits. *)
Definition fail_close (fd : Z) : io Z := _ ← close fd; mret (-1).

(** The options of an outgoing TCP socket, lines 356-380; 0 when all are set. *)
Definition conn_options (sfd : Z) : io Z :=
  r ← call (SysSetsockopt sfd IPPROTO_TCP TCP_SYNCNT (le32 1));
  if negb (r =? 0) then mret (-1) else
  ps ← get w_params;
  r ← (if ps_tfo ps then call (SysSetsockopt sfd IPPROTO_TCP TCP_FASTOPEN_CONNECT (le32 1)) else mret 0);
  if negb (r =? 0) then mret (-1) else
  r ← call (SysSetsockopt sfd IPPROTO_TCP TCP_NODELAY (le32 1));
  if negb (r =? 0) then mret (-1) else mret 0.

(** A socket of the family of [addr], bound and ready to connect, lines
    332-380; -1 if that fails. *)
Definition conn_socket (addr : sockaddr) : io Z :=
  sfd ← nb_socket (sa_family addr) SOCK_STREAM;
  if sfd <? 0 then mret (-1) else
  r ← socket_mod sfd addr;
  if r <? 0 then fail_close sfd else
  r ← (if sa_family addr =? AF_INET6 then call (SysSetsockopt sfd IPPROTO_IPV6 IPV6_V6ONLY (le32 0))
       else mret 0);
  if negb (r =? 0) then fail_close sfd else
  ps ← get w_params;
  r ← call (SysBind sfd (sa_bytes (ps_baddr ps)));
  if r <? 0 then fail_close sfd else
  r ← conn_options sfd;
  if negb (r =? 0) then fail_close sfd else mret sfd.

Definition create_conn (val : nat) (dst : sockaddr) (next : eid) : io Z :=
  ps ← get w_params;
  let addr := map_fix dst (if sa_family (ps_baddr ps) =? AF_INET6 then 6 else 0) in
  if negb (sa_family addr =? sa_family (ps_baddr ps)) then mret (-1) else
  sfd ← conn_socket addr;
  if sfd <? 0 then mret (-1) else
  status ← call (SysConnect sfd (sa_bytes addr));
  e ← get_e;
  if (status <? 0) && negb (e =? EINPROGRESS) && negb (e =? EAGAIN) then fail_close sfd else
  pr ← add_event next sfd POLLOUT;
  match pr with
  | None => fail_close sfd
  | Some pr =>
      _ ← upd val (set_pair (Some pr));
      _ ← upd pr (fun e => set_flag FLAG_CONN (set_in6 dst (set_pair (Some val) e)));
      _ ← upd val (set_type EV_IGNORE);
      mret 0
  end.

(** * UDP *)

(** The socket towards the server, lines 420-457: its event. *)
Definition udp_remote (dst : sockaddr) : io (option nat) :=
  ps ← get w_params;
  ufd ← nb_socket (sa_family (ps_baddr ps)) SOCK_DGRAM;
  if ufd <? 0 then mret None else
  let v6 := sa_family (ps_baddr ps) =? AF_INET6 in
  r ← (if v6 then call (SysSetsockopt ufd IPPROTO_IPV6 IPV6_V6ONLY (le32 0)) else mret 0);
  if negb (r =? 0) then _ ← close ufd; mret None else
  let addr := if v6 then map_fix dst 6 else dst in
  r ← call (SysBind ufd (sa_bytes (ps_baddr ps)));
  if r <? 0 then _ ← close ufd; mret None else
  pr ← add_event EV_UDP_TUNNEL ufd POLLIN;
  match pr with
  | None => _ ← close ufd; mret None
  | Some pr =>
      if sin_port dst =? 0 then mret (Some pr) else
      r ← socket_mod ufd addr;
      if r <? 0 then _ ← del_event pr; mret None else
      r ← call (SysConnect ufd (sa_bytes addr));
      if r <? 0 then _ ← del_event pr; mret None else
      _ ← upd pr (set_in6 addr);
      mret (Some pr)
  end.

(** The socket towards the client, lines 464-490; [add_event] may have failed. *)
Definition udp_local (val pr : nat) : io (option (Z * option nat)) :=
  v ← item val;
  r ← sys (SysGetsockname (ev_fd v));
  if negb (r_ret r =? 0) then mret None else
  let addr := set_port (r_addr r) 0 in
  cfd ← nb_socket (sa_family addr) SOCK_DGRAM;
  if cfd <? 0 then _ ← del_event pr; mret None else
  r ← call (SysBind cfd (sa_bytes addr));
  if r <? 0 then _ ← del_event pr; _ ← close cfd; mret None else
  client ← add_event EV_UDP_TUNNEL cfd POLLIN;
  mret (Some (cfd, client)).

Definition udp_associate (val : nat) (dst : sockaddr) : io Z :=
  pr ← udp_remote dst;
  match pr with
  | None => mret (-1)
  | Some pr =>
      x ← udp_local val pr;
      match x with
      | None => mret (-1)
      | Some (cfd, client) =>
          (* the test [if (!pair)] after [add_event] is never true *)
          _ ← upd val (fun v => set_pair client (set_type EV_IGNORE v));
          client ← (match client with Some c => mret c | None => fault NullDeref end);
          _ ← upd client (set_pair (Some pr));
          _ ← upd pr (set_pair (Some val));
          v ← item val;
          _ ← upd client (fun c => set_in6 (set_port (ev_in6 v) 0) (set_flag FLAG_CONN c));
          r ← sys (SysGetsockname cfd);
          if negb (r_ret r =? 0) then mret (-1) else
          '(len, s5r) ← lift (s5_set_addr (5 :: replicate 21 0) 0 22 (r_addr r) false);
          if len <? 0 then mret (-1) else
          r ← call (SysSend (ev_fd v) (sub s5r 0 len) 0);
          if r <? 0 then mret (-1) else
          r ← mod_etype val 0;
          if negb (r =? 0) then mret (-1) else mret 0
      end
  end.
