(* ===== verification/ConnProps.v ===== *)
(** Opening a connection leaks nothing: it fails with the descriptors that were
    open before, or leaves one more, that of a new registered event paired with
    the client. *)
From S2P Require Import Prelude CLib Packets Mpool Params World Stream Desync.
From S2P Require Import Conev ConevSpec ConevProps Socks SocksProps Cache Conn.

(** * Descriptors held

    [held w X]: since [w0] only descriptors have been opened and closed, and those
    of [X] are open. *)
Section Held.
Context (w0 : world).
Hypothesis Hreg : forall fd v, w_interest w0 !! fd = Some v -> fd ∈ w_fds w0.

Record held (w : world) (X : gset Z) : Prop := {
  hd_pool : w_pool w = w_pool w0;
  hd_interest : w_interest w = w_interest w0;
  hd_params : w_params w = w_params w0;
  hd_heap : w_heap w = w_heap w0;
  hd_buf : w_buf w = w_buf w0;
  hd_env : w_env w = w_env w0;
  hd_exit : w_not_exit w = w_not_exit w0;
  hd_fds : w_fds w = X ∪ w_fds w0;
  hd_new : X ## w_fds w0
}.

Lemma held_refl : held w0 ∅.
Proof. clear Hreg. split; try done; set_solver. Qed.

Definition plain (q : sysreq) : bool :=
  nofd q && match q with SysEpollCtl _ _ _ _ => false | _ => true end.

Lemma held_call q w X (Q : Z -> world -> Prop) :
  plain q = true -> held w X ->
  (forall r w', r = sane w q (w_env w (w_trace w) q) -> held w' X -> Q (r_ret r) w') -> wp (call q) Q w.
Proof.
  clear Hreg. intros Hq [] HQ. apply wp_call. intros r Hr. apply HQ; [done|].
  assert (Hk : exists e, kernel q r w = with_errno e w).
  { unfold kernel. destruct (r_ret r <? 0); [by eexists|]. exists (w_errno w). destruct q; try done; by destruct w. }
  destruct Hk as [e ->]. by split.
Qed.

Lemma held_open domain type w X (Q : Z -> world -> Prop) :
  held w X ->
  (forall w', held w' X -> Q (-1) w') ->
  (forall fd w', 2 < fd -> fd ∉ X -> fd ∉ w_fds w0 -> held w' ({[fd]} ∪ X) -> Q fd w') ->
  wp (call (SysSocket domain type)) Q w.
Proof.
  clear Hreg. intros [] H1 H2. apply wp_call. intros r Hr.
  destruct (decide (2 < r_ret r /\ r_ret r ∉ w_fds w)) as [[Hfd Hnew]|Hno].
  - apply H2; [done|set_solver|set_solver|]. unfold kernel. replace (r_ret r <? 0) with false by lia.
    split; try done; simpl; set_solver.
  - assert (Hm : r_ret r = -1).
    { rewrite Hr in Hno |- *. simpl in *. destruct (2 <? _) eqn:E1; simpl in *; [|done].
      destruct (bool_decide _) eqn:E2; [|done]. apply bool_decide_eq_true in E2. exfalso. apply Hno. split; [lia|done]. }
    rewrite Hm. apply H1. unfold kernel. rewrite Hm. by split.
Qed.

Lemma held_close fd w X (Q : unit -> world -> Prop) :
  held w ({[fd]} ∪ X) -> fd ∉ X -> (forall w', held w' X -> Q tt w') -> wp (close fd) Q w.
Proof.
  intros [] Hfd HQ. apply wp_close; [set_solver|]. intros r Hr. apply HQ.
  unfold kernel. rewrite Hr. simpl. split; simpl; try done; [|set_solver..].
  rewrite hd_interest0. apply delete_id. destruct (w_interest w0 !! fd) as [v|] eqn:E; [|done].
  apply Hreg in E. set_solver.
Qed.

(** A routine that gives back what it opens. *)
Definition balanced (m : io Z) : Prop :=
  forall w X, held w X -> wp m (fun r w' => held w' X /\ (r = 0 \/ r = -1)) w.

Lemma balanced_ret r : r = 0 \/ r = -1 -> balanced (mret r).
Proof. intros ? w X ?. by apply wp_ret. Qed.
Lemma balanced_call q f :
  plain q = true -> (forall r, balanced (f r)) -> balanced (r ← call q; f r).
Proof. intros Hq Hf w X Hw. apply wp_bind. eapply held_call; [done..|]. intros r w' _ Hw'. by apply Hf. Qed.
Lemma balanced_get {A} (g : world -> A) f : (forall a, balanced (f a)) -> balanced (a ← get g; f a).
Proof. intros Hf w X Hw. by apply wp_bind, wp_get, Hf. Qed.
Lemma balanced_bind m f :
  balanced m -> (forall r, r = 0 \/ r = -1 -> balanced (f r)) -> balanced (r ← m; f r).
Proof.
  intros Hm Hf w X Hw. apply wp_bind. eapply wp_mono; [by apply Hm|]. intros r w' [Hw' Hr]. by apply Hf.
Qed.

Lemma setttl_balanced fd ttl fa : balanced (setttl fd ttl fa).
Proof.
  unfold setttl. case_match; (apply balanced_call; [done|]); intros r; apply balanced_ret; ccase; auto.
Qed.

(** From the socket on, with the descriptor [fd] held: it is closed at the end. *)
Definition closes (fd : Z) (m : io Z) : Prop :=
  forall w X, held w ({[fd]} ∪ X) -> fd ∉ X -> wp m (fun r w' => held w' X /\ (r = 0 \/ r = -1)) w.
Lemma closes_call fd q f : plain q = true -> (forall r, closes fd (f r)) -> closes fd (r ← call q; f r).
Proof. intros Hq Hf w X Hw Hx. apply wp_bind. eapply held_call; [done..|]. intros r w' _ Hw'. by apply Hf. Qed.
Lemma closes_ret fd r : r = 0 \/ r = -1 -> closes fd (_ ← close fd; mret r).
Proof. intros Hr w X Hw Hx. apply wp_bind. eapply held_close; [done..|]. intros w' Hw'. by apply wp_ret. Qed.

Lemma protect_balanced fd path : zlen path < sizeof_sun_path -> balanced (protect fd path).
Proof.
  intros Hp w X Hw. unfold protect. replace (sizeof_sun_path <? zlen path + 1) with false by lia.
  apply wp_bind, wp_ret. cbn zeta. apply wp_bind. eapply held_open; [done|..].
  { intros w1 H1. replace (-1 <? 0) with true by lia. apply wp_ret. auto. }
  intros s w1 Hs Hx _ H1. replace (s <? 0) with false by lia.
  match goal with |- wp ?m _ _ => enough (Hc : closes s m) by (by apply Hc) end.
  apply closes_call; [done|]. intros _. apply closes_call; [done|]. intros _.
  apply closes_call; [done|]. intros r1. ccase; [by apply closes_ret; auto|].
  apply closes_call; [done|]. intros r2. ccase; [by apply closes_ret; auto|].
  apply closes_call; [done|]. intros r3. ccase; by apply closes_ret; auto.
Qed.

Lemma socket_mod_balanced fd dst :
  (forall path, ps_protect_path (w_params w0) = Some path -> zlen path < sizeof_sun_path) ->
  balanced (socket_mod fd dst).
Proof.
  intros Hp w X Hw. unfold socket_mod. apply wp_bind, wp_get. rewrite (hd_params _ _ Hw).
  apply wp_bind. eapply wp_mono with (Q := fun r w' => held w' X /\ (r = 0 \/ r = -1)).
  - ccase; [by apply setttl_balanced|]. apply wp_ret. auto.
  - intros r w' [Hw' Hr]. ccase; [apply wp_ret; auto|].
    destruct (ps_protect_path _) as [path|]; [by apply protect_balanced; auto|]. apply wp_ret. auto.
Qed.

(** From the socket on: it is given back on failure. *)
Definition opens (fd : Z) (m : io Z) : Prop :=
  forall w X, held w ({[fd]} ∪ X) -> fd ∉ X ->
    wp m (fun r w' => r = -1 /\ held w' X \/ r = fd /\ held w' ({[fd]} ∪ X)) w.
Lemma opens_fail fd : opens fd (fail_close fd).
Proof. intros w X Hw Hx. apply wp_bind. eapply held_close; [done..|]. intros w' Hw'. apply wp_ret. auto. Qed.
Lemma opens_done fd : opens fd (mret fd).
Proof. intros w X Hw Hx. apply wp_ret. auto. Qed.
Lemma opens_get {A} fd (g : world -> A) f : (forall a, opens fd (f a)) -> opens fd (a ← get g; f a).
Proof. intros Hf w X Hw Hx. by apply wp_bind, wp_get, Hf. Qed.
(** A step of the set-up, after which the socket is closed or used. *)
Lemma opens_step fd m f : balanced m -> (forall r, r = 0 \/ r = -1 -> opens fd (f r)) -> opens fd (r ← m; f r).
Proof.
  intros Hm Hf w X Hw Hx. apply wp_bind. eapply wp_mono; [by apply Hm|]. intros r w' [Hw' Hr]. by apply Hf.
Qed.

(** Option and address calls answer 0 or -1. *)
Lemma balanced_status q :
  plain q = true -> (forall w r, r_ret (sane w q r) = 0 \/ r_ret (sane w q r) = -1) -> balanced (call q).
Proof. intros Hq Hr w X Hw. eapply held_call; [done..|]. intros r w' -> Hw'. auto. Qed.
Lemma setsockopt_balanced fd level opt v : balanced (call (SysSetsockopt fd level opt v)).
Proof. apply balanced_status; [done|]. intros w r. simpl. ccase; auto. Qed.
Lemma bind_balanced fd a : balanced (call (SysBind fd a)).
Proof. apply balanced_status; [done|]. intros w r. simpl. ccase; auto. Qed.

Lemma conn_options_balanced fd : balanced (conn_options fd).
Proof.
  unfold conn_options. apply balanced_bind; [apply setsockopt_balanced|]. intros r1 _.
  ccase; [apply balanced_ret; auto|]. apply balanced_get. intros ps.
  apply balanced_bind; [case_match; [apply setsockopt_balanced|apply balanced_ret; auto]|]. intros r2 _.
  ccase; [apply balanced_ret; auto|].
  apply balanced_bind; [apply setsockopt_balanced|]. intros r3 _. ccase; apply balanced_ret; auto.
Qed.

Hypothesis Hpath : forall path, ps_protect_path (w_params w0) = Some path -> zlen path < sizeof_sun_path.

Lemma conn_socket_wp addr :
  wp (conn_socket addr) (fun r w' => r = -1 /\ held w' ∅ \/
    2 < r /\ r ∉ w_fds w0 /\ held w' {[r]}) w0.
Proof.
  unfold conn_socket, nb_socket. apply wp_bind, wp_bind. eapply held_open; [apply held_refl|..].
  { intros w1 H1. replace (-1 <? 0) with true by lia. apply wp_ret. replace (-1 <? 0) with true by lia.
    apply wp_ret. auto. }
  intros fd w1 Hfd _ Hnew H1. replace (fd <? 0) with false by lia. apply wp_ret.
  replace (fd <? 0) with false by lia.
  match goal with |- wp ?m _ _ => enough (Ho : opens fd m) end.
  { eapply wp_mono; [apply (Ho w1 ∅); [done|set_solver]|]. intros r w' [[-> Hw']|[-> Hw']]; [by left|right].
    rewrite union_empty_r_L in Hw'. done. }
  apply opens_step; [by apply socket_mod_balanced|]. intros r1 _. ccase; [apply opens_fail|].
  apply opens_step; [case_match; [apply setsockopt_balanced|apply balanced_ret; auto]|]. intros r2 _.
  ccase; [apply opens_fail|]. apply opens_get. intros ps.
  apply opens_step; [apply bind_balanced|]. intros r3 _. ccase; [apply opens_fail|].
  apply opens_step; [apply conn_options_balanced|]. intros r4 _. ccase; [apply opens_fail|apply opens_done].
Qed.
End Held.

(** * The pool *)

(** Closing a descriptor that no event has. *)
Lemma pool_ok_close w w' fd :
  pool_ok w -> w_interest w !! fd = None -> fd <> ph_efd (w_pool w) -> w_pool w' = w_pool w ->
  w_interest w' = w_interest w -> w_fds w' = w_fds w ∖ {[fd]} -> pool_ok w'.
Proof.
  intros Hw Hn He Hp Hi Hf. pose proof (po_efd w Hw) as (E1 & E2 & E3).
  split; rewrite ?Hp, ?Hi, ?Hf; try apply Hw.
  - intros x v Hx. destruct (po_events w Hw x v Hx) as (e & Hv & []). exists e. split; [done|].
    split; rewrite ?Hp, ?Hi, ?Hf; try done. apply elem_of_difference. split; [done|].
    intros Heq%elem_of_singleton. congruence.
  - split; [done|]. split; [set_solver|done].
Qed.
Lemma pool_registered w fd v : pool_ok w -> w_interest w !! fd = Some v -> fd ∈ w_fds w.
Proof.
  intros Hw Hv. destruct (po_interest w Hw fd v Hv) as ([x Hx] & e & He & <-).
  destruct (po_events w Hw x v Hx) as (e' & He' & []). congruence.
Qed.

(** A new event paired with one that had no pair. *)
Lemma pairs_link p p' v q :
  pairs_ok p -> active p v -> pair_at p v = None -> ~ active p q -> 
  (forall u, active p' u <-> active p u \/ u = q) ->
  pair_at p' v = Some q -> pair_at p' q = Some v ->
  (forall u, active p u -> u <> v -> pair_at p' u = pair_at p u) -> pairs_ok p'.
Proof.
  intros [Hl Hi] Hv Hn Hq Ha Hpv Hpq Hrest. assert (Hvq : v <> q) by (by intros ->).
  assert (Hold : forall u r, active p' u -> u <> v -> u <> q -> pair_at p' u = Some r ->
    active p u /\ pair_at p u = Some r /\ r <> q /\ r <> v /\ active p r /\ r <> u).
  { intros u r Hu Huv Huq Hr. apply Ha in Hu as [Hu|]; [|done]. rewrite Hrest in Hr by done.
    destruct (Hl u r Hu Hr) as (Hra & Hru & Hrs). split_and!; try done.
    - by intros ->.
    - intros ->. rewrite Hn in Hrs. by destruct Hrs. }
  split.
  - intros u r Hu Hr. destruct (decide (u = v)) as [->|Huv].
    { assert (r = q) as -> by congruence. split; [apply Ha; auto|]. split; [done|]. by exists v. }
    destruct (decide (u = q)) as [->|Huq].
    { assert (r = v) as -> by congruence. split; [apply Ha; auto|]. split; [done|]. by exists q. }
    destruct (Hold u r Hu Huv Huq Hr) as (Hua & Hpr & Hrq & Hrv & Hra & Hru).
    split; [apply Ha; auto|]. split; [done|]. rewrite Hrest by done. apply (Hl u r Hua Hpr).
  - intros u1 u2 r H1 H2 E1 E2.
    destruct (decide (u1 = v)) as [->|N1], (decide (u2 = v)) as [->|N2]; try done.
    + assert (r = q) as -> by congruence. destruct (decide (u2 = q)) as [->|M2]; [congruence|].
      by destruct (Hold u2 q H2 N2 M2 E2) as (_ & _ & ? & _).
    + assert (r = q) as -> by congruence. destruct (decide (u1 = q)) as [->|M1]; [congruence|].
      by destruct (Hold u1 q H1 N1 M1 E1) as (_ & _ & ? & _).
    + destruct (decide (u1 = q)) as [->|M1], (decide (u2 = q)) as [->|M2]; try done.
      * assert (r = v) as -> by congruence. by destruct (Hold u2 v H2 N2 M2 E2) as (_ & _ & _ & ? & _).
      * assert (r = v) as -> by congruence. by destruct (Hold u1 v H1 N1 M1 E1) as (_ & _ & _ & ? & _).
      * destruct (Hold u1 r H1 N1 M1 E1) as (A1 & P1 & _), (Hold u2 r H2 N2 M2 E2) as (A2 & P2 & _).
        by eapply Hi.
Qed.

(** [connected w w' v q fd next dst]: [v] got the new event [q] as its pair. *)
Record connected (w w' : world) (v q : nat) (fd : Z) (next : eid) (dst : sockaddr) : Prop := {
  cn_new : fd ∉ w_fds w;
  cn_fds : w_fds w' = {[fd]} ∪ w_fds w;
  cn_fresh : ~ active (w_pool w) q;
  cn_active : forall u, active (w_pool w') u <-> active (w_pool w) u \/ u = q;
  cn_remote : exists x, ph_items (w_pool w') !! q = Some x /\ ev_fd x = fd /\ ev_type x = next /\
    ev_pair x = Some v /\ ev_flag x = FLAG_CONN /\ ev_in6 x = dst /\ ev_buff x = no_buffer;
  cn_client : forall e, ph_items (w_pool w) !! v = Some e ->
    ph_items (w_pool w') !! v = Some (set_type EV_IGNORE (set_pair (Some q) e));
  cn_others : forall u, active (w_pool w) u -> u <> v ->
    ph_items (w_pool w') !! u = ph_items (w_pool w) !! u
}.

(** Nothing has happened that lasts. *)
Record nothing (w w' : world) : Prop := {
  no_fds : w_fds w' = w_fds w;
  no_active : forall u, active (w_pool w') u <-> active (w_pool w) u;
  no_items : forall u, active (w_pool w) u -> ph_items (w_pool w') !! u = ph_items (w_pool w) !! u
}.

Lemma held_pool_ok w w' X : pool_ok w -> held w w' X -> pool_ok w' /\ outside w w'.
Proof.
  intros Hw []. split.
  - eapply pool_ok_ext; [exact Hw|done|rewrite hd_fds0; set_solver|done].
  - split; rewrite ?hd_pool0; try done. intros v e He. eauto.
Qed.
Lemma held_nothing w w' : held w w' ∅ -> nothing w w'.
Proof. intros []. split; rewrite ?hd_pool0, ?hd_fds0; try done. set_solver. Qed.

Lemma upd_patch v f e (Q : unit -> world -> Prop) w :
  pool_ok w -> active (w_pool w) v -> ph_items (w_pool w) !! v = Some e ->
  ev_fd (f e) = ev_fd e -> ev_index (f e) = ev_index e -> ev_mod_iter (f e) = ev_mod_iter e ->
  ev_buff (f e) = ev_buff e ->
  (forall w', pool_ok w' -> outside w w' -> w_fds w' = w_fds w ->
     (forall u, active (w_pool w') u <-> active (w_pool w) u) ->
     ph_items (w_pool w') !! v = Some (f e) ->
     (forall u, u <> v -> ph_items (w_pool w') !! u = ph_items (w_pool w) !! u) -> Q tt w') ->
  wp (upd v f) Q w.
Proof.
  intros Hw [x Hx] Hv H1 H2 H3 H4 HQ. eapply wp_upd; [done|].
  destruct (po_events w Hw x v Hx) as (e' & He' & Hok). assert (e' = e) as -> by congruence.
  destruct (patch_ok w v e (f e)) as [Hw' Ho']; try done; [rewrite H4; apply Hok|].
  apply HQ; try done; simpl.
  - rewrite list_lookup_insert_eq; [done|]. by eapply lookup_lt_Some.
  - intros u Hu. by rewrite list_lookup_insert_ne.
Qed.

Section Create.
Context (w : world) (v : nat) (dst : sockaddr) (next : eid).
Hypothesis Hw : pool_ok w.
Hypothesis Hk : pairs_ok (w_pool w).
Hypothesis Hv : active (w_pool w) v.
Hypothesis Hn : pair_at (w_pool w) v = None.
Hypothesis Hpath : forall path, ps_protect_path (w_params w) = Some path -> zlen path < sizeof_sun_path.

(** What [create_conn] comes to. *)
Definition conn_outcome (r : Z) (w' : world) : Prop :=
  pool_ok w' /\ outside w w' /\ pairs_ok (w_pool w') /\
  (r = -1 /\ nothing w w' \/ r = 0 /\ exists q fd, connected w w' v q fd next dst).

Lemma nothing_pairs w' : nothing w w' -> pairs_ok (w_pool w').
Proof.
  intros [_ Ha Hi]. assert (Hp : forall u, active (w_pool w) u -> pair_at (w_pool w') u = pair_at (w_pool w) u).
  { intros u Hu. unfold pair_at. by rewrite Hi. }
  split.
  - intros u r Hu Hr. apply Ha in Hu. rewrite Hp in Hr by done. destruct (pa_live _ Hk u r Hu Hr) as (H1 & H2 & H3).
    split; [by apply Ha|]. by rewrite Hp.
  - intros u1 u2 r H1 H2 E1 E2. apply Ha in H1, H2. rewrite Hp in E1, E2 by done. exact (pa_inj _ Hk u1 u2 r H1 H2 E1 E2).
Qed.
Lemma held_fail w' : held w w' ∅ -> conn_outcome (-1) w'.
Proof.
  intros Hh. destruct (held_pool_ok w w' ∅ Hw Hh). pose proof (held_nothing _ _ Hh).
  split; [done|]. split; [done|]. split; [by apply nothing_pairs|]. by left.
Qed.
Lemma fresh_fd fd : fd ∉ w_fds w -> w_interest w !! fd = None /\ fd <> ph_efd (w_pool w).
Proof.
  intros Hfd. split.
  - destruct (w_interest w !! fd) as [u|] eqn:E; [|done]. by apply pool_registered in E.
  - intros ->. by destruct (po_efd w Hw) as (_ & ? & _).
Qed.

(** After the event was added. *)
Lemma conn_link w2 w3 fd q :
  2 < fd -> fd ∉ w_fds w -> held w w2 {[fd]} -> add_result w2 next fd (Some q) w3 ->
  wp (_ ← upd v (set_pair (Some q));
      _ ← upd q (fun e => set_flag FLAG_CONN (set_in6 dst (set_pair (Some v) e)));
      _ ← upd v (set_type EV_IGNORE); mret 0) conn_outcome w3.
Proof.
  intros Hfd Hnew Hh (Hw3 & Ho3 & Hf3 & Hi3 & Hna & Ha3 & Hq3).
  pose proof (hd_pool _ _ _ Hh) as Hp2. rewrite Hp2 in Hna, Hq3, Hi3, Ha3.
  assert (Hvq : v <> q) by (by intros ->).
  destruct Hv as [x Hx]. destruct (po_events w Hw x v Hx) as (e & He & _).
  apply wp_bind. eapply upd_patch; [exact Hw3|by apply Ha3; left|by rewrite Hi3|done..|].
  intros w4 Hw4 Ho4 Hf4 Ha4 Hv4 Hr4.
  apply wp_bind. eapply upd_patch; [exact Hw4|by apply Ha4, Ha3; right|by rewrite Hr4|done..|].
  intros w5 Hw5 Ho5 Hf5 Ha5 Hq5 Hr5.
  apply wp_bind. eapply upd_patch; [exact Hw5|by apply Ha5, Ha4, Ha3; left|by rewrite Hr5|done..|].
  intros w6 Hw6 Ho6 Hf6 Ha6 Hv6 Hr6. apply wp_ret.
  assert (Hact : forall u, active (w_pool w6) u <-> active (w_pool w) u \/ u = q).
  { intros u. by rewrite Ha6, Ha5, Ha4, Ha3. }
  assert (Hrest : forall u, active (w_pool w) u -> u <> v -> ph_items (w_pool w6) !! u = ph_items (w_pool w) !! u).
  { intros u Hu Huv. assert (u <> q) by (by intros ->). by rewrite Hr6, Hr5, Hr4, Hi3. }
  assert (Hq6 : ph_items (w_pool w6) !! q = ph_items (w_pool w5) !! q) by (by apply Hr6).
  rewrite Hq5 in Hq6. split; [done|]. split.
  { destruct (held_pool_ok w w2 _ Hw Hh) as [_ Ho2]. eapply outside_trans; [exact Ho2|].
    eapply outside_trans; [exact Ho3|]. eapply outside_trans; [exact Ho4|]. by eapply outside_trans. }
  split; [|right].
  - eapply (pairs_link (w_pool w) _ v q); try done.
    + unfold pair_at. by rewrite Hv6.
    + unfold pair_at. by rewrite Hq6.
    + intros u Hu Huv. unfold pair_at. by rewrite Hrest.
  - split; [done|]. exists q, fd. split; try done.
    + rewrite Hf6, Hf5, Hf4, Hf3. apply Hh.
    + eexists. split; [exact Hq6|]. done.
    + intros e' He'. assert (e' = e) as -> by congruence. exact Hv6.
Qed.

Lemma create_conn_wp : wp (create_conn v dst next) conn_outcome w.
Proof.
  unfold create_conn. apply wp_bind, wp_get. set (addr := map_fix _ _). cbn zeta.
  ccase; [apply wp_ret; apply held_fail, held_refl|].
  apply wp_bind. eapply wp_mono; [apply conn_socket_wp; [intros fd u; by apply pool_registered|done]|].
  intros fd w1 [[-> H1]|(Hfd & Hnew & H1)].
  { replace (-1 <? 0) with true by lia. apply wp_ret. by apply held_fail. }
  replace (fd <? 0) with false by lia. destruct (fresh_fd fd Hnew) as [Hi He].
  apply wp_bind. eapply held_call; [done|exact H1|]. intros r w2 _ H2. apply wp_bind, wp_get.
  assert (Hfail : forall w3, held w w3 {[fd]} -> wp (fail_close fd) conn_outcome w3).
  { intros w3 H3. apply wp_bind. eapply (held_close w); [intros ? ?; by apply pool_registered|..].
    - by rewrite union_empty_r_L.
    - set_solver.
    - intros w4 H4. apply wp_ret. by apply held_fail. }
  ccase; [by apply Hfail|].
  destruct (held_pool_ok w w2 _ Hw H2) as [Hw2 Ho2].
  apply wp_bind. eapply wp_mono; [apply add_event_spec; [done|lia|..]|].
  - rewrite (hd_fds _ _ _ H2). set_solver.
  - by rewrite (hd_interest _ _ _ H2).
  - by rewrite (hd_pool _ _ _ H2).
  - intros [q|] w3 Hadd; [by eapply conn_link|].
    destruct Hadd as (Hw3 & Ho3 & Hf3 & Hi3 & Hin3 & Ha3).
    pose proof (hd_pool _ _ _ H2) as Hp2. pose proof (hd_interest _ _ _ H2) as Hi2. pose proof (hd_fds _ _ _ H2) as Hf2.
    apply wp_bind, wp_close; [rewrite Hf3, Hf2; set_solver|]. intros rc Hrc. apply wp_ret.
    set (w4 := with_trace _ _).
    assert (Hp4 : w_pool w4 = w_pool w3) by (unfold w4; simpl; apply kernel_pool).
    assert (Hi4 : w_interest w4 = w_interest w3).
    { unfold w4, kernel. rewrite Hrc. simpl. by rewrite delete_id by (by rewrite Hin3, Hi2). }
    assert (Hf4 : w_fds w4 = w_fds w3 ∖ {[fd]}) by (unfold w4, kernel; by rewrite Hrc).
    assert (Hno : nothing w w4).
    { split; rewrite ?Hp4.
      - rewrite Hf4, Hf3, Hf2. apply set_eq. intros g. rewrite elem_of_difference, elem_of_union, elem_of_singleton.
        destruct (decide (g = fd)); naive_solver.
      - intros u. rewrite Ha3. by rewrite Hp2.
      - intros u Hu. rewrite Hi3 by (by rewrite Hp2). by rewrite Hp2. }
    split; [|split; [|split]].
    + eapply (pool_ok_close w3); try done; [by rewrite Hin3, Hi2|]. rewrite (ou_efd _ _ Ho3). by rewrite Hp2.
    + eapply outside_trans; [exact Ho2|]. eapply outside_trans; [exact Ho3|]. apply outside_sys.
    + by apply nothing_pairs.
    + by left.
Qed.
End Create.

(** * Properties *)

(** The batch of events survives an operation that keeps the events in use. *)
Lemma batch_ok_outcome w w' v dst next r offs :
  pool_ok w -> batch_ok w offs -> conn_outcome w v dst next r w' -> batch_ok w' offs.
Proof.
  intros Hw Hb (Hw' & Ho & _ & Hc). apply (batch_ok_keep w); [done..| |].
  - intros u e Hu He. destruct Hc as [[_ [_ Ha Hi]]|[_ (q & fd & [])]].
    + exists e. rewrite Hi by done. split; [done|]. left. by apply Ha.
    + destruct (decide (u = v)) as [->|Huv].
      * eexists. split; [by apply cn_client0|]. left. apply cn_active0. auto.
      * exists e. rewrite cn_others0 by done. split; [done|]. left. apply cn_active0. auto.
  - intros u e He. apply lookup_lt_is_Some_2. apply lookup_lt_Some in He.
    pose proof (po_items w Hw). pose proof (po_items w' Hw'). pose proof (ou_max _ _ Ho). lia.
Qed.

(** C18: connecting leaks nothing.  For every system and every failure on the way
    (socket, options, the VPN service, bind, connect, the pool) [create_conn] is
    defined and either returns -1 with exactly the descriptors and events of
    before, or returns 0 with one descriptor more, that of a new registered event
    for the server which is paired with the client's; the invariant of the pool,
    of the pairs and of the current batch is kept. *)
Theorem create_conn_no_leak (w : world) (v : nat) (dst : sockaddr) (next : eid) (offs : Z) :
  pool_ok w -> pairs_ok (w_pool w) -> batch_ok w offs -> active (w_pool w) v ->
  pair_at (w_pool w) v = None ->
  (forall path, ps_protect_path (w_params w) = Some path -> zlen path < sizeof_sun_path) ->
  exists r w', create_conn v dst next w = Ok (r, w') /\ pool_ok w' /\ pairs_ok (w_pool w') /\
    batch_ok w' offs /\
    (r = -1 /\ nothing w w' \/ r = 0 /\ exists q fd, connected w w' v q fd next dst).
Proof.
  intros Hw Hk Hb Hv Hn Hp.
  destruct (wp_Ok _ _ _ (create_conn_wp w v dst next Hw Hk Hv Hn Hp)) as (r & w' & E & Hc).
  exists r, w'. split; [done|]. pose proof (batch_ok_outcome _ _ _ _ _ _ _ Hw Hb Hc).
  by destruct Hc as (? & ? & ? & ?).
Qed.

(** The listening event of the sample stands for a client without a pair; the
    program is protected by a VPN service that answers. *)
Definition sample_protected : world :=
  let w := sample_proxy in
  World (fun tr q => match q with SysRecv _ _ => Rsp 1 0 [1] [] [] | _ => env_ok tr q end)
    (w_trace w) (w_errno w) (w_fds w) (w_interest w) (w_heap w)
    (put_baddr (set_family zero_addr AF_INET)
      (put_protect_path (Some (chars "/data/protect_path")) (w_params w)))
    (w_pool w) (w_buf w) (w_not_exit w).
Lemma create_conn_no_leak_witness :
  exists r w', create_conn 0 ([2; 0; 1; 187; 93; 184; 216; 34] ++ replicate 20 0) EV_CONNECT sample_protected
      = Ok (r, w') /\ pool_ok w' /\ w_fds w' = {[18]} ∪ w_fds sample_protected.
Proof.
  destruct (create_conn_no_leak sample_protected 0 ([2; 0; 1; 187; 93; 184; 216; 34] ++ replicate 20 0) EV_CONNECT (-1))
    as (r & w' & E & Hok & _ & _ & Hc).
  - apply pool_okb_spec. vm_compute. reflexivity.
  - apply pairs_okb_spec; [vm_compute; congruence|vm_compute; reflexivity].
  - split; [vm_compute; split; congruence|]. intros i Hi. lia.
  - apply active_list_spec; [vm_compute; congruence|]. vm_compute.
    by apply (bool_decide_eq_true_1 (0%nat ∈ [0; 1; 2]%nat)).
  - reflexivity.
  - intros path [= <-]. vm_compute. reflexivity.
  - exists r, w'. split; [exact E|]. split; [exact Hok|].
    apply (f_equal (fun x => match x with Ok (_, w) => bool_decide (w_fds w = {[18]} ∪ w_fds sample_protected) | _ => false end)) in E.
    refine (bool_decide_eq_true_1 (w_fds w' = {[18]} ∪ w_fds sample_protected) _).
    rewrite <- E. vm_compute. reflexivity.
Defined.
