(* ===== verification/Extend.v ===== *)
(** extend.c, second part: connecting, choosing a group for a packet, and
    falling back to the next group when the answer looks blocked. *)
From S2P Require Import Prelude CLib Packets Mpool Params World Desync Conev Socks Cache Conn.

Definition connect_hook (val : nat) (dst : sockaddr) (next : eid) : io Z :=
  m ← mode_add_get dst (-1);
  _ ← upd val (fun v => set_attempt (if m <? 0 then 0 else m) (set_cache (m =? 0) v));
  create_conn val dst next.

Definition reconnect (val : nat) (m : Z) : io Z :=
  client ← pair_of val;
  v ← item val;
  r ← create_conn client (ev_in6 v) EV_DESYNC;
  if negb (r =? 0) then mret (-1) else
  _ ← upd val (set_pair None);
  _ ← del_event val;
  _ ← upd client (fun c =>
        set_buff (Buffer (b_size (ev_buff c)) 0 (b_data (ev_buff c)))
          (set_cache true (set_attempt m (set_type EV_IGNORE c))));
  mret 0.

(** * Choosing the next group

    The loops run [m] from the next attempt to [dp_count]; [l] are the groups
    from [m] on. *)
Inductive choice : Type := Chosen (m : Z) | Stop | Exhausted.

Fixpoint torst_loop (l : list desync_params) (m : Z) : choice :=
  match l with
  | [] => Exhausted
  | dp :: l =>
      if dp_detect dp =? 0 then Stop
      else if negb (Z.land (dp_detect dp) DETECT_TORST =? 0) then Chosen m
      else torst_loop l (m + 1)
  end.
(** The groups from [m] on. *)
Definition dp_from (m : Z) : io (list desync_params) :=
  ps ← get w_params;
  if (m <? 0) && (m <? dp_count ps) then fault OutOfBounds else mret (drop (Z.to_nat m) (ps_dp ps)).

Definition on_torst (val : nat) : io Z :=
  p ← pair_of val;
  c ← item p;
  let m := ev_attempt c + 1 in
  l ← dp_from m;
  match torst_loop l m with
  | Stop => mret (-1)
  | Exhausted =>
      v ← item val;
      _ ← mode_add_get (ev_in6 v) 0;
      mret (-1)
  | Chosen m => reconnect val m
  end.

(** The first request of the client, kept in its event. *)
Definition request_of (val : nat) : io eval := p ← pair_of val; item p.

Fixpoint fin_loop (l : list desync_params) (m : Z) (c : eval) : res choice :=
  match l with
  | [] => mret Exhausted
  | dp :: l =>
      if dp_detect dp =? 0 then mret Stop
      else if Z.land (dp_detect dp) DETECT_TLS_ERR =? 0 then fin_loop l (m + 1) c
      else
        req ← buff_data c;
        t ← is_tls_chello req (b_size (ev_buff c));
        if negb t then fin_loop l (m + 1) c else mret (Chosen m)
  end.
Definition on_fin (val : nat) : io Z :=
  c ← request_of val;
  let m := ev_attempt c + 1 in
  l ← dp_from m;
  x ← lift (fin_loop l m c);
  match x with Chosen m => reconnect val m | _ => mret (-1) end.

Definition tls_error (req : list Z) (qn : Z) (resp : list Z) (sn : Z) : res bool :=
  h ← is_tls_chello req qn;
  x ← (if (h : bool) then s ← is_tls_shello resp sn; mret (negb s) else mret false);
  if (x : bool) then mret true else neq_tls_sid req qn resp sn.

(** [data] is the buffer of the client, whose pointer is null only when it has
    sent nothing. *)
Fixpoint response_loop (l : list desync_params) (m : Z) (c : eval) (resp : list Z) (sn : Z)
    : res choice :=
  match l with
  | [] => mret Exhausted
  | dp :: l =>
      let qn := b_size (ev_buff c) in
      if dp_detect dp =? 0 then mret Stop else
      redirect ← (if negb (Z.land (dp_detect dp) DETECT_HTTP_LOCAT =? 0)
                  then req ← buff_data c; is_http_redirect req qn resp sn else mret false);
      if (redirect : bool) then mret (Chosen m) else
      err ← (if negb (Z.land (dp_detect dp) DETECT_TLS_ERR =? 0)
             then req ← buff_data c; tls_error req qn resp sn else mret false);
      if (err : bool) then mret (Chosen m) else response_loop l (m + 1) c resp sn
  end.
Definition on_response (val : nat) (sn : Z) : io Z :=
  c ← request_of val;
  let m := ev_attempt c + 1 in
  l ← dp_from m;
  b ← get w_buf;
  x ← lift (response_loop l m c b sn);
  match x with Chosen m => reconnect val m | _ => mret (-1) end.

(** * The tunnel *)
Definition to_tunnel (client : nat) : io unit :=
  p ← pair_of client;
  _ ← upd p (set_type EV_TUNNEL);
  _ ← upd client (set_type EV_TUNNEL);
  c ← item client;
  _ ← c_assert (bool_decide (b_data (ev_buff c) <> None));
  upd client (set_buff no_buffer).

(** [recv] into the work buffer at offset [off]. *)
Definition recv_at (fd off len : Z) : io Z :=
  r ← sys (SysRecv fd (size_t len));
  _ ← (if r_ret r <? 0 then mret tt else buf_put off (r_data r));
  mret (r_ret r).

(** The first answer of a server. *)
Definition on_tunnel_check (val : nat) (bfsize out : Z) : io Z :=
  _ ← c_assert (out =? 0);
  v ← item val;
  n ← recv_at (ev_fd v) 0 bfsize;
  if n <? 1 then
    e ← get_e;
    if (e =? ECONNRESET) || (e =? ECONNREFUSED) || (e =? ETIMEDOUT) then on_torst val
    else on_fin val
  else
  r ← on_response val n;
  if r =? 0 then mret 0 else
  _ ← upd val (fun v => set_recv_count (ev_recv_count v + n) v);
  pr ← pair_of val;
  p ← item pr;
  d ← buf_get 0 n;
  sn ← call (SysSend (ev_fd p) d 0);
  if negb (n =? sn) then mret (-1) else
  _ ← to_tunnel pr;
  ps ← get w_params;
  r ← (if negb (ps_timeout ps =? 0) then set_timeout (ev_fd v) 0 else mret 0);
  if negb (r =? 0) then mret (-1) else
  let m := ev_attempt p in
  r ← post_desync (ev_fd v) m;
  if negb (r =? 0) then mret (-1) else
  if negb (ev_cache p) then mret 0 else mode_add_get (ev_in6 v) m.

(** The socket [val] can be written, or its peer has new data. *)
Definition on_desync_again (val : nat) (bfsize : Z) : io Z :=
  v ← item val;
  r ← (if ev_flag v =? FLAG_CONN then
         r ← mod_etype val POLLIN;
         if negb (r =? 0) then mret None else p ← pair_of val; mret (Some p)
       else mret (Some val));
  match r with
  | None => mret (-1)
  | Some val =>
      v ← item val;
      let m := ev_attempt v in
      let n := b_size (ev_buff v) in
      ps ← get w_params;
      _ ← c_assert ((0 <? n) && (n <=? ps_bfsize ps));
      data ← lift (buff_data v);
      data ← lift (rdn data 0 n);
      _ ← buf_put 0 data;
      pr ← pair_of val;
      p ← item pr;
      r ← (if negb (ps_timeout ps =? 0) then set_timeout (ev_fd p) (ps_timeout ps) else mret 0);
      if negb (r =? 0) then mret (-1) else
      sn ← desync (ev_fd p) bfsize n (b_offset (ev_buff v)) (ev_in6 p) m;
      if sn <? 0 then mret (-1) else
      _ ← upd val (fun v => set_buff (Buffer (b_size (ev_buff v)) (s32 (b_offset (ev_buff v) + sn))
                                        (b_data (ev_buff v))) v);
      if sn <? n then
        r ← mod_etype pr POLLOUT;
        if negb (r =? 0) then mret (-1) else
        _ ← upd pr (set_type EV_DESYNC);
        mret 0
      else
        _ ← upd pr (set_type EV_PRE_TUNNEL);
        mret 0
  end.

(** The group for a packet, [m] is the index of the first of [l]. *)
Fixpoint select_tcp (l : list desync_params) (m : Z) (addr : res sockaddr) (val : eval) : res (option Z) :=
  match l with
  | [] => mret None
  | dp :: l =>
      t ← takes_tcp dp addr val;
      if (t : bool) then mret (Some m) else select_tcp l (m + 1) addr val
  end.
Fixpoint select_udp (l : list desync_params) (m : Z) (addr : sockaddr) : option Z :=
  match l with
  | [] => None
  | dp :: l => if takes_udp dp addr then Some m else select_udp l (m + 1) addr
  end.

(** [val->pair->in6] *)
Definition pair_addr (items : list eval) (v : eval) : res sockaddr :=
  match ev_pair v with
  | None => Fault NullDeref
  | Some p => match items !! p with Some e => Ok (ev_in6 e) | None => Fault OutOfBounds end
  end.

(** [realloc] and the copy: [n] bytes of the work buffer are appended. *)
Definition append_buff (val : nat) (n : Z) : io Z :=
  v ← item val;
  let size := b_size (ev_buff v) in
  ok ← call (SysAlloc size);
  if ok <? 0 then
    _ ← free_buff val; mret (-1)
  else
    old ← lift (match b_data (ev_buff v) with Some d => rdn d 0 (size - n) | None => mret [] end);
    d ← buf_get 0 n;
    _ ← upd val (set_buff (Buffer size (b_offset (ev_buff v)) (Some (old ++ d))));
    mret 0.

Definition on_desync (val : nat) (bfsize out : Z) : io Z :=
  if negb (out =? 0) then on_desync_again val bfsize else
  v ← item val;
  if size_t (b_size (ev_buff v)) =? bfsize then _ ← to_tunnel val; mret 0 else
  n ← recv_at (ev_fd v) 0 (bfsize - b_size (ev_buff v));
  if n <=? 0 then mret (-1) else
  _ ← upd val (fun v => set_recv_count (ev_recv_count v + n)
                 (set_buff (Buffer (b_size (ev_buff v) + n) (b_offset (ev_buff v)) (b_data (ev_buff v))) v));
  r ← append_buff val n;
  if r <? 0 then mret (-1) else
  v ← item val;
  ps ← get w_params;
  m ← (if ev_attempt v =? 0 then
         l ← get (fun w => ph_items (w_pool w));
         lift (select_tcp (ps_dp ps) 0 (pair_addr l v) v)
       else mret (if dp_count ps <=? ev_attempt v then None else Some (ev_attempt v)));
  match m with
  | None => mret (-1)
  | Some m => _ ← upd val (set_attempt m); on_desync_again val bfsize
  end.

(** The packet of [n] bytes at offset [off] of the work buffer. *)
Definition udp_hook (val : nat) (off n : Z) (dst : sockaddr) : io Z :=
  v ← item val;
  if negb (ev_recv_count v =? 0) then d ← buf_get off n; call (SysSend (ev_fd v) d 0) else
  ps ← get w_params;
  let m := if ev_attempt v =? 0 then select_udp (ps_dp ps) 0 dst
           else if dp_count ps <=? ev_attempt v then None else Some (ev_attempt v) in
  match m with
  | None => mret (-1)
  | Some m => desync_udp (ev_fd v) off n dst m
  end.
