(* ===== verification/FilterProps.v ===== *)
(** The filters of a group: the host list is matched by domain suffix, and a
    connection gets the first group all of whose restrictions it meets. *)
From S2P Require Import Prelude CLib Packets PacketsTls PacketsHttp Kavl KavlAvl KavlOps Mpool MpoolSpec.
From S2P Require Import Params World Desync Conev Cache Socks Conn Extend.

(** * Domain names *)

(** What follows each dot. *)
Fixpoint after_dots (name : list Z) : list (list Z) :=
  match name with
  | [] => []
  | c :: l => if c =? chr "." then l :: after_dots l else after_dots l
  end.
(** A name and its parent domains. *)
Definition domains (name : list Z) : list (list Z) :=
  List.filter (fun d => negb (bool_decide (d = []))) (name :: after_dots name).
Definition listed (hosts : mphdr) (name : list Z) : bool :=
  existsb (fun d => bool_decide (is_Some (pool_map hosts !! d))) (domains name).

(** The name a request is for: that of a ClientHello, or else of an HTTP
    request. *)
Definition http_name (b : list Z) : list Z :=
  match parse_http b (zlen b) false with
  | Ok (HttpHost len (Some h) _) => sub b h len
  | _ => []
  end.
Definition asked_name (b : list Z) : list Z :=
  match parse_tls b (zlen b) with
  | Ok (len, Some h) => if len =? 0 then http_name b else sub b h len
  | _ => http_name b
  end.

Lemma after_dots_none l : (forall x, x ∈ l -> x <> chr ".") -> after_dots l = [].
Proof.
  induction l as [|x l IH]; simpl; [done|]. intros H.
  replace (x =? chr ".") with false by (symmetry; apply Z.eqb_neq, H; left).
  apply IH. intros y Hy. apply H. by right.
Qed.
Lemma after_dots_split l1 l2 :
  (forall x, x ∈ l1 -> x <> chr ".") -> after_dots (l1 ++ chr "." :: l2) = l2 :: after_dots l2.
Proof.
  induction l1 as [|x l1 IH]; simpl; [done|]. intros H.
  replace (x =? chr ".") with false by (symmetry; apply Z.eqb_neq, H; left).
  apply IH. intros y Hy. apply H. by right.
Qed.

Section Host.
Context (hosts : mphdr) (h : heap) (Hinv : pool_inv hosts h) (data : list Z).
Hypothesis Hsmall : zlen data < 2 ^ 31.

Lemma sub_cut p q e : 0 <= p <= q -> q < e <= zlen data ->
  sub data p (e - p) = sub data p (q - p) ++ byte_at data q :: sub data (q + 1) (e - (q + 1)).
Proof.
  intros. replace (e - p) with ((q - p) + (e - q)) by lia. rewrite <- sub_app_join by lia. f_equal.
  replace (p + (q - p)) with q by lia. replace (e - q) with (1 + (e - (q + 1))) by lia.
  rewrite <- sub_app_join by lia. unfold sub at 1. simpl.
  assert (Hl : data !! Z.to_nat q = Some (byte_at data q)) by (apply byte_at_lookup; lia).
  by rewrite (drop_S _ _ _ Hl).
Qed.

Lemma in_sub p n x : x ∈ sub data p n -> 0 <= p -> p + n <= zlen data ->
  exists i, p <= i < p + n /\ x = byte_at data i.
Proof.
  intros Hx Hp Hn. destruct (Z.leb_spec 0 n) as [H0|H0].
  - apply list_elem_of_lookup in Hx as (i & Hi). pose proof (lookup_lt_Some _ _ _ Hi) as Hl.
    rewrite length_sub in Hl by lia. exists (p + Z.of_nat i). split; [lia|].
    rewrite <- (byte_at_sub data p n (Z.of_nat i)) by lia.
    unfold byte_at. rewrite Nat2Z.id. symmetry. by apply nth_lookup_Some.
  - unfold sub in Hx. replace (Z.to_nat n) with O in Hx by lia. by apply elem_of_nil in Hx.
Qed.

Lemma mem_get_at p n : 0 <= p -> 0 <= n -> p + n <= zlen data ->
  mem_get hosts (drop (Z.to_nat p) data) n = Ok (pool_map hosts !! sub data p n).
Proof.
  intros. rewrite (mem_get_lookup hosts h Hinv) by (rewrite length_drop; lia).
  unfold sub. by rewrite drop_0.
Qed.

(** The loop of [check_host] tries the suffixes in turn. *)
Lemma host_loop_listed fuel p e :
  0 <= p <= e -> e <= zlen data -> (Z.to_nat (e - p) < fuel)%nat ->
  host_loop fuel hosts data p e = Ok (listed hosts (sub data p (e - p))).
Proof.
  revert p. induction fuel as [|fuel IH]; intros p Hp He Hf; [lia|]. cbn [host_loop].
  destruct (Z.ltb_spec p e) as [Hlt|Hge]; cbn [negb].
  2: { replace (e - p) with 0 by lia. by unfold sub. }
  rewrite mem_get_at by lia. cbn [mbind res_bind].
  assert (Hne : sub data p (e - p) <> []).
  { intros E. apply (f_equal length) in E. rewrite length_sub in E by lia. simpl in E. lia. }
  unfold listed, domains. cbn [List.filter]. rewrite bool_decide_eq_false_2 by done. cbn [negb existsb].
  destruct (pool_map hosts !! sub data p (e - p)) as [x|] eqn:Hx.
  { by rewrite bool_decide_eq_true_2 by done. }
  rewrite bool_decide_eq_false_2 by (by intros [? ?]). cbn [orb].
  destruct (memchr_total data p (chr ".") (e - p)) as [[q|] Hq]; [lia..| |]; rewrite Hq; cbn [mbind res_bind].
  - apply memchr_Some in Hq as (Hq & Hc & Hfirst); [|lia..].
    rewrite IH by lia. rewrite (sub_cut p q e), Hc, after_dots_split by lia || 
      (intros y (i & Hi & ->)%in_sub; [apply Hfirst|..]; lia). done.
  - rewrite memchr_None in Hq by lia. rewrite after_dots_none; [done|].
    intros y (i & Hi & ->)%in_sub; [apply Hq|..]; lia.
Qed.
End Host.

(** * A request: all the client has sent *)
Record request_is (val : eval) (b : list Z) : Prop := {
  rq_data : b_data (ev_buff val) = Some b;
  rq_size : b_size (ev_buff val) = zlen b;
  rq_bytes : is_bytes b;
  rq_small : zlen b < 2 ^ 31
}.

Lemma check_host_listed hosts h val b :
  pool_inv hosts h -> request_is val b -> check_host hosts val = Ok (listed hosts (asked_name b)).
Proof.
  intros Hinv [Hd Hs Hb Hl]. unfold check_host, buff_data, asked_name, http_name. rewrite Hd, Hs.
  cbn [mbind res_bind].
  destruct (parse_tls_in_bounds b (zlen b) Hb ltac:(lia)) as (len & hs & -> & Ht). cbn [mbind res_bind].
  assert (Htls : len <> 0 -> exists p, hs = Some p /\ 0 < len /\ 0 <= p /\ p + len <= zlen b)
    by (intros; destruct hs as [p|]; [exists p; split; [done|lia]|lia]).
  assert (Hloop : forall p len, 0 < len -> 0 <= p -> p + len <= zlen b ->
    host_loop (S (Z.to_nat len)) hosts b p (p + len) = Ok (listed hosts (sub b p len))).
  { intros p n H1 H2 H3. rewrite (host_loop_listed _ _ Hinv) by lia. do 3 f_equal. lia. }
  destruct (Z.eqb_spec len 0) as [->|Hne]; cbn [negb].
  - replace (match hs with Some _ => _ | None => _ end) with
      (match parse_http b (zlen b) false with Ok (HttpHost len (Some h) _) => sub b h len | _ => [] end)
      by (by destruct hs).
    destruct (parse_http_in_bounds b (zlen b)) as [->|(p & q & l & nl & e & HL & _ & -> & He & _)];
      [lia|done|]. cbn [mbind res_bind hh_len hh_hs mret res_ret].
    destruct HL. rewrite s32_small by lia. rewrite bool_decide_eq_true_2, orb_true_r by done.
    cbn [mbind res_bind mret res_ret]. destruct (Z.leb_spec (e - q) 0).
    + unfold sub. replace (Z.to_nat (e - q)) with O by lia. done.
    + apply Hloop; lia.
  - destruct (Htls Hne) as (p & -> & H1 & H2 & H3). cbn [mbind res_bind mret res_ret].
    rewrite bool_decide_eq_true_2, orb_true_r by done. cbn [mbind res_bind mret res_ret].
    replace (len <=? 0) with false by lia. by apply Hloop.
Qed.

(** * Groups *)

(** The first byte of a ClientHello, or a method. *)
Definition is_kind (f : list Z -> Z -> res bool) (b : list Z) : bool :=
  match f b (zlen b) with Ok c => c | Fault _ => false end.
(** The protocols "-K" lets through, by their letters: a set in the bits t, u, h, s. *)
Definition proto_matches (proto : Z) (b : list Z) : bool :=
  (proto =? 0) || Z.testbit proto 0 || Z.testbit proto 2 && is_kind is_http b || Z.testbit proto 3 && is_kind is_tls_chello b.
Definition proto_udp (proto : Z) : bool := (proto =? 0) || Z.testbit proto 1.
(** The ports of "-V", and the port of an address, as numbers. *)
Definition ports_of (dp : desync_params) : option (Z * Z) :=
  if (dp_pf dp).1 =? 0 then None else Some (htons (dp_pf dp).1, htons (dp_pf dp).2).
Definition port_number (a : sockaddr) : Z := 256 * byte_at a 2 + byte_at a 3.
Definition port_matches (dp : desync_params) (a : sockaddr) : bool :=
  match ports_of dp with None => true | Some (lo, hi) => (lo <=? port_number a) && (port_number a <=? hi) end.
(** What the options of a group restrict it to. *)
Definition group_matches (dp : desync_params) (a : sockaddr) (b : list Z) : bool :=
  (dp_detect dp =? 0) && port_matches dp a && proto_matches (dp_proto dp) b &&
  match dp_hosts dp with None => true | Some hosts => listed hosts (asked_name b) end.
Definition udp_matches (dp : desync_params) (a : sockaddr) : bool :=
  (dp_detect dp =? 0) && port_matches dp a && proto_udp (dp_proto dp).
(** "-V" was not given, or with one port. *)
Definition one_port (dp : desync_params) : Prop := 0 <= (dp_pf dp).1 < 65536 /\ ((dp_pf dp).1 = 0 \/ (dp_pf dp).2 = (dp_pf dp).1).

Lemma bit_land v k : 0 <= k -> negb (Z.land v (2 ^ k) =? 0) = Z.testbit v k.
Proof.
  intros Hk. destruct (Z.testbit v k) eqn:E.
  - destruct (Z.eqb_spec (Z.land v (2 ^ k)) 0) as [H|]; [|done]. apply (f_equal (fun x => Z.testbit x k)) in H.
    rewrite Z.land_spec, Z.pow2_bits_true, E, Z.bits_0 in H by done. done.
  - replace (Z.land v (2 ^ k)) with 0; [done|]. apply Z.bits_inj'. intros n Hn. rewrite Z.bits_0, Z.land_spec.
    destruct (decide (n = k)) as [->|Hne]; [by rewrite E|]. rewrite (Z.pow2_bits_false k n) by lia. by rewrite andb_false_r.
Qed.
Lemma port_swap x y p : 0 <= x < 256 -> 0 <= y < 256 -> 0 <= p < 65536 ->
  (p <=? x + 256 * y) && (x + 256 * y <=? p) = (htons p <=? 256 * x + y) && (256 * x + y <=? htons p).
Proof.
  intros Hx Hy Hp. unfold htons, u8. rewrite Z.shiftr_div_pow2 by lia. change (2 ^ 8) with 256. rewrite (Z.mod_small (p / 256)) by (split; [apply Z.div_pos; lia|apply Z.div_lt_upper_bound; lia]).
  pose proof (Z.div_mod p 256 ltac:(lia)). pose proof (Z.mod_pos_bound p 256 ltac:(lia)).
  assert (0 <= p / 256 < 256) by (split; [apply Z.div_pos; lia|apply Z.div_lt_upper_bound; lia]). generalize dependent (p / 256). generalize dependent (p mod 256). intros.
  apply eq_true_iff_eq. rewrite !andb_true_iff, !Z.leb_le. split; intros; nia.
Qed.
Lemma byte_at_bound a i : is_bytes a -> 0 <= byte_at a i < 256.
Proof.
  intros Ha. unfold byte_at. destruct (a !! Z.to_nat i) as [x|] eqn:E.
  - rewrite (nth_lookup_Some _ _ _ _ E). unfold is_bytes in Ha. rewrite Forall_lookup in Ha. by apply (Ha _ _ E).
  - rewrite nth_lookup, E. cbn. lia.
Qed.
Lemma check_port_matches dp a : is_bytes a -> one_port dp -> ((dp_pf dp).1 =? 0) || check_port (dp_pf dp) a = port_matches dp a.
Proof.
  intros Ha [Hp H1]. unfold port_matches, ports_of, check_port. destruct (Z.eqb_spec (dp_pf dp).1 0) as [|Hne]; [done|]. destruct H1 as [|H1]; [done|].
  rewrite H1. cbn [orb]. unfold sin_port, get16. change (2 + 1) with 3. apply port_swap; [by apply byte_at_bound..|done].
Qed.
Lemma takes_udp_matches dp a : is_bytes a -> one_port dp -> takes_udp dp a = udp_matches dp a.
Proof.
  intros Ha Hp. unfold takes_udp, udp_matches, proto_udp. rewrite (check_port_matches dp a Ha Hp). change IS_UDP with (2 ^ 1). rewrite bit_land by lia.
  destruct (dp_detect dp =? 0); [|done]. cbn [andb]. apply andb_comm.
Qed.

Definition hosts_ok (h : heap) (dp : desync_params) : Prop :=
  match dp_hosts dp with None => True | Some hosts => pool_inv hosts h end.

Lemma takes_tcp_matches h dp a val b :
  hosts_ok h dp -> one_port dp -> is_bytes a -> request_is val b -> takes_tcp dp (Ok a) val = Ok (group_matches dp a b).
Proof.
  intros Hh Hp Ha Hr. pose proof Hr as [Hd Hs Hb Hl]. unfold takes_tcp, group_matches, proto_matches, hosts_ok in *.
  rewrite <- (check_port_matches dp a Ha Hp), <- !bit_land by lia. change (2 ^ 0) with IS_TCP. change (2 ^ 2) with IS_HTTP. change (2 ^ 3) with IS_HTTPS.
  destruct (dp_detect dp =? 0); cbn [negb andb]; [|done].
  assert (Hhost : (match dp_hosts dp with None => mret true | Some hosts => check_host hosts val end) =
    Ok (match dp_hosts dp with None => true | Some hosts => listed hosts (asked_name b) end))
    by (destruct (dp_hosts dp); [by eapply check_host_listed|done]).
  rewrite Hhost. clear Hhost.
  destruct ((dp_pf dp).1 =? 0); cbn [mbind res_bind mret res_ret negb orb andb];
    [|destruct (check_port (dp_pf dp) a); cbn [negb andb]; [|done]].
  all: destruct (dp_proto dp =? 0); cbn [mbind res_bind mret res_ret negb orb andb]; [done|].
  all: unfold check_proto_tcp, buff_data, is_kind; rewrite Hd, Hs; cbn [mbind res_bind].
  all: destruct (is_http_safe b (zlen b)) as [c1 ->]; [lia..|]; rewrite is_tls_chello_ok by lia.
  all: repeat match goal with |- context [Z.land ?x ?y =? 0] => destruct (Z.land x y =? 0) end;
    destruct c1; simpl; try done; by destruct (_ && _ && _).
Qed.

Definition find_group (P : desync_params -> bool) (l : list desync_params) : option Z :=
  (fun x => Z.of_nat x.1) <$> list_find (fun dp => P dp) l.

Lemma find_group_cons P dp l :
  find_group P (dp :: l) = if P dp then Some 0 else Z.succ <$> find_group P l.
Proof.
  unfold find_group. cbn [list_find]. destruct (P dp) eqn:E.
  - by rewrite decide_True.
  - rewrite decide_False by (by intros []). rewrite <- !option_fmap_compose.
    destruct (list_find _ l) as [[i d]|]; simpl; [|done]. f_equal. lia.
Qed.

Lemma select_tcp_find h l a val b m :
  Forall (hosts_ok h) l -> Forall one_port l -> is_bytes a -> request_is val b ->
  select_tcp l m (Ok a) val = Ok (Z.add m <$> find_group (fun dp => group_matches dp a b) l).
Proof.
  intros Hl Hp Ha Hr. revert m. induction Hl as [|dp l Hd _ IH]; intros m; [done|]. apply Forall_cons in Hp as [Hp1 Hp].
  cbn [select_tcp]. rewrite (takes_tcp_matches h dp a val b Hd Hp1 Ha Hr), find_group_cons. specialize (IH Hp). cbn [mbind res_bind].
  destruct (group_matches dp a b); [simpl; by rewrite Z.add_0_r|]. rewrite IH.
  destruct (find_group _ l); simpl; [|done]. do 2 f_equal. lia.
Qed.

(** The groups tried in turn after a failure. *)
Definition chosen_from (P : desync_params -> bool) (l : list desync_params) (m m' : Z) : Prop :=
  exists i dp, m' = m + Z.of_nat i /\ l !! i = Some dp /\ P dp = true.
Lemma chosen_here P dp l m : P dp = true -> chosen_from P (dp :: l) m m.
Proof. exists O, dp. split; [lia|done]. Qed.
Lemma chosen_later P dp l m m' : chosen_from P l (m + 1) m' -> chosen_from P (dp :: l) m m'.
Proof. intros (i & d & -> & H & HP). exists (S i), d. split; [lia|done]. Qed.
#[local] Hint Resolve chosen_here chosen_later : core.

Definition has_bit (bit : Z) (dp : desync_params) : bool := negb (Z.land (dp_detect dp) bit =? 0).

Lemma torst_chosen l m m' :
  torst_loop l m = Chosen m' -> chosen_from (has_bit DETECT_TORST) l m m'.
Proof.
  revert m. induction l as [|dp l IH]; intros m; cbn [torst_loop]; [done|].
  case_match; [done|]. case_match eqn:E; [intros [= <-]; auto|eauto].
Qed.
Lemma fin_chosen l m c m' :
  fin_loop l m c = Ok (Chosen m') -> chosen_from (has_bit DETECT_TLS_ERR) l m m'.
Proof.
  revert m. induction l as [|dp l IH]; intros m; cbn [fin_loop]; [done|].
  case_match; [done|]. destruct (Z.land _ _ =? 0) eqn:E; [eauto|].
  intros Hf. invert_ok Hf. destruct v0; [injection Hf as <-|eauto].
  apply chosen_here. unfold has_bit. by rewrite E.
Qed.
Lemma response_chosen l m c resp sn m' :
  response_loop l m c resp sn = Ok (Chosen m') ->
  chosen_from (fun dp => has_bit DETECT_HTTP_LOCAT dp || has_bit DETECT_TLS_ERR dp) l m m'.
Proof.
  revert m. induction l as [|dp l IH]; intros m; cbn [response_loop]; [done|].
  destruct (dp_detect dp =? 0); [done|]. intros H. apply res_bind_Ok in H as (r1 & H1 & H).
  destruct r1.
  { injection H as <-. apply chosen_here. unfold has_bit. case_match; [done|by invert_ok H1]. }
  apply res_bind_Ok in H as (r2 & H2 & H). destruct r2; [|eauto].
  injection H as <-. apply chosen_here. unfold has_bit.
  destruct (negb (Z.land (dp_detect dp) DETECT_TLS_ERR =? 0)); [by rewrite orb_true_r|by invert_ok H2].
Qed.

(** ** The handlers that fall back *)
Lemma io_bind_Ok {A B} (m : io A) (f : A -> io B) w b w' : (m ≫= f) w = Ok (b, w') -> exists a w1, m w = Ok (a, w1) /\ f a w1 = Ok (b, w').
Proof. unfold mbind, io_bind. destruct (m w) as [[a w1]|] eqn:E; [|done]. intros H. by exists a, w1. Qed.
(** The group a client is tried with. *)
Definition attempt_at (w : world) (client : nat) : option Z := ev_attempt <$> ph_items (w_pool w) !! client.
Lemma pair_of_same val w client w' : pair_of val w = Ok (client, w') -> w' = w.
Proof.
  unfold pair_of. intros H. apply io_bind_Ok in H as (e & w1 & H1 & H). unfold item in H1. destruct (_ !! val); [|done]. injection H1 as <- <-.
  destruct (ev_pair _); [|done]. by injection H.
Qed.
Lemma item_attempt w client c w' : item client w = Ok (c, w') -> attempt_at w client = Some (ev_attempt c) /\ w' = w.
Proof. unfold item, attempt_at. destruct (_ !! client); [|done]. by intros [= -> ->]. Qed.
Lemma dp_from_Ok m w l w' : dp_from m w = Ok (l, w') -> -1 <= m - 1 -> l = drop (Z.to_nat m) (ps_dp (w_params w)) /\ w' = w.
Proof.
  unfold dp_from. intros H Hm. apply io_bind_Ok in H as (ps & w1 & [= <- <-] & H). case_match; [done|]. by injection H as <- <-.
Qed.
Lemma reconnect_attempt val m w w' client : reconnect val m w = Ok (0, w') -> pair_of val w = Ok (client, w) -> attempt_at w' client = Some m.
Proof.
  unfold reconnect. intros H Hp. apply io_bind_Ok in H as (c & w1 & H1 & H). rewrite Hp in H1. injection H1 as <- <-.
  apply io_bind_Ok in H as (v & w2 & _ & H). apply io_bind_Ok in H as (r & w3 & _ & H). destruct (negb (r =? 0)); [done|].
  apply io_bind_Ok in H as (u & w4 & _ & H). apply io_bind_Ok in H as (u' & w5 & _ & H). apply io_bind_Ok in H as (u'' & w6 & Hu & H).
  injection H as <-. unfold upd in Hu. destruct (ph_items (w_pool w5) !! client) as [c|] eqn:Hc; [|done]. injection Hu as <- <-.
  unfold attempt_at. cbn. rewrite list_lookup_insert_eq; [done|]. by eapply lookup_lt_Some.
Qed.
(** One of the handlers that fall back ran, and did. *)
Inductive falls_back (val : nat) (w w' : world) : (desync_params -> bool) -> Prop :=
  | fb_torst : on_torst val w = Ok (0, w') -> falls_back val w w' (has_bit DETECT_TORST)
  | fb_fin : on_fin val w = Ok (0, w') -> falls_back val w w' (has_bit DETECT_TLS_ERR)
  | fb_response sn : on_response val sn w = Ok (0, w') -> falls_back val w w' (fun dp => has_bit DETECT_HTTP_LOCAT dp || has_bit DETECT_TLS_ERR dp).
(** What they share: the loop from the next attempt on has chosen a group. *)
Lemma falls_back_chosen val w w' P client a : falls_back val w w' P -> pair_of val w = Ok (client, w) -> attempt_at w client = Some a -> -1 <= a ->
  exists m, chosen_from P (drop (Z.to_nat (a + 1)) (ps_dp (w_params w))) (a + 1) m /\ attempt_at w' client = Some m.
Proof.
  intros H Hp Ha Hb. destruct H as [H|H|sn H].
  - unfold on_torst in H. apply io_bind_Ok in H as (p & w1 & H1 & H). rewrite Hp in H1. injection H1 as <- <-.
    apply io_bind_Ok in H as (c & w1 & [Hc ->]%item_attempt & H). rewrite Ha in Hc. injection Hc as ->.
    apply io_bind_Ok in H as (l & w1 & H1 & H). apply dp_from_Ok in H1 as [-> ->]; [|lia]. destruct (torst_loop _ _) as [m| |] eqn:E; [| |].
    + exists m. split; [by apply torst_chosen|by eapply reconnect_attempt].
    + done.
    + apply io_bind_Ok in H as (v & w1 & _ & H). by apply io_bind_Ok in H as (u & w2 & _ & H).
  - unfold on_fin, request_of in H. apply io_bind_Ok in H as (c & w1 & H1 & H). apply io_bind_Ok in H1 as (p & w2 & H1 & H2). rewrite Hp in H1. injection H1 as <- <-.
    apply item_attempt in H2 as [Hc ->]. rewrite Ha in Hc. injection Hc as ->. apply io_bind_Ok in H as (l & w1 & H1 & H). apply dp_from_Ok in H1 as [-> ->]; [|lia].
    apply io_bind_Ok in H as (x & w1 & H1 & H). unfold lift in H1. destruct (fin_loop _ _ _) as [y|] eqn:E; [|done]. injection H1 as <- <-. destruct y as [m| |]; [|done..].
    exists m. split; [by eapply fin_chosen|by eapply reconnect_attempt].
  - unfold on_response, request_of in H. apply io_bind_Ok in H as (c & w1 & H1 & H). apply io_bind_Ok in H1 as (p & w2 & H1 & H2). rewrite Hp in H1. injection H1 as <- <-.
    apply item_attempt in H2 as [Hc ->]. rewrite Ha in Hc. injection Hc as ->. apply io_bind_Ok in H as (l & w1 & H1 & H). apply dp_from_Ok in H1 as [-> ->]; [|lia].
    apply io_bind_Ok in H as (b & w1 & [= <- <-] & H). apply io_bind_Ok in H as (x & w1 & H1 & H). unfold lift in H1.
    destruct (response_loop _ _ _ _ _) as [y|] eqn:E; [|done]. injection H1 as <- <-. destruct y as [m| |]; [|done..].
    exists m. split; [by eapply response_chosen|by eapply reconnect_attempt].
Qed.
Lemma chosen_later_group P l a m : -1 <= a -> chosen_from P (drop (Z.to_nat (a + 1)) l) (a + 1) m ->
  a < m < zlen l /\ exists dp, l !! Z.to_nat m = Some dp /\ P dp = true.
Proof.
  intros Ha (i & dp & -> & Hl & HP). rewrite lookup_drop in Hl.
  replace (Z.to_nat (a + 1) + i)%nat with (Z.to_nat (a + 1 + Z.of_nat i)) in Hl by lia.
  pose proof (lookup_lt_Some _ _ _ Hl). split; [lia|]. eauto.
Qed.
(** [k] fallbacks of a client, with the groups [l].  In between the program does
    anything that does not lower its attempt: only [on_desync] sets it, from 0. *)
Inductive fallen (l : list desync_params) (client : nat) : nat -> world -> world -> Prop :=
  | fallen_none w : fallen l client 0 w w
  | fallen_again k w w1 w2 w3 val P a1 a2 : fallen l client k w w1 ->
      attempt_at w1 client = Some a1 -> attempt_at w2 client = Some a2 -> a1 <= a2 ->
      ps_dp (w_params w2) = l -> pair_of val w2 = Ok (client, w2) -> falls_back val w2 w3 P -> fallen l client (S k) w w3.

(** * Properties *)

(** C13: a connection is matched against a host list by domain suffix: for every
    request, [check_host] answers whether the requested name (of the ClientHello
    or the Host header) or one of its parent domains is in the list; no access
    leaves the request and no assertion fails. *)
Theorem check_host_domains (hosts : mphdr) (h : heap) (val : eval) (b : list Z) :
  pool_inv hosts h -> request_is val b -> check_host hosts val = Ok (listed hosts (asked_name b)).
Proof. apply check_host_listed. Qed.

(** C14: When no group has a range of several ports, a connection gets the first group
    without [detect] all of whose restrictions it meets: the port of "-V", one of the
    protocols of "-K", a name of the host list or below one; and a UDP flow gets the
    first that lets UDP and its port through.  When there is none both report it.  With
    a range other ports are let through than it contains: [range_is_wrong]. *)
Theorem select_first_group (h : heap) (l : list desync_params) (a : sockaddr) (val : eval) (b : list Z) :
  Forall (hosts_ok h) l -> Forall one_port l -> is_bytes a -> request_is val b ->
  select_tcp l 0 (Ok a) val = Ok (find_group (fun dp => group_matches dp a b) l) /\
  select_udp l 0 a = find_group (fun dp => udp_matches dp a) l.
Proof.
  intros Hl Hp Ha Hr. split.
  - rewrite (select_tcp_find h l a val b) by done. by destruct (find_group _ l).
  - enough (Hm : forall m, select_udp l m a = Z.add m <$> find_group (fun dp => udp_matches dp a) l)
      by (rewrite Hm; by destruct (find_group _ l)).
    clear Hl. induction Hp as [|dp l Hp1 _ IH]; intros m; [done|]. cbn [select_udp]. rewrite find_group_cons, takes_udp_matches by done.
    destruct (udp_matches dp a); [simpl; by rewrite Z.add_0_r|]. rewrite IH.
    destruct (find_group _ l); simpl; [|done]. f_equal. lia.
Qed.
(** A group for the ports 80 to 443 does not take port 200, and takes port 4196. *)
Fact range_is_wrong :
  let dp := put_dp_pf (htons 80, htons 443) zero_group in
  let at_port p := set_port zero_addr (htons p) in
  ports_of dp = Some (80, 443) /\
  (port_number (at_port 200), port_matches dp (at_port 200), takes_udp dp (at_port 200)) = (200, true, false) /\
  (port_number (at_port 4196), port_matches dp (at_port 4196), takes_udp dp (at_port 4196)) = (4196, false, true).
Proof. vm_compute. repeat split; reflexivity. Qed.

(** C15: falling back ends.  When a reset, an end of file or a suspicious answer makes a
    handler reconnect, the client's attempt is afterwards the number of a group that
    exists, behind the one that failed, and asks for this kind of failure; and a
    connection falls back fewer than [dp_count] times. *)
Theorem fallback_advances :
  (forall val client w w' P a, falls_back val w w' P -> pair_of val w = Ok (client, w) -> attempt_at w client = Some a -> -1 <= a ->
    exists m dp, attempt_at w' client = Some m /\ a < m < dp_count (w_params w) /\ ps_dp (w_params w) !! Z.to_nat m = Some dp /\ P dp = true) /\
  (forall l client k w w' a, fallen l client (S k) w w' -> attempt_at w client = Some a -> 0 <= a -> Z.of_nat (S k) < zlen l).
Proof.
  split.
  - intros val client w w' P a H Hp Ha Hb. destruct (falls_back_chosen _ _ _ _ _ _ H Hp Ha Hb) as (m & Hc & Hm).
    destruct (chosen_later_group _ _ _ _ Hb Hc) as (Hr & dp & Hl & HP). by exists m, dp.
  - intros l client k w w' a H Ha H0. enough (Hk : forall k w w', fallen l client k w w' -> attempt_at w client = Some a ->
      exists a', attempt_at w' client = Some a' /\ a + Z.of_nat k <= a' /\ (k <> 0%nat -> a' < zlen l)).
    { destruct (Hk _ _ _ H Ha) as (a' & _ & H1 & H2). specialize (H2 ltac:(done)). lia. }
    clear - H0. induction 1 as [w|k w w1 w2 w3 val P a1 a2 _ IH H1 H2 Hle Hl Hp Hf]; intros Ha; [exists a; split; [done|lia]|].
    destruct (IH Ha) as (a' & E & Hge & _). rewrite H1 in E. injection E as ->.
    destruct (falls_back_chosen _ _ _ _ _ _ Hf Hp H2 ltac:(lia)) as (m & Hc & Hm). rewrite Hl in Hc.
    destruct (chosen_later_group _ _ a2 _ ltac:(lia) Hc) as (Hr & _). exists m. split; [exact Hm|]. split; [lia|intros _; lia].
Qed.

(** * Samples *)
Definition sample_hosts : mphdr := Mphdr 1 true (Node (Elem 2 9 (chars "wikipedia.org") 0 0) 0 1 Leaf Leaf).
Lemma sample_hosts_ok : pool_inv sample_hosts {[1%positive; 2%positive]}.
Proof.
  split.
  - split; [by vm_compute|]. repeat constructor.
  - apply (bool_decide_unpack _). by vm_compute.
  - intros p Hp. simpl in Hp. set_solver.
  - by vm_compute.
Qed.
(** A client that has sent the built-in ClientHello, which is for
    www.wikipedia.org. *)
Definition sample_request : eval := set_buff (Buffer 517 0 (Some tls_data)) zero_eval.
Lemma sample_request_is : request_is sample_request tls_data.
Proof. split; [done|by vm_compute|apply tls_data_bytes|by vm_compute]. Qed.

Lemma check_host_domains_witness :
  check_host sample_hosts sample_request = Ok (listed sample_hosts (asked_name tls_data)) /\
  asked_name tls_data = chars "www.wikipedia.org" /\ listed sample_hosts (asked_name tls_data) = true.
Proof.
  split; [|by vm_compute].
  apply (check_host_domains sample_hosts {[1%positive; 2%positive]}).
  - apply sample_hosts_ok.
  - apply sample_request_is.
Defined.

(** A group for port 80, one for HTTP only, one for a host list, and one for the rest. *)
Definition sample_groups : list desync_params :=
  [put_dp_pf (htons 80, htons 80) zero_group; put_dp_proto IS_HTTP zero_group; put_dp_hosts (Some sample_hosts) zero_group; zero_group].
Definition https_addr : sockaddr := set_port zero_addr (htons 443).
Lemma select_first_group_witness :
  select_tcp sample_groups 0 (Ok https_addr) sample_request = Ok (Some 2) /\
  select_udp sample_groups 0 https_addr = Some 2.
Proof.
  pose proof (select_first_group {[1%positive; 2%positive]} sample_groups https_addr sample_request tls_data) as H.
  destruct H as [H1 H2].
  - apply Forall_cons. split; [done|]. apply Forall_cons. split; [done|]. apply Forall_cons. split; [apply sample_hosts_ok|].
    by apply Forall_singleton.
  - repeat (apply Forall_cons; split; [split; [vm_compute; split; congruence|vm_compute; auto]|]). by apply Forall_nil.
  - unfold is_bytes. apply (bool_decide_unpack _). vm_compute. exact I.
  - apply sample_request_is.
  - rewrite H1, H2. vm_compute. split; reflexivity.
Defined.

(** A client (event 0) whose server (event 1) has reset the connection; the third group
    is for that. *)
Definition reset_groups : list desync_params :=
  [zero_group; put_dp_detect DETECT_TLS_ERR zero_group; put_dp_detect DETECT_TORST zero_group].
Definition reset_open : io unit :=
  _ ← init_pool 5;
  _ ← add_event EV_PRE_TUNNEL 6 POLLIN;
  _ ← add_event EV_PRE_TUNNEL 7 POLLIN;
  _ ← upd 1 (fun e => set_in6 (set_family zero_addr AF_INET) (set_pair (Some 0%nat) e));
  upd 0 (set_pair (Some 1%nat)).
Definition world_of {A} (m : io A) (w : world) : world := match m w with Ok (_, w) => w | Fault _ => w end.
Definition reset_world : world := world_of reset_open (world_ok reset_groups []).
Lemma fallback_advances_witness :
  attempt_at reset_world 0 = Some 0 /\ fallen reset_groups 0 1 reset_world (world_of (on_torst 1) reset_world) /\ 1 < 3 /\
  exists m dp, attempt_at (world_of (on_torst 1) reset_world) 0 = Some m /\ 0 < m < 3 /\ reset_groups !! Z.to_nat m = Some dp /\ has_bit DETECT_TORST dp = true.
Proof.
  destruct fallback_advances as [H1 H2].
  assert (Ha : attempt_at reset_world 0 = Some 0) by (vm_compute; reflexivity).
  assert (Hp : pair_of 1 reset_world = Ok (0%nat, reset_world)) by (vm_compute; reflexivity).
  assert (Hf : falls_back 1 reset_world (world_of (on_torst 1) reset_world) (has_bit DETECT_TORST)) by (constructor; vm_compute; reflexivity).
  assert (Hc : fallen reset_groups 0 1 reset_world (world_of (on_torst 1) reset_world)).
  { eapply (fallen_again _ _ 0 _ reset_world reset_world _ 1); [constructor|exact Ha|exact Ha|lia|vm_compute; reflexivity|exact Hp|exact Hf]. }
  split; [exact Ha|]. split; [exact Hc|]. split; [exact (H2 _ _ _ _ _ _ Hc Ha ltac:(lia))|].
  exact (H1 _ _ _ _ _ _ Hf Hp Ha ltac:(lia)).
Defined.
