(* ===== verification/Proxy.v ===== *)
(** proxy.c: the handlers of events and the event loop.

    A handler returns 0, or nonzero for the loop to close the connection.  The
    loops that run as long as the sockets have data ([on_accept], [on_tunnel],
    [on_udp_tunnel]) and the event loop itself have no bound of their own: they
    get fuel, and stop with [OutOfFuel] when the environment keeps them going
    longer. *)
From S2P Require Import Prelude CLib Packets Mpool Params World Desync Conev Socks Cache Conn Extend.

Definition has (etype flags : Z) : bool := negb (Z.land etype flags =? 0).

(** * on_accept *)

(** One turn of the loop: [Return] leaves it. *)
Definition accept_one (val : nat) : io (step unit) :=
  v ← item val;
  r ← sys (SysAccept (ev_fd v));
  let c := r_ret r in
  if c <? 0 then
    e ← get_e;
    mret (Return (if (e =? EAGAIN) || (e =? EINPROGRESS) then 0 else -1))
  else
  o ← call (SysSetsockopt c IPPROTO_TCP TCP_NODELAY (le32 1));
  if negb (o =? 0) then _ ← close c; mret (Next tt) else
  rval ← add_event EV_REQUEST c POLLIN;
  match rval with
  | None => _ ← close c; mret (Next tt)
  | Some rval => _ ← upd rval (set_in6 (r_addr r)); mret (Next tt)
  end.

Fixpoint repeat_io (fuel : nat) (body : io (step unit)) : io Z :=
  match fuel with
  | O => fault OutOfFuel
  | S fuel =>
      s ← body;
      match s with Return v => mret v | Next _ => repeat_io fuel body end
  end.

Definition on_accept (fuel : nat) (val : nat) : io Z := repeat_io fuel (accept_one val).

(** * on_tunnel *)

(** Lines 584-611: the data left from the last time; [None] to go on. *)
Definition flush_buff (val : nat) (etype : Z) : io (option Z) :=
  v ← item val;
  match b_data (ev_buff v) with
  | None => mret None
  | Some data =>
      if has etype POLLHUP then mret (Some (-1)) else
      pr ← pair_of val;
      p ← item pr;
      let n := b_size (ev_buff v) - b_offset (ev_buff v) in
      d ← lift (rdn data (b_offset (ev_buff v)) n);
      sn ← call (SysSend (ev_fd p) d 0);
      if negb (sn =? n) then
        e ← get_e;
        if (sn <? 0) && negb (e =? EAGAIN) then mret (Some (-1)) else
        _ ← (if 0 <? sn then upd val (fun v => set_buff
               (Buffer (b_size (ev_buff v)) (s32 (b_offset (ev_buff v) + sn)) (b_data (ev_buff v))) v)
             else mret tt);
        mret (Some 0)
      else
      _ ← upd val (set_buff no_buffer);
      r ← mod_etype val POLLIN;
      if negb (r =? 0) then mret (Some (-1)) else
      r ← mod_etype pr POLLIN;
      if negb (r =? 0) then mret (Some (-1)) else mret None
  end.

(** The bytes of the work buffer that the peer did not take are kept. *)
Definition keep_rest (val pr : nat) (n sn : Z) : io Z :=
  v ← item val;
  _ ← c_assert ((b_size (ev_buff v) =? 0) && (b_offset (ev_buff v) =? 0));
  _ ← upd val (fun v => set_buff (Buffer (n - sn) (b_offset (ev_buff v)) (b_data (ev_buff v))) v);
  ok ← call (SysAlloc (n - sn));
  if ok <? 0 then mret (-1) else
  d ← buf_get sn (n - sn);
  _ ← upd val (fun v => set_buff (Buffer (n - sn) (b_offset (ev_buff v)) (Some d)) v);
  r ← mod_etype val 0;
  if negb (r =? 0) then mret (-1) else
  r ← mod_etype pr POLLOUT;
  if negb (r =? 0) then mret (-1) else mret 0.

(** Lines 613-648 *)
Definition tunnel_one (val : nat) (bfsize : Z) : io (step unit) :=
  v ← item val;
  n ← recv_at (ev_fd v) 0 bfsize;
  e ← get_e;
  if (n <? 0) && (e =? EAGAIN) then mret (Return 0) else
  if n <? 1 then mret (Return (-1)) else
  _ ← upd val (fun v => set_recv_count (ev_recv_count v + n) v);
  pr ← pair_of val;
  p ← item pr;
  d ← buf_get 0 n;
  sn ← call (SysSend (ev_fd p) d 0);
  if negb (sn =? n) then
    e ← get_e;
    if (sn <? 0) && negb (e =? EAGAIN) then mret (Return (-1)) else
    r ← keep_rest val pr n (if sn <? 0 then 0 else sn);
    mret (Return r)
  else if n =? bfsize then mret (Next tt) else mret (Return 0).

Definition on_tunnel (fuel : nat) (val : nat) (bfsize etype : Z) : io Z :=
  val ← (if has etype POLLOUT then pair_of val else mret val);
  r ← flush_buff val etype;
  match r with
  | Some r => mret r
  | None => repeat_io fuel (tunnel_one val bfsize)
  end.

(** * on_udp_tunnel *)

(** The address of the first datagram becomes the client's; [Return] when it is
    not the TCP client's. *)
Definition udp_client (val : nat) (addr : sockaddr) : io (step unit) :=
  v ← item val;
  if negb (sin_port (ev_in6 v) =? 0) then mret (Next tt) else
  if negb (addr_equ addr (ev_in6 v)) then mret (Return 0) else
  r ← call (SysConnect (ev_fd v) (sa_bytes addr));
  if r <? 0 then mret (Return (-1)) else
  _ ← upd val (set_in6 addr);
  mret (Next tt).

(** The socket to the server is connected with the first datagram. *)
Definition udp_server (pr : nat) (addr : sockaddr) : io (step unit) :=
  p ← item pr;
  if negb (sin_port (ev_in6 p) =? 0) then mret (Next tt) else
  ps ← get w_params;
  let fa := sa_family (ps_baddr ps) in
  let addr := if fa =? AF_INET6 then map_fix addr 6 else addr in
  if negb (fa =? sa_family addr) then mret (Return (-1)) else
  r ← socket_mod (ev_fd p) addr;
  if r <? 0 then mret (Return (-1)) else
  r ← call (SysConnect (ev_fd p) (sa_bytes addr));
  if r <? 0 then mret (Return (-1)) else
  _ ← upd pr (set_in6 addr);
  mret (Next tt).

(** A datagram of the client, of [n] bytes; [None] for one that is skipped. *)
Definition udp_to_server (val : nat) (n : Z) (addr : sockaddr) : io (step (option Z)) :=
  s ← udp_client val addr;
  match s with
  | Return v => mret (Return v)
  | Next _ =>
      frag ← buf_get 2 1;
      if negb (byte_at frag 0 =? 0) then mret (Next None) else
      '(offs, addr) ← s5_get_addr 0 n addr SOCK_DGRAM;
      if offs <? 0 then mret (Return (-1)) else
      pr ← pair_of val;
      s ← udp_server pr addr;
      match s with
      | Return v => mret (Return v)
      | Next _ =>
          p ← item pr;
          ns ← udp_hook pr offs (n - offs) (ev_in6 p);
          mret (Next (Some ns))
      end
  end.

(** A datagram of a server, at offset [S_SIZE_I6]. *)
Definition udp_to_client (val : nat) (n : Z) (addr : sockaddr) : io (step (option Z)) :=
  let addr := map_fix addr 0 in
  _ ← buf_put 0 (replicate (Z.to_nat S_SIZE_I6) 0);
  b ← get w_buf;
  '(offs, b) ← lift (s5_set_addr b S_SIZE_I6 S_SIZE_I6 addr true);
  _ ← modify (with_buf b);
  if (offs <? 0) || (S_SIZE_I6 <? offs) then mret (Return (-1)) else
  pr ← pair_of val;
  pp ← pair_of pr;
  e ← item pp;
  d ← buf_get (S_SIZE_I6 - offs) (offs + n);
  ns ← call (SysSend (ev_fd e) d 0);
  mret (Next (Some ns)).

Definition udp_one (val : nat) (bfsize : Z) : io (step unit) :=
  v ← item val;
  let conn := ev_flag v =? FLAG_CONN in
  let off := if conn then 0 else S_SIZE_I6 in
  r ← sys (SysRecvfrom (ev_fd v) (size_t (bfsize - off)));
  let n := r_ret r in
  _ ← (if n <? 0 then mret tt else buf_put off (r_data r));
  if n <? 1 then
    e ← get_e;
    mret (Return (if negb (n =? 0) && (e =? EAGAIN) then 0 else -1))
  else
  _ ← upd val (fun v => set_recv_count (ev_recv_count v + n) v);
  s ← (if conn then udp_to_server val n (r_addr r) else udp_to_client val n (r_addr r));
  match s with
  | Return v => mret (Return v)
  | Next None => mret (Next tt)
  | Next (Some ns) => mret (if ns <? 0 then Return (-1) else Next tt)
  end.

Definition on_udp_tunnel (fuel : nat) (val : nat) (bfsize : Z) : io Z :=
  repeat_io fuel (udp_one val bfsize).

(** * on_request *)
Definition on_request_s5 (val : nat) (n : Z) : io (step Z) :=
  v ← item val;
  if negb (ev_flag v =? FLAG_S5) then
    r ← auth_socks5 (ev_fd v) n;
    if negb (r =? 0) then mret (Return (-1)) else
    _ ← upd val (set_flag FLAG_S5);
    mret (Return 0)
  else
  if n <? S_SIZE_MIN then mret (Return (-1)) else
  c ← buf_get 1 1;
  let cmd := byte_at c 0 in
  ps ← get w_params;
  '(s5e, error) ←
    (if cmd =? S_CMD_CONN then
       '(s5e, dst) ← s5_get_addr 0 n zero_addr SOCK_STREAM;
       error ← (if 0 <=? s5e then connect_hook val dst EV_CONNECT else mret 0);
       mret (s5e, error)
     else if (cmd =? S_CMD_AUDP) && ps_udp ps then
       '(s5e, dst) ← s5_get_addr 0 n zero_addr SOCK_DGRAM;
       error ← (if 0 <=? s5e then udp_associate val dst else mret 0);
       mret (s5e, error)
     else mret (- S_ER_CMD, 0));
  if s5e <? 0 then
    _ ← resp_s5_error (ev_fd v) (- s5e);
    mret (Return (-1))
  else mret (Next error).

Definition on_request_s4 (val : nat) (n : Z) : io (step Z) :=
  _ ← upd val (set_flag FLAG_S4);
  v ← item val;
  '(error, dst) ← s4_get_addr n zero_addr;
  if negb (error =? 0) then
    _ ← resp_error (ev_fd v) error FLAG_S4;
    mret (Return (-1))
  else
  error ← connect_hook val dst EV_CONNECT;
  mret (Next error).

Definition on_request (val : nat) (bfsize : Z) : io Z :=
  v ← item val;
  n ← recv_at (ev_fd v) 0 bfsize;
  if n <? 1 then mret (-1) else
  b ← buf_get 0 1;
  s ← (if byte_at b 0 =? S_VER5 then on_request_s5 val n
       else if byte_at b 0 =? S_VER4 then on_request_s4 val n
       else mret (Return (-1)));
  match s with
  | Return r => mret r
  | Next error =>
      if negb (error =? 0) then
        en ← get_e;
        v ← item val;
        _ ← resp_error (ev_fd v) (if negb (en =? 0) then en else error) (ev_flag v);
        mret (-1)
      else mret 0
  end.

(** * on_connect *)
Definition on_connect (val : nat) (e : Z) : io Z :=
  v ← item val;
  x ← (if negb (e =? 0) then
         r ← sys (SysGetsockopt (ev_fd v) SOL_SOCKET SO_ERROR 4);
         mret (if negb (r_ret r =? 0) then None else Some (s32 (get32 (r_data r) 0)))
       else
         r ← mod_etype val POLLIN;
         if negb (r =? 0) then mret None else
         _ ← upd val (set_type EV_TUNNEL);
         pr ← pair_of val;
         _ ← upd pr (set_type EV_DESYNC);
         mret (Some 0));
  match x with
  | None => mret (-1)
  | Some error =>
      pr ← pair_of val;
      p ← item pr;
      r ← resp_error (ev_fd p) error (ev_flag p);
      if r <? 0 then mret (-1) else mret (if negb (e =? 0) then -1 else 0)
  end.

Definition close_conn (val : nat) : io unit := del_event val.

(** * event_loop *)
Definition close_unless_0 (val : nat) (m : io Z) : io unit :=
  r ← m; if negb (r =? 0) then close_conn val else mret tt.
Definition stop : io unit := modify (with_not_exit false).
(** The handler of SIGINT. *)
Definition on_cancel : io unit := stop.

(** The [switch (val->type)]. *)
Definition dispatch (fuel : nat) (val : nat) (bfsize etype : Z) : io unit :=
  v ← item val;
  match ev_type v with
  | EV_ACCEPT =>
      if has etype POLLHUP then stop else
      r ← on_accept fuel val; if negb (r =? 0) then stop else mret tt
  | EV_REQUEST =>
      if has etype POLLHUP then close_conn val else close_unless_0 val (on_request val bfsize)
  | EV_PRE_TUNNEL => close_unless_0 val (on_tunnel_check val bfsize (Z.land etype POLLOUT))
  | EV_TUNNEL => close_unless_0 val (on_tunnel fuel val bfsize etype)
  | EV_UDP_TUNNEL => close_unless_0 val (on_udp_tunnel fuel val bfsize)
  | EV_CONNECT => close_unless_0 val (on_connect val (Z.land etype POLLERR))
  | EV_DESYNC => close_unless_0 val (on_desync val bfsize (Z.land etype POLLOUT))
  | EV_IGNORE =>
      if has etype (Z.lor POLLHUP (Z.lor POLLERR POLLRDHUP)) then close_conn val else mret tt
  end.

(** One turn of the loop; [None] is the [break]. *)
Definition loop_one (fuel : nat) (bfsize i : Z) : io (option Z) :=
  '(ev, i) ← next_event i;
  match ev with
  | None => e ← get_e; mret (if e =? EINTR then Some i else None)
  | Some (val, etype) => _ ← dispatch fuel val bfsize etype; mret (Some i)
  end.

(** [sched] says for every turn whether SIGINT has arrived before it. *)
Fixpoint loop (sched : list bool) (fuel : nat) (bfsize i : Z) : io unit :=
  match sched with
  | [] => fault OutOfFuel
  | int :: sched =>
      _ ← (if (int : bool) then on_cancel else mret tt);
      go ← get w_not_exit;
      if negb go then mret tt else
      r ← loop_one fuel bfsize i;
      match r with None => mret tt | Some i => loop sched fuel bfsize i end
  end.

Definition event_loop (sched : list bool) (fuel : nat) (srvfd : Z) : io Z :=
  ps ← get w_params;
  ok ← init_pool (ps_max_open ps * 2 + 1);
  if negb ok then _ ← close srvfd; mret (-1) else
  val ← add_event EV_ACCEPT srvfd POLLIN;
  match val with
  | None => _ ← destroy_pool; _ ← close srvfd; mret (-1)
  | Some _ =>
      r ← call (SysAlloc (ps_bfsize ps));
      if r <? 0 then _ ← destroy_pool; mret (-1) else
      _ ← modify (with_buf (replicate (Z.to_nat (ps_bfsize ps)) 0));
      _ ← loop sched fuel (ps_bfsize ps) (-1);
      _ ← modify (with_buf []);
      _ ← destroy_pool;
      mret 0
  end.

(** * Starting *)
Definition listen_socket (srv : sockaddr) : io Z :=
  srvfd ← nb_socket (sa_family srv) SOCK_STREAM;
  if srvfd <? 0 then mret (-1) else
  r ← call (SysSetsockopt srvfd SOL_SOCKET SO_REUSEADDR (le32 1));
  if r =? -1 then fail_close srvfd else
  r ← call (SysBind srvfd (sa_bytes srv));
  if r <? 0 then fail_close srvfd else
  r ← call (SysListen srvfd 10);
  if negb (r =? 0) then fail_close srvfd else mret srvfd.

Definition SIGINT : Z := 2.
Definition SIGPIPE : Z := 13.
Definition run (sched : list bool) (fuel : nat) (srv : sockaddr) : io Z :=
  _ ← call (SysSignal SIGPIPE);
  _ ← call (SysSignal SIGINT);
  fd ← listen_socket srv;
  if fd <? 0 then mret (-1) else event_loop sched fuel fd.
