(* ===== verification/TunnelProps.v ===== *)
(** The tunnel relays exactly: what the sockets deliver on one side is sent on
    the other, in order and once, or is kept for later. *)
From S2P Require Import Prelude CLib Packets Mpool Params World Desync Stream DesyncSpec.
From S2P Require Import Conev ConevSpec ConevProps Socks Cache Conn Extend Proxy.

(** * What is received and what is kept *)

(** The bytes [recv] has stored for a descriptor, the oldest first. *)
Fixpoint received (fd : Z) (tr : trace) : list Z :=
  match tr with
  | [] => []
  | (q, r) :: tr =>
      received fd tr ++
      match q with SysRecv f _ => if f =? fd then r_data r else [] | _ => [] end
  end.
Lemma received_app fd n1 n2 : received fd (n2 ++ n1) = received fd n1 ++ received fd n2.
Proof. induction n2 as [|[q r] n2 IH]; simpl; [by rewrite app_nil_r|]. by rewrite IH, app_assoc. Qed.

(** The part of a buffer that is not sent yet. *)
Definition kept (e : eval) : list Z :=
  match b_data (ev_buff e) with
  | Some d => sub d (b_offset (ev_buff e)) (b_size (ev_buff e) - b_offset (ev_buff e))
  | None => []
  end.
Definition kept_ok (e : eval) : Prop :=
  match b_data (ev_buff e) with
  | Some d => 0 <= b_offset (ev_buff e) <= b_size (ev_buff e) /\ b_size (ev_buff e) = zlen d /\ zlen d < 2 ^ 31
  | None => b_size (ev_buff e) = 0 /\ b_offset (ev_buff e) = 0
  end.

Section Relay.
(** The event [s] data is read from, [p] and [ep] its peer, [bf] the size of the
    work buffer. *)
Context (s p : nat) (ep : eval) (bf : Z).
Hypothesis Hsp : s <> p.
Hypothesis Hep : 0 < ev_fd ep.
Hypothesis Hbf : 0 < bf < 2 ^ 31.

Record ready (w : world) (es : eval) : Prop := {
  rd_s : ph_items (w_pool w) !! s = Some es;
  rd_p : ph_items (w_pool w) !! p = Some ep;
  rd_pair : ev_pair es = Some p;
  rd_fd : 0 < ev_fd es;
  rd_buf : zlen (w_buf w) = bf
}.

(** From [w] to [w'] the peer was sent [d], and [rc] was received. *)
Record relayed (w : world) (es : eval) (w' : world) (es' : eval) (d rc : list Z) : Prop := {
  rl_trace : exists new, w_trace w' = new ++ w_trace w /\ adds (ev_fd ep) new d /\ received (ev_fd es) new = rc;
  rl_ready : ready w' es';
  rl_fd : ev_fd es' = ev_fd es;
  rl_fds : w_fds w' = w_fds w
}.

Lemma relayed_refl w es : ready w es -> relayed w es w es [] [].
Proof. intros. split; try done. exists []. split_and!; try done. apply adds_nil. Qed.
Lemma relayed_trans w1 e1 w2 e2 w3 e3 d1 d2 r1 r2 :
  relayed w1 e1 w2 e2 d1 r1 -> relayed w2 e2 w3 e3 d2 r2 -> relayed w1 e1 w3 e3 (d1 ++ d2) (r1 ++ r2).
Proof.
  intros [(n1 & T1 & A1 & R1) Y1 F1 G1] [(n2 & T2 & A2 & R2) Y2 F2 G2]. split; try congruence.
  exists (n2 ++ n1). split; [by rewrite T2, T1, app_assoc|]. split; [by eapply adds_app|].
  by rewrite received_app, R1, <- F1, R2.
Qed.

(** A call that opens and closes nothing. *)
Lemma relayed_sys w es q r d rc :
  nofd q = true -> ready w es -> adds (ev_fd ep) [(q, r)] d -> received (ev_fd es) [(q, r)] = rc ->
  relayed w es (with_trace ((q, r) :: w_trace w) (kernel q r w)) es d rc.
Proof.
  intros Hq [H1 H2 H3 H4 H5] Ha Hr. split; try done.
  - by exists [(q, r)].
  - split; simpl; rewrite ?kernel_pool; try done. unfold kernel. by repeat case_match.
  - by apply fds_sys.
Qed.

(** A call that neither sends nor receives. *)
Definition mute (q : sysreq) : bool :=
  quiet q && nofd q && match q with SysRecv _ _ => false | _ => true end.
Lemma relayed_mute w es q (Q : Z -> world -> Prop) :
  mute q = true -> ready w es ->
  (forall r w', relayed w es w' es [] [] -> w_buf w' = w_buf w -> Q (r_ret r) w') -> wp (call q) Q w.
Proof.
  unfold mute. intros Hm Hw HQ. apply wp_call. intros r Hr.
  apply HQ; [|simpl; unfold kernel; by repeat case_match].
  apply relayed_sys; [by destruct q|done| |by destruct q].
  apply adds_quiet. constructor; [by destruct q|constructor].
Qed.
Lemma relayed_mod v e w es type (Q : Z -> world -> Prop) :
  ready w es -> ph_items (w_pool w) !! v = Some e -> 0 < ev_fd e ->
  (forall r w', relayed w es w' es [] [] -> Q (r_ret r) w') -> wp (mod_etype v type) Q w.
Proof.
  intros Hw Hv He HQ. unfold mod_etype. apply wp_bind. eapply wp_item; [done|].
  apply wp_bind, wp_assert; [lia|].
  eapply relayed_mute; [done..|]. intros r w' R _. by apply HQ.
Qed.

(** A change to the buffer or the counter of [s]. *)
Lemma relayed_upd w es f (Q : unit -> world -> Prop) :
  ready w es -> ev_fd (f es) = ev_fd es -> ev_pair (f es) = ev_pair es ->
  (forall w', relayed w es w' (f es) [] [] -> w_buf w' = w_buf w -> Q tt w') -> wp (upd s f) Q w.
Proof.
  intros [H1 H2 H3 H4 H5] Hf Hp HQ. eapply wp_upd; [done|]. apply HQ; [|done].
  pose proof (lookup_lt_Some _ _ _ H1). split; try done.
  - exists []. split_and!; try done. apply adds_nil.
  - split; simpl; try congruence.
    + by rewrite list_lookup_insert_eq.
    + by rewrite list_lookup_insert_ne.
Qed.

(** ** Sending to the peer *)
Lemma relayed_send w es d (Q : Z -> world -> Prop) :
  ready w es -> zlen d < 2 ^ 31 ->
  (forall n w', -1 <= n <= zlen d -> w_buf w' = w_buf w -> relayed w es w' es (sub d 0 n) [] -> Q n w') ->
  wp (call (SysSend (ev_fd ep) d 0)) Q w.
Proof.
  intros Hw Hd HQ. apply wp_call. intros r Hr. apply HQ.
  - rewrite Hr. apply sane_send. lia.
  - simpl. unfold kernel. by repeat case_match.
  - apply relayed_sys; try done. apply adds_send.
Qed.

(** ** Receiving *)
Lemma relayed_recv w es (Q : Z -> world -> Prop) :
  ready w es ->
  (forall n d w', -1 <= n <= bf -> zlen d = Z.max 0 n -> sub (w_buf w') 0 (Z.max 0 n) = d ->
     relayed w es w' es [] d -> Q n w') ->
  wp (recv_at (ev_fd es) 0 bf) Q w.
Proof.
  intros Hw HQ. unfold recv_at. rewrite size_t_small by lia. apply wp_bind, wp_sys. intros r Hr.
  set (w1 := with_trace _ _).
  assert (Hn : -1 <= r_ret r <= bf) by (rewrite Hr; simpl; unfold clip; lia).
  assert (Hl : zlen (r_data r) = Z.max 0 (r_ret r)).
  { rewrite Hr. simpl. unfold fit. rewrite length_map, length_take, length_app, length_replicate. lia. }
  assert (Hrl : relayed w es w1 es [] (r_data r)).
  { apply relayed_sys; try done; [by apply adds_quiet; repeat constructor|]. simpl. by rewrite Z.eqb_refl. }
  pose proof (rd_buf _ _ (rl_ready _ _ _ _ _ _ Hrl)) as Hb.
  apply wp_bind. destruct (Z.ltb_spec (r_ret r) 0).
  - apply wp_ret, wp_ret, (HQ _ (r_data r)); try done. rewrite Z.max_l in * by lia.
    destruct (r_data r); [done|simpl in Hl; lia].
  - apply wp_buf_put; [lia..|]. apply wp_ret. rewrite Z.max_r in * by lia.
    apply (HQ _ (r_data r)); [done|lia|..].
    + rewrite Z.max_r by lia. rewrite <- Hl. unfold sub, put. simpl. rewrite drop_0, take_app_length'; [done|lia].
    + destruct Hrl as [T Y F G]. destruct Y as [Y1 Y2 Y3 Y4 Y5]. split; try done.
      split; try done. cbn [w_buf with_buf]. rewrite length_put; lia.
Qed.

(** ** The parts of [on_tunnel] *)

(** After a handler that answers [r]: all that was kept or received has been
    sent, but for [rest], which is kept when the connection goes on. *)
Definition passes (w : world) (es : eval) (r : Z) (w' : world) : Prop :=
  exists es' d rc rest, relayed w es w' es' d rc /\ kept es ++ rc = d ++ rest /\
    (r = 0 \/ r = -1) /\ (r = 0 -> rest = kept es' /\ kept_ok es').

Lemma passes_after w es w1 es1 d rc r w' :
  relayed w es w1 es1 d rc -> kept es ++ rc = d ++ kept es1 -> passes w1 es1 r w' -> passes w es r w'.
Proof.
  intros H1 Hk (es' & d' & rc' & rest & H2 & Hk2 & Hr & H0). exists es', (d ++ d'), (rc ++ rc'), rest.
  split; [by eapply relayed_trans|]. split; [|done].
  by rewrite app_assoc, Hk, <- !app_assoc, Hk2.
Qed.
Lemma passes_fail w es w' es' d rc rest :
  relayed w es w' es' d rc -> kept es ++ rc = d ++ rest -> passes w es (-1) w'.
Proof. intros. exists es', d, rc, rest. split_and!; try done. by right. Qed.
Lemma passes_done w es w' es' d rc :
  relayed w es w' es' d rc -> kept es ++ rc = d ++ kept es' -> kept_ok es' -> passes w es 0 w'.
Proof. intros. exists es', d, rc, (kept es'). split_and!; try done. by left. Qed.

Lemma sub_inner (b : list Z) o n i m :
  0 <= o -> 0 <= i -> 0 <= m -> i + m <= n -> o + n <= zlen b -> sub (sub b o n) i m = sub b (o + i) m.
Proof.
  intros. apply bytes_ext.
  - rewrite !length_sub; rewrite ?zlen_sub; lia.
  - rewrite zlen_sub by (rewrite ?zlen_sub; lia). intros j Hj. rewrite !byte_at_sub by lia. f_equal. lia.
Qed.
Lemma sub_0_split (d : list Z) n : -1 <= n <= zlen d -> sub d 0 n ++ sub d (Z.max 0 n) (zlen d - Z.max 0 n) = d.
Proof.
  intros. destruct (Z.ltb_spec n 0).
  - rewrite Z.max_l, Z.sub_0_r, sub_all by lia. unfold sub. by replace (Z.to_nat n) with O by lia.
  - rewrite Z.max_r by lia. transitivity (sub d 0 (n + (zlen d - n))).
    + rewrite <- sub_app_join by lia. by rewrite Z.add_0_l.
    + rewrite <- (sub_all d) at 3. f_equal. lia.
Qed.

(** Both sockets are watched for data again. *)
Lemma relayed_mods w es t1 t2 (Q : option Z -> world -> Prop) :
  ready w es ->
  (forall w', relayed w es w' es [] [] -> Q (Some (-1)) w') ->
  (forall w', relayed w es w' es [] [] -> Q None w') ->
  wp (r ← mod_etype s t1; if negb (r =? 0) then mret (Some (-1)) else
      r ← mod_etype p t2; if negb (r =? 0) then mret (Some (-1)) else mret None) Q w.
Proof.
  intros Hw H1 H2. apply wp_bind. eapply relayed_mod; [done|apply Hw|apply Hw|]. intros r1 w1 R1.
  ccase; [by apply wp_ret, H1|]. apply wp_bind.
  eapply relayed_mod; [apply R1|apply (rl_ready _ _ _ _ _ _ R1)|done|]. intros r2 w2 R2.
  pose proof (relayed_trans _ _ _ _ _ _ _ _ _ _ R1 R2) as R.
  ccase; apply wp_ret; [by apply H1|by apply H2].
Qed.

Lemma flush_buff_wp w es etype :
  ready w es -> kept_ok es ->
  wp (flush_buff s etype) (fun o w' =>
    match o with
    | Some r => passes w es r w'
    | None => exists es', relayed w es w' es' (kept es) [] /\ ev_buff es' = no_buffer
    end) w.
Proof.
  intros Hw Hk. unfold flush_buff. apply wp_bind. eapply wp_item; [apply Hw|].
  unfold kept_ok, kept in *. destruct (b_data (ev_buff es)) as [data|] eqn:Ed.
  2: { apply wp_ret. exists es. split; [by apply relayed_refl|].
       destruct (ev_buff es); simpl in *. destruct Hk as [-> ->]. by rewrite Ed. }
  destruct Hk as (Ho & Hs & Hl).
  assert (Hkept : kept es = sub data (b_offset (ev_buff es)) (b_size (ev_buff es) - b_offset (ev_buff es)))
    by (unfold kept; by rewrite Ed).
  ccase.
  { apply wp_ret. eapply (passes_fail _ _ _ _ [] []); [by apply relayed_refl|]. by rewrite app_nil_r. }
  apply wp_bind. eapply wp_pair_of; [apply Hw|apply Hw|]. apply wp_bind. eapply wp_item; [apply Hw|].
  apply wp_bind, wp_lift. rewrite rdn_ok by lia. cbn [succeeds]. rewrite <- Hkept.
  assert (Hzl : zlen (kept es) = b_size (ev_buff es) - b_offset (ev_buff es)) by (rewrite Hkept, zlen_sub; lia).
  apply wp_bind. eapply (relayed_send w es); [done|lia|]. intros sn w1 Hsn _ R1. cbn beta zeta.
  pose proof (sub_0_split (kept es) sn Hsn) as Hsplit. rewrite <- Hzl. ccase.
  - apply wp_bind, wp_get. ccase.
    { apply wp_ret. eapply passes_fail; [exact R1|]. by rewrite app_nil_r, Hsplit. }
    apply wp_bind. destruct (Z.ltb_spec 0 sn).
    + eapply relayed_upd; [apply R1|done|done|]. intros w2 R2 _. apply wp_ret.
      pose proof (relayed_trans _ _ _ _ _ _ _ _ _ _ R1 R2) as R. rewrite app_nil_r in R.
      eapply passes_done; [exact R|..].
      * rewrite app_nil_r. rewrite <- Hsplit at 1. f_equal. unfold kept at 3. cbn.
        rewrite Ed, s32_small, Z.max_r, Hzl by lia. rewrite Hkept at 1.
        rewrite sub_inner by lia. f_equal; lia.
      * unfold kept_ok. cbn. rewrite Ed, s32_small by lia. lia.
    + apply wp_ret, wp_ret. eapply passes_done; [exact R1|..].
      * rewrite app_nil_r. unfold sub. by replace (Z.to_nat sn) with O by lia.
      * unfold kept_ok. by rewrite Ed.
  - replace sn with (zlen (kept es)) in * by lia. rewrite sub_all in R1.
    apply wp_bind. eapply relayed_upd; [apply R1|done|done|]. intros w2 R2 _.
    pose proof (relayed_trans _ _ _ _ _ _ _ _ _ _ R1 R2) as R. rewrite app_nil_r in R.
    apply relayed_mods with (set_buff no_buffer es); [apply R|..]; intros w3 R3;
      pose proof (relayed_trans _ _ _ _ _ _ _ _ _ _ R R3) as R'; rewrite app_nil_r in R'.
    + eapply (passes_fail _ _ _ _ _ _ []); [exact R'|]. by rewrite !app_nil_r.
    + by exists (set_buff no_buffer es).
Qed.

Lemma keep_rest_wp w es n sn :
  ready w es -> ev_buff es = no_buffer -> 0 <= sn < n -> n <= bf ->
  wp (keep_rest s p n sn) (fun r w' => exists es', relayed w es w' es' [] [] /\ (r = 0 \/ r = -1) /\
     (r = 0 -> kept es' = sub (w_buf w) sn (n - sn) /\ kept_ok es')) w.
Proof.
  intros Hw He Hn Hb. unfold keep_rest. apply wp_bind. eapply wp_item; [apply Hw|]. rewrite He.
  apply wp_bind, wp_assert; [done|]. apply wp_bind. eapply relayed_upd; [done|done|done|]. intros w1 R1 B1.
  rewrite He in R1. cbn in R1. pose proof (rl_ready _ _ _ _ _ _ R1) as Y1.
  apply wp_bind. eapply relayed_mute; [done|exact Y1|]. intros r2 w2 R2 B2.
  pose proof (relayed_trans _ _ _ _ _ _ _ _ _ _ R1 R2) as R. cbn [app] in R.
  assert (Hfail : forall w', relayed w es w' (set_buff (Buffer (n - sn) 0 None) es) [] [] ->
    exists es', relayed w es w' es' [] [] /\ (-1 = 0 \/ -1 = -1) /\
      (-1 = 0 -> kept es' = sub (w_buf w) sn (n - sn) /\ kept_ok es')).
  { intros w' R'. eexists. split; [exact R'|]. split; [by right|done]. }
  ccase; [apply wp_ret, Hfail, R|]. pose proof (rd_buf _ _ (rl_ready _ _ _ _ _ _ R)) as Hlen.
  apply wp_bind, wp_buf_get; [lia..|]. rewrite B2, B1. set (d := sub (w_buf w) sn (n - sn)).
  assert (Hd : zlen d = n - sn) by (unfold d; rewrite zlen_sub; lia || rewrite <- B1, <- B2; lia).
  apply wp_bind. eapply relayed_upd; [apply R|done|done|]. intros w3 R3 B3. cbn in R3.
  pose proof (relayed_trans _ _ _ _ _ _ _ _ _ _ R R3) as Ra. cbn [app] in Ra. pose proof (rl_ready _ _ _ _ _ _ Ra) as Y3.
  apply wp_bind. eapply relayed_mod; [done|apply Y3|apply Y3|]. intros r4 w4 R4.
  pose proof (relayed_trans _ _ _ _ _ _ _ _ _ _ Ra R4) as Rb. cbn [app] in Rb.
  assert (Hfail2 : forall r w', r = 0 \/ r = -1 -> relayed w es w' (set_buff (Buffer (n - sn) 0 (Some d)) es) [] [] ->
    exists es', relayed w es w' es' [] [] /\ (r = 0 \/ r = -1) /\ (r = 0 -> kept es' = d /\ kept_ok es')).
  { intros r w' Hr R'. eexists. split; [exact R'|]. split; [done|]. intros _. unfold kept, kept_ok. cbn.
    rewrite Z.sub_0_r, <- Hd, sub_all. split; [done|]. lia. }
  ccase; [apply wp_ret, Hfail2; auto|].
  apply wp_bind. eapply relayed_mod; [apply Rb|apply (rl_ready _ _ _ _ _ _ Rb)|done|]. intros r5 w5 R5.
  pose proof (relayed_trans _ _ _ _ _ _ _ _ _ _ Rb R5) as Rc. cbn [app] in Rc.
  ccase; apply wp_ret, Hfail2; auto.
Qed.

Lemma kept_none es : ev_buff es = no_buffer -> kept es = [].
Proof. unfold kept. by intros ->. Qed.

(** One turn of the loop goes on only after a full buffer was passed on. *)
Lemma tunnel_one_wp w es :
  ready w es -> ev_buff es = no_buffer ->
  wp (tunnel_one s bf) (fun st w' =>
    match st with
    | Return r => passes w es r w'
    | Next _ => exists es' d, relayed w es w' es' d d /\ ev_buff es' = no_buffer /\ zlen d = bf
    end) w.
Proof.
  intros Hw He. unfold tunnel_one. pose proof (kept_none es He) as Hk.
  apply wp_bind. eapply wp_item; [apply Hw|].
  apply wp_bind. eapply relayed_recv; [done|]. intros n d w1 Hn Hd Hbuf R1.
  pose proof (rl_ready _ _ _ _ _ _ R1) as Y1.
  apply wp_bind, wp_get. destruct (Z.ltb_spec n 1) as [Hn1|Hn1].
  - assert (d = []) as -> by (destruct d; [done|simpl in Hd; lia]).
    destruct ((n <? 0) && _); apply wp_ret.
    + eapply passes_done; [exact R1|by rewrite app_nil_r|]. unfold kept_ok. by rewrite He.
    + eapply passes_fail; [exact R1|]. by rewrite app_nil_r.
  - replace (n <? 0) with false by lia. cbn [andb]. rewrite Z.max_r in * by lia.
    apply wp_bind. eapply relayed_upd; [apply R1|done|done|]. intros w2 R2 B2.
    pose proof (relayed_trans _ _ _ _ _ _ _ _ _ _ R1 R2) as R. cbn [app] in R. rewrite ?app_nil_r in R.
    set (es2 := set_recv_count _ es) in *. assert (He2 : ev_buff es2 = no_buffer) by done.
    pose proof (rl_ready _ _ _ _ _ _ R) as Y. pose proof (rd_buf _ _ Y) as Hlen.
    apply wp_bind. eapply wp_pair_of; [apply Y|apply Y|]. apply wp_bind. eapply wp_item; [apply Y|].
    apply wp_bind, wp_buf_get; [lia..|]. rewrite B2, Hbuf.
    apply wp_bind. eapply relayed_send; [exact Y|lia|]. intros sn w3 Hsn B3 R3.
    pose proof (relayed_trans _ _ _ _ _ _ _ _ _ _ R R3) as R'. cbn [app] in R'. rewrite ?app_nil_r in R'.
    pose proof (sub_0_split d sn Hsn) as Hsplit.
    destruct (Z.eqb_spec sn n) as [->|Hne]; cbn [negb].
    + rewrite <- Hd, sub_all in R'. ccase; apply wp_ret.
      * exists es2, d. split; [done|]. split; [done|]. lia.
      * eapply passes_done; [exact R'| |by unfold kept_ok; rewrite He2].
        by rewrite Hk, (kept_none es2 He2), app_nil_r.
    + apply wp_bind, wp_get. ccase.
      { apply wp_ret. eapply passes_fail; [exact R'|]. by rewrite Hk, Hsplit. }
      apply wp_bind. eapply wp_mono; [apply (keep_rest_wp w3 es2)|]; [apply R'|done|destruct (Z.ltb_spec sn 0); lia|lia|].
      intros r w4 (es4 & R4 & Hr & H0). apply wp_ret.
      pose proof (relayed_trans _ _ _ _ _ _ _ _ _ _ R' R4) as Ra. rewrite !app_nil_r in Ra.
      exists es4, (sub d 0 sn), d, (sub d (Z.max 0 sn) (zlen d - Z.max 0 sn)).
      split; [done|]. split; [by rewrite Hk, Hsplit|]. split; [done|]. intros [-> Hok]%H0. split; [|done].
      rewrite B2 in Hlen. rewrite B3, B2, <- Hbuf. destruct (Z.ltb_spec sn 0).
      * rewrite Z.max_l, Z.sub_0_r, Hbuf, Hd by lia. rewrite <- Hbuf. rewrite sub_inner by lia. f_equal. lia.
      * rewrite Z.max_r by lia. by rewrite Hbuf, Hd, <- Hbuf, sub_inner by lia.
Qed.

(** ** The loop *)

(** [k] turns that all go on lead from [w] to [w']. *)
Inductive turns (body : io (step unit)) : nat -> world -> world -> Prop :=
  | turns_0 w : turns body 0 w w
  | turns_S k w w1 w2 : body w = Ok (Next tt, w1) -> turns body k w1 w2 -> turns body (S k) w w2.

(** What the handler comes to: an answer, or the loop is still going after all
    its fuel, with the tunnel in the state [w']. *)
Definition tunnelled (fuel : nat) (w : world) (es : eval) (x : res (Z * world)) : Prop :=
  match x with
  | Ok (r, w') => passes w es r w'
  | Fault e => e = OutOfFuel /\ exists w0 w' es' d rc, turns (tunnel_one s bf) fuel w0 w' /\
      relayed w es w' es' d rc /\ kept es ++ rc = d /\ Z.of_nat fuel * bf <= zlen rc
  end.

Lemma tunnel_loop fuel w es :
  ready w es -> ev_buff es = no_buffer ->
  match repeat_io fuel (tunnel_one s bf) w with
  | Ok (r, w') => passes w es r w'
  | Fault e => e = OutOfFuel /\ exists w' es' d, turns (tunnel_one s bf) fuel w w' /\
      relayed w es w' es' d d /\ Z.of_nat fuel * bf = zlen d
  end.
Proof.
  revert w es. induction fuel as [|fuel IH]; intros w es Hw He; cbn [repeat_io].
  { split; [done|]. exists w, es, []. split; [constructor|]. split; [by apply relayed_refl|done]. }
  pose proof (tunnel_one_wp w es Hw He) as Hone. unfold wp in Hone. unfold mbind, io_bind.
  destruct (tunnel_one s bf w) as [[[r|[]] w1]|] eqn:E1; [exact Hone| |done].
  destruct Hone as (es1 & d1 & R1 & He1 & Hd1).
  specialize (IH w1 es1 (rl_ready _ _ _ _ _ _ R1) He1).
  destruct (repeat_io fuel (tunnel_one s bf) w1) as [[r w2]|e].
  - eapply passes_after; [exact R1| |exact IH]. by rewrite (kept_none es He), (kept_none es1 He1), app_nil_r.
  - destruct IH as (-> & w2 & es2 & d2 & T & R2 & Hd2). split; [done|].
    exists w2, es2, (d1 ++ d2). split; [by econstructor|]. split; [by eapply relayed_trans|].
    rewrite length_app. lia.
Qed.

Lemma on_tunnel_spec fuel v etype w es :
  ready w es -> kept_ok es ->
  (if has etype POLLOUT then exists e, ph_items (w_pool w) !! v = Some e /\ ev_pair e = Some s else v = s) ->
  tunnelled fuel w es (on_tunnel fuel v bf etype w).
Proof.
  intros Hw Hk Hv. unfold on_tunnel.
  assert (Hsrc : (if has etype POLLOUT then pair_of v else mret v) w = Ok (s, w)).
  { destruct (has etype POLLOUT); [|by rewrite Hv]. destruct Hv as (e & He & Hp).
    unfold pair_of, item, mbind, io_bind. by rewrite He, Hp. }
  unfold mbind, io_bind. rewrite Hsrc. pose proof (flush_buff_wp w es etype Hw Hk) as Hf. unfold wp in Hf.
  destruct (flush_buff s etype w) as [[[r|] w1]|]; [exact Hf| |done].
  destruct Hf as (es1 & R1 & He1).
  pose proof (tunnel_loop fuel w1 es1 (rl_ready _ _ _ _ _ _ R1) He1) as Hl. unfold tunnelled.
  destruct (repeat_io fuel (tunnel_one s bf) w1) as [[r w2]|e].
  - eapply passes_after; [exact R1| |exact Hl]. by rewrite (kept_none es1 He1).
  - destruct Hl as (-> & w2 & es2 & d & T & R2 & Hd). split; [done|].
    exists w1, w2, es2, (kept es ++ d), d. split; [done|].
    split; [exact (relayed_trans _ _ _ _ _ _ _ _ _ _ R1 R2)|]. split; [done|]. lia.
Qed.
End Relay.

(** C17: the tunnel is exact.  Whatever the sockets answer (short writes, EAGAIN,
    failures), the bytes sent to the peer are, in order and once, those kept
    from before and those received now; if the connection goes on the rest is
    kept in the event and no assertion fails.  The loop runs on only as long as
    every [recv] fills the buffer: running out of [fuel] means that [fuel] full
    buffers have arrived and were passed on. *)
Theorem on_tunnel_relays (fuel s p v : nat) (es ep : eval) (bf etype : Z) (w : world) :
  s <> p -> 0 < ev_fd ep -> 0 < bf < 2 ^ 31 -> ready s p ep bf w es -> kept_ok es ->
  (if has etype POLLOUT then exists e, ph_items (w_pool w) !! v = Some e /\ ev_pair e = Some s else v = s) ->
  tunnelled s p ep bf fuel w es (on_tunnel fuel v bf etype w).
Proof. intros. by apply on_tunnel_spec. Qed.

(** Two connected events, the second with three bytes left. *)
Definition sample_tunnel : world :=
  let e1 := set_fd 6 (set_pair (Some 1%nat) zero_eval) in
  let e2 := set_buff (Buffer 5 2 (Some [1; 2; 3; 4; 5])) (set_fd 7 (set_pair (Some 0%nat) zero_eval)) in
  with_pool (Pool 2 2 3 [0%nat; 1%nat] [e1; e2] [] 0) (world_ok [zero_group] (replicate 16 0)).
Lemma on_tunnel_relays_witness :
  match on_tunnel 3 0 16 POLLOUT sample_tunnel with
  | Ok (r, w') => exists e1 e2, passes 1 0 e1 16 sample_tunnel e2 r w' /\
      stream 6 (w_trace w') = [3; 4; 5]
  | Fault _ => False
  end.
Proof.
  set (e1 := set_fd 6 (set_pair (Some 1%nat) zero_eval)).
  set (e2 := set_buff (Buffer 5 2 (Some [1; 2; 3; 4; 5])) (set_fd 7 (set_pair (Some 0%nat) zero_eval))).
  assert (H : tunnelled 1 0 e1 16 3 sample_tunnel e2 (on_tunnel 3 0 16 POLLOUT sample_tunnel)).
  { apply on_tunnel_relays; [done|done|lia| | |].
    - split; reflexivity.
    - unfold kept_ok. simpl. lia.
    - exists e1. split; reflexivity. }
  destruct (on_tunnel 3 0 16 POLLOUT sample_tunnel) as [[r w']|e] eqn:E.
  - exists e1, e2. split; [exact H|]. vm_compute in E. injection E as <- <-. vm_compute. reflexivity.
  - vm_compute in E. discriminate.
Defined.
