(* ===== verification/Text.v ===== *)
(** The text input of main.c: escape sequences, files, host lists, addresses.

    A C string is the list of its characters, without the NUL. *)
From S2P Require Import Prelude CLib Packets Mpool Params World.

(** * The standard library *)

(** [sscanf] with [%<w>hhx] (base 16) or [%<w>hho] (base 8) on [s]: the value
    stored and the characters consumed, blanks included. *)
Fixpoint take_digits (base : Z) (s : list Z) : list Z :=
  match s with
  | c :: s => if digit_val c <? base then c :: take_digits base s else []
  | [] => []
  end.
Definition digits_value (base : Z) (ds : list Z) : Z :=
  fold_left (fun acc c => acc * base + digit_val c) ds 0.
Fixpoint skip_spaces (s : list Z) : list Z :=
  match s with c :: s' => if isspace c then skip_spaces s' else s | [] => [] end.

Definition scan_hh (base : Z) (width : nat) (s : list Z) : option (Z * Z) :=
  let s1 := skip_spaces s in
  let blanks := zlen s - zlen s1 in
  let field := take width s1 in
  let signed := match field with c :: _ => (c =? 45) || (c =? 43) | [] => false end in
  let neg := match field with c :: _ => c =? 45 | [] => false end in
  let f := if signed then drop 1 field else field in
  let prefixed := (base =? 16) &&
    match f with a :: b :: _ => (a =? 48) && ((b =? 120) || (b =? 88)) | _ => false end in
  let ds := take_digits base (if prefixed then drop 2 f else f) in
  if bool_decide (ds = []) then None else
  let v := digits_value base ds in
  Some (u8 (if neg then - v else v),
        blanks + (if signed then 1 else 0) + (if prefixed then 2 else 0) + zlen ds).

(** [strtof]: the number [(m, e)] with value m*2^e nearest to n/d. *)
Definition round32 (n d : Z) : Z * Z :=
  if n =? 0 then (0, 0) else
  let k := Z.log2 n - Z.log2 d - 23 in
  let scaled e := if e <? 0 then (n * 2 ^ (- e), d) else (n, d * 2 ^ e) in
  let e := let '(a, b) := scaled k in if a <? b * 2 ^ 23 then k - 1 else k in
  let e := Z.max (-149) e in
  let '(a, b) := scaled e in
  let q := a / b in
  let r := a mod b in
  (if (2 * r <? b) || ((2 * r =? b) && Z.even q) then q else q + 1, e).
Definition times_pow (base e : Z) (x : Z * Z) : Z * Z :=
  if e <? 0 then (x.1, x.2 * base ^ (- e)) else (x.1 * base ^ e, x.2).

(** The unsigned number at the start of [s] as a fraction, and the rest. *)
Definition scan_number (s : list Z) : option (Z * Z * list Z) :=
  let hex := match s with
             | a :: b :: c :: r => (a =? 48) && ((b =? 120) || (b =? 88)) &&
                 ((digit_val c <? 16) ||
                  ((c =? chr ".") && (match r with x :: _ => digit_val x <? 16 | [] => false end)))
             | _ => false
             end in
  let base := if hex then 16 else 10 in
  let s := if hex then drop 2 s else s in
  let int := take_digits base s in
  let s1 := drop (length int) s in
  let frac := match s1 with c :: r => if c =? chr "." then take_digits base r else [] | [] => [] end in
  let s2 := match s1 with
            | c :: r => if (c =? chr ".") && negb (bool_decide (int ++ frac = []))
                        then drop (length frac) r else s1
            | [] => [] end in
  if bool_decide (int ++ frac = []) then None else
  let mant := digits_value base (int ++ frac) in
  let x := times_pow base (- zlen frac) (mant, 1) in
  let is_exp c := if hex then (c =? 112) || (c =? 80) else (c =? 101) || (c =? 69) in
  match s2 with
  | c :: r =>
      let sg := match r with x :: _ => (x =? 45) || (x =? 43) | [] => false end in
      let neg := match r with x :: _ => x =? 45 | [] => false end in
      let ds := take_digits 10 (if sg then drop 1 r else r) in
      if is_exp c && negb (bool_decide (ds = [])) then
        let e := digits_value 10 ds in
        Some (times_pow (if hex then 2 else 10) (if neg then - e else e) x,
              drop (length ds) (if sg then drop 1 r else r))
      else Some (x, s2)
  | [] => Some (x, s2)
  end.
Definition lower3 (s : list Z) : list Z := map tolower (take 3 s).

(** [f = strtof(s, &end); (long)(f * 1000)] and [*end]; a number that no [long]
    can hold is undefined behaviour. *)
Definition strtof_1000 (s : list Z) : res (Z * Z) :=
  let s1 := skip_spaces s in
  let sg := match s1 with c :: _ => (c =? 45) || (c =? 43) | [] => false end in
  let neg := match s1 with c :: _ => c =? 45 | [] => false end in
  let s1 := if sg then drop 1 s1 else s1 in
  if bool_decide (lower3 s1 = chars "inf") || bool_decide (lower3 s1 = chars "nan") then Fault BadCast
  else
  match scan_number s1 with
  | None => mret (0, byte_at s 0)
  | Some (x, rest) =>
      let '(m, e) := round32 x.1 x.2 in
      if 2 ^ 128 <=? (if e <? 0 then m / 2 ^ (- e) else m * 2 ^ e) then Fault BadCast else
      let y := times_pow 2 e (m * 1000, 1) in
      let '(m, e) := round32 y.1 y.2 in
      let v := if e <? 0 then m / 2 ^ (- e) else m * 2 ^ e in
      if LONG_MAX <? v then Fault BadCast else
      mret (if neg then - v else v, byte_at rest 0)
  end.

(** * parse_cform *)
Definition esca : list (Z * Z) :=
  [(114, 13); (110, 10); (116, 9); (92, 92); (102, 12); (98, 8); (118, 11); (97, 7)].
Fixpoint find_esc (l : list (Z * Z)) (c : Z) : option Z :=
  match l with
  | [] => None
  | (k, v) :: l => if k =? c then Some v else find_esc l c
  end.

(** The numeric escapes, on the text after the backslash. *)
Definition scan_escape (s : list Z) : option (Z * Z) :=
  match (match s with
         | 120 :: s' => match scan_hh 16 2 s' with Some (v, n) => Some (v, n + 1) | None => None end
         | _ => None
         end) with
  | Some r => Some r
  | None => scan_hh 8 3 s
  end.

(** [str] is NUL terminated; every turn moves [p] forward. *)
Fixpoint cform_loop (fuel : nat) (buffer : list Z) (blen : Z) (str : list Z) (p i : Z)
    : res (Z * list Z) :=
  match fuel with
  | O => Fault OutOfFuel
  | S fuel =>
      if negb ((p <? zlen str) && (i <? blen)) then mret (i, buffer) else
      let c := byte_at str p in
      if negb (c =? 92) then
        buffer ← wr buffer i c;
        cform_loop fuel buffer blen str (p + 1) (i + 1)
      else
      let p := p + 1 in
      c ← rd (str ++ [0]) p;
      match find_esc esca c with
      | Some v =>
          buffer ← wr buffer i v;
          cform_loop fuel buffer blen str (p + 1) (i + 1)
      | None =>
          match scan_escape (drop (Z.to_nat p) str) with
          | Some (v, n) =>
              buffer ← wr buffer i v;
              cform_loop fuel buffer blen str (p + (n - 1) + 1) (i + 1)
          | None => cform_loop fuel buffer blen str p i
          end
      end
  end.
Definition parse_cform (buffer : list Z) (blen : Z) (str : list Z) : res (Z * list Z) :=
  cform_loop (S (length str)) buffer blen str 0 0.

(** * Data from the command line or a file *)
Definition data_from_str (str : list Z) : io (option (list Z)) :=
  let len := zlen str in
  if len =? 0 then mret None else
  ok ← call (SysAlloc len);
  if ok <? 0 then mret None else
  '(i, d) ← lift (parse_cform (replicate (Z.to_nat len) 0) len str);
  mret (if i =? 0 then None else Some (sub d 0 i)).

(** The bytes read; their number is the size. *)
Definition ftob (str : list Z) : io (option (list Z)) :=
  if byte_at str 0 =? chr ":" then data_from_str (drop 1 str) else
  r ← sys (SysReadFile str);
  if r_ret r <=? 0 then mret None else
  ok ← call (SysAlloc (r_ret r));
  mret (if ok <? 0 then None else Some (r_data r)).

(** * Host lists *)

(** [char] is signed. *)
Definition schar (c : Z) : Z := if c <? 128 then c else c - 256.
(** The return value and the character. *)
Definition lower_char (cl : Z) : Z * Z :=
  let c := schar cl in
  if c <? 65 then (if (57 <? c) || (c <? 45) then -1 else 0, cl)
  else if c <? 97 then (if 90 <? c then (-1, cl) else (0, u8 (c + 32)))
  else (if 122 <? c then -1 else 0, cl).

Definition is_sep (c : Z) : bool := (c =? 32) || (c =? 10) || (c =? 13).

(** [k] more positions from [e] on; the buffer, the pool (none after a failed
    [malloc], when the header has been freed). *)
Fixpoint hosts_loop (k : nat) (buffer : list Z) (size e s : Z) (hdr : mphdr)
    : io (list Z * option mphdr) :=
  match k with
  | O => mret (buffer, Some hdr)
  | S k =>
      c ← lift (if e =? size then mret 0 else rd buffer e);
      if negb (e =? size) && negb (is_sep c) then
        buffer ← lift (wr buffer e (lower_char c).2);
        hosts_loop k buffer size (e + 1) s hdr
      else if s =? e then hosts_loop k buffer size (e + 1) (s + 1) hdr
      else
        ok ← call (SysAlloc 1);
        h ← get w_heap;
        '(x, hdr, h) ← lift (mem_add (0 <=? ok) true hdr 1 (drop (Z.to_nat s) buffer) (e - s) h);
        _ ← modify (with_heap h);
        match (x : option elem) with
        | None =>
            h ← lift (free (h_ptr hdr) h);
            _ ← modify (with_heap h);
            mret (buffer, None)
        | Some _ => hosts_loop k buffer size (e + 1) (e + 1) hdr
        end
  end.
Definition parse_hosts (buffer : list Z) : io (list Z * option mphdr) :=
  let size := zlen buffer in
  ok ← call (SysAlloc 1);
  h ← get w_heap;
  let '(hdr, h) := mem_pool (0 <=? ok) true h in
  _ ← modify (with_heap h);
  match hdr with
  | None => mret (buffer, None)
  | Some hdr => hosts_loop (S (length buffer)) buffer size 0 0 hdr
  end.

(** * Addresses, offsets, time-to-live *)
Definition AI_NUMERICHOST : Z := 4.
Definition get_addr (str : list Z) (addr : sockaddr) : io (Z * sockaddr) :=
  r ← sys (SysGetaddrinfo str 0 SOCK_STREAM AI_NUMERICHOST);
  if negb (r_ret r =? 0) then mret (-1, addr) else
  let a := r_addr r in
  let addr := if sa_family a =? AF_INET6 then put addr 8 (sin6_addr a) else put addr 4 (sin_addr a) in
  mret (0, set_family addr (sa_family a)).

Definition get_default_ttl : io Z :=
  fd ← call (SysSocket AF_INET SOCK_STREAM);
  if fd <? 0 then mret (-1) else
  r ← sys (SysGetsockopt fd IPPROTO_IP IP_TTL 4);
  _ ← close fd;
  mret (if r_ret r <? 0 then -1 else s32 (get32 (r_data r) 0)).

(** [strtol(str, &end, 0)]: the value, [*end] and what follows. *)
Definition str_num (str : list Z) : res (Z * list Z) :=
  '(v, e) ← strtol (str ++ [0]) 0 0;
  mret (v, drop (Z.to_nat e) str).

(** The return value and the part. *)
Definition parse_offset (p : part) (str : list Z) : res (Z * part) :=
  '(val, rest) ← str_num str;
  match rest with
  | 43 :: f =>
      let c := byte_at f 0 in
      if c =? chr "s" then mret (0, Part (p_m p) OFFSET_SNI val)
      else if c =? chr "h" then mret (0, Part (p_m p) OFFSET_HOST val)
      else if c =? chr "e" then mret (0, Part (p_m p) OFFSET_END val)
      else mret (-1, p)
  | [] => mret (0, Part (p_m p) (p_flag p) val)
  | _ => mret (-1, p)
  end.
