(* ===== verification/Main.v ===== *)
(** main.c: the command line, and the life of the process.

    [getopt_long] is the C library's: the model takes the list of its results,
    the option character with its argument.  Blocks of configuration data are
    values; only the pools of mpool.c live on the modelled heap. *)
From S2P Require Import Prelude CLib Packets Mpool Params World Desync Conev Socks Cache Conn Extend Proxy Text.

(** * The option table: name, [has_arg], [val] *)
Definition options : list (string * Z * Z) := [
  ("no-domain"%string, 0, chr "N"); ("no-ipv6"%string, 0, chr "X"); ("no-udp"%string, 0, chr "U");
  ("help"%string, 0, chr "h"); ("version"%string, 0, chr "v"); ("ip"%string, 1, chr "i");
  ("port"%string, 1, chr "p"); ("conn-ip"%string, 1, chr "I"); ("buf-size"%string, 1, chr "b");
  ("max-conn"%string, 1, chr "c"); ("debug"%string, 1, chr "x"); ("tfo "%string, 0, chr "F");
  ("auto"%string, 1, chr "A"); ("cache-ttl"%string, 1, chr "u"); ("timeout"%string, 1, chr "T");
  ("proto"%string, 1, chr "K"); ("hosts"%string, 1, chr "H"); ("pf"%string, 1, chr "V");
  ("split"%string, 1, chr "s"); ("disorder"%string, 1, chr "d"); ("oob"%string, 1, chr "o");
  ("disoob"%string, 1, chr "q"); ("fake"%string, 1, chr "f"); ("ttl"%string, 1, chr "t");
  ("ip-opt"%string, 2, chr "k"); ("md5sig"%string, 0, chr "S"); ("fake-data"%string, 1, chr "l");
  ("tls-sni"%string, 1, chr "n"); ("fake-offset"%string, 1, chr "O"); ("oob-data"%string, 1, chr "e");
  ("mod-http"%string, 1, chr "M"); ("tlsrec"%string, 1, chr "r"); ("udp-fake"%string, 1, chr "a");
  ("def-ttl"%string, 1, chr "g"); ("delay"%string, 1, chr "w"); ("not-wait-send"%string, 0, chr "W");
  ("drop-sack"%string, 0, chr "Y"); ("protect-path"%string, 1, chr "P"); (""%string, 0, 0)].

(** [opt], with the terminating entry and the NUL behind it: lines 451-464. *)
Definition optc : Z := fold_left (fun n o => n + o.1.2) options (zlen options).
Definition opt : list Z :=
  flat_map (fun o => o.2 :: replicate (Z.to_nat o.1.2) (chr ":")) options ++ [0].

(** * Groups *)
Inductive outcome : Type := Fine | Invalid | Exit (code : Z).

Definition upd_params (f : params -> params) : io unit :=
  modify (fun w => with_params (f (w_params w)) w).

(** [dp = add(&params.dp, &params.dp_count, ...)]: whether it succeeds; [dp] is
    always the last group. *)
Definition add_group : io bool :=
  ok ← call (SysAlloc 1);
  if ok <? 0 then mret false else
  _ ← upd_params (fun p => put_dp (ps_dp p ++ [zero_group]) p); mret true.
Definition cur_dp : io desync_params :=
  ps ← get w_params;
  match last (ps_dp ps) with Some d => mret d | None => fault NullDeref end.
Definition upd_dp (f : desync_params -> desync_params) : io unit :=
  d ← cur_dp;
  upd_params (fun p => put_dp (<[(length (ps_dp p) - 1)%nat := f d]> (ps_dp p)) p).

(** * clear_params *)
Definition destroy_hdr (hdr : option mphdr) : io unit :=
  match hdr with
  | None => mret tt
  | Some hdr => h ← get w_heap; h ← lift (mem_destroy hdr h); modify (with_heap h)
  end.
Fixpoint clear_groups (l : list desync_params) : io unit :=
  match l with
  | [] => mret tt
  | s :: l => _ ← destroy_hdr (dp_hosts s); clear_groups l
  end.
Definition clear_params : io unit :=
  ps ← get w_params;
  _ ← destroy_hdr (ps_mempool ps);
  _ ← upd_params (put_mempool None);
  _ ← clear_groups (ps_dp ps);
  upd_params (put_dp []).

(** * The options, in the order of the [switch] *)
Definition need (arg : option (list Z)) : io (list Z) :=
  match arg with Some s => mret s | None => fault NullDeref end.
Definition is_nil (s : list Z) : bool := bool_decide (s = []).
(** [strtol(optarg, &end, 0)] checked against [*end] and a range *)
Definition num_in (arg : option (list Z)) (lo hi : Z) (f : Z -> io unit) : io outcome :=
  s ← need arg;
  '(val, rest) ← lift (str_num s);
  if (val <? lo) || (hi <? val) || negb (is_nil rest) then mret Invalid else _ ← f val; mret Fine.

(** 'N', 'X', 'U', 'h', 'v' *)
Definition opt_first (rez : Z) : io outcome :=
  if rez =? chr "N" then _ ← upd_params (put_resolve false); mret Fine
  else if rez =? chr "X" then _ ← upd_params (put_ipv6 false); mret Fine
  else if rez =? chr "U" then _ ← upd_params (put_udp false); mret Fine
  else mret (Exit 0).

(** 'i', 'p', 'I', 'b', 'c', 'x' *)
Definition opt_net (rez : Z) (arg : option (list Z)) : io outcome :=
  if rez =? chr "i" then
    s ← need arg; ps ← get w_params;
    '(r, a) ← get_addr s (ps_laddr ps);
    _ ← upd_params (put_laddr a); mret (if r <? 0 then Invalid else Fine)
  else if rez =? chr "p" then
    num_in arg 1 65535 (fun val => upd_params (fun p => put_laddr (set_port (ps_laddr p) (htons val)) p))
  else if rez =? chr "I" then
    s ← need arg; ps ← get w_params;
    '(r, a) ← get_addr s (ps_baddr ps);
    _ ← upd_params (put_baddr a); mret (if r <? 0 then Invalid else Fine)
  else if rez =? chr "b" then num_in arg 1 (INT_MAX / 4) (fun val => upd_params (put_bfsize val))
  else if rez =? chr "c" then num_in arg 1 32766 (fun val => upd_params (put_max_open val))
  else
    s ← need arg;
    '(val, _) ← lift (str_num s);
    _ ← upd_params (put_debug (s32 val));
    mret (if s32 val <? 0 then Invalid else Fine).

(** A comma-separated list of letters, each a flag: the flags and whether all
    letters are known. *)
Fixpoint after_comma (s : list Z) : option (list Z) :=
  match s with [] => None | c :: s => if c =? chr "," then Some s else after_comma s end.
Fixpoint letters (fuel : nat) (flag : Z -> option Z) (s : list Z) (acc : Z) : res (Z * bool) :=
  match fuel with
  | O => Fault OutOfFuel
  | S fuel =>
      match flag (byte_at s 0) with
      | None => mret (acc, false)
      | Some b =>
          match after_comma s with
          | None => mret (Z.lor acc b, true)
          | Some s => letters fuel flag s (Z.lor acc b)
          end
      end
  end.
Definition letters_of (flag : Z -> option Z) (s : list Z) (acc : Z) : res (Z * bool) :=
  letters (S (length s)) flag s acc.

Definition detect_flag (c : Z) : option Z :=
  if c =? chr "t" then Some DETECT_TORST
  else if c =? chr "r" then Some DETECT_HTTP_LOCAT
  else if (c =? chr "a") || (c =? chr "s") then Some DETECT_TLS_ERR
  else if c =? chr "n" then Some 0 else None.
Definition proto_flag (c : Z) : option Z :=
  if c =? chr "t" then Some IS_HTTPS
  else if c =? chr "h" then Some IS_HTTP
  else if c =? chr "u" then Some IS_UDP else None.
Definition mod_http_flag (c : Z) : option Z :=
  if c =? chr "r" then Some MH_SPACE
  else if c =? chr "h" then Some MH_HMIX
  else if c =? chr "d" then Some MH_DMIX else None.

(** 'F', 'A' *)
Definition opt_auto (rez : Z) (arg : option (list Z)) : io outcome :=
  if rez =? chr "F" then _ ← upd_params (put_tfo true); mret Fine else
  ok ← add_group;
  if negb ok then mret (Exit (-1)) else
  match arg with
  | None => mret Fine
  | Some s =>
      '(d, ok) ← lift (letters_of detect_flag s 0);
      _ ← upd_dp (put_dp_detect d);
      mret (if (ok : bool) then Fine else Invalid)
  end.

(** 'u', 'T' *)
Definition opt_time (rez : Z) (arg : option (list Z)) : io outcome :=
  if rez =? chr "u" then num_in arg 1 LONG_MAX (fun val => upd_params (put_cache_ttl val)) else
  s ← need arg;
  '(val, e) ← lift (strtof_1000 s);
  if (val <=? 0) || (UINT_MAX <? val) || negb (e =? 0) then mret Invalid
  else _ ← upd_params (put_timeout val); mret Fine.

(** 'K', 'H' *)
Definition opt_filter (rez : Z) (arg : option (list Z)) : io outcome :=
  dp ← cur_dp;
  if rez =? chr "K" then
    match arg with
    | None => mret Fine
    | Some s =>
        '(d, ok) ← lift (letters_of proto_flag s (dp_proto dp));
        _ ← upd_dp (put_dp_proto d);
        mret (if (ok : bool) then Fine else Invalid)
    end
  else
  match dp_file_ptr dp with
  | Some _ => mret Fine
  | None =>
      s ← need arg;
      f ← ftob s;
      match f with
      | None => mret Invalid
      | Some f =>
          '(f, hdr) ← parse_hosts f;
          _ ← upd_dp (fun d => put_dp_hosts hdr (put_dp_file_size (zlen f) (put_dp_file_ptr (Some f) d)));
          mret (match (hdr : option mphdr) with None => Exit (-1) | Some _ => Fine end)
      end
  end.

(** 's', 'd', 'o', 'q', 'f': [add], then the part is filled in *)
Definition part_mode (rez : Z) : demode :=
  if rez =? chr "s" then DESYNC_SPLIT
  else if rez =? chr "d" then DESYNC_DISORDER
  else if rez =? chr "o" then DESYNC_OOB
  else if rez =? chr "q" then DESYNC_DISOOB
  else DESYNC_FAKE.
Definition zero_part : part := Part DESYNC_NONE 0 0.
Definition opt_part (rez : Z) (arg : option (list Z)) : io outcome :=
  ok ← call (SysAlloc 1);
  if ok <? 0 then mret (Exit (-1)) else
  s ← need arg;
  '(r, p) ← lift (parse_offset zero_part s);
  let p := if negb (r =? 0) then p else Part (part_mode rez) (p_flag p) (p_pos p) in
  _ ← upd_dp (fun d => put_dp_parts (dp_parts d ++ [p]) d);
  mret (if negb (r =? 0) then Invalid else Fine).

(** 'k', 'l': data given once *)
Definition opt_ip (arg : option (list Z)) : io outcome :=
  dp ← cur_dp;
  match dp_ip_options dp with
  | Some _ => mret Fine
  | None =>
      match arg with
      | None => _ ← upd_dp (fun d => put_dp_ip_options (Some [0]) (put_dp_ip_options_len 1 d)); mret Fine
      | Some s =>
          f ← ftob s;
          match f with
          | None => mret Invalid
          | Some f =>
              _ ← upd_dp (fun d => put_dp_ip_options (Some f) (put_dp_ip_options_len (zlen f) d));
              mret Fine
          end
      end
  end.
Definition opt_fake_data (arg : option (list Z)) : io outcome :=
  dp ← cur_dp;
  match pk_data (dp_fake_data dp) with
  | Some _ => mret Fine
  | None =>
      s ← need arg;
      f ← ftob s;
      match f with
      | None => mret Invalid
      | Some f => _ ← upd_dp (put_dp_fake_data (Packet (zlen f) (Some f))); mret Fine
      end
  end.
(** 'n' *)
Definition opt_sni (arg : option (list Z)) : io outcome :=
  s ← need arg;
  ps ← get w_params;
  let pkt := ps_fake_tls ps in
  data ← lift (match pk_data pkt with Some d => Ok d | None => Fault NullDeref end);
  '(r, data) ← lift (change_tls_sni s data (pk_size pkt));
  _ ← upd_params (put_fake_tls (Packet (pk_size pkt) (Some data)));
  mret (if negb (r =? 0) then Exit (-1) else Fine).

(** 't', 'k', 'S', 'O', 'n', 'l' *)
Definition opt_fake (rez : Z) (arg : option (list Z)) : io outcome :=
  if rez =? chr "t" then num_in arg 1 255 (fun val => upd_dp (put_dp_ttl val))
  else if rez =? chr "k" then opt_ip arg
  else if rez =? chr "S" then _ ← upd_dp (put_dp_md5sig true); mret Fine
  else if rez =? chr "O" then num_in arg 1 LONG_MAX (fun val => upd_dp (put_dp_fake_offset (s32 val)))
  else if rez =? chr "n" then opt_sni arg
  else opt_fake_data arg.

(** 'e', 'M', 'r', 'a' *)
Definition opt_data (rez : Z) (arg : option (list Z)) : io outcome :=
  dp ← cur_dp;
  if rez =? chr "e" then
    s ← need arg;
    '(i, d) ← lift (parse_cform [(dp_oob_char dp).1; (dp_oob_char dp).2] 1 s);
    if negb (i =? 1) then mret Invalid else
    _ ← upd_dp (put_dp_oob_char (byte_at d 0, 1)); mret Fine
  else if rez =? chr "M" then
    match arg with
    | None => mret Fine
    | Some s =>
        '(d, ok) ← lift (letters_of mod_http_flag s (dp_mod_http dp));
        _ ← upd_dp (put_dp_mod_http d);
        mret (if (ok : bool) then Fine else Invalid)
    end
  else if rez =? chr "r" then
    ok ← call (SysAlloc 1);
    if ok <? 0 then mret (Exit (-1)) else
    s ← need arg;
    '(r, p) ← lift (parse_offset zero_part s);
    _ ← upd_dp (fun d => put_dp_tlsrec (dp_tlsrec d ++ [p]) d);
    mret (if negb (r =? 0) || (65535 <? p_pos p) then Invalid else Fine)
  else num_in arg 0 INT_MAX (fun val => upd_dp (put_dp_udp_fake_count val)).

(** 'V' *)
Definition opt_ports (arg : option (list Z)) : io outcome :=
  s ← need arg;
  '(val, rest) ← lift (str_num s);
  if (val <=? 0) || (65535 <? val) then mret Invalid else
  dp ← cur_dp;
  _ ← upd_dp (put_dp_pf (htons val, (dp_pf dp).2));
  '(val2, rest, bad) ←
    (match rest with
     | c :: r => if c =? chr "-" then
                   '(v, rest) ← lift (str_num r); mret (v, rest, (v <=? 0) || (65535 <? v))
                 else mret (val, rest, false)
     | [] => mret (val, rest, false)
     end);
  if negb (is_nil rest) then mret Invalid else
  _ ← upd_dp (put_dp_pf (htons val, htons (u16 val2)));
  mret (if (bad : bool) then Invalid else Fine).

(** 'V', 'g', 'Y', 'w', 'W', 'P' and what [getopt_long] did not know *)
Definition opt_more (rez : Z) (arg : option (list Z)) : io outcome :=
  if rez =? chr "V" then opt_ports arg
  else if rez =? chr "g" then
    num_in arg 1 255 (fun val => upd_params (fun p => put_custom_ttl true (put_def_ttl val p)))
  else if rez =? chr "Y" then _ ← upd_dp (put_dp_drop_sack true); mret Fine
  else if rez =? chr "w" then
    s ← need arg;
    '(val, rest) ← lift (str_num s);
    _ ← upd_params (put_sfdelay val);
    mret (if (val <? 0) || (zlen rest =? zlen s) || (1000 <=? val) || negb (is_nil rest)
          then Invalid else Fine)
  else if rez =? chr "W" then _ ← upd_params (put_wait_send false); mret Fine
  else if rez =? chr "P" then _ ← upd_params (put_protect_path arg); mret Fine
  else if rez =? 0 then mret Fine
  else mret (Exit (-1)).

Definition is_one_of (s : string) (c : Z) : bool := existsb (fun x => x =? c) (chars s).
Definition handle_option (rez : Z) (arg : option (list Z)) : io outcome :=
  if is_one_of "NXUhv" rez then opt_first rez
  else if is_one_of "ipIbcx" rez then opt_net rez arg
  else if is_one_of "FA" rez then opt_auto rez arg
  else if is_one_of "uT" rez then opt_time rez arg
  else if is_one_of "KH" rez then opt_filter rez arg
  else if is_one_of "sdoqf" rez then opt_part rez arg
  else if is_one_of "tkSOnl" rez then opt_fake rez arg
  else if is_one_of "eMra" rez then opt_data rez arg
  else opt_more rez arg.

Fixpoint parse_args (l : list (Z * option (list Z))) : io outcome :=
  match l with
  | [] => mret Fine
  | (rez, arg) :: l =>
      o ← handle_option rez arg;
      match o with Fine => parse_args l | _ => mret o end
  end.

(** * main *)

(** Lines 847-870: what the options leave open; [Exit (-1)] when it fails. *)
Definition finish_params : io outcome :=
  dp ← cur_dp;
  let restricted := bool_decide (dp_hosts dp <> None) || negb (dp_proto dp =? 0) ||
                    negb ((dp_pf dp).1 =? 0) in
  ok ← (if restricted then add_group else mret true);
  if negb ok then mret (Exit (-1)) else
  _ ← upd_params (fun p => if negb (sa_family (ps_baddr p) =? AF_INET6) then put_ipv6 false p else p);
  ps ← get w_params;
  ttl ← (if ps_def_ttl ps =? 0 then get_default_ttl else mret (ps_def_ttl ps));
  _ ← upd_params (put_def_ttl ttl);
  if (ps_def_ttl ps =? 0) && (ttl <? 1) then mret (Exit (-1)) else
  ok ← call (SysAlloc 1);
  h ← get w_heap;
  let '(hdr, h) := mem_pool (0 <=? ok) false h in
  _ ← modify (with_heap h);
  _ ← upd_params (put_mempool hdr);
  mret (match hdr with None => Exit (-1) | Some _ => Fine end).

Definition leave (code : Z) : io Z := _ ← clear_params; mret code.

(** Lines 438-870: from the start of [main] to the configured program. *)
Definition configure (args : list (Z * option (list Z))) : io outcome :=
  _ ← upd_params (fun p => put_laddr (set_port (ps_laddr p) (htons 1080)) p);
  ok ← add_group;
  if negb ok then mret (Exit (-1)) else
  o ← parse_args args;
  match o with Fine => finish_params | _ => mret o end.

Definition main (args : list (Z * option (list Z))) (sched : list bool) (fuel : nat) : io Z :=
  o ← configure args;
  match o with
  | Exit code => leave code
  | Invalid => leave (-1)
  | Fine =>
      ps ← get w_params;
      status ← run sched fuel (ps_laddr ps);
      leave status
  end.
