(* ===== verification/MainProps.v ===== *)
(** The command line: whatever options are given, a configuration that is
    accepted meets the hypotheses under which the rest of the program was
    verified. *)
From S2P Require Import Prelude CLib Packets PacketsTls Mpool Params World Desync Stream DesyncPacket DesyncSpec.
From S2P Require Import Kavl KavlAvl KavlOps MpoolSpec Conev Socks Cache CacheProps Conn Extend Proxy Text Main.

(** * What a configuration is required to be *)

(** [strict] adds what holds only when no [-O] argument exceeds [INT_MAX]. *)
Record group_ok (strict : bool) (dp : desync_params) : Prop := {
  go_ip : opt_wf dp;
  go_fake : packet_wf (dp_fake_data dp);
  go_ttl : 0 <= dp_ttl dp <= 255;
  go_count : 0 <= dp_udp_fake_count dp <= INT_MAX;
  go_parts : Forall (fun p => p_m p <> DESYNC_NONE) (dp_parts dp);
  go_recs : Forall (fun p => p_pos p <= 65535) (dp_tlsrec dp);
  go_offset : strict = true -> 0 <= dp_fake_offset dp
}.
Record conf_ok (strict : bool) (ps : params) : Prop := {
  co_groups : Forall (group_ok strict) (ps_dp ps);
  co_tls : packet_wf (ps_fake_tls ps);
  co_http : packet_wf (ps_fake_http ps);
  co_udp : packet_wf (ps_fake_udp ps);
  co_buf : 1 <= ps_bfsize ps <= INT_MAX / 4;
  co_open : 1 <= ps_max_open ps <= 32766;
  co_ttl : 0 <= ps_def_ttl ps <= INT_MAX;
  co_cache : 1 <= ps_cache_ttl ps <= LONG_MAX;
  co_delay : 0 <= ps_sfdelay ps < 1000;
  co_timeout : 0 <= ps_timeout ps <= UINT_MAX
}.

Lemma group_ok_conf strict ps dp : strict = true -> conf_ok strict ps -> group_ok strict dp -> conf_wf ps dp.
Proof. intros Hs [] []. split_and!; auto. Qed.
Lemma zero_group_ok strict : group_ok strict zero_group.
Proof. split; unfold opt_wf, packet_wf; simpl; try done; unfold INT_MAX; lia || constructor. Qed.
Lemma initial_params_ok strict : conf_ok strict initial_params.
Proof.
  split; try (vm_compute; split; congruence); try (vm_compute; by split).
  constructor.
Qed.

(** * Rules for the effects of the option parser *)

(** A routine that changes no option. *)
Definition steady {A} (m : io A) : Prop := forall w, wlp m (fun _ w' => w_params w' = w_params w) w.

Lemma kernel_params q r w : w_params (kernel q r w) = w_params w.
Proof. unfold kernel. by repeat case_match. Qed.
Lemma steady_ret {A} (a : A) : steady (mret a).
Proof. done. Qed.
Lemma steady_bind {A B} (m : io A) (f : A -> io B) : steady m -> (forall a, steady (f a)) -> steady (m ≫= f).
Proof.
  intros Hm Hf w. apply wlp_bind. eapply wlp_mono; [apply Hm|]. intros a w1 H1.
  eapply wlp_mono; [apply Hf|]. intros b w2 H2. cbn in *. congruence.
Qed.
Lemma steady_sys q : steady (sys q).
Proof. intros w. unfold wlp, sys. apply kernel_params. Qed.
Lemma steady_call q : steady (call q).
Proof. apply steady_bind; [apply steady_sys|]. intros. apply steady_ret. Qed.
Lemma steady_close fd : steady (close fd).
Proof.
  intros w. unfold wlp, close. destruct (decide _); [|done].
  exact (steady_bind (sys (SysClose fd)) (fun _ => mret tt) (steady_sys _) (fun _ => steady_ret tt) w).
Qed.
Lemma steady_get {A} (f : world -> A) : steady (get f).
Proof. done. Qed.
Lemma steady_lift {A} (m : res A) : steady (lift m).
Proof. intros w. unfold wlp, lift. by destruct m. Qed.
Lemma steady_heap h : steady (modify (with_heap h)).
Proof. done. Qed.
Lemma steady_need arg : steady (need arg).
Proof. by destruct arg. Qed.

Create HintDb steady.
#[export] Hint Resolve steady_ret steady_call steady_sys steady_close steady_get steady_lift steady_heap
  steady_need : steady.
(** Split binds, tuples and cases. *)
Ltac steady :=
  repeat first [ by auto with steady | apply steady_bind; [|intros ?]
               | progress cbn zeta | progress case_match ].

Lemma data_from_str_steady s : steady (data_from_str s).
Proof. unfold data_from_str. steady. Qed.
#[export] Hint Resolve data_from_str_steady : steady.
Lemma ftob_steady s : steady (ftob s).
Proof. unfold ftob. steady. Qed.
Lemma get_addr_steady s a : steady (get_addr s a).
Proof. unfold get_addr. steady. Qed.
Lemma hosts_loop_steady k buffer size e s hdr : steady (hosts_loop k buffer size e s hdr).
Proof. revert buffer e s hdr. induction k as [|k IH]; intros; cbn [hosts_loop]; steady. Qed.
#[export] Hint Resolve hosts_loop_steady : steady.
Lemma parse_hosts_steady buffer : steady (parse_hosts buffer).
Proof. unfold parse_hosts. steady. Qed.
Lemma get_default_ttl_steady : steady get_default_ttl.
Proof. unfold get_default_ttl. steady. Qed.
#[export] Hint Resolve ftob_steady get_addr_steady parse_hosts_steady get_default_ttl_steady : steady.

Section Accept.
Context (strict : bool).

#[local] Instance outcome_eq_dec : EqDecision outcome.
Proof. solve_decision. Defined.

(** The outcome [Fine] leaves a sound configuration; a change that always does. *)
Definition accepts (m : io outcome) : Prop :=
  forall w, conf_ok strict (w_params w) -> wlp m (fun o w' => o = Fine -> conf_ok strict (w_params w')) w.
Definition sound {A} (m : io A) : Prop :=
  forall w, conf_ok strict (w_params w) -> wlp m (fun _ w' => conf_ok strict (w_params w')) w.

Lemma accepts_ret o : accepts (mret o).
Proof. intros w Hw. by apply wlp_ret. Qed.
Lemma accepts_bind {A} (m : io A) f : sound m -> (forall a, accepts (f a)) -> accepts (m ≫= f).
Proof.
  intros Hm Hf w Hw. apply wlp_bind. eapply wlp_mono; [by apply Hm|]. intros a w1 H1. by apply Hf.
Qed.
Lemma accepts_last {A} (m : io A) o : (o = Fine -> sound m) -> accepts (_ ← m; mret o).
Proof.
  intros Hm w Hw. apply wlp_bind. destruct (decide (o = Fine)) as [->|Hno].
  - eapply wlp_mono; [by apply Hm|]. intros a w1 H1. by apply wlp_ret.
  - unfold wlp. destruct (m w) as [[]|]; [|done]. by intros ->.
Qed.
Lemma steady_sound {A} (m : io A) : steady m -> sound m.
Proof. intros Hm w Hw. eapply wlp_mono; [apply Hm|]. cbn. by intros a w' ->. Qed.
Lemma accepts_steady {A} (m : io A) f : steady m -> (forall a, accepts (f a)) -> accepts (m ≫= f).
Proof. intros. apply accepts_bind; [by apply steady_sound|done]. Qed.
(** ... whose result is known. *)
Lemma accepts_lift {A} (m : res A) f : (forall a, m = Ok a -> accepts (f a)) -> accepts (lift m ≫= f).
Proof. intros Hf w Hw. apply wlp_bind. unfold wlp at 1, lift. destruct m as [a|]; [|done]. by apply Hf. Qed.

Lemma sound_params f : (forall ps, conf_ok strict ps -> conf_ok strict (f ps)) -> sound (upd_params f).
Proof. intros Hf w Hw. by apply Hf. Qed.

Lemma cur_dp_steady : steady cur_dp.
Proof. unfold cur_dp. apply steady_bind; [apply steady_get|]. intros ps w. by destruct (last (ps_dp ps)). Qed.
Lemma put_dp_ok ps l : conf_ok strict ps -> Forall (group_ok strict) l -> conf_ok strict (put_dp l ps).
Proof. by intros []; split. Qed.
Lemma sound_dp f : (forall d, group_ok strict d -> group_ok strict (f d)) -> sound (upd_dp f).
Proof.
  intros Hf w Hw. unfold upd_dp, cur_dp. apply wlp_bind, wlp_bind. unfold wlp at 1, get.
  destruct (last (ps_dp (w_params w))) as [d|] eqn:Hd; [|done]. apply wlp_ret.
  apply sound_params; [|done]. intros ps Hps. apply put_dp_ok; [done|].
  apply Forall_insert; [apply Hps|]. apply Hf. pose proof (co_groups _ _ Hw) as Hg.
  rewrite Forall_forall in Hg. apply Hg. apply last_Some in Hd as [l' ->]. set_solver.
Qed.

Lemma num_in_accepts arg lo hi f :
  (forall s v rest, arg = Some s -> str_num s = Ok (v, rest) -> lo <= v <= hi -> sound (f v)) ->
  accepts (num_in arg lo hi f).
Proof.
  intros Hf. unfold num_in, need. destruct arg as [s|]; [|by intros w Hw].
  intros w Hw. apply wlp_bind, wlp_ret. apply accepts_lift; [|done]. intros [v rest] Hv.
  ccase; [apply accepts_ret|]. apply accepts_last. intros _. eapply Hf; [done..|].
  apply orb_false_iff in Heqb as [Hr _]. lia.
Qed.

Lemma add_group_sound : sound add_group.
Proof.
  intros w Hw. unfold add_group. apply wlp_bind. eapply wlp_mono; [apply steady_call|]. intros r w1 H1.
  cbn in H1. ccase; [apply wlp_ret; by rewrite H1|]. apply wlp_bind.
  eapply wlp_mono; [apply sound_params; [|by rewrite H1]|by intros]. intros ps Hps. apply put_dp_ok; [done|].
  apply Forall_app. split; [apply Hps|]. apply Forall_singleton, zero_group_ok.
Qed.
End Accept.
#[export] Hint Resolve accepts_ret cur_dp_steady : steady.
(** Follow the code of an option until its configuration is changed. *)
Ltac follow :=
  repeat lazymatch goal with
  | |- accepts _ (mbind _ (upd_params _)) => fail
  | |- accepts _ (mbind _ (upd_dp _)) => fail
  | _ => first [ apply accepts_ret | apply accepts_steady; [solve [steady]|intros ?]
               | progress cbn zeta | progress case_match ]
  end.

(** * The options *)
Section Options.
Context (strict : bool).

(** What a condition that is false says. *)
Ltac no_or := repeat match goal with H : _ || _ = false |- _ => apply orb_false_iff in H as [? ?] end.
(** A member none of the conditions is about, or that meets them. *)
Ltac set_param := apply sound_params; let H := fresh in intros ? H; destruct H; split; simpl; auto; unfold INT_MAX in *; lia.
Ltac set_group := apply sound_dp; let H := fresh in intros ? H; destruct H; split; simpl; auto; try lia.

Lemma opt_first_ok rez : accepts strict (opt_first rez).
Proof. unfold opt_first. repeat (case_match; [apply accepts_last; intros _; set_param|]). apply accepts_ret. Qed.

Lemma opt_net_ok rez arg : accepts strict (opt_net rez arg).
Proof.
  unfold opt_net. repeat case_match.
  - follow. apply accepts_last. intros _. set_param.
  - apply num_in_accepts. intros s v rest _ _ Hv. set_param.
  - follow. apply accepts_last. intros _. set_param.
  - apply num_in_accepts. intros s v rest _ _ Hv. set_param.
  - apply num_in_accepts. intros s v rest _ _ Hv. set_param.
  - follow. apply accepts_last. intros _. set_param.
Qed.

Lemma opt_auto_ok rez arg : accepts strict (opt_auto rez arg).
Proof.
  unfold opt_auto. case_match; [apply accepts_last; intros _; set_param|].
  apply accepts_bind; [apply add_group_sound|]. intros ok. follow.
  apply accepts_last. intros _. set_group.
Qed.

Lemma opt_time_ok rez arg : accepts strict (opt_time rez arg).
Proof.
  unfold opt_time. case_match; [apply num_in_accepts; intros s v rest _ _ Hv; set_param|].
  follow. apply accepts_last. intros _. no_or. set_param.
Qed.

Lemma opt_filter_ok rez arg : accepts strict (opt_filter rez arg).
Proof.
  unfold opt_filter. follow.
  - apply accepts_last. intros _. set_group.
  - apply accepts_last. intros _. set_group.
Qed.

Lemma part_mode_some rez : part_mode rez <> DESYNC_NONE.
Proof. unfold part_mode. by repeat case_match. Qed.
Lemma opt_part_ok rez arg : accepts strict (opt_part rez arg).
Proof.
  unfold opt_part. follow. apply accepts_last. intros Ho. destruct (negb (_ =? 0)); [done|].
  set_group. apply Forall_app. split; [done|]. apply Forall_singleton. simpl. apply part_mode_some.
Qed.

Lemma opt_ip_ok arg : accepts strict (opt_ip arg).
Proof.
  unfold opt_ip. follow.
  - apply accepts_last. intros _. set_group. unfold opt_wf. simpl. lia.
  - apply accepts_last. intros _. set_group. unfold opt_wf. simpl. lia.
Qed.
Lemma opt_fake_data_ok arg : accepts strict (opt_fake_data arg).
Proof.
  unfold opt_fake_data. follow. apply accepts_last. intros _. set_group. unfold packet_wf. simpl. lia.
Qed.

(** A changed name does not change the size of the packet. *)
Lemma wr_length b i v b' : wr b i v = Ok b' -> length b' = length b.
Proof. intros [_ ->]%wr_Ok. apply length_insert. Qed.
Lemma wrn_length b o d b' : wrn b o d = Ok b' -> length b' = length b.
Proof. intros [[_ ->]|(? & ? & ->)]%wrn_Ok; [done|]. by apply length_put. Qed.
Lemma SHTONA_length b i x b' : SHTONA b i x = Ok b' -> length b' = length b.
Proof.
  unfold SHTONA. intros (b1 & H1 & H2)%res_bind_Ok. apply wr_length in H1, H2. congruence.
Qed.
Lemma memmove_length b dst src n b' : memmove b dst src n = Ok b' -> length b' = length b.
Proof. unfold memmove. intros (d & _ & H)%res_bind_Ok. by eapply wrn_length. Qed.
Lemma change_tls_sni_length host b n r b' : change_tls_sni host b n = Ok (r, b') -> length b' = length b.
Proof.
  unfold change_tls_sni. intros H.
  repeat (apply res_bind_Ok in H as (? & ? & H) || (cbv beta zeta in H) || case_match);
    try (by injection H as _ <-).
  repeat match goal with
  | E : SHTONA _ _ _ = Ok _ |- _ => apply SHTONA_length in E
  | E : memmove _ _ _ _ = Ok _ |- _ => apply memmove_length in E
  | E : wrn _ _ _ = Ok _ |- _ => apply wrn_length in E
  end. injection H as _ <-. congruence.
Qed.

Lemma opt_sni_ok arg : accepts strict (opt_sni arg).
Proof.
  intros w Hw. unfold opt_sni. apply wlp_bind. unfold need. destruct arg as [s|]; [|done].
  apply wlp_ret, wlp_bind. unfold wlp at 1, get. cbn zeta.
  pose proof (co_tls _ _ Hw) as Hp. unfold packet_wf in Hp.
  destruct (pk_data (ps_fake_tls (w_params w))) as [d|] eqn:Hd; [|done].
  apply wlp_bind, wlp_ret. revert w Hw Hp Hd. intros w Hw Hp Hd.
  apply accepts_lift with (strict := strict); [|done]. intros [r d'] Hc. apply change_tls_sni_length in Hc.
  apply accepts_last. intros _. apply sound_params. intros ps []. split; simpl; auto.
  unfold packet_wf. simpl. lia.
Qed.

Definition arg_ok (rez : Z) (arg : option (list Z)) : Prop :=
  strict = true -> rez = chr "O" -> forall s v rest, arg = Some s -> str_num s = Ok (v, rest) -> v <= INT_MAX.

Lemma opt_fake_ok rez arg : arg_ok rez arg -> accepts strict (opt_fake rez arg).
Proof.
  intros Ha. unfold opt_fake. case_match; [apply num_in_accepts; intros s v rest _ _ Hv; set_group|].
  case_match; [apply opt_ip_ok|]. case_match; [apply accepts_last; intros _; set_group|].
  case_match; [|case_match; [apply opt_sni_ok|apply opt_fake_data_ok]].
  apply num_in_accepts. intros s v rest Hs Hn Hv. set_group. intros Hst.
  specialize (Ha Hst ltac:(lia) s v rest Hs Hn). unfold INT_MAX in Ha. rewrite s32_small; lia.
Qed.

Lemma opt_data_ok rez arg : accepts strict (opt_data rez arg).
Proof.
  unfold opt_data. follow.
  - apply accepts_last. intros _. set_group.
  - apply accepts_last. intros _. set_group.
  - apply accepts_last. intros Ho. destruct (negb _ || _) eqn:E; [done|]. no_or.
    set_group. apply Forall_app. split; [done|]. apply Forall_singleton. lia.
  - no_or. apply accepts_last. intros _. set_group.
Qed.

Lemma opt_ports_ok arg : accepts strict (opt_ports arg).
Proof.
  unfold opt_ports. follow; (apply accepts_bind; [set_group|]; intros _); follow;
    apply accepts_last; intros _; set_group.
Qed.

Lemma opt_more_ok rez arg : accepts strict (opt_more rez arg).
Proof.
  unfold opt_more. case_match; [apply opt_ports_ok|].
  case_match; [apply num_in_accepts; intros s v rest _ _ Hv; set_param|].
  case_match; [apply accepts_last; intros _; set_group|].
  case_match; [follow; apply accepts_last; intros Ho|].
  - destruct (_ || _) eqn:E; [done|]. no_or. set_param.
  - case_match; [apply accepts_last; intros _; set_param|].
    case_match; [apply accepts_last; intros _; set_param|]. case_match; apply accepts_ret.
Qed.

Lemma handle_option_ok rez arg : arg_ok rez arg -> accepts strict (handle_option rez arg).
Proof.
  intros Ha. unfold handle_option.
  repeat case_match; auto using opt_first_ok, opt_net_ok, opt_auto_ok, opt_time_ok, opt_filter_ok, opt_part_ok,
    opt_fake_ok, opt_data_ok, opt_more_ok.
Qed.

Lemma parse_args_ok l : Forall (fun a => arg_ok a.1 a.2) l -> accepts strict (parse_args l).
Proof.
  induction 1 as [|[rez arg] l Ha _ IH]; cbn [parse_args]; [apply accepts_ret|].
  intros w Hw. apply wlp_bind. eapply wlp_mono; [by apply handle_option_ok|]. cbn. intros o w1 H1.
  destruct o; [apply IH; auto|by apply wlp_ret..].
Qed.
End Options.

(** * The rest of the start *)
Lemma s32_range z : - 2 ^ 31 <= s32 z <= INT_MAX.
Proof. unfold s32, INT_MAX. pose proof (Z.mod_pos_bound (z + 2 ^ 31) (2 ^ 32)). lia. Qed.

(** A routine that leaves the parameters as they are and whose answer meets [P]. *)
Lemma get_default_ttl_range w :
  wlp get_default_ttl (fun r w' => r <= INT_MAX /\ w_params w' = w_params w) w.
Proof.
  pose proof (get_default_ttl_steady w) as Hs. unfold wlp in *.
  assert (Hr : wlp get_default_ttl (fun r _ => r <= INT_MAX) w).
  { unfold get_default_ttl. apply wlp_bind. eapply wlp_mono; [apply steady_call|]. intros fd w1 _.
    ccase; [apply wlp_ret; unfold INT_MAX; lia|]. apply wlp_bind. eapply wlp_mono; [apply steady_sys|].
    intros r w2 _. apply wlp_bind. eapply wlp_mono; [apply steady_close|]. intros _ w3 _. apply wlp_ret.
    pose proof (s32_range (get32 (r_data r) 0)). ccase; unfold INT_MAX in *; lia. }
  unfold wlp in Hr. destruct (get_default_ttl w) as [[]|]; auto.
Qed.

(** The program is ready to run: sound options, and an empty cache. *)
Definition started (strict : bool) (w : world) : Prop :=
  conf_ok strict (w_params w) /\ ps_dp (w_params w) <> [] /\
  exists hdr, cache_is w hdr ∅ /\ count (root hdr) = 0.

Lemma finish_params_started strict w :
  conf_ok strict (w_params w) -> wlp finish_params (fun o w' => o = Fine -> started strict w') w.
Proof.
  intros Hw. unfold finish_params. apply wlp_bind.
  assert (Hcur : wlp cur_dp (fun _ w' => w_params w' = w_params w /\ ps_dp (w_params w) <> []) w).
  { unfold cur_dp, wlp, mbind, io_bind, get. destruct (ps_dp (w_params w)) as [|d l] eqn:E; [done|].
    destruct (last (d :: l)); done. }
  eapply wlp_mono; [exact Hcur|]. intros dp w1 [H1 Hne]. rewrite <- H1 in Hne, Hw. clear Hcur H1. cbn zeta.
  apply wlp_bind. generalize (bool_decide (dp_hosts dp <> None) || negb (dp_proto dp =? 0) || negb ((dp_pf dp).1 =? 0)).
  intros restricted.
  assert (Hadd : wlp (if restricted then add_group else mret true)
    (fun ok w' => conf_ok strict (w_params w') /\ ps_dp (w_params w') <> []) w1).
  { destruct restricted; [|by apply wlp_ret].
    unfold add_group. apply wlp_bind. eapply wlp_mono; [apply steady_call|]. intros r w2 H2. cbn in H2.
    ccase; [apply wlp_ret; by rewrite H2|]. apply wlp_bind. unfold wlp at 1. cbn. rewrite H2. split.
    - apply put_dp_ok; [done|]. apply Forall_app. split; [apply Hw|]. apply Forall_singleton, zero_group_ok.
    - by destruct (ps_dp (w_params w1)). }
  eapply wlp_mono; [exact Hadd|]. intros ok w2 [H2 Hn2]. ccase; [by apply wlp_ret|].
  apply wlp_bind. unfold wlp at 1. cbn. set (w3 := with_params _ w2).
  assert (H3 : conf_ok strict (w_params w3) /\ ps_dp (w_params w3) <> []).
  { unfold w3. simpl. destruct (negb (sa_family _ =? _)); (split; [|done]); [by destruct H2; split|done]. }
  clearbody w3. destruct H3 as [H3 Hn3]. apply wlp_bind. unfold wlp at 1, get.
  apply wlp_bind. eapply wlp_mono with (Q := fun ttl w' => ttl <= INT_MAX /\ w_params w' = w_params w3 /\
    (ps_def_ttl (w_params w3) <> 0 -> ttl = ps_def_ttl (w_params w3))).
  { destruct (Z.eqb_spec (ps_def_ttl (w_params w3)) 0) as [E|E].
    - eapply wlp_mono; [apply get_default_ttl_range|]. cbn. intros ttl w4 [? ?]. by split_and!.
    - apply wlp_ret. split; [apply H3|done]. }
  intros ttl w4 (Ht & H4 & Ht4). apply wlp_bind. unfold wlp at 1. cbn. rewrite H4.
  ccase; [by apply wlp_ret|]. apply wlp_bind. eapply wlp_mono; [apply steady_call|]. intros okm w5 H5. cbn in H5.
  apply wlp_bind. unfold wlp at 1, get. destruct (mem_pool (0 <=? okm) false (w_heap w5)) as [hdr h] eqn:Hm.
  apply wlp_bind. unfold wlp at 1. cbn. apply wlp_bind. unfold wlp at 1. cbn. rewrite ?H5.
  destruct hdr as [hdr|]; [|done]. intros _. destruct (0 <=? okm); [|done].
  destruct (malloc true (w_heap w5)) as [[p|] h'] eqn:Ha; [|done].
  destruct (mem_pool_spec false (w_heap w5) p h' Ha) as (Hp & Hi & _). rewrite Hp in Hm. injection Hm as <- <-.
  split; [|split; [done|]].
  - destruct H3. split; simpl; try done. cbn in *. destruct (Z.eqb_spec (ps_def_ttl (w_params w3)) 0); lia.
  - exists (Mphdr p false Leaf). split; [by split|done].
Qed.

(** C19: every command line the program accepts configures it soundly: from the
    initial state, whatever the options, files and addresses are, if [configure]
    gets as far as running then every packet lies in its data, sizes, counts and
    times are in their ranges, every part has a mode, there is a group, and the
    cache is an empty sound store.  When no [-O] exceeds [INT_MAX] every group
    also satisfies [conf_wf], the hypothesis of the theorems about [desync]. *)
Theorem configure_sound (strict : bool) (args : list (Z * option (list Z))) (w w' : world) :
  w_params w = initial_params -> Forall (fun a => arg_ok strict a.1 a.2) args ->
  configure args w = Ok (Fine, w') ->
  started strict w' /\ (strict = true -> Forall (conf_wf (w_params w')) (ps_dp (w_params w'))).
Proof.
  intros Hi Ha E.
  enough (Hwlp : wlp (configure args) (fun o w' => o = Fine -> started strict w') w).
  { unfold wlp in Hwlp. rewrite E in Hwlp. specialize (Hwlp eq_refl). split; [done|]. intros Hs.
    destruct Hwlp as (Hc & _). eapply Forall_impl; [apply Hc|]. intros dp. by apply group_ok_conf. }
  unfold configure. apply wlp_bind. unfold wlp at 1. cbn. rewrite Hi.
  match goal with |- wlp _ _ ?w1 => assert (H1 : conf_ok strict (w_params w1)) end.
  { destruct (initial_params_ok strict). split; done. }
  apply wlp_bind. eapply wlp_mono; [by apply add_group_sound|]. cbn. intros ok w2 H2.
  ccase; [by apply wlp_ret|]. apply wlp_bind.
  eapply wlp_mono; [by apply parse_args_ok|]. cbn. intros o w3 H3.
  destruct o; [apply finish_params_started; auto|by apply wlp_ret..].
Qed.

Definition sample_args : list (Z * option (list Z)) :=
  [(chr "c", Some (chars "256")); (chr "s", Some (chars "1+s")); (chr "f", Some (chars "-1")); (chr "t", Some (chars "8"));
   (chr "O", Some (chars "20")); (chr "K", Some (chars "tls,http")); (chr "A", Some (chars "torst"));
   (chr "r", Some (chars "1+s")); (chr "e", Some (chars "\x41")); (chr "u", Some (chars "3600"));
   (chr "H", Some (chars ":abc.de example.org"))].
Lemma configure_sound_witness :
  exists w', configure sample_args (world_ok [] []) = Ok (Fine, w') /\ started true w' /\
    Forall (conf_wf (w_params w')) (ps_dp (w_params w')) /\ length (ps_dp (w_params w')) = 3%nat.
Proof.
  assert (E3 : match configure sample_args (world_ok [] []) with
               | Ok (Fine, w') => length (ps_dp (w_params w')) | _ => 0%nat end = 3%nat) by (vm_compute; reflexivity).
  destruct (configure sample_args (world_ok [] [])) as [[[] w']|f] eqn:E; try (exfalso; clear - E3; congruence).
  exists w'. split; [done|].
  destruct (configure_sound true sample_args (world_ok [] []) w') as [Hs Hc]; [reflexivity| |exact E|].
  - assert (Hno : forall rez arg, rez <> chr "O" -> arg_ok true rez arg) by (intros rez arg Hr _ Hr'; by destruct Hr).
    unfold sample_args. repeat (apply List.Forall_cons; [cbn [fst snd]|]); try apply List.Forall_nil; try (apply Hno; vm_compute; congruence).
    intros _ _ s v rest [= <-]. replace (str_num (chars "20")) with (Ok (20, [] : list Z)) by (vm_compute; reflexivity).
    intros [= <- <-]. vm_compute. congruence.
  - split; [exact Hs|]. split; [exact (Hc eq_refl)|exact E3].
Defined.
