(* ===== verification/HevIo.v ===== *)
(** Socket operations of a task of the tunnel: hev-task-io-socket.c of the task
    system, and the yielder of hev-socks5-misc.c.

    The tunnel is another program than the proxy; its worlds have the same shape,
    of which it uses the calls and the descriptors.  A [sendmsg] of several
    blocks to a socket is a send of their concatenation, and a [recvmsg] a
    receive of as many bytes as its blocks have.  The loops end when the socket
    or the scheduler says so; they take fuel. *)
From S2P Require Import Prelude Mpool Params World.

(** Bytes that were received into a variable; behind them nothing was stored. *)
Definition rd_init (d : list Z) (i : Z) : res Z :=
  if (0 <=? i) && (i <? zlen d) then Ok (byte_at d i) else Fault Uninit.
Definition rdn_init (d : list Z) (i n : Z) : res (list Z) :=
  if in_range d i n then Ok (sub d i n) else Fault Uninit.

(** [hev_socks5_task_io_yielder] for [HEV_TASK_WAITIO]. *)
Definition hev_socks5_task_io_yielder (timeout : Z) : io Z :=
  r ← call (SysYield timeout);
  mret (if timeout <? 0 then 0 else if r <? 0 then -1 else 0).

(** The return value and the bytes received. *)
Fixpoint hev_task_io_socket_recv (fuel : nat) (fd : Z) (buf : list Z) (len : Z) (waitall : bool) (timeout : Z)
    : io (Z * list Z) :=
  match fuel with
  | O => fault OutOfFuel
  | S k =>
      let size := zlen buf in
      r ← sys (SysRecv fd (len - size));
      e ← get_e;
      if (r_ret r <? 0) && (e =? EAGAIN) then
        y ← hev_socks5_task_io_yielder timeout;
        if negb (y =? 0) then mret (-2, buf) else hev_task_io_socket_recv k fd buf len waitall timeout
      else if negb waitall then mret (r_ret r, buf ++ r_data r)
      else if r_ret r <=? 0 then mret (if negb (size =? 0) then size else r_ret r, buf)
      else
        let buf := buf ++ r_data r in
        if zlen buf <? len then hev_task_io_socket_recv k fd buf len waitall timeout else mret (zlen buf, buf)
  end.

Fixpoint hev_task_io_socket_send (fuel : nat) (fd : Z) (buf : list Z) (size : Z) (waitall : bool) (timeout : Z) : io Z :=
  match fuel with
  | O => fault OutOfFuel
  | S k =>
      r ← sys (SysSend fd (drop (Z.to_nat size) buf) 0);
      e ← get_e;
      if (r_ret r <? 0) && (e =? EAGAIN) then
        y ← hev_socks5_task_io_yielder timeout;
        if negb (y =? 0) then mret (-2) else hev_task_io_socket_send k fd buf size waitall timeout
      else if negb waitall then mret (r_ret r)
      else if r_ret r <=? 0 then mret (if negb (size =? 0) then size else r_ret r)
      else
        let size := size + r_ret r in
        if size <? zlen buf then hev_task_io_socket_send k fd buf size waitall timeout else mret size
  end.

(** Lines 316-327 and 368-379: skip what was transferred. *)
Fixpoint advance (iov : list (list Z)) (s : Z) : list (list Z) :=
  match iov with
  | [] => []
  | b :: iov' => if s <? zlen b then drop (Z.to_nat s) b :: iov' else advance iov' (s - zlen b)
  end.
Fixpoint sendmsg_loop (fuel : nat) (fd : Z) (iov : list (list Z)) (size len : Z) (waitall : bool) (timeout : Z) : io Z :=
  match fuel with
  | O => fault OutOfFuel
  | S k =>
      r ← sys (SysSend fd (concat iov) 0);
      e ← get_e;
      if (r_ret r <? 0) && (e =? EAGAIN) then
        y ← hev_socks5_task_io_yielder timeout;
        if negb (y =? 0) then mret (-2) else sendmsg_loop k fd iov size len waitall timeout
      else if negb waitall then mret (r_ret r)
      else if r_ret r <=? 0 then mret (if negb (size =? 0) then size else r_ret r)
      else
        let size := size + r_ret r in
        if size <? len then sendmsg_loop k fd (advance iov (r_ret r)) size len waitall timeout else mret size
  end.
Definition hev_task_io_socket_sendmsg (fuel : nat) (fd : Z) (iov : list (list Z)) (waitall : bool) (timeout : Z) : io Z :=
  sendmsg_loop fuel fd iov 0 (zlen (concat iov)) waitall timeout.

(** The blocks of [recvmsg] by their lengths. *)
Fixpoint advance_len (iov : list Z) (s : Z) : list Z :=
  match iov with
  | [] => []
  | n :: iov' => if s <? n then n - s :: iov' else advance_len iov' (s - n)
  end.
Fixpoint recvmsg_loop (fuel : nat) (fd : Z) (iov : list Z) (buf : list Z) (len : Z) (waitall : bool) (timeout : Z)
    : io (Z * list Z) :=
  match fuel with
  | O => fault OutOfFuel
  | S k =>
      let size := zlen buf in
      r ← sys (SysRecv fd (foldr Z.add 0 iov));
      e ← get_e;
      if (r_ret r <? 0) && (e =? EAGAIN) then
        y ← hev_socks5_task_io_yielder timeout;
        if negb (y =? 0) then mret (-2, buf) else recvmsg_loop k fd iov buf len waitall timeout
      else if negb waitall then mret (r_ret r, buf ++ r_data r)
      else if r_ret r <=? 0 then mret (if negb (size =? 0) then size else r_ret r, buf)
      else
        let buf := buf ++ r_data r in
        if zlen buf <? len then recvmsg_loop k fd (advance_len iov (r_ret r)) buf len waitall timeout
        else mret (zlen buf, buf)
  end.
Definition hev_task_io_socket_recvmsg (fuel : nat) (fd : Z) (iov : list Z) (waitall : bool) (timeout : Z) : io (Z * list Z) :=
  recvmsg_loop fuel fd iov [] (foldr Z.add 0 iov) waitall timeout.

(** Without [MSG_WAITALL]; also the sender's address. *)
Fixpoint hev_task_io_socket_recvfrom (fuel : nat) (fd len timeout : Z) : io (Z * list Z) :=
  match fuel with
  | O => fault OutOfFuel
  | S k =>
      r ← sys (SysRecvfrom fd len);
      e ← get_e;
      if (r_ret r <? 0) && (e =? EAGAIN) then
        y ← hev_socks5_task_io_yielder timeout;
        if negb (y =? 0) then mret (-2, []) else hev_task_io_socket_recvfrom k fd len timeout
      else mret (r_ret r, r_data r)
  end.

Definition EALREADY : Z := 114.
Definition EISCONN : Z := 106.
Fixpoint hev_task_io_socket_connect (fuel : nat) (fd : Z) (addr : sockaddr) (timeout : Z) : io Z :=
  match fuel with
  | O => fault OutOfFuel
  | S k =>
      r ← call (SysConnect fd addr);
      if negb (r <? 0) then mret r else
      e ← get_e;
      if (e =? EINPROGRESS) || (e =? EALREADY) then
        y ← hev_socks5_task_io_yielder timeout;
        if negb (y =? 0) then mret (-2) else hev_task_io_socket_connect k fd addr timeout
      else mret (if e =? EISCONN then 0 else r)
  end.

Definition hev_task_io_socket_socket (domain type : Z) : io Z :=
  fd ← call (SysSocket domain type);
  if fd <? 0 then mret fd else
  r ← call (SysNonblock fd);
  if r <? 0 then _ ← close fd; mret (-2) else mret fd.
