(* ===== verification/HevSocks.v ===== *)
(** The SOCKS5 side of the tunnel: hev-socks5-misc.c (addresses), hev-socks5.c,
    hev-socks5-client.c with its TCP and UDP classes, hev-socks5-udp.c. *)
From S2P Require Import Prelude CLib Packets Mpool Params World HevIo.

(** * hev-socks5-proto.h *)
Definition HEV_SOCKS5_VERSION_5 : Z := 5.
Definition HEV_SOCKS5_AUTH_METHOD_NONE : Z := 0.
Definition HEV_SOCKS5_AUTH_METHOD_USER : Z := 2.
Definition HEV_SOCKS5_AUTH_VERSION_1 : Z := 1.
Definition HEV_SOCKS5_REQ_CMD_CONNECT : Z := 1.
Definition HEV_SOCKS5_REQ_CMD_UDP_ASC : Z := 3.
Definition HEV_SOCKS5_REQ_CMD_FWD_UDP : Z := 5.
Definition HEV_SOCKS5_RES_REP_SUCC : Z := 0.
Definition HEV_SOCKS5_ADDR_TYPE_IPV4 : Z := 1.
Definition HEV_SOCKS5_ADDR_TYPE_IPV6 : Z := 4.
Definition HEV_SOCKS5_ADDR_TYPE_NAME : Z := 3.

(** * Addresses

    A [HevSocks5Addr] is packed: the type, then the address and the port, or the
    length, the name and the port.  It is the list of its bytes. *)
Notation socks_addr := (list Z).

(** [IN6_IS_ADDR_V4MAPPED] *)
Definition is_v4mapped (a : sockaddr) : bool :=
  bool_decide (sub a 8 10 = replicate 10 0) && bool_decide (sub a 18 2 = [255; 255]).

Definition hev_socks5_addr_from_sockaddr (saddr : sockaddr) : Z * socks_addr :=
  let port := sub saddr 2 2 in
  if sa_family saddr =? AF_INET then (7, HEV_SOCKS5_ADDR_TYPE_IPV4 :: sin_addr saddr ++ port)
  else if sa_family saddr =? AF_INET6 then
    if is_v4mapped saddr then (7, HEV_SOCKS5_ADDR_TYPE_IPV4 :: sub saddr 20 4 ++ port)
    else (19, HEV_SOCKS5_ADDR_TYPE_IPV6 :: sin6_addr saddr ++ port)
  else (-1, []).

Definition hev_socks5_addr_to_sockaddr4 (addr : socks_addr) (saddr : sockaddr) : res (Z * sockaddr) :=
  t ← rd_init addr 0;
  if t =? HEV_SOCKS5_ADDR_TYPE_IPV4 then
    port ← rdn_init addr 5 2;
    a ← rdn_init addr 1 4;
    mret (sizeof_sockaddr_in, put (put (set_family saddr AF_INET) 2 port) 4 a)
  else mret (-1, saddr).
Definition hev_socks5_addr_to_sockaddr6 (addr : socks_addr) (saddr : sockaddr) : res (Z * sockaddr) :=
  t ← rd_init addr 0;
  if t =? HEV_SOCKS5_ADDR_TYPE_IPV4 then
    port ← rdn_init addr 5 2;
    a ← rdn_init addr 1 4;
    let s := put (set_family saddr AF_INET6) 2 port in
    mret (sizeof_sockaddr_in6, put (put (put s 8 (replicate 10 0)) 18 [255; 255]) 20 a)
  else if t =? HEV_SOCKS5_ADDR_TYPE_IPV6 then
    port ← rdn_init addr 17 2;
    a ← rdn_init addr 1 16;
    mret (sizeof_sockaddr_in6, put (put (set_family saddr AF_INET6) 2 port) 8 a)
  else mret (-1, saddr).
Definition hev_socks5_addr_to_sockaddr (addr : socks_addr) (saddr : sockaddr) : res (Z * sockaddr) :=
  if sa_family saddr =? AF_INET then hev_socks5_addr_to_sockaddr4 addr saddr
  else hev_socks5_addr_to_sockaddr6 addr saddr.

(** [hev_socks5_socket]: [rcvbuf] is [udp_recv_buffer_size].  Adding the
    descriptor to the task's poller is part of the scheduler. *)
Definition SO_RCVBUF : Z := 8.
Definition hev_socks5_socket (type rcvbuf : Z) : io Z :=
  fd ← hev_task_io_socket_socket AF_INET6 type;
  if fd <? 0 then mret (-1) else
  _ ← (if type =? SOCK_DGRAM then call (SysSetsockopt fd SOL_SOCKET SO_RCVBUF (le32 rcvbuf)) else mret 0);
  mret fd.

(** * The client object

    [c_addr] belongs to the TCP class, [c_udp_fd] to the UDP class; [c_mark] is
    the mark the session's [binder] gives to sockets. *)
Inductive HevSocks5Type : Set :=
  | HEV_SOCKS5_TYPE_NONE
  | HEV_SOCKS5_TYPE_TCP
  | HEV_SOCKS5_TYPE_UDP_IN_TCP
  | HEV_SOCKS5_TYPE_UDP_IN_UDP.
#[export] Instance HevSocks5Type_eq_dec : EqDecision HevSocks5Type.
Proof. solve_decision. Defined.

Record HevSocks5Client : Type := Client {
  c_fd : Z;
  c_timeout : Z;
  c_type : HevSocks5Type;
  c_user : option (list Z);
  c_pass : option (list Z);
  c_addr : option socks_addr;
  c_udp_fd : Z;
  c_mark : Z
}.
Definition set_c_fd v c := Client v (c_timeout c) (c_type c) (c_user c) (c_pass c) (c_addr c) (c_udp_fd c) (c_mark c).
Definition set_c_timeout v c := Client (c_fd c) v (c_type c) (c_user c) (c_pass c) (c_addr c) (c_udp_fd c) (c_mark c).
Definition set_c_auth u p c := Client (c_fd c) (c_timeout c) (c_type c) u p (c_addr c) (c_udp_fd c) (c_mark c).
Definition set_c_addr v c := Client (c_fd c) (c_timeout c) (c_type c) (c_user c) (c_pass c) v (c_udp_fd c) (c_mark c).
Definition set_c_udp_fd v c := Client (c_fd c) (c_timeout c) (c_type c) (c_user c) (c_pass c) (c_addr c) v (c_mark c).

(** [hev_socks5_construct] and the classes' constructors. *)
Definition hev_socks5_construct (type : HevSocks5Type) (mark : Z) : HevSocks5Client :=
  Client (-1) (-1) type None None None (-1) mark.
(** [ok] says whether [hev_malloc] succeeds; [None] when the constructor fails. *)
Definition hev_socks5_client_tcp_construct_ip (ok : bool) (saddr : sockaddr) (mark : Z) : option HevSocks5Client :=
  let self := hev_socks5_construct HEV_SOCKS5_TYPE_TCP mark in
  if negb ok then None else
  let '(res, addr) := hev_socks5_addr_from_sockaddr saddr in
  if res <=? 0 then None else Some (set_c_addr (Some addr) self).
(** A name; its length is stored in one byte, the copy is of all of it. *)
Definition hev_socks5_client_tcp_construct (ok : bool) (name : list Z) (port mark : Z) : option HevSocks5Client :=
  let self := hev_socks5_construct HEV_SOCKS5_TYPE_TCP mark in
  if negb ok then None else
  let nport := htons port in
  Some (set_c_addr (Some (HEV_SOCKS5_ADDR_TYPE_NAME :: u8 (zlen name) :: name ++ [u8 nport; u8 (Z.shiftr nport 8)])) self).
Definition hev_socks5_client_udp_construct (udp_in_udp : bool) (mark : Z) : HevSocks5Client :=
  hev_socks5_construct (if udp_in_udp then HEV_SOCKS5_TYPE_UDP_IN_UDP else HEV_SOCKS5_TYPE_UDP_IN_TCP) mark.
Definition hev_socks5_client_set_auth (user pass : option (list Z)) (self : HevSocks5Client) : HevSocks5Client :=
  set_c_auth user pass self.

(** [klass->binder]: hev_socks5_session_tcp_bind, hev_socks5_session_udp_bind. *)
Definition SO_MARK : Z := 36.
Definition hev_socks5_session_bind (self : HevSocks5Client) (fd : Z) : io Z :=
  if negb (c_mark self =? 0) then
    res ← call (SysSetsockopt fd SOL_SOCKET SO_MARK (le32 (c_mark self)));
    mret (if res <? 0 then -1 else 0)
  else mret 0.

(** [saddr] is what [hev_socks5_resolve_to_sockaddr6] finds. *)
Definition hev_socks5_client_connect_server (fuel : nat) (self : HevSocks5Client) (saddr : option sockaddr)
    : io (Z * HevSocks5Client) :=
  match saddr with
  | None => mret (-1, self)
  | Some saddr =>
      fd ← hev_socks5_socket SOCK_STREAM 0;
      if fd <? 0 then mret (-1, self) else
      res ← hev_socks5_session_bind self fd;
      if res <? 0 then _ ← close fd; mret (-1, self) else
      res ← hev_task_io_socket_connect fuel fd saddr (c_timeout self);
      if res <? 0 then _ ← close fd; mret (-1, self) else
      mret (0, set_c_fd fd self)
  end.
Definition hev_socks5_client_connect fuel self saddr : io (Z * HevSocks5Client) :=
  '(res, self) ← hev_socks5_client_connect_server fuel self saddr;
  mret (if res <? 0 then -1 else 0, self).

(** ** Writing *)
Definition hev_socks5_client_write_auth_methods (fuel : nat) (self : HevSocks5Client) : io Z :=
  let method :=
    match c_user self, c_pass self with
    | Some _, Some _ => HEV_SOCKS5_AUTH_METHOD_USER
    | _, _ => HEV_SOCKS5_AUTH_METHOD_NONE
    end in
  res ← hev_task_io_socket_send fuel (c_fd self) [HEV_SOCKS5_VERSION_5; 1; method] 0 true (c_timeout self);
  mret (if res <=? 0 then -1 else 0).

(** The lengths are stored in bytes. *)
Definition hev_socks5_client_write_auth_creds (fuel : nat) (self : HevSocks5Client) : io Z :=
  match c_user self, c_pass self with
  | Some user, Some pass =>
      let ul := u8 (zlen user) in
      let pl := u8 (zlen pass) in
      res ← hev_task_io_socket_sendmsg fuel (c_fd self)
        [[HEV_SOCKS5_AUTH_VERSION_1; ul]; take (Z.to_nat ul) user; [pl]; take (Z.to_nat pl) pass] true (c_timeout self);
      mret (if res <=? 0 then -1 else 0)
  | _, _ => mret 0
  end.

(** [klass->get_upstream_addr] *)
Definition get_upstream_addr (self : HevSocks5Client) : io (option socks_addr * HevSocks5Client) :=
  if decide (c_type self = HEV_SOCKS5_TYPE_TCP) then mret (c_addr self, set_c_addr None self)
  else
    ok ← call (SysAlloc 7);
    mret (if ok <? 0 then None else Some (HEV_SOCKS5_ADDR_TYPE_IPV4 :: replicate 6 0), self).

Definition hev_socks5_client_write_request (fuel : nat) (self : HevSocks5Client) : io (Z * HevSocks5Client) :=
  let cmd :=
    match c_type self with
    | HEV_SOCKS5_TYPE_TCP => Some HEV_SOCKS5_REQ_CMD_CONNECT
    | HEV_SOCKS5_TYPE_UDP_IN_TCP => Some HEV_SOCKS5_REQ_CMD_FWD_UDP
    | HEV_SOCKS5_TYPE_UDP_IN_UDP => Some HEV_SOCKS5_REQ_CMD_UDP_ASC
    | HEV_SOCKS5_TYPE_NONE => None
    end in
  match cmd with
  | None => mret (-1, self)
  | Some cmd =>
      '(addr, self) ← get_upstream_addr self;
      match addr with
      | None => fault NullDeref
      | Some addr =>
          atype ← lift (rd addr 0);
          l ← lift (if atype =? HEV_SOCKS5_ADDR_TYPE_IPV4 then mret 7
                    else if atype =? HEV_SOCKS5_ADDR_TYPE_IPV6 then mret 19
                    else if atype =? HEV_SOCKS5_ADDR_TYPE_NAME then l ← rd addr 1; mret (4 + l)
                    else mret (-1) : res Z);
          if l <? 0 then mret (-1, self) else
          d ← lift (rdn addr 0 l);
          ret ← hev_task_io_socket_sendmsg fuel (c_fd self) [[HEV_SOCKS5_VERSION_5; cmd; 0]; d] true (c_timeout self);
          mret (if ret <=? 0 then -1 else 0, self)
      end
  end.

(** ** Reading *)
Definition hev_socks5_client_read_auth_method (fuel : nat) (self : HevSocks5Client) : io Z :=
  '(res, auth) ← hev_task_io_socket_recv fuel (c_fd self) [] 2 true (c_timeout self);
  if res <=? 0 then mret (-1) else
  ver ← lift (rd_init auth 0);
  if negb (ver =? HEV_SOCKS5_VERSION_5) then mret (-1) else
  lift (rd_init auth 1).

Definition hev_socks5_client_read_auth_creds (fuel : nat) (self : HevSocks5Client) : io Z :=
  '(ret, res) ← hev_task_io_socket_recv fuel (c_fd self) [] 2 true (c_timeout self);
  if ret <=? 0 then mret (-1) else
  ver ← lift (rd_init res 0);
  if negb (ver =? HEV_SOCKS5_AUTH_VERSION_1) then mret (-1) else
  rep ← lift (rd_init res 1);
  mret (if negb (rep =? HEV_SOCKS5_RES_REP_SUCC) then -1 else 0).

(** [hev_socks5_client_udp_set_upstream_addr] *)
Definition udp_set_upstream_addr (fuel : nat) (self : HevSocks5Client) (addr : socks_addr) (rcvbuf : Z)
    : io (Z * HevSocks5Client) :=
  '(res, saddr) ← lift (hev_socks5_addr_to_sockaddr addr (set_family zero_addr AF_INET6));
  if res <? 0 then mret (-1, self) else
  fd ← hev_socks5_socket SOCK_DGRAM rcvbuf;
  if fd <? 0 then mret (-1, self) else
  res ← hev_socks5_session_bind self fd;
  if res <? 0 then _ ← close fd; mret (-1, self) else
  res ← hev_task_io_socket_connect fuel fd saddr (c_timeout self);
  if res <? 0 then _ ← close fd; mret (-1, self) else
  mret (0, set_c_udp_fd fd self).
(** [klass->set_upstream_addr] *)
Definition set_upstream_addr (fuel : nat) (self : HevSocks5Client) (addr : socks_addr) (rcvbuf : Z)
    : io (Z * HevSocks5Client) :=
  if decide (c_type self = HEV_SOCKS5_TYPE_UDP_IN_UDP) then udp_set_upstream_addr fuel self addr rcvbuf
  else mret (0, self).

Definition hev_socks5_client_read_response (fuel : nat) (self : HevSocks5Client) (rcvbuf : Z)
    : io (Z * HevSocks5Client) :=
  '(ret, res) ← hev_task_io_socket_recv fuel (c_fd self) [] 4 true (c_timeout self);
  if ret <=? 0 then mret (-1, self) else
  ver ← lift (rd_init res 0);
  if negb (ver =? HEV_SOCKS5_VERSION_5) then mret (-1, self) else
  rep ← lift (rd_init res 1);
  if negb (rep =? HEV_SOCKS5_RES_REP_SUCC) then mret (-1, self) else
  atype ← lift (rd_init res 3);
  let addrlen := if atype =? HEV_SOCKS5_ADDR_TYPE_IPV4 then 6 else if atype =? HEV_SOCKS5_ADDR_TYPE_IPV6 then 18 else -1 in
  if addrlen <? 0 then mret (-1, self) else
  '(ret, rest) ← hev_task_io_socket_recv fuel (c_fd self) [] addrlen true (c_timeout self);
  if ret <=? 0 then mret (-1, self) else
  '(ret, self) ← set_upstream_addr fuel self (atype :: rest) rcvbuf;
  mret (if ret <? 0 then -1 else 0, self).

(** ** The handshake *)
Definition hev_socks5_client_handshake_standard (fuel : nat) (self : HevSocks5Client) (rcvbuf : Z)
    : io (Z * HevSocks5Client) :=
  res ← hev_socks5_client_write_auth_methods fuel self;
  if res <? 0 then mret (-1, self) else
  res ← hev_socks5_client_read_auth_method fuel self;
  if res <? 0 then mret (-1, self) else
  ok ← (if res =? HEV_SOCKS5_AUTH_METHOD_USER then
          res ← hev_socks5_client_write_auth_creds fuel self;
          if res <? 0 then mret false else
          res ← hev_socks5_client_read_auth_creds fuel self;
          mret (negb (res <? 0))
        else mret (res =? HEV_SOCKS5_AUTH_METHOD_NONE));
  if negb ok then mret (-1, self) else
  '(res, self) ← hev_socks5_client_write_request fuel self;
  if res <? 0 then mret (-1, self) else
  '(res, self) ← hev_socks5_client_read_response fuel self rcvbuf;
  mret (if res <? 0 then -1 else 0, self).

Definition hev_socks5_client_handshake_pipeline (fuel : nat) (self : HevSocks5Client) (rcvbuf : Z)
    : io (Z * HevSocks5Client) :=
  res ← hev_socks5_client_write_auth_methods fuel self;
  if res <? 0 then mret (-1, self) else
  res ← hev_socks5_client_write_auth_creds fuel self;
  if res <? 0 then mret (-1, self) else
  '(res, self) ← hev_socks5_client_write_request fuel self;
  if res <? 0 then mret (-1, self) else
  res ← hev_socks5_client_read_auth_method fuel self;
  if res <? 0 then mret (-1, self) else
  ok ← (if res =? HEV_SOCKS5_AUTH_METHOD_USER then
          res ← hev_socks5_client_read_auth_creds fuel self;
          mret (negb (res <? 0))
        else mret (res =? HEV_SOCKS5_AUTH_METHOD_NONE));
  if negb ok then mret (-1, self) else
  '(res, self) ← hev_socks5_client_read_response fuel self rcvbuf;
  mret (if res <? 0 then -1 else 0, self).

Definition hev_socks5_client_handshake (fuel : nat) (self : HevSocks5Client) (pipeline : bool) (rcvbuf : Z)
    : io (Z * HevSocks5Client) :=
  if pipeline then hev_socks5_client_handshake_pipeline fuel self rcvbuf
  else hev_socks5_client_handshake_standard fuel self rcvbuf.

(** hev-socks5-session.c, up to the splicer: [Some] when it is to run. *)
Record HevConfigServer : Type := Server {
  srv_addr : option sockaddr;    (* [addr] and [port], resolved *)
  srv_user : option (list Z);
  srv_pass : option (list Z);
  srv_pipeline : bool
}.
Definition hev_socks5_session_run (fuel : nat) (self : HevSocks5Client) (srv : HevConfigServer)
    (connect_timeout read_write_timeout rcvbuf : Z) : io (option HevSocks5Client * HevSocks5Client) :=
  let self := set_c_timeout connect_timeout self in
  '(res, self) ← hev_socks5_client_connect fuel self (srv_addr srv);
  if res <? 0 then mret (None, self) else
  let self := set_c_timeout read_write_timeout self in
  let self :=
    match srv_user srv, srv_pass srv with
    | Some _, Some _ => hev_socks5_client_set_auth (srv_user srv) (srv_pass srv) self
    | _, _ => self
    end in
  '(res, self) ← hev_socks5_client_handshake fuel self (srv_pipeline srv) rcvbuf;
  if res <? 0 then mret (None, self) else mret (Some self, self).

(** [hev_socks5_client_udp_destruct], [hev_socks5_destruct] *)
Definition hev_socks5_destruct (self : HevSocks5Client) : io unit :=
  _ ← (if 0 <=? c_udp_fd self then close (c_udp_fd self) else mret tt);
  if 0 <=? c_fd self then close (c_fd self) else mret tt.

(** * hev-socks5-udp.c *)

(** [hev_socks5_udp_get_fd] *)
Definition hev_socks5_udp_get_fd (self : HevSocks5Client) : Z :=
  match c_type self with
  | HEV_SOCKS5_TYPE_UDP_IN_TCP => c_fd self
  | HEV_SOCKS5_TYPE_UDP_IN_UDP => c_udp_fd self
  | _ => -1
  end.

(** The header is [datlen], in network order, and [hdrlen], or three zeros. *)
Definition hev_socks5_udp_sendto (fuel : nat) (self : HevSocks5Client) (buf : list Z) (addr : sockaddr) : io Z :=
  let '(addrlen, a) := hev_socks5_addr_from_sockaddr addr in
  if addrlen <=? 0 then mret (-1) else
  let len := htons (zlen buf) in
  let rsv :=
    match c_type self with
    | HEV_SOCKS5_TYPE_UDP_IN_TCP => Some [u8 len; u8 (Z.shiftr len 8); u8 (3 + addrlen)]
    | HEV_SOCKS5_TYPE_UDP_IN_UDP => Some [0; 0; 0]
    | _ => None
    end in
  match rsv with
  | None => mret (-1)
  | Some rsv =>
      hev_task_io_socket_sendmsg fuel (hev_socks5_udp_get_fd self) [rsv ++ a; buf] true (c_timeout self)
  end.

(** The result, the bytes stored into the caller's buffer, and its address. *)
Definition hev_socks5_udp_recvfrom_tcp (fuel : nat) (self : HevSocks5Client) (len : Z) (addr : sockaddr)
    : io (Z * list Z * sockaddr) :=
  let fd := hev_socks5_udp_get_fd self in
  '(res, udp) ← hev_task_io_socket_recv fuel fd [] 4 true (c_timeout self);
  if res <=? 0 then mret (res, [], addr) else
  d ← lift (rdn_init udp 0 2);
  let datlen := 256 * byte_at d 0 + byte_at d 1 in
  if len <? datlen then mret (-1, [], addr) else
  hdrlen ← lift (rd_init udp 2);
  (* a negative length is refused by the system (EINVAL) *)
  if hdrlen <? 4 then mret (-1, [], addr) else
  '(res, more) ← hev_task_io_socket_recvmsg fuel fd [hdrlen - 4; datlen] true (c_timeout self);
  if res <=? 0 then mret (res, [], addr) else
  atype ← lift (rd_init udp 3);
  let a := take (Z.to_nat (hdrlen - 4)) more in
  '(res, addr) ← lift (hev_socks5_addr_to_sockaddr (atype :: a) addr);
  if res <? 0 then mret (-1, [], addr) else
  mret (datlen, drop (Z.to_nat (hdrlen - 4)) more, addr).

Definition hev_socks5_udp_recvfrom_udp (fuel : nat) (self : HevSocks5Client) (len : Z) (addr : sockaddr)
    : io (Z * list Z * sockaddr) :=
  '(rlen, rbuf) ← hev_task_io_socket_recvfrom fuel (hev_socks5_udp_get_fd self) 1500 (c_timeout self);
  if rlen <? 4 then mret (rlen, [], addr) else
  atype ← lift (rd_init rbuf 3);
  let doff := if atype =? HEV_SOCKS5_ADDR_TYPE_IPV4 then 10 else if atype =? HEV_SOCKS5_ADDR_TYPE_IPV6 then 22 else -1 in
  if doff <? 0 then mret (-1, [], addr) else
  if rlen <? doff then mret (-1, [], addr) else
  let rlen := rlen - doff in
  let rlen := if len <? rlen then len else rlen in
  d ← lift (rdn_init rbuf doff rlen);
  '(res, addr) ← lift (hev_socks5_addr_to_sockaddr (drop 3 rbuf) addr);
  if res <? 0 then mret (-1, [], addr) else
  mret (rlen, d, addr).

Definition hev_socks5_udp_recvfrom (fuel : nat) (self : HevSocks5Client) (len : Z) (addr : sockaddr)
    : io (Z * list Z * sockaddr) :=
  match c_type self with
  | HEV_SOCKS5_TYPE_UDP_IN_TCP => hev_socks5_udp_recvfrom_tcp fuel self len addr
  | HEV_SOCKS5_TYPE_UDP_IN_UDP => hev_socks5_udp_recvfrom_udp fuel self len addr
  | _ => mret (-1, [], addr)
  end.
