(* ===== verification/HevSocksProps.v ===== *)
(** The tunnel's SOCKS client and the proxy understand each other: the handshake
    of one is the greeting and the request of the other, and so are datagrams. *)
From S2P Require Import Prelude CLib Packets Mpool Params World Desync Stream DesyncSpec Socks SocksProps Proxy HevIo HevSocks.

(** * Addresses *)

(** The address an IPv4-mapped one stands for, as the proxy turns it round. *)
Definition unmap (a : sockaddr) : sockaddr :=
  if (sa_family a =? AF_INET6) && is_v4mapped a then map_fix a 0 else a.

Lemma v4mapped_fix a : length a = 28%nat -> is_v4mapped a = true ->
  map_fix a 0 = [2; 0] ++ sub a 2 2 ++ sub a 20 4 ++ sub a 8 20.
Proof.
  intros Ha Hm. unfold is_v4mapped in Hm. apply andb_prop in Hm as [H1%bool_decide_eq_true H2%bool_decide_eq_true].
  apply map_fix_unmapped; [done|..].
  - replace (sub a 8 8) with (sub (sub a 8 10) 0 8) by (explode a Ha; reflexivity). by rewrite H1.
  - replace (sub a 16 2) with (sub (sub a 8 10) 8 2) by (explode a Ha; reflexivity). by rewrite H1.
  - replace (get16 a 18) with (get16 (sub a 18 2) 0) by (explode a Ha; reflexivity). by rewrite H2.
Qed.
Lemma unmap_v4 a : length a = 28%nat -> sa_family a = AF_INET6 -> is_v4mapped a = true ->
  sa_family (unmap a) = AF_INET /\ sin_addr (unmap a) = sub a 20 4 /\ sub (unmap a) 2 2 = sub a 2 2.
Proof.
  intros Ha Hf Hm. unfold unmap. rewrite Hf, Hm. cbn [Z.eqb AF_INET6 Pos.eqb andb]. rewrite v4mapped_fix by done.
  clear Hm Hf. explode a Ha. done.
Qed.
Lemma length_unmap a : length a = 28%nat -> length (unmap a) = 28%nat.
Proof. intros Ha. unfold unmap. ccase; [|done]. rewrite v4mapped_fix by (done || lia). explode a Ha. done. Qed.
Lemma unmap_family a : length a = 28%nat -> sa_family a = AF_INET \/ sa_family a = AF_INET6 ->
  sa_family (unmap a) = AF_INET \/ sa_family (unmap a) = AF_INET6.
Proof.
  intros Ha Hf. destruct (is_v4mapped a) eqn:Hm; [destruct (Z.eqb_spec (sa_family a) AF_INET6)|].
  - left. by apply unmap_v4.
  - unfold unmap. by replace (sa_family a =? AF_INET6) with false by lia.
  - unfold unmap. by rewrite Hm, andb_false_r.
Qed.

(** The tunnel's address is the proxy's encoding of the unmapped one. *)
Lemma from_sockaddr_enc a : length a = 28%nat -> sa_family a = AF_INET \/ sa_family a = AF_INET6 ->
  hev_socks5_addr_from_sockaddr a = (enc_size (unmap a) - 3, addr_enc (unmap a)).
Proof.
  intros Ha Hf. unfold hev_socks5_addr_from_sockaddr.
  destruct Hf as [Hf|Hf]; rewrite Hf; cbn [Z.eqb AF_INET AF_INET6 Pos.eqb].
  - unfold unmap. rewrite Hf. cbn [Z.eqb AF_INET AF_INET6 Pos.eqb andb]. unfold enc_size, addr_enc, ip_of. by rewrite Hf.
  - destruct (is_v4mapped a) eqn:Hm.
    + destruct (unmap_v4 a Ha Hf Hm) as (Hu & Hs & Hp). unfold enc_size, addr_enc, ip_of. by rewrite Hu, Hs, Hp.
    + unfold unmap. rewrite Hm, andb_false_r. unfold enc_size, addr_enc, ip_of. by rewrite Hf.
Qed.

(** * The dialogue on a connection *)

(** What was sent on [fd], a message per call, and how much was received. *)
Fixpoint messages (fd : Z) (tr : trace) : list (list Z) :=
  match tr with
  | [] => []
  | (SysSend f d _, r) :: tr => messages fd tr ++ (if (f =? fd) && (0 <? r_ret r) then [sub d 0 (r_ret r)] else [])
  | _ :: tr => messages fd tr
  end.
Fixpoint received (fd : Z) (tr : trace) : Z :=
  match tr with
  | [] => 0
  | (SysRecv f _, r) :: tr => received fd tr + (if f =? fd then Z.max 0 (r_ret r) else 0)
  | _ :: tr => received fd tr
  end.

(** A peer: it takes every message whole, and of what it answers to the messages
    so far each receive gets some, as long as there is any. *)
Definition serves (fd : Z) (reply : list (list Z) -> list Z) (E : trace -> sysreq -> sysrsp) : Prop :=
  forall tr,
    (forall d flags, r_ret (E tr (SysSend fd d flags)) = zlen d) /\
    (forall n, let avail := drop (Z.to_nat (received fd tr)) (reply (messages fd tr)) in
       0 < n -> avail <> [] ->
       let k := r_ret (E tr (SysRecv fd n)) in
       1 <= k <= Z.min n (zlen avail) /\ take (Z.to_nat k) (r_data (E tr (SysRecv fd n))) = take (Z.to_nat k) avail).

Section Dialogue.
Context (fd : Z) (reply : list (list Z) -> list Z) (E : trace -> sysreq -> sysrsp).
Hypothesis Hserves : serves fd reply E.

(** The state of the dialogue: [ms] was said and [k] bytes were heard. *)
Record said (ms : list (list Z)) (k : Z) (w : world) : Prop := {
  sd_env : w_env w = E;
  sd_messages : messages fd (w_trace w) = ms;
  sd_received : received fd (w_trace w) = k
}.

Lemma kernel_env q r w : w_env (kernel q r w) = w_env w.
Proof. unfold kernel. repeat case_match; done. Qed.
Lemma kernel_trace q r w : w_trace (kernel q r w) = w_trace w.
Proof. unfold kernel. repeat case_match; done. Qed.

Lemma send_said ms k d w (A : Type) (f : sysrsp -> io A) (Q : A -> world -> Prop) :
  said ms k w -> d <> [] ->
  (forall r w', r_ret r = zlen d -> said (ms ++ [d]) k w' -> wp (f r) Q w') ->
  wp (r ← sys (SysSend fd d 0); f r) Q w.
Proof.
  intros [He Hm Hr] Hd H. apply wp_bind, wp_sys. intros r Hrr.
  assert (Hret : r_ret r = zlen d).
  { rewrite Hrr. cbn. rewrite He. destruct (Hserves (w_trace w)) as [Hs _]. rewrite Hs. unfold clip. lia. }
  apply H; [done|]. assert (0 < zlen d) by (destruct d; [done|simpl; lia]).
  split; cbn; rewrite ?kernel_env; try done.
  rewrite Hm, Z.eqb_refl, Hret. replace (0 <? zlen d) with true by lia. cbn. by rewrite sub_all.
Qed.

Lemma sub_grow b k m n : 0 <= k -> 0 <= m -> 0 <= n ->
  sub b k m ++ take (Z.to_nat n) (drop (Z.to_nat (k + m)) b) = sub b k (m + n).
Proof.
  intros. unfold sub. replace (Z.to_nat (k + m)) with (Z.to_nat k + Z.to_nat m)%nat by lia.
  rewrite <- drop_drop, take_take_drop. f_equal. lia.
Qed.
Lemma take_fit k d e : Z.to_nat k = length (take (Z.to_nat k) e) -> is_bytes e ->
  take (Z.to_nat k) d = take (Z.to_nat k) e -> fit k d = take (Z.to_nat k) e.
Proof.
  intros Hl He Ht. unfold fit. assert (Hd : (Z.to_nat k <= length d)%nat).
  { rewrite <- Ht in Hl. rewrite length_take in Hl. lia. }
  rewrite take_app_le, Ht by done. rewrite <- (map_id (take _ e)) at 2. apply map_ext_Forall.
  apply Forall_take. eapply Forall_impl; [exact He|]. intros x Hx. by apply u8_small.
Qed.

(** Receiving [len] bytes that are there gives exactly them. *)
Lemma recv_said fuel ms k len timeout w (Q : Z * list Z -> world -> Prop) : is_bytes (reply ms) -> forall buf,
  said ms (k + zlen buf) w -> buf = sub (reply ms) k (zlen buf) -> 0 <= k -> zlen buf < len ->
  k + len <= zlen (reply ms) -> (Z.to_nat (len - zlen buf) < fuel)%nat ->
  (forall w', said ms (k + len) w' -> Q (len, sub (reply ms) k len) w') ->
  wp (hev_task_io_socket_recv fuel fd buf len true timeout) Q w.
Proof.
  intros Hbytes. revert w. induction fuel as [|fuel IH]; intros w buf Hs Hbuf Hk Hb Hl Hf H; [lia|]. cbn [hev_task_io_socket_recv].
  destruct Hs as [He Hm Hr]. apply wp_bind, wp_sys. intros r Hrr.
  set (avail := drop (Z.to_nat (k + zlen buf)) (reply ms)).
  assert (Hav : zlen avail = zlen (reply ms) - k - zlen buf) by (unfold avail; rewrite length_drop; lia).
  destruct (Hserves (w_trace w)) as [_ Hrecv]. specialize (Hrecv (len - zlen buf)).
  rewrite Hm, Hr in Hrecv. fold avail in Hrecv. destruct Hrecv as [Hret Hdata]; [lia|intros En; rewrite En in Hav; simpl in *; lia|].
  cbn in Hrr. rewrite He in Hrr. set (n := r_ret (E (w_trace w) (SysRecv fd (len - zlen buf)))) in *.
  assert (Hn : r_ret r = n) by (rewrite Hrr; unfold amount; cbn [r_ret]; fold n; unfold clip; lia).
  assert (Hd : r_data r = take (Z.to_nat n) avail).
  { rewrite Hrr. unfold amount. cbn [r_data]. fold n. replace (clip (-1) (len - zlen buf) n) with n by (unfold clip; lia).
    apply take_fit; [rewrite length_take; lia| |done]. unfold avail. apply Forall_drop, Hbytes. }
  assert (Hsz : zlen (r_data r) = n) by (rewrite Hd, length_take; lia).
  assert (Hbuf' : buf ++ r_data r = sub (reply ms) k (zlen (buf ++ r_data r))).
  { rewrite length_app, Nat2Z.inj_add, Hsz, Hd, <- sub_grow by lia. by rewrite <- Hbuf. }
  apply wp_bind, wp_get. rewrite Hn. replace (n <? 0) with false by lia. cbn [andb negb].
  replace (n <=? 0) with false by lia. rewrite length_app.
  assert (Hs' : said ms (k + zlen (buf ++ r_data r)) (with_trace ((SysRecv fd (len - zlen buf), r) :: w_trace w) (kernel (SysRecv fd (len - zlen buf)) r w))).
  { split; cbn; rewrite ?kernel_env; try done. rewrite Hr, Z.eqb_refl, Hn, length_app. lia. }
  destruct (Z.ltb_spec (Z.of_nat (length buf + length (r_data r))) len) as [Hlt|Hge].
  - apply IH; [exact Hs'|exact Hbuf'|lia|rewrite length_app; lia|lia|rewrite length_app; lia|exact H].
  - apply wp_ret. assert (Hlen : zlen (buf ++ r_data r) = len) by (rewrite length_app; lia).
    rewrite Hbuf', Hlen. rewrite <- length_app, Hlen. rewrite Hlen in Hs'. by apply H.
Qed.

Lemma send_whole fuel ms k d timeout w (Q : Z -> world -> Prop) :
  said ms k w -> d <> [] -> (0 < fuel)%nat ->
  (forall w', said (ms ++ [d]) k w' -> Q (zlen d) w') ->
  wp (hev_task_io_socket_send fuel fd d 0 true timeout) Q w.
Proof.
  intros Hs Hd Hf H. destruct fuel as [|fuel]; [lia|]. cbn [hev_task_io_socket_send]. rewrite drop_0.
  eapply send_said; [done..|]. intros r w' Hr Hs'. apply wp_bind, wp_get. rewrite Hr.
  assert (0 < zlen d) by (destruct d; [done|simpl; lia]).
  replace (zlen d <? 0) with false by lia. cbn [andb negb]. replace (zlen d <=? 0) with false by lia.
  replace (0 + zlen d <? zlen d) with false by lia. rewrite Z.add_0_l. by apply wp_ret, H.
Qed.
Lemma sendmsg_whole fuel ms k iov timeout w (Q : Z -> world -> Prop) :
  said ms k w -> concat iov <> [] -> (0 < fuel)%nat ->
  (forall w', said (ms ++ [concat iov]) k w' -> Q (zlen (concat iov)) w') ->
  wp (hev_task_io_socket_sendmsg fuel fd iov true timeout) Q w.
Proof.
  intros Hs Hd Hf H. destruct fuel as [|fuel]; [lia|]. unfold hev_task_io_socket_sendmsg. cbn [sendmsg_loop].
  eapply send_said; [done..|]. intros r w' Hr Hs'. apply wp_bind, wp_get. rewrite Hr.
  assert (0 < zlen (concat iov)) by (destruct (concat iov); [done|simpl; lia]).
  replace (zlen (concat iov) <? 0) with false by lia. cbn [andb negb]. replace (zlen (concat iov) <=? 0) with false by lia.
  replace (0 + zlen (concat iov) <? zlen (concat iov)) with false by lia. rewrite Z.add_0_l. by apply wp_ret, H.
Qed.

(** ** The client without a password *)
Definition greeting : list Z := [HEV_SOCKS5_VERSION_5; 1; HEV_SOCKS5_AUTH_METHOD_NONE].
Definition request (u : sockaddr) : list Z := [HEV_SOCKS5_VERSION_5; HEV_SOCKS5_REQ_CMD_CONNECT; 0] ++ addr_enc u.
Definition success : list Z := [5; 0; 0; S_ATP_I4; 0; 0; 0; 0; 0; 0].

Lemma write_request_said fuel ms k u c w (Q : Z * HevSocks5Client -> world -> Prop) :
  said ms k w -> (0 < fuel)%nat -> length u = 28%nat -> c_fd c = fd -> c_type c = HEV_SOCKS5_TYPE_TCP ->
  c_addr c = Some (addr_enc u) ->
  (forall w', said (ms ++ [request u]) k w' -> Q (0, set_c_addr None c) w') ->
  wp (hev_socks5_client_write_request fuel c) Q w.
Proof.
  intros Hs Hf Hu Hfd Ht Ha H. unfold hev_socks5_client_write_request, get_upstream_addr. rewrite Ht, Ha.
  rewrite decide_True by done. apply wp_bind, wp_ret. pose proof (length_addr_enc u Hu) as Hl.
  assert (Hsz : 10 <= enc_size u <= 22) by (unfold enc_size, S_SIZE_I4, S_SIZE_I6; ccase; lia).
  apply wp_bind, wp_lift. rewrite rd_ok by lia. cbn [succeeds]. apply wp_bind, wp_lift.
  replace (byte_at (addr_enc u) 0) with (if sa_family u =? AF_INET then S_ATP_I4 else S_ATP_I6) by done.
  assert (Hlen : enc_size u - 3 = if sa_family u =? AF_INET then 7 else 19) by (unfold enc_size; by ccase).
  match goal with |- succeeds ?m _ => assert (m = Ok (enc_size u - 3)) as -> by (rewrite Hlen; by destruct (sa_family u =? AF_INET)) end.
  cbn [succeeds]. replace (enc_size u - 3 <? 0) with false by lia. apply wp_bind, wp_lift.
  rewrite rdn_ok by lia. cbn [succeeds]. rewrite <- Hl, sub_all. cbn [c_fd set_c_addr]. rewrite Hfd. apply wp_bind.
  eapply sendmsg_whole; [done|done|done|]. intros w' Hs'. replace (zlen _ <=? 0) with false by (cbn; lia).
  apply wp_ret. cbn [Z.ltb Z.compare]. apply H. cbn in Hs'. by rewrite app_nil_r in Hs'.
Qed.

Lemma handshake_said fuel u c w rcvbuf :
  said [] 0 w -> (18 < fuel)%nat -> length u = 28%nat -> c_fd c = fd -> c_type c = HEV_SOCKS5_TYPE_TCP ->
  c_addr c = Some (addr_enc u) -> c_user c = None ->
  reply [greeting] = [5; 0] -> reply [greeting; request u] = [5; 0] ++ success ->
  wp (hev_socks5_client_handshake fuel c false rcvbuf)
    (fun r w' => r = (0, set_c_addr None c) /\ said [greeting; request u] 12 w') w.
Proof.
  intros Hs Hf Hu Hfd Ht Ha Hno R1 R2. unfold hev_socks5_client_handshake, hev_socks5_client_handshake_standard.
  apply wp_bind. unfold hev_socks5_client_write_auth_methods. rewrite Hno, Hfd. apply wp_bind.
  eapply send_whole; [done|done|lia|]. cbn [app]. change [5; 1; 0] with greeting. intros w1 H1. apply wp_ret.
  cbn [Z.leb Z.ltb Z.compare length Z.of_nat Pos.of_succ_nat]. apply wp_bind.
  unfold hev_socks5_client_read_auth_method. rewrite Hfd. apply wp_bind.
  eapply (recv_said fuel [greeting] 0); [rewrite R1; by repeat constructor|done|done|lia|done|rewrite R1; done|simpl; lia|]. rewrite R1. intros w2 H2.
  cbn [Z.leb Z.compare]. apply wp_bind, wp_lift. cbn. apply wp_lift. cbn. apply wp_bind, wp_ret. cbn [negb].
  apply wp_bind. eapply write_request_said; [exact H2|lia|done..|]. cbn [app]. intros w3 H3. cbn [Z.ltb Z.compare].
  apply wp_bind. unfold hev_socks5_client_read_response. cbn [c_fd set_c_addr]. rewrite Hfd. apply wp_bind.
  eapply (recv_said fuel [greeting; request u] 2); [rewrite R2; by repeat constructor|exact H3|by rewrite R2|lia|done|rewrite R2; cbn; lia|simpl; lia|]. rewrite R2. intros w4 H4.
  cbn [Z.leb Z.compare]. apply wp_bind, wp_lift. cbn. apply wp_bind, wp_lift. cbn. apply wp_bind, wp_lift. cbn.
  change (if byte_at (sub (5 :: 0 :: success) 2 4) 3 =? HEV_SOCKS5_ADDR_TYPE_IPV4 then 6 else
    if byte_at (sub (5 :: 0 :: success) 2 4) 3 =? HEV_SOCKS5_ADDR_TYPE_IPV6 then 18 else -1) with 6.
  rewrite ?Hfd. apply wp_bind. eapply (recv_said fuel [greeting; request u] 6); [rewrite R2; by repeat constructor|exact H4|by rewrite R2|lia|done|by rewrite R2|simpl; lia|].
  rewrite R2. intros w5 H5. cbn [Z.leb Z.compare]. apply wp_bind. unfold set_upstream_addr. cbn [c_type set_c_addr].
  rewrite Ht, decide_False by done. apply wp_ret. cbn [Z.ltb Z.compare]. apply wp_ret, wp_ret. cbn. done.
Qed.
End Dialogue.

(** * The proxy at the other end

    What it answers to the messages of a connection, when each arrives in one
    piece, and the destination it takes from the request: [auth_socks5], then
    [s5_get_addr] and the answer of [on_connect].  [rest] is what the work buffer
    holds behind the message. *)
Definition proxy_world (ps : params) (rest msg : list Z) : world :=
  with_buf (msg ++ rest) (with_params ps (world_ok [] [])).
Definition proxy_fd : Z := 3.
Definition proxy_connect (n : Z) : io (Z * sockaddr) :=
  x ← s5_get_addr 0 n zero_addr SOCK_STREAM;
  _ ← resp_error proxy_fd 0 FLAG_S5;
  mret x.
Definition proxy_reply (ps : params) (rest : list Z) (ms : list (list Z)) : list Z * option sockaddr :=
  match ms with
  | [] => ([], None)
  | g :: ms =>
      match auth_socks5 proxy_fd (zlen g) (proxy_world ps rest g) with
      | Ok (r, w) =>
          let said := stream proxy_fd (w_trace w) in
          if negb (r =? 0) then (said, None) else
          match ms with
          | [] => (said, None)
          | q :: _ =>
              match proxy_connect (zlen q) (proxy_world ps rest q) with
              | Ok ((n, dst), w) =>
                  if n <? 0 then (said, None) else (said ++ stream proxy_fd (w_trace w), Some dst)
              | Fault _ => (said, None)
              end
          end
      | Fault _ => ([], None)
      end
  end.

Lemma auth_greeting ps rest :
  wp (auth_socks5 proxy_fd (zlen greeting)) (fun r w => r = 0 /\ stream proxy_fd (w_trace w) = [5; 0])
    (proxy_world ps rest greeting).
Proof.
  set (w := proxy_world ps rest greeting). assert (Hl : zlen (w_buf w) = 3 + zlen rest) by (simpl; lia).
  unfold auth_socks5. change (zlen greeting) with 3. cbn [Z.leb Z.compare Pos.compare Pos.compare_cont].
  apply wp_bind, wp_buf_get; [lia..|]. change (sub (w_buf w) 1 1) with [1].
  change (negb (byte_at [1] 0 =? 3 - 2)) with false. cbn match.
  apply wp_bind, wp_buf_get; [lia..|]. change (sub (w_buf w) 2 (3 - 2)) with [0].
  cbn [existsb Z.eqb orb S_AUTH_NONE]. apply wp_bind, wp_buf_put; [lia|simpl length; lia|].
  apply wp_bind, wp_buf_get; [lia..|cbn [w_buf with_buf]; rewrite length_put; simpl length; lia|].
  change (sub _ 0 2) with [5; 0]. apply wp_bind, wp_call. intros r ->. by apply wp_ret.
Qed.

Lemma connect_request ps rest u :
  length u = 28%nat -> sa_family u = AF_INET \/ sa_family u = AF_INET6 -> (sa_family u = AF_INET6 -> ps_ipv6 ps = true) ->
  exists dst w, proxy_connect (zlen (request u)) (proxy_world ps rest (request u)) = Ok ((enc_size u, dst), w) /\
    same_endpoint u dst /\ stream proxy_fd (w_trace w) = success.
Proof.
  intros Hu Hf H6. set (w := proxy_world ps rest (request u)). pose proof (length_addr_enc u Hu) as Hl.
  assert (Hb : w_buf w = request u ++ rest) by done.
  assert (Hr : zlen (request u) = enc_size u) by (unfold request; rewrite length_app; change (length [HEV_SOCKS5_VERSION_5; HEV_SOCKS5_REQ_CMD_CONNECT; 0]) with 3%nat; lia).
  destruct (s5_get_addr_enc 0 (zlen (request u)) u zero_addr SOCK_STREAM w) as (dst & Hg & Hs & _); try done.
  - rewrite Hr. lia.
  - rewrite Hb, length_app. lia.
  - rewrite Hb. unfold request, sub. replace (Z.to_nat (0 + 3)) with 3%nat by lia.
    change (drop 3 _) with (addr_enc u ++ rest).
    rewrite <- Hl, take_app_le, take_ge by lia. done.
  - exists dst. eexists. unfold proxy_connect, mbind, io_bind. rewrite Hg. split; [reflexivity|]. by split.
Qed.

Lemma proxy_reply_greeting ps rest : proxy_reply ps rest [greeting] = ([5; 0], None).
Proof.
  unfold proxy_reply. pose proof (auth_greeting ps rest) as H. unfold wp in H.
  destruct (auth_socks5 _ _ _) as [[r w]|]; [|done]. by destruct H as [-> ->].
Qed.
Lemma proxy_reply_request ps rest u :
  length u = 28%nat -> sa_family u = AF_INET \/ sa_family u = AF_INET6 -> (sa_family u = AF_INET6 -> ps_ipv6 ps = true) ->
  exists dst, proxy_reply ps rest [greeting; request u] = ([5; 0] ++ success, Some dst) /\ same_endpoint u dst.
Proof.
  intros Hu Hf H6. destruct (connect_request ps rest u Hu Hf H6) as (dst & w' & Hc & Hs & Hst). exists dst. split; [|done].
  unfold proxy_reply. pose proof (auth_greeting ps rest) as H. unfold wp in H.
  destruct (auth_socks5 _ _ _) as [[r w]|]; [|done]. destruct H as [-> ->]. cbn [Z.eqb negb]. rewrite Hc, Hst.
  replace (enc_size u <? 0) with false; [done|]. unfold enc_size, S_SIZE_I4, S_SIZE_I6. by destruct (_ =? _).
Qed.

(** C23: without credentials and without pipelining, the tunnel and the proxy agree on
    where to connect: when the peer of a new connection answers what byedpi answers, a
    byte at a time or more, the handshake of a session for the address [a], an IPv6 one
    only if the proxy allows IPv6, succeeds, byedpi takes the destination [a] from it (an
    IPv4-mapped address as IPv4), and exactly byedpi's answer was read, so that the next
    byte is the first one of the server.  With pipelining byedpi refuses the greeting:
    [pipelined_greeting_refused]. *)
Theorem client_proxy_handshake (ps : params) (rest : list Z) (a : sockaddr) (mark timeout rcvbuf fd : Z) (fuel : nat) (w : world) :
  length a = 28%nat -> sa_family a = AF_INET \/ sa_family a = AF_INET6 ->
  (sa_family (unmap a) = AF_INET6 -> ps_ipv6 ps = true) ->
  serves fd (fun ms => (proxy_reply ps rest ms).1) (w_env w) ->
  messages fd (w_trace w) = [] -> received fd (w_trace w) = 0 -> (18 < fuel)%nat ->
  exists c w' dst,
    hev_socks5_client_tcp_construct_ip true a mark = Some c /\
    hev_socks5_client_handshake fuel (set_c_fd fd (set_c_timeout timeout c)) false rcvbuf w
      = Ok ((0, set_c_addr None (set_c_fd fd (set_c_timeout timeout c))), w') /\
    proxy_reply ps rest (messages fd (w_trace w')) = ([5; 0] ++ success, Some dst) /\ same_endpoint (unmap a) dst /\
    received fd (w_trace w') = zlen ([5; 0] ++ success).
Proof.
  intros Ha Hf H6 Hs Hm Hr Hfuel. pose proof (length_unmap a Ha) as Hu. pose proof (unmap_family a Ha Hf) as Hfu.
  destruct (proxy_reply_request ps rest (unmap a) Hu Hfu H6) as (dst & Hreply & Hsame).
  set (c := set_c_addr (Some (addr_enc (unmap a))) (hev_socks5_construct HEV_SOCKS5_TYPE_TCP mark)).
  assert (Hc : hev_socks5_client_tcp_construct_ip true a mark = Some c).
  { unfold hev_socks5_client_tcp_construct_ip. cbn [negb]. rewrite from_sockaddr_enc by done.
    replace (enc_size (unmap a) - 3 <=? 0) with false; [done|]. unfold enc_size, S_SIZE_I4, S_SIZE_I6. by destruct (_ =? _). }
  pose proof (handshake_said fd _ _ Hs fuel (unmap a) (set_c_fd fd (set_c_timeout timeout c)) w rcvbuf) as H.
  destruct (wp_Ok _ _ _ (H ltac:(by split) Hfuel Hu eq_refl eq_refl eq_refl eq_refl
    ltac:(cbn beta; by rewrite proxy_reply_greeting) ltac:(cbn beta; by rewrite Hreply))) as (r & w' & Hw & -> & [_ Hm' Hr']).
  exists c, w', dst. rewrite Hm'. split_and!; try done.
Qed.

(** The other bytes of the socket's answers and the other calls are free. *)
Definition serve_env (fd : Z) (reply : list (list Z) -> list Z) (tr : trace) (q : sysreq) : sysrsp :=
  match q with
  | SysSend _ d _ => Rsp (zlen d) 0 [] [] []
  | SysRecv _ _ => Rsp 1 0 (drop (Z.to_nat (received fd tr)) (reply (messages fd tr))) [] []
  | _ => env_ok tr q
  end.
Lemma serve_env_serves fd reply : serves fd reply (serve_env fd reply).
Proof.
  intros tr. split; [done|]. intros n avail Hn Hav k. unfold k. cbn. split; [|done].
  assert (0 < zlen avail) by (destruct avail; [done|simpl; lia]). lia.
Qed.
Definition sample_v4mapped : sockaddr := [10; 0; 1; 187; 0; 0; 0; 0] ++ replicate 10 0 ++ [255; 255; 93; 184; 216; 34; 0; 0; 0; 0].
Lemma client_proxy_handshake_witness :
  let E := serve_env 7 (fun ms => (proxy_reply initial_params [9; 9; 9] ms).1) in
  let w := with_params initial_params (World E [] 0 ∅ ∅ ∅ initial_params no_pool [] true) in
  exists c w' dst,
    hev_socks5_client_tcp_construct_ip true sample_v4mapped 0 = Some c /\
    hev_socks5_client_handshake 20 (set_c_fd 7 (set_c_timeout 100 c)) false 0 w
      = Ok ((0, set_c_addr None (set_c_fd 7 (set_c_timeout 100 c))), w') /\
    proxy_reply initial_params [9; 9; 9] (messages 7 (w_trace w')) = ([5; 0] ++ success, Some dst) /\
    same_endpoint (unmap sample_v4mapped) dst /\ received 7 (w_trace w') = 12.
Proof.
  apply (client_proxy_handshake initial_params [9; 9; 9] sample_v4mapped 0 100 0 7 20); try reflexivity.
  - right. reflexivity.
  - apply serve_env_serves.
  - vm_compute. lia.
Defined.

(** ** Limits *)

(** In pipeline mode greeting and request may arrive together; the proxy, which
    takes what one [recv] gives for the whole greeting, then refuses. *)
Fact pipelined_greeting_refused ps rest u :
  length u = 28%nat ->
  wp (auth_socks5 proxy_fd (zlen (greeting ++ request u))) (fun r w => r = -1 /\ w = proxy_world ps rest (greeting ++ request u))
    (proxy_world ps rest (greeting ++ request u)).
Proof.
  intros Hu. set (w := proxy_world _ _ _). pose proof (length_addr_enc u Hu) as Hl.
  assert (Hsz : 10 <= enc_size u) by (unfold enc_size, S_SIZE_I4, S_SIZE_I6; ccase; lia).
  assert (Hn : zlen (greeting ++ request u) = 3 + enc_size u).
  { rewrite length_app. unfold request. rewrite length_app. change (length greeting) with 3%nat.
    change (length [HEV_SOCKS5_VERSION_5; HEV_SOCKS5_REQ_CMD_CONNECT; 0]) with 3%nat. lia. }
  assert (Hb : zlen (w_buf w) = 3 + enc_size u + zlen rest) by (cbn [w w_buf proxy_world with_buf]; rewrite length_app; lia).
  unfold auth_socks5. rewrite Hn. replace (3 + enc_size u <=? 2) with false by lia.
  apply wp_bind, wp_buf_get; [lia..|]. change (sub (w_buf w) 1 1) with [1]. change (byte_at [1] 0) with 1.
  replace (1 =? 3 + enc_size u - 2) with false by lia. by apply wp_ret.
Qed.

Definition short_client : HevSocks5Client := set_c_fd 7 (hev_socks5_construct HEV_SOCKS5_TYPE_TCP 0).
(** A server that closes after one byte: the rest of the answer is read although
    it never came. *)
Fact short_answer_uninit :
  let E := fun tr q => match tr with [] => Rsp 1 0 [5] [] [] | _ => Rsp 0 0 [] [] [] end in
  hev_socks5_client_read_auth_method 5 short_client (World E [] 0 ∅ ∅ ∅ initial_params no_pool [] true) = Fault Uninit.
Proof. vm_compute. reflexivity. Qed.

(** The length of a name of 256 bytes is sent as 0, and nothing of the name. *)
Fact long_user_truncated :
  let E := serve_env 7 (fun ms => []) in
  match hev_socks5_client_write_auth_creds 5 (hev_socks5_client_set_auth (Some (replicate 256 97)) (Some [98; 99]) short_client)
      (World E [] 0 ∅ ∅ ∅ initial_params no_pool [] true) with
  | Ok (r, w) => r = 0 /\ messages 7 (w_trace w) = [[1; 0; 2; 98; 99]]
  | Fault _ => False
  end.
Proof. vm_compute. split; reflexivity. Qed.

(** A datagram of three bytes counts as three bytes of data, of which none were
    stored. *)
Fact short_datagram_uninit :
  let E := fun tr q => Rsp 3 0 [0; 0; 0] [] [] in
  let c := set_c_udp_fd 9 (hev_socks5_client_udp_construct true 0) in
  match hev_socks5_udp_recvfrom 5 c 1500 zero_addr (World E [] 0 ∅ ∅ ∅ initial_params no_pool [] true) with
  | Ok ((r, d, _), _) => r = 3 /\ d = []
  | Fault _ => False
  end.
Proof. vm_compute. split; reflexivity. Qed.

(** * Datagrams *)

Definition datagram (u : sockaddr) (d : list Z) : list Z := [0; 0; 0] ++ addr_enc u ++ d.

Lemma length_datagram u d : length u = 28%nat -> zlen (datagram u d) = enc_size u + zlen d.
Proof.
  intros Hu. pose proof (length_addr_enc u Hu). unfold datagram. rewrite !length_app.
  change (length [0; 0; 0]) with 3%nat. lia.
Qed.

Lemma datagram_addr u d : length u = 28%nat -> sub (datagram u d) 3 (enc_size u - 3) = addr_enc u.
Proof. intros Hu. rewrite <- length_addr_enc by done. unfold datagram. rewrite sub_app_r by done.
  rewrite sub_app_l by (simpl length; lia). apply sub_all. Qed.
Lemma datagram_data u d : length u = 28%nat -> sub (datagram u d) (enc_size u) (zlen d) = d.
Proof.
  intros Hu. pose proof (length_addr_enc u Hu) as Hl. unfold datagram. rewrite app_assoc.
  assert (Hh : zlen ([0; 0; 0] ++ addr_enc u) = enc_size u) by (rewrite length_app; change (length [0; 0; 0]) with 3%nat; lia).
  rewrite sub_app_r by lia. replace (enc_size u - _) with 0 by lia. apply sub_all.
Qed.

(** What [hev_socks5_addr_to_sockaddr] makes of an encoded address: IPv4 as
    IPv4-mapped when the caller's family is not [AF_INET]. *)
Lemma to_sockaddr_enc u d s : length u = 28%nat -> length s = 28%nat ->
  sa_family u = AF_INET \/ (sa_family u = AF_INET6 /\ is_v4mapped u = false) ->
  sa_family s = AF_INET /\ sa_family u = AF_INET \/ sa_family s = AF_INET6 ->
  exists n s', hev_socks5_addr_to_sockaddr (addr_enc u ++ d) s = Ok (n, s') /\ 0 < n /\ length s' = 28%nat /\
    sa_family s' = sa_family s /\ same_endpoint (unmap s') u.
Proof.
  intros Hu Hs Hfu Hfs. pose proof (length_addr_enc u Hu) as Hl.
  unfold hev_socks5_addr_to_sockaddr, hev_socks5_addr_to_sockaddr4, hev_socks5_addr_to_sockaddr6, rd_init, rdn_init, in_range.
  rewrite length_app. assert (Hsz : 10 <= enc_size u) by (unfold enc_size, S_SIZE_I4, S_SIZE_I6; ccase; lia).
  replace ((0 <=? 0) && (0 <? Z.of_nat (length (addr_enc u) + length d))) with true by lia.
  replace ((0 <=? 5) && (0 <=? 2) && (5 + 2 <=? Z.of_nat (length (addr_enc u) + length d))) with true by lia.
  replace ((0 <=? 1) && (0 <=? 4) && (1 + 4 <=? Z.of_nat (length (addr_enc u) + length d))) with true by lia.
  destruct Hfu as [Hf|[Hf Hm]].
  - assert (He : addr_enc u = 1 :: sin_addr u ++ sub u 2 2) by (unfold addr_enc, ip_of; by rewrite Hf).
    rewrite He. clear He Hl Hsz. destruct Hfs as [[Hg _]|Hg]; rewrite Hg; cbn [Z.eqb AF_INET AF_INET6 Pos.eqb].
    + eexists _, _. split; [reflexivity|]. unfold same_endpoint, unmap, ip_of. rewrite ?Hg, Hf.
      clear Hf Hg. explode u Hu. explode s Hs. done.
    + eexists _, _. split; [reflexivity|]. unfold same_endpoint, unmap, ip_of. rewrite ?Hg, Hf.
      clear Hf Hg. explode u Hu. explode s Hs. done.
  - destruct Hfs as [[Hg Hx]|Hg]; [rewrite Hf in Hx; discriminate Hx|]. rewrite Hg. cbn [Z.eqb AF_INET AF_INET6 Pos.eqb].
    assert (Hsz' : enc_size u = 22) by (unfold enc_size; by rewrite Hf).
    replace ((0 <=? 17) && (0 <=? 2) && (17 + 2 <=? Z.of_nat (length (addr_enc u) + length d))) with true by lia.
    replace ((0 <=? 1) && (0 <=? 16) && (1 + 16 <=? Z.of_nat (length (addr_enc u) + length d))) with true by lia.
    assert (He : addr_enc u = 4 :: sin6_addr u ++ sub u 2 2) by (unfold addr_enc, ip_of; by rewrite Hf).
    rewrite He. clear He Hl Hsz Hsz'. eexists _, _. split; [reflexivity|].
    unfold same_endpoint, unmap, ip_of. rewrite ?Hg, Hf. unfold is_v4mapped in Hm.
    match goal with |- context [is_v4mapped ?x] => assert (is_v4mapped x = false) as -> end.
    { unfold is_v4mapped. rewrite <- Hm. clear Hf Hg Hm. explode u Hu. explode s Hs. reflexivity. }
    rewrite andb_false_r. clear Hf Hg Hm. explode u Hu. explode s Hs. done.
Qed.

(** What [map_fix] turns round is an address of its own family. *)
Lemma map_fix_family s : length s = 28%nat -> sa_family s = AF_INET \/ sa_family s = AF_INET6 ->
  sa_family (map_fix s 0) = AF_INET \/ (sa_family (map_fix s 0) = AF_INET6 /\ is_v4mapped (map_fix s 0) = false).
Proof.
  intros Hs Hf. unfold map_fix. rewrite andb_false_r. ccase.
  - left. clear - Hs. explode s Hs. reflexivity.
  - destruct Hf as [Hf|Hf]; [by left|right]. split; [done|]. destruct (is_v4mapped s) eqn:Hm; [|done].
    unfold is_v4mapped in Hm. apply andb_prop in Hm as [H1%bool_decide_eq_true H2%bool_decide_eq_true]. exfalso.
    match goal with H : context [bool_decide (sub s 8 8 = _)] |- _ => revert H end.
    replace (sub s 8 8) with (sub (sub s 8 10) 0 8) by (clear - Hs; explode s Hs; reflexivity).
    replace (sub s 16 2) with (sub (sub s 8 10) 8 2) by (clear - Hs; explode s Hs; reflexivity).
    replace (get16 s 18) with (get16 (sub s 18 2) 0) by (clear - Hs; explode s Hs; reflexivity).
    by rewrite H1, H2.
Qed.
Lemma length_map_fix0 s : length s = 28%nat -> length (map_fix s 0) = 28%nat.
Proof. intros Hs. unfold map_fix. rewrite andb_false_r. ccase; [|done]. clear - Hs. by explode s Hs. Qed.

(** The proxy reads the datagram that the tunnel wrote. *)
Lemma datagram_read u d rest a0 w : length u = 28%nat -> length a0 = 28%nat ->
  sa_family u = AF_INET \/ sa_family u = AF_INET6 -> (sa_family u = AF_INET6 -> ps_ipv6 (w_params w) = true) ->
  w_buf w = datagram u d ++ rest ->
  exists dst, s5_get_addr 0 (zlen (datagram u d)) a0 SOCK_DGRAM w = Ok ((enc_size u, dst), w) /\
    same_endpoint u dst /\ sub (w_buf w) (enc_size u) (zlen (datagram u d) - enc_size u) = d /\ byte_at (w_buf w) 2 = 0.
Proof.
  intros Hu H0 Hf H6 Hb. pose proof (length_addr_enc u Hu) as Hl. pose proof (length_datagram u d Hu) as Hn.
  assert (Hsz : 10 <= enc_size u) by (unfold enc_size, S_SIZE_I4, S_SIZE_I6; ccase; lia).
  destruct (s5_get_addr_enc 0 (zlen (datagram u d)) u a0 SOCK_DGRAM w) as (dst & Hg & Hs & _); try done.
  - lia.
  - rewrite Hb, length_app. lia.
  - rewrite Hb, sub_app_l by lia. by apply datagram_addr.
  - exists dst. split_and!; [done..| |by rewrite Hb].
    rewrite Hb, sub_app_l, Hn by lia. replace (enc_size u + zlen d - enc_size u) with (zlen d) by lia. by apply datagram_data.
Qed.

(** What the tunnel writes. *)
Lemma sendto_said fd reply E (Hserves : serves fd reply E) fuel c a d w :
  c_type c = HEV_SOCKS5_TYPE_UDP_IN_UDP -> c_udp_fd c = fd -> length a = 28%nat ->
  sa_family a = AF_INET \/ sa_family a = AF_INET6 -> (0 < fuel)%nat -> w_env w = E ->
  wp (hev_socks5_udp_sendto fuel c d a) (fun r w' => r = zlen (datagram (unmap a) d) /\
    messages fd (w_trace w') = messages fd (w_trace w) ++ [datagram (unmap a) d]) w.
Proof.
  intros Ht Hfd Ha Hf Hfuel He. set (u := unmap a). assert (Hu : length u = 28%nat) by by apply length_unmap.
  assert (Hsz : 10 <= enc_size u) by (unfold enc_size, S_SIZE_I4, S_SIZE_I6; ccase; lia).
  unfold hev_socks5_udp_sendto, hev_socks5_udp_get_fd. rewrite from_sockaddr_enc by done. fold u.
  replace (enc_size u - 3 <=? 0) with false by lia. rewrite Ht, Hfd.
  assert (Hc : concat [[0; 0; 0] ++ addr_enc u; d] = datagram u d) by (cbn [concat]; unfold datagram; by rewrite app_nil_r, <- app_assoc).
  eapply (sendmsg_whole fd reply E Hserves fuel (messages fd (w_trace w)) (received fd (w_trace w)));
    [done|by rewrite Hc|done|]. rewrite Hc. by intros w' [_ Hm _].
Qed.

(** The tunnel reads the datagram of the proxy. *)
Lemma datagram_recv fuel c u d len s w : length u = 28%nat -> length s = 28%nat ->
  sa_family u = AF_INET \/ (sa_family u = AF_INET6 /\ is_v4mapped u = false) ->
  sa_family s = AF_INET /\ sa_family u = AF_INET \/ sa_family s = AF_INET6 ->
  c_type c = HEV_SOCKS5_TYPE_UDP_IN_UDP -> (0 < fuel)%nat -> is_bytes (datagram u d) ->
  zlen (datagram u d) <= 1500 -> zlen d <= len ->
  (let r := w_env w (w_trace w) (SysRecvfrom (c_udp_fd c) 1500) in r_ret r = zlen (datagram u d) /\ r_data r = datagram u d) ->
  exists s' w', hev_socks5_udp_recvfrom fuel c len s w = Ok ((zlen d, d, s'), w') /\ length s' = 28%nat /\
    sa_family s' = sa_family s /\ same_endpoint (unmap s') u.
Proof.
  intros Hu Hs Hfu Hfs Ht Hf Hby Hmax Hlen [Hr Hd]. destruct fuel as [|fuel]; [lia|]. set (m := datagram u d) in *.
  destruct (to_sockaddr_enc u d s Hu Hs Hfu Hfs) as (n & s' & Hto & Hn & Hls & Hfs' & Hse). exists s'.
  pose proof (length_addr_enc u Hu) as Hl. pose proof (length_datagram u d Hu) as Hmn. fold m in Hmn.
  assert (Hsz : 10 <= enc_size u) by (unfold enc_size, S_SIZE_I4, S_SIZE_I6; ccase; lia).
  enough (H : wp (hev_socks5_udp_recvfrom (S fuel) c len s) (fun r _ => r = (zlen d, d, s')) w).
  { destruct (wp_Ok _ _ _ H) as (r & w' & Hw & ->). by exists w'. }
  unfold hev_socks5_udp_recvfrom, hev_socks5_udp_recvfrom_udp, hev_socks5_udp_get_fd. rewrite Ht.
  cbn [hev_task_io_socket_recvfrom]. apply wp_bind, wp_bind, wp_sys. intros r Hrr.
  assert (Hret : r_ret r = zlen m) by (rewrite Hrr; unfold sane, amount; cbn [r_ret]; rewrite Hr; unfold clip; lia).
  assert (Hdat : r_data r = m).
  { rewrite Hrr. unfold sane, amount. cbn [r_data]. rewrite Hr, Hd. unfold clip.
    replace (Z.max (-1) (Z.min 1500 (zlen m))) with (zlen m) by lia. rewrite (take_fit _ m m); rewrite ?Nat2Z.id, ?take_ge by lia; done. }
  apply wp_bind, wp_get. rewrite Hret, Hdat. replace (zlen m <? 0) with false by lia. cbn [andb]. apply wp_ret.
  replace (zlen m <? 4) with false by lia.
  apply wp_bind, wp_lift. unfold rd_init. replace ((0 <=? 3) && (3 <? zlen m)) with true by lia. cbn [succeeds].
  assert (Hat : byte_at m 3 = if sa_family u =? AF_INET then 1 else 4) by done.
  match goal with |- context [if ?x <? 0 then mret (-1, [], s) else _] => assert (x = enc_size u) as -> end.
  { rewrite Hat. unfold enc_size. by destruct (sa_family u =? AF_INET). }
  replace (enc_size u <? 0) with false by lia. replace (zlen m <? enc_size u) with false by lia. cbn zeta.
  replace (if len <? zlen m - enc_size u then len else zlen m - enc_size u) with (zlen d) by (rewrite Hmn; ccase; lia).
  apply wp_bind, wp_lift. unfold rdn_init, in_range.
  replace ((0 <=? enc_size u) && (0 <=? zlen d) && (enc_size u + zlen d <=? zlen m)) with true by lia. cbn [succeeds].
  apply wp_bind, wp_lift. change (drop 3 m) with (addr_enc u ++ d). rewrite Hto. cbn [succeeds].
  replace (n <? 0) with false by lia. apply wp_ret. do 2 f_equal.
  by apply datagram_data.
Qed.

(** What the proxy sends to its client, the pair of the pair of [val], for a
    datagram of a server. *)
Definition client_of (w : world) (val : nat) (e : eval) : Prop :=
  exists v pr p pp, ph_items (w_pool w) !! val = Some v /\ ev_pair v = Some pr /\
    ph_items (w_pool w) !! pr = Some p /\ ev_pair p = Some pp /\ ph_items (w_pool w) !! pp = Some e.

Lemma udp_to_client_wp val n s e w : length s = 28%nat -> 0 <= n -> 22 + n <= zlen (w_buf w) -> client_of w val e ->
  wp (udp_to_client val n s) (fun r w' => exists rsp, r = Next (Some (r_ret rsp)) /\
    w_trace w' = (SysSend (ev_fd e) (datagram (map_fix s 0) (sub (w_buf w) 22 n)) 0, rsp) :: w_trace w) w.
Proof.
  intros Hs Hn Hb (v & pr & p & pp & Hv & Hpr & Hp & Hpp & He). set (u := map_fix s 0).
  assert (Hu : length u = 28%nat) by by apply length_map_fix0. pose proof (length_addr_enc u Hu) as Hl.
  assert (Hsz : 10 <= enc_size u <= 22) by (unfold enc_size, S_SIZE_I4, S_SIZE_I6; ccase; lia).
  unfold udp_to_client. change (Z.to_nat S_SIZE_I6) with 22%nat. fold u. set (z := replicate 22 0).
  assert (Hz : length z = 22%nat) by done.
  apply wp_bind, wp_buf_put; [lia..|]. set (b := put (w_buf w) 0 z).
  assert (Hlb : zlen b = zlen (w_buf w)) by (unfold b; rewrite length_put; lia).
  apply wp_bind, wp_get. cbn [w_buf with_buf]. apply wp_bind, wp_lift.
  rewrite s5_set_addr_enc by (unfold S_SIZE_I6; lia). cbn [succeeds]. apply wp_bind, wp_modify.
  unfold S_SIZE_I6. replace ((enc_size u <? 0) || (22 <? enc_size u)) with false by lia. set (o := 22 - enc_size u).
  apply wp_bind. eapply wp_pair_of; [exact Hv|exact Hpr|]. apply wp_bind. eapply wp_pair_of; [exact Hp|exact Hpp|].
  apply wp_bind. eapply wp_item; [exact He|]. cbn [w_buf with_buf]. set (b' := put b (o + 3) (addr_enc u)).
  assert (Hlb' : zlen b' = zlen (w_buf w)) by (unfold b'; rewrite length_put; lia).
  apply wp_bind, wp_buf_get; cbn [w_buf with_buf]; fold b'; [lia..|].
  enough (Hm : sub b' o (enc_size u + n) = datagram u (sub (w_buf w) 22 n)).
  { rewrite Hm. apply wp_bind, wp_call. intros r _. apply wp_ret. by exists r. }
  replace (enc_size u + n) with (3 + (enc_size u - 3) + n) by lia. rewrite <- !sub_app_join by lia. unfold datagram. rewrite <- !app_assoc.
  replace (o + (3 + (enc_size u - 3))) with 22 by lia. f_equal; [|f_equal].
  - unfold b'. rewrite sub_put_out by lia. unfold b. rewrite sub_put_in by lia. unfold z. clear - Hsz. unfold sub.
    rewrite drop_replicate, take_replicate. replace (_ `min` _)%nat with 3%nat by lia. done.
  - unfold b'. rewrite <- Hl. by apply sub_put_same; lia.
  - unfold b'. rewrite sub_put_out by lia. unfold b. by rewrite sub_put_out by lia.
Qed.
