(* ===== verification/HevUdp.v ===== *)
(** The way of a datagram: hev-utils.c, the backward direction of
    hev-socks5-session-udp.c, and its round trip from an application through the
    tunnel and the proxy and back. *)
From S2P Require Import Prelude CLib Packets Mpool Params World Desync Stream DesyncSpec Socks SocksProps Proxy HevIo HevSocks HevSocksProps.

(** * Addresses of lwIP

    An [ip_addr_t] is a union, of which 4 or 16 bytes are used, and a type. *)
Record ip_addr_t : Type := IpAddr { ip_type : Z; ip_raw : list Z }.
Definition IPADDR_TYPE_V4 : Z := 0.
Definition IPADDR_TYPE_V6 : Z := 6.

Definition lwip_to_sock_addr (ip : ip_addr_t) (port : Z) (addr : sockaddr) : sockaddr :=
  if ip_type ip =? IPADDR_TYPE_V4 then
    put (set_port (set_family addr AF_INET) (htons port)) 4 (ip_raw ip)
  else if ip_type ip =? IPADDR_TYPE_V6 then
    put (set_port (set_family addr AF_INET6) (htons port)) 8 (ip_raw ip)
  else addr.

(** [None] for the result -1. *)
Definition sock_to_lwip_addr (addr : sockaddr) : option (ip_addr_t * Z) :=
  if sa_family addr =? AF_INET then Some (IpAddr IPADDR_TYPE_V4 (sin_addr addr), htons (sin_port addr))
  else if sa_family addr =? AF_INET6 then Some (IpAddr IPADDR_TYPE_V6 (sin6_addr addr), htons (sin_port addr))
  else None.

(** [hev_socks5_session_tcp_construct], [hev_socks5_session_udp_construct]: [addr6]
    is what the uninitialised variable held, [ok] whether [hev_malloc] succeeds. *)
Definition hev_socks5_session_tcp_construct (ok : bool) (addr6 : sockaddr) (local_ip : ip_addr_t) (local_port mark : Z)
    : option HevSocks5Client :=
  hev_socks5_client_tcp_construct_ip ok (lwip_to_sock_addr local_ip local_port addr6) mark.
Definition hev_socks5_session_udp_construct (udp_in_udp : bool) (mark : Z) : HevSocks5Client :=
  hev_socks5_client_udp_construct udp_in_udp mark.

(** [hev_socks5_session_udp_fwd_b]: [remote_type] is the type of
    [self->pcb->remote_ip], [ok] says whether [pbuf_alloc] succeeds, [err] is the
    result of [udp_sendfrom].  Also what [udp_sendfrom] is called with. *)
Definition UDP_BUF_SIZE : Z := 1500.
Definition hev_socks5_session_udp_fwd_b (fuel : nat) (self : HevSocks5Client) (remote_type : Z) (ok : bool) (err : Z)
    : io (Z * option (list Z * ip_addr_t * Z)) :=
  let ads := zero_addr in
  let saddr :=
    if remote_type =? IPADDR_TYPE_V4 then set_family ads AF_INET
    else if remote_type =? IPADDR_TYPE_V6 then set_family ads AF_INET6 else ads in
  if negb ok then mret (-1, None) else
  '(res, data, saddr) ← hev_socks5_udp_recvfrom fuel self UDP_BUF_SIZE saddr;
  if res <=? 0 then mret (-1, None) else
  (* [buf->len = res]: bytes behind what was stored are those of the allocator *)
  if zlen data <? res then fault Uninit else
  match sock_to_lwip_addr saddr with
  | None => mret (-1, None)
  | Some (addr, port) => mret (if negb (err =? 0) then -1 else 0, Some (data, addr, port))
  end.

(** * The addresses of a flow *)
Definition ip_ok (ip : ip_addr_t) : Prop :=
  (ip_type ip = IPADDR_TYPE_V4 /\ length (ip_raw ip) = 4%nat) \/ (ip_type ip = IPADDR_TYPE_V6 /\ length (ip_raw ip) = 16%nat).
Definition family_of (ip : ip_addr_t) : Z := if ip_type ip =? IPADDR_TYPE_V4 then AF_INET else AF_INET6.

Lemma htons_htons p : 0 <= p < 65536 -> htons (htons p) = p.
Proof.
  intros Hp. unfold htons, u8. rewrite !Z.shiftr_div_pow2 by lia. change (2 ^ 8) with 256.
  pose proof (Z.div_mod p 256). pose proof (Z.mod_pos_bound p 256). 
  rewrite (Z.mod_small (p / 256)) by lia. Z.div_mod_to_equations. lia.
Qed.
Lemma same_unmap s a : length s = 28%nat -> length a = 28%nat -> sa_family s = AF_INET6 -> sa_family a = AF_INET6 ->
  same_endpoint (unmap s) (unmap a) -> sin_port s = sin_port a /\ ip_of s = ip_of a.
Proof.
  intros Hs Ha Hfs Hfa. destruct (is_v4mapped s) eqn:Ms, (is_v4mapped a) eqn:Ma.
  - destruct (unmap_v4 s Hs Hfs Ms) as (F1 & A1 & P1), (unmap_v4 a Ha Hfa Ma) as (F2 & A2 & P2).
    unfold same_endpoint, ip_of. rewrite F1, F2, Hfs, Hfa, A1, A2. cbn [Z.eqb AF_INET AF_INET6 Pos.eqb]. intros (_ & Hp & Hi).
    unfold is_v4mapped in Ms, Ma. apply andb_prop in Ms as [M1%bool_decide_eq_true M2%bool_decide_eq_true].
    apply andb_prop in Ma as [M3%bool_decide_eq_true M4%bool_decide_eq_true].
    assert (Hv : forall y, length y = 28%nat -> sin6_addr y = sub y 8 10 ++ sub y 18 2 ++ sub y 20 4 /\ sin_port y = get16 (sub y 2 2) 0).
    { intros y Hy. clear - Hy. explode y Hy. done. }
    destruct (Hv s Hs) as [-> ->], (Hv a Ha) as [-> ->]. rewrite M1, M2, M3, M4, Hi. split; [|done].
    destruct (Hv _ (length_unmap s Hs)) as [_ E1], (Hv _ (length_unmap a Ha)) as [_ E2]. by rewrite <- P1, <- P2, <- E1, <- E2.
  - unfold same_endpoint. destruct (unmap_v4 s Hs Hfs Ms) as (-> & _). unfold unmap. rewrite Ma, andb_false_r, Hfa. by intros [? _].
  - unfold same_endpoint. destruct (unmap_v4 a Ha Hfa Ma) as (-> & _). unfold unmap. rewrite Ms, andb_false_r, Hfs. by intros [? _].
  - unfold unmap. rewrite Ms, Ma, !andb_false_r. by intros (_ & ? & ?).
Qed.

Section Flow.
Context (ip : ip_addr_t) (port : Z) (x : sockaddr).
Hypothesis Hip : ip_ok ip.
Hypothesis Hport : 0 <= port < 65536.
Hypothesis Hx : length x = 28%nat.
Let a : sockaddr := lwip_to_sock_addr ip port x.

Lemma written f o : 0 <= f < 65536 -> 4 <= o -> o + zlen (ip_raw ip) <= 28 ->
  let b := put (set_port (set_family x f) (htons port)) o (ip_raw ip) in
  length b = 28%nat /\ sa_family b = f /\ sin_port b = htons port /\ sub b o (zlen (ip_raw ip)) = ip_raw ip.
Proof.
  intros Hf Ho Hl. unfold set_port, set_family, sa_family, sin_port.
  assert (Hh : 0 <= htons port < 65536) by (unfold htons; pose proof (u8_range port); pose proof (u8_range (Z.shiftr port 8)); lia).
  assert (Hl1 : length (put16 x 0 f) = 28%nat) by (rewrite length_put16; lia).
  assert (Hl2 : length (put16 (put16 x 0 f) 2 (htons port)) = 28%nat) by (rewrite length_put16; lia).
  split_and!.
  - rewrite length_put; lia.
  - rewrite get16_put by lia. unfold put16 at 1. rewrite get16_put by (cbn [length]; lia). apply get16_put16; lia.
  - rewrite get16_put by lia. apply get16_put16; lia.
  - apply sub_put_same; lia.
Qed.

Lemma lwip_sock_fields : length a = 28%nat /\ sa_family a = family_of ip /\ sin_port a = htons port /\ ip_of a = ip_raw ip.
Proof.
  unfold a, lwip_to_sock_addr, family_of. destruct Hip as [[Ht Hl]|[Ht Hl]]; rewrite Ht; cbn [Z.eqb IPADDR_TYPE_V4 IPADDR_TYPE_V6 Pos.eqb].
  - destruct (written AF_INET 4 ltac:(done) ltac:(lia) ltac:(lia)) as (H1 & H2 & H3 & H4).
    split_and!; [done..|]. unfold ip_of. rewrite H2. cbn [Z.eqb AF_INET Pos.eqb]. by rewrite Hl in H4.
  - destruct (written AF_INET6 8 ltac:(done) ltac:(lia) ltac:(lia)) as (H1 & H2 & H3 & H4).
    split_and!; [done..|]. unfold ip_of. rewrite H2. cbn [Z.eqb AF_INET AF_INET6 Pos.eqb]. by rewrite Hl in H4.
Qed.
Lemma family_of_ok : family_of ip = AF_INET \/ family_of ip = AF_INET6.
Proof. unfold family_of. ccase; auto. Qed.

(** An address of the same family for the same endpoint is the one lwIP knows. *)
Lemma sock_to_lwip_back s : length s = 28%nat -> sa_family s = family_of ip ->
  same_endpoint (unmap s) (unmap a) -> sock_to_lwip_addr s = Some (ip, port).
Proof.
  intros Hs Hf Hse. destruct lwip_sock_fields as (Ha & Hfa & Hpa & Hia).
  assert (He : sin_port s = sin_port a /\ ip_of s = ip_of a).
  { destruct family_of_ok as [H|H]; rewrite H in Hf, Hfa.
    - revert Hse. unfold unmap. rewrite Hf, Hfa. cbn [Z.eqb AF_INET AF_INET6 Pos.eqb andb]. by intros (_ & ? & ?).
    - by apply same_unmap. }
  destruct He as [Hp Hi]. rewrite Hpa in Hp. rewrite Hia in Hi. unfold sock_to_lwip_addr. rewrite Hp, htons_htons by done.
  revert Hi Hf. unfold ip_of, family_of. destruct ip as [t raw], Hip as [[Ht _]|[Ht _]]; simpl in *; subst t; cbn; intros Hi Hf; rewrite Hf in *; cbn in *; by rewrite Hi.
Qed.
End Flow.

(** What [fwd_b] makes of a datagram of the proxy. *)
Lemma fwd_b_datagram fuel c ip u d err w : length u = 28%nat -> ip_ok ip ->
  sa_family u = AF_INET \/ (sa_family u = AF_INET6 /\ is_v4mapped u = false) -> (ip_type ip = IPADDR_TYPE_V4 -> sa_family u = AF_INET) ->
  c_type c = HEV_SOCKS5_TYPE_UDP_IN_UDP -> (0 < fuel)%nat -> is_bytes (datagram u d) -> d <> [] ->
  zlen (datagram u d) <= 1500 ->
  (let r := w_env w (w_trace w) (SysRecvfrom (c_udp_fd c) 1500) in r_ret r = zlen (datagram u d) /\ r_data r = datagram u d) ->
  exists s w', length s = 28%nat /\ sa_family s = family_of ip /\ same_endpoint (unmap s) u /\
    hev_socks5_session_udp_fwd_b fuel c (ip_type ip) true err w =
      Ok ((match sock_to_lwip_addr s with Some (a, p) => (if negb (err =? 0) then -1 else 0, Some (d, a, p)) | None => (-1, None) end), w').
Proof.
  intros Hu Hip Hfu Hty Ht Hf Hby Hd Hmax Hr.
  assert (Hdl : 0 < zlen d) by (destruct d; [done|simpl; lia]). pose proof (length_datagram u d Hu).
  assert (Hsz : 10 <= enc_size u) by (unfold enc_size, S_SIZE_I4, S_SIZE_I6; ccase; lia).
  set (s0 := set_family zero_addr (family_of ip)).
  destruct (datagram_recv fuel c u d UDP_BUF_SIZE s0 w) as (s & w' & Hw & Hls & Hfs & Hse); try done.
  - destruct Hip as [[H1 _]|[H1 _]]; unfold s0, family_of; rewrite H1; [left|right]; [|done]. split; [done|by apply Hty].
  - unfold UDP_BUF_SIZE. lia.
  - exists s, w'. split_and!; [done| |done|].
    + rewrite Hfs. unfold s0, family_of. by destruct (ip_type ip =? IPADDR_TYPE_V4).
    + unfold hev_socks5_session_udp_fwd_b. cbn [negb].
      match goal with |- context [hev_socks5_udp_recvfrom fuel c UDP_BUF_SIZE ?x] => assert (x = s0) as -> end.
      { unfold s0, family_of. by destruct Hip as [[-> _]|[-> _]]. }
      unfold mbind, io_bind. rewrite Hw. replace (zlen d <=? 0) with false by lia. replace (zlen d <? zlen d) with false by lia.
      by destruct (sock_to_lwip_addr s) as [[? ?]|].
Qed.

(** C24: in the mode UDP in UDP, the bytes a session sends for a frame reach the proxy as
    they are, and an answer comes back from the address they were sent to.  What
    [hev_socks5_udp_sendto] writes for bytes to [ip] and [port] is one datagram, in which
    the proxy finds a fragment number of 0, that endpoint (an IPv4-mapped address as
    IPv4; an IPv6 one if it allows IPv6), and behind the header exactly those bytes; and
    what the proxy writes for a nonempty datagram of that endpoint, which it holds at
    offset 22, is one datagram, of which the session passes exactly those bytes to lwIP,
    as coming from [ip] and [port], if with its header it has at most 1500 bytes.  An
    empty answer ends the session: [empty_datagram_ends]. *)
Theorem udp_datagram_roundtrip (c : HevSocks5Client) (fuel : nat) (ip : ip_addr_t) (port : Z) (x : sockaddr) :
  c_type c = HEV_SOCKS5_TYPE_UDP_IN_UDP -> (0 < fuel)%nat ->
  ip_ok ip -> 0 <= port < 65536 -> length x = 28%nat ->
  let a := lwip_to_sock_addr ip port x in let u := unmap a in
  (forall d w, serves (c_udp_fd c) (fun _ => []) (w_env w) ->
    let m := datagram u d in
    exists w', hev_socks5_udp_sendto fuel c d a w = Ok (zlen m, w') /\
      messages (c_udp_fd c) (w_trace w') = messages (c_udp_fd c) (w_trace w) ++ [m] /\
      forall a0 rest wp, length a0 = 28%nat -> w_buf wp = m ++ rest -> (sa_family u = AF_INET6 -> ps_ipv6 (w_params wp) = true) ->
        exists dst, byte_at (w_buf wp) 2 = 0 /\ s5_get_addr 0 (zlen m) a0 SOCK_DGRAM wp = Ok ((enc_size u, dst), wp) /\
          same_endpoint u dst /\ sub (w_buf wp) (enc_size u) (zlen m - enc_size u) = d) /\
  (forall val n s e wp, length s = 28%nat -> sa_family s = AF_INET \/ sa_family s = AF_INET6 ->
    same_endpoint (map_fix s 0) u -> 0 < n -> 22 + n <= zlen (w_buf wp) -> client_of wp val e ->
    let d := sub (w_buf wp) 22 n in let m := datagram (map_fix s 0) d in
    exists rsp wp', udp_to_client val n s wp = Ok (Next (Some (r_ret rsp)), wp') /\
      w_trace wp' = (SysSend (ev_fd e) m 0, rsp) :: w_trace wp /\
      forall w err, is_bytes m -> zlen m <= 1500 ->
        (let r := w_env w (w_trace w) (SysRecvfrom (c_udp_fd c) 1500) in r_ret r = zlen m /\ r_data r = m) ->
        exists w', hev_socks5_session_udp_fwd_b fuel c (ip_type ip) true err w
          = Ok ((if negb (err =? 0) then -1 else 0, Some (d, ip, port)), w')).
Proof.
  intros Ht Hfuel Hip Hport Hx a u. destruct (lwip_sock_fields ip port x Hip Hx) as (Ha & Hfa & _). fold a in Ha, Hfa.
  assert (Hf : sa_family a = AF_INET \/ sa_family a = AF_INET6) by (rewrite Hfa; apply family_of_ok).
  assert (Hu : length u = 28%nat) by by apply length_unmap. split.
  - intros d w Hs m.
    destruct (wp_Ok _ _ _ (sendto_said (c_udp_fd c) _ _ Hs fuel c a d w Ht eq_refl Ha Hf Hfuel eq_refl))
      as (r & w' & Hw & -> & Hm). exists w'. split_and!; [done..|]. intros a0 rest wp H0 Hb H6.
    destruct (datagram_read u d rest a0 wp) as (dst & Hg & Hse & Hd & Hfrag); [done..|by apply unmap_family|done|done|].
    by exists dst.
  - intros val n s e wp Hs Hfs Hsame Hn Hb Hc d m.
    assert (Hd : d <> []) by (intros Hd; assert (zlen d = n) by (unfold d; rewrite zlen_sub; lia); rewrite Hd in *; simpl in *; lia).
    destruct (wp_Ok _ _ _ (udp_to_client_wp val n s e wp Hs ltac:(lia) Hb Hc)) as (r & wp' & Hw & rsp & -> & Htr).
    exists rsp, wp'. split_and!; [done..|]. intros w err Hby Hmax Hr.
    destruct (fwd_b_datagram fuel c ip (map_fix s 0) d err w) as (s' & w' & Hl' & Hf' & Hse & Hb'); try done.
    + by apply length_map_fix0.
    + by apply map_fix_family.
    + intros Hty. destruct Hsame as [-> _]. assert (H4 : sa_family a = AF_INET) by (rewrite Hfa; unfold family_of; by rewrite Hty).
      unfold u, unmap. by rewrite H4.
    + exists w'. rewrite Hb'. rewrite (sock_to_lwip_back ip port x Hip Hport Hx s'); [done|done|exact Hf'|].
      destruct Hse as (E1 & E2 & E3), Hsame as (F1 & F2 & F3). repeat split; etransitivity; eassumption.
Qed.

(** An IPv6 flow: one datagram, and the answer. *)
Definition sample_udp : HevSocks5Client := set_c_udp_fd 9 (hev_socks5_session_udp_construct true 0).
Definition sample_ip : ip_addr_t := IpAddr IPADDR_TYPE_V6 (sin6_addr sample_v6).
Definition sample_pairs : world :=
  let e i p := set_fd i (set_pair (Some p) zero_eval) in
  with_pool (Pool 3 3 3 [0; 1; 2]%nat [e 5 2%nat; e 6 2%nat; e 7 1%nat] [] 0) (world_ok [] (replicate 22 9 ++ [1; 2; 3; 4])).
Lemma udp_datagram_roundtrip_witness :
  (exists w', hev_socks5_udp_sendto 2 sample_udp [7; 8; 9] (lwip_to_sock_addr sample_ip 443 zero_addr)
    (World (serve_env 9 (fun _ => [])) [] 0 ∅ ∅ ∅ initial_params no_pool [] true) = Ok (25, w')) /\
  let m := datagram sample_v6 [1; 2; 3] in
  let w := World (fun _ _ => Rsp (zlen m) 0 m [] []) [] 0 ∅ ∅ ∅ initial_params no_pool [] true in
  exists rsp wp', udp_to_client 0 3 sample_v6 sample_pairs = Ok (Next (Some (r_ret rsp)), wp') /\
    w_trace wp' = [(SysSend 6 m 0, rsp)] /\
    exists w', hev_socks5_session_udp_fwd_b 2 sample_udp IPADDR_TYPE_V6 true 0 w = Ok ((0, Some ([1; 2; 3], sample_ip, 443)), w').
Proof.
  destruct (udp_datagram_roundtrip sample_udp 2 sample_ip 443 zero_addr eq_refl ltac:(lia)) as [Hto Hfrom];
    [by right|done|done|]. split.
  - set (w := World _ _ _ _ _ _ _ _ _ _). destruct (Hto [7; 8; 9] w) as (w' & Hw & _); [apply serve_env_serves|].
    by exists w'.
  - intros m w. destruct (Hfrom 0%nat 3 sample_v6 (set_fd 6 (set_pair (Some 2%nat) zero_eval)) sample_pairs)
      as (rsp & wp' & Hw & Htr & Hr); [done|by right|done|lia|vm_compute; discriminate|by eexists _, _, _, _|].
    exists rsp, wp'. split; [exact Hw|]. split; [exact Htr|]. apply (Hr w 0);
      [vm_compute; by repeat constructor|vm_compute; discriminate|done].
Defined.

(** An empty datagram of a server ends the session: no bytes is what the end of a
    connection looks like. *)
Fact empty_datagram_ends :
  let m := datagram sample_v6 [] in
  let w := World (fun _ _ => Rsp (zlen m) 0 m [] []) [] 0 ∅ ∅ ∅ initial_params no_pool [] true in
  match hev_socks5_session_udp_fwd_b 2 sample_udp IPADDR_TYPE_V6 true 0 w with
  | Ok (r, _) => r = (-1, None)
  | Fault _ => False
  end.
Proof. vm_compute. reflexivity. Qed.
