(* ===== verification/HevRing.v ===== *)
(** The ring buffer of the tunnel (hev-socks5-tunnel, misc/hev-ring-buffer.c).

    The TCP session reads from the server's socket into the buffer and hands the
    bytes to lwIP by reference, so a byte must stay where it is until the device
    has acknowledged it.  [use_size] counts the bytes that are kept, [rda_size]
    those of them that have not been handed over yet. *)
From S2P Require Import Prelude.

(** * Definitions *)

Record HevRingBuffer : Type := Ring {
  rp : Z;
  wp : Z;
  rda_size : Z;
  use_size : Z;
  max_size : Z;
  ring_data : list Z
}.

(** [hev_ring_buffer_alloca]; [data] is what the memory holds. *)
Definition hev_ring_buffer_alloca (s : Z) (data : list Z) : HevRingBuffer := Ring 0 0 0 0 s data.

Definition hev_ring_buffer_get_max_size (self : HevRingBuffer) : Z := max_size self.
Definition hev_ring_buffer_get_use_size (self : HevRingBuffer) : Z := use_size self.

(** An [iovec]: the offset into [data] and the length. *)
Notation iovec := (Z * Z)%type.

Definition hev_ring_buffer_reading (self : HevRingBuffer) : list iovec :=
  if rda_size self =? 0 then [] else
  let upper_size := size_t (max_size self - rp self) in
  if rda_size self <=? upper_size then [(rp self, rda_size self)]
  else [(rp self, upper_size); (0, size_t (rda_size self - upper_size))].

(** [a % b] on [size_t] *)
Definition size_mod (a b : Z) : res Z := if b =? 0 then Fault DivByZero else Ok (size_t a mod b).

Definition hev_ring_buffer_read_finish (self : HevRingBuffer) (size : Z) : res HevRingBuffer :=
  p ← size_mod (rp self + size) (max_size self);
  mret (Ring p (wp self) (size_t (rda_size self - size)) (use_size self) (max_size self) (ring_data self)).

Definition hev_ring_buffer_read_release (self : HevRingBuffer) (size : Z) : HevRingBuffer :=
  let use := size_t (use_size self - size) in
  if use =? 0 then Ring 0 0 (rda_size self) use (max_size self) (ring_data self)
  else Ring (rp self) (wp self) (rda_size self) use (max_size self) (ring_data self).

Definition hev_ring_buffer_writing (self : HevRingBuffer) : list iovec :=
  if use_size self =? max_size self then [] else
  let upper_size := size_t (max_size self - wp self) in
  let spc_size := size_t (max_size self - use_size self) in
  if spc_size <=? upper_size then [(wp self, spc_size)]
  else [(wp self, upper_size); (0, size_t (spc_size - upper_size))].

Definition hev_ring_buffer_write_finish (self : HevRingBuffer) (size : Z) : res HevRingBuffer :=
  p ← size_mod (wp self + size) (max_size self);
  mret (Ring (rp self) p (size_t (rda_size self + size)) (size_t (use_size self + size))
    (max_size self) (ring_data self)).

(** What [readv] stores and [writev] takes: the blocks in their order. *)
Fixpoint scatter (b : list Z) (iov : list iovec) (d : list Z) : res (list Z) :=
  match iov with
  | [] => mret b
  | (o, n) :: iov =>
      b ← wrn b o (take (Z.to_nat n) d);
      scatter b iov (drop (Z.to_nat n) d)
  end.
Fixpoint gather (b : list Z) (iov : list iovec) : res (list Z) :=
  match iov with
  | [] => mret []
  | (o, n) :: iov => d ← rdn b o n; d' ← gather b iov; mret (d ++ d')
  end.
Definition iov_size (iov : list iovec) : Z := foldr (fun v n => v.2 + n) 0 iov.
Definition set_data (b : list Z) (r : HevRingBuffer) : HevRingBuffer :=
  Ring (rp r) (wp r) (rda_size r) (use_size r) (max_size r) b.

(** * What the ring is meant to be

    The bytes handed over and not yet acknowledged, then those to hand over.
    Position [i] of that sequence lies [i] behind [st], wrapping once. *)
Definition at_ring (max st i : Z) : Z := if st + i <? max then st + i else st + i - max.

Record ring_is (r : HevRingBuffer) (sent pend : list Z) (st : Z) : Prop := {
  ri_max : 0 < max_size r <= 2 ^ 62;
  ri_len : zlen (ring_data r) = max_size r;
  ri_st : 0 <= st < max_size r;
  ri_rda : rda_size r = zlen pend;
  ri_use : use_size r = zlen sent + zlen pend;
  ri_fits : use_size r <= max_size r;
  ri_rp : rp r = at_ring (max_size r) st (zlen sent);
  ri_wp : wp r = at_ring (max_size r) st (use_size r);
  ri_data : forall i, 0 <= i < use_size r ->
    byte_at (ring_data r) (at_ring (max_size r) st i) = byte_at (sent ++ pend) i
}.

Lemma alloca_is s data : 0 < s <= 2 ^ 62 -> zlen data = s -> ring_is (hev_ring_buffer_alloca s data) [] [] 0.
Proof. intros. split; simpl; unfold at_ring; zcases; lia. Qed.

Lemma size_mod_at max p n :
  0 < max <= 2 ^ 62 -> 0 <= p < max -> 0 <= n <= max -> size_mod (p + n) max = Ok (at_ring max p n).
Proof.
  intros Hm Hp Hn. unfold size_mod, at_ring. zcases; f_equal; rewrite size_t_small by lia.
  - apply Z.mod_small. lia.
  - rewrite <- (Z.mod_small (p + n - max) max) by lia.
    replace (p + n) with (p + n - max + 1 * max) at 1 by lia. apply Z.mod_add. lia.
Qed.
Lemma at_ring_range max st i : 0 <= st < max -> 0 <= i <= max -> 0 <= at_ring max st i < max.
Proof. unfold at_ring. zcases. Qed.
Lemma at_ring_at max st i j :
  0 <= st < max -> 0 <= i -> 0 <= j -> i + j <= max -> at_ring max (at_ring max st i) j = at_ring max st (i + j).
Proof. unfold at_ring. zcases. Qed.

Lemma write_finish_is r sent pend st d :
  ring_is r sent pend st -> use_size r + zlen d <= max_size r ->
  (forall i, 0 <= i < zlen d -> byte_at (ring_data r) (at_ring (max_size r) (wp r) i) = byte_at d i) ->
  exists r', hev_ring_buffer_write_finish r (zlen d) = Ok r' /\ ring_is r' sent (pend ++ d) st /\
    max_size r' = max_size r.
Proof.
  intros [] Hd Hb. pose proof (at_ring_range (max_size r) st (use_size r)) as Hr.
  unfold hev_ring_buffer_write_finish. rewrite size_mod_at by lia. eexists. split; [reflexivity|]. split; [|done].
  rewrite ri_wp0, at_ring_at in * by lia. rewrite !size_t_small by lia.
  split; simpl; rewrite ?length_app; try done; try lia.
  intros i Hi. rewrite app_assoc, byte_at_app by lia. rewrite length_app. zcase.
  - rewrite ri_data0 by lia. done.
  - specialize (Hb (i - use_size r) ltac:(lia)). rewrite at_ring_at in Hb by lia.
    replace (i - Z.of_nat (length sent + length pend)) with (i - use_size r) by lia. rewrite <- Hb.
    do 2 f_equal. lia.
Qed.

Lemma read_finish_is r sent a b st :
  ring_is r sent (a ++ b) st ->
  exists r', hev_ring_buffer_read_finish r (zlen a) = Ok r' /\ ring_is r' (sent ++ a) b st /\ max_size r' = max_size r.
Proof.
  intros []. rewrite length_app in *. unfold hev_ring_buffer_read_finish.
  pose proof (at_ring_range (max_size r) st (zlen sent)) as Hr.
  rewrite size_mod_at by lia. eexists. split; [reflexivity|]. split; [|done].
  split; simpl; rewrite ?length_app, ?size_t_small by lia; try done; try lia.
  - rewrite ri_rp0, at_ring_at by lia. f_equal. lia.
  - intros i Hi. by rewrite ri_data0, app_assoc by lia.
Qed.

Lemma read_release_is r a b pend st :
  ring_is r (a ++ b) pend st ->
  ring_is (hev_ring_buffer_read_release r (zlen a)) b pend
    (if use_size r =? zlen a then 0 else at_ring (max_size r) st (zlen a)) /\
  max_size (hev_ring_buffer_read_release r (zlen a)) = max_size r.
Proof.
  intros []. rewrite length_app in *. unfold hev_ring_buffer_read_release. rewrite size_t_small by lia.
  replace (use_size r =? zlen a) with (use_size r - zlen a =? 0) by lia.
  case (Z.eqb_spec (use_size r - zlen a) 0); intros E; (split; [|done]).
  - split; simpl; unfold at_ring; zcases.
  - pose proof (at_ring_range (max_size r) st (zlen a)). split; simpl; try done; try lia.
    + rewrite ri_rp0, at_ring_at by lia. f_equal. lia.
    + rewrite ri_wp0, at_ring_at by lia. f_equal. lia.
    + intros i Hi. rewrite at_ring_at by lia. rewrite ri_data0, <- app_assoc, byte_at_app by lia. zcases. f_equal. lia.
Qed.

(** ** The blocks *)

Lemma iov_size_reading r sent pend st : ring_is r sent pend st -> iov_size (hev_ring_buffer_reading r) = zlen pend.
Proof.
  intros []. unfold hev_ring_buffer_reading. pose proof (at_ring_range (max_size r) st (zlen sent)).
  rewrite (size_t_small (max_size r - rp r)) by lia. zcases; cbn; [lia|lia|]. rewrite size_t_small by lia. lia.
Qed.
Lemma iov_size_writing r sent pend st :
  ring_is r sent pend st -> iov_size (hev_ring_buffer_writing r) = max_size r - use_size r.
Proof.
  intros []. unfold hev_ring_buffer_writing. pose proof (at_ring_range (max_size r) st (use_size r)).
  rewrite (size_t_small (max_size r - wp r)), (size_t_small (max_size r - use_size r)) by lia.
  zcases; cbn; [lia|lia|]. rewrite size_t_small by lia. lia.
Qed.

(** Taking the blocks for reading gives exactly what is to be handed over. *)
Lemma gather_reading r sent pend st :
  ring_is r sent pend st -> gather (ring_data r) (hev_ring_buffer_reading r) = Ok pend.
Proof.
  intros []. unfold hev_ring_buffer_reading. pose proof (at_ring_range (max_size r) st (zlen sent)) as Hr.
  rewrite (size_t_small (max_size r - rp r)) by lia.
  assert (Hb : forall i, 0 <= i < zlen pend -> byte_at (ring_data r) (at_ring (max_size r) (rp r) i) = byte_at pend i).
  { intros i Hi. rewrite ri_rp0, at_ring_at, ri_data0, byte_at_app by lia. zcases. f_equal. lia. }
  rewrite ri_rda0. destruct (Z.eqb_spec (zlen pend) 0); [by destruct pend|].
  destruct (Z.leb_spec (zlen pend) (max_size r - rp r)); cbn [gather].
  - rewrite rdn_ok by lia. cbn. f_equal. rewrite app_nil_r. apply bytes_ext; [rewrite length_sub; lia|].
    rewrite zlen_sub by lia. intros i Hi. rewrite byte_at_sub, <- Hb by lia. unfold at_ring. f_equal. zcases.
  - rewrite size_t_small, rdn_ok by lia. cbn [mbind res_bind]. rewrite rdn_ok by lia. cbn. f_equal. rewrite app_nil_r.
    apply bytes_ext; [rewrite length_app, !length_sub; lia|].
    rewrite length_app, !length_sub by lia. intros i Hi.
    rewrite byte_at_app, zlen_sub by lia. zcase; rewrite byte_at_sub, <- Hb by lia; unfold at_ring; f_equal; zcases.
Qed.

(** Storing [d] in the blocks for writing: nothing that is kept changes. *)
Lemma scatter_writing r sent pend st d :
  ring_is r sent pend st -> zlen d <= max_size r - use_size r ->
  exists b, scatter (ring_data r) (hev_ring_buffer_writing r) d = Ok b /\ ring_is (set_data b r) sent pend st /\
    forall i, 0 <= i < zlen d -> byte_at b (at_ring (max_size r) (wp r) i) = byte_at d i.
Proof.
  intros Hr Hd. assert (H := Hr). destruct H. unfold hev_ring_buffer_writing.
  pose proof (at_ring_range (max_size r) st (use_size r)) as Hw.
  assert (wp r = st + use_size r \/ wp r = st + use_size r - max_size r /\ max_size r <= st + use_size r)
    by (rewrite ri_wp0; unfold at_ring; zcases).
  rewrite (size_t_small (max_size r - wp r)), (size_t_small (max_size r - use_size r)) by lia.
  assert (Hset : forall b, zlen b = max_size r ->
    (forall i, 0 <= i < zlen d -> byte_at b (at_ring (max_size r) (wp r) i) = byte_at d i) ->
    (forall i, 0 <= i < use_size r -> byte_at b (at_ring (max_size r) st i) = byte_at (ring_data r) (at_ring (max_size r) st i)) ->
    ring_is (set_data b r) sent pend st /\
    forall i, 0 <= i < zlen d -> byte_at b (at_ring (max_size r) (wp r) i) = byte_at d i).
  { intros b Hb Hn Hk. split; [|done]. split; simpl; try done. intros i Hi. by rewrite Hk, ri_data0 by lia. }
  destruct (Z.eqb_spec (use_size r) (max_size r)).
  { exists (ring_data r). destruct d; [|simpl in *; lia]. split; [done|]. apply Hset; [done|simpl; lia|done]. }
  destruct (Z.leb_spec (max_size r - use_size r) (max_size r - wp r)); cbn [scatter].
  - rewrite take_ge by lia. rewrite wrn_ok by lia. eexists. split; [reflexivity|].
    apply Hset; [rewrite length_put; lia| |]; intros i Hi; rewrite byte_at_put by (unfold at_ring; zcases);
      unfold at_ring; zcases; f_equal; lia.
  - rewrite (size_t_small (max_size r - use_size r - (max_size r - wp r))) by lia.
    set (d1 := take _ d). set (d2 := drop _ d).
    assert (H1 : zlen d1 = Z.min (max_size r - wp r) (zlen d)) by (unfold d1; rewrite length_take; lia).
    assert (H2 : zlen d2 = zlen d - zlen d1) by (unfold d2; rewrite length_drop; lia).
    assert (Hd12 : forall i, 0 <= i < zlen d -> byte_at d i = if i <? zlen d1 then byte_at d1 i else byte_at d2 (i - zlen d1)).
    { intros i Hi. rewrite <- (take_drop (Z.to_nat (max_size r - wp r)) d) at 1. by rewrite byte_at_app by lia. }
    rewrite wrn_ok by lia. cbn [mbind res_bind].
    rewrite (take_ge d2) by lia. rewrite wrn_ok by (rewrite ?length_put; lia). eexists. split; [reflexivity|].
    apply Hset; [rewrite !length_put; rewrite ?length_put; lia| |]; intros i Hi;
      rewrite !byte_at_put by (rewrite ?length_put by lia; unfold at_ring; zcases);
      [rewrite Hd12 by lia|]; unfold at_ring; zcases; try (f_equal; lia).
Qed.

(** * Refinement of a queue in two parts *)

(** The three things the session does with the buffer: to store what [readv]
    returned, to hand everything over, and to drop what was acknowledged. *)
Inductive ring_op : Type := Fill (d : list Z) | Hand | Drop (n : Z).

Definition ring_step (r : HevRingBuffer) (op : ring_op) : res (HevRingBuffer * list Z) :=
  match op with
  | Fill d =>
      b ← scatter (ring_data r) (hev_ring_buffer_writing r) d;
      r ← hev_ring_buffer_write_finish (set_data b r) (zlen d);
      mret (r, [])
  | Hand =>
      d ← gather (ring_data r) (hev_ring_buffer_reading r);
      r ← hev_ring_buffer_read_finish r (iov_size (hev_ring_buffer_reading r));
      mret (r, d)
  | Drop n => mret (hev_ring_buffer_read_release r n, [])
  end.
Fixpoint ring_run (r : HevRingBuffer) (ops : list ring_op) : res (HevRingBuffer * list Z) :=
  match ops with
  | [] => mret (r, [])
  | op :: ops => '(r, d) ← ring_step r op; '(r, d') ← ring_run r ops; mret (r, d ++ d')
  end.

(** On the queue: the bytes handed over and not acknowledged, and the others;
    [None] when there is no room, or more is acknowledged than was handed over. *)
Notation ring_queue := (list Z * list Z)%type.
Definition queue_step (max : Z) (q : ring_queue) (op : ring_op) : option (ring_queue * list Z) :=
  match op with
  | Fill d => if zlen q.1 + zlen q.2 + zlen d <=? max then Some ((q.1, q.2 ++ d), []) else None
  | Hand => Some ((q.1 ++ q.2, []), q.2)
  | Drop n => if (0 <=? n) && (n <=? zlen q.1) then Some ((drop (Z.to_nat n) q.1, q.2), []) else None
  end.
Fixpoint queue_run (max : Z) (q : ring_queue) (ops : list ring_op) : option (ring_queue * list Z) :=
  match ops with
  | [] => Some (q, [])
  | op :: ops => '(q, d) ← queue_step max q op; '(q, d') ← queue_run max q ops; Some (q, d ++ d')
  end.

Lemma ring_step_refines max r q st op q' d :
  ring_is r q.1 q.2 st -> max_size r = max -> queue_step max q op = Some (q', d) ->
  exists r' st', ring_step r op = Ok (r', d) /\ ring_is r' q'.1 q'.2 st' /\ max_size r' = max.
Proof.
  intros Hr <- H. destruct op as [x| |n]; simpl in H.
  - case_match; [|done]. simplify_eq/=.
    destruct (scatter_writing r q.1 q.2 st x Hr) as (b & Hb & Hr' & Hx); [destruct Hr; lia|].
    destruct (write_finish_is (set_data b r) q.1 q.2 st x Hr') as (r' & Hw & Hr'' & Hm); [destruct Hr; simpl; lia|exact Hx|].
    exists r', st. cbn. by rewrite Hb; cbn; rewrite Hw.
  - simplify_eq. destruct (read_finish_is r q.1 q.2 [] st) as (r' & Hf & Hr' & Hm); [by rewrite app_nil_r|].
    exists r', st. cbn. rewrite (gather_reading r q.1 q.2 st Hr), (iov_size_reading r q.1 q.2 st Hr). cbn. by rewrite Hf.
  - case_match; [|done]. simplify_eq/=. rewrite <- (take_drop (Z.to_nat n) q.1) in Hr.
    destruct (read_release_is r _ _ _ _ Hr) as (Hr' & Hm). rewrite length_take in Hr', Hm.
    replace (Z.of_nat (Z.to_nat n `min` length q.1)) with n in Hr', Hm by lia. eauto.
Qed.

(** C20: the ring buffer is a queue: for every sequence of stores, hand-overs and
    acknowledgements that fits its size and acknowledges no more than was handed
    over, the operations are defined, give back the same bytes as the queue, and
    the blocks offered for writing are exactly the room that is left.  So a byte
    that was handed over and not acknowledged is never overwritten, wherever the
    two positions wrap. *)
Theorem ring_refines_queue (s : Z) (data : list Z) (ops : list ring_op) (sent pend out : list Z) :
  0 < s <= 2 ^ 62 -> zlen data = s -> queue_run s ([], []) ops = Some ((sent, pend), out) ->
  exists r st, ring_run (hev_ring_buffer_alloca s data) ops = Ok (r, out) /\
    hev_ring_buffer_get_use_size r = zlen sent + zlen pend /\
    (forall i, 0 <= i < zlen sent -> byte_at (ring_data r) (at_ring s st i) = byte_at sent i) /\
    gather (ring_data r) (hev_ring_buffer_reading r) = Ok pend /\
    iov_size (hev_ring_buffer_writing r) = s - (zlen sent + zlen pend).
Proof.
  intros Hs Hd Hq.
  enough (Hrun : forall r q st q' o, ring_is r q.1 q.2 st -> max_size r = s -> queue_run s q ops = Some (q', o) ->
    exists r' st', ring_run r ops = Ok (r', o) /\ ring_is r' q'.1 q'.2 st' /\ max_size r' = s).
  { destruct (Hrun (hev_ring_buffer_alloca s data) ([], []) 0 (sent, pend) out) as (r & st & Hr & Hi & Hm); [by apply alloca_is|done..|].
    simpl in Hi. exists r, st. rewrite (gather_reading r sent pend st Hi), (iov_size_writing r sent pend st Hi), Hm.
    destruct Hi. rewrite ri_use0 in *. split_and!; try done. rewrite <- Hm. intros i Hi.
    rewrite ri_data0, byte_at_app by lia. zcases. }
  clear - ops. induction ops as [|op ops IH]; simpl; intros r q st q' o Hr Hm Hq; [simplify_eq; eauto|].
  destruct (queue_step s q op) as [[q1 d]|] eqn:E1; [|done]. cbn in Hq.
  destruct (queue_run s q1 ops) as [[q2 d']|] eqn:E2; [|done]. cbn in Hq. simplify_eq.
  destruct (ring_step_refines _ r q st op q1 d Hr eq_refl E1) as (r1 & st1 & H1 & Hr1 & Hm1).
  destruct (IH r1 q1 st1 q' d' Hr1 Hm1 E2) as (r2 & st2 & H2 & Hr2 & Hm2).
  exists r2, st2. rewrite H1. cbn. by rewrite H2.
Qed.
Lemma ring_refines_queue_witness :
  exists r st, ring_run (hev_ring_buffer_alloca 4 [0; 0; 0; 0]) [Fill [1; 2; 3]; Hand; Drop 2; Fill [4; 5]; Hand; Fill [6]]
      = Ok (r, [1; 2; 3; 4; 5]) /\
    hev_ring_buffer_get_use_size r = 4 /\
    (forall i, 0 <= i < 3 -> byte_at (ring_data r) (at_ring 4 st i) = byte_at [3; 4; 5] i) /\
    gather (ring_data r) (hev_ring_buffer_reading r) = Ok [6] /\ iov_size (hev_ring_buffer_writing r) = 0.
Proof. apply (ring_refines_queue 4 _ _ [3; 4; 5] [6]); [lia|reflexivity|vm_compute; reflexivity]. Defined.
