(* ===== verification/HevTcp.v ===== *)
(** A TCP session of the tunnel (hev-socks5-session-tcp.c): the bytes lwIP
    receives from the device are queued and written to the proxy's socket, the
    bytes read from the socket go through the ring buffer to lwIP.

    The session is a cooperative task.  lwIP calls the handlers of the session
    from other tasks, so between two points where this task waits (for the mutex,
    or in the yielder) nothing happens, and at such a point any number of
    handlers may have run.  The answer of the scheduler to a wait is therefore a
    list of callbacks.  lwIP keeps references into the ring buffer, not copies:
    whenever it runs, it may send any byte it has not seen acknowledged, and the
    model faults with [Stale] when one of them is no longer what it was. *)
From S2P Require Import Prelude HevRing.

(** * What the session calls *)
Inductive callback : Type :=
  | OnRecv (p : option (list (list Z)))   (* the payloads of a chain of pbufs *)
  | OnSent (len : Z)
  | OnErr.
Inductive tcall : Type :=
  | TReadv (n : Z)
  | TWritev (d : list Z)
  | TSndbuf
  | TTcpWrite (d : list Z)
  | TTcpOutput
  | TTcpRecved (n : Z)
  | TLock
  | TYield
  | TSleep (ms : Z).
(** The return value, [errno], the bytes stored, the callbacks run meanwhile. *)
Record tans : Type := TAns { a_ret : Z; a_errno : Z; a_data : list Z; a_cbs : list callback }.

Definition EAGAIN : Z := 11.
Definition ERR_OK : Z := 0.
Definition ERR_WOULDBLOCK : Z := -7.
(** lwipopts.h: eight segments of [TCP_MSS]. *)
Definition TCP_WND : Z := 8 * 8191.

(** * State

    The members of [HevSocks5SessionTCP] and of its base that change, and what
    lwIP and the socket have seen: [s_refs] are the bytes given to [tcp_write]
    and not acknowledged, each with its place in the ring; [s_window] the bytes
    passed to the receive handler and not reported back with [tcp_recved]; then
    everything read from and written to the socket, and everything accepted from
    and by lwIP. *)
Record session : Type := Session {
  s_env : list (tcall * tans) -> tcall -> tans;
  s_trace : list (tcall * tans);
  s_refs : list (Z * Z);
  s_window : Z;
  s_sock_in : list Z;
  s_sock_out : list Z;
  s_lwip_in : list Z;
  s_lwip_out : list Z;
  s_pcb : bool;
  s_queue : list (list Z);
  s_buffer : option HevRingBuffer;
  s_timeout : Z
}.
Definition set_trace v s := Session (s_env s) v (s_refs s) (s_window s) (s_sock_in s) (s_sock_out s) (s_lwip_in s) (s_lwip_out s) (s_pcb s) (s_queue s) (s_buffer s) (s_timeout s).
Definition set_refs v s := Session (s_env s) (s_trace s) v (s_window s) (s_sock_in s) (s_sock_out s) (s_lwip_in s) (s_lwip_out s) (s_pcb s) (s_queue s) (s_buffer s) (s_timeout s).
Definition set_window v s := Session (s_env s) (s_trace s) (s_refs s) v (s_sock_in s) (s_sock_out s) (s_lwip_in s) (s_lwip_out s) (s_pcb s) (s_queue s) (s_buffer s) (s_timeout s).
Definition set_sock_in v s := Session (s_env s) (s_trace s) (s_refs s) (s_window s) v (s_sock_out s) (s_lwip_in s) (s_lwip_out s) (s_pcb s) (s_queue s) (s_buffer s) (s_timeout s).
Definition set_sock_out v s := Session (s_env s) (s_trace s) (s_refs s) (s_window s) (s_sock_in s) v (s_lwip_in s) (s_lwip_out s) (s_pcb s) (s_queue s) (s_buffer s) (s_timeout s).
Definition set_lwip_in v s := Session (s_env s) (s_trace s) (s_refs s) (s_window s) (s_sock_in s) (s_sock_out s) v (s_lwip_out s) (s_pcb s) (s_queue s) (s_buffer s) (s_timeout s).
Definition set_lwip_out v s := Session (s_env s) (s_trace s) (s_refs s) (s_window s) (s_sock_in s) (s_sock_out s) (s_lwip_in s) v (s_pcb s) (s_queue s) (s_buffer s) (s_timeout s).
Definition set_pcb v s := Session (s_env s) (s_trace s) (s_refs s) (s_window s) (s_sock_in s) (s_sock_out s) (s_lwip_in s) (s_lwip_out s) v (s_queue s) (s_buffer s) (s_timeout s).
Definition set_queue v s := Session (s_env s) (s_trace s) (s_refs s) (s_window s) (s_sock_in s) (s_sock_out s) (s_lwip_in s) (s_lwip_out s) (s_pcb s) v (s_buffer s) (s_timeout s).
Definition set_buffer v s := Session (s_env s) (s_trace s) (s_refs s) (s_window s) (s_sock_in s) (s_sock_out s) (s_lwip_in s) (s_lwip_out s) (s_pcb s) (s_queue s) v (s_timeout s).
Definition set_timeout v s := Session (s_env s) (s_trace s) (s_refs s) (s_window s) (s_sock_in s) (s_sock_out s) (s_lwip_in s) (s_lwip_out s) (s_pcb s) (s_queue s) (s_buffer s) v.

Definition tcp (A : Type) : Type := session -> res (A * session).
#[export] Instance tcp_ret : MRet tcp := fun A a s => Ok (a, s).
#[export] Instance tcp_bind : MBind tcp := fun A B f m s =>
  match m s with Ok (a, s') => f a s' | Fault e => Fault e end.
Definition self {A} (f : session -> A) : tcp A := fun s => Ok (f s, s).
Definition update (f : session -> session) : tcp unit := fun s => Ok (tt, f s).
Definition lift {A} (m : res A) : tcp A := fun s =>
  match m with Ok a => Ok (a, s) | Fault e => Fault e end.
Definition the_buffer : tcp HevRingBuffer := fun s =>
  match s_buffer s with Some r => Ok (r, s) | None => Fault NullDeref end.

(** * The handlers lwIP calls *)

(** The length of a chain; [tot_len] is 16 bits wide. *)
Definition tot_len (q : list (list Z)) : Z := zlen (concat q).
Definition pbuf_tot_len (q : list (list Z)) : Z := u16 (tot_len q).

(** hev-socks5-session.c *)
Definition hev_socks5_session_terminate : tcp unit := update (set_timeout 0).

Definition tcp_recv_handler (p : option (list (list Z))) : tcp Z :=
  match p with
  | None => _ ← hev_socks5_session_terminate; mret ERR_OK
  | Some p =>
      q ← self s_queue;
      match q with
      | [] => _ ← update (set_queue p); mret ERR_OK
      | _ =>
          if TCP_WND <? pbuf_tot_len q then mret ERR_WOULDBLOCK else
          _ ← update (set_queue (q ++ p)); mret ERR_OK
      end
  end.
Definition tcp_sent_handler (len : Z) : tcp Z :=
  r ← the_buffer;
  _ ← update (set_buffer (Some (hev_ring_buffer_read_release r len)));
  mret ERR_OK.
Definition tcp_err_handler : tcp unit := _ ← update (set_pcb false); hev_socks5_session_terminate.

(** What lwIP does around them: it never passes on more than the window it
    announced, and never acknowledges more than it was given (nor more than 16
    bits can say); a pcb that failed is gone. *)
Definition run_callback (c : callback) : tcp unit :=
  pcb ← self s_pcb;
  if negb pcb then mret tt else
  match c with
  | OnRecv None => _ ← tcp_recv_handler None; mret tt
  | OnRecv (Some p) =>
      w ← self s_window;
      if (tot_len p =? 0) || (TCP_WND <? w + tot_len p) then mret tt else
      e ← tcp_recv_handler (Some p);
      if negb (e =? ERR_OK) then mret tt else
      update (fun s => set_window (w + tot_len p) (set_lwip_in (s_lwip_in s ++ concat p) s))
  | OnSent len =>
      refs ← self s_refs;
      if (len <=? 0) || (zlen refs <? len) || (65535 <? len) then mret tt else
      _ ← update (set_refs (drop (Z.to_nat len) refs));
      _ ← tcp_sent_handler len; mret tt
  | OnErr => _ ← update (set_refs []); tcp_err_handler
  end.
Fixpoint run_callbacks (l : list callback) : tcp unit :=
  match l with [] => mret tt | c :: l => _ ← run_callback c; run_callbacks l end.

(** lwIP may read every byte it holds a reference to. *)
Definition ref_intact (r : HevRingBuffer) (x : Z * Z) : bool :=
  (0 <=? x.1) && (x.1 <? zlen (ring_data r)) && (byte_at (ring_data r) x.1 =? x.2).
Definition refs_intact (s : session) : bool :=
  match s_refs s, s_buffer s with
  | [], _ => true
  | l, Some r => forallb (ref_intact r) l
  | _, None => false
  end.
Definition lwip_runs : tcp unit := fun s => if refs_intact s then Ok (tt, s) else Fault Stale.

(** * Calls *)
Definition tsane (q : tcall) (a : tans) : tans :=
  let clip lo hi := Z.max lo (Z.min hi (a_ret a)) in
  match q with
  | TReadv n =>
      let k := clip (-1) n in
      TAns k (a_errno a) (map u8 (take (Z.to_nat k) (a_data a ++ replicate (Z.to_nat k) 0))) []
  | TWritev d => TAns (clip (-1) (zlen d)) (a_errno a) [] []
  | TSndbuf =>
      let k := clip 1 (2 ^ 32) in
      TAns k 0 (map u8 (take (Z.to_nat k) (a_data a ++ replicate (Z.to_nat k) 0))) []
  | TTcpWrite _ | TTcpOutput => TAns (clip (-16) 0) 0 [] []
  | TTcpRecved _ => TAns 0 0 [] []
  | TLock => TAns (clip 0 1) 0 [] (a_cbs a)
  | TYield => TAns 0 0 [] (a_cbs a)
  | TSleep ms => TAns (clip 0 ms) 0 [] (a_cbs a)
  end.
Definition tsys (q : tcall) : tcp tans := fun s =>
  let a := tsane q (s_env s (s_trace s) q) in Ok (a, set_trace ((q, a) :: s_trace s) s).

(** [hev_task_mutex_lock]: when another task holds the mutex, this one waits
    and the others run. *)
Definition hev_task_mutex_lock : tcp unit :=
  a ← tsys TLock;
  if a_ret a =? 0 then mret tt else
  _ ← lwip_runs; _ ← run_callbacks (a_cbs a); lwip_runs.

Inductive HevTaskYieldType : Set := HEV_TASK_YIELD | HEV_TASK_WAITIO.
(** [hev_socks5_task_io_yielder] *)
Definition task_io_yielder (type : HevTaskYieldType) : tcp Z :=
  timeout ← self s_timeout;
  let run q := (a ← tsys q; _ ← lwip_runs; _ ← run_callbacks (a_cbs a); _ ← lwip_runs; mret a) in
  match type with
  | HEV_TASK_YIELD => _ ← run TYield; mret 0
  | HEV_TASK_WAITIO =>
      if timeout <? 0 then _ ← run TYield; mret 0 else
      a ← run (TSleep timeout);
      mret (if a_ret a <=? 0 then -1 else 0)
  end.

(** * From the device to the proxy *)

(** lwIP's [pbuf_free_header] (pbuf.c): the count is 16 bits wide. *)
Fixpoint pbuf_free_header (q : list (list Z)) (free_left : Z) : list (list Z) :=
  match q with
  | [] => []
  | p :: q' =>
      if free_left =? 0 then q
      else if zlen p <=? free_left then pbuf_free_header q' (u16 (free_left - zlen p))
      else drop (Z.to_nat free_left) p :: q'
  end.

Definition is_null {A} (l : list A) : bool := match l with [] => true | _ => false end.

Definition tcp_splice_f : tcp Z :=
  q ← self s_queue;
  if is_null q then mret 0 else
  let iov := concat (take 64 q) in
  a ← tsys (TWritev iov);
  let s := a_ret a in
  _ ← update (fun x => set_sock_out (s_sock_out x ++ sub iov 0 s) x);
  if s <=? 0 then mret (if (s <? 0) && (a_errno a =? EAGAIN) then 0 else -1) else
  _ ← hev_task_mutex_lock;
  q ← self s_queue;
  _ ← update (set_queue (pbuf_free_header q (u16 s)));
  pcb ← self s_pcb;
  _ ← (if pcb : bool then
         _ ← tsys (TTcpRecved (u16 s));
         _ ← update (fun x => set_window (s_window x - u16 s) x);
         lwip_runs
       else mret tt);
  q ← self s_queue;
  mret (if is_null q then 0 else 1).

(** * From the proxy to the device *)

(** Lines 91-94: one [tcp_write] per block; without [TCP_WRITE_FLAG_COPY] lwIP
    keeps a reference. *)
Fixpoint write_blocks (iov : list iovec) (err : Z) : tcp Z :=
  match iov with
  | [] => mret err
  | (o, n) :: iov =>
      r ← the_buffer;
      d ← lift (rdn (ring_data r) o n);
      a ← tsys (TTcpWrite d);
      _ ← (if a_ret a =? ERR_OK then
             update (fun x => set_refs (s_refs x ++ zip (seqZ o n) d) (set_lwip_out (s_lwip_out x ++ d) x))
           else mret tt);
      write_blocks iov (Z.lor err (a_ret a))
  end.

(** Lines 87-100 *)
Definition hand_over : tcp Z :=
  _ ← hev_task_mutex_lock;
  pcb ← self s_pcb;
  err ← (if pcb : bool then
           r ← the_buffer;
           let iov := hev_ring_buffer_reading r in
           err ← write_blocks iov ERR_OK;
           r ← the_buffer;
           r ← lift (hev_ring_buffer_read_finish r (iov_size iov));
           _ ← update (set_buffer (Some r));
           a ← tsys TTcpOutput;
           _ ← lwip_runs;
           mret (Z.lor err (a_ret a))
         else mret ERR_OK);
  pcb ← self s_pcb;
  mret (if negb pcb || negb (err =? ERR_OK) then -1 else 1).

Definition tcp_splice_b : tcp Z :=
  r ← the_buffer;
  let iov := hev_ring_buffer_writing r in
  if is_null iov then mret 0 else
  a ← tsys (TReadv (iov_size iov));
  let s := a_ret a in
  b ← lift (scatter (ring_data r) iov (a_data a));
  let r := set_data b r in
  _ ← update (fun x => set_sock_in (s_sock_in x ++ a_data a) (set_buffer (Some r) x));
  if (s <=? 0) && (s <? 0) && (a_errno a =? EAGAIN) then mret 0 else
  if (s <=? 0) && is_null (hev_ring_buffer_reading r) then mret (-1) else
  r ← lift (hev_ring_buffer_write_finish r s);
  _ ← update (set_buffer (Some r));
  hand_over.

(** * The session *)
Fixpoint splice_loop (fuel : nat) (res_f res_b : Z) : tcp unit :=
  match fuel with
  | O => lift (Fault OutOfFuel)
  | S k =>
      res_f ← (if 0 <=? res_f then tcp_splice_f else mret res_f);
      res_b ← (if 0 <=? res_b then tcp_splice_b else mret res_b);
      if (res_f <? 0) && (res_b <? 0) then mret tt else
      y ← task_io_yielder (if (0 <? res_f) || (0 <? res_b) then HEV_TASK_YIELD else HEV_TASK_WAITIO);
      if y <? 0 then mret tt else splice_loop k res_f res_b
  end.
Fixpoint drain_loop (fuel : nat) : tcp unit :=
  match fuel with
  | O => lift (Fault OutOfFuel)
  | S k =>
      pcb ← self s_pcb;
      if negb pcb then mret tt else
      r ← the_buffer;
      if hev_ring_buffer_get_use_size r =? 0 then mret tt else
      y ← task_io_yielder HEV_TASK_WAITIO;
      if y <? 0 then mret tt else drain_loop k
  end.

(** The ring buffer is in the frame of this function and ends with it. *)
Definition hev_socks5_session_tcp_splice (fuel : nat) : tcp unit :=
  pcb ← self s_pcb;
  if negb pcb then mret tt else
  a ← tsys TSndbuf;
  _ ← update (set_buffer (Some (hev_ring_buffer_alloca (a_ret a) (a_data a))));
  _ ← splice_loop fuel 1 1;
  _ ← drain_loop fuel;
  update (set_buffer None).

(** [tcp_abort] takes the pcb and its segments away; [pbuf_free]. *)
Definition hev_socks5_session_tcp_destruct : tcp unit :=
  _ ← hev_task_mutex_lock;
  pcb ← self s_pcb;
  _ ← (if pcb : bool then update (fun x => set_pcb false (set_refs [] x)) else mret tt);
  update (set_queue []).
