(* ===== verification/HevTcpProps.v ===== *)
(** What a TCP session of the tunnel guarantees, whatever the socket, lwIP and
    the scheduler do. *)
From S2P Require Import Prelude HevRing HevTcp.

(** * Rules *)
Section Twp.
Context {A B : Type}.
Implicit Types (Q : A -> session -> Prop).

(** The routine is defined, or its loops were given too little fuel. *)
Definition twp (m : tcp A) (Q : A -> session -> Prop) (s : session) : Prop :=
  match m s with Ok (a, s') => Q a s' | Fault e => e = OutOfFuel end.

Lemma twp_ret a Q s : Q a s -> twp (mret a) Q s.
Proof. done. Qed.
Lemma twp_self (f : session -> A) Q s : Q (f s) s -> twp (self f) Q s.
Proof. done. Qed.
Lemma twp_lift (m : res A) a Q s : m = Ok a -> Q a s -> twp (lift m) Q s.
Proof. intros -> H. done. Qed.
Lemma twp_mono m Q Q' s : twp m Q s -> (forall a s, Q a s -> Q' a s) -> twp m Q' s.
Proof. unfold twp. destruct (m s) as [[]|]; auto. Qed.
End Twp.
Lemma twp_bind {A B} (m : tcp A) (f : A -> tcp B) Q s :
  twp m (fun a s => twp (f a) Q s) s -> twp (m ≫= f) Q s.
Proof. unfold twp, mbind, tcp_bind. by destruct (m s) as [[]|]. Qed.
Lemma twp_update f (Q : unit -> session -> Prop) s : Q tt (f s) -> twp (update f) Q s.
Proof. done. Qed.
Lemma twp_buffer r Q s : s_buffer s = Some r -> Q r s -> twp the_buffer Q s.
Proof. unfold twp, the_buffer. by intros ->. Qed.
Lemma twp_sys q Q s :
  (forall a, a = tsane q (s_env s (s_trace s) q) -> Q a (set_trace ((q, a) :: s_trace s) s)) -> twp (tsys q) Q s.
Proof. intros H. by apply H. Qed.
Lemma twp_lwip (Q : unit -> session -> Prop) s : refs_intact s = true -> Q tt s -> twp lwip_runs Q s.
Proof. unfold twp, lwip_runs. by intros ->. Qed.

(** * The invariant *)

(** The references to the bytes [sent], which begin at [st]. *)
Definition refs_at (max st : Z) (sent : list Z) : list (Z * Z) :=
  map (fun i => (at_ring max st i, byte_at sent i)) (seqZ 0 (zlen sent)).
Definition failed (s : session) : bool :=
  existsb (fun e => match e.1 with TTcpWrite _ => negb (a_ret e.2 =? ERR_OK) | _ => false end) (s_trace s).

(** The direction to the proxy; [k] bytes at the head of the queue are sent
    already. *)
Record flow_f (k : Z) (s : session) : Prop := {
  ff_k : 0 <= k <= tot_len (s_queue s);
  ff_wnd : tot_len (s_queue s) <= TCP_WND;
  ff_open : s_pcb s = true -> s_window s = tot_len (s_queue s);
  ff_bytes : s_lwip_in s = s_sock_out s ++ drop (Z.to_nat k) (concat (s_queue s))
}.
(** The direction to the device: as long as the socket is read, the bytes
    [pend] wait in the ring; later ([None]) the ring is only drained. *)
Definition flow_b (o : option (list Z)) (s : session) : Prop :=
  exists r, s_buffer s = Some r /\
  match o with
  | Some pend => failed s = false /\ s_sock_in s = s_lwip_out s ++ pend /\
      exists sent st, ring_is r sent pend st /\ (s_pcb s = true -> s_refs s = refs_at (max_size r) st sent)
  | None => refs_intact s = true /\
      (failed s = false -> s_lwip_out s `prefix_of` s_sock_in s /\ (s_pcb s = true -> s_lwip_out s = s_sock_in s))
  end.
Record inv (k : Z) (o : option (list Z)) (s : session) : Prop := {
  i_f : flow_f k s;
  i_b : flow_b o s;
  i_refs : s_pcb s = false -> s_refs s = []
}.

Lemma length_refs_at max st sent : zlen (refs_at max st sent) = zlen sent.
Proof. unfold refs_at. rewrite length_map, length_seqZ. lia. Qed.
Lemma lookup_refs_at max st sent (i : nat) :
  (i < length sent)%nat -> refs_at max st sent !! i = Some (at_ring max st (Z.of_nat i), byte_at sent (Z.of_nat i)).
Proof.
  intros Hi. unfold refs_at. rewrite list_lookup_fmap, lookup_seqZ_lt by lia. simpl. by rewrite Z.add_0_l.
Qed.

Lemma refs_intact_forall s r :
  s_buffer s = Some r -> refs_intact s = true <-> Forall (fun x => ref_intact r x = true) (s_refs s).
Proof.
  intros Hb. unfold refs_intact. rewrite Hb. transitivity (forallb (ref_intact r) (s_refs s) = true).
  - by destruct (s_refs s).
  - by rewrite forallb_forall, List.Forall_forall.
Qed.
Lemma refs_at_intact r sent pend st s :
  ring_is r sent pend st -> s_buffer s = Some r -> s_refs s = refs_at (max_size r) st sent -> refs_intact s = true.
Proof.
  intros Hr Hb Hs. apply (refs_intact_forall s r Hb). rewrite Hs. apply Forall_lookup_2. intros i x Hx.
  assert (Hi : (i < length sent)%nat).
  { apply lookup_lt_Some in Hx. pose proof (length_refs_at (max_size r) st sent). lia. }
  rewrite lookup_refs_at in Hx by done. injection Hx as <-. simpl.
  pose proof (at_ring_range (max_size r) st (Z.of_nat i)) as Ha. destruct Hr.
  unfold ref_intact. simpl. rewrite ri_data, byte_at_app by lia. zcases.
Qed.

Lemma flow_b_intact k o s : inv k o s -> refs_intact s = true.
Proof.
  intros [_ (r & Hb & Ho) Hr]. destruct o; [|apply Ho]. destruct Ho as (_ & _ & sent & st & Hi & Hrefs).
  destruct (s_pcb s) eqn:E; [by eapply refs_at_intact; eauto|]. unfold refs_intact. by rewrite Hr.
Qed.

(** Calls other than [tcp_write] only lengthen the trace. *)
Lemma inv_trace k o s q a :
  match q with TTcpWrite _ => False | _ => True end -> inv k o s -> inv k o (set_trace ((q, a) :: s_trace s) s).
Proof.
  intros Hq [Hf (r & Hb & Ho) Hr]. split; [destruct Hf; by split| |done].
  exists r. split; [done|]. unfold failed in *. cbn [set_trace s_trace existsb fst]. by destruct q.
Qed.

Lemma drop_refs_at max st sent n :
  0 <= st < max -> zlen sent <= max -> (n <= length sent)%nat ->
  drop n (refs_at max st sent) = refs_at max (at_ring max st (Z.of_nat n)) (drop n sent).
Proof.
  intros Hst Hm Hn. apply list_eq. intros i. rewrite lookup_drop.
  pose proof (length_refs_at max st sent). pose proof (length_refs_at max (at_ring max st (Z.of_nat n)) (drop n sent)) as Hd.
  rewrite length_drop in Hd. destruct (decide (n + i < length sent)%nat) as [Hi|Hi].
  - rewrite !lookup_refs_at by (rewrite ?length_drop; lia). do 2 f_equal.
    + rewrite at_ring_at by lia. f_equal. lia.
    + unfold byte_at. rewrite !nth_lookup, lookup_drop. do 2 f_equal. lia.
  - rewrite !lookup_ge_None_2 by lia. done.
Qed.

(** An acknowledgement. *)
Lemma sent_inv k o s len r :
  inv k o s -> s_buffer s = Some r -> s_pcb s = true -> 0 < len <= zlen (s_refs s) ->
  inv k o (set_buffer (Some (hev_ring_buffer_read_release r len)) (set_refs (drop (Z.to_nat len) (s_refs s)) s)).
Proof.
  intros [Hf (r0 & Hb & Ho) Hr] Hb0 Hp Hl. rewrite Hb in Hb0. injection Hb0 as ->.
  split; [destruct Hf; by split| |simpl; congruence].
  exists (hev_ring_buffer_read_release r len). split; [done|]. destruct o as [pend|].
  - destruct Ho as (Hn & Hs & sent & st & Hi & Hrefs). specialize (Hrefs Hp).
    rewrite Hrefs, length_refs_at in Hl. split; [done|]. split; [done|].
    rewrite <- (take_drop (Z.to_nat len) sent) in Hi.
    destruct (read_release_is r _ _ _ _ Hi) as (Hi' & Hm). rewrite length_take in Hi', Hm.
    replace (Z.of_nat (Z.to_nat len `min` length sent)) with len in Hi', Hm by lia.
    exists (drop (Z.to_nat len) sent), (if use_size r =? len then 0 else at_ring (max_size r) st len).
    split; [done|]. intros _. cbn [set_buffer set_refs s_refs].
    rewrite take_drop in Hi. rewrite Hrefs, drop_refs_at, Hm by (destruct Hi; lia).
    destruct (Z.eqb_spec (use_size r) len); [|by rewrite Z2Nat.id by lia].
    rewrite (drop_ge sent) by (destruct Hi; lia). done.
  - destruct Ho as [Hi Ho]. split; [|done]. apply (refs_intact_forall s r Hb) in Hi.
    apply (refs_intact_forall _ (hev_ring_buffer_read_release r len)); [done|]. cbn [set_buffer set_refs s_refs].
    assert (Hd : ring_data (hev_ring_buffer_read_release r len) = ring_data r)
      by (unfold hev_ring_buffer_read_release; by case_match).
    unfold ref_intact. rewrite Hd. by apply Forall_drop.
Qed.

(** ** Handlers *)
Lemma tot_len_app q p : tot_len (q ++ p) = tot_len q + tot_len p.
Proof. unfold tot_len. rewrite concat_app, length_app. lia. Qed.
Lemma tot_len_nonneg q : 0 <= tot_len q.
Proof. unfold tot_len. lia. Qed.

Lemma inv_timeout k o s v : inv k o s -> inv k o (set_timeout v s).
Proof. intros [[] (r & Hb & Ho) Hr]. split; [done| |done]. exists r. split; [done|]. by destruct o. Qed.
Lemma inv_recv k o s p :
  inv k o s -> s_pcb s = true -> tot_len (s_queue s) + tot_len p <= TCP_WND ->
  inv k o (set_window (s_window s + tot_len p) (set_lwip_in (s_lwip_in s ++ concat p)
    (set_queue (s_queue s ++ p) s))).
Proof.
  intros [[] (r & Hb & Ho) Hr] Hp Hw. pose proof (tot_len_nonneg p). split; [|exists r; split; [done|by destruct o]|done].
  split; cbn; rewrite ?tot_len_app; try lia.
  rewrite concat_app, drop_app_le, ff_bytes0 by (unfold tot_len in *; lia). by rewrite app_assoc.
Qed.
Lemma inv_err k o s : inv k o s -> inv k o (set_pcb false (set_refs [] s)).
Proof.
  intros [[] (r & Hb & Ho) Hr]. split; [done| |done]. exists r. split; [done|]. destruct o as [pend|].
  - destruct Ho as (Hn & Hs & sent & st & Hi & _). split; [done|]. split; [done|]. by exists sent, st.
  - destruct Ho as [_ Ho]. split; [done|]. intros Hn. destruct (Ho Hn). by split.
Qed.

Lemma run_callback_inv k o c s : inv k o s -> twp (run_callback c) (fun _ s' => inv k o s') s.
Proof.
  intros Hs. unfold run_callback. apply twp_bind, twp_self. destruct (s_pcb s) eqn:Hp; [|by apply twp_ret].
  cbn [negb]. destruct c as [[p|]|len|].
  - apply twp_bind, twp_self. ccase; [by apply twp_ret|]. apply twp_bind.
    assert (Hw : tot_len (s_queue s) + tot_len p <= TCP_WND) by (destruct Hs as [[] _ _]; rewrite ff_open0 in *; [lia|done]).
    pose proof (inv_recv k o s p Hs Hp Hw) as Hs'.
    unfold tcp_recv_handler. apply twp_bind, twp_self. destruct (s_queue s) as [|p0 q] eqn:Hq.
    + by apply twp_bind, twp_update, twp_ret.
    + assert (Hu : pbuf_tot_len (p0 :: q) = tot_len (p0 :: q)).
      { unfold pbuf_tot_len. apply u16_small. pose proof (tot_len_nonneg p). pose proof (tot_len_nonneg (p0 :: q)). unfold TCP_WND in *. lia. }
      rewrite Hu. pose proof (tot_len_nonneg p). zcase; [lia|]. by apply twp_bind, twp_update, twp_ret.
  - apply twp_bind, twp_bind, twp_update, twp_ret, twp_ret. by apply inv_timeout.
  - apply twp_bind, twp_self. ccase; [by apply twp_ret|]. apply twp_bind, twp_update, twp_bind.
    destruct (i_b _ _ _ Hs) as (r & Hb & _). apply twp_bind. eapply twp_buffer; [done|].
    apply twp_bind, twp_update, twp_ret, twp_ret.
    apply (sent_inv k o s len r Hs Hb Hp). lia.
  - apply twp_bind, twp_update, twp_bind, twp_update, twp_update. by apply inv_timeout, inv_err.
Qed.
Lemma run_callbacks_inv k o l s : inv k o s -> twp (run_callbacks l) (fun _ s' => inv k o s') s.
Proof.
  revert s. induction l as [|c l IH]; intros s Hs; cbn [run_callbacks]; [by apply twp_ret|].
  apply twp_bind. eapply twp_mono; [by apply run_callback_inv|]. cbn. intros _ s1. apply IH.
Qed.

(** A wait keeps the invariant, whatever runs meanwhile. *)
Lemma waits_inv {A} k o q (f : tans -> A) s :
  match q with TTcpWrite _ => False | _ => True end -> inv k o s ->
  twp (a ← tsys q; _ ← lwip_runs; _ ← run_callbacks (a_cbs a); _ ← lwip_runs; mret (f a)) (fun _ s' => inv k o s') s.
Proof.
  intros Hq Hs. apply twp_bind, twp_sys. intros a _. apply (inv_trace _ _ _ q a Hq) in Hs.
  apply twp_bind, twp_lwip; [by eapply flow_b_intact|]. apply twp_bind.
  eapply twp_mono; [by apply run_callbacks_inv|]. cbn. intros _ s1 H1.
  apply twp_bind, twp_lwip; [by eapply flow_b_intact|]. by apply twp_ret.
Qed.
Lemma lock_inv k o s : inv k o s -> twp hev_task_mutex_lock (fun _ s' => inv k o s') s.
Proof.
  intros Hs. apply twp_bind, twp_sys. intros a _. apply (inv_trace _ _ _ TLock a I) in Hs.
  ccase; [by apply twp_ret|]. apply twp_bind, twp_lwip; [by eapply flow_b_intact|]. apply twp_bind.
  eapply twp_mono; [by apply run_callbacks_inv|]. cbn. intros _ s1 H1.
  apply twp_lwip; [by eapply flow_b_intact|done].
Qed.
Lemma yielder_inv k o type s : inv k o s -> twp (task_io_yielder type) (fun _ s' => inv k o s') s.
Proof.
  intros Hs. apply twp_bind, twp_self. cbn zeta.
  destruct type; [|ccase]; apply twp_bind;
    (eapply twp_mono; [by apply (waits_inv k o _ (fun a => a))|]; cbn; intros a s1 H1; by apply twp_ret).
Qed.

(** * To the proxy *)
Lemma concat_free_header q n :
  0 <= n <= tot_len q -> n < 2 ^ 16 -> concat (pbuf_free_header q n) = drop (Z.to_nat n) (concat q).
Proof.
  revert n. induction q as [|p q IH]; intros n Hn Hs; cbn [pbuf_free_header concat]; [by rewrite drop_nil|].
  unfold tot_len in Hn. cbn [concat] in Hn. rewrite length_app in Hn.
  destruct (Z.eqb_spec n 0) as [->|]; [done|]. destruct (Z.leb_spec (zlen p) n).
  - rewrite u16_small, IH, drop_app_ge by (unfold tot_len; lia). f_equal. lia.
  - cbn [concat]. by rewrite drop_app_le by lia.
Qed.
Lemma sub_concat_take j q n :
  n <= zlen (concat (take j q)) -> sub (concat (take j q)) 0 n = take (Z.to_nat n) (concat q).
Proof.
  intros Hn. unfold sub. rewrite Z2Nat.inj_0, drop_0. rewrite <- (take_drop j q) at 2.
  rewrite concat_app, take_app_le by lia. done.
Qed.

Lemma writev_inv o s j n :
  inv 0 o s -> n <= zlen (concat (take j (s_queue s))) ->
  inv (Z.max 0 n) o (set_sock_out (s_sock_out s ++ sub (concat (take j (s_queue s))) 0 n) s).
Proof.
  intros [[] (r & Hb & Ho) Hr] Hn. split; [|exists r; split; [done|by destruct o]|done].
  assert (Hl : zlen (concat (take j (s_queue s))) <= tot_len (s_queue s)).
  { unfold tot_len. rewrite <- (take_drop j (s_queue s)) at 2. rewrite concat_app, length_app. lia. }
  split; cbn; try done; try lia. rewrite sub_concat_take, ff_bytes0 by done. rewrite drop_0, <- app_assoc. f_equal.
  replace (Z.to_nat (Z.max 0 n)) with (Z.to_nat n) by lia. by rewrite take_drop.
Qed.
Lemma free_inv k o s w :
  inv k o s -> (s_pcb s = true -> w = s_window s - k) ->
  inv 0 o (set_window w (set_queue (pbuf_free_header (s_queue s) k) s)).
Proof.
  intros [[] (r & Hb & Ho) Hr] Hw. split; [|exists r; split; [done|by destruct o]|done].
  assert (Hc : concat (pbuf_free_header (s_queue s) k) = drop (Z.to_nat k) (concat (s_queue s)))
    by (apply concat_free_header; unfold TCP_WND in *; lia).
  assert (Hl : tot_len (pbuf_free_header (s_queue s) k) = tot_len (s_queue s) - k)
    by (unfold tot_len in *; rewrite Hc, length_drop; lia).
  split; cbn; rewrite ?Hl; try lia. by rewrite Hc, drop_0.
Qed.

Lemma tcp_splice_f_inv o s : inv 0 o s -> twp tcp_splice_f (fun _ s' => inv 0 o s') s.
Proof.
  intros Hs. apply twp_bind, twp_self. destruct (is_null (s_queue s)); [by apply twp_ret|].
  apply twp_bind, twp_sys. intros a Ha. apply twp_bind, twp_update.
  assert (Hn : -1 <= a_ret a <= zlen (concat (take 64 (s_queue s)))) by (rewrite Ha; simpl; lia).
  pose proof (inv_trace _ _ _ (TWritev (concat (take 64 (s_queue s)))) a I Hs) as H0.
  apply (writev_inv o _ 64 (a_ret a)) in H0 as H1; [|apply Hn].
  destruct (Z.leb_spec (a_ret a) 0); [apply twp_ret; by replace (Z.max 0 (a_ret a)) with 0 in H1 by lia|].
  replace (Z.max 0 (a_ret a)) with (a_ret a) in H1 by lia. clear Ha.
  apply twp_bind. eapply twp_mono; [apply lock_inv, H1|]. cbn. intros _ s2 H2.
  apply twp_bind, twp_self, twp_bind, twp_update, twp_bind, twp_self.
  assert (Hu : u16 (a_ret a) = a_ret a) by (destruct H2 as [[] _ _]; apply u16_small; unfold TCP_WND in *; lia).
  rewrite Hu. cbn [set_queue s_pcb]. apply twp_bind. destruct (s_pcb s2) eqn:Hp.
  - apply twp_bind, twp_sys. intros a2 _. apply twp_bind, twp_update.
    pose proof (inv_trace _ _ _ (TTcpRecved (a_ret a)) a2 I (free_inv _ _ _ (s_window s2 - a_ret a) H2 (fun _ => eq_refl))) as H3.
    apply twp_lwip; [by eapply flow_b_intact|]. apply twp_bind, twp_self, twp_ret. exact H3.
  - apply twp_ret, twp_bind, twp_self, twp_ret.
    apply (free_inv _ _ _ (s_window s2)) in H2; [|congruence]. exact H2.
Qed.

(** * To the device *)

(** The blocks [iov] lie one after the other in the ring from position [p] on
    and hold as many bytes as [d]. *)
Fixpoint covers (max st p : Z) (iov : list iovec) (n : Z) : Prop :=
  match iov with
  | [] => n = 0
  | (o, k) :: iov =>
      0 <= k <= n /\ (forall i, 0 <= i < k -> at_ring max st (p + i) = o + i) /\ 0 <= o /\ o + k <= max /\
      covers max st (p + k) iov (n - k)
  end.
Lemma reading_covers r sent pend st :
  ring_is r sent pend st -> covers (max_size r) st (zlen sent) (hev_ring_buffer_reading r) (zlen pend).
Proof.
  intros []. unfold hev_ring_buffer_reading. pose proof (at_ring_range (max_size r) st (zlen sent)).
  assert (rp r = st + zlen sent \/ rp r = st + zlen sent - max_size r /\ max_size r <= st + zlen sent)
    by (rewrite ri_rp; unfold at_ring; zcases).
  rewrite (size_t_small (max_size r - rp r)) by lia.
  destruct (Z.eqb_spec (rda_size r) 0); [simpl; lia|]. destruct (Z.leb_spec (rda_size r) (max_size r - rp r)); cbn [covers].
  - split_and!; try lia. intros i Hi. unfold at_ring. zcases.
  - rewrite size_t_small by lia. split_and!; try lia; intros i Hi; unfold at_ring; zcases.
Qed.

Lemma zip_block o d n :
  zlen d = n -> zip (seqZ o n) d = map (fun i => (o + i, byte_at d i)) (seqZ 0 n).
Proof.
  intros Hn. assert (Hz : length (zip (seqZ o n) d) = Z.to_nat n) by (rewrite length_zip_with_l_eq; rewrite length_seqZ; lia).
  apply list_eq_same_length with (Z.to_nat n); [rewrite length_map, length_seqZ; lia|done|].
  intros i x y Hi Hx Hy. apply lookup_zip_with_Some in Hx as (a & b & -> & Ha & Hb).
  rewrite list_lookup_fmap, lookup_seqZ_lt in Hy by lia. injection Hy as <-.
  rewrite lookup_seqZ_lt in Ha by lia. injection Ha as <-. rewrite Z.add_0_l. f_equal.
  pose proof (byte_at_lookup d (Z.of_nat i) ltac:(lia)) as H. rewrite Nat2Z.id in H. congruence.
Qed.
Lemma refs_at_app max st sent d :
  refs_at max st (sent ++ d) =
  refs_at max st sent ++ map (fun i => (at_ring max st (zlen sent + i), byte_at d i)) (seqZ 0 (zlen d)).
Proof.
  apply list_eq. intros i. destruct (decide (i < length sent)%nat) as [Hi|Hi].
  - rewrite lookup_app_l, !lookup_refs_at by (pose proof (length_refs_at max st sent); rewrite ?length_app; lia).
    do 2 f_equal. rewrite byte_at_app by lia. zcases.
  - pose proof (length_refs_at max st sent) as Hl. rewrite lookup_app_r by lia.
    replace (length (refs_at max st sent)) with (length sent) by lia.
    destruct (decide (i < length (sent ++ d))%nat) as [Hi2|Hi2].
    + rewrite lookup_refs_at by done. rewrite length_app in Hi2.
      rewrite list_lookup_fmap, lookup_seqZ_lt by lia. simpl. do 2 f_equal; [f_equal; lia|].
      rewrite byte_at_app by lia. zcases. f_equal. lia.
    + rewrite !lookup_ge_None_2; [done| |]; [rewrite length_map, length_seqZ; rewrite length_app in Hi2; lia|].
      pose proof (length_refs_at max st (sent ++ d)). lia.
Qed.

(** In the middle of handing over: [a] is done, [b] is not. *)
Record handing (r : HevRingBuffer) (st : Z) (sent a b : list Z) (err : Z) (s : session) : Prop := {
  h_f : flow_f 0 s;
  h_pcb : s_pcb s = true;
  h_buf : s_buffer s = Some r;
  h_ring : ring_is r sent (a ++ b) st;
  h_refs : refs_intact s = true;
  h_failed : failed s = true -> err <> 0;
  h_fine : failed s = false -> err = 0 /\ s_refs s = refs_at (max_size r) st (sent ++ a) /\
    s_sock_in s = s_lwip_out s ++ b
}.

Lemma write_blocks_ok r st sent iov : forall a b err s,
  handing r st sent a b err s -> covers (max_size r) st (zlen sent + zlen a) iov (zlen b) ->
  twp (write_blocks iov err) (fun err' s' => handing r st sent (a ++ b) [] err' s') s.
Proof.
  induction iov as [|[o n] iov IH]; intros a b err s Hs Hc; cbn [write_blocks covers] in *.
  { assert (b = []) as -> by (destruct b; [done|simpl in *; lia]). rewrite app_nil_r. by apply twp_ret. }
  destruct Hc as (Hn & Hat & Ho & Hm & Hc). destruct Hs.
  apply twp_bind. eapply twp_buffer; [done|]. apply twp_bind.
  set (d := take (Z.to_nat n) b). set (b' := drop (Z.to_nat n) b).
  assert (Hb : b = d ++ b') by (symmetry; apply take_drop).
  assert (Hd : zlen d = n) by (unfold d; rewrite length_take; lia).
  assert (Hb' : zlen b' = zlen b - n) by (unfold b'; rewrite length_drop; lia).
  assert (Hbytes : forall i, 0 <= i < n -> byte_at (ring_data r) (o + i) = byte_at d i).
  { intros i Hi. rewrite <- Hat by done. destruct h_ring0. rewrite !length_app in *.
    rewrite ri_data, Hb, (byte_at_app sent), (byte_at_app a), (byte_at_app d) by lia. zcases. f_equal. lia. }
  eapply twp_lift with (a := d).
  { rewrite rdn_ok by (destruct h_ring0; lia). f_equal. apply bytes_ext; [rewrite length_sub; destruct h_ring0; lia|].
    rewrite zlen_sub by (destruct h_ring0; lia). intros i Hi. by rewrite byte_at_sub, Hbytes by lia. }
  apply twp_bind, twp_sys. intros ans Hans. apply twp_bind.
  assert (Hz : zip (seqZ o n) d = map (fun i => (at_ring (max_size r) st (zlen (sent ++ a) + i), byte_at d i)) (seqZ 0 (zlen d))).
  { rewrite (zip_block o d n Hd), Hd. apply list_fmap_ext. intros i x Hx. apply lookup_seqZ in Hx.
    rewrite <- Hat by lia. rewrite length_app. do 2 f_equal. lia. }
  replace (zlen b - n) with (zlen b') in Hc by lia. clearbody d b'. subst b. rewrite app_assoc.
  destruct (Z.eqb_spec (a_ret ans) ERR_OK) as [E|E].
  - apply twp_update. apply IH; [|by replace (zlen sent + zlen (a ++ d)) with (zlen sent + zlen a + n) by (rewrite length_app; lia)].
    split; cbn; try done; [destruct h_f0; by split|by rewrite <- app_assoc| | |].
    + apply (refs_intact_forall s r h_buf0) in h_refs0. apply (refs_intact_forall _ r); [done|]. cbn.
      apply Forall_app. split; [done|]. rewrite (zip_block o d n Hd). apply Forall_map, Forall_forall.
      intros i Hi%elem_of_seqZ. unfold ref_intact. cbn. rewrite Hbytes by lia. destruct h_ring0. zcases.
    + unfold failed. cbn. rewrite E. cbn. rewrite Z.lor_0_r. done.
    + unfold failed in *. cbn. rewrite E. cbn. intros Hf. destruct (h_fine0 Hf) as (-> & Hr & Hio).
      rewrite Hr, Hz, app_assoc, <- refs_at_app, <- app_assoc. by rewrite Hio, <- app_assoc.
  - apply twp_ret. apply IH; [|by replace (zlen sent + zlen (a ++ d)) with (zlen sent + zlen a + n) by (rewrite length_app; lia)].
    split; cbn; try done; [destruct h_f0; by split|by rewrite <- app_assoc| |].
    + intros _ Hl%Z.lor_eq_0_iff. apply E, Hl.
    + unfold failed in *. cbn. unfold ERR_OK in *. destruct (Z.eqb_spec (a_ret ans) 0); [done|]. done.
Qed.

(** Reading the socket has ended. *)
Lemma inv_ended k pend s : inv k (Some pend) s -> pend = [] \/ s_pcb s = false -> inv k None s.
Proof.
  intros Hs Hp. pose proof (flow_b_intact _ _ _ Hs) as Hi. destruct Hs as [Hf (r & Hb & Hn & Hio & _) Hr].
  split; [done| |done]. exists r. split; [done|]. split; [done|]. intros _. rewrite Hio. split; [by exists pend|].
  intros Ht. destruct Hp as [->|]; [by rewrite app_nil_r|congruence].
Qed.

Lemma handing_inv r pend s :
  inv 0 (Some pend) s -> s_buffer s = Some r -> s_pcb s = true ->
  exists sent st, handing r st sent [] pend ERR_OK s /\
    covers (max_size r) st (zlen sent + zlen (@nil Z)) (hev_ring_buffer_reading r) (zlen pend).
Proof.
  intros Hs Hb Hp. pose proof (flow_b_intact _ _ _ Hs) as Hi.
  destruct Hs as [Hf (r' & Hb' & Hn & Hio & sent & st & Hr & Hrefs) _].
  rewrite Hb in Hb'. injection Hb' as <-. exists sent, st. split; [|rewrite Z.add_0_r; by eapply reading_covers].
  split; try done; [congruence|]. intros _. split; [done|]. split; [rewrite app_nil_r; auto|done].
Qed.

Lemma read_finish_data r n r' : hev_ring_buffer_read_finish r n = Ok r' -> ring_data r' = ring_data r.
Proof. unfold hev_ring_buffer_read_finish. intros H. invert_ok H. by subst. Qed.

(** What the direction leaves: [1] to go on, [-1] when it has ended. *)
Definition goes_on (res : Z) (s : session) : Prop :=
  0 <= res /\ inv 0 (Some []) s \/ res < 0 /\ inv 0 None s.

Lemma hand_over_ok pend s : inv 0 (Some pend) s -> twp hand_over goes_on s.
Proof.
  intros Hs. apply twp_bind. eapply twp_mono; [by apply lock_inv|]. cbn. clear s Hs. intros _ s Hs.
  apply twp_bind, twp_self. apply twp_bind. destruct (s_pcb s) eqn:Hp.
  2: { apply twp_ret, twp_bind, twp_self, twp_ret. right. split; [by rewrite Hp|]. eapply inv_ended; eauto. }
  destruct (i_b _ _ _ Hs) as (r & Hb & _). apply twp_bind. eapply twp_buffer; [done|]. cbn zeta.
  destruct (handing_inv r pend s Hs Hb Hp) as (sent & st & Hh & Hc).
  apply twp_bind. eapply twp_mono; [by eapply write_blocks_ok|]. cbn. clear s Hs Hb Hp Hh. intros err s [].
  apply twp_bind. eapply twp_buffer; [done|]. apply twp_bind.
  rewrite app_nil_r in h_ring0. simpl in h_ring0.
  rewrite (iov_size_reading _ _ _ _ h_ring0).
  destruct (read_finish_is r sent pend [] st) as (r' & Hf & Hr' & Hm); [by rewrite app_nil_r|].
  eapply twp_lift; [exact Hf|]. apply read_finish_data in Hf.
  apply twp_bind, twp_update, twp_bind, twp_sys. intros a _. apply twp_bind.
  match goal with |- twp _ _ ?s' => assert (Hi : refs_intact s' = true) end.
  { apply (refs_intact_forall s r h_buf0) in h_refs0. apply (refs_intact_forall _ r'); [done|]. cbn.
    unfold ref_intact. by rewrite Hf. }
  apply twp_lwip; [done|]. apply twp_ret, twp_bind, twp_self, twp_ret. cbn [s_pcb set_trace set_buffer]. rewrite h_pcb0.
  cbn [negb orb]. destruct (Z.eqb_spec (Z.lor err (a_ret a)) ERR_OK) as [E|E]; [left|right]; (split; [done|]).
  - apply Z.lor_eq_0_iff in E as [-> _]. unfold failed in *.
    destruct (existsb _ (s_trace s)) eqn:Hn; [by destruct (h_failed0 eq_refl)|].
    destruct (h_fine0 eq_refl) as (_ & Hrefs & Hio).
    split; [destruct h_f0; by split| |simpl; congruence]. exists r'. split; [done|]. split; [done|].
    split; [done|]. exists (sent ++ pend), st. split; [done|]. intros _. by rewrite Hm.
  - split; [destruct h_f0; by split| |simpl; congruence]. exists r'. split; [done|]. split; [done|].
    unfold failed in *. cbn. intros Hn. destruct (h_fine0 Hn) as (_ & _ & Hio).
    rewrite Hio, app_nil_r. done.
Qed.

(** [readv] has stored [d] in the ring. *)
Lemma readv_inv r sent st d s :
  inv 0 (Some []) s -> s_buffer s = Some r -> ring_is r sent [] st ->
  (s_pcb s = true -> s_refs s = refs_at (max_size r) st sent) -> zlen d <= max_size r - use_size r ->
  exists b, scatter (ring_data r) (hev_ring_buffer_writing r) d = Ok b /\
    ring_is (set_data b r) sent [] st /\
    exists r', hev_ring_buffer_write_finish (set_data b r) (zlen d) = Ok r' /\
      inv 0 (Some d) (set_buffer (Some r') (set_sock_in (s_sock_in s ++ d) s)).
Proof.
  intros [Hf (r0 & Hb0 & Hn & Hio & _) Hno] Hb Hr Hrefs Hd.
  destruct (scatter_writing r sent [] st d Hr Hd) as (b & Hs & Hr' & Hx).
  destruct (write_finish_is (set_data b r) sent [] st d Hr') as (r' & Hw & Hr'' & Hm); [destruct Hr; simpl; lia|exact Hx|].
  exists b. split; [done|]. split; [done|]. exists r'. split; [done|].
  split; [destruct Hf; by split| |done]. exists r'. split; [done|]. split; [done|].
  split; [cbn; by rewrite Hio, app_nil_r|]. exists sent, st. split; [done|]. cbn. by rewrite Hm.
Qed.

Lemma tcp_splice_b_ok s : inv 0 (Some []) s -> twp tcp_splice_b goes_on s.
Proof.
  intros Hs. destruct (i_b _ _ _ Hs) as (r & Hb & Hn & Hio & sent & st & Hr & Hrefs).
  apply twp_bind. eapply twp_buffer; [done|]. cbn zeta.
  destruct (is_null (hev_ring_buffer_writing r)); [by apply twp_ret; left|].
  apply twp_bind, twp_sys. intros a Ha. rewrite (iov_size_writing _ _ _ _ Hr) in *.
  assert (Hd : zlen (a_data a) = Z.max 0 (a_ret a) /\ a_ret a <= max_size r - use_size r).
  { rewrite Ha. cbn. destruct Hr. rewrite length_map, length_take, length_app, length_replicate. lia. }
  clear Ha. destruct Hd as [Hd Hk].
  pose proof (inv_trace _ _ _ (TReadv (max_size r - use_size r)) a I Hs) as H0.
  destruct (readv_inv r sent st (a_data a) _ H0 Hb Hr Hrefs) as (b & Hsc & Hr1 & r' & Hw & H1); [destruct Hr; lia|].
  apply twp_bind. eapply twp_lift; [exact Hsc|]. apply twp_bind, twp_update.
  destruct (Z.leb_spec (a_ret a) 0) as [Hz|Hz].
  - assert (a_data a = []) as Hnil by (destruct (a_data a); [done|simpl in *; lia]). rewrite Hnil in *.
    assert (H2 : inv 0 (Some []) (set_buffer (Some (set_data b r)) (set_sock_in (s_sock_in s ++ [])
      (set_trace ((TReadv (max_size r - use_size r), a) :: s_trace s) s)))).
    { destruct H0 as [Hf _ Hno]. split; [destruct Hf; by split| |done]. eexists. split; [done|]. split; [done|].
      split; [cbn; by rewrite Hio, !app_nil_r|]. by exists sent, st. }
    cbn [andb]. ccase; [by apply twp_ret; left|].
    assert (is_null (hev_ring_buffer_reading (set_data b r)) = true) as ->.
    { unfold hev_ring_buffer_reading. destruct Hr1. rewrite ri_rda. done. }
    apply twp_ret. right. split; [done|]. eapply inv_ended; eauto.
  - cbn [andb]. replace (a_ret a) with (zlen (a_data a)) by lia.
    apply twp_bind. eapply twp_lift; [exact Hw|]. apply twp_bind, twp_update.
    eapply hand_over_ok. exact H1.
Qed.

(** * The session *)
Lemma goes_on_none res s : goes_on res s -> inv 0 None s.
Proof. intros [[_ H]|[_ H]]; [eapply inv_ended; eauto|done]. Qed.

Lemma splice_loop_ok fuel : forall res_f res_b s,
  goes_on res_b s -> twp (splice_loop fuel res_f res_b) (fun _ s' => inv 0 None s') s.
Proof.
  induction fuel as [|fuel IH]; intros res_f res_b s Hs; cbn [splice_loop]; [done|].
  apply twp_bind. apply twp_mono with (Q := fun _ s' => goes_on res_b s').
  { destruct (0 <=? res_f); [|by apply twp_ret]. destruct Hs as [[Hr Hs]|[Hr Hs]];
      (eapply twp_mono; [by apply tcp_splice_f_inv|]); cbn; intros _ s1 H1; [by left|by right]. }
  clear s Hs. intros rf s Hs. apply twp_bind. apply twp_mono with (Q := goes_on).
  { destruct (Z.leb_spec 0 res_b); [|by apply twp_ret]. destruct Hs as [[Hr Hs]|[Hr Hs]]; [|lia].
    by apply tcp_splice_b_ok. }
  clear s Hs. intros rb s Hs. ccase; [apply twp_ret; by eapply goes_on_none|]. apply twp_bind.
  apply twp_mono with (Q := fun _ s' => goes_on rb s').
  { destruct Hs as [[Hr Hs]|[Hr Hs]]; (eapply twp_mono; [by apply yielder_inv|]); cbn; intros _ s1 H1; [by left|by right]. }
  clear s Hs. intros y s Hs. destruct (y <? 0); [apply twp_ret; by eapply goes_on_none|by apply IH].
Qed.
Lemma drain_loop_ok fuel : forall s, inv 0 None s -> twp (drain_loop fuel) (fun _ s' => inv 0 None s') s.
Proof.
  induction fuel as [|fuel IH]; intros s Hs; cbn [drain_loop]; [done|].
  apply twp_bind, twp_self. destruct (negb _); [by apply twp_ret|].
  destruct (i_b _ _ _ Hs) as (r & Hb & _). apply twp_bind. eapply twp_buffer; [done|].
  ccase; [by apply twp_ret|]. apply twp_bind. eapply twp_mono; [by apply yielder_inv|].
  cbn. intros y s1 H1. destruct (y <? 0); [by apply twp_ret|by apply IH].
Qed.

(** A session after the handshake; [q] has arrived from the device meanwhile. *)
Definition new_session (env : list (tcall * tans) -> tcall -> tans) (q : list (list Z)) (timeout : Z) : session :=
  Session env [] [] (tot_len q) [] [] (concat q) [] true q None timeout.

(** C21: while it relays, a TCP session corrupts nothing and loses nothing that it could
    hand over.  For every behaviour of the socket and of the other tasks, and of a lwIP
    that keeps to the window it announced and acknowledges no more than it was given
    ([run_callback]), and any number of rounds: the splicer is defined (lwIP never finds
    a byte of the ring changed that it still refers to, no index leaves the ring, no
    count wraps), what was written to the proxy followed by what is still queued is
    exactly what lwIP delivered, and, unless a [tcp_write] failed ([tcp_write_hole]),
    what was handed to lwIP is a prefix of what was read from the proxy, all of it while
    the connection to the device stands.  The end of the session is not part of this:
    [destroyed_before_acknowledged]. *)
Theorem tcp_session_relays (env : list (tcall * tans) -> tcall -> tans) (q : list (list Z)) (timeout : Z) (fuel : nat) :
  tot_len q <= TCP_WND ->
  match hev_socks5_session_tcp_splice fuel (new_session env q timeout) with
  | Ok (_, s') =>
      s_lwip_in s' = s_sock_out s' ++ concat (s_queue s') /\
      (failed s' = false -> s_lwip_out s' `prefix_of` s_sock_in s' /\
        (s_pcb s' = true -> s_lwip_out s' = s_sock_in s'))
  | Fault e => e = OutOfFuel
  end.
Proof.
  intros Hq. set (s := new_session env q timeout).
  set (P := fun s' => s_lwip_in s' = s_sock_out s' ++ concat (s_queue s') /\
    (failed s' = false -> s_lwip_out s' `prefix_of` s_sock_in s' /\ (s_pcb s' = true -> s_lwip_out s' = s_sock_in s'))).
  enough (H : twp (hev_socks5_session_tcp_splice fuel) (fun _ s' => P s') s).
  { unfold twp in H. by destruct (hev_socks5_session_tcp_splice fuel s) as [[]|]. }
  apply twp_bind, twp_self. cbn [s_pcb s new_session negb]. apply twp_bind, twp_sys. intros a Ha. apply twp_bind, twp_update.
  assert (Hd : 0 < a_ret a <= 2 ^ 62 /\ zlen (a_data a) = a_ret a).
  { rewrite Ha. cbn. rewrite length_map, length_take, length_app, length_replicate. lia. }
  destruct Hd as [Hd Hl]. pose proof (alloca_is _ _ Hd Hl) as Hr. clear Ha.
  match goal with |- twp _ _ ?x => assert (H0 : inv 0 (Some []) x) end.
  { split; [|eexists; split; [done|]; split; [done|]; split; [done|]; by exists [], 0|done].
    split; cbn; try done. pose proof (tot_len_nonneg q). lia. }
  apply twp_bind. eapply twp_mono; [apply splice_loop_ok; by left|]. cbn. intros _ s1 H1.
  apply twp_bind. eapply twp_mono; [by apply drain_loop_ok|]. cbn. intros _ s2 [[] (r & _ & _ & Ho) _].
  split; [|exact Ho]. cbn. by rewrite ff_bytes0, drop_0.
Qed.

(** A proxy that sends five bytes and closes, through a ring of four; the device
    acknowledges two at a time and sends one more block. *)
Definition count_calls (f : tcall -> bool) (tr : list (tcall * tans)) : nat := length (List.filter (fun e => f e.1) tr).
Definition sample_env (tr : list (tcall * tans)) (q : tcall) : tans :=
  match q with
  | TSndbuf => TAns 4 0 [] []
  | TReadv n =>
      match count_calls (fun q => match q with TReadv _ => true | _ => false end) tr with
      | 0%nat => TAns 3 0 [1; 2; 3] []
      | 1%nat => TAns 1 0 [4] []
      | 2%nat => TAns 1 0 [5] []
      | _ => TAns 0 0 [] []
      end
  | TWritev d => TAns 1 0 [] []
  | TSleep ms => TAns (if (length tr <? 25)%nat then 1 else 0) 0 [] [OnSent 1]
  | TYield => TAns 0 0 [] (OnSent 2 :: if (length tr <? 9)%nat then [OnRecv (Some [[7]; [8; 9]])] else [])
  | _ => TAns 0 0 [] []
  end.
Lemma tcp_session_relays_witness :
  match hev_socks5_session_tcp_splice 50 (new_session sample_env [[10; 11]] 100) with
  | Ok (_, s') => s_lwip_in s' = s_sock_out s' ++ concat (s_queue s') /\ s_lwip_out s' = s_sock_in s' /\
      s_sock_in s' = [1; 2; 3; 4; 5]
  | Fault e => False
  end.
Proof.
  pose proof (tcp_session_relays sample_env [[10; 11]] 100 50 ltac:(vm_compute; congruence)) as H.
  assert (E : match hev_socks5_session_tcp_splice 50 (new_session sample_env [[10; 11]] 100) with
    | Ok (_, s') => failed s' = false /\ s_pcb s' = true /\ s_sock_in s' = [1; 2; 3; 4; 5] | _ => False end)
    by (vm_compute; split_and!; reflexivity).
  destruct (hev_socks5_session_tcp_splice 50 _) as [[x s']|e]; [|exact E].
  destruct H as [H1 H2], E as (E1 & E2 & E3). destruct (H2 E1) as [_ H3]. split; [exact H1|]. split; [exact (H3 E2)|exact E3].
Defined.

(** * Limits

    The ring lives in the frame of [hev_socks5_session_tcp_splice].  When the
    session times out while bytes are not acknowledged, lwIP still refers to them
    until [tcp_abort]; if the mutex is held when the session is destroyed, lwIP
    runs first. *)
Definition timeout_env (tr : list (tcall * tans)) (q : tcall) : tans :=
  match q with
  | TSndbuf => TAns 4 0 [] []
  | TReadv n => TAns (if existsb (fun e => match e.1 with TReadv _ => true | _ => false end) tr then -1 else 3) EAGAIN [1; 2; 3] []
  | TLock => TAns (if (4 <? length tr)%nat then 1 else 0) 0 [] []
  | _ => TAns 0 0 [] []
  end.
Fact destroyed_before_acknowledged :
  exists s', hev_socks5_session_tcp_splice 10 (new_session timeout_env [] 100) = Ok (tt, s') /\
    s_refs s' = [(0, 1); (1, 2); (2, 3)] /\ hev_socks5_session_tcp_destruct s' = Fault Stale.
Proof. eexists. split; [vm_compute; reflexivity|]. split; vm_compute; reflexivity. Qed.

(** When [tcp_write] refuses the first of two blocks and takes the second, the
    device gets a stream with a hole. *)
Definition hole_env (tr : list (tcall * tans)) (q : tcall) : tans :=
  match q with
  | TTcpWrite d => TAns (if decide (d = [5]) then -1 else 0) 0 [] []
  | TReadv n => TAns n 0 (if n =? 3 then [1; 2; 3] else [5; 6; 7; 8]) []
  | TLock => TAns 1 0 [] [OnSent 3]
  | TSndbuf => TAns 4 0 [] []
  | _ => TAns 0 0 [] []
  end.
Definition hole_session : session :=
  Session hole_env [] [] 0 [] [] [] [] true [] (Some (Ring 3 3 0 0 4 [0; 0; 0; 0])) 100.
Fact tcp_write_hole :
  exists s', tcp_splice_b hole_session = Ok (-1, s') /\ s_sock_in s' = [5; 6; 7; 8] /\ s_lwip_out s' = [6; 7; 8].
Proof. eexists. split; [vm_compute; reflexivity|]. split; vm_compute; reflexivity. Qed.
