(* ===== verification/HevList.v ===== *)
(** The doubly linked list of misc/hev-list.c, used for the frames of a UDP session
    and for the set of sessions, and the lemmas on its operations. *)
From S2P Require Import Prelude.

(** * hev-list.c, hev-list.h

    A node is a member of a larger object; [nodes] is the memory of the nodes
    that exist, by address. *)
Record HevListNode : Type := Node { next : option positive; prev : option positive }.
Record HevList : Type := HList { head : option positive; tail : option positive }.
Notation nodes := (gmap positive HevListNode).

Definition deref (m : nodes) (p : positive) : res HevListNode :=
  match m !! p with Some n => Ok n | None => Fault OutOfBounds end.

Definition hev_list_node_next (m : nodes) (p : positive) : res (option positive) := n ← deref m p; mret (next n).
Definition hev_list_node_prev (m : nodes) (p : positive) : res (option positive) := n ← deref m p; mret (prev n).
Definition hev_list_first (self : HevList) : option positive := head self.
Definition hev_list_last (self : HevList) : option positive := tail self.

Definition hev_list_add_tail (self : HevList) (new_ : positive) (m : nodes) : res (HevList * nodes) :=
  _ ← deref m new_;
  let m := <[new_ := Node None (tail self)]> m in
  match tail self with
  | Some t =>
      n ← deref m t;
      mret (HList (head self) (Some new_), <[t := Node (Some new_) (prev n)]> m)
  | None => mret (HList (Some new_) (Some new_), m)
  end.

Definition hev_list_del (self : HevList) (node : positive) (m : nodes) : res (HevList * nodes) :=
  n ← deref m node;
  '(h, m) ←
    (match prev n with
     | Some p => pn ← deref m p; mret (head self, <[p := Node (next n) (prev pn)]> m)
     | None => mret (next n, m)
     end : res (option positive * nodes));
  n ← deref m node;
  match next n with
  | Some q => qn ← deref m q; mret (HList h (tail self), <[q := Node (next qn) (prev n)]> m)
  | None => mret (HList h (prev n), m)
  end.

(** * The list *)

(** [l] in the memory, from the node after [pp] to the one before [qn]. *)
Definition first_of (l : list positive) (qn : option positive) : option positive :=
  match l with [] => qn | x :: _ => Some x end.
Definition last_of (pp : option positive) (l : list positive) : option positive :=
  match last l with Some x => Some x | None => pp end.
Fixpoint dseg (m : nodes) (pp : option positive) (l : list positive) (qn : option positive) : Prop :=
  match l with
  | [] => True
  | x :: l => m !! x = Some (Node (first_of l qn) pp) /\ dseg m (Some x) l qn
  end.
Record dlist (m : nodes) (l : list positive) (self : HevList) : Prop := {
  dl_nodup : NoDup l;
  dl_seg : dseg m None l None;
  dl_head : head self = first_of l None;
  dl_tail : tail self = last_of None l
}.

Lemma first_of_app l1 l2 qn : first_of (l1 ++ l2) qn = first_of l1 (first_of l2 qn).
Proof. by destruct l1. Qed.
Lemma last_of_cons pp x l : last_of pp (x :: l) = last_of (Some x) l.
Proof. unfold last_of. rewrite last_cons. by destruct (last l). Qed.
Lemma last_of_snoc pp l x : last_of pp (l ++ [x]) = Some x.
Proof. unfold last_of. by rewrite last_snoc. Qed.

Lemma dseg_app m pp l1 l2 qn :
  dseg m pp (l1 ++ l2) qn <-> dseg m pp l1 (first_of l2 qn) /\ dseg m (last_of pp l1) l2 qn.
Proof.
  revert pp. induction l1 as [|x l1 IH]; intros pp; simpl; [unfold last_of; naive_solver|].
  rewrite IH, first_of_app, last_of_cons. naive_solver.
Qed.
Lemma dseg_insert m pp l qn p n : p ∉ l -> dseg m pp l qn -> dseg (<[p := n]> m) pp l qn.
Proof.
  revert pp. induction l as [|x l IH]; intros pp Hp; simpl; [done|]. intros [Hx Hl].
  rewrite lookup_insert_ne by set_solver. split; [done|]. apply IH; [set_solver|done].
Qed.
Lemma dseg_delete m pp l qn p : p ∉ l -> dseg m pp l qn -> dseg (delete p m) pp l qn.
Proof.
  revert pp. induction l as [|x l IH]; intros pp Hp; simpl; [done|]. intros [Hx Hl].
  rewrite lookup_delete_ne by set_solver. split; [done|]. apply IH; [set_solver|done].
Qed.

Lemma hev_list_add_tail_ok m l self x :
  dlist m l self -> is_Some (m !! x) -> x ∉ l ->
  exists self' m', hev_list_add_tail self x m = Ok (self', m') /\ dlist m' (l ++ [x]) self' /\ dom m' = dom m.
Proof.
  intros [Hn Hs Hh Ht] [n0 Hx] Hnx. unfold hev_list_add_tail, deref. rewrite Hx. cbn. rewrite Ht.
  assert (HN : NoDup (l ++ [x])) by (apply NoDup_app; split; [done|]; split; [set_solver|apply NoDup_singleton]).
  destruct l as [|t l' _] using rev_ind.
  { eexists _, _. split; [done|]. split; [|apply dom_insert_lookup_L; eauto]. split; try done. simpl. by rewrite lookup_insert_eq. }
  rewrite last_of_snoc. apply dseg_app in Hs as [Hs1 Hs2]. cbn [dseg first_of] in *. destruct Hs2 as [Ht' _].
  rewrite lookup_insert_ne by set_solver. rewrite Ht'. cbn. eexists _, _. split; [done|]. split.
  - split; [done| |cbn|cbn].
    + rewrite <- app_assoc. apply dseg_app. apply NoDup_app in Hn as (_ & Hn & _). split.
      * apply dseg_insert; [set_solver|]. apply dseg_insert; [set_solver|done].
      * cbn. rewrite lookup_insert_eq. split; [done|]. rewrite lookup_insert_ne, lookup_insert_eq by set_solver. done.
    + rewrite Hh, !first_of_app. done.
    + by rewrite last_of_snoc.
  - rewrite !dom_insert_lookup_L; [done|eauto|]. rewrite lookup_insert_ne by set_solver. eauto.
Qed.

(** Lines 31-34, then 36-39: the neighbours of the node skip it. *)
Lemma hev_list_del_ok m l1 x l2 self :
  dlist m (l1 ++ x :: l2) self ->
  exists self' m', hev_list_del self x m = Ok (self', m') /\ dlist m' (l1 ++ l2) self' /\ dom m' = dom m /\
    is_Some (m' !! x).
Proof.
  intros [Hn Hs Hh Ht]. apply NoDup_app in Hn as (Hn1 & Hx1 & Hn2). apply NoDup_cons in Hn2 as [Hx2 Hn2].
  apply dseg_app in Hs as [Hs1 [Hx Hs2]]. cbn [first_of] in *.
  assert (HN : NoDup (l1 ++ l2)) by (apply NoDup_app; split_and!; try done; set_solver).
  unfold hev_list_del, deref. rewrite Hx. cbn [mbind res_bind prev next].
  (* the first half: a memory [m1] where the nodes before skip [x] *)
  assert (exists m1, match last_of None l1 with
    | Some p => pn ← match m !! p with Some n => Ok n | None => Fault OutOfBounds end;
        mret (head self, <[p := Node (first_of l2 None) (prev pn)]> m)
    | None => mret (first_of l2 None, m) end = Ok (first_of (l1 ++ l2) None, m1) /\
    dseg m1 None l1 (first_of l2 None) /\ dseg m1 (Some x) l2 None /\ dom m1 = dom m /\
    m1 !! x = Some (Node (first_of l2 None) (last_of None l1))) as (m1 & -> & H1 & H2 & Hd & Hx').
  { destruct l1 as [|p l1' _] using rev_ind; [by exists m|].
    rewrite last_of_snoc in *. apply dseg_app in Hs1 as [Hs1 Hp]. cbn [dseg first_of] in Hs1, Hp. destruct Hp as [Hp _].
    rewrite Hp. cbn. eexists. split; [by rewrite Hh, !first_of_app|].
    apply NoDup_app in Hn1 as (_ & Hn1 & _).
    split; [|split_and!].
    - apply dseg_app. split; [apply dseg_insert; [set_solver|done]|]. cbn. by rewrite lookup_insert_eq.
    - apply dseg_insert; [set_solver|done].
    - apply dom_insert_lookup_L. eauto.
    - rewrite lookup_insert_ne by set_solver. done. }
  cbn [mbind res_bind]. rewrite Hx'. cbn [mbind res_bind next prev].
  destruct l2 as [|q l2]; cbn [first_of].
  - eexists _, _. split; [done|]. rewrite app_nil_r in *. split_and!; [|done|eauto].
    by split.
  - cbn [dseg] in H2. destruct H2 as [Hq H2]. rewrite Hq. cbn. eexists _, _. split; [done|].
    apply NoDup_cons in Hn2 as [Hq2 Hn2]. split_and!.
    + split; [done| |by rewrite first_of_app|].
      * apply dseg_app. cbn [first_of dseg]. rewrite lookup_insert_eq. split; [apply dseg_insert; [set_solver|done]|].
        split; [done|]. by apply dseg_insert.
      * cbn. rewrite Ht. unfold last_of. by rewrite !last_app_cons.
    + rewrite dom_insert_lookup_L; [done|eauto].
    + rewrite lookup_insert_ne by set_solver. eauto.
Qed.
