(* ===== verification/HevFrames.v ===== *)
(** The datagrams a UDP session of the tunnel has yet to send: the use of the
    doubly linked list in hev-socks5-session-udp.c. *)
From S2P Require Import Prelude HevList.

(** * The frame queue of a UDP session *)

(** A frame: the destination and the chain of pbufs (their payloads).  [u_mem]
    holds the list node that is its first member. *)
Notation chain := (list (list Z)).
Notation address := (list Z).
Record HevSocks5SessionUDP : Type := SessionUDP {
  frame_list : HevList;
  frames : Z;
  u_mem : nodes;
  u_frame : gmap positive (address * positive);   (* [addr] and [data] *)
  u_pbuf : gmap positive chain;                   (* pbufs that have not been freed *)
  u_sent : list (address * list Z);               (* what was passed on to the proxy *)
  u_timeout : Z;
  u_pcb : bool                                    (* lwIP has the pcb, with the handler *)
}.
Definition UDP_POOL_SIZE : Z := 512.

Definition set_frames (l : HevList) (n : Z) (m : nodes) (s : HevSocks5SessionUDP) : HevSocks5SessionUDP :=
  SessionUDP l n m (u_frame s) (u_pbuf s) (u_sent s) (u_timeout s) (u_pcb s).
Definition set_frame (f : gmap positive (address * positive)) (s : HevSocks5SessionUDP) : HevSocks5SessionUDP :=
  SessionUDP (frame_list s) (frames s) (u_mem s) f (u_pbuf s) (u_sent s) (u_timeout s) (u_pcb s).
Definition set_pbuf (b : gmap positive chain) (s : HevSocks5SessionUDP) : HevSocks5SessionUDP :=
  SessionUDP (frame_list s) (frames s) (u_mem s) (u_frame s) b (u_sent s) (u_timeout s) (u_pcb s).
Definition set_sent (l : list (address * list Z)) (s : HevSocks5SessionUDP) : HevSocks5SessionUDP :=
  SessionUDP (frame_list s) (frames s) (u_mem s) (u_frame s) (u_pbuf s) l (u_timeout s) (u_pcb s).
Definition set_u_timeout (t : Z) (s : HevSocks5SessionUDP) : HevSocks5SessionUDP :=
  SessionUDP (frame_list s) (frames s) (u_mem s) (u_frame s) (u_pbuf s) (u_sent s) t (u_pcb s).
Definition set_u_pcb (b : bool) (s : HevSocks5SessionUDP) : HevSocks5SessionUDP :=
  SessionUDP (frame_list s) (frames s) (u_mem s) (u_frame s) (u_pbuf s) (u_sent s) (u_timeout s) b.

Definition pbuf_free (p : positive) (s : HevSocks5SessionUDP) : res HevSocks5SessionUDP :=
  match u_pbuf s !! p with
  | Some _ => Ok (set_pbuf (delete p (u_pbuf s)) s)
  | None => Fault BadFree
  end.
(** [hev_free] of a frame, whose node goes with it. *)
Definition free_frame (p : positive) (s : HevSocks5SessionUDP) : res HevSocks5SessionUDP :=
  match u_mem s !! p with
  | Some _ => Ok (set_frame (delete p (u_frame s)) (set_frames (frame_list s) (frames s) (delete p (u_mem s)) s))
  | None => Fault BadFree
  end.
Definition frame_at (p : positive) (s : HevSocks5SessionUDP) : res (address * positive) :=
  match u_frame s !! p with Some f => Ok f | None => Fault OutOfBounds end.

(** [addr] is the local address of the pcb, where the device sends to; [ok] says
    whether [hev_malloc] succeeds. *)
Definition udp_recv_handler (addr : address) (ok : bool) (p : option positive) (s : HevSocks5SessionUDP)
    : res HevSocks5SessionUDP :=
  match p with
  | None => mret (set_u_timeout 0 s)
  | Some p =>
      if UDP_POOL_SIZE <? frames s then pbuf_free p s else
      if negb ok then pbuf_free p s else
      let f := fresh (dom (u_mem s)) in
      let m := <[f := Node None None]> (u_mem s) in
      let s := set_frame (<[f := (addr, p)]> (u_frame s)) s in
      '(l, m) ← hev_list_add_tail (frame_list s) f m;
      mret (set_frames l (frames s + 1) m s)
  end.

(** What lwIP does while this task waits: it allocates a chain for a datagram
    and calls the handler, or closes. *)
Inductive arrival : Type := Arrive (addr : address) (ok : bool) (c : chain) | Closed.
Definition arrive (a : arrival) (s : HevSocks5SessionUDP) : res HevSocks5SessionUDP :=
  match a with
  | Arrive addr ok c =>
      let p := fresh (dom (u_pbuf s)) in
      udp_recv_handler addr ok (Some p) (set_pbuf (<[p := c]> (u_pbuf s)) s)
  | Closed => udp_recv_handler [] true None s
  end.
Fixpoint arrive_all (l : list arrival) (s : HevSocks5SessionUDP) : res HevSocks5SessionUDP :=
  match l with [] => mret s | a :: l => s ← arrive a s; arrive_all l s end.

(** Lines 45-53: [waits] is what arrives during each wait, and whether the
    yielder gives up after it. *)
Fixpoint wait_frame (waits : list (list arrival * bool)) (s : HevSocks5SessionUDP)
    : res (option positive * HevSocks5SessionUDP) :=
  match hev_list_first (frame_list s) with
  | Some node => mret (Some node, s)
  | None =>
      match waits with
      | [] => Fault OutOfFuel
      | (l, gives_up) :: waits =>
          s ← arrive_all l s;
          if (gives_up : bool) then mret (None, s) else wait_frame waits s
      end
  end.

(** One frame: the waits, what arrives while [hev_socks5_udp_sendto] waits for
    the socket, and what it returns. *)
Record round : Type := Round {
  r_waits : list (list arrival * bool);
  r_meanwhile : list arrival;
  r_send : list Z -> address -> Z
}.
Definition hev_socks5_session_udp_fwd_f (x : round) (s : HevSocks5SessionUDP) : res (Z * HevSocks5SessionUDP) :=
  '(node, s) ← wait_frame (r_waits x) s;
  match node with
  | None => mret (-1, s)
  | Some node =>
      '(addr, buf) ← frame_at node s;
      c ← (match u_pbuf s !! buf with Some c => Ok c | None => Fault OutOfBounds end);
      let payload := List.hd [] c in
      let r := r_send x payload addr in
      s ← arrive_all (r_meanwhile x) s;
      let s := if 0 <? r then set_sent (u_sent s ++ [(addr, payload)]) s else s in
      let res := if r <=? 0 then -1 else r in
      '(l, m) ← hev_list_del (frame_list s) node (u_mem s);
      s ← free_frame node (set_frames l (frames s) m s);
      s ← pbuf_free buf s;
      mret (res, set_frames (frame_list s) (frames s - 1) (u_mem s) s)
  end.
(** The loop of [hev_socks5_session_udp_splice]. *)
Fixpoint forward_loop (l : list round) (s : HevSocks5SessionUDP) : res HevSocks5SessionUDP :=
  match l with
  | [] => mret s
  | x :: l =>
      '(r, s) ← hev_socks5_session_udp_fwd_f x s;
      if r <? 0 then mret s else forward_loop l s
  end.

Fixpoint destruct_loop (fuel : nat) (node : option positive) (s : HevSocks5SessionUDP) : res HevSocks5SessionUDP :=
  match node with
  | None => mret s
  | Some p =>
      match fuel with
      | O => Fault OutOfFuel
      | S k =>
          '(_, buf) ← frame_at p s;
          node ← hev_list_node_next (u_mem s) p;
          s ← pbuf_free buf s;
          s ← free_frame p s;
          destruct_loop k node s
      end
  end.
(** [late] is what arrives while [hev_task_mutex_lock] waits for the mutex: the handler
    is still registered, and the list still refers to the frames that are gone. *)
Definition hev_socks5_session_udp_destruct (late : list arrival) (s : HevSocks5SessionUDP) : res HevSocks5SessionUDP :=
  s ← destruct_loop (S (size (u_mem s))) (hev_list_first (frame_list s)) s;
  s ← (if u_pcb s then arrive_all late s else mret s);
  mret (if u_pcb s then set_u_pcb false s else s).

(** A session with no frames. *)
Definition new_udp_session (pbufs : gmap positive chain) (timeout : Z) : HevSocks5SessionUDP :=
  SessionUDP (HList None None) 0 ∅ ∅ pbufs [] timeout true.

(** * What the session is meant to do *)

(** The datagrams to send: a bounded queue of destinations and payloads; what
    does not fit, or finds no memory, is dropped. *)
Notation datagram := (address * list Z)%type.
Definition offer (q : list datagram) (a : arrival) : list datagram :=
  match a with
  | Arrive addr ok c => if (UDP_POOL_SIZE <? zlen q) || negb ok then q else q ++ [(addr, List.hd [] c)]
  | Closed => q
  end.
Fixpoint await (waits : list (list arrival * bool)) (q : list datagram) : option (bool * list datagram) :=
  match q with
  | _ :: _ => Some (true, q)
  | [] =>
      match waits with
      | [] => None
      | (l, gives_up) :: waits =>
          let q := foldl offer q l in if (gives_up : bool) then Some (false, q) else await waits q
      end
  end.
Fixpoint deliver (l : list round) (q sent : list datagram) : option (list datagram * list datagram) :=
  match l with
  | [] => Some (q, sent)
  | x :: l =>
      match await (r_waits x) q with
      | Some (true, (addr, payload) :: q) =>
          let q := List.tl (foldl offer ((addr, payload) :: q) (r_meanwhile x)) in
          if 0 <? r_send x payload addr then deliver l q (sent ++ [(addr, payload)]) else Some (q, sent)
      | Some (_, q) => Some (q, sent)
      | None => None
      end
  end.

(** ** The invariant *)
Record item : Type := Item { i_node : positive; i_addr : address; i_buf : positive; i_chain : chain }.
Definition datagram_of (i : item) : datagram := (i_addr i, List.hd [] (i_chain i)).

(** The memory the frames [L] take: their nodes, their members and their pbufs;
    [pb0] are the pbufs of others. *)
Record owned (pb0 : gmap positive chain) (L : list item) (s : HevSocks5SessionUDP) : Prop := {
  ow_nodup : NoDup (i_node <$> L);
  ow_mem : dom (u_mem s) = list_to_set (i_node <$> L);
  ow_frame : forall i, i ∈ L -> u_frame s !! i_node i = Some (i_addr i, i_buf i);
  ow_frames : dom (u_frame s) = dom (u_mem s);
  ow_bufs : NoDup (i_buf <$> L);
  ow_pbuf : forall i, i ∈ L -> u_pbuf s !! i_buf i = Some (i_chain i);
  ow_new : forall i, i ∈ L -> pb0 !! i_buf i = None;
  ow_others : forall p, p ∉ i_buf <$> L -> u_pbuf s !! p = pb0 !! p
}.
Record holds (pb0 : gmap positive chain) (L : list item) (s : HevSocks5SessionUDP) : Prop := {
  ho_list : dlist (u_mem s) (i_node <$> L) (frame_list s);
  ho_count : frames s = zlen L;
  ho_bound : zlen L <= UDP_POOL_SIZE + 1;
  ho_owned : owned pb0 L s
}.

Lemma free_new_pbuf s c addr ok :
  (UDP_POOL_SIZE <? frames s) || negb ok = true ->
  arrive (Arrive addr ok c) s = Ok s.
Proof.
  intros Hc. unfold arrive, udp_recv_handler. cbn zeta. cbn [set_pbuf frames].
  assert (Hf : pbuf_free (fresh (dom (u_pbuf s))) (set_pbuf (<[fresh (dom (u_pbuf s)) := c]> (u_pbuf s)) s) = Ok s).
  { unfold pbuf_free. cbn. rewrite lookup_insert_eq. f_equal. destruct s. unfold set_pbuf. cbn. f_equal.
    apply delete_insert_id. apply not_elem_of_dom, is_fresh. }
  rewrite Hf. apply orb_prop in Hc as [->| ->]; [done|by case_match].
Qed.

Lemma arrive_holds pb0 L s a :
  holds pb0 L s ->
  exists s' K, arrive a s = Ok s' /\ holds pb0 (L ++ K) s' /\ u_sent s' = u_sent s /\
    datagram_of <$> L ++ K = offer (datagram_of <$> L) a.
Proof.
  intros Hs. destruct a as [addr ok c|]; cbn [offer]; rewrite ?length_fmap.
  2: { exists (set_u_timeout 0 s), []. rewrite app_nil_r. split; [done|]. split; [by destruct Hs as [? ? ? []]|done]. }
  destruct ((UDP_POOL_SIZE <? zlen L) || negb ok) eqn:Hc.
  { exists s, []. rewrite app_nil_r. split; [|done]. apply free_new_pbuf. by rewrite (ho_count _ _ _ Hs). }
  destruct Hs as [ho_list0 ho_count0 ho_bound0 []]. apply orb_false_elim in Hc as [Hc Hok].
  unfold arrive, udp_recv_handler. cbn zeta. cbn [set_pbuf frames u_mem u_frame set_frame frame_list].
  rewrite ho_count0, Hc, Hok. set (p := fresh (dom (u_pbuf s))). set (f := fresh (dom (u_mem s))).
  assert (Hp : p ∉ dom (u_pbuf s)) by apply is_fresh. assert (Hf : f ∉ dom (u_mem s)) by apply is_fresh.
  assert (HpL : p ∉ i_buf <$> L).
  { intros (i & -> & Hi)%list_elem_of_fmap. apply Hp, elem_of_dom. rewrite ow_pbuf0 by done. eauto. }
  assert (HfL : f ∉ i_node <$> L) by (rewrite ow_mem0 in Hf; set_solver).
  assert (Hp0 : pb0 !! p = None) by (rewrite <- ow_others0 by done; by apply not_elem_of_dom).
  clearbody p f.
  destruct (hev_list_add_tail_ok (<[f := Node None None]> (u_mem s)) (i_node <$> L) (frame_list s) f)
    as (l' & m' & -> & Hl' & Hd').
  { destruct ho_list0. split; try done. by apply dseg_insert. }
  { rewrite lookup_insert_eq. eauto. }
  { done. }
  cbn. eexists _, [Item f addr p c]. split; [done|]. split; [|split; [done|by rewrite fmap_app]].
  assert (HL : forall i, i ∈ L ++ [Item f addr p c] -> i ∈ L /\ i_node i <> f /\ i_buf i <> p \/ i = Item f addr p c).
  { intros i [Hi|Hi]%elem_of_app; [left|right; by apply list_elem_of_singleton in Hi].
    split; [done|]. split; intros <-; [apply HfL|apply HpL]; by apply list_elem_of_fmap_2. }
  split; cbn; rewrite ?fmap_app, ?length_app; cbn; try lia; try done.
  split; cbn; rewrite ?fmap_app; cbn; [apply Hl'|..].
  - rewrite Hd', dom_insert_L, ow_mem0, list_to_set_app_L. cbn. set_solver.
  - intros i [(Hi & Hn & _)| ->]%HL; [|by rewrite lookup_insert_eq]. rewrite lookup_insert_ne by done. auto.
  - by rewrite dom_insert_L, ow_frames0, Hd', dom_insert_L.
  - apply NoDup_app. split; [done|]. split; [set_solver|apply NoDup_singleton].
  - intros i [(Hi & _ & Hn)| ->]%HL; [|by rewrite lookup_insert_eq]. rewrite lookup_insert_ne by done. auto.
  - intros i [(Hi & _ & Hn)| ->]%HL; auto.
  - intros q Hq. rewrite lookup_insert_ne by set_solver. apply ow_others0. set_solver.
Qed.

Lemma holds_sent pb0 L s l : holds pb0 L s -> holds pb0 L (set_sent l s).
Proof. intros [? ? ? []]. by split. Qed.

Lemma arrive_all_holds pb0 l : forall L s,
  holds pb0 L s ->
  exists s' K, arrive_all l s = Ok s' /\ holds pb0 (L ++ K) s' /\ u_sent s' = u_sent s /\
    datagram_of <$> L ++ K = foldl offer (datagram_of <$> L) l.
Proof.
  induction l as [|a l IH]; intros L s Hs; cbn [arrive_all foldl].
  { exists s, []. by rewrite app_nil_r. }
  destruct (arrive_holds pb0 L s a Hs) as (s1 & K1 & -> & H1 & Hs1 & <-). cbn [mbind res_bind].
  destruct (IH _ _ H1) as (s2 & K2 & -> & H2 & Hs2 & Hq). exists s2, (K1 ++ K2).
  rewrite app_assoc. split_and!; try done. congruence.
Qed.

Lemma wait_frame_holds pb0 waits : forall L s,
  holds pb0 L s ->
  match await waits (datagram_of <$> L) with
  | Some (b, q) => exists s' L', wait_frame waits s = Ok (if b : bool then i_node <$> List.hd_error L' else None, s') /\
      holds pb0 L' s' /\ u_sent s' = u_sent s /\ datagram_of <$> L' = q /\ (b = true -> L' <> [])
  | None => wait_frame waits s = Fault OutOfFuel
  end.
Proof.
  induction waits as [|[l g] waits IH]; intros L s Hs; cbn [await wait_frame]; unfold hev_list_first;
    rewrite (dl_head _ _ _ (ho_list _ _ _ Hs)); (destruct L as [|i L]; [cbn|by exists s, (i :: L)]); [done|].
  destruct (arrive_all_holds pb0 l [] s Hs) as (s1 & K & -> & H1 & Hs1 & Hq). cbn [mbind res_bind].
  cbn in Hq. rewrite <- Hq. destruct g; [by exists s1, K|].
  specialize (IH K s1 H1). destruct (await waits (datagram_of <$> K)) as [[b q]|]; [|done].
  destruct IH as (s2 & L2 & -> & H2 & Hs2 & HR). exists s2, L2. split_and!; try done; [congruence|apply HR..].
Qed.

(** Freeing the first frame, in either order. *)
Definition freed (i : item) (s : HevSocks5SessionUDP) : HevSocks5SessionUDP :=
  set_pbuf (delete (i_buf i) (u_pbuf s)) (set_frame (delete (i_node i) (u_frame s))
    (set_frames (frame_list s) (frames s) (delete (i_node i) (u_mem s)) s)).
Lemma owned_free pb0 i L s :
  owned pb0 (i :: L) s ->
  (s1 ← free_frame (i_node i) s; pbuf_free (i_buf i) s1) = Ok (freed i s) /\
  (s1 ← pbuf_free (i_buf i) s; free_frame (i_node i) s1) = Ok (freed i s) /\ owned pb0 L (freed i s).
Proof.
  intros []. assert (Hi : i ∈ i :: L) by set_solver. cbn in *.
  destruct (u_mem s !! i_node i) as [n|] eqn:Hn; [|apply not_elem_of_dom in Hn; set_solver].
  split; [unfold free_frame; rewrite Hn; cbn; unfold pbuf_free; cbn; by rewrite (ow_pbuf0 i Hi)|].
  split; [unfold pbuf_free; rewrite (ow_pbuf0 i Hi); cbn; unfold free_frame; cbn; by rewrite Hn|].
  apply NoDup_cons in ow_nodup0 as [Hn1 Hnd]. apply NoDup_cons in ow_bufs0 as [Hb1 Hbd].
  assert (HL : forall j, j ∈ L -> j ∈ i :: L /\ i_node j <> i_node i /\ i_buf j <> i_buf i).
  { intros j Hj. split; [set_solver|]. split; intros E; [apply Hn1|apply Hb1]; rewrite <- E; by apply list_elem_of_fmap_2. }
  split; cbn; try done.
  - rewrite dom_delete_L, ow_mem0. set_solver.
  - intros j (Hj & Hne & _)%HL. rewrite lookup_delete_ne by done. auto.
  - by rewrite !dom_delete_L, ow_frames0.
  - intros j (Hj & _ & Hne)%HL. rewrite lookup_delete_ne by done. auto.
  - intros j (Hj & _)%HL. auto.
  - intros p Hp. destruct (decide (p = i_buf i)) as [->|Hne]; [by rewrite lookup_delete_eq, ow_new0|].
    rewrite lookup_delete_ne by done. apply ow_others0. set_solver.
Qed.

(** Unlinking and freeing the frame that was sent. *)
Lemma remove_first pb0 i L s :
  holds pb0 (i :: L) s ->
  exists l m s', hev_list_del (frame_list s) (i_node i) (u_mem s) = Ok (l, m) /\
    (s1 ← free_frame (i_node i) (set_frames l (frames s) m s); pbuf_free (i_buf i) s1) = Ok s' /\
    holds pb0 L (set_frames (frame_list s') (frames s' - 1) (u_mem s') s') /\ u_sent s' = u_sent s.
Proof.
  intros [Hl Hc Hb Ho]. destruct (hev_list_del_ok (u_mem s) [] (i_node i) (fmap (M := list) i_node L) (frame_list s) Hl)
    as (l & m & Hd & Hl' & Hdom & _).
  assert (Ho' : owned pb0 (i :: L) (set_frames l (frames s) m s)) by (destruct Ho; split; cbn; rewrite ?Hdom; done).
  destruct (owned_free _ _ _ _ Ho') as (Hf & _ & Ho2). exists l, m, (freed i (set_frames l (frames s) m s)).
  split_and!; try done. split; cbn in *; try lia.
  - destruct Hl'. split; try done. apply dseg_delete; [|done]. destruct Ho. cbn in *. by apply NoDup_cons in ow_nodup0 as [? _].
  - by destruct Ho2.
Qed.

Lemma destruct_loop_ok pb0 fuel : forall pp L s,
  owned pb0 L s -> dseg (u_mem s) pp (i_node <$> L) None -> (length L < fuel)%nat ->
  exists s', destruct_loop fuel (first_of (i_node <$> L) None) s = Ok s' /\ owned pb0 [] s' /\ frames s' = frames s /\ u_pcb s' = u_pcb s.
Proof.
  induction fuel as [|fuel IH]; intros pp L s Ho Hd Hf; [lia|].
  destruct L as [|i L]; cbn in *; [by exists s|]. destruct Hd as [Hi Hd].
  destruct (owned_free _ _ _ _ Ho) as (_ & Hfr & Ho2).
  unfold frame_at. rewrite (ow_frame _ _ _ Ho i) by set_solver. cbn [mbind res_bind].
  unfold hev_list_node_next, deref. rewrite Hi. cbn [mbind res_bind mret res_ret next].
  rewrite <- (res_bind_assoc (pbuf_free (i_buf i) s) (fun s1 => free_frame (i_node i) s1)), Hfr. cbn [mbind res_bind].
  destruct (IH (Some (i_node i)) L (freed i s)) as (s' & E & Ho' & Hf' & Hp'); [done| |lia|by exists s'].
  apply dseg_delete; [|done]. destruct Ho. cbn in *. by apply NoDup_cons in ow_nodup0 as [? _].
Qed.

(** A datagram that is not queued: [n] others wait, or there is no memory. *)
Definition dropped (n : Z) (a : arrival) : bool :=
  match a with Arrive _ ok _ => (UDP_POOL_SIZE <? n) || negb ok | Closed => true end.
Lemma arrive_dropped l : forall s, forallb (dropped (frames s)) l = true -> exists t, arrive_all l s = Ok (set_u_timeout t s).
Proof.
  induction l as [|a l IH]; intros s Hl; cbn [arrive_all]; [exists (u_timeout s); by destruct s|]. cbn [forallb] in Hl. apply andb_prop in Hl as [Ha Hl].
  destruct a as [addr ok c|].
  - rewrite (free_new_pbuf s c addr ok Ha). cbn [mbind res_bind]. by apply IH.
  - cbn. destruct (IH (set_u_timeout 0 s) Hl) as [t E]. rewrite E. by exists t.
Qed.
Lemma destruct_ok pb0 L s late :
  holds pb0 L s -> forallb (dropped (zlen L)) late = true ->
  exists s', hev_socks5_session_udp_destruct late s = Ok s' /\ u_mem s' = ∅ /\ u_frame s' = ∅ /\ u_pbuf s' = pb0 /\ u_pcb s' = false.
Proof.
  intros [Hl Hc _ Ho] Hlate. unfold hev_socks5_session_udp_destruct, hev_list_first. rewrite (dl_head _ _ _ Hl).
  destruct (destruct_loop_ok pb0 (S (size (u_mem s))) None L s Ho (dl_seg _ _ _ Hl)) as (s1 & -> & [] & Hfr & Hp).
  { rewrite <- size_dom, (ow_mem _ _ _ Ho), size_list_to_set by apply Ho. rewrite length_fmap. lia. }
  cbn in *. apply dom_empty_inv_L in ow_mem0 as Hm. assert (Hf : u_frame s1 = ∅) by (apply dom_empty_inv_L; by rewrite ow_frames0, Hm, dom_empty_L).
  assert (Hb : u_pbuf s1 = pb0) by (apply map_eq; intros p; apply ow_others0; set_solver).
  destruct (arrive_dropped late s1) as [t E]; [by rewrite Hfr, Hc|]. cbn [mbind res_bind]. destruct (u_pcb s1) eqn:Eb.
  - rewrite E. cbn. rewrite Eb. by eexists.
  - cbn. rewrite Eb. by exists s1.
Qed.

(** One frame: the state is again described, and the datagram at the head was
    passed on if the proxy's socket took it. *)
Lemma fwd_f_holds pb0 L s x :
  holds pb0 L s ->
  match await (r_waits x) (datagram_of <$> L) with
  | None => hev_socks5_session_udp_fwd_f x s = Fault OutOfFuel
  | Some (false, q) | Some (true, [] as q) => exists s' L', hev_socks5_session_udp_fwd_f x s = Ok (-1, s') /\ holds pb0 L' s' /\
      u_sent s' = u_sent s /\ datagram_of <$> L' = q
  | Some (true, (addr, payload) :: q) => exists r s' L', hev_socks5_session_udp_fwd_f x s = Ok (r, s') /\ holds pb0 L' s' /\
      datagram_of <$> L' = List.tl (foldl offer ((addr, payload) :: q) (r_meanwhile x)) /\
      if 0 <? r_send x payload addr then 0 <= r /\ u_sent s' = u_sent s ++ [(addr, payload)]
      else r < 0 /\ u_sent s' = u_sent s
  end.
Proof.
  intros Hs. pose proof (wait_frame_holds pb0 (r_waits x) L s Hs) as Hw. unfold hev_socks5_session_udp_fwd_f.
  destruct (await _ _) as [[b q]|]; [|by rewrite Hw]. destruct Hw as (s1 & L1 & -> & H1 & Hs1 & Hq & Hb).
  cbn [mbind res_bind]. destruct b; [|by exists s1, L1]. destruct L1 as [|i L1]; [by destruct Hb|].
  cbn in Hq. subst q. cbn [List.hd_error fmap option_fmap option_map datagram_of].
  destruct (ho_owned _ _ _ H1). unfold frame_at. rewrite ow_frame0 by set_solver. cbn [mbind res_bind].
  rewrite ow_pbuf0 by set_solver. cbn [mbind res_bind].
  clear - H1 Hs1. destruct (arrive_all_holds pb0 (r_meanwhile x) _ _ H1) as (s2 & K & -> & H2 & Hs2 & Hq).
  cbn [mbind res_bind app fmap list_fmap datagram_of] in *. change (i_addr i, List.hd [] (i_chain i)) with (datagram_of i). rewrite <- Hq. cbn [List.tl].
  set (r := r_send x (List.hd [] (i_chain i)) (i_addr i)).
  set (s3 := if 0 <? r then _ else s2).
  assert (H3 : holds pb0 (i :: L1 ++ K) s3) by (unfold s3; case_match; [by apply holds_sent|done]).
  destruct (remove_first _ _ _ _ H3) as (l & m & s4 & -> & Hf & H4 & Hs4). cbn [mbind res_bind].
  revert Hf. generalize (free_frame (i_node i) (set_frames l (frames s3) m s3)). intros [s5|]; [|done].
  cbn [mbind res_bind]. intros ->. cbn. eexists _, _, (L1 ++ K). split; [done|]. split; [done|]. split; [done|].
  cbn [set_frames u_sent]. rewrite Hs4. unfold s3. clearbody r. zcase; zcase; try lia; cbn; split; try lia; congruence.
Qed.

(** C22: a UDP session forwards what the device sends, of each datagram the first pbuf of
    its chain ([chain_truncated]).  Whatever arrives, while the session waits for a
    datagram or for the proxy's socket, and whatever the socket answers, no pointer of
    the list is wrong, the datagrams are passed on in the order of their arrival, each
    once, only those are dropped that find 513 others waiting or no memory, and the
    frame count is the length of the queue.  Destroying the session frees every frame
    and every pbuf it still has and takes the handler from lwIP, provided that no
    datagram is queued while the destructor waits for the mutex: one that is leaks, or
    is linked to a frame that has been freed ([late_datagram_leaks],
    [late_datagram_after_free]). *)
Theorem udp_session_forwards (pb0 : gmap positive chain) (timeout : Z) (rounds : list round) :
  match deliver rounds [] [] with
  | None => forward_loop rounds (new_udp_session pb0 timeout) = Fault OutOfFuel
  | Some (q, sent) =>
      exists s, forward_loop rounds (new_udp_session pb0 timeout) = Ok s /\ u_sent s = sent /\
        frames s = zlen q /\ zlen q <= UDP_POOL_SIZE + 1 /\
        forall late, forallb (dropped (zlen q)) late = true ->
          exists s', hev_socks5_session_udp_destruct late s = Ok s' /\ u_mem s' = ∅ /\ u_frame s' = ∅ /\ u_pbuf s' = pb0 /\ u_pcb s' = false
  end.
Proof.
  assert (H0 : holds pb0 [] (new_udp_session pb0 timeout)).
  { split; [split; by try constructor|done|done|].
    split; cbn; try done; try (intros i Hi; set_solver); constructor. }
  enough (H : forall rounds L s, holds pb0 L s ->
    match deliver rounds (datagram_of <$> L) (u_sent s) with
    | None => forward_loop rounds s = Fault OutOfFuel
    | Some (q, sent) => exists s' L', forward_loop rounds s = Ok s' /\ u_sent s' = sent /\ holds pb0 L' s' /\ datagram_of <$> L' = q
    end).
  { specialize (H rounds [] _ H0). cbn [u_sent new_udp_session fmap list_fmap] in H.
    destruct (deliver rounds [] []) as [[q sent]|]; [|done]. destruct H as (s & L & -> & Hs & HL & <-).
    exists s. pose proof (fun late => destruct_ok _ _ _ late HL) as Hd. destruct HL. rewrite length_fmap. split_and!; eauto. }
  clear. induction rounds as [|x l IH]; intros L s Hs; cbn [deliver forward_loop]; [by exists s, L|].
  pose proof (fwd_f_holds pb0 L s x Hs) as Hf. destruct (await _ _) as [[[] q]|]; [| |by rewrite Hf].
  - destruct q as [|[addr payload] q]; [destruct Hf as (s' & L' & -> & ? & ? & ?); by exists s', L'|].
    destruct Hf as (r & s' & L' & -> & HL' & <- & Hr). cbn [mbind res_bind].
    destruct (0 <? r_send x payload addr); destruct Hr as [Hr <-].
    + replace (r <? 0) with false by lia. by apply IH.
    + replace (r <? 0) with true by lia. by exists s', L'.
  - destruct Hf as (s' & L' & -> & ? & ? & ?). by exists s', L'.
Qed.

(** A datagram that lwIP put together from fragments is a chain of several
    pbufs; only the first is sent. *)
Fact chain_truncated :
  deliver [Round [([Arrive [1; 2; 3; 4] true [[10; 11]; [12; 13]]], false)] [] (fun d _ => zlen d)] [] []
  = Some ([], [([1; 2; 3; 4], [10; 11])]).
Proof. reflexivity. Qed.

(** A datagram that is queued while the destructor waits for the mutex: its frame and
    its pbuf stay. *)
Fact late_datagram_leaks :
  (s ← hev_socks5_session_udp_destruct [Arrive [1; 2; 3; 4] true [[10]]] (new_udp_session ∅ 0); mret (size (u_mem s), size (u_pbuf s), u_pcb s))
  = Ok (1%nat, 1%nat, false).
Proof. vm_compute. reflexivity. Qed.
(** With two frames in the queue when the session ends, the handler writes to the last
    of them, which has been freed. *)
Fact late_datagram_after_free :
  (s ← arrive_all [Arrive [1; 2; 3; 4] true [[10]]; Arrive [1; 2; 3; 4] true [[11]]] (new_udp_session ∅ 0);
   hev_socks5_session_udp_destruct [Arrive [1; 2; 3; 4] true [[12]]] s) = Fault OutOfBounds.
Proof. vm_compute. reflexivity. Qed.

(** Three datagrams, of which one is sent, one finds the socket closed and one is left;
    lwIP says that it is done while the destructor waits. *)
Definition sample_rounds : list round :=
  [Round [([], false); ([Arrive [1; 2; 3; 4] true [[10]]; Arrive [5; 6; 7; 8] true [[11; 12]]], false)] [] (fun d _ => zlen d);
   Round [] [Arrive [9; 9; 9; 9] true [[13]]] (fun _ _ => -1)].
Lemma udp_session_forwards_witness :
  exists s s', forward_loop sample_rounds (new_udp_session ∅ 5) = Ok s /\ u_sent s = [([1; 2; 3; 4], [10])] /\ frames s = 1 /\
    hev_socks5_session_udp_destruct [Closed] s = Ok s' /\ u_mem s' = ∅ /\ u_pbuf s' = ∅ /\ u_pcb s' = false.
Proof.
  pose proof (udp_session_forwards ∅ 5 sample_rounds) as H. cbn [deliver sample_rounds] in H.
  change (deliver _ _ _) with (Some ([([9; 9; 9; 9], [13])], [([1; 2; 3; 4], [10])])) in H.
  destruct H as (s & E & Hs & Hf & _ & Hd). destruct (Hd [Closed] eq_refl) as (s' & E' & Hm & _ & Hb & Hp).
  exists s, s'. split_and!; assumption.
Defined.
