(* ===== verification/HevSched.v ===== *)
(** The cooperative scheduler of the tunnel (hev-task-system-schedule.c and
    hev-task.c of the task system): tasks ordered by a key, of which the one with
    the smallest runs until it yields, waits or ends. *)
From S2P Require Import Prelude.

(** * Tasks

    The tasks of the tunnel, named by what they run; a session by its node. *)
Inductive tid : Type := TEvent | TIo | TTimer | TSession (p : positive).
#[export] Instance tid_eq_dec : EqDecision tid.
Proof. solve_decision. Defined.
Definition tid_number (t : tid) : Z := match t with TEvent => -1 | TIo => -2 | TTimer => -3 | TSession p => Z.pos p end.
Definition tid_of (z : Z) : option tid :=
  match z with Z.pos p => Some (TSession p) | Z.neg 1 => Some TEvent | Z.neg 2 => Some TIo | Z.neg 3 => Some TTimer | _ => None end.
#[export] Instance tid_countable : Countable tid.
Proof. refine (inj_countable tid_number tid_of _). by intros []. Defined.

Definition HEV_TASK_PRIORITY_DEFAULT : Z := 8.
Definition HEV_TASK_PRIORITY_REALTIME : Z := 0.
Definition u64 (z : Z) : Z := z mod 2 ^ 64.

(** A task is in the table from [hev_task_run] until it has ended; [running] is
    its state, RUNNING or WAITING; a task that is not there is STOPPED. *)
Record HevTask : Type := Task { sched_key : Z; priority : Z; next_priority : Z; running : bool }.
(** The tree of running tasks as the list it is in order. *)
Record HevTaskSystemContext : Type := Ctx {
  current_task : option tid;
  running_tasks : list tid;
  task_table : gmap tid HevTask
}.
Definition set_current (t : option tid) (c : HevTaskSystemContext) : HevTaskSystemContext := Ctx t (running_tasks c) (task_table c).
Definition set_running (l : list tid) (c : HevTaskSystemContext) : HevTaskSystemContext := Ctx (current_task c) l (task_table c).
Definition set_table (m : gmap tid HevTask) (c : HevTaskSystemContext) : HevTaskSystemContext := Ctx (current_task c) (running_tasks c) m.
Definition key_of (c : HevTaskSystemContext) (t : tid) : Z :=
  match task_table c !! t with Some k => sched_key k | None => 0 end.

(** CONFIG_SCHED_CLOCK is CLOCK_NONE: each run counts 1. *)
Definition hev_task_system_update_sched_key (t : tid) (c : HevTaskSystemContext) : HevTaskSystemContext :=
  set_table (alter (fun k => Task (u64 (sched_key k + 1 * priority k)) (priority k) (next_priority k) (running k)) t (task_table c)) c.
Definition hev_task_system_get_min_sched_key (c : HevTaskSystemContext) : Z :=
  match running_tasks c with [] => 0 | t :: _ => key_of c t end.

(** Behind all tasks whose key is not greater. *)
Fixpoint insert_sorted (c : HevTaskSystemContext) (t : tid) (l : list tid) : list tid :=
  match l with
  | [] => [t]
  | x :: l' => if key_of c t <? key_of c x then t :: l else x :: insert_sorted c t l'
  end.
Definition hev_task_system_insert_task (t : tid) (c : HevTaskSystemContext) : HevTaskSystemContext :=
  let c := set_table (alter (fun k => Task (sched_key k) (next_priority k) (next_priority k) true) t (task_table c)) c in
  set_running (insert_sorted c t (running_tasks c)) c.
Definition erase (t : tid) (l : list tid) : list tid := filter (fun x => x <> t) l.
Arguments erase : simpl never.
Definition hev_task_system_reinsert_current_task (t : tid) (c : HevTaskSystemContext) : HevTaskSystemContext :=
  let c := set_table (alter (fun k => Task (sched_key k) (next_priority k) (next_priority k) (running k)) t (task_table c)) c in
  set_running (insert_sorted c t (erase t (running_tasks c))) c.
Definition hev_task_system_remove_current_task (t : tid) (stopped : bool) (c : HevTaskSystemContext) : HevTaskSystemContext :=
  let c := set_running (erase t (running_tasks c)) c in
  if stopped then set_table (delete t (task_table c)) c
  else set_table (alter (fun k => Task (next_priority k) (priority k) (next_priority k) false) t (task_table c)) c.

(** The program aborts when a task is woken that has ended. *)
Definition hev_task_system_wakeup_task (t : tid) (c : HevTaskSystemContext) : res HevTaskSystemContext :=
  match task_table c !! t with
  | None => Fault AssertFail
  | Some k =>
      if running k then mret c else
      let min := hev_task_system_get_min_sched_key c in
      let c := set_table (<[t := Task (u64 (sched_key k + min)) (priority k) (next_priority k) false]> (task_table c)) c in
      mret (hev_task_system_insert_task t c)
  end.

(** [hev_task_run] of a task with a priority. *)
Definition hev_task_run (t : tid) (prio : Z) (c : HevTaskSystemContext) : HevTaskSystemContext :=
  match task_table c !! t with
  | Some _ => c
  | None =>
      let key := match current_task c with Some _ => u64 (prio + hev_task_system_get_min_sched_key c) | None => prio end in
      hev_task_system_insert_task t (set_table (<[t := Task key prio prio false]> (task_table c)) c)
  end.

(** Back in the kernel: what the current task left with. *)
Inductive HevTaskYieldType : Type := HEV_TASK_YIELD | HEV_TASK_WAITIO | HEV_TASK_SCHED_REMOVE.
Definition leave (type : HevTaskYieldType) (t : tid) (c : HevTaskSystemContext) : HevTaskSystemContext :=
  set_current None
    match type with
    | HEV_TASK_YIELD => hev_task_system_reinsert_current_task t (hev_task_system_update_sched_key t c)
    | HEV_TASK_WAITIO => hev_task_system_remove_current_task t false (hev_task_system_update_sched_key t c)
    | HEV_TASK_SCHED_REMOVE => hev_task_system_remove_current_task t true c
    end.
(** [hev_task_system_pick_current_task], after the tasks [ready] were found by the
    poll; [None] while there is none to run. *)
Fixpoint hev_task_system_io_poll (ready : list tid) (c : HevTaskSystemContext) : res HevTaskSystemContext :=
  match ready with
  | [] => mret c
  | t :: ready => c ← hev_task_system_wakeup_task t c; hev_task_system_io_poll ready c
  end.
Definition hev_task_system_pick_current_task (ready : list tid) (c : HevTaskSystemContext) : res HevTaskSystemContext :=
  c ← hev_task_system_io_poll ready c;
  mret (set_current (List.hd_error (running_tasks c)) c).

(** * What the tree holds *)
Record ctx_ok (c : HevTaskSystemContext) : Prop := {
  co_nodup : NoDup (running_tasks c);
  co_running : forall t, t ∈ running_tasks c <-> exists k, task_table c !! t = Some k /\ running k = true;
  co_current : forall t, current_task c = Some t -> t ∈ running_tasks c
}.
Definition tasks (c : HevTaskSystemContext) : gset tid := dom (task_table c).

Lemma elem_of_tasks c t : t ∈ tasks c <-> is_Some (task_table c !! t).
Proof. apply elem_of_dom. Qed.
Lemma not_elem_of_tasks c t : t ∉ tasks c <-> task_table c !! t = None.
Proof. apply not_elem_of_dom. Qed.

Lemma insert_sorted_perm c t l : insert_sorted c t l ≡ₚ t :: l.
Proof. induction l as [|x l IH]; [done|]. simpl. zcase; [done|]. rewrite IH. constructor. Qed.
Lemma elem_of_insert_sorted c t l x : x ∈ insert_sorted c t l <-> x = t \/ x ∈ l.
Proof. rewrite insert_sorted_perm. set_solver. Qed.
Lemma insert_sorted_sublist c t l : l `sublist_of` insert_sorted c t l.
Proof. induction l as [|x l IH]; [by constructor|]. simpl. zcase; constructor; done. Qed.
Lemma elem_of_erase t l x : x ∈ erase t l <-> x <> t /\ x ∈ l.
Proof. unfold erase. rewrite list_elem_of_filter. done. Qed.
Lemma NoDup_erase t l : NoDup l -> NoDup (erase t l).
Proof. apply NoDup_filter. Qed.
Lemma insert_task_ok c t k : ctx_ok c -> task_table c !! t = Some k -> running k = false ->
  let c' := hev_task_system_insert_task t c in
  ctx_ok c' /\ tasks c' = tasks c /\ current_task c' = current_task c /\ running_tasks c `sublist_of` running_tasks c' /\
  forall x, x ∈ running_tasks c' <-> x = t \/ x ∈ running_tasks c.
Proof.
  intros [Hn Hr Hc] Hk Hf c'. assert (Ht : t ∉ running_tasks c). { intros H. apply Hr in H as (k' & Hk' & ?). congruence. }
  unfold c', hev_task_system_insert_task, tasks. cbn. split_and!; [|apply dom_alter_L|done|apply insert_sorted_sublist|apply elem_of_insert_sorted].
  split; cbn.
  - rewrite insert_sorted_perm. by constructor.
  - intros x. rewrite elem_of_insert_sorted, Hr. destruct (decide (x = t)) as [->|Hx].
    + rewrite lookup_alter_eq, Hk. cbn. naive_solver.
    + rewrite lookup_alter_ne by done. naive_solver.
  - intros x Hx. apply elem_of_insert_sorted. right. by apply Hc.
Qed.

Lemma wakeup_ok c t : ctx_ok c -> t ∈ tasks c ->
  exists c', hev_task_system_wakeup_task t c = Ok c' /\ ctx_ok c' /\ tasks c' = tasks c /\ current_task c' = current_task c /\
    running_tasks c `sublist_of` running_tasks c' /\ forall x, x ∈ running_tasks c' <-> x = t \/ x ∈ running_tasks c.
Proof.
  intros Hc [k Hk]%elem_of_tasks. unfold hev_task_system_wakeup_task. rewrite Hk. destruct (running k) eqn:Hr.
  - exists c. split_and!; try done. intros x. split; [by right|]. intros [->|]; [|done]. apply (co_running _ Hc). eauto.
  - eexists. split; [reflexivity|].
    match goal with |- context [hev_task_system_insert_task t ?cc] => set (c1 := cc) end.
    assert (Ht : t ∉ running_tasks c). { intros H. apply (co_running _ Hc) in H as (k' & Hk' & ?). congruence. }
    assert (H1 : ctx_ok c1).
    { destruct Hc as [Hn Hru Hcu]. split; cbn; [done| |done]. intros x. rewrite Hru. destruct (decide (x = t)) as [->|Hx].
      - rewrite lookup_insert_eq. naive_solver.
      - by rewrite lookup_insert_ne. }
    destruct (insert_task_ok c1 t _ H1 (lookup_insert_eq _ _ _) eq_refl) as (Ho & Ht' & Hcu & Hs & Hx). split_and!; try done.
    rewrite Ht'. unfold tasks, c1. cbn. by apply dom_insert_lookup_L.
Qed.
Lemma wakeup_stopped c t : t ∉ tasks c -> hev_task_system_wakeup_task t c = Fault AssertFail.
Proof. intros H. unfold hev_task_system_wakeup_task. by rewrite (proj1 (not_elem_of_tasks _ _) H). Qed.

Lemma run_ok c t prio : ctx_ok c -> t ∉ tasks c ->
  let c' := hev_task_run t prio c in
  ctx_ok c' /\ tasks c' = {[t]} ∪ tasks c /\ current_task c' = current_task c /\ running_tasks c `sublist_of` running_tasks c' /\
  forall x, x ∈ running_tasks c' <-> x = t \/ x ∈ running_tasks c.
Proof.
  intros Hc Ht c'. unfold c', hev_task_run. rewrite (proj1 (not_elem_of_tasks _ _) Ht).
  match goal with |- context [hev_task_system_insert_task t ?cc] => set (c1 := cc) end.
  assert (Hr : t ∉ running_tasks c). { intros H. apply (co_running _ Hc) in H as (k & Hk & _). apply Ht. by apply elem_of_tasks. }
  assert (H1 : ctx_ok c1).
  { destruct Hc as [Hn Hru Hcu]. split; cbn; [done| |done]. intros x. rewrite Hru. destruct (decide (x = t)) as [->|Hx].
    - rewrite lookup_insert_eq. rewrite (proj1 (not_elem_of_tasks _ _) Ht). naive_solver.
    - by rewrite lookup_insert_ne. }
  destruct (insert_task_ok c1 t _ H1 (lookup_insert_eq _ _ _) eq_refl) as (Ho & Ht' & Hcu & Hs & Hx). split_and!; try done.
  rewrite Ht'. unfold tasks, c1. cbn. by rewrite dom_insert_L.
Qed.

(** What is running after the current task has left. *)
Definition still_runs (type : HevTaskYieldType) : bool := match type with HEV_TASK_YIELD => true | _ => false end.
Lemma leave_ok c type t : ctx_ok c -> t ∈ running_tasks c ->
  let c' := leave type t c in
  ctx_ok c' /\ current_task c' = None /\
  tasks c' = (match type with HEV_TASK_SCHED_REMOVE => tasks c ∖ {[t]} | _ => tasks c end) /\
  forall x, x ∈ running_tasks c' <-> (x <> t /\ x ∈ running_tasks c) \/ (x = t /\ still_runs type = true).
Proof.
  intros [Hn Hr Hc] Ht c'. pose proof (proj1 (Hr t) Ht) as (k & Hk & Hkr). unfold c', leave, tasks. destruct type; cbn.
  - split_and!; [|done|by rewrite !dom_alter_L|].
    + split; cbn; [rewrite insert_sorted_perm; constructor; [|by apply NoDup_erase]; intros H; by apply elem_of_erase in H as [? _]| |done].
      intros x. rewrite elem_of_insert_sorted, elem_of_erase, Hr. destruct (decide (x = t)) as [->|Hx].
      * rewrite !lookup_alter_eq, Hk. cbn. naive_solver.
      * rewrite !lookup_alter_ne by done. naive_solver.
    + intros x. rewrite elem_of_insert_sorted, elem_of_erase. naive_solver.
  - split_and!; [|done|by rewrite !dom_alter_L|].
    + split; cbn; [by apply NoDup_erase| |done]. intros x. rewrite elem_of_erase, Hr. destruct (decide (x = t)) as [->|Hx].
      * rewrite !lookup_alter_eq, Hk. cbn. naive_solver.
      * rewrite !lookup_alter_ne by done. naive_solver.
    + intros x. rewrite elem_of_erase. naive_solver.
  - split_and!; [|done|apply dom_delete_L|].
    + split; cbn; [by apply NoDup_erase| |done]. intros x. rewrite elem_of_erase, Hr. destruct (decide (x = t)) as [->|Hx].
      * rewrite lookup_delete_eq. naive_solver.
      * rewrite lookup_delete_ne by done. naive_solver.
    + intros x. rewrite elem_of_erase. naive_solver.
Qed.

Lemma io_poll_ok ready : forall c, ctx_ok c -> Forall (fun t => t ∈ tasks c) ready ->
  exists c', hev_task_system_io_poll ready c = Ok c' /\ ctx_ok c' /\ tasks c' = tasks c /\ current_task c' = current_task c /\
    running_tasks c `sublist_of` running_tasks c' /\ forall x, x ∈ running_tasks c' <-> x ∈ ready \/ x ∈ running_tasks c.
Proof.
  induction ready as [|t ready IH]; intros c Hc Hr; [exists c; split_and!; try done; set_solver|].
  apply Forall_cons in Hr as [Ht Hr]. destruct (wakeup_ok c t Hc Ht) as (c1 & E1 & H1 & Ht1 & Hcu1 & Hs1 & Hx1). cbn. rewrite E1. cbn.
  destruct (IH c1 H1) as (c2 & E2 & H2 & Ht2 & Hcu2 & Hs2 & Hx2); [by rewrite Ht1|]. exists c2. rewrite Ht2, Hcu2. split_and!; try done.
  - by etrans.
  - intros x. rewrite Hx2, Hx1. set_solver.
Qed.
#[global] Arguments tasks : simpl never.
#[global] Arguments leave : simpl never.
#[global] Arguments hev_task_run : simpl never.
