(* ===== verification/HevTunnel.v ===== *)
(** The tasks of the tunnel (hev-socks5-tunnel.c, hev-socks5-session.c): the event
    task, which serves a stop request, the task that reads the device, the timer
    task and the sessions; the mutex they call lwIP under (hev-task-mutex.c).

    Tasks are cooperative: between two points where a task yields nothing else
    runs.  A task is given by the place in its code where it stands; [exec] runs
    it to its next place, and asks the environment, in [answer], for what the
    calls on the way return.  lwIP is not modelled: what it does in a call is a
    list of the handlers it runs and of packets it gives to the device. *)
From S2P Require Import Prelude HevList HevSched.

(** * What the environment decides *)
Inductive effect : Type :=
  | Output (blocks : nat)              (* a packet; how often the device has no room for it *)
  | Accepted (err : Z) (new_ok task_ok : bool)     (* a TCP connection, and what the allocator says *)
  | Datagram (new_ok task_ok : bool)               (* the first datagram of a UDP flow *)
  | Closed (id : positive)             (* lwIP reports the end of a session's connection; *)
  | Traffic (id : positive).           (* it has data or room for one: no effect unless the session is there *)
Inductive reading : Type := Again | ReadError | Packet (fx : list effect).
(** What a session does next, up to a point where others may run. *)
Inductive action : Type :=
  | DoYield
  | DoWait                             (* in hev_socks5_task_io_yielder *)
  | DoConnected                        (* hev_socks5_client_connect has returned 0 *)
  | DoCall (fx : list effect)          (* lwIP, under the mutex *)
  | DoReturn.                          (* hev_socks5_session_run returns *)
Record answer : Type := Answer {
  a_alloc : bool;                      (* pbuf_alloc *)
  a_read : reading;
  a_fx : list effect;                  (* tcp_tmr and the like, or tcp_abort *)
  a_do : action;
  a_left : bool                        (* whether a task woken from its sleep had time left *)
}.

(** * Places *)
Inductive section : Type :=
  | IoAlloc | IoInput (fx : list effect) | TmTick (fx : list effect)
  | SsCall (connected : bool) (fx : list effect) | SsDestruct (fx : list effect).
Inductive place : Type :=
  | EvRead
  | IoTop | IoAllocated | IoRead | IoWoken
  | TmStart | TmTop | TmCheck (slept : bool)
  | SsStart | SsBody (connected : bool) | SsSlept (connected expired : bool) | SsDel | SsFree
  | Lock (k : section) | LockWait (k : section)            (* hev_task_mutex_lock, and its loop *)
  | In (k : section) (fx : list effect) | InWait (k : section) (fx : list effect)   (* the mutex is held *)
  | Wedged (k : section).                                   (* in the loop, but the mutex is its own *)

(** The effects of lwIP in a section, and where its task goes on. *)
Definition effects (k : section) : list effect :=
  match k with IoAlloc => [] | IoInput fx | TmTick fx | SsCall _ fx | SsDestruct fx => fx end.
Definition after (k : section) : place :=
  match k with
  | IoAlloc => IoAllocated | IoInput _ => IoTop | TmTick _ => TmTop | SsCall c _ => SsBody c | SsDestruct _ => SsFree
  end.

(** * State

    The static variables of hev-socks5-tunnel.c; [event_fd] is [event_fds[1]],
    [event_pipe] what was written to it; [locker] and [waiters] are the mutex.
    [node_mem] and [timeouts] are the members of the sessions that exist. *)
Record tunnel : Type := Tunnel {
  sys : HevTaskSystemContext;
  places : gmap tid place;
  run : bool;
  event_fd : Z;
  event_pipe : Z;
  locker : bool;
  waiters : list tid;
  session_set : HevList;
  node_mem : nodes;
  timeouts : gmap positive Z
}.
Definition set_sys v s := Tunnel v (places s) (run s) (event_fd s) (event_pipe s) (locker s) (waiters s) (session_set s) (node_mem s) (timeouts s).
Definition set_places v s := Tunnel (sys s) v (run s) (event_fd s) (event_pipe s) (locker s) (waiters s) (session_set s) (node_mem s) (timeouts s).
Definition set_run v s := Tunnel (sys s) (places s) v (event_fd s) (event_pipe s) (locker s) (waiters s) (session_set s) (node_mem s) (timeouts s).
Definition set_pipe v s := Tunnel (sys s) (places s) (run s) (event_fd s) v (locker s) (waiters s) (session_set s) (node_mem s) (timeouts s).
Definition set_mutex l w s := Tunnel (sys s) (places s) (run s) (event_fd s) (event_pipe s) l w (session_set s) (node_mem s) (timeouts s).
Definition set_list l m s := Tunnel (sys s) (places s) (run s) (event_fd s) (event_pipe s) (locker s) (waiters s) l m (timeouts s).
Definition set_timeouts v s := Tunnel (sys s) (places s) (run s) (event_fd s) (event_pipe s) (locker s) (waiters s) (session_set s) (node_mem s) v.
Definition set_place (t : tid) (p : place) (s : tunnel) : tunnel := set_places (<[t := p]> (places s)) s.

Definition hev_task_wakeup (t : tid) (s : tunnel) : res tunnel :=
  c ← hev_task_system_wakeup_task t (sys s); mret (set_sys c s).

(** Where a task goes. *)
Inductive next_place : Type := Goto (p : place) | Yield (p : place) | WaitIO (p : place) | Exit.

(** * hev-task-mutex.c

    The waiters form a stack: a task that finds the mutex taken puts itself on
    top, and takes the mutex when it is woken, the mutex free and itself on top. *)
Definition hev_task_mutex_lock (t : tid) (k : section) (s : tunnel) : next_place * tunnel :=
  if locker s then (WaitIO (LockWait k), set_mutex true (t :: waiters s) s)
  else (Goto (In k (effects k)), set_mutex true (waiters s) s).
Definition hev_task_mutex_lock_loop (t : tid) (k : section) (s : tunnel) : next_place * tunnel :=
  if locker s || negb (bool_decide (List.hd_error (waiters s) = Some t)) then (WaitIO (LockWait k), s)
  else (Goto (In k (effects k)), set_mutex true (List.tl (waiters s)) s).
Definition hev_task_mutex_unlock (s : tunnel) : res tunnel :=
  let s := set_mutex false (waiters s) s in
  match waiters s with [] => mret s | t :: _ => hev_task_wakeup t s end.

(** * Sessions *)
Definition hev_socks5_set_timeout (id : positive) (timeout : Z) (s : tunnel) : tunnel :=
  set_timeouts (<[id := timeout]> (timeouts s)) s.
Definition hev_socks5_session_terminate (id : positive) (s : tunnel) : res tunnel :=
  hev_task_wakeup (TSession id) (hev_socks5_set_timeout id 0 s).

(** [hev_malloc0] and the constructors, as far as they concern these tasks. *)
Definition session_new (s : tunnel) : positive * tunnel :=
  let id := fresh (dom (timeouts s)) in
  (id, set_timeouts (<[id := -1]> (timeouts s)) (set_list (session_set s) (<[id := Node None None]> (node_mem s)) s)).
Definition session_free (id : positive) (s : tunnel) : tunnel :=
  set_timeouts (delete id (timeouts s)) (set_list (session_set s) (delete id (node_mem s)) s).

Definition start_session (id : positive) (s : tunnel) : res tunnel :=
  '(l, m) ← hev_list_add_tail (session_set s) id (node_mem s);
  let s := set_list l m s in
  let s := set_place (TSession id) SsStart (set_sys (hev_task_run (TSession id) HEV_TASK_PRIORITY_DEFAULT (sys s)) s) in
  hev_task_wakeup TTimer s.
(** [t] is the task that called lwIP and holds the mutex, which the destructor of
    the session locks. *)
Definition unref_new_session (t : tid) (k : section) (s : tunnel) : option place * tunnel :=
  (Some (Wedged k), set_mutex true (t :: waiters s) s).
Definition tcp_accept_handler (t : tid) (k : section) (err : Z) (new_ok task_ok : bool) (s : tunnel) : res (option place * tunnel) :=
  if negb (err =? 0) then mret (None, s) else
  if negb new_ok then mret (None, s) else
  let '(id, s) := session_new s in
  if negb task_ok then mret (unref_new_session t k s) else
  s ← start_session id s;
  mret (None, s).
Definition udp_recv_handler (t : tid) (k : section) (new_ok task_ok : bool) (s : tunnel) : res (option place * tunnel) :=
  if negb new_ok then mret (None, s) else
  let '(id, s) := session_new s in
  if negb task_ok then mret (unref_new_session t k s) else
  s ← start_session id s;
  mret (None, s).

(** * Calls of lwIP *)

(** [hev_tunnel_write] under [netif_output_handler], with its [task_io_yielder],
    which gives up when the tunnel stops. *)
Definition netif_output (k : section) (blocks : nat) (fx : list effect) : next_place :=
  match blocks with O => Goto (In k fx) | S n => WaitIO (InWait k (Output n :: fx)) end.
Definition task_io_yielder (s : tunnel) : Z := if run s then 0 else -1.

Definition lwip (t : tid) (k : section) (fx : list effect) (s : tunnel) : res (next_place * tunnel) :=
  match fx with
  | [] => s ← hev_task_mutex_unlock s; mret (Goto (after k), s)
  | Output n :: fx => mret (netif_output k n fx, s)
  | Accepted err new_ok task_ok :: fx =>
      '(w, s) ← tcp_accept_handler t k err new_ok task_ok s;
      mret (match w with Some p => WaitIO p | None => Goto (In k fx) end, s)
  | Datagram new_ok task_ok :: fx =>
      '(w, s) ← udp_recv_handler t k new_ok task_ok s;
      mret (match w with Some p => WaitIO p | None => Goto (In k fx) end, s)
  | Closed id :: fx =>
      s ← (if bool_decide (is_Some (places s !! TSession id)) then hev_socks5_session_terminate id s else mret s);
      mret (Goto (In k fx), s)
  | Traffic id :: fx =>
      s ← (if bool_decide (is_Some (places s !! TSession id)) then hev_task_wakeup (TSession id) s else mret s);
      mret (Goto (In k fx), s)
  end.

(** * The tasks *)
Fixpoint terminate_loop (fuel : nat) (node : option positive) (s : tunnel) : res tunnel :=
  match node with
  | None => mret s
  | Some id =>
      match fuel with
      | O => Fault OutOfFuel
      | S k =>
          s ← hev_socks5_session_terminate id s;
          node ← hev_list_node_next (node_mem s) id;
          terminate_loop k node s
      end
  end.
Definition event_task_entry (s : tunnel) : res (next_place * tunnel) :=
  if event_pipe s <=? 0 then mret (WaitIO EvRead, s) else
  let s := set_run false (set_pipe (event_pipe s - 1) s) in
  s ← hev_task_wakeup TIo s;
  s ← hev_task_wakeup TTimer s;
  s ← terminate_loop (S (size (node_mem s))) (hev_list_first (session_set s)) s;
  mret (Exit, s).

(** The loop of [lwip_io_task_entry]; its calls of lwIP are in [lwip]. *)
Definition lwip_io_task_entry (p : place) (a : answer) (s : tunnel) : next_place :=
  match p with
  | IoTop => if run s then Goto (Lock IoAlloc) else Exit
  | IoAllocated => if a_alloc a then Goto IoRead else WaitIO IoTop
  | IoRead =>
      match a_read a with
      | Again => WaitIO IoWoken
      | ReadError => Goto IoTop
      | Packet fx => Goto (Lock (IoInput fx))
      end
  | IoWoken => if task_io_yielder s =? 0 then Goto IoRead else Goto IoTop
  | _ => Exit
  end.

Definition lwip_timer_task_entry (p : place) (a : answer) (s : tunnel) : next_place :=
  match p with
  | TmCheck _ => if run s then Goto (Lock (TmTick (a_fx a))) else Exit
  | _ => WaitIO (TmCheck (match hev_list_first (session_set s) with Some _ => true | None => false end))
  end.

Section Sessions.
(** [misc_connect_timeout] and [misc_read_write_timeout] of the configuration. *)
Context (connect_timeout read_write_timeout : Z).

(** [hev_socks5_task_io_yielder] for [HEV_TASK_WAITIO]. *)
Definition session_wait (connected : bool) (timeout : Z) : next_place :=
  if timeout <? 0 then WaitIO (SsBody connected)
  else if timeout =? 0 then Goto SsDel else WaitIO (SsSlept connected false).

(** [hev_socks5_session_task_entry] with [hev_socks5_session_run]. *)
Definition hev_socks5_session_task_entry (id : positive) (p : place) (a : answer) (s : tunnel) : res (next_place * tunnel) :=
  match p with
  | SsStart => mret (Goto (SsBody false), hev_socks5_set_timeout id connect_timeout s)
  | SsBody connected =>
      match a_do a with
      | DoYield => mret (Yield (SsBody connected), s)
      | DoWait => mret (session_wait connected (default 0 (timeouts s !! id)), s)
      | DoConnected => mret (Goto (SsBody true), if connected then s else hev_socks5_set_timeout id read_write_timeout s)
      | DoCall fx => mret (Goto (Lock (SsCall connected fx)), s)
      | DoReturn => mret (Goto SsDel, s)
      end
  | SsSlept connected expired => mret (if negb expired && a_left a then Goto (SsBody connected) else Goto SsDel, s)
  | SsDel =>
      '(l, m) ← hev_list_del (session_set s) id (node_mem s);
      mret (Goto (Lock (SsDestruct (a_fx a))), set_list l m s)
  | SsFree => mret (Exit, session_free id s)
  | _ => mret (Exit, s)
  end.

(** From a place to the next. *)
Definition exec (t : tid) (p : place) (a : answer) (s : tunnel) : res (next_place * tunnel) :=
  match p with
  | Lock k => mret (hev_task_mutex_lock t k s)
  | LockWait k => mret (hev_task_mutex_lock_loop t k s)
  | Wedged k => mret (WaitIO (Wedged k), s)
  | In k fx => lwip t k fx s
  | InWait k fx => mret (Goto (In k (if task_io_yielder s =? 0 then fx else List.tl fx)), s)
  | _ =>
      match t with
      | TEvent => event_task_entry s
      | TIo => mret (lwip_io_task_entry p a s, s)
      | TTimer => mret (lwip_timer_task_entry p a s, s)
      | TSession id => hev_socks5_session_task_entry id p a s
      end
  end.
Definition settle (t : tid) (n : next_place) (s : tunnel) : tunnel :=
  match n with
  | Goto p => set_place t p s
  | Yield p => set_sys (leave HEV_TASK_YIELD t (sys s)) (set_place t p s)
  | WaitIO p => set_sys (leave HEV_TASK_WAITIO t (sys s)) (set_place t p s)
  | Exit => set_sys (leave HEV_TASK_SCHED_REMOVE t (sys s)) (set_places (delete t (places s)) s)
  end.

(** * The system *)

(** Which waiting tasks a poll may find: an event of a descriptor of the task, or
    the end of its sleep.  The timer task has no descriptor. *)
Definition sleeps (p : place) : bool := match p with IoTop => true | TmCheck b => b | SsSlept _ _ => true | _ => false end.
Definition has_event (t : tid) (s : tunnel) : bool :=
  match t with TEvent => 0 <? event_pipe s | TTimer => false | TIo | TSession _ => true end.
Definition ready_ok (s : tunnel) (x : tid * bool) : bool :=
  let '(t, expired) := x in
  match task_table (sys s) !! t, places s !! t with
  | Some k, Some p => negb (running k) && (if (expired : bool) then sleeps p else has_event t s)
  | _, _ => false
  end.
Definition note_expired (x : tid * bool) (m : gmap tid place) : gmap tid place :=
  let '(t, expired) := x in
  if expired then alter (fun p => match p with SsSlept c _ => SsSlept c true | _ => p end) t m else m.

Inductive choice : Type :=
  | Exec (a : answer)
  | Schedule (ready : list (tid * bool))
  | Stop.                              (* hev_socks5_tunnel_stop, in another thread *)

Definition hev_socks5_tunnel_stop (s : tunnel) : tunnel :=
  if event_fd s =? -1 then s else set_pipe (event_pipe s + 1) s.

Definition enabled (c : choice) (s : tunnel) : bool :=
  match c with
  | Exec _ => bool_decide (is_Some (current_task (sys s)))
  | Schedule ready =>
      bool_decide (current_task (sys s) = None) && forallb (ready_ok s) ready &&
      negb (bool_decide (running_tasks (sys s) = []) && bool_decide (ready = []))
  | Stop => true
  end.
Definition step (c : choice) (s : tunnel) : res tunnel :=
  match c with
  | Exec a =>
      match current_task (sys s) with
      | Some t =>
          match places s !! t with
          | Some p => '(n, s) ← exec t p a s; mret (settle t n s)
          | None => Fault NullDeref
          end
      | None => Fault NullDeref
      end
  | Schedule ready =>
      sc ← hev_task_system_pick_current_task (map fst ready) (sys s);
      mret (set_sys sc (set_places (foldr note_expired (places s) ready) s))
  | Stop => mret (hev_socks5_tunnel_stop s)
  end.

(** [hev_socks5_tunnel_run] up to [hev_task_system_run]; [event_fd] is open. *)
Definition hev_socks5_tunnel_run (fd : Z) : tunnel :=
  let c := hev_task_run TEvent HEV_TASK_PRIORITY_DEFAULT (Ctx None [] ∅) in
  let c := hev_task_run TIo HEV_TASK_PRIORITY_REALTIME c in
  let c := hev_task_run TTimer HEV_TASK_PRIORITY_REALTIME c in
  Tunnel c (<[TEvent := EvRead]> (<[TIo := IoTop]> {[TTimer := TmStart]})) true fd 0 false [] (HList None None) ∅ ∅.

(** All tasks have ended: [hev_task_system_run] returns. *)
Definition finished (s : tunnel) : bool := bool_decide (task_table (sys s) = ∅) && bool_decide (current_task (sys s) = None).

(** The states reached with choices of a kind. *)
Inductive reachable (kind : choice -> Prop) (fd : Z) : tunnel -> Prop :=
  | reach_init : reachable kind fd (hev_socks5_tunnel_run fd)
  | reach_step s c s' : reachable kind fd s -> kind c -> enabled c s = true -> step c s = Ok s' -> reachable kind fd s'.
Fixpoint run_choices (l : list choice) (s : tunnel) : res tunnel :=
  match l with
  | [] => mret s
  | c :: l => if enabled c s then s ← step c s; run_choices l s else Fault Uninit
  end.
End Sessions.
