(* ===== verification/HevTunnelInv.v ===== *)
(** The invariant of the tunnel's tasks: what holds whenever a task is about to run
    to its next place, whatever the environment does. *)
From S2P Require Import Prelude HevList HevSched HevTunnel.

(** * Places *)

(** Where a task can be while another runs; where it holds the mutex; where it is
    among the waiters; where a session is in the set. *)
Definition yielded (p : place) : bool :=
  match p with
  | IoAllocated | IoRead | TmTop | SsDel | SsFree | Lock _ | In _ _ => false
  | _ => true
  end.
Definition holds (p : place) : bool := match p with In _ _ | InWait _ _ | Wedged _ => true | _ => false end.
Definition queued (p : place) : bool := match p with LockWait _ | Wedged _ => true | _ => false end.
Definition listed (p : place) : bool :=
  match p with
  | SsFree | Lock (SsDestruct _) | LockWait (SsDestruct _) | In (SsDestruct _) _ | InWait (SsDestruct _) _ | Wedged (SsDestruct _) => false
  | _ => true
  end.
Definition section_fits (t : tid) (k : section) : bool :=
  match t, k with
  | TIo, (IoAlloc | IoInput _) | TTimer, TmTick _ | TSession _, (SsCall _ _ | SsDestruct _) => true
  | _, _ => false
  end.
Definition fits (t : tid) (p : place) : bool :=
  match p with
  | Lock k | LockWait k | In k _ | InWait k _ | Wedged k => section_fits t k
  | EvRead => match t with TEvent => true | _ => false end
  | IoTop | IoAllocated | IoRead | IoWoken => match t with TIo => true | _ => false end
  | TmStart | TmTop | TmCheck _ => match t with TTimer => true | _ => false end
  | SsStart | SsBody _ | SsSlept _ _ | SsDel | SsFree => match t with TSession _ => true | _ => false end
  end.

Record inv (s : tunnel) : Prop := {
  i_ctx : ctx_ok (sys s);
  i_dom : dom (places s) = tasks (sys s);
  i_fit : forall t p, places s !! t = Some p -> fits t p = true;
  i_yield : forall t p, places s !! t = Some p -> yielded p = false -> current_task (sys s) = Some t;
  i_hold : forall t p, places s !! t = Some p -> holds p = true -> locker s = true;
  i_one : forall t p t' p', places s !! t = Some p -> holds p = true -> places s !! t' = Some p' -> holds p' = true -> t' = t;
  i_lock : locker s = true -> exists t p, places s !! t = Some p /\ holds p = true;
  i_nodup : NoDup (waiters s);
  i_wait : forall t, t ∈ waiters s <-> exists p, places s !! t = Some p /\ queued p = true;
  i_top : locker s = false -> forall t, List.hd_error (waiters s) = Some t -> t ∈ running_tasks (sys s);
  i_list : exists L, dlist (node_mem s) L (session_set s) /\
    forall id, id ∈ L <-> exists p, places s !! TSession id = Some p /\ listed p = true;
  i_obj : dom (node_mem s) = dom (timeouts s) /\ forall id, is_Some (places s !! TSession id) -> id ∈ dom (timeouts s);
  i_tasks : run s = true -> is_Some (places s !! TIo) /\ is_Some (places s !! TTimer)
}.

(** * Steps that keep it *)

(** A task goes to a place of the same kind. *)
Lemma inv_goto s t p p' : inv s -> current_task (sys s) = Some t -> places s !! t = Some p ->
  fits t p' = true -> holds p' = holds p -> queued p' = queued p -> (forall id, t = TSession id -> listed p' = listed p) ->
  inv (set_place t p' s).
Proof.
  intros [] Hc Hp Hf Hh Hq Hl.
  assert (E : forall t' q, places (set_place t p' s) !! t' = Some q -> exists q', places s !! t' = Some q' /\ holds q = holds q' /\ queued q = queued q').
  { intros t' q. cbn. destruct (decide (t' = t)) as [->|]; [rewrite lookup_insert_eq; intros [= <-]; eauto|rewrite lookup_insert_ne by done; eauto]. }
  assert (E' : forall t' q', places s !! t' = Some q' -> exists q, places (set_place t p' s) !! t' = Some q /\ holds q = holds q' /\ queued q = queued q').
  { intros t' q' H. cbn. destruct (decide (t' = t)) as [->|]; [rewrite lookup_insert_eq; exists p'; split; [done|]; naive_solver|rewrite lookup_insert_ne by done; eauto]. }
  assert (Es : forall t', is_Some (places (set_place t p' s) !! t') <-> is_Some (places s !! t')).
  { intros t'. cbn. destruct (decide (t' = t)) as [->|]; [rewrite lookup_insert_eq, Hp; split; eauto|by rewrite lookup_insert_ne]. }
  split; cbn [sys run locker waiters session_set node_mem timeouts set_place set_places]; try done.
  - cbn. rewrite dom_insert_lookup_L; [done|eauto].
  - intros t' q. cbn. destruct (decide (t' = t)) as [->|]; [rewrite lookup_insert_eq; by intros [= <-]|rewrite lookup_insert_ne by done; eauto].
  - intros t' q. cbn. destruct (decide (t' = t)) as [->|]; [done|rewrite lookup_insert_ne by done; eauto].
  - intros t1 q1 (q1' & H1 & E1 & _)%E Hq1. eapply i_hold0; [done|congruence].
  - intros t1 q1 t2 q2 (q1' & H1 & E1 & _)%E Hq1 (q2' & H2 & E2 & _)%E Hq2. apply (i_one0 t1 q1' t2 q2'); congruence.
  - intros (t1 & q1 & (q1' & H1 & E1 & _)%E' & Hq1)%i_lock0. exists t1, q1'. split; [done|congruence].
  - intros t1. rewrite i_wait0. split.
    + intros (q1 & (q1' & H1 & _ & E1)%E' & Hq1). exists q1'. split; [done|congruence].
    + intros (q1 & (q1' & H1 & _ & E1)%E & Hq1). exists q1'. split; [done|congruence].
  - destruct i_list0 as (L & Hd & HL). exists L. split; [done|]. intros id. rewrite HL. cbn.
    destruct (decide (TSession id = t)) as [<-|]; [rewrite lookup_insert_eq, Hp|by rewrite lookup_insert_ne].
    specialize (Hl id eq_refl). split; intros (q & [= <-] & Hql); eexists; (split; [done|congruence]).
  - destruct i_obj0 as [H1 H2]. split; [done|]. intros id H%Es. by apply H2.
  - rewrite !Es. done.
Qed.

Lemma inv_wakeup s t : inv s -> is_Some (places s !! t) ->
  exists c, hev_task_wakeup t s = Ok (set_sys c s) /\ inv (set_sys c s) /\ current_task c = current_task (sys s) /\
    tasks c = tasks (sys s) /\ running_tasks (sys s) `sublist_of` running_tasks c /\
    forall x, x ∈ running_tasks c <-> x = t \/ x ∈ running_tasks (sys s).
Proof.
  intros [] Ht. assert (Ht' : t ∈ tasks (sys s)) by (rewrite <- i_dom0; by apply elem_of_dom).
  destruct (wakeup_ok _ _ i_ctx0 Ht') as (c & E & Hc & Hd & Hcu & Hs & Hx). exists c. unfold hev_task_wakeup. rewrite E. split; [done|].
  split; [|by split_and!]. split; cbn; try done.
  - congruence.
  - rewrite Hcu. done.
  - intros Hl x Hh. apply Hx. right. by apply i_top0.
Qed.

(** Unlocking at the end of a section. *)
Lemma inv_unlock s t k : inv s -> current_task (sys s) = Some t -> places s !! t = Some (In k []) ->
  exists s', hev_task_mutex_unlock s = Ok s' /\ inv (set_place t (after k) s') /\ current_task (sys s') = Some t /\
    places s' = places s /\ run s' = run s /\ running_tasks (sys s) `sublist_of` running_tasks (sys s').
Proof.
  intros Hinv Hc Hp. pose proof Hinv as []. unfold hev_task_mutex_unlock. cbn [waiters set_mutex].
  pose proof (i_fit0 _ _ Hp) as Hf. cbn in Hf.
  assert (Hout : forall t' q, <[t := after k]> (places s) !! t' = Some q -> holds q = true -> False).
  { intros t' q. destruct (decide (t' = t)) as [->|Hne].
    - rewrite lookup_insert_eq. intros [= <-]. by destruct k.
    - rewrite lookup_insert_ne by done. intros Hq Hh. apply Hne. by eapply (i_one0 t (In k []) t' q). }
  assert (Hw : forall t', (exists p, <[t := after k]> (places s) !! t' = Some p /\ queued p = true) <-> exists p, places s !! t' = Some p /\ queued p = true).
  { intros t'. destruct (decide (t' = t)) as [->|Hne]; [|by rewrite lookup_insert_ne]. rewrite lookup_insert_eq, Hp.
    split; intros (q & [= <-] & Hq); [by destruct k|done]. }
  assert (Hs : forall t', is_Some (<[t := after k]> (places s) !! t') <-> is_Some (places s !! t')).
  { intros t'. destruct (decide (t' = t)) as [->|]; [rewrite lookup_insert_eq, Hp; split; eauto|by rewrite lookup_insert_ne]. }
  assert (Hkeep : forall c, ctx_ok c -> tasks c = tasks (sys s) -> current_task c = Some t ->
    (forall x, List.hd_error (waiters s) = Some x -> x ∈ running_tasks c) ->
    inv (set_place t (after k) (set_sys c (set_mutex false (waiters s) s)))).
  { intros c Hco Htc Hcu Htop. split; cbn; try done.
    - rewrite Htc, dom_insert_lookup_L; [done|eauto].
    - intros t' q. destruct (decide (t' = t)) as [->|]; [rewrite lookup_insert_eq; intros [= <-]; destruct t, k; done|rewrite lookup_insert_ne by done; eauto].
    - intros t' q. rewrite Hcu. destruct (decide (t' = t)) as [->|]; [done|rewrite lookup_insert_ne by done]. intros Hq Hy. rewrite <- Hc. by eapply i_yield0.
    - intros t' q Hq Hh. by destruct (Hout t' q Hq Hh).
    - intros t1 q1 t2 q2 Hq1 Hh1. by destruct (Hout t1 q1 Hq1 Hh1).
    - intros t'. rewrite Hw. apply i_wait0.
    - destruct i_list0 as (L & Hd & HL). exists L. split; [done|]. intros id. rewrite HL.
      destruct (decide (TSession id = t)) as [<-|]; [rewrite lookup_insert_eq, Hp|by rewrite lookup_insert_ne].
      split; intros (q & [= <-] & Hq); eexists; (split; [done|]); by destruct k.
    - destruct i_obj0 as [H1 H2]. split; [done|]. intros id H%Hs. by apply H2.
    - rewrite !Hs. done. }
  destruct (waiters s) as [|w ws] eqn:Ew.
  - eexists. split; [reflexivity|]. split; [|done]. specialize (Hkeep (sys s) i_ctx0 eq_refl Hc ltac:(done)). by destruct s.
  - assert (Hwt : w ∈ tasks (sys s)).
    { rewrite <- i_dom0. apply elem_of_dom. destruct (proj1 (i_wait0 w)) as (q & Hq & _); [left|eauto]. }
    destruct (wakeup_ok _ _ i_ctx0 Hwt) as (c & E & Hco & Hd & Hcu & Hsub & Hx). unfold hev_task_wakeup. cbn [sys set_mutex]. rewrite E.
    eexists. split; [reflexivity|]. split; [|by rewrite <- Hc]. apply Hkeep; [done..|congruence|]. intros x [= <-]. apply Hx. by left.
Qed.

(** The current task leaves: waits or lets others run. *)
Lemma inv_leave s t p type : inv s -> current_task (sys s) = Some t -> places s !! t = Some p -> yielded p = true ->
  (locker s = false -> List.hd_error (waiters s) <> Some t) -> type <> HEV_TASK_SCHED_REMOVE ->
  inv (set_sys (leave type t (sys s)) s).
Proof.
  intros [] Hc Hp Hy Ht Hty. destruct (leave_ok (sys s) type t i_ctx0 (co_current _ i_ctx0 _ Hc)) as (Hco & Hcu & Hta & Hru).
  split; cbn; try done.
  - rewrite i_dom0, Hta. by destruct type.
  - intros t' q Hq Hy'. destruct (decide (t' = t)) as [->|Hne]; [congruence|]. specialize (i_yield0 t' q Hq Hy'). congruence.
  - intros Hl x Hx. apply Hru. left. split; [|by apply i_top0]. intros ->. by apply Ht.
Qed.

(** A waiter at a place that is among the waiters either way. *)
Lemma inv_push s t k k' : inv s -> current_task (sys s) = Some t -> section_fits t k' = true ->
  (exists p, places s !! t = Some p /\ queued p = false /\ (forall id, t = TSession id -> listed (LockWait k') = listed p) /\
    (p = Lock k' \/ exists fx, p = In k fx)) -> locker s = true ->
  let q := match places s !! t with Some (In _ _) => Wedged k' | _ => LockWait k' end in
  inv (set_place t q (set_mutex true (t :: waiters s) s)).
Proof.
  intros [] Hc Hk (p & Hp & Hqp & Hl & Hcase) Hlk q.
  assert (Hh : holds q = holds p /\ queued q = true /\ fits t q = true /\ listed q = listed (LockWait k') /\ yielded q = true).
  { unfold q. rewrite Hp. destruct Hcase as [->|[fx ->]]; done. }
  destruct Hh as (Hh & Hq & Hf & Hlq & Hy).
  assert (E : forall t' x, <[t := q]> (places s) !! t' = Some x -> (t' = t /\ x = q) \/ (t' <> t /\ places s !! t' = Some x)).
  { intros t' x. destruct (decide (t' = t)) as [->|]; [rewrite lookup_insert_eq; intros [= <-]; by left|rewrite lookup_insert_ne by done; by right]. }
  assert (Es : forall t', is_Some (<[t := q]> (places s) !! t') <-> is_Some (places s !! t')).
  { intros t'. destruct (decide (t' = t)) as [->|]; [rewrite lookup_insert_eq, Hp; split; eauto|by rewrite lookup_insert_ne]. }
  split; cbn; try done.
  - rewrite dom_insert_lookup_L; [done|eauto].
  - intros t' x [(-> & ->)|(_ & H)]%E; eauto.
  - intros t' x [(-> & ->)|(_ & H)]%E Hyx; eauto.
  - intros t1 x1 t2 x2 [(-> & ->)|(_ & H1)]%E Hh1 [(-> & ->)|(_ & H2)]%E Hh2; [done|..|by eapply (i_one0 t1 x1 t2 x2)].
    + apply (i_one0 t p t2 x2); congruence.
    + apply (i_one0 t1 x1 t p); congruence.
  - intros _. destruct (i_lock0 Hlk) as (t1 & x1 & H1 & Hh1). destruct (decide (t1 = t)) as [->|Hne].
    + exists t, q. rewrite lookup_insert_eq. split; [done|congruence].
    + exists t1, x1. by rewrite lookup_insert_ne.
  - constructor; [|done]. rewrite i_wait0. intros (x & Hx & Hqx). congruence.
  - intros t'. rewrite elem_of_cons, i_wait0. destruct (decide (t' = t)) as [->|Hne].
    + rewrite lookup_insert_eq. split; [eauto|by left].
    + rewrite lookup_insert_ne by done. naive_solver.
  - destruct i_list0 as (L & Hd & HL). exists L. split; [done|]. intros id. rewrite HL.
    destruct (decide (TSession id = t)) as [<-|]; [rewrite lookup_insert_eq, Hp|by rewrite lookup_insert_ne].
    specialize (Hl id eq_refl). split; intros (x & [= <-] & Hx); eexists; (split; [done|congruence]).
  - destruct i_obj0 as [H1 H2]. split; [done|]. intros id H%Es. by apply H2.
  - rewrite !Es. done.
Qed.

(** Taking the mutex: at once, or as the topmost waiter. *)
Lemma inv_take s t p k fx ws : inv s -> current_task (sys s) = Some t -> places s !! t = Some p -> locker s = false ->
  section_fits t k = true -> (forall id, t = TSession id -> listed (Lock k) = listed p) ->
  (queued p = false /\ ws = waiters s \/ queued p = true /\ waiters s = t :: ws) ->
  inv (set_place t (In k fx) (set_mutex true ws s)).
Proof.
  intros [] Hc Hp Hlk Hk Hl Hw.
  assert (E : forall t' x, <[t := In k fx]> (places s) !! t' = Some x -> (t' = t /\ x = In k fx) \/ (t' <> t /\ places s !! t' = Some x)).
  { intros t' x. destruct (decide (t' = t)) as [->|]; [rewrite lookup_insert_eq; intros [= <-]; by left|rewrite lookup_insert_ne by done; by right]. }
  assert (Es : forall t', is_Some (<[t := In k fx]> (places s) !! t') <-> is_Some (places s !! t')).
  { intros t'. destruct (decide (t' = t)) as [->|]; [rewrite lookup_insert_eq, Hp; split; eauto|by rewrite lookup_insert_ne]. }
  assert (Hno : forall t' x, places s !! t' = Some x -> holds x = true -> False) by (intros t' x H Hh; specialize (i_hold0 t' x H Hh); congruence).
  split; cbn; try done.
  - rewrite dom_insert_lookup_L; [done|eauto].
  - intros t' x [(-> & ->)|(_ & H)]%E; eauto.
  - intros t' x [(-> & ->)|(_ & H)]%E Hyx; [done|eauto].
  - intros t1 x1 t2 x2 [(-> & ->)|(_ & H1)]%E Hh1 [(-> & ->)|(_ & H2)]%E Hh2; try done; exfalso; eauto.
  - intros _. exists t, (In k fx). by rewrite lookup_insert_eq.
  - destruct Hw as [(_ & ->)|(_ & Ew)]; [done|]. rewrite Ew in i_nodup0. by apply NoDup_cons in i_nodup0 as [_ ?].
  - intros t'. destruct (decide (t' = t)) as [->|Hne].
    + rewrite lookup_insert_eq. split; [|naive_solver]. intros Hin. exfalso. destruct Hw as [(Hq & ->)|(_ & Ew)].
      * apply i_wait0 in Hin as (x & Hx & Hqx). congruence.
      * rewrite Ew in i_nodup0. by apply NoDup_cons in i_nodup0 as [? _].
    + rewrite lookup_insert_ne by done. rewrite <- i_wait0. destruct Hw as [(_ & ->)|(_ & ->)]; [done|]. set_solver.
  - destruct i_list0 as (L & Hd & HL). exists L. split; [done|]. intros id. rewrite HL.
    destruct (decide (TSession id = t)) as [<-|]; [rewrite lookup_insert_eq, Hp|by rewrite lookup_insert_ne].
    specialize (Hl id eq_refl). split; intros (x & [= <-] & Hx); eexists; (split; [done|]); destruct k; naive_solver.
  - destruct i_obj0 as [H1 H2]. split; [done|]. intros id H%Es. by apply H2.
  - rewrite !Es. done.
Qed.

(** A task ends. *)
Lemma inv_exit s t p : inv s -> current_task (sys s) = Some t -> places s !! t = Some p -> holds p = false -> queued p = false ->
  (forall id, t = TSession id -> listed p = false) -> (run s = true -> t <> TIo /\ t <> TTimer) ->
  inv (settle t Exit s).
Proof.
  intros [] Hc Hp Hh Hq Hl Hrun.
  destruct (leave_ok (sys s) HEV_TASK_SCHED_REMOVE t i_ctx0 (co_current _ i_ctx0 _ Hc)) as (Hco & Hcu & Hta & Hru).
  assert (E : forall t' x, delete t (places s) !! t' = Some x -> t' <> t /\ places s !! t' = Some x).
  { intros t' x H. by apply lookup_delete_Some in H as [? ?]. }
  assert (Hne : forall t' x, places s !! t' = Some x -> holds x = true \/ queued x = true -> t' <> t) by (intros t' x H [?|?] ->; congruence).
  split; cbn; try done.
  - by rewrite dom_delete_L, i_dom0, Hta.
  - intros t' x [_ H]%E. eauto.
  - intros t' x [Hn H]%E Hy. specialize (i_yield0 t' x H Hy). congruence.
  - intros t' x [_ H]%E. eauto.
  - intros t1 x1 t2 x2 [_ H1]%E Hh1 [_ H2]%E Hh2. eauto.
  - intros (t1 & x1 & H1 & Hh1)%i_lock0. exists t1, x1. rewrite lookup_delete_ne by (intros ->; by eapply (Hne t1 x1); auto). done.
  - intros t'. rewrite i_wait0. split; intros (x & Hx & Hqx).
    + exists x. rewrite lookup_delete_ne by (intros ->; by eapply (Hne t' x); auto). done.
    + apply E in Hx as [_ Hx]. eauto.
  - intros Hlk x Hx. apply Hru. left. split; [|by apply i_top0].
    assert (Hw : x ∈ waiters s) by (destruct (waiters s); [done|]; injection Hx as ->; left).
    apply i_wait0 in Hw as (y & Hy & Hqy). by eapply (Hne x y); auto.
  - destruct i_list0 as (L & Hd & HL). exists L. split; [done|]. intros id. rewrite HL.
    destruct (decide (TSession id = t)) as [<-|]; [|by rewrite lookup_delete_ne].
    rewrite lookup_delete_eq, Hp. specialize (Hl id eq_refl). split; intros (x & Hx & Hlx); [injection Hx as <-; congruence|done].
  - destruct i_obj0 as [H1 H2]. split; [done|]. intros id [x [_ Hx]%E]. apply H2. eauto.
  - intros Hr. destruct (i_tasks0 Hr) as [? ?], (Hrun Hr) as [? ?]. by rewrite !lookup_delete_ne.
Qed.

(** What does not touch the places. *)
Lemma inv_pipe s n : inv s -> inv (set_pipe n s).
Proof. by intros []. Qed.
Lemma inv_run_off s : inv s -> inv (set_run false s).
Proof. by intros []. Qed.
Lemma tinv_timeout s id n : inv s -> is_Some (places s !! TSession id) -> inv (hev_socks5_set_timeout id n s).
Proof.
  intros [] H. destruct i_obj0 as [H1 H2]. split; cbn; try done. by rewrite dom_insert_lookup_L by (apply elem_of_dom; auto).
Qed.

(** The session that deletes itself from the set, and the end of its object. *)
Lemma inv_del s id fx : inv s -> current_task (sys s) = Some (TSession id) -> places s !! TSession id = Some SsDel ->
  exists l m, hev_list_del (session_set s) id (node_mem s) = Ok (l, m) /\
    inv (set_place (TSession id) (Lock (SsDestruct fx)) (set_list l m s)).
Proof.
  intros [] Hc Hp. destruct i_list0 as (L & Hd & HL).
  assert (Hin : id ∈ L) by (apply HL; eauto). apply list_elem_of_split in Hin as (l1 & l2 & ->).
  destruct (hev_list_del_ok _ _ _ _ _ Hd) as (l & m & E & Hd' & Hdom & _). exists l, m. split; [done|].
  pose proof (dl_nodup _ _ _ Hd) as Hn. apply NoDup_app in Hn as (_ & Hn1 & Hn2). apply NoDup_cons in Hn2 as [Hn2 _].
  set (q := Lock (SsDestruct fx)).
  assert (F : forall t' x, <[TSession id := q]> (places s) !! t' = Some x -> (t' = TSession id /\ x = q) \/ (t' <> TSession id /\ places s !! t' = Some x)).
  { intros t' x. destruct (decide (t' = TSession id)) as [->|]; [rewrite lookup_insert_eq; intros [= <-]; by left|rewrite lookup_insert_ne by done; by right]. }
  assert (Hne : forall t' x, places s !! t' = Some x -> holds x = true \/ queued x = true -> t' <> TSession id) by (intros t' x H [?|?] ->; naive_solver).
  split; cbn; try done.
  - rewrite dom_insert_lookup_L; [done|eauto].
  - intros t' x [(-> & ->)|(_ & H)]%F; eauto.
  - intros t' x [(-> & ->)|(_ & H)]%F Hy; eauto.
  - intros t' x [(-> & ->)|(_ & H)]%F Hy; [done|eauto].
  - intros t1 x1 t2 x2 [(-> & ->)|(_ & H1)]%F Hh1 [(-> & ->)|(_ & H2)]%F Hh2; try done. eauto.
  - intros (t1 & x1 & H1 & Hh1)%i_lock0. exists t1, x1. rewrite lookup_insert_ne by (intros <-; by eapply (Hne (TSession id) x1); auto). done.
  - intros t'. rewrite i_wait0. split; intros (x & Hx & Hqx).
    + exists x. rewrite lookup_insert_ne by (intros <-; by eapply (Hne (TSession id) x); auto). done.
    + apply F in Hx as [(_ & ->)|(_ & Hx)]; [done|eauto].
  - exists (l1 ++ l2). split; [done|]. intros i. destruct (decide (i = id)) as [->|Hi].
    + rewrite lookup_insert_eq. split; [set_solver|]. intros (x & [= <-] & ?). done.
    + rewrite lookup_insert_ne by congruence. rewrite <- HL. set_solver.
  - destruct i_obj0 as [H1 H2]. split; [congruence|]. intros i [x [([= ->] & _)|(_ & Hx)]%F]; apply H2; eauto.
  - intros Hr. rewrite !lookup_insert_ne by done. auto.
Qed.
Lemma dlist_delete m L l id : dlist m L l -> id ∉ L -> dlist (delete id m) L l.
Proof. intros [] H. split; try done. by apply dseg_delete. Qed.
Lemma inv_free s id : inv s -> current_task (sys s) = Some (TSession id) -> places s !! TSession id = Some SsFree ->
  inv (settle (TSession id) Exit (session_free id s)).
Proof.
  intros Hinv Hc Hp. pose proof (inv_exit s (TSession id) SsFree Hinv Hc Hp eq_refl eq_refl ltac:(done) ltac:(done)) as H.
  pose proof Hinv as Hinv'. destruct Hinv' as []. destruct H. split; cbn in *; try done.
  - destruct i_list0 as (L & Hd & HL). exists L. rewrite <- (proj1 i_obj0) in *.
    assert (Hnot : id ∉ L). { intros (x & Hx & Hl)%HL. naive_solver. }
    split; [by apply dlist_delete|]. intros i. rewrite HL. destruct (decide (i = id)) as [->|].
    + rewrite lookup_delete_eq, Hp. split; intros (x & ? & Hl); naive_solver.
    + rewrite lookup_delete_ne by congruence. done.
  - destruct i_obj0 as [H1 H2]. rewrite !dom_delete_L, H1. split; [done|]. intros i [x Hx]. apply lookup_delete_Some in Hx as [Hn Hx].
    apply elem_of_difference. split; [apply H2; eauto|]. rewrite elem_of_singleton. congruence.
Qed.

(** A new session. *)
Lemma inv_new s : inv s ->
  let '(id, s1) := session_new s in
  inv s1 /\ sys s1 = sys s /\ places s1 = places s /\ run s1 = run s /\ places s !! TSession id = None /\ id ∈ dom (timeouts s1).
Proof.
  intros []. unfold session_new. destruct i_obj0 as [H1 H2]. pose proof (is_fresh (dom (timeouts s))) as Hf.
  set (id := fresh (dom (timeouts s))) in *.
  assert (Hp : places s !! TSession id = None).
  { destruct (places s !! TSession id) eqn:E; [|done]. destruct Hf. apply H2. eauto. }
  split_and!; try done; [|cbn; rewrite dom_insert_L; set_solver].
  split; cbn; try done.
  - destruct i_list0 as (L & Hd & HL). exists L. split; [|done]. destruct Hd. split; try done. apply dseg_insert; [|done].
    intros (x & Hx & _)%HL. congruence.
  - rewrite !dom_insert_L, H1. split; [done|]. intros i Hi. apply elem_of_union. right. by apply H2.
Qed.
Lemma inv_start s id t : inv s -> current_task (sys s) = Some t -> id ∈ dom (timeouts s) -> places s !! TSession id = None ->
  match places s !! TTimer with
  | Some _ => exists c l m, start_session id s = Ok (set_sys c (set_place (TSession id) SsStart (set_list l m s))) /\
      inv (set_sys c (set_place (TSession id) SsStart (set_list l m s))) /\ current_task c = Some t /\
      running_tasks (sys s) `sublist_of` running_tasks c /\
      forall x, x ∈ running_tasks c <-> x = TTimer \/ x = TSession id \/ x ∈ running_tasks (sys s)
  | None => start_session id s = Fault AssertFail
  end.
Proof.
  intros [] Hc Hid Hp. destruct i_list0 as (L & Hd & HL), i_obj0 as [H1 H2].
  assert (Hnode : is_Some (node_mem s !! id)) by (apply elem_of_dom; by rewrite H1).
  assert (HnL : id ∉ L) by (intros (x & Hx & _)%HL; congruence).
  destruct (hev_list_add_tail_ok _ _ _ _ Hd Hnode HnL) as (l & m & E & Hd' & Hdom).
  assert (Hta : TSession id ∉ tasks (sys s)) by (rewrite <- i_dom0; by apply not_elem_of_dom).
  destruct (run_ok (sys s) (TSession id) HEV_TASK_PRIORITY_DEFAULT i_ctx0 Hta) as (Hco & Htk & Hcu & Hsub & Hru).
  set (s1 := set_place (TSession id) SsStart (set_sys (hev_task_run (TSession id) HEV_TASK_PRIORITY_DEFAULT (sys s)) (set_list l m s))).
  assert (F : forall t' x, <[TSession id := SsStart]> (places s) !! t' = Some x -> (t' = TSession id /\ x = SsStart) \/ places s !! t' = Some x).
  { intros t' x. destruct (decide (t' = TSession id)) as [->|]; [rewrite lookup_insert_eq; intros [= <-]; by left|rewrite lookup_insert_ne by done; by right]. }
  assert (Hne : forall t' x, places s !! t' = Some x -> TSession id <> t') by congruence.
  assert (Hs1 : inv s1).
  { split; cbn; try done.
    - by rewrite dom_insert_L, i_dom0, Htk.
    - intros t' x [(-> & ->)|H]%F; eauto.
    - intros t' x [(-> & ->)|H]%F Hy; [done|]. rewrite Hcu. eauto.
    - intros t' x [(-> & ->)|H]%F Hy; [done|]. eauto.
    - intros t1 x1 t2 x2 [(-> & ->)|Hx1]%F Hh1 [(-> & ->)|Hx2]%F Hh2; try done. eauto.
    - intros (t1 & x1 & Hx1 & Hh1)%i_lock0. exists t1, x1. rewrite lookup_insert_ne by eauto. done.
    - intros t'. rewrite i_wait0. split; intros (x & Hx & Hqx).
      + exists x. rewrite lookup_insert_ne by eauto. done.
      + apply F in Hx as [(_ & ->)|Hx]; [done|eauto].
    - intros Hlk x Hx. apply Hru. right. by apply i_top0.
    - exists (L ++ [id]). split; [done|]. intros i. destruct (decide (i = id)) as [->|Hi].
      + rewrite lookup_insert_eq. split; [by eauto|intros _; set_solver].
      + rewrite lookup_insert_ne by congruence. rewrite <- HL. set_solver.
    - split; [congruence|]. intros i [x [([= ->] & _)|Hx]%F]; [done|]. apply H2. eauto.
    - intros Hr. rewrite !lookup_insert_ne by done. auto. }
  assert (Estart : start_session id s = hev_task_wakeup TTimer s1) by (unfold start_session; by rewrite E).
  rewrite Estart. assert (Etm : places s1 !! TTimer = places s !! TTimer) by (cbn; by rewrite lookup_insert_ne).
  destruct (places s !! TTimer) as [p|] eqn:Et.
  - destruct (inv_wakeup s1 TTimer Hs1) as (c & Ew & Hi & Hcc & _ & Hsub' & Hx); [rewrite Etm; eauto|].
    exists c, l, m. rewrite Ew. split; [done|]. split; [exact Hi|]. split; [by rewrite Hcc, <- Hc|]. split; [etrans; [exact Hsub|exact Hsub']|].
    intros x. rewrite Hx. cbn. rewrite Hru. done.
  - unfold hev_task_wakeup. rewrite wakeup_stopped; [done|]. rewrite <- (i_dom _ Hs1). by apply not_elem_of_dom.
Qed.

(** * The handlers lwIP calls

    What they leave alone. *)
Definition kept (t : tid) (s s' : tunnel) : Prop :=
  current_task (sys s') = current_task (sys s) /\ places s' !! t = places s !! t /\ run s' = run s /\ locker s' = locker s /\
  waiters s' = waiters s /\ running_tasks (sys s) `sublist_of` running_tasks (sys s') /\
  forall t', (forall id, t' <> TSession id) -> places s' !! t' = places s !! t'.
Lemma kept_refl t s : kept t s s.
Proof. unfold kept. by split_and!. Qed.
Lemma kept_trans t s1 s2 s3 : kept t s1 s2 -> kept t s2 s3 -> kept t s1 s3.
Proof.
  intros (Ha & Hb & Hc & Hd & He & Hf & Hg) (Ia & Ib & Ic & Id & Ie & If & Ig). split_and!; try congruence; [by etrans|].
  intros t' Ht. by rewrite Ig, Hg.
Qed.
Lemma inv_terminate s t id : inv s -> is_Some (places s !! TSession id) ->
  exists s', hev_socks5_session_terminate id s = Ok s' /\ inv s' /\ kept t s s' /\ places s' = places s /\
    session_set s' = session_set s /\ node_mem s' = node_mem s /\ timeouts s' = <[id := 0]> (timeouts s) /\
    tasks (sys s') = tasks (sys s) /\ forall x, x ∈ running_tasks (sys s') <-> x = TSession id \/ x ∈ running_tasks (sys s).
Proof.
  intros Hi Hid. destruct (inv_wakeup _ (TSession id) (tinv_timeout _ id 0 Hi Hid) Hid) as (c & E & Hi' & Hc & Hta & Hsub & Hx).
  eexists. split; [exact E|]. split; [done|]. cbn. unfold kept. by split_and!.
Qed.

(** * A step *)
Definition ev_run (s : tunnel) : Prop := is_Some (places s !! TEvent) <-> run s = true.
Lemma settle_other t n s t' : t' <> t -> places (settle t n s) !! t' = places s !! t'.
Proof. intros H. destruct n; cbn; by rewrite ?lookup_insert_ne, ?lookup_delete_ne. Qed.
Lemma settle_run t n s : run (settle t n s) = run s.
Proof. by destruct n. Qed.

(** To another place, or waiting there. *)
Lemma inv_settle s t p p' n : inv s -> current_task (sys s) = Some t -> places s !! t = Some p ->
  fits t p' = true -> holds p' = holds p -> queued p' = queued p -> (forall id, t = TSession id -> listed p' = listed p) ->
  n = Goto p' \/ (yielded p' = true /\ (n = WaitIO p' \/ n = Yield p') /\ (queued p = true -> locker s = false -> List.hd_error (waiters s) <> Some t)) ->
  inv (settle t n s).
Proof.
  intros Hi Hc Hp Hf Hh Hq Hl Hn. pose proof (inv_goto s t p p' Hi Hc Hp Hf Hh Hq Hl) as Hg.
  destruct Hn as [->|(Hy & Hn & Hw)]; [done|].
  assert (Hwait : locker (set_place t p' s) = false -> List.hd_error (waiters (set_place t p' s)) <> Some t).
  { intros Hlk Hhd. cbn in *. assert (Hin : t ∈ waiters s) by (destruct (waiters s); [done|]; injection Hhd as ->; left).
    apply (i_wait _ Hi) in Hin as (x & Hx & Hqx). apply Hw; [congruence|done..]. }
  assert (Hpl : places (set_place t p' s) !! t = Some p') by (cbn; by rewrite lookup_insert_eq).
  destruct Hn as [-> | ->].
  - exact (inv_leave (set_place t p' s) t p' HEV_TASK_WAITIO Hg Hc Hpl Hy Hwait ltac:(done)).
  - exact (inv_leave (set_place t p' s) t p' HEV_TASK_YIELD Hg Hc Hpl Hy Hwait ltac:(done)).
Qed.

(** What a step may lead to: the program aborts only by waking a timer task that
    has ended. *)
Definition outcome (s : tunnel) (t : tid) (r : res (next_place * tunnel)) : Prop :=
  match r with
  | Ok (n, s') => inv (settle t n s') /\ ev_run (settle t n s')
  | Fault e => e = AssertFail /\ places s !! TTimer = None
  end.

Section Lwip.
Context (s : tunnel) (t : tid) (k : section) (fx : list effect) (e : effect).
Hypothesis Hi : inv s.
Hypothesis He : ev_run s.
Hypothesis Hc : current_task (sys s) = Some t.
Hypothesis Hp : places s !! t = Some (In k (e :: fx)).

Lemma lwip_fits : section_fits t k = true /\ t <> TEvent /\ locker s = true.
Proof.
  pose proof (i_fit _ Hi _ _ Hp) as Hf. cbn in Hf. split; [done|]. split; [intros ->; done|]. by apply (i_hold _ Hi _ _ Hp).
Qed.
Lemma lwip_next s' n : inv s' -> kept t s s' -> n = Goto (In k fx) \/ (exists e', n = WaitIO (InWait k (e' :: fx))) -> inv (settle t n s') /\ ev_run (settle t n s').
Proof.
  intros Hi' (Kc & Kp & Kr & Kl & Kw & Ks & Ko) Hn. destruct lwip_fits as (Hf & Ht & _). split.
  - eapply (inv_settle s' t (In k (e :: fx)) (match n with Goto p | Yield p | WaitIO p => p | Exit => EvRead end)); [done|congruence|congruence|..];
      destruct Hn as [->|[e' ->]]; try done; try (intros id _; by destruct k); [by left|right; split_and!; try done; by left].
  - unfold ev_run. rewrite settle_other, settle_run, Kr by done. rewrite Ko by done. exact He.
Qed.
Lemma lwip_new_session task_ok :
  let '(id, s1) := session_new s in
  match (if negb task_ok then mret (unref_new_session t k s1) else s2 ← start_session id s1; mret (None, s2)) : res (option place * tunnel) with
  | Ok (w, s') => outcome s t (Ok (match w with Some p => WaitIO p | None => Goto (In k fx) end, s'))
  | Fault e => outcome s t (Fault e)
  end.
Proof.
  pose proof (inv_new s Hi) as Hn. destruct (session_new s) as [id s1] eqn:E1. destruct Hn as (Hi1 & Es & Ep & Er & Hno & Hid).
  assert (Ew : waiters s1 = waiters s) by (injection E1 as <- <-; done). assert (El : locker s1 = locker s) by (injection E1 as <- <-; done).
  destruct lwip_fits as (Hf & Ht & Hlk).
  destruct task_ok; cbn [negb].
  - pose proof (inv_start s1 id t Hi1 ltac:(congruence) Hid ltac:(congruence)) as Hst. rewrite Ep in Hst.
    destruct (places s !! TTimer) eqn:Et; [|rewrite Hst; by split].
    destruct Hst as (c & l & m & E & Hi' & Hcc & Hsub & _). rewrite E. apply lwip_next; [exact Hi'| |by left].
    assert (Hne : t <> TSession id) by congruence. split_and!; try done; [by rewrite Hc|cbn; rewrite lookup_insert_ne, Ep by done; done|by rewrite <- Es|].
    intros t' Ht'. cbn. rewrite lookup_insert_ne, Ep by (intros <-; by eapply Ht'). done.
  - cbn [unref_new_session mret res_ret]. unfold outcome. split.
    + pose proof (inv_push s1 t k k Hi1 ltac:(congruence) Hf) as H. rewrite Ep, Hp in H. specialize (H ltac:(exists (In k (e :: fx)); split_and!; [done..|intros i _; by destruct k|right; by eexists]) ltac:(congruence)).
      cbn [settle]. apply (inv_leave _ t (Wedged k) HEV_TASK_WAITIO H); [cbn; congruence|cbn; by rewrite lookup_insert_eq|done|done|done].
    + unfold ev_run. rewrite settle_other, settle_run by done. cbn. rewrite Ep, Er. exact He.
Qed.
Lemma lwip_inv : outcome s t (lwip t k (e :: fx) s).
Proof.
  pose proof (kept_refl t s) as Hk. enough (H : forall e0, e0 = e -> outcome s t (lwip t k (e0 :: fx) s)) by exact (H e eq_refl).
  intros e0 _. destruct e0 as [n|err new_ok task_ok|new_ok task_ok|id|id]; cbn [lwip].
  - unfold netif_output. cbn [outcome mret res_ret]. apply lwip_next; [done..|]. destruct n; [by left|right; by eexists].
  - unfold tcp_accept_handler. destruct (negb (err =? 0)); [exact (lwip_next s (Goto (In k fx)) Hi Hk (or_introl eq_refl))|].
    destruct new_ok; cbn [negb]; [|exact (lwip_next s (Goto (In k fx)) Hi Hk (or_introl eq_refl))].
    pose proof (lwip_new_session task_ok) as H. destruct (session_new s) as [id s1].
    destruct (if negb task_ok then _ else _) as [[w s']|f]; exact H.
  - unfold udp_recv_handler. destruct new_ok; cbn [negb]; [|exact (lwip_next s (Goto (In k fx)) Hi Hk (or_introl eq_refl))].
    pose proof (lwip_new_session task_ok) as H. destruct (session_new s) as [id s1].
    destruct (if negb task_ok then _ else _) as [[w s']|f]; exact H.
  - case_bool_decide as Hid; [|exact (lwip_next s (Goto (In k fx)) Hi Hk (or_introl eq_refl))].
    destruct (inv_terminate s t id Hi Hid) as (s' & -> & Hi' & Hk' & _). exact (lwip_next s' (Goto (In k fx)) Hi' Hk' (or_introl eq_refl)).
  - case_bool_decide as Hid; [|exact (lwip_next s (Goto (In k fx)) Hi Hk (or_introl eq_refl))].
    destruct (inv_wakeup s (TSession id) Hi Hid) as (c & -> & Hi' & Hcc & _ & Hsub & _). refine (lwip_next (set_sys c s) (Goto (In k fx)) Hi' _ (or_introl eq_refl)).
    by split_and!.
Qed.
End Lwip.

(** The walk of the event task over the set of sessions. *)
Lemma dseg_nodes m l : forall pp qn x, dseg m pp l qn -> x ∈ l -> is_Some (m !! x).
Proof. induction l as [|y l IH]; intros pp qn x Hd Hx; [by apply elem_of_nil in Hx|]. destruct Hd as [Hy Hd]. apply elem_of_cons in Hx as [->|Hx]; eauto. Qed.
Lemma dlist_size m L l : dlist m L l -> (length L <= size m)%nat.
Proof.
  intros []. rewrite <- size_dom, <- (size_list_to_set (C := gset positive)) by done. apply subseteq_size.
  intros x Hx. apply elem_of_list_to_set in Hx. apply elem_of_dom. by eapply dseg_nodes.
Qed.
Lemma terminate_ok t fuel : forall l pp s, inv s -> dseg (node_mem s) pp l None -> NoDup l -> (length l < fuel)%nat ->
  (forall id, id ∈ l -> is_Some (places s !! TSession id)) ->
  exists s', terminate_loop fuel (first_of l None) s = Ok s' /\ inv s' /\ kept t s s' /\ places s' = places s /\
    tasks (sys s') = tasks (sys s) /\ session_set s' = session_set s /\ node_mem s' = node_mem s /\
    (forall id, timeouts s' !! id = if bool_decide (id ∈ l) then Some 0 else timeouts s !! id) /\
    forall x, x ∈ running_tasks (sys s') <-> (exists id, id ∈ l /\ x = TSession id) \/ x ∈ running_tasks (sys s).
Proof.
  induction fuel as [|fuel IH]; intros l pp s Hi Hd Hn Hf Hl; [lia|]. destruct l as [|id l]; cbn [first_of terminate_loop].
  { exists s. split_and!; try done. intros x. split; [by right|]. intros [(i & Hx & _)|?]; [by apply elem_of_nil in Hx|done]. }
  destruct Hd as [Hnode Hd]. apply NoDup_cons in Hn as [Hni Hn].
  destruct (inv_terminate s t id Hi (Hl id ltac:(left))) as (s1 & E1 & Hi1 & K1 & P1 & L1 & M1 & T1 & A1 & R1). rewrite E1. cbn [mbind res_bind].
  rewrite M1. unfold hev_list_node_next, deref. rewrite Hnode. cbn [mbind res_bind mret res_ret next].
  destruct (IH l (Some id) s1) as (s2 & E2 & Hi2 & K2 & P2 & A2 & L2 & M2 & T2 & R2); [done|by rewrite M1|done|cbn [length] in Hf; lia|intros i Hin; rewrite P1; apply Hl; by right|].
  exists s2. split; [done|]. split; [done|]. split; [by eapply kept_trans|]. split_and!; try congruence.
  - intros i. rewrite T2, T1. destruct (decide (i = id)) as [->|Hne].
    + rewrite lookup_insert_eq. rewrite (bool_decide_eq_true_2 (id ∈ id :: l)) by left. by case_bool_decide.
    + rewrite lookup_insert_ne by done. repeat case_bool_decide; set_solver.
  - intros x. rewrite R2, R1. setoid_rewrite elem_of_cons. naive_solver.
Qed.

(** What the event task does when there is a request. *)
Definition stop_served (s s' : tunnel) : Prop :=
  kept TEvent (set_run false (set_pipe (event_pipe s - 1) s)) s' /\ places s' = places s /\ tasks (sys s') = tasks (sys s) /\
  session_set s' = session_set s /\ node_mem s' = node_mem s /\
  (exists L, dlist (node_mem s) L (session_set s) /\ (forall id, timeouts s' !! id = if bool_decide (id ∈ L) then Some 0 else timeouts s !! id) /\
    forall x, x ∈ running_tasks (sys s') <-> (exists id, id ∈ L /\ x = TSession id) \/ x = TIo \/ x = TTimer \/ x ∈ running_tasks (sys s)).
Lemma event_task_ok s : inv s -> ev_run s -> current_task (sys s) = Some TEvent -> places s !! TEvent = Some EvRead -> 0 < event_pipe s ->
  exists s', event_task_entry s = Ok (Exit, s') /\ inv s' /\ stop_served s s'.
Proof.
  intros Hi He Hc Hp Hpipe. unfold event_task_entry. replace (event_pipe s <=? 0) with false by lia.
  assert (Hr : run s = true) by (apply He; eauto). destruct (i_tasks _ Hi Hr) as [Hio Htm].
  set (s0 := set_run false (set_pipe (event_pipe s - 1) s)). assert (Hi0 : inv s0) by (by apply inv_run_off, inv_pipe).
  destruct (inv_wakeup s0 TIo Hi0 Hio) as (c1 & -> & Hi1 & C1 & A1 & S1 & R1). cbn [mbind res_bind].
  destruct (inv_wakeup (set_sys c1 s0) TTimer Hi1 Htm) as (c2 & -> & Hi2 & C2 & A2 & S2 & R2). cbn [mbind res_bind].
  destruct (i_list _ Hi) as (L & Hd & HL).
  destruct (terminate_ok TEvent (S (size (node_mem s))) L None (set_sys c2 (set_sys c1 s0)) Hi2 (dl_seg _ _ _ Hd) (dl_nodup _ _ _ Hd))
    as (s' & E & Hi' & K & P & A & SL & M & T & R); [pose proof (dlist_size _ _ _ Hd); lia|intros id (q & Hq & _)%HL; eauto|].
  rewrite <- (dl_head _ _ _ Hd) in E.
  match goal with |- context [terminate_loop ?f ?n ?z] => change (terminate_loop f n z) with (terminate_loop (S (size (node_mem s))) (head (session_set s)) z) end.
  rewrite E. cbn [mbind res_bind mret res_ret].
  exists s'. split; [done|]. split; [done|]. split.
  - destruct K as (Kc & Kp & Kr & Kl & Kw & Ks & Ko). split_and!; try done; [by rewrite Kc; cbn; rewrite C2; cbn; rewrite C1|].
    etrans; [exact S1|]. etrans; [exact S2|exact Ks].
  - split_and!; [done|by rewrite A; cbn; rewrite A2; cbn; rewrite A1|done|done|]. exists L. split_and!; [done|done|].
    intros x. rewrite R. cbn. rewrite R2. cbn. rewrite R1. naive_solver.
Qed.

Section Steps.
Context (connect_timeout read_write_timeout : Z).
Notation exec := (exec connect_timeout read_write_timeout).
Notation step := (step connect_timeout read_write_timeout).

(** A task goes on without a call that others see. *)
Lemma outcome_settle s t p p' n : inv s -> ev_run s -> current_task (sys s) = Some t -> places s !! t = Some p -> fits t p' = true ->
  holds p' = holds p -> queued p' = queued p -> (forall id, t = TSession id -> listed p' = listed p) ->
  n = Goto p' \/ (yielded p' = true /\ (n = WaitIO p' \/ n = Yield p') /\ (queued p = true -> locker s = false -> List.hd_error (waiters s) <> Some t)) ->
  outcome s t (Ok (n, s)).
Proof.
  intros Hi He Hc Hp Hf Hh Hq Hl Hn. split; [by eapply inv_settle|]. unfold ev_run. rewrite settle_run.
  assert (Hs : is_Some (places (settle t n s) !! TEvent) <-> is_Some (places s !! TEvent)).
  { destruct (decide (TEvent = t)) as [<-|]; [|by rewrite settle_other].
    destruct Hn as [->|(_ & [-> | ->] & _)]; cbn; rewrite lookup_insert_eq, Hp; split; eauto. }
  rewrite Hs. exact He.
Qed.
Lemma outcome_exit s t p : inv s -> ev_run s -> current_task (sys s) = Some t -> places s !! t = Some p -> holds p = false ->
  queued p = false -> t = TIo \/ t = TTimer -> run s = false -> outcome s t (Ok (Exit, s)).
Proof.
  intros Hi He Hc Hp Hh Hq Ht Hr. split; [eapply inv_exit; try done; [destruct Ht; congruence|congruence]|].
  unfold ev_run. rewrite settle_other, settle_run by (destruct Ht; congruence). exact He.
Qed.

Lemma tinv_lock s t k : inv s -> ev_run s -> current_task (sys s) = Some t -> places s !! t = Some (Lock k) ->
  outcome s t (Ok (hev_task_mutex_lock t k s)).
Proof.
  intros Hi He Hc Hp. pose proof (i_fit _ Hi _ _ Hp) as Hf. cbn in Hf. assert (Ht : t <> TEvent) by (intros ->; done).
  unfold hev_task_mutex_lock. destruct (locker s) eqn:Hl; split.
  - pose proof (inv_push s t k k Hi Hc Hf) as H. rewrite Hp in H. specialize (H ltac:(exists (Lock k); split_and!; [done..|intros i _; by destruct k|by left]) Hl).
    apply (inv_leave _ t (LockWait k) HEV_TASK_WAITIO H); [done|cbn; by rewrite lookup_insert_eq|done|done|done].
  - unfold ev_run. by rewrite settle_other, settle_run.
  - apply (inv_take s t (Lock k) k _ _ Hi Hc Hp Hl Hf); [done|by left].
  - unfold ev_run. by rewrite settle_other, settle_run.
Qed.
Lemma lock_loop_inv s t k : inv s -> ev_run s -> current_task (sys s) = Some t -> places s !! t = Some (LockWait k) ->
  outcome s t (Ok (hev_task_mutex_lock_loop t k s)).
Proof.
  intros Hi He Hc Hp. pose proof (i_fit _ Hi _ _ Hp) as Hf. cbn in Hf. assert (Ht : t <> TEvent) by (intros ->; done).
  unfold hev_task_mutex_lock_loop. destruct (locker s) eqn:Hl; cbn [orb].
  { eapply (outcome_settle s t (LockWait k) (LockWait k)); try done. right. split_and!; [done|by left|congruence]. }
  case_bool_decide as Hh; cbn [negb].
  - split; [|unfold ev_run; by rewrite settle_other, settle_run]. apply (inv_take s t (LockWait k) k _ _ Hi Hc Hp Hl Hf); [intros i _; by destruct k|].
    right. split; [done|]. destruct (waiters s); [done|]. injection Hh as ->. done.
  - eapply (outcome_settle s t (LockWait k) (LockWait k)); try done. right. split_and!; [done|by left|done].
Qed.

Lemma session_inv s id p a : inv s -> ev_run s -> current_task (sys s) = Some (TSession id) -> places s !! TSession id = Some p ->
  match p with SsStart | SsBody _ | SsSlept _ _ | SsDel | SsFree => True | _ => False end ->
  outcome s (TSession id) (hev_socks5_session_task_entry connect_timeout read_write_timeout id p a s).
Proof.
  intros Hi He Hc Hp Hcase.
  assert (Hto : forall n, inv (hev_socks5_set_timeout id n s)) by (intros n; apply tinv_timeout; [done|eauto]).
  destruct p; try done; cbn [hev_socks5_session_task_entry].
  - eapply (outcome_settle (hev_socks5_set_timeout id connect_timeout s) (TSession id) SsStart (SsBody false)); try done. by left.
  - assert (Hb : forall s' p' n, inv s' -> ev_run s' -> current_task (sys s') = Some (TSession id) -> places s' !! TSession id = Some (SsBody connected) ->
      fits (TSession id) p' = true -> holds p' = false -> queued p' = false -> listed p' = true ->
      n = Goto p' \/ (yielded p' = true /\ (n = WaitIO p' \/ n = Yield p')) -> outcome s' (TSession id) (Ok (n, s'))).
    { intros s' p' n ? ? ? ? ? ? ? ? Hn. eapply (outcome_settle s' (TSession id) (SsBody connected) p'); try done. destruct Hn as [->|[? ?]]; [by left|by right]. }
    destruct (a_do a); cbn [mret res_ret].
    + eapply (Hb s (SsBody connected)); try done. right. split; [done|by right].
    + unfold session_wait. destruct (_ <? 0); [eapply (Hb s (SsBody connected)); try done; right; split; [done|by left]|].
      destruct (_ =? 0); [eapply (Hb s SsDel); try done; by left|eapply (Hb s (SsSlept connected false)); try done; right; split; [done|by left]].
    + destruct connected; [eapply (Hb s (SsBody true)); try done; by left|].
      eapply (Hb (hev_socks5_set_timeout id read_write_timeout s) (SsBody true)); try done. by left.
    + eapply (Hb s (Lock (SsCall connected fx))); try done. by left.
    + eapply (Hb s SsDel); try done. by left.
  - eapply (outcome_settle s (TSession id) (SsSlept connected expired) (if negb expired && a_left a then SsBody connected else SsDel)); try done;
      destruct (negb expired && a_left a); try done; by left.
  - destruct (inv_del s id (a_fx a) Hi Hc Hp) as (l & m & -> & H). cbn [mbind res_bind mret res_ret]. split; [exact H|].
    unfold ev_run. by rewrite settle_other, settle_run.
  - split; [by apply inv_free|]. unfold ev_run. by rewrite settle_other, settle_run.
Qed.

Lemma io_inv s p a : inv s -> ev_run s -> current_task (sys s) = Some TIo -> places s !! TIo = Some p ->
  match p with IoTop | IoAllocated | IoRead | IoWoken => True | _ => False end -> outcome s TIo (Ok (lwip_io_task_entry p a s, s)).
Proof.
  intros Hi He Hc Hp Hcase.
  assert (Hb : forall p' n, fits TIo p' = true -> holds p' = false -> queued p' = false -> n = Goto p' \/ (yielded p' = true /\ n = WaitIO p') -> outcome s TIo (Ok (n, s))).
  { intros p' n ? ? ? Hn. eapply (outcome_settle s TIo p p'); try done; [by destruct p|by destruct p|].
    destruct Hn as [->|[? ->]]; [by left|right; split_and!; [done|by left|by destruct p]]. }
  destruct p; try done; cbn [lwip_io_task_entry].
  - destruct (run s) eqn:Hr; [|by eapply outcome_exit; eauto]. apply (Hb (Lock IoAlloc)); try done. by left.
  - destruct (a_alloc a); [apply (Hb IoRead); try done; by left|apply (Hb IoTop); try done; by right].
  - destruct (a_read a); [apply (Hb IoWoken); try done; by right|apply (Hb IoTop); try done; by left|apply (Hb (Lock (IoInput fx))); try done; by left].
  - destruct (_ =? 0); [apply (Hb IoRead)|apply (Hb IoTop)]; try done; by left.
Qed.
Lemma timer_inv s p a : inv s -> ev_run s -> current_task (sys s) = Some TTimer -> places s !! TTimer = Some p ->
  match p with TmStart | TmTop | TmCheck _ => True | _ => False end -> outcome s TTimer (Ok (lwip_timer_task_entry p a s, s)).
Proof.
  intros Hi He Hc Hp Hcase. set (q := TmCheck (match hev_list_first (session_set s) with Some _ => true | None => false end)).
  assert (Hw : outcome s TTimer (Ok (WaitIO q, s))).
  { eapply (outcome_settle s TTimer p q); try done; [by destruct p|by destruct p|]. right. split_and!; [done|by left|by destruct p]. }
  destruct p; try done. cbn [lwip_timer_task_entry]. destruct (run s) eqn:Hr; [|by eapply outcome_exit; eauto].
  eapply (outcome_settle s TTimer (TmCheck slept) (Lock (TmTick (a_fx a)))); try done. by left.
Qed.

Lemma exec_inv s t p a : inv s -> ev_run s -> current_task (sys s) = Some t -> places s !! t = Some p -> outcome s t (exec t p a s).
Proof.
  intros Hi He Hc Hp. pose proof (i_fit _ Hi _ _ Hp) as Hf.
  destruct p; cbn [HevTunnel.exec]; try (cbn in Hf; destruct t; discriminate Hf).
  - destruct t; try discriminate Hf. destruct (Z.leb_spec (event_pipe s) 0) as [Hz|Hz].
    + unfold event_task_entry. replace (event_pipe s <=? 0) with true by lia.
      eapply (outcome_settle s TEvent EvRead EvRead); try done. right. split_and!; [done|by left|done].
    + destruct (event_task_ok s Hi He Hc Hp Hz) as (s' & -> & Hi' & K & P & _). destruct K as (Kc & _ & Kr & _). cbn in Kc, Kr. split.
      * eapply (inv_exit s' TEvent EvRead); try done; congruence.
      * unfold ev_run. rewrite settle_run, Kr. cbn. rewrite lookup_delete_eq. split; [by intros [? ?]|done].
  - destruct t; try discriminate Hf. by apply io_inv.
  - destruct t; try discriminate Hf. by apply io_inv.
  - destruct t; try discriminate Hf. by apply io_inv.
  - destruct t; try discriminate Hf. by apply io_inv.
  - destruct t; try discriminate Hf. by apply timer_inv.
  - destruct t; try discriminate Hf. by apply timer_inv.
  - destruct t; try discriminate Hf. by apply timer_inv.
  - destruct t; try discriminate Hf. by apply session_inv.
  - destruct t; try discriminate Hf. by apply session_inv.
  - destruct t; try discriminate Hf. by apply session_inv.
  - destruct t; try discriminate Hf. by apply session_inv.
  - destruct t; try discriminate Hf. by apply session_inv.
  - by apply tinv_lock.
  - by apply lock_loop_inv.
  - destruct fx as [|e fx]; [|by apply lwip_inv]. cbn [lwip]. destruct (inv_unlock s t k Hi Hc Hp) as (s' & -> & H & Hcc & Hpp & Hr & _).
    split; [exact H|]. cbn in Hf. unfold ev_run. rewrite settle_other, settle_run by (intros <-; done). by rewrite Hpp, Hr.
  - eapply (outcome_settle s t (InWait k fx) (In k (if task_io_yielder s =? 0 then fx else List.tl fx))); try done; by left.
  - eapply (outcome_settle s t (Wedged k) (Wedged k)); try done. right. split_and!; [done|by left|]. intros _ Hl. pose proof (i_hold _ Hi _ _ Hp eq_refl). congruence.
Qed.

(** A poll notes which sleeps have ended; then the first task runs. *)
Definition noted (p p' : place) : Prop :=
  p' = p \/ exists c b, p = SsSlept c b /\ p' = SsSlept c true.
Lemma note_expired_lookup ready m t : option_Forall2 noted (m !! t) (foldr note_expired m ready !! t).
Proof.
  induction ready as [|[t' b] ready IH]; cbn; [destruct (m !! t); constructor; by left|].
  destruct b; [|done]. destruct (decide (t' = t)) as [->|Hne]; [|by rewrite lookup_alter_ne]. rewrite lookup_alter_eq.
  destruct IH as [p p' Hn|]; constructor. destruct Hn as [->|(c & b & -> & ->)].
  - destruct p; try (by left). right. eauto.
  - right. eauto.
Qed.
Lemma noted_same t p p' : noted p p' -> fits t p' = fits t p /\ holds p' = holds p /\ queued p' = queued p /\ listed p' = listed p /\ yielded p' = yielded p.
Proof. by intros [->|(c & b & -> & ->)]. Qed.
Lemma inv_noted s ready : inv s -> inv (set_places (foldr note_expired (places s) ready) s).
Proof.
  intros [Hctx Hdom Hfit Hyield Hhold Hone Hlock Hnodup Hwait Htop Hlist Hobj Htasks]. set (m := foldr note_expired (places s) ready).
  assert (E : forall t p', m !! t = Some p' -> exists p, places s !! t = Some p /\ noted p p').
  { intros t p' H. pose proof (note_expired_lookup ready (places s) t) as Hn. fold m in Hn. rewrite H in Hn. inversion Hn; eauto. }
  assert (E' : forall t p, places s !! t = Some p -> exists p', m !! t = Some p' /\ noted p p').
  { intros t p H. pose proof (note_expired_lookup ready (places s) t) as Hn. fold m in Hn. rewrite H in Hn. inversion Hn; eauto. }
  assert (Es : forall t, is_Some (m !! t) <-> is_Some (places s !! t)).
  { intros t. split; intros [p H]; [apply E in H as (q & ? & _)|apply E' in H as (q & ? & _)]; eauto. }
  split; cbn; try done.
  - rewrite <- Hdom. apply set_eq. intros t. by rewrite !elem_of_dom.
  - intros t p' (p & Hp & Hn)%E. destruct (noted_same t _ _ Hn) as (-> & _). eauto.
  - intros t p' (p & Hp & Hn)%E. destruct (noted_same t _ _ Hn) as (_ & _ & _ & _ & ->). eauto.
  - intros t p' (p & Hp & Hn)%E. destruct (noted_same t _ _ Hn) as (_ & -> & _). eauto.
  - intros t1 p1 t2 p2 (q1 & Hq1 & Hn1)%E H1 (q2 & Hq2 & Hn2)%E. destruct (noted_same t1 _ _ Hn1) as (_ & E1 & _), (noted_same t2 _ _ Hn2) as (_ & -> & _).
    rewrite E1 in H1. eauto.
  - intros (t & p & (p' & Hp' & Hn)%E' & Hh)%Hlock. destruct (noted_same t _ _ Hn) as (_ & Eh & _). exists t, p'. split; [done|congruence].
  - intros t. rewrite Hwait. split; intros (p & Hp & Hq); [apply E' in Hp as (p' & Hp' & Hn)|apply E in Hp as (p' & Hp' & Hn)];
      destruct (noted_same t _ _ Hn) as (_ & _ & Eq & _); exists p'; (split; [done|congruence]).
  - destruct Hlist as (L & Hd & HL). exists L. split; [done|]. intros id. rewrite HL.
    split; intros (p & Hp & Hq); [apply E' in Hp as (p' & Hp' & Hn)|apply E in Hp as (p' & Hp' & Hn)];
      destruct (noted_same (TSession id) _ _ Hn) as (_ & _ & _ & Eq & _); exists p'; (split; [done|congruence]).
  - destruct Hobj as [H1 H2]. split; [done|]. intros id. rewrite Es. apply H2.
  - rewrite !Es. done.
Qed.
Lemma inv_pick s c : inv s -> current_task (sys s) = None -> ctx_ok c -> tasks c = tasks (sys s) -> current_task c = None ->
  (forall x, x ∈ running_tasks (sys s) -> x ∈ running_tasks c) ->
  inv (set_sys (set_current (List.hd_error (running_tasks c)) c) s).
Proof.
  intros [] Hn Hco Hta Hcc Hru. split; cbn; try done.
  - destruct Hco as [Hnd Hrt Hct]. split; cbn; [done..|]. intros t Ht. destruct (running_tasks c); [done|]. injection Ht as ->. left.
  - by rewrite i_dom0, <- Hta.
  - intros t p Hp Hy. specialize (i_yield0 t p Hp Hy). congruence.
  - intros Hl t Ht. apply Hru. by apply i_top0.
Qed.

Lemma step_inv s c : inv s -> ev_run s -> enabled c s = true ->
  match step c s with Ok s' => inv s' /\ ev_run s' | Fault e => e = AssertFail /\ places s !! TTimer = None end.
Proof.
  intros Hi He Hen. destruct c as [a|ready|]; cbn [enabled HevTunnel.step] in *.
  - apply bool_decide_eq_true in Hen as [t Hc]. rewrite Hc.
    assert (Hp : is_Some (places s !! t)).
    { apply elem_of_dom. rewrite (i_dom _ Hi). apply elem_of_tasks. apply (co_current _ (i_ctx _ Hi)), (co_running _ (i_ctx _ Hi)) in Hc as (k & -> & _). eauto. }
    destruct Hp as [p Hp]. rewrite Hp. pose proof (exec_inv s t p a Hi He Hc Hp) as H.
    destruct (HevTunnel.exec connect_timeout read_write_timeout t p a s) as [[n s']|e]; exact H.
  - apply andb_prop in Hen as [[Hc Hr]%andb_prop _]. apply bool_decide_eq_true in Hc.
    assert (Hta : Forall (fun t => t ∈ tasks (sys s)) (map fst ready)).
    { apply Forall_forall. intros t ([t' b] & -> & Hin)%list_elem_of_fmap. rewrite forallb_forall in Hr. specialize (Hr _ (proj1 (list_elem_of_In _ _) Hin)).
      apply elem_of_tasks. cbn in Hr |- *. destruct (task_table (sys s) !! t'); [by eexists|discriminate]. }
    destruct (io_poll_ok _ _ (i_ctx _ Hi) Hta) as (c & E & Hco & Htc & Hcc & _ & Hx). unfold hev_task_system_pick_current_task. rewrite E. cbn [mbind res_bind mret res_ret].
    pose proof (inv_noted s ready Hi) as Hn. split.
    + refine (inv_pick _ c Hn Hc Hco Htc _ _); [congruence|]. intros x Hin. apply Hx. by right.
    + unfold ev_run. cbn. destruct He as [H1 H2]. pose proof (note_expired_lookup ready (places s) TEvent) as Hl. split.
      * intros [p' Hp']. rewrite Hp' in Hl. apply H1. inversion Hl; eauto.
      * intros [p' Hp']%H2. rewrite Hp' in Hl. inversion Hl; eauto.
  - unfold hev_socks5_tunnel_stop. destruct (event_fd s =? -1); [done|]. split; [by apply inv_pipe|exact He].
Qed.

Lemma run_inv fd : inv (hev_socks5_tunnel_run fd) /\ ev_run (hev_socks5_tunnel_run fd).
Proof.
  split; [|by split; cbn; eauto].
  assert (Hp : forall t p, places (hev_socks5_tunnel_run fd) !! t = Some p -> (t = TEvent /\ p = EvRead) \/ (t = TIo /\ p = IoTop) \/ (t = TTimer /\ p = TmStart)).
  { intros t p H. cbn in H. apply lookup_insert_Some in H as [[<- <-]|[_ H]]; [by left|].
    apply lookup_insert_Some in H as [[<- <-]|[_ H]]; [right; by left|]. apply lookup_singleton_Some in H as [<- <-]. right; by right. }
  split; try done; try (intros t p H; apply Hp in H as [(-> & ->)|[(-> & ->)|(-> & ->)]]; done).
  - assert (H0 : ctx_ok (Ctx None [] ∅)) by (split; [constructor| |done]; intros t; split; [intros H; by apply elem_of_nil in H|intros (k & Hk & _); done]).
    destruct (run_ok _ TEvent HEV_TASK_PRIORITY_DEFAULT H0) as (H1 & T1 & _); [done|].
    destruct (run_ok _ TIo HEV_TASK_PRIORITY_REALTIME H1) as (H2 & T2 & _); [rewrite T1; set_solver|].
    apply (run_ok _ TTimer HEV_TASK_PRIORITY_REALTIME H2). rewrite T2, T1. set_solver.
  - intros t p t' p' H. apply Hp in H as [(-> & ->)|[(-> & ->)|(-> & ->)]]; done.
  - constructor.
  - intros t. split; [intros H; by apply elem_of_nil in H|]. intros (p & H & Hq). apply Hp in H as [(-> & ->)|[(-> & ->)|(-> & ->)]]; done.
  - exists []. split; [by split; try constructor|]. intros id. split; [intros H; by apply elem_of_nil in H|]. intros (p & H & _). apply Hp in H as [(? & _)|[(? & _)|(? & _)]]; done.
  - split; [done|]. intros id [p H]. apply Hp in H as [(? & _)|[(? & _)|(? & _)]]; done.
Qed.
Lemma reachable_inv kind fd s : reachable connect_timeout read_write_timeout kind fd s -> inv s /\ ev_run s.
Proof.
  induction 1 as [|s c s' _ [Hi He] _ Hen E]; [apply run_inv|]. pose proof (step_inv s c Hi He Hen) as H. by rewrite E in H.
Qed.
End Steps.
