(* ===== verification/HevTunnelStop.v ===== *)
(** Stopping the tunnel: the mutex and the set of sessions under every schedule,
    and that a stop request ends all tasks when the device has room for packets. *)
From S2P Require Import Prelude HevList HevSched HevTunnel HevTunnelInv.

(** * Sums over a map *)
Section Totals.
Context {A : Type}.
Implicit Types (f g : tid -> A -> nat) (m : gmap tid A).
Definition total f m : nat := map_fold (fun k x n => (f k x + n)%nat) 0%nat m.

Lemma total_insert f m k x : m !! k = None -> total f (<[k := x]> m) = (f k x + total f m)%nat.
Proof. intros H. unfold total. rewrite map_fold_insert_L; [done|intros; lia|done]. Qed.
Lemma total_delete f m k x : m !! k = Some x -> total f m = (f k x + total f (delete k m))%nat.
Proof. intros H. rewrite <- (insert_delete_id m k x H) at 1. apply total_insert, lookup_delete_eq. Qed.

(** [m'] has no other keys than [m], each of no greater weight. *)
Lemma total_le f f' m' : forall m, (forall k x', m' !! k = Some x' -> exists x, m !! k = Some x /\ (f' k x' <= f k x)%nat) -> (total f' m' <= total f m)%nat.
Proof.
  induction m' as [|k x' m' Hk IH] using map_ind; intros m H; [unfold total; rewrite map_fold_empty; lia|].
  rewrite total_insert by done. destruct (H k x') as (x & Hx & Hle); [apply lookup_insert_eq|]. rewrite (total_delete f m k x Hx).
  enough (total f' m' <= total f (delete k m))%nat by lia. apply IH. intros j y Hj.
  assert (Hne : j <> k) by (intros ->; congruence). destruct (H j y) as (z & Hz & Hl); [by rewrite lookup_insert_ne|].
  exists z. by rewrite lookup_delete_ne.
Qed.
(** The same when one key loses more than [n], and another may gain [n]. *)
Lemma total_at f f' m m' t p n : m !! t = Some p ->
  (match m' !! t with Some p' => f' t p' + n < f t p | None => n < f t p end)%nat ->
  (forall k x', k <> t -> m' !! k = Some x' -> exists x, m !! k = Some x /\ (f' k x' <= f k x)%nat) -> (total f' m' + n < total f m)%nat.
Proof.
  intros Hp Ht H. rewrite (total_delete f m t p Hp).
  assert (Hd : (total f' (delete t m') <= total f (delete t m))%nat).
  { apply total_le. intros k x' [Hne Hk]%lookup_delete_Some. destruct (H k x' ltac:(done) Hk) as (x & Hx & Hle). exists x. by rewrite lookup_delete_ne. }
  destruct (m' !! t) as [p'|] eqn:Ep'; [rewrite (total_delete f' m' t p' Ep'); lia|]. rewrite delete_id in Hd by done. lia.
Qed.
(** One key may gain [n]. *)
Lemma total_gain f f' m y n : (forall k x, m !! k = Some x -> k <> y -> (f' k x <= f k x)%nat) -> (forall x, m !! y = Some x -> (f' y x <= f y x + n)%nat) ->
  (total f' m <= total f m + n)%nat.
Proof.
  intros H Hy. destruct (m !! y) as [x|] eqn:Ey.
  - rewrite (total_delete f m y x Ey), (total_delete f' m y x Ey). specialize (Hy x eq_refl).
    enough (total f' (delete y m) <= total f (delete y m))%nat by lia. apply total_le. intros k z [Hne Hz]%lookup_delete_Some.
    exists z. rewrite lookup_delete_ne by done. auto.
  - enough (total f' m <= total f m)%nat by lia. apply total_le. intros k z Hz. exists z. split; [done|]. apply H; [done|]. congruence.
Qed.
End Totals.

(** * The device has room, the allocator has memory

    lwIP accepts connections only from the packets it is given, not in the calls of
    a session. *)
Definition calm_effect (e : effect) : Prop :=
  match e with Output n => n = 0%nat | Accepted _ _ ok | Datagram _ ok => ok = true | _ => True end.
Definition own_effect (e : effect) : Prop :=
  match e with Output n => n = 0%nat | Accepted _ _ _ | Datagram _ _ => False | _ => True end.
Definition calm_answer (a : answer) : Prop :=
  Forall own_effect (a_fx a) /\
  match a_read a with Packet fx => Forall calm_effect fx | _ => True end /\
  match a_do a with DoCall fx => Forall own_effect fx | _ => True end.
Definition calm (c : choice) : Prop := match c with Exec a => calm_answer a | _ => True end.

Definition section_effect (k : section) : effect -> Prop :=
  match k with IoInput _ => calm_effect | _ => own_effect end.
Definition calm_place (p : place) : Prop :=
  match p with
  | LockWait _ | InWait _ _ | Wedged _ => False
  | Lock k => Forall (section_effect k) (effects k)
  | In k fx => Forall (section_effect k) fx
  | _ => True
  end.

(** What happens outside the program or at its request to lwIP: packets, data from
    the proxy, ticks before the request is served, another request. *)
Definition outside (c : choice) (s : tunnel) : bool :=
  match c with
  | Stop => true
  | Schedule ready => existsb (fun x => match x.1 with TIo | TSession _ => negb x.2 | TTimer => x.2 | TEvent => false end) ready
  | Exec a =>
      match t ← current_task (sys s); places s !! t with
      | Some IoAllocated => negb (a_alloc a)
      | Some IoRead => match a_read a with Again => false | _ => true end
      | Some (TmCheck _) | Some SsDel => match a_fx a with [] => false | _ => true end
      | Some (SsBody _) => match a_do a with DoWait | DoReturn => false | _ => true end
      | _ => false
      end
  end.

(** * The invariant of calm runs *)
Record quiet (s : tunnel) : Prop := {
  q_calm : forall t p, places s !! t = Some p -> calm_place p;
  q_start : places s !! TTimer = Some TmStart -> run s = true /\
    (current_task (sys s) = Some TTimer \/ current_task (sys s) <> Some TEvent /\ [TTimer; TEvent] `sublist_of` running_tasks (sys s));
  q_stopped : run s = false -> forall p,
    (places s !! TIo = Some p -> (p = IoTop \/ p = IoWoken) /\ TIo ∈ running_tasks (sys s)) /\
    (places s !! TTimer = Some p -> (exists b, p = TmCheck b) /\ TTimer ∈ running_tasks (sys s));
  q_sleep : forall id p, places s !! TSession id = Some p -> TSession id ∈ running_tasks (sys s) \/ exists c, p = SsSlept c false;
  q_timeout : forall id p, places s !! TSession id = Some p -> p = SsStart \/ 0 <= default 0 (timeouts s !! id)
}.
Definition requested (s : tunnel) : Prop := run s = false \/ 0 < event_pipe s.

(** * The measure *)
Inductive status : Type := Current | Running | Waiting.
Definition status_of (s : tunnel) (t : tid) : status :=
  if bool_decide (current_task (sys s) = Some t) then Current
  else if bool_decide (t ∈ running_tasks (sys s)) then Running else Waiting.
Definition cost (e : effect) : nat := match e with Output _ => 1 | Accepted _ _ _ | Datagram _ _ => 18 | Closed _ | Traffic _ => 5 end%nat.
Definition costs (fx : list effect) : nat := foldr (fun e n => cost e + n)%nat 0%nat fx.
(** How many steps a task may make before something outside must happen. *)
Definition weight (st : status) (p : place) : nat :=
  match p with
  | EvRead => match st with Current => 1 | Running => 2 | Waiting => 4 end
  | IoTop => match st with Current => 5 | Running => 6 | Waiting => 8 end
  | IoAllocated => 2
  | IoRead => 1
  | IoWoken => match st with Current => 6 | Running => 7 | Waiting => 0 end
  | TmStart => match st with Current => 5 | Running => 6 | Waiting => 7 end
  | TmTop => 5
  | TmCheck _ => match st with Current => 8 | Running => 9 | Waiting => 4 end
  | SsStart => match st with Current => 10 | Running => 11 | Waiting => 12 end
  | SsBody _ => match st with Current => 9 | Running => 10 | Waiting => 12 end
  | SsSlept _ false => match st with Current => 10 | Running => 11 | Waiting => 8 end
  | SsSlept _ true => match st with Current => 5 | Running => 6 | Waiting => 8 end
  | SsDel => 4
  | SsFree => 1
  | Lock k | LockWait k => match k with IoAlloc => 4 | IoInput fx | TmTick fx => 7 + costs fx | SsCall _ fx => 11 + costs fx | SsDestruct fx => 3 + costs fx end
  | In k fx | InWait k fx => costs fx + match k with IoAlloc => 3 | IoInput _ | TmTick _ => 6 | SsCall _ _ => 10 | SsDestruct _ => 2 end
  | Wedged _ => 0
  end%nat.
Lemma weight_in st k e fx : weight st (In k (e :: fx)) = (cost e + weight st (In k fx))%nat.
Proof. cbn [weight costs foldr]. fold (costs fx). lia. Qed.
Lemma cost_pos e : (1 <= cost e)%nat.
Proof. destruct e; cbn; lia. Qed.
Definition measure (s : tunnel) : nat :=
  (2 * total (fun t p => weight (status_of s t) p) (places s) + (if bool_decide (current_task (sys s) = None) then 1 else 0))%nat.

(** One of the rest: how [status_of] changes. *)
Lemma status_same s s' t : current_task (sys s') = current_task (sys s) -> (t ∈ running_tasks (sys s') <-> t ∈ running_tasks (sys s)) -> status_of s' t = status_of s t.
Proof. intros Hc Hr. unfold status_of. rewrite Hc. by rewrite (bool_decide_ext _ _ Hr). Qed.
Lemma status_current s t : current_task (sys s) = Some t -> status_of s t = Current.
Proof. intros H. unfold status_of. by rewrite bool_decide_eq_true_2. Qed.

(** Leaving: the others stay as they were. *)
Lemma status_leave s s1 type t x : ctx_ok (sys s1) -> current_task (sys s) = Some t -> current_task (sys s1) = Some t -> x <> t ->
  (x ∈ running_tasks (sys s1) <-> x ∈ running_tasks (sys s)) ->
  status_of (set_sys (leave type t (sys s1)) s1) x = status_of s x.
Proof.
  intros Hok Hc Hc1 Hx Hr. destruct (leave_ok (sys s1) type t Hok (co_current _ Hok _ Hc1)) as (_ & Hcu & _ & Hru).
  unfold status_of. cbn. rewrite Hcu, Hc. rewrite (bool_decide_eq_false_2 (None = Some x)), (bool_decide_eq_false_2 (Some t = Some x)) by congruence.
  assert (H : x ∈ running_tasks (leave type t (sys s1)) <-> x ∈ running_tasks (sys s)) by (rewrite Hru; naive_solver). by rewrite (bool_decide_ext _ _ H).
Qed.
Lemma erase_sublist t k l : k `sublist_of` l -> erase t k `sublist_of` erase t l.
Proof.
  induction 1 as [|x k l _ IH|x k l _ IH]; [constructor| |]; unfold erase in *; rewrite !filter_cons; destruct (decide (x <> t)); try done; by constructor.
Qed.
Lemma leave_sublist type t c k : k `sublist_of` running_tasks c -> t ∉ k -> k `sublist_of` running_tasks (leave type t c).
Proof.
  intros Hk Ht. assert (He : erase t k = k).
  { clear -Ht. induction k as [|x k IH]; [done|]. unfold erase in *. rewrite filter_cons_True by set_solver. f_equal. apply IH. set_solver. }
  pose proof (erase_sublist t _ _ Hk) as H. rewrite He in H. unfold leave. destruct type; cbn; [|done..].
  etrans; [exact H|]. apply insert_sorted_sublist.
Qed.

Section Moves.
Context (s s1 : tunnel) (t : tid) (p : place).
Hypothesis Hi : inv s.
Hypothesis Hq : quiet s.
Hypothesis Hc : current_task (sys s) = Some t.
Hypothesis Hp : places s !! t = Some p.
(** What has changed before the task goes on: not the scheduler. *)
Hypothesis Hsys : sys s1 = sys s.
Hypothesis Hplaces : places s1 = places s.
Hypothesis Hrun : run s1 = run s.
Hypothesis Hto : forall id, TSession id <> t -> timeouts s1 !! id = timeouts s !! id.

Definition fine (p' : place) : Prop :=
  calm_place p' /\ p' <> TmStart /\ (run s = false -> t = TIo -> p' = IoTop \/ p' = IoWoken) /\ (run s = false -> t <> TTimer) /\
  forall id, t = TSession id -> p' = SsStart \/ 0 <= default 0 (timeouts s1 !! id).
Definition admissible (n : next_place) : Prop :=
  match n with
  | Goto p' => fine p'
  | Yield p' => fine p' /\ (exists id, t = TSession id)
  | WaitIO p' => fine p' /\ (run s = false -> t <> TIo) /\ forall id, t = TSession id -> exists c, p' = SsSlept c false
  | Exit => True
  end.

Lemma running_after n x : x <> t -> x ∈ running_tasks (sys (settle t n s1)) <-> x ∈ running_tasks (sys s).
Proof.
  intros Hx. pose proof (i_ctx _ Hi) as Hok. pose proof (co_current _ Hok _ Hc) as Hr.
  destruct n; cbn; rewrite Hsys; [done|..];
    match goal with |- context [leave ?ty t (sys s)] => destruct (leave_ok (sys s) ty t Hok Hr) as (_ & _ & _ & ->) end; naive_solver.
Qed.
Lemma sublist_after n k : k `sublist_of` running_tasks (sys s) -> t ∉ k -> k `sublist_of` running_tasks (sys (settle t n s1)).
Proof. intros Hk Ht. destruct n; cbn; rewrite Hsys; [done|..]; by apply leave_sublist. Qed.
Lemma current_after n : current_task (sys (settle t n s1)) = match n with Goto _ => Some t | _ => None end.
Proof. destruct n; cbn; by rewrite Hsys. Qed.
Lemma place_after n x q : places (settle t n s1) !! x = Some q ->
  (x <> t /\ places s !! x = Some q) \/ (x = t /\ (n = Goto q \/ n = Yield q \/ n = WaitIO q)).
Proof.
  destruct (decide (x = t)) as [->|Hx].
  - intros H. right. split; [done|]. destruct n; cbn in H; rewrite ?lookup_insert_eq, ?lookup_delete_eq in H; try discriminate H; injection H as <-; auto.
  - rewrite settle_other by done. rewrite Hplaces. by left.
Qed.
Lemma fine_of n q : admissible n -> n = Goto q \/ n = Yield q \/ n = WaitIO q -> fine q.
Proof. intros Ha [->|[-> | ->]]; naive_solver. Qed.

Lemma quiet_move n : admissible n -> quiet (settle t n s1).
Proof.
  intros Ha. pose proof (i_ctx _ Hi) as Hok. split.
  - intros x q [(_ & H)|(-> & H)]%place_after; [by eapply (q_calm _ Hq)|]. by destruct (fine_of n q Ha H).
  - intros [(Hx & H)|(<- & H)]%place_after; [|by destruct (fine_of n _ Ha H) as (_ & ? & _)].
    rewrite settle_run, Hrun. destruct (q_start _ Hq H) as (Hr & [E|(Hne & Hsub)]); [congruence|]. split; [done|]. right.
    rewrite current_after. split; [destruct n; congruence|]. apply sublist_after; [done|].
    rewrite Hc in Hne. rewrite !elem_of_cons. intros [->|[->|Hn]]; [done..|by apply elem_of_nil in Hn].
  - rewrite settle_run, Hrun. intros Hr q. destruct (q_stopped _ Hq Hr q) as [H1 H2]. split.
    + intros [(Hx & H)|(<- & H)]%place_after; [rewrite running_after by done; auto|]. destruct (fine_of n _ Ha H) as (_ & _ & Hio & _). split; [by apply Hio|].
      destruct n; cbn in Ha; [|destruct Ha as (_ & id & Hid)|naive_solver|naive_solver]; [|congruence]. cbn. rewrite Hsys. by apply (co_current _ Hok).
    + intros [(Hx & H)|(<- & H)]%place_after; [rewrite running_after by done; auto|]. destruct (fine_of n _ Ha H) as (_ & _ & _ & Htm & _). by destruct (Htm Hr).
  - intros id q [(Hx & H)|(<- & H)]%place_after; [rewrite running_after by done; by eapply (q_sleep _ Hq)|].
    pose proof (co_current _ Hok _ Hc) as Hin. destruct n as [p'|p'|p'|]; cbn in Ha.
    + left. cbn. by rewrite Hsys.
    + left. cbn. rewrite Hsys. destruct (leave_ok (sys s) HEV_TASK_YIELD _ Hok Hin) as (_ & _ & _ & ->). by right.
    + right. destruct Ha as (_ & _ & Hs). destruct (Hs id ltac:(done)) as [c ->]. destruct H as [?|[?|?]]; try discriminate. exists c. congruence.
    + naive_solver.
  - intros id q [(Hx & H)|(<- & H)]%place_after.
    + replace (timeouts (settle t n s1)) with (timeouts s1) by (by destruct n). rewrite Hto by done. by eapply (q_timeout _ Hq).
    + replace (timeouts (settle (TSession id) n s1)) with (timeouts s1) by (by destruct n).
      destruct (fine_of n _ Ha H) as (_ & _ & _ & _ & Ht). apply Ht. congruence.
Qed.

(** The weight of the task falls. *)
Definition lighter (n : next_place) : Prop :=
  match n with
  | Goto p' => (weight Current p' < weight Current p)%nat
  | Yield _ => False
  | WaitIO p' => (weight Waiting p' < weight Current p)%nat
  | Exit => (0 < weight Current p)%nat
  end.
Lemma status_after n x : x <> t -> status_of (settle t n s1) x = status_of s x.
Proof.
  intros Hx. unfold status_of. rewrite current_after, Hc, (bool_decide_ext _ _ (running_after n x Hx)).
  rewrite (bool_decide_eq_false_2 (Some t = Some x)) by congruence. by rewrite bool_decide_eq_false_2 by (destruct n; congruence).
Qed.
Lemma status_moved n : match n with Goto _ => status_of (settle t n s1) t = Current | WaitIO _ => status_of (settle t n s1) t = Waiting | _ => True end.
Proof.
  pose proof (i_ctx _ Hi) as Hok. destruct n as [p'|p'|p'|]; try done.
  - apply status_current. cbn. by rewrite Hsys.
  - unfold status_of. rewrite current_after. cbn. rewrite Hsys.
    destruct (leave_ok (sys s) HEV_TASK_WAITIO t Hok (co_current _ Hok _ Hc)) as (_ & _ & _ & Hru).
    rewrite (bool_decide_eq_false_2 (None = Some t)) by done. rewrite bool_decide_eq_false_2; [done|]. rewrite Hru. naive_solver.
Qed.
Lemma measure_goto d p' : (weight Current p' + d < weight Current p)%nat -> (measure (settle t (Goto p') s1) + 2 * d < measure s)%nat.
Proof.
  intros Hl. unfold measure. rewrite current_after, Hc.
  assert (H : (total (fun x q => weight (status_of (settle t (Goto p') s1) x) q) (places (settle t (Goto p') s1)) + d < total (fun x q => weight (status_of s x) q) (places s))%nat).
  { apply (total_at _ _ _ _ t p d Hp).
    - rewrite (status_current s t Hc). pose proof (status_moved (Goto p')) as Hs. cbv beta iota in Hs. rewrite Hs.
      cbn [settle places set_place set_places]. by rewrite lookup_insert_eq.
    - intros x q Hx. rewrite settle_other, Hplaces by done. intros Hq'. exists q. split; [done|]. cbv beta. by rewrite status_after. }
  rewrite (bool_decide_eq_false_2 (Some t = None)) by done. lia.
Qed.
Lemma measure_move n : lighter n -> (measure (settle t n s1) < measure s)%nat.
Proof.
  intros Hl. unfold measure. rewrite current_after, Hc.
  assert (H : (total (fun x q => weight (status_of (settle t n s1) x) q) (places (settle t n s1)) + 0 < total (fun x q => weight (status_of s x) q) (places s))%nat).
  { apply (total_at _ _ _ _ t p 0 Hp).
    - rewrite (status_current s t Hc). pose proof (status_moved n) as Hs. destruct n as [p'|p'|p'|]; cbn [lighter] in Hl; [|by destruct Hl| |];
        rewrite ?Hs; cbn [settle places set_place set_places set_sys]; rewrite ?lookup_insert_eq, ?lookup_delete_eq; lia.
    - intros x q Hx. rewrite settle_other, Hplaces by done. intros Hq'. exists q. split; [done|]. cbv beta. by rewrite status_after. }
  rewrite (bool_decide_eq_false_2 (Some t = None)) by done. case_bool_decide; lia.
Qed.
End Moves.

(** Tasks that are woken. *)
Record woken (y : tid) (s s' : tunnel) : Prop := {
  w_current : current_task (sys s') = current_task (sys s);
  w_places : places s' = places s;
  w_run : run s' = run s;
  w_running : forall x, x ∈ running_tasks (sys s') <-> x = y \/ x ∈ running_tasks (sys s);
  w_sublist : running_tasks (sys s) `sublist_of` running_tasks (sys s');
  w_timeouts : forall id, timeouts s' !! id = timeouts s !! id \/ timeouts s' !! id = Some 0
}.
Lemma quiet_woken y s s' : quiet s -> woken y s s' -> quiet s'.
Proof.
  intros [Hcalm Hstart Hstop Hsleep Hto] [Wc Wp Wr Wx Ws Wt]. split; rewrite ?Wp, ?Wr, ?Wc.
  - done.
  - intros H. destruct (Hstart H) as (? & [?|[? ?]]); split; auto. right. split; [done|]. by etrans.
  - intros Hr p. destruct (Hstop Hr p) as [H1 H2]. rewrite !Wx. split; [intros (? & ?)%H1|intros (? & ?)%H2]; auto.
  - intros id p Hp. rewrite Wx. destruct (Hsleep id p Hp); auto.
  - intros id p Hp. destruct (Hto id p Hp) as [?|?]; [by left|]. right. destruct (Wt id) as [-> | ->]; [done|]. cbn. lia.
Qed.
Lemma status_woken y s s' x : woken y s s' -> x <> y -> status_of s' x = status_of s x.
Proof. intros [Wc _ _ Wx _ _] Hx. apply status_same; [done|]. rewrite Wx. naive_solver. Qed.
Lemma status_woken_self y s s' : woken y s s' -> status_of s' y = status_of s y \/ status_of s y = Waiting /\ status_of s' y = Running.
Proof.
  intros [Wc _ _ Wx _ _]. unfold status_of. rewrite Wc. case_bool_decide; [by left|]. rewrite (bool_decide_eq_true_2 (y ∈ running_tasks (sys s'))) by (apply Wx; by left).
  case_bool_decide; [by left|by right].
Qed.
Lemma status_waiting s x : status_of s x = Waiting -> x ∉ running_tasks (sys s).
Proof. unfold status_of. repeat case_bool_decide; done. Qed.
Lemma measure_woken id s s' : quiet s -> woken (TSession id) s s' -> (measure s' <= measure s + 6)%nat.
Proof.
  intros Hq Hw. unfold measure. rewrite (w_places _ _ _ Hw), (w_current _ _ _ Hw).
  enough (total (fun x q => weight (status_of s' x) q) (places s) <= total (fun x q => weight (status_of s x) q) (places s) + 3)%nat by lia.
  apply (total_gain _ _ _ (TSession id)).
  - intros x q _ Hx. by rewrite (status_woken _ _ _ _ Hw Hx).
  - intros q Hx. destruct (status_woken_self _ _ _ Hw) as [-> |[Hwt ->]]; [lia|]. rewrite Hwt.
    destruct (q_sleep _ Hq _ _ Hx) as [Hr|[c ->]]; [by destruct (status_waiting _ _ Hwt)|]. cbn. lia.
Qed.
Lemma woken_wakeup s y : inv s -> is_Some (places s !! y) -> exists s', hev_task_wakeup y s = Ok s' /\ inv s' /\ woken y s s' /\ event_pipe s' = event_pipe s.
Proof.
  intros Hi Hy. destruct (inv_wakeup s y Hi Hy) as (c & E & Hi' & Hcc & _ & Hsub & Hx). exists (set_sys c s). split_and!; try done.
  split; try done. by left.
Qed.
Lemma woken_terminate s id : inv s -> is_Some (places s !! TSession id) ->
  exists s', hev_socks5_session_terminate id s = Ok s' /\ inv s' /\ woken (TSession id) s s' /\ event_pipe s' = event_pipe s.
Proof.
  intros Hi Hy. destruct (inv_wakeup _ (TSession id) (tinv_timeout s id 0 Hi Hy) Hy) as (c & E & Hi' & Hcc & _ & Hsub & Hx).
  eexists. split; [exact E|]. split_and!; try done. split; try done. cbn. intros i.
  destruct (decide (i = id)) as [->|]; [right; by rewrite lookup_insert_eq|left; by rewrite lookup_insert_ne].
Qed.

(** A session that was accepted. *)
Lemma quiet_started s id s1 : inv s -> quiet s -> run s = true -> session_new s = (id, s1) ->
  current_task (sys s) = Some TIo ->
  exists s', start_session id s1 = Ok s' /\ inv s' /\ quiet s' /\ current_task (sys s') = Some TIo /\ places s' !! TIo = places s !! TIo /\
    run s' = true /\ event_pipe s' = event_pipe s /\ (measure s' <= measure s + 32)%nat.
Proof.
  intros Hi Hq Hr E Hc. pose proof (inv_new s Hi) as Hn. rewrite E in Hn. destruct Hn as (Hi1 & Es & Ep & Er & Hno & Hid).
  pose proof (inv_start s1 id TIo Hi1 ltac:(congruence) Hid ltac:(congruence)) as Hst. rewrite Ep in Hst.
  destruct (i_tasks _ Hi Hr) as [_ [ptm Htm]]. rewrite Htm in Hst. destruct Hst as (c & l & m & Est & Hi' & Hcc & Hsub & Hx). rewrite Es in Hsub, Hx.
  set (s' := set_sys c (set_place (TSession id) SsStart (set_list l m s1))) in *. exists s'.
  assert (Hto : timeouts s' = <[id := -1]> (timeouts s)) by (injection E as <- <-; done).
  assert (Hpl : places s' = <[TSession id := SsStart]> (places s)) by (by unfold s'; cbn; rewrite Ep).
  assert (Hpr : run s' = run s) by exact Er.
  assert (Hcall : forall x q, places s' !! x = Some q -> (x = TSession id /\ q = SsStart) \/ (x <> TSession id /\ places s !! x = Some q)).
  { intros x q. rewrite Hpl. destruct (decide (x = TSession id)) as [->|Hne]; [rewrite lookup_insert_eq; intros [= <-]; by left|rewrite lookup_insert_ne by done; by right]. }
  split_and!; try done; [|rewrite Hpl, lookup_insert_ne by done; done|congruence|injection E as _ <-; done|].
  - split.
    + intros x q [(_ & ->)|(_ & H)]%Hcall; [done|by eapply (q_calm _ Hq)].
    + intros [(? & _)|(_ & H)]%Hcall; [done|]. destruct (q_start _ Hq H) as (_ & [?|[_ Hs]]); [congruence|]. split; [congruence|]. right. split; [cbn; congruence|].
      etrans; [exact Hs|exact Hsub].
    + congruence.
    + intros i q [([= ->] & ->)|(_ & H)]%Hcall; cbn; rewrite Hx; [auto|]. destruct (q_sleep _ Hq _ _ H); auto.
    + intros i q [([= ->] & ->)|(Hne & H)]%Hcall; [by left|]. rewrite Hto, lookup_insert_ne by congruence. by eapply (q_timeout _ Hq).
  - unfold measure. rewrite Hpl. cbn [s' sys set_sys]. rewrite Hcc, Hc.
    assert (Hst : forall x, x <> TSession id -> x <> TTimer -> status_of s' x = status_of s x).
    { intros x H1 H2. apply status_same; [cbn; congruence|]. cbn. rewrite Hx. naive_solver. }
    assert (Htms : (weight (status_of s' TTimer) ptm <= weight (status_of s TTimer) ptm + 5)%nat).
    { assert (Hts : status_of s' TTimer = status_of s TTimer \/ (status_of s TTimer = Waiting /\ status_of s' TTimer = Running)).
      { unfold status_of. cbn. rewrite Hcc, Hc. rewrite !(bool_decide_eq_false_2 (Some TIo = Some TTimer)) by done.
        rewrite (bool_decide_eq_true_2 (TTimer ∈ running_tasks c)) by (apply Hx; auto). case_bool_decide; auto. }
      destruct Hts as [-> |[-> ->]]; [lia|]. pose proof (i_fit _ Hi _ _ Htm) as Hf. destruct ptm; try discriminate Hf; cbn; lia. }
    rewrite total_insert by done.
    assert (Hw : (weight (status_of s' (TSession id)) SsStart = 11)%nat).
    { unfold status_of. cbn. rewrite Hcc, bool_decide_eq_false_2 by done. rewrite bool_decide_eq_true_2; [done|]. rewrite Hx. auto. }
    rewrite Hw. enough (total (fun x q => weight (status_of s' x) q) (places s) <= total (fun x q => weight (status_of s x) q) (places s) + 5)%nat by (repeat case_bool_decide; lia).
    apply (total_gain _ _ _ TTimer).
    + intros x q H Hne. rewrite Hst by congruence. done.
    + intros q H. rewrite Htm in H. by injection H as <-.
Qed.

(** * A step of a calm run *)
Section Calm.
Context (connect_timeout read_write_timeout : Z).
Hypothesis Hct : 0 <= connect_timeout.
Hypothesis Hrw : 0 <= read_write_timeout.
Notation exec := (exec connect_timeout read_write_timeout).
Notation step := (step connect_timeout read_write_timeout).

(** What a run of the current task leads to; [light] when nothing from outside was
    needed. *)
Definition progress (s : tunnel) (t : tid) (light : bool) (r : res (next_place * tunnel)) : Prop :=
  exists n s', r = Ok (n, s') /\ quiet (settle t n s') /\
    ((run s = true /\ run s' = false) \/
     (run s' = run s /\ event_pipe s' = event_pipe s /\ (light = true -> (measure (settle t n s') < measure s)%nat))).

Section Task.
Context (s : tunnel) (t : tid) (p : place).
Hypothesis Hi : inv s.
Hypothesis Hq : quiet s.
Hypothesis Hc : current_task (sys s) = Some t.
Hypothesis Hp : places s !! t = Some p.

(** Only the task moves. *)
Lemma progress_move s1 n light : sys s1 = sys s -> places s1 = places s -> run s1 = run s -> event_pipe s1 = event_pipe s ->
  (forall id, TSession id <> t -> timeouts s1 !! id = timeouts s !! id) ->
  admissible s s1 t n -> (light = true -> lighter p n) -> progress s t light (Ok (n, s1)).
Proof.
  intros H1 H2 H3 H4 H5 Ha Hl. exists n, s1. split; [done|]. split; [by eapply quiet_move|]. right. split_and!; try done.
  intros H. apply (measure_move s s1 t p); auto.
Qed.
Lemma not_stopped : (forall p', places s !! TIo = Some p' -> t = TIo -> p' <> IoTop /\ p' <> IoWoken) ->
  (forall p', places s !! TTimer = Some p' -> t = TTimer -> forall b, p' <> TmCheck b) -> run s = false -> t <> TIo /\ t <> TTimer.
Proof.
  intros H1 H2 Hr. destruct (q_stopped _ Hq Hr p) as [Hio Htm]. split; intros E.
  - assert (Hp' : places s !! TIo = Some p) by (by rewrite <- E). destruct (H1 p Hp' E), (Hio Hp') as [[?|?] _]; done.
  - assert (Hp' : places s !! TTimer = Some p) by (by rewrite <- E). destruct (Htm Hp') as [[b Hb] _]. by destruct (H2 p Hp' E b).
Qed.
Lemma own_timeout id : t = TSession id -> p <> SsStart -> 0 <= default 0 (timeouts s !! id).
Proof. intros E Hne. rewrite E in Hp. by destruct (q_timeout _ Hq _ _ Hp). Qed.

(** A place inside a section of the task, or before one. *)
Lemma fine_section s1 p' : (forall b, p <> TmCheck b) -> p <> IoTop -> p <> IoWoken -> p <> SsStart -> calm_place p' -> p' <> TmStart ->
  timeouts s1 = timeouts s -> fine s s1 t p'.
Proof.
  intros H1 H2 H3 H4 Hcp Hts Ht.
  assert (Hn : run s = false -> t <> TIo /\ t <> TTimer) by (apply not_stopped; intros q H E; rewrite <- E in H; naive_solver).
  split_and!; try done; [intros Hr E; by destruct (Hn Hr)|intros Hr; by apply Hn|]. intros id E. right. rewrite Ht. by apply own_timeout.
Qed.
End Task.

Lemma calm_lwip s t k e fx light : inv s -> quiet s -> current_task (sys s) = Some t -> places s !! t = Some (In k (e :: fx)) ->
  progress s t light (lwip t k (e :: fx) s).
Proof.
  intros Hi Hq Hc Hp. pose proof (q_calm _ Hq _ _ Hp) as Hcp. cbn in Hcp. apply Forall_cons in Hcp as [He Hfx].
  assert (Hsimple : progress s t light (Ok (Goto (In k fx), s))).
  { eapply progress_move; try done; [by apply (fine_section s t (In k (e :: fx)))|]. intros _. cbn [lighter]. rewrite weight_in. pose proof (cost_pos e). lia. }
  assert (Hwoken : forall id s', inv s' -> woken (TSession id) s s' -> event_pipe s' = event_pipe s -> cost e = 5%nat -> progress s t light (Ok (Goto (In k fx), s'))).
  { intros id s' Hi' Hw Hpipe Hcost. exists (Goto (In k fx)), s'. pose proof (quiet_woken _ _ _ Hq Hw) as Hq'.
    assert (Hc' : current_task (sys s') = Some t) by (by rewrite (w_current _ _ _ Hw)). assert (Hp' : places s' !! t = Some (In k (e :: fx))) by (by rewrite (w_places _ _ _ Hw)).
    split; [done|]. split; [eapply (quiet_move s' s' t); try done; by apply (fine_section s' t (In k (e :: fx)))|].
    right. split_and!; [apply (w_run _ _ _ Hw)|done|]. intros _. pose proof (measure_woken id s s' Hq Hw) as Hm.
    pose proof (measure_goto s' s' t (In k (e :: fx)) Hi' Hc' Hp' eq_refl eq_refl eq_refl 3%nat (In k fx)) as Hg. rewrite weight_in, Hcost in Hg. lia. }
  assert (Hstart : forall id s1, e <> Output 0 -> session_new s = (id, s1) -> k = IoInput (effects k) -> cost e = 18%nat ->
    progress s t light (s2 ← start_session id s1; '(w, s3) ← mret (None, s2); mret (match w with Some p => WaitIO p | None => Goto (In k fx) end, s3))).
  { intros id s1 _ E Hk Hcost. pose proof (i_fit _ Hi _ _ Hp) as Hf. rewrite Hk in Hf. assert (Ht : t = TIo) by (destruct t; done). subst t.
    assert (Hr : run s = true). { destruct (run s) eqn:Hr; [done|]. destruct (q_stopped _ Hq Hr (In k (e :: fx))) as [Hio _]. destruct (Hio Hp) as [[?|?] _]; done. }
    destruct (quiet_started s id s1 Hi Hq Hr E Hc) as (s' & -> & Hi' & Hq' & Hc' & Hp' & Hr' & Hpipe & Hm). cbn [mbind res_bind mret res_ret].
    rewrite Hp in Hp'. exists (Goto (In k fx)), s'. split; [done|]. split; [eapply (quiet_move s' s' TIo); try done; by apply (fine_section s' TIo (In k (e :: fx)))|].
    right. split_and!; [congruence|done|]. intros _.
    pose proof (measure_goto s' s' TIo (In k (e :: fx)) Hi' Hc' Hp' eq_refl eq_refl eq_refl 16%nat (In k fx)) as Hg. rewrite weight_in, Hcost in Hg. lia. }
  assert (Hkind : (match e with Accepted _ _ _ | Datagram _ _ => True | _ => False end) -> k = IoInput (effects k)) by (destruct e, k; done).
  destruct e as [n|err new_ok task_ok|new_ok task_ok|id|id]; cbn [lwip].
  - assert (n = 0%nat) as -> by (destruct k; exact He). exact Hsimple.
  - assert (task_ok = true) as -> by (destruct k; done). unfold tcp_accept_handler. destruct (negb (err =? 0)); [exact Hsimple|].
    destruct new_ok; cbn [negb]; [|exact Hsimple]. destruct (session_new s) as [id s1] eqn:E. rewrite res_bind_assoc. by apply Hstart; auto.
  - assert (task_ok = true) as -> by (destruct k; done). unfold udp_recv_handler.
    destruct new_ok; cbn [negb]; [|exact Hsimple]. destruct (session_new s) as [id s1] eqn:E. rewrite res_bind_assoc. by apply Hstart; auto.
  - case_bool_decide as Hid; [|exact Hsimple]. destruct (woken_terminate s id Hi Hid) as (s' & -> & Hi' & Hw & Hpipe). by eapply (Hwoken id).
  - case_bool_decide as Hid; [|exact Hsimple]. destruct (woken_wakeup s (TSession id) Hi Hid) as (s' & -> & Hi' & Hw & Hpipe). by eapply (Hwoken id).
Qed.

(** The mutex is free whenever a task wants it. *)
Lemma calm_no_waiters s : inv s -> quiet s -> waiters s = [].
Proof.
  intros Hi Hq. destruct (waiters s) as [|w ws] eqn:E; [done|]. destruct (proj1 (i_wait _ Hi w)) as (p & Hp & Hqp); [rewrite E; left|].
  pose proof (q_calm _ Hq _ _ Hp). by destruct p.
Qed.
Lemma calm_unlocked s t k : inv s -> quiet s -> current_task (sys s) = Some t -> places s !! t = Some (Lock k) -> locker s = false.
Proof.
  intros Hi Hq Hc Hp. destruct (locker s) eqn:E; [|done]. destruct (i_lock _ Hi E) as (t' & p' & Hp' & Hh).
  pose proof (q_calm _ Hq _ _ Hp') as Hcp. destruct p'; try done. pose proof (i_yield _ Hi _ _ Hp' eq_refl). congruence.
Qed.

Lemma calm_event s : inv s -> ev_run s -> quiet s -> current_task (sys s) = Some TEvent -> places s !! TEvent = Some EvRead -> 0 < event_pipe s ->
  exists s', event_task_entry s = Ok (Exit, s') /\ quiet (settle TEvent Exit s') /\ run s = true /\ run s' = false.
Proof.
  intros Hi He Hq Hc Hp Hpipe. destruct (event_task_ok s Hi He Hc Hp Hpipe) as (s' & E & Hi' & K & P & A & SL & M & L & Hd & T & R).
  destruct K as (Kc & _ & Kr & _ & _ & Ks & _). cbn in Kc, Kr, Ks. exists s'. split; [done|]. split; [|split; [apply He; eauto|done]].
  assert (Hc' : current_task (sys s') = Some TEvent) by congruence.
  destruct (leave_ok (sys s') HEV_TASK_SCHED_REMOVE TEvent (i_ctx _ Hi') (co_current _ (i_ctx _ Hi') _ Hc')) as (_ & Hcu & _ & Hru).
  assert (F : forall x q, places (settle TEvent Exit s') !! x = Some q -> x <> TEvent /\ places s !! x = Some q).
  { intros x q H. cbn in H. apply lookup_delete_Some in H as [? H]. by rewrite P in H. }
  assert (Hin : forall x, x <> TEvent -> x ∈ running_tasks (sys (settle TEvent Exit s')) <-> x ∈ running_tasks (sys s')) by (intros x Hx; cbn; rewrite Hru; naive_solver).
  assert (Hy : forall x q, x <> TEvent -> places s !! x = Some q -> yielded q = true) by (intros x q Hx Hpx; destruct (yielded q) eqn:Ey; [done|]; pose proof (i_yield _ Hi _ _ Hpx Ey); congruence).
  split.
  - intros x q [_ H]%F. by eapply (q_calm _ Hq).
  - intros [_ H]%F. destruct (q_start _ Hq H) as (_ & [?|[? _]]); congruence.
  - intros _ q. split; intros [Hne H]%F; rewrite Hin, R by done; pose proof (i_fit _ Hi _ _ H) as Hf; pose proof (q_calm _ Hq _ _ H) as Hcp; pose proof (Hy _ _ Hne H) as Hyq.
    + destruct q; try done; (split; [by auto|right; by left]).
    + destruct q; try done; [destruct (q_start _ Hq H) as (_ & [?|[? _]]); congruence|]. split; [by eauto|right; right; by left].
  - intros id q [Hne H]%F. rewrite Hin, R by done. destruct (q_sleep _ Hq _ _ H); auto.
  - intros id q [Hne H]%F. change (timeouts (settle TEvent Exit s')) with (timeouts s'). rewrite T.
    destruct (q_timeout _ Hq _ _ H) as [?|?]; [by left|]. right. case_bool_decide; [cbn; lia|done].
Qed.

Lemma calm_io s p a light : inv s -> quiet s -> current_task (sys s) = Some TIo -> places s !! TIo = Some p -> calm_answer a ->
  match p with IoTop | IoAllocated | IoRead | IoWoken => True | _ => False end ->
  (light = true -> outside (Exec a) s = false) -> progress s TIo light (Ok (lwip_io_task_entry p a s, s)).
Proof.
  intros Hi Hq Hc Hp (_ & Ha & _) Hcase Hl. cbn [outside] in Hl. rewrite Hc in Hl. cbn [mbind option_bind] in Hl. rewrite Hp in Hl.
  assert (Hr : p <> IoTop -> p <> IoWoken -> run s = true).
  { intros H1 H2. destruct (run s) eqn:E; [done|]. destruct (q_stopped _ Hq E p) as [H _]. destruct (H Hp) as [[?|?] _]; done. }
  assert (Hf : forall p', calm_place p' -> p' <> TmStart -> (run s = false -> p' = IoTop \/ p' = IoWoken) -> fine s s TIo p').
  { intros p' ? ? ?. by split_and!; auto. }
  assert (Hgo : forall p', calm_place p' -> p' <> TmStart -> (run s = false -> p' = IoTop \/ p' = IoWoken) ->
    (light = true -> (weight Current p' < weight Current p)%nat) -> progress s TIo light (Ok (Goto p', s))).
  { intros p' ? ? ? ?. eapply (progress_move s TIo p Hi Hq Hc Hp s (Goto p')); try done. by apply Hf. }
  destruct p; try done; cbn [lwip_io_task_entry].
  - destruct (run s) eqn:E; [apply Hgo; [constructor|done|done|intros _; cbn; lia]|].
    eapply (progress_move s TIo IoTop Hi Hq Hc Hp s Exit); try done. intros _. cbn. lia.
  - specialize (Hr ltac:(done) ltac:(done)). destruct (a_alloc a).
    + apply Hgo; [done|done|congruence|intros _; cbn; lia].
    + eapply (progress_move s TIo IoAllocated Hi Hq Hc Hp s (WaitIO IoTop)); try done; [split; [apply Hf; [done|done|by left]|split; [congruence|done]]|].
      intros H. by specialize (Hl H).
  - specialize (Hr ltac:(done) ltac:(done)). destruct (a_read a).
    + eapply (progress_move s TIo IoRead Hi Hq Hc Hp s (WaitIO IoWoken)); try done; [split; [apply Hf; [done|done|by right]|split; [congruence|done]]|].
      intros _. cbn. lia.
    + apply Hgo; [done|done|by left|]. intros H. by specialize (Hl H).
    + apply Hgo; [exact Ha|done|congruence|]. intros H. by specialize (Hl H).
  - unfold task_io_yielder. destruct (run s) eqn:E; cbn.
    + apply Hgo; [done|done|done|intros _; cbn; lia].
    + apply Hgo; [done|done|by left|intros _; cbn; lia].
Qed.

Lemma calm_timer s p a light : inv s -> quiet s -> current_task (sys s) = Some TTimer -> places s !! TTimer = Some p -> calm_answer a ->
  match p with TmStart | TmTop | TmCheck _ => True | _ => False end ->
  (light = true -> outside (Exec a) s = false) -> progress s TTimer light (Ok (lwip_timer_task_entry p a s, s)).
Proof.
  intros Hi Hq Hc Hp (Ha & _) Hcase Hl. cbn [outside] in Hl. rewrite Hc in Hl. cbn [mbind option_bind] in Hl. rewrite Hp in Hl.
  assert (Hr : (forall b, p <> TmCheck b) -> run s = true).
  { intros H1. destruct (run s) eqn:E; [done|]. destruct (q_stopped _ Hq E p) as [_ H]. destruct (H Hp) as [[b Hb] _]. by destruct (H1 b). }
  assert (Hf : forall p', run s = true -> calm_place p' -> p' <> TmStart -> fine s s TTimer p') by (intros p' ? ? ?; by split_and!; auto; congruence).
  assert (Hw : forall b, run s = true -> (5 <= weight Current p)%nat -> progress s TTimer light (Ok (WaitIO (TmCheck b), s))).
  { intros b Hrt Hwt. eapply (progress_move s TTimer p Hi Hq Hc Hp s (WaitIO (TmCheck b))); try done; split; [by apply Hf|done]. }
  destruct p; try done; cbn [lwip_timer_task_entry].
  - apply Hw; [by apply Hr|cbn; lia].
  - apply Hw; [by apply Hr|cbn; lia].
  - destruct (run s) eqn:E.
    + eapply (progress_move s TTimer (TmCheck slept) Hi Hq Hc Hp s (Goto (Lock (TmTick (a_fx a))))); try done; [by apply Hf|]. intros H. specialize (Hl H). destruct (a_fx a); [cbn; lia|done].
    + eapply (progress_move s TTimer (TmCheck slept) Hi Hq Hc Hp s Exit); try done. intros _. cbn. lia.
Qed.

Lemma calm_session s id p a light : inv s -> quiet s -> current_task (sys s) = Some (TSession id) -> places s !! TSession id = Some p -> calm_answer a ->
  match p with SsStart | SsBody _ | SsSlept _ _ | SsDel | SsFree => True | _ => False end ->
  (light = true -> outside (Exec a) s = false) ->
  progress s (TSession id) light (hev_socks5_session_task_entry connect_timeout read_write_timeout id p a s).
Proof.
  intros Hi Hq Hc Hp (Hfx & _ & Ha) Hcase Hl. cbn [outside] in Hl. rewrite Hc in Hl. cbn [mbind option_bind] in Hl. rewrite Hp in Hl.
  assert (Hto : p = SsStart \/ 0 <= default 0 (timeouts s !! id)) by (by eapply (q_timeout _ Hq)).
  assert (Hmove : forall s1 p', sys s1 = sys s -> places s1 = places s -> run s1 = run s -> event_pipe s1 = event_pipe s ->
    (forall i, i <> id -> timeouts s1 !! i = timeouts s !! i) -> 0 <= default 0 (timeouts s1 !! id) -> calm_place p' -> p' <> TmStart ->
    (light = true -> (weight Current p' < weight Current p)%nat) -> progress s (TSession id) light (Ok (Goto p', s1))).
  { intros s1 p' ? ? ? ? Ht H0 ? ? ?. eapply (progress_move s (TSession id) p Hi Hq Hc Hp s1 (Goto p')); try done; [intros i Hne; apply Ht; congruence|].
    split_and!; try done. intros i [= <-]. by right. }
  assert (Hset : forall n i, i <> id -> timeouts (hev_socks5_set_timeout id n s) !! i = timeouts s !! i) by (intros n i Hn; cbn; by rewrite lookup_insert_ne).
  assert (Hget : forall n, default 0 (timeouts (hev_socks5_set_timeout id n s) !! id) = n) by (intros n; cbn; by rewrite lookup_insert_eq).
  destruct p; try done; cbn [hev_socks5_session_task_entry].
  - apply Hmove; try done; [intros i; apply Hset|by rewrite Hget|intros _; cbn; lia].
  - destruct Hto as [?|Hto]; [done|]. destruct (a_do a) eqn:Ea; cbn [mret res_ret].
    + eapply (progress_move s (TSession id) (SsBody connected) Hi Hq Hc Hp s (Yield (SsBody connected))); try done; [split; [|by eauto]; split_and!; try done; intros i [= <-]; by right|].
      intros H. by specialize (Hl H).
    + unfold session_wait. replace (default 0 (timeouts s !! id) <? 0) with false by lia.
      destruct (Z.eqb_spec (default 0 (timeouts s !! id)) 0); [apply Hmove; try done; intros _; cbn; lia|].
      eapply (progress_move s (TSession id) (SsBody connected) Hi Hq Hc Hp s (WaitIO (SsSlept connected false))); try done;
        [split; [|split; [done|by eauto]]; split_and!; try done; intros i [= <-]; by right|]. intros _. cbn. lia.
    + destruct connected; [apply Hmove; try done; intros H; by specialize (Hl H)|].
      apply Hmove; try done; [intros i; apply Hset|by rewrite Hget|intros H; by specialize (Hl H)].
    + apply Hmove; try done. intros H. by specialize (Hl H).
    + apply Hmove; try done. intros _. cbn. lia.
  - destruct Hto as [?|Hto]; [done|]. destruct expired, (a_left a); cbn; apply Hmove; try done; intros _; cbn; lia.
  - destruct Hto as [?|Hto]; [done|]. destruct (inv_del s id (a_fx a) Hi Hc Hp) as (l & m & -> & _). cbn [mbind res_bind mret res_ret].
    apply Hmove; try done. intros H. specialize (Hl H). destruct (a_fx a); [cbn; lia|done].
  - eapply (progress_move s (TSession id) SsFree Hi Hq Hc Hp (session_free id s) Exit); try done; [|intros _; cbn; lia].
    intros i Hne. cbn. rewrite lookup_delete_ne by congruence. done.
Qed.

Lemma calm_exec s t p a light : inv s -> ev_run s -> quiet s -> current_task (sys s) = Some t -> places s !! t = Some p -> calm_answer a ->
  (light = true -> outside (Exec a) s = false /\ requested s) -> progress s t light (exec t p a s).
Proof.
  intros Hi He Hq Hc Hp Ha Hl. pose proof (i_fit _ Hi _ _ Hp) as Hf. pose proof (q_calm _ Hq _ _ Hp) as Hcp.
  assert (Hl' : light = true -> outside (Exec a) s = false) by (intros H; by apply Hl).
  destruct p; cbn [HevTunnel.exec]; try (cbn in Hf; destruct t; discriminate Hf); try done;
    try (destruct t; try discriminate Hf; first [by apply calm_io|by apply calm_timer|by apply calm_session]).
  - destruct t; try discriminate Hf. destruct (Z.leb_spec (event_pipe s) 0) as [Hz|Hz].
    + unfold event_task_entry. replace (event_pipe s <=? 0) with true by lia. assert (Hr : run s = true) by (apply He; eauto).
      eapply (progress_move s TEvent EvRead Hi Hq Hc Hp s (WaitIO EvRead)); try done. intros H. destruct (Hl H) as [_ [?|?]]; [congruence|lia].
    + destruct (calm_event s Hi He Hq Hc Hp Hz) as (s' & -> & Hq' & Hr & Hr'). exists Exit, s'. split; [done|]. split; [done|]. by left.
  - unfold hev_task_mutex_lock. rewrite (calm_unlocked s t k Hi Hq Hc Hp). eapply (progress_move s t (Lock k) Hi Hq Hc Hp (set_mutex true (waiters s) s) (Goto (In k (effects k)))); try done.
    + by apply (fine_section s t (Lock k)).
    + intros _. cbn [lighter]. destruct k; cbn [effects weight]; fold (costs fx) || change (costs []) with 0%nat; lia.
  - destruct fx as [|e fx]; [|by apply calm_lwip]. cbn [lwip]. unfold hev_task_mutex_unlock. cbn [waiters set_mutex]. rewrite (calm_no_waiters s Hi Hq).
    cbn [mbind res_bind mret res_ret]. eapply (progress_move s t (In k []) Hi Hq Hc Hp (set_mutex false [] s) (Goto (after k))); try done.
    + apply (fine_section s t (In k [])); try done; by destruct k.
    + intros _. cbn [lighter weight]. destruct k; cbn; lia.
Qed.

(** A poll, and the choice of the next task. *)
Definition expire (p : place) : place := match p with SsSlept c _ => SsSlept c true | _ => p end.
Lemma expire_idem p : expire (expire p) = expire p.
Proof. by destruct p. Qed.
Lemma note_expired_exact ready m t :
  foldr note_expired m ready !! t = if bool_decide ((t, true) ∈ ready) then expire <$> m !! t else m !! t.
Proof.
  induction ready as [|[x b] ready IH]; cbn [foldr note_expired].
  { rewrite bool_decide_eq_false_2; [done|]. intros H. by apply elem_of_nil in H. }
  destruct b.
  - destruct (decide (x = t)) as [->|Hne].
    + rewrite lookup_alter_eq, IH. rewrite (bool_decide_eq_true_2 ((t, true) ∈ (t, true) :: ready)) by left.
      change (fun p => match p with SsSlept c _ => SsSlept c true | _ => p end) with expire.
      case_bool_decide; [|done]. destruct (m !! t); cbn; [by rewrite expire_idem|done].
    + rewrite lookup_alter_ne, IH by done. repeat case_bool_decide; try done; set_solver.
  - rewrite IH. repeat case_bool_decide; try done; set_solver.
Qed.
Lemma weight_current p : (weight Current p <= weight Running p)%nat.
Proof. destruct p; cbn; try lia. destruct expired; lia. Qed.

Section Schedule.
Context (s : tunnel) (ready : list (tid * bool)) (c : HevTaskSystemContext).
Hypothesis Hi : inv s.
Hypothesis Hq : quiet s.
Hypothesis Hnone : current_task (sys s) = None.
Hypothesis Hready : forall x, x ∈ ready -> ready_ok s x = true.
Hypothesis Hco : ctx_ok c.
Hypothesis Hru : forall x, x ∈ running_tasks c <-> x ∈ map fst ready \/ x ∈ running_tasks (sys s).
Hypothesis Hsub : running_tasks (sys s) `sublist_of` running_tasks c.
Let s' := set_sys (set_current (List.hd_error (running_tasks c)) c) (set_places (foldr note_expired (places s) ready) s).

Lemma ready_waits t b : (t, b) ∈ ready -> (t ∉ running_tasks (sys s)) /\ exists p, places s !! t = Some p /\ if b : bool then sleeps p = true else has_event t s = true.
Proof.
  intros H. apply Hready in H. cbn in H. destruct (task_table (sys s) !! t) as [k|] eqn:Ek; [|done]. destruct (places s !! t) as [p|] eqn:Ep; [|done].
  apply andb_prop in H as [Hr H]. split; [|exists p; split; [done|by destruct b]].
  intros Hin. apply (co_running _ (i_ctx _ Hi)) in Hin as (k' & Hk' & Hrk). rewrite Ek in Hk'. injection Hk' as <-. rewrite Hrk in Hr. done.
Qed.
Lemma place_noted t p' : places s' !! t = Some p' ->
  exists p, places s !! t = Some p /\ (((t, true) ∉ ready) /\ p' = p \/ ((t, true) ∈ ready) /\ p' = expire p).
Proof.
  cbn. rewrite note_expired_exact. case_bool_decide as H; [|eauto]. destruct (places s !! t) as [p|]; cbn; [|done]. intros [= <-]. eauto.
Qed.
Lemma in_ready t : t ∈ map fst ready <-> exists b, (t, b) ∈ ready.
Proof. rewrite list_elem_of_fmap. split; [intros ([x b] & -> & H); eauto|intros [b H]; by exists (t, b)]. Qed.

Lemma quiet_schedule : quiet s'.
Proof.
  split.
  - intros t p' (p & Hp & [[_ ->]|[_ ->]])%place_noted; pose proof (q_calm _ Hq _ _ Hp); [done|by destruct p].
  - intros (p & Hp & Hp')%place_noted. assert (p = TmStart) as -> by (destruct Hp' as [[_ E]|[_ E]]; [done|by destruct p]).
    destruct (q_start _ Hq Hp) as (Hr & [E|[_ Hs]]); [congruence|]. split; [done|]. cbn.
    assert (Hs' : [TTimer; TEvent] `sublist_of` running_tasks c) by (by etrans).
    destruct (running_tasks c) as [|x l] eqn:El; [by apply sublist_nil_r in Hs'|]. cbn. destruct (decide (x = TTimer)) as [->|Hx]; [by left|]. right.
    split; [|done]. intros [= ->]. apply sublist_cons_r in Hs' as [Hs'|(l' & ? & _)]; [|congruence].
    pose proof (co_nodup _ Hco) as Hn. rewrite El in Hn. apply NoDup_cons in Hn as [Hn _]. apply Hn.
    assert (Hin : [TEvent] `sublist_of` l) by (etrans; [|exact Hs']; by do 3 constructor). by apply singleton_sublist_l in Hin.
  - intros Hr q. split; intros (p & Hp & Hp')%place_noted; destruct (q_stopped _ Hq Hr p) as [H1 H2].
    + destruct (H1 Hp) as [Hc Hin]. split; [|apply Hru; by right]. destruct Hp' as [[_ ->]|[_ ->]]; [done|]. by destruct Hc as [-> | ->]; [left|right].
    + destruct (H2 Hp) as [[b ->] Hin]. split; [|apply Hru; by right]. destruct Hp' as [[_ ->]|[_ ->]]; by exists b.
  - intros id q (p & Hp & Hp')%place_noted. cbn. rewrite Hru. destruct Hp' as [[_ ->]|[Hin ->]].
    + destruct (q_sleep _ Hq _ _ Hp); auto.
    + left. left. apply in_ready. eauto.
  - intros id q (p & Hp & Hp')%place_noted. destruct (q_timeout _ Hq _ _ Hp) as [->|Hto]; [left; by destruct Hp' as [[_ ->]|[_ ->]]|by right].
Qed.

Lemma measure_schedule : (forall t, (t, false) ∈ ready -> t = TEvent) -> (TTimer, true) ∉ ready -> running_tasks c <> [] -> (measure s' < measure s)%nat.
Proof.
  intros Hout Htmr Hne. unfold measure. rewrite (bool_decide_eq_true_2 (current_task (sys s) = None)) by done.
  rewrite bool_decide_eq_false_2 by (cbn; by destruct (running_tasks c)).
  enough (total (fun t p => weight (status_of s' t) p) (places s') <= total (fun t p => weight (status_of s t) p) (places s))%nat by lia.
  apply total_le. intros t p' (p & Hp & Hp')%place_noted. exists p. split; [done|].
  assert (Hst : status_of s t = if bool_decide (t ∈ running_tasks (sys s)) then Running else Waiting).
  { unfold status_of. rewrite Hnone. by rewrite (bool_decide_eq_false_2 (None = Some t)). }
  assert (Hst' : t ∈ running_tasks c -> status_of s' t = Current \/ status_of s' t = Running).
  { intros Hin. unfold status_of. cbn [s' sys set_sys current_task set_current running_tasks]. rewrite (bool_decide_eq_true_2 (t ∈ running_tasks c)) by done. match goal with |- context [if ?b then _ else _] => destruct b end; auto. }
  rewrite Hst. case_bool_decide as Hr.
  - assert (Hno : forall b, (t, b) ∉ ready) by (intros b Hin; by destruct (ready_waits t b Hin)).
    destruct Hp' as [[_ ->]|[Hin _]]; [|by destruct (Hno _ Hin)]. destruct (Hst' ltac:(apply Hru; by right)) as [-> | ->]; [apply weight_current|done].
  - destruct (decide (t ∈ map fst ready)) as [Hin|Hin].
    + assert (Hw : (weight Running p' <= weight Waiting p)%nat).
      { apply in_ready in Hin as [[] Hb]; destruct (ready_waits _ _ Hb) as (_ & q & Hpq & Hev); rewrite Hp in Hpq; injection Hpq as <-.
        - destruct Hp' as [[Hn _]|[_ ->]]; [by destruct Hn|]. pose proof (i_fit _ Hi _ _ Hp) as Hf. destruct p; try discriminate Hev; cbn; try lia; [|destruct expired; lia].
          destruct t; try discriminate Hf. by destruct Htmr.
        - apply Hout in Hb as ->. pose proof (i_fit _ Hi _ _ Hp) as Hf. destruct p; try discriminate Hf; destruct Hp' as [[_ ->]|[_ ->]]; cbn; lia. }
      destruct (Hst' ltac:(apply Hru; by left)) as [-> | ->]; [pose proof (weight_current p')|]; lia.
    + assert (Hn : t ∉ running_tasks c) by (rewrite Hru; tauto).
      assert (status_of s' t = Waiting) as ->.
      { unfold status_of. cbn. rewrite bool_decide_eq_false_2; [by rewrite bool_decide_eq_false_2|].
        intros Hhd. destruct (running_tasks c); [done|]. injection Hhd as ->. apply Hn. left. }
      destruct Hp' as [[_ ->]|[Hb _]]; [done|]. destruct Hin. apply in_ready. eauto.
Qed.
End Schedule.

Lemma measure_pipe s n : measure (set_pipe n s) = measure s.
Proof. done. Qed.
Lemma calm_step s c : inv s -> ev_run s -> quiet s -> calm c -> enabled c s = true ->
  exists s', step c s = Ok s' /\ inv s' /\ ev_run s' /\ quiet s' /\ (requested s -> requested s') /\
    ((run s = true /\ run s' = false) \/ (run s' = run s /\ (outside c s = false -> requested s -> (measure s' < measure s)%nat))).
Proof.
  intros Hi He Hq Hcalm Hen. pose proof (step_inv connect_timeout read_write_timeout s c Hi He Hen) as Hstep.
  destruct c as [a|ready|]; cbn [enabled] in Hen.
  - apply bool_decide_eq_true in Hen as [t Hc]. cbn [HevTunnel.step] in *. rewrite Hc in *.
    destruct (places s !! t) as [p|] eqn:Hp; [|by destruct Hstep].
    assert (H : progress s t (negb (outside (Exec a) s) && bool_decide (requested s)) (exec t p a s)).
    { apply calm_exec; try done. intros [H1 H2]%andb_prop. split; [by destruct (outside (Exec a) s)|by apply bool_decide_eq_true in H2]. }
    destruct H as (n & s1 & E & Hq1 & H). rewrite E in *. cbn [mbind res_bind mret res_ret] in *. destruct Hstep as [Hi' He']. exists (settle t n s1).
    split_and!; try done; rewrite ?settle_run.
    + unfold requested. rewrite settle_run. replace (event_pipe (settle t n s1)) with (event_pipe s1) by (by destruct n).
      destruct H as [[_ ->]|(-> & -> & _)]; [by left|done].
    + destruct H as [?|(Hr & _ & H)]; [by left|]. right. split; [done|]. intros H1 H2. apply H. rewrite H1. by rewrite bool_decide_eq_true_2.
  - apply andb_prop in Hen as [[Hn Hr]%andb_prop Hne]. apply bool_decide_eq_true in Hn. cbn [HevTunnel.step] in *.
    assert (Hready : forall x, x ∈ ready -> ready_ok s x = true) by (intros x Hx; rewrite forallb_forall in Hr; by apply Hr, list_elem_of_In).
    assert (Hta : Forall (fun t => t ∈ tasks (sys s)) (map fst ready)).
    { apply Forall_forall. intros t ([t' b] & -> & Hin)%list_elem_of_fmap. destruct (ready_waits s ready Hi Hready t' b Hin) as (_ & p & Hp & _).
      rewrite <- (i_dom _ Hi). apply elem_of_dom. eauto. }
    destruct (io_poll_ok _ _ (i_ctx _ Hi) Hta) as (c & E & Hco & _ & _ & Hsub & Hx). unfold hev_task_system_pick_current_task in *. rewrite E in *.
    cbn [mbind res_bind mret res_ret] in *. destruct Hstep as [Hi' He']. eexists. split; [reflexivity|]. split_and!; try done.
    + by apply quiet_schedule.
    + right. split; [done|]. intros Hout _. cbn in Hout.
      assert (Hno : forall x, x ∈ ready -> match x.1 with TIo | TSession _ => negb x.2 | TTimer => x.2 | TEvent => false end = true -> False).
      { intros x Hxr Hb. enough (existsb (fun x => match x.1 with TIo | TSession _ => negb x.2 | TTimer => x.2 | TEvent => false end) ready = true) by congruence.
        apply existsb_exists. exists x. split; [by apply list_elem_of_In|done]. }
      apply measure_schedule; try done.
      * intros t Hin. destruct (decide (t = TEvent)) as [|Hne']; [done|]. exfalso.
        destruct (ready_waits s ready Hi Hready t false Hin) as (_ & p & _ & Hev).
        apply Hno with (t, false); [done|]. by destruct t.
      * intros Hin. by apply Hno with (TTimer, true).
      * intros Hnil. destruct ready as [|x ready].
        -- cbn in E. injection E as <-. rewrite Hnil in Hne. done.
        -- assert (Hin : x.1 ∈ running_tasks c) by (apply Hx; left; by left). rewrite Hnil in Hin. by apply elem_of_nil in Hin.
  - cbn [HevTunnel.step] in *. destruct Hstep as [Hi' He']. eexists. split; [reflexivity|]. split_and!; try done.
    + unfold hev_socks5_tunnel_stop. destruct (event_fd s =? -1); [done|]. by destruct Hq.
    + unfold hev_socks5_tunnel_stop, requested. destruct (event_fd s =? -1); [done|]. cbn. intros [?|?]; [by left|right; lia].
    + right. split; [unfold hev_socks5_tunnel_stop; by destruct (event_fd s =? -1)|]. done.
Qed.

(** Something can always be done without help from outside. *)
Definition idle_answer : answer := Answer true Again [] DoReturn false.
Lemma idle_calm : calm_answer idle_answer.
Proof. split_and!; constructor. Qed.
Lemma calm_progress s : inv s -> ev_run s -> quiet s -> requested s -> finished s = false ->
  exists c, calm c /\ enabled c s = true /\ outside c s = false.
Proof.
  intros Hi He Hq Hreq Hf. destruct (current_task (sys s)) as [t|] eqn:Hc.
  - assert (Hen : enabled (Exec idle_answer) s = true) by (cbn; rewrite Hc; by apply bool_decide_eq_true_2).
    destruct (places s !! t) as [p|] eqn:Hp; [|exists (Exec idle_answer); split_and!; [apply idle_calm|done|]; cbn; rewrite Hc; cbn; by rewrite Hp].
    destruct (outside (Exec idle_answer) s) eqn:Ho; [|exists (Exec idle_answer); split_and!; [apply idle_calm|done|done]].
    exfalso. cbn in Ho. rewrite Hc in Ho. cbn in Ho. rewrite Hp in Ho. destruct p; discriminate Ho.
  - assert (Hpick : forall ready, forallb (ready_ok s) ready = true -> (running_tasks (sys s) <> [] \/ ready <> []) -> enabled (Schedule ready) s = true).
    { intros ready H1 H2. cbn. rewrite Hc, H1, (bool_decide_eq_true_2 (None = None)) by done. cbn.
      destruct H2; [rewrite (bool_decide_eq_false_2 (running_tasks (sys s) = []))|rewrite (bool_decide_eq_false_2 (ready = []))]; rewrite ?andb_false_r; done. }
    destruct (running_tasks (sys s)) as [|x l] eqn:Er; [|exists (Schedule []); split_and!; [done|apply Hpick; [done|by left]|done]].
    assert (Hw : forall t p, places s !! t = Some p -> exists k, task_table (sys s) !! t = Some k /\ running k = false).
    { intros t p Hp. assert (Ht : t ∈ tasks (sys s)) by (rewrite <- (i_dom _ Hi); apply elem_of_dom; eauto). apply elem_of_tasks in Ht as [k Hk].
      exists k. split; [done|]. destruct (running k) eqn:E; [|done]. assert (Hin : t ∈ running_tasks (sys s)) by (apply (co_running _ (i_ctx _ Hi)); eauto).
      rewrite Er in Hin. by apply elem_of_nil in Hin. }
    destruct (run s) eqn:Hr.
    + destruct Hreq as [?|Hpipe]; [congruence|]. destruct (proj2 He Hr) as [p Hp]. destruct (Hw _ _ Hp) as (k & Hk & Hkr).
      exists (Schedule [(TEvent, false)]). split_and!; [done|apply Hpick; [|by right]|done]. cbn. rewrite Hk, Hp, Hkr. cbn. lia.
    + assert (Hne : exists t p, places s !! t = Some p).
      { destruct (map_choose (places s)) as (t & p & Hp); [|eauto]. intros Hem. assert (Ht : task_table (sys s) = ∅).
        { apply dom_empty_inv_L. change (tasks (sys s) = ∅). rewrite <- (i_dom _ Hi), Hem. apply dom_empty_L. }
        unfold finished in Hf. rewrite Ht, Hc in Hf. by rewrite !bool_decide_eq_true_2 in Hf. }
      destruct Hne as (t & p & Hp). destruct (Hw _ _ Hp) as (k & Hk & Hkr). destruct t as [| | |id].
      * assert (Hrt : run s = true) by (apply He; eauto). congruence.
      * destruct (q_stopped _ Hq Hr p) as [H _]. destruct (H Hp) as [_ Hin]. rewrite Er in Hin. by apply elem_of_nil in Hin.
      * destruct (q_stopped _ Hq Hr p) as [_ H]. destruct (H Hp) as [_ Hin]. rewrite Er in Hin. by apply elem_of_nil in Hin.
      * destruct (q_sleep _ Hq _ _ Hp) as [Hin|[c ->]]; [rewrite Er in Hin; by apply elem_of_nil in Hin|].
        exists (Schedule [(TSession id, true)]). split_and!; [done|apply Hpick; [|by right]|done]. cbn. by rewrite Hk, Hp, Hkr.
Qed.

Lemma run_quiet fd : quiet (hev_socks5_tunnel_run fd).
Proof.
  assert (Hp : forall t p, places (hev_socks5_tunnel_run fd) !! t = Some p -> (t = TEvent /\ p = EvRead) \/ (t = TIo /\ p = IoTop) \/ (t = TTimer /\ p = TmStart)).
  { intros t p H. cbn in H. apply lookup_insert_Some in H as [[<- <-]|[_ H]]; [by left|].
    apply lookup_insert_Some in H as [[<- <-]|[_ H]]; [right; by left|]. apply lookup_singleton_Some in H as [<- <-]. right; by right. }
  split; try done.
  - intros t p [(-> & ->)|[(-> & ->)|(-> & ->)]]%Hp; done.
  - intros _. split; [done|]. right. split; [done|]. vm_compute. by do 4 constructor.
Qed.
Lemma calm_reachable fd s : reachable connect_timeout read_write_timeout calm fd s -> inv s /\ ev_run s /\ quiet s.
Proof.
  induction 1 as [|s c s' _ (Hi & He & Hq) Hc Hen E].
  - destruct (run_inv fd). split_and!; [done..|apply run_quiet].
  - destruct (calm_step s c Hi He Hq Hc Hen) as (s1 & E1 & ? & ? & ? & _). rewrite E in E1. injection E1 as <-. done.
Qed.

(** Whatever is chosen, all tasks end, when there are at most [n] more events
    outside; and where none has to come, one of the other choices is there. *)
Inductive ends : nat -> tunnel -> Prop :=
  | ends_now n s : finished s = true -> ends n s
  | ends_later n s :
      (exists c, calm c /\ enabled c s = true /\ outside c s = false) ->
      (forall c, calm c -> enabled c s = true -> exists s', step c s = Ok s') ->
      (forall c s', calm c -> enabled c s = true -> outside c s = false -> step c s = Ok s' -> ends n s') ->
      (forall m c s', n = S m -> calm c -> enabled c s = true -> outside c s = true -> step c s = Ok s' -> ends m s') ->
      ends n s.

Lemma ends_all n : forall s, inv s -> ev_run s -> quiet s -> requested s -> ends n s.
Proof.
  induction n as [n IHn] using lt_wf_ind.
  assert (Hrun : forall r m s, run s = r -> (measure s < m)%nat -> inv s -> ev_run s -> quiet s -> requested s ->
    (r = true -> forall s', run s' = false -> inv s' -> ev_run s' -> quiet s' -> requested s' -> ends n s') -> ends n s).
  { intros r m. induction m as [|m IHm]; intros s Hr Hm Hi He Hq Hreq Hoff; [lia|].
    destruct (finished s) eqn:Hf; [by apply ends_now|].
    assert (Hstep : forall c s', calm c -> enabled c s = true -> step c s = Ok s' -> inv s' /\ ev_run s' /\ quiet s' /\ requested s' /\
      (outside c s = false -> (run s = true /\ run s' = false) \/ (run s' = run s /\ (measure s' < measure s)%nat))).
    { intros c s' Hc Hen E. destruct (calm_step s c Hi He Hq Hc Hen) as (s1 & E1 & Hi' & He' & Hq' & Hreq' & Hcase). rewrite E in E1. injection E1 as <-.
      split_and!; auto. intros Ho. destruct Hcase as [?|[? ?]]; auto. }
    apply ends_later; [by apply calm_progress|..].
    - intros c Hc Hen. destruct (calm_step s c Hi He Hq Hc Hen) as (s' & E & _). eauto.
    - intros c s' Hc Hen Ho E. destruct (Hstep c s' Hc Hen E) as (Hi' & He' & Hq' & Hreq' & Hcase).
      destruct (Hcase Ho) as [[Hr1 Hr2]|[Hr' Hlt]]; [apply Hoff; auto; congruence|]. apply IHm; auto; [congruence|lia].
    - intros k c s' -> Hc Hen _ E. destruct (Hstep c s' Hc Hen E) as (Hi' & He' & Hq' & Hreq' & _). apply IHn; auto. }
  assert (Hoff : forall s, run s = false -> inv s -> ev_run s -> quiet s -> requested s -> ends n s) by (intros s Hr Hi He Hq Hreq; by eapply (Hrun false (S (measure s))); eauto).
  intros s Hi He Hq Hreq. destruct (run s) eqn:Hr; [|by apply Hoff]. eapply (Hrun true (S (measure s))); eauto.
Qed.
End Calm.

(** * Theorems *)

(** C26: the tasks of the tunnel under every schedule, with all that lwIP, the
    device, the allocator and the network may answer, also while the device has no
    room and a task waits for it with the mutex held: at most one task is inside
    the mutex, which is taken exactly while one is; a free mutex has woken the
    waiter whose turn it is; the set of sessions is a well-formed list of exactly
    the sessions that have not taken themselves out; and every choice leads on, with
    no pointer gone wrong, except that the program aborts when it wakes the timer
    task after that has ended. *)
Theorem tunnel_tasks_safe (connect_timeout read_write_timeout fd : Z) (s : tunnel) :
  reachable connect_timeout read_write_timeout (fun _ => True) fd s ->
  (forall t t' p p', places s !! t = Some p -> places s !! t' = Some p' -> holds p = true -> holds p' = true -> t' = t) /\
  (locker s = true <-> exists t p, places s !! t = Some p /\ holds p = true) /\
  (locker s = false -> forall t, List.hd_error (waiters s) = Some t -> t ∈ running_tasks (sys s)) /\
  (exists L, dlist (node_mem s) L (session_set s) /\ forall id, id ∈ L <-> exists p, places s !! TSession id = Some p /\ listed p = true) /\
  forall c, enabled c s = true ->
    (exists s', step connect_timeout read_write_timeout c s = Ok s') \/
    (step connect_timeout read_write_timeout c s = Fault AssertFail /\ places s !! TTimer = None).
Proof.
  intros [Hi He]%reachable_inv. split_and!.
  - intros t t' p p' Hp Hp' Hh Hh'. by eapply (i_one _ Hi).
  - split; [apply (i_lock _ Hi)|]. intros (t & p & Hp & Hh). by eapply (i_hold _ Hi).
  - apply (i_top _ Hi).
  - apply (i_list _ Hi).
  - intros c Hen. pose proof (step_inv connect_timeout read_write_timeout s c Hi He Hen) as H.
    destruct (step connect_timeout read_write_timeout c s) as [s'|e]; [left; eauto|right]. by destruct H as [-> ?].
Qed.

Lemma run_reachable ct rt (kind : choice -> Prop) fd l : Forall kind l ->
  forall s s', reachable ct rt kind fd s -> run_choices ct rt l s = Ok s' -> reachable ct rt kind fd s'.
Proof.
  induction 1 as [|c l Hc _ IH]; intros s s' Hs E; cbn in E; [by injection E as <-|].
  destruct (enabled c s) eqn:Hen; [|done]. destruct (step ct rt c s) as [s1|] eqn:E1; [|done]. eapply IH; [|exact E]. by eapply reach_step.
Qed.

(** Runs: the reading task takes a packet that starts a session, and the session
    calls lwIP while the device has no room. *)
Definition quiet_answer : answer := Answer true Again [] DoWait false.
Definition go : choice := Exec quiet_answer.
Definition reads (r : reading) : choice := Exec (Answer true r [] DoWait false).
Definition does (x : action) : choice := Exec (Answer true Again [] x false).
Definition new_session : list choice :=
  [Schedule []; go; go; go; go; reads (Packet [Datagram true true]); go; go; go; go; go; go; go; go; Schedule []; go; Schedule []; go; Schedule []; go].
Definition device_full : list choice := new_session ++ [does (DoCall [Output 1]); go; go].
Definition run_from (l : list choice) : res tunnel := run_choices 10000 60000 l (hev_socks5_tunnel_run 5).
Definition after_run (l : list choice) : tunnel := match run_from l with Ok s => s | Fault _ => hev_socks5_tunnel_run 5 end.

Lemma tunnel_tasks_safe_witness :
  let s := after_run device_full in
  locker s = true /\ places s !! TSession 1 = Some (InWait (SsCall false [Output 1]) [Output 0]) /\
  forall c, enabled c s = true -> (exists s', step 10000 60000 c s = Ok s') \/ (step 10000 60000 c s = Fault AssertFail /\ places s !! TTimer = None).
Proof.
  split; [vm_compute; reflexivity|]. split; [vm_compute; reflexivity|].
  refine (proj2 (proj2 (proj2 (proj2 (tunnel_tasks_safe 10000 60000 5 (after_run device_full) _))))).
  apply (run_reachable _ _ _ _ device_full (proj2 (List.Forall_forall _ _) (fun _ _ => I)) _ _ (reach_init _ _ _ _)). vm_compute. reflexivity.
Defined.

(** C25: a stop request is served in calm runs: the device has room and the allocator
    memory, and lwIP accepts connections only from the packets it is given.  With
    timeouts that are not negative, from every reachable state with a stop request and
    for every number [n]: if at most [n] more events come from outside (packets or failed
    reads of the device, work of a session other than waiting and returning, ticks, other
    requests), then in every order of the choices all tasks end and
    [hev_task_system_run] returns; and at no point does that need one of these events to
    come.  A UDP session is one task here, its second task is left out.  Endless outside
    events can hold it up: [read_error_spins]. *)
Theorem stop_request_served (connect_timeout read_write_timeout fd : Z) (s : tunnel) (n : nat) :
  0 <= connect_timeout -> 0 <= read_write_timeout -> reachable connect_timeout read_write_timeout calm fd s -> requested s ->
  ends connect_timeout read_write_timeout n s.
Proof. intros Hc Hr (Hi & He & Hq)%calm_reachable Hreq; [|done..]. by apply ends_all. Qed.

Definition surely_calm (c : choice) : bool :=
  match c with
  | Exec (Answer _ r fx d _) =>
      match fx with [] => true | _ => false end && match r with Packet [Datagram _ true] => true | Packet _ => false | _ => true end &&
      match d with DoCall _ => false | _ => true end
  | _ => true
  end.
Lemma calm_list l : forallb surely_calm l = true -> Forall calm l.
Proof.
  rewrite forallb_forall, List.Forall_forall. intros H c Hc. specialize (H c Hc). destruct c as [[al r fx d lf]|ready|]; try done.
  apply andb_prop in H as [[H1 H2]%andb_prop H3]. split_and!; cbn.
  - by destruct fx.
  - destruct r as [| |fx']; try done. destruct fx' as [|[] [|? ?]]; try done; [|]; destruct task_ok; try done. by repeat constructor.
  - by destruct d.
Qed.
Lemma stop_request_served_witness :
  let s := after_run (new_session ++ [Stop]) in
  run s = true /\ size (places s) = 4%nat /\ forall n, ends 10000 60000 n s.
Proof.
  split; [vm_compute; reflexivity|]. split; [vm_compute; reflexivity|]. intros n.
  apply (stop_request_served 10000 60000 5); [discriminate|discriminate| |right; vm_compute; reflexivity].
  apply (run_reachable _ _ _ _ (new_session ++ [Stop]) ltac:(apply calm_list; reflexivity) _ _ (reach_init _ _ _ _)). vm_compute. reflexivity.
Defined.

(** * What can happen when the device has no room, or sooner *)

(** The timer task waits for the mutex when it is woken to stop, gets it from the
    last session, does not look at [run] before it waits for new sessions, and is
    never woken again. *)
Definition lost_wakeup : list choice :=
  device_full ++ [Schedule [(TTimer, true)]; go; go; Stop; Schedule [(TEvent, false)]; go; Schedule []; go; go; Schedule []; go; Schedule [];
    go; go; does DoReturn; go; go; go; go; Schedule []; go; go; go].
Fact stop_lost_wakeup : exists s, run_from lost_wakeup = Ok s /\ run s = false /\ finished s = false /\ forall ready, enabled (Schedule ready) s = false.
Proof.
  exists (after_run lost_wakeup). split_and!; try (vm_compute; reflexivity). intros ready.
  assert (H : forall x, ready_ok (after_run lost_wakeup) x = false).
  { intros [[| | |id] b]; [vm_compute; reflexivity..| |]; [destruct b; vm_compute; reflexivity|].
    cbn [ready_ok]. replace (task_table (sys (after_run lost_wakeup))) with ({[TTimer := Task 0 0 0 false]} : gmap tid HevTask) by (vm_compute; reflexivity).
    by rewrite lookup_singleton_ne. }
  cbn [enabled]. replace (current_task (sys (after_run lost_wakeup))) with (@None tid) by (vm_compute; reflexivity).
  destruct ready as [|x ready]; [vm_compute; reflexivity|]. cbn [forallb]. by rewrite H.
Qed.

(** The reading task waits for the mutex with a packet that starts a session, the
    timer task has ended. *)
Fact stop_aborts :
  run_from (device_full ++ [Schedule [(TIo, false)]; go; reads (Packet [Datagram true true]); go; Stop; Schedule [(TEvent, false)]; go;
    Schedule []; go; Schedule []; go; Schedule []; go; go; does DoReturn; go; go; go; go; Schedule []; go; go]) = Fault AssertFail.
Proof. vm_compute. reflexivity. Qed.

(** A session that has not yet run when the event task ends it sets its timeout
    again, and goes on. *)
Definition stop_before_start : list choice :=
  [Schedule []; go; go; go; go; reads (Packet [Datagram true true]); go; go; go; go; go; go; go; go; Stop; Schedule []; go; Schedule []; go;
    Schedule []; go].
Fact terminate_overwritten :
  let s := after_run stop_before_start in
  run s = false /\ places s !! TSession 1 = Some (SsBody false) /\ timeouts s !! 1%positive = Some 10000.
Proof. vm_compute. auto. Qed.

(** A read of the device that fails makes the reading task go round without ever
    letting another run. *)
Fact read_error_spins :
  let s := after_run [Schedule []] in
  current_task (sys s) = Some TIo /\ run_choices 10000 60000 [go; go; go; go; reads ReadError] s = Ok s.
Proof. split; vm_compute; reflexivity. Qed.
