(* ===== verification/HevConfig.v ===== *)
(** The configuration of the tunnel (hev-config.c): a walk over the document that
    the YAML parser has built, into static variables. *)
From S2P Require Import Prelude CLib Packets Mpool Params World Text.

(** * Strings

    A [const char *] points to bytes of which those before the first 0 count. *)
Fixpoint c_str (v : list Z) : list Z :=
  match v with [] => [] | c :: v => if c =? 0 then [] else c :: c_str v end.
(** [0 == strcmp (v, s)] and [strcasecmp (v, s) == 0] *)
Definition is_str (v : list Z) (s : string) : bool := bool_decide (c_str v = chars s).
Definition is_str_case (v : list Z) (s : string) : bool := bool_decide (map tolower (c_str v) = map tolower (chars s)).
(** [strncpy], which fills up with zeros *)
Definition strncpy (dst v : list Z) (n : nat) : res (list Z) :=
  let s := take n (c_str v) in
  wrn dst 0 (s ++ replicate (n - length s) 0).

(** [strtoul (v, NULL, base)] and [strtol (v, NULL, base)]: sign, the base of a
    prefix if [base] is 0, and the digits. *)
Definition number_of (v : list Z) (base : Z) : bool * Z :=
  let s := skip_spaces (c_str v) in
  let '(neg, s) := match s with c :: s' => if c =? 45 then (true, s') else if c =? 43 then (false, s') else (false, s) | [] => (false, s) end in
  let '(base, s) :=
    if negb (base =? 0) then (base, s) else
    match s with
    | 48 :: x :: d :: s' => if ((x =? 120) || (x =? 88)) && (digit_val d <? 16) then (16, d :: s') else (8, s)
    | 48 :: _ => (8, s)
    | _ => (10, s)
    end in
  (neg, digits_value base (take_digits base s)).
Definition ULONG_MAX : Z := 2 ^ 64 - 1.
Definition strtoul (v : list Z) (base : Z) : Z :=
  let '(neg, n) := number_of v base in
  if ULONG_MAX <? n then ULONG_MAX else if neg then (- n) mod 2 ^ 64 else n.
Definition strtol10 (v : list Z) : Z :=
  let '(neg, n) := number_of v 10 in clamp_long (if neg then - n else n).

(** * The document

    Nodes by index from 1 on; a scalar is followed by a 0. *)
Inductive yaml_node_t : Type :=
  | YAML_SCALAR_NODE (value : list Z)
  | YAML_SEQUENCE_NODE
  | YAML_MAPPING_NODE (pairs : list (Z * Z)).
Definition yaml_document_t : Type := list yaml_node_t.
Definition yaml_document_get_node (doc : yaml_document_t) (i : Z) : option yaml_node_t :=
  if 0 <? i then doc !! Z.to_nat (i - 1) else None.
Definition yaml_document_get_root_node (doc : yaml_document_t) : option yaml_node_t := doc !! 0%nat.
Definition scalar_at (doc : yaml_document_t) (i : Z) : option (list Z) :=
  match yaml_document_get_node doc i with Some (YAML_SCALAR_NODE v) => Some v | _ => None end.

(** * The static variables *)
Record tun_vars : Type := Tun {
  tun_name : list Z; tun_mtu : Z; multi_queue : bool;
  tun_ipv4_address : list Z; tun_ipv6_address : list Z;
  tun_post_up_script : list Z; tun_pre_down_script : list Z
}.
(** [srv_user] and [srv_pass] tell whether the pointers of [srv] are set, to
    [_user] and [_pass]. *)
Record srv_vars : Type := Srv {
  srv_user : bool; srv_pass : bool; srv_mark : Z; srv_udp_in_udp : Z; srv_port : Z; srv_pipeline : Z; srv_addr : list Z;
  _user : list Z; _pass : list Z
}.
Record misc_vars : Type := Misc {
  log_file : list Z; pid_file : list Z; task_stack_size : Z; connect_timeout : Z; read_write_timeout : Z;
  limit_nofile : Z; log_level : Z
}.
Record config : Type := Config { tun : tun_vars; srv : srv_vars; misc : misc_vars }.
Definition set_tun (v : tun_vars) (c : config) : config := Config v (srv c) (misc c).
Definition set_srv (v : srv_vars) (c : config) : config := Config (tun c) v (misc c).
Definition set_misc (v : misc_vars) (c : config) : config := Config (tun c) (srv c) v.

Definition HEV_LOGGER_DEBUG : Z := 0.
Definition HEV_LOGGER_INFO : Z := 1.
Definition HEV_LOGGER_WARN : Z := 2.
Definition HEV_LOGGER_ERROR : Z := 3.
Definition TASK_STACK_SIZE : Z := 86016.
Definition zeros (n : nat) : list Z := replicate n 0.
Definition initial_config : config :=
  Config (Tun (zeros 64) 8500 false (zeros 16) (zeros 64) (zeros 1024) (zeros 1024))
    (Srv false false 0 0 0 0 (zeros 256) (zeros 256) (zeros 256))
    (Misc (zeros 1024) (zeros 1024) 0 5000 60000 65535 HEV_LOGGER_WARN).

(** * Sections *)

(** The loop of all sections but "tunnel": it ends at the first pair that is not
    of two scalars. *)
Fixpoint scalar_pairs {A} (doc : yaml_document_t) (f : list Z -> list Z -> A -> res A) (pairs : list (Z * Z)) (x : A) : res A :=
  match pairs with
  | [] => mret x
  | (k, v) :: pairs =>
      if (k =? 0) || (v =? 0) then mret x else
      match scalar_at doc k, scalar_at doc v with
      | Some key, Some value => x ← f key value x; scalar_pairs doc f pairs x
      | _, _ => mret x
      end
  end.

Definition ipv4_key (key value : list Z) (t : tun_vars) : res tun_vars :=
  if is_str key "address" then
    b ← strncpy (tun_ipv4_address t) value 15;
    mret (Tun (tun_name t) (tun_mtu t) (multi_queue t) b (tun_ipv6_address t) (tun_post_up_script t) (tun_pre_down_script t))
  else mret t.
Definition ipv6_key (key value : list Z) (t : tun_vars) : res tun_vars :=
  if is_str key "address" then
    b ← strncpy (tun_ipv6_address t) value 63;
    mret (Tun (tun_name t) (tun_mtu t) (multi_queue t) (tun_ipv4_address t) b (tun_post_up_script t) (tun_pre_down_script t))
  else mret t.
Definition hev_config_parse_tunnel_ipv4 (doc : yaml_document_t) (base : yaml_node_t) (t : tun_vars) : res (Z * tun_vars) :=
  match base with
  | YAML_MAPPING_NODE pairs => t ← scalar_pairs doc ipv4_key pairs t; mret (0, t)
  | _ => mret (-1, t)
  end.
Definition hev_config_parse_tunnel_ipv6 (doc : yaml_document_t) (base : yaml_node_t) (t : tun_vars) : res (Z * tun_vars) :=
  match base with
  | YAML_MAPPING_NODE pairs => t ← scalar_pairs doc ipv6_key pairs t; mret (0, t)
  | _ => mret (-1, t)
  end.

Definition tunnel_scalar (key value : list Z) (t : tun_vars) : res tun_vars :=
  let '(Tun name mtu mq a4 a6 up down) := t in
  if is_str key "name" then b ← strncpy name value 63; mret (Tun b mtu mq a4 a6 up down)
  else if is_str key "mtu" then mret (Tun name (u32 (strtoul value 10)) mq a4 a6 up down)
  else if is_str key "multi-queue" then mret (Tun name mtu (negb (is_str_case value "false")) a4 a6 up down)
  else if is_str key "ipv4" then b ← strncpy a4 value 15; mret (Tun name mtu mq b a6 up down)
  else if is_str key "ipv6" then b ← strncpy a6 value 63; mret (Tun name mtu mq a4 b up down)
  else if is_str key "post-up-script" then b ← strncpy up value 63; mret (Tun name mtu mq a4 a6 b down)
  else if is_str key "pre-down-script" then b ← strncpy down value 63; mret (Tun name mtu mq a4 a6 up b)
  else mret t.
Definition tunnel_other (doc : yaml_document_t) (key : list Z) (node : yaml_node_t) (t : tun_vars) : res tun_vars :=
  if is_str key "ipv4" then '(_, t) ← hev_config_parse_tunnel_ipv4 doc node t; mret t
  else if is_str key "ipv6" then '(_, t) ← hev_config_parse_tunnel_ipv6 doc node t; mret t
  else mret t.
Fixpoint tunnel_pairs (doc : yaml_document_t) (pairs : list (Z * Z)) (t : tun_vars) : res tun_vars :=
  match pairs with
  | [] => mret t
  | (k, v) :: pairs =>
      if (k =? 0) || (v =? 0) then mret t else
      match scalar_at doc k, yaml_document_get_node doc v with
      | Some key, Some node =>
          t ← match node with YAML_SCALAR_NODE value => tunnel_scalar key value t | _ => tunnel_other doc key node t end;
          tunnel_pairs doc pairs t
      | _, _ => mret t
      end
  end.
Definition hev_config_parse_tunnel (doc : yaml_document_t) (base : option yaml_node_t) (t : tun_vars) : res (Z * tun_vars) :=
  match base with
  | Some (YAML_MAPPING_NODE pairs) => t ← tunnel_pairs doc pairs t; mret (0, t)
  | _ => mret (-1, t)
  end.

(** The local variables of [hev_config_parse_socks5]. *)
Record socks5_locals : Type := Locals {
  l_addr : option (list Z); l_port : option (list Z); l_udpm : option (list Z); l_user : option (list Z); l_pass : option (list Z);
  l_mark : option (list Z); l_pipe : option (list Z)
}.
Definition socks5_key (key value : list Z) (l : socks5_locals) : res socks5_locals :=
  let '(Locals addr port udpm user pass mark pipe) := l in
  mret (if is_str key "port" then Locals addr (Some value) udpm user pass mark pipe
  else if is_str key "address" then Locals (Some value) port udpm user pass mark pipe
  else if is_str key "udp" then Locals addr port (Some value) user pass mark pipe
  else if is_str key "pipeline" then Locals addr port udpm user pass mark (Some value)
  else if is_str key "username" then Locals addr port udpm (Some value) pass mark pipe
  else if is_str key "password" then Locals addr port udpm user (Some value) mark pipe
  else if is_str key "mark" then Locals addr port udpm user pass (Some value) pipe
  else l).
Definition socks5_store (addr port : list Z) (l : socks5_locals) (s : srv_vars) : res srv_vars :=
  let '(Srv u p mark udp _ pipeline a _u _p) := s in
  a ← strncpy a addr 255;
  let port := u16 (strtoul port 10) in
  let pipeline := match l_pipe l with Some v => if is_str_case v "true" then 1 else pipeline | None => pipeline end in
  let udp := match l_udpm l with Some v => if is_str_case v "udp" then 1 else udp | None => udp end in
  let mark := match l_mark l with Some v => u32 (strtoul v 0) | None => mark end in
  match l_user l, l_pass l with
  | Some user, Some pass =>
      _u ← strncpy _u user 255; _p ← strncpy _p pass 255;
      mret (Srv true true mark udp port pipeline a _u _p)
  | _, _ => mret (Srv u p mark udp port pipeline a _u _p)
  end.
Definition hev_config_parse_socks5 (doc : yaml_document_t) (base : option yaml_node_t) (s : srv_vars) : res (Z * srv_vars) :=
  match base with
  | Some (YAML_MAPPING_NODE pairs) =>
      l ← scalar_pairs doc socks5_key pairs (Locals None None None None None None None);
      match l_port l, l_addr l with
      | None, _ | _, None => mret (-1, s)
      | Some port, Some addr =>
          match l_user l, l_pass l with
          | Some _, None | None, Some _ => mret (-1, s)
          | _, _ => s ← socks5_store addr port l s; mret (0, s)
          end
      end
  | _ => mret (-1, s)
  end.

Definition hev_config_parse_log_level (value : list Z) : Z :=
  if is_str value "debug" then HEV_LOGGER_DEBUG
  else if is_str value "info" then HEV_LOGGER_INFO
  else if is_str value "error" then HEV_LOGGER_ERROR
  else HEV_LOGGER_WARN.
Definition misc_key (key value : list Z) (m : misc_vars) : res misc_vars :=
  let '(Misc log pid stack ct rt nofile level) := m in
  if is_str key "task-stack-size" then mret (Misc log pid (s32 (strtoul value 10)) ct rt nofile level)
  else if is_str key "connect-timeout" then mret (Misc log pid stack (s32 (strtoul value 10)) rt nofile level)
  else if is_str key "read-write-timeout" then mret (Misc log pid stack ct (s32 (strtoul value 10)) nofile level)
  else if is_str key "pid-file" then b ← strncpy pid value 1023; mret (Misc log b stack ct rt nofile level)
  else if is_str key "log-file" then b ← strncpy log value 1023; mret (Misc b pid stack ct rt nofile level)
  else if is_str key "log-level" then mret (Misc log pid stack ct rt nofile (hev_config_parse_log_level value))
  else if is_str key "limit-nofile" then mret (Misc log pid stack ct rt (s32 (strtol10 value)) level)
  else mret m.
Definition hev_config_parse_misc (doc : yaml_document_t) (base : option yaml_node_t) (m : misc_vars) : res (Z * misc_vars) :=
  match base with
  | Some (YAML_MAPPING_NODE pairs) => m ← scalar_pairs doc misc_key pairs m; mret (0, m)
  | _ => mret (-1, m)
  end.

(** * The document as a whole *)
Definition parse_section (doc : yaml_document_t) (key : list Z) (node : option yaml_node_t) (c : config) : res (Z * config) :=
  if is_str key "tunnel" then '(r, t) ← hev_config_parse_tunnel doc node (tun c); mret (r, set_tun t c)
  else if is_str key "socks5" then '(r, s) ← hev_config_parse_socks5 doc node (srv c); mret (r, set_srv s c)
  else if is_str key "misc" then '(r, m) ← hev_config_parse_misc doc node (misc c); mret (r, set_misc m c)
  else mret (0, c).
Fixpoint root_pairs (doc : yaml_document_t) (pairs : list (Z * Z)) (c : config) : res (Z * config) :=
  match pairs with
  | [] => mret (0, c)
  | (k, v) :: pairs =>
      if (k =? 0) || (v =? 0) then mret (0, c) else
      match scalar_at doc k with
      | None => mret (0, c)
      | Some key =>
          '(r, c) ← parse_section doc key (yaml_document_get_node doc v) c;
          if r <? 0 then mret (-1, c) else root_pairs doc pairs c
      end
  end.
Definition at_least_stack (m : misc_vars) : misc_vars :=
  let '(Misc log pid stack ct rt nofile level) := m in
  Misc log pid (if stack <? TASK_STACK_SIZE then TASK_STACK_SIZE else stack) ct rt nofile level.
Definition hev_config_parse_doc (doc : yaml_document_t) (c : config) : res (Z * config) :=
  match yaml_document_get_root_node doc with
  | Some (YAML_MAPPING_NODE pairs) =>
      '(r, c) ← root_pairs doc pairs c;
      if r <? 0 then mret (-1, c) else mret (0, set_misc (at_least_stack (misc c)) c)
  | _ => mret (-1, c)
  end.

(** [hev_config_init_from_file] and [hev_config_init_from_str]: what the parser
    can be set up, the file opened and its text read as. *)
Definition hev_config_init (parser_ok : bool) (text : option yaml_document_t) (c : config) : res (Z * config) :=
  match text with
  | Some doc => if parser_ok then hev_config_parse_doc doc c else mret (-1, c)
  | None => mret (-1, c)
  end.

(** A string that may be absent. *)
Definition get_string (b : list Z) : option (list Z) := if byte_at b 0 =? 0 then None else Some (c_str b).
Definition hev_config_get_tunnel_name (c : config) := get_string (tun_name (tun c)).
Definition hev_config_get_tunnel_ipv4_address (c : config) := get_string (tun_ipv4_address (tun c)).
Definition hev_config_get_tunnel_ipv6_address (c : config) := get_string (tun_ipv6_address (tun c)).
Definition hev_config_get_tunnel_post_up_script (c : config) := get_string (tun_post_up_script (tun c)).
Definition hev_config_get_tunnel_pre_down_script (c : config) := get_string (tun_pre_down_script (tun c)).
Definition hev_config_get_misc_pid_file (c : config) := get_string (pid_file (misc c)).
Definition hev_config_get_misc_log_file (c : config) : list Z := default (chars "stderr") (get_string (log_file (misc c))).
