(* ===== verification/HevConfigProps.v ===== *)
(** What a configuration document does to the settings of the tunnel: for every
    document nothing is written out of bounds; for a document in sections each
    setting becomes the last value it is given, cut to its buffer, and keeps its
    old value otherwise. *)
From S2P Require Import Prelude CLib Packets Mpool Params World Text HevConfig.

(** * Buffers *)
(** A buffer of [size] bytes of which the code writes [n] at most. *)
Definition buf_ok (size n : nat) (b : list Z) : Prop := length b = size /\ is_bytes b /\ b !! n = Some 0.
Record tun_ok (t : tun_vars) : Prop := {
  to_name : buf_ok 64 63 (tun_name t); to_4 : buf_ok 16 15 (tun_ipv4_address t); to_6 : buf_ok 64 63 (tun_ipv6_address t);
  to_up : buf_ok 1024 63 (tun_post_up_script t); to_down : buf_ok 1024 63 (tun_pre_down_script t)
}.
Record srv_ok (s : srv_vars) : Prop := {
  so_addr : buf_ok 256 255 (srv_addr s); so_user : buf_ok 256 255 (_user s); so_pass : buf_ok 256 255 (_pass s); so_both : srv_user s = srv_pass s
}.
Record misc_ok (m : misc_vars) : Prop := { mo_log : buf_ok 1024 1023 (log_file m); mo_pid : buf_ok 1024 1023 (pid_file m) }.
Definition config_ok (c : config) : Prop := tun_ok (tun c) /\ srv_ok (srv c) /\ misc_ok (misc c).
Definition node_ok (x : yaml_node_t) : Prop := match x with YAML_SCALAR_NODE v => is_bytes v | _ => True end.

Lemma c_str_bytes v : is_bytes v -> is_bytes (c_str v).
Proof. induction 1 as [|c v Hc _ IH]; cbn; [constructor|]. case_match; [constructor|by constructor]. Qed.
Lemma c_str_pos v : Forall (fun c => c <> 0) (c_str v).
Proof. induction v as [|c v IH]; cbn; [constructor|]. case_match eqn:E; [constructor|]. constructor; [lia|done]. Qed.
Lemma c_str_app s x : Forall (fun c => c <> 0) s -> c_str (s ++ 0 :: x) = s.
Proof. induction 1 as [|c s Hc _ IH]; cbn; [done|]. rewrite (proj2 (Z.eqb_neq c 0)) by done. by rewrite IH. Qed.

Lemma strncpy_ok size n b v : buf_ok size n b -> is_bytes v ->
  exists b', strncpy b v n = Ok b' /\ buf_ok size n b' /\ c_str b' = take n (c_str v).
Proof.
  intros (Hl & Hb & Hz) Hv. set (s := take n (c_str v)). set (d := s ++ replicate (n - length s) 0).
  assert (Hs : (length s <= n)%nat) by (unfold s; rewrite length_take; lia).
  assert (Hd : length d = n) by (unfold d; rewrite length_app, length_replicate; lia).
  assert (Hn : (n < size)%nat) by (rewrite <- Hl; by eapply lookup_lt_Some).
  assert (Hp : put b 0 d = d ++ 0 :: drop (S n) b).
  { unfold put. change (Z.to_nat 0) with 0%nat. by rewrite take_0, Nat.add_0_l, Hd, (drop_S b 0 n). }
  exists (put b 0 d). unfold strncpy. fold s. fold d. rewrite wrn_ok by lia. rewrite Hp. split; [done|]. split; [split_and!|].
  - rewrite length_app, Hd. cbn [length]. rewrite length_drop. lia.
  - apply Forall_app. split; [|constructor; [lia|by apply Forall_drop]]. unfold d. apply Forall_app. split; [by apply Forall_take, c_str_bytes|].
    apply Forall_replicate. lia.
  - rewrite lookup_app_r, Hd, Nat.sub_diag by lia. done.
  - unfold d. rewrite <- app_assoc. assert (Hpos : Forall (fun c => c <> 0) s) by (apply Forall_take, c_str_pos).
    destruct (n - length s)%nat as [|k]; cbn [replicate app]; by apply c_str_app.
Qed.

Lemma zeros_ok size n : (n < size)%nat -> buf_ok size n (zeros size).
Proof. intros Hn. unfold zeros. split_and!; [apply length_replicate|apply Forall_replicate; lia|by apply lookup_replicate_2]. Qed.
Lemma initial_ok : config_ok initial_config.
Proof. split_and!; constructor; try done; apply zeros_ok; lia. Qed.

(** * What a document says *)

(** The pairs that the loops see: up to the first that is not of two scalars, or
    has a key that is none, or no value. *)
Fixpoint leading {A} (doc : yaml_document_t) (get : Z -> option A) (pairs : list (Z * Z)) : list (list Z * A) :=
  match pairs with
  | [] => []
  | (k, v) :: pairs =>
      if (k =? 0) || (v =? 0) then [] else
      match scalar_at doc k, get v with Some key, Some x => (key, x) :: leading doc get pairs | _, _ => [] end
  end.
Definition strings doc pairs : list (list Z * list Z) := leading doc (scalar_at doc) pairs.
Definition entries doc pairs : list (list Z * yaml_node_t) := leading doc (yaml_document_get_node doc) pairs.
Definition sections doc pairs : list (list Z * option yaml_node_t) := leading doc (fun v => Some (yaml_document_get_node doc v)) pairs.

(** The last value given for a name. *)
Fixpoint setting {A} (f : A -> option (list Z)) (name : string) (es : list (list Z * A)) : option (list Z) :=
  match es with
  | [] => None
  | (key, x) :: es =>
      match setting f name es with Some v => Some v | None => if is_str key name then f x else None end
  end.
Definition over {B} (g : list Z -> B) (o : option (list Z)) (old : B) : B := match o with Some v => g v | None => old end.
Definition text (n : nat) : option (list Z) -> list Z -> list Z := over (fun v => take n (c_str v)).

Definition as_string (x : yaml_node_t) : option (list Z) := match x with YAML_SCALAR_NODE v => Some v | _ => None end.
(** An address is given directly or as "address" of a mapping. *)
Definition as_address (doc : yaml_document_t) (x : yaml_node_t) : option (list Z) :=
  match x with
  | YAML_SCALAR_NODE v => Some v
  | YAML_MAPPING_NODE pairs => setting Some "address" (strings doc pairs)
  | YAML_SEQUENCE_NODE => None
  end.

(** The settings: a configuration with strings instead of buffers. *)
Definition view_tun (t : tun_vars) : tun_vars :=
  Tun (c_str (tun_name t)) (tun_mtu t) (multi_queue t) (c_str (tun_ipv4_address t)) (c_str (tun_ipv6_address t))
    (c_str (tun_post_up_script t)) (c_str (tun_pre_down_script t)).
Definition view_srv (s : srv_vars) : srv_vars :=
  Srv (srv_user s) (srv_pass s) (srv_mark s) (srv_udp_in_udp s) (srv_port s) (srv_pipeline s) (c_str (srv_addr s)) (c_str (_user s)) (c_str (_pass s)).
Definition view_misc (m : misc_vars) : misc_vars :=
  Misc (c_str (log_file m)) (c_str (pid_file m)) (task_stack_size m) (connect_timeout m) (read_write_timeout m) (limit_nofile m) (log_level m).
Definition view (c : config) : config := Config (view_tun (tun c)) (view_srv (srv c)) (view_misc (misc c)).

Definition tunnel_settings doc (es : list (list Z * yaml_node_t)) (t : tun_vars) : tun_vars :=
  Tun (text 63 (setting as_string "name" es) (tun_name t))
    (over (fun v => u32 (strtoul v 10)) (setting as_string "mtu" es) (tun_mtu t))
    (over (fun v => negb (is_str_case v "false")) (setting as_string "multi-queue" es) (multi_queue t))
    (text 15 (setting (as_address doc) "ipv4" es) (tun_ipv4_address t))
    (text 63 (setting (as_address doc) "ipv6" es) (tun_ipv6_address t))
    (text 63 (setting as_string "post-up-script" es) (tun_post_up_script t))
    (text 63 (setting as_string "pre-down-script" es) (tun_pre_down_script t)).
Definition socks5_settings (kvs : list (list Z * list Z)) (s : srv_vars) : option srv_vars :=
  let get name := setting Some name kvs in
  let flag word o old := over (fun v => if is_str_case v word then 1 else old) o old in
  match get "port"%string, get "address"%string with
  | Some port, Some addr =>
      let set u p user pass :=
        Srv u p (over (fun v => u32 (strtoul v 0)) (get "mark"%string) (srv_mark s)) (flag "udp"%string (get "udp"%string) (srv_udp_in_udp s))
          (u16 (strtoul port 10)) (flag "true"%string (get "pipeline"%string) (srv_pipeline s)) (take 255 (c_str addr)) user pass in
      match get "username"%string, get "password"%string with
      | Some user, Some pass => Some (set true true (take 255 (c_str user)) (take 255 (c_str pass)))
      | None, None => Some (set (srv_user s) (srv_pass s) (_user s) (_pass s))
      | _, _ => None
      end
  | _, _ => None
  end.
Definition level_of (v : list Z) : Z :=
  match list_find (fun x => is_str v x.1) [("debug"%string, HEV_LOGGER_DEBUG); ("info"%string, HEV_LOGGER_INFO); ("error"%string, HEV_LOGGER_ERROR)] with
  | Some (_, (_, level)) => level
  | None => HEV_LOGGER_WARN
  end.
Definition misc_settings (kvs : list (list Z * list Z)) (m : misc_vars) : misc_vars :=
  let get name := setting Some name kvs in
  let number v := s32 (strtoul v 10) in
  Misc (text 1023 (get "log-file"%string) (log_file m)) (text 1023 (get "pid-file"%string) (pid_file m))
    (over number (get "task-stack-size"%string) (task_stack_size m))
    (over number (get "connect-timeout"%string) (connect_timeout m))
    (over number (get "read-write-timeout"%string) (read_write_timeout m))
    (over (fun v => s32 (strtol10 v)) (get "limit-nofile"%string) (limit_nofile m))
    (over level_of (get "log-level"%string) (log_level m)).

(** In an accepted document the stack of a task is at least 86016 bytes. *)
Definition larger_stack (m : misc_vars) : misc_vars :=
  Misc (log_file m) (pid_file m) (Z.max TASK_STACK_SIZE (task_stack_size m)) (connect_timeout m) (read_write_timeout m) (limit_nofile m) (log_level m).
(** The sections in turn, up to one that is rejected. *)
Fixpoint settings doc (secs : list (list Z * option yaml_node_t)) (c : config) : bool * config :=
  match secs with
  | [] => (true, set_misc (larger_stack (misc c)) c)
  | (key, node) :: secs =>
      if is_str key "tunnel" then
        match node with
        | Some (YAML_MAPPING_NODE pairs) => settings doc secs (set_tun (tunnel_settings doc (entries doc pairs) (tun c)) c)
        | _ => (false, c)
        end
      else if is_str key "socks5" then
        match node with
        | Some (YAML_MAPPING_NODE pairs) =>
            match socks5_settings (strings doc pairs) (srv c) with Some s => settings doc secs (set_srv s c) | None => (false, c) end
        | _ => (false, c)
        end
      else if is_str key "misc" then
        match node with
        | Some (YAML_MAPPING_NODE pairs) => settings doc secs (set_misc (misc_settings (strings doc pairs) (misc c)) c)
        | _ => (false, c)
        end
      else settings doc secs c
  end.
Definition document_settings (doc : yaml_document_t) (c : config) : bool * config :=
  match yaml_document_get_root_node doc with
  | Some (YAML_MAPPING_NODE pairs) => settings doc (sections doc pairs) c
  | _ => (false, c)
  end.

(** The documents that are accepted: the known sections are mappings, and "socks5" names
    port and address and both or none of user name and password. *)
Definition section_ok doc (x : list Z * option yaml_node_t) : bool :=
  let mapping := match x.2 with Some (YAML_MAPPING_NODE pairs) => Some pairs | _ => None end in
  if is_str x.1 "tunnel" || is_str x.1 "misc" then match mapping with Some _ => true | None => false end
  else if is_str x.1 "socks5" then
    match mapping with
    | Some pairs =>
        let has name := match setting Some name (strings doc pairs) with Some _ => true | None => false end in
        has "port"%string && has "address"%string && eqb (has "username"%string) (has "password"%string)
    | None => false
    end
  else true.
Definition accepted (doc : yaml_document_t) : bool :=
  match yaml_document_get_root_node doc with
  | Some (YAML_MAPPING_NODE pairs) => forallb (section_ok doc) (sections doc pairs)
  | _ => false
  end.

(** * The loops *)
Lemma over_cons {A B} (g : list Z -> B) (f : A -> option (list Z)) name key x es old :
  over g (setting f name ((key, x) :: es)) old = over g (setting f name es) (over g (setting f name [(key, x)]) old).
Proof. cbn. by destruct (setting f name es). Qed.
Lemma is_str_other k s s' : is_str k s = true -> bool_decide (chars s = chars s') = false -> is_str k s' = false.
Proof. unfold is_str. intros ->%bool_decide_eq_true. done. Qed.
(** Split on the name of a key. *)
Ltac by_key k :=
  repeat match goal with
  | |- context [is_str k ?s] =>
      let E := fresh "E" in destruct (is_str k s) eqn:E;
      [repeat match goal with |- context [is_str k ?s'] => rewrite (is_str_other k s s' E) by (vm_compute; reflexivity) end|]
  end.

Section Doc.
Context (doc : yaml_document_t) (Hdoc : Forall node_ok doc).

Lemma node_at_ok i x : yaml_document_get_node doc i = Some x -> node_ok x.
Proof. unfold yaml_document_get_node. case_match; [|done]. intros Hx. by eapply Forall_lookup_1. Qed.
Lemma scalar_at_ok i v : scalar_at doc i = Some v -> is_bytes v.
Proof. unfold scalar_at. case_match eqn:E; [|done]. case_match; try done. intros [= <-]. by apply node_at_ok in E. Qed.

(** A loop whose body keeps [ok] and does what [spec] says of one pair, does what
    it says of all. *)
Section Loop.
Context {A : Type} (ok : A -> Prop) (vw : A -> A) (f : list Z -> list Z -> A -> res A) (spec : list (list Z * list Z) -> A -> A).
Hypothesis spec_nil : forall x, spec [] x = x.
Hypothesis spec_cons : forall kv kvs x, spec (kv :: kvs) x = spec kvs (spec [kv] x).
Hypothesis f_ok : forall key value x, is_bytes value -> ok x ->
  exists x', f key value x = Ok x' /\ ok x' /\ vw x' = spec [(key, value)] (vw x).

Lemma scalar_pairs_ok pairs : forall x, ok x ->
  exists x', scalar_pairs doc f pairs x = Ok x' /\ ok x' /\ vw x' = spec (strings doc pairs) (vw x).
Proof.
  induction pairs as [|[k v] pairs IH]; intros x Hx; cbn [scalar_pairs strings leading]; [exists x; by rewrite spec_nil|].
  destruct ((k =? 0) || (v =? 0)); [exists x; by rewrite spec_nil|].
  destruct (scalar_at doc k) as [key|]; [|exists x; by rewrite spec_nil].
  destruct (scalar_at doc v) as [value|] eqn:Ev; [|exists x; by rewrite spec_nil].
  destruct (f_ok key value x (scalar_at_ok _ _ Ev) Hx) as (x1 & E1 & H1 & V1). rewrite E1. cbn [mbind res_bind].
  destruct (IH x1 H1) as (x2 & E2 & H2 & V2). exists x2. split_and!; auto. by rewrite spec_cons, V2, V1.
Qed.
End Loop.

Lemma tunnel_scalar_ok key value t : is_bytes value -> tun_ok t ->
  exists t', tunnel_scalar key value t = Ok t' /\ tun_ok t' /\ view_tun t' = tunnel_settings doc [(key, YAML_SCALAR_NODE value)] (view_tun t).
Proof.
  intros Hv [H1 H2 H3 H4 H5]. destruct t as [name mtu mq a4 a6 up down]. cbn [HevConfig.tun_name tun_ipv4_address tun_ipv6_address tun_post_up_script tun_pre_down_script] in *.
  destruct (strncpy_ok 64 63 name value H1 Hv) as (b1 & E1 & K1 & S1). destruct (strncpy_ok 16 15 a4 value H2 Hv) as (b2 & E2 & K2 & S2).
  destruct (strncpy_ok 64 63 a6 value H3 Hv) as (b3 & E3 & K3 & S3).
  destruct (strncpy_ok 1024 63 up value H4 Hv) as (b4 & E4 & K4 & S4). destruct (strncpy_ok 1024 63 down value H5 Hv) as (b5 & E5 & K5 & S5).
  unfold tunnel_scalar, tunnel_settings, text, over. cbn [setting as_string as_address]. by_key key; rewrite ?E1, ?E2, ?E3, ?E4, ?E5;
    eexists; (split; [reflexivity|]); (split; [by constructor|]); unfold view_tun; cbn -[take c_str]; congruence.
Qed.
Definition address_4 (kvs : list (list Z * list Z)) (t : tun_vars) : tun_vars :=
  Tun (tun_name t) (tun_mtu t) (multi_queue t) (text 15 (setting Some "address" kvs) (tun_ipv4_address t)) (tun_ipv6_address t)
    (tun_post_up_script t) (tun_pre_down_script t).
Definition address_6 (kvs : list (list Z * list Z)) (t : tun_vars) : tun_vars :=
  Tun (tun_name t) (tun_mtu t) (multi_queue t) (tun_ipv4_address t) (text 63 (setting Some "address" kvs) (tun_ipv6_address t))
    (tun_post_up_script t) (tun_pre_down_script t).
Lemma ipv4_ok pairs t : tun_ok t ->
  exists t', scalar_pairs doc ipv4_key pairs t = Ok t' /\ tun_ok t' /\ view_tun t' = address_4 (strings doc pairs) (view_tun t).
Proof.
  revert t. apply scalar_pairs_ok; [by intros []|intros [? ?] kvs x; unfold address_4, text; by rewrite over_cons|].
  intros key value t Hv [H1 H2 H3 H4 H5]. destruct (strncpy_ok 16 15 _ value H2 Hv) as (b & E & K & S).
  unfold ipv4_key, address_4, text, over. cbn [setting]. destruct (is_str key "address"); rewrite ?E; eexists; (split; [reflexivity|]); (split; [by constructor|]);
    unfold view_tun; cbn -[take c_str]; congruence.
Qed.
Lemma ipv6_ok pairs t : tun_ok t ->
  exists t', scalar_pairs doc ipv6_key pairs t = Ok t' /\ tun_ok t' /\ view_tun t' = address_6 (strings doc pairs) (view_tun t).
Proof.
  revert t. apply scalar_pairs_ok; [by intros []|intros [? ?] kvs x; unfold address_6, text; by rewrite over_cons|].
  intros key value t Hv [H1 H2 H3 H4 H5]. destruct (strncpy_ok 64 63 _ value H3 Hv) as (b & E & K & S).
  unfold ipv6_key, address_6, text, over. cbn [setting]. destruct (is_str key "address"); rewrite ?E; eexists; (split; [reflexivity|]); (split; [by constructor|]);
    unfold view_tun; cbn -[take c_str]; congruence.
Qed.
Lemma tunnel_other_ok key node t : (forall v, node <> YAML_SCALAR_NODE v) -> tun_ok t ->
  exists t', tunnel_other doc key node t = Ok t' /\ tun_ok t' /\ view_tun t' = tunnel_settings doc [(key, node)] (view_tun t).
Proof.
  intros Hn Ht. unfold tunnel_other, tunnel_settings. cbn [setting].
  assert (Hs : as_string node = None) by (destruct node; try done; by destruct (Hn value)). rewrite Hs.
  assert (Hsame : forall b : bool, (if b then @None (list Z) else None) = None) by (by intros []). rewrite !Hsame.
  destruct (ipv4_ok (match node with YAML_MAPPING_NODE p => p | _ => [] end) t Ht) as (t4 & E4 & H4 & V4).
  destruct (ipv6_ok (match node with YAML_MAPPING_NODE p => p | _ => [] end) t Ht) as (t6 & E6 & H6 & V6).
  unfold text, over. by_key key; try (exists t; by split_and!); destruct node; try (by destruct (Hn value)); cbn [as_address]; try (exists t; by split_and!).
  - exists t4. cbn [hev_config_parse_tunnel_ipv4]. by rewrite E4.
  - exists t6. cbn [hev_config_parse_tunnel_ipv6]. by rewrite E6.
Qed.
Lemma tunnel_settings_cons e es t : tunnel_settings doc (e :: es) t = tunnel_settings doc es (tunnel_settings doc [e] t).
Proof. destruct e. unfold tunnel_settings, text. by rewrite !(over_cons _ _ _ _ _ es). Qed.
Lemma tunnel_pairs_ok pairs : forall t, tun_ok t ->
  exists t', tunnel_pairs doc pairs t = Ok t' /\ tun_ok t' /\ view_tun t' = tunnel_settings doc (entries doc pairs) (view_tun t).
Proof.
  induction pairs as [|[k v] pairs IH]; intros t Ht; cbn [tunnel_pairs entries leading]; [by exists t|].
  destruct ((k =? 0) || (v =? 0)); [by exists t|]. destruct (scalar_at doc k) as [key|]; [|by exists t].
  destruct (yaml_document_get_node doc v) as [node|] eqn:Ev; [|by exists t].
  assert (H : exists t', match node with YAML_SCALAR_NODE value => tunnel_scalar key value t | _ => tunnel_other doc key node t end = Ok t' /\
    tun_ok t' /\ view_tun t' = tunnel_settings doc [(key, node)] (view_tun t)).
  { apply node_at_ok in Ev. destruct node; [by apply tunnel_scalar_ok|by apply tunnel_other_ok..]. }
  destruct H as (t1 & E1 & H1 & V1). rewrite E1. cbn [mbind res_bind]. destruct (IH t1 H1) as (t2 & E2 & H2 & V2).
  exists t2. split_and!; auto. by rewrite tunnel_settings_cons, V2, V1.
Qed.

Lemma level_of_code v : hev_config_parse_log_level v = level_of v.
Proof.
  unfold hev_config_parse_log_level, level_of. cbn [list_find fst].
  destruct (is_str v "debug"); [done|]. destruct (is_str v "info"); [done|]. by destruct (is_str v "error").
Qed.
Lemma misc_pairs_ok pairs m : misc_ok m ->
  exists m', scalar_pairs doc misc_key pairs m = Ok m' /\ misc_ok m' /\ view_misc m' = misc_settings (strings doc pairs) (view_misc m).
Proof.
  revert m. apply scalar_pairs_ok; [by intros []|intros [? ?] kvs x; unfold misc_settings, text; by rewrite !(over_cons _ _ _ _ _ kvs)|].
  intros key value [log pid stack ct rt nofile level] Hv [H1 H2]. cbn [HevConfig.log_file HevConfig.pid_file] in *.
  destruct (strncpy_ok 1024 1023 _ value H1 Hv) as (b1 & E1 & K1 & S1). destruct (strncpy_ok 1024 1023 _ value H2 Hv) as (b2 & E2 & K2 & S2).
  unfold misc_key, misc_settings, text, over. cbn [setting]. rewrite level_of_code. by_key key; rewrite ?E1, ?E2;
    eexists; (split; [reflexivity|]); (split; [by constructor|]); unfold view_misc; cbn -[take c_str level_of]; congruence.
Qed.

(** The local variables hold the settings of the section. *)
Definition locals_of (kvs : list (list Z * list Z)) (l : socks5_locals) : socks5_locals :=
  let get name old := over Some (setting Some name kvs) old in
  Locals (get "address"%string (l_addr l)) (get "port"%string (l_port l)) (get "udp"%string (l_udpm l)) (get "username"%string (l_user l))
    (get "password"%string (l_pass l)) (get "mark"%string (l_mark l)) (get "pipeline"%string (l_pipe l)).
Definition locals_ok (l : socks5_locals) : Prop :=
  Forall (fun o => forall v, o = Some v -> is_bytes v) [l_addr l; l_port l; l_udpm l; l_user l; l_pass l; l_mark l; l_pipe l].
Lemma socks5_pairs_ok pairs l : locals_ok l ->
  exists l', scalar_pairs doc socks5_key pairs l = Ok l' /\ locals_ok l' /\ l' = locals_of (strings doc pairs) l.
Proof.
  revert l. apply (scalar_pairs_ok locals_ok (fun l => l)); [by intros []|intros [? ?] kvs x; unfold locals_of; by rewrite !(over_cons _ _ _ _ _ kvs)|].
  intros key value [] Hv H. unfold socks5_key, locals_of, over. cbn [setting].
  by_key key; eexists; (split; [reflexivity|]); (split; [|reflexivity]); unfold locals_ok in *; cbn in *;
    repeat match goal with H : Forall _ (_ :: _) |- _ => apply Forall_cons in H as [? H] end; repeat constructor; auto; congruence.
Qed.

Lemma parse_socks5_ok pairs v : srv_ok v ->
  exists r v', hev_config_parse_socks5 doc (Some (YAML_MAPPING_NODE pairs)) v = Ok (r, v') /\ srv_ok v' /\
    match socks5_settings (strings doc pairs) (view_srv v) with Some x => r = 0 /\ view_srv v' = x | None => r = -1 /\ v' = v end.
Proof.
  intros [H1 H2 H3 H4]. destruct (socks5_pairs_ok pairs (Locals None None None None None None None)) as (l & El & Hl & Vl); [by repeat constructor|].
  unfold hev_config_parse_socks5. rewrite El. cbn [mbind res_bind]. clear El. unfold locals_of, over in Vl. cbn [HevConfig.l_addr HevConfig.l_port HevConfig.l_udpm HevConfig.l_user HevConfig.l_pass HevConfig.l_mark HevConfig.l_pipe] in Vl.
  assert (Hid : forall o : option (list Z), match o with Some x => Some x | None => None end = o) by (by intros []). rewrite !Hid in Vl.
  unfold socks5_settings, over. subst l. unfold locals_ok in Hl. cbn [HevConfig.l_addr HevConfig.l_port HevConfig.l_udpm HevConfig.l_user HevConfig.l_pass HevConfig.l_mark HevConfig.l_pipe] in *.
  repeat match goal with H : Forall _ (_ :: _) |- _ => apply Forall_cons in H as [? H] end.
  destruct (setting Some "port" _) as [port|]; [|by exists (-1), v]. destruct (setting Some "address" _) as [addr|]; [|by exists (-1), v].
  destruct v as [u p mark udp pt pipeline a _u _p]. cbn [HevConfig.srv_addr HevConfig._user HevConfig._pass srv_user srv_pass] in *.
  destruct (strncpy_ok 256 255 a addr H1 ltac:(auto)) as (b1 & E1 & K1 & S1). unfold socks5_store. rewrite E1. cbn [mbind res_bind HevConfig.l_user HevConfig.l_pass].
  destruct (setting Some "username" _) as [user|], (setting Some "password" _) as [pass|]; try by eexists _, _.
  - destruct (strncpy_ok 256 255 _u user H2 ltac:(auto)) as (b2 & E2 & K2 & S2). destruct (strncpy_ok 256 255 _p pass H3 ltac:(auto)) as (b3 & E3 & K3 & S3).
    rewrite E2. cbn [mbind res_bind]. rewrite E3. cbn [mbind res_bind mret res_ret]. eexists _, _. split; [reflexivity|]. split; [by constructor|].
    split; [done|]. unfold view_srv. cbn -[take c_str]. by rewrite S1, S2, S3.
  - cbn [mbind res_bind mret res_ret]. eexists _, _. split; [reflexivity|]. split; [by constructor|]. split; [done|].
    unfold view_srv. cbn -[take c_str]. by rewrite S1.
Qed.

(** Where the code and the settings go from one section to the next. *)
Lemma parse_section_ok key node c secs : config_ok c ->
  exists r c', parse_section doc key node c = Ok (r, c') /\ config_ok c' /\
    ((r = 0 /\ settings doc ((key, node) :: secs) (view c) = settings doc secs (view c')) \/
     (r = -1 /\ settings doc ((key, node) :: secs) (view c) = (false, view c'))).
Proof.
  intros (Ht & Hs & Hm). unfold parse_section. cbn [settings].
  assert (Hbad : exists r c', (Ok (-1, c) : res (Z * config)) = Ok (r, c') /\ config_ok c' /\
    ((r = 0 /\ (false, view c) = settings doc secs (view c')) \/ (r = -1 /\ (false, view c) = (false, view c')))).
  { exists (-1), c. split; [done|]. split; [done|]. by right. }
  destruct (is_str key "tunnel"); [|destruct (is_str key "socks5"); [|destruct (is_str key "misc")]].
  - destruct node as [[v| |pairs]|]; try (destruct c; exact Hbad). cbn [hev_config_parse_tunnel]. destruct (tunnel_pairs_ok pairs _ Ht) as (t & -> & Ht' & V).
    exists 0, (set_tun t c). split; [done|]. split; [by split_and!|]. left. split; [done|]. f_equal. unfold view, set_tun. cbn. by rewrite V.
  - destruct node as [[v| |pairs]|]; try (destruct c; exact Hbad). destruct (parse_socks5_ok pairs _ Hs) as (r & v & -> & Hv & H). cbn [mbind res_bind mret res_ret].
    exists r, (set_srv v c). split; [done|]. split; [by split_and!|]. change (srv (view c)) with (view_srv (srv c)).
    destruct (socks5_settings _ _) as [x|]; [left|right]; destruct H as [-> H]; (split; [done|]).
    + f_equal. unfold view, set_srv. cbn. by rewrite H.
    + rewrite H. by destruct c.
  - destruct node as [[v| |pairs]|]; try (destruct c; exact Hbad). cbn [hev_config_parse_misc]. destruct (misc_pairs_ok pairs _ Hm) as (m & -> & Hm' & V).
    exists 0, (set_misc m c). split; [done|]. split; [by split_and!|]. left. split; [done|]. f_equal. unfold view, set_misc. cbn. by rewrite V.
  - exists 0, c. split; [done|]. split; [done|]. by left.
Qed.

Lemma root_pairs_ok pairs : forall c, config_ok c ->
  exists r c', root_pairs doc pairs c = Ok (r, c') /\ config_ok c' /\
    settings doc (sections doc pairs) (view c) = if r <? 0 then (false, view c') else (true, set_misc (larger_stack (view_misc (misc c'))) (view c')).
Proof.
  induction pairs as [|[k v] pairs IH]; intros c Hc; cbn [root_pairs sections leading]; [by exists 0, c|].
  destruct ((k =? 0) || (v =? 0)); [by exists 0, c|]. destruct (scalar_at doc k) as [key|]; [|by exists 0, c].
  destruct (parse_section_ok key (yaml_document_get_node doc v) c (sections doc pairs) Hc) as (r & c1 & -> & H1 & [[-> E]|[-> E]]); cbn [mbind res_bind Z.ltb Z.compare].
  - destruct (IH c1 H1) as (r & c2 & -> & H2 & E2). exists r, c2. split_and!; auto. fold (sections doc pairs). by rewrite E.
  - exists (-1), c1. split_and!; auto.
Qed.
End Doc.
Lemma settings_accepted doc secs : forall c, forallb (section_ok doc) secs = fst (settings doc secs c).
Proof.
  induction secs as [|[key node] secs IH]; intros c; [done|]. cbn [forallb settings]. unfold section_ok. cbn [fst snd].
  destruct (is_str key "tunnel"); cbn [orb].
  { destruct node as [[v| |pairs]|]; first [done|apply IH]. }
  destruct (is_str key "socks5") eqn:Es.
  - assert (is_str key "misc" = false) as -> by (apply (is_str_other _ _ _ Es); vm_compute; reflexivity).
    destruct node as [[v| |pairs]|]; try done. unfold socks5_settings.
    destruct (setting Some "port" _); [|done]. destruct (setting Some "address" _); [|done].
    destruct (setting Some "username" _), (setting Some "password" _); try done; apply IH.
  - destruct (is_str key "misc"); [|apply IH]. destruct node as [[v| |pairs]|]; first [done|apply IH].
Qed.
Lemma accepted_settings doc c : accepted doc = fst (document_settings doc c).
Proof. unfold accepted, document_settings. destruct (yaml_document_get_root_node doc) as [[v| |pairs]|]; try done. apply settings_accepted. Qed.

(** C29: what a configuration document sets.  For every document the YAML parser can
    build (nodes of any kind, in any nesting, indices out of range) and every earlier
    configuration, [hev_config_parse_doc] writes nothing out of bounds and leaves every
    string ended within its buffer; it accepts exactly the documents whose known
    sections are mappings and whose sections "socks5" name port and address and both or
    none of user name and password ([accepted]); and the settings are those of
    [document_settings]: in each section, of the pairs in front of the first that
    cannot be read, the last value given for a name, converted or cut to the size of its
    buffer, or else what the setting was.  "udp" and "pipeline" only switch on; "misc"
    ends with a stack of at least [TASK_STACK_SIZE]; a rejected document has set what
    comes before the rejected section. *)
Theorem parse_doc_settings (doc : yaml_document_t) (c : config) : Forall node_ok doc -> config_ok c ->
  exists c', hev_config_parse_doc doc c = Ok (if accepted doc then 0 else -1, c') /\
    config_ok c' /\ view c' = snd (document_settings doc (view c)).
Proof.
  intros Hd Hc. rewrite (accepted_settings doc (view c)). unfold hev_config_parse_doc, document_settings.
  destruct (yaml_document_get_root_node doc) as [[v| |pairs]|]; [by exists c..| |by exists c].
  destruct (root_pairs_ok doc Hd pairs c Hc) as (r & c1 & -> & H1 & E). rewrite E. cbn [mbind res_bind].
  destruct (r <? 0); [by exists c1|]. eexists. split; [reflexivity|]. destruct H1 as (Ht & Hs & [Hl Hp]).
  destruct c1 as [t v [log pid stack ct rt nofile level]]. split; [by split_and!|].
  unfold view, set_misc, larger_stack, view_misc. cbn. do 3 f_equal. zcase; lia.
Qed.

(** * Documents

    Sections of names and values, as the parser builds them. *)
Fixpoint kv_pairs (i : Z) (kvs : list (string * string)) : list (Z * Z) :=
  match kvs with [] => [] | _ :: kvs => (i, i + 1) :: kv_pairs (i + 2) kvs end.
Definition scalar (s : string) : yaml_node_t := YAML_SCALAR_NODE (chars s).
Definition kv_nodes (kvs : list (string * string)) : list yaml_node_t := flat_map (fun kv => [scalar kv.1; scalar kv.2]) kvs.
Fixpoint section_nodes (i : Z) (secs : list (string * list (string * string))) : list (Z * Z) * list yaml_node_t :=
  match secs with
  | [] => ([], [])
  | (name, kvs) :: secs =>
      let nodes := scalar name :: YAML_MAPPING_NODE (kv_pairs (i + 2) kvs) :: kv_nodes kvs in
      let '(pairs, rest) := section_nodes (i + zlen nodes) secs in ((i, i + 1) :: pairs, nodes ++ rest)
  end.
Definition document (secs : list (string * list (string * string))) : yaml_document_t :=
  let '(pairs, nodes) := section_nodes 2 secs in YAML_MAPPING_NODE pairs :: nodes.
Definition config_of (secs : list (string * list (string * string))) (c : config) : Z * config :=
  match hev_config_parse_doc (document secs) c with Ok x => x | Fault _ => (-2, c) end.

Definition main_yml : list (string * list (string * string)) := [
  ("tunnel", [("name", "tun0"); ("mtu", "1500"); ("multi-queue", "FALSE"); ("ipv4", "198.18.0.1"); ("ipv6", "fc00::1")]);
  ("socks5", [("port", "1080"); ("address", "127.0.0.1"); ("udp", "udp"); ("port", "66616"); ("mark", "0x10")]);
  ("misc", [("task-stack-size", "90000"); ("log-level", "debug")])]%string.
Lemma parse_doc_settings_witness :
  exists c', hev_config_parse_doc (document main_yml) initial_config = Ok (0, c') /\ config_ok c' /\
    tun_name (view_tun (tun c')) = chars "tun0" /\ tun_mtu (tun c') = 1500 /\ srv_port (srv c') = 1080 /\ srv_mark (srv c') = 16 /\
    srv_udp_in_udp (srv c') = 1 /\ task_stack_size (misc c') = 90000 /\ connect_timeout (misc c') = 5000.
Proof.
  destruct (parse_doc_settings (document main_yml) initial_config) as (c' & E & Hok & V).
  - repeat (constructor; try exact I); vm_compute; discriminate.
  - exact initial_ok.
  - exists c'. split; [exact E|]. split; [exact Hok|].
    repeat split; [exact (f_equal (fun c => tun_name (tun c)) V)|exact (f_equal (fun c => tun_mtu (tun c)) V)|exact (f_equal (fun c => srv_port (srv c)) V)
      |exact (f_equal (fun c => srv_mark (srv c)) V)|exact (f_equal (fun c => srv_udp_in_udp (srv c)) V)|exact (f_equal (fun c => task_stack_size (misc c)) V)
      |exact (f_equal (fun c => connect_timeout (misc c)) V)].
Defined.

(** The variables are static: what a configuration does not name keeps the value
    an earlier one in the same process gave it. *)
Definition socks5_only (more : list (string * string)) : list (string * list (string * string)) :=
  [("socks5", ("port", "1080") :: ("address", "127.0.0.1") :: more)]%string.
Fact udp_mode_stays :
  let '(_, c1) := config_of (socks5_only [("udp", "udp"); ("username", "a"); ("password", "b")]%string) initial_config in
  let '(r, c2) := config_of (socks5_only [("udp", "tcp")]%string) c1 in
  r = 0 /\ srv_udp_in_udp (srv c2) = 1 /\ srv_user (srv c2) = true.
Proof. vm_compute. auto. Qed.
(** A script's path is cut at 63 bytes although its buffer has 1024. *)
Fact script_cut : let path := String.concat "" (repeat "/dir" 20)%string in
  let '(r, c) := config_of (("tunnel", [("post-up-script", path)]) :: socks5_only [])%string initial_config in
  r = 0 /\ hev_config_get_tunnel_post_up_script c = Some (take 63 (chars path)).
Proof. vm_compute. auto. Qed.
(** Without a section "socks5" the configuration is accepted, with no server. *)
Fact no_server_accepted : let '(r, c) := config_of [] initial_config in r = 0 /\ srv_port (srv c) = 0 /\ c_str (srv_addr (srv c)) = [].
Proof. vm_compute. auto. Qed.
(** Timeouts above [INT_MAX] become negative, which means no timeout. *)
Fact negative_timeout : let '(r, c) := config_of (socks5_only [] ++ [("misc", [("read-write-timeout", "4294967295")])]%string) initial_config in
  r = 0 /\ read_write_timeout (misc c) = -1.
Proof. vm_compute. auto. Qed.
