(* ===== verification/HevMain.v ===== *)
(** Start and end of the tunnel (hev-main.c, hev-tunnel-linux.c, the functions of
    hev-socks5-tunnel.c that create and release what the tasks need): descriptors,
    tasks and connections of lwIP that a run takes and gives back.

    The system decides, call by call, what succeeds. *)
From S2P Require Import Prelude.

(** * The system *)
Inductive question : Type :=
  | CanOpen | CanIoctl | CanSocket | IsAddress | IsThere | CanPipe | CanNonblock | CanAlloc | CanPcb | CanPoll | CanLimit.

(** The descriptors that are open, the references to tasks, the connections of
    lwIP, and the task system of the thread: the descriptors of its reactor and its
    timer. *)
Record system : Type := System {
  answers : nat -> question -> bool;
  asked : nat;
  open : gset nat;
  refs : gmap positive Z;
  pcbs : gset positive;
  netif_list : bool;
  context : option (Z * Z)
}.
(** The static variables of hev-socks5-tunnel.c, and [fd] of the two loggers. *)
Record vars : Type := Vars {
  log_fd : Z; socks5_log_fd : Z;
  tun_fd : Z; tun_fd_local : bool; event_fds : Z * Z;
  tcp : option positive; udp : option positive;
  task_event : option positive; task_lwip_io : option positive; task_lwip_timer : option positive
}.
Record state : Type := State { sy : system; va : vars }.
Definition initial_vars : vars := Vars (-1) (-1) (-1) false (-1, -1) None None None None None.

Definition main (A : Type) : Type := state -> res (A * state).
#[export] Instance main_ret : MRet main := fun A a s => Ok (a, s).
#[export] Instance main_bind : MBind main := fun A B f m s => match m s with Ok (a, s') => f a s' | Fault e => Fault e end.
Definition fail {A} (e : fault) : main A := fun _ => Fault e.
Definition gets {A} (f : vars -> A) : main A := fun s => Ok (f (va s), s).
Definition sets (f : vars -> vars) : main unit := fun s => Ok (tt, State (sy s) (f (va s))).
Definition sys {A} (f : system -> A) : main A := fun s => Ok (f (sy s), s).
Definition upd (f : system -> system) : main unit := fun s => Ok (tt, State (f (sy s)) (va s)).

Definition set_open v y := System (answers y) (asked y) v (refs y) (pcbs y) (netif_list y) (context y).
Definition set_refs v y := System (answers y) (asked y) (open y) v (pcbs y) (netif_list y) (context y).
Definition set_pcbs v y := System (answers y) (asked y) (open y) (refs y) v (netif_list y) (context y).
Definition set_netif v y := System (answers y) (asked y) (open y) (refs y) (pcbs y) v (context y).
Definition set_context v y := System (answers y) (asked y) (open y) (refs y) (pcbs y) (netif_list y) v.
Definition set_logs a b v := Vars a b (tun_fd v) (tun_fd_local v) (event_fds v) (tcp v) (udp v) (task_event v) (task_lwip_io v) (task_lwip_timer v).
Definition set_tun a b v := Vars (log_fd v) (socks5_log_fd v) a b (event_fds v) (tcp v) (udp v) (task_event v) (task_lwip_io v) (task_lwip_timer v).
Definition set_event_fds a v := Vars (log_fd v) (socks5_log_fd v) (tun_fd v) (tun_fd_local v) a (tcp v) (udp v) (task_event v) (task_lwip_io v) (task_lwip_timer v).
Definition set_gate a b v := Vars (log_fd v) (socks5_log_fd v) (tun_fd v) (tun_fd_local v) (event_fds v) a b (task_event v) (task_lwip_io v) (task_lwip_timer v).
Definition set_tasks a b c v := Vars (log_fd v) (socks5_log_fd v) (tun_fd v) (tun_fd_local v) (event_fds v) (tcp v) (udp v) a b c.

Definition ask (q : question) : main bool := fun s =>
  let y := sy s in Ok (answers y (asked y) q, State (System (answers y) (S (asked y)) (open y) (refs y) (pcbs y) (netif_list y) (context y)) (va s)).
(** A new descriptor, or -1. *)
Definition new_fd (q : question) : main Z :=
  b ← ask q;
  if negb b then mret (-1) else
  o ← sys open;
  let fd := fresh o in
  _ ← upd (set_open ({[fd]} ∪ o));
  mret (Z.of_nat fd).
(** Closing a descriptor that is not open may close what another thread has
    opened meanwhile. *)
Definition close (fd : Z) : main unit :=
  o ← sys open;
  if (0 <=? fd) && bool_decide (Z.to_nat fd ∈ o) then upd (set_open (o ∖ {[Z.to_nat fd]})) else fail BadFree.
Definition ioctl (fd : Z) : main Z :=
  o ← sys open;
  if (0 <=? fd) && bool_decide (Z.to_nat fd ∈ o) then b ← ask CanIoctl; mret (if b : bool then 0 else -1) else mret (-1).

(** * hev-task.c *)
Definition hev_task_new : main (option positive) :=
  b ← ask CanAlloc;
  if negb b then mret None else
  r ← sys refs;
  let t := fresh (dom r) in
  _ ← upd (set_refs (<[t := 1]> r));
  mret (Some t).
Definition hev_task_ref (t : positive) : main unit :=
  r ← sys refs;
  match r !! t with Some n => upd (set_refs (<[t := n + 1]> r)) | None => fail Stale end.
Definition hev_task_unref (t : positive) : main unit :=
  r ← sys refs;
  match r !! t with
  | Some n => upd (set_refs (if n - 1 =? 0 then delete t r else <[t := n - 1]> r))
  | None => fail Stale
  end.
Definition hev_task_add_fd (t : positive) (fd : Z) : main Z := b ← ask CanPoll; mret (if b : bool then 0 else -1).

(** * hev-tunnel-linux.c *)
Definition hev_tunnel_open : main Z :=
  fd ← new_fd CanOpen;
  if fd <? 0 then mret (-1) else
  res ← ioctl fd;
  if res <? 0 then _ ← close fd; mret res else mret fd.
Definition hev_tunnel_close (fd : Z) : main unit := close fd.
Definition hev_tunnel_set_mtu : main Z :=
  fd ← new_fd CanSocket;
  if fd <? 0 then mret (-1) else
  res ← ioctl fd;
  _ ← close fd;
  mret res.
Definition hev_tunnel_set_state : main Z :=
  fd ← new_fd CanSocket;
  if fd <? 0 then mret (-1) else
  res ← ioctl fd;
  res ← (if res <? 0 then mret res else ioctl fd);
  _ ← close fd;
  mret res.
(** [inet_pton] returns 0 for what is no address. *)
Definition inet_pton : main Z := b ← ask IsAddress; mret (if b : bool then 1 else 0).
Definition unless_there (res : Z) : main Z :=
  if res <? 0 then b ← ask IsThere; mret (if b : bool then 0 else res) else mret res.
Definition hev_tunnel_set_ipv4 : main Z :=
  fd ← new_fd CanSocket;
  if fd <? 0 then mret (-1) else
  res ← inet_pton;
  res ← (if res =? 0 then mret res else
         res ← ioctl fd;
         if res <? 0 then mret res else res ← ioctl fd; unless_there res);
  _ ← close fd;
  mret res.
Definition hev_tunnel_set_ipv6 : main Z :=
  fd ← new_fd CanSocket;
  if fd <? 0 then mret (-1) else
  res ← ioctl fd;
  res ← (if res <? 0 then mret res else
         res ← inet_pton;
         if res =? 0 then mret res else res ← ioctl fd; unless_there res);
  _ ← close fd;
  mret res.

(** * hev-socks5-tunnel.c: the device *)

(** [ipv4] and [ipv6]: whether the configuration has such an address.  The scripts
    of the configuration run in processes of their own. *)
Definition tunnel_init (extern_tun_fd : Z) (ipv4 ipv6 : bool) : main Z :=
  if 0 <=? extern_tun_fd then
    l ← gets tun_fd_local; _ ← sets (set_tun extern_tun_fd l); mret 0
  else
  fd ← hev_tunnel_open;
  l ← gets tun_fd_local;
  _ ← sets (set_tun fd l);
  if fd <? 0 then mret (-1) else
  res ← hev_tunnel_set_mtu;
  if res <? 0 then mret (-1) else
  res ← (if ipv4 then hev_tunnel_set_ipv4 else mret 0);
  if res <? 0 then mret (-1) else
  res ← (if ipv6 then hev_tunnel_set_ipv6 else mret 0);
  if res <? 0 then mret (-1) else
  res ← hev_tunnel_set_state;
  if res <? 0 then mret (-1) else
  _ ← sets (set_tun fd true);
  mret 0.
Definition tunnel_fini : main unit :=
  l ← gets tun_fd_local;
  if negb l then mret tt else
  fd ← gets tun_fd;
  _ ← hev_tunnel_close fd;
  sets (set_tun (-1) l).

(** * The gateway: the interface and two listening connections of lwIP *)
Definition pcb_new : main (option positive) :=
  b ← ask CanPcb;
  if negb b then mret None else
  p ← sys pcbs;
  let x := fresh p in
  _ ← upd (set_pcbs ({[x]} ∪ p));
  mret (Some x).
(** The functions that bind a connection look into it. *)
Definition pcb_bind (x : option positive) : main unit :=
  match x with Some _ => mret tt | None => fail NullDeref end.
(** [tcp_listen] takes a smaller block and frees the old one. *)
Definition tcp_listen (x : option positive) : main (option positive) :=
  match x with
  | None => mret None
  | Some x =>
      l ← pcb_new;
      match l with
      | None => mret None
      | Some l => p ← sys pcbs; _ ← upd (set_pcbs (p ∖ {[x]})); mret (Some l)
      end
  end.
Definition gateway_init : main Z :=
  _ ← upd (set_netif true);
  t ← pcb_new;
  _ ← pcb_bind t;
  t ← tcp_listen t;
  u ← pcb_new;
  _ ← sets (set_gate t u);
  _ ← pcb_bind u;
  mret 0.
(** [udp_remove] and [tcp_close] do nothing for a null pointer. *)
Definition pcb_free (x : option positive) : main unit :=
  match x with
  | None => mret tt
  | Some x => p ← sys pcbs; if bool_decide (x ∈ p) then upd (set_pcbs (p ∖ {[x]})) else fail Stale
  end.
Definition gateway_fini : main unit :=
  u ← gets udp; _ ← pcb_free u;
  t ← gets tcp; _ ← pcb_free t;
  upd (set_netif false).

(** * The tasks *)
Definition hev_task_io_pipe_pipe : main Z :=
  b ← ask CanPipe;
  if negb b then mret (-1) else
  o ← sys open;
  let a := fresh o in
  let b := fresh ({[a]} ∪ o) in
  _ ← upd (set_open ({[b]} ∪ ({[a]} ∪ o)));
  _ ← sets (set_event_fds (Z.of_nat a, Z.of_nat b));
  x ← ask CanNonblock;
  if negb x then _ ← close (Z.of_nat a); _ ← close (Z.of_nat b); mret (-2) else
  x ← ask CanNonblock;
  if negb x then _ ← close (Z.of_nat a); _ ← close (Z.of_nat b); mret (-3) else
  mret 0.
Definition event_task_init : main Z :=
  res ← hev_task_io_pipe_pipe;
  if res <? 0 then mret (-1) else
  t ← hev_task_new;
  io ← gets task_lwip_io; tm ← gets task_lwip_timer;
  _ ← sets (set_tasks t io tm);
  match t with
  | None => mret (-1)
  | Some t =>
      fds ← gets event_fds;
      res ← hev_task_add_fd t (fst fds);
      mret (if res <? 0 then -1 else 0)
  end.
Definition unref_task (t : option positive) : main unit := match t with Some t => hev_task_unref t | None => mret tt end.
Definition event_task_fini : main unit :=
  t ← gets task_event; io ← gets task_lwip_io; tm ← gets task_lwip_timer;
  _ ← unref_task t;
  _ ← sets (set_tasks None io tm);
  fds ← gets event_fds;
  _ ← (if 0 <=? fst fds then _ ← close (fst fds); sets (set_event_fds (-1, snd fds)) else mret tt);
  fds ← gets event_fds;
  if 0 <=? snd fds then _ ← close (snd fds); sets (set_event_fds (fst fds, -1)) else mret tt.
Definition lwip_io_task_init : main Z :=
  t ← hev_task_new;
  ev ← gets task_event; tm ← gets task_lwip_timer;
  _ ← sets (set_tasks ev t tm);
  match t with
  | None => mret (-1)
  | Some t =>
      fd ← gets tun_fd;
      res ← hev_task_add_fd t fd;
      mret (if res <? 0 then -1 else 0)
  end.
Definition lwip_io_task_fini : main unit :=
  t ← gets task_lwip_io; ev ← gets task_event; tm ← gets task_lwip_timer;
  _ ← unref_task t;
  sets (set_tasks ev None tm).
Definition lwip_timer_task_init : main Z :=
  t ← hev_task_new;
  ev ← gets task_event; io ← gets task_lwip_io;
  _ ← sets (set_tasks ev io t);
  mret (match t with None => -1 | Some _ => 0 end).
Definition lwip_timer_task_fini : main unit :=
  t ← gets task_lwip_timer; ev ← gets task_event; io ← gets task_lwip_io;
  _ ← unref_task t;
  sets (set_tasks ev io None).

(** * A run *)
Definition hev_socks5_tunnel_fini : main unit :=
  _ ← lwip_timer_task_fini;
  _ ← lwip_io_task_fini;
  _ ← event_task_fini;
  _ ← gateway_fini;
  tunnel_fini.
Definition hev_socks5_tunnel_init (extern_tun_fd : Z) (ipv4 ipv6 : bool) : main Z :=
  res ← tunnel_init extern_tun_fd ipv4 ipv6;
  res ← (if res <? 0 then mret res else gateway_init);
  res ← (if res <? 0 then mret res else event_task_init);
  res ← (if res <? 0 then mret res else lwip_io_task_init);
  res ← (if res <? 0 then mret res else lwip_timer_task_init);
  if res <? 0 then _ ← hev_socks5_tunnel_fini; mret (-1) else mret 0.
(** [hev_task_system_run] releases each of the three tasks when it has ended. *)
Definition run_task (t : option positive) : main unit :=
  match t with Some t => _ ← hev_task_ref t; hev_task_unref t | None => fail NullDeref end.
Definition hev_socks5_tunnel_run : main Z :=
  ev ← gets task_event; io ← gets task_lwip_io; tm ← gets task_lwip_timer;
  _ ← run_task ev; _ ← run_task io; _ ← run_task tm;
  mret 0.

(** The reactor and the timer of the thread. *)
Definition hev_task_system_init : main Z :=
  c ← sys context;
  match c with
  | Some _ => mret (-1)
  | None =>
      b ← ask CanAlloc;
      if negb b then mret (-1) else
      r ← new_fd CanOpen;
      if r <? 0 then mret (-1) else
      t ← new_fd CanOpen;
      if t <? 0 then _ ← close r; mret (-1) else
      _ ← upd (set_context (Some (r, t)));
      mret 0
  end.
Definition hev_task_system_fini : main unit :=
  c ← sys context;
  match c with
  | None => fail NullDeref
  | Some (r, t) => _ ← close t; _ ← close r; upd (set_context None)
  end.

(** The loggers, of which each opens (or duplicates) a descriptor. *)
Definition hev_logger_init : main Z :=
  fd ← new_fd CanOpen;
  b ← gets socks5_log_fd;
  _ ← sets (set_logs fd b);
  mret (if fd <? 0 then -1 else 0).
Definition hev_socks5_logger_init : main Z :=
  fd ← new_fd CanOpen;
  a ← gets log_fd;
  _ ← sets (set_logs a fd);
  mret (if fd <? 0 then -1 else 0).
Definition hev_socks5_tunnel_main_inner (extern_tun_fd : Z) (ipv4 ipv6 : bool) : main Z :=
  res ← hev_logger_init;
  if res <? 0 then mret (-2) else
  res ← hev_socks5_logger_init;
  if res <? 0 then mret (-3) else
  _ ← ask CanLimit;
  res ← hev_task_system_init;
  if res <? 0 then mret (-4) else
  res ← hev_socks5_tunnel_init extern_tun_fd ipv4 ipv6;
  if res <? 0 then mret (-5) else
  _ ← hev_socks5_tunnel_run;
  _ ← hev_socks5_tunnel_fini;
  b ← gets socks5_log_fd; _ ← close b;
  a ← gets log_fd; _ ← close a;
  _ ← hev_task_system_fini;
  mret 0.
