(* ===== verification/HevMainProps.v ===== *)
(** What a run of the tunnel takes and gives back. *)
From S2P Require Import Prelude HevMain.

(** * Reasoning about runs *)
Definition runs {A} (m : main A) (s : state) (Q : A -> state -> Prop) : Prop :=
  match m s with Ok (a, s') => Q a s' | Fault _ => False end.
Lemma runs_bind {A B} (m : main A) (f : A -> main B) s Q : runs m s (fun a s' => runs (f a) s' Q) -> runs (m ≫= f) s Q.
Proof. unfold runs, mbind, main_bind. by destruct (m s) as [[a s']|]. Qed.
Lemma runs_mono {A} (m : main A) s (P Q : A -> state -> Prop) : runs m s P -> (forall a s', P a s' -> Q a s') -> runs m s Q.
Proof. unfold runs. destruct (m s) as [[a s']|]; auto. Qed.
Lemma runs_ret {A} (a : A) s (Q : A -> state -> Prop) : Q a s -> runs (mret a) s Q.
Proof. done. Qed.
Lemma runs_sys {A} (f : system -> A) s (Q : A -> state -> Prop) : Q (f (sy s)) s -> runs (sys f) s Q.
Proof. done. Qed.
Lemma runs_upd f s (Q : unit -> state -> Prop) : Q tt (State (f (sy s)) (va s)) -> runs (upd f) s Q.
Proof. done. Qed.
Lemma runs_gets {A} (f : vars -> A) s (Q : A -> state -> Prop) : Q (f (va s)) s -> runs (gets f) s Q.
Proof. done. Qed.
Lemma runs_sets f s (Q : unit -> state -> Prop) : Q tt (State (sy s) (f (va s))) -> runs (sets f) s Q.
Proof. done. Qed.
Lemma runs_if {A} (b : bool) (m m' : main A) s Q : (b = true -> runs m s Q) -> (b = false -> runs m' s Q) -> runs (if b then m else m') s Q.
Proof. destruct b; auto. Qed.
(** Two states that differ in the descriptors and the number of questions only. *)
Record keeps (s s' : state) : Prop := {
  k_answers : answers (sy s') = answers (sy s); k_refs : refs (sy s') = refs (sy s); k_pcbs : pcbs (sy s') = pcbs (sy s);
  k_netif : netif_list (sy s') = netif_list (sy s); k_context : context (sy s') = context (sy s); k_vars : va s' = va s
}.
Lemma same_refl s : keeps s s.
Proof. done. Qed.
Lemma same_trans s1 s2 s3 : keeps s1 s2 -> keeps s2 s3 -> keeps s1 s3.
Proof. intros [] []. constructor; congruence. Qed.
Notation fds s := (open (sy s)).

Ltac run :=
  cbv beta zeta; cbn [andb orb negb Z.ltb Z.compare];
  lazymatch goal with
  | |- runs (_ ≫= _) _ _ => apply runs_bind
  | |- runs (mret _) _ _ => apply runs_ret
  | |- runs (sys _) _ _ => apply runs_sys
  | |- runs (upd _) _ _ => apply runs_upd
  | |- runs (gets _) _ _ => apply runs_gets
  | |- runs (sets _) _ _ => apply runs_sets
  end; cbv beta zeta.
(** Use what is known of the first call. *)
Tactic Notation "call" uconstr(H) "as" simple_intropattern(p) := eapply runs_mono; [eapply H|intros ?r ?s p].

Lemma ask_ok q s : runs (ask q) s (fun b s' => keeps s s' /\ fds s' = fds s /\ b = answers (sy s) (asked (sy s)) q).
Proof. by split_and!. Qed.
Lemma new_fd_ok q s : runs (new_fd q) s (fun fd s' => keeps s s' /\
  ((fd = -1 /\ fds s' = fds s) \/ exists n, fd = Z.of_nat n /\ n ∉ fds s /\ fds s' = {[n]} ∪ fds s)).
Proof.
  unfold new_fd. run. call ask_ok as (K & E & _). destruct r; cbn [negb]; [|run; auto].
  repeat run. split; [by destruct K|]. right. exists (fresh (fds s0)). split; [done|]. rewrite <- E. split; [apply is_fresh|done].
Qed.
Lemma close_ok n s : n ∈ fds s -> runs (close (Z.of_nat n)) s (fun _ s' => keeps s s' /\ fds s' = fds s ∖ {[n]}).
Proof.
  intros Hn. unfold close. run. run. rewrite (proj2 (Z.leb_le 0 (Z.of_nat n))) by lia. rewrite Nat2Z.id, bool_decide_true by done. cbn [andb]. run. by split.
Qed.
Lemma ioctl_ok fd s : runs (ioctl fd) s (fun _ s' => keeps s s' /\ fds s' = fds s).
Proof. unfold ioctl. run. run. apply runs_if; intros _; [|by run]. run. call ask_ok as (K & E & _). by run. Qed.

Lemma fds_in (n : nat) (X : gset nat) : n ∈ {[n]} ∪ X.
Proof. set_solver. Qed.
Lemma fds_back (n : nat) (X : gset nat) : n ∉ X -> ({[n]} ∪ X) ∖ {[n]} = X.
Proof. set_solver. Qed.
(** What a call does to the descriptors: nothing, or it closes one. *)
Definition touches (o : option nat) {A} (m : main A) (s : state) : Prop :=
  runs m s (fun _ s' => keeps s s' /\ fds s' = match o with Some n => fds s ∖ {[n]} | None => fds s end).
Lemma touches_ret {A} (a : A) s : touches None (mret a) s.
Proof. done. Qed.
Lemma touches_ask q s : touches None (ask q) s.
Proof. by split_and!. Qed.
Lemma touches_bind o {A B} (m : main A) (f : A -> main B) s :
  touches None m s -> (forall a s1, fds s1 = fds s -> touches o (f a) s1) -> touches o (m ≫= f) s.
Proof.
  intros Hm Hf. unfold touches. run. eapply runs_mono; [exact Hm|intros a s1 (K & E)]. eapply runs_mono; [by apply Hf|intros b s2 (K2 & E2)].
  split; [exact (same_trans _ _ _ K K2)|]. by rewrite E2, E.
Qed.
Lemma touches_close n {A} (a : A) s : n ∈ fds s -> touches (Some n) (_ ← close (Z.of_nat n); mret a) s.
Proof. intros Hn. unfold touches. run. call close_ok as (K & E); [done|]. by run. Qed.
Lemma with_socket (f : Z -> main Z) s :
  (forall n s1, n ∈ fds s1 -> touches (Some n) (f (Z.of_nat n)) s1) ->
  touches None (fd ← new_fd CanSocket; if fd <? 0 then mret (-1) else f fd) s.
Proof.
  intros Hf. unfold touches. run. call new_fd_ok as (K & [[-> E]|(n & -> & Hn & E)]); [by run|]. rewrite (proj2 (Z.ltb_ge _ _)) by lia.
  eapply runs_mono; [apply Hf; rewrite E; apply fds_in|intros r s1 (K1 & E1)]. split; [exact (same_trans _ _ _ K K1)|].
  rewrite E1, E. by apply fds_back.
Qed.
Lemma touches_if o {A} (b : bool) (m m' : main A) s : touches o m s -> touches o m' s -> touches o (if b then m else m') s.
Proof. by destruct b. Qed.
Lemma touches_ioctl fd s : touches None (ioctl fd) s.
Proof. apply ioctl_ok. Qed.
Ltac device :=
  repeat lazymatch goal with
  | |- touches _ (fd ← new_fd _; _) _ => apply with_socket; intros
  | |- touches _ (_ ← close _; _) _ => apply touches_close; congruence
  | |- touches _ (_ ≫= _) _ => apply touches_bind; [|intros]
  | |- touches _ (if _ then _ else _) _ => apply touches_if
  | |- touches _ (ioctl _) _ => apply touches_ioctl
  | |- touches _ (ask _) _ => apply touches_ask
  | |- touches _ (mret _) _ => apply touches_ret
  end.
Lemma set_mtu_ok s : touches None hev_tunnel_set_mtu s.
Proof. unfold hev_tunnel_set_mtu. device. Qed.
Lemma set_state_ok s : touches None hev_tunnel_set_state s.
Proof. unfold hev_tunnel_set_state. device. Qed.
Lemma set_ipv4_ok s : touches None hev_tunnel_set_ipv4 s.
Proof. unfold hev_tunnel_set_ipv4, inet_pton, unless_there. device. Qed.
Lemma set_ipv6_ok s : touches None hev_tunnel_set_ipv6 s.
Proof. unfold hev_tunnel_set_ipv6, inet_pton, unless_there. device. Qed.

(** * Start *)

(** A state with other variables, or another system. *)
Definition with_vars (v : vars) (s : state) : state := State (sy s) v.
Definition with_sys (y : system) (s : state) : state := State y (va s).

Lemma open_ok s : runs hev_tunnel_open s (fun fd s' => keeps s s' /\
  ((fd = -1 /\ fds s' = fds s) \/ exists n, fd = Z.of_nat n /\ n ∉ fds s /\ fds s' = {[n]} ∪ fds s)).
Proof.
  unfold hev_tunnel_open. run. call new_fd_ok as (K & [[-> E]|(n & -> & Hn & E)]); [run; auto|]. rewrite (proj2 (Z.ltb_ge _ _)) by lia.
  run. unfold ioctl. run. run. rewrite (proj2 (Z.leb_le 0 (Z.of_nat n))) by lia. rewrite Nat2Z.id, bool_decide_true by (rewrite E; apply fds_in). cbn [andb].
  run. call ask_ok as (K1 & E1 & _). run. destruct r; cbn [Z.ltb Z.compare].
  - run. split; [exact (same_trans _ _ _ K K1)|]. right. exists n. split_and!; auto. by rewrite E1.
  - run. call close_ok as (K2 & E2); [rewrite E1, E; apply fds_in|]. run. split; [exact (same_trans _ _ _ K (same_trans _ _ _ K1 K2))|].
    left. split; [done|]. rewrite E2, E1, E. by apply fds_back.
Qed.

(** A step of [tunnel_init] that can fail, with the device open. *)
Lemma device_step (m : main Z) (f : main Z) (P : Z -> state -> Prop) s0 X s :
  (forall s, touches None m s) -> keeps s0 s -> fds s = X ->
  (forall s, keeps s0 s -> fds s = X -> P (-1) s) -> (forall s, keeps s0 s -> fds s = X -> runs f s P) ->
  runs (res ← m; if res <? 0 then mret (-1) else f) s P.
Proof.
  intros Hm K E Hbad Hf. run. eapply runs_mono; [apply Hm|intros r s1 (K1 & E1)]. apply runs_if; intros _; [run; apply Hbad|apply Hf]; try congruence;
    exact (same_trans _ _ _ K K1).
Qed.
Lemma tunnel_init_ok ext v4 v6 s : tun_fd_local (va s) = false ->
  runs (tunnel_init ext v4 v6) s (fun r s' => exists fd l, keeps (with_vars (set_tun fd l (va s)) s) s' /\
    ((0 <= ext /\ r = 0 /\ fd = ext /\ l = false /\ fds s' = fds s) \/
     (ext < 0 /\ r = -1 /\ l = false /\ fds s' = fds s) \/
     (ext < 0 /\ exists n, fd = Z.of_nat n /\ n ∉ fds s /\ fds s' = {[n]} ∪ fds s /\ ((r = 0 /\ l = true) \/ (r = -1 /\ l = false))))).
Proof.
  intros Hl. unfold tunnel_init. apply runs_if; intros He.
  - repeat run. rewrite Hl. exists ext, false. split; [done|]. left. split_and!; auto. lia.
  - run. call open_ok as (K & H). repeat run. rewrite (k_vars _ _ K), Hl.
    destruct H as [[-> E]|(n & -> & Hn & E)].
    { cbn [Z.ltb Z.compare]. run. exists (-1), false. split; [by destruct K|]. right; left. split_and!; auto. lia. }
    rewrite (proj2 (Z.ltb_ge (Z.of_nat n) 0)) by lia.
    assert (Hbad : forall s1, keeps (with_vars (set_tun (Z.of_nat n) false (va s)) s) s1 -> fds s1 = {[n]} ∪ fds s ->
      exists fd l, keeps (with_vars (set_tun fd l (va s)) s) s1 /\
      ((0 <= ext /\ -1 = 0 /\ fd = ext /\ l = false /\ fds s1 = fds s) \/ (ext < 0 /\ -1 = -1 /\ l = false /\ fds s1 = fds s) \/
       (ext < 0 /\ exists n, fd = Z.of_nat n /\ n ∉ fds s /\ fds s1 = {[n]} ∪ fds s /\ ((-1 = 0 /\ l = true) \/ (-1 = -1 /\ l = false))))).
    { intros s1 K1 E1. exists (Z.of_nat n), false. split; [done|]. right; right. split; [lia|]. exists n. split_and!; auto. }
    eapply (device_step _ _ _ (with_vars (set_tun (Z.of_nat n) false (va s)) s)); [apply set_mtu_ok|by destruct K|exact E|exact Hbad|intros s1 K1 E1].
    eapply device_step; [intros; apply touches_if; [apply set_ipv4_ok|apply touches_ret]|exact K1|exact E1|exact Hbad|intros s2 K2 E2].
    eapply device_step; [intros; apply touches_if; [apply set_ipv6_ok|apply touches_ret]|exact K2|exact E2|exact Hbad|intros s3 K3 E3].
    eapply device_step; [apply set_state_ok|exact K3|exact E3|exact Hbad|intros s4 K4 E4].
    repeat run. exists (Z.of_nat n), true. split; [destruct K4 as [A B C D F G]; constructor; try done; cbn in *; by rewrite G|].
    right; right. split; [lia|]. exists n. split_and!; auto.
Qed.

Lemma pcb_new_ok s : (forall k, answers (sy s) k CanPcb = true) ->
  runs pcb_new s (fun o s' => fds s' = fds s /\ exists x, o = Some x /\ x ∉ pcbs (sy s) /\ keeps (with_sys (set_pcbs ({[x]} ∪ pcbs (sy s)) (sy s)) s) s').
Proof.
  intros Ha. unfold pcb_new. run. call ask_ok as (K & E & ->). rewrite Ha. cbn [negb]. repeat run. split; [done|].
  exists (fresh (pcbs (sy s0))). split; [done|]. destruct K as [A B C D F G]. rewrite <- C. split; [apply is_fresh|]. by constructor.
Qed.
Lemma gateway_init_ok s : (forall k, answers (sy s) k CanPcb = true) -> pcbs (sy s) = ∅ ->
  runs gateway_init s (fun r s' => r = 0 /\ fds s' = fds s /\ exists t u, t <> u /\
    keeps (State (set_netif true (set_pcbs ({[u]} ∪ {[t]}) (sy s))) (set_gate (Some t) (Some u) (va s))) s').
Proof.
  intros Ha Hp. unfold gateway_init, tcp_listen, pcb_bind. repeat run. call pcb_new_ok as (E1 & x & -> & Hx & K1); [done|]. repeat run.
  call pcb_new_ok as (E2 & t & -> & Ht & K2); [by rewrite (k_answers _ _ K1)|]. repeat run.
  call pcb_new_ok as (E3 & u & -> & Hu & K3); [cbn; rewrite (k_answers _ _ K2); cbn; by rewrite (k_answers _ _ K1)|]. repeat run.
  split; [done|]. split; [exact (eq_trans E3 (eq_trans E2 E1))|]. exists t, u.
  assert (P1 : pcbs (sy s0) = {[x]}) by (rewrite (k_pcbs _ _ K1); cbn; rewrite Hp; set_solver).
  assert (P2 : pcbs (sy s1) = {[t]} ∪ {[x]}) by (rewrite (k_pcbs _ _ K2); cbn; by rewrite P1).
  rewrite P1 in Ht. cbn in Hu. rewrite P2 in Hu. assert (P2' : ({[t]} ∪ {[x]} : gset positive) ∖ {[x]} = {[t]}) by set_solver.
  split; [set_solver|]. destruct K1 as [A1 B1 C1 D1 F1 G1], K2 as [A2 B2 C2 D2 F2 G2], K3 as [A3 B3 C3 D3 F3 G3]. cbn in *. constructor; cbn; try congruence.
Qed.

(** The references while a task holds one to itself. *)
Definition with_task (o : option positive) (r : gmap positive Z) : gmap positive Z := match o with Some t => <[t := 1]> r | None => r end.
Definition fresh_in (o : option positive) (r : gmap positive Z) : Prop := match o with Some t => r !! t = None | None => True end.
Lemma task_new_ok s : runs hev_task_new s (fun o s' => fds s' = fds s /\ fresh_in o (refs (sy s)) /\
  keeps (with_sys (set_refs (with_task o (refs (sy s))) (sy s)) s) s').
Proof.
  unfold hev_task_new. run. call ask_ok as (K & E & _). apply runs_if; intros _; run; [by destruct K|]. repeat run.
  split; [done|]. destruct K as [A B C D F G]. unfold fresh_in, with_task. rewrite <- B. split; [apply not_elem_of_dom, is_fresh|]. by constructor.
Qed.
Lemma unref_ok o R s : refs (sy s) = with_task o R -> fresh_in o R ->
  runs (unref_task o) s (fun _ s' => fds s' = fds s /\ keeps (with_sys (set_refs R (sy s)) s) s').
Proof.
  intros Hr Hf. destruct o as [t|]; cbn [unref_task with_task fresh_in] in *.
  - unfold hev_task_unref. run. run. rewrite Hr, lookup_insert_eq. change (1 - 1 =? 0) with true. run. split; [done|].
    by rewrite delete_insert_id.
  - run. split; [done|]. destruct s as [[] v]. cbn in *. by subst.
Qed.
Lemma run_task_ok t R s : refs (sy s) = R -> R !! t = Some 1 -> runs (run_task (Some t)) s (fun _ s' => fds s' = fds s /\ keeps s s').
Proof.
  intros Hr Ht. unfold run_task, hev_task_ref, hev_task_unref. repeat run. rewrite Hr, Ht. repeat run. cbn [sy set_refs refs].
  rewrite lookup_insert_eq. change (1 + 1 - 1) with 1. cbn [Z.eqb]. run. split; [done|]. destruct s as [[] v]. cbn in *. subst.
  constructor; cbn; try done. by rewrite insert_insert_eq, insert_id.
Qed.

(** What [event_task_init] leaves: nothing, or the two ends of the pipe and perhaps
    the task. *)
Definition pipe_open (fs : Z * Z) (o o' : gset nat) : Prop :=
  exists a b, fs = (Z.of_nat a, Z.of_nat b) /\ a ∉ o /\ b ∉ {[a]} ∪ o /\ o' = {[b]} ∪ ({[a]} ∪ o).
Lemma event_task_init_ok s : (forall k, answers (sy s) k CanNonblock = true) -> task_event (va s) = None -> event_fds (va s) = (-1, -1) ->
  runs event_task_init s (fun r s' => exists o fs, fresh_in o (refs (sy s)) /\ (o = None -> r = -1) /\ (r = 0 \/ r = -1) /\
    keeps (State (set_refs (with_task o (refs (sy s))) (sy s)) (set_tasks o (task_lwip_io (va s)) (task_lwip_timer (va s)) (set_event_fds fs (va s)))) s' /\
    ((fs = (-1, -1) /\ o = None /\ fds s' = fds s) \/ pipe_open fs (fds s) (fds s'))).
Proof.
  intros Ha Ht He. unfold event_task_init, hev_task_io_pipe_pipe. run. run. call ask_ok as (K & E & _). destruct r; cbn [negb].
  2: { repeat run. exists None, (-1, -1). split_and!; auto; [done|]. destruct s as [[] []], s0 as [[] []], K; cbn in *. by subst. }
  set (a := fresh (fds s0)). set (b := fresh ({[a]} ∪ fds s0)). repeat run. fold a. fold b.
  call ask_ok as (K1 & E1 & Eb1). cbn in Eb1. rewrite (k_answers _ _ K), Ha in Eb1. subst r. cbn [negb]. run.
  call ask_ok as (K2 & E2 & Eb2). rewrite (k_answers _ _ K1) in Eb2. cbn in Eb2. rewrite (k_answers _ _ K), Ha in Eb2. subst r. repeat run.
  call task_new_ok as (E3 & Hf & K3). repeat run.
  assert (Hp : pipe_open (Z.of_nat a, Z.of_nat b) (fds s) (fds s3)).
  { exists a, b. split; [done|]. rewrite <- E. split; [apply is_fresh|]. split; [apply is_fresh|]. exact (eq_trans E3 (eq_trans E2 E1)). }
  assert (Hr : refs (sy s2) = refs (sy s)) by (rewrite (k_refs _ _ K2), (k_refs _ _ K1); exact (k_refs _ _ K)). rewrite Hr in *.
  assert (K' : keeps (State (set_refs (with_task r (refs (sy s))) (sy s)) (set_tasks r (task_lwip_io (va s3)) (task_lwip_timer (va s3)) (set_event_fds (Z.of_nat a, Z.of_nat b) (va s))))
    (State (sy s3) (set_tasks r (task_lwip_io (va s3)) (task_lwip_timer (va s3)) (va s3)))).
  { destruct K as [A B C D F G], K1 as [A1 B1 C1 D1 F1 G1], K2 as [A2 B2 C2 D2 F2 G2], K3 as [A3 B3 C3 D3 F3 G3]. cbn in *. constructor; cbn; congruence. }
  assert (Hv : task_lwip_io (va s3) = task_lwip_io (va s) /\ task_lwip_timer (va s3) = task_lwip_timer (va s)).
  { destruct K as [_ _ _ _ _ G], K1 as [_ _ _ _ _ G1], K2 as [_ _ _ _ _ G2], K3 as [_ _ _ _ _ G3]. cbn in *. rewrite G3. cbn. rewrite G2, G1, G. done. }
  destruct Hv as [Hv1 Hv2]. rewrite Hv1, Hv2 in K'. rewrite Hv1, Hv2. destruct r as [t|].
  - unfold hev_task_add_fd. repeat run. call ask_ok as (K4 & E4 & _). repeat run. exists (Some t), (Z.of_nat a, Z.of_nat b). split; [done|].
    split; [done|]. split; [destruct r; auto|]. split; [exact (same_trans _ _ _ K' K4)|]. right. by rewrite E4.
  - run. exists None, (Z.of_nat a, Z.of_nat b). split_and!; auto.
Qed.
Lemma lwip_io_task_init_ok s :
  runs lwip_io_task_init s (fun r s' => exists o, fresh_in o (refs (sy s)) /\ (o = None -> r = -1) /\ (r = 0 \/ r = -1) /\ fds s' = fds s /\
    keeps (State (set_refs (with_task o (refs (sy s))) (sy s)) (set_tasks (task_event (va s)) o (task_lwip_timer (va s)) (va s))) s').
Proof.
  unfold lwip_io_task_init, hev_task_add_fd. run. call task_new_ok as (E & Hf & K). repeat run. rewrite (k_vars _ _ K). cbn [va with_sys].
  assert (K' : keeps (State (set_refs (with_task r (refs (sy s))) (sy s)) (set_tasks (task_event (va s)) r (task_lwip_timer (va s)) (va s)))
    (State (sy s0) (set_tasks (task_event (va s)) r (task_lwip_timer (va s)) (va s)))) by (by destruct K).
  destruct r as [t|].
  - repeat run. call ask_ok as (K1 & E1 & _). repeat run. exists (Some t). split_and!; auto; [done|by destruct r; auto|exact (eq_trans E1 E)|].
    exact (same_trans _ _ _ K' K1).
  - run. exists None. split_and!; auto.
Qed.
Lemma lwip_timer_task_init_ok s :
  runs lwip_timer_task_init s (fun r s' => exists o, fresh_in o (refs (sy s)) /\ (o = None -> r = -1) /\ (r = 0 \/ r = -1) /\ fds s' = fds s /\
    keeps (State (set_refs (with_task o (refs (sy s))) (sy s)) (set_tasks (task_event (va s)) (task_lwip_io (va s)) o (va s))) s').
Proof.
  unfold lwip_timer_task_init. run. call task_new_ok as (E & Hf & K). repeat run. rewrite (k_vars _ _ K). cbn [va with_sys].
  exists r. split; [done|]. split; [by intros ->|]. split; [destruct r; auto|]. split; [done|]. by destruct K.
Qed.

(** * End *)

(** What the tunnel holds between its start and its end: up to three tasks, the
    pipe, the connections of lwIP and the device it has opened. *)
Definition gate_ok (s : state) : Prop :=
  (tcp (va s) = None /\ udp (va s) = None /\ pcbs (sy s) = ∅) \/
  (exists t u, t <> u /\ tcp (va s) = Some t /\ udp (va s) = Some u /\ pcbs (sy s) = {[u]} ∪ {[t]}).
Definition tasks_ok (s : state) : Prop :=
  let ev := task_event (va s) in let io := task_lwip_io (va s) in let tm := task_lwip_timer (va s) in
  refs (sy s) = with_task tm (with_task io (with_task ev ∅)) /\ fresh_in io (with_task ev ∅) /\ fresh_in tm (with_task io (with_task ev ∅)).
Definition pipe_ok (o : gset nat) (s : state) : Prop := (event_fds (va s) = (-1, -1) /\ fds s = o) \/ pipe_open (event_fds (va s)) o (fds s).
(** [o] without the device *)
Definition device_ok (o o' : gset nat) (s : state) : Prop :=
  (tun_fd_local (va s) = false /\ o = o') \/
  (tun_fd_local (va s) = true /\ exists n, tun_fd (va s) = Z.of_nat n /\ n ∉ o' /\ o = {[n]} ∪ o').
Definition ended (s s' : state) : Prop :=
  refs (sy s') = ∅ /\ pcbs (sy s') = ∅ /\ netif_list (sy s') = false /\ context (sy s') = context (sy s) /\ answers (sy s') = answers (sy s) /\
  task_event (va s') = None /\ task_lwip_io (va s') = None /\ task_lwip_timer (va s') = None /\ event_fds (va s') = (-1, -1) /\
  log_fd (va s') = log_fd (va s) /\ socks5_log_fd (va s') = socks5_log_fd (va s) /\ tun_fd_local (va s') = tun_fd_local (va s) /\
  tcp (va s') = tcp (va s) /\ udp (va s') = udp (va s).

Lemma timer_fini_ok R s : refs (sy s) = with_task (task_lwip_timer (va s)) R -> fresh_in (task_lwip_timer (va s)) R ->
  runs lwip_timer_task_fini s (fun _ s' => fds s' = fds s /\ keeps (State (set_refs R (sy s)) (set_tasks (task_event (va s)) (task_lwip_io (va s)) None (va s))) s').
Proof.
  intros Hr Hf. unfold lwip_timer_task_fini. repeat run. eapply runs_mono; [by apply unref_ok|intros _ s1 (E1 & K1)]. run. split; [done|].
  destruct K1 as [A B C D F G]. constructor; cbn in *; congruence.
Qed.
Lemma io_fini_ok R s : refs (sy s) = with_task (task_lwip_io (va s)) R -> fresh_in (task_lwip_io (va s)) R ->
  runs lwip_io_task_fini s (fun _ s' => fds s' = fds s /\ keeps (State (set_refs R (sy s)) (set_tasks (task_event (va s)) None (task_lwip_timer (va s)) (va s))) s').
Proof.
  intros Hr Hf. unfold lwip_io_task_fini. repeat run. eapply runs_mono; [by apply unref_ok|intros _ s1 (E1 & K1)]. run. split; [done|].
  destruct K1 as [A B C D F G]. constructor; cbn in *; congruence.
Qed.
Lemma two_back (a b : nat) (o : gset nat) : a ∉ o -> b ∉ {[a]} ∪ o -> (({[b]} ∪ ({[a]} ∪ o)) ∖ {[a]}) ∖ {[b]} = o /\ b ∈ ({[b]} ∪ ({[a]} ∪ o)) ∖ {[a]}.
Proof. set_solver. Qed.
Lemma event_fini_ok o s : refs (sy s) = with_task (task_event (va s)) ∅ -> pipe_ok o s ->
  runs event_task_fini s (fun _ s' => fds s' = o /\
    keeps (State (set_refs ∅ (sy s)) (set_tasks None (task_lwip_io (va s)) (task_lwip_timer (va s)) (set_event_fds (-1, -1) (va s)))) s').
Proof.
  intros Hr Hp. unfold event_task_fini. repeat run. eapply runs_mono; [apply (unref_ok _ ∅); [exact Hr|by destruct (task_event (va s))]|intros _ s1 (E1 & K1)].
  repeat run. cbn [va event_fds set_tasks]. rewrite (k_vars _ _ K1). cbn [va with_sys]. destruct Hp as [[He E]|(a & b & He & Ha & Hb & E)]; rewrite He; cbn [fst snd].
  - cbn [Z.leb Z.compare]. repeat run. cbn [va event_fds set_tasks]. rewrite ?(k_vars _ _ K1). cbn [va with_sys]. rewrite ?He. cbn [snd Z.leb Z.compare]. run.
    split; [exact (eq_trans E1 E)|]. destruct K1 as [A B C D F G]. constructor; cbn in *; try congruence. destruct (va s). cbn in *. by rewrite He.
  - rewrite !(proj2 (Z.leb_le 0 (Z.of_nat _))) by lia. pose proof (two_back a b o Ha Hb) as [T1 T2].
    repeat run. call close_ok as (K2 & E2); [cbn; rewrite E1, E; set_solver|]. repeat run. cbn [va event_fds set_event_fds]. rewrite (k_vars _ _ K2).
    cbn [va event_fds set_event_fds set_tasks snd]. rewrite ?(k_vars _ _ K1). cbn [va with_sys]. rewrite ?He. cbn [snd]. rewrite (proj2 (Z.leb_le 0 (Z.of_nat _))) by lia.
    repeat run. call close_ok as (K3 & E3); [cbn; rewrite E2; cbn; rewrite E1, E; exact T2|]. run. cbn in E2, E3.
    split; [cbn; rewrite E3, E2, E1, E; exact T1|].
    destruct K1 as [A B C D F G], K2 as [A2 B2 C2 D2 F2 G2], K3 as [A3 B3 C3 D3 F3 G3]. constructor; cbn in *; try congruence. by rewrite G3.
Qed.
Lemma tunnel_fini_ok o s : device_ok (fds s) o s ->
  runs tunnel_fini s (fun _ s' => fds s' = o /\ keeps (with_vars (if tun_fd_local (va s) then set_tun (-1) true (va s) else va s) s) s').
Proof.
  intros H. unfold tunnel_fini. repeat run. destruct H as [[-> E]|(-> & n & Hn & Ho & E)]; [by run|]. repeat run. unfold hev_tunnel_close. rewrite Hn.
  call close_ok as (K & E2); [rewrite E; apply fds_in|]. run. split; [cbn; rewrite E2, E; by apply fds_back|].
  destruct K as [A B C D F G]. constructor; cbn in *; congruence.
Qed.
Lemma pcb_free_ok o X s : pcbs (sy s) = match o with Some x => {[x]} ∪ X | None => X end -> match o with Some x => x ∉ X | None => True end ->
  runs (pcb_free o) s (fun _ s' => fds s' = fds s /\ keeps (with_sys (set_pcbs X (sy s)) s) s').
Proof.
  intros Hp Hx. destruct o as [x|]; cbn [pcb_free].
  - repeat run. rewrite Hp, bool_decide_true by set_solver. run. split; [done|]. assert (E : ({[x]} ∪ X) ∖ {[x]} = X) by set_solver. by rewrite E.
  - run. split; [done|]. destruct s as [[] v]. cbn in *. by subst.
Qed.
Lemma gateway_fini_ok s : gate_ok s ->
  runs gateway_fini s (fun _ s' => fds s' = fds s /\ keeps (with_sys (set_netif false (set_pcbs ∅ (sy s))) s) s').
Proof.
  intros H. unfold gateway_fini. repeat run.
  set (X := match tcp (va s) with Some t => {[t]} | None => ∅ end : gset positive).
  assert (Hu : pcbs (sy s) = match udp (va s) with Some x => {[x]} ∪ X | None => X end /\ match udp (va s) with Some x => x ∉ X | None => True end).
  { unfold X. destruct H as [(-> & -> & ->)|(t & u & Hne & -> & -> & ->)]; split; auto; set_solver. }
  eapply runs_mono; [apply (pcb_free_ok _ X); apply Hu|intros _ s1 (E1 & K1)]. repeat run.
  rewrite (k_vars _ _ K1). cbn [va with_sys].
  eapply runs_mono; [apply (pcb_free_ok _ ∅); [rewrite (k_pcbs _ _ K1); cbn; unfold X; destruct (tcp (va s)); set_solver|by destruct (tcp (va s))]|intros _ s2 (E2 & K2)].
  run. split; [exact (eq_trans E2 E1)|]. destruct K1 as [A1 B1 C1 D1 F1 G1], K2 as [A2 B2 C2 D2 F2 G2]. cbn in *. constructor; cbn; congruence.
Qed.

Lemma fini_ok o o' s : tasks_ok s -> gate_ok s -> pipe_ok o s -> device_ok o o' s ->
  runs hev_socks5_tunnel_fini s (fun _ s' => fds s' = o' /\ ended s s').
Proof.
  intros (Hr & Hio & Htm) Hg Hp Hd. unfold hev_socks5_tunnel_fini. run. eapply runs_mono; [by apply timer_fini_ok|intros _ s1 (E1 & K1)].
  assert (V1 := k_vars _ _ K1). cbn in V1. run.
  eapply runs_mono; [apply (io_fini_ok (with_task (task_event (va s)) ∅)); rewrite ?(k_refs _ _ K1), ?V1; [done|exact Hio]|intros _ s2 (E2 & K2)].
  assert (V2 := k_vars _ _ K2). cbn in V2. rewrite V1 in V2. cbn in V2. run.
  eapply runs_mono; [apply (event_fini_ok o); [rewrite (k_refs _ _ K2), V2; done|unfold pipe_ok; rewrite V2, E2, E1; exact Hp]|intros _ s3 (E3 & K3)].
  assert (V3 := k_vars _ _ K3). cbn in V3. rewrite V2 in V3. cbn in V3. run.
  eapply runs_mono; [apply gateway_fini_ok; unfold gate_ok; rewrite V3; cbn; rewrite (k_pcbs _ _ K3); cbn; rewrite (k_pcbs _ _ K2); cbn; rewrite (k_pcbs _ _ K1); exact Hg|intros _ s4 (E4 & K4)].
  assert (V4 := k_vars _ _ K4). cbn in V4. rewrite V3 in V4.
  eapply runs_mono; [apply (tunnel_fini_ok o'); rewrite E4, E3; unfold device_ok; rewrite V4; exact Hd|intros _ s5 (E5 & K5)].
  split; [done|]. assert (V5 := k_vars _ _ K5). rewrite V4 in V5. cbn [va with_vars] in V5.
  destruct K1 as [A1 B1 C1 D1 F1 _], K2 as [A2 B2 C2 D2 F2 _], K3 as [A3 B3 C3 D3 F3 _], K4 as [A4 B4 C4 D4 F4 _], K5 as [A5 B5 C5 D5 F5 _]. cbn in *.
  unfold ended. destruct (tun_fd_local (va s)) eqn:El; rewrite V5; cbn; rewrite ?El; split_and!; congruence.
Qed.

(** * The tunnel from its start on *)

(** Before a run: nothing is held.  The gateway's variables are left dangling by
    a run that has ended, which matters only if the device is to be opened. *)
Record at_rest (ext : Z) (s : state) : Prop := {
  ar_refs : refs (sy s) = ∅; ar_pcbs : pcbs (sy s) = ∅; ar_event : task_event (va s) = None; ar_io : task_lwip_io (va s) = None;
  ar_timer : task_lwip_timer (va s) = None; ar_fds : event_fds (va s) = (-1, -1); ar_local : tun_fd_local (va s) = false;
  ar_gate : ext < 0 -> tcp (va s) = None /\ udp (va s) = None
}.
Section Init.
Context (ext : Z) (s0 : state) (o : gset nat).
Hypothesis nonblock : forall k, answers (sy s0) k CanNonblock = true.
Record going (s : state) : Prop := {
  g_tasks : tasks_ok s; g_gate : gate_ok s; g_pipe : pipe_ok o s; g_device : device_ok o (fds s0) s;
  g_context : context (sy s) = context (sy s0); g_answers : answers (sy s) = answers (sy s0);
  g_log : log_fd (va s) = log_fd (va s0); g_socks5_log : socks5_log_fd (va s) = socks5_log_fd (va s0);
  g_ext : 0 <= ext -> tun_fd_local (va s) = false
}.
Lemma going_event s : going s -> task_event (va s) = None -> task_lwip_io (va s) = None -> task_lwip_timer (va s) = None -> event_fds (va s) = (-1, -1) ->
  runs event_task_init s (fun r s' => going s' /\ (r = 0 \/ r = -1) /\ (r = 0 -> task_event (va s') <> None) /\ task_lwip_io (va s') = None /\ task_lwip_timer (va s') = None).
Proof.
  intros [(Hr & _) Hg Hp Hd Hc Ha Hl Hs Hx] He Hi Ht Hf. rewrite He, Hi, Ht in Hr. cbn in Hr.
  eapply runs_mono; [apply event_task_init_ok; rewrite ?Ha; auto|intros r s' (t & fs & Hfr & Ho & Hr01 & K & Hpipe)].
  assert (V := k_vars _ _ K). cbn in V. rewrite Hr in *. split.
  - constructor.
    + unfold tasks_ok. rewrite V. cbn. rewrite Hi, Ht. cbn. rewrite (k_refs _ _ K). done.
    + unfold gate_ok. rewrite V, (k_pcbs _ _ K). exact Hg.
    + unfold pipe_ok. rewrite V. cbn. destruct Hp as [[_ Hfds]|(a & b & Hab & _)]; [|rewrite Hf in Hab; injection Hab as Ha1 _; lia].
      rewrite Hfds in Hpipe. destruct Hpipe as [(-> & _ & ?)|?]; auto.
    + unfold device_ok. rewrite V. exact Hd.
    + rewrite (k_context _ _ K). exact Hc.
    + rewrite (k_answers _ _ K). exact Ha.
    + by rewrite V.
    + by rewrite V.
    + by rewrite V.
  - split; [done|]. rewrite V. cbn. split; [|done]. intros -> ->. by specialize (Ho eq_refl).
Qed.
Lemma going_task s s' (ev io tm : option positive) : going s -> fds s' = fds s ->
  tasks_ok s' -> keeps (State (set_refs (refs (sy s')) (sy s)) (set_tasks ev io tm (va s))) s' -> going s'.
Proof.
  intros [_ Hg Hp Hd Hc Ha Hl Hs Hx] E Htk K. assert (V := k_vars _ _ K). cbn in V.
  constructor; [done|..].
  - unfold gate_ok. rewrite V, (k_pcbs _ _ K). exact Hg.
  - unfold pipe_ok. rewrite V, E. exact Hp.
  - unfold device_ok. rewrite V. exact Hd.
  - rewrite (k_context _ _ K). exact Hc.
  - rewrite (k_answers _ _ K). exact Ha.
  - by rewrite V.
  - by rewrite V.
  - by rewrite V.
Qed.
Lemma going_io s : going s -> task_event (va s) <> None -> task_lwip_io (va s) = None -> task_lwip_timer (va s) = None ->
  runs lwip_io_task_init s (fun r s' => going s' /\ (r = 0 \/ r = -1) /\ (r = 0 -> task_event (va s') <> None /\ task_lwip_io (va s') <> None) /\ task_lwip_timer (va s') = None).
Proof.
  intros Hgo He Hi Ht. pose proof Hgo as [(Hr & _) _ _ _ _ _ _ _ _]. rewrite Hi, Ht in Hr. cbn in Hr.
  eapply runs_mono; [apply lwip_io_task_init_ok|intros r s' (t & Hfr & Ho & Hr01 & E & K)]. assert (V := k_vars _ _ K). cbn in V. rewrite Ht in V.
  rewrite Hr in *. split.
  - eapply going_task; [exact Hgo|exact E| |].
    + unfold tasks_ok. rewrite V. cbn. by rewrite (k_refs _ _ K).
    + rewrite (k_refs _ _ K). exact K.
  - split; [done|]. rewrite V. cbn. split; [|done]. intros ->. split; [done|]. intros ->. by specialize (Ho eq_refl).
Qed.
Lemma going_timer s : going s -> task_event (va s) <> None -> task_lwip_io (va s) <> None -> task_lwip_timer (va s) = None ->
  runs lwip_timer_task_init s (fun r s' => going s' /\ (r = 0 \/ r = -1) /\
    (r = 0 -> task_event (va s') <> None /\ task_lwip_io (va s') <> None /\ task_lwip_timer (va s') <> None)).
Proof.
  intros Hgo He Hi Ht. pose proof Hgo as [(Hr & Hio & _) _ _ _ _ _ _ _ _]. rewrite Ht in Hr. cbn in Hr.
  eapply runs_mono; [apply lwip_timer_task_init_ok|intros r s' (t & Hfr & Ho & Hr01 & E & K)]. assert (V := k_vars _ _ K). cbn in V.
  rewrite Hr in *. split.
  - eapply going_task; [exact Hgo|exact E| |].
    + unfold tasks_ok. rewrite V. cbn. by rewrite (k_refs _ _ K).
    + rewrite (k_refs _ _ K). exact K.
  - split; [done|]. rewrite V. cbn. intros ->. split_and!; auto. intros ->. by specialize (Ho eq_refl).
Qed.
Lemma going_fini s : going s -> runs hev_socks5_tunnel_fini s (fun _ s' => fds s' = fds s0 /\ ended s s').
Proof. intros []. by eapply fini_ok. Qed.
End Init.

(** Descriptors that are open afterwards and were not before. *)
Definition leaks (l : list nat) (s s' : state) : Prop := NoDup l /\ (forall x, x ∈ l -> x ∉ fds s) /\ fds s' = list_to_set l ∪ fds s.
Lemma leaks_nil s s' : fds s' = fds s -> leaks [] s s'.
Proof. intros E. split; [constructor|]. split; [by intros x ?%elem_of_nil|]. rewrite E. set_solver. Qed.
Lemma leaks_cons l n s s1 s2 : leaks l s s1 -> n ∉ fds s1 -> fds s2 = {[n]} ∪ fds s1 -> leaks (n :: l) s s2.
Proof.
  intros (Hn & Hl & E) Hx E2. rewrite E in Hx, E2. split; [constructor; [|done]; set_solver|]. split; [set_solver|].
  rewrite E2. cbn. set_solver.
Qed.
Definition released (s s' : state) : Prop :=
  refs (sy s') = ∅ /\ pcbs (sy s') = ∅ /\ task_event (va s') = None /\ task_lwip_io (va s') = None /\ task_lwip_timer (va s') = None /\
  event_fds (va s') = (-1, -1) /\ context (sy s') = context (sy s) /\ log_fd (va s') = log_fd (va s) /\ socks5_log_fd (va s') = socks5_log_fd (va s).
Lemma ended_released s s1 s' : ended s1 s' -> context (sy s1) = context (sy s) -> log_fd (va s1) = log_fd (va s) ->
  socks5_log_fd (va s1) = socks5_log_fd (va s) -> released s s'.
Proof. unfold ended, released. intuition congruence. Qed.

(** The end of [hev_socks5_tunnel_init]. *)
Definition ready (ext : Z) (s s' : state) : Prop :=
  (exists o, going ext s o s') /\ task_event (va s') <> None /\ task_lwip_io (va s') <> None /\ task_lwip_timer (va s') <> None.
Lemma fini_end ext s o s1 : going ext s o s1 ->
  runs hev_socks5_tunnel_fini s1 (fun _ s' => released s s' /\ (0 <= ext -> tun_fd_local (va s') = false) /\ fds s' = fds s).
Proof.
  intros Hg. eapply runs_mono; [eapply going_fini; exact Hg|intros _ s2 (E & He)].
  split; [eapply ended_released; [exact He|apply Hg..]|]. split; [|done].
  intros Hx. pose proof (g_ext _ _ _ _ Hg Hx). unfold ended in He. intuition congruence.
Qed.
Lemma init_ok ext v4 v6 s : at_rest ext s -> (forall k, answers (sy s) k CanNonblock = true) -> (forall k, answers (sy s) k CanPcb = true) ->
  runs (hev_socks5_tunnel_init ext v4 v6) s (fun r s' =>
    (r = 0 /\ ready ext s s') \/
    (r = -1 /\ released s s' /\ (0 <= ext -> tun_fd_local (va s') = false) /\ (fds s' = fds s \/ (ext < 0 /\ exists n, leaks [n] s s')))).
Proof.
  intros [Hr Hp He Hi Ht Hf Hl Hgt] Hn Hm. unfold hev_socks5_tunnel_init. run.
  eapply runs_mono; [by apply tunnel_init_ok|intros r s1 (fd & l & K & Hc)]. assert (V := k_vars _ _ K). cbn in V.
  assert (Hok : (r = 0 /\ pipe_ok (fds s1) s1 /\ device_ok (fds s1) (fds s) s1 /\ (0 <= ext -> l = false)) \/
    (r = -1 /\ l = false /\ ext < 0 /\ (fds s1 = fds s \/ exists n, leaks [n] s s1))).
  { destruct Hc as [(H0 & -> & -> & -> & E)|[(H0 & -> & -> & E)|(H0 & n & -> & Hx & E & [[-> ->]|[-> ->]])]].
    - left. split; [done|]. split; [left; by rewrite V|]. split; [left; rewrite V; auto|done].
    - right. auto.
    - left. split; [done|]. split; [left; by rewrite V|]. split; [right; rewrite V; split; [done|]; exists n; auto|]. lia.
    - right. split_and!; auto. right. exists n. by eapply leaks_cons; [by apply (leaks_nil s s)|..]. }
  clear Hc. destruct Hok as [(-> & Hpipe & Hdev & Hext)|(-> & -> & Hext & Hfd)]; cbn [Z.ltb Z.compare].
  - repeat run. eapply runs_mono; [apply gateway_init_ok; [intros; rewrite (k_answers _ _ K); apply Hm|by rewrite (k_pcbs _ _ K)]|intros r s2 (-> & E2 & t & u & Htu & K2)].
    assert (V2 := k_vars _ _ K2). cbn in V2. rewrite V in V2. cbn in V2.
    assert (Hgo : going ext s (fds s1) s2).
    { constructor.
      - unfold tasks_ok. rewrite V2. cbn. rewrite He, Hi, Ht. cbn. rewrite (k_refs _ _ K2). cbn. rewrite (k_refs _ _ K). by split_and!.
      - right. exists t, u. rewrite V2, (k_pcbs _ _ K2). by split_and!.
      - left. rewrite V2. cbn. auto.
      - unfold device_ok in *. rewrite V2. rewrite V in Hdev. exact Hdev.
      - rewrite (k_context _ _ K2). exact (k_context _ _ K).
      - rewrite (k_answers _ _ K2). exact (k_answers _ _ K).
      - by rewrite V2.
      - by rewrite V2.
      - rewrite V2. exact Hext. }
    assert (Hdone : forall r s', (r = 0 /\ ready ext s s') \/ (r = -1 /\ released s s' /\ (0 <= ext -> tun_fd_local (va s') = false) /\ fds s' = fds s) ->
      (r = 0 /\ ready ext s s') \/ (r = -1 /\ released s s' /\ (0 <= ext -> tun_fd_local (va s') = false) /\ (fds s' = fds s \/ (ext < 0 /\ exists n, leaks [n] s s'))))
      by intuition.
    repeat run. eapply runs_mono; [eapply (going_event ext s (fds s1) Hn s2 Hgo); rewrite V2; done|intros r s3 (Hgo3 & [-> | ->] & He3 & Hi3 & Ht3)]; repeat run.
    2: { eapply runs_mono; [eapply fini_end; exact Hgo3|intros ? s' Hs'; run; apply Hdone; auto]. }
    eapply runs_mono; [eapply (going_io ext s (fds s1) s3 Hgo3); auto|intros r s4 (Hgo4 & [-> | ->] & He4 & Ht4)]; repeat run.
    2: { eapply runs_mono; [eapply fini_end; exact Hgo4|intros ? s' Hs'; run; apply Hdone; auto]. }
    destruct (He4 eq_refl) as [He4' Hi4].
    eapply runs_mono; [eapply (going_timer ext s (fds s1) s4 Hgo4); auto|intros r s5 (Hgo5 & Hr5 & He5)].
    destruct Hr5 as [-> | ->]; repeat run.
    + left. split; [done|]. split; [by exists (fds s1)|auto].
    + eapply runs_mono; [eapply fini_end; exact Hgo5|intros ? s' Hs'; run; apply Hdone; auto].
  - repeat run. eapply runs_mono; [apply (fini_ok (fds s1) (fds s1))|intros _ s2 (E2 & H2)].
    + unfold tasks_ok. rewrite V. cbn. rewrite He, Hi, Ht. cbn. rewrite (k_refs _ _ K). by split_and!.
    + left. rewrite V. cbn. rewrite (k_pcbs _ _ K). destruct (Hgt Hext). by split_and!.
    + left. rewrite V. auto.
    + left. rewrite V. auto.
    + run. right. split; [done|]. split; [eapply ended_released; [exact H2|exact (k_context _ _ K)|by rewrite V..]|]. split; [lia|].
      destruct Hfd as [Hfd|(n & Hfd)]; [left; congruence|right]. split; [done|]. exists n. unfold leaks in *. by rewrite E2.
Qed.

Lemma with_task_keep o R t : R !! t = Some 1 -> with_task o R !! t = Some 1.
Proof. intros H. destruct o as [x|]; cbn; [|done]. destruct (decide (x = t)) as [->|]; [apply lookup_insert_eq|by rewrite lookup_insert_ne]. Qed.
Lemma tunnel_run_ok ext s0 s : ready ext s0 s -> runs hev_socks5_tunnel_run s (fun _ s' => ready ext s0 s' /\ fds s' = fds s).
Proof.
  intros [[o Hg] (He & Hi & Ht)]. pose proof (g_tasks _ _ _ _ Hg) as (Hr & _). unfold hev_socks5_tunnel_run. repeat run.
  destruct (task_event (va s)) as [ev|] eqn:Ee; [|done]. destruct (task_lwip_io (va s)) as [io|] eqn:Ei; [|done]. destruct (task_lwip_timer (va s)) as [tm|] eqn:Et; [|done].
  assert (Hev : refs (sy s) !! ev = Some 1) by (rewrite Hr; do 2 apply with_task_keep; apply lookup_insert_eq).
  assert (Hio : refs (sy s) !! io = Some 1) by (rewrite Hr; apply with_task_keep; apply lookup_insert_eq).
  assert (Htm : refs (sy s) !! tm = Some 1) by (rewrite Hr; apply lookup_insert_eq).
  eapply runs_mono; [exact (run_task_ok _ _ s eq_refl Hev)|intros ? s1 (E1 & K1)]. repeat run. rewrite <- (k_refs _ _ K1) in Hio, Htm.
  eapply runs_mono; [exact (run_task_ok _ _ s1 eq_refl Hio)|intros ? s2 (E2 & K2)]. repeat run. rewrite <- (k_refs _ _ K2) in Htm.
  eapply runs_mono; [exact (run_task_ok _ _ s2 eq_refl Htm)|intros ? s3 (E3 & K3)]. repeat run.
  pose proof (same_trans _ _ _ K1 (same_trans _ _ _ K2 K3)) as K. assert (E : fds s3 = fds s) by congruence.
  destruct K as [A B C D F G]. split; [|done]. split; [|rewrite G; rewrite Ee, Ei, Et; done]. exists o.
  destruct Hg. constructor; unfold tasks_ok, gate_ok, pipe_ok, device_ok in *; rewrite ?G, ?A, ?B, ?C, ?F, ?E; auto.
Qed.

(** The descriptors of the loggers and of the task system. *)
Lemma logs_ok s : runs hev_logger_init s (fun r s' => exists fd, keeps (with_vars (set_logs fd (socks5_log_fd (va s)) (va s)) s) s' /\
  ((r = -1 /\ fds s' = fds s) \/ (r = 0 /\ exists n, fd = Z.of_nat n /\ n ∉ fds s /\ fds s' = {[n]} ∪ fds s))).
Proof.
  unfold hev_logger_init. run. call new_fd_ok as (K & H). repeat run. exists r. rewrite (k_vars _ _ K). split; [by destruct K|].
  destruct H as [[-> E]|(n & -> & Hn & E)]; [by left|right]. rewrite (proj2 (Z.ltb_ge (Z.of_nat n) 0)) by lia. eauto.
Qed.
Lemma socks5_logs_ok s : runs hev_socks5_logger_init s (fun r s' => exists fd, keeps (with_vars (set_logs (log_fd (va s)) fd (va s)) s) s' /\
  ((r = -1 /\ fds s' = fds s) \/ (r = 0 /\ exists n, fd = Z.of_nat n /\ n ∉ fds s /\ fds s' = {[n]} ∪ fds s))).
Proof.
  unfold hev_socks5_logger_init. run. call new_fd_ok as (K & H). repeat run. exists r. rewrite (k_vars _ _ K). split; [by destruct K|].
  destruct H as [[-> E]|(n & -> & Hn & E)]; [by left|right]. rewrite (proj2 (Z.ltb_ge (Z.of_nat n) 0)) by lia. eauto.
Qed.
Lemma task_system_ok s : context (sy s) = None -> runs hev_task_system_init s (fun r s' =>
  (r = -1 /\ keeps s s' /\ fds s' = fds s) \/
  (r = 0 /\ exists a b, keeps (with_sys (set_context (Some (Z.of_nat a, Z.of_nat b)) (sy s)) s) s' /\ a ∉ fds s /\ b ∉ {[a]} ∪ fds s /\ fds s' = {[b]} ∪ ({[a]} ∪ fds s))).
Proof.
  intros Hc. unfold hev_task_system_init. repeat run. rewrite Hc. repeat run. call ask_ok as (K & E & _). apply runs_if; intros _; [run; by left|].
  repeat run. call new_fd_ok as (K1 & [[-> E1]|(a & -> & Ha & E1)]); [run; left; split; [done|]; split; [exact (same_trans _ _ _ K K1)|congruence]|].
  rewrite (proj2 (Z.ltb_ge (Z.of_nat a) 0)) by lia. rewrite E in Ha, E1. repeat run.
  call new_fd_ok as (K2 & [[-> E2]|(b & -> & Hb & E2)]).
  - repeat run. call close_ok as (K3 & E3); [rewrite E2, E1; apply fds_in|]. run. left. split; [done|].
    split; [exact (same_trans _ _ _ K (same_trans _ _ _ K1 (same_trans _ _ _ K2 K3)))|]. rewrite E3, E2, E1. by apply fds_back.
  - rewrite (proj2 (Z.ltb_ge (Z.of_nat b) 0)) by lia. rewrite E1 in Hb, E2. repeat run. right. split; [done|]. exists a, b. split; [|done].
    destruct (same_trans _ _ _ K (same_trans _ _ _ K1 K2)). by constructor.
Qed.

Lemma all_back (a b r t : nat) (X : gset nat) : a ∉ X -> b ∉ {[a]} ∪ X -> r ∉ {[b]} ∪ ({[a]} ∪ X) -> t ∉ {[r]} ∪ ({[b]} ∪ ({[a]} ∪ X)) ->
  let Y := {[t]} ∪ ({[r]} ∪ ({[b]} ∪ ({[a]} ∪ X))) in
  b ∈ Y /\ a ∈ Y ∖ {[b]} /\ t ∈ (Y ∖ {[b]}) ∖ {[a]} /\ r ∈ ((Y ∖ {[b]}) ∖ {[a]}) ∖ {[t]} /\ (((Y ∖ {[b]}) ∖ {[a]}) ∖ {[t]}) ∖ {[r]} = X.
Proof. cbn. intros. split_and!; set_solver. Qed.

(** From a successful [hev_socks5_tunnel_init] to the end of the run. *)
Lemma rest_of_run ext (a b rf tf : nat) (X : gset nat) s4 s : ready ext s4 s ->
  fds s4 = {[tf]} ∪ ({[rf]} ∪ ({[b]} ∪ ({[a]} ∪ X))) -> a ∉ X -> b ∉ {[a]} ∪ X -> rf ∉ {[b]} ∪ ({[a]} ∪ X) -> tf ∉ {[rf]} ∪ ({[b]} ∪ ({[a]} ∪ X)) ->
  log_fd (va s4) = Z.of_nat a -> socks5_log_fd (va s4) = Z.of_nat b -> context (sy s4) = Some (Z.of_nat rf, Z.of_nat tf) ->
  runs (_ ← hev_socks5_tunnel_run; _ ← hev_socks5_tunnel_fini; b ← gets socks5_log_fd; _ ← close b; a ← gets log_fd; _ ← close a;
        _ ← hev_task_system_fini; mret 0) s
    (fun r s' => r = 0 /\ fds s' = X /\ (0 <= ext -> at_rest ext s') /\ refs (sy s') = ∅ /\ pcbs (sy s') = ∅ /\ context (sy s') = None).
Proof.
  intros Hready E4 Ha Hb Hr Ht Hla Hlb Hc. run. eapply runs_mono; [by apply tunnel_run_ok|intros ? s6 ([[o Hg] _] & _)]. run.
  eapply runs_mono; [eapply going_fini; exact Hg|intros ? s7 (E7 & He)]. repeat run.
  destruct He as (B1 & B2 & B3 & B4 & B5 & B6 & B7 & B8 & B9 & B10 & B11 & B12 & B13 & B14).
  pose proof (all_back a b rf tf X Ha Hb Hr Ht) as Hback. cbv zeta in Hback. rewrite <- E4, <- E7 in Hback. destruct Hback as (M1 & M2 & M3 & M4 & M5).
  assert (Hb7 : socks5_log_fd (va s7) = Z.of_nat b) by (rewrite B11, (g_socks5_log _ _ _ _ Hg); done). rewrite Hb7.
  call close_ok as (K8 & E8); [done|]. repeat run.
  assert (Ha7 : log_fd (va s0) = Z.of_nat a) by (rewrite (k_vars _ _ K8), B10, (g_log _ _ _ _ Hg); done). rewrite Ha7.
  call close_ok as (K9 & E9); [by rewrite E8|]. unfold hev_task_system_fini. repeat run.
  assert (Hc9 : context (sy s1) = Some (Z.of_nat rf, Z.of_nat tf)) by (rewrite (k_context _ _ K9), (k_context _ _ K8), B4, (g_context _ _ _ _ Hg); done).
  rewrite Hc9. repeat run. call close_ok as (K10 & E10); [by rewrite E9, E8|]. repeat run. call close_ok as (K11 & E11); [by rewrite E10, E9, E8|]. repeat run.
  pose proof (same_trans _ _ _ K8 (same_trans _ _ _ K9 (same_trans _ _ _ K10 K11))) as [X1 X2 X3 X4 X5 X6].
  split; [done|]. split; [cbn; by rewrite E11, E10, E9, E8|]. cbn. rewrite X2, X3. split_and!; auto.
  intros Hx. constructor; cbn; rewrite ?X6; auto; [congruence|congruence| |lia]. rewrite B12. exact (g_ext _ _ _ _ Hg Hx).
Qed.

(** C30: a run of the tunnel gives back what it took, if a pipe can be made non-blocking
    and there is memory for lwIP's connections (else: [pipe_closed_twice],
    [gateway_freed_twice]).  For all other answers of the system,
    [hev_socks5_tunnel_main_inner], begun with nothing held, ends without a fault, with
    every task released and every connection of lwIP freed, exactly once each, and closes
    no descriptor that was open before, a device handed to it included.  If it returns 0,
    no new descriptor is open; otherwise what stays open is none (-2), one descriptor
    (-3, of the first logger), two (-4, of both loggers) or four (-5, with those of the
    reactor and the timer), and a fifth, of the device, only if it was to be opened.
    After a run with a device handed to it, it can be run again; one that opened its
    device itself leaves a flag with which a later one closes what it is handed
    ([handed_device_closed]). *)
Theorem main_inner_resources (extern_tun_fd : Z) (ipv4 ipv6 : bool) (s : state) :
  at_rest extern_tun_fd s -> context (sy s) = None ->
  (forall k, answers (sy s) k CanNonblock = true) -> (forall k, answers (sy s) k CanPcb = true) ->
  runs (hev_socks5_tunnel_main_inner extern_tun_fd ipv4 ipv6) s (fun r s' => exists l, leaks l s s' /\ (0 <= extern_tun_fd -> at_rest extern_tun_fd s') /\
    refs (sy s') = ∅ /\ pcbs (sy s') = ∅ /\
    ((r = 0 /\ l = [] /\ context (sy s') = None) \/ (r = -2 /\ l = []) \/ (r = -3 /\ length l = 1%nat) \/ (r = -4 /\ length l = 2%nat) \/
     (r = -5 /\ (length l = 4%nat \/ (extern_tun_fd < 0 /\ length l = 5%nat))))).
Proof.
  intros Har Hctx Hn Hm.
  (* what stays at rest when only the loggers or the context have changed *)
  assert (Hrest : forall y v s', keeps (State (set_context y (sy s)) v) s' -> (exists a b, v = set_logs a b (va s)) -> at_rest extern_tun_fd s').
  { intros y v s' K (a & b & ->). destruct Har. assert (V := k_vars _ _ K). cbn in V.
    constructor; rewrite ?V; cbn; auto; [by rewrite (k_refs _ _ K)|by rewrite (k_pcbs _ _ K)]. }
  unfold hev_socks5_tunnel_main_inner. run.
  eapply runs_mono; [apply logs_ok|intros r s1 (fa & K1 & H1)]. assert (V1 := k_vars _ _ K1). cbn in V1.
  assert (R1 : at_rest extern_tun_fd s1) by (eapply (Hrest (context (sy s))); [destruct s as [[] ?]; exact K1|eauto]).
  destruct H1 as [[-> E1]|(-> & a & -> & Ha & E1)]; repeat run.
  { exists []. split; [by apply leaks_nil|]. pose proof R1 as []. split_and!; auto. }
  assert (L1 : leaks [a] s s1) by (eapply leaks_cons; [by apply (leaks_nil s s)|done..]).
  eapply runs_mono; [apply socks5_logs_ok|intros r s2 (fb & K2 & H2)]. assert (V2 := k_vars _ _ K2). cbn in V2. rewrite V1 in V2. cbn in V2.
  assert (R2 : at_rest extern_tun_fd s2).
  { eapply (Hrest (context (sy s))); [|eexists _, _; reflexivity]. destruct K1, K2. constructor; cbn in *; try congruence. exact V2. }
  destruct H2 as [[-> E2]|(-> & b & -> & Hb & E2)]; repeat run.
  { exists [a]. pose proof R2 as []. split; [unfold leaks in *; by rewrite E2|]. split_and!; auto. }
  assert (L2 : leaks [b; a] s s2) by (by eapply leaks_cons).
  call ask_ok as (K3 & E3 & _). repeat run.
  assert (Hc3 : context (sy s0) = None) by (rewrite (k_context _ _ K3), (k_context _ _ K2); cbn; by rewrite (k_context _ _ K1)).
  assert (A3 : answers (sy s0) = answers (sy s)) by (rewrite (k_answers _ _ K3), (k_answers _ _ K2); exact (k_answers _ _ K1)).
  assert (R3 : at_rest extern_tun_fd s0) by (destruct R2, K3 as [X1 X2 X3 X4 X5 X6]; constructor; rewrite ?X6, ?X2, ?X3; auto).
  eapply runs_mono; [by apply task_system_ok|intros r0 s4 [(-> & K4 & E4)|(-> & rf & tf & K4 & Hr & Ht & E4)]]; repeat run.
  { exists [b; a]. split; [unfold leaks in *; by rewrite E4, E3|]. destruct R3, K4 as [X1 X2 X3 X4 X5 X6]. split; [intros _; constructor; rewrite ?X6, ?X2, ?X3; auto|].
    rewrite X2, X3. split_and!; auto. right; right; right; left. done. }
  assert (L4 : leaks [tf; rf; b; a] s s4).
  { apply (leaks_cons _ tf _ (State (set_open ({[rf]} ∪ fds s0) (sy s0)) (va s0))); [|exact Ht|exact E4].
    apply (leaks_cons _ rf _ s0); [unfold leaks in *; by rewrite E3|exact Hr|done]. }
  assert (R4 : at_rest extern_tun_fd s4) by (destruct R3, K4 as [X1 X2 X3 X4 X5 X6]; cbn in *; constructor; rewrite ?X6, ?X2, ?X3; auto).
  assert (A4 : answers (sy s4) = answers (sy s)) by (rewrite (k_answers _ _ K4); exact A3).
  assert (V4 : va s4 = va s2) by (rewrite (k_vars _ _ K4); exact (k_vars _ _ K3)).
  eapply runs_mono; [apply init_ok; [exact R4|by rewrite A4..]|intros r1 s5 [(-> & Hready)|(-> & Hrel & Hloc & Hfd)]]; cbn [Z.ltb Z.compare].
  - rewrite E1 in Hb. rewrite E3, E2, E1 in Hr, Ht, E4.
    eapply runs_mono; [eapply (rest_of_run _ a b rf tf); [exact Hready|exact E4|exact Ha|exact Hb|exact Hr|exact Ht|by rewrite V4, V2..|by rewrite (k_context _ _ K4)]|].
    intros r' s' (-> & E & Hrest' & B1 & B2 & B3). exists []. split; [by apply leaks_nil|]. split_and!; auto.
  - run. destruct Hrel as (B1 & B2 & B3 & B4 & B5 & B6 & B7 & B8 & B9).
    assert (R5 : 0 <= extern_tun_fd -> at_rest extern_tun_fd s5) by (intros Hx; constructor; auto; lia).
    destruct Hfd as [E5|(Hx & n & Ln & Hl & E5)]; [exists [tf; rf; b; a]|exists (n :: [tf; rf; b; a])].
    + split; [unfold leaks in *; by rewrite E5|]. split_and!; auto. do 4 right. auto.
    + split; [eapply leaks_cons; [exact L4|by apply Hl, list_elem_of_singleton|rewrite E5; cbn; set_solver]|]. split_and!; auto. do 4 right. auto.
Qed.

(** * Runs *)
Definition state_of (answers : nat -> question -> bool) (v : vars) : state := State (System answers 0 {[0; 1; 2; 7]}%nat ∅ ∅ false None) v.
Definition all_well : nat -> question -> bool := fun _ _ => true.
Definition no_poll : nat -> question -> bool := fun _ q => match q with CanPoll => false | _ => true end.
Lemma main_inner_resources_witness :
  exists s', hev_socks5_tunnel_main_inner 7 true true (state_of no_poll initial_vars) = Ok (-5, s') /\ at_rest 7 s' /\
    exists l, leaks l (state_of no_poll initial_vars) s' /\ length l = 4%nat.
Proof.
  assert (H := main_inner_resources 7 true true (state_of no_poll initial_vars) ltac:(constructor; done) eq_refl (fun _ => eq_refl) (fun _ => eq_refl)).
  unfold runs in H. destruct (hev_socks5_tunnel_main_inner 7 true true (state_of no_poll initial_vars)) as [[r s']|] eqn:E; [|destruct H].
  assert (Er : r = -5) by (assert (E' : match hev_socks5_tunnel_main_inner 7 true true (state_of no_poll initial_vars) with Ok (r, _) => r | Fault _ => 0 end = -5)
    by (vm_compute; reflexivity); rewrite E in E'; exact E').
  subst r. exists s'. split; [reflexivity|]. destruct H as (l & L & R & _ & _ & H). split; [apply R; discriminate|]. exists l. split; [exact L|].
  destruct H as [[H _]|[[H _]|[[H _]|[[H _]|[_ [H|[H _]]]]]]]; [discriminate H..|exact H|discriminate H].
Defined.
Definition outcome_of (m : res (Z * state)) : option Z * list nat :=
  match m with Ok (r, s) => (Some r, elements (fds s)) | Fault _ => (None, []) end.
Example runs_of_main :
  fst (outcome_of (hev_socks5_tunnel_main_inner 7 true true (state_of all_well initial_vars))) = Some 0 /\
  length (snd (outcome_of (hev_socks5_tunnel_main_inner 7 true true (state_of all_well initial_vars)))) = 4%nat /\
  fst (outcome_of (hev_socks5_tunnel_main_inner (-1) true true (state_of no_poll initial_vars))) = Some (-5) /\
  length (snd (outcome_of (hev_socks5_tunnel_main_inner (-1) true true (state_of no_poll initial_vars)))) = 8%nat.
Proof. vm_compute. auto. Qed.

(** The ends of a pipe that cannot be made non-blocking are closed twice. *)
Fact pipe_closed_twice :
  hev_socks5_tunnel_main_inner 7 true true (state_of (fun _ q => match q with CanNonblock => false | _ => true end) initial_vars) = Fault BadFree.
Proof. vm_compute. reflexivity. Qed.
(** When the device cannot be opened for a second run, the gateway of the first is
    released again. *)
Fact gateway_freed_twice :
  let s1 := match hev_socks5_tunnel_main_inner (-1) true true (state_of all_well initial_vars) with Ok (_, s1) => s1 | Fault _ => state_of all_well initial_vars end in
  let no_ioctl := fun (_ : nat) q => match q with CanIoctl => false | _ => true end in
  hev_socks5_tunnel_main_inner (-1) true true (state_of no_ioctl (va s1)) = Fault Stale.
Proof. vm_compute. reflexivity. Qed.
(** After a run with a device of its own, the next one closes a device it was
    handed. *)
Fact handed_device_closed :
  let s1 := match hev_socks5_tunnel_main_inner (-1) true true (state_of all_well initial_vars) with Ok (_, s1) => s1 | Fault _ => state_of all_well initial_vars end in
  outcome_of (hev_socks5_tunnel_main_inner 7 true true (state_of all_well (va s1))) = (Some 0, [2; 1; 0]%nat).
Proof. vm_compute. reflexivity. Qed.
(** An address that is none is taken for success. *)
Fact bad_address_accepted :
  outcome_of (hev_tunnel_set_ipv4 (state_of (fun _ q => match q with IsAddress => false | _ => true end) initial_vars)) = (Some 0, [2; 7; 1; 0]%nat).
Proof. vm_compute. reflexivity. Qed.
