(* ===== verification/Rhn.v ===== *)
(** Domain names in the DNS proxy pdnsd: the functions of helpers.c and helpers.h
    on names in length byte notation ("rhn": a length byte, that many bytes, and
    so on, ended by a length of 0). *)
From S2P Require Import Prelude CLib.

Definition DNSNAMEBUFSIZE : Z := 256.
Definition RC_OK : Z := 0.
Definition RC_FORMAT : Z := 1.
Definition RC_TRUNC : Z := 65534.
(** [PDNSD_ASSERT]: the program logs and exits. *)
Definition PDNSD_ASSERT (c : bool) : res unit := if c then Ok tt else Fault AssertFail.

(** * helpers.h

    A name ends inside its buffer, so the length of the buffer bounds the loops. *)
Fixpoint rhnlen_loop (fuel : nat) (rhn : list Z) (i : Z) : res Z :=
  match fuel with
  | O => Fault OutOfFuel
  | S k =>
      lb ← rd rhn i;
      let i := i + 1 in
      if lb =? 0 then mret i else rhnlen_loop k rhn (i + lb)
  end.
Definition rhnlen (rhn : list Z) : res Z := rhnlen_loop (S (length rhn)) rhn 0.

(** [skipsegs], [skiprhn] return pointers: offsets into [nm]. *)
Fixpoint skipsegs (nm : list Z) (p : Z) (k : nat) : res Z :=
  match k with
  | O => mret p
  | S k => lb ← rd nm p; if lb =? 0 then mret p else skipsegs nm (p + lb + 1) k
  end.
Fixpoint skiprhn_loop (fuel : nat) (rhn : list Z) (p : Z) : res Z :=
  match fuel with
  | O => Fault OutOfFuel
  | S k => lb ← rd rhn p; let p := p + 1 in if lb =? 0 then mret p else skiprhn_loop k rhn (p + lb)
  end.
Definition skiprhn (rhn : list Z) (p : Z) : res Z := skiprhn_loop (S (length rhn)) rhn p.
Fixpoint rhnsegcnt_loop (fuel : nat) (rhn : list Z) (p cnt : Z) : res Z :=
  match fuel with
  | O => Fault OutOfFuel
  | S k => lb ← rd rhn p; if lb =? 0 then mret cnt else rhnsegcnt_loop k rhn (p + (lb + 1)) (cnt + 1)
  end.
Definition rhnsegcnt (rhn : list Z) : res Z := rhnsegcnt_loop (S (length rhn)) rhn 0 0.

(** The [do] loop of [rhnicmp]: [lb] bytes from [i] on, up to case. *)
Fixpoint same_bytes (lb : nat) (a b : list Z) (i : Z) : res bool :=
  match lb with
  | O => mret true
  | S lb =>
      x ← rd a i;
      y ← rd b i;
      if negb (tolower x =? tolower y) then mret false else same_bytes lb a b (i + 1)
  end.
Fixpoint rhnicmp_loop (fuel : nat) (a b : list Z) (i : Z) : res Z :=
  match fuel with
  | O => Fault OutOfFuel
  | S k =>
      lb ← rd a i;
      lb' ← rd b i;
      if negb (lb =? lb') then mret 0 else
      if lb =? 0 then mret 1 else
      same ← same_bytes (Z.to_nat lb) a b (i + 1);
      if (same : bool) then rhnicmp_loop k a b (i + 1 + lb) else mret 0
  end.
Definition rhnicmp (a b : list Z) : res Z := rhnicmp_loop (S (length a)) a b 0.

(** * helpers.c *)
Definition rhncpy (dst src : list Z) : res (Z * list Z) :=
  len ← rhnlen src;
  _ ← PDNSD_ASSERT (len <=? DNSNAMEBUFSIZE);
  d ← rdn src 0 (if DNSNAMEBUFSIZE <? len then DNSNAMEBUFSIZE else len);
  dst ← wrn dst 0 d;
  mret (len, dst).

Fixpoint isnormalencdomname_loop (fuel : nat) (rhn : list Z) (maxlen i : Z) : res Z :=
  match fuel with
  | O => Fault OutOfFuel
  | S k =>
      if maxlen <=? i then mret 0 else
      lb ← rd rhn i;
      let i := i + 1 in
      if lb =? 0 then mret 1 else
      if 63 <? lb then mret 0 else isnormalencdomname_loop k rhn maxlen (i + lb)
  end.
Definition isnormalencdomname (rhn : list Z) (maxlen : Z) : res Z :=
  let maxlen := if DNSNAMEBUFSIZE <? maxlen then DNSNAMEBUFSIZE else maxlen in
  isnormalencdomname_loop (Z.to_nat DNSNAMEBUFSIZE + 1) rhn maxlen 0.

Definition dot : Z := 46.
(** [j<len] of [parsestr2rhn]; [str2rhn] has no such bound. *)
Definition inside (len : option Z) (j : Z) : bool := match len with Some n => j <? n | None => true end.
(** The inner loop of both: [false] when the label is too long. *)
Fixpoint copy_label (fuel : nat) (str : list Z) (len : option Z) (rhn : list Z) (j jlim : Z) : res (bool * list Z * Z) :=
  match fuel with
  | O => Fault OutOfFuel
  | S k =>
      if negb (inside len j) then mret (true, rhn, j) else
      c ← rd str j;
      if (c =? 0) || (c =? dot) then mret (true, rhn, j) else
      if jlim <=? j then mret (false, rhn, j) else
      rhn ← wr rhn (j + 1) c;
      copy_label k str len rhn (j + 1) jlim
  end.
Definition jlim_of (i : Z) : Z := if DNSNAMEBUFSIZE - 2 <? i + 63 then DNSNAMEBUFSIZE - 2 else i + 63.

Fixpoint str2rhn_loop (fuel : nat) (str rhn : list Z) (i : Z) : res (Z * list Z) :=
  match fuel with
  | O => Fault OutOfFuel
  | S k =>
      '(ok, rhn, j) ← copy_label 64 str None rhn i (jlim_of i);
      if negb ok then mret (0, rhn) else
      c ← rd str j;
      if c =? 0 then
        rhn ← wr rhn i 0;
        mret (if (i <? j) || (i =? 0) then 0 else 1, rhn)
      else if j <=? i then mret (0, rhn)
      else
        rhn ← wr rhn i (u8 (j - i));
        str2rhn_loop k str rhn (j + 1)
  end.
Definition str2rhn (str rhn : list Z) : res (Z * list Z) :=
  c ← rd str 0;
  root ← (if c =? dot then c' ← rd str 1; mret (c' =? 0) else mret false : res bool);
  if (root : bool) then rhn ← wr rhn 0 0; mret (1, rhn)
  else str2rhn_loop (Z.to_nat DNSNAMEBUFSIZE) str rhn 0.

(** [j<len && str[j]] *)
Definition more (str : list Z) (len j : Z) : res bool :=
  if j <? len then c ← rd str j; mret (negb (c =? 0)) else mret false.
(** [parsestr2rhn]: [true] for NULL, no error. *)
Fixpoint parsestr2rhn_loop (fuel : nat) (str : list Z) (len : Z) (rhn : list Z) (i : Z) : res (bool * list Z) :=
  match fuel with
  | O => Fault OutOfFuel
  | S k =>
      let finish i rhn := (rhn ← wr rhn i 0; mret (negb (i =? 0), rhn)) : res (bool * list Z) in
      '(ok, rhn, j) ← copy_label 64 str (Some len) rhn i (jlim_of i);
      if negb ok then mret (false, rhn) else
      m ← more str len j;
      if j <=? i then if (m : bool) then mret (false, rhn) else finish i rhn
      else
        rhn ← wr rhn i (u8 (j - i));
        m ← more str len j;
        if (m : bool) then parsestr2rhn_loop k str len rhn (j + 1) else finish (j + 1) rhn
  end.
Definition parsestr2rhn (str : list Z) (len : Z) (rhn : list Z) : res (bool * list Z) :=
  root ← (if 0 <? len then
            c ← rd str 0;
            if c =? dot then if len =? 1 then mret true else c' ← rd str 1; mret (c' =? 0) else mret false
          else mret false : res bool);
  if (root : bool) then rhn ← wr rhn 0 0; mret (true, rhn)
  else parsestr2rhn_loop (Z.to_nat DNSNAMEBUFSIZE) str len rhn 0.

(** [isgraph] in the C locale, and what [snprintf] makes of a backslash and three
    octal digits. *)
Definition isgraph (c : Z) : bool := (33 <=? c) && (c <=? 126).
Definition octal3 (c : Z) : list Z := [92; 48 + Z.shiftr c 6; 48 + Z.land (Z.shiftr c 3) 7; 48 + Z.land c 7].
Definition escaped (c : Z) : bool := (c =? dot) || (c =? 92) || (c =? 34).

(** The overflow branch: the last bytes are dots and a NUL. *)
Definition rhn2str_overflow (str : list Z) (size : Z) : res (list Z) :=
  let j := size - 1 in
  str ← wr str j 0;
  if negb (0 <? j) then mret str else
  str ← wr str (j - 1) dot;
  if negb (0 <? j - 1) then mret str else
  str ← wr str (j - 2) dot;
  if negb (0 <? j - 2) then mret str else wr str (j - 3) dot.
(** The inner loop: [lb] bytes of a label from [i] on; [false] for overflow. *)
Fixpoint rhn2str_label (lb : nat) (rhn str : list Z) (size i j : Z) : res (bool * list Z * Z) :=
  match lb with
  | O => mret (true, str, j)
  | S lb =>
      if size <=? j + 2 then mret (false, str, j) else
      c ← rd rhn i;
      if isgraph c then
        '(room, str, j) ←
          (if escaped c then str ← wr str j 92; mret (negb (size <=? j + 1 + 2), str, j + 1)
           else mret (true, str, j) : res (bool * list Z * Z));
        if negb room then mret (false, str, j) else
        str ← wr str j c;
        rhn2str_label lb rhn str size (i + 1) (j + 1)
      else
        let rem := size - 1 - j in
        str ← wrn str j (take (Z.to_nat (rem - 1)) (octal3 c) ++ [0]);
        if rem <=? 4 then str ← wr str j dot; mret (false, str, j + 1)
        else rhn2str_label lb rhn str size (i + 1) (j + 4)
  end.
Fixpoint rhn2str_loop (fuel : nat) (lb : Z) (rhn str : list Z) (size i j : Z) : res (list Z) :=
  match fuel with
  | O => Fault OutOfFuel
  | S k =>
      '(ok, str, j) ← rhn2str_label (Z.to_nat lb) rhn str size i j;
      if negb ok then rhn2str_overflow str size else
      str ← wr str j dot;
      let i := i + lb in
      lb ← rd rhn i;
      if lb =? 0 then wr str (j + 1) 0 else rhn2str_loop k lb rhn str size (i + 1) (j + 1)
  end.
(** [None] for NULL. *)
Definition rhn2str (rhn str : list Z) (size : Z) : res (option (list Z)) :=
  if size =? 0 then mret None else
  lb ← rd rhn 0;
  str ← (if lb =? 0 then
           if 2 <=? size then str ← wr str 0 dot; wr str 1 0 else wr str 0 0
         else rhn2str_loop (length rhn) lb rhn str size 1 0);
  mret (Some str).
