(* ===== verification/DnsName.v ===== *)
(** Names in DNS messages (pdnsd's dns.c): expanding a compressed name, matching
    two names from the back, compressing a name against those written before. *)
From S2P Require Import Prelude CLib Rhn.

(** * decompress_name *)

(** What the loops end with: a return code, or, for the first, a jump to an
    offset; the target buffer and how much of it is written. *)
Definition offset_of (lb b : Z) : Z := Z.lor (Z.shiftl (Z.land lb 63) 8) b.

(** From the label [jumped] on: [lptr] is an offset into [msg].  The [while] loop
    over consecutive offsets is the same loop, entered at its start. *)
Fixpoint decompress_jumped (fuel : nat) (msg : list Z) (msgsz lptr : Z) (tgt : list Z) (tpos hops : Z)
    : res (Z * list Z * Z) :=
  match fuel with
  | O => Fault OutOfFuel
  | S k =>
      lb ← rd msg lptr;
      let lptr := lptr + 1 in
      if 63 <? lb then
        if lb <? 192 then mret (RC_FORMAT, tgt, tpos) else
        if msgsz <=? lptr then mret (RC_FORMAT, tgt, tpos) else
        if 255 <? hops + 1 then mret (RC_FORMAT, tgt, tpos) else
        b ← rd msg lptr;
        let offs := offset_of lb b in
        if msgsz <=? offs then mret (RC_FORMAT, tgt, tpos) else
        decompress_jumped k msg msgsz offs tgt tpos (hops + 1)
      else
        tgt ← wr tgt tpos lb;
        let tpos := tpos + 1 in
        if lb =? 0 then mret (RC_OK, tgt, tpos) else
        if msgsz <=? lptr + lb then mret (RC_FORMAT, tgt, tpos) else
        if DNSNAMEBUFSIZE - 1 <? tpos + lb then mret (RC_FORMAT, tgt, tpos) else
        d ← rdn msg lptr lb;
        tgt ← wrn tgt tpos d;
        decompress_jumped k msg msgsz (lptr + lb) tgt (tpos + lb) hops
  end.

(** The first loop, which also counts down [newsz]; the last component is
    [newsz]. *)
Fixpoint decompress_plain (fuel : nat) (msg : list Z) (msgsz lptr newsz : Z) (tgt : list Z) (tpos : Z)
    : res (Z * list Z * Z * Z) :=
  match fuel with
  | O => Fault OutOfFuel
  | S k =>
      let newsz := newsz - 1 in
      lb ← rd msg lptr;
      let lptr := lptr + 1 in
      if 63 <? lb then
        if lb <? 192 then mret (RC_FORMAT, tgt, tpos, newsz) else
        if newsz =? 0 then mret (RC_TRUNC, tgt, tpos, newsz) else
        if msgsz <=? lptr then mret (RC_FORMAT, tgt, tpos, newsz) else
        let newsz := newsz - 1 in
        b ← rd msg lptr;
        let offs := offset_of lb b in
        if msgsz <=? offs then mret (RC_FORMAT, tgt, tpos, newsz) else
        x ← decompress_jumped (Z.to_nat (2 * DNSNAMEBUFSIZE)) msg msgsz offs tgt tpos 1;
        mret (x, newsz)
      else
        tgt ← wr tgt tpos lb;
        let tpos := tpos + 1 in
        if lb =? 0 then mret (RC_OK, tgt, tpos, newsz) else
        if newsz <=? lb then mret (RC_TRUNC, tgt, tpos, newsz) else
        if msgsz <=? lptr + lb then mret (RC_FORMAT, tgt, tpos, newsz) else
        if DNSNAMEBUFSIZE - 1 <? tpos + lb then mret (RC_FORMAT, tgt, tpos, newsz) else
        d ← rdn msg lptr lb;
        tgt ← wrn tgt tpos d;
        decompress_plain k msg msgsz (lptr + lb) (newsz - lb) tgt (tpos + lb)
  end.

(** The return code, [*src], [*sz], the target and [*len]; the latter are as they
    were unless the code is [RC_OK]. *)
Definition decompress_name (msg : list Z) (msgsz src sz : Z) (tgt : list Z) (len : Z)
    : res (Z * Z * Z * list Z * Z) :=
  if sz =? 0 then mret (RC_TRUNC, src, sz, tgt, len) else
  if msgsz <=? src then mret (RC_FORMAT, src, sz, tgt, len) else
  '(rc, tgt, tpos, newsz) ← decompress_plain (Z.to_nat DNSNAMEBUFSIZE) msg msgsz src sz tgt 0;
  if rc =? RC_OK then mret (RC_OK, src + (sz - newsz), newsz, tgt, tpos)
  else mret (rc, src, sz, tgt, len).

(** * domain_match *)

(** The length bytes of a name, and the offset of its terminating byte. *)
Fixpoint length_bytes (fuel : nat) (m : list Z) (i : Z) (ls : list Z) : res (list Z * Z) :=
  match fuel with
  | O => Fault OutOfFuel
  | S k =>
      lb ← rd m i;
      if lb =? 0 then mret (ls, i) else
      _ ← PDNSD_ASSERT (zlen ls <? 128);
      length_bytes k m (i + (lb + 1)) (ls ++ [lb])
  end.
(** The bytes of one label, from the last to the first; [None] for a mismatch. *)
Fixpoint match_back (lb : nat) (ms md : list Z) (i j : Z) : res (option (Z * Z)) :=
  match lb with
  | O => mret (Some (i, j))
  | S lb =>
      a ← rd ms (i - 1);
      b ← rd md (j - 1);
      if negb (tolower a =? tolower b) then mret None else match_back lb ms md (i - 1) (j - 1)
  end.
(** [rounds] is the number of rounds with [k <= n]; [offs], [offd] are [i] and [j] as
    they were at the start of the round. *)
Fixpoint match_labels (rounds : nat) (ms md ls ld : list Z) (k i j : Z) : res (Z * Z * Z) :=
  match rounds with
  | O => mret (k - 1, i, j)
  | S rounds =>
      lb ← rd ls (zlen ls - k);
      lb' ← rd ld (zlen ld - k);
      if negb (lb =? lb') then mret (k - 1, i, j) else
      x ← match_back (Z.to_nat lb) ms md i j;
      match x with
      | None => mret (k - 1, i, j)
      | Some (i', j') => match_labels rounds ms md ls ld (k + 1) (i' - 1) (j' - 1)
      end
  end.
(** The number of labels, [*os] and [*od]. *)
Definition domain_match (ms md : list Z) : res (Z * Z * Z) :=
  '(ls, i) ← length_bytes (S (length ms)) ms 0 [];
  '(ld, j) ← length_bytes (S (length md)) md 0 [];
  match_labels (Nat.min (length ls) (length ld)) ms md ls ld 1 i j.

(** * compress_name *)

(** [compel_t]; the list [cb] in its order. *)
Record compel_t : Type := Compel { index : Z; cs : list Z }.

Fixpoint best_match (cb : list compel_t) (inb : list Z) (longest lrem coffs : Z) : res (Z * Z * Z) :=
  match cb with
  | [] => mret (longest, lrem, coffs)
  | ci :: cb =>
      '(rv, rem, to) ← domain_match inb (cs ci);
      let newoffs := index ci + to in
      if (longest <? rv) && (newoffs <=? 16383) then best_match cb inb rv rem newoffs
      else best_match cb inb longest lrem coffs
  end.

(** [room] says whether [dlist_grow] gets its memory: else it has freed the list,
    and the result is 0. *)
Definition compress_name (inb out : list Z) (offs : Z) (cb : list compel_t) (room : bool) : res (Z * list Z * list compel_t) :=
  ilen ← rhnlen inb;
  _ ← PDNSD_ASSERT (ilen <=? DNSNAMEBUFSIZE);
  '(longest, lrem, coffs) ← best_match cb inb 0 0 0;
  '(rl, out, add) ←
    (if 0 <? longest then
       _ ← PDNSD_ASSERT (lrem + 2 <=? ilen);
       d ← rdn inb 0 lrem;
       out ← wrn out 0 d;
       out ← wr out lrem (Z.lor 192 (Z.shiftr (Z.land coffs 16128) 8));
       out ← wr out (lrem + 1) (Z.land coffs 255);
       mret (lrem + 2, out, negb (lrem =? 0))
     else
       d ← rdn inb 0 ilen;
       out ← wrn out 0 d;
       mret (ilen, out, true) : res (Z * list Z * bool));
  if (add : bool) then
    if negb room then mret (0, out, []) else
    s ← rdn inb 0 ilen;
    mret (rl, out, cb ++ [Compel offs s])
  else mret (rl, out, cb).
