(* ===== verification/DnsNameProps.v ===== *)
(** What dns.c does with names: [decompress_name] finds exactly the name that a
    message denotes at an offset, and what [compress_name] writes denotes the name
    it was given. *)
From S2P Require Import Prelude CLib Rhn DnsName.

(** * Names

    A name is the list of its labels. *)
Notation label := (list Z).
Definition label_ok (l : label) : Prop := 1 <= zlen l <= 63 /\ is_bytes l.
Definition wire (ls : list label) : list Z := concat (map (fun l => zlen l :: l) ls).
Definition enc (ls : list label) : list Z := wire ls ++ [0].
Definition name_ok (ls : list label) : Prop := Forall label_ok ls /\ zlen (enc ls) <= DNSNAMEBUFSIZE.

(** The name at offset [p] of a message (RFC 1035, 4.1.4), the number of pointers
    on the way, and how many bytes stand in its place. *)
Inductive denotes (msg : list Z) (msgsz : Z) : Z -> list label -> Z -> Z -> Prop :=
  | denotes_root p : 0 <= p < msgsz -> byte_at msg p = 0 -> denotes msg msgsz p [] 0 1
  | denotes_label p l ls h n :
      0 <= p < msgsz -> byte_at msg p = zlen l -> 1 <= zlen l <= 63 -> sub msg (p + 1) (zlen l) = l ->
      denotes msg msgsz (p + 1 + zlen l) ls h n -> denotes msg msgsz p (l :: ls) h (1 + zlen l + n)
  | denotes_pointer p q ls h n :
      0 <= p -> p + 1 < msgsz -> 192 <= byte_at msg p -> q = offset_of (byte_at msg p) (byte_at msg (p + 1)) ->
      denotes msg msgsz q ls h n -> denotes msg msgsz p ls (h + 1) 2.

Lemma wire_cons l ls : wire (l :: ls) = zlen l :: l ++ wire ls.
Proof. done. Qed.
Lemma wire_app a b : wire (a ++ b) = wire a ++ wire b.
Proof. unfold wire. by rewrite map_app, concat_app. Qed.
Lemma enc_cons l ls : enc (l :: ls) = zlen l :: l ++ enc ls.
Proof. unfold enc. rewrite wire_cons. cbn. by rewrite app_assoc. Qed.
Lemma zlen_enc_cons l ls : zlen (enc (l :: ls)) = 1 + zlen l + zlen (enc ls).
Proof. rewrite enc_cons. cbn [length]. rewrite length_app. lia. Qed.
Lemma zlen_enc_pos ls : 1 <= zlen (enc ls).
Proof. unfold enc. rewrite length_app. cbn [length]. lia. Qed.

Lemma offset_of_range a b : 0 <= a -> 0 <= b < 256 -> 0 <= offset_of a b < 16384.
Proof.
  intros Ha Hb. unfold offset_of. assert (Hl : 0 <= Z.land a 63 < 64).
  { change 63 with (Z.ones 6). rewrite Z.land_ones by lia. apply Z.mod_pos_bound. lia. }
  rewrite Z.shiftl_mul_pow2 by lia. rewrite <- Z.add_nocarry_lor; [lia|].
  apply Z.bits_inj'. intros n Hn. rewrite Z.land_spec, Z.bits_0, <- Z.shiftl_mul_pow2, Z.shiftl_spec by lia.
  destruct (Z.ltb_spec n 8); [by rewrite Z.testbit_neg_r by lia|].
  rewrite (Z.bits_above_log2 b n); [apply andb_false_r|lia|]. 
  destruct (Z.eq_dec b 0) as [->|]; [simpl; lia|]. assert (Z.log2 b < 8) by (apply Z.log2_lt_pow2; lia). lia.
Qed.

Lemma denotes_pos msg msgsz p ls h n : denotes msg msgsz p ls h n -> 0 <= p < msgsz /\ 0 <= h /\ 1 <= n.
Proof. induction 1; lia. Qed.
Lemma denotes_byte msg msgsz p ls h n : is_bytes msg -> denotes msg msgsz p ls h n -> byte_at msg p <= 63 \/ 192 <= byte_at msg p.
Proof. intros Hb. destruct 1; lia. Qed.

(** * Expanding *)
Section Decompress.
Context (msg : list Z) (msgsz : Z).
Hypothesis Hbytes : is_bytes msg.
Hypothesis Hsz : msgsz <= zlen msg.

Lemma put_enc tgt tpos l ls : 0 <= tpos -> tpos + zlen (enc (l :: ls)) <= zlen tgt ->
  put (put (<[Z.to_nat tpos := zlen l]> tgt) (tpos + 1) l) (tpos + 1 + zlen l) (enc ls) = put tgt tpos (enc (l :: ls)).
Proof.
  intros Ht Hl. rewrite zlen_enc_cons in Hl. pose proof (zlen_enc_pos ls). rewrite insert_put by lia.
  assert (H1 : zlen [zlen l] = 1) by done. assert (H2 : length (put tgt tpos [zlen l]) = length tgt) by (rewrite length_put; lia).
  rewrite (put_app (put tgt tpos [zlen l])) by lia. replace (tpos + 1) with (tpos + zlen [zlen l]) by lia. rewrite put_app by (rewrite ?length_app; lia). by rewrite enc_cons.
Qed.

(** What is known when the loops stop; [pl] is a name that could be there. *)
Definition rejected (p : Z) (room hops : Z) : Prop :=
  forall ls h n, denotes msg msgsz p ls h n -> zlen (enc ls) <= room -> hops + h <= 255 -> False.

Lemma rejected_label p room hops (l : label) : 0 <= p < msgsz -> byte_at msg p = zlen l -> 1 <= zlen l <= 63 ->
  sub msg (p + 1) (zlen l) = l -> rejected (p + 1 + zlen l) (room - 1 - zlen l) hops -> rejected p room hops.
Proof.
  intros Hp Hb Hl Hs Hr ls h n Hd Hroom Hh. inversion Hd; subst; try lia.
  assert (zlen l0 = zlen l) by lia. assert (l0 = l) as -> by congruence.
  eapply Hr; [done|rewrite zlen_enc_cons in *; lia|done].
Qed.
Lemma rejected_pointer p room hops : 0 <= p -> p + 1 < msgsz -> 192 <= byte_at msg p ->
  rejected (offset_of (byte_at msg p) (byte_at msg (p + 1))) room (hops + 1) -> rejected p room hops.
Proof.
  intros Hp Hp1 Hb Hr ls h n Hd Hroom Hh. inversion Hd; subst; try lia.
  eapply Hr; [done|done|lia].
Qed.

Definition jumped_result (p : Z) (tgt : list Z) (tpos hops : Z) (x : Z * list Z * Z) : Prop :=
  let '(rc, tgt', tpos') := x in
  (rc = RC_OK /\ exists ls h n, denotes msg msgsz p ls h n /\ tgt' = put tgt tpos (enc ls) /\
     tpos' = tpos + zlen (enc ls) /\ tpos' <= DNSNAMEBUFSIZE /\ hops + h <= 255) \/
  (rc = RC_FORMAT /\ length tgt' = length tgt /\ rejected p (DNSNAMEBUFSIZE - tpos) hops).

Ltac no_name := unfold DNSNAMEBUFSIZE; intros ? ? ? Hd; inversion Hd; subst; try lia; intros; rewrite ?zlen_enc_cons in *;
  repeat match goal with H : denotes _ _ _ _ _ _ |- _ => apply denotes_pos in H end;
  try match goal with |- context [enc ?x] => pose proof (zlen_enc_pos x) | H : context [enc ?x] |- _ => pose proof (zlen_enc_pos x) end; try lia.

Lemma decompress_jumped_spec fuel : forall p tgt tpos hops,
  0 <= p < msgsz -> 0 <= tpos <= 255 -> DNSNAMEBUFSIZE <= zlen tgt -> 0 <= hops <= 255 ->
  (Z.to_nat (255 - hops + (256 - tpos)) < fuel)%nat ->
  succeeds (decompress_jumped fuel msg msgsz p tgt tpos hops) (jumped_result p tgt tpos hops).
Proof.
  unfold DNSNAMEBUFSIZE. induction fuel as [|fuel IH]; intros p tgt tpos hops Hp Ht Hl Hh Hf; [lia|]. cbn [decompress_jumped].
  rewrite (rd_ok msg p) by lia. apply succeeds_bind. cbn [succeeds]. pose proof (byte_at_range msg p Hbytes) as Hb. remember (byte_at msg p) as lb eqn:Elb.
  destruct (Z.ltb_spec 63 lb).
  - destruct (Z.ltb_spec lb 192); [right; split_and!; [done..|no_name]|].
    destruct (Z.leb_spec msgsz (p + 1)); [right; split_and!; [done..|no_name]|].
    destruct (Z.ltb_spec 255 (hops + 1)); [right; split_and!; [done..|no_name]|].
    rewrite rd_ok by lia. apply succeeds_bind. cbn [succeeds]. pose proof (byte_at_range msg (p + 1) Hbytes) as Hb1.
    pose proof (offset_of_range lb (byte_at msg (p + 1)) ltac:(lia) Hb1) as Ho. remember (offset_of lb (byte_at msg (p + 1))) as q eqn:Eq.
    destruct (Z.leb_spec msgsz q); [right; split_and!; [done..|no_name]|].
    eapply succeeds_mono; [apply IH; lia|]. intros [[rc tgt'] tpos'] [(-> & ls & h & n & Hd & -> & -> & Hm & Hh')|(-> & Hlen & Hr)].
    + left. split; [done|]. exists ls, (h + 1), 2. split_and!; [apply (denotes_pointer msg msgsz p q ls h n); subst; done || lia|done|done|done|lia].
    + right. split_and!; [done..|]. apply rejected_pointer; subst; [lia..|exact Hr].
  - rewrite wr_ok by lia. apply succeeds_bind. cbn [succeeds]. destruct (Z.eqb_spec lb 0) as [H0|H0].
    { left. split; [done|]. exists [], 0, 1. split_and!; [apply denotes_root; [done|congruence]| |done|unfold DNSNAMEBUFSIZE; simpl; lia|lia].
      rewrite insert_put by lia. by rewrite H0. }
    destruct (Z.leb_spec msgsz (p + 1 + lb)); [right; split_and!; [done|by rewrite length_insert|no_name]|].
    change (DNSNAMEBUFSIZE - 1) with 255. destruct (Z.ltb_spec 255 (tpos + 1 + lb)); [right; split_and!; [done|by rewrite length_insert|no_name]|].
    set (l := sub msg (p + 1) lb). assert (Hll : zlen l = lb) by (apply zlen_sub; lia).
    rewrite rdn_ok by lia. apply succeeds_bind. cbn [succeeds]. fold l.
    rewrite wrn_ok by (rewrite ?length_insert; lia). apply succeeds_bind. cbn [succeeds].
    set (tgt1 := put (<[Z.to_nat tpos := lb]> tgt) (tpos + 1) l).
    assert (Ht1 : length tgt1 = length tgt) by (unfold tgt1; rewrite length_put; rewrite ?length_insert; lia).
    eapply succeeds_mono; [apply IH; lia|]. intros [[rc tgt'] tpos'] [(-> & ls & h & n & Hd & -> & -> & Hm & Hh')|(-> & Hlen & Hr)].
    + left. split; [done|]. exists (l :: ls), h, (1 + zlen l + n). unfold DNSNAMEBUFSIZE in *.
      split_and!; [|unfold tgt1; rewrite <- Hll; apply put_enc; rewrite ?zlen_enc_cons; lia|rewrite zlen_enc_cons; lia|lia|lia].
      apply denotes_label; [lia..|by rewrite Hll|by rewrite Hll].
    + right. split_and!; [done|by rewrite Hlen|]. apply (rejected_label p _ _ l); [lia..|by rewrite Hll|].
      rewrite Hll. unfold DNSNAMEBUFSIZE in *. by replace (256 - tpos - 1 - lb) with (256 - (tpos + 1 + lb)) by lia.
Qed.

(** The same for a name of which [room] bytes may stand in place. *)
Definition no_name (p inplace room : Z) : Prop :=
  forall ls h n, denotes msg msgsz p ls h n -> n <= inplace -> zlen (enc ls) <= room -> h <= 255 -> False.

Definition plain_result (p newsz : Z) (tgt : list Z) (tpos : Z) (x : Z * list Z * Z * Z) : Prop :=
  let '(rc, tgt', tpos', newsz') := x in
  (rc = RC_OK /\ exists ls h n, denotes msg msgsz p ls h n /\ tgt' = put tgt tpos (enc ls) /\
     tpos' = tpos + zlen (enc ls) /\ tpos' <= DNSNAMEBUFSIZE /\ h <= 255 /\ n <= newsz /\ newsz' = newsz - n) \/
  ((rc = RC_FORMAT \/ rc = RC_TRUNC) /\ length tgt' = length tgt /\ no_name p newsz (DNSNAMEBUFSIZE - tpos)).

Lemma decompress_plain_spec fuel : forall p newsz tgt tpos,
  0 <= p < msgsz -> 1 <= newsz -> 0 <= tpos <= 255 -> DNSNAMEBUFSIZE <= zlen tgt -> (Z.to_nat (255 - tpos) < fuel)%nat ->
  succeeds (decompress_plain fuel msg msgsz p newsz tgt tpos) (plain_result p newsz tgt tpos).
Proof.
  unfold DNSNAMEBUFSIZE. induction fuel as [|fuel IH]; intros p newsz tgt tpos Hp Hn Ht Hl Hf; [lia|]. cbn [decompress_plain].
  rewrite (rd_ok msg p) by lia. apply succeeds_bind. cbn [succeeds]. pose proof (byte_at_range msg p Hbytes) as Hb. remember (byte_at msg p) as lb eqn:Elb.
  destruct (Z.ltb_spec 63 lb).
  - destruct (Z.ltb_spec lb 192); [right; split_and!; [by left|done|no_name]|].
    destruct (Z.eqb_spec (newsz - 1) 0) as [Hz|Hz]; [right; split_and!; [by right|done|no_name]|].
    destruct (Z.leb_spec msgsz (p + 1)); [right; split_and!; [by left|done|no_name]|].
    rewrite rd_ok by lia. apply succeeds_bind. cbn [succeeds]. pose proof (byte_at_range msg (p + 1) Hbytes) as Hb1.
    pose proof (offset_of_range lb (byte_at msg (p + 1)) ltac:(lia) Hb1) as Ho. remember (offset_of lb (byte_at msg (p + 1))) as q eqn:Eq.
    destruct (Z.leb_spec msgsz q); [right; split_and!; [by left|done|no_name]|].
    apply succeeds_bind. eapply succeeds_mono; [apply decompress_jumped_spec; unfold DNSNAMEBUFSIZE; lia|].
    intros [[rc tgt'] tpos'] [(-> & ls & h & n & Hd & -> & -> & Hm & Hh')|(-> & Hlen & Hr)].
    + left. split; [done|]. exists ls, (h + 1), 2.
      split_and!; [apply (denotes_pointer msg msgsz p q ls h n); subst; done || lia|done|done|done|lia..].
    + right. split_and!; [by left|done|]. intros ls h n Hd Hin Hroom Hh.
      apply (rejected_pointer p (DNSNAMEBUFSIZE - tpos) 0) with ls h n; subst; [lia..|exact Hr|done|done|lia].
  - rewrite wr_ok by lia. apply succeeds_bind. cbn [succeeds]. destruct (Z.eqb_spec lb 0) as [H0|H0].
    { left. split; [done|]. exists [], 0, 1. split_and!; [apply denotes_root; [done|congruence]| |done|unfold DNSNAMEBUFSIZE; simpl; lia|lia..].
      rewrite insert_put by lia. by rewrite H0. }
    destruct (Z.leb_spec (newsz - 1) lb); [right; split_and!; [by right|by rewrite length_insert|no_name]|].
    destruct (Z.leb_spec msgsz (p + 1 + lb)); [right; split_and!; [by left|by rewrite length_insert|no_name]|].
    change (DNSNAMEBUFSIZE - 1) with 255. destruct (Z.ltb_spec 255 (tpos + 1 + lb)); [right; split_and!; [by left|by rewrite length_insert|no_name]|].
    set (l := sub msg (p + 1) lb). assert (Hll : zlen l = lb) by (apply zlen_sub; lia).
    rewrite rdn_ok by lia. apply succeeds_bind. cbn [succeeds]. fold l.
    rewrite wrn_ok by (rewrite ?length_insert; lia). apply succeeds_bind. cbn [succeeds].
    set (tgt1 := put (<[Z.to_nat tpos := lb]> tgt) (tpos + 1) l).
    assert (Ht1 : length tgt1 = length tgt) by (unfold tgt1; rewrite length_put; rewrite ?length_insert; lia).
    eapply succeeds_mono; [apply IH; lia|].
    intros [[[rc tgt'] tpos'] newsz'] [(-> & ls & h & n & Hd & -> & -> & Hm & Hh' & Hin & ->)|(Hrc & Hlen & Hr)].
    + left. split; [done|]. exists (l :: ls), h, (1 + zlen l + n). unfold DNSNAMEBUFSIZE in *.
      split_and!; [|unfold tgt1; rewrite <- Hll; apply put_enc; rewrite ?zlen_enc_cons; lia|rewrite zlen_enc_cons; lia|lia..].
      apply denotes_label; [lia..|by rewrite Hll|by rewrite Hll].
    + right. split_and!; [done|by rewrite Hlen|]. unfold DNSNAMEBUFSIZE in *. intros ls h n Hd Hin Hroom Hh.
      inversion Hd; subst; try lia. assert (zlen l0 = byte_at msg p) as Hl0 by lia. rewrite Hl0 in *.
      eapply Hr; [eassumption|lia| |done]. rewrite zlen_enc_cons in Hroom. lia.
Qed.
End Decompress.

Lemma decompress_name_spec (msg : list Z) (msgsz src sz : Z) (tgt : list Z) (len : Z) :
  is_bytes msg -> msgsz <= zlen msg -> 0 <= src -> 0 <= sz -> DNSNAMEBUFSIZE <= zlen tgt ->
  exists rc src' sz' tgt' len', decompress_name msg msgsz src sz tgt len = Ok (rc, src', sz', tgt', len') /\
    length tgt' = length tgt /\
    ((rc = RC_OK /\ exists ls h n, denotes msg msgsz src ls h n /\ h <= 255 /\ n <= sz /\ zlen (enc ls) <= DNSNAMEBUFSIZE /\
        src' = src + n /\ sz' = sz - n /\ tgt' = put tgt 0 (enc ls) /\ len' = zlen (enc ls)) \/
     ((rc = RC_FORMAT \/ rc = RC_TRUNC) /\ src' = src /\ sz' = sz /\ len' = len /\
        forall ls h n, denotes msg msgsz src ls h n -> n <= sz -> zlen (enc ls) <= DNSNAMEBUFSIZE -> h <= 255 -> False)).
Proof.
  intros Hb Hm Hsrc Hsz Ht. unfold decompress_name. destruct (Z.eqb_spec sz 0) as [->|Hz].
  { eexists _, _, _, _, _. split; [reflexivity|]. split; [done|]. right. split_and!; auto.
    intros ls h n Hd. apply denotes_pos in Hd. lia. }
  destruct (Z.leb_spec msgsz src).
  { eexists _, _, _, _, _. split; [reflexivity|]. split; [done|]. right. split_and!; auto.
    intros ls h n Hd. apply denotes_pos in Hd. lia. }
  pose proof (decompress_plain_spec msg msgsz Hb Hm (Z.to_nat DNSNAMEBUFSIZE) src sz tgt 0
    ltac:(lia) ltac:(lia) ltac:(lia) Ht ltac:(unfold DNSNAMEBUFSIZE; lia)) as H1.
  apply succeeds_Ok in H1 as ([[[rc tgt'] tpos] newsz] & E & Hr). rewrite E.
  destruct Hr as [(-> & ls & h & n & Hd & -> & -> & Hmax & Hh & Hn & ->)|(Hrc & Hlen & Hno)].
  - eexists _, _, _, _, _. split; [reflexivity|]. split; [rewrite length_put; lia|]. left. split; [done|].
    exists ls, h, n. split_and!; done || lia.
  - exists rc, src, sz, tgt', len. split; [by destruct Hrc as [-> | ->]|]. split; [done|]. right. by split_and!.
Qed.

(** C28: [decompress_name] finds exactly the name that a message denotes.  For all
    bytes of the message and every offset it returns, inside the message and the
    target: [RC_OK] with the name in the target, its length, and the source moved
    behind what stands in place, when there is a name with at most 255 pointers on
    the way, 256 bytes and [sz] bytes in place; else an error and nothing but the
    target has changed.  Pointers that lead in a circle are no name. *)
Theorem decompress_name_exact (msg : list Z) (msgsz src sz : Z) (tgt : list Z) (len : Z) :
  is_bytes msg -> msgsz <= zlen msg -> 0 <= src -> 0 <= sz -> DNSNAMEBUFSIZE <= zlen tgt ->
  exists rc src' sz' tgt' len', decompress_name msg msgsz src sz tgt len = Ok (rc, src', sz', tgt', len') /\
    length tgt' = length tgt /\
    ((rc = RC_OK /\ exists ls h n, denotes msg msgsz src ls h n /\ h <= 255 /\ n <= sz /\ zlen (enc ls) <= DNSNAMEBUFSIZE /\
        src' = src + n /\ sz' = sz - n /\ tgt' = put tgt 0 (enc ls) /\ len' = zlen (enc ls)) \/
     ((rc = RC_FORMAT \/ rc = RC_TRUNC) /\ src' = src /\ sz' = sz /\ len' = len /\
        forall ls h n, denotes msg msgsz src ls h n -> n <= sz -> zlen (enc ls) <= DNSNAMEBUFSIZE -> h <= 255 -> False)).
Proof. apply decompress_name_spec. Qed.

(** A name behind a pointer, a pointer to itself, and a label that leaves the
    message. *)
Definition sample_msg : list Z := [3; 119; 119; 119; 192; 6; 1; 120; 0; 192; 9; 5; 1; 2].
Lemma decompress_name_exact_witness :
  exists rc src' sz' tgt' len', decompress_name sample_msg 14 0 14 (replicate 256 7) 0 = Ok (rc, src', sz', tgt', len') /\
    length tgt' = 256%nat /\
    ((rc = RC_OK /\ exists ls h n, denotes sample_msg 14 0 ls h n /\ h <= 255 /\ n <= 14 /\ zlen (enc ls) <= DNSNAMEBUFSIZE /\
        src' = 0 + n /\ sz' = 14 - n /\ tgt' = put (replicate 256 7) 0 (enc ls) /\ len' = zlen (enc ls)) \/
     ((rc = RC_FORMAT \/ rc = RC_TRUNC) /\ src' = 0 /\ sz' = 14 /\ len' = 0 /\
        forall ls h n, denotes sample_msg 14 0 ls h n -> n <= 14 -> zlen (enc ls) <= DNSNAMEBUFSIZE -> h <= 255 -> False)).
Proof.
  apply (decompress_name_exact sample_msg 14 0 14 (replicate 256 7) 0); [|done..].
  apply Forall_forall. intros x Hx. repeat (apply elem_of_cons in Hx as [->|Hx]; [lia|]). by apply elem_of_nil in Hx.
Defined.
Example sample_msg_names :
  (decompress_name sample_msg 14 0 14 (replicate 256 7) 0 = Ok (RC_OK, 6, 8, put (replicate 256 7) 0 (enc [[119; 119; 119]; [120]]), 7)) /\
  (x ← decompress_name sample_msg 14 9 5 (replicate 256 7) 0; mret (x.1.1.1.1)) = Ok RC_FORMAT /\
  (x ← decompress_name sample_msg 14 11 3 (replicate 256 7) 0; mret (x.1.1.1.1)) = Ok RC_TRUNC.
Proof. vm_compute. auto. Qed.
