(* ===== verification/DnsCompress.v ===== *)
(** The compression of names in pdnsd's answers: [domain_match] finds the longest
    common end of two names, and a message of names written with [compress_name]
    expands to those names. *)
From S2P Require Import Prelude CLib Rhn DnsName DnsNameProps.

(** * Names up to case *)
Definition fold_name (ls : list label) : list label := map (map tolower) ls.
(** The last [m] labels, the ones before them, and where the last [m] start. *)
Definition tail_of (m : nat) (ls : list label) : list label := drop (length ls - m) ls.
Definition head_of (m : nat) (ls : list label) : list label := take (length ls - m) ls.
Definition off (ls : list label) (m : nat) : Z := zlen (wire (head_of m ls)).

Fixpoint lcp (a b : list label) : nat :=
  match a, b with
  | x :: a, y :: b => if bool_decide (x = y) then S (lcp a b) else 0
  | _, _ => 0
  end.
(** How many labels two names have in common at their end. *)
Definition common (a b : list label) : nat := lcp (reverse (fold_name a)) (reverse (fold_name b)).
Definition agree (m : nat) (a b : list label) : Prop :=
  (m <= length a)%nat /\ (m <= length b)%nat /\ take m (reverse (fold_name a)) = take m (reverse (fold_name b)).

Lemma length_fold ls : length (fold_name ls) = length ls.
Proof. apply length_map. Qed.
Lemma lcp_le a b : (lcp a b <= length a /\ lcp a b <= length b)%nat.
Proof. revert b. induction a as [|x a IH]; intros [|y b]; simpl; try lia. case_bool_decide; [|lia]. specialize (IH b). lia. Qed.
Lemma lcp_take a b : take (lcp a b) a = take (lcp a b) b.
Proof. revert b. induction a as [|x a IH]; intros [|y b]; try done. simpl. case_bool_decide; [|done]. subst. simpl. by rewrite IH. Qed.
Lemma lcp_max m a b : (m <= length a)%nat -> (m <= length b)%nat -> take m a = take m b -> (m <= lcp a b)%nat.
Proof.
  revert m b. induction a as [|x a IH]; intros [|m] [|y b]; simpl; try lia. intros Ha Hb [= -> H].
  rewrite bool_decide_eq_true_2 by done. specialize (IH m b ltac:(lia) ltac:(lia) H). lia.
Qed.
Lemma common_agree a b : agree (common a b) a b.
Proof.
  unfold agree, common. pose proof (lcp_le (reverse (fold_name a)) (reverse (fold_name b))) as H.
  rewrite !length_reverse, !length_fold in H. destruct H. split; [done|]. split; [done|]. apply lcp_take.
Qed.
Lemma agree_common m a b : agree m a b -> (m <= common a b)%nat.
Proof. intros (Ha & Hb & H). apply lcp_max; rewrite ?length_reverse, ?length_fold; done. Qed.
Lemma agree_sym m a b : agree m a b -> agree m b a.
Proof. intros (? & ? & ?). by split_and!. Qed.
Lemma agree_trans m a b c : agree m a b -> agree m b c -> agree m a c.
Proof. intros (? & ? & H1) (? & ? & H2). split_and!; [done..|]. by rewrite H1. Qed.
Lemma agree_le m m' a b : agree m a b -> (m' <= m)%nat -> agree m' a b.
Proof.
  intros (Ha & Hb & H) Hm. split_and!; [lia..|]. apply (f_equal (take m')) in H. by rewrite !take_take, !Nat.min_l in H by lia.
Qed.
Lemma fold_tail m a : (m <= length a)%nat -> fold_name (tail_of m a) = reverse (take m (reverse (fold_name a))).
Proof.
  intros Hm. unfold tail_of, fold_name. rewrite <- skipn_map. set (f := map (map tolower) a).
  assert (Hf : length a = length f) by (unfold f; by rewrite length_map). rewrite Hf in *.
  assert (Hr : reverse f = reverse (drop (length f - m) f) ++ reverse (take (length f - m) f)) by (by rewrite <- reverse_app, take_drop).
  rewrite Hr, take_app_le, take_ge, reverse_involutive; [done|rewrite length_reverse, length_drop; lia..].
Qed.
Lemma agree_tail m a b : agree m a b -> fold_name (tail_of m a) = fold_name (tail_of m b).
Proof. intros (Ha & Hb & H). rewrite !fold_tail by done. by rewrite H. Qed.

Lemma head_tail m a : head_of m a ++ tail_of m a = a.
Proof. apply take_drop. Qed.
Lemma length_tail m a : (m <= length a)%nat -> length (tail_of m a) = m.
Proof. unfold tail_of. rewrite length_drop. lia. Qed.
Lemma wire_head_tail m a : wire a = wire (head_of m a) ++ wire (tail_of m a).
Proof. by rewrite <- wire_app, head_tail. Qed.
Lemma off_le a m m' : (m' <= m)%nat -> off a m <= off a m'.
Proof.
  intros H. unfold off, head_of. replace (take (length a - m) a) with (take (length a - m) (take (length a - m') a)) by (rewrite take_take; f_equal; lia).
  set (b := take (length a - m') a). rewrite <- (take_drop (length a - m) b) at 2. rewrite wire_app, length_app. lia.
Qed.
Lemma off_all a : off a (length a) = 0.
Proof. unfold off, head_of. by rewrite Nat.sub_diag. Qed.

Lemma wire_lower a : Forall label_ok a -> 2 * zlen a <= zlen (wire a).
Proof.
  induction 1 as [|l a [Hl _] _ IH]; [done|]. rewrite wire_cons. cbn [length]. rewrite length_app. lia.
Qed.
Lemma name_ok_labels a : name_ok a -> (length a <= 127)%nat.
Proof. intros [Ha Hl]. pose proof (wire_lower a Ha). unfold enc, DNSNAMEBUFSIZE in Hl. rewrite length_app in Hl. cbn [length] in Hl. lia. Qed.
Lemma wire_fold a b : fold_name a = fold_name b -> zlen (wire a) = zlen (wire b).
Proof.
  revert b. induction a as [|l a IH]; intros [|l' b] H; try discriminate; [done|].
  injection H as H1 H2. rewrite !wire_cons. cbn [length]. rewrite !length_app.
  apply (f_equal length) in H1. rewrite !length_map in H1. specialize (IH b H2). lia.
Qed.
Lemma is_bytes_wire a : Forall label_ok a -> is_bytes (wire a).
Proof.
  induction 1 as [|l a [Hl Hb] _ IH]; [constructor|]. rewrite wire_cons. constructor; [lia|]. by apply Forall_app.
Qed.

(** * domain_match *)
Lemma rd_mid p x q : rd (p ++ x :: q) (zlen p) = Ok x.
Proof.
  rewrite rd_ok by (rewrite length_app; cbn [length]; lia). f_equal. rewrite byte_at_app by lia.
  replace (zlen p <? zlen p) with false by lia. by rewrite Z.sub_diag.
Qed.
Lemma rd_mid' p x q i : i = zlen p -> rd (p ++ x :: q) i = Ok x.
Proof. intros ->. apply rd_mid. Qed.

Lemma length_bytes_spec ls : forall fuel pre acc x, Forall label_ok ls -> (length ls < fuel)%nat -> zlen acc + zlen ls <= 128 ->
  length_bytes fuel (pre ++ wire ls ++ 0 :: x) (zlen pre) acc = Ok (acc ++ map (fun l => zlen l) ls, zlen pre + zlen (wire ls)).
Proof.
  induction ls as [|l ls IH]; intros [|fuel] pre acc x Hok Hf Ha; simpl in Hf; try lia; cbn [length_bytes].
  - change (wire [] ++ 0 :: x) with (0 :: x). rewrite rd_mid. cbn. by rewrite app_nil_r, Z.add_0_r.
  - apply Forall_cons in Hok as [[Hl _] Hok]. rewrite wire_cons. cbn [app]. rewrite rd_mid. cbn [mbind res_bind].
    replace (zlen l =? 0) with false by lia. unfold PDNSD_ASSERT. cbn [length] in Ha. replace (zlen acc <? 128) with true by lia. cbn [mbind res_bind].
    specialize (IH fuel (pre ++ zlen l :: l) (acc ++ [zlen l]) x Hok ltac:(lia)).
    replace (pre ++ zlen l :: (l ++ wire ls) ++ 0 :: x) with ((pre ++ zlen l :: l) ++ wire ls ++ 0 :: x) by (by rewrite <- !app_assoc).
    replace (zlen pre + (zlen l + 1)) with (zlen (pre ++ zlen l :: l)) by (rewrite length_app; cbn [length]; lia).
    rewrite IH by (rewrite length_app; cbn [length]; lia). rewrite <- app_assoc. f_equal. f_equal.
    rewrite !length_app. cbn [length]. rewrite length_app. lia.
Qed.

Lemma match_back_spec u : forall v p1 p2 x1 x2, length u = length v ->
  match_back (length u) (p1 ++ u ++ x1) (p2 ++ v ++ x2) (zlen p1 + zlen u) (zlen p2 + zlen v) =
    Ok (if bool_decide (map tolower u = map tolower v) then Some (zlen p1, zlen p2) else None).
Proof.
  induction u as [|a u IH] using rev_ind; intros v p1 p2 x1 x2 Hl.
  { destruct v; [|discriminate]. cbn. by rewrite !Z.add_0_r. }
  destruct v as [|b v _] using rev_ind; [rewrite length_app in Hl; cbn [length] in Hl; simpl in Hl; lia|].
  rewrite !length_app in *. cbn [length] in *. replace (length u + 1)%nat with (S (length u)) by lia. cbn [match_back].
  assert (Hu : length u = length v) by lia.
  replace (p1 ++ (u ++ [a]) ++ x1) with ((p1 ++ u) ++ a :: x1) by (by rewrite <- !app_assoc).
  replace (p2 ++ (v ++ [b]) ++ x2) with ((p2 ++ v) ++ b :: x2) by (by rewrite <- !app_assoc).
  rewrite !rd_mid' by (rewrite length_app; lia). cbn [mbind res_bind]. rewrite !map_app. cbn [map].
  destruct (Z.eqb_spec (tolower a) (tolower b)) as [E|E]; cbn [negb].
  - specialize (IH v p1 p2 (a :: x1) (b :: x2) Hu). rewrite <- !app_assoc.
    replace (zlen p1 + Z.of_nat (S (length u)) - 1) with (zlen p1 + zlen u) by lia.
    replace (zlen p2 + Z.of_nat (length v + 1) - 1) with (zlen p2 + zlen v) by lia. rewrite IH. f_equal.
    rewrite E. repeat case_bool_decide; try done; exfalso.
    + match goal with H : _ <> _ |- _ => apply H end. by f_equal.
    + match goal with H : _ ++ _ = _ |- _ => apply app_inj_tail in H as [? _]; done end.
  - rewrite bool_decide_eq_false_2; [done|]. intros H. by apply app_inj_tail in H as [_ ?].
Qed.

Lemma common_snoc A B a b : common (A ++ [a]) (B ++ [b]) = if bool_decide (map tolower a = map tolower b) then S (common A B) else 0%nat.
Proof. unfold common, fold_name. rewrite !map_app. cbn [map]. rewrite !reverse_snoc. done. Qed.
Lemma common_nil_l B : common [] B = 0%nat.
Proof. done. Qed.
Lemma common_nil_r A : common A [] = 0%nat.
Proof. unfold common. cbn. by destruct (reverse (fold_name A)). Qed.
Lemma off_zero A : off A 0 = zlen (wire A).
Proof. unfold off, head_of. by rewrite Nat.sub_0_r, firstn_all. Qed.
Lemma off_snoc A a c : off (A ++ [a]) (S c) = off A c.
Proof. unfold off, head_of. rewrite length_app. cbn [length]. replace (length A + 1 - S c)%nat with (length A - c)%nat by lia. by rewrite take_app_le by lia. Qed.

Definition lens (ls : list label) : list Z := map (fun l => zlen l) ls.
Lemma rd_lens A a C k : k = zlen C + 1 -> rd (lens ((A ++ [a]) ++ C)) (zlen (lens ((A ++ [a]) ++ C)) - k) = Ok (zlen a).
Proof.
  intros ->. unfold lens. rewrite !map_app. cbn [map]. rewrite <- app_assoc. cbn [app]. apply rd_mid'. rewrite !length_app, !length_map. cbn [length]. rewrite length_map. lia.
Qed.

(** The rounds: [A2] and [B2] have been matched. *)
Lemma match_labels_spec A1 : forall A2 B1 B2 xa xb k, Z.of_nat k = zlen A2 -> Z.of_nat k = zlen B2 ->
  match_labels (Nat.min (length A1) (length B1)) (wire A1 ++ xa) (wire B1 ++ xb) (lens (A1 ++ A2)) (lens (B1 ++ B2))
    (Z.of_nat k + 1) (zlen (wire A1)) (zlen (wire B1)) =
  Ok (Z.of_nat (k + common A1 B1), off A1 (common A1 B1), off B1 (common A1 B1)).
Proof.
  induction A1 as [|a A1 IH] using rev_ind; intros A2 B1 B2 xa xb k HA HB.
  { rewrite common_nil_l, !off_zero. cbn. do 3 f_equal. lia. }
  destruct B1 as [|b B1 _] using rev_ind.
  { rewrite common_nil_r, !off_zero. cbn [length]. rewrite Nat.min_0_r. cbn. do 3 f_equal. lia. }
  rewrite !length_app. cbn [length]. rewrite !Nat.add_1_r, <- Nat.succ_min_distr. cbn [match_labels].
  rewrite !rd_lens by lia. cbn [mbind res_bind]. rewrite common_snoc. destruct (Z.eqb_spec (zlen a) (zlen b)) as [E|E]; cbn [negb].
  - rewrite !wire_app. change (wire [a]) with (zlen a :: a ++ wire []). change (wire [b]) with (zlen b :: b ++ wire []). cbn [wire map concat]. rewrite !app_nil_r.
    pose proof (match_back_spec a b (wire A1 ++ [zlen a]) (wire B1 ++ [zlen b]) xa xb ltac:(lia)) as H.
    rewrite <- !app_assoc in *. cbn [app] in H |- *. rewrite Nat2Z.id.
    replace (zlen (wire A1 ++ [zlen a]) + zlen a) with (zlen (wire A1 ++ zlen a :: a)) in H by (rewrite !length_app; cbn [length]; lia).
    replace (zlen (wire B1 ++ [zlen b]) + zlen b) with (zlen (wire B1 ++ zlen b :: b)) in H by (rewrite !length_app; cbn [length]; lia).
    rewrite H. cbn [mbind res_bind]. case_bool_decide.
    + specialize (IH (a :: A2) B1 (b :: B2) (zlen a :: a ++ xa) (zlen b :: b ++ xb) (S k) ltac:(cbn [length]; lia) ltac:(cbn [length]; lia)).
      change ([a] ++ A2) with (a :: A2). change ([b] ++ B2) with (b :: B2). rewrite !off_snoc.
      replace (zlen (wire A1 ++ [zlen a]) - 1) with (zlen (wire A1)) by (rewrite length_app; cbn [length]; lia).
      replace (zlen (wire B1 ++ [zlen b]) - 1) with (zlen (wire B1)) by (rewrite length_app; cbn [length]; lia).
      replace (Z.of_nat k + 1 + 1) with (Z.of_nat (S k) + 1) by lia. rewrite IH. do 4 f_equal. lia.
    + rewrite !off_zero, !wire_app. change (wire [a]) with (zlen a :: a ++ []). change (wire [b]) with (zlen b :: b ++ []). rewrite !app_nil_r. do 4 f_equal. lia.
  - rewrite bool_decide_eq_false_2; [rewrite !off_zero; cbn; do 3 f_equal; lia|].
    intros H. apply (f_equal length) in H. rewrite !length_map in H. lia.
Qed.

Lemma domain_match_spec (A B : list label) (x y : list Z) : name_ok A -> name_ok B ->
  domain_match (enc A ++ x) (enc B ++ y) = Ok (Z.of_nat (common A B), off A (common A B), off B (common A B)).
Proof.
  intros HA HB. pose proof (name_ok_labels A HA) as HlA. pose proof (name_ok_labels B HB) as HlB. destruct HA as [HA _], HB as [HB _].
  unfold domain_match, enc. rewrite <- !app_assoc. cbn [app]. 
  assert (Hlen : forall ls : list label, zlen ls <= zlen (wire ls)).
  { induction ls as [|l ls IH]; [done|]. rewrite wire_cons. cbn [length]. rewrite length_app. lia. }
  rewrite (length_bytes_spec A _ [] [] x) by (try done; rewrite ?length_app; specialize (Hlen A); cbn [length]; lia).
  rewrite (length_bytes_spec B _ [] [] y) by (try done; rewrite ?length_app; specialize (Hlen B); cbn [length]; lia).
  cbn [mbind res_bind app]. rewrite !Z.add_0_l, !length_map. fold (lens A) (lens B).
  pose proof (match_labels_spec A [] B [] (0 :: x) (0 :: y) 0 eq_refl eq_refl) as H. rewrite !app_nil_r in H. exact H.
Qed.

(** [domain_match] finds the longest common end of two names, up to case. *)
Theorem domain_match_longest (A B : list label) (x y : list Z) : name_ok A -> name_ok B ->
  exists m, domain_match (enc A ++ x) (enc B ++ y) = Ok (Z.of_nat m, off A m, off B m) /\ 
    fold_name (tail_of m A) = fold_name (tail_of m B) /\ 
    forall m', (m' <= length A)%nat -> (m' <= length B)%nat -> fold_name (tail_of m' A) = fold_name (tail_of m' B) -> (m' <= m)%nat.
Proof.
  intros HA HB. exists (common A B). split; [by apply domain_match_spec|]. split; [apply agree_tail, common_agree|].
  intros m' Ha Hb H. apply agree_common. split_and!; [done..|]. rewrite !fold_tail in H by done. by apply (inj reverse).
Qed.

(** * Messages *)
Lemma denotes_app msg p L h n x : denotes msg (zlen msg) p L h n -> denotes (msg ++ x) (zlen (msg ++ x)) p L h n.
Proof.
  rewrite length_app. induction 1 as [p Hp Hb|p l ls h n Hp Hb Hl Hs Hd IH|p q ls h n Hp0 Hp1 Hb -> Hd IH].
  - apply denotes_root; [lia|]. rewrite byte_at_app by lia. by replace (p <? zlen msg) with true by lia.
  - pose proof (denotes_pos _ _ _ _ _ _ Hd) as Hr. apply denotes_label; [lia| |done| |done].
    + rewrite byte_at_app by lia. by replace (p <? zlen msg) with true by lia.
    + rewrite sub_app_l by lia. done.
  - assert (E : forall i, 0 <= i < zlen msg -> byte_at (msg ++ x) i = byte_at msg i).
    { intros i Hi. rewrite byte_at_app by lia. by replace (i <? zlen msg) with true by lia. }
    eapply denotes_pointer; [lia|lia|by rewrite E by lia|by rewrite !E by lia|done].
Qed.

Lemma denotes_unique msg msgsz p L h n : denotes msg msgsz p L h n ->
  forall L' h' n', denotes msg msgsz p L' h' n' -> L' = L /\ h' = h /\ n' = n.
Proof.
  induction 1 as [p Hp Hb|p l ls h n Hp Hb Hl Hs Hd IH|p q ls h n Hp0 Hp1 Hb -> Hd IH]; intros L' h' n' Hd'; inversion Hd'; subst; try lia.
  - done.
  - assert (E : zlen l0 = zlen l) by lia. rewrite E in *. assert (l0 = l) as -> by congruence.
    match goal with H : denotes _ _ _ ls0 _ _ |- _ => destruct (IH _ _ _ H) as (-> & -> & ->) end. done.
  - match goal with H : denotes _ _ (offset_of _ _) _ _ _ |- _ => destruct (IH _ _ _ H) as (-> & -> & _) end. done.
Qed.

(** Labels in place, then a name. *)
Lemma denotes_wire ls : forall pre rest msgsz L h n, Forall label_ok ls ->
  denotes (pre ++ wire ls ++ rest) msgsz (zlen pre + zlen (wire ls)) L h n ->
  denotes (pre ++ wire ls ++ rest) msgsz (zlen pre) (ls ++ L) h (zlen (wire ls) + n).
Proof.
  induction ls as [|l ls IH]; intros pre rest msgsz L h n Hok Hd.
  { change (zlen (wire [])) with 0 in Hd. by rewrite Z.add_0_r in Hd. }
  apply Forall_cons in Hok as [[Hl _] Hok]. pose proof (denotes_pos _ _ _ _ _ _ Hd) as Hp.
  assert (E : pre ++ wire (l :: ls) ++ rest = (pre ++ zlen l :: l) ++ wire ls ++ rest) by (rewrite wire_cons; by rewrite <- !app_assoc; cbn; rewrite <- app_assoc).
  assert (Ez : zlen (wire (l :: ls)) = 1 + zlen l + zlen (wire ls)) by (rewrite wire_cons; cbn [length]; rewrite length_app; lia).
  assert (Ep : zlen (pre ++ zlen l :: l) = zlen pre + 1 + zlen l) by (rewrite length_app; cbn [length]; lia).
  rewrite Ez in Hp |- *. replace (1 + zlen l + zlen (wire ls) + n) with (1 + zlen l + (zlen (wire ls) + n)) by lia.
  cbn [app]. apply denotes_label.
  - lia.
  - rewrite wire_cons. cbn [app]. rewrite byte_at_app by lia. replace (zlen pre <? zlen pre) with false by lia. by rewrite Z.sub_diag.
  - done.
  - rewrite E. rewrite sub_app_l by lia. rewrite sub_app_r by lia. replace (zlen pre + 1 - zlen pre) with (zlen [zlen l]) by (cbn [length]; lia).
    change (zlen l :: l) with ([zlen l] ++ l). rewrite sub_app_r by lia. rewrite Z.sub_diag. apply sub_all.
  - rewrite <- Ep, E. apply IH; [done|]. rewrite <- E, Ep. rewrite Ez in Hd. by replace (zlen pre + 1 + zlen l + zlen (wire ls)) with (zlen pre + (1 + zlen l + zlen (wire ls))) by lia.
Qed.
Lemma denotes_enc ls pre rest msgsz : Forall label_ok ls -> msgsz = zlen (pre ++ enc ls ++ rest) ->
  denotes (pre ++ enc ls ++ rest) msgsz (zlen pre) ls 0 (zlen (enc ls)).
Proof.
  intros Hok ->. unfold enc. rewrite <- !app_assoc.
  set (msg := pre ++ wire ls ++ [0] ++ rest).
  assert (H : denotes msg (zlen msg) (zlen pre) (ls ++ []) 0 (zlen (wire ls) + 1)); [|rewrite app_nil_r in H; rewrite length_app; cbn [length]; by replace (Z.of_nat (length (wire ls) + 1)) with (zlen (wire ls) + 1) by lia].
  apply denotes_wire; [done|]. fold msg. apply denotes_root; unfold msg.
  - rewrite !length_app. cbn [length]. lia.
  - rewrite !app_assoc. rewrite <- app_assoc. rewrite byte_at_app by (rewrite ?length_app; lia). rewrite length_app.
    replace (zlen pre + zlen (wire ls) <? _) with false by lia. by replace (zlen pre + zlen (wire ls) - _) with 0 by lia.
Qed.

(** The two bytes of a pointer. *)
Definition pointer_hi (c : Z) : Z := Z.lor 192 (Z.shiftr (Z.land c 16128) 8).
Definition pointer_lo (c : Z) : Z := Z.land c 255.
Lemma pointer_bytes c : 0 <= c <= 16383 ->
  192 <= pointer_hi c < 256 /\ 0 <= pointer_lo c < 256 /\ offset_of (pointer_hi c) (pointer_lo c) = c.
Proof.
  intros Hc. unfold pointer_hi, pointer_lo. rewrite Z.shiftr_land. change (Z.shiftr 16128 8) with (Z.ones 6). change 255 with (Z.ones 8).
  rewrite !Z.land_ones, Z.shiftr_div_pow2 by lia. rewrite (Z.mod_small (c / 2 ^ 8)) by (split; [apply Z.div_pos|apply Z.div_lt_upper_bound]; lia).
  pose proof (Z.div_mod c (2 ^ 8) ltac:(lia)) as Hd. pose proof (Z.mod_pos_bound c (2 ^ 8) ltac:(lia)) as Hl.
  remember (c / 2 ^ 8) as q. remember (c mod 2 ^ 8) as r. assert (Hq : 0 <= q < Z.of_nat 64) by lia.
  pose proof (forall_upto (fun q => (192 <=? Z.lor 192 q) && (Z.lor 192 q <? 256) && (Z.land (Z.lor 192 q) 63 =? q)) 64 eq_refl q Hq) as H. cbv beta in H.
  split_and!; try lia. unfold offset_of. replace (Z.land (Z.lor 192 q) 63) with q by lia.
  rewrite Z.shiftl_mul_pow2 by lia. rewrite <- Z.add_nocarry_lor; [lia|].
  replace (q * 2 ^ 8) with (Z.shiftl q 8) by (rewrite Z.shiftl_mul_pow2; lia). rewrite <- (Z.mod_small r (2 ^ 8)), <- Z.land_ones by lia.
  apply Z.bits_inj'. intros n Hn. rewrite !Z.land_spec, Z.bits_0. destruct (Z.ltb_spec n 8).
  - by rewrite Z.shiftl_spec_low by lia.
  - rewrite Z.ones_spec_high by lia. by rewrite !andb_false_r.
Qed.

(** * compress_name

    What is known of the list: the name behind each element, and that each end of
    a name stands in the message where the name was put, or an earlier element has
    the same end before that. *)
Definition entry : Type := Z * list label.
Definition cb_of (es : list entry) : list compel_t := map (fun e => Compel e.1 (enc e.2)) es.
Definition placed (msg : list Z) (e : entry) (m : nat) : Prop :=
  exists L h n, denotes msg (zlen msg) (e.1 + off e.2 m) L h n /\ fold_name L = fold_name (tail_of m e.2) /\ h <= Z.of_nat m - 1.
Definition indexed (msg : list Z) (p : list entry) (e : entry) (m : nat) : Prop :=
  placed msg e m \/ exists f, f ∈ p /\ agree m f.2 e.2 /\ placed msg f m /\ f.1 + off f.2 m < e.1.
Definition entry_ok (msg : list Z) (p : list entry) (e : entry) : Prop :=
  name_ok e.2 /\ 0 <= e.1 /\ forall m, (1 <= m <= length e.2)%nat -> indexed msg p e m.
Inductive table_ok (msg : list Z) : list entry -> Prop :=
  | table_nil : table_ok msg []
  | table_snoc es e : table_ok msg es -> entry_ok msg es e -> table_ok msg (es ++ [e]).

Lemma placed_app msg e m x : placed msg e m -> placed (msg ++ x) e m.
Proof. intros (L & h & n & Hd & HL & Hh). exists L, h, n. split_and!; [|done..]. by apply denotes_app. Qed.
Lemma table_app msg es x : table_ok msg es -> table_ok (msg ++ x) es.
Proof.
  induction 1 as [|es e _ IH (Hn & Hi & He)]; [constructor|]. apply table_snoc; [done|]. split_and!; [done..|].
  intros m Hm. destruct (He m Hm) as [Hp|(f & Hf & Ha & Hp & Hlt)]; [left; by apply placed_app|].
  right. exists f. split_and!; [done..|by apply placed_app|done].
Qed.
Lemma table_split msg es : table_ok msg es -> forall p e s, es = p ++ e :: s -> entry_ok msg p e.
Proof.
  induction 1 as [|es e' _ IH He]; intros p e s E; [by destruct p|].
  destruct s as [|e1 s _] using rev_ind.
  - apply app_inj_tail in E as [-> ->]. done.
  - rewrite app_comm_cons, app_assoc in E. apply app_inj_tail in E as [-> _]. by eapply IH.
Qed.
Lemma table_indexed msg es e m : table_ok msg es -> e ∈ es -> (1 <= m <= length e.2)%nat ->
  exists f, f ∈ es /\ agree m f.2 e.2 /\ placed msg f m.
Proof.
  intros Ht He Hm. apply list_elem_of_split in He as (p & s & ->). destruct (table_split msg _ Ht p e s eq_refl) as (_ & _ & Hi).
  destruct (Hi m Hm) as [Hp|(f & Hf & Ha & Hp & _)].
  - exists e. split_and!; [set_solver|by split_and!; try lia|done].
  - exists f. split_and!; [set_solver|done..].
Qed.

(** What the loop has chosen, after the elements [p]. *)
Definition chosen (msg : list Z) (p : list entry) (N : list label) (longest : nat) (lrem coffs : Z) : Prop :=
  (forall f, f ∈ p -> f.1 + off f.2 (common N f.2) <= 16383 -> (common N f.2 <= longest)%nat) /\
  (longest = 0%nat \/ exists e, e ∈ p /\ longest = common N e.2 /\ lrem = off N longest /\
     coffs = e.1 + off e.2 longest /\ 0 <= coffs <= 16383 /\ placed msg e longest).

Lemma off_pos A m : 0 <= off A m.
Proof. unfold off. lia. Qed.
Lemma common_le N A : (common N A <= length N /\ common N A <= length A)%nat.
Proof. pose proof (common_agree N A) as (? & ? & _). done. Qed.

Lemma chosen_step msg p e N longest lrem coffs : entry_ok msg p e -> chosen msg p N longest lrem coffs ->
  let c := common N e.2 in
  if (Z.of_nat longest <? Z.of_nat c) && (e.1 + off e.2 c <=? 16383)
  then chosen msg (p ++ [e]) N c (off N c) (e.1 + off e.2 c) else chosen msg (p ++ [e]) N longest lrem coffs.
Proof.
  intros (Hn & Hi & He) (Hmax & Hsel) c. pose proof (common_le N e.2) as [_ Hc]. fold c in Hc. pose proof (off_pos e.2 c) as Ho.
  destruct (Z.ltb_spec (Z.of_nat longest) (Z.of_nat c)) as [H1|H1]; [destruct (Z.leb_spec (e.1 + off e.2 c) 16383) as [H2|H2]|]; cbn [andb].
  - split.
    + intros f [Hf|Hf]%elem_of_app Hle; [specialize (Hmax f Hf Hle); lia|]. apply list_elem_of_singleton in Hf as ->. done.
    + right. exists e. split_and!; [set_solver|done..|lia|done|]. destruct (He c ltac:(lia)) as [Hp|(f & Hf & Ha & Hp & Hlt)]; [done|].
      exfalso. assert (Hfc : (c <= common N f.2)%nat).
      { apply agree_common. apply agree_trans with e.2; [apply common_agree|by apply agree_sym]. }
      pose proof (off_le f.2 (common N f.2) c Hfc). specialize (Hmax f Hf ltac:(lia)). lia.
  - split.
    + intros f [Hf|Hf]%elem_of_app Hle; [by apply Hmax|]. apply list_elem_of_singleton in Hf as ->. fold c in Hle |- *. lia.
    + destruct Hsel as [?|(f & Hf & ?)]; [by left|]. right. exists f. split; [set_solver|done].
  - split.
    + intros f [Hf|Hf]%elem_of_app Hle; [by apply Hmax|]. apply list_elem_of_singleton in Hf as ->. fold c. lia.
    + destruct Hsel as [?|(f & Hf & ?)]; [by left|]. right. exists f. split; [set_solver|done].
Qed.

Lemma best_match_spec msg N x s : name_ok N -> forall p longest lrem coffs, table_ok msg (p ++ s) -> chosen msg p N longest lrem coffs ->
  exists longest' lrem' coffs', best_match (cb_of s) (enc N ++ x) (Z.of_nat longest) lrem coffs = Ok (Z.of_nat longest', lrem', coffs') /\
    chosen msg (p ++ s) N longest' lrem' coffs'.
Proof.
  intros HN. induction s as [|e s IH]; intros p longest lrem coffs Ht Hc.
  { exists longest, lrem, coffs. rewrite app_nil_r. done. }
  pose proof (table_split msg _ Ht p e s eq_refl) as He. pose proof (chosen_step msg p e N longest lrem coffs He Hc) as Hs. cbv zeta in Hs.
  destruct He as (Hn & _). cbn [cb_of map best_match]. fold (cb_of s). cbn [index cs].
  pose proof (domain_match_spec N e.2 x [] HN Hn) as Hm. rewrite app_nil_r in Hm. rewrite Hm. cbn [mbind res_bind].
  replace (p ++ e :: s) with ((p ++ [e]) ++ s) in Ht |- * by (by rewrite <- app_assoc).
  destruct ((Z.of_nat longest <? Z.of_nat (common N e.2)) && (e.1 + off e.2 (common N e.2) <=? 16383)); by apply IH.
Qed.

Lemma rhnlen_loop_spec ls : forall fuel pre x, Forall label_ok ls -> (length ls < fuel)%nat ->
  rhnlen_loop fuel (pre ++ enc ls ++ x) (zlen pre) = Ok (zlen pre + zlen (enc ls)).
Proof.
  induction ls as [|l ls IH]; intros [|fuel] pre x Hok Hf; simpl in Hf; try lia; cbn [rhnlen_loop].
  - change (enc [] ++ x) with (0 :: x). by rewrite rd_mid.
  - apply Forall_cons in Hok as [[Hl _] Hok]. rewrite enc_cons. cbn [app]. rewrite rd_mid. cbn [mbind res_bind].
    replace (zlen l =? 0) with false by lia. specialize (IH fuel (pre ++ zlen l :: l) x Hok ltac:(lia)).
    replace (pre ++ zlen l :: (l ++ enc ls) ++ x) with ((pre ++ zlen l :: l) ++ enc ls ++ x) by (by rewrite <- !app_assoc).
    replace (zlen pre + 1 + zlen l) with (zlen (pre ++ zlen l :: l)) by (rewrite length_app; cbn [length]; lia).
    rewrite IH. f_equal. rewrite length_app. cbn [length]. rewrite length_app. lia.
Qed.
Lemma rhnlen_spec ls x : Forall label_ok ls -> rhnlen (enc ls ++ x) = Ok (zlen (enc ls)).
Proof.
  intros Hok. unfold rhnlen. apply (rhnlen_loop_spec ls _ [] x Hok). rewrite length_app. pose proof (wire_lower ls Hok).
  unfold enc. rewrite length_app. lia.
Qed.

(** Between the ends [m'] and [m] of a name. *)
Definition mid_of (m' m : nat) (N : list label) : list label := drop (length N - m') (head_of m N).
Lemma head_mid m' m N : (m <= m')%nat -> head_of m N = head_of m' N ++ mid_of m' m N.
Proof.
  intros H. unfold mid_of. rewrite <- (take_drop (length N - m') (head_of m N)) at 1. f_equal. unfold head_of. rewrite take_take. f_equal. lia.
Qed.
Lemma tail_mid m' m N : (m <= m' <= length N)%nat -> tail_of m' N = mid_of m' m N ++ tail_of m N.
Proof.
  intros H. unfold mid_of, tail_of, head_of. rewrite <- (take_drop (length N - m) N) at 2.
  rewrite drop_app_le; [done|]. rewrite length_take. lia.
Qed.
Lemma fold_app a b : fold_name (a ++ b) = fold_name a ++ fold_name b.
Proof. apply map_app. Qed.
Lemma label_ok_parts m N : Forall label_ok N -> Forall label_ok (head_of m N) /\ Forall label_ok (tail_of m N).
Proof. intros H. rewrite <- (head_tail m N) in H. by apply Forall_app in H. Qed.

Section Written.
Context (msg : list Z) (es : list entry) (N : list label).
Hypothesis Htable : table_ok msg es.
Hypothesis HN : name_ok N.

(** A name written in full. *)
Lemma full_denotes m : denotes (msg ++ enc N) (zlen (msg ++ enc N)) (zlen msg + off N m) (tail_of m N) 0 (zlen (enc (tail_of m N))).
Proof.
  destruct HN as [Hok _]. destruct (label_ok_parts m N Hok) as [Hh Ht].
  assert (E : msg ++ enc N = (msg ++ wire (head_of m N)) ++ enc (tail_of m N) ++ []).
  { unfold enc. by rewrite app_nil_r, <- (head_tail m N) at 1; rewrite wire_app, <- !app_assoc. }
  rewrite E. unfold off. replace (zlen msg + zlen (wire (head_of m N))) with (zlen (msg ++ wire (head_of m N))) by (rewrite length_app; lia).
  by apply denotes_enc.
Qed.
Lemma full_entry : table_ok (msg ++ enc N) (es ++ [(zlen msg, N)]).
Proof.
  apply table_snoc; [by apply table_app|]. split_and!; [done|simpl; lia|]. cbn [fst snd]. intros m Hm. left.
  exists (tail_of m N), 0, (zlen (enc (tail_of m N))). split_and!; [apply full_denotes|done|lia].
Qed.

(** A name that ends in a pointer to the end [m] of [e]. *)
Context (e : entry) (m : nat).
Hypothesis He : e ∈ es.
Hypothesis Hm : m = common N e.2.
Hypothesis Hm1 : (1 <= m)%nat.
Hypothesis Hplaced : placed msg e m.
Let c := e.1 + off e.2 m.
Hypothesis Hc : 0 <= c <= 16383.
Let w := wire (head_of m N) ++ [pointer_hi c; pointer_lo c].

Lemma pointer_denotes m' : (m <= m' <= length N)%nat ->
  exists L h n, denotes (msg ++ w) (zlen (msg ++ w)) (zlen msg + off N m') L h n /\ fold_name L = fold_name (tail_of m' N) /\
    h <= Z.of_nat m /\ n = zlen (wire (mid_of m' m N)) + 2.
Proof.
  intros Hm'. destruct HN as [Hok _]. destruct Hplaced as (L & h & n & Hd & HL & Hh). destruct (pointer_bytes c Hc) as (Hhi & Hlo & Hoff).
  assert (Hmid : Forall label_ok (mid_of m' m N)). { apply Forall_drop. by apply label_ok_parts. }
  set (pre := msg ++ wire (head_of m' N)). 
  assert (E : msg ++ w = pre ++ wire (mid_of m' m N) ++ [pointer_hi c; pointer_lo c]).
  { unfold w, pre. rewrite (head_mid m' m N) by lia. by rewrite wire_app, <- !app_assoc. }
  assert (Ep : zlen msg + off N m' = zlen pre) by (unfold pre, off; rewrite length_app; lia).
  exists (mid_of m' m N ++ L), (h + 1), (zlen (wire (mid_of m' m N)) + 2). split_and!; [|..|lia|done].
  - rewrite E, Ep. apply denotes_wire; [done|]. rewrite <- E.
    assert (Hb : forall i, 0 <= i < 2 -> byte_at (msg ++ w) (zlen pre + zlen (wire (mid_of m' m N)) + i) = byte_at [pointer_hi c; pointer_lo c] i).
    { intros i Hi. rewrite E, app_assoc, byte_at_app by lia. rewrite length_app.
      replace (_ <? Z.of_nat (length pre + length (wire (mid_of m' m N)))) with false by lia. f_equal. lia. }
    pose proof (Hb 0 ltac:(lia)) as H0. pose proof (Hb 1 ltac:(lia)) as H1. rewrite Z.add_0_r in H0. change (byte_at _ 0) with (pointer_hi c) in H0.
    change (byte_at [_; _] 1) with (pointer_lo c) in H1.
    eapply denotes_pointer; [lia| |rewrite H0; lia|reflexivity|].
    + rewrite E, !length_app. cbn [length]. lia.
    + rewrite H0, H1, Hoff. by apply denotes_app.
  - rewrite (tail_mid m' m N) by lia. rewrite !fold_app. f_equal. rewrite HL. symmetry. apply agree_tail. rewrite Hm. apply common_agree.
Qed.
Lemma pointer_entry : table_ok (msg ++ w) (es ++ [(zlen msg, N)]).
Proof.
  apply table_snoc; [by apply table_app|]. split_and!; [done|simpl; lia|]. cbn [fst snd]. intros m' Hm'.
  destruct (decide (m < m')%nat) as [Hlt|Hge].
  - left. destruct (pointer_denotes m' ltac:(lia)) as (L & h & n & Hd & HL & Hh & _). exists L, h, n. split_and!; [done..|lia].
  - right. pose proof (common_agree N e.2) as Ha. rewrite <- Hm in Ha.
    destruct (table_indexed msg es e m' Htable He) as (f & Hf & Hfe & Hp); [destruct Ha as (_ & ? & _); lia|].
    exists f. split_and!; [done| |by apply placed_app|].
    + apply agree_trans with e.2; [done|]. apply agree_sym. apply agree_le with m; [done|lia].
    + destruct Hp as (L & h & n & Hd & _). apply denotes_pos in Hd. cbn [fst]. lia.
Qed.
End Written.

Definition compressed (msg : list Z) (N : list label) (out : list Z) (r : Z * list Z * list compel_t) : Prop :=
  let '(rl, out', cb') := r in
  length out' = length out /\ 1 <= rl <= zlen (enc N) /\ is_bytes (sub out' 0 rl) /\
  exists es', cb' = cb_of es' /\ let msg' := msg ++ sub out' 0 rl in
    table_ok msg' es' /\ exists L h, denotes msg' (zlen msg') (zlen msg) L h rl /\ fold_name L = fold_name N /\ h <= zlen N.

Lemma off_rest N m : (1 <= m <= length N)%nat -> Forall label_ok N -> off N m + 2 <= zlen (enc N).
Proof.
  intros Hm Hok. destruct (label_ok_parts m N Hok) as [_ Ht]. pose proof (wire_lower _ Ht) as H. rewrite length_tail in H by lia.
  unfold enc, off. rewrite length_app, (wire_head_tail m N), length_app. cbn [length]. lia.
Qed.
Lemma sub_enc_head N m x : sub (enc N ++ x) 0 (off N m) = wire (head_of m N).
Proof.
  unfold enc, off. rewrite (wire_head_tail m N), <- !app_assoc, sub_app_l by lia. apply sub_all.
Qed.
Lemma put_pointer out d a b : zlen d + 2 <= zlen out ->
  let out' := <[Z.to_nat (zlen d + 1) := b]> (<[Z.to_nat (zlen d) := a]> (put out 0 d)) in
  length out' = length out /\ sub out' 0 (zlen d + 2) = d ++ [a; b].
Proof.
  intros Hl out'. assert (E : out' = put out 0 (d ++ [a; b])).
  { unfold out'. assert (zlen [a] = 1) by done. assert (zlen [b] = 1) by done.
    rewrite insert_put by (rewrite ?length_insert, ?length_put; lia). rewrite insert_put by (rewrite length_put; lia).
    change [a; b] with ([a] ++ [b]). rewrite <- (put_app out 0) by (rewrite ?length_app; lia).
    rewrite <- (put_app (put out 0 d)) by (rewrite ?length_put; lia). rewrite !Z.add_0_l. done. }
  assert (Hz : zlen (d ++ [a; b]) = zlen d + 2) by (rewrite length_app; cbn [length]; lia).
  rewrite E. split; [rewrite length_put; lia|]. rewrite <- Hz. apply sub_put_same; lia.
Qed.
Lemma is_bytes_enc N : Forall label_ok N -> is_bytes (enc N).
Proof. intros H. apply Forall_app. split; [by apply is_bytes_wire|]. by repeat constructor. Qed.

Lemma compress_name_spec msg es N x out : table_ok msg es -> name_ok N -> zlen (enc N) <= zlen out ->
  succeeds (compress_name (enc N ++ x) out (zlen msg) (cb_of es) true) (compressed msg N out).
Proof.
  intros Ht HN Hout. pose proof HN as [Hok Hlen]. unfold compress_name. rewrite rhnlen_spec by done. apply succeeds_bind. cbn [succeeds].
  unfold PDNSD_ASSERT. replace (zlen (enc N) <=? DNSNAMEBUFSIZE) with true by lia. cbn [mbind res_bind].
  destruct (best_match_spec msg N x es HN [] 0 0 0 Ht) as (m & lrem & coffs & E & Hmax & Hsel).
  { split; [intros f Hf; by apply elem_of_nil in Hf|by left]. }
  change (Z.of_nat 0) with 0 in E. rewrite E. cbn [mbind res_bind app] in *. pose proof (zlen_enc_pos N) as Hpos.
  assert (Hall : rdn (enc N ++ x) 0 (zlen (enc N)) = Ok (enc N)).
  { rewrite rdn_ok by (rewrite ?length_app; lia). by rewrite sub_app_l, sub_all by lia. }
  assert (Hcb : forall e, cb_of es ++ [Compel e.1 (enc e.2)] = cb_of (es ++ [e])) by (intros e; unfold cb_of; by rewrite map_app).
  destruct Hsel as [->|(e & He & Hm & -> & -> & Hc & Hp)].
  - replace (0 <? Z.of_nat 0) with false by lia. rewrite Hall. cbn [mbind res_bind mret res_ret]. rewrite wrn_ok by lia. cbn [mbind res_bind negb].
    rewrite ?Hall. cbn [mbind res_bind succeeds mret res_ret].
    unfold compressed. rewrite length_put by lia. rewrite sub_put_same by lia. split_and!; [done|lia|lia|by apply is_bytes_enc|].
    exists (es ++ [(zlen msg, N)]). split; [apply (Hcb (zlen msg, N))|]. split; [by apply full_entry|]. exists N, 0.
    split_and!; [|done|lia]. pose proof (full_denotes msg N HN (length N)) as Hd. rewrite off_all, Z.add_0_r in Hd.
    unfold tail_of in Hd. by rewrite Nat.sub_diag, drop_0 in Hd.
  - destruct (decide (m = 0%nat)) as [->|Hm0].
    { exfalso. destruct Hp as (L & h & n & Hd & _ & Hh). apply denotes_pos in Hd. lia. }
    replace (0 <? Z.of_nat m) with true by lia. pose proof (common_le N e.2) as [HmN _]. rewrite <- Hm in HmN.
    pose proof (off_rest N m ltac:(lia) Hok) as Hoff. pose proof (off_pos N m) as Hoff0.
    replace (off N m + 2 <=? zlen (enc N)) with true by lia. cbn [mbind res_bind].
    rewrite (rdn_ok _ 0 (off N m)) by (rewrite ?length_app; lia). rewrite sub_enc_head. set (d := wire (head_of m N)). change (off N m) with (zlen d) in *.
    cbn [mbind res_bind]. rewrite wrn_ok by lia. cbn [mbind res_bind]. rewrite wr_ok by (rewrite length_put; lia). cbn [mbind res_bind].
    rewrite wr_ok by (rewrite length_insert, length_put; lia). cbn [mbind res_bind mret res_ret].
    set (c := e.1 + off e.2 m) in *. fold (pointer_hi c) (pointer_lo c).
    destruct (put_pointer out d (pointer_hi c) (pointer_lo c) ltac:(lia)) as [Hl Hs]. cbv zeta in Hl, Hs.
    set (out' := <[Z.to_nat (zlen d + 1) := pointer_lo c]> _) in *.
    destruct (pointer_bytes c Hc) as (Hhi & Hlo & _).
    assert (Hw : is_bytes (d ++ [pointer_hi c; pointer_lo c])).
    { apply Forall_app. split; [apply is_bytes_wire; by apply label_ok_parts|]. repeat constructor; lia. }
    destruct (pointer_denotes msg N HN e m Hm ltac:(lia) Hp Hc (length N) ltac:(lia)) as (L & h & n & Hd & HL & Hh & Hn).
    rewrite off_all, Z.add_0_r in Hd. unfold tail_of in HL. rewrite Nat.sub_diag, drop_0 in HL.
    assert (Hmid : n = zlen d + 2). { rewrite Hn. unfold mid_of. by rewrite Nat.sub_diag, drop_0. } rewrite Hmid in Hd.
    destruct (Z.eqb_spec (zlen d) 0) as [Hz|Hz]; cbn [negb mbind res_bind mret res_ret].
    + unfold compressed. cbn [mret res_ret succeeds]. rewrite Hs. split_and!; [done|lia|lia|done|]. exists es. split; [done|]. split; [by apply table_app|].
      exists L, h. split_and!; [exact Hd|done|lia].
    + rewrite Hall. cbn [mbind res_bind mret res_ret succeeds]. unfold compressed. rewrite Hs. split_and!; [done|lia|lia|done|].
      exists (es ++ [(zlen msg, N)]). split; [apply (Hcb (zlen msg, N))|]. split; [apply (pointer_entry msg es N Ht HN e m); done || lia|].
      exists L, h. split_and!; [exact Hd|done|lia].
Qed.
