(* ===== verification/DnsMessage.v ===== *)
(** The names of a whole answer: what [compress_name] writes, [decompress_name]
    reads back, equal up to case ([rhnicmp]) to what was written. *)
From S2P Require Import Prelude CLib Rhn DnsName DnsNameProps DnsCompress.

(** * rhnicmp *)
Lemma same_bytes_spec u : forall v p q x y, length u = length v -> length p = length q ->
  same_bytes (length u) (p ++ u ++ x) (q ++ v ++ y) (zlen p) = Ok (bool_decide (map tolower u = map tolower v)).
Proof.
  induction u as [|a u IH]; intros [|b v] p q x y Hl Hp; try discriminate; [done|]. cbn [length same_bytes app].
  rewrite rd_mid, rd_mid' by lia. cbn [mbind res_bind map]. destruct (Z.eqb_spec (tolower a) (tolower b)) as [E|E]; cbn [negb].
  - specialize (IH v (p ++ [a]) (q ++ [b]) x y ltac:(cbn [length] in Hl; lia) ltac:(rewrite !length_app; cbn [length]; lia)). rewrite <- !app_assoc in IH. cbn [app] in IH.
    replace (zlen p + 1) with (zlen (p ++ [a])) by (rewrite length_app; cbn [length]; lia). rewrite IH. f_equal. rewrite E.
    repeat case_bool_decide; try done; exfalso; [|congruence].
    match goal with H : _ <> _ |- _ => apply H end. by f_equal.
  - by rewrite bool_decide_eq_false_2 by congruence.
Qed.
Lemma rhnicmp_loop_spec A : forall B fuel p q x y, Forall label_ok A -> Forall label_ok B -> length p = length q -> (length A < fuel)%nat ->
  rhnicmp_loop fuel (p ++ enc A ++ x) (q ++ enc B ++ y) (zlen p) = Ok (if bool_decide (fold_name A = fold_name B) then 1 else 0).
Proof.
  assert (H0 : forall ls x, Forall label_ok ls -> exists b r, enc ls ++ x = b :: r /\ (b = 0 <-> ls = [])).
  { intros [|l ls] x; [intros _; by eexists 0, x|]. intros [[Hl _] _]%Forall_cons. rewrite enc_cons. eexists (zlen l), _. split; [reflexivity|]. split; [lia|done]. }
  induction A as [|a A IH]; intros B [|fuel] p q x y HA HB Hp Hf; simpl in Hf; try lia; cbn [rhnicmp_loop].
  - change (enc [] ++ x) with (0 :: x). destruct (H0 B y HB) as (b & r & -> & Hb). rewrite rd_mid, rd_mid' by lia. cbn [mbind res_bind].
    destruct (Z.eqb_spec 0 b) as [<-|E]; cbn [negb].
    + by rewrite (proj1 Hb eq_refl).
    + destruct B; [by destruct (E (eq_sym (proj2 Hb eq_refl)))|]. by rewrite bool_decide_eq_false_2.
  - apply Forall_cons in HA as [[Hl _] HA]. rewrite enc_cons. cbn [app]. destruct B as [|b B].
    { change (enc [] ++ y) with (0 :: y). rewrite rd_mid, rd_mid' by lia. cbn [mbind res_bind]. replace (zlen a =? 0) with false by lia. cbn [negb].
      by rewrite bool_decide_eq_false_2. }
    apply Forall_cons in HB as [[Hlb _] HB]. rewrite enc_cons. cbn [app]. rewrite rd_mid, rd_mid' by lia. cbn [mbind res_bind].
    destruct (Z.eqb_spec (zlen a) (zlen b)) as [E|E]; cbn [negb].
    + replace (zlen a =? 0) with false by lia. rewrite Nat2Z.id. rewrite <- !app_assoc.
      pose proof (same_bytes_spec a b (p ++ [zlen a]) (q ++ [zlen b]) (enc A ++ x) (enc B ++ y) ltac:(lia) ltac:(rewrite !length_app; cbn [length]; lia)) as H.
      rewrite <- !app_assoc in H. cbn [app] in H. replace (zlen (p ++ [zlen a])) with (zlen p + 1) in H by (rewrite length_app; cbn [length]; lia).
      rewrite H. cbn [mbind res_bind]. cbn [fold_name map]. fold (fold_name A) (fold_name B). case_bool_decide.
      * specialize (IH B fuel (p ++ zlen a :: a) (q ++ zlen b :: b) x y HA HB ltac:(rewrite !length_app; cbn [length]; lia) ltac:(lia)).
        rewrite <- !app_assoc in IH. cbn [app] in IH. replace (zlen (p ++ zlen a :: a)) with (zlen p + 1 + zlen a) in IH by (rewrite length_app; cbn [length]; lia).
        rewrite IH. f_equal. repeat case_bool_decide; congruence.
      * rewrite bool_decide_eq_false_2 by congruence. done.
    + rewrite bool_decide_eq_false_2; [done|]. intros [= H _]. apply (f_equal length) in H. rewrite !length_map in H. lia.
Qed.
Lemma rhnicmp_spec A B x y : Forall label_ok A -> Forall label_ok B ->
  rhnicmp (enc A ++ x) (enc B ++ y) = Ok (if bool_decide (fold_name A = fold_name B) then 1 else 0).
Proof.
  intros HA HB. unfold rhnicmp. apply (rhnicmp_loop_spec A B _ [] []); [done..|]. rewrite length_app. pose proof (wire_lower A HA). unfold enc. rewrite length_app. lia.
Qed.

(** * A message *)
Inductive item : Type := Raw (d : list Z) | Name (ls : list label).
Definition item_ok (w : item) : Prop := match w with Raw d => is_bytes d | Name ls => name_ok ls end.
Definition item_names (ws : list item) : list (list label) := omap (fun w => match w with Name ls => Some ls | Raw _ => None end) ws.

(** What is written one after the other to the end of the message, and where the
    names were put. *)
Fixpoint compose (ws : list item) (msg : list Z) (cb : list compel_t) : res (list Z * list (Z * list label)) :=
  match ws with
  | [] => mret (msg, [])
  | Raw d :: ws => compose ws (msg ++ d) cb
  | Name ls :: ws =>
      '(rl, out, cb) ← compress_name (enc ls) (replicate (length (enc ls)) 0) (zlen msg) cb true;
      '(msg', ps) ← compose ws (msg ++ sub out 0 rl) cb;
      mret (msg', (zlen msg, ls) :: ps)
  end.

(** A name stands at an offset of the message, up to case. *)
Definition stands (msg : list Z) (p : Z) (ls : list label) : Prop :=
  exists L h n, denotes msg (zlen msg) p L h n /\ fold_name L = fold_name ls /\ h <= zlen ls /\ n <= zlen (enc ls).
Lemma stands_app msg x p ls : stands msg p ls -> stands (msg ++ x) p ls.
Proof. intros (L & h & n & Hd & ?). exists L, h, n. split; [by apply denotes_app|done]. Qed.

Lemma compose_spec ws : forall msg es, Forall item_ok ws -> is_bytes msg -> table_ok msg es ->
  exists x ps, compose ws msg (cb_of es) = Ok (msg ++ x, ps) /\ is_bytes (msg ++ x) /\ map snd ps = item_names ws /\
    Forall (fun q => 0 <= q.1 /\ name_ok q.2 /\ stands (msg ++ x) q.1 q.2) ps.
Proof.
  induction ws as [|[d|ls] ws IH]; intros msg es Hok Hb Ht; cbn [compose].
  - exists [], []. rewrite app_nil_r. by split_and!.
  - apply Forall_cons in Hok as [Hd Hok]. destruct (IH (msg ++ d) es Hok) as (x & ps & E & Hx & Hn & Hps); [by apply Forall_app|by apply table_app|].
    exists (d ++ x), ps. rewrite app_assoc. by split_and!.
  - apply Forall_cons in Hok as [Hls Hok].
    pose proof (compress_name_spec msg es ls [] (replicate (length (enc ls)) 0) Ht Hls ltac:(rewrite length_replicate; lia)) as H.
    rewrite app_nil_r in H. apply succeeds_Ok in H as ([[rl out] cb] & Ec & Hl & Hrl & Hbs & es' & -> & Ht' & L & h & Hd & HL & Hh). rewrite Ec. cbn [mbind res_bind].
    destruct (IH (msg ++ sub out 0 rl) es' Hok) as (x & ps & E & Hx & Hn & Hps); [by apply Forall_app|done|]. rewrite E. cbn [mbind res_bind mret res_ret].
    exists (sub out 0 rl ++ x), ((zlen msg, ls) :: ps). rewrite app_assoc. split_and!; [done..|cbn [map snd item_names omap]; by rewrite Hn|].
    constructor; [|done]. cbn [fst snd]. split_and!; [lia|done|]. apply stands_app. exists L, h, rl. split_and!; [done..|lia].
Qed.

Lemma denotes_labels msg msgsz p L h n : is_bytes msg -> denotes msg msgsz p L h n -> Forall label_ok L.
Proof.
  intros Hb. induction 1 as [|p l ls h n Hp Hbt Hl Hs Hd IH|]; [constructor| |done]. constructor; [|done]. split; [done|].
  rewrite <- Hs. by apply Forall_take, Forall_drop.
Qed.
Lemma zlen_enc_fold a b : fold_name a = fold_name b -> zlen (enc a) = zlen (enc b).
Proof. intros H. unfold enc. rewrite !length_app. apply wire_fold in H. lia. Qed.

(** C27: a message whose names are written with [compress_name] reads back.  For
    every sequence of names and other bytes, written one after the other, nothing
    fails, and at each place where a name was put [decompress_name] finds a name of
    the same length that [rhnicmp] takes for the one written; what stands there is
    no longer than the name. *)
Theorem compress_roundtrip (ws : list item) : Forall item_ok ws ->
  exists msg ps, compose ws [] [] = Ok (msg, ps) /\ map snd ps = item_names ws /\
    forall p ls tgt len, (p, ls) ∈ ps -> DNSNAMEBUFSIZE <= zlen tgt ->
      exists n tgt', decompress_name msg (zlen msg) p (zlen msg - p) tgt len = Ok (RC_OK, p + n, zlen msg - (p + n), tgt', zlen (enc ls)) /\
        rhnicmp tgt' (enc ls) = Ok 1 /\ 1 <= n <= zlen (enc ls).
Proof.
  intros Hok. destruct (compose_spec ws [] [] Hok) as (msg & ps & E & Hb & Hn & Hps); [constructor..|]. cbn [app] in *.
  exists msg, ps. split_and!; [done..|]. intros p ls tgt len Hin Ht. rewrite Forall_forall in Hps.
  destruct (Hps _ Hin) as (Hp & [Hls Hsz] & L & h & n & Hd & HL & Hh & Hnn). cbn [fst snd] in *.
  pose proof (denotes_pos _ _ _ _ _ _ Hd) as Hr. pose proof (zlen_enc_fold L ls HL) as Hz. pose proof (name_ok_labels ls ltac:(done)) as H127.
  assert (Hend : p + n <= zlen msg). { clear -Hd. induction Hd; lia. }
  destruct (decompress_name_spec msg (zlen msg) p (zlen msg - p) tgt len Hb) as (rc & src' & sz' & tgt' & len' & -> & Hl' & [H|H]); [lia..|done| |].
  - destruct H as (-> & L' & h' & n' & Hd' & _ & _ & _ & -> & -> & -> & ->).
    destruct (denotes_unique _ _ _ _ _ _ Hd _ _ _ Hd') as (-> & -> & ->). exists n, (put tgt 0 (enc L)). split_and!; [|..|lia|lia].
    + rewrite Hz. by replace (zlen msg - p - n) with (zlen msg - (p + n)) by lia.
    + unfold put. cbn [Z.to_nat take app]. rewrite take_0. cbn [app]. rewrite <- (app_nil_r (enc ls)).
      rewrite rhnicmp_spec; [by rewrite bool_decide_eq_true_2|by apply (denotes_labels _ _ _ _ _ _ Hb Hd)|done].
  - destruct H as (_ & _ & _ & _ & Hno). destruct (Hno _ _ _ Hd); lia.
Qed.

(** "www.Ab.cd", other bytes, "mail.aB.cd", "cd". *)
Definition sample_items : list item :=
  [Name [[119; 119; 119]; [65; 98]; [99; 100]]; Raw [0; 1; 255]; Name [[109; 97; 105; 108]; [97; 66]; [99; 100]]; Name [[99; 100]]].
Example sample_composed : compose sample_items [] [] =
  Ok ([3; 119; 119; 119; 2; 65; 98; 2; 99; 100; 0; 0; 1; 255; 4; 109; 97; 105; 108; 192; 4; 192; 7],
      [(0, [[119; 119; 119]; [65; 98]; [99; 100]]); (14, [[109; 97; 105; 108]; [97; 66]; [99; 100]]); (21, [[99; 100]])]).
Proof. vm_compute. reflexivity. Qed.
Lemma compress_roundtrip_witness : exists msg ps, compose sample_items [] [] = Ok (msg, ps) /\ map snd ps = item_names sample_items /\
  forall p ls tgt len, (p, ls) ∈ ps -> DNSNAMEBUFSIZE <= zlen tgt ->
    exists n tgt', decompress_name msg (zlen msg) p (zlen msg - p) tgt len = Ok (RC_OK, p + n, zlen msg - (p + n), tgt', zlen (enc ls)) /\
      rhnicmp tgt' (enc ls) = Ok 1 /\ 1 <= n <= zlen (enc ls).
Proof.
  apply (compress_roundtrip sample_items).
  repeat constructor; unfold DNSNAMEBUFSIZE; cbn; lia.
Defined.
