(* ===== verification/RhnText.v ===== *)
(** Names as text (helpers.c of pdnsd): a name of printable labels is printed with a
    dot behind each label, and what is printed is parsed back. *)
From S2P Require Import Prelude CLib Rhn DnsName DnsNameProps DnsCompress.

Definition plain (c : Z) : Prop := isgraph c = true /\ escaped c = false.
Definition plain_name (ls : list label) : Prop := Forall label_ok ls /\ Forall (Forall plain) ls /\ zlen (enc ls) <= DNSNAMEBUFSIZE.
Definition dotted (ls : list label) : list Z := concat (map (fun l => l ++ [dot]) ls).
(** The text of a name; that of the root is a dot. *)
Definition text_of (ls : list label) : list Z := match ls with [] => [dot] | _ => dotted ls end.

Lemma dotted_cons l ls : dotted (l :: ls) = l ++ dot :: dotted ls.
Proof. unfold dotted. cbn. by rewrite <- app_assoc. Qed.
Lemma length_dotted ls : length (dotted ls) = length (wire ls).
Proof. induction ls as [|l ls IH]; [done|]. rewrite dotted_cons, wire_cons. cbn [length]. rewrite !length_app. cbn [length]. lia. Qed.
Lemma zlen_enc ls : zlen (enc ls) = zlen (wire ls) + 1.
Proof. unfold enc. rewrite length_app. cbn [length]. lia. Qed.
Lemma plain_not c : plain c -> (c =? 0) || (c =? dot) = false.
Proof. unfold plain, isgraph, escaped, dot. intros [H1 H2]. lia. Qed.

Ltac lens := repeat first [rewrite length_insert | rewrite length_app | rewrite length_put by lens]; cbn [length]; lia.

(** * Parsing *)
Lemma copy_label_ok l : forall fuel pre x len rhn jlim c, (c = 0 \/ c = dot) -> Forall plain l -> (length l < fuel)%nat ->
  (l <> [] -> zlen pre + zlen l <= jlim) -> zlen pre + zlen l < zlen rhn -> (forall n, len = Some n -> zlen pre + zlen l < n) ->
  copy_label fuel (pre ++ l ++ c :: x) len rhn (zlen pre) jlim = Ok (true, put rhn (zlen pre + 1) l, zlen pre + zlen l).
Proof.
  induction l as [|a l IH]; intros [|fuel] pre x len rhn jlim c Hc Hl Hf Hj Hr Hn; cbn [length] in *; try lia; cbn [copy_label].
  - assert (Hin : inside len (zlen pre) = true) by (destruct len as [n|]; cbn; [specialize (Hn n eq_refl); lia|done]). rewrite Hin. cbn [negb app].
    rewrite rd_mid. cbn [mbind res_bind]. replace ((c =? 0) || (c =? dot)) with true by (unfold dot in *; lia). by rewrite put_nil, Z.add_0_r by lia.
  - apply Forall_cons in Hl as [Ha Hl]. specialize (Hj ltac:(done)). assert (Hin : inside len (zlen pre) = true) by (destruct len as [n|]; cbn; [specialize (Hn n eq_refl); lia|done]).
    rewrite Hin. cbn [negb app]. rewrite rd_mid. cbn [mbind res_bind]. rewrite plain_not by done. replace (jlim <=? zlen pre) with false by lia.
    rewrite wr_ok by lia. cbn [mbind res_bind]. rewrite insert_put by lia.
    specialize (IH fuel (pre ++ [a]) x len (put rhn (zlen pre + 1) [a]) jlim c Hc Hl ltac:(lia)). rewrite length_app, length_put in IH by (cbn [length]; lia). cbn [length] in IH.
    rewrite <- app_assoc in IH. cbn [app] in IH. replace (Z.of_nat (length pre + 1)) with (zlen pre + 1) in IH by lia. rewrite IH by (try lia; intros n Hn'; specialize (Hn n Hn'); lia).
    f_equal. f_equal; [|lia]. f_equal. replace (zlen pre + 1 + 1) with (zlen pre + 1 + zlen [a]) by done. apply (put_app rhn _ [a] l); cbn [length]; lia.
Qed.

Lemma str2rhn_loop_ok ls : forall fuel pre x rhn, (length ls < fuel)%nat -> Forall label_ok ls -> Forall (Forall plain) ls ->
  zlen pre + zlen (enc ls) <= DNSNAMEBUFSIZE -> DNSNAMEBUFSIZE <= zlen rhn -> (pre = [] -> ls <> []) ->
  str2rhn_loop fuel (pre ++ dotted ls ++ 0 :: x) rhn (zlen pre) = Ok (1, put rhn (zlen pre) (enc ls)).
Proof.
  unfold DNSNAMEBUFSIZE. induction ls as [|l ls IH]; intros [|fuel] pre x rhn Hf Hok Hp Hsz Hr Hne; cbn [length] in *; try lia; cbn [str2rhn_loop]; unfold jlim_of, DNSNAMEBUFSIZE.
  - change (zlen (enc [])) with 1 in Hsz. change (dotted [] ++ 0 :: x) with ([] ++ 0 :: x).
    rewrite copy_label_ok; cbn [length]; [|by left|by apply List.Forall_nil|lia|done|lia|done]. cbn [mbind res_bind negb app]. rewrite Z.add_0_r, rd_mid. cbn [mbind res_bind Z.eqb].
    rewrite put_nil, wr_ok by lia. cbn [mbind res_bind]. rewrite insert_put by lia. destruct pre as [|a pre]; [by destruct (Hne eq_refl)|].
    rewrite (proj2 (Z.ltb_ge _ _)) by lia. replace (zlen (a :: pre) =? 0) with false by (cbn [length]; lia). done.
  - apply Forall_cons in Hok as [[Hl Hb] Hok]. apply Forall_cons in Hp as [Hpl Hp]. rewrite zlen_enc_cons in Hsz. pose proof (zlen_enc_pos ls).
    rewrite dotted_cons, <- app_assoc. cbn [app]. rewrite copy_label_ok; [|by right|done|lia|intros _; ccase; lia|lia|done]. cbn [mbind res_bind negb].
    rewrite (app_assoc pre l), rd_mid' by (rewrite length_app; lia). cbn [mbind res_bind]. replace (dot =? 0) with false by done.
    replace (zlen pre + zlen l <=? zlen pre) with false by lia. replace (zlen pre + zlen l - zlen pre) with (zlen l) by lia. rewrite u8_small by lia.
    rewrite wr_ok by (rewrite length_put; lia). cbn [mbind res_bind].
    specialize (IH fuel (pre ++ l ++ [dot]) x (<[Z.to_nat (zlen pre) := zlen l]> (put rhn (zlen pre + 1) l)) ltac:(lia) Hok Hp).
    rewrite length_insert, length_put in IH by lia. rewrite !length_app in IH. cbn [length] in IH.
    replace (Z.of_nat (length pre + (length l + 1))) with (zlen pre + zlen l + 1) in IH by lia.
    replace ((pre ++ l) ++ dot :: dotted ls ++ 0 :: x) with ((pre ++ l ++ [dot]) ++ dotted ls ++ 0 :: x) by (by rewrite <- !app_assoc).
    rewrite IH by (try lia; by destruct pre, l). f_equal. f_equal.
    assert (Hc : <[Z.to_nat (zlen pre) := zlen l]> (put rhn (zlen pre + 1) l) = put (<[Z.to_nat (zlen pre) := zlen l]> rhn) (zlen pre + 1) l).
    { apply bytes_ext; [by rewrite length_insert, !length_put, length_insert by (rewrite ?length_insert; lia)|]. rewrite length_insert, length_put by lia. intros i Hi.
      rewrite byte_at_insert by (rewrite ?length_put; lia). rewrite !byte_at_put by (rewrite ?length_insert; lia). rewrite byte_at_insert by lia. zcases. }
    rewrite Hc. replace (zlen pre + zlen l + 1) with (zlen pre + 1 + zlen l) by lia. apply (put_enc []); [lia|]. rewrite zlen_enc_cons. lia.
Qed.

(** * Printing *)
Lemma rhn2str_label_ok l : forall p x str size j, Forall plain l -> 0 <= j -> j + zlen l + 1 < size -> size <= zlen str ->
  rhn2str_label (length l) (p ++ l ++ x) str size (zlen p) j = Ok (true, put str j l, j + zlen l).
Proof.
  induction l as [|a l IH]; intros p x str size j Hl Hj Hs Hb; cbn [length rhn2str_label app]; [by rewrite put_nil, Z.add_0_r by lia|].
  apply Forall_cons in Hl as [[Hg He] Hl]. cbn [length] in Hs. replace (size <=? j + 2) with false by lia. rewrite rd_mid. cbn [mbind res_bind].
  rewrite Hg, He. cbn [mbind res_bind negb mret res_ret]. rewrite wr_ok by lia. cbn [mbind res_bind]. rewrite insert_put by lia.
  specialize (IH (p ++ [a]) x (put str j [a]) size (j + 1) Hl ltac:(lia) ltac:(lia)). rewrite length_put in IH by (cbn [length]; lia).
  rewrite length_app in IH. cbn [length] in IH. rewrite <- app_assoc in IH. cbn [app] in IH. replace (Z.of_nat (length p + 1)) with (zlen p + 1) in IH by lia.
  rewrite IH by lia. f_equal. f_equal; [|lia]. f_equal. replace (j + 1) with (j + zlen [a]) by done. apply (put_app str j [a] l); cbn [length]; lia.
Qed.
Lemma rhn2str_loop_ok ls : forall l fuel p x str size j, (length ls < fuel)%nat -> Forall label_ok (l :: ls) -> Forall (Forall plain) (l :: ls) ->
  0 <= j -> j + zlen (enc (l :: ls)) <= size -> size <= zlen str ->
  rhn2str_loop fuel (zlen l) (p ++ l ++ enc ls ++ x) str size (zlen p) j = Ok (put str j (dotted (l :: ls) ++ [0])).
Proof.
  induction ls as [|l' ls IH]; intros l [|fuel] p x str size j Hf Hok Hp Hj Hs Hb; try (cbn [length] in Hf; lia); cbn [rhn2str_loop];
    apply Forall_cons in Hok as [Hl Hok]; apply Forall_cons in Hp as [Hpl Hp]; rewrite zlen_enc_cons in Hs; rewrite Nat2Z.id; rewrite dotted_cons, <- app_assoc; cbn [app].
  - change (zlen (enc [])) with 1 in Hs. rewrite rhn2str_label_ok by (try done; lia). cbn [mbind res_bind negb]. rewrite wr_ok by (rewrite length_put; lia). cbn [mbind res_bind].
    change (enc [] ++ x) with (0 :: x). rewrite (app_assoc p l), rd_mid' by (rewrite length_app; lia). cbn [mbind res_bind Z.eqb].
    rewrite wr_ok by (rewrite length_insert, length_put; lia). f_equal. rewrite !insert_put by lens.
    rewrite (put_app str j l [dot]) by (cbn [length]; lia). replace (j + zlen l + 1) with (j + zlen (l ++ [dot])) by (rewrite length_app; cbn [length]; lia).
    rewrite put_app by lens. by rewrite <- app_assoc.
  - pose proof Hs as Hs'. rewrite zlen_enc_cons in Hs'. pose proof (zlen_enc_pos ls). rewrite rhn2str_label_ok by (try done; lia). cbn [mbind res_bind negb].
    rewrite wr_ok by (rewrite length_put; lia). cbn [mbind res_bind]. rewrite enc_cons. cbn [app]. rewrite (app_assoc p l), rd_mid' by (rewrite length_app; lia). cbn [mbind res_bind].
    replace (zlen l' =? 0) with false by (apply Forall_cons in Hok as [[? _] _]; lia).
    specialize (IH l' fuel ((p ++ l) ++ [zlen l']) x (<[Z.to_nat (j + zlen l) := dot]> (put str j l)) size (j + zlen l + 1) ltac:(cbn [length] in Hf; lia) Hok Hp ltac:(lia)).
    rewrite length_insert, length_put in IH by lia. rewrite !length_app in IH. cbn [length] in IH. rewrite <- !app_assoc in IH. cbn [app] in IH.
    replace (Z.of_nat (length p + length l + 1)) with (zlen p + zlen l + 1) in IH by lia. rewrite <- !app_assoc. rewrite IH by (rewrite ?zlen_enc_cons; lia).
    f_equal. rewrite insert_put by (rewrite length_put; lia). rewrite (put_app str j l [dot]) by (cbn [length]; lia).
    replace (j + zlen l + 1) with (j + zlen (l ++ [dot])) by (rewrite length_app; cbn [length]; lia). pose proof (length_dotted (l' :: ls)) as Hd.
    rewrite zlen_enc in Hs'. rewrite zlen_enc_cons, zlen_enc in Hs. rewrite put_app; [by rewrite <- app_assoc|lia|].
    rewrite !length_app, Hd, wire_cons. cbn [length]. rewrite length_app. lia.
Qed.

(** * Both *)

(** A name of printable labels that is printed into a buffer with room for it is
    its labels with dots, and is parsed back to the same name. *)
Theorem name_text_roundtrip (ls : list label) (x buf rhn : list Z) (size : Z) : plain_name ls ->
  2 <= size -> zlen (enc ls) <= size -> size <= zlen buf -> DNSNAMEBUFSIZE <= zlen rhn ->
  exists str, rhn2str (enc ls ++ x) buf size = Ok (Some str) /\ take (length (text_of ls) + 1) str = text_of ls ++ [0] /\
    str2rhn str rhn = Ok (1, put rhn 0 (enc ls)).
Proof.
  intros (Hok & Hp & Hsz) Hs Hsize Hb Hr. unfold rhn2str, str2rhn. replace (size =? 0) with false by lia.
  destruct ls as [|l ls].
  - change (enc [] ++ x) with ([] ++ 0 :: x). change 0 with (zlen (@nil Z)) at 1. rewrite rd_mid. cbn [mbind res_bind Z.eqb].
    replace (2 <=? size) with true by lia. rewrite wr_ok by lia. cbn [mbind res_bind]. rewrite wr_ok by lens. cbn [mbind res_bind].
    destruct buf as [|b0 [|b1 buf]]; cbn [length] in Hb; [lia..|]. change (<[Z.to_nat 1 := 0]> (<[Z.to_nat 0 := dot]> (b0 :: b1 :: buf))) with (dot :: 0 :: buf).
    eexists. split; [reflexivity|]. split; [cbn; by rewrite take_0|]. rewrite !rd_ok by (cbn [length]; lia). cbn -[wr Z.of_nat length]. unfold DNSNAMEBUFSIZE in Hr.
    rewrite wr_ok by lia. cbn [mbind res_bind]. by rewrite insert_put by lia.
  - pose proof (wire_lower _ Hok) as Hw. rewrite zlen_enc in Hsize, Hsz. assert (Hl := Hok). apply Forall_cons in Hl as [[Hl _] _].
    rewrite (enc_cons l). cbn [app]. assert (H0 : rd (zlen l :: (l ++ enc ls) ++ x) 0 = Ok (zlen l)) by apply (rd_mid []). rewrite H0.
    cbn [mbind res_bind]. replace (zlen l =? 0) with false by lia.
    replace (zlen l :: (l ++ enc ls) ++ x) with ([zlen l] ++ l ++ enc ls ++ x) by (cbn; by rewrite <- app_assoc).
    change 1 with (zlen [zlen l]) at 1. pose proof (zlen_enc (l :: ls)) as Hz.
    rewrite rhn2str_loop_ok; [|rewrite !length_app; pose proof (zlen_enc ls); rewrite wire_cons in Hw; cbn [length] in *; rewrite length_app in Hw; lia|done|done|lia|lia|done].
    cbn [mbind res_bind]. assert (Ht : zlen (dotted (l :: ls) ++ [0]) = zlen (enc (l :: ls))) by (rewrite length_app, length_dotted, Hz; cbn [length]; lia).
    assert (Hput : put buf 0 (dotted (l :: ls) ++ [0]) = (dotted (l :: ls) ++ [0]) ++ drop (length (dotted (l :: ls) ++ [0])) buf) by done.
    eexists. split; [reflexivity|]. change (text_of (l :: ls)) with (dotted (l :: ls)). rewrite Hput. split; [rewrite take_app_le, take_ge by (rewrite length_app; cbn [length]; lia); done|].
    rewrite <- app_assoc. cbn [app]. destruct l as [|c l]; [cbn [length] in Hl; lia|].
    assert (Hc : c =? dot = false) by (apply Forall_cons in Hp as [Hp _]; apply Forall_cons in Hp as [Hp _]; pose proof (plain_not c Hp); lia).
    set (D := drop _ buf). assert (Hrd : rd (dotted ((c :: l) :: ls) ++ 0 :: D) 0 = Ok c) by (rewrite dotted_cons; apply (rd_mid [])).
    rewrite Hrd. cbn [mbind res_bind]. rewrite Hc. cbn [mbind res_bind mret res_ret].
    rewrite <- enc_cons. apply (str2rhn_loop_ok ((c :: l) :: ls) _ []); [unfold DNSNAMEBUFSIZE in *; cbn [length] in *; lia|done|done|rewrite zlen_enc; cbn [length]; lia|done|done].
Qed.

Example text_of_name : let www := map chars ["www"; "example"; "org"]%string in
  rhn2str (enc www) (replicate 40 255) 40 = Ok (Some (chars "www.example.org." ++ [0] ++ replicate 23 255)) /\
  str2rhn (chars "www.example.org." ++ [0]) (replicate 256 0) = Ok (1, put (replicate 256 0) 0 (enc www)).
Proof. vm_compute. auto. Qed.
