(* ===== verification/DnsStore.v ===== *)
(** Entries of pdnsd's cache (cache.c, cache.h, rr_types.h): the memory they are in,
    the list of record sets by age, and the functions that build, copy and release an
    entry.

    [time_t] and sizes are integers without bound: times stay far from 2^63, and the
    sizes are those of objects that exist together. *)
From S2P Require Import Prelude CLib Rhn.

(** * rr_types.h *)
Definition T_MIN : Z := 1.
Definition T_NUM : Z := 51.
Definition NRRMU : Z := 8.
Definition NRREXT : Z := 39.
Definition NRRTOT : Z := 47.
Definition T_A : Z := 1.
Definition T_PTR : Z := 12.
Definition T_AAAA : Z := 28.
Definition RRMUINDEX_A : Z := 0.
Definition RRMUINDEX_NS : Z := 1.
Definition RRMUINDEX_SOA : Z := 3.
Definition RRMUINDEX_AAAA : Z := 7.
Definition rrlkuptab : list Z :=
  [0; 1; 8; 9; 2; 3; 10; 11; 12; 13; 14; 4; 15; 16; 5; 6; 17; 18; 19; 20; 21; 22; 23; 24; 25; 26; 27; 7; 28; 29; 30; 31; 32;
   33; 34; 35; 36; 47; 48; 49; 50; 37; 38; 39; 40; 41; 42; 43; 44; 45; 46].
Definition RRCL_ALIAS : Z := 1.
Definition RRCL_RECORD : Z := 2.
Definition RRCL_IDEM : Z := 4.
Definition RRCL_PTR : Z := 8.
Definition RRX_ALIAS : Z := Z.lor RRCL_RECORD RRCL_PTR.
Definition RRX_RECORD : Z := Z.lor RRCL_ALIAS RRCL_PTR.
Definition RRX_IDEM : Z := 0.
Definition RRX_PTR : Z := Z.lor RRCL_ALIAS RRCL_RECORD.
(** class, excludes *)
Definition rr_info : list (Z * Z) :=
  let r := (RRCL_RECORD, RRX_RECORD) in let i := (RRCL_IDEM, RRX_IDEM) in
  let a := (RRCL_ALIAS, RRX_ALIAS) in let p := (RRCL_PTR, RRX_PTR) in
  [r; i; a; i; p; i; i; r; i; i; i; i; i; i; r; r; i; r; r; r; r; r; r; p; i; i; i; r; r; i; r; r; i; r; i; r; r; i; i; i; i; i; i; i; i; i; i].

(** * cache.h *)
Definition cundef : Z := 255.
Definition CF_NEGATIVE : Z := 1.
Definition CF_LOCAL : Z := 2.
Definition CF_AUTH : Z := 4.
Definition CF_NOCACHE : Z := 8.
Definition CF_ADDITIONAL : Z := 16.
Definition CF_NOPURGE : Z := 32.
Definition CF_ROOTSERV : Z := 64.
Definition DF_NEGATIVE : Z := 1.
Definition DF_LOCAL : Z := 2.
Definition DF_AUTH : Z := 4.
Definition DF_NOCACHE : Z := 8.
Definition DF_WILD : Z := 16.
(** [flags&f], and [flags &= ~f] on an [unsigned short] *)
Definition has (flags f : Z) : bool := negb (Z.land flags f =? 0).
Definition drop_flag (flags f : Z) : Z := Z.land flags (65535 - f).
Definition CACHE_LAT : Z := 120.
Definition CLAT_ADJ (ttl : Z) : Z := if ttl <? CACHE_LAT then CACHE_LAT else ttl.

(** The sizes of the structures on a 64-bit machine. *)
Definition sizeof_ptr : Z := 8.
Definition sizeof_rr_bucket_t : Z := 16.
Definition sizeof_rr_set_t : Z := 40.
Definition sizeof_dns_cent_t : Z := 104.

(** A record set; the chain [rrs] of [rr_bucket_t] is the list of its data, with
    [rdlen] the length of each. *)
Record rr_set_t : Type := RrSet { lent : option positive; ttl : Z; ts : Z; rflags : Z; rrs : list (list Z) }.
(** The union of [dns_cent_t]; reading the side that was not written last is a fault. *)
Inductive sides : Type :=
  | Neg (nlent : option positive) (nttl nts : Z)
  | Rr (rrmu : list (option positive)) (rrext : option (list (option positive))).
Record dns_cent_t : Type := Cent { qname : list Z; cs : Z; num_rrs : Z; flags : Z; side : sides; c_ns : Z; c_soa : Z }.
(** * cache.c *)
Record rr_lent_t : Type := Lent { next : option positive; prev : option positive; rrset : option positive; cent : positive; idx : Z }.
(** hash.h *)
Record dns_hash_ent_t : Type := HashEnt { rhash : Z; data : positive }.

(** What the system answers, in order: whether [malloc] has memory, and the time.
    [min_ttl], [max_ttl], [neg_ttl], [perm_cache] are those of [global]. *)
Record environ : Type := Environ {
  memory : nat -> bool; clock : nat -> Z;
  min_ttl : Z; max_ttl : Z; neg_ttl : Z; perm_cache : Z
}.
(** The objects in memory by address; addresses are not used twice, so that a use
    of freed memory is seen as such. *)
Record cache : Type := Cache {
  env : environ; asked : nat; brk : positive;
  lents : gmap positive rr_lent_t; rrsets : gmap positive rr_set_t; cents : gmap positive dns_cent_t;
  rrset_l : option positive; rrset_l_tail : option positive;
  hash_buckets : gmap Z (list dns_hash_ent_t);
  cache_size : Z; ent_num : Z; insert_sort : bool
}.
Definition mk_dns_hash (e : environ) : cache := Cache e 0 1 ∅ ∅ ∅ None None ∅ 0 0 true.

Definition cm (A : Type) : Type := cache -> res (A * cache).
#[export] Instance cm_ret : MRet cm := fun A a s => Ok (a, s).
#[export] Instance cm_bind : MBind cm := fun A B f m s => match m s with Ok (a, s') => f a s' | Fault e => Fault e end.
Definition fail {A} (e : fault) : cm A := fun _ => Fault e.
Definition lift {A} (r : res A) : cm A := fun s => match r with Ok a => Ok (a, s) | Fault e => Fault e end.
Definition gets {A} (f : cache -> A) : cm A := fun s => Ok (f s, s).
Definition sets (f : cache -> cache) : cm unit := fun s => Ok (tt, f s).

Definition set_asked n s := Cache (env s) n (brk s) (lents s) (rrsets s) (cents s) (rrset_l s) (rrset_l_tail s) (hash_buckets s) (cache_size s) (ent_num s) (insert_sort s).
Definition set_brk b s := Cache (env s) (asked s) b (lents s) (rrsets s) (cents s) (rrset_l s) (rrset_l_tail s) (hash_buckets s) (cache_size s) (ent_num s) (insert_sort s).
Definition set_lents m s := Cache (env s) (asked s) (brk s) m (rrsets s) (cents s) (rrset_l s) (rrset_l_tail s) (hash_buckets s) (cache_size s) (ent_num s) (insert_sort s).
Definition set_rrsets m s := Cache (env s) (asked s) (brk s) (lents s) m (cents s) (rrset_l s) (rrset_l_tail s) (hash_buckets s) (cache_size s) (ent_num s) (insert_sort s).
Definition set_cents m s := Cache (env s) (asked s) (brk s) (lents s) (rrsets s) m (rrset_l s) (rrset_l_tail s) (hash_buckets s) (cache_size s) (ent_num s) (insert_sort s).
Definition set_ends h t s := Cache (env s) (asked s) (brk s) (lents s) (rrsets s) (cents s) h t (hash_buckets s) (cache_size s) (ent_num s) (insert_sort s).
Definition set_buckets m s := Cache (env s) (asked s) (brk s) (lents s) (rrsets s) (cents s) (rrset_l s) (rrset_l_tail s) m (cache_size s) (ent_num s) (insert_sort s).
Definition set_size n s := Cache (env s) (asked s) (brk s) (lents s) (rrsets s) (cents s) (rrset_l s) (rrset_l_tail s) (hash_buckets s) n (ent_num s) (insert_sort s).
Definition set_num n s := Cache (env s) (asked s) (brk s) (lents s) (rrsets s) (cents s) (rrset_l s) (rrset_l_tail s) (hash_buckets s) (cache_size s) n (insert_sort s).
Definition set_sort b s := Cache (env s) (asked s) (brk s) (lents s) (rrsets s) (cents s) (rrset_l s) (rrset_l_tail s) (hash_buckets s) (cache_size s) (ent_num s) b.

(** [malloc] returns memory, or NULL; [time(NULL)]. *)
Definition malloc : cm bool := fun s => Ok (memory (env s) (asked s), set_asked (S (asked s)) s).
Definition time : cm Z := fun s => Ok (clock (env s) (asked s), set_asked (S (asked s)) s).
Definition new_address : cm positive := p ← gets brk; _ ← sets (set_brk (Pos.succ p)); mret p.

Definition found {A} (o : option A) : cm A := match o with Some a => mret a | None => fail Stale end.
Definition get_lent (p : positive) : cm rr_lent_t := m ← gets lents; found (m !! p).
Definition get_set (p : positive) : cm rr_set_t := m ← gets rrsets; found (m !! p).
Definition get_cent (p : positive) : cm dns_cent_t := m ← gets cents; found (m !! p).
Definition put_lent (p : positive) (l : rr_lent_t) : cm unit := m ← gets lents; _ ← found (m !! p); sets (set_lents (<[p := l]> m)).
Definition put_set (p : positive) (r : rr_set_t) : cm unit := m ← gets rrsets; _ ← found (m !! p); sets (set_rrsets (<[p := r]> m)).
Definition put_cent (p : positive) (c : dns_cent_t) : cm unit := m ← gets cents; _ ← found (m !! p); sets (set_cents (<[p := c]> m)).
Definition free_lent (p : positive) : cm unit := m ← gets lents; _ ← found (m !! p); sets (set_lents (delete p m)).
Definition free_set (p : positive) : cm unit := m ← gets rrsets; _ ← found (m !! p); sets (set_rrsets (delete p m)).
Definition free (p : positive) : cm unit := m ← gets cents; _ ← found (m !! p); sets (set_cents (delete p m)).
Definition add_size (n : Z) : cm unit := z ← gets cache_size; sets (set_size (z + n)).

(** The fields of an entry that are assigned. *)
Definition with_cs n c := Cent (qname c) n (num_rrs c) (flags c) (side c) (c_ns c) (c_soa c).
Definition with_num n c := Cent (qname c) (cs c) n (flags c) (side c) (c_ns c) (c_soa c).
Definition with_flags f c := Cent (qname c) (cs c) (num_rrs c) f (side c) (c_ns c) (c_soa c).
Definition with_side b c := Cent (qname c) (cs c) (num_rrs c) (flags c) b (c_ns c) (c_soa c).
Definition with_cns n c := Cent (qname c) (cs c) (num_rrs c) (flags c) (side c) n (c_soa c).
Definition with_csoa n c := Cent (qname c) (cs c) (num_rrs c) (flags c) (side c) (c_ns c) n.
Definition update (p : positive) (f : dns_cent_t -> dns_cent_t) : cm unit := c ← get_cent p; put_cent p (f c).
Definition with_lent l r := RrSet l (ttl r) (ts r) (rflags r) (rrs r).
Definition with_ttl n r := RrSet (lent r) n (ts r) (rflags r) (rrs r).
Definition with_ts n r := RrSet (lent r) (ttl r) n (rflags r) (rrs r).
Definition with_rflags f r := RrSet (lent r) (ttl r) (ts r) f (rrs r).
Definition with_rrs l r := RrSet (lent r) (ttl r) (ts r) (rflags r) l.

Definition nth_ptr (l : list (option positive)) (i : Z) : res (option positive) :=
  if 0 <=? i then match l !! Z.to_nat i with Some x => Ok x | None => Fault OutOfBounds end else Fault OutOfBounds.
Definition set_ptr (l : list (option positive)) (i : Z) (x : option positive) : res (list (option positive)) :=
  if (0 <=? i) && (i <? zlen l) then Ok (<[Z.to_nat i := x]> l) else Fault OutOfBounds.
Definition negative (c : dns_cent_t) : bool := has (flags c) DF_NEGATIVE.
Definition the_rr (c : dns_cent_t) : res (list (option positive) * option (list (option positive))) :=
  match side c with Rr mu ext => Ok (mu, ext) | Neg _ _ _ => Fault BadCast end.
Definition the_neg (c : dns_cent_t) : res (option positive * Z * Z) :=
  match side c with Neg l t s => Ok (l, t, s) | Rr _ _ => Fault BadCast end.

(** ** The macros and inline functions of cache.h *)
Definition timedout (r : rr_set_t) : cm bool := now ← time; mret (ts r + CLAT_ADJ (ttl r) <? now).
Definition timedout_nxdom (c : dns_cent_t) : cm bool :=
  '(_, t, s) ← lift (the_neg c); now ← time; mret (s + CLAT_ADJ t <? now).
Definition RRARR_LEN (c : dns_cent_t) : res Z :=
  if negative c then Ok 0 else '(_, ext) ← the_rr c; mret (match ext with Some _ => NRRTOT | None => NRRMU end).
Definition RRARR_INDEX_TESTEXT (c : dns_cent_t) (i : Z) : res (option positive) :=
  if negative c then Ok None else
  '(mu, ext) ← the_rr c;
  if i <? NRRMU then nth_ptr mu i else match ext with Some e => nth_ptr e (i - NRRMU) | None => Ok None end.
Definition RRARR_INDEX (c : dns_cent_t) (i : Z) : res (option positive) :=
  '(mu, ext) ← the_rr c;
  if i <? NRRMU then nth_ptr mu i else match ext with Some e => nth_ptr e (i - NRRMU) | None => Fault NullDeref end.
(** An assignment through [RRARR_INDEX_PA]. *)
Definition RRARR_INDEX_SET (c : dns_cent_t) (i : Z) (x : option positive) : res dns_cent_t :=
  '(mu, ext) ← the_rr c;
  if i <? NRRMU then mu ← set_ptr mu i x; mret (with_side (Rr mu ext) c)
  else match ext with
       | Some e => e ← set_ptr e (i - NRRMU) x; mret (with_side (Rr mu (Some e)) c)
       | None => Fault NullDeref
       end.
Definition GET_RRSMU (c : dns_cent_t) (i : Z) : res (option positive) :=
  if negative c then Ok None else '(mu, _) ← the_rr c; nth_ptr mu i.
Definition getrrset (c : dns_cent_t) (type : Z) : res (option positive) :=
  if negative c then Ok None else
  let tpi := type - T_MIN in
  if negb ((0 <=? tpi) && (tpi <? T_NUM)) then Ok None else
  i ← rd rrlkuptab tpi;
  if i <? NRRMU then '(mu, _) ← the_rr c; nth_ptr mu i
  else
    let i := i - NRRMU in
    if i <? NRREXT then '(_, ext) ← the_rr c; match ext with Some e => nth_ptr e i | None => Ok None end
    else Ok None.
Definition getrrset_eff (c : dns_cent_t) (type : Z) : res (option positive) :=
  i ← rd rrlkuptab (type - T_MIN);
  '(mu, ext) ← the_rr c;
  if i <? NRRMU then nth_ptr mu i
  else
    let i := i - NRRMU in
    if i <? NRREXT then match ext with Some e => nth_ptr e i | None => Ok None end else Ok None.
Definition have_rr (c : dns_cent_t) (type : Z) : cm bool :=
  if negative c then mret false else
  o ← lift (getrrset_eff c type);
  match o with None => mret false | Some r => x ← get_set r; mret (negb (bool_decide (rrs x = []))) end.

Definition is_some {A} (o : option A) : bool := match o with Some _ => true | None => false end.
(** A [for] loop over [i], [i+1], ..., [n] of them. *)
Fixpoint for_range (n : nat) (i : Z) (f : Z -> cm unit) : cm unit :=
  match n with O => mret tt | S n => _ ← f i; for_range n (i + 1) f end.
