(* ===== verification/DnsCents.v ===== *)
(** pdnsd's cache.c: the list of record sets by age, and building, copying and
    releasing an entry. *)
From S2P Require Import Prelude CLib Rhn DnsStore.

(** * The list [rrset_l] *)
Definition get_rrlent_ts (le : positive) : cm Z :=
  e ← get_lent le;
  match rrset e with
  | Some r => x ← get_set r; mret (ts x)
  | None => c ← get_cent (cent e); '(_, _, s) ← lift (the_neg c); mret s
  end.
Definition with_next n e := Lent n (prev e) (rrset e) (cent e) (idx e).
Definition with_prev n e := Lent (next e) n (rrset e) (cent e) (idx e).
Definition set_next (p : positive) (n : option positive) : cm unit := e ← get_lent p; put_lent p (with_next n e).
Definition set_prev (p : positive) (n : option positive) : cm unit := e ← get_lent p; put_lent p (with_prev n e).

(** The search from the end for the place of a timestamp; a list without a cycle has
    at most as many entries as there are. *)
Fixpoint find_place (fuel : nat) (t : Z) (le : option positive) : cm (option positive) :=
  match le with
  | None => mret None
  | Some a =>
      match fuel with
      | O => fail OutOfFuel
      | S fuel =>
          t' ← get_rrlent_ts a;
          if t' <=? t then mret (Some a) else e ← get_lent a; find_place fuel t (prev e)
      end
  end.
Definition insert_rrl (rrs : option positive) (ce : positive) (i : Z) : cm bool :=
  c ← get_cent ce;
  loc ← (match rrs with None => mret false | Some r => x ← get_set r; mret (has (rflags x) CF_LOCAL) end : cm bool);
  if loc || has (flags c) DF_LOCAL then mret true else
  ok ← malloc;
  if negb ok then mret false else
  ne ← new_address;
  m ← gets lents;
  _ ← sets (set_lents (<[ne := Lent None None rrs ce i]> m));
  h ← gets rrset_l;
  t ← gets rrset_l_tail;
  sorting ← gets insert_sort;
  _ ← (if sorting : bool then
         time_ ← get_rrlent_ts ne;
         le ← find_place (size m) time_ t;
         match le with
         | None =>
             _ ← set_next ne h;
             _ ← (match h with Some x => set_prev x (Some ne) | None => sets (set_ends h (Some ne)) end : cm unit);
             t ← gets rrset_l_tail;
             sets (set_ends (Some ne) t)
         | Some le =>
             e ← get_lent le;
             _ ← set_next ne (next e);
             _ ← set_prev ne (Some le);
             _ ← (match next e with Some x => set_prev x (Some ne) | None => sets (set_ends h (Some ne)) end : cm unit);
             set_next le (Some ne)
         end
       else
         _ ← set_prev ne t;
         _ ← (match t with Some x => set_next x (Some ne) | None => sets (set_ends (Some ne) t) end : cm unit);
         h ← gets rrset_l;
         sets (set_ends h (Some ne)) : cm unit);
  _ ← (match rrs with
       | Some r => x ← get_set r; put_set r (with_lent (Some ne) x)
       | None => c ← get_cent ce; '(_, t, s) ← lift (the_neg c); put_cent ce (with_side (Neg (Some ne) t s) c)
       end : cm unit);
  mret true.

Definition remove_rrl (le : positive) : cm unit :=
  e ← get_lent le;
  h ← gets rrset_l;
  _ ← (match next e with Some n => set_prev n (prev e) | None => sets (set_ends h (prev e)) end : cm unit);
  t ← gets rrset_l_tail;
  _ ← (match prev e with Some p => set_next p (next e) | None => sets (set_ends (next e) t) end : cm unit);
  free_lent le.

(** [listmerge]: [s] is the link that is written next, [None] for the local [l]. *)
Fixpoint merge_loop (fuel : nat) (l : option positive) (s : option positive) (p q : positive) : cm (option positive) :=
  match fuel with
  | O => fail OutOfFuel
  | S fuel =>
      tp ← get_rrlent_ts p;
      tq ← get_rrlent_ts q;
      let first := tp <=? tq in
      let x := if first then p else q in
      let other := if first then q else p in
      l ← (match s with None => mret (Some x) | Some a => _ ← set_next a (Some x); mret l end : cm (option positive));
      e ← get_lent x;
      match next e with
      | None => _ ← set_next x (Some other); mret l
      | Some n => if first then merge_loop fuel l (Some x) n q else merge_loop fuel l (Some x) p n
      end
  end.
Definition listmerge (p q : option positive) : cm (option positive) :=
  match p, q with
  | None, _ => mret q
  | _, None => mret p
  | Some p, Some q => n ← gets lents; merge_loop (size n) None None p q
  end.

Definition NTMPSORT : Z := 32.
(** The [for] loop over [tmp]: [tmp] is the part from [counter] to [fill], [pos] the
    index of [counter]; the result is that part when [carry] has been stored. *)
Fixpoint carry_loop (tmp : list (option positive)) (pos : Z) (carry : option positive) : cm (list (option positive)) :=
  match tmp with
  | Some x :: tmp =>
      carry ← listmerge (Some x) carry;
      tmp ← carry_loop tmp (pos + 1) carry;
      mret (None :: tmp)
  | None :: tmp => mret (carry :: tmp)
  | [] => _ ← lift (PDNSD_ASSERT (negb (pos =? NTMPSORT))); mret [carry]
  end.
Fixpoint split_loop (fuel : nat) (rem : positive) (tmp : list (option positive)) : cm (list (option positive)) :=
  match fuel with
  | O => fail OutOfFuel
  | S fuel =>
      e ← get_lent rem;
      _ ← set_next rem None;
      tmp ← carry_loop tmp 0 (Some rem);
      match next e with None => mret tmp | Some r => split_loop fuel r tmp end
  end.
Fixpoint collect_loop (tmp : list (option positive)) (carry : option positive) : cm (option positive) :=
  match tmp with [] => mret carry | x :: tmp => carry ← listmerge x carry; collect_loop tmp carry end.
Fixpoint restore_loop (fuel : nat) (p q : option positive) : cm (option positive) :=
  match p with
  | None => mret q
  | Some a =>
      match fuel with
      | O => fail OutOfFuel
      | S fuel => _ ← set_prev a q; e ← get_lent a; restore_loop fuel (next e) (Some a)
      end
  end.
Definition sort_rrl : cm unit :=
  h ← gets rrset_l;
  match h with
  | None => mret tt
  | Some x =>
      e ← get_lent x;
      match next e with
      | None => mret tt
      | Some _ =>
          n ← gets lents;
          tmp ← split_loop (size n) x [];
          carry ← collect_loop (tl tmp) (default None (head tmp));
          t ← gets rrset_l_tail;
          _ ← sets (set_ends carry t);
          t ← restore_loop (size n) carry None;
          sets (set_ends carry t)
      end
  end.

(** * Entries *)
Definition init_cent (ce : positive) (name : list Z) (ttl ts flags : Z) : cm bool :=
  namesz ← lift (rhnlen name);
  ok ← malloc;
  if negb ok then mret false else
  q ← lift (rdn name 0 namesz);
  _ ← put_cent ce (Cent q (sizeof_dns_cent_t + namesz) 0 (u16 flags)
         (if has flags DF_NEGATIVE then Neg None ttl ts else Rr (replicate (Z.to_nat NRRMU) None) None) cundef cundef);
  mret true.

(** The bytes of the record, or NULL. *)
Definition create_rr (data : list Z) : cm (option (list Z)) := ok ← malloc; mret (if ok : bool then Some data else None).

Definition add_cent_rrset_by_index (ce : positive) (i ttl ts flags_ : Z) : cm bool :=
  c ← get_cent ce;
  _ ← (if negative c then
         '(l, _, _) ← lift (the_neg c);
         _ ← (match l with Some le => remove_rrl le | None => mret tt end : cm unit);
         update ce (fun c => with_side (Rr (replicate (Z.to_nat NRRMU) None) None) (with_flags (drop_flag (flags c) DF_NEGATIVE) c))
       else mret tt : cm unit);
  c ← get_cent ce;
  '(mu, ext) ← lift (the_rr c);
  room ← (if i <? NRRMU then mret true
          else
            _ ← lift (PDNSD_ASSERT ((NRRMU <=? i) && (i - NRRMU <? NRREXT)));
            match ext with
            | Some _ => mret true
            | None =>
                ok ← malloc;
                if negb ok then mret false else
                _ ← put_cent ce (with_cs (cs c + sizeof_ptr * NRREXT) (with_side (Rr mu (Some (replicate (Z.to_nat NRREXT) None))) c));
                mret true
            end : cm bool);
  if negb room then mret false else
  ok ← malloc;
  if negb ok then
    c ← get_cent ce;
    c ← lift (RRARR_INDEX_SET c i None);
    _ ← put_cent ce c;
    mret false
  else
  r ← new_address;
  m ← gets rrsets;
  _ ← sets (set_rrsets (<[r := RrSet None ttl ts flags_ []]> m));
  c ← get_cent ce;
  c ← lift (RRARR_INDEX_SET c i (Some r));
  _ ← put_cent ce (with_num (u16 (num_rrs c + 1)) (with_cs (cs c + sizeof_rr_set_t) c));
  mret true.
Definition add_cent_rrset_by_type (ce : positive) (type ttl ts flags_ : Z) : cm bool :=
  let tpi := type - T_MIN in
  _ ← lift (PDNSD_ASSERT ((0 <=? tpi) && (tpi <? T_NUM)));
  i ← lift (rd rrlkuptab tpi);
  add_cent_rrset_by_index ce i ttl ts flags_.

(** [rtail]: [None] where the pointer is NULL, else the record it points to, by its
    position in the chain of the set. *)
Definition add_cent_rr_int (ce : positive) (i ttl ts flags_ : Z) (data : list Z) (rtail : option nat) : cm (bool * option nat) :=
  rr ← create_rr data;
  match rr with
  | None => mret (false, rtail)
  | Some rr =>
      c ← get_cent ce;
      o ← lift (RRARR_INDEX_TESTEXT c i);
      ok ← (match rtail, o with
            | None, None => add_cent_rrset_by_index ce i ttl ts flags_
            | _, _ => mret true
            end : cm bool);
      if negb ok then mret (false, rtail) else
      c ← get_cent ce;
      o ← lift (RRARR_INDEX c i);
      r ← lift (match o with Some r => Ok r | None => Fault NullDeref end);
      x ← get_set r;
      '(l, pos) ← lift (match rtail with
                        | None => Ok (rr :: rrs x, O)
                        | Some k => if (k <? length (rrs x))%nat then Ok (take (S k) (rrs x) ++ rr :: drop (S k) (rrs x), S k) else Fault Stale
                        end);
      _ ← put_set r (with_rrs l x);
      _ ← put_cent ce (with_cs (cs c + (sizeof_rr_bucket_t + zlen rr)) c);
      mret (true, Some pos)
  end.

Definition add_cent_rr (ce : positive) (type ttl_ ts flags_ : Z) (data : list Z) : cm bool :=
  c ← get_cent ce;
  if has (flags c) DF_LOCAL && negb (has flags_ CF_LOCAL) then mret true else
  let tpi := type - T_MIN in
  _ ← lift (PDNSD_ASSERT ((0 <=? tpi) && (tpi <? T_NUM)));
  i ← lift (rd rrlkuptab tpi);
  _ ← lift (PDNSD_ASSERT (i <? NRRTOT));
  o ← lift (RRARR_INDEX_TESTEXT c i);
  match o with
  | None => '(ok, _) ← add_cent_rr_int ce i ttl_ ts flags_ data None; mret ok
  | Some r =>
      x ← get_set r;
      let x := if ttl_ <? ttl x then with_ttl ttl_ x else x in
      _ ← put_set r x;
      if bool_decide (data ∈ rrs x) then mret true else
      '(ok, _) ← add_cent_rr_int ce i ttl_ ts flags_ data (match rrs x with [] => None | l => Some (length l - 1)%nat end);
      mret ok
  end.

Definition rr_size (l : list (list Z)) : Z := foldr (fun d n => sizeof_rr_bucket_t + zlen d + n) 0 l.
Definition del_rrset (r : positive) : cm Z :=
  x ← get_set r;
  _ ← (match lent x with Some le => remove_rrl le | None => mret tt end : cm unit);
  _ ← free_set r;
  mret (sizeof_rr_set_t + rr_size (rrs x)).

Definition del_cent_rrset_by_index (ce : positive) (i : Z) : cm Z :=
  c ← get_cent ce;
  o ← lift (RRARR_INDEX_TESTEXT c i);
  match o with
  | None => mret 0
  | Some r =>
      rv ← del_rrset r;
      c ← get_cent ce;
      c ← lift (RRARR_INDEX_SET c i None);
      _ ← put_cent ce (with_flags (drop_flag (flags c) DF_AUTH) (with_cs (cs c - rv) (with_num (u16 (num_rrs c - 1)) c)));
      mret rv
  end.

(** The loops of [free_cent] and [negate_cent] over an array; the sum of what
    [del_rrset] returns. *)
Fixpoint del_rrsets (l : list (option positive)) : cm Z :=
  match l with
  | [] => mret 0
  | o :: l =>
      n ← (match o with Some r => del_rrset r | None => mret 0 end : cm Z);
      m ← del_rrsets l;
      mret (n + m)
  end.
Definition del_arrays (mu : list (option positive)) (ext : option (list (option positive))) : cm Z :=
  n ← del_rrsets mu;
  m ← (match ext with Some e => del_rrsets e | None => mret 0 end : cm Z);
  mret (n + m).
Definition free_cent (ce : positive) : cm unit :=
  c ← get_cent ce;
  if negative c then
    '(l, _, _) ← lift (the_neg c);
    match l with Some le => remove_rrl le | None => mret tt end
  else
    '(mu, ext) ← lift (the_rr c);
    _ ← del_arrays mu ext;
    mret tt.
Definition negate_cent (ce : positive) (ttl ts : Z) : cm unit :=
  c ← get_cent ce;
  _ ← (if negb (negative c) then
         '(mu, ext) ← lift (the_rr c);
         n ← del_arrays mu ext;
         let m := match ext with Some _ => sizeof_ptr * NRREXT | None => 0 end in
         update ce (fun c => with_side (Neg None ttl ts) (with_flags (Z.lor (flags c) DF_NEGATIVE) (with_num 0 (with_cs (cs c - n - m) c))))
       else mret tt : cm unit);
  c ← get_cent ce;
  '(l, _, _) ← lift (the_neg c);
  put_cent ce (with_side (Neg l ttl ts) c).

(** * Copies *)

(** The chain of copies as far as there was memory, and whether that was the end. *)
Fixpoint copy_rrs (l : list (list Z)) : cm (bool * list (list Z)) :=
  match l with
  | [] => mret (true, [])
  | rr :: l =>
      ok ← malloc;
      if negb ok then mret (false, []) else
      '(ok, l) ← copy_rrs l;
      mret (ok, rr :: l)
  end.
Definition copy_rrset (r : positive) : cm (option positive) :=
  ok ← malloc;
  if negb ok then mret None else
  x ← get_set r;
  '(ok, l) ← copy_rrs (rrs x);
  rc ← new_address;
  m ← gets rrsets;
  _ ← sets (set_rrsets (<[rc := with_rrs l (with_lent None x)]> m));
  if ok : bool then mret (Some rc) else _ ← del_rrset rc; mret None.

(** The loop over the sets, [n] of them from index [i] on. *)
Fixpoint copy_sets (n : nat) (i : Z) (ce copy : positive) : cm bool :=
  match n with
  | O => mret true
  | S n =>
      c ← get_cent ce;
      o ← lift (RRARR_INDEX c i);
      match o with
      | None => copy_sets n (i + 1) ce copy
      | Some r =>
          ok ← malloc;
          if negb ok then
            d ← get_cent copy;
            d ← lift (RRARR_INDEX_SET d i None);
            _ ← put_cent copy d;
            mret false
          else
          x ← get_set r;
          '(ok, l) ← copy_rrs (rrs x);
          rc ← new_address;
          m ← gets rrsets;
          _ ← sets (set_rrsets (<[rc := with_rrs l (with_lent None x)]> m));
          d ← get_cent copy;
          d ← lift (RRARR_INDEX_SET d i (Some rc));
          _ ← put_cent copy d;
          if ok : bool then copy_sets n (i + 1) ce copy else mret false
      end
  end.
Definition copy_cent (ce : positive) : cm (option positive) :=
  ok ← malloc;
  if negb ok then mret None else
  c ← get_cent ce;
  namesz ← lift (rhnlen (qname c));
  ok ← malloc;
  if negb ok then mret None else
  name ← lift (rdn (qname c) 0 namesz);
  copy ← new_address;
  m ← gets cents;
  side_ ← lift (if negative c then '(_, t, s) ← the_neg c; mret (Neg None t s) else mret (Rr (replicate (Z.to_nat NRRMU) None) None));
  _ ← sets (set_cents (<[copy := Cent name (cs c) (num_rrs c) (flags c) side_ (c_ns c) (c_soa c)]> m));
  if negative c then mret (Some copy) else
  '(_, ext) ← lift (the_rr c);
  ok ← (match ext with
        | None => copy_sets (Z.to_nat NRRMU) 0 ce copy
        | Some _ =>
            ok ← malloc;
            if negb ok then mret false else
            _ ← update copy (with_side (Rr (replicate (Z.to_nat NRRMU) None) (Some (replicate (Z.to_nat NRREXT) None))));
            copy_sets (Z.to_nat NRRTOT) 0 ce copy
        end : cm bool);
  if ok : bool then mret (Some copy) else
  _ ← free_cent copy;
  _ ← free copy;
  mret None.
