(* ===== verification/DnsHash.v ===== *)
(** pdnsd's hash table of cache entries by name (hash.c). *)
From S2P Require Import Prelude CLib Rhn DnsName DnsStore DnsCents.

Definition HASH_SZ : Z := 10.
Definition HASH_NUM_BUCKETS : Z := Z.shiftl 1 HASH_SZ.
Definition HASH_BITMASK : Z := HASH_NUM_BUCKETS - 1.

(** The [do] loop of [dns_hash]: [lb] characters from [i] on. *)
Definition hash_in (s r i c : Z) : Z * Z :=
  (u32 (s + Z.shiftl c (i mod (HASH_SZ - 5))), size_t (r + Z.shiftl c (i mod (8 * 8 - 7)))).
Fixpoint hash_label (lb : nat) (str : list Z) (s r i : Z) : res (Z * Z) :=
  match lb with
  | O => mret (s, r)
  | S lb => c ← rd str i; let '(s, r) := hash_in s r i (toupper c) in hash_label lb str s r (i + 1)
  end.
Fixpoint hash_loop (fuel : nat) (str : list Z) (s r i : Z) : res (Z * Z) :=
  match fuel with
  | O => Fault OutOfFuel
  | S fuel =>
      lb ← rd str i;
      if lb =? 0 then mret (s, r) else
      let '(s, r) := hash_in s r i lb in
      '(s, r) ← hash_label (Z.to_nat lb) str s r (i + 1);
      hash_loop fuel str s r (i + 1 + lb)
  end.
Definition hash_fold (s : Z) : Z := Z.land s HASH_BITMASK + Z.shiftr (Z.land s (UINT_MAX - HASH_BITMASK)) HASH_SZ.
(** The bucket and the long hash. *)
Definition dns_hash (str : list Z) : res (Z * Z) :=
  '(s, r) ← hash_loop (length str) str 0 0 0;
  mret (Z.land (hash_fold (hash_fold s)) HASH_BITMASK, r).

(** A place in the table: the bucket and how many entries precede it. *)
Record dns_hash_loc_t : Type := HashLoc { bucket : Z; pos : nat; lrhash : Z }.
Definition chain (s : cache) (i : Z) : list dns_hash_ent_t := default [] (hash_buckets s !! i).
Definition put_chain (i : Z) (l : list dns_hash_ent_t) : cm unit := sets (fun s => set_buckets (<[i := l]> (hash_buckets s)) s).

(** The loop of [dns_lookup] and [del_dns_hash]. *)
Fixpoint find_in_chain (key : list Z) (rh : Z) (l : list dns_hash_ent_t) (p : nat) : cm (option positive * nat) :=
  match l with
  | [] => mret (None, p)
  | he :: l =>
      if rh <? rhash he then mret (None, p) else
      same ← (if rhash he =? rh then c ← get_cent (data he); n ← lift (rhnicmp key (qname c)); mret (negb (n =? 0)) else mret false : cm bool);
      if same : bool then mret (Some (data he), p) else find_in_chain key rh l (S p)
  end.
Definition dns_lookup (key : list Z) : cm (option positive * dns_hash_loc_t) :=
  '(i, rh) ← lift (dns_hash key);
  l ← gets (fun s => chain s i);
  '(o, p) ← find_in_chain key rh l 0;
  mret (o, HashLoc i p rh).
Definition add_dns_hash (d : positive) (loc : dns_hash_loc_t) : cm bool :=
  ok ← malloc;
  if negb ok then mret false else
  l ← gets (fun s => chain s (bucket loc));
  _ ← put_chain (bucket loc) (take (pos loc) l ++ HashEnt (lrhash loc) d :: drop (pos loc) l);
  mret true.
Definition del_dns_hash_ent (loc : dns_hash_loc_t) : cm positive :=
  l ← gets (fun s => chain s (bucket loc));
  match l !! pos loc with
  | None => fail NullDeref
  | Some he => _ ← put_chain (bucket loc) (take (pos loc) l ++ drop (S (pos loc)) l); mret (data he)
  end.
Definition del_dns_hash (key : list Z) : cm (option positive) :=
  '(i, rh) ← lift (dns_hash key);
  l ← gets (fun s => chain s i);
  '(o, p) ← find_in_chain key rh l 0;
  match o with
  | None => mret None
  | Some d => _ ← put_chain i (take p l ++ drop (S p) l); mret (Some d)
  end.

(** [del_cent] of cache.c, which the functions below call. *)
Definition del_cent (ce : positive) : cm unit :=
  c ← get_cent ce;
  _ ← add_size (- cs c);
  _ ← free_cent ce;
  _ ← free ce;
  n ← gets ent_num;
  sets (set_num (n - 1)).

Fixpoint free_chain (l : list dns_hash_ent_t) : cm unit :=
  match l with [] => mret tt | he :: l => _ ← del_cent (data he); free_chain l end.
Definition free_dns_hash_bucket (i : Z) : cm unit :=
  l ← gets (fun s => chain s i);
  _ ← put_chain i [];
  free_chain l.

(** The include and exclude list of [empty_cache]: domain, exact, include. *)
Record slist_t : Type := SList { domain : list Z; exact : bool; included : bool }.
Fixpoint selected (name : list Z) (sla : list slist_t) : res bool :=
  match sla with
  | [] => mret false
  | sl :: sla =>
      '(_, nrem, lrem) ← domain_match name (domain sl);
      if (lrem =? 0) && (negb (exact sl) || (nrem =? 0)) then mret (included sl) else selected name sla
  end.
(** From the entry at position [p] on; [fuel] is the length of the chain. *)
Fixpoint free_selected_loop (fuel : nat) (i : Z) (sla : list slist_t) (p : nat) : cm unit :=
  match fuel with
  | O => mret tt
  | S fuel =>
      l ← gets (fun s => chain s i);
      match l !! p with
      | None => mret tt
      | Some he =>
          c ← get_cent (data he);
          del ← lift (selected (qname c) sla);
          if del : bool then
            _ ← put_chain i (take p l ++ drop (S p) l);
            _ ← del_cent (data he);
            free_selected_loop fuel i sla p
          else free_selected_loop fuel i sla (S p)
      end
  end.
Definition free_dns_hash_selected (i : Z) (sla : list slist_t) : cm unit :=
  l ← gets (fun s => chain s i);
  free_selected_loop (length l) i sla 0.
Definition free_dns_hash : cm unit := for_range (Z.to_nat HASH_NUM_BUCKETS) 0 free_dns_hash_bucket.

(** Iteration: the entry, and the position after it. *)
Record dns_hash_pos_t : Type := HashPos { pbucket : Z; ent : list dns_hash_ent_t }.
Fixpoint fetch_from (n : nat) (i : Z) : cm (option (positive * dns_hash_pos_t)) :=
  match n with
  | O => mret None
  | S n =>
      l ← gets (fun s => chain s i);
      match l with he :: l => mret (Some (data he, HashPos i l)) | [] => fetch_from n (i + 1) end
  end.
Definition fetch_first : cm (option (positive * dns_hash_pos_t)) := fetch_from (Z.to_nat HASH_NUM_BUCKETS) 0.
Definition fetch_next (p : dns_hash_pos_t) : cm (option (positive * dns_hash_pos_t)) :=
  match ent p with
  | he :: l => mret (Some (data he, HashPos (pbucket p) l))
  | [] => fetch_from (Z.to_nat (HASH_NUM_BUCKETS - (pbucket p + 1))) (pbucket p + 1)
  end.
