(* ===== verification/DnsCache.v ===== *)
(** pdnsd's cache (cache.c): purging, conflicts between record sets, adding, deleting
    and looking up entries.

    Every function runs under the lock of the cache; where it gives the lock up, what
    other threads do meanwhile is a parameter. *)
From S2P Require Import Prelude CLib Rhn DnsStore DnsCents DnsHash.

Definition MCSZ : Z := 10240.

(** * Deleting *)
Definition del_cache_ent (ce : positive) (loc : option dns_hash_loc_t) : cm unit :=
  _ ← (match loc with
       | Some loc => d ← del_dns_hash_ent loc; mret (Some d)
       | None => c ← get_cent ce; del_dns_hash (qname c)
       end : cm (option positive));
  del_cent ce.
Definition del_cache (name : list Z) : cm unit :=
  o ← del_dns_hash name;
  match o with Some ce => del_cent ce | None => mret tt end.

(** * Purging *)
Definition kept (r : rr_set_t) : bool := has (rflags r) CF_NOPURGE || has (rflags r) CF_LOCAL.
Definition must_go (o : option positive) : cm bool :=
  match o with
  | None => mret false
  | Some r => x ← get_set r; if kept x then mret false else timedout x
  end.
Definition purge_rrset (ce : positive) (i : Z) (test : bool) : cm bool :=
  c ← get_cent ce;
  o ← lift (RRARR_INDEX_TESTEXT c i);
  go ← must_go o;
  if negb go then mret false else
  _ ← (if test then mret tt else n ← del_cent_rrset_by_index ce i; add_size (- n) : cm unit);
  mret true.

(** The loop: [n] sets from index [i] on; what is counted is [rv], [numrrs], [numrrext]. *)
Fixpoint purge_loop (n : nat) (i : Z) (ce : positive) (test : bool) (rv numrrs numrrext : Z) : cm (Z * Z * Z) :=
  match n with
  | O => mret (rv, numrrs, numrrext)
  | S n =>
      c ← get_cent ce;
      o ← lift (RRARR_INDEX c i);
      go ← must_go o;
      if go : bool then
        _ ← (if test then mret tt else n ← del_cent_rrset_by_index ce i; add_size (- n) : cm unit);
        purge_loop n (i + 1) ce test (rv + 1) numrrs numrrext
      else if is_some o then purge_loop n (i + 1) ce test rv (numrrs + 1) (if NRRMU <=? i then numrrext + 1 else numrrext)
      else purge_loop n (i + 1) ce test rv numrrs numrrext
  end.
(** The result and [*numrrsrem]. *)
Definition purge_all_rrsets (ce : positive) (test : bool) : cm (Z * Z) :=
  c ← get_cent ce;
  if negative c then mret (0, 0) else
  ilim ← lift (RRARR_LEN c);
  '(rv, numrrs, numrrext) ← purge_loop (Z.to_nat ilim) 0 ce test 0 0 0;
  c ← get_cent ce;
  '(mu, ext) ← lift (the_rr c);
  if is_some ext && (numrrext =? 0) then
    _ ← (if test then mret tt
         else
           _ ← put_cent ce (with_cs (cs c - sizeof_ptr * NRREXT) (with_side (Rr mu None) c));
           add_size (- (sizeof_ptr * NRREXT)) : cm unit);
    mret (rv + 1, numrrs)
  else mret (rv, numrrs).

(** Whether the reference [cnt] (the field [c_ns] or [c_soa]) to the set number [i] of an
    ancestor is stale. *)
Definition stale_reference (ce : positive) (cnt i : Z) : cm bool :=
  c ← get_cent ce;
  if cnt =? cundef then mret false else
  scnt ← lift (rhnsegcnt (qname c));
  o ← (if cnt =? scnt then lift (GET_RRSMU c i)
       else if cnt <? scnt then
         p ← lift (skipsegs (qname c) 0 (Z.to_nat (scnt - cnt)));
         '(o, _) ← dns_lookup (drop (Z.to_nat p) (qname c));
         match o with Some d => c' ← get_cent d; lift (GET_RRSMU c' i) | None => mret None end
       else mret None : cm (option positive));
  match o with
  | None => mret true
  | Some r =>
      x ← get_set r;
      if bool_decide (rrs x = []) then mret true else
      if has (rflags x) CF_LOCAL then mret false else timedout x
  end.
Definition purge_cent (ce : positive) (delete_ test : bool) : cm Z :=
  '(npurge, numrrs) ← purge_all_rrsets ce test;
  c ← get_cent ce;
  gone ← (if delete_ && (numrrs =? 0) then
            if negb (negative c) then mret true
            else if has (flags c) DF_LOCAL then mret false else timedout_nxdom c
          else mret false : cm bool);
  if gone : bool then _ ← (if test then mret tt else del_cache_ent ce None : cm unit); mret (-1) else
  if has (flags c) DF_LOCAL then mret npurge else
  ns ← stale_reference ce (c_ns c) RRMUINDEX_NS;
  _ ← (if (ns : bool) && negb test then update ce (with_cns cundef) else mret tt : cm unit);
  let npurge := if (ns : bool) then npurge + 1 else npurge in
  soa ← stale_reference ce (c_soa c) RRMUINDEX_SOA;
  _ ← (if (soa : bool) && negb test then update ce (with_csoa cundef) else mret tt : cm unit);
  mret (if (soa : bool) then npurge + 1 else npurge).

(** An entry of the list that [purge_cache] passes over. *)
Definition listed_local (e : rr_lent_t) : cm bool :=
  loc ← (match rrset e with Some r => x ← get_set r; mret (has (rflags x) CF_LOCAL) | None => mret false end : cm bool);
  if loc : bool then mret true else c ← get_cent (cent e); mret (has (flags c) DF_LOCAL).
Fixpoint purge_timedout (fuel : nat) (le : option positive) (sz : Z) (lazy : bool) : cm unit :=
  match le with
  | None => mret tt
  | Some a =>
      size ← gets cache_size;
      if lazy && (size <=? sz) then mret tt else
      match fuel with
      | O => fail OutOfFuel
      | S fuel =>
          e ← get_lent a;
          loc ← listed_local e;
          _ ← (if loc : bool then mret tt else
               let ce := cent e in
               _ ← (if is_some (rrset e) then _ ← purge_rrset ce (idx e) false; mret tt else mret tt : cm unit);
               c ← get_cent ce;
               gone ← (if num_rrs c =? 0 then
                         if negb (negative c) then mret true
                         else if has (flags c) DF_LOCAL then mret false else timedout_nxdom c
                       else mret false : cm bool);
               if gone : bool then del_cache_ent ce None else mret tt : cm unit);
          purge_timedout fuel (next e) sz lazy
      end
  end.
Fixpoint purge_oldest (fuel : nat) (le : option positive) (sz : Z) : cm unit :=
  match le with
  | None => mret tt
  | Some a =>
      size ← gets cache_size;
      if size <=? sz then mret tt else
      match fuel with
      | O => fail OutOfFuel
      | S fuel =>
          e ← get_lent a;
          loc ← listed_local e;
          _ ← (if loc : bool then mret tt else
               let ce := cent e in
               _ ← (if is_some (rrset e) then n ← del_cent_rrset_by_index ce (idx e); add_size (- n) else mret tt : cm unit);
               c ← get_cent ce;
               if num_rrs c =? 0 then del_cache_ent ce None else mret tt : cm unit);
          purge_oldest fuel (next e) sz
      end
  end.
Definition purge_cache (sz : Z) (lazy : bool) : cm unit :=
  m ← gets lents;
  h ← gets rrset_l;
  _ ← purge_timedout (size m) h sz lazy;
  n ← gets cache_size;
  if n <=? sz then mret tt else
  sorted ← gets insert_sort;
  _ ← (if negb sorted then _ ← sort_rrl; sets (set_sort true) else mret tt : cm unit);
  m ← gets lents;
  h ← gets rrset_l;
  purge_oldest (size m) h sz.

(** * Conflicts *)
Definition info (i : Z) : res (Z * Z) :=
  if 0 <=? i then match rr_info !! Z.to_nat i with Some x => Ok x | None => Fault OutOfBounds end else Fault OutOfBounds.
Definition conflicting (rri old : Z * Z) : bool := has (rri.1) (old.2) || has (rri.2) (old.1).
(** The set at index [i] of an entry, if it conflicts with a set of kind [rri]. *)
Definition conflict_at (ce : positive) (rri : Z * Z) (i : Z) : cm (option rr_set_t) :=
  c ← get_cent ce;
  o ← lift (RRARR_INDEX c i);
  match o with
  | None => mret None
  | Some r =>
      x ← get_set r;
      old ← lift (info i);
      mret (if negb (has (rflags x) CF_NEGATIVE) && conflicting rri old then Some x else None)
  end.
(** The first loop: [None] for [return 0], else [ncf] and [nttl]. *)
Fixpoint conflicts_loop (n : nat) (i : Z) (ce : positive) (rri : Z * Z) (ncf nttl : Z) : cm (option (Z * Z)) :=
  match n with
  | O => mret (Some (ncf, nttl))
  | S n =>
      o ← conflict_at ce rri i;
      match o with
      | None => conflicts_loop n (i + 1) ce rri ncf nttl
      | Some x =>
          if has (rflags x) CF_LOCAL then mret None else
          now ← time;
          let rttl := ttl x + ts x - now in
          conflicts_loop n (i + 1) ce rri (ncf + 1) (if 0 <? rttl then nttl + rttl else nttl)
      end
  end.
Definition cr_check_add (ce : positive) (i ttl_ ts_ flags_ : Z) : cm bool :=
  if has flags_ CF_NEGATIVE then mret true else
  rri ← lift (info i);
  c ← get_cent ce;
  let remove :=
    (ilim ← lift (RRARR_LEN c);
     _ ← for_range (Z.to_nat ilim) 0 (fun k =>
           o ← conflict_at ce rri k;
           if is_some o then _ ← del_cent_rrset_by_index ce k; mret tt else mret tt);
     mret true) in
  if has flags_ CF_LOCAL then remove else
  if has (flags c) DF_LOCAL then mret false else
  ilim ← lift (RRARR_LEN c);
  x ← conflicts_loop (Z.to_nat ilim) 0 ce rri 0 0;
  match x with
  | None => mret false
  | Some (ncf, nttl) =>
      if ncf =? 0 then mret true else
      if Z.quot nttl ncf <? ttl_ then remove else mret false
  end.

(** [adjust_ttl] and [adjust_dom_ttl] share the limits. *)
Definition limited (g : environ) (neg : bool) (t : Z) : Z :=
  let lo := if neg && (neg_ttl g <? min_ttl g) then neg_ttl g else min_ttl g in
  if t <? lo then lo else if max_ttl g <? t then max_ttl g else t.
Definition adjust_ttl (r : positive) : cm unit :=
  x ← get_set r;
  g ← gets env;
  put_set r (if has (rflags x) CF_NOCACHE then with_ttl 0 (with_rflags (drop_flag (rflags x) CF_NOCACHE) x)
             else with_ttl (limited g (has (rflags x) CF_NEGATIVE) (ttl x)) x).
Definition adjust_dom_ttl (ce : positive) : cm unit :=
  c ← get_cent ce;
  g ← gets env;
  '(l, t, s) ← lift (the_neg c);
  put_cent ce (if has (flags c) DF_NOCACHE then with_side (Neg l 0 s) (with_flags (drop_flag (flags c) DF_NOCACHE) c)
               else with_side (Neg l (limited g true t) s) c).

(** * Adding *)

(** The sets of a new entry: adjusted and put on the list; [false] without memory. *)
Fixpoint list_sets (n : nat) (i : Z) (ce : positive) : cm bool :=
  match n with
  | O => mret true
  | S n =>
      c ← get_cent ce;
      o ← lift (RRARR_INDEX c i);
      match o with
      | None => list_sets n (i + 1) ce
      | Some r =>
          _ ← adjust_ttl r;
          ok ← insert_rrl (Some r) ce i;
          if ok : bool then list_sets n (i + 1) ce else mret false
      end
  end.
Fixpoint add_records (l : list (list Z)) (ce : positive) (i ttl ts flags_ : Z) (rtail : option nat) : cm bool :=
  match l with
  | [] => mret true
  | rr :: l =>
      '(ok, rtail) ← add_cent_rr_int ce i ttl ts flags_ rr rtail;
      if ok : bool then add_records l ce i ttl ts flags_ rtail else mret false
  end.
(** Whether the old set stays. *)
Definition precedes (old new : rr_set_t) : cm bool :=
  if negb (has (rflags new) CF_LOCAL) && has (rflags old) CF_LOCAL then mret true else
  if has (rflags new) CF_ADDITIONAL && (negb (has (rflags old) CF_ADDITIONAL) || (negb (has (rflags new) CF_ROOTSERV) && has (rflags old) CF_ROOTSERV))
  then late ← timedout old; mret (negb late) else mret false.
(** How the loop over the new sets is left. *)
Inductive exit : Set := Done | AddSize | CleanUp (i : Z).
#[export] Instance exit_eq_dec : EqDecision exit.
Proof. solve_decision. Defined.
Definition replace_set (ce : positive) (i : Z) (new : rr_set_t) : cm exit :=
  _ ← del_cent_rrset_by_index ce i;
  fits ← cr_check_add ce i (ttl new) (ts new) (rflags new);
  if negb fits then mret Done else
  ok ← add_cent_rrset_by_index ce i (ttl new) (ts new) (rflags new);
  if negb ok then mret AddSize else
  ok ← add_records (rrs new) ce i (ttl new) (ts new) (rflags new) None;
  if negb ok then mret (CleanUp i) else
  c ← get_cent ce;
  o ← lift (RRARR_INDEX c i);
  match o with
  | None => fail NullDeref
  | Some r =>
      _ ← adjust_ttl r;
      ok ← insert_rrl (Some r) ce i;
      mret (if ok : bool then Done else CleanUp i)
  end.
Fixpoint merge_sets (n : nat) (i : Z) (cent ce : positive) : cm exit :=
  match n with
  | O => mret Done
  | S n =>
      d ← get_cent cent;
      o ← lift (RRARR_INDEX d i);
      match o with
      | None => merge_sets n (i + 1) cent ce
      | Some r =>
          new ← get_set r;
          c ← get_cent ce;
          o ← lift (RRARR_INDEX_TESTEXT c i);
          stays ← (match o with None => mret false | Some r => old ← get_set r; precedes old new end : cm bool);
          if stays : bool then merge_sets n (i + 1) cent ce else
          x ← replace_set ce i new;
          match x with Done => merge_sets n (i + 1) cent ce | _ => mret x end
      end
  end.
Fixpoint any_local (n : nat) (i : Z) (ce : positive) : cm bool :=
  match n with
  | O => mret false
  | S n =>
      c ← get_cent ce;
      o ← lift (RRARR_INDEX c i);
      match o with
      | None => any_local n (i + 1) ce
      | Some r => x ← get_set r; if has (rflags x) CF_LOCAL then mret true else any_local n (i + 1) ce
      end
  end.
Definition greater_ref (old new : Z) : Z := if negb (new =? cundef) && ((old =? cundef) || (old <? new)) then new else old.

(** A copy of the entry [cent] that goes into the table at [loc]; [None] without
    memory. *)
Definition add_new (cent : positive) (loc : dns_hash_loc_t) : cm (option positive) :=
  o ← copy_cent cent;
  match o with
  | None => mret None
  | Some ce =>
      c ← get_cent ce;
      ok ← (if negb (negative c) then ilim ← lift (RRARR_LEN c); list_sets (Z.to_nat ilim) 0 ce
            else _ ← adjust_dom_ttl ce; insert_rrl None ce (-1) : cm bool);
      ok ← (if ok : bool then add_dns_hash ce loc else mret false : cm bool);
      if ok : bool then
        n ← gets ent_num;
        _ ← sets (set_num (n + 1));
        mret (Some ce)
      else
        _ ← free_cent ce;
        _ ← free ce;
        mret None
  end.
Definition limit_of (g : environ) : Z := perm_cache g * 1024 + MCSZ.
(** [cache_size += ce->cs; purge_cache(...)] *)
Definition add_done (ce : positive) : cm unit :=
  c ← get_cent ce;
  _ ← add_size (cs c);
  g ← gets env;
  purge_cache (limit_of g) true.
Definition add_to (cent ce : positive) : cm unit :=
  _ ← purge_cent ce false false;
  c ← get_cent ce;
  _ ← add_size (- cs c);
  d ← get_cent cent;
  ilim ← lift (RRARR_LEN d);
  x ← merge_sets (Z.to_nat ilim) 0 cent ce;
  match x with
  | Done =>
      c ← get_cent ce;
      _ ← put_cent ce (with_csoa (greater_ref (c_soa c) (c_soa d)) (with_cns (greater_ref (c_ns c) (c_ns d))
            (with_flags (Z.lor (flags c) (Z.land (flags d) (Z.lor DF_AUTH DF_WILD))) c)));
      add_done ce
  | _ =>
      _ ← (match x with CleanUp i => _ ← del_cent_rrset_by_index ce i; mret tt | _ => mret tt end : cm unit);
      c ← get_cent ce;
      add_size (cs c)
  end.
(** [retry] is whether [goto retry] can still come: after the entry has been deleted
    it is not found again. *)
Fixpoint add_cache_at (tries : nat) (cent : positive) : cm unit :=
  match tries with
  | O => fail OutOfFuel
  | S tries =>
      d ← get_cent cent;
      '(o, loc) ← dns_lookup (qname d);
      match o with
      | None =>
          if (num_rrs d =? 0) && negb (negative d) then g ← gets env; purge_cache (limit_of g) true else
          o ← add_new cent loc;
          match o with Some ce => add_done ce | None => mret tt end
      | Some ce =>
          if negative d then
            c ← get_cent ce;
            ilim ← lift (RRARR_LEN c);
            loc_ ← any_local (Z.to_nat ilim) 0 ce;
            if loc_ : bool then mret tt else
            _ ← del_cache_ent ce (Some loc);
            add_cache_at tries cent
          else add_to cent ce
      end
  end.
Definition add_cache (cent : positive) : cm unit := add_cache_at 2 cent.

(** * Other operations *)
Fixpoint invalidate_sets (n : nat) (i : Z) (ce : positive) : cm unit :=
  match n with
  | O => mret tt
  | S n =>
      c ← get_cent ce;
      o ← lift (RRARR_INDEX c i);
      _ ← (match o with
           | Some r => x ← get_set r; put_set r (with_rflags (drop_flag (rflags x) CF_AUTH) (with_ts 0 x))
           | None => mret tt
           end : cm unit);
      invalidate_sets n (i + 1) ce
  end.
Definition invalidate_record (name : list Z) : cm unit :=
  '(o, _) ← dns_lookup name;
  match o with
  | None => mret tt
  | Some ce =>
      c ← get_cent ce;
      _ ← (if negb (negative c) then ilim ← lift (RRARR_LEN c); invalidate_sets (Z.to_nat ilim) 0 ce
           else '(l, t, _) ← lift (the_neg c); put_cent ce (with_side (Neg l t 0) c) : cm unit);
      update ce (fun c => with_flags (drop_flag (flags c) DF_AUTH) c)
  end.
Definition set_cent_flags (name : list Z) (f : Z) : cm bool :=
  '(o, _) ← dns_lookup name;
  match o with
  | None => mret false
  | Some ce => _ ← update ce (fun c => with_flags (u16 (Z.lor (flags c) f)) c); mret true
  end.

(** The loop up the hierarchy: [f] decides at the ancestor at offset [p], [None] to go
    on. *)
Fixpoint ancestors {A} (fuel : nat) (name : list Z) (p : Z) (stop : A) (f : Z -> cm (option A)) : cm A :=
  match fuel with
  | O => fail OutOfFuel
  | S fuel =>
      lb ← lift (rd name p);
      if lb =? 0 then mret stop else
      let p := p + (lb + 1) in
      lb ← lift (rd name p);
      if lb =? 0 then mret stop else
      o ← f p;
      match o with Some a => mret a | None => ancestors fuel name p stop f end
  end.
(** The offset of the owner in the name. *)
Definition getlocalowner (name : list Z) (tp : Z) : cm (option Z) :=
  ancestors (length name) name 0 None (fun p =>
    '(o, _) ← dns_lookup (drop (Z.to_nat p) name);
    match o with
    | None => mret None
    | Some ce =>
        c ← get_cent ce;
        if negb (has (flags c) DF_LOCAL) then mret (Some None) else
        h ← have_rr c tp;
        mret (if h : bool then Some (Some p) else None)
    end).

Inductive wildness : Set := Exact | w_wild | w_neg | w_locnerr.
#[export] Instance wildness_eq_dec : EqDecision wildness.
Proof. solve_decision. Defined.
(** The search of [lookup_cache], which occurs twice in it. *)
Definition search (name : list Z) (wild : bool) : cm (option positive * wildness) :=
  '(o, _) ← dns_lookup name;
  if negb wild || is_some o then mret (o, Exact) else
  ancestors (length name) name 0 (None, Exact) (fun p =>
    let nm := drop (Z.to_nat p) name in
    '(o, _) ← dns_lookup nm;
    match o with
    | None => mret None
    | Some ce =>
        c ← get_cent ce;
        if negative c then mret (Some (Some ce, w_neg)) else
        if has (flags c) DF_WILD then
          '(_, rest) ← lift (rhncpy (replicate (Z.to_nat (DNSNAMEBUFSIZE - 2)) 0) nm);
          '(o, _) ← dns_lookup ([1; 42] ++ rest);
          mret (Some (o, if is_some o then w_wild else Exact))
        else if has (flags c) DF_LOCAL then mret (Some (Some ce, w_locnerr))
        else mret (Some (None, Exact))
    end).
(** A copy of the entry, or [None]; [others] is what happens to the cache between the
    two locks. *)
Definition lookup_cache (others : cm unit) (name : list Z) (wild : bool) : cm (option positive * wildness) :=
  '(o, w) ← search name wild;
  '(o, purge) ←
    (match o with
     | None => mret (None, 0)
     | Some ce =>
         n ← purge_cent ce true true;
         if n =? 0 then o ← copy_cent ce; mret (o, 0) else mret (Some ce, n)
     end : cm (option positive * Z));
  if purge =? 0 then mret (o, w) else
  _ ← others;
  '(o, w) ← search name wild;
  match o with
  | None => mret (None, w)
  | Some ce =>
      n ← purge_cent ce true false;
      if n <? 0 then mret (None, w) else o ← copy_cent ce; mret (o, w)
  end.
Definition lookup_cache_local_rrset (name : list Z) (type : Z) : cm (option positive) :=
  '(o, _) ← dns_lookup name;
  match o with
  | None => mret None
  | Some ce =>
      c ← get_cent ce;
      o ← lift (getrrset c type);
      match o with
      | None => mret None
      | Some r => x ← get_set r; if has (rflags x) CF_LOCAL then copy_rrset r else mret None
      end
  end.
(** [got] is whether the lock was obtained; [others i] runs where the lock is yielded
    after bucket [i]. *)
Fixpoint empty_loop (n : nat) (i : Z) (sla : option (list slist_t)) (others : Z -> cm unit) : cm unit :=
  match n with
  | O => mret tt
  | S n =>
      _ ← (match sla with Some l => free_dns_hash_selected i l | None => free_dns_hash_bucket i end : cm unit);
      match n with
      | O => mret tt
      | _ => _ ← others i; empty_loop n (i + 1) sla others
      end
  end.
Definition empty_cache (got : bool) (others : Z -> cm unit) (sla : option (list slist_t)) : cm bool :=
  if negb got then mret false else
  _ ← empty_loop (Z.to_nat HASH_NUM_BUCKETS) 0 sla others;
  mret true.
Definition destroy_cache (got : bool) : cm unit := if got then free_dns_hash else mret tt.
