(* ===== verification/DnsRrl.v ===== *)
(** How the objects of pdnsd's cache refer to each other: which entry has which record
    sets, and which list entry belongs to which set or negative entry; reasoning about
    operations; the list [rrset_l]: removing an entry and inserting one by age. *)
From S2P Require Import Prelude CLib HevList Rhn DnsStore DnsCents.

(** The sets of an entry as one array, and the list entry of a negative one. *)
Definition slots (c : dns_cent_t) : list (option positive) :=
  match side c with Neg _ _ _ => [] | Rr mu ext => mu ++ default [] ext end.
Definition slot (c : dns_cent_t) (i : Z) : option positive := if 0 <=? i then mjoin (slots c !! Z.to_nat i) else None.
Definition neg_lent (c : dns_cent_t) : option positive := match side c with Neg l _ _ => l | Rr _ _ => None end.
(** What a list entry refers to. *)
Definition core (e : rr_lent_t) : option positive * positive * Z := (rrset e, cent e, idx e).

Section Links.
Implicit Types (K : gmap positive (option positive * positive * Z)) (R : gmap positive rr_set_t) (C : gmap positive dns_cent_t).

Record links K R C : Prop := {
  lk_inj : forall p c i q d j r, C !! p = Some c -> C !! q = Some d -> slot c i = Some r -> slot d j = Some r -> p = q /\ i = j;
  lk_live : forall p c i r, C !! p = Some c -> slot c i = Some r -> is_Some (R !! r);
  lk_owned : forall r x, R !! r = Some x -> exists p c i, C !! p = Some c /\ slot c i = Some r;
  lk_back : forall p c i r x a, C !! p = Some c -> slot c i = Some r -> R !! r = Some x -> lent x = Some a -> K !! a = Some (Some r, p, i);
  lk_neg : forall p c a, C !! p = Some c -> neg_lent c = Some a -> exists i, K !! a = Some (None, p, i);
  lk_set : forall a r p i, K !! a = Some (Some r, p, i) -> exists c x, C !! p = Some c /\ slot c i = Some r /\ R !! r = Some x /\ lent x = Some a;
  lk_cent : forall a p i, K !! a = Some (None, p, i) -> exists c, C !! p = Some c /\ neg_lent c = Some a
}.

Ltac maps := repeat match goal with
  | H : <[?k := _]> _ !! ?j = Some _ |- _ => apply lookup_insert_Some in H as [[? ?]|[? H]]; subst
  | H : delete _ _ !! _ = Some _ |- _ => apply lookup_delete_Some in H as [? H]
  | H : (if decide ?P then _ else _) = Some _ |- _ => destruct (decide P); [first [discriminate H|injection H as H; subst]|]
  end.

Definition unlist (o : option positive) K := match o with Some a => delete a K | None => K end.
Lemma unlist_Some o K b v : unlist o K !! b = Some v <-> o <> Some b /\ K !! b = Some v.
Proof. destruct o as [a|]; cbn; [rewrite lookup_delete_Some|]; naive_solver. Qed.

Lemma lk_del_set K R C p c c' i r x : links K R C -> C !! p = Some c -> slot c i = Some r -> R !! r = Some x ->
  (forall j, slot c' j = if decide (j = i) then None else slot c j) -> neg_lent c = None -> neg_lent c' = None ->
  links (unlist (lent x) K) (delete r R) (<[p := c']> C).
Proof.
  intros [I1 I2 I3 I4 I5 I6 I7] Hp Hi Hr Hs Hn Hn'.
  (** the slots after are slots from before, other than [i] of [p] *)
  assert (Hin : forall q d j t, <[p := c']> C !! q = Some d -> slot d j = Some t -> exists d0, C !! q = Some d0 /\ slot d0 j = Some t /\ t <> r).
  { intros q d j t Hq Hj. maps.
    - rewrite Hs in Hj. maps. exists c. split_and!; auto. intros ->. by destruct (I1 _ _ _ _ _ _ _ Hp Hp Hi Hj) as [_ ->].
    - exists d. split_and!; auto. intros ->. by destruct (I1 _ _ _ _ _ _ _ Hp Hq Hi Hj) as [-> _]. }
  assert (Hout : forall q d j t, C !! q = Some d -> slot d j = Some t -> t <> r -> exists d', <[p := c']> C !! q = Some d' /\ slot d' j = Some t).
  { intros q d j t Hq Hj Ht. destruct (decide (q = p)) as [->|].
    - exists c'. rewrite lookup_insert_eq. assert (d = c) as -> by congruence. split; [done|]. rewrite Hs, decide_False; [done|]. intros ->. congruence.
    - exists d. by rewrite lookup_insert_ne. }
  constructor.
  - intros q1 d1 j1 q2 d2 j2 t H1 H2 S1 S2. destruct (Hin _ _ _ _ H1 S1) as (? & ? & ? & _), (Hin _ _ _ _ H2 S2) as (? & ? & ? & _). eauto.
  - intros q d j t H1 S1. destruct (Hin _ _ _ _ H1 S1) as (? & ? & ? & ?). rewrite lookup_delete_ne by done. eauto.
  - intros t y Ht. maps. destruct (I3 _ _ Ht) as (q & d & j & Hq & Hj). destruct (Hout _ _ _ _ Hq Hj) as (d' & ? & ?); [done|eauto].
  - intros q d j t y a Hq Hj Ht Ha. destruct (Hin _ _ _ _ Hq Hj) as (d0 & H1 & H2 & _). clear Hq Hj. maps.
    apply unlist_Some. pose proof (I4 _ _ _ _ _ _ H1 H2 Ht Ha) as HK. split; [|done].
    intros Hx. pose proof (I4 _ _ _ _ _ _ Hp Hi Hr Hx) as HK'. congruence.
  - intros q d a Hq Ha. maps; [congruence|]. destruct (I5 _ _ _ Hq Ha) as [k Hk]. exists k. apply unlist_Some. split; [|done].
    intros Hx. pose proof (I4 _ _ _ _ _ _ Hp Hi Hr Hx). congruence.
  - intros a t q j Ha. apply unlist_Some in Ha as [Hx Ha]. destruct (I6 _ _ _ _ Ha) as (d & y & Hq & Hj & Ht & Hy).
    assert (t <> r) by (intros ->; congruence). destruct (Hout _ _ _ _ Hq Hj) as (d' & ? & ?); [done|].
    exists d', y. split_and!; auto. by rewrite lookup_delete_ne.
  - intros a q j Ha. apply unlist_Some in Ha as [Hx Ha]. destruct (I7 _ _ _ Ha) as (d & Hq & Hd).
    destruct (decide (q = p)) as [->|]; [congruence|]. exists d. by rewrite lookup_insert_ne.
Qed.

Lemma lk_add_set K R C p c c' i r x : links K R C -> C !! p = Some c -> slot c i = None -> R !! r = None -> lent x = None ->
  (forall j, slot c' j = if decide (j = i) then Some r else slot c j) -> neg_lent c = None -> neg_lent c' = None ->
  links K (<[r := x]> R) (<[p := c']> C).
Proof.
  intros [I1 I2 I3 I4 I5 I6 I7] Hp Hi Hr Hx Hs Hn Hn'.
  assert (Hold : forall q d j t, C !! q = Some d -> slot d j = Some t -> t <> r).
  { intros q d j t Hq Hj ->. destruct (I2 _ _ _ _ Hq Hj). congruence. }
  assert (Hin : forall q d j t, <[p := c']> C !! q = Some d -> slot d j = Some t ->
            (q = p /\ j = i /\ t = r) \/ (t <> r /\ exists d0, C !! q = Some d0 /\ slot d0 j = Some t)).
  { intros q d j t Hq Hj. maps; [rewrite Hs in Hj; maps; [by left|]|]; right; eauto 6. }
  assert (Hout : forall q d j t, C !! q = Some d -> slot d j = Some t -> exists d', <[p := c']> C !! q = Some d' /\ slot d' j = Some t).
  { intros q d j t Hq Hj. destruct (decide (q = p)) as [->|].
    - exists c'. rewrite lookup_insert_eq. assert (d = c) as -> by congruence. split; [done|]. rewrite Hs, decide_False; [done|]. intros ->. congruence.
    - exists d. by rewrite lookup_insert_ne. }
  constructor.
  - intros q1 d1 j1 q2 d2 j2 t H1 H2 S1 S2.
    destruct (Hin _ _ _ _ H1 S1) as [(-> & -> & ->)|(? & ? & ? & ?)], (Hin _ _ _ _ H2 S2) as [(-> & -> & Ht)|(? & ? & ? & ?)]; try done; eauto.
  - intros q d j t H1 S1. destruct (Hin _ _ _ _ H1 S1) as [(-> & -> & ->)|(? & ? & ? & ?)]; [by rewrite lookup_insert_eq|].
    rewrite lookup_insert_ne by done. eauto.
  - intros t y Ht. maps; [exists p, c', i; rewrite lookup_insert_eq, Hs, decide_True; auto|].
    destruct (I3 _ _ Ht) as (q & d & j & Hq & Hj). destruct (Hout _ _ _ _ Hq Hj) as (d' & ? & ?). eauto.
  - intros q d j t y a Hq Hj Ht Ha. destruct (Hin _ _ _ _ Hq Hj) as [(-> & -> & ->)|(? & d0 & ? & ?)]; clear Hq Hj; maps; try congruence; eauto.
  - intros q d a Hq Ha. maps; [congruence|]. eauto.
  - intros a t q j Ha. destruct (I6 _ _ _ _ Ha) as (d & y & Hq & Hj & Ht & Hy).
    destruct (Hout _ _ _ _ Hq Hj) as (d' & ? & ?). exists d', y. split_and!; auto. rewrite lookup_insert_ne; [done|]. intros ->. congruence.
  - intros a q j Ha. destruct (I7 _ _ _ Ha) as (d & Hq & Hd). destruct (decide (q = p)) as [->|]; [congruence|].
    exists d. by rewrite lookup_insert_ne.
Qed.

Lemma lk_list_set K R C p c i r x a : links K R C -> C !! p = Some c -> slot c i = Some r -> R !! r = Some x -> lent x = None -> K !! a = None ->
  links (<[a := (Some r, p, i)]> K) (<[r := with_lent (Some a) x]> R) C.
Proof.
  intros [I1 I2 I3 I4 I5 I6 I7] Hp Hi Hr Hx Ha. constructor; auto.
  - intros q d j t Hq Hj. destruct (decide (t = r)) as [->|]; [by rewrite lookup_insert_eq|]. rewrite lookup_insert_ne by done. eauto.
  - intros t y Ht. maps; eauto 6.
  - intros q d j t y b Hq Hj Ht Hb. maps; cbn in Hb.
    + injection Hb as <-. rewrite lookup_insert_eq. by destruct (I1 _ _ _ _ _ _ _ Hp Hq Hi Hj) as [-> ->].
    + pose proof (I4 _ _ _ _ _ _ Hq Hj Ht Hb). rewrite lookup_insert_ne; [done|]. intros ->. congruence.
  - intros q d b Hq Hb. destruct (I5 _ _ _ Hq Hb) as [k Hk]. exists k. rewrite lookup_insert_ne; [done|]. intros ->. congruence.
  - intros b t q j Hb. maps.
    + simplify_eq. exists c, (with_lent (Some b) x). rewrite lookup_insert_eq. auto.
    + destruct (I6 _ _ _ _ Hb) as (d & y & ? & ? & ? & ?). exists d, y. rewrite lookup_insert_ne; [auto|]. intros ->. congruence.
  - intros b q j Hb. maps; [congruence|]. eauto.
Qed.

(** Replacing an entry by one that has the same sets: the list entry of a negative one
    may come or go. *)
Lemma lk_list_neg K R C p c c' a i : links K R C -> C !! p = Some c -> neg_lent c = None -> neg_lent c' = Some a -> K !! a = None ->
  (forall j, slot c' j = slot c j) -> links (<[a := (None, p, i)]> K) R (<[p := c']> C).
Proof.
  intros [I1 I2 I3 I4 I5 I6 I7] Hp Hn Hn' Ha Hs.
  assert (Hin : forall q d j t, <[p := c']> C !! q = Some d -> slot d j = Some t -> exists d0, C !! q = Some d0 /\ slot d0 j = Some t).
  { intros q d j t Hq Hj. maps; [rewrite Hs in Hj|]; eauto. }
  assert (Hout : forall q d j t, C !! q = Some d -> slot d j = Some t -> exists d', <[p := c']> C !! q = Some d' /\ slot d' j = Some t).
  { intros q d j t Hq Hj. destruct (decide (q = p)) as [->|]; [exists c'|exists d]; [rewrite lookup_insert_eq, Hs; split; congruence|by rewrite lookup_insert_ne]. }
  constructor.
  - intros q1 d1 j1 q2 d2 j2 t H1 H2 S1 S2. destruct (Hin _ _ _ _ H1 S1) as (? & ? & ?), (Hin _ _ _ _ H2 S2) as (? & ? & ?). eauto.
  - intros q d j t H1 S1. destruct (Hin _ _ _ _ H1 S1) as (? & ? & ?). eauto.
  - intros t y Ht. destruct (I3 _ _ Ht) as (q & d & j & Hq & Hj). destruct (Hout _ _ _ _ Hq Hj) as (d' & ? & ?). eauto.
  - intros q d j t y b Hq Hj Ht Hb. destruct (Hin _ _ _ _ Hq Hj) as (? & H1 & H2). pose proof (I4 _ _ _ _ _ _ H1 H2 Ht Hb).
    rewrite lookup_insert_ne; [done|]. intros ->. congruence.
  - intros q d b Hq Hb. maps.
    + assert (b = a) as -> by congruence. exists i. by rewrite lookup_insert_eq.
    + destruct (I5 _ _ _ Hq Hb) as [k Hk]. exists k. rewrite lookup_insert_ne; [done|]. intros ->. congruence.
  - intros b t q j Hb. maps; [congruence|]. destruct (I6 _ _ _ _ Hb) as (d & y & Hq & Hj & Ht & Hy).
    destruct (Hout _ _ _ _ Hq Hj) as (d' & ? & ?). eauto 6.
  - intros b q j Hb. maps.
    + simplify_eq. exists c'. rewrite lookup_insert_eq. auto.
    + destruct (I7 _ _ _ Hb) as (d & Hq & Hd). exists d. rewrite lookup_insert_ne; [auto|]. intros ->. congruence.
Qed.
Lemma lk_cent_upd K R C p c c' : links K R C -> C !! p = Some c -> neg_lent c' = None ->
  (forall j, slot c' j = slot c j) -> links (unlist (neg_lent c) K) R (<[p := c']> C).
Proof.
  intros [I1 I2 I3 I4 I5 I6 I7] Hp Hn' Hs.
  assert (Hin : forall q d j t, <[p := c']> C !! q = Some d -> slot d j = Some t -> exists d0, C !! q = Some d0 /\ slot d0 j = Some t).
  { intros q d j t Hq Hj. maps; [rewrite Hs in Hj|]; eauto. }
  assert (Hout : forall q d j t, C !! q = Some d -> slot d j = Some t -> exists d', <[p := c']> C !! q = Some d' /\ slot d' j = Some t).
  { intros q d j t Hq Hj. destruct (decide (q = p)) as [->|]; [exists c'|exists d]; [rewrite lookup_insert_eq, Hs; split; congruence|by rewrite lookup_insert_ne]. }
  constructor.
  - intros q1 d1 j1 q2 d2 j2 t H1 H2 S1 S2. destruct (Hin _ _ _ _ H1 S1) as (? & ? & ?), (Hin _ _ _ _ H2 S2) as (? & ? & ?). eauto.
  - intros q d j t H1 S1. destruct (Hin _ _ _ _ H1 S1) as (? & ? & ?). eauto.
  - intros t y Ht. destruct (I3 _ _ Ht) as (q & d & j & Hq & Hj). destruct (Hout _ _ _ _ Hq Hj) as (d' & ? & ?). eauto.
  - intros q d j t y b Hq Hj Ht Hb. destruct (Hin _ _ _ _ Hq Hj) as (? & H1 & H2). pose proof (I4 _ _ _ _ _ _ H1 H2 Ht Hb).
    apply unlist_Some. split; [|done]. intros Hx. destruct (I5 _ _ _ Hp Hx). congruence.
  - intros q d b Hq Hb. maps; [congruence|]. destruct (I5 _ _ _ Hq Hb) as [k Hk]. exists k. apply unlist_Some. split; [|done].
    intros Hx. destruct (I5 _ _ _ Hp Hx). congruence.
  - intros b t q j Hb. apply unlist_Some in Hb as [_ Hb]. destruct (I6 _ _ _ _ Hb) as (d & y & Hq & Hj & Ht & Hy).
    destruct (Hout _ _ _ _ Hq Hj) as (d' & ? & ?). eauto 6.
  - intros b q j Hb. apply unlist_Some in Hb as [Hx Hb]. destruct (I7 _ _ _ Hb) as (d & Hq & Hd).
    exists d. rewrite lookup_insert_ne; [auto|]. intros ->. congruence.
Qed.
(** The list entry stays as well. *)
Lemma lk_cent_same K R C p c c' : links K R C -> C !! p = Some c -> neg_lent c' = neg_lent c ->
  (forall j, slot c' j = slot c j) -> links K R (<[p := c']> C).
Proof.
  intros H Hp Hn Hs. destruct (neg_lent c) as [a|] eqn:E; [|rewrite <- E in Hn; replace K with (unlist (neg_lent c) K) by (by rewrite E); apply lk_cent_upd; congruence].
  destruct (lk_neg _ _ _ H _ _ _ Hp E) as [i Hi].
  assert (H1 : links (unlist (neg_lent c) K) R (<[p := with_side (Rr (slots c) None) c]> C)).
  { eapply lk_cent_upd; eauto. intros j. unfold slot, slots at 1. cbn. by rewrite app_nil_r. }
  rewrite E in H1. cbn in H1. pose proof (lk_list_neg _ _ _ p _ c' a i H1 (lookup_insert_eq _ _ _) eq_refl Hn (lookup_delete_eq _ _)) as H2.
  rewrite insert_delete_eq, insert_id in H2 by done. rewrite insert_insert_eq in H2. apply H2.
  intros j. rewrite Hs. unfold slot, slots at 2. cbn. by rewrite app_nil_r.
Qed.
Lemma lk_set_upd K R C r x x' : links K R C -> R !! r = Some x -> lent x' = lent x -> links K (<[r := x']> R) C.
Proof.
  intros [I1 I2 I3 I4 I5 I6 I7] Hr Hx. constructor; auto.
  - intros q d j t Hq Hj. destruct (decide (t = r)) as [->|]; [by rewrite lookup_insert_eq|]. rewrite lookup_insert_ne by done. eauto.
  - intros t y Ht. maps; eauto.
  - intros q d j t y b Hq Hj Ht Hb. maps; [rewrite Hx in Hb|]; eauto 2.
  - intros b t q j Hb. destruct (I6 _ _ _ _ Hb) as (d & y & ? & ? & ? & ?). destruct (decide (t = r)) as [->|].
    + exists d, x'. rewrite lookup_insert_eq. split_and!; congruence.
    + exists d, y. rewrite lookup_insert_ne; auto.
Qed.
Lemma lk_new_cent K R C p c : links K R C -> C !! p = None -> (forall j, slot c j = None) -> neg_lent c = None -> links K R (<[p := c]> C).
Proof.
  intros [I1 I2 I3 I4 I5 I6 I7] Hp Hs Hn.
  assert (Hin : forall q d j t, <[p := c]> C !! q = Some d -> slot d j = Some t -> C !! q = Some d) by (intros q d j t Hq Hj; maps; congruence).
  assert (Hout : forall q d, C !! q = Some d -> <[p := c]> C !! q = Some d) by (intros q d Hq; rewrite lookup_insert_ne; congruence).
  constructor; eauto.
  - intros t y Ht. destruct (I3 _ _ Ht) as (q & d & j & ? & ?). eauto 6.
  - intros q d a Hq Ha. maps; [congruence|]. eauto.
  - intros b t q j Hb. destruct (I6 _ _ _ _ Hb) as (d & y & ? & ? & ? & ?). exists d, y. auto.
  - intros b q j Hb. destruct (I7 _ _ _ Hb) as (d & ? & ?). eauto.
Qed.
Lemma lk_del_cent K R C p c : links K R C -> C !! p = Some c -> (forall j, slot c j = None) -> neg_lent c = None -> links K R (delete p C).
Proof.
  intros [I1 I2 I3 I4 I5 I6 I7] Hp Hs Hn.
  assert (Hin : forall q d, delete p C !! q = Some d -> C !! q = Some d) by (intros q d Hq; by maps).
  assert (Hout : forall q d, C !! q = Some d -> d <> c -> delete p C !! q = Some d) by (intros q d Hq Hd; rewrite lookup_delete_ne; congruence).
  constructor; eauto.
  - intros t y Ht. destruct (I3 _ _ Ht) as (q & d & j & ? & ?). exists q, d, j. split; [|done]. apply Hout; congruence.
  - intros b t q j Hb. destruct (I6 _ _ _ _ Hb) as (d & y & ? & ? & ? & ?). exists d, y. split_and!; auto. apply Hout; congruence.
  - intros b q j Hb. destruct (I7 _ _ _ Hb) as (d & ? & ?). exists d. split_and!; auto. apply Hout; congruence.
Qed.
End Links.


(** * Reasoning about operations *)
Definition crun {A} (m : cm A) (s : cache) (Q : A -> cache -> Prop) : Prop :=
  match m s with Ok (a, s') => Q a s' | Fault _ => False end.
Section Crun.
Context {A B : Type}.
Implicit Types (s : cache) (Q : A -> cache -> Prop).
Lemma crun_bind (m : cm B) (f : B -> cm A) s Q : crun m s (fun a s' => crun (f a) s' Q) -> crun (m ≫= f) s Q.
Proof. unfold crun, mbind, cm_bind. by destruct (m s) as [[a s']|]. Qed.
Lemma crun_mono (m : cm A) s (P : A -> cache -> Prop) Q : crun m s P -> (forall a s', P a s' -> Q a s') -> crun m s Q.
Proof. unfold crun. destruct (m s) as [[a s']|]; auto. Qed.
Lemma crun_ret (a : A) s Q : Q a s -> crun (mret a) s Q.
Proof. done. Qed.
Lemma crun_gets (f : cache -> A) s Q : Q (f s) s -> crun (gets f) s Q.
Proof. done. Qed.
Lemma crun_if (b : bool) (m m' : cm A) s Q : (b = true -> crun m s Q) -> (b = false -> crun m' s Q) -> crun (if b then m else m') s Q.
Proof. destruct b; auto. Qed.
Lemma crun_lift (r : res A) s Q : succeeds r (fun a => Q a s) -> crun (lift r) s Q.
Proof. unfold crun, lift. by destruct r. Qed.
Lemma crun_Ok (m : cm A) a s s' Q : m s = Ok (a, s') -> Q a s' -> crun m s Q.
Proof. unfold crun. by intros ->. Qed.
Lemma crun_out (m : cm A) s Q : crun m s Q -> exists a s', m s = Ok (a, s') /\ Q a s'.
Proof. unfold crun. destruct (m s) as [[a s']|]; [eauto|done]. Qed.
End Crun.
Section Crun_steps.
Implicit Types s : cache.
Lemma crun_sets (f : cache -> cache) s (Q : unit -> cache -> Prop) : Q tt (f s) -> crun (sets f) s Q.
Proof. done. Qed.
Lemma crun_get_lent p e s Q : lents s !! p = Some e -> Q e s -> crun (get_lent p) s Q.
Proof. intros H HQ. unfold crun, get_lent, mbind, cm_bind, gets. by rewrite H. Qed.
Lemma crun_get_set p x s Q : rrsets s !! p = Some x -> Q x s -> crun (get_set p) s Q.
Proof. intros H HQ. unfold crun, get_set, mbind, cm_bind, gets. by rewrite H. Qed.
Lemma crun_get_cent p c s Q : cents s !! p = Some c -> Q c s -> crun (get_cent p) s Q.
Proof. intros H HQ. unfold crun, get_cent, mbind, cm_bind, gets. by rewrite H. Qed.
Lemma crun_put_lent p e s (Q : unit -> cache -> Prop) : is_Some (lents s !! p) -> Q tt (set_lents (<[p := e]> (lents s)) s) -> crun (put_lent p e) s Q.
Proof. intros [x' H] HQ. unfold crun, put_lent, mbind, cm_bind, gets. by rewrite H. Qed.
Lemma crun_put_set p x s (Q : unit -> cache -> Prop) : is_Some (rrsets s !! p) -> Q tt (set_rrsets (<[p := x]> (rrsets s)) s) -> crun (put_set p x) s Q.
Proof. intros [x' H] HQ. unfold crun, put_set, mbind, cm_bind, gets. by rewrite H. Qed.
Lemma crun_put_cent p c s (Q : unit -> cache -> Prop) : is_Some (cents s !! p) -> Q tt (set_cents (<[p := c]> (cents s)) s) -> crun (put_cent p c) s Q.
Proof. intros [x' H] HQ. unfold crun, put_cent, mbind, cm_bind, gets. by rewrite H. Qed.
Lemma crun_free_lent p s (Q : unit -> cache -> Prop) : is_Some (lents s !! p) -> Q tt (set_lents (delete p (lents s)) s) -> crun (free_lent p) s Q.
Proof. intros [x' H] HQ. unfold crun, free_lent, mbind, cm_bind, gets. by rewrite H. Qed.
Lemma crun_free_set p s (Q : unit -> cache -> Prop) : is_Some (rrsets s !! p) -> Q tt (set_rrsets (delete p (rrsets s)) s) -> crun (free_set p) s Q.
Proof. intros [x' H] HQ. unfold crun, free_set, mbind, cm_bind, gets. by rewrite H. Qed.
Lemma crun_free p s (Q : unit -> cache -> Prop) : is_Some (cents s !! p) -> Q tt (set_cents (delete p (cents s)) s) -> crun (free p) s Q.
Proof. intros [x' H] HQ. unfold crun, free, mbind, cm_bind, gets. by rewrite H. Qed.
Lemma crun_add_size n s (Q : unit -> cache -> Prop) : Q tt (set_size (cache_size s + n) s) -> crun (add_size n) s Q.
Proof. done. Qed.
Lemma crun_update p f c s (Q : unit -> cache -> Prop) : cents s !! p = Some c -> Q tt (set_cents (<[p := f c]> (cents s)) s) -> crun (update p f) s Q.
Proof. intros Hc HQ. unfold update. apply crun_bind. eapply crun_get_cent; [done|]. apply crun_put_cent; eauto. Qed.
Lemma crun_malloc s (Q : bool -> cache -> Prop) : (forall b, b = memory (env s) (asked s) -> Q b (set_asked (S (asked s)) s)) -> crun malloc s Q.
Proof. unfold crun, malloc. auto. Qed.
Lemma crun_time s (Q : Z -> cache -> Prop) : (forall t, t = clock (env s) (asked s) -> Q t (set_asked (S (asked s)) s)) -> crun time s Q.
Proof. unfold crun, time. auto. Qed.
Lemma crun_new_address s (Q : positive -> cache -> Prop) : Q (brk s) (set_brk (Pos.succ (brk s)) s) -> crun new_address s Q.
Proof. done. Qed.
End Crun_steps.

(** One step of a computation; [eauto] finds the object that is read. *)
Ltac step :=
  cbv beta zeta; cbn [andb orb negb is_some];
  lazymatch goal with
  | |- crun (_ ≫= _) _ _ => apply crun_bind
  | |- crun (mret _) _ _ => apply crun_ret
  | |- crun (gets _) _ _ => apply crun_gets
  | |- crun (sets _) _ _ => apply crun_sets
  | |- crun (get_lent _) _ _ => eapply crun_get_lent; [eassumption|]
  | |- crun (get_set _) _ _ => eapply crun_get_set; [eassumption|]
  | |- crun (get_cent _) _ _ => eapply crun_get_cent; [eassumption|]
  | |- crun (put_lent _ _) _ _ => apply crun_put_lent; [eauto|]
  | |- crun (put_set _ _) _ _ => apply crun_put_set; [eauto|]
  | |- crun (put_cent _ _) _ _ => apply crun_put_cent; [eauto|]
  | |- crun (free_lent _) _ _ => apply crun_free_lent; [eauto|]
  | |- crun (free_set _) _ _ => apply crun_free_set; [eauto|]
  | |- crun (free _) _ _ => apply crun_free; [eauto|]
  | |- crun (add_size _) _ _ => apply crun_add_size
  | |- crun (update _ _) _ _ => eapply crun_update; [eassumption|]
  | |- crun malloc _ _ => apply crun_malloc; intros ?ok ?Hok
  | |- crun time _ _ => apply crun_time; intros ?now ?Hnow
  | |- crun new_address _ _ => apply crun_new_address
  end; cbv beta zeta.
Tactic Notation "use" uconstr(H) "as" simple_intropattern(p) := eapply crun_mono; [eapply H|intros ?r ?s p].

(** * The list *)
Definition node (e : rr_lent_t) : HevListNode := Node (next e) (prev e).
Definition rlist (L : list positive) (s : cache) : Prop := dlist (node <$> lents s) L (HList (rrset_l s) (rrset_l_tail s)).

Section Segments.
Implicit Types m : nodes.
Lemma dseg_set_last m pp l p n qn q : dseg m pp (l ++ [p]) qn -> p ∉ l -> m !! p = Some n -> dseg (<[p := Node q (HevList.prev n)]> m) pp (l ++ [p]) q.
Proof.
  intros H Hp Hm. apply dseg_app in H as [H1 [H2 _]]. apply dseg_app. split; [by apply dseg_insert|]. split; [|done].
  rewrite lookup_insert_eq. rewrite H2 in Hm. by injection Hm as <-.
Qed.
Lemma dseg_set_first m pp p l n qn pp' : dseg m pp (p :: l) qn -> p ∉ l -> m !! p = Some n -> dseg (<[p := Node (HevList.next n) pp']> m) pp' (p :: l) qn.
Proof.
  intros [H1 H2] Hp Hm. split; [|by apply dseg_insert]. rewrite lookup_insert_eq. rewrite H1 in Hm. by injection Hm as <-.
Qed.
End Segments.

Lemma rlist_lookup L s a : rlist L s -> a ∈ L -> is_Some (lents s !! a).
Proof.
  intros [_ H _ _] (L1 & L2 & ->)%list_elem_of_split. apply dseg_app in H as [_ [H _]].
  rewrite lookup_fmap in H. destruct (lents s !! a); [eauto|done].
Qed.
Lemma rlist_mid L1 a L2 s : rlist (L1 ++ a :: L2) s -> exists e, lents s !! a = Some e /\ next e = first_of L2 None /\ prev e = last_of None L1.
Proof.
  intros [_ H _ _]. apply dseg_app in H as [_ [H _]]. rewrite lookup_fmap in H. destruct (lents s !! a) as [e|]; [|done].
  injection H as H1 H2. eauto.
Qed.

(** Assignments to the links: the list entry refers to the same set. *)
Definition relinked (s : cache) (m : gmap positive rr_lent_t) (h t : option positive) : cache := set_lents m (set_ends h t s).
Lemma set_next_run p n e s (Q : unit -> cache -> Prop) : lents s !! p = Some e -> Q tt (set_lents (<[p := with_next n e]> (lents s)) s) -> crun (set_next p n) s Q.
Proof. intros. unfold set_next. repeat step. done. Qed.
Lemma set_prev_run p n e s (Q : unit -> cache -> Prop) : lents s !! p = Some e -> Q tt (set_lents (<[p := with_prev n e]> (lents s)) s) -> crun (set_prev p n) s Q.
Proof. intros. unfold set_prev. repeat step. done. Qed.
Lemma core_insert (m : gmap positive rr_lent_t) p e e' : m !! p = Some e -> core e' = core e -> core <$> <[p := e']> m = core <$> m.
Proof. intros Hp He. rewrite fmap_insert, He. apply insert_id. by rewrite lookup_fmap, Hp. Qed.

(** The entry before a segment is replaced, in the first of the segment or as the end of
    the list; and the one after it. *)
Lemma set_first_run pp pp' L qn h s : dseg (node <$> lents s) pp L qn -> NoDup L -> h = rrset_l s -> rrset_l_tail s = last_of pp L ->
  crun (match first_of L None with Some x => set_prev x pp' | None => sets (set_ends h pp') end) s (fun _ s' =>
    exists m, s' = relinked s m h (last_of pp' L) /\ dseg (node <$> m) pp' L qn /\ core <$> m = core <$> lents s /\ (forall p, p ∉ L -> m !! p = lents s !! p)).
Proof.
  intros Hs Hnd -> Ht. destruct L as [|q L]; cbn [first_of].
  { step. exists (lents s). split_and!; done. }
  pose proof Hs as [Hq _]. rewrite lookup_fmap in Hq. destruct (lents s !! q) as [e|] eqn:E; [|done]. apply NoDup_cons in Hnd as [Hnq _].
  eapply set_prev_run; [done|]. exists (<[q := with_prev pp' e]> (lents s)). split_and!.
  - rewrite last_of_cons, <- (last_of_cons pp), <- Ht. done.
  - rewrite fmap_insert. apply (dseg_set_first _ pp q L (node e)); [done..|by rewrite lookup_fmap, E].
  - by apply (core_insert _ _ e).
  - intros p Hp. rewrite lookup_insert_ne; [done|]. intros ->. set_solver.
Qed.
Lemma set_last_run pp L qn qn' t s : dseg (node <$> lents s) pp L qn -> NoDup L -> t = rrset_l_tail s -> rrset_l s = first_of L qn ->
  crun (match last_of None L with Some x => set_next x qn' | None => sets (set_ends qn' t) end) s (fun _ s' =>
    exists m, s' = relinked s m (first_of L qn') t /\ dseg (node <$> m) pp L qn' /\ core <$> m = core <$> lents s /\ (forall p, p ∉ L -> m !! p = lents s !! p)).
Proof.
  intros Hs Hnd -> Hh. destruct L as [|q L _] using rev_ind; [|rewrite last_of_snoc].
  { change (last_of None []) with (@None positive). step. exists (lents s). split_and!; done. }
  pose proof Hs as Hq. apply dseg_app in Hq as [_ [Hq _]]. rewrite lookup_fmap in Hq. destruct (lents s !! q) as [e|] eqn:E; [|done].
  apply NoDup_app in Hnd as (_ & Hnq & _). specialize (Hnq q).
  eapply set_next_run; [done|]. exists (<[q := with_next qn' e]> (lents s)). split_and!.
  - rewrite first_of_app. cbn [first_of]. rewrite first_of_app in Hh. cbn [first_of] in Hh. by rewrite <- Hh.
  - rewrite fmap_insert. apply (dseg_set_last _ pp L q (node e) qn); [done| |by rewrite lookup_fmap, E]. intros Hin. apply Hnq; set_solver.
  - by apply (core_insert _ _ e).
  - intros p Hp. rewrite lookup_insert_ne; [done|]. intros ->. set_solver.
Qed.
Lemma dseg_same (m m' : gmap positive rr_lent_t) pp L qn : (forall p, p ∈ L -> m' !! p = m !! p) -> dseg (node <$> m) pp L qn -> dseg (node <$> m') pp L qn.
Proof.
  revert pp. induction L as [|x L IH]; intros pp Hm; [done|]. intros [H1 H2]. split; [|apply IH; [set_solver|done]].
  rewrite lookup_fmap in *. by rewrite Hm by set_solver.
Qed.
Lemma last_of_app pp L1 L2 : last_of pp (L1 ++ L2) = last_of (last_of pp L1) L2.
Proof. unfold last_of. rewrite last_app. by destruct (last L2). Qed.

Lemma remove_rrl_run L1 a L2 s : rlist (L1 ++ a :: L2) s ->
  exists m h t, remove_rrl a s = Ok (tt, relinked s m h t) /\ rlist (L1 ++ L2) (relinked s m h t) /\ core <$> m = delete a (core <$> lents s).
Proof.
  intros Hl. destruct (rlist_mid _ _ _ _ Hl) as (e & He & Hn & Hp). destruct Hl as [Hnd Hs Hh Ht].
  apply NoDup_app in Hnd as (N1 & N12 & N2). apply NoDup_cons in N2 as [Na N2]. rewrite last_of_app in Ht.
  apply dseg_app in Hs as [S1 [_ S2]]. cbn [first_of head tail] in S1, Hh, Ht. rewrite first_of_app in Hh. rewrite last_of_cons in Ht.
  assert (Ha1 : a ∉ L1) by (intros Hin; apply (N12 _ Hin); set_solver).
  assert (N3 : forall p, p ∈ L1 -> p ∉ L2) by (intros p H1 H2; apply (N12 _ H1); set_solver).
  cut (crun (remove_rrl a) s (fun _ s' => exists m h t, s' = relinked s m h t /\ rlist (L1 ++ L2) s' /\ core <$> m = delete a (core <$> lents s))).
  { intros H. apply crun_out in H as ([] & s' & E & m & h & t & -> & Hr & Hc). eauto 6. }
  unfold remove_rrl. do 5 step. rewrite Hn, Hp.
  use (set_first_run (Some a) (last_of None L1) L2 None) as (m1 & -> & T2 & C1 & K1); [done..|]. do 3 step.
  use (set_last_run None L1 (Some a) (first_of L2 None)) as (m2 & -> & T1 & C2 & K2); [|done..|]; cbn [relinked set_lents set_ends lents rrset_l rrset_l_tail] in *.
  { eapply dseg_same; [|done]. eauto. }
  step; [rewrite K2, K1 by done; eauto|]. eexists (delete a m2), _, _. split; [done|]. split.
  - split; cbn; [apply NoDup_app; eauto|rewrite fmap_delete; apply dseg_delete; [by apply not_elem_of_app|]|by rewrite first_of_app|by rewrite last_of_app].
    apply dseg_app. split; [done|]. eapply dseg_same; [|done]. intros p Hp2. apply K2. intros H1. by apply (N3 p).
  - by rewrite fmap_delete, C2, C1.
Qed.

(** * Timestamps *)
Definition stamp (s : cache) (a : positive) : Z :=
  match lents s !! a with
  | None => 0
  | Some e =>
      match rrset e with
      | Some r => from_option ts 0 (rrsets s !! r)
      | None => match side <$> cents s !! cent e with Some (Neg _ _ t) => t | _ => 0 end
      end
  end.
(** The timestamp of the entry can be read. *)
Definition dated (s : cache) (a : positive) : Prop :=
  exists e, lents s !! a = Some e /\
    match rrset e with Some r => is_Some (rrsets s !! r) | None => exists c l t n, cents s !! cent e = Some c /\ side c = Neg l t n end.
Lemma get_rrlent_ts_run a s (Q : Z -> cache -> Prop) : dated s a -> Q (stamp s a) s -> crun (get_rrlent_ts a) s Q.
Proof.
  intros (e & He & Hr) HQ. unfold stamp in HQ. rewrite He in HQ. unfold get_rrlent_ts. do 2 step. destruct (rrset e) as [r|].
  - destruct Hr as [x Hx]. rewrite Hx in HQ. do 2 step. by step.
  - destruct Hr as (c & l & t & n & Hc & Hs). rewrite Hc in HQ. cbn [fmap option_fmap option_map] in HQ. rewrite Hs in HQ. do 3 step.
    apply crun_lift. unfold the_neg. by rewrite Hs.
Qed.
Lemma core_lookup (m m' : gmap positive rr_lent_t) a e : core <$> m = core <$> m' -> m !! a = Some e -> exists e', m' !! a = Some e' /\ core e' = core e.
Proof.
  intros H Ha. assert (E : (core <$> m) !! a = (core <$> m') !! a) by (by rewrite H). rewrite !lookup_fmap, Ha in E.
  destruct (m' !! a) as [e'|]; [|done]. injection E as E1 E2 E3. exists e'. split; [done|]. unfold core. congruence.
Qed.
Lemma stamp_core s m h t a : core <$> m = core <$> lents s -> stamp (relinked s m h t) a = stamp s a.
Proof.
  intros H. unfold stamp. cbn. destruct (m !! a) as [e|] eqn:E.
  - destruct (core_lookup _ _ _ _ H E) as (e' & -> & Hc). injection Hc as -> -> _. done.
  - destruct (lents s !! a) as [e'|] eqn:E'; [|done]. destruct (core_lookup _ _ _ _ (eq_sym H) E') as (? & ? & _). congruence.
Qed.
Lemma dated_core s m h t a : core <$> m = core <$> lents s -> dated s a -> dated (relinked s m h t) a.
Proof.
  intros H (e & He & Hr). destruct (core_lookup _ _ _ _ (eq_sym H) He) as (e' & He' & Hc). injection Hc as H1 H2 _.
  exists e'. split; [done|]. cbn. by rewrite H1, H2.
Qed.

(** The new entry goes behind the last one that is not younger. *)
Definition placed (s : cache) (t : Z) (L1 L2 : list positive) : Prop :=
  match last L1 with Some a => stamp s a <= t | None => True end /\ Forall (fun b => t < stamp s b) L2.
Lemma find_place_run fuel t L s : (length L <= fuel)%nat -> (exists qn, dseg (node <$> lents s) None L qn) ->
  Forall (dated s) L -> exists L1 L2, L = L1 ++ L2 /\ find_place fuel t (last_of None L) s = Ok (last_of None L1, s) /\ placed s t L1 L2.
Proof.
  revert fuel. induction L as [|a L IH] using rev_ind; intros fuel Hf Hd Hdt.
  { exists [], []. split; [done|]. split; [by destruct fuel|]. by split. }
  rewrite length_app in Hf. destruct fuel as [|fuel]; [cbn in Hf; lia|]. apply Forall_app in Hdt as [Hdt Ha]. apply Forall_inv in Ha.
  assert (Hsa : dseg (node <$> lents s) None L (Some a) /\ exists e, lents s !! a = Some e /\ prev e = last_of None L).
  { destruct Hd as [x Hd]. apply dseg_app in Hd as [Hd [Hl _]]. split; [done|]. rewrite lookup_fmap in Hl.
    destruct (lents s !! a) as [e|]; [|done]. injection Hl as Hl1 Hl2; eauto. }
  destruct Hsa as (Hs & e & He & Hp). rewrite last_of_snoc. destruct (Z.leb_spec (stamp s a) t) as [Hle|Hlt].
  - exists (L ++ [a]), []. rewrite app_nil_r. split; [done|]. split; [|split; [by rewrite last_snoc|done]].
    cbn [find_place]. rewrite last_of_snoc. pose proof (get_rrlent_ts_run a s (fun z s' => z = stamp s a /\ s' = s) Ha (conj eq_refl eq_refl)) as Hg.
    apply crun_out in Hg as (z & s' & E & -> & ->). unfold mbind, cm_bind. rewrite E. destruct (Z.leb_spec (stamp s a) t); [done|lia].
  - destruct (IH fuel) as (L1 & L2 & -> & E1 & HL1 & HL2); [cbn in Hf; lia|eauto|done|]. exists L1, (L2 ++ [a]). rewrite app_assoc. split; [done|].
    split; [|split; [done|]; apply Forall_app; auto].
    cbn [find_place]. pose proof (get_rrlent_ts_run a s (fun z s' => z = stamp s a /\ s' = s) Ha (conj eq_refl eq_refl)) as Hg.
    apply crun_out in Hg as (z & s' & E & -> & ->). unfold mbind, cm_bind. rewrite E. destruct (Z.leb_spec (stamp s a) t); [lia|].
    assert (Eg : get_lent a s = Ok (e, s)) by (unfold get_lent, mbind, cm_bind, gets; by rewrite He). by rewrite Eg, Hp.
Qed.

(** The entry that is listed learns of its list entry. *)
Definition attach (o : option positive) (ce ne : positive) (s : cache) : cache :=
  match o with
  | Some r => match rrsets s !! r with Some x => set_rrsets (<[r := with_lent (Some ne) x]> (rrsets s)) s | None => s end
  | None =>
      match cents s !! ce with
      | Some c => match side c with Neg _ t n => set_cents (<[ce := with_side (Neg (Some ne) t n) c]> (cents s)) s | Rr _ _ => s end
      | None => s
      end
  end.
Definition listed (L1 L2 : list positive) (o : option positive) (ce : positive) (i : Z) (s s' : cache) : Prop :=
  let ne := brk s in
  exists m h t, s' = attach o ce ne (relinked (set_brk (Pos.succ ne) (set_asked (S (asked s)) s)) m h t) /\
    dseg (node <$> m) None (L1 ++ ne :: L2) None /\ h = first_of (L1 ++ ne :: L2) None /\ t = last_of None (L1 ++ ne :: L2) /\
    core <$> m = <[ne := (o, ce, i)]> (core <$> lents s).
Definition is_local (o : option positive) (c : dns_cent_t) (s : cache) : Prop :=
  (exists r x, o = Some r /\ rrsets s !! r = Some x /\ has (rflags x) CF_LOCAL = true) \/ has (flags c) DF_LOCAL = true.
Definition own_stamp (o : option positive) (c : dns_cent_t) (s : cache) : Z :=
  match o with
  | Some r => from_option ts 0 (rrsets s !! r)
  | None => match side c with Neg _ _ t => t | Rr _ _ => 0 end
  end.
Definition listable (o : option positive) (c : dns_cent_t) (s : cache) : Prop :=
  match o with Some r => is_Some (rrsets s !! r) | None => exists l t n, side c = Neg l t n end.

(** The part of [insert_rrl] that links the new entry. *)
Lemma link_sorted L ne e0 t s : rlist L s -> ne ∉ L -> Forall (dated s) L -> (length L <= t)%nat ->
  forall (m0 := <[ne := e0]> (lents s)) z, next e0 = None -> prev e0 = None -> crun (le ← find_place t z (rrset_l_tail s);
        match le with
        | None =>
            _ ← set_next ne (rrset_l s);
            _ ← (match rrset_l s with Some x => set_prev x (Some ne) | None => sets (set_ends (rrset_l s) (Some ne)) end : cm unit);
            t ← gets rrset_l_tail;
            sets (set_ends (Some ne) t)
        | Some le =>
            e ← get_lent le;
            _ ← set_next ne (next e);
            _ ← set_prev ne (Some le);
            _ ← (match next e with Some x => set_prev x (Some ne) | None => sets (set_ends (rrset_l s) (Some ne)) end : cm unit);
            set_next le (Some ne)
        end) (set_lents m0 s) (fun _ s' => exists L1 L2 m, L = L1 ++ L2 /\ placed s z L1 L2 /\
          s' = relinked s m (first_of (L1 ++ ne :: L2) None) (last_of None (L1 ++ ne :: L2)) /\
          dseg (node <$> m) None (L1 ++ ne :: L2) None /\ core <$> m = core <$> m0).
Proof.
  intros [Hnd Hs Hh Ht] Hne Hd Hf m0 z Hen Hep. cbn in Hh, Ht.
  assert (Hst : forall a, a ∈ L -> stamp (set_lents m0 s) a = stamp s a).
  { intros a Ha. unfold stamp. cbn. unfold m0. rewrite lookup_insert_ne; [done|set_solver]. }
  assert (Hd0 : Forall (dated (set_lents m0 s)) L).
  { rewrite Forall_forall in *. intros a Ha. destruct (Hd a Ha) as (e & He & Hx). exists e. split; [|done].
    cbn. unfold m0. rewrite lookup_insert_ne; [done|set_solver]. }
  assert (Hs0 : dseg (node <$> m0) None L None) by (eapply dseg_same; [|done]; intros p Hp; unfold m0; rewrite lookup_insert_ne; [done|set_solver]).
  step. rewrite Ht. destruct (find_place_run t z L (set_lents m0 s)) as (L1 & L2 & -> & E & HL1 & HL2); [done|by exists None|done|].
  eapply crun_Ok; [exact E|]. clear E.
  assert (Hpl : placed s z L1 L2).
  { split; [destruct (last L1) eqn:El; [|done]; rewrite <- Hst; [done|]; apply elem_of_app; left; by apply last_Some_elem_of|].
    rewrite Forall_forall in *. intros b Hb. rewrite <- Hst by set_solver. auto. }
  apply NoDup_app in Hnd as (N1 & N12 & N2). apply not_elem_of_app in Hne as [Hne1 Hne2]. apply dseg_app in Hs0 as [S1 S2]. rewrite last_of_app in Ht.
  assert (Hm0 : m0 !! ne = Some e0) by apply lookup_insert_eq. rewrite first_of_app in Hh.
  destruct L1 as [|le L1 _] using rev_ind; [change (last_of None []) with (@None positive)|rewrite last_of_snoc].
  - cbn [first_of app] in *. step. eapply set_next_run; [exact Hm0|]. rewrite Hh.
    set (m1 := <[ne := with_next (first_of L2 None) e0]> m0). cbn [lents set_lents]. fold m1.
    assert (T2 : dseg (node <$> m1) None L2 None) by (eapply dseg_same; [|exact S2]; intros p Hp; apply lookup_insert_ne; set_solver).
    step. use (set_first_run None (Some ne) L2 None) as (m & -> & T & C & K); [done..|]. do 3 step.
    exists [], L2, m. split; [done|]. split; [done|]. split; [cbn [app first_of]; by rewrite last_of_cons|]. split.
    + cbn [app dseg]. split; [|done]. rewrite lookup_fmap, K by done. cbn. unfold m1. rewrite lookup_insert_eq. cbn. unfold node. cbn. by rewrite Hep.
    + cbn in C. rewrite C. by apply (core_insert _ _ e0).
  - assert (Hle : exists e, m0 !! le = Some e /\ next e = first_of L2 None).
    { apply dseg_app in S1 as [_ [S1 _]]. rewrite lookup_fmap in S1. destruct (m0 !! le) as [e|]; [|done]. injection S1 as ? ?. eauto. }
    destruct Hle as (e & He & Hen'). rewrite last_of_snoc in *.
    assert (le <> ne) by set_solver.
    do 3 step. rewrite Hen'. eapply set_next_run; [exact Hm0|].
    set (e1 := with_next (first_of L2 None) e0). set (m1 := <[ne := e1]> m0). cbn [lents set_lents]. fold m1.
    step. eapply set_prev_run; [apply lookup_insert_eq|]. set (e2 := with_prev (Some le) e1). set (m2 := <[ne := e2]> m1). cbn [lents set_lents]. fold m2.
    assert (Hm2 : forall p, p <> ne -> m2 !! p = m0 !! p) by (intros p Hp; unfold m2, m1; by rewrite !lookup_insert_ne).
    step. use (set_first_run (Some le) (Some ne) L2 None) as (m & -> & T2 & C & K); cbn [lents set_lents rrset_l rrset_l_tail] in *.
    { eapply dseg_same; [|exact S2]. intros p Hp. apply Hm2. set_solver. }
    { done. } { done. } { by rewrite Ht. }
    set (s1 := relinked (set_lents m2 s) m (rrset_l s) (last_of (Some ne) L2)).
    pose proof (set_last_run None (L1 ++ [le]) (first_of L2 None) (Some ne) (last_of (Some ne) L2) s1) as Hlast. rewrite last_of_snoc in Hlast.
    eapply crun_mono; [apply Hlast|]; [|done|done|exact Hh|].
    { eapply dseg_same; [|exact S1]. intros p Hp. cbn. rewrite K by auto. apply Hm2. intros ->. by apply Hne1. }
    intros _ ? (m' & -> & T1 & C' & K'). exists (L1 ++ [le]), L2, m'. split; [done|]. split; [done|]. split; [|split].
    + rewrite (first_of_app (L1 ++ [le]) (ne :: L2)), (last_of_app None (L1 ++ [le]) (ne :: L2)), last_of_cons. done.
    + apply dseg_app. split; [done|]. rewrite last_of_snoc. cbn [dseg]. split.
      * rewrite lookup_fmap, K' by done. cbn. rewrite K by done. unfold m2. by rewrite lookup_insert_eq.
      * eapply dseg_same; [|exact T2]. intros p Hp. apply K'. intros Hx. by apply (N12 p).
    + rewrite C'. cbn. rewrite C. unfold m2, m1. rewrite insert_insert_eq. by apply (core_insert _ _ e0).
Qed.
Lemma link_last L ne e0 s : rlist L s -> ne ∉ L -> next e0 = None -> prev e0 = None ->
  crun (_ ← set_prev ne (rrset_l_tail s);
        _ ← (match rrset_l_tail s with Some x => set_next x (Some ne) | None => sets (set_ends (Some ne) (rrset_l_tail s)) end : cm unit);
        h ← gets rrset_l;
        sets (set_ends h (Some ne))) (set_lents (<[ne := e0]> (lents s)) s) (fun _ s' => exists m,
          s' = relinked s m (first_of (L ++ [ne]) None) (last_of None (L ++ [ne])) /\
          dseg (node <$> m) None (L ++ [ne]) None /\ core <$> m = core <$> <[ne := e0]> (lents s)).
Proof.
  intros [Hnd Hs Hh Ht] Hne Hen Hep. cbn in Hh, Ht. step. eapply set_prev_run; [apply lookup_insert_eq|]. cbn [lents set_lents].
  rewrite insert_insert_eq. set (m1 := <[ne := with_prev (rrset_l_tail s) e0]> (lents s)). step. rewrite Ht.
  use (set_last_run None L None (Some ne) (last_of None L)) as (m & -> & T & C & K).
  { eapply dseg_same; [|exact Hs]. intros p Hp. cbn. unfold m1. rewrite lookup_insert_ne; [done|set_solver]. }
  { done. } { done. } { done. }
  do 3 step. exists m. split; [by rewrite (first_of_app L), last_of_snoc|]. split.
  - apply dseg_app. split; [done|]. split; [|done]. rewrite lookup_fmap, K by done. cbn. unfold m1. rewrite lookup_insert_eq.
    unfold node. cbn. by rewrite Hen, Ht.
  - rewrite C. cbn. unfold m1. rewrite <- (insert_insert_eq (lents s) ne (with_prev (rrset_l_tail s) e0) e0). apply (core_insert _ _ e0); [apply lookup_insert_eq|done].
Qed.

(** [insert_rrl]: without memory nothing is done; a local set or entry is not listed;
    otherwise the new entry stands behind those that are not younger. *)
Lemma insert_rrl_run L o ce i c s : rlist L s -> Forall (dated s) L -> (length L <= size (lents s))%nat -> brk s ∉ L ->
  cents s !! ce = Some c -> listable o c s ->
  crun (insert_rrl o ce i) s (fun ok s' =>
    (ok = true /\ s' = s /\ is_local o c s) \/ (ok = false /\ memory (env s) (asked s) = false /\ s' = set_asked (S (asked s)) s) \/
    (ok = true /\ exists L1 L2, L = L1 ++ L2 /\ listed L1 L2 o ce i s s' /\
       if insert_sort s then placed s (own_stamp o c s) L1 L2 else L2 = [])).
Proof.
  intros Hl Hd Hf Hne Hc Ho. unfold insert_rrl. do 3 step.
  apply (crun_mono _ _ (fun b s' => s' = s /\ (b = true -> is_local o c s))).
  { destruct o as [r|]; [|by step]. destruct Ho as [x Hx]. do 3 step. split; [done|]. intros Hb. left. eauto. }
  intros b ? [-> Hb]. destruct (b || has (flags c) DF_LOCAL) eqn:Eb.
  { step. left. split; [done|]. split; [done|]. apply orb_true_iff in Eb as [Eb|Eb]; [auto|by right]. }
  do 2 step. destruct ok; [|step; right; left; done]. do 2 step. do 5 step.
  set (ne := brk s). set (e0 := Lent None None o ce i).
  set (s1 := set_brk (Pos.succ ne) (set_asked (S (asked s)) s)).
  do 6 step. change (brk (set_asked (S (asked s)) s)) with ne. change (set_brk (Pos.succ ne) (set_asked (S (asked s)) s)) with s1.
  change (rrset_l (set_lents _ s1)) with (rrset_l s1). change (rrset_l_tail (set_lents _ s1)) with (rrset_l_tail s1).
  change (insert_sort (set_lents _ s1)) with (insert_sort s). fold e0.
  assert (Hl1 : rlist L s1) by exact Hl. assert (Hd1 : Forall (dated s1) L) by exact Hd.
  (** linking, then the new entry is known to what it lists *)
  apply (crun_mono _ _ (fun _ s' => exists L1 L2 m, L = L1 ++ L2 /\ (if insert_sort s then placed s (own_stamp o c s) L1 L2 else L2 = []) /\
          s' = relinked s1 m (first_of (L1 ++ ne :: L2) None) (last_of None (L1 ++ ne :: L2)) /\
          dseg (node <$> m) None (L1 ++ ne :: L2) None /\ core <$> m = core <$> <[ne := e0]> (lents s))).
  { destruct (insert_sort s).
    - step. eapply (get_rrlent_ts_run ne).
      { exists e0. cbn. rewrite lookup_insert_eq. split; [done|]. destruct o; [done|]. destruct Ho as (l & t & n & Ho). eauto 6. }
      assert (stamp (set_lents (<[ne:=e0]> (lents s1)) s1) ne = own_stamp o c s) as ->.
      { unfold stamp, own_stamp. cbn. rewrite lookup_insert_eq. cbn. destruct o; [done|]. by rewrite Hc. }
      use (link_sorted L ne e0 (size (lents s1)) s1) as (L1 & L2 & m & -> & Hp & -> & Hs & Hcm); try done.
      exists L1, L2, m. split_and!; done.
    - use (link_last L ne e0 s1) as (m & -> & Hs & Hcm); try done. exists L, [], m. rewrite app_nil_r. split_and!; done. }
  intros _ ? (L1 & L2 & m & -> & Hpl & -> & Hs & Hcm). step.
  apply (crun_mono _ _ (fun _ s' => s' = attach o ce ne (relinked s1 m (first_of (L1 ++ ne :: L2) None) (last_of None (L1 ++ ne :: L2))))).
  { unfold attach. destruct o as [r|].
    - destruct Ho as [x Hx]. do 2 step. apply crun_put_set; [by exists x|]. cbn. by rewrite Hx.
    - destruct Ho as (l & t & n & Ho). do 3 step. apply crun_lift. unfold the_neg. rewrite Ho. cbn. apply crun_put_cent; [by exists c|]. cbn. by rewrite Hc, Ho. }
  intros _ ? ->. step. right. right. split; [done|]. exists L1, L2. split; [done|]. split; [|done].
  eexists m, _, _. split; [done|]. split; [done|]. split; [done|]. split; [done|]. by rewrite Hcm, fmap_insert.
Qed.
