(* ===== verification/DnsSort.v ===== *)
(** [sort_rrl] sorts the list of pdnsd's cache by age: a merge sort on the links
    [next], after which [prev] is set anew. *)
From stdpp Require Import sorting.
From S2P Require Import Prelude CLib Rhn HevList DnsStore DnsCents DnsRrl.

(** * Chains of the links [next] *)
Fixpoint nseg (m : gmap positive rr_lent_t) (h : option positive) (l : list positive) : Prop :=
  match l with
  | [] => h = None
  | a :: l => h = Some a /\ exists e, m !! a = Some e /\ nseg m (next e) l
  end.
Lemma nseg_same m m' l : forall h, (forall b, b ∈ l -> m' !! b = m !! b) -> nseg m h l -> nseg m' h l.
Proof.
  induction l as [|a l IH]; intros h Hm; [done|]. intros (-> & e & He & Hl). split; [done|]. exists e. rewrite Hm by set_solver. split; [done|].
  apply IH; [set_solver|done].
Qed.
Lemma nseg_head m h a l : nseg m h (a :: l) -> h = Some a.
Proof. by intros [-> _]. Qed.
Lemma nseg_first m h l : nseg m h l -> h = first_of l None.
Proof. by destruct l as [|a l]; [|intros [-> _]]. Qed.
Lemma nseg_dom m l : forall h b, nseg m h l -> b ∈ l -> is_Some (m !! b).
Proof.
  induction l as [|a l IH]; intros h b; [intros _ H; by apply not_elem_of_nil in H|]. intros (_ & e & He & Hl) [->|Hb]%elem_of_cons; [eauto|by eapply IH].
Qed.
Lemma nodup_size (m : gmap positive rr_lent_t) (l : list positive) : NoDup l -> (forall b, b ∈ l -> is_Some (m !! b)) -> (length l <= size m)%nat.
Proof.
  intros Hnd Hl. rewrite <- (size_list_to_set (C := gset positive) l) by done. rewrite <- (size_dom (D := gset positive)). apply subseteq_size.
  intros a Ha. apply elem_of_list_to_set in Ha. apply elem_of_dom. auto.
Qed.

Section Sort.
Context (s0 : cache).
Implicit Types (m : gmap positive rr_lent_t) (P Q R : list positive) (h w : option positive).
Definition older (a b : positive) : Prop := stamp s0 a <= stamp s0 b.
Definition aged (l : list positive) : Prop := StronglySorted older l.
Definition state m : cache := set_lents m s0.
(** The list entries as they are, but for their links. *)
Definition links_of m : Prop := core <$> m = core <$> lents s0.
Lemma links_of_next m a e n : links_of m -> m !! a = Some e -> links_of (<[a := with_next n e]> m).
Proof. intros H Ha. unfold links_of. by rewrite (core_insert _ _ e). Qed.
Lemma state_stamp m a : links_of m -> stamp (state m) a = stamp s0 a.
Proof. intros H. exact (stamp_core s0 m (rrset_l s0) (rrset_l_tail s0) a H). Qed.
Lemma state_dated m a : links_of m -> dated s0 a -> dated (state m) a.
Proof. intros H. exact (dated_core s0 m (rrset_l s0) (rrset_l_tail s0) a H). Qed.
Lemma stamp_run m a (Q : Z -> cache -> Prop) : links_of m -> dated s0 a -> Q (stamp s0 a) (state m) -> crun (get_rrlent_ts a) (state m) Q.
Proof. intros H Ha HQ. apply get_rrlent_ts_run; [by apply state_dated|]. by rewrite state_stamp. Qed.

(** * Merging *)
Lemma merge_aged x P Q R : R ≡ₚ P ++ Q -> (forall y, y ∈ P ++ Q -> older x y) -> aged R -> aged (x :: R).
Proof. intros HR Hx HS. constructor; [done|]. apply Forall_forall. intros y Hy. apply Hx. by rewrite <- HR. Qed.
Definition merged (P Q R : list positive) : Prop := R ≡ₚ P ++ Q /\ (aged P -> aged Q -> aged R).
Lemma aged_cons p P y : aged (p :: P) -> y ∈ p :: P -> older p y.
Proof. intros H [->|Hy]%elem_of_cons; [unfold older; lia|]. inversion_clear H as [|?? _ HF]. rewrite Forall_forall in HF. auto. Qed.
Lemma merged_left p P q Q R : merged P (q :: Q) R -> older p q -> merged (p :: P) (q :: Q) (p :: R).
Proof.
  intros [HR HS] Hpq. split; [by rewrite HR|]. intros HP HQ. inversion HP as [|?? HP' HF]; subst. eapply (merge_aged p P (q :: Q)); [done| |by apply HS].
  intros y [Hy|Hy]%elem_of_app; [rewrite Forall_forall in HF; by apply HF|]. pose proof (aged_cons q Q y HQ Hy). unfold older in *. lia.
Qed.
Lemma merged_sym P Q R : merged Q P R -> merged P Q R.
Proof. intros [H1 H2]. split; [by rewrite Permutation_app_comm|auto]. Qed.
Lemma merged_nil_l Q : merged [] Q Q.
Proof. by split. Qed.

(** What [merge_loop] leaves: its chain hangs from [w], or is the result. *)
Definition hangs m m' l l' w R : Prop :=
  match w with
  | None => nseg m' l' R
  | Some a => l' = l /\ exists e e', m !! a = Some e /\ m' !! a = Some e' /\ nseg m' (next e') R
  end.
Definition merge_post m l w (A : list positive) (M : list positive -> Prop) (l' : option positive) (s' : cache) : Prop :=
  exists m' R, s' = state m' /\ links_of m' /\ M R /\ hangs m m' l l' w R /\ (forall b, b ∉ A -> w <> Some b -> m' !! b = m !! b).

(** The first of the remaining entries goes behind [w]. *)
Lemma merge_link m l w x : links_of m -> (forall a, w = Some a -> a <> x /\ is_Some (m !! a)) ->
  crun (match w with None => mret (Some x) | Some a => _ ← set_next a (Some x); mret l end : cm (option positive)) (state m) (fun l1 s' =>
    exists m1, s' = state m1 /\ links_of m1 /\ (forall b, w <> Some b -> m1 !! b = m !! b) /\
      match w with None => l1 = Some x | Some a => l1 = l /\ exists e, m !! a = Some e /\ m1 !! a = Some (with_next (Some x) e) end).
Proof.
  intros Hm Hw. destruct w as [a|]; [|step; exists m; done]. destruct (Hw a eq_refl) as [Ha [e He]]. step. eapply set_next_run; [exact He|]. step.
  exists (<[a := with_next (Some x) e]> m). split; [done|]. split; [by apply links_of_next|]. split; [intros b Hb; rewrite lookup_insert_ne; congruence|].
  split; [done|]. exists e. by rewrite lookup_insert_eq.
Qed.
(** One round takes [x], the older of the two, and goes on with the rest of its chain,
    by [rec]. *)
Lemma merge_round m l w x other X O (rec : option positive -> positive -> cm (option positive)) :
  (forall m1 l1 n X', links_of m1 -> nseg m1 (Some n) (n :: X') -> nseg m1 (Some other) (other :: O) -> X = n :: X' -> is_Some (m1 !! x) ->
     crun (rec l1 n) (state m1) (merge_post m1 l1 (Some x) ((n :: X') ++ (other :: O)) (merged (n :: X') (other :: O)))) ->
  links_of m -> nseg m (Some x) (x :: X) -> nseg m (Some other) (other :: O) -> NoDup ((x :: X) ++ (other :: O)) -> older x other ->
  (forall a, w = Some a -> a ∉ (x :: X) ++ (other :: O) /\ is_Some (m !! a)) ->
  crun (l ← (match w with None => mret (Some x) | Some a => _ ← set_next a (Some x); mret l end : cm (option positive));
        e ← get_lent x;
        match next e with
        | None => _ ← set_next x (Some other); mret l
        | Some n => rec l n
        end) (state m) (merge_post m l w ((x :: X) ++ (other :: O)) (merged (x :: X) (other :: O))).
Proof.
  intros Hrec Hm HX HO Hnd Hold Hw. step. eapply crun_mono; [apply (merge_link m l w x Hm)|].
  { intros a Ha. destruct (Hw a Ha) as [Hna He]. split; [set_solver|done]. }
  intros l1 ? (m1 & -> & Hm1 & Hsame & Hl1). destruct HX as (_ & e & He & HX). apply NoDup_cons in Hnd as [Hx Hnd].
  assert (Hnw : forall b, b ∈ (x :: X) ++ (other :: O) -> w <> Some b) by (intros b Hb ->; by destruct (Hw b eq_refl)).
  assert (He1 : m1 !! x = Some e) by (rewrite Hsame; [done|apply Hnw; set_solver]).
  assert (HX1 : nseg m1 (next e) X) by (eapply nseg_same; [|exact HX]; intros b Hb; apply Hsame, Hnw; set_solver).
  assert (HO1 : nseg m1 (Some other) (other :: O)) by (eapply nseg_same; [|exact HO]; intros b Hb; apply Hsame, Hnw; set_solver).
  (** what is known once the rest [R] hangs from [x] *)
  assert (Hend : forall m2 R e2, links_of m2 -> merged X (other :: O) R -> m2 !! x = Some e2 -> nseg m2 (next e2) R ->
    (forall b, b ∉ X ++ (other :: O) -> b <> x -> m2 !! b = m1 !! b) -> merge_post m l w ((x :: X) ++ (other :: O)) (merged (x :: X) (other :: O)) l1 (state m2)).
  { intros m2 R e2 Hm2 HR He2 Hs2 Hfr. exists m2, (x :: R). split; [done|]. split; [done|]. split; [by apply merged_left|]. split.
    - destruct w as [a|]; cbn.
      + destruct Hl1 as (-> & ea & Hea & Hea1). split; [done|]. exists ea, (with_next (Some x) ea). destruct (Hw a eq_refl) as [Ha _].
        split; [done|]. rewrite Hfr by set_solver. split; [done|]. split; [done|]. by exists e2.
      + split; [done|]. by exists e2.
    - intros b Hb Hwb. rewrite Hfr by set_solver. by apply Hsame. }
  step. eapply crun_get_lent; [exact He1|]. destruct (next e) as [n|] eqn:En.
  - destruct X as [|n' X']; [done|]. pose proof (nseg_head _ _ _ _ HX1) as [= <-].
    eapply crun_mono; [apply (Hrec m1 l1 n X' Hm1 HX1 HO1 eq_refl); by exists e|]. intros l2 ? (m2 & R & -> & Hm2 & HR & (-> & e1 & e2 & _ & He2 & Hs2) & Hfr).
    eapply Hend; [done|done|exact He2|exact Hs2|]. intros b Hb Hbx. apply Hfr; congruence.
  - destruct X as [|n' X']; [|by destruct HX1]. step. eapply set_next_run; [exact He1|]. step.
    eapply (Hend (<[x := with_next (Some other) e]> m1) (other :: O)); [by apply links_of_next|apply merged_nil_l|apply lookup_insert_eq| |].
    + eapply nseg_same; [|exact HO1]. intros b Hb. rewrite lookup_insert_ne; [done|]. intros <-. set_solver.
    + intros b _ Hb. by rewrite lookup_insert_ne.
Qed.
Lemma merge_loop_run fuel : forall m l w p q P Q, links_of m -> nseg m (Some p) (p :: P) -> nseg m (Some q) (q :: Q) -> NoDup ((p :: P) ++ (q :: Q)) ->
  Forall (dated s0) ((p :: P) ++ (q :: Q)) -> (length P + length Q < fuel)%nat -> (forall a, w = Some a -> a ∉ (p :: P) ++ (q :: Q) /\ is_Some (m !! a)) ->
  crun (merge_loop fuel l w p q) (state m) (merge_post m l w ((p :: P) ++ (q :: Q)) (merged (p :: P) (q :: Q))).
Proof.
  induction fuel as [|fuel IH]; intros m l w p q P Q Hm HP HQ Hnd Hd Hf Hw; [lia|]. cbn [merge_loop].
  pose proof Hd as Hd'. apply Forall_app in Hd' as [Hdp Hdq]. pose proof (Forall_inv Hdp) as Hdp1. pose proof (Forall_inv Hdq) as Hdq1.
  step. apply stamp_run; [done|done|]. step. apply stamp_run; [done|done|]. cbv zeta.
  destruct (Z.leb_spec (stamp s0 p) (stamp s0 q)) as [Hle|Hlt].
  - apply (merge_round m l w p q P Q (fun l n => merge_loop fuel l (Some p) n q)); try done. intros m1 l1 n X' Hm1 HX HO -> Hx.
    apply IH; try done; [by apply NoDup_cons in Hnd as [_ Hnd]|by apply Forall_cons in Hd as [_ Hd]|cbn [length] in Hf; lia|].
    intros a [= <-]. split; [|done]. by apply NoDup_cons in Hnd as [Hnd _].
  - rewrite (Permutation_app_comm (p :: P) (q :: Q)) in Hnd. rewrite (Permutation_app_comm (p :: P) (q :: Q)) in Hd.
    eapply crun_mono; [apply (merge_round m l w q p Q P (fun l n => merge_loop fuel l (Some q) p n)); try done|].
    + intros m1 l1 n X' Hm1 HX HO -> Hx. apply NoDup_cons in Hnd as [Hnq Hnd]. apply Forall_cons in Hd as [_ Hd].
      eapply crun_mono; [apply (IH m1 l1 (Some q) p n P X'); try done|].
      * by rewrite Permutation_app_comm.
      * by rewrite Permutation_app_comm.
      * cbn [length] in Hf. lia.
      * intros a [= <-]. split; [|done]. by rewrite Permutation_app_comm.
      * intros l' s' (m' & R & -> & H1 & H2 & H3 & H4). exists m', R. split_and!; try done; [by apply merged_sym|]. intros b Hb. apply H4. by rewrite Permutation_app_comm.
    + unfold older. lia.
    + intros a Ha. rewrite Permutation_app_comm. auto.
    + intros l' s' (m' & R & -> & H1 & H2 & H3 & H4). exists m', R. split_and!; try done; [by apply merged_sym|]. intros b Hb. apply H4. by rewrite Permutation_app_comm.
Qed.
Definition merges m P Q (r : option positive) (s' : cache) : Prop :=
  exists m' R, s' = state m' /\ links_of m' /\ merged P Q R /\ nseg m' r R /\ (forall b, b ∉ P ++ Q -> m' !! b = m !! b).
Lemma listmerge_run m p q P Q : links_of m -> nseg m p P -> nseg m q Q -> NoDup (P ++ Q) -> Forall (dated s0) (P ++ Q) ->
  crun (listmerge p q) (state m) (merges m P Q).
Proof.
  intros Hm HP HQ Hnd Hd. unfold listmerge. destruct P as [|p0 P].
  { cbn in HP. subst p. step. exists m, Q. split_and!; done. }
  destruct Q as [|q0 Q].
  { cbn in HQ. subst q. pose proof (nseg_head _ _ _ _ HP) as ->. step. exists m, (p0 :: P). split_and!; try done. split; [by rewrite app_nil_r|auto]. }
  pose proof (nseg_head _ _ _ _ HP) as ->. pose proof (nseg_head _ _ _ _ HQ) as ->. do 2 step. cbn [lents state set_lents].
  eapply crun_mono; [apply (merge_loop_run (size m) m None None p0 q0 P Q); try done|].
  - enough (length ((p0 :: P) ++ (q0 :: Q)) <= size m)%nat as Hle by (rewrite length_app in Hle; cbn [length] in Hle; lia).
    apply nodup_size; [done|]. intros b [Hb|Hb]%elem_of_app; [exact (nseg_dom _ _ _ _ HP Hb)|exact (nseg_dom _ _ _ _ HQ Hb)].
  - intros r s' (m' & R & -> & H1 & H2 & H3 & H4). exists m', R. split_and!; try done. intros b Hb. by apply H4.
Qed.

(** * The array of chains

    A chain at index [k] has 2^k entries. *)
Definition chains m (tmp : list (option positive)) (LS : list (list positive)) : Prop := Forall2 (nseg m) tmp LS.
Fixpoint binary (k : nat) (tmp : list (option positive)) (LS : list (list positive)) : Prop :=
  match tmp, LS with
  | x :: tmp, l :: LS => (match x with Some _ => length l = (2 ^ k)%nat | None => True end) /\ binary (S k) tmp LS
  | _, _ => True
  end.
Lemma chains_same m m' tmp LS : (forall b, b ∈ concat LS -> m' !! b = m !! b) -> chains m tmp LS -> chains m' tmp LS.
Proof.
  intros H HC. induction HC as [|x l tmp LS Hx HC IH]; [constructor|]. cbn [concat] in H. constructor; [eapply nseg_same; [|exact Hx]|apply IH]; set_solver.
Qed.
Lemma perm_front (a b c : list positive) : (a ++ b) ++ c ≡ₚ b ++ a ++ c.
Proof. rewrite (Permutation_app_comm a b). by rewrite <- app_assoc. Qed.
Record carried m m' (LS : list (list positive)) (C : list positive) (k : nat) (tmp' : list (option positive)) (LS' : list (list positive)) : Prop := {
  ca_links : links_of m';
  ca_perm : concat LS' ≡ₚ concat LS ++ C;
  ca_chains : chains m' tmp' LS';
  ca_binary : binary k tmp' LS';
  ca_aged : Forall aged LS -> aged C -> Forall aged LS';
  ca_same : forall b, b ∉ concat LS ++ C -> m' !! b = m !! b
}.
Lemma carry_loop_run tmp : forall m LS k c C, links_of m -> chains m tmp LS -> binary k tmp LS -> nseg m (Some c) C -> length C = (2 ^ k)%nat ->
  NoDup (concat LS ++ C) -> Forall (dated s0) (concat LS ++ C) -> Z.of_nat (length (concat LS ++ C)) < 2 ^ 32 ->
  crun (carry_loop tmp (Z.of_nat k) (Some c)) (state m) (fun tmp' s' => exists m' LS', s' = state m' /\ carried m m' LS C k tmp' LS').
Proof.
  induction tmp as [|x tmp IH]; intros m LS k c C Hm HC HB Hc Hlen Hnd Hd Hsz; inversion HC as [|? l ? LS' Hx HC']; subst; cbn [carry_loop].
  - step. apply crun_lift. cbn [concat app] in *.
    assert (Hk : (Z.of_nat k =? NTMPSORT) = false).
    { apply Z.eqb_neq. intros E. unfold NTMPSORT in E. assert (k = 32)%nat as -> by lia. rewrite Hlen in Hsz.
      replace (Z.of_nat (2 ^ 32)) with (2 ^ 32) in Hsz by (by rewrite Nat2Z.inj_pow). lia. }
    rewrite Hk. cbn [negb PDNSD_ASSERT succeeds]. step. exists m, [C]. split; [done|]. split; cbn [concat binary]; try done; [by rewrite app_nil_r|by repeat constructor|by repeat constructor].
  - destruct HB as [Hxl HB]. cbn [concat] in *. destruct x as [x|].
    + assert (Hsub : NoDup (l ++ C) /\ Forall (dated s0) (l ++ C)).
      { rewrite perm_front, (app_assoc (concat LS') l C) in Hnd. split.
        - rewrite <- app_assoc in Hnd. by apply NoDup_app in Hnd as (_ & _ & Hnd).
        - rewrite !Forall_app in *. naive_solver. }
      destruct Hsub as [Hnd1 Hd1]. step. eapply crun_mono; [apply (listmerge_run m (Some x) (Some c) l C Hm Hx Hc Hnd1 Hd1)|].
      intros r ? (m1 & R & -> & Hm1 & [HR HS] & Hr & Hsame). assert (HRne : exists c', r = Some c').
      { destruct R as [|c' R]; [|exists c'; by apply (nseg_head m1 _ c' R)]. apply (f_equal length) in HR || (apply Permutation_length in HR).
        rewrite length_app, Hlen in HR. cbn in HR. pose proof (Nat.pow_nonzero 2 k). lia. }
      destruct HRne as [c' ->]. replace (Z.of_nat k + 1) with (Z.of_nat (S k)) by lia.
      assert (Hall : concat LS' ++ R ≡ₚ (l ++ concat LS') ++ C) by (rewrite HR, perm_front, !app_assoc; f_equiv; done).
      step. eapply crun_mono; [apply (IH m1 LS' (S k) c' R)|].
      * done.
      * eapply chains_same; [|exact HC']. intros b Hb. apply Hsame. intros Hin. rewrite perm_front in Hnd. apply NoDup_app in Hnd as (_ & Hdis & _). by apply (Hdis b).
      * done.
      * done.
      * rewrite HR, length_app, Hxl, Hlen. cbn. lia.
      * by rewrite Hall.
      * by rewrite Hall.
      * by rewrite Hall.
      * intros tmp' ? (m2 & LS2 & -> & [K1 K2 K3 K4 K5 K6]). step. exists m2, ([] :: LS2). split; [done|]. split; cbn [concat app binary].
        -- done.
        -- by rewrite K2, Hall.
        -- by constructor.
        -- done.
        -- intros [HA1 HA2]%Forall_cons HA3. constructor; [constructor|]. auto.
        -- intros b Hb. rewrite K6; [|by rewrite Hall]. apply Hsame. set_solver.
    + cbn in Hx. destruct l as [|y l]; [|by destruct Hx]. cbn [app] in *. step. exists m, (C :: LS'). split; [done|]. split; cbn [concat binary]; try done.
      * by rewrite Permutation_app_comm.
      * by constructor.
      * intros [_ HA]%Forall_cons HA3. by constructor.
Qed.

(** * The passes *)
Lemma split_loop_run fuel : forall m tmp LS x P, links_of m -> nseg m (Some x) (x :: P) -> chains m tmp LS -> binary 0 tmp LS -> NoDup (concat LS ++ x :: P) ->
  Forall (dated s0) (concat LS ++ x :: P) -> Z.of_nat (length (concat LS ++ x :: P)) < 2 ^ 32 -> (length P < fuel)%nat -> Forall aged LS ->
  crun (split_loop fuel x tmp) (state m) (fun tmp' s' => exists m' LS', s' = state m' /\ links_of m' /\ chains m' tmp' LS' /\ concat LS' ≡ₚ concat LS ++ x :: P /\ Forall aged LS').
Proof.
  induction fuel as [|fuel IH]; intros m tmp LS x P Hm (_ & e & He & HP) HC HB Hnd Hd Hsz Hf HA; [lia|]. cbn [split_loop].
  step. eapply crun_get_lent; [exact He|]. step. eapply set_next_run; [exact He|]. set (m1 := <[x := with_next None e]> (lents (state m))).
  assert (Hx : x ∉ concat LS /\ x ∉ P).
  { apply NoDup_app in Hnd as (_ & H1 & H2). apply NoDup_cons in H2 as [H2 _]. split; [|done]. intros Hin. apply (H1 x Hin). set_solver. }
  assert (Hm1 : links_of m1) by (by apply links_of_next). assert (Hsplit : concat LS ++ x :: P ≡ₚ (concat LS ++ [x]) ++ P) by (by rewrite <- app_assoc).
  assert (HP1 : nseg m1 (next e) P) by (eapply nseg_same; [|exact HP]; intros b Hb; unfold m1; rewrite lookup_insert_ne; [done|]; intros <-; tauto).
  assert (HC1 : chains m1 tmp LS) by (eapply chains_same; [|exact HC]; intros b Hb; unfold m1; rewrite lookup_insert_ne; [done|]; intros <-; tauto).
  rewrite Hsplit in Hnd, Hd, Hsz. step. change (set_lents m1 (state m)) with (state m1). change 0 with (Z.of_nat 0).
  eapply crun_mono; [apply (carry_loop_run tmp m1 LS 0 x [x]); try done|].
  - split; [done|]. exists (with_next None e). split; [apply lookup_insert_eq|done].
  - by apply NoDup_app in Hnd as [Hnd _].
  - by apply Forall_app in Hd as [Hd _].
  - rewrite length_app in Hsz. lia.
  - intros tmp' ? (m2 & LS2 & -> & [K1 K2 K3 K4 K5 K6]). assert (HA2 : Forall aged LS2) by (apply K5; [done|repeat constructor]).
    assert (HP2 : nseg m2 (next e) P).
    { eapply nseg_same; [|exact HP1]. intros b Hb. apply K6. intros Hin. apply NoDup_app in Hnd as (_ & Hdis & _). by apply (Hdis b). }
    destruct (next e) as [n|] eqn:En.
    + destruct P as [|n' P']; [done|]. pose proof (nseg_head _ _ _ _ HP2) as [= <-].
      eapply crun_mono; [apply (IH m2 tmp' LS2 n P'); try done|].
      * by rewrite K2.
      * by rewrite K2.
      * by rewrite K2.
      * cbn [length] in Hf. lia.
      * intros tmp2 s2 (m3 & LS3 & -> & H1 & H2 & H3 & H4). exists m3, LS3. split_and!; try done. by rewrite H3, K2, Hsplit.
    + destruct P as [|n' P']; [|by destruct HP2]. step. exists m2, LS2. split_and!; done.
Qed.
Lemma collect_loop_run tmp : forall m LS c C, links_of m -> chains m tmp LS -> nseg m c C -> NoDup (concat LS ++ C) -> Forall (dated s0) (concat LS ++ C) -> Forall aged LS -> aged C ->
  crun (collect_loop tmp c) (state m) (fun r s' => exists m' R, s' = state m' /\ links_of m' /\ nseg m' r R /\ R ≡ₚ concat LS ++ C /\ aged R).
Proof.
  induction tmp as [|x tmp IH]; intros m LS c C Hm HC Hc Hnd Hd HA HAC; inversion HC as [|? l ? LS' Hx HC']; subst; cbn [collect_loop concat].
  - step. exists m, C. split_and!; done.
  - cbn [concat] in *. apply Forall_cons in HA as [HAl HA]. rewrite perm_front in Hnd, Hd.
    step. eapply crun_mono; [apply (listmerge_run m x c l C Hm Hx Hc); [by apply NoDup_app in Hnd as (_ & _ & Hnd)|by apply Forall_app in Hd as [_ Hd]]|].
    intros r ? (m1 & R & -> & Hm1 & [HR HS] & Hr & Hsame). eapply crun_mono; [apply (IH m1 LS' r R); try done|].
    + eapply chains_same; [|exact HC']. intros b Hb. apply Hsame. intros Hin. apply NoDup_app in Hnd as (_ & Hdis & _). by apply (Hdis b).
    + by rewrite HR.
    + by rewrite HR.
    + auto.
    + intros r2 s2 (m2 & R2 & -> & H1 & H2 & H3 & H4). exists m2, R2. split_and!; try done. by rewrite H3, HR, perm_front.
Qed.
Lemma links_of_prev m a e n : links_of m -> m !! a = Some e -> links_of (<[a := with_prev n e]> m).
Proof. intros H Ha. unfold links_of. by rewrite (core_insert _ _ e). Qed.
Lemma restore_loop_run R : forall fuel m p q, links_of m -> nseg m p R -> NoDup R -> (length R <= fuel)%nat ->
  crun (restore_loop fuel p q) (state m) (fun r s' => exists m', s' = state m' /\ links_of m' /\ r = last_of q R /\ dseg (node <$> m') q R None /\
    (forall b, b ∉ R -> m' !! b = m !! b)).
Proof.
  induction R as [|a R IH]; intros fuel m p q Hm HR Hnd Hf.
  { cbn in HR. subst p. destruct fuel; cbn [restore_loop]; step; exists m; split_and!; done. }
  destruct fuel as [|fuel]; [cbn in Hf; lia|]. destruct HR as (-> & e & He & HR). apply NoDup_cons in Hnd as [Ha Hnd]. cbn [restore_loop].
  step. eapply set_prev_run; [exact He|]. set (m1 := <[a := with_prev q e]> (lents (state m))). change (set_lents m1 (state m)) with (state m1).
  assert (He1 : m1 !! a = Some (with_prev q e)) by apply lookup_insert_eq. step. eapply crun_get_lent; [exact He1|].
  eapply crun_mono; [apply (IH fuel m1 (next e) (Some a)); [by apply links_of_prev| |done|cbn in Hf; lia]|].
  { eapply nseg_same; [|exact HR]. intros b Hb. unfold m1. rewrite lookup_insert_ne; [done|]. by intros <-. }
  intros r ? (m2 & -> & H1 & -> & H3 & H4). exists m2. split; [done|]. split; [done|]. split; [by rewrite last_of_cons|]. split.
  - split; [|done]. rewrite lookup_fmap, H4 by done. rewrite He1. cbn. unfold node. cbn. by rewrite (nseg_first _ _ _ HR).
  - intros b Hb. rewrite H4 by set_solver. unfold m1. rewrite lookup_insert_ne; [done|]. set_solver.
Qed.
End Sort.

Lemma dseg_nseg m L : forall pp, dseg (node <$> m) pp L None -> nseg m (first_of L None) L.
Proof.
  induction L as [|a L IH]; intros pp; [done|]. intros [Ha HL]. split; [done|]. rewrite lookup_fmap in Ha. destruct (m !! a) as [e|]; [|done].
  injection Ha as Hn _. exists e. split; [done|]. rewrite Hn. by eapply IH.
Qed.
(** [sort_rrl]: the list is the same up to its order, which is by age. *)
Lemma sort_rrl_run L s : rlist L s -> Forall (dated s) L -> Z.of_nat (length L) < 2 ^ 32 ->
  crun sort_rrl s (fun _ s' => exists L' m h t, s' = relinked s m h t /\ rlist L' s' /\ L' ≡ₚ L /\ aged s L' /\ core <$> m = core <$> lents s).
Proof.
  intros Hl Hd Hsz. pose proof Hl as [Hnd Hs Hh Ht]. cbn in Hh, Ht. unfold sort_rrl. do 2 step.
  assert (Hsame : (length L <= 1)%nat -> exists L' m h t, s = relinked s m h t /\ rlist L' s /\ L' ≡ₚ L /\ aged s L' /\ core <$> m = core <$> lents s).
  { intros Hlen. exists L, (lents s), (rrset_l s), (rrset_l_tail s). split; [by destruct s|]. split_and!; try done. destruct L as [|a [|b L]]; [constructor|repeat constructor|cbn in Hlen; lia]. }
  rewrite Hh. destruct L as [|x P]; cbn [first_of]; [step; apply Hsame; cbn; lia|].
  pose proof (dseg_nseg _ _ _ Hs) as Hn. cbn [first_of] in Hn. destruct Hn as (_ & e & He & HP). step. eapply crun_get_lent; [exact He|].
  destruct (next e) as [n|] eqn:En; [|step; apply Hsame; destruct P as [|y P]; [cbn; lia|by destruct HP]].
  do 2 step. assert (Hst : state s (lents s) = s) by (by destruct s). step. rewrite <- Hst at 2.
  assert (Hfuel : (length (x :: P) <= size (lents s))%nat).
  { apply nodup_size; [done|]. intros b Hb. by eapply rlist_lookup. }
  eapply crun_mono; [apply (split_loop_run s (size (lents s)) (lents s) [] [] x P); try done|].
  { split; [done|]. exists e. by rewrite En. }
  { constructor. }
  intros tmp ? (m1 & LS & -> & Hm1 & HC & HLS & HA). cbn [concat app] in HLS. step.
  assert (Hc : exists C LS', nseg m1 (default None (hd_error tmp)) C /\ chains m1 (tl tmp) LS' /\ concat LS' ++ C ≡ₚ x :: P /\ Forall (aged s) LS' /\ aged s C).
  { destruct HC as [|c C tmp LS Hc HC]; cbn in *.
    - exists [], []. split_and!; try done; constructor.
    - apply Forall_cons in HA as [? ?]. exists C, LS. split_and!; try done. by rewrite Permutation_app_comm. }
  destruct Hc as (C & LS' & HcC & HC' & HCL & HA' & HAC).
  eapply crun_mono; [apply (collect_loop_run s (tl tmp) m1 LS' _ C); try done; by rewrite HCL|].
  intros r ? (m2 & R & -> & Hm2 & HR & HRL & HAR). rewrite HCL in HRL. do 4 step.
  change (set_ends r (rrset_l_tail (state s m2)) (state s m2)) with (state (set_ends r (rrset_l_tail s) s) m2).
  step. eapply crun_mono; [apply (restore_loop_run _ R (size (lents s)) m2 r None); [exact Hm2|done|by rewrite HRL|by rewrite HRL]|].
  intros t ? (m3 & -> & Hm3 & -> & Hds & _). step. exists R, m3, r, (last_of None R). split; [done|]. split; [|done].
  split; [by rewrite HRL|exact Hds|cbn; by eapply nseg_first|done].
Qed.
