(* ===== verification/DnsHeap.v ===== *)
(** The memory of pdnsd's cache stays consistent: every record set belongs to one slot
    of one entry, the list holds what its entries say, and an entry counts its sets and
    its size exactly. *)
From S2P Require Import Prelude CLib Rhn DnsName DnsNameProps HevList DnsStore DnsCents DnsRrl.

(** * Sizes *)
Definition set_size (R : gmap positive rr_set_t) (o : option positive) : Z :=
  match o with Some r => match R !! r with Some x => sizeof_rr_set_t + rr_size (rrs x) | None => 0 end | None => 0 end.
Fixpoint sum_sizes (R : gmap positive rr_set_t) (l : list (option positive)) : Z :=
  match l with [] => 0 | o :: l => set_size R o + sum_sizes R l end.
Fixpoint count_sets (l : list (option positive)) : Z := match l with [] => 0 | o :: l => (if is_some o then 1 else 0) + count_sets l end.
Definition ext_size (c : dns_cent_t) : Z := match side c with Rr _ (Some _) => sizeof_ptr * NRREXT | _ => 0 end.

Lemma sum_sizes_app R l1 l2 : sum_sizes R (l1 ++ l2) = sum_sizes R l1 + sum_sizes R l2.
Proof. induction l1 as [|o l1 IH]; cbn; [lia|].  rewrite IH. lia. Qed.
Lemma count_sets_app l1 l2 : count_sets (l1 ++ l2) = count_sets l1 + count_sets l2.
Proof. induction l1 as [|o l1 IH]; cbn; [lia|].  rewrite IH. lia. Qed.
Lemma sum_sizes_insert R l i o o' : l !! i = Some o -> sum_sizes R (<[i := o']> l) = sum_sizes R l - set_size R o + set_size R o'.
Proof.
  revert i. induction l as [|x l IH]; intros [|i] H; [done|done| |].
  - injection H as ->. cbn. lia.
  - change (<[S i:=o']> (x :: l)) with (x :: <[i:=o']> l). cbn [sum_sizes]. specialize (IH i H).  rewrite IH. lia.
Qed.
Lemma count_sets_insert l i o o' : l !! i = Some o ->
  count_sets (<[i := o']> l) = count_sets l - (if is_some o then 1 else 0) + (if is_some o' then 1 else 0).
Proof.
  revert i. induction l as [|x l IH]; intros [|i] H; [done|done| |].
  - injection H as ->. cbn. lia.
  - change (<[S i:=o']> (x :: l)) with (x :: <[i:=o']> l). cbn [count_sets]. specialize (IH i H).  rewrite IH. lia.
Qed.
Lemma count_sets_range l : 0 <= count_sets l <= zlen l.
Proof. induction l as [|[x|] l IH]; cbn [count_sets length is_some] in *; lia. Qed.
Lemma count_sets_replicate n : count_sets (replicate n None) = 0.
Proof. induction n; cbn; [done|].  by rewrite IHn. Qed.
Lemma sum_sizes_replicate R n : sum_sizes R (replicate n None) = 0.
Proof. induction n; cbn; [done|].  by rewrite IHn. Qed.
Lemma sum_sizes_ext R R' l : (forall r, Some r ∈ l -> rrs <$> R' !! r = rrs <$> R !! r) -> sum_sizes R' l = sum_sizes R l.
Proof.
  induction l as [|o l IH]; intros H; [done|]. cbn [sum_sizes].  rewrite IH by set_solver. f_equal.
  destruct o as [r|]; [|done]. cbn. specialize (H r ltac:(set_solver)). destruct (R' !! r), (R !! r); cbn in H; try done. injection H as H. by rewrite H.
Qed.
Lemma count_zero l i : count_sets l = 0 -> mjoin (l !! i) = None.
Proof.
  revert i. induction l as [|o l IH]; intros i H; [by rewrite lookup_nil|]. cbn in H. pose proof (count_sets_range l) as Hl.
  destruct o; cbn in H; [lia|]. destruct i as [|i]; [done|]. cbn. by apply IH.
Qed.

(** * Entries *)
Record cent_ok (R : gmap positive rr_set_t) (c : dns_cent_t) : Prop := {
  co_side : match side c with
            | Neg _ _ _ => negative c = true
            | Rr mu ext => negative c = false /\ length mu = 8%nat /\ (forall e, ext = Some e -> length e = 39%nat)
            end;
  co_num : num_rrs c = count_sets (slots c);
  co_cs : cs c = sizeof_dns_cent_t + zlen (qname c) + ext_size c + sum_sizes R (slots c);
  co_name : exists N, name_ok N /\ qname c = enc N
}.
(** Objects are where they are expected, and below the next address. *)
Record store_ok (L : list positive) (s : cache) : Prop := {
  so_list : rlist L s;
  so_dom : forall a, is_Some (lents s !! a) -> a ∈ L;
  so_links : links (core <$> lents s) (rrsets s) (cents s);
  so_cents : forall p c, cents s !! p = Some c -> cent_ok (rrsets s) c;
  so_brk : forall p, is_Some (lents s !! p) \/ is_Some (rrsets s !! p) \/ is_Some (cents s !! p) -> (p < brk s)%positive
}.

Lemma slots_length R c : cent_ok R c -> negative c = false ->
  exists mu ext, side c = Rr mu ext /\ length mu = 8%nat /\ (forall e, ext = Some e -> length e = 39%nat) /\
    length (slots c) = match ext with Some _ => 47%nat | None => 8%nat end.
Proof.
  intros [Hs _ _ _] Hn. unfold slots. destruct (side c) as [l t n|mu ext]; [congruence|]. destruct Hs as (_ & H1 & H2).
  exists mu, ext. split_and!; [done..|]. rewrite length_app, H1. destruct ext as [e|]; cbn; [by rewrite (H2 e eq_refl)|done].
Qed.
Lemma the_rr_ok R c : cent_ok R c -> negative c = false -> exists mu ext, the_rr c = Ok (mu, ext) /\ side c = Rr mu ext.
Proof. intros H Hn. destruct (slots_length _ _ H Hn) as (mu & ext & Hs & _). exists mu, ext. unfold the_rr. by rewrite Hs. Qed.
Lemma the_neg_ok R c : cent_ok R c -> negative c = true -> exists l t n, the_neg c = Ok (l, t, n) /\ side c = Neg l t n.
Proof. intros [Hs _ _ _] Hn. unfold the_neg. destruct (side c) as [l t n|mu ext]; [eauto 6|]. destruct Hs as [Hs _]. congruence. Qed.
Lemma negative_slots R c : cent_ok R c -> negative c = true -> slots c = [].
Proof. intros H Hn. destruct (the_neg_ok _ _ H Hn) as (l & t & n & _ & Hs). unfold slots. by rewrite Hs. Qed.
Lemma nth_ptr_ok l i : 0 <= i < zlen l -> nth_ptr l i = Ok (mjoin (l !! Z.to_nat i)).
Proof.
  intros Hi. unfold nth_ptr. destruct (Z.leb_spec 0 i); [|lia]. destruct (lookup_lt_is_Some_2 l (Z.to_nat i)) as [x Hx]; [lia|]. by rewrite Hx.
Qed.
Definition slot_count (c : dns_cent_t) : Z := zlen (slots c).

(** Reading a slot in each of the ways of the code. *)
Lemma rrarr_len_ok R c : cent_ok R c -> RRARR_LEN c = Ok (slot_count c).
Proof.
  intros H. unfold RRARR_LEN, slot_count. destruct (negative c) eqn:E; [by rewrite (negative_slots _ _ H E)|].
  destruct (slots_length _ _ H E) as (mu & ext & Hs & _ & _ & Hl). unfold the_rr. rewrite Hs. cbn [mbind res_bind mret res_ret].
  rewrite Hl. by destruct ext.
Qed.
Lemma rrarr_index_ok R c i : cent_ok R c -> 0 <= i < slot_count c -> RRARR_INDEX c i = Ok (slot c i).
Proof.
  intros H Hi. unfold slot_count in Hi. destruct (negative c) eqn:E; [rewrite (negative_slots _ _ H E) in Hi; cbn in Hi; lia|].
  destruct (slots_length _ _ H E) as (mu & ext & Hs & Hm & He & Hl). unfold RRARR_INDEX, the_rr, slot, slots in *. rewrite Hs in *. cbn [mbind res_bind].
  unfold NRRMU in *. rewrite (proj2 (Z.leb_le 0 i)) by lia. destruct (Z.ltb_spec i 8).
  - rewrite nth_ptr_ok by lia. by rewrite lookup_app_l by lia.
  - destruct ext as [e|]; [|lia]. specialize (He e eq_refl). cbn [default from_option] in *. rewrite nth_ptr_ok by lia. rewrite lookup_app_r by lia. do 3 f_equal. unfold id. lia.
Qed.
Lemma slot_out c i : ~ 0 <= i < slot_count c -> slot c i = None.
Proof.
  intros Hi. unfold slot, slot_count in *. destruct (Z.leb_spec 0 i); [|done]. rewrite lookup_ge_None_2; [done|lia].
Qed.
Lemma slot_in c i r : slot c i = Some r -> 0 <= i < slot_count c.
Proof.
  intros H. destruct (decide (0 <= i < slot_count c)); [done|]. by rewrite slot_out in H.
Qed.
Lemma rrarr_testext_ok R c i : cent_ok R c -> 0 <= i < NRRTOT -> RRARR_INDEX_TESTEXT c i = Ok (slot c i).
Proof.
  intros H Hi. unfold RRARR_INDEX_TESTEXT. destruct (negative c) eqn:E.
  { rewrite slot_out; [done|]. unfold slot_count. rewrite (negative_slots _ _ H E). cbn. lia. }
  destruct (slots_length _ _ H E) as (mu & ext & Hs & Hm & He & Hl). unfold the_rr, NRRMU, NRRTOT in *. rewrite Hs. cbn [mbind res_bind].
  destruct (Z.ltb_spec i 8).
  - rewrite nth_ptr_ok by lia. unfold slot, slots. rewrite Hs, (proj2 (Z.leb_le 0 i)), lookup_app_l by lia. done.
  - destruct ext as [e|].
    + specialize (He e eq_refl). rewrite nth_ptr_ok by lia. unfold slot, slots. rewrite Hs, (proj2 (Z.leb_le 0 i)), lookup_app_r by lia. cbn. do 3 f_equal. lia.
    + rewrite slot_out; [done|]. unfold slot_count. rewrite Hl. lia.
Qed.
Lemma get_rrsmu_ok R c i : cent_ok R c -> 0 <= i < NRRMU -> GET_RRSMU c i = Ok (slot c i).
Proof.
  intros H Hi. rewrite <- (rrarr_testext_ok R) by (done || (unfold NRRMU, NRRTOT in *; lia)). unfold GET_RRSMU, RRARR_INDEX_TESTEXT.
  destruct (negative c); [done|]. destruct (the_rr c) as [[mu ext]|]; [|done]. cbn [mbind res_bind]. destruct (Z.ltb_spec i NRRMU); [done|lia].
Qed.

(** Writing a slot. *)
Definition upd_slot (c : dns_cent_t) (i : Z) (o : option positive) : dns_cent_t :=
  match side c with
  | Neg _ _ _ => c
  | Rr mu ext => if i <? NRRMU then with_side (Rr (<[Z.to_nat i := o]> mu) ext) c
                 else with_side (Rr mu ((fun e => <[Z.to_nat (i - NRRMU) := o]> e) <$> ext)) c
  end.
Lemma rrarr_set_ok R c i o : cent_ok R c -> 0 <= i < slot_count c -> RRARR_INDEX_SET c i o = Ok (upd_slot c i o).
Proof.
  intros H Hi. unfold slot_count in Hi. destruct (negative c) eqn:E; [rewrite (negative_slots _ _ H E) in Hi; cbn in Hi; lia|].
  destruct (slots_length _ _ H E) as (mu & ext & Hs & Hm & He & Hl). unfold RRARR_INDEX_SET, the_rr, upd_slot, set_ptr, NRRMU in *. rewrite Hs in *. cbn [mbind res_bind].
  destruct (Z.ltb_spec i 8); [by rewrite (proj2 (Z.leb_le 0 i)), (proj2 (Z.ltb_lt i (zlen mu))) by lia|].
  destruct ext as [e|]; [|lia]. specialize (He e eq_refl). by rewrite (proj2 (Z.leb_le 0 (i - 8))), (proj2 (Z.ltb_lt (i - 8) (zlen e))) by lia.
Qed.
Lemma slots_upd R c i o : cent_ok R c -> 0 <= i < slot_count c -> slots (upd_slot c i o) = <[Z.to_nat i := o]> (slots c).
Proof.
  intros H Hi. unfold slot_count in Hi. destruct (negative c) eqn:E; [rewrite (negative_slots _ _ H E) in Hi; cbn in Hi; lia|].
  destruct (slots_length _ _ H E) as (mu & ext & Hs & Hm & He & Hl). unfold upd_slot, slots, NRRMU in *. rewrite Hs in *.
  destruct (Z.ltb_spec i 8); cbn [side with_side]; [by rewrite insert_app_l by lia|].
  destruct ext as [e|]; [|lia]. cbn. rewrite insert_app_r_alt by lia. do 2 f_equal. lia.
Qed.
Lemma slot_upd R c i o j : cent_ok R c -> 0 <= i < slot_count c -> slot (upd_slot c i o) j = if decide (j = i) then o else slot c j.
Proof.
  intros H Hi. unfold slot. rewrite (slots_upd _ _ _ _ H Hi). unfold slot_count in Hi. destruct (decide (j = i)) as [->|Hj].
  - rewrite (proj2 (Z.leb_le 0 i)), list_lookup_insert_eq by lia. done.
  - destruct (Z.leb_spec 0 j); [|done]. rewrite list_lookup_insert_ne by lia. done.
Qed.

Lemma slot_elem c r : Some r ∈ slots c <-> exists i, slot c i = Some r.
Proof.
  unfold slot. rewrite list_elem_of_lookup. split.
  - intros [i Hi]. exists (Z.of_nat i). rewrite (proj2 (Z.leb_le 0 _)) by lia. by rewrite Nat2Z.id, Hi.
  - intros [i Hi]. destruct (0 <=? i); [|done]. exists (Z.to_nat i). by destruct (slots c !! Z.to_nat i) as [[|]|]; simplify_eq/=.
Qed.
Lemma slot_lookup c i r : slot c i = Some r -> slots c !! Z.to_nat i = Some (Some r).
Proof. unfold slot. destruct (0 <=? i); [|done]. destruct (slots c !! Z.to_nat i) as [[|]|]; cbn; congruence. Qed.
Lemma slot_None_lookup c i : 0 <= i < slot_count c -> slot c i = None -> slots c !! Z.to_nat i = Some None.
Proof.
  unfold slot, slot_count. intros Hi. rewrite (proj2 (Z.leb_le 0 i)) by lia. destruct (lookup_lt_is_Some_2 (slots c) (Z.to_nat i)) as [o Ho]; [lia|].
  rewrite Ho. by destruct o.
Qed.
Lemma cent_ok_ext R R' c : cent_ok R c -> (forall i r, slot c i = Some r -> rrs <$> R' !! r = rrs <$> R !! r) -> cent_ok R' c.
Proof.
  intros [H1 H2 H3 H4] HR. constructor; auto. rewrite (sum_sizes_ext R R'); [done|]. intros r [i Hi]%slot_elem. eauto.
Qed.
Lemma land_land_one f m : Z.land m 1 = 1 -> has (Z.land f m) DF_NEGATIVE = has f DF_NEGATIVE.
Proof. intros H. unfold has, DF_NEGATIVE. by rewrite <- Z.land_assoc, H. Qed.
Lemma drop_auth_negative f : has (drop_flag f DF_AUTH) DF_NEGATIVE = has f DF_NEGATIVE.
Proof. by apply land_land_one. Qed.
Lemma lor_negative f g : Z.land g 1 = 0 -> has (Z.lor f g) DF_NEGATIVE = has f DF_NEGATIVE.
Proof. intros H. unfold has, DF_NEGATIVE. by rewrite Z.land_lor_distr_l, H, Z.lor_0_r. Qed.

(** The entry without the set in slot [i], of size [n]. *)
Definition cleared (c : dns_cent_t) (i n : Z) : dns_cent_t :=
  with_flags (drop_flag (flags c) DF_AUTH) (with_cs (cs c - n) (with_num (u16 (num_rrs c - 1)) (upd_slot c i None))).
Lemma upd_slot_fields c i o : qname (upd_slot c i o) = qname c /\ cs (upd_slot c i o) = cs c /\ num_rrs (upd_slot c i o) = num_rrs c /\
  flags (upd_slot c i o) = flags c /\ c_ns (upd_slot c i o) = c_ns c /\ c_soa (upd_slot c i o) = c_soa c /\ ext_size (upd_slot c i o) = ext_size c /\
  neg_lent (upd_slot c i o) = neg_lent c.
Proof. unfold upd_slot, ext_size, neg_lent. destruct (side c) as [|mu [e|]] eqn:E; [|by destruct (i <? NRRMU)..]. by rewrite E. Qed.
Lemma upd_slot_side R c i o : cent_ok R c -> match side (upd_slot c i o) with
  | Neg _ _ _ => negative c = true
  | Rr mu ext => negative c = false /\ length mu = 8%nat /\ (forall e, ext = Some e -> length e = 39%nat) end.
Proof.
  intros [H _ _ _]. unfold upd_slot. destruct (side c) as [l t n|mu ext] eqn:E; [by rewrite E|]. destruct H as (H1 & H2 & H3).
  destruct (i <? NRRMU); cbn; split_and!; auto; [by rewrite length_insert|].
  intros e. destruct ext as [e0|]; [|done]. cbn. intros [= <-]. rewrite length_insert. auto.
Qed.
Lemma negative_upd c i o : negative (upd_slot c i o) = negative c.
Proof. unfold negative. by destruct (upd_slot_fields c i o) as (_ & _ & _ & -> & _). Qed.

Lemma cleared_ok R c i r x : cent_ok R c -> slot c i = Some r -> R !! r = Some x -> (forall j, slot c j = Some r -> j = i) ->
  cent_ok (delete r R) (cleared c i (sizeof_rr_set_t + rr_size (rrs x))).
Proof.
  intros H Hi Hr Hu. pose proof (slot_in _ _ _ Hi) as Hin. pose proof (slot_lookup _ _ _ Hi) as Hlk.
  destruct (upd_slot_fields c i None) as (F1 & F2 & F3 & F4 & F5 & F6 & F7 & _). pose proof H as [_ Hnum Hcs Hname].
  assert (Hsl : slots (cleared c i (sizeof_rr_set_t + rr_size (rrs x))) = <[Z.to_nat i := None]> (slots c)) by (rewrite <- (slots_upd _ _ _ _ H Hin); done).
  constructor.
  - pose proof (upd_slot_side _ _ i None H) as Hs. unfold cleared, negative. cbn. rewrite drop_auth_negative. exact Hs.
  - rewrite Hsl. rewrite (count_sets_insert _ _ _ _ Hlk). cbn. rewrite Hnum. pose proof (count_sets_range (<[Z.to_nat i := None]> (slots c))) as Hc.
    rewrite (count_sets_insert _ _ _ _ Hlk) in Hc. cbn [is_some] in Hc. rewrite length_insert in Hc. rewrite u16_small; [lia|].
    assert (slot_count c <= 47); [|unfold slot_count in *; lia]. destruct (negative c) eqn:E; [unfold slot_count; rewrite (negative_slots _ _ H E); cbn; lia|].
    destruct (slots_length _ _ H E) as (? & ext & _ & _ & _ & Hl). unfold slot_count. rewrite Hl. destruct ext; lia.
  - rewrite Hsl. change (ext_size (cleared _ _ _)) with (ext_size (upd_slot c i None)). rewrite F7. cbn [cleared with_flags cs with_cs with_num qname]. rewrite F1.
    rewrite (sum_sizes_ext R (delete r R)).
    + rewrite (sum_sizes_insert _ _ _ _ _ Hlk). cbn [set_size]. rewrite Hr. lia.
    + intros t Ht. rewrite lookup_delete_ne; [done|]. intros ->. apply list_elem_of_lookup in Ht as [k Hk].
      destruct (decide (k = Z.to_nat i)) as [->|Hki]; [rewrite list_lookup_insert_eq in Hk by (apply lookup_lt_is_Some_1; eauto); done|].
      rewrite list_lookup_insert_ne in Hk by done. apply Hki. rewrite <- (Hu (Z.of_nat k)); [lia|].
      unfold slot. rewrite (proj2 (Z.leb_le 0 _)) by lia. by rewrite Nat2Z.id, Hk.
  - cbn. by rewrite F1.
Qed.

(** What the operations on entries leave alone. *)
Record stays (s s' : cache) : Prop := {
  st_env : env s' = env s; st_buckets : hash_buckets s' = hash_buckets s; st_size : cache_size s' = cache_size s;
  st_num : ent_num s' = ent_num s; st_sort : insert_sort s' = insert_sort s
}.
#[export] Instance stays_refl : Reflexive stays.
Proof. by split. Qed.
#[export] Instance stays_trans : Transitive stays.
Proof. intros s1 s2 s3 [] []. split; congruence. Qed.

Definition unlist_L (o : option positive) (L : list positive) : list positive := match o with Some a => filter (.≠ a) L | None => L end.
Lemma filter_other (a : positive) (L : list positive) : a ∉ L -> filter (.≠ a) L = L.
Proof. induction L as [|x L IH]; intros H; [done|]. rewrite filter_cons_True by set_solver. by rewrite IH by set_solver. Qed.
Lemma unlist_L_mid L1 a L2 : NoDup (L1 ++ a :: L2) -> unlist_L (Some a) (L1 ++ a :: L2) = L1 ++ L2.
Proof.
  intros (_ & H1 & H2)%NoDup_app. apply NoDup_cons in H2 as [H2 _]. cbn. rewrite filter_app, filter_cons_False by (intros []; done).
  rewrite !filter_other; [done|done|]. intros Hx. apply (H1 _ Hx). set_solver.
Qed.
Lemma unlist_L_elem o L b : b ∈ unlist_L o L <-> b ∈ L /\ o <> Some b.
Proof. destruct o as [a|]; cbn; [rewrite list_elem_of_filter; naive_solver|naive_solver]. Qed.
Lemma relinked_id s : relinked s (lents s) (rrset_l s) (rrset_l_tail s) = s.
Proof. by destruct s. Qed.
Lemma unlist_run o L s : rlist L s -> (forall a, o = Some a -> a ∈ L) ->
  crun (match o with Some le => remove_rrl le | None => mret tt end) s (fun _ s' => exists m h t, s' = relinked s m h t /\
    rlist (unlist_L o L) s' /\ core <$> m = unlist o (core <$> lents s)).
Proof.
  intros Hl Ho. destruct o as [a|].
  - destruct (list_elem_of_split _ _ (Ho a eq_refl)) as (L1 & L2 & ->). destruct (remove_rrl_run _ _ _ _ Hl) as (m & h & t & E & Hr & Hc).
    eapply crun_Ok; [exact E|]. exists m, h, t. rewrite unlist_L_mid by apply Hl. auto.
  - step. exists (lents s), (rrset_l s), (rrset_l_tail s). by rewrite relinked_id.
Qed.

(** From the parts of an invariant to it. *)
Lemma store_intro L K s : rlist L s -> core <$> lents s = K -> (forall a, is_Some (K !! a) -> a ∈ L) -> links K (rrsets s) (cents s) ->
  (forall p c, cents s !! p = Some c -> cent_ok (rrsets s) c) ->
  (forall p, is_Some (K !! p) \/ is_Some (rrsets s !! p) \/ is_Some (cents s !! p) -> (p < brk s)%positive) -> store_ok L s.
Proof.
  intros H1 <- H2 H3 H4 H5. constructor; auto.
  - intros a Ha. apply H2. rewrite lookup_fmap. by apply fmap_is_Some.
  - intros p [Hp|Hp]; apply H5; [left; rewrite lookup_fmap; by apply fmap_is_Some|by right].
Qed.
Lemma store_dom L s a : store_ok L s -> is_Some ((core <$> lents s) !! a) -> a ∈ L.
Proof. intros H Ha. rewrite lookup_fmap in Ha. apply fmap_is_Some in Ha. by apply (so_dom _ _ H). Qed.
Lemma store_lk L s a v : store_ok L s -> (core <$> lents s) !! a = Some v -> a ∈ L.
Proof. intros H Ha. eapply store_dom; [done|]. by exists v. Qed.
Lemma set_listed L s p c i r x a : store_ok L s -> cents s !! p = Some c -> slot c i = Some r -> rrsets s !! r = Some x -> lent x = Some a -> a ∈ L.
Proof. intros H Hp Hi Hr Ha. eapply store_lk; [done|]. by eapply (lk_back _ _ _ (so_links _ _ H)). Qed.

(** * Deleting a set *)
Definition size_of (x : rr_set_t) : Z := sizeof_rr_set_t + rr_size (rrs x).
(** [C] stands for the entries once the slot has been cleared: the slots of a freed
    entry are not. *)
Lemma del_rrset_store L s C p c i r x : store_ok L (set_cents C s) -> C !! p = Some c -> slot c i = Some r -> rrsets s !! r = Some x ->
  crun (del_rrset r) s (fun n s' => n = size_of x /\ stays s s' /\ cents s' = cents s /\ brk s' = brk s /\ rrsets s' = delete r (rrsets s) /\
    core <$> lents s' = unlist (lent x) (core <$> lents s) /\ store_ok (unlist_L (lent x) L) (set_cents (<[p := cleared c i n]> C) s')).
Proof.
  intros H Hp Hi Hr. unfold del_rrset. do 3 step.
  use (unlist_run (lent x) L s (so_list _ _ H)) as (m & h & t & -> & Hl & Hc).
  { intros a Ha. apply (set_listed _ _ _ _ _ _ _ _ H Hp Hi Hr Ha). }
  do 3 step. split; [done|]. split; [by split|]. do 3 (split; [done|]). split; [exact Hc|].
  pose proof (so_links _ _ H) as Hlk. pose proof (so_cents _ _ H p c Hp) as Hcok.
  assert (Hneg : neg_lent c = None).
  { unfold neg_lent. destruct (side c) eqn:E; [|done]. unfold slot, slots in Hi. rewrite E in Hi. destruct (0 <=? i); done. }
  apply (store_intro _ (unlist (lent x) (core <$> lents s))); [exact Hl|exact Hc| | | |].
  - intros a [v Ha]. apply unlist_Some in Ha as [Hx Ha]. apply unlist_L_elem. split; [|done]. by eapply (store_lk _ _ _ _ H).
  - apply (lk_del_set _ _ _ p c _ i r x Hlk Hp Hi Hr); [|done|].
    + intros j. apply (slot_upd _ _ _ _ _ Hcok (slot_in _ _ _ Hi)).
    + destruct (upd_slot_fields c i None) as (_ & _ & _ & _ & _ & _ & _ & Hn). change (neg_lent (cleared _ _ _)) with (neg_lent (upd_slot c i None)). by rewrite Hn.
  - intros q d Hq. cbn in Hq |- *. apply lookup_insert_Some in Hq as [[<- <-]|[Hqp Hq]].
    + apply cleared_ok with (r := r); auto. intros j Hj. by destruct (lk_inj _ _ _ Hlk _ _ _ _ _ _ _ Hp Hp Hi Hj).
    + eapply cent_ok_ext; [by eapply (so_cents _ _ H)|]. intros j t' Hj. cbn. rewrite lookup_delete_ne; [done|]. intros <-.
      destruct (lk_inj _ _ _ Hlk _ _ _ _ _ _ _ Hp Hq Hi Hj). done.
  - intros q [[v Hq]|[Hq|Hq]]; apply (so_brk _ _ H).
    + apply unlist_Some in Hq as [_ Hq]. left. rewrite lookup_fmap in Hq. eapply fmap_is_Some. by exists v.
    + right. left. cbn in Hq. destruct Hq as [y Hq]. apply lookup_delete_Some in Hq as [_ Hq]. by exists y.
    + right. right. cbn in Hq. destruct Hq as [y Hq]. apply lookup_insert_Some in Hq as [[<- _]|[_ Hq]]; [by exists c|by exists y].
Qed.

Lemma set_cents_id s : set_cents (cents s) s = s.
Proof. by destruct s. Qed.

(** An operation on the entry [p]: the other entries and their sets are as before. *)
Record on_cent (p : positive) (s s' : cache) : Prop := {
  oc_stays : stays s s';
  oc_brk : (brk s <= brk s')%positive;
  oc_cents : forall q, q <> p -> cents s' !! q = cents s !! q;
  oc_sets : forall q d i r, q <> p -> cents s !! q = Some d -> slot d i = Some r -> rrsets s' !! r = rrsets s !! r;
  oc_name : qname <$> cents s' !! p = qname <$> cents s !! p
}.
#[export] Instance on_cent_refl p : Reflexive (on_cent p).
Proof. by split. Qed.
#[export] Instance on_cent_trans p : Transitive (on_cent p).
Proof.
  intros s1 s2 s3 H1 H2. split.
  - etrans; [apply H1|apply H2].
  - etrans; [apply H1|apply H2].
  - intros q Hq. by rewrite (oc_cents _ _ _ H2), (oc_cents _ _ _ H1).
  - intros q d i r Hq Hd Hi. rewrite (oc_sets _ _ _ H2 q d i r), (oc_sets _ _ _ H1 q d i r); auto. by rewrite (oc_cents _ _ _ H1).
  - by rewrite (oc_name _ _ _ H2), (oc_name _ _ _ H1).
Qed.
Lemma on_cent_ask p n s : on_cent p s (set_asked n s).
Proof. by split. Qed.
Lemma store_ask L n s : store_ok L s -> store_ok L (set_asked n s).
Proof. intros []. by split. Qed.
Lemma on_cent_name p s s' c : on_cent p s s' -> cents s !! p = Some c -> exists c', cents s' !! p = Some c' /\ qname c' = qname c.
Proof. intros H Hc. pose proof (oc_name _ _ _ H) as Hn. rewrite Hc in Hn. destruct (cents s' !! p) as [c'|]; [|done]. exists c'. by injection Hn. Qed.

(** ** Deletions

    A deletion at the entry [p] takes from the list only what belongs to [p]. *)
Definition owned_by (p : positive) (s : cache) (a : positive) : Prop := exists o i, (core <$> lents s) !! a = Some (o, p, i).
Record drops (p : positive) (L : list positive) (s : cache) (L' : list positive) (s' : cache) : Prop := {
  dr_on : on_cent p s s';
  dr_brk : brk s' = brk s;
  dr_core : core <$> lents s' ⊆ core <$> lents s;
  dr_list : exists X : gset positive, L' = filter (.∉ X) L /\ forall a, a ∈ X -> owned_by p s a
}.
Lemma filter_nothing (X : gset positive) (L : list positive) : (forall a, a ∈ L -> a ∉ X) -> filter (.∉ X) L = L.
Proof. induction L as [|x L IH]; intros H; [done|]. rewrite filter_cons_True by (apply H; set_solver). rewrite IH; [done|]. intros a Ha. apply H. set_solver. Qed.
Lemma drops_refl p L s : drops p L s L s.
Proof. split; try done. exists ∅. split; [|set_solver]. by rewrite filter_nothing by set_solver. Qed.
Lemma drops_trans p L1 s1 L2 s2 L3 s3 : drops p L1 s1 L2 s2 -> drops p L2 s2 L3 s3 -> drops p L1 s1 L3 s3.
Proof.
  intros [A1 A2 A3 (X & -> & A7)] [B1 B2 B3 (Y & -> & B7)]. split.
  - by etrans.
  - congruence.
  - by etrans.
  - exists (X ∪ Y). split.
    + rewrite list_filter_filter. apply list_filter_iff. set_solver.
    + intros a [Ha|Ha]%elem_of_union; [auto|]. destruct (B7 a Ha) as (o & i & Hk). exists o, i. by eapply lookup_weaken.
Qed.
Lemma unlist_subseteq o (K : gmap positive (option positive * positive * Z)) : unlist o K ⊆ K.
Proof. apply map_subseteq_spec. intros a v Ha. by apply unlist_Some in Ha as [_ Ha]. Qed.
Lemma unlist_L_filter o (L : list positive) : unlist_L o L = filter (.∉ (match o with Some a => {[a]} | None => ∅ end : gset positive)) L.
Proof. destruct o as [a|]; cbn; [apply list_filter_iff; set_solver|by rewrite filter_nothing by set_solver]. Qed.
Lemma cleared_name c i n : qname (cleared c i n) = qname c.
Proof. cbn. by destruct (upd_slot_fields c i None) as (-> & _). Qed.

Lemma del_rrset_drops L s C p c i r x : store_ok L (set_cents C s) -> C !! p = Some c -> slot c i = Some r -> rrsets s !! r = Some x ->
  crun (del_rrset r) s (fun n s' => n = size_of x /\ cents s' = cents s /\ rrsets s' = delete r (rrsets s) /\
    let s1 := set_cents (<[p := cleared c i n]> C) s' in
    store_ok (unlist_L (lent x) L) s1 /\ drops p L (set_cents C s) (unlist_L (lent x) L) s1).
Proof.
  intros H Hp Hi Hr. use (del_rrset_store L s C p c i r x) as (-> & Hst & Hcs & Hb & Hrr & Hk & Hok); [done..|]. do 4 (split; [done|]). split.
  - split; cbn [cents set_cents rrsets]; [by destruct Hst|cbn; by rewrite Hb| | |].
    + intros q Hq. by rewrite lookup_insert_ne.
    + intros q d j t Hq Hqd Hqi. rewrite Hrr, lookup_delete_ne; [done|]. intros <-. by destruct (lk_inj _ _ _ (so_links _ _ H) _ _ _ _ _ _ _ Hp Hqd Hi Hqi).
    + rewrite lookup_insert_eq, Hp. cbn [fmap option_fmap option_map]. by rewrite cleared_name.
  - done.
  - cbn. rewrite Hk. apply unlist_subseteq.
  - rewrite unlist_L_filter. eexists. split; [done|]. intros a Ha. destruct (lent x) as [b|] eqn:El; [|set_solver]. apply elem_of_singleton in Ha as ->.
    exists (Some r), i. by eapply (lk_back _ _ _ (so_links _ _ H)).
Qed.
Lemma del_index_drops L s p c i : store_ok L s -> cents s !! p = Some c -> 0 <= i < NRRTOT ->
  crun (del_cent_rrset_by_index p i) s (fun n s' =>
    match slot c i with
    | None => n = 0 /\ s' = s
    | Some r => exists x, rrsets s !! r = Some x /\ n = size_of x /\ cents s' = <[p := cleared c i n]> (cents s) /\ rrsets s' = delete r (rrsets s) /\
                  store_ok (unlist_L (lent x) L) s' /\ drops p L s (unlist_L (lent x) L) s'
    end).
Proof.
  intros H Hp Hi. pose proof (so_cents _ _ H _ _ Hp) as Hc. unfold del_cent_rrset_by_index. do 3 step.
  apply crun_lift. rewrite (rrarr_testext_ok _ _ _ Hc Hi). cbn [succeeds]. destruct (slot c i) as [r|] eqn:E; [|by step].
  destruct (lk_live _ _ _ (so_links _ _ H) _ _ _ _ Hp E) as [x Hx]. step.
  use (del_rrset_drops L s (cents s) p c i r x) as (-> & Hcs & Hrr & Hok & Hdr); [by rewrite set_cents_id|done..|].
  step. eapply crun_get_cent; [by rewrite Hcs|]. step. apply crun_lift. rewrite (rrarr_set_ok _ _ _ _ Hc (slot_in _ _ _ E)). cbn [succeeds].
  step. step; [rewrite Hcs; by exists c|]. step. rewrite Hcs. destruct (upd_slot_fields c i None) as (_ & -> & -> & -> & _).
  rewrite set_cents_id in Hdr. by exists x.
Qed.

(** * Listing a set or a negative entry *)
Definition starved (s : cache) : Prop := exists n, memory (env s) n = false.

Lemma store_dated L s : store_ok L s -> Forall (dated s) L.
Proof.
  intros H. apply Forall_forall. intros a Ha. destruct (rlist_lookup _ _ _ (so_list _ _ H) Ha) as [e He].
  assert (Hk : (core <$> lents s) !! a = Some (core e)) by (by rewrite lookup_fmap, He). exists e. split; [done|]. unfold core in Hk.
  destruct (rrset e) as [r|].
  - destruct (lk_set _ _ _ (so_links _ _ H) _ _ _ _ Hk) as (_ & x & _ & _ & Hx & _). by exists x.
  - destruct (lk_cent _ _ _ (so_links _ _ H) _ _ _ Hk) as (c & Hc & Hn). unfold neg_lent in Hn. destruct (side c) eqn:E; [|done]. eauto 6.
Qed.
Lemma store_length L s : store_ok L s -> (length L <= size (lents s))%nat.
Proof.
  intros H. destruct (so_list _ _ H) as [Hnd _ _ _]. rewrite <- (size_list_to_set (C := gset positive) L) by done.
  rewrite <- (size_dom (D := gset positive)). apply subseteq_size. intros a Ha. apply elem_of_list_to_set in Ha. apply elem_of_dom.
  eapply rlist_lookup; [apply H|done].
Qed.
Lemma store_fresh L s : store_ok L s -> brk s ∉ L /\ (core <$> lents s) !! brk s = None /\ rrsets s !! brk s = None /\ cents s !! brk s = None.
Proof.
  intros H. assert (Hb : forall p, p = brk s -> ~ (is_Some (lents s !! p) \/ is_Some (rrsets s !! p) \/ is_Some (cents s !! p))).
  { intros p -> Hp. pose proof (so_brk _ _ H _ Hp). lia. }
  specialize (Hb _ eq_refl). assert (lents s !! brk s = None) by (apply eq_None_not_Some; tauto). split_and!.
  - intros Hin. destruct (rlist_lookup _ _ _ (so_list _ _ H) Hin). congruence.
  - rewrite lookup_fmap. by rewrite H0.
  - apply eq_None_not_Some. tauto.
  - apply eq_None_not_Some. tauto.
Qed.
Lemma rlist_listed L1 L2 o ce i s s' : NoDup (L1 ++ L2) -> brk s ∉ L1 ++ L2 -> listed L1 L2 o ce i s s' ->
  rlist (L1 ++ brk s :: L2) s' /\ core <$> lents s' = <[brk s := (o, ce, i)]> (core <$> lents s) /\ stays s s' /\ brk s' = Pos.succ (brk s).
Proof.
  intros Hnd Hne (m & h & t & -> & Hs & -> & -> & Hc).
  assert (NoDup (L1 ++ brk s :: L2)).
  { apply NoDup_app in Hnd as (N1 & N12 & N2). apply not_elem_of_app in Hne as [H1 H2]. apply NoDup_app. split_and!; [done| |by apply NoDup_cons].
    intros x Hx [->|Hx2]%elem_of_cons; [done|]. by apply (N12 x). }
  unfold attach. destruct o as [r|]; cbn; [destruct (rrsets s !! r)|destruct (cents s !! ce) as [c|]; [destruct (side c)|]]; (split; [by split|done]).
Qed.

Lemma insert_set_store L s p c i r x : store_ok L s -> cents s !! p = Some c -> slot c i = Some r -> rrsets s !! r = Some x -> lent x = None ->
  crun (insert_rrl (Some r) p i) s (fun ok s' => on_cent p s s' /\ cents s' = cents s /\ (ok = false -> starved s) /\
    exists L' o, store_ok L' s' /\ rrsets s' = <[r := with_lent o x]> (rrsets s)).
Proof.
  intros H Hp Hi Hr Hx. destruct (store_fresh _ _ H) as (F1 & F2 & F3 & F4).
  use (insert_rrl_run L (Some r) p i c s) as Hins; [apply H|by apply store_dated|by apply store_length|done|done|by exists x|].
  assert (Hid : rrsets s = <[r := with_lent None x]> (rrsets s)).
  { rewrite insert_id; [done|]. rewrite Hr. f_equal. destruct x. cbn in *. by rewrite Hx. }
  destruct Hins as [(-> & -> & _)|[(-> & Hm & ->)|(-> & L1 & L2 & -> & Hl & _)]].
  - split_and!; try done. by exists L, None.
  - split; [apply on_cent_ask|]. split; [done|]. split; [by exists (asked s)|]. exists L, None. split; [by apply store_ask|done].
  - destruct (rlist_listed _ _ _ _ _ _ _ (dl_nodup _ _ _ (so_list _ _ H)) F1 Hl) as (Hrl & Hc & Hst & Hb).
    destruct Hl as (m & h & t & Hs' & _). unfold attach in Hs'. cbn in Hs'. rewrite Hr in Hs'.
    assert (Hrr : rrsets s0 = <[r := with_lent (Some (brk s)) x]> (rrsets s)) by (by rewrite Hs').
    assert (Hcs : cents s0 = cents s) by (by rewrite Hs').
    split; [|split_and!; [done|done|]].
    + split; [done|rewrite Hb; lia|by rewrite Hcs| |by rewrite Hcs].
      intros q d j t' Hq Hd Hj. rewrite Hrr, lookup_insert_ne; [done|]. intros <-. by destruct (lk_inj _ _ _ (so_links _ _ H) _ _ _ _ _ _ _ Hp Hd Hi Hj).
    + exists (L1 ++ brk s :: L2), (Some (brk s)). split; [|done]. apply (store_intro _ (<[brk s := (Some r, p, i)]> (core <$> lents s))); [done|done| | | |].
      * intros a [v Ha]. apply lookup_insert_Some in Ha as [[<- _]|[_ Ha]]; [set_solver|]. pose proof (store_lk _ _ _ _ H Ha). set_solver.
      * rewrite Hrr, Hcs. by apply (lk_list_set _ _ _ _ c); [apply H|..].
      * intros q d Hq. rewrite Hcs in Hq. rewrite Hrr. eapply cent_ok_ext; [by eapply (so_cents _ _ H)|]. intros j t' Hj.
        destruct (decide (t' = r)) as [->|]; [rewrite lookup_insert_eq, Hr|rewrite lookup_insert_ne]; done.
      * intros q Hq. rewrite Hb. destruct (decide (q = brk s)) as [->|Hqb]; [lia|]. enough (q < brk s)%positive by lia. apply (so_brk _ _ H).
        destruct Hq as [Hq|[Hq|Hq]].
        -- left. rewrite lookup_insert_ne, lookup_fmap in Hq by done. by eapply fmap_is_Some.
        -- rewrite Hrr in Hq. destruct (decide (q = r)) as [->|]; [right; left; by exists x|]. rewrite lookup_insert_ne in Hq by done. auto.
        -- rewrite Hcs in Hq. auto.
Qed.
Lemma insert_neg_store L s p c i t n : store_ok L s -> cents s !! p = Some c -> side c = Neg None t n ->
  crun (insert_rrl None p i) s (fun ok s' => on_cent p s s' /\ rrsets s' = rrsets s /\ (ok = false -> starved s) /\
    exists L' o, store_ok L' s' /\ cents s' = <[p := with_side (Neg o t n) c]> (cents s)).
Proof.
  intros H Hp Hsd. destruct (store_fresh _ _ H) as (F1 & F2 & F3 & F4).
  use (insert_rrl_run L None p i c s) as Hins; [apply H|by apply store_dated|by apply store_length|done|done|by exists None, t, n|].
  assert (Hid : cents s = <[p := with_side (Neg None t n) c]> (cents s)).
  { rewrite insert_id; [done|]. rewrite Hp. f_equal. destruct c. cbn in *. by rewrite Hsd. }
  destruct Hins as [(-> & -> & _)|[(-> & Hm & ->)|(-> & L1 & L2 & -> & Hl & _)]].
  - split_and!; try done. by exists L, None.
  - split; [apply on_cent_ask|]. split; [done|]. split; [by exists (asked s)|]. exists L, None. split; [by apply store_ask|done].
  - destruct (rlist_listed _ _ _ _ _ _ _ (dl_nodup _ _ _ (so_list _ _ H)) F1 Hl) as (Hrl & Hc & Hst & Hb).
    destruct Hl as (m & h & u & Hs' & _). unfold attach in Hs'. cbn in Hs'. rewrite Hp, Hsd in Hs'.
    assert (Hcs : cents s0 = <[p := with_side (Neg (Some (brk s)) t n) c]> (cents s)) by (by rewrite Hs').
    assert (Hrr : rrsets s0 = rrsets s) by (by rewrite Hs').
    split; [|split_and!; [done|done|]].
    + split; [done|rewrite Hb; lia| |by intros; rewrite Hrr|by rewrite Hcs, lookup_insert_eq, Hp].
      intros q Hq. by rewrite Hcs, lookup_insert_ne.
    + exists (L1 ++ brk s :: L2), (Some (brk s)). split; [|done]. apply (store_intro _ (<[brk s := (None, p, i)]> (core <$> lents s))); [done|done| | | |].
      * intros a [v Ha]. apply lookup_insert_Some in Ha as [[<- _]|[_ Ha]]; [set_solver|]. pose proof (store_lk _ _ _ _ H Ha). set_solver.
      * rewrite Hrr, Hcs. apply (lk_list_neg _ _ _ p c); [apply H|done| |done|done|].
        -- unfold neg_lent. by rewrite Hsd.
        -- intros j. unfold slot, slots. cbn. by rewrite Hsd.
      * intros q d Hq. rewrite Hrr. rewrite Hcs in Hq. apply lookup_insert_Some in Hq as [[<- <-]|[_ Hq]]; [|by eapply (so_cents _ _ H)].
        pose proof (so_cents _ _ H _ _ Hp) as [G1 G2 G3 G4]. rewrite Hsd in G1. unfold ext_size, slots in *. rewrite Hsd in *. by constructor.
      * intros q Hq. rewrite Hb. destruct (decide (q = brk s)) as [->|Hqb]; [lia|]. enough (q < brk s)%positive by lia. apply (so_brk _ _ H).
        destruct Hq as [Hq|[Hq|Hq]].
        -- left. rewrite lookup_insert_ne, lookup_fmap in Hq by done. by eapply fmap_is_Some.
        -- rewrite Hrr in Hq. auto.
        -- rewrite Hcs in Hq. destruct (decide (q = p)) as [->|]; [right; right; by exists c|]. rewrite lookup_insert_ne in Hq by done. auto.
Qed.
