(* ===== verification/DnsEntry.v ===== *)
(** Building, filling, copying and releasing an entry of pdnsd's cache keeps the memory
    consistent. *)
From S2P Require Import Prelude CLib Rhn DnsName DnsNameProps HevList DnsStore DnsCents DnsRrl DnsHeap.

(** * Changes of one entry or set *)
Lemma store_cent_upd L s p c c' : store_ok L s -> cents s !! p = Some c -> cent_ok (rrsets s) c' -> neg_lent c' = neg_lent c ->
  (forall j, slot c' j = slot c j) -> store_ok L (set_cents (<[p := c']> (cents s)) s).
Proof.
  intros H Hp Hok Hn Hs. apply (store_intro _ (core <$> lents s)); [apply H|done|intros a Ha; by eapply store_dom| | |].
  - apply (lk_cent_same _ _ _ _ c); [apply H|done..].
  - intros q d Hq. cbn in Hq. apply lookup_insert_Some in Hq as [[_ <-]|[_ Hq]]; [done|by eapply (so_cents _ _ H)].
  - intros q Hq. apply (so_brk _ _ H). cbn in Hq. rewrite lookup_fmap, fmap_is_Some in Hq. destruct (decide (q = p)) as [->|]; [right; right; by exists c|].
    by rewrite lookup_insert_ne in Hq.
Qed.
Lemma on_cent_upd p c c' s : cents s !! p = Some c -> qname c' = qname c -> on_cent p s (set_cents (<[p := c']> (cents s)) s).
Proof.
  intros Hp Hq. split; [by split|done| |done|].
  - intros q Hn. cbn. by rewrite lookup_insert_ne.
  - cbn. rewrite lookup_insert_eq, Hp. cbn. by rewrite Hq.
Qed.
Lemma store_set_upd L s p c c' i r x x' : store_ok L s -> cents s !! p = Some c -> slot c i = Some r -> rrsets s !! r = Some x -> lent x' = lent x ->
  cent_ok (<[r := x']> (rrsets s)) c' -> neg_lent c' = neg_lent c -> (forall j, slot c' j = slot c j) ->
  store_ok L (set_cents (<[p := c']> (cents s)) (set_rrsets (<[r := x']> (rrsets s)) s)).
Proof.
  intros H Hp Hi Hr Hl Hok Hn Hs. apply (store_intro _ (core <$> lents s)); [apply H|done|intros a Ha; by eapply store_dom| | |].
  - apply (lk_cent_same _ _ _ _ c); [|done..]. apply (lk_set_upd _ _ _ _ x); [apply H|done..].
  - intros q d Hq. cbn in Hq |- *. apply lookup_insert_Some in Hq as [[_ <-]|[Hqp Hq]]; [done|].
    eapply cent_ok_ext; [by eapply (so_cents _ _ H)|]. intros j t Hj. rewrite lookup_insert_ne; [done|]. intros <-.
    by destruct (lk_inj _ _ _ (so_links _ _ H) _ _ _ _ _ _ _ Hp Hq Hi Hj).
  - intros q Hq. apply (so_brk _ _ H). cbn in Hq. rewrite lookup_fmap, fmap_is_Some in Hq.
    destruct (decide (q = p)) as [->|]; [right; right; by exists c|]. rewrite (lookup_insert_ne (cents s)) in Hq by done.
    destruct (decide (q = r)) as [->|]; [right; left; by exists x|]. by rewrite lookup_insert_ne in Hq.
Qed.
Lemma on_cent_set_upd L s p c c' i r x' : store_ok L s -> cents s !! p = Some c -> slot c i = Some r -> qname c' = qname c ->
  on_cent p s (set_cents (<[p := c']> (cents s)) (set_rrsets (<[r := x']> (rrsets s)) s)).
Proof.
  intros H Hp Hi Hq. split; [by split|done| | |].
  - intros q Hn. cbn. by rewrite lookup_insert_ne.
  - intros q d j t Hn Hd Hj. cbn. rewrite lookup_insert_ne; [done|]. intros <-. by destruct (lk_inj _ _ _ (so_links _ _ H) _ _ _ _ _ _ _ Hp Hd Hi Hj).
  - cbn. rewrite lookup_insert_eq, Hp. cbn. by rewrite Hq.
Qed.
(** A change of a set that keeps its records. *)
Lemma store_put_set L s p c i r x x' : store_ok L s -> cents s !! p = Some c -> slot c i = Some r -> rrsets s !! r = Some x ->
  lent x' = lent x -> rrs x' = rrs x -> let s' := set_rrsets (<[r := x']> (rrsets s)) s in store_ok L s' /\ on_cent p s s'.
Proof.
  intros H Hp Hi Hr Hl Hrr s'.
  assert (Hid : set_cents (<[p := c]> (cents s)) s' = s') by (unfold s'; rewrite insert_id by done; by destruct s).
  split; [rewrite <- Hid; apply (store_set_upd _ _ _ c c i r x); try done|rewrite <- Hid; by apply (on_cent_set_upd L _ _ c c i)].
  eapply cent_ok_ext; [by eapply (so_cents _ _ H)|]. intros j t Hj. destruct (decide (t = r)) as [->|]; [|by rewrite lookup_insert_ne].
  rewrite lookup_insert_eq, Hr. cbn. by rewrite Hrr.
Qed.


(** * [add_cent_rrset_by_index] *)
Definition no_sets : sides := Rr (replicate (Z.to_nat NRRMU) None) None.
Lemma no_sets_slot c j : side c = no_sets -> slot c j = None.
Proof. intros E. unfold slot, slots. rewrite E. cbn. destruct (0 <=? j); [|done]. by destruct (Z.to_nat j) as [|[|[|[|[|[|[|[|]]]]]]]]. Qed.
Lemma drop_negative f : has (drop_flag f DF_NEGATIVE) DF_NEGATIVE = false.
Proof. unfold has, drop_flag, DF_NEGATIVE. rewrite <- Z.land_assoc. replace (Z.land (65535 - 1) 1) with 0 by done. by rewrite Z.land_0_r. Qed.
Definition made_positive (c : dns_cent_t) : dns_cent_t := with_side no_sets (with_flags (drop_flag (flags c) DF_NEGATIVE) c).
Lemma make_positive_ok L s p c l t n : store_ok L s -> cents s !! p = Some c -> side c = Neg l t n ->
  crun (_ ← (match l with Some le => remove_rrl le | None => mret tt end : cm unit); update p made_positive) s (fun _ s' =>
    on_cent p s s' /\ cents s' = <[p := made_positive c]> (cents s) /\ rrsets s' = rrsets s /\ store_ok (unlist_L l L) s').
Proof.
  intros H Hp Hsd. pose proof (so_cents _ _ H _ _ Hp) as [G1 G2 G3 G4]. step.
  assert (Hnl : neg_lent c = l) by (unfold neg_lent; by rewrite Hsd).
  use (unlist_run l L s (so_list _ _ H)) as (m & h & u & -> & Hl & Hc).
  { intros a ->. destruct (lk_neg _ _ _ (so_links _ _ H) _ _ _ Hp Hnl) as [i Hi]. by eapply store_lk. }
  eapply crun_update; [exact Hp|]. split; [|split; [done|split; [done|]]].
  - split; [by split|done| |done|]; [intros q Hq; cbn; by rewrite lookup_insert_ne|]. cbn. by rewrite lookup_insert_eq, Hp.
  - unfold slots, ext_size in *. rewrite Hsd in *. apply (store_intro _ (unlist l (core <$> lents s))); [exact Hl|exact Hc| | | |].
    + intros a [v Ha]. apply unlist_Some in Ha as [Hx Ha]. apply unlist_L_elem. split; [|done]. by eapply store_lk.
    + rewrite <- Hnl. apply lk_cent_upd; [apply H|done|done|]. intros j. rewrite no_sets_slot by done. unfold slot, slots. rewrite Hsd. by destruct (0 <=? j).
    + intros q d Hq. cbn in Hq |- *. apply lookup_insert_Some in Hq as [[_ <-]|[_ Hq]]; [|by eapply (so_cents _ _ H)].
      constructor; unfold slots, ext_size; cbn [side with_side made_positive no_sets num_rrs with_flags default from_option]; auto.
      split; [apply drop_negative|]. split; [done|]. done.
    + intros q Hq. apply (so_brk _ _ H). cbn in Hq. destruct Hq as [[v Hq]|[Hq|[d Hq]]]; [|auto|].
      * apply unlist_Some in Hq as [_ Hq]. left. rewrite lookup_fmap in Hq. eapply fmap_is_Some. by exists v.
      * right. right. destruct (decide (q = p)) as [->|]; [by exists c|]. rewrite lookup_insert_ne in Hq by done. by exists d.
Qed.

(** A new set goes into an empty slot. *)
Definition filled (c : dns_cent_t) (i : Z) (r : positive) (n : Z) : dns_cent_t :=
  let c := upd_slot c i (Some r) in with_num (u16 (num_rrs c + 1)) (with_cs (cs c + n) c).
Lemma filled_ok R c i r x : cent_ok R c -> 0 <= i < slot_count c -> slot c i = None -> R !! r = None -> (forall j, slot c j <> Some r) ->
  cent_ok (<[r := x]> R) (filled c i r (size_of x)).
Proof.
  intros H Hin Hi Hr Hu. pose proof (slot_None_lookup _ _ Hin Hi) as Hlk.
  destruct (upd_slot_fields c i (Some r)) as (F1 & F2 & F3 & F4 & _ & _ & F7 & _). pose proof H as [_ Hnum Hcs Hname].
  assert (Hsl : slots (filled c i r (size_of x)) = <[Z.to_nat i := Some r]> (slots c)) by (rewrite <- (slots_upd _ _ _ _ H Hin); done).
  assert (Hcnt : slot_count c <= 47).
  { destruct (negative c) eqn:E; [unfold slot_count; rewrite (negative_slots _ _ H E); cbn; lia|].
    destruct (slots_length _ _ H E) as (? & ext & _ & _ & _ & Hl). unfold slot_count. rewrite Hl. destruct ext; lia. }
  constructor.
  - pose proof (upd_slot_side _ _ i (Some r) H) as Hs. change (negative (filled c i r (size_of x))) with (negative (upd_slot c i (Some r))). rewrite negative_upd. exact Hs.
  - rewrite Hsl. pose proof (count_sets_range (<[Z.to_nat i := Some r]> (slots c))) as Hc. rewrite length_insert in Hc.
    rewrite (count_sets_insert _ _ _ _ Hlk) in *. cbn [is_some] in *. change (num_rrs (filled c i r (size_of x))) with (u16 (num_rrs (upd_slot c i (Some r)) + 1)).
    rewrite F3, Hnum. unfold slot_count in *. rewrite u16_small; lia.
  - rewrite Hsl. change (ext_size (filled c i r (size_of x))) with (ext_size (upd_slot c i (Some r))). rewrite F7.
    change (cs (filled c i r (size_of x))) with (cs (upd_slot c i (Some r)) + size_of x). change (qname (filled c i r (size_of x))) with (qname (upd_slot c i (Some r))). rewrite F1, F2.
    rewrite (sum_sizes_insert _ _ _ _ _ Hlk). cbn [set_size]. rewrite lookup_insert_eq.
    rewrite (sum_sizes_ext R (<[r := x]> R)); [unfold size_of; lia|]. intros t [k Hk]%slot_elem. rewrite lookup_insert_ne; [done|]. intros ->. by apply (Hu k).
  - change (qname (filled c i r (size_of x))) with (qname (upd_slot c i (Some r))). by rewrite F1.
Qed.
Lemma store_add_set L s p c i x : store_ok L s -> cents s !! p = Some c -> 0 <= i < slot_count c -> slot c i = None -> lent x = None ->
  let r := brk s in let s' := set_cents (<[p := filled c i r (size_of x)]> (cents s)) (set_rrsets (<[r := x]> (rrsets s)) (set_brk (Pos.succ r) s)) in
  store_ok L s' /\ on_cent p s s'.
Proof.
  intros H Hp Hin Hi Hl r s'. destruct (store_fresh _ _ H) as (_ & _ & Hr & _). fold r in Hr. pose proof (so_cents _ _ H _ _ Hp) as Hok.
  assert (Hold : forall q d j, cents s !! q = Some d -> slot d j <> Some r).
  { intros q d j Hq Hj. destruct (lk_live _ _ _ (so_links _ _ H) _ _ _ _ Hq Hj). congruence. }
  split.
  - assert (Hneg : neg_lent c = None).
    { unfold neg_lent. destruct (side c) eqn:E; [|done]. unfold slot_count, slots in Hin. rewrite E in Hin. cbn in Hin. lia. }
    apply (store_intro _ (core <$> lents s)); [apply H|done|intros a Ha; by eapply store_dom| | |].
    + apply (lk_add_set _ _ _ p c _ i); [apply H|done|done|done|done| |done|].
      * intros j. change (slot (filled c i r (size_of x)) j) with (slot (upd_slot c i (Some r)) j). by apply (slot_upd _ _ _ _ _ Hok).
      * change (neg_lent (filled c i r (size_of x))) with (neg_lent (upd_slot c i (Some r))). by destruct (upd_slot_fields c i (Some r)) as (_ & _ & _ & _ & _ & _ & _ & ->).
    + intros q d Hq. cbn in Hq |- *. apply lookup_insert_Some in Hq as [[<- <-]|[_ Hq]]; [apply filled_ok; eauto|].
      eapply cent_ok_ext; [by eapply (so_cents _ _ H)|]. intros j t Hj. rewrite lookup_insert_ne; [done|]. intros <-. by apply (Hold q d j).
    + intros q Hq. cbn in Hq |- *. destruct (decide (q = r)) as [->|Hqr]; [lia|]. enough (q < r)%positive by lia. apply (so_brk _ _ H).
      rewrite lookup_fmap, fmap_is_Some in Hq. rewrite (lookup_insert_ne (rrsets s)) in Hq by done.
      destruct (decide (q = p)) as [->|]; [right; right; by exists c|]. by rewrite lookup_insert_ne in Hq.
  - split; [by split|cbn; lia| | |].
    + intros q Hq. cbn. by rewrite lookup_insert_ne.
    + intros q d j t Hq Hd Hj. cbn. rewrite lookup_insert_ne; [done|]. intros <-. by apply (Hold q d j).
    + cbn. rewrite lookup_insert_eq, Hp. cbn. change (qname (filled c i r (size_of x))) with (qname (upd_slot c i (Some r))).
      by destruct (upd_slot_fields c i (Some r)) as (-> & _).
Qed.

(** The array of the less frequent types. *)
Definition with_ext (c : dns_cent_t) (mu : list (option positive)) : dns_cent_t :=
  with_cs (cs c + sizeof_ptr * NRREXT) (with_side (Rr mu (Some (replicate (Z.to_nat NRREXT) None))) c).
Lemma lookup_replicate_none (n i : nat) : mjoin (replicate n (@None positive) !! i) = None.
Proof. destruct (replicate n None !! i) as [o|] eqn:E; [|done]. by apply lookup_replicate in E as [-> _]. Qed.
Lemma with_ext_ok R c mu : cent_ok R c -> side c = Rr mu None -> cent_ok R (with_ext c mu) /\ forall j, slot (with_ext c mu) j = slot c j.
Proof.
  intros [G1 G2 G3 G4] Hs. rewrite Hs in G1. destruct G1 as (N & Hm & _). unfold slots, ext_size in *. rewrite Hs in *. cbn [default from_option] in *. rewrite app_nil_r in *. split.
  - constructor; unfold slots, ext_size; cbn [side with_side with_ext with_cs num_rrs cs qname default from_option].
    + split; [done|]. split; [done|]. intros e [= <-]. done.
    + rewrite G2, count_sets_app. change (id _) with (replicate (Z.to_nat NRREXT) (@None positive)). rewrite count_sets_replicate. lia.
    + rewrite G3, sum_sizes_app. change (id _) with (replicate (Z.to_nat NRREXT) (@None positive)). rewrite sum_sizes_replicate. lia.
    + done.
  - intros j. unfold slot, slots. rewrite Hs. cbn [side with_side with_ext with_cs default from_option]. rewrite app_nil_r.
    destruct (0 <=? j); [|done]. change (id _) with (replicate (Z.to_nat NRREXT) (@None positive)).
    destruct (decide (Z.to_nat j < length mu)%nat); [by rewrite lookup_app_l|]. rewrite lookup_app_r by lia. rewrite lookup_replicate_none, lookup_ge_None_2 by lia. done.
Qed.

(** The state of one slot. *)
Definition has_set (s : cache) (p : positive) (i : Z) (x : rr_set_t) : Prop :=
  exists c r, cents s !! p = Some c /\ slot c i = Some r /\ rrsets s !! r = Some x.
Definition empty_slot (s : cache) (p : positive) (i : Z) : Prop := exists c, cents s !! p = Some c /\ slot c i = None.
(** Whether a slot that is not [i] holds a set, and which, does not change. *)
Definition other_slots (p : positive) (i : Z) (s s' : cache) : Prop := forall j x, j <> i -> has_set s p j x <-> has_set s' p j x.

Lemma positive_slots L s p c i : store_ok L s -> cents s !! p = Some c -> negative c = false -> 0 <= i < NRRMU -> 0 <= i < slot_count c.
Proof.
  intros H Hp Hn Hi. destruct (slots_length _ _ (so_cents _ _ H _ _ Hp) Hn) as (mu & ext & _ & _ & _ & Hl).
  unfold slot_count, NRRMU in *. rewrite Hl. destruct ext; lia.
Qed.

(** With the room there is for the slot. *)
Lemma add_rrset_room L s p c i : store_ok L s -> cents s !! p = Some c -> negative c = false -> 0 <= i < NRRTOT ->
  forall mu ext, side c = Rr mu ext ->
  crun (if i <? NRRMU then mret true
        else
          _ ← lift (PDNSD_ASSERT ((NRRMU <=? i) && (i - NRRMU <? NRREXT)));
          match ext with
          | Some _ => mret true
          | None =>
              ok ← malloc;
              if negb ok then mret false else
              _ ← put_cent p (with_cs (cs c + sizeof_ptr * NRREXT) (with_side (Rr mu (Some (replicate (Z.to_nat NRREXT) None))) c));
              mret true
          end : cm bool) s (fun ok s' => on_cent p s s' /\ store_ok L s' /\ rrsets s' = rrsets s /\
    exists c', cents s' = <[p := c']> (cents s) /\ qname c' = qname c /\ negative c' = false /\ (forall j, slot c' j = slot c j) /\ neg_lent c' = neg_lent c /\
      if ok then 0 <= i < slot_count c' else starved s).
Proof.
  intros H Hp Hn Hi mu ext Hs. pose proof (so_cents _ _ H _ _ Hp) as Hok.
  assert (Hsame : on_cent p s s /\ store_ok L s /\ rrsets s = rrsets s /\ exists c', cents s = <[p := c']> (cents s) /\ qname c' = qname c /\ negative c' = false /\
    (forall j, slot c' j = slot c j) /\ neg_lent c' = neg_lent c /\ c' = c) by (split_and!; try done; exists c; by rewrite insert_id).
  destruct (slots_length _ _ Hok Hn) as (mu' & ext' & Hs' & Hm & He & Hl). rewrite Hs in Hs'. injection Hs' as <- <-.
  unfold NRRMU, NRREXT, NRRTOT in *. destruct (Z.ltb_spec i 8).
  { step. destruct Hsame as (? & ? & ? & c' & ? & ? & ? & ? & ? & ->). split_and!; try done. exists c. split_and!; try done; unfold slot_count; destruct ext; lia. }
  step. apply crun_lift. rewrite (proj2 (Z.leb_le 8 i)), (proj2 (Z.ltb_lt (i - 8) 39)) by lia. cbn [succeeds PDNSD_ASSERT andb].
  destruct ext as [e|].
  { step. destruct Hsame as (? & ? & ? & c' & ? & ? & ? & ? & ? & ->). split_and!; try done. exists c. split_and!; try done; unfold slot_count; lia. }
  do 2 step. destruct ok.
  - do 2 step. step. destruct (with_ext_ok _ _ _ Hok Hs) as [Hok' Hsl].
    assert (Hnl : neg_lent (with_ext c mu) = neg_lent c) by (unfold neg_lent; cbn; by rewrite Hs).
    split; [|split; [|split; [done|]]].
    + etrans; [apply (on_cent_ask p (S (asked s)))|]. by apply (on_cent_upd p c (with_ext c mu) (set_asked (S (asked s)) s)).
    + apply (store_cent_upd L (set_asked (S (asked s)) s) p c (with_ext c mu)); [by apply store_ask|done..].
    + assert (Hlen : length (slots (with_ext c mu)) = 47%nat) by (unfold slots; cbn [side with_ext with_cs with_side]; by rewrite length_app, Hm).
      exists (with_ext c mu). split_and!; try done; unfold slot_count; lia.
  - step. split; [apply on_cent_ask|]. split; [by apply store_ask|]. split; [done|]. exists c. rewrite insert_id by done. split_and!; try done. by exists (asked s).
Qed.

Lemma on_cent_env p s s' : on_cent p s s' -> starved s' -> starved s.
Proof. intros [H _ _ _ _] [n Hn]. exists n. by rewrite <- (st_env _ _ H). Qed.
Lemma upd_slot_None_id R c i : cent_ok R c -> 0 <= i < slot_count c -> slot c i = None -> upd_slot c i None = c.
Proof.
  intros H Hin Hi. pose proof (slot_None_lookup _ _ Hin Hi) as Hlk. unfold upd_slot, slots, slot_count in *. destruct c as [q n m f sd a b]. cbn in *.
  destruct sd as [|mu ext]; [done|]. pose proof (co_side _ _ H) as (_ & Hm & He). cbn in *. destruct (Z.ltb_spec i NRRMU).
  - rewrite lookup_app_l in Hlk by (unfold NRRMU in *; lia). by rewrite list_insert_id.
  - destruct ext as [e|]; [|done]. cbn in *. rewrite lookup_app_r in Hlk by (unfold NRRMU in *; lia). unfold with_side. cbn. do 3 f_equal.
    rewrite list_insert_id; [done|]. rewrite <- Hlk. f_equal. unfold NRRMU in *. lia.
Qed.

Lemma add_rrset_store L s p i t n f : store_ok L s -> empty_slot s p i -> 0 <= i < NRRTOT ->
  crun (add_cent_rrset_by_index p i t n f) s (fun ok s' => on_cent p s s' /\ (exists L', store_ok L' s') /\
    (exists c', cents s' !! p = Some c' /\ negative c' = false) /\ if ok then has_set s' p i (RrSet None t n f []) else starved s).
Proof.
  intros H (c & Hp & Hi) Hr. unfold add_cent_rrset_by_index. do 3 step.
  (** no longer negative *)
  apply (crun_mono _ _ (fun _ s1 => on_cent p s s1 /\ exists L1 c1, store_ok L1 s1 /\ cents s1 !! p = Some c1 /\ negative c1 = false /\ slot c1 i = None)).
  { destruct (negative c) eqn:E; [|step; split; [done|]; eauto 6]. destruct (the_neg_ok _ _ (so_cents _ _ H _ _ Hp) E) as (l & u & v & El & Es).
    step. apply crun_lift. rewrite El. cbn [succeeds]. eapply crun_mono; [exact (make_positive_ok _ _ _ _ _ _ _ H Hp Es)|].
    intros _ s1 (Ho & Hc1 & _ & Hok). split; [done|]. exists (unlist_L l L), (made_positive c). rewrite Hc1, lookup_insert_eq.
    split_and!; try done; [apply drop_negative|by apply no_sets_slot]. }
  intros _ s1 (Ho1 & L1 & c1 & H1 & Hp1 & Hn1 & Hi1). do 3 step.
  destruct (the_rr_ok _ _ (so_cents _ _ H1 _ _ Hp1) Hn1) as (mu & ext & Er & Es). apply crun_lift. rewrite Er. cbn [succeeds]. step.
  eapply crun_mono; [apply (add_rrset_room L1 s1 p c1 i H1 Hp1 Hn1 Hr mu ext Es)|].
  intros room s2 (Ho2 & H2 & Hrr & c2 & Hc2 & Hq2 & Hn2 & Hsl2 & Hnl2 & Hroom).
  assert (Hp2 : cents s2 !! p = Some c2) by (by rewrite Hc2, lookup_insert_eq).
  assert (Ho : on_cent p s s2) by (etrans; eauto).
  destruct room; cbn [negb]; [|step; split; [done|]; split; [eauto|]; split; [eauto|]; by apply (on_cent_env _ _ _ Ho1)].
  do 2 step. destruct ok; cbn [negb].
  - do 4 step. do 3 step. eapply crun_get_cent; [exact Hp2|]. step. apply crun_lift.
    rewrite (rrarr_set_ok _ _ _ _ (so_cents _ _ H2 _ _ Hp2) Hroom). cbn [succeeds]. step. apply crun_put_cent; [by exists c2|]. step.
    destruct (store_add_set L1 (set_asked (S (asked s2)) s2) p c2 i (RrSet None t n f [])) as [H3 Ho3]; [by apply store_ask|done|done|by rewrite Hsl2|done|].
    split; [etrans; [exact Ho|]; etrans; [apply on_cent_ask|exact Ho3]|]. split; [eexists; exact H3|].
    cbn [cents set_cents set_rrsets rrsets]. rewrite lookup_insert_eq. split.
    + eexists. split; [done|]. change (negative (filled c2 i (brk s2) sizeof_rr_set_t) = false). change (negative (filled c2 i (brk s2) sizeof_rr_set_t)) with (negative (upd_slot c2 i (Some (brk s2)))).
      by rewrite negative_upd.
    + eexists _, (brk s2). cbn [cents set_cents set_rrsets rrsets]. split; [by rewrite lookup_insert_eq|]. split; [|by rewrite lookup_insert_eq].
      change (slot (upd_slot c2 i (Some (brk s2))) i = Some (brk s2)). rewrite (slot_upd _ _ _ _ _ (so_cents _ _ H2 _ _ Hp2) Hroom). by rewrite decide_True.
  - step. eapply crun_get_cent; [exact Hp2|]. step. apply crun_lift.
    rewrite (rrarr_set_ok _ _ _ _ (so_cents _ _ H2 _ _ Hp2) Hroom). cbn [succeeds].
    rewrite (upd_slot_None_id _ _ _ (so_cents _ _ H2 _ _ Hp2) Hroom) by (by rewrite Hsl2). step. apply crun_put_cent; [by exists c2|]. step.
    cbn [cents set_asked]. rewrite insert_id by done. replace (set_cents (cents s2) (set_asked (S (asked s2)) s2)) with (set_asked (S (asked s2)) s2) by done.
    split; [etrans; [exact Ho|apply on_cent_ask]|]. split; [exists L1; by apply store_ask|]. split; [by exists c2|].
    apply (on_cent_env _ _ _ Ho). by exists (asked s2).
Qed.

(** * Records *)
Lemma rr_size_app l1 l2 : rr_size (l1 ++ l2) = rr_size l1 + rr_size l2.
Proof. unfold rr_size. induction l1 as [|d l1 IH]; cbn; [lia|]. rewrite IH. lia. Qed.
Lemma sum_sizes_set R c i r x x' : slot c i = Some r -> R !! r = Some x -> (forall j, slot c j = Some r -> j = i) ->
  sum_sizes (<[r := x']> R) (slots c) = sum_sizes R (slots c) + size_of x' - size_of x.
Proof.
  intros Hi Hr Hu. pose proof (slot_lookup _ _ _ Hi) as Hlk.
  assert (Hnone : forall R', sum_sizes R' (slots c) = sum_sizes R' (<[Z.to_nat i := None]> (slots c)) + set_size R' (Some r)).
  { intros R'. rewrite (sum_sizes_insert _ _ _ _ _ Hlk). cbn. lia. }
  rewrite (Hnone R), (Hnone (<[r := x']> R)). cbn [set_size]. rewrite lookup_insert_eq, Hr, (sum_sizes_ext R (<[r := x']> R)); [unfold size_of; lia|].
  intros t Ht. rewrite lookup_insert_ne; [done|]. intros <-. apply list_elem_of_lookup in Ht as [k Hk].
  destruct (decide (k = Z.to_nat i)) as [->|Hki]; [rewrite list_lookup_insert_eq in Hk by (apply lookup_lt_is_Some_1; eauto); done|].
  rewrite list_lookup_insert_ne in Hk by done. apply Hki. rewrite <- (Hu (Z.of_nat k)); [lia|].
  unfold slot. rewrite (proj2 (Z.leb_le 0 _)) by lia. by rewrite Nat2Z.id, Hk.
Qed.

(** Where [add_cent_rr_int] puts the record. *)
Definition insert_rr (rt : option nat) (rr : list Z) (l : list (list Z)) : list (list Z) * nat :=
  match rt with None => (rr :: l, O) | Some k => (take (S k) l ++ rr :: drop (S k) l, S k) end.
Lemma insert_rr_size rt rr l : rr_size (fst (insert_rr rt rr l)) = rr_size l + (sizeof_rr_bucket_t + zlen rr).
Proof.
  destruct rt as [k|]; unfold insert_rr, fst; [|unfold rr_size; cbn [foldr]; lia]. rewrite rr_size_app. rewrite <- (take_drop (S k) l) at 3. rewrite rr_size_app.
  change (rr_size (rr :: drop (S k) l)) with (sizeof_rr_bucket_t + zlen rr + rr_size (drop (S k) l)). lia.
Qed.
Lemma put_record L s p i x rr rt : store_ok L s -> has_set s p i x -> 0 <= i < NRRTOT -> (forall k, rt = Some k -> (k < length (rrs x))%nat) ->
  crun (c ← get_cent p;
        o ← lift (RRARR_INDEX c i);
        r ← lift (match o with Some r => Ok r | None => Fault NullDeref end);
        x ← get_set r;
        '(l, pos) ← lift (match rt with
                          | None => Ok (rr :: rrs x, O)
                          | Some k => if (k <? length (rrs x))%nat then Ok (take (S k) (rrs x) ++ rr :: drop (S k) (rrs x), S k) else Fault Stale
                          end);
        _ ← put_set r (with_rrs l x);
        _ ← put_cent p (with_cs (cs c + (sizeof_rr_bucket_t + zlen rr)) c);
        mret (true, Some pos)) s (fun y s' => on_cent p s s' /\ store_ok L s' /\ y.1 = true /\ y.2 = Some (insert_rr rt rr (rrs x)).2 /\
    has_set s' p i (with_rrs (insert_rr rt rr (rrs x)).1 x)).
Proof.
  intros H (c & r & Hp & Hi & Hr) Hrange Hk. pose proof (so_cents _ _ H _ _ Hp) as Hok. do 3 step.
  apply crun_lift. rewrite (rrarr_index_ok _ _ _ Hok (slot_in _ _ _ Hi)), Hi. cbn [succeeds]. step. apply crun_lift. cbn [succeeds]. do 3 step.
  apply crun_lift. assert (Hins : match rt with None => Ok (rr :: rrs x, O)
    | Some k => if (k <? length (rrs x))%nat then Ok (take (S k) (rrs x) ++ rr :: drop (S k) (rrs x), S k) else Fault Stale end = Ok (insert_rr rt rr (rrs x))).
  { destruct rt as [k|]; [|done]. specialize (Hk k eq_refl). by rewrite (proj2 (Nat.ltb_lt _ _)). }
  rewrite Hins. cbn [succeeds]. pose proof (insert_rr_size rt rr (rrs x)) as Hsz. destruct (insert_rr rt rr (rrs x)) as [l pos]. cbn [fst snd] in *.
  repeat step. cbn [cents set_rrsets set_cents].
  set (x' := with_rrs l x). set (c' := with_cs (cs c + (sizeof_rr_bucket_t + zlen rr)) c).
  assert (Hok' : cent_ok (<[r := x']> (rrsets s)) c').
  { pose proof Hok as [G1 G2 G3 G4]. constructor; [exact G1|exact G2| |exact G4]. change (slots c') with (slots c). rewrite (sum_sizes_set _ _ i _ x); [|done|done|].
    - change (cs c') with (cs c + (sizeof_rr_bucket_t + zlen rr)). change (ext_size c') with (ext_size c). change (qname c') with (qname c).
      rewrite G3. unfold size_of. change (rrs x') with l. rewrite Hsz. lia.
    - intros j Hj. by destruct (lk_inj _ _ _ (so_links _ _ H) _ _ _ _ _ _ _ Hp Hp Hi Hj). }
  split; [by apply (on_cent_set_upd L s p c c' i r x')|]. split; [by apply (store_set_upd L s p c c' i r x x')|]. split; [done|]. split; [done|].
  exists c', r. cbn. rewrite !lookup_insert_eq. done.
Qed.

Lemma has_set_cent s p i x : has_set s p i x -> exists c, cents s !! p = Some c.
Proof. intros (c & r & Hc & _). eauto. Qed.
(** What a slot holds, or is about to hold, before a record is added. *)
Definition slot_state (s : cache) (p : positive) (i : Z) (rt : option nat) (st : option rr_set_t) : Prop :=
  match st with Some x => has_set s p i x /\ (forall k, rt = Some k -> (k < length (rrs x))%nat) | None => empty_slot s p i /\ rt = None end.
Lemma add_rr_store L s p i t n f rr rt st : store_ok L s -> 0 <= i < NRRTOT -> slot_state s p i rt st ->
  let x0 := default (RrSet None t n f []) st in
  crun (add_cent_rr_int p i t n f rr rt) s (fun y s' => on_cent p s s' /\ (exists L', store_ok L' s') /\ (exists c, cents s' !! p = Some c) /\
    if y.1 then y.2 = Some (insert_rr rt rr (rrs x0)).2 /\ has_set s' p i (with_rrs (insert_rr rt rr (rrs x0)).1 x0) else starved s).
Proof.
  intros H Hr Hst x0. unfold add_cent_rr_int, create_rr.
  assert (Hc : exists c, cents s !! p = Some c /\ slot c i = match st with Some x => slot c i | None => None end).
  { destruct st as [x|]; [destruct Hst as [(c & r1 & Hc & _) _]; eauto|destruct Hst as [(c & Hc & Hi) _]; eauto]. }
  destruct Hc as (c & Hp & Hsl). do 4 step.
  assert (Hoc : on_cent p s (set_asked (S (asked s)) s)) by apply on_cent_ask.
  assert (Hstv : ok = false -> starved s) by (intros ->; exists (asked s); by rewrite <- Hok).
  destruct ok; [|step; split_and!; [done|exists L; by apply store_ask|by exists c|by apply Hstv]].
  do 3 step. apply crun_lift. rewrite (rrarr_testext_ok _ _ _ (so_cents _ _ H _ _ Hp) Hr). cbn [succeeds]. step.
  apply (crun_mono _ _ (fun (ok : bool) s1 => on_cent p s s1 /\ (exists L', store_ok L' s1) /\ (exists c, cents s1 !! p = Some c) /\ if ok then has_set s1 p i x0 else starved s)).
  { destruct st as [x|].
    - destruct Hst as [Hx Hk]. destruct Hx as (c1 & r & Hp1 & Hi & Hx). assert (c1 = c) as -> by congruence. rewrite Hi.
      assert (crun (mret true) (set_asked (S (asked s)) s) (fun (ok : bool) s1 => on_cent p s s1 /\ (exists L', store_ok L' s1) /\ (exists c, cents s1 !! p = Some c) /\
        if ok then has_set s1 p i x0 else starved s)) by (step; split; [done|]; split; [exists L; by apply store_ask|]; split; [by exists c|]; by exists c, r).
      by destruct rt.
    - destruct Hst as [He ->]. rewrite Hsl. use (add_rrset_store L (set_asked (S (asked s)) s) p i t n f) as (Ho & Hok' & (c' & Hc' & _) & Hpost); [by apply store_ask| |done|].
      { destruct He as (c1 & ? & ?). by exists c1. }
      split; [by etrans|]. split; [done|]. split; [eauto|]. destruct r; [exact Hpost|by apply (on_cent_env _ _ _ Hoc)]. }
  intros ok1 s1 (Ho1 & [L1 H1] & Hc1 & Hpost). destruct ok1; cbn [negb]; [|step; split_and!; eauto].
  eapply crun_mono; [apply (put_record L1 s1 p i x0 rr rt H1 Hpost Hr)|].
  { intros k ->. unfold x0. destruct st as [x|]; [by apply Hst|]. by destruct Hst. }
  intros [b rt'] s2 (Ho2 & H2 & Hb & Hrt & Hs2). cbn [fst snd] in *. subst b. split; [by etrans|]. split; [eauto|]. split; [by eapply has_set_cent|]. done.
Qed.

(** Where the last record of a chain is. *)
Definition last_pos (l : list (list Z)) : option nat := match l with [] => None | d :: l => Some (length (d :: l) - 1)%nat end.
Lemma insert_rr_last l rr : insert_rr (last_pos l) rr l = (l ++ [rr], length l).
Proof.
  destruct l as [|d l]; [done|]. unfold insert_rr, last_pos. cbn [length]. replace (S (S (length l) - 1)) with (length (d :: l)) by (cbn; lia).
  rewrite take_ge, drop_ge by done. done.
Qed.
Lemma last_pos_lt l k : last_pos l = Some k -> (k < length l)%nat.
Proof. destruct l; cbn; [done|]. intros [= <-]. lia. Qed.
Lemma last_pos_snoc l rr : Some (length l) = last_pos (l ++ [rr]).
Proof. destruct l as [|d l]; [done|]. cbn. rewrite length_app. cbn. f_equal. lia. Qed.

(** [add_cent_rr] on an entry: the type is one that is cached. *)
Definition cached_type (type : Z) : Prop := exists i, 0 <= type - T_MIN < T_NUM /\ rd rrlkuptab (type - T_MIN) = Ok i /\ 0 <= i < NRRTOT.
Lemma add_cent_rr_store L s p type t n f rr : store_ok L s -> is_Some (cents s !! p) -> cached_type type ->
  crun (add_cent_rr p type t n f rr) s (fun ok s' => on_cent p s s' /\ (exists L', store_ok L' s') /\ is_Some (cents s' !! p) /\ (ok = false -> starved s)).
Proof.
  intros H [c Hp] (i & Ht & Hi & Hr). unfold add_cent_rr. do 2 step. apply crun_if; intros E.
  { step. split_and!; try done; eauto. }
  step. apply crun_lift. rewrite (proj2 (Z.leb_le 0 _)), (proj2 (Z.ltb_lt _ _)) by lia. cbn [succeeds PDNSD_ASSERT andb]. step. apply crun_lift. rewrite Hi. cbn [succeeds].
  step. apply crun_lift. rewrite (proj2 (Z.ltb_lt i NRRTOT)) by lia. cbn [succeeds PDNSD_ASSERT]. step. apply crun_lift.
  rewrite (rrarr_testext_ok _ _ _ (so_cents _ _ H _ _ Hp) Hr). cbn [succeeds]. destruct (slot c i) as [r|] eqn:Esl.
  - destruct (lk_live _ _ _ (so_links _ _ H) _ _ _ _ Hp Esl) as [x Hx]. do 3 step. set (x1 := if t <? ttl x then with_ttl t x else x).
    assert (Hx1 : lent x1 = lent x /\ rrs x1 = rrs x) by (unfold x1; by destruct (t <? ttl x)). destruct Hx1 as [Hl1 Hr1].
    destruct (store_put_set L s p c i r x x1 H Hp Esl Hx Hl1 Hr1) as [H1 Ho1]. set (s1 := set_rrsets (<[r := x1]> (rrsets s)) s) in *.
    step. fold s1. apply crun_if; intros Ein; [step; split_and!; try done; eauto|].
    step. eapply crun_mono; [apply (add_rr_store L s1 p i t n f rr (last_pos (rrs x1)) (Some x1) H1 Hr)|].
    + split; [|apply last_pos_lt]. exists c, r. split; [done|]. split; [done|]. unfold s1. cbn. by rewrite lookup_insert_eq.
    + intros [b rt] s2 (Ho2 & H2 & [c2 Hc2] & Hpost). cbn [fst snd] in *. step. split; [by etrans|]. split; [done|]. split; [by exists c2|]. intros ->.
      by apply (on_cent_env _ _ _ Ho1).
  - step. eapply crun_mono; [apply (add_rr_store L s p i t n f rr None None H Hr)|].
    + split; [by exists c|done].
    + intros [b rt] s2 (Ho2 & H2 & [c2 Hc2] & Hpost). cbn [fst snd] in *. step. split_and!; try done; eauto. by intros ->.
Qed.
