(* ===== verification/DnsFree.v ===== *)
(** Releasing the sets of an entry of pdnsd's cache, and the entry itself. *)
From S2P Require Import Prelude CLib Rhn DnsName DnsNameProps HevList DnsStore DnsCents DnsRrl DnsHeap DnsEntry.

Definition no_slot (o : option positive) : option positive := None.

(** The sets in a part [l] of the array, from slot [j] on; [C] are the entries with the
    slots cleared. *)
Record emptied (g g' : dns_cent_t) (n : Z) : Prop := {
  em_cs : cs g' = cs g - n; em_name : qname g' = qname g; em_ext : ext_size g' = ext_size g;
  em_neg : neg_lent g' = neg_lent g; em_flag : negative g' = negative g; em_len : length (slots g') = length (slots g)
}.
Lemma emptied_refl g : emptied g g 0.
Proof. split; try done. lia. Qed.
Lemma emptied_trans g1 g2 g3 n m : emptied g1 g2 n -> emptied g2 g3 m -> emptied g1 g3 (n + m).
Proof. intros [] []. split; try congruence. lia. Qed.
Lemma cleared_emptied R g i n : cent_ok R g -> 0 <= i < slot_count g -> emptied g (cleared g i n) n.
Proof.
  intros H Hi. destruct (upd_slot_fields g i None) as (F1 & F2 & F3 & F4 & _ & _ & F7 & F8). split; [done|exact F1|exact F7|exact F8| |].
  - unfold cleared, negative. cbn [flags with_flags]. by rewrite drop_auth_negative.
  - change (slots (cleared g i n)) with (slots (upd_slot g i None)). by rewrite (slots_upd _ _ _ _ H Hi), length_insert.
Qed.
Lemma del_rrsets_store l : forall j L s C p g, store_ok L (set_cents C s) -> C !! p = Some g -> (forall k o, l !! k = Some o -> slots g !! (j + k)%nat = Some o) ->
  crun (del_rrsets l) s (fun n s' => cents s' = cents s /\ exists g' L', let s1 := set_cents (<[p := g']> C) s' in
    store_ok L' s1 /\ drops p L (set_cents C s) L' s1 /\ emptied g g' n /\
    (forall k, slots g' !! k = if decide (j <= k < j + length l)%nat then no_slot <$> slots g !! k else slots g !! k)).
Proof.
  induction l as [|o l IH]; intros j L s C p g H Hp Hl; cbn [del_rrsets].
  - step. split; [done|]. exists g, L. cbn zeta. rewrite insert_id by done. split_and!; try done; [apply drops_refl|apply emptied_refl|].
    intros k. rewrite decide_False by (cbn; lia). done.
  - pose proof (Hl O o eq_refl) as Hlk. rewrite Nat.add_0_r in Hlk. pose proof (so_cents _ _ H _ _ Hp) as Hg.
    step. destruct o as [r|].
    + assert (Hi : slot g (Z.of_nat j) = Some r) by (unfold slot; rewrite (proj2 (Z.leb_le 0 _)) by lia; by rewrite Nat2Z.id, Hlk).
      destruct (lk_live _ _ _ (so_links _ _ H) _ _ _ _ Hp Hi) as [x Hx]. cbn in Hx.
      use (del_rrset_drops L s C p g (Z.of_nat j) r x) as (-> & Hcs & Hrr & Hok & Hdr); [done..|].
      pose proof (slot_in _ _ _ Hi) as Hin. set (g1 := cleared g (Z.of_nat j) (size_of x)) in *.
      assert (Hsl : slots g1 = <[j := None]> (slots g)) by (rewrite <- (Nat2Z.id j) at 1; rewrite <- (slots_upd _ _ _ None Hg Hin); done).
      step. eapply crun_mono; [apply (IH (S j) _ s0 (<[p := g1]> C) p g1 Hok (lookup_insert_eq _ _ _))|].
      { intros k o Hk. rewrite Hsl, list_lookup_insert_ne by lia. rewrite <- (Hl (S k) o Hk). f_equal. lia. }
      intros m s2 (Hcs2 & g' & L' & Hok2 & Hdr2 & Hem & Hsl'). step. split; [congruence|]. rewrite insert_insert_eq in *. exists g', L'.
      split; [done|]. split; [by eapply drops_trans|]. split; [eapply emptied_trans; [by apply (cleared_emptied (rrsets s))|done]|].
      intros k. rewrite Hsl', Hsl. destruct (decide (k = j)) as [->|Hkj].
      * rewrite decide_False by lia. rewrite decide_True by (cbn; lia). rewrite list_lookup_insert_eq by (by apply lookup_lt_Some in Hlk). by rewrite Hlk.
      * rewrite list_lookup_insert_ne by done. cbn [length]. destruct (decide (S j <= k < S j + length l)%nat), (decide (j <= k < j + S (length l))%nat); try lia; done.
    + step. step. eapply crun_mono; [apply (IH (S j) L s C p g H Hp)|].
      { intros k o Hk. rewrite <- (Hl (S k) o Hk). f_equal. lia. }
      intros m s2 (Hcs2 & g' & L' & Hok2 & Hdr2 & Hem & Hsl'). step. split; [done|]. exists g', L'. split; [done|]. split; [done|]. split; [done|].
      intros k. rewrite Hsl'. destruct (decide (k = j)) as [->|Hkj].
      * rewrite decide_False by lia. rewrite decide_True by (cbn; lia). by rewrite Hlk.
      * cbn [length]. destruct (decide (S j <= k < S j + length l)%nat), (decide (j <= k < j + S (length l))%nat); try lia; done.
Qed.

(** All sets of an entry that is not negative. *)
Lemma del_arrays_store L s C p c mu ext : store_ok L (set_cents C s) -> C !! p = Some c -> negative c = false -> side c = Rr mu ext ->
  crun (del_arrays mu ext) s (fun n s' =>
    cents s' = cents s /\ exists g L', let s1 := set_cents (<[p := g]> C) s' in
    store_ok L' s1 /\ drops p L (set_cents C s) L' s1 /\ (forall k, slots g !! k = no_slot <$> slots c !! k) /\ emptied c g n).
Proof.
  intros H Hp Hn Hs. destruct (slots_length _ _ (so_cents _ _ H _ _ Hp) Hn) as (mu' & ext' & Hs' & Hm & He & Hlen).
  rewrite Hs in Hs'. injection Hs' as <- <-. assert (Hsl : slots c = mu ++ default [] ext) by (unfold slots; by rewrite Hs).
  unfold del_arrays. step. eapply crun_mono; [apply (del_rrsets_store mu 0 L s C p c H Hp)|].
  { intros k o Hk. rewrite Hsl, lookup_app_l by (by apply lookup_lt_Some in Hk). done. }
  intros n s1 (Hcs & g & L1 & H1 & Hdr & Hem & Hg). cbn zeta in *. step. destruct ext as [e|].
  - eapply crun_mono; [apply (del_rrsets_store e 8 L1 s1 (<[p := g]> C) p g H1 (lookup_insert_eq _ _ _))|].
    { intros k o Hk. rewrite Hg, decide_False by lia. rewrite Hsl, lookup_app_r by lia. rewrite <- Hk. f_equal. lia. }
    intros m s2 (Hcs2 & g2 & L2 & H2 & Hdr2 & Hem2 & Hg2). cbn zeta in *. repeat step. split; [congruence|]. rewrite insert_insert_eq in *.
    exists g2, L2. split; [done|]. split; [by eapply drops_trans|]. split; [|by eapply emptied_trans].
    intros k. rewrite Hg2, Hg. specialize (He e eq_refl). destruct (decide (8 <= k < 8 + length e)%nat), (decide (0 <= k < 0 + length mu)%nat); try lia; try done.
    rewrite (lookup_ge_None_2 (slots c) k) by lia. done.
  - repeat step. split; [done|]. exists g, L1. split; [done|]. split; [done|]. split; [|by rewrite Z.add_0_r].
    intros k. rewrite Hg. destruct (decide (0 <= k < 0 + length mu)%nat); [done|]. by rewrite (lookup_ge_None_2 (slots c) k) by lia.
Qed.
Lemma emptied_slot c g : (forall k, slots g !! k = no_slot <$> slots c !! k) -> forall i, slot g i = None.
Proof. intros H i. unfold slot. destruct (0 <=? i); [|done]. rewrite H. by destruct (slots c !! Z.to_nat i). Qed.

(** * Releasing an entry *)
Record gone (p : positive) (L : list positive) (s : cache) (L' : list positive) (s' : cache) : Prop := {
  go_store : store_ok L' s';
  go_stays : stays s s';
  go_brk : brk s' = brk s;
  go_cents : cents s' = delete p (cents s);
  go_sets : forall q d i r, q <> p -> cents s !! q = Some d -> slot d i = Some r -> rrsets s' !! r = rrsets s !! r;
  go_core : core <$> lents s' ⊆ core <$> lents s;
  go_list : exists X : gset positive, L' = filter (.∉ X) L /\ forall a, a ∈ X -> owned_by p s a
}.
Lemma gone_intro p L s L' s' g : store_ok L' (set_cents (<[p := g]> (cents s)) s') -> drops p L s L' (set_cents (<[p := g]> (cents s)) s') ->
  (forall i, slot g i = None) -> neg_lent g = None -> gone p L s L' (set_cents (delete p (cents s)) s').
Proof.
  intros H [Ho Hb Hc HL] Hs Hn. split; try done.
  - apply (store_intro _ (core <$> lents s')); [apply H|done|intros a Ha; by eapply (store_dom L' (set_cents _ s'))| | |].
    + cbn. rewrite <- (delete_insert_eq (cents s) p g). by eapply (lk_del_cent _ _ _ p g); [apply H|apply lookup_insert_eq|..].
    + intros q d Hq. cbn in Hq. apply lookup_delete_Some in Hq as [Hqp Hq]. apply (so_cents _ _ H q). cbn. by rewrite lookup_insert_ne.
    + intros q Hq. apply (so_brk _ _ H). cbn in Hq |- *. rewrite lookup_fmap, fmap_is_Some in Hq. destruct Hq as [Hq|[Hq|[d Hq]]]; auto.
      apply lookup_delete_Some in Hq as [Hqp Hq]. right. right. rewrite lookup_insert_ne by done. by exists d.
  - by destruct Ho as [[] _ _ _ _].
  - intros q d i r Hq Hd Hi. cbn. exact (oc_sets _ _ _ Ho q d i r Hq Hd Hi).
Qed.
(** [c] stands for the entry with the right counts, which do not matter when it is
    released. *)
Lemma release_store_as L s p c0 c : cents s !! p = Some c0 -> flags c0 = flags c -> side c0 = side c ->
  let s0 := set_cents (<[p := c]> (cents s)) s in store_ok L s0 -> crun (_ ← free_cent p; free p) s (fun _ s' => exists L', gone p L s0 L' s').
Proof.
  intros Hp0 Hfl Hsd s0 H. assert (Hp : cents s0 !! p = Some c) by apply lookup_insert_eq. pose proof (so_cents _ _ H _ _ Hp) as Hok.
  assert (Hdel : delete p (cents s) = delete p (cents s0)) by (unfold s0; cbn; by rewrite delete_insert_eq).
  unfold free_cent. do 3 step. unfold negative. rewrite Hfl. change (has (flags c) DF_NEGATIVE) with (negative c). destruct (negative c) eqn:E.
  - destruct (the_neg_ok _ _ Hok E) as (l & t & n & El & Es). step. apply crun_lift. unfold the_neg. rewrite Hsd, Es. cbn [succeeds].
    assert (Hnl : neg_lent c = l) by (unfold neg_lent; by rewrite Es).
    use (unlist_run l L s (so_list _ _ H)) as (m & h & u & -> & Hl & Hc).
    { intros a ->. destruct (lk_neg _ _ _ (so_links _ _ H) _ _ _ Hp Hnl) as [i Hi]. by eapply (store_lk L s0). }
    apply crun_free; [by exists c0|]. exists (unlist_L l L). cbn [cents relinked set_lents set_ends]. rewrite Hdel. set (g := with_side (Neg None t n) c).
    assert (Hgs : forall j, slot g j = slot c j) by (intros j; unfold slot, slots; by rewrite Es).
    assert (Hnone : forall j, slot c j = None) by (intros j; unfold slot, slots; rewrite Es; by destruct (0 <=? j)).
    apply (gone_intro _ _ s0 _ _ g); [|split|intros i; by rewrite Hgs|done].
    + apply (store_intro _ (unlist l (core <$> lents s))); [exact Hl|exact Hc| | | |].
      * intros a [v Ha]. apply unlist_Some in Ha as [Hx Ha]. apply unlist_L_elem. split; [|done]. by eapply (store_lk L s0).
      * rewrite <- Hnl. apply (lk_cent_upd _ _ (cents s0)); [apply H|done|done|done].
      * intros q d Hq. cbn in Hq. apply lookup_insert_Some in Hq as [[_ <-]|[_ Hq]]; [|by eapply (so_cents _ _ H)].
        destruct Hok as [G1 G2 G3 G4]. unfold slots, ext_size in *. rewrite Es in *. by constructor.
      * intros q Hq. apply (so_brk _ _ H). destruct Hq as [[v Hq]|[Hq|[d Hq]]]; [|auto|].
        -- apply unlist_Some in Hq as [_ Hq]. left. rewrite lookup_fmap in Hq. eapply fmap_is_Some. by exists v.
        -- right. right. destruct (decide (q = p)) as [->|]; [by exists c|]. cbn in Hq. rewrite lookup_insert_ne in Hq by done. by exists d.
    + split; [by split|done| |done|]; [intros q Hq; cbn [cents set_cents]; by rewrite lookup_insert_ne|]. cbn [cents set_cents]. by rewrite lookup_insert_eq, Hp.
    + done.
    + cbn. rewrite Hc. apply unlist_subseteq.
    + rewrite unlist_L_filter. eexists. split; [done|]. intros a Ha. destruct l as [b|]; [|set_solver]. apply elem_of_singleton in Ha as ->.
      destruct (lk_neg _ _ _ (so_links _ _ H) _ _ _ Hp Hnl) as [i Hi]. by exists None, i.
  - destruct (the_rr_ok _ _ Hok E) as (mu & ext & Er & Es). step. apply crun_lift. unfold the_rr. rewrite Hsd, Es. cbn [succeeds].
    step. eapply crun_mono; [by apply (del_arrays_store L s (cents s0) p c mu ext)|].
    intros n s1 (Hcs & g & L' & H1 & Hdr & Hg & Hem). step. apply crun_free; [rewrite Hcs; by exists c0|]. exists L'. rewrite Hcs, Hdel.
    apply (gone_intro _ _ s0 _ _ g); try done; [by eapply emptied_slot|]. rewrite (em_neg _ _ _ Hem). unfold neg_lent. by rewrite Es.
Qed.
Lemma release_store L s p c : store_ok L s -> cents s !! p = Some c ->
  crun (_ ← free_cent p; free p) s (fun _ s' => exists L', gone p L s L' s').
Proof.
  intros H Hp. pose proof (release_store_as L s p c c Hp eq_refl eq_refl) as Hr. cbn zeta in Hr. rewrite insert_id, set_cents_id in Hr by done. by apply Hr.
Qed.

Lemma lor_negative_set f : has (Z.lor f DF_NEGATIVE) DF_NEGATIVE = true.
Proof.
  unfold has. rewrite Z.land_lor_distr_l. apply negb_true_iff, Z.eqb_neq. intros E. by apply Z.lor_eq_0_iff in E as [_ E].
Qed.
(** [negate_cent]: the sets go, the entry stays. *)
Lemma negate_store L s p c t n : store_ok L s -> cents s !! p = Some c ->
  crun (negate_cent p t n) s (fun _ s' => on_cent p s s' /\ (exists L', store_ok L' s') /\ exists c' l, cents s' !! p = Some c' /\ negative c' = true /\ side c' = Neg l t n).
Proof.
  intros H Hp. pose proof (so_cents _ _ H _ _ Hp) as Hok. unfold negate_cent. do 3 step.
  assert (Hcast : forall L1 s1 c1 l u v, on_cent p s s1 -> store_ok L1 s1 -> cents s1 !! p = Some c1 -> negative c1 = true -> side c1 = Neg l u v ->
    crun (c ← get_cent p; '(l, _, _) ← lift (the_neg c); put_cent p (with_side (Neg l t n) c)) s1
      (fun _ s' => on_cent p s s' /\ (exists L', store_ok L' s') /\ exists c' l, cents s' !! p = Some c' /\ negative c' = true /\ side c' = Neg l t n)).
  { intros L1 s1 c1 l u v Ho H1 Hp1 Hn1 Hs1. do 3 step. apply crun_lift. unfold the_neg. rewrite Hs1. cbn [succeeds]. step. split; [|split].
    - etrans; [exact Ho|]. by apply (on_cent_upd p c1).
    - exists L1. apply (store_cent_upd L1 s1 p c1); [done..| | |].
      + destruct (so_cents _ _ H1 _ _ Hp1) as [G1 G2 G3 G4]. unfold slots, ext_size in *. rewrite Hs1 in *. by constructor.
      + unfold neg_lent. by rewrite Hs1.
      + intros j. unfold slot, slots. by rewrite Hs1.
    - exists (with_side (Neg l t n) c1), l. cbn [cents set_cents]. by rewrite lookup_insert_eq. }
  destruct (negative c) eqn:E; cbn [negb].
  - step. destruct (the_neg_ok _ _ Hok E) as (l & u & v & _ & Es). by eapply (Hcast L s c).
  - destruct (the_rr_ok _ _ Hok E) as (mu & ext & Er & Es). step. apply crun_lift. rewrite Er. cbn [succeeds]. step.
    eapply crun_mono; [apply (del_arrays_store L s (cents s) p c mu ext); [by rewrite set_cents_id|done..]|].
    intros k s1 (Hcs & g & L' & H1 & Hdr & Hg & Hem). rewrite set_cents_id in Hdr. cbn zeta in *. assert (Hp1 : cents s1 !! p = Some c) by (by rewrite Hcs).
    eapply crun_update; [exact Hp1|]. rewrite Hcs. set (c1 := with_side _ _).
    assert (Hc1 : neg_lent c1 = None /\ (forall j, slot c1 j = None)) by (split; [done|]; intros j; unfold slot, slots; cbn; by destruct (0 <=? j)).
    assert (Hn1 : negative c1 = true) by apply lor_negative_set.
    assert (Hgc : neg_lent g = None) by (rewrite (em_neg _ _ _ Hem); unfold neg_lent; by rewrite Es).
    pose proof (so_cents _ _ H1 p g (lookup_insert_eq _ _ _)) as [_ _ G3 G4].
    eapply (Hcast L' _ c1 None t n); [| |apply lookup_insert_eq|done|done].
    + destruct Hdr as [[O1 O2 O3 O4 O5] _ _ _]. split; [by destruct O1|exact O2| |exact O4|].
      * intros q Hq. cbn [cents set_cents]. by rewrite lookup_insert_ne.
      * cbn [cents set_cents]. by rewrite lookup_insert_eq, Hp.
    + pose proof (store_cent_upd L' _ p g c1 H1 (lookup_insert_eq _ _ _)) as Hup. cbn [cents set_cents rrsets] in Hup. rewrite insert_insert_eq in Hup. apply Hup.
      * constructor; [done|done| |].
        -- unfold c1, slots, ext_size. cbn [side with_side cs with_flags with_num with_cs qname sum_sizes]. rewrite (em_cs _ _ _ Hem), (em_name _ _ _ Hem), (em_ext _ _ _ Hem) in G3.
           assert (Hz : sum_sizes (rrsets s1) (slots g) = 0).
           { assert (Hnone : forall o, o ∈ slots g -> o = None) by (intros o Ho; apply list_elem_of_lookup in Ho as [i Hi]; rewrite Hg in Hi; unfold no_slot in Hi; destruct (slots c !! i); cbn in Hi; congruence).
             clear -Hnone. induction (slots g) as [|o l IH]; [done|]. cbn. rewrite (Hnone o) by (apply list_elem_of_here). rewrite IH by (intros o' Ho'; apply Hnone; set_solver). done. }
           cbn [rrsets set_cents] in G3. rewrite Hz in G3. unfold ext_size in G3. rewrite Es in G3. destruct ext; lia.
        -- unfold c1. cbn [qname with_side with_flags with_num with_cs]. by rewrite <- (em_name _ _ _ Hem).
      * by rewrite Hgc.
      * intros j. destruct Hc1 as [_ ->]. by rewrite (emptied_slot _ _ Hg).
Qed.
