(* ===== verification/DnsCopy.v ===== *)
(** New entries of pdnsd's cache: initialised, or copies of others. *)
From S2P Require Import Prelude CLib Rhn DnsName DnsNameProps DnsCompress HevList DnsStore DnsCents DnsRrl DnsHeap DnsEntry DnsFree.

(** An operation that makes, or unmakes, the entry [p]. *)
Record around (p : positive) (s s' : cache) : Prop := {
  ar_stays : stays s s';
  ar_brk : (brk s <= brk s')%positive;
  ar_cents : forall q, q <> p -> cents s' !! q = cents s !! q;
  ar_sets : forall q d i r, q <> p -> cents s !! q = Some d -> slot d i = Some r -> rrsets s' !! r = rrsets s !! r
}.
#[export] Instance around_refl p : Reflexive (around p).
Proof. by split. Qed.
#[export] Instance around_trans p : Transitive (around p).
Proof.
  intros s1 s2 s3 [] []. split.
  - by etrans.
  - by etrans.
  - intros q Hq. rewrite ar_cents1, ar_cents0; done.
  - intros q d i r Hq Hd Hi. rewrite (ar_sets1 q d i r), (ar_sets0 q d i r); auto. by rewrite ar_cents0.
Qed.
Lemma on_cent_around p s s' : on_cent p s s' -> around p s s'.
Proof. by intros []. Qed.
Lemma gone_around p L s L' s' : gone p L s L' s' -> around p s s'.
Proof. intros []. split; try done; [by rewrite go_brk|]. intros q Hq. by rewrite go_cents, lookup_delete_ne. Qed.

Lemma u16_negative f : has (u16 f) DF_NEGATIVE = has f DF_NEGATIVE.
Proof.
  unfold has, u16, DF_NEGATIVE. change 1 with (Z.ones 1). rewrite !Z.land_ones by lia. do 2 f_equal.
  change (2 ^ 16) with (2 ^ 1 * 2 ^ 15). rewrite Z.rem_mul_r by lia. rewrite Z.mul_comm, Z.mod_add by lia. by rewrite Z.mod_mod by lia.
Qed.
Lemma rhnlen_enc N : name_ok N -> rhnlen (enc N) = Ok (zlen (enc N)).
Proof. intros [HN _]. pose proof (rhnlen_spec N [] HN) as H. by rewrite app_nil_r in H. Qed.
Lemma rdn_enc N : name_ok N -> rdn (enc N) 0 (zlen (enc N)) = Ok (enc N).
Proof.
  intros _. unfold rdn, in_range. pose proof (zlen_enc_pos N). rewrite (proj2 (Z.eqb_neq _ 0)) by lia.
  rewrite (proj2 (Z.leb_le 0 (zlen (enc N)))), (proj2 (Z.leb_le (0 + _) _)) by lia. cbn [Z.leb Z.compare andb]. f_equal. unfold sub. cbn [Z.to_nat drop].
  rewrite Nat2Z.id. by rewrite take_ge.
Qed.

(** * A new entry without sets *)
Definition fresh_cent (name : list Z) (ttl ts f a b : Z) : dns_cent_t :=
  Cent name (sizeof_dns_cent_t + zlen name) 0 f (if has f DF_NEGATIVE then Neg None ttl ts else no_sets) a b.
Lemma fresh_cent_ok R N ttl ts f a b : name_ok N -> cent_ok R (fresh_cent (enc N) ttl ts f a b).
Proof.
  intros HN. unfold fresh_cent. destruct (has f DF_NEGATIVE) eqn:E.
  - constructor; [done|done| |by exists N]. change (slots _) with (@nil (option positive)). change (ext_size _) with 0. cbn [cs qname sum_sizes]. lia.
  - constructor; [by split_and!|done| |by exists N]. change (ext_size _) with 0. change (sum_sizes _ _) with 0. cbn [cs qname]. lia.
Qed.
Lemma fresh_cent_slots n ttl ts f a b : (forall j, slot (fresh_cent n ttl ts f a b) j = None) /\ neg_lent (fresh_cent n ttl ts f a b) = None.
Proof.
  unfold fresh_cent. destruct (has f DF_NEGATIVE); (split; [|done]); intros j; [unfold slot, slots; cbn; by destruct (0 <=? j)|by apply no_sets_slot].
Qed.
Lemma store_new_cent L s c : store_ok L s -> cent_ok (rrsets s) c -> (forall j, slot c j = None) -> neg_lent c = None ->
  let p := brk s in let s' := set_cents (<[p := c]> (cents s)) (set_brk (Pos.succ p) s) in store_ok L s' /\ around p s s'.
Proof.
  intros H Hc Hs Hn p s'. destruct (store_fresh _ _ H) as (_ & _ & _ & Hp). fold p in Hp. split.
  - apply (store_intro _ (core <$> lents s)); [apply H|done|intros a Ha; by eapply store_dom| | |].
    + apply lk_new_cent; [apply H|done..].
    + intros q d Hq. cbn in Hq. apply lookup_insert_Some in Hq as [[_ <-]|[_ Hq]]; [done|by eapply (so_cents _ _ H)].
    + intros q Hq. cbn in Hq |- *. destruct (decide (q = p)) as [->|Hqp]; [lia|]. enough (q < p)%positive by lia. apply (so_brk _ _ H).
      rewrite lookup_fmap, fmap_is_Some, lookup_insert_ne in Hq by done. done.
  - split; [by split|cbn; lia| |done]. intros q Hq. cbn. by rewrite lookup_insert_ne.
Qed.

(** * Copies *)
Lemma copy_rrs_run l : forall s, crun (copy_rrs l) s (fun y s' => (exists n, s' = set_asked n s) /\ if y.1 then y.2 = l else starved s).
Proof.
  induction l as [|rr l IH]; intros s; cbn [copy_rrs]; [step; split; [exists (asked s); by destruct s|done]|].
  do 2 step. destruct ok; cbn [negb]; [|step; split; [by eexists|by exists (asked s)]]. step. eapply crun_mono; [apply IH|].
  intros [b l'] s' [[n ->] Hl]. cbn [fst snd] in *. step. split; [by exists n|]. destruct b; [cbn; by rewrite Hl|exact Hl].
Qed.

(** [g] is the copy with its sets counted so far. *)
Definition ghost (s : cache) (q : positive) (g : dns_cent_t) : cache := set_cents (<[q := g]> (cents s)) s.
Record copying (L : list positive) (s : cache) (q : positive) (d g : dns_cent_t) : Prop := {
  cp_cent : cents s !! q = Some d; cp_side : side g = side d; cp_flags : flags g = flags d; cp_name : qname g = qname d;
  cp_store : store_ok L (ghost s q g)
}.
Lemma slots_side c d : side c = side d -> slots c = slots d /\ (forall j, slot c j = slot d j) /\ slot_count c = slot_count d /\ ext_size c = ext_size d /\ neg_lent c = neg_lent d.
Proof. intros H. unfold slot_count, slot, slots, ext_size, neg_lent. by rewrite H. Qed.
Lemma rrarr_set_as R g d i o : cent_ok R g -> side g = side d -> 0 <= i < slot_count g -> RRARR_INDEX_SET d i o = Ok (upd_slot d i o).
Proof.
  intros Hg Hs Hi. pose proof (rrarr_set_ok _ _ _ o Hg Hi) as H. unfold RRARR_INDEX_SET, the_rr, upd_slot in *. rewrite Hs in H.
  destruct (side d) as [|mu ext]; [done|]. cbn [mbind res_bind] in *. destruct (i <? NRRMU).
  - destruct (set_ptr mu i o); [|done]. cbn in *. injection H as Ha. by rewrite Ha.
  - destruct ext as [e|]; [|done]. destruct (set_ptr e (i - NRRMU) o) as [e'|]; [|done]. cbn in *. injection H as Ha. by rewrite Ha.
Qed.
Lemma upd_None_as R g d i : cent_ok R g -> side g = side d -> 0 <= i < slot_count g -> slot g i = None -> upd_slot d i None = d.
Proof.
  intros Hg Hs Hi Hn. pose proof (upd_slot_None_id _ _ _ Hg Hi Hn) as H. destruct g, d. unfold upd_slot, with_side in *. cbn in *. subst.
  destruct side0 as [|mu ext]; [done|]. destruct (i <? NRRMU); injection H as H; by rewrite !H.
Qed.
Lemma upd_slot_side_as c d i o : side c = side d -> side (upd_slot c i o) = side (upd_slot d i o).
Proof. intros H. unfold upd_slot. rewrite H. destruct (side d) as [|mu [e|]] eqn:E; [congruence|by destruct (i <? NRRMU)..]. Qed.

(** A copy of what is in a slot. *)
Definition copied (s s' : cache) (o o' : option positive) : Prop :=
  match o with
  | None => o' = None
  | Some r => exists r' x, o' = Some r' /\ rrsets s !! r = Some x /\ rrsets s' !! r' = Some (with_lent None x)
  end.
Lemma copied_weaken s s1 s2 o o' : rrsets s1 ⊆ rrsets s2 -> copied s s1 o o' -> copied s s2 o o'.
Proof. destruct o as [r|]; [|done]. intros H (r' & x & ? & ? & ?). exists r', x. split_and!; auto. by eapply lookup_weaken. Qed.
Lemma copy_sets_store n : forall i L s p q c d g, p <> q -> copying L s q d g -> cents s !! p = Some c -> 0 <= i -> i + Z.of_nat n <= slot_count c -> slot_count d = slot_count c ->
  (forall j, i <= j -> slot d j = None) -> (cent_ok (rrsets s) c) ->
  crun (copy_sets n i p q) s (fun ok s' => around q s s' /\ rrsets s ⊆ rrsets s' /\ exists L' d' g', copying L' s' q d' g' /\
    (ok = false -> starved s) /\ slot_count d' = slot_count c /\ qname d' = qname d /\ cs d' = cs d /\ num_rrs d' = num_rrs d /\ flags d' = flags d /\
    c_ns d' = c_ns d /\ c_soa d' = c_soa d /\ ext_size d' = ext_size d /\
    (ok = true -> forall j, if decide (i <= j < i + Z.of_nat n) then copied s s' (slot c j) (slot d' j) else slot d' j = slot d j)).
Proof.
  induction n as [|n IH]; intros i L s p q c d g Hpq Hcp Hp Hi Hn Hsc Hempty Hcok; cbn [copy_sets].
  { step. split; [done|]. split; [done|]. exists L, d, g. split_and!; try done. intros _ j. by rewrite decide_False by lia. }
  destruct Hcp as [Hq Hsd Hfl Hnm Hst]. destruct (slots_side _ _ Hsd) as (Hsl & Hsj & Hct & Hxt & _).
  assert (Hg : cent_ok (rrsets s) g) by (apply (so_cents _ _ Hst q g); unfold ghost; cbn; by rewrite lookup_insert_eq).
  do 3 step. apply crun_lift. rewrite (rrarr_index_ok _ _ _ Hcok) by lia. cbn [succeeds]. destruct (slot c i) as [r|] eqn:Ei.
  2: { eapply crun_mono; [apply (IH (i + 1) L s p q c d g Hpq)|]; try done; [lia|lia|intros j Hj; apply Hempty; lia|].
    intros ok s' (Ha & Hsub & L' & d' & g' & Hcp' & Hok & K1 & K2 & K3 & K4 & K5 & K6 & K7 & K8 & Hsets). split; [done|]. split; [done|]. exists L', d', g'.
    split_and!; try done. intros Hb j. specialize (Hsets Hb j). destruct (decide (j = i)) as [->|Hji].
    - rewrite decide_True by lia. rewrite decide_False in Hsets by lia. rewrite Ei. cbn. rewrite Hsets. apply Hempty. lia.
    - destruct (decide (i <= j < i + Z.of_nat (S n))), (decide (i + 1 <= j < i + 1 + Z.of_nat n)); try lia; done. }
  do 2 step. destruct ok; cbn [negb].
  2: { do 3 step. apply crun_lift. rewrite (rrarr_set_as (rrsets s) g) by (done || lia). cbn [succeeds].
    rewrite (upd_None_as (rrsets s) g) by (done || lia || (rewrite Hsj; apply Hempty; lia)). step. apply crun_put_cent; [by exists d|]. step. cbn [cents set_asked]. rewrite insert_id by done.
    replace (set_cents (cents s) (set_asked (S (asked s)) s)) with (set_asked (S (asked s)) s) by done.
    split; [apply on_cent_around, on_cent_ask|]. split; [done|]. exists L, d, g. split; [split; try done; by apply (store_ask L _ (ghost s q g))|].
    split_and!; try done. by exists (asked s). }
  destruct (lk_live _ _ _ (so_links _ _ Hst) p c i r) as [x Hx]; [unfold ghost; cbn; by rewrite lookup_insert_ne|done|]. cbn in Hx.
  step. eapply crun_get_set; [exact Hx|]. step. eapply crun_mono; [apply copy_rrs_run|].
  intros [ok l] s1 [[m ->] Hl]. cbn [fst snd] in Hl. step. step. do 4 step. do 3 step. apply crun_lift.
  rewrite (rrarr_set_as _ g) by (done || lia). cbn [succeeds]. step. apply crun_put_cent; [by exists d|]. cbn [cents set_cents set_rrsets set_brk set_asked rrsets brk].
  set (sa := set_asked m (set_asked (S (asked s)) s)). set (rc := brk s). set (x' := with_rrs l (with_lent None x)). set (d1 := upd_slot d i (Some rc)).
  destruct (store_add_set L (ghost sa q g) q g i x') as [H1 Ho1]; [apply (store_ask L m (set_asked (S (asked s)) (ghost s q g))), store_ask; exact Hst| |lia| |done|].
  { unfold ghost. cbn. by rewrite lookup_insert_eq. } { rewrite Hsj. apply Hempty. lia. }
  change (brk (ghost sa q g)) with rc in *. set (g1 := filled g i rc (size_of x')) in *.
  set (s2 := set_cents (<[q:=d1]> (cents s)) (set_rrsets (<[rc:=x']> (rrsets s)) (set_brk (Pos.succ rc) sa))).
  change (set_cents (<[q:=d1]> (cents s)) (set_rrsets (<[rc:=x']> (rrsets s)) (set_brk (Pos.succ rc) (set_asked m (set_asked (S (asked s)) s))))) with s2.
  assert (Hfresh : rrsets s !! rc = None) by (by destruct (store_fresh _ _ Hst) as (_ & _ & ? & _)).
  assert (Hsub : rrsets s ⊆ rrsets s2) by (cbn; by apply insert_subseteq).
  destruct (upd_slot_fields g i (Some rc)) as (F1 & _ & _ & F4 & _). destruct (upd_slot_fields d i (Some rc)) as (E1 & E2 & E3 & E4 & E5 & E6 & E7 & _).
  assert (Hcp2 : copying L s2 q d1 g1).
  { split.
    - cbn. by rewrite lookup_insert_eq.
    - change (side g1) with (side (upd_slot g i (Some rc))). by apply upd_slot_side_as.
    - change (flags g1) with (flags (upd_slot g i (Some rc))). rewrite F4. unfold d1. by rewrite E4.
    - change (qname g1) with (qname (upd_slot g i (Some rc))). rewrite F1. unfold d1. by rewrite E1.
    - unfold ghost in *. cbn [cents set_cents set_rrsets set_brk rrsets] in H1. rewrite insert_insert_eq in H1. unfold s2. cbn [cents set_cents]. rewrite insert_insert_eq. exact H1. }
  assert (Har : around q s s2).
  { split; [by split|cbn; lia| |]; [intros t Ht; cbn; by rewrite lookup_insert_ne|]. intros t e j u Ht He Hj. cbn. rewrite lookup_insert_ne; [done|]. intros <-.
    destruct (lk_live _ _ _ (so_links _ _ Hst) t e j rc) as [y Hy]; [unfold ghost; cbn; by rewrite lookup_insert_ne|done|]. cbn in Hy. congruence. }
  assert (Hslot : forall j, slot d1 j = if decide (j = i) then Some rc else slot d j).
  { intros j. destruct (slots_side (upd_slot g i (Some rc)) d1 (upd_slot_side_as _ _ _ _ Hsd)) as (_ & <- & _). rewrite (slot_upd _ _ _ _ _ Hg) by lia. by rewrite Hsj. }
  assert (Hcnt : slot_count d1 = slot_count c).
  { destruct (slots_side (upd_slot g i (Some rc)) d1 (upd_slot_side_as _ _ _ _ Hsd)) as (_ & _ & <- & _). unfold slot_count.
    rewrite (slots_upd _ _ _ _ Hg) by lia. rewrite length_insert. fold (slot_count g) (slot_count c). lia. }
  destruct ok.
  - subst l. eapply crun_mono; [apply (IH (i + 1) L s2 p q c d1 g1 Hpq Hcp2)|]; try lia; try done.
    { cbn. by rewrite lookup_insert_ne. }
    { intros j Hj. rewrite Hslot, decide_False by lia. apply Hempty. lia. }
    { eapply cent_ok_ext; [exact Hcok|]. intros j t Hj. f_equal. apply (ar_sets _ _ _ Har p c j t); done. }
    intros ok s3 (Ha & Hsub3 & L' & d' & g' & Hcp' & Hstv & K1 & K2 & K3 & K4 & K5 & K6 & K7 & K8 & Hsets).
    split; [by etrans|]. split; [by etrans|]. exists L', d', g'. unfold d1 in *. split_and!; try congruence; try done.
    intros Hb j. specialize (Hsets Hb j). rewrite Hslot in Hsets. destruct (decide (j = i)) as [->|Hji].
    + rewrite decide_True by lia. rewrite decide_False in Hsets by lia. rewrite Ei, Hsets. exists rc, x. split_and!; try done.
      eapply lookup_weaken; [|exact Hsub3]. cbn. rewrite lookup_insert_eq. unfold x'. by destruct x.
    + destruct (decide (i <= j < i + Z.of_nat (S n))), (decide (i + 1 <= j < i + 1 + Z.of_nat n)); try lia; try done.
      destruct (slot c j) as [t|] eqn:Et; [|done]. destruct Hsets as (t' & y & T1 & T2 & T3). exists t', y. split_and!; try done.
      rewrite <- T2. symmetry. by apply (ar_sets _ _ _ Har p c j t).
  - step. split; [done|]. split; [done|]. exists L, d1, g1. unfold d1 in *. split_and!; try done.
Qed.

Lemma copied_sums s s' l : forall l', length l' = length l -> (forall k, copied s s' (mjoin (l !! k)) (mjoin (l' !! k))) ->
  count_sets l' = count_sets l /\ sum_sizes (rrsets s') l' = sum_sizes (rrsets s) l.
Proof.
  induction l as [|o l IH]; intros [|o' l'] Hlen H; try done. injection Hlen as Hlen.
  destruct (IH l' Hlen (fun k => H (S k))) as [H1 H2]. cbn [count_sets sum_sizes]. rewrite H1, H2. specialize (H O). cbn in H.
  destruct o as [r|]; cbn in H; [|by rewrite H]. destruct H as (r' & x & -> & Hr & Hr'). split; [done|]. cbn [set_size]. by rewrite Hr, Hr'.
Qed.
Lemma slot_mjoin c j : 0 <= j -> slot c j = mjoin (slots c !! Z.to_nat j).
Proof. intros Hj. unfold slot. by rewrite (proj2 (Z.leb_le 0 j)). Qed.

(** The copy [d] of the entry [c]. *)
Record same_cent (s : cache) (c : dns_cent_t) (s' : cache) (d : dns_cent_t) : Prop := {
  sc_name : qname d = qname c; sc_cs : cs d = cs c; sc_num : num_rrs d = num_rrs c; sc_flags : flags d = flags c;
  sc_ns : c_ns d = c_ns c; sc_soa : c_soa d = c_soa c; sc_lent : neg_lent d = None;
  sc_neg : forall l t n, side c = Neg l t n -> side d = Neg None t n;
  sc_count : slot_count d = slot_count c;
  sc_slots : forall j, copied s s' (slot c j) (slot d j)
}.
(** When the loop is done the counts of the copy are right. *)
Lemma copying_done L s s0 q c d g : copying L s q d g -> cent_ok (rrsets s0) c -> qname d = qname c -> cs d = cs c -> num_rrs d = num_rrs c -> flags d = flags c ->
  slot_count d = slot_count c -> ext_size d = ext_size c -> (forall j, copied s0 s (slot c j) (slot d j)) -> store_ok L s.
Proof.
  intros [Hq Hsd Hfl Hnm Hst] [_ G2 G3 _] K1 K2 K3 K4 K5 K6 Hsl. pose proof (so_cents _ _ Hst q g) as Hg. unfold ghost in Hg. cbn [cents set_cents rrsets] in Hg.
  specialize (Hg (lookup_insert_eq _ _ _)). destruct Hg as [H1 H2 H3 H4]. destruct (slots_side _ _ Hsd) as (Hs1 & Hs2 & Hs3 & Hs4 & Hs5).
  destruct (copied_sums s0 s (slots c) (slots d)) as [S1 S2].
  { unfold slot_count in K5. lia. }
  { intros k. specialize (Hsl (Z.of_nat k)). rewrite !slot_mjoin in Hsl by lia. by rewrite Nat2Z.id in Hsl. }
  assert (Hid : set_cents (<[q := d]> (cents (ghost s q g))) (ghost s q g) = s).
  { unfold ghost. cbn [cents set_cents]. rewrite insert_insert_eq, insert_id by done. by destruct s. }
  rewrite <- Hid. apply (store_cent_upd _ _ q g); [done|apply lookup_insert_eq| |done|done]. unfold negative in *. constructor.
  - rewrite Hsd, Hfl in H1. unfold negative. exact H1.
  - by rewrite K3, G2, S1.
  - cbn [ghost rrsets set_cents]. by rewrite K2, G3, K1, K6, S2.
  - by rewrite <- Hnm.
Qed.
Lemma crun_assoc {A B D} (m : cm A) (f : A -> cm B) (g : B -> cm D) s Q : crun ((m ≫= f) ≫= g) s Q -> crun (m ≫= fun a => f a ≫= g) s Q.
Proof. unfold crun, mbind, cm_bind. destruct (m s) as [[a s']|]; auto. Qed.
Lemma crun_nest {A B D} (m : cm A) (f : A -> cm B) (g : B -> cm D) s Q : crun (m ≫= fun a => f a ≫= g) s Q -> crun ((m ≫= f) ≫= g) s Q.
Proof. unfold crun, mbind, cm_bind. destruct (m s) as [[a s']|]; auto. Qed.
Lemma ghost_around s q g : around q s (ghost s q g).
Proof. split; [by split|done| |done]. intros t Ht. cbn. by rewrite lookup_insert_ne. Qed.

(** The array of a copy, filled; without memory the copy is released. *)
Lemma copy_finish n L s0 s p q c d g : p <> q -> copying L s q d g -> cents s !! p = Some c -> slot_count c = Z.of_nat n -> slot_count d = slot_count c ->
  (forall j, slot d j = None) -> cent_ok (rrsets s) c -> negative c = false -> qname d = qname c -> cs d = cs c -> num_rrs d = num_rrs c -> flags d = flags c -> c_ns d = c_ns c -> c_soa d = c_soa c ->
  ext_size d = ext_size c -> around q s0 s -> cents s0 !! p = Some c ->
  crun (ok ← copy_sets n 0 p q; if ok : bool then mret (Some q) else _ ← free_cent q; _ ← free q; mret None) s (fun o s' => around q s0 s' /\ (exists L', store_ok L' s') /\
    match o with Some q' => q' = q /\ exists d, cents s' !! q' = Some d /\ same_cent s0 c s' d | None => cents s' !! q = None /\ starved s0 end).
Proof.
  intros Hpq Hcp Hp Hn Hct Hnone Hok Hneg K1 K2 K3 K4 K5 K6 K7 Har0 Hp0. step.
  eapply crun_mono; [apply (copy_sets_store n 0 L s p q c d g); try done; lia|].
  intros ok s1 (Har & Hsub & L1 & d1 & g1 & Hcp1 & Hst & T1 & T2 & T3 & T4 & T5 & T6 & T7 & T8 & Hsl).
  assert (Hsets : forall j r, slot c j = Some r -> rrsets s !! r = rrsets s0 !! r) by (intros j r Hj; by apply (ar_sets _ _ _ Har0 p c j r)).
  destruct ok.
  - step. split; [by etrans|]. assert (Hcopied : forall j, copied s0 s1 (slot c j) (slot d1 j)).
    { intros j. specialize (Hsl eq_refl j). destruct (decide (0 <= j < 0 + Z.of_nat n)) as [Hj|Hj].
      - destruct (slot c j) as [r|] eqn:Ej; [|done]. destruct Hsl as (r' & x & ? & ? & ?). exists r', x. rewrite <- (Hsets j r Ej). done.
      - rewrite Hsl, Hnone, slot_out by lia. done. }
    split.
    + exists L1. apply (copying_done L1 s1 s0 q c d1 g1); try congruence; [|exact Hcopied].
      eapply cent_ok_ext; [exact Hok|]. intros j r Hj. by rewrite (Hsets j r Hj).
    + split; [done|]. exists d1. split; [apply Hcp1|]. split; try congruence.
      * pose proof (so_cents _ _ (cp_store _ _ _ _ _ Hcp1) q g1) as Hg. unfold ghost in Hg. cbn in Hg. specialize (Hg (lookup_insert_eq _ _ _)).
        destruct (slots_side _ _ (cp_side _ _ _ _ _ Hcp1)) as (_ & _ & _ & _ & <-). destruct Hg as [Hg _ _ _]. unfold neg_lent. destruct (side g1) eqn:E; [|done].
        unfold negative in *. rewrite (cp_flags _ _ _ _ _ Hcp1), T5, K4 in Hg. congruence.
      * intros l t m E. destruct Hok as [Hok _ _ _]. rewrite E in Hok. congruence.
      * exact Hcopied.
  - apply crun_assoc. step. pose proof (release_store_as L1 s1 q d1 g1 (cp_cent _ _ _ _ _ Hcp1)) as Hrel.
    eapply crun_mono; [apply Hrel; [by rewrite (cp_flags _ _ _ _ _ Hcp1)|by rewrite (cp_side _ _ _ _ _ Hcp1)|apply Hcp1]|].
    intros [] s2 (L2 & Hg). step. split; [|split; [exists L2; apply Hg|]].
    + etrans; [exact Har0|]. etrans; [exact Har|]. etrans; [apply (ghost_around s1 q g1)|]. by eapply gone_around.
    + split; [rewrite (go_cents _ _ _ _ _ Hg); apply lookup_delete_eq|]. destruct (Hst eq_refl) as [k Hk]. exists k. by rewrite <- (st_env _ _ (ar_stays _ _ _ Har0)).
Qed.

Lemma around_ask p n s : around p s (set_asked n s).
Proof. by split. Qed.
Lemma around_new q c s : q = brk s -> around q s (set_cents (<[q := c]> (cents s)) (set_brk (Pos.succ q) s)).
Proof. intros ->. split; [by split|cbn; lia| |done]. intros t Ht. cbn. by rewrite lookup_insert_ne. Qed.

Lemma copy_cent_run L s p c : store_ok L s -> cents s !! p = Some c ->
  crun (copy_cent p) s (fun o s' => around (brk s) s s' /\ (exists L', store_ok L' s') /\
    match o with
    | Some q => q = brk s /\ exists d, cents s' !! q = Some d /\ same_cent s c s' d
    | None => cents s' !! brk s = None /\ starved s
    end).
Proof.
  intros H Hp. pose proof (so_cents _ _ H _ _ Hp) as Hok. destruct (store_fresh _ _ H) as (_ & _ & _ & Hq). pose proof Hok as [_ _ _ (N & HN & HqN)].
  assert (Hpq : p <> brk s) by (intros ->; congruence).
  unfold copy_cent. do 2 step. destruct ok; cbn [negb].
  2: { step. split; [apply around_ask|]. split; [exists L; by apply store_ask|]. split; [done|by exists (asked s)]. }
  do 2 step. step. apply crun_lift. rewrite HqN, (rhnlen_enc _ HN). cbn [succeeds]. do 2 step. destruct ok; cbn [negb].
  2: { step. split; [do 2 (etrans; [apply around_ask|]); done|]. split; [exists L; do 2 apply store_ask; exact H|]. split; [done|by exists (S (asked s))]. }
  step. apply crun_lift. rewrite (rdn_enc _ HN). cbn [succeeds]. rewrite <- HqN.
  set (sa := set_asked _ (set_asked _ s)). assert (Ha : store_ok L sa) by (unfold sa; do 2 apply store_ask; exact H).
  assert (Har : around (brk s) s sa) by (etrans; apply around_ask). do 5 step. change (brk sa) with (brk s). set (q := brk s) in *.
  pose proof (fresh_cent_ok (rrsets s) N 0 0 (flags c) (c_ns c) (c_soa c) HN) as Hf. rewrite <- HqN in Hf.
  destruct (fresh_cent_slots (qname c) 0 0 (flags c) (c_ns c) (c_soa c)) as [Hf1 Hf2]. set (g := fresh_cent (qname c) 0 0 (flags c) (c_ns c) (c_soa c)) in *.
  apply crun_lift. destruct (negative c) eqn:En.
  - destruct (the_neg_ok _ _ Hok En) as (l & t & n & E & Es). rewrite E. cbn [succeeds mbind res_bind mret res_ret]. do 2 step.
    set (d := Cent _ _ _ _ _ _ _).
    destruct (store_new_cent L sa d Ha) as [H1 A1].
    { destruct Hok as [G1 G2 G3 G4]. unfold slots, ext_size in *. rewrite Es in *. by constructor. }
    { intros j. unfold slot, slots. cbn. by destruct (0 <=? j). } { done. }
    change (brk sa) with q in *. cbn [cents set_asked set_brk sa] in *. step.
    split; [etrans; [exact Har|exact A1]|]. split; [exists L; exact H1|]. split; [done|]. exists d. cbn [cents set_cents]. rewrite lookup_insert_eq. split; [done|].
    assert (Hnone : forall j, slot c j = None) by (intros j; unfold slot, slots; rewrite Es; by destruct (0 <=? j)).
    assert (Hcount : slot_count d = slot_count c) by (unfold slot_count, slots; by rewrite Es).
    split; try done.
    + intros l' t' n' E'. rewrite Es in E'. injection E' as <- <- <-. done.
    + intros j. rewrite Hnone. unfold copied, slot, slots. cbn. by destruct (0 <=? j).
  - cbn [succeeds mbind res_bind mret res_ret]. do 3 step. set (d := Cent _ _ _ _ _ _ _).
    destruct (the_rr_ok _ _ Hok En) as (mu & ext & Er & Es). apply crun_lift. rewrite Er. cbn [succeeds].
    destruct (store_new_cent L sa g Ha Hf Hf1 Hf2) as [H1 A1]. change (brk sa) with q in *. cbn [cents set_asked set_brk sa] in *.
    set (s1 := set_cents (<[q := d]> (cents s)) (set_brk (Pos.succ q) sa)) in *.
    assert (Hs1 : ghost s1 q g = set_cents (<[q := g]> (cents s)) (set_brk (Pos.succ q) sa)) by (unfold ghost, s1; cbn [cents set_cents]; by rewrite insert_insert_eq).
    assert (Hgd : side g = side d) by (unfold g, fresh_cent; cbn [side]; unfold negative in En; by rewrite En).
    assert (Hcp : copying L s1 q d g) by (split; [apply lookup_insert_eq|exact Hgd|done|done|by rewrite Hs1]).
    assert (Har1 : around q s s1) by (etrans; [exact Har|exact (around_new q d sa eq_refl)]).
    assert (Hp1 : cents s1 !! p = Some c) by (unfold s1; cbn [cents set_cents]; by rewrite lookup_insert_ne).
    assert (Hlen : slot_count c = match ext with Some _ => 47 | None => 8 end).
    { destruct (slots_length _ _ Hok En) as (mu' & ext' & Es' & _ & _ & Hl). rewrite Es in Es'. injection Es' as <- <-. unfold slot_count. rewrite Hl. by destruct ext. }
    destruct ext as [e|].
    + apply crun_nest. do 2 step. set (s2 := set_asked _ s1). assert (A2 : around q s s2) by (etrans; [exact Har1|apply around_ask]).
      assert (Hcp2 : copying L s2 q d g) by (split; [apply Hcp..|]; by apply (store_ask L _ (ghost s1 q g)), Hcp). destruct ok; cbn [negb].
      * apply crun_nest. step. apply crun_update with (c := d); [apply lookup_insert_eq|].
        set (d1 := with_side _ d). set (g1 := with_ext g (replicate (Z.to_nat NRRMU) None)).
        destruct (with_ext_ok (rrsets s) g (replicate (Z.to_nat NRRMU) None) Hf Hgd) as [Hg1 Hg2].
        set (s3 := set_cents _ s2). apply (copy_finish (Z.to_nat NRRTOT) L s s3 p q c d1 g1); try done.
        -- split; try done; [apply lookup_insert_eq|].
           pose proof (store_cent_upd L (ghost s2 q g) q g g1 (cp_store _ _ _ _ _ Hcp2) (lookup_insert_eq _ _ _) Hg1 (eq_sym Hf2) Hg2) as Hst.
           unfold ghost in *. cbn [cents set_cents] in Hst. rewrite insert_insert_eq in Hst. unfold s3. cbn [cents set_cents]. rewrite insert_insert_eq. exact Hst.
        -- unfold s3. cbn [cents set_cents]. by rewrite lookup_insert_ne.
        -- intros j. change (slot g1 j = None). by rewrite Hg2.
        -- unfold ext_size. by rewrite Es.
        -- etrans; [exact A2|]. apply (ghost_around s2).
      * do 2 step. apply crun_assoc. step. pose proof (release_store_as L s2 q d g (cp_cent _ _ _ _ _ Hcp2)) as Hrel.
        eapply crun_mono; [apply Hrel; [done|done|apply Hcp2]|]. intros [] s3 (L3 & Hg). step. split; [|split; [exists L3; apply Hg|]].
        -- etrans; [exact A2|]. etrans; [apply (ghost_around s2 q g)|]. by eapply gone_around.
        -- split; [rewrite (go_cents _ _ _ _ _ Hg); apply lookup_delete_eq|]. by exists (asked s1).
    + apply (copy_finish (Z.to_nat NRRMU) L s s1 p q c d g); try done.
      * intros j. by apply no_sets_slot.
      * unfold ext_size. by rewrite Es.
Qed.
