(* ===== verification/DnsTable.v ===== *)
(** pdnsd's hash table refines a finite map from names, up to case, to entries; the
    invariant of the cache: its memory, its hash table, and the number and the size of
    the entries in the table agree. *)
From stdpp Require Import sorting.
From S2P Require Import Prelude CLib HevList Rhn DnsName DnsNameProps DnsCompress DnsMessage DnsStore DnsCents DnsHash DnsCache DnsRrl DnsHeap DnsEntry DnsFree DnsCopy.

(** * The hash of a name *)
Fixpoint hash_chars (l : label) (s r i : Z) : Z * Z :=
  match l with [] => (s, r) | c :: l => let '(s, r) := hash_in s r i (toupper c) in hash_chars l s r (i + 1) end.
Fixpoint hash_labels (ls : list label) (s r i : Z) : Z * Z :=
  match ls with
  | [] => (s, r)
  | l :: ls =>
      let '(s, r) := hash_in s r i (zlen l) in
      let '(s, r) := hash_chars l s r (i + 1) in
      hash_labels ls s r (i + 1 + zlen l)
  end.
Definition name_hash (N : list label) : Z * Z :=
  let '(s, r) := hash_labels N 0 0 0 in (Z.land (hash_fold (hash_fold s)) HASH_BITMASK, r).
Lemma hash_label_spec l : forall p x s r, hash_label (length l) (p ++ l ++ x) s r (zlen p) = Ok (hash_chars l s r (zlen p)).
Proof.
  induction l as [|c l IH]; intros p x s r; [done|]. cbn [length hash_label app hash_chars]. rewrite rd_mid. cbn [mbind res_bind].
  destruct (hash_in s r (zlen p) (toupper c)) as [s' r']. specialize (IH (p ++ [c]) x s' r'). rewrite <- app_assoc in IH. cbn [app] in IH.
  replace (zlen (p ++ [c])) with (zlen p + 1) in IH by (rewrite length_app; cbn [length]; lia). exact IH.
Qed.
Lemma hash_loop_spec ls : forall fuel p x s r, Forall label_ok ls -> (length ls < fuel)%nat ->
  hash_loop fuel (p ++ enc ls ++ x) s r (zlen p) = Ok (hash_labels ls s r (zlen p)).
Proof.
  induction ls as [|l ls IH]; intros [|fuel] p x s r Hok Hf; cbn [length] in Hf; try lia; cbn [hash_loop].
  - change (enc [] ++ x) with (0 :: x). by rewrite rd_mid.
  - apply Forall_cons in Hok as [[Hl _] Hok]. rewrite enc_cons. cbn [app]. rewrite rd_mid. cbn [mbind res_bind]. rewrite (proj2 (Z.eqb_neq _ 0)) by lia.
    cbn [hash_labels]. destruct (hash_in s r (zlen p) (zlen l)) as [s1 r1]. rewrite Nat2Z.id.
    pose proof (hash_label_spec l (p ++ [zlen l]) (enc ls ++ x) s1 r1) as H. rewrite <- !app_assoc in H. cbn [app] in H. rewrite <- !app_assoc.
    replace (zlen (p ++ [zlen l])) with (zlen p + 1) in H by (rewrite length_app; cbn [length]; lia). rewrite H. cbn [mbind res_bind].
    destruct (hash_chars l s1 r1 (zlen p + 1)) as [s2 r2]. specialize (IH fuel (p ++ zlen l :: l) x s2 r2 Hok ltac:(lia)).
    rewrite <- app_assoc in IH. cbn [app] in IH. replace (zlen (p ++ zlen l :: l)) with (zlen p + 1 + zlen l) in IH by (rewrite length_app; cbn [length]; lia).
    exact IH.
Qed.
Lemma dns_hash_spec N x : name_ok N -> dns_hash (enc N ++ x) = Ok (name_hash N).
Proof.
  intros [HN _]. unfold dns_hash, name_hash. pose proof (hash_loop_spec N (length (enc N ++ x)) [] x 0 0 HN) as H. cbn [app] in H. change (zlen []) with 0 in H. rewrite H; [by destruct (hash_labels N 0 0 0)|].
  rewrite length_app. pose proof (wire_lower N HN). unfold enc. rewrite length_app. cbn [length]. lia.
Qed.
Lemma hash_chars_fold l : forall l' s r i, map tolower l = map tolower l' -> hash_chars l s r i = hash_chars l' s r i.
Proof.
  induction l as [|c l IH]; intros [|c' l'] s r i H; try done. cbn [map] in H. injection H as Hc H. cbn [hash_chars].
  rewrite <- (toupper_tolower c), <- (toupper_tolower c'), Hc. destruct (hash_in s r i (toupper (tolower c'))). by apply IH.
Qed.
Lemma hash_labels_fold ls : forall ls' s r i, fold_name ls = fold_name ls' -> hash_labels ls s r i = hash_labels ls' s r i.
Proof.
  induction ls as [|l ls IH]; intros [|l' ls'] s r i H; try done. cbn [fold_name map] in H. injection H as Hl H. cbn [hash_labels].
  assert (Hlen : length l = length l') by (apply (f_equal length) in Hl; by rewrite !length_map in Hl). rewrite Hlen.
  destruct (hash_in s r i (zlen l')) as [s1 r1]. rewrite (hash_chars_fold l l' _ _ _ Hl). destruct (hash_chars l' s1 r1 (i + 1)). by apply IH.
Qed.
Lemma name_hash_fold A B : fold_name A = fold_name B -> name_hash A = name_hash B.
Proof. intros H. unfold name_hash. by rewrite (hash_labels_fold A B 0 0 0 H). Qed.
Lemma name_hash_range N : 0 <= (name_hash N).1 < HASH_NUM_BUCKETS.
Proof.
  unfold name_hash. destruct (hash_labels N 0 0 0) as [s r]. cbn [fst]. change HASH_BITMASK with (Z.ones 10). rewrite Z.land_ones by lia.
  change HASH_NUM_BUCKETS with (2 ^ 10). apply Z.mod_pos_bound. lia.
Qed.

(** * The table *)
Implicit Types (T : gmap (list label) positive) (K N : list label).
Definition named (C : gmap positive dns_cent_t) (p : positive) (N : list label) : Prop := exists c, C !! p = Some c /\ qname c = enc N /\ name_ok N.
(** An entry of a chain is one of the table [T], at its place by its hash. *)
Definition in_chain T (C : gmap positive dns_cent_t) (i : Z) (he : dns_hash_ent_t) : Prop :=
  exists N, named C (data he) N /\ name_hash N = (i, rhash he) /\ T !! fold_name N = Some (data he).
Definition by_rhash (a b : dns_hash_ent_t) : Prop := rhash a <= rhash b.
Record tbl_ok T (s : cache) : Prop := {
  tb_chain : forall i, Forall (in_chain T (cents s) i) (chain s i);
  tb_map : forall k p, T !! k = Some p -> exists N i he, fold_name N = k /\ named (cents s) p N /\ he ∈ chain s i /\ data he = p;
  tb_sorted : forall i, StronglySorted by_rhash (chain s i);
  tb_nodup : forall i, NoDup (data <$> chain s i)
}.

Lemma enc_inj N : forall N', name_ok N -> name_ok N' -> enc N = enc N' -> N = N'.
Proof.
  assert (forall N', Forall label_ok N -> Forall label_ok N' -> enc N = enc N' -> N = N') as H.
  { induction N as [|l N IH]; intros [|l' N'] H1 H2 E; [done| | |].
    - apply Forall_cons in H2 as [[H2 _] _]. rewrite enc_cons in E. injection E as E _. lia.
    - apply Forall_cons in H1 as [[H1 _] _]. rewrite enc_cons in E. injection E as E _. lia.
    - apply Forall_cons in H1 as [_ H1], H2 as [_ H2]. rewrite !enc_cons in E. injection E as El E. apply app_inj_1 in E as [-> E]; [|lia]. f_equal. by apply IH. }
  intros N' [H1 _] [H2 _]. by apply H.
Qed.
Lemma named_unique C p N N' : named C p N -> named C p N' -> N = N'.
Proof. intros (c & Hc & H1 & H2) (c' & Hc' & H3 & H4). apply enc_inj; congruence. Qed.
Lemma tbl_named T s k p : tbl_ok T s -> T !! k = Some p -> exists N, fold_name N = k /\ named (cents s) p N.
Proof. intros H Hk. destruct (tb_map _ _ H _ _ Hk) as (N & _ & _ & ? & ? & _). eauto. Qed.
Lemma tbl_inj T s k k' p : tbl_ok T s -> T !! k = Some p -> T !! k' = Some p -> k = k'.
Proof.
  intros H Hk Hk'. destruct (tbl_named _ _ _ _ H Hk) as (N & <- & HN), (tbl_named _ _ _ _ H Hk') as (N' & <- & HN'). by rewrite (named_unique _ _ _ _ HN HN').
Qed.

(** ** Searching *)
Definition before (rh : Z) (he : dns_hash_ent_t) : Prop := rhash he <= rh.
Definition after (rh : Z) (he : dns_hash_ent_t) : Prop := rh < rhash he.
Lemma find_in_chain_run T i K x rh s (l : list dns_hash_ent_t) : forall p, name_ok K -> Forall (in_chain T (cents s) i) l -> StronglySorted by_rhash l ->
  exists o n, find_in_chain (enc K ++ x) rh l p s = Ok ((o, p + n)%nat, s) /\
    match o with
    | Some d => T !! fold_name K = Some d /\ exists he, l !! n = Some he /\ data he = d
    | None => (n <= length l)%nat /\ Forall (before rh) (take n l) /\ Forall (after rh) (drop n l) /\
              forall he N, he ∈ l -> named (cents s) (data he) N -> rhash he = rh -> fold_name N <> fold_name K
    end.
Proof.
  induction l as [|he l IH]; intros p HK Hl Hs; cbn [find_in_chain].
  { exists None, O. rewrite Nat.add_0_r. split; [done|]. split_and!; [done|done|done|]. intros he N Hin. by apply not_elem_of_nil in Hin. }
  apply Forall_cons in Hl as [(N & (c & Hc & Hq & HN) & HhN & HT) Hl]. inversion_clear Hs as [|?? Hs' Hle]. destruct (Z.ltb_spec rh (rhash he)) as [Hlt|Hge].
  { exists None, O. rewrite Nat.add_0_r. split; [done|]. cbn [take drop]. split_and!; [lia|done| |].
    - constructor; [done|]. eapply Forall_impl; [exact Hle|]. unfold by_rhash, after. lia.
    - intros he' N' [->|Hin]%elem_of_cons _ E; [lia|]. rewrite Forall_forall in Hle. specialize (Hle _ Hin). unfold by_rhash in Hle. lia. }
  set (same := if rhash he =? rh then _ else _ : cm bool).
  assert (Hsame : exists b, same s = Ok (b, s) /\ (b = true <-> rhash he = rh /\ fold_name N = fold_name K)).
  { unfold same. destruct (Z.eqb_spec (rhash he) rh) as [E|E]; [|exists false; split; [done|naive_solver]].
    exists (bool_decide (fold_name K = fold_name N)). split; [|rewrite bool_decide_eq_true; naive_solver].
    unfold mbind, cm_bind, get_cent, gets. unfold mbind, cm_bind. rewrite Hc. cbn [found mret cm_ret lift]. rewrite Hq.
    pose proof (rhnicmp_spec K N x [] (proj1 HK) (proj1 HN)) as Hcmp. rewrite app_nil_r in Hcmp. rewrite Hcmp. by case_bool_decide. }
  destruct Hsame as (b & Hsame & Hb). unfold mbind at 1, cm_bind at 1. rewrite Hsame. destruct b.
  - destruct (proj1 Hb eq_refl) as [_ Hf]. exists (Some (data he)), O. rewrite Nat.add_0_r. split; [done|]. rewrite <- Hf. split; [done|]. by exists he.
  - destruct (IH (S p) HK Hl Hs') as (o & n & -> & Ho). exists o, (S n). split; [do 3 f_equal; lia|]. destruct o as [d|]; [exact Ho|].
    destruct Ho as (H1 & H2 & H3 & H4). cbn [length take drop]. split_and!; [lia| |done|].
    + constructor; [unfold before; lia|done].
    + intros he' N' [->|Hin]%elem_of_cons Hnm Er Hf; [|by eapply H4].
      assert (N' = N) as -> by (eapply named_unique; [exact Hnm|by exists c]). discriminate (proj2 Hb (conj Er Hf)).
Qed.

(** What a search leaves behind: where the entry is, or where it would be put. *)
Record place T (s : cache) K (loc : dns_hash_loc_t) : Prop := {
  pl_hash : name_hash K = (bucket loc, lrhash loc);
  pl_pos : match T !! fold_name K with
           | Some d => exists he, chain s (bucket loc) !! pos loc = Some he /\ data he = d
           | None => (pos loc <= length (chain s (bucket loc)))%nat /\ Forall (before (lrhash loc)) (take (pos loc) (chain s (bucket loc))) /\
                     Forall (after (lrhash loc)) (drop (pos loc) (chain s (bucket loc)))
           end
}.
Lemma find_run T s K x : tbl_ok T s -> name_ok K -> let '(i, rh) := name_hash K in
  exists n, find_in_chain (enc K ++ x) rh (chain s i) 0 s = Ok ((T !! fold_name K, n), s) /\ place T s K (HashLoc i n rh).
Proof.
  intros H HK. destruct (name_hash K) as [i rh] eqn:Eh.
  destruct (find_in_chain_run T i K x rh s (chain s i) 0 HK (tb_chain _ _ H i) (tb_sorted _ _ H i)) as (o & n & E & Ho).
  rewrite Nat.add_0_l in E. exists n. destruct o as [d|].
  - destruct Ho as (HT & he & Hhe). rewrite HT. split; [exact E|]. split; [done|]. cbn [bucket pos lrhash]. rewrite HT. by exists he.
  - destruct Ho as (H1 & H2 & H3 & H4). assert (HT : T !! fold_name K = None).
    { destruct (T !! fold_name K) as [d|] eqn:HT; [|done]. destruct (tb_map _ _ H _ _ HT) as (N & j & he & Hf & HN & Hin & Hd). exfalso.
      pose proof (tb_chain _ _ H j) as Hall. rewrite Forall_forall in Hall. destruct (Hall _ Hin) as (N' & HN' & Hh & _). rewrite Hd in HN'.
      assert (N' = N) as -> by (by eapply named_unique). rewrite (name_hash_fold _ _ Hf), Eh in Hh. injection Hh as <- Hrh.
      apply (H4 he N Hin); [by rewrite Hd|done|done]. }
    rewrite HT. split; [exact E|]. split; [done|]. cbn [bucket pos lrhash]. by rewrite HT.
Qed.
Lemma dns_lookup_run T s K x : tbl_ok T s -> name_ok K -> exists loc, dns_lookup (enc K ++ x) s = Ok ((T !! fold_name K, loc), s) /\ place T s K loc.
Proof.
  intros H HK. pose proof (find_run T s K x H HK) as Hf. unfold dns_lookup, mbind, cm_bind, lift. rewrite (dns_hash_spec K x HK).
  destruct (name_hash K) as [i rh]. destruct Hf as (n & E & Hp). unfold gets. rewrite E. by exists (HashLoc i n rh).
Qed.
Lemma dns_lookup_run' T s K : tbl_ok T s -> name_ok K -> exists loc, dns_lookup (enc K) s = Ok ((T !! fold_name K, loc), s) /\ place T s K loc.
Proof. intros H HK. pose proof (dns_lookup_run T s K [] H HK) as Hl. by rewrite app_nil_r in Hl. Qed.

(** ** Changes *)
Lemma tbl_ext T s s' : hash_buckets s' = hash_buckets s -> (forall k p N, T !! k = Some p -> named (cents s) p N -> named (cents s') p N) ->
  tbl_ok T s -> tbl_ok T s'.
Proof.
  intros Hb Hn [H1 H2 H3 H4]. assert (Hc : forall i, chain s' i = chain s i) by (intros i; unfold chain; by rewrite Hb). constructor.
  - intros i. rewrite Hc. eapply Forall_impl; [apply H1|]. intros he (N & HN & Hh & HT). exists N. eauto.
  - intros k p Hk. destruct (H2 _ _ Hk) as (N & i & he & Hf & HN & Hin & Hd). exists N, i, he. rewrite Hc. eauto.
  - intros i. by rewrite Hc.
  - intros i. by rewrite Hc.
Qed.
Lemma place_ext T s s' K loc : hash_buckets s' = hash_buckets s -> place T s K loc -> place T s' K loc.
Proof. intros Hb [H1 H2]. split; [done|]. unfold chain in *. by rewrite Hb. Qed.
Lemma chain_put s i l j : chain (set_buckets (<[i := l]> (hash_buckets s)) s) j = if decide (j = i) then l else chain s j.
Proof. unfold chain. cbn. destruct (decide (j = i)) as [->|]; [by rewrite lookup_insert_eq|by rewrite lookup_insert_ne]. Qed.

Lemma tbl_insert T s K i n rh p : tbl_ok T s -> place T s K (HashLoc i n rh) -> T !! fold_name K = None -> named (cents s) p K -> (forall k, T !! k <> Some p) ->
  tbl_ok (<[fold_name K := p]> T) (set_buckets (<[i := take n (chain s i) ++ HashEnt rh p :: drop n (chain s i)]> (hash_buckets s)) s).
Proof.
  intros [H1 H2 H3 H4] [Hh Hp] HT Hnm Hnew. rewrite HT in Hp. cbn [bucket pos lrhash] in *. destruct Hp as (Hn & Hbef & Haft). set (l := chain s i) in *.
  assert (Hsub : forall he j, in_chain T (cents s) j he -> in_chain (<[fold_name K := p]> T) (cents s) j he).
  { intros he j (N & HN & Hhh & Hk). exists N. split; [done|]. split; [done|]. rewrite lookup_insert_ne; [done|]. congruence. }
  constructor.
  - intros j. rewrite chain_put. cbn [cents set_buckets]. destruct (decide (j = i)) as [->|Hj]; [|eapply Forall_impl; [apply H1|]; intros he; apply Hsub].
    assert (Hl : Forall (in_chain (<[fold_name K := p]> T) (cents s) i) l) by (eapply Forall_impl; [apply H1|]; intros he; apply Hsub).
    apply Forall_app. split; [by apply Forall_take|]. constructor; [|by apply Forall_drop]. exists K. cbn [data rhash]. by rewrite lookup_insert_eq.
  - intros k q Hq. apply lookup_insert_Some in Hq as [[<- <-]|[Hk Hq]].
    + exists K, i, (HashEnt rh p). rewrite chain_put, decide_True by done. split_and!; [done|done|set_solver|done].
    + destruct (H2 _ _ Hq) as (N & j & he & ? & ? & Hin & ?). exists N, j, he. rewrite chain_put. split_and!; [done|done| |done].
      destruct (decide (j = i)) as [->|]; [|done]. fold l in Hin. rewrite <- (take_drop n l) in Hin. set_solver.
  - intros j. rewrite chain_put. destruct (decide (j = i)) as [->|]; [|apply H3]. specialize (H3 i). fold l in H3. rewrite <- (take_drop n l) in H3.
    apply StronglySorted_app in H3 as (HR & S1 & S2). rewrite Forall_forall in Hbef, Haft. apply StronglySorted_app. split; [|split; [done|]].
    + intros x y Hx [->|Hy]%elem_of_cons; [exact (Hbef _ Hx)|by apply HR].
    + constructor; [done|]. apply Forall_forall. intros x Hx. specialize (Haft _ Hx). unfold by_rhash, after in *. cbn [rhash]. lia.
  - intros j. rewrite chain_put. destruct (decide (j = i)) as [->|]; [|apply H4]. specialize (H4 i). fold l in H4.
    rewrite fmap_app, fmap_cons. rewrite <- (take_drop n l), fmap_app in H4. cbn [data]. rewrite <- Permutation_middle. constructor; [|done].
    rewrite <- fmap_app, take_drop. intros (he & Hd & Hin)%list_elem_of_fmap. specialize (H1 i). rewrite Forall_forall in H1.
    destruct (H1 he Hin) as (N & _ & _ & Hk). rewrite <- Hd in Hk. by apply (Hnew (fold_name N)).
Qed.
Lemma tbl_remove T s i n he k : tbl_ok T s -> chain s i !! n = Some he -> T !! k = Some (data he) ->
  tbl_ok (delete k T) (set_buckets (<[i := take n (chain s i) ++ drop (S n) (chain s i)]> (hash_buckets s)) s).
Proof.
  intros H Hn Hk. pose proof H as [H1 H2 H3 H4]. set (l := chain s i) in *. pose proof (take_drop_middle l n he Hn) as Hl.
  assert (Hsub : forall he' j, he' ∈ chain s j -> data he' <> data he -> in_chain (delete k T) (cents s) j he').
  { intros he' j Hin Hd. specialize (H1 j). rewrite Forall_forall in H1. destruct (H1 _ Hin) as (N & HN & Hhh & HT). exists N. split; [done|]. split; [done|].
    rewrite lookup_delete_ne; [done|]. congruence. }
  assert (Hold : forall he' j, he' ∈ chain s j -> data he' = data he -> j = i).
  { intros he' j Hin Hd. pose proof (H1 j) as Hj. rewrite Forall_forall in Hj. destruct (Hj _ Hin) as (N & HN & Hhh & _).
    pose proof (H1 i) as Hi. rewrite Forall_forall in Hi. destruct (Hi he) as (N' & HN' & Hhh' & _); [by eapply list_elem_of_lookup_2|].
    rewrite Hd in HN. rewrite (named_unique _ _ _ _ HN HN') in Hhh. congruence. }
  specialize (H4 i) as Hnd. fold l in Hnd. rewrite <- Hl, fmap_app, fmap_cons, <- Permutation_middle in Hnd. apply NoDup_cons in Hnd as [Hne Hnd]. rewrite <- fmap_app in Hne, Hnd.
  constructor.
  - intros j. rewrite chain_put. cbn [cents set_buckets]. apply Forall_forall. intros he' Hin. destruct (decide (j = i)) as [->|Hj].
    + apply Hsub; [fold l; rewrite <- Hl; set_solver|]. intros Hd. apply Hne. rewrite <- Hd. by apply list_elem_of_fmap_2.
    + apply Hsub; [done|]. intros Hd. by destruct (Hold _ _ Hin Hd).
  - intros k' q Hq. apply lookup_delete_Some in Hq as [Hkk Hq]. destruct (H2 _ _ Hq) as (N & j & he' & ? & ? & Hin & Hd). exists N, j, he'. rewrite chain_put.
    split_and!; [done|done| |done]. destruct (decide (j = i)) as [->|]; [|done]. fold l in Hin. rewrite <- Hl in Hin.
    apply elem_of_app in Hin as [Hin|[->|Hin]%elem_of_cons]; [set_solver| |set_solver]. exfalso. apply Hkk. apply (tbl_inj T s _ _ (data he)); congruence.
  - intros j. rewrite chain_put. destruct (decide (j = i)) as [->|]; [|apply H3]. specialize (H3 i). fold l in H3. rewrite <- Hl in H3.
    apply StronglySorted_app in H3 as (HR & S1 & S2). inversion_clear S2. apply StronglySorted_app. split; [|done]. intros x y Hx Hy. apply HR; set_solver.
  - intros j. rewrite chain_put. destruct (decide (j = i)) as [->|]; [done|apply H4].
Qed.

Lemma add_dns_hash_run T s K loc p : tbl_ok T s -> place T s K loc -> T !! fold_name K = None -> named (cents s) p K -> (forall k, T !! k <> Some p) ->
  crun (add_dns_hash p loc) s (fun ok s' =>
    if ok then exists m, s' = set_buckets m (set_asked (S (asked s)) s) /\ tbl_ok (<[fold_name K := p]> T) s'
    else starved s /\ s' = set_asked (S (asked s)) s).
Proof.
  intros H Hpl HT Hn Hnew. unfold add_dns_hash. do 2 step. destruct ok; cbn [negb]; [|step; split; [by exists (asked s)|done]]. do 2 step.
  unfold put_chain. do 3 step. destruct loc as [i n rh]. cbn [bucket pos lrhash]. eexists. split; [done|].
  apply (tbl_insert T (set_asked (S (asked s)) s) K i n rh p); try done; [by apply (tbl_ext T s)|by apply (place_ext T s)].
Qed.
Lemma del_dns_hash_ent_run T s K loc p : tbl_ok T s -> place T s K loc -> T !! fold_name K = Some p ->
  crun (del_dns_hash_ent loc) s (fun d s' => d = p /\ exists m, s' = set_buckets m s /\ tbl_ok (delete (fold_name K) T) s').
Proof.
  intros H [_ Hp] HT. rewrite HT in Hp. destruct Hp as (he & Hhe & Hd). unfold del_dns_hash_ent. do 2 step. rewrite Hhe. unfold put_chain. do 3 step.
  split; [done|]. eexists. split; [done|]. apply (tbl_remove T s _ _ he); [done|done|by rewrite Hd].
Qed.
Lemma del_dns_hash_run T s K x : tbl_ok T s -> name_ok K ->
  crun (del_dns_hash (enc K ++ x)) s (fun o s' => o = T !! fold_name K /\ exists m, s' = set_buckets m s /\ tbl_ok (delete (fold_name K) T) s').
Proof.
  intros H HK. pose proof (find_run T s K x H HK) as Hf. unfold del_dns_hash. step. apply crun_lift. rewrite (dns_hash_spec K x HK). cbn [succeeds].
  destruct (name_hash K) as [i rh]. destruct Hf as (n & E & [_ Hp]). cbn [bucket pos] in Hp. do 2 step. step. eapply crun_Ok; [exact E|].
  destruct (T !! fold_name K) as [d|] eqn:HT.
  - destruct Hp as (he & Hhe & Hd). unfold put_chain. do 3 step. split; [done|]. eexists. split; [done|]. apply (tbl_remove T s _ _ he); [done|done|by rewrite Hd].
  - step. split; [done|]. exists (hash_buckets s). rewrite delete_id by done. split; [by destruct s|done].
Qed.

(** * Parts of a name *)
Lemma skipsegs_spec N : forall k p x, Forall label_ok N -> skipsegs (p ++ enc N ++ x) (zlen p) k = Ok (zlen p + zlen (wire (take k N))).
Proof.
  induction N as [|l N IH]; intros [|k] p x HN; cbn [skipsegs].
  - f_equal. cbn. lia.
  - change (enc [] ++ x) with (0 :: x). rewrite rd_mid. cbn. f_equal. lia.
  - f_equal. cbn. lia.
  - apply Forall_cons in HN as [[Hl _] HN]. rewrite enc_cons. cbn [app]. rewrite rd_mid. cbn [mbind res_bind]. rewrite (proj2 (Z.eqb_neq _ 0)) by lia.
    rewrite <- app_assoc. specialize (IH k (p ++ zlen l :: l) x HN). rewrite <- app_assoc in IH. cbn [app] in IH.
    replace (zlen (p ++ zlen l :: l)) with (zlen p + zlen l + 1) in IH by (rewrite length_app; cbn [length]; lia). rewrite IH. f_equal. cbn [take].
    rewrite wire_cons. cbn [length]. rewrite length_app. lia.
Qed.
Lemma rhnsegcnt_spec N : forall fuel p x n, Forall label_ok N -> (length N < fuel)%nat -> rhnsegcnt_loop fuel (p ++ enc N ++ x) (zlen p) n = Ok (n + zlen N).
Proof.
  induction N as [|l N IH]; intros [|fuel] p x n HN Hf; cbn [length] in Hf; try lia; cbn [rhnsegcnt_loop].
  - change (enc [] ++ x) with (0 :: x). rewrite rd_mid. cbn. f_equal. lia.
  - apply Forall_cons in HN as [[Hl _] HN]. rewrite enc_cons. cbn [app]. rewrite rd_mid. cbn [mbind res_bind]. rewrite (proj2 (Z.eqb_neq _ 0)) by lia.
    rewrite <- app_assoc. specialize (IH fuel (p ++ zlen l :: l) x (n + 1) HN ltac:(lia)). rewrite <- app_assoc in IH. cbn [app] in IH.
    replace (zlen (p ++ zlen l :: l)) with (zlen p + (zlen l + 1)) in IH by (rewrite length_app; cbn [length]; lia). rewrite IH. f_equal. cbn [length]. lia.
Qed.
Lemma rhnsegcnt_enc N : name_ok N -> rhnsegcnt (enc N) = Ok (zlen N).
Proof.
  intros [HN _]. unfold rhnsegcnt. pose proof (rhnsegcnt_spec N (S (length (enc N))) [] [] 0 HN) as H. cbn [app] in H. rewrite app_nil_r in H. change (zlen []) with 0 in H. rewrite H; [f_equal; lia|].
  pose proof (wire_lower N HN). unfold enc. rewrite length_app. cbn [length]. lia.
Qed.
Lemma drop_enc k N : drop (length (wire (take k N))) (enc N) = enc (drop k N).
Proof. unfold enc. rewrite <- (take_drop k N) at 2. by rewrite wire_app, <- app_assoc, drop_app_length. Qed.
Lemma name_ok_drop k N : name_ok N -> name_ok (drop k N).
Proof.
  intros [H1 H2]. split; [by apply Forall_drop|]. rewrite <- (drop_enc k N), length_drop. lia.
Qed.
Lemma skipsegs_enc k N : name_ok N -> exists n, skipsegs (enc N) 0 k = Ok (Z.of_nat n) /\ drop n (enc N) = enc (drop k N).
Proof.
  intros [HN _]. exists (length (wire (take k N))). split; [|apply drop_enc]. pose proof (skipsegs_spec N k [] [] HN) as H. cbn [app] in H. rewrite app_nil_r in H. exact H.
Qed.

(** * The invariant of the cache *)
Implicit Types (s : cache) (L : list positive).

(** * Sizes *)
Definition cs_at (C : gmap positive dns_cent_t) (p : positive) : Z := from_option cs 0 (C !! p).
Definition sum_cs (C : gmap positive dns_cent_t) T : Z := map_fold (fun _ p n => cs_at C p + n) 0 T.
Lemma sum_cs_insert C T k p : T !! k = None -> sum_cs C (<[k := p]> T) = cs_at C p + sum_cs C T.
Proof. intros H. unfold sum_cs. rewrite map_fold_insert_L; [done| |done]. intros. lia. Qed.
Lemma sum_cs_delete C T k p : T !! k = Some p -> sum_cs C T = cs_at C p + sum_cs C (delete k T).
Proof. intros H. rewrite <- (insert_delete_id T k p H) at 1. by rewrite sum_cs_insert by apply lookup_delete_eq. Qed.
Lemma sum_cs_ext C C' T : (forall k p, T !! k = Some p -> cs_at C' p = cs_at C p) -> sum_cs C' T = sum_cs C T.
Proof.
  induction T as [|k p T Hk IH] using map_ind; intros H; [done|]. rewrite !sum_cs_insert by done. rewrite (H k p) by apply lookup_insert_eq. f_equal.
  apply IH. intros k' p' Hk'. apply (H k'). rewrite lookup_insert_ne; congruence.
Qed.

(** * The invariant *)
Definition lents_in T s : Prop := forall a e, lents s !! a = Some e -> exists k, T !! k = Some (cent e).
Record inv L T s : Prop := {
  iv_store : store_ok L s;
  iv_table : tbl_ok T s;
  iv_num : ent_num s = Z.of_nat (size T);
  iv_lents : lents_in T s
}.
Definition sized T s : Prop := cache_size s = sum_cs (cents s) T.
(** An entry that a caller has: no list entry refers to it, and it is not in the table. *)
Definition unlisted s (p : positive) : Prop := forall a e, lents s !! a = Some e -> cent e <> p.
Definition outside T (p : positive) : Prop := forall k, T !! k <> Some p.

Lemma core_of s a e : lents s !! a = Some e -> (core <$> lents s) !! a = Some (rrset e, cent e, idx e).
Proof. intros H. by rewrite lookup_fmap, H. Qed.
Lemma core_Some s a o p i : (core <$> lents s) !! a = Some (o, p, i) -> exists e, lents s !! a = Some e /\ rrset e = o /\ cent e = p /\ idx e = i.
Proof. rewrite lookup_fmap. destruct (lents s !! a) as [e|]; [|done]. intros [= <- <- <-]. eauto. Qed.
(** A list entry refers to an entry that there is. *)
Lemma lent_cent L s a e : store_ok L s -> lents s !! a = Some e -> is_Some (cents s !! cent e).
Proof.
  intros H Ha%core_of. destruct (rrset e) as [r|].
  - destruct (lk_set _ _ _ (so_links _ _ H) _ _ _ _ Ha) as (c & _ & Hc & _). eauto.
  - destruct (lk_cent _ _ _ (so_links _ _ H) _ _ _ Ha) as (c & Hc & _). eauto.
Qed.
Lemma lents_outside L T s p : inv L T s -> outside T p -> unlisted s p.
Proof. intros H Ho a e Ha <-. destruct (iv_lents _ _ _ H _ _ Ha) as [k Hk]. by apply (Ho k). Qed.

(** What is listed for entries that an operation on [p] leaves alone was listed before. *)
Lemma lents_step p L s L' s' : store_ok L s -> store_ok L' s' -> (forall q, q <> p -> cents s' !! q = cents s !! q) ->
  (forall q d i r, q <> p -> cents s !! q = Some d -> slot d i = Some r -> rrsets s' !! r = rrsets s !! r) ->
  forall a e, lents s' !! a = Some e -> cent e = p \/ exists e', lents s !! a = Some e' /\ cent e' = cent e.
Proof.
  intros H H' Hc Hs a e Ha%core_of. destruct (decide (cent e = p)) as [|Hp]; [by left|right]. destruct (rrset e) as [r|] eqn:Er.
  - destruct (lk_set _ _ _ (so_links _ _ H') _ _ _ _ Ha) as (d & x & Hd & Hi & Hr & Hx). rewrite Hc in Hd by done. rewrite (Hs _ _ _ _ Hp Hd Hi) in Hr.
    pose proof (lk_back _ _ _ (so_links _ _ H) _ _ _ _ _ _ Hd Hi Hr Hx) as Hk. apply core_Some in Hk as (e' & ? & _ & ? & _). eauto.
  - destruct (lk_cent _ _ _ (so_links _ _ H') _ _ _ Ha) as (d & Hd & Hx). rewrite Hc in Hd by done.
    destruct (lk_neg _ _ _ (so_links _ _ H) _ _ _ Hd Hx) as [i Hk]. apply core_Some in Hk as (e' & ? & _ & ? & _). eauto.
Qed.
Lemma named_same s s' q N : cents s' !! q = cents s !! q -> named (cents s) q N -> named (cents s') q N.
Proof. intros E (c & Hc & H). exists c. by rewrite E. Qed.
Lemma on_cent_inv L T s L' s' k p : inv L T s -> T !! k = Some p -> on_cent p s s' -> store_ok L' s' -> inv L' T s'.
Proof.
  intros [H1 H2 H3 H4] Hk [[E1 E2 E3 E4 E5] O2 O3 O4 O5] H'. split; [done| |congruence|].
  - apply (tbl_ext T s); [done| |done]. intros k' q N Hq HN. destruct (decide (q = p)) as [->|Hqp]; [|by apply (named_same s); auto].
    destruct HN as (c & Hc & Hn & HN). rewrite Hc in O5. destruct (cents s' !! p) as [c'|] eqn:Hc'; [|done]. injection O5 as O5. exists c'. split; [done|]. split; congruence.
  - intros a e Ha. destruct (lents_step p L s L' s' H1 H' O3 O4 a e Ha) as [->|(e' & He' & <-)]; [eauto|by eapply H4].
Qed.
Lemma on_cent_sized T s s' k p : tbl_ok T s -> T !! k = Some p -> on_cent p s s' -> sized (delete k T) s -> sized (delete k T) s'.
Proof.
  intros H Hk [[] _ O3 _ _] Hs. unfold sized in *. rewrite st_size, Hs. symmetry. apply sum_cs_ext. intros k' q Hq. apply lookup_delete_Some in Hq as [Hkk Hq].
  unfold cs_at. rewrite O3; [done|]. intros ->. apply Hkk. by eapply tbl_inj.
Qed.
Lemma around_inv L T s L' s' p : inv L T s -> outside T p -> around p s s' -> store_ok L' s' -> unlisted s' p -> inv L' T s'.
Proof.
  intros [H1 H2 H3 H4] Ho [[E1 E2 E3 E4 E5] O2 O3 O4] H' Hu. split; [done| |congruence|].
  - apply (tbl_ext T s); [done| |done]. intros k' q N Hq HN. apply (named_same s); [|done]. apply O3. intros ->. by apply (Ho k').
  - intros a e Ha. destruct (lents_step p L s L' s' H1 H' O3 O4 a e Ha) as [Hp|(e' & He' & <-)]; [by destruct (Hu a e Ha)|by eapply H4].
Qed.
Lemma around_sized T s s' p : outside T p -> around p s s' -> sized T s -> sized T s'.
Proof.
  intros Ho [[] _ O3 _] Hs. unfold sized in *. rewrite st_size, Hs. symmetry. apply sum_cs_ext. intros k q Hq. unfold cs_at. rewrite O3; [done|]. intros ->. by apply (Ho k).
Qed.
Lemma inv_lookup L T s k p : inv L T s -> T !! k = Some p -> exists c N, cents s !! p = Some c /\ qname c = enc N /\ name_ok N /\ fold_name N = k.
Proof. intros H Hk. destruct (tbl_named _ _ _ _ (iv_table _ _ _ H) Hk) as (N & Hf & c & Hc & Hn & HN). eauto 6. Qed.

(** * Deleting an entry of the table *)
Record removed p (k : list label) L T s L' s' : Prop := {
  rm_inv : inv L' (delete k T) s';
  rm_sized : sized T s -> sized (delete k T) s';
  rm_env : env s' = env s;
  rm_sort : insert_sort s' = insert_sort s;
  rm_brk : brk s' = brk s;
  rm_cents : cents s' = delete p (cents s);
  rm_sets : forall q d i r, q <> p -> cents s !! q = Some d -> slot d i = Some r -> rrsets s' !! r = rrsets s !! r;
  rm_core : core <$> lents s' ⊆ core <$> lents s;
  rm_list : exists X : gset positive, L' = filter (.∉ X) L /\ forall a, a ∈ X -> owned_by p s a
}.
Lemma store_buckets L m s : store_ok L s -> store_ok L (set_buckets m s).
Proof. intros []. by split. Qed.
Lemma store_size L n s : store_ok L s -> store_ok L (DnsStore.set_size n s).
Proof. intros []. by split. Qed.
Lemma store_num L n s : store_ok L s -> store_ok L (set_num n s).
Proof. intros []. by split. Qed.
(** What [del_cent] relies on: not that its entry is found in the table. *)
Definition names_in T s : Prop := forall k p, T !! k = Some p -> exists N, fold_name N = k /\ named (cents s) p N.
Record counts L T s : Prop := {
  ct_store : store_ok L s;
  ct_num : ent_num s = Z.of_nat (size T);
  ct_lents : lents_in T s;
  ct_names : names_in T s
}.
Lemma inv_counts L T s : inv L T s -> counts L T s.
Proof. intros [H1 H2 H3 H4]. split; try done. intros k p. by apply tbl_named. Qed.
Lemma names_inj T s k k' p : names_in T s -> T !! k = Some p -> T !! k' = Some p -> k = k'.
Proof. intros H Hk Hk'. destruct (H _ _ Hk) as (N & <- & HN), (H _ _ Hk') as (N' & <- & HN'). by rewrite (named_unique _ _ _ _ HN HN'). Qed.
Record uncounted p (k : list label) L T s L' s' : Prop := {
  un_counts : counts L' (delete k T) s';
  un_buckets : hash_buckets s' = hash_buckets s;
  un_sized : sized T s -> sized (delete k T) s';
  un_env : env s' = env s;
  un_sort : insert_sort s' = insert_sort s;
  un_brk : brk s' = brk s;
  un_cents : cents s' = delete p (cents s);
  un_sets : forall q d i r, q <> p -> cents s !! q = Some d -> slot d i = Some r -> rrsets s' !! r = rrsets s !! r;
  un_core : core <$> lents s' ⊆ core <$> lents s;
  un_list : exists X : gset positive, L' = filter (.∉ X) L /\ forall a, a ∈ X -> owned_by p s a
}.
Lemma del_cent_counts L T s k p : counts L T s -> T !! k = Some p -> crun (del_cent p) s (fun _ s' => exists L', uncounted p k L T s L' s').
Proof.
  intros H Hk. destruct (ct_names _ _ _ H _ _ Hk) as (N & Hf & c & Hc & Hn & HN). unfold del_cent, add_size. do 3 step. do 3 step.
  match goal with |- crun _ ?t _ => set (s1 := t) end. apply crun_assoc. step.
  eapply crun_mono; [apply (release_store L s1 p c); [by apply store_size, H|exact Hc]|].
  intros [] s2 (L' & [G1 [E1 E2 E3 E4 E5] G2 G3 G4 G5 G6]). do 3 step. exists L'.
  assert (Hdel : forall k' q, delete k T !! k' = Some q -> q <> p).
  { intros k' q Hq ->. apply lookup_delete_Some in Hq as [Hkk Hq]. apply Hkk. eapply names_inj; [apply H|..]; eauto. }
  split; try done.
  - split; [by apply store_num| | |].
    + cbn [ent_num set_num]. rewrite E4. cbn. rewrite (ct_num _ _ _ H). pose proof (map_size_delete k T) as Hsz. rewrite Hk in Hsz. rewrite Hsz.
      assert (size T <> O); [|lia]. intros Hz. apply map_size_empty_iff in Hz. subst T. done.
    + intros a e Ha. pose proof (lent_cent _ _ _ _ G1 Ha) as Hce. rewrite G3 in Hce. cbn in Hce. destruct Hce as [d Hd]. apply lookup_delete_Some in Hd as [Hpe _].
      apply core_of in Ha. apply (lookup_weaken _ _ _ _ Ha) in G5. apply core_Some in G5 as (e' & He' & _ & Hce & _).
      destruct (ct_lents _ _ _ H _ _ He') as [k' Hk']. rewrite Hce in Hk'. exists k'. rewrite lookup_delete_ne; [done|]. intros <-. rewrite Hk in Hk'. by injection Hk'.
    + intros k' q Hq. pose proof (Hdel _ _ Hq) as Hqp. apply lookup_delete_Some in Hq as [_ Hq]. destruct (ct_names _ _ _ H _ _ Hq) as (N' & Hf' & HN').
      exists N'. split; [done|]. apply (named_same s); [|done]. cbn [cents set_num]. rewrite G3. cbn. by rewrite lookup_delete_ne.
  - unfold sized. intros Hs. cbn [cache_size set_num cents]. rewrite E3. cbn. rewrite Hs, (sum_cs_delete _ _ _ _ Hk). rewrite G3. cbn.
    rewrite (sum_cs_ext (cents s) (delete p (cents s))); [unfold cs_at; rewrite Hc; cbn; lia|]. intros k' q Hq. unfold cs_at. rewrite lookup_delete_ne; [done|].
    intros ->. by apply (Hdel _ _ Hq).
Qed.
Lemma del_cent_counts_on L T s k p m : inv L T s -> T !! k = Some p -> tbl_ok (delete k T) (set_buckets m s) ->
  crun (del_cent p) (set_buckets m s) (fun _ s' => exists L', removed p k L T s L' s' /\ hash_buckets s' = m).
Proof.
  intros H Hk Ht. destruct (inv_counts _ _ _ H) as [C1 C2 C3 C4]. eapply crun_mono; [apply (del_cent_counts L T (set_buckets m s) k p); [|done]|].
  { split; [by apply store_buckets|done..]. }
  intros [] s' (L' & [[U1 U2 U3 _] Ub U4 U5 U6 U7 U8 U9 U10 U11]). exists L'. split; [|done]. split; try done. split; try done.
  apply (tbl_ext _ (set_buckets m s)); [done| |done]. intros k' q N Hq. apply named_same. rewrite U8. cbn. rewrite lookup_delete_ne; [done|]. intros <-.
  apply lookup_delete_Some in Hq as [Hkk Hq]. apply Hkk. eapply names_inj; [apply C4|..]; eauto.
Qed.
Lemma del_cent_removed L T s k p m : inv L T s -> T !! k = Some p -> tbl_ok (delete k T) (set_buckets m s) ->
  crun (del_cent p) (set_buckets m s) (fun _ s' => exists L', removed p k L T s L' s').
Proof. intros H Hk Ht. eapply crun_mono; [by apply (del_cent_counts_on L T s k p m)|]. intros [] s' (L' & Hrm & _). by exists L'. Qed.
Lemma del_cache_ent_run L T s k p : inv L T s -> T !! k = Some p -> crun (del_cache_ent p None) s (fun _ s' => exists L', removed p k L T s L' s').
Proof.
  intros H Hk. destruct (inv_lookup _ _ _ _ _ H Hk) as (c & N & Hc & Hn & HN & Hf). unfold del_cache_ent. do 3 step. rewrite Hn.
  pose proof (del_dns_hash_run T s N [] (iv_table _ _ _ H) HN) as Hd. rewrite app_nil_r in Hd. eapply crun_mono; [apply Hd|].
  intros o ? (-> & m & -> & Ht). rewrite Hf in Ht. by apply del_cent_removed.
Qed.
Lemma del_cache_ent_at L T s K loc p : inv L T s -> place T s K loc -> T !! fold_name K = Some p ->
  crun (del_cache_ent p (Some loc)) s (fun _ s' => exists L', removed p (fold_name K) L T s L' s').
Proof.
  intros H Hpl Hk. unfold del_cache_ent. do 2 step. eapply crun_mono; [by apply (del_dns_hash_ent_run T s K loc p); [apply H|..]|].
  intros d ? (-> & m & -> & Ht). step. by apply del_cent_removed.
Qed.
