(* ===== verification/DnsPurge.v ===== *)
(** Purging pdnsd's cache. *)
From S2P Require Import Prelude CLib Rhn DnsName DnsNameProps DnsCompress DnsMessage HevList DnsStore DnsCents DnsHash DnsCache DnsRrl DnsSort DnsHeap DnsEntry DnsFree DnsCopy DnsTable.

Implicit Types (T : gmap (list label) positive) (K N : list label) (s : cache) (L : list positive).

Lemma inv_ask L T n s : inv L T s -> inv L T (set_asked n s).
Proof. intros []. split; [by apply store_ask|by apply (tbl_ext _ s)|done|done]. Qed.

(** What becomes of the list and of other entries when something of the entry [p] is
    deleted. *)
Record shrunk p L s L' s' : Prop := {
  sh_env : env s' = env s;
  sh_sort : insert_sort s' = insert_sort s;
  sh_brk : brk s' = brk s;
  sh_cents : forall q, q <> p -> cents s' !! q = cents s !! q;
  sh_sets : forall q d i r, q <> p -> cents s !! q = Some d -> slot d i = Some r -> rrsets s' !! r = rrsets s !! r;
  sh_core : core <$> lents s' ⊆ core <$> lents s;
  sh_list : exists X : gset positive, L' = filter (.∉ X) L /\ forall a, a ∈ X -> owned_by p s a
}.
Lemma shrunk_ask p L n s : shrunk p L s L (set_asked n s).
Proof. split; try done. exists ∅. split; [by rewrite filter_nothing by set_solver|set_solver]. Qed.
Lemma drops_shrunk p L s L' s' : drops p L s L' s' -> shrunk p L s L' s'.
Proof. intros [[[] O2 O3 O4 O5] D1 D2 D3]. by split. Qed.
Lemma removed_shrunk p k L T s L' s' : removed p k L T s L' s' -> shrunk p L s L' s'.
Proof. intros [R1 R2 R3 R4 R5 R6 R7 R8 R9]. split; try done. intros q Hq. by rewrite R6, lookup_delete_ne. Qed.
Lemma shrunk_trans p L1 s1 L2 s2 L3 s3 : shrunk p L1 s1 L2 s2 -> shrunk p L2 s2 L3 s3 -> shrunk p L1 s1 L3 s3.
Proof.
  intros [A1 A2 A3 A4 A5 A6 (X & -> & A7)] [B1 B2 B3 B4 B5 B6 (Y & -> & B7)]. split; try congruence.
  - intros q Hq. by rewrite B4, A4.
  - intros q d i r Hq Hd Hi. rewrite (B5 q d i r), (A5 q d i r); auto. by rewrite A4.
  - by etrans.
  - exists (X ∪ Y). split; [rewrite list_filter_filter; apply list_filter_iff; set_solver|].
    intros a [Ha|Ha]%elem_of_union; [auto|]. destruct (B7 a Ha) as (o & i & Hk). exists o, i. by eapply lookup_weaken.
Qed.

(** Only its own list entry belongs to an entry without sets. *)
Lemma owned_last L s p c b : store_ok L s -> cents s !! p = Some c -> num_rrs c = 0 -> owned_by p s b -> neg_lent c = Some b.
Proof.
  intros H Hc Hn (o & i & Hk). destruct o as [r|].
  - destruct (lk_set _ _ _ (so_links _ _ H) _ _ _ _ Hk) as (d & x & Hd & Hi & _). assert (d = c) as -> by congruence.
    pose proof (co_num _ _ (so_cents _ _ H _ _ Hc)) as Hcnt. rewrite Hn in Hcnt. unfold slot in Hi. destruct (0 <=? i); [|done].
    by rewrite (count_zero _ _ (eq_sym Hcnt)) in Hi.
  - destruct (lk_cent _ _ _ (so_links _ _ H) _ _ _ Hk) as (d & Hd & Hx). congruence.
Qed.

(** * [purge_rrset] *)
(** A set, or a negative entry, whose time is over at some moment, and one that is kept or
    whose time is not over at some moment. *)
Definition late s (x : rr_set_t) : Prop := kept x = false /\ exists n, ts x + CLAT_ADJ (ttl x) < clock (env s) n.
Definition timely s (x : rr_set_t) : Prop := kept x = true \/ exists n, clock (env s) n <= ts x + CLAT_ADJ (ttl x).
Definition late_neg s (c : dns_cent_t) : Prop :=
  exists l t m n, side c = Neg l t m /\ has (flags c) DF_LOCAL = false /\ m + CLAT_ADJ t < clock (env s) n.
Definition timely_neg s (c : dns_cent_t) : Prop :=
  has (flags c) DF_LOCAL = true \/ exists l t m n, side c = Neg l t m /\ clock (env s) n <= m + CLAT_ADJ t.
Lemma must_go_run o s : (forall r, o = Some r -> is_Some (rrsets s !! r)) ->
  crun (must_go o) s (fun go s' => (exists n, s' = set_asked n s) /\ (go = true -> exists r x, o = Some r /\ rrsets s !! r = Some x /\ late s x) /\
    (go = false -> forall r x, o = Some r -> rrsets s !! r = Some x -> timely s x)).
Proof.
  intros Ho. unfold must_go. destruct o as [r|]; [|step; split; [exists (asked s); by destruct s|done]]. destruct (Ho r eq_refl) as [x Hx]. do 2 step.
  apply crun_if; intros Hk; [step; split; [exists (asked s); by destruct s|split; [done|]]; intros _ r' x' [= <-] Hx'; left; congruence|].
  unfold timedout, time. step. apply crun_Ok with (a := clock (env s) (asked s)) (s' := set_asked (S (asked s)) s); [done|].
  step. split; [by eexists|]. destruct (Z.ltb_spec (ts x + CLAT_ADJ (ttl x)) (clock (env s) (asked s))); (split; [intros Hg|intros Hg r' x' [= <-] Hx']); try done.
  - exists r, x. split_and!; [done..|]. split; [done|by eexists].
  - right. exists (asked s). assert (x' = x) as -> by congruence. lia.
Qed.
(** Taking the set in slot [i] of an entry of the table out of the cache. *)
Lemma del_set_inv L T s k p c i r x : inv L T s -> sized T s -> T !! k = Some p -> cents s !! p = Some c -> slot c i = Some r -> rrsets s !! r = Some x ->
  crun (n ← del_cent_rrset_by_index p i; add_size (- n)) s (fun _ s' => inv (unlist_L (lent x) L) T s' /\ sized T s' /\ shrunk p L s (unlist_L (lent x) L) s' /\
    cents s' = <[p := cleared c i (size_of x)]> (cents s) /\ rrsets s' = delete r (rrsets s)).
Proof.
  intros H Hs Hk Hc Hi Hr. step. assert (Hrange : 0 <= i < NRRTOT).
  { pose proof (slot_in _ _ _ Hi) as Hin. pose proof (so_cents _ _ (iv_store _ _ _ H) _ _ Hc) as Hok. destruct (negative c) eqn:E.
    - unfold slot_count in Hin. rewrite (negative_slots _ _ Hok E) in Hin. cbn in Hin. lia.
    - destruct (slots_length _ _ Hok E) as (? & ext & _ & _ & _ & Hl). unfold slot_count in Hin. rewrite Hl in Hin. unfold NRRTOT. destruct ext; lia. }
  use (del_index_drops L s p c i (iv_store _ _ _ H) Hc Hrange) as Hd. rewrite Hi in Hd. destruct Hd as (x' & Hx' & -> & Hcs & Hrr & Hok & Hdr). assert (x' = x) as -> by congruence.
  pose proof (dr_on _ _ _ _ _ Hdr) as Hon. unfold add_size. do 2 step.
  assert (H' : inv (unlist_L (lent x) L) T s0) by (by eapply on_cent_inv).
  split; [destruct H'; split; [by apply store_size|by apply (tbl_ext _ s0)|done|done]|]. split; [|split; [|done]].
  - unfold sized in *. cbn [cache_size DnsStore.set_size cents]. destruct Hon as [[] _ _ _ _]. rewrite st_size, Hs, Hcs. rewrite !(sum_cs_delete _ T _ _ Hk).
    rewrite (sum_cs_ext (cents s) (<[p := cleared c i (size_of x)]> (cents s))).
    + unfold cs_at. rewrite lookup_insert_eq, Hc. cbn [from_option cleared cs with_flags with_cs]. lia.
    + intros k' q Hq. apply lookup_delete_Some in Hq as [Hkk Hq]. unfold cs_at. rewrite lookup_insert_ne; [done|]. intros <-. apply Hkk. eapply tbl_inj; [apply H|..]; eauto.
  - apply drops_shrunk in Hdr. by destruct Hdr.
Qed.
Lemma purge_rrset_run L T s k p c i : inv L T s -> sized T s -> T !! k = Some p -> cents s !! p = Some c -> 0 <= i < NRRTOT ->
  crun (purge_rrset p i false) s (fun b s' => (b = false /\ exists n, s' = set_asked n s) \/
    (b = true /\ exists r x, slot c i = Some r /\ rrsets s !! r = Some x /\ inv (unlist_L (lent x) L) T s' /\ sized T s' /\
       shrunk p L s (unlist_L (lent x) L) s' /\ cents s' = <[p := cleared c i (size_of x)]> (cents s) /\ rrsets s' = delete r (rrsets s))).
Proof.
  intros H Hs Hk Hc Hi. unfold purge_rrset. do 3 step. apply crun_lift. rewrite (rrarr_testext_ok _ _ _ (so_cents _ _ (iv_store _ _ _ H) _ _ Hc) Hi). cbn [succeeds]. step.
  eapply crun_mono; [apply must_go_run|].
  { intros r Hr. apply (lk_live _ _ _ (so_links _ _ (iv_store _ _ _ H)) _ _ _ _ Hc Hr). }
  intros go ? ([n ->] & Hgo). destruct go; cbn [negb]; [|step; left; eauto]. destruct (proj1 Hgo eq_refl) as (r & x & Hsl & Hx & _). step.
  eapply crun_mono; [apply (del_set_inv L T (set_asked n s) k p c i r x); [by apply inv_ask|done..]|].
  intros [] s' (H' & Hs' & Hsh & Hcs & Hrr). step. right. split; [done|]. exists r, x. split_and!; try done. by eapply shrunk_trans; [apply (shrunk_ask p L n)|].
Qed.

(** * What purging leaves of the cache *)
Record trimmed T s T' s' : Prop := {
  tr_sub : T' ⊆ T;
  tr_env : env s' = env s;
  tr_sort : insert_sort s = true -> insert_sort s' = true;
  tr_core : core <$> lents s' ⊆ core <$> lents s;
  tr_brk : brk s' = brk s;
  tr_cents : forall q, outside T q -> cents s' !! q = cents s !! q;
  tr_tight : forall q, is_Some (cents s' !! q) -> outside T' q -> outside T q;
  tr_sets : forall q d i r, outside T q -> cents s !! q = Some d -> slot d i = Some r -> rrsets s' !! r = rrsets s !! r
}.
Lemma outside_sub T T' q : T' ⊆ T -> outside T q -> outside T' q.
Proof. intros H Ho k Hk. apply (Ho k). by eapply lookup_weaken. Qed.
Lemma trimmed_refl T s : trimmed T s T s.
Proof. by split. Qed.
Lemma trimmed_trans T1 s1 T2 s2 T3 s3 : trimmed T1 s1 T2 s2 -> trimmed T2 s2 T3 s3 -> trimmed T1 s1 T3 s3.
Proof.
  intros [A1 A2 A3 A4 A5 A6 A7 A8] [B1 B2 B3 B4 B5 B6 B7 B8]. split; try congruence; [by etrans|auto|by etrans|..].
  - intros q Hq. rewrite B6, A6; [done|done|by eapply outside_sub].
  - intros q Hc Hq. pose proof (B7 q Hc Hq) as Hq2. apply A7; [|done]. by rewrite <- (B6 q Hq2).
  - intros q d i r Hq Hd Hi. rewrite (B8 q d i r), (A8 q d i r); auto; [by eapply outside_sub|]. by rewrite A6.
Qed.
Lemma shrunk_part T k p L s L' s' T' : T !! k = Some p -> shrunk p L s L' s' -> T' ⊆ T -> (forall q, is_Some (cents s' !! q) -> outside T' q -> outside T q) -> trimmed T s T' s'.
Proof.
  intros Hk [S1 S2 S3 S4 S5 S6 S7] HT Htight. assert (Hp : forall q, outside T q -> q <> p) by (intros q Hq ->; by apply (Hq k)). split; try done; [by rewrite S2|auto|].
  intros q d i r Hq. apply S5. auto.
Qed.
Lemma shrunk_trimmed T k p L s L' s' : T !! k = Some p -> shrunk p L s L' s' -> trimmed T s T s'.
Proof. intros Hk H. by apply (shrunk_part T k p L s L' s' T). Qed.
Lemma shrunk_gone T k p L s L' s' : T !! k = Some p -> shrunk p L s L' s' -> cents s' !! p = None -> trimmed T s (delete k T) s'.
Proof.
  intros Hk H Hn. apply (shrunk_part T k p L s L' s'); [done|done|apply delete_subseteq|]. intros q Hq Ho k' Hk'. destruct (decide (k' = k)) as [->|Hkk].
  - rewrite Hk in Hk'. injection Hk' as <-. rewrite Hn in Hq. by destruct Hq.
  - apply (Ho k'). by rewrite lookup_delete_ne.
Qed.
Lemma trimmed_ask T n s : trimmed T s T (set_asked n s).
Proof. by split. Qed.

(** * Purging the list

    A list entry that is passed over. *)
Definition local_at s (a : positive) : Prop := exists e, lents s !! a = Some e /\
  ((exists r x, rrset e = Some r /\ rrsets s !! r = Some x /\ has (rflags x) CF_LOCAL = true) \/
   (exists c, cents s !! cent e = Some c /\ has (flags c) DF_LOCAL = true)).
Lemma listed_local_run L s a e : store_ok L s -> lents s !! a = Some e -> crun (listed_local e) s (fun b s' => s' = s /\ (b = true -> local_at s a)).
Proof.
  intros H Ha. destruct (lent_cent _ _ _ _ H Ha) as [c Hc]. unfold listed_local. step.
  apply (crun_mono _ _ (fun b s' => s' = s /\ (b = true -> local_at s a))).
  { destruct (rrset e) as [r|] eqn:Er; [|by step]. destruct (lk_set _ _ _ (so_links _ _ H) a r (cent e) (idx e)) as (_ & x & _ & _ & Hx & _).
    { rewrite <- Er. by apply core_of. }
    do 3 step. split; [done|]. intros Hl. exists e. split; [done|]. left. eauto. }
  intros b ? [-> Hb]. destruct b; [step; auto|]. do 3 step. split; [done|]. intros Hl. exists e. split; [done|]. right. eauto.
Qed.
Lemma local_keep L' s s' b : store_ok L' s' -> b ∈ L' -> core <$> lents s' ⊆ core <$> lents s -> local_at s b ->
  (forall e r x, lents s !! b = Some e -> rrset e = Some r -> rrsets s !! r = Some x -> rrsets s' !! r = Some x) ->
  (forall e c, lents s !! b = Some e -> cents s !! cent e = Some c -> exists c', cents s' !! cent e = Some c' /\ has (flags c') DF_LOCAL = has (flags c) DF_LOCAL) ->
  local_at s' b.
Proof.
  intros H Hb Hc (e & He & Hl) Hset Hcent. destruct (rlist_lookup _ _ _ (so_list _ _ H) Hb) as [e' He']. exists e'. split; [done|].
  pose proof (lookup_weaken _ _ _ _ (core_of _ _ _ He') Hc) as Hk. apply core_Some in Hk as (e0 & He0 & Hr & Hce & _). assert (e0 = e) as -> by congruence.
  destruct Hl as [(r & x & Er & Hx & Hf)|(c & Hcc & Hf)].
  - left. exists r, x. split_and!; [congruence|by eapply Hset|done].
  - right. destruct (Hcent _ _ He Hcc) as (c' & Hc' & Hf'). exists c'. split; congruence.
Qed.
Lemma local_removed p k L T s L' s' b : inv L T s -> removed p k L T s L' s' -> b ∈ L' -> local_at s b -> local_at s' b.
Proof.
  intros H Hrm Hb Hl. pose proof (rm_inv _ _ _ _ _ _ _ Hrm) as H'. destruct (rlist_lookup _ _ _ (so_list _ _ (iv_store _ _ _ H')) Hb) as [e' He'].
  pose proof (lent_cent _ _ _ _ (iv_store _ _ _ H') He') as Hce. pose proof (lookup_weaken _ _ _ _ (core_of _ _ _ He') (rm_core _ _ _ _ _ _ _ Hrm)) as Hk.
  apply core_Some in Hk as (e & He & _ & Hc & _). rewrite <- Hc, (rm_cents _ _ _ _ _ _ _ Hrm) in Hce. destruct Hce as [c Hce]. apply lookup_delete_Some in Hce as [Hp Hce].
  eapply local_keep; [apply H'|done|apply Hrm|done| |].
  - intros e0 r x He0 Hr Hx. assert (e0 = e) as -> by congruence. rewrite (rm_sets _ _ _ _ _ _ _ Hrm (cent e) c (idx e) r); [done|done|done|].
    pose proof (core_of _ _ _ He) as Hk. rewrite Hr in Hk. destruct (lk_set _ _ _ (so_links _ _ (iv_store _ _ _ H)) _ _ _ _ Hk) as (d & y & Hd & Hi & _). congruence.
  - intros e0 d He0 Hd. assert (e0 = e) as -> by congruence. exists d. rewrite (rm_cents _ _ _ _ _ _ _ Hrm), lookup_delete_ne by done. done.
Qed.
Lemma drop_auth_local f : has (drop_flag f DF_AUTH) DF_LOCAL = has f DF_LOCAL.
Proof. unfold has, drop_flag, DF_LOCAL, DF_AUTH. by rewrite <- Z.land_assoc. Qed.
Lemma local_cleared L T s k p c i r x a s' b : inv L T s -> T !! k = Some p -> cents s !! p = Some c -> slot c i = Some r -> rrsets s !! r = Some x -> lent x = Some a ->
  store_ok (unlist_L (Some a) L) s' -> core <$> lents s' ⊆ core <$> lents s -> cents s' = <[p := cleared c i (size_of x)]> (cents s) -> rrsets s' = delete r (rrsets s) ->
  b ∈ L -> b <> a -> local_at s b -> local_at s' b.
Proof.
  intros H Hk Hc Hi Hx Ha H' Hcore Hcs Hrr Hb Hne Hl. eapply local_keep; [exact H'|apply unlist_L_elem; naive_solver|done|done| |].
  - intros e t y He Ht Hy. rewrite Hrr, lookup_delete_ne; [done|]. intros <-. pose proof (core_of _ _ _ He) as Hke. rewrite Ht in Hke.
    destruct (lk_set _ _ _ (so_links _ _ (iv_store _ _ _ H)) _ _ _ _ Hke) as (d & z & _ & _ & Hz & Hlz). congruence.
  - intros e d He Hd. rewrite Hcs. destruct (decide (cent e = p)) as [Hp|Hp]; [|exists d; by rewrite lookup_insert_ne].
    rewrite Hp in *. rewrite lookup_insert_eq. eexists. split; [done|]. assert (d = c) as -> by congruence. cbn [flags cleared with_flags]. apply drop_auth_local.
Qed.

(** One round of a loop over the list: at most the list entry [a] goes. *)
Definition round_post (L1 L2 : list positive) (a : positive) T s (strict : bool) s' : Prop :=
  exists L1' T', inv (L1' ++ L2) T' s' /\ sized T' s' /\ trimmed T s T' s' /\
    (strict = true -> Forall (local_at s) L1 -> Forall (local_at s') L1').
Lemma unlist_mid_cases L1 a L2 o : NoDup (L1 ++ a :: L2) -> (forall b, o = Some b -> b = a) -> exists L1', unlist_L o (L1 ++ a :: L2) = L1' ++ L2.
Proof.
  intros Hnd Ho. destruct o as [b|]; [rewrite (Ho b eq_refl), unlist_L_mid by done; by exists L1|]. exists (L1 ++ [a]). by rewrite <- app_assoc.
Qed.
Lemma round_stays L1 a L2 T s s' strict : inv (L1 ++ a :: L2) T s' -> sized T s' -> trimmed T s T s' -> (strict = true -> Forall (local_at s) L1 -> Forall (local_at s') (L1 ++ [a])) ->
  round_post L1 L2 a T s strict s'.
Proof. intros H1 H2 H3 H4. exists (L1 ++ [a]), T. rewrite <- app_assoc. done. Qed.

(** The entry goes when it has no sets: with its own list entry, if it has one. *)
Lemma del_last L T s k p c : inv L T s -> sized T s -> T !! k = Some p -> cents s !! p = Some c -> num_rrs c = 0 ->
  crun (del_cache_ent p None) s (fun _ s' => exists L', inv L' (delete k T) s' /\ sized (delete k T) s' /\ shrunk p L s L' s' /\ cents s' !! p = None /\ L' = unlist_L (neg_lent c) L /\
    forall b, b ∈ L' -> local_at s b -> local_at s' b).
Proof.
  intros H Hs Hk Hc Hn. eapply crun_mono; [by apply (del_cache_ent_run L T s k p)|]. intros [] s' (L' & Hrm). exists L'.
  split; [apply Hrm|]. split; [by apply (rm_sized _ _ _ _ _ _ _ Hrm)|]. split; [by eapply removed_shrunk|]. split; [rewrite (rm_cents _ _ _ _ _ _ _ Hrm); apply lookup_delete_eq|]. split; [|intros b Hb; by eapply local_removed].
  destruct (rm_list _ _ _ _ _ _ _ Hrm) as (X & HL & HX). assert (Hne : forall a, a ∈ X -> neg_lent c = Some a).
  { intros a Ha. eapply owned_last; [apply H|done..|]. auto. }
  destruct (neg_lent c) as [a|] eqn:E; cbn [unlist_L].
  - rewrite HL. destruct (decide (a ∈ X)) as [Ha|Ha].
    + apply list_filter_iff. intros b. split; [intros Hb ->; done|]. intros Hb Hx. apply Hb. specialize (Hne b Hx). by injection Hne.
    + exfalso. pose proof (so_list _ _ (iv_store _ _ _ (rm_inv _ _ _ _ _ _ _ Hrm))) as Hl.
      assert (Hin : a ∈ L').
      { rewrite HL. apply list_elem_of_filter. split; [done|]. destruct (lk_neg _ _ _ (so_links _ _ (iv_store _ _ _ H)) _ _ _ Hc E) as [i Hi].
        eapply store_lk; [apply H|done]. }
      destruct (rlist_lookup _ _ _ Hl Hin) as [e He]. pose proof (lent_cent _ _ _ _ (iv_store _ _ _ (rm_inv _ _ _ _ _ _ _ Hrm)) He) as Hce.
      apply core_of in He. pose proof (lookup_weaken _ _ _ _ He (rm_core _ _ _ _ _ _ _ Hrm)) as Hold.
      destruct (lk_neg _ _ _ (so_links _ _ (iv_store _ _ _ H)) _ _ _ Hc E) as [i Hi]. rewrite Hi in Hold. injection Hold as _ Hp _.
      rewrite (rm_cents _ _ _ _ _ _ _ Hrm), <- Hp, lookup_delete_eq in Hce. by destruct Hce.
  - rewrite HL. apply filter_nothing. intros a _ Ha. by specialize (Hne a Ha).
Qed.


Lemma neg_no_sets L s p c a : store_ok L s -> cents s !! p = Some c -> neg_lent c = Some a -> num_rrs c = 0.
Proof.
  intros H Hc Ha. pose proof (so_cents _ _ H _ _ Hc) as [_ Hn _ _]. rewrite Hn. unfold neg_lent, slots in *. by destruct (side c).
Qed.
Lemma oldest_step L1 a L2 T s e : inv (L1 ++ a :: L2) T s -> sized T s -> lents s !! a = Some e ->
  crun (loc ← listed_local e;
        if loc : bool then mret tt else
        let ce := cent e in
        _ ← (if is_some (rrset e) then n ← del_cent_rrset_by_index ce (idx e); add_size (- n) else mret tt : cm unit);
        c ← get_cent ce;
        if num_rrs c =? 0 then del_cache_ent ce None else mret tt) s (fun _ s' => round_post L1 L2 a T s true s').
Proof.
  intros H Hs Ha. pose proof (dl_nodup _ _ _ (so_list _ _ (iv_store _ _ _ H))) as Hnd.
  destruct (lent_cent _ _ _ _ (iv_store _ _ _ H) Ha) as [c Hc]. destruct (iv_lents _ _ _ H _ _ Ha) as [k Hk]. set (p := cent e) in *.
  step. eapply crun_mono; [apply (listed_local_run _ s a e (iv_store _ _ _ H) Ha)|]. intros loc ? [-> Hloc]. destruct loc.
  { step. apply round_stays; [done|done|apply trimmed_refl|]. intros _ HL. apply Forall_app. split; [done|]. constructor; [auto|done]. }
  step. fold p. destruct (rrset e) as [r|] eqn:Er; cbn [is_some].
  - pose proof (core_of _ _ _ Ha) as Hka. rewrite Er in Hka. fold p in Hka.
    destruct (lk_set _ _ _ (so_links _ _ (iv_store _ _ _ H)) _ _ _ _ Hka) as (d & x & Hd & Hi & Hx & Hl). assert (d = c) as -> by congruence.
    eapply crun_mono; [apply (del_set_inv _ T s k p c (idx e) r x H Hs Hk Hc Hi Hx)|]. intros [] s1 (H1 & Hs1 & Hsh & Hcs & Hrr).
    rewrite Hl, unlist_L_mid in * by done. set (c1 := cleared c (idx e) (size_of x)) in *. assert (Hc1 : cents s1 !! p = Some c1) by (by rewrite Hcs, lookup_insert_eq).
    assert (Hloc1 : Forall (local_at s) L1 -> Forall (local_at s1) L1).
    { rewrite !Forall_forall. intros HL b Hb. eapply (local_cleared _ T s k p c (idx e) r x a s1 b); try done.
      - rewrite unlist_L_mid by done. apply H1.
      - apply Hsh.
      - set_solver.
      - intros ->. apply NoDup_app in Hnd as (_ & Hnd & _). apply (Hnd a Hb). set_solver.
      - by apply HL. }
    assert (Htr : trimmed T s T s1) by (by eapply shrunk_trimmed).
    step. eapply crun_get_cent; [exact Hc1|]. apply crun_if; intros E.
    + eapply crun_mono; [apply (del_last _ T s1 k p c1 H1 Hs1 Hk Hc1); lia|]. intros [] s2 (L' & H2 & Hs2 & Hsh2 & Hnc & HL' & Hloc2).
      assert (Hneg : neg_lent c1 = None).
      { change (neg_lent c1) with (neg_lent (upd_slot c (idx e) None)). destruct (upd_slot_fields c (idx e) None) as (_ & _ & _ & _ & _ & _ & _ & ->).
        unfold neg_lent. destruct (side c) eqn:Es; [|done]. unfold slot, slots in Hi. rewrite Es in Hi. by destruct (0 <=? idx e). }
      rewrite Hneg in HL'. cbn in HL'. subst L'. exists L1, (delete k T). split; [done|]. split; [done|]. split.
      * eapply trimmed_trans; [exact Htr|]. by eapply shrunk_gone.
      * intros _ HL. specialize (Hloc1 HL). rewrite Forall_forall in *. intros b Hb. apply Hloc2; [set_solver|auto].
    + step. exists L1, T. split_and!; try done.
  - pose proof (core_of _ _ _ Ha) as Hka. rewrite Er in Hka. fold p in Hka. destruct (lk_cent _ _ _ (so_links _ _ (iv_store _ _ _ H)) _ _ _ Hka) as (d & Hd & Hn).
    assert (d = c) as -> by congruence. do 3 step. rewrite (neg_no_sets _ _ _ _ _ (iv_store _ _ _ H) Hc Hn). cbn [Z.eqb].
    eapply crun_mono; [apply (del_last _ T s k p c H Hs Hk Hc)|]; [by eapply neg_no_sets; [apply H|..]|]. intros [] s2 (L' & H2 & Hs2 & Hsh2 & Hnc & HL' & Hloc2).
    rewrite Hn, unlist_L_mid in HL' by done. subst L'. exists L1, (delete k T). split; [done|]. split; [done|]. split.
    + by eapply shrunk_gone.
    + intros _ HL. rewrite Forall_forall in *. intros b Hb. apply Hloc2; [set_solver|auto].
Qed.
Lemma slot_total R c i r : cent_ok R c -> slot c i = Some r -> 0 <= i < NRRTOT.
Proof.
  intros Hok Hi. pose proof (slot_in _ _ _ Hi) as Hin. destruct (negative c) eqn:E.
  - unfold slot_count in Hin. rewrite (negative_slots _ _ Hok E) in Hin. cbn in Hin. lia.
  - destruct (slots_length _ _ Hok E) as (? & ext & _ & _ & _ & Hl). unfold slot_count in Hin. rewrite Hl in Hin. unfold NRRTOT. destruct ext; lia.
Qed.
Lemma timedout_nxdom_run R s c : cent_ok R c -> negative c = true -> has (flags c) DF_LOCAL = false ->
  crun (timedout_nxdom c) s (fun b s' => (exists n, s' = set_asked n s) /\ if b : bool then late_neg s c else timely_neg s c).
Proof.
  intros Hok Hn Hl. destruct (the_neg_ok _ _ Hok Hn) as (l & t & n & E & Es). unfold timedout_nxdom, time. step. apply crun_lift. rewrite E. cbn [succeeds]. step.
  apply crun_Ok with (a := clock (env s) (asked s)) (s' := set_asked (S (asked s)) s); [done|]. step. split; [by eexists|].
  destruct (Z.ltb_spec (n + CLAT_ADJ t) (clock (env s) (asked s))); [by exists l, t, n, (asked s)|right; exists l, t, n, (asked s); split; [done|lia]].
Qed.
(** The entry without sets, unless it is negative and still good. *)
Lemma gone_run L T s k p c : inv L T s -> sized T s -> T !! k = Some p -> cents s !! p = Some c ->
  crun (gone ← (if num_rrs c =? 0 then
                  if negb (negative c) then mret true
                  else if has (flags c) DF_LOCAL then mret false else timedout_nxdom c
                else mret false : cm bool);
        if gone : bool then del_cache_ent p None else mret tt) s (fun _ s' =>
    exists L' T', inv L' T' s' /\ sized T' s' /\ trimmed T s T' s' /\ (L' = L \/ L' = unlist_L (neg_lent c) L)).
Proof.
  intros H Hs Hk Hc. pose proof (so_cents _ _ (iv_store _ _ _ H) _ _ Hc) as Hok. step.
  apply (crun_mono _ _ (fun go s' => (exists n, s' = set_asked n s) /\ (go = true -> num_rrs c = 0))).
  { apply crun_if; intros E; [|step; split; [exists (asked s); by destruct s|done]]. destruct (negative c) eqn:En; cbn [negb].
    - destruct (has (flags c) DF_LOCAL) eqn:El; [step; split; [exists (asked s); by destruct s|done]|].
      eapply crun_mono; [by eapply timedout_nxdom_run|]. intros b s' [Hb _]. split; [done|lia].
    - step. split; [exists (asked s); by destruct s|lia]. }
  intros go ? ([n ->] & Hgo). destruct go.
  - eapply crun_mono; [apply (del_last L T (set_asked n s) k p c); [by apply inv_ask|done..|auto]|].
    intros [] s' (L' & H' & Hs' & Hsh & Hnc & -> & _). exists (unlist_L (neg_lent c) L), (delete k T). split_and!; try done; [|by right].
    eapply trimmed_trans; [apply (trimmed_ask T n)|]. by eapply shrunk_gone.
  - step. exists L, T. split_and!; [by apply inv_ask|done|apply trimmed_ask|by left].
Qed.
Lemma timedout_step L1 a L2 T s e : inv (L1 ++ a :: L2) T s -> sized T s -> lents s !! a = Some e ->
  crun (loc ← listed_local e;
        if loc : bool then mret tt else
        let ce := cent e in
        _ ← (if is_some (rrset e) then _ ← purge_rrset ce (idx e) false; mret tt else mret tt : cm unit);
        c ← get_cent ce;
        gone ← (if num_rrs c =? 0 then
                  if negb (negative c) then mret true
                  else if has (flags c) DF_LOCAL then mret false else timedout_nxdom c
                else mret false : cm bool);
        if gone : bool then del_cache_ent ce None else mret tt) s (fun _ s' => round_post L1 L2 a T s false s').
Proof.
  intros H Hs Ha. pose proof (dl_nodup _ _ _ (so_list _ _ (iv_store _ _ _ H))) as Hnd.
  destruct (lent_cent _ _ _ _ (iv_store _ _ _ H) Ha) as [c Hc]. destruct (iv_lents _ _ _ H _ _ Ha) as [k Hk]. set (p := cent e) in *.
  step. eapply crun_mono; [apply (listed_local_run _ s a e (iv_store _ _ _ H) Ha)|]. intros loc ? [-> Hloc]. destruct loc.
  { step. by apply round_stays; [| |apply trimmed_refl|]. }
  step. fold p. destruct (rrset e) as [r|] eqn:Er; cbn [is_some].
  - pose proof (core_of _ _ _ Ha) as Hka. rewrite Er in Hka. fold p in Hka.
    destruct (lk_set _ _ _ (so_links _ _ (iv_store _ _ _ H)) _ _ _ _ Hka) as (d & x & Hd & Hi & Hx & Hl). assert (d = c) as -> by congruence.
    assert (Hneg : neg_lent c = None).
    { unfold neg_lent. destruct (side c) eqn:Es; [|done]. unfold slot, slots in Hi. rewrite Es in Hi. by destruct (0 <=? idx e). }
    step. eapply crun_mono; [apply (purge_rrset_run _ T s k p c (idx e) H Hs Hk Hc (slot_total _ _ _ _ (so_cents _ _ (iv_store _ _ _ H) _ _ Hc) Hi))|].
    intros b s1 [(-> & n & ->)|(-> & r' & x' & Hi' & Hx' & H1 & Hs1 & Hsh & Hcs & Hrr)]; step.
    + step. eapply crun_get_cent; [exact Hc|]. eapply crun_mono; [apply (gone_run (L1 ++ a :: L2) T (set_asked n s) k p c); [by apply inv_ask|done..]|].
      intros [] s2 (L' & T' & H2 & Hs2 & Htr & HL). assert (L' = L1 ++ a :: L2) as -> by (rewrite Hneg in HL; by destruct HL).
      exists (L1 ++ [a]), T'. rewrite <- app_assoc. split_and!; try done. eapply trimmed_trans; [apply (trimmed_ask T n)|done].
    + assert (r' = r) as -> by congruence. assert (x' = x) as -> by congruence. rewrite Hl, unlist_L_mid in * by done.
      set (c1 := cleared c (idx e) (size_of x)) in *. assert (Hc1 : cents s1 !! p = Some c1) by (by rewrite Hcs, lookup_insert_eq).
      step. eapply crun_get_cent; [exact Hc1|]. eapply crun_mono; [apply (gone_run _ T s1 k p c1 H1 Hs1 Hk Hc1)|].
      intros [] s2 (L' & T' & H2 & Hs2 & Htr & HL).
      assert (Hneg1 : neg_lent c1 = None).
      { change (neg_lent c1) with (neg_lent (upd_slot c (idx e) None)). by destruct (upd_slot_fields c (idx e) None) as (_ & _ & _ & _ & _ & _ & _ & ->). }
      assert (L' = L1 ++ L2) as -> by (rewrite Hneg1 in HL; by destruct HL). exists L1, T'. split_and!; try done.
      eapply trimmed_trans; [by eapply shrunk_trimmed|done].
  - pose proof (core_of _ _ _ Ha) as Hka. rewrite Er in Hka. fold p in Hka. destruct (lk_cent _ _ _ (so_links _ _ (iv_store _ _ _ H)) _ _ _ Hka) as (d & Hd & Hn).
    assert (d = c) as -> by congruence. do 3 step. eapply crun_mono; [apply (gone_run _ T s k p c H Hs Hk Hc)|].
    intros [] s2 (L' & T' & H2 & Hs2 & Htr & HL). rewrite Hn, unlist_L_mid in HL by done.
    destruct HL as [->| ->]; [exists (L1 ++ [a]), T'; rewrite <- app_assoc|exists L1, T']; done.
Qed.

Lemma purge_timedout_run sz lazy L2 : forall fuel L1 T s, inv (L1 ++ L2) T s -> sized T s -> (length L2 <= fuel)%nat ->
  crun (purge_timedout fuel (first_of L2 None) sz lazy) s (fun _ s' => exists L' T', inv L' T' s' /\ sized T' s' /\ trimmed T s T' s').
Proof.
  induction L2 as [|a L2 IH]; intros fuel L1 T s H Hs Hf.
  { destruct fuel; cbn [first_of purge_timedout]; step; exists (L1 ++ []), T; split_and!; try done; apply trimmed_refl. }
  destruct fuel as [|fuel]; [cbn in Hf; lia|]. cbn [first_of purge_timedout]. do 2 step. apply crun_if; intros E; [step; exists (L1 ++ a :: L2), T; split_and!; try done; apply trimmed_refl|].
  destruct (rlist_mid _ _ _ _ (so_list _ _ (iv_store _ _ _ H))) as (e & He & Hnx & _). step. eapply crun_get_lent; [exact He|]. cbv beta zeta.
  apply crun_assoc. step. eapply crun_mono; [apply (timedout_step L1 a L2 T s e H Hs He)|]. intros [] s1 (L1' & T1 & H1 & Hs1 & Htr & _). rewrite Hnx.
  eapply crun_mono; [apply (IH fuel L1' T1 s1 H1 Hs1); cbn in Hf; lia|]. intros [] s2 (L' & T' & H2 & Hs2 & Htr2). exists L', T'. split_and!; try done. by eapply trimmed_trans.
Qed.
Lemma purge_oldest_run sz L2 : forall fuel L1 T s, inv (L1 ++ L2) T s -> sized T s -> (length L2 <= fuel)%nat -> Forall (local_at s) L1 ->
  crun (purge_oldest fuel (first_of L2 None) sz) s (fun _ s' => exists L' T', inv L' T' s' /\ sized T' s' /\ trimmed T s T' s' /\
    (cache_size s' <= sz \/ Forall (local_at s') L')).
Proof.
  induction L2 as [|a L2 IH]; intros fuel L1 T s H Hs Hf HL.
  { destruct fuel; cbn [first_of purge_oldest]; step; exists (L1 ++ []), T; split_and!; try done; try apply trimmed_refl; right; by rewrite app_nil_r. }
  destruct fuel as [|fuel]; [cbn in Hf; lia|]. cbn [first_of purge_oldest]. do 2 step. apply crun_if; intros E.
  { step. exists (L1 ++ a :: L2), T. split_and!; try done; left; lia. }
  destruct (rlist_mid _ _ _ _ (so_list _ _ (iv_store _ _ _ H))) as (e & He & Hnx & _). step. eapply crun_get_lent; [exact He|]. cbv beta zeta.
  apply crun_assoc. step. eapply crun_mono; [apply (oldest_step L1 a L2 T s e H Hs He)|]. intros [] s1 (L1' & T1 & H1 & Hs1 & Htr & HL1). rewrite Hnx.
  eapply crun_mono; [apply (IH fuel L1' T1 s1 H1 Hs1); [cbn in Hf; lia|auto]|]. intros [] s2 (L' & T' & H2 & Hs2 & Htr2 & Hb).
  exists L', T'. split_and!; try done. by eapply trimmed_trans.
Qed.

(** * [purge_cache] *)
Lemma store_relinked L L' s m h t : store_ok L s -> rlist L' (relinked s m h t) -> L' ≡ₚ L -> core <$> m = core <$> lents s -> store_ok L' (relinked s m h t).
Proof.
  intros H Hl HP Hc. apply (store_intro _ (core <$> lents s)); [done|done| |apply H|apply H|].
  - intros a Ha. rewrite HP. by eapply store_dom.
  - intros q Hq. apply (so_brk _ _ H). by rewrite lookup_fmap, fmap_is_Some in Hq.
Qed.
Lemma lents_relinked T s m h t : lents_in T s -> core <$> m = core <$> lents s -> lents_in T (relinked s m h t).
Proof. intros H Hc a e Ha. cbn in Ha. destruct (core_lookup _ _ _ _ Hc Ha) as (e' & He' & E). injection E as _ <- _. by eapply H. Qed.
Lemma sort_inv L T s : inv L T s -> Z.of_nat (size (lents s)) < 2 ^ 32 ->
  crun (_ ← sort_rrl; sets (set_sort true)) s (fun _ s' => exists L', inv L' T s' /\ cents s' = cents s /\ rrsets s' = rrsets s /\ cache_size s' = cache_size s /\ trimmed T s T s').
Proof.
  intros [H1 H2 H3 H4] Hsz. pose proof (store_length _ _ H1). step. eapply crun_mono; [apply (sort_rrl_run L s (so_list _ _ H1) (store_dated _ _ H1)); lia|].
  intros [] ? (L' & m & h & t & -> & Hl & HP & _ & Hc). step. exists L'. split; [|split_and!; try done].
  - pose proof (store_relinked L L' s m h t H1 Hl HP Hc) as [K1 K2 K3 K4 K5]. split; [by split|by apply (tbl_ext _ s)|done|by apply (lents_relinked T s m h t)].
  - split; try done. change (core <$> m ⊆ core <$> lents s). by rewrite Hc.
Qed.
Lemma trimmed_size T s T' s' : trimmed T s T' s' -> (size (lents s') <= size (lents s))%nat.
Proof. intros H. rewrite <- (map_size_fmap core (lents s)), <- (map_size_fmap core (lents s')). apply map_subseteq_size, H. Qed.
Definition few s : Prop := insert_sort s = true \/ Z.of_nat (size (lents s)) < 2 ^ 32.
Lemma purge_cache_run sz lazy L T s : inv L T s -> sized T s -> few s ->
  crun (purge_cache sz lazy) s (fun _ s' => exists L' T', inv L' T' s' /\ sized T' s' /\ trimmed T s T' s' /\
    (cache_size s' <= sz \/ Forall (local_at s') L')).
Proof.
  intros H Hs Hfew. unfold purge_cache. do 4 step. pose proof (so_list _ _ (iv_store _ _ _ H)) as [_ _ Hh _]. cbn in Hh. rewrite Hh.
  step. eapply crun_mono; [apply (purge_timedout_run sz lazy L (size (lents s)) [] T s H Hs (store_length _ _ (iv_store _ _ _ H)))|].
  intros [] s1 (L1 & T1 & H1 & Hs1 & Htr1). do 2 step. apply crun_if; intros E; [step; exists L1, T1; split_and!; try done; left; lia|]. do 2 step.
  step. apply (crun_mono _ _ (fun _ s2 => exists L2, inv L2 T1 s2 /\ sized T1 s2 /\ trimmed T1 s1 T1 s2)).
  { destruct (insert_sort s1) eqn:Es; cbn [negb]; [step; exists L1; split_and!; try done; apply trimmed_refl|].
    eapply crun_mono; [apply (sort_inv L1 T1 s1 H1)|].
    - pose proof (trimmed_size _ _ _ _ Htr1). destruct Hfew as [Hf|Hf]; [apply (tr_sort _ _ _ _ Htr1) in Hf; congruence|lia].
    - intros [] s2 (L2 & H2 & Hc & _ & Hsz & Htr). exists L2. split; [done|]. split; [|done]. unfold sized in *. by rewrite Hsz, Hc. }
  intros [] s2 (L2 & H2 & Hs2 & Htr2). do 4 step. pose proof (so_list _ _ (iv_store _ _ _ H2)) as [_ _ Hh2 _]. cbn in Hh2. rewrite Hh2.
  eapply crun_mono; [apply (purge_oldest_run sz L2 (size (lents s2)) [] T1 s2 H2 Hs2 (store_length _ _ (iv_store _ _ _ H2))); constructor|].
  intros [] s3 (L3 & T3 & H3 & Hs3 & Htr3 & Hb). exists L3, T3. split_and!; try done. eapply trimmed_trans; [exact Htr1|]. by eapply trimmed_trans.
Qed.
