(* ===== verification/DnsCent.v ===== *)
(** Purging one entry of pdnsd's cache, and changing one in place. *)
From S2P Require Import Prelude CLib Rhn DnsName DnsNameProps DnsCompress DnsMessage HevList DnsStore DnsCents DnsHash DnsCache DnsRrl DnsHeap DnsEntry DnsFree DnsCopy DnsTable DnsPurge.

Implicit Types (T : gmap (list label) positive) (K N : list label) (s : cache) (L : list positive).

Definition asked_only s s' : Prop := exists n, s' = set_asked n s.
Lemma asked_only_refl s : asked_only s s.
Proof. exists (asked s). by destruct s. Qed.
Lemma asked_trans s1 s2 s3 : asked_only s1 s2 -> asked_only s2 s3 -> asked_only s1 s3.
Proof. intros [n ->] [m ->]. by exists m. Qed.
Lemma asked_intro n s : asked_only s (set_asked n s).
Proof. by exists n. Qed.
#[export] Hint Resolve asked_only_refl asked_intro : core.

(** * Stale references *)
Lemma cent_of_slot L T s p c i : inv L T s -> cents s !! p = Some c -> 0 <= i < NRRMU -> GET_RRSMU c i = Ok (slot c i).
Proof. intros H Hc Hi. by apply (get_rrsmu_ok (rrsets s)); [apply (so_cents _ _ (iv_store _ _ _ H) p)|]. Qed.
Lemma stale_run L T s p c n i : inv L T s -> cents s !! p = Some c -> 0 <= i < NRRMU -> crun (stale_reference p n i) s (fun _ s' => asked_only s s').
Proof.
  intros H Hc Hi. destruct (so_cents _ _ (iv_store _ _ _ H) p c Hc) as [_ _ _ (N & HN & Hq)]. unfold stale_reference. do 2 step.
  apply crun_if; intros E; [by step|]. step. apply crun_lift. rewrite Hq, (rhnsegcnt_enc _ HN). cbn [succeeds]. step.
  apply (crun_mono _ _ (fun o s' => s' = s /\ forall r, o = Some r -> is_Some (rrsets s !! r))).
  { assert (Hslot : forall q d r, cents s !! q = Some d -> slot d i = Some r -> is_Some (rrsets s !! r)).
    { intros q d r Hd Hr. by eapply (lk_live _ _ _ (so_links _ _ (iv_store _ _ _ H))). }
    apply crun_if; intros E1; [apply crun_lift; rewrite (cent_of_slot L T s p c i H Hc Hi); cbn [succeeds]; eauto|].
    apply crun_if; intros E2; [|by step]. step. apply crun_lift. destruct (skipsegs_enc (Z.to_nat (zlen N - n)) N HN) as (k & -> & Hk). cbn [succeeds]. step.
    rewrite Nat2Z.id, Hk. destruct (dns_lookup_run' T s (drop (Z.to_nat (zlen N - n)) N) (iv_table _ _ _ H) (name_ok_drop _ _ HN)) as (loc & El & _).
    eapply crun_Ok; [exact El|]. cbv beta iota. destruct (T !! _) as [q|] eqn:ET; [|by step]. destruct (inv_lookup _ _ _ _ _ H ET) as (d & _ & Hd & _).
    do 2 step. apply crun_lift. rewrite (cent_of_slot L T s q d i H Hd Hi). cbn [succeeds]. eauto. }
  intros o ? [-> Ho]. destruct o as [r|]; [|by step]. destruct (Ho r eq_refl) as [x Hx]. do 2 step. apply crun_if; intros E1; [by step|].
  apply crun_if; intros E2; [by step|]. unfold timedout. do 2 step. by step.
Qed.

(** * [purge_all_rrsets] *)
Lemma live_sets L s p c i r : store_ok L s -> cents s !! p = Some c -> slot c i = Some r -> is_Some (rrsets s !! r).
Proof. intros H Hc Hi. by eapply (lk_live _ _ _ (so_links _ _ H)). Qed.
(** A test leaves everything as it is, and counts what is late. *)
Lemma purge_loop_test n : forall i L s p c x y z, store_ok L s -> cents s !! p = Some c -> 0 <= i -> i + Z.of_nat n <= slot_count c ->
  crun (purge_loop n i p true x y z) s (fun v s' => asked_only s s' /\ x <= v.1.1 /\
    (v.1.1 = x -> forall j r xr, i <= j < i + Z.of_nat n -> slot c j = Some r -> rrsets s !! r = Some xr -> timely s xr)).
Proof.
  induction n as [|n IH]; intros i L s p c x y z H Hc Hi Hn; cbn [purge_loop]; [step; split; [done|]; cbn; split; [lia|intros; lia]|]. do 3 step. apply crun_lift.
  rewrite (rrarr_index_ok _ _ _ (so_cents _ _ H p c Hc)) by lia. cbn [succeeds]. step. eapply crun_mono; [apply must_go_run; intros r Hr; by eapply live_sets|].
  intros go ? ([k ->] & Hgo & Hstay). assert (H' : store_ok L (set_asked k s)) by (by apply store_ask).
  assert (Hrec : forall x' y z, x <= x' -> (go = true -> x < x') -> crun (purge_loop n (i + 1) p true x' y z) (set_asked k s) (fun v s' => asked_only s s' /\ x <= v.1.1 /\
    (v.1.1 = x -> forall j r xr, i <= j < i + Z.of_nat (S n) -> slot c j = Some r -> rrsets s !! r = Some xr -> timely s xr))).
  { intros x' y' z' Hx Hlt. eapply crun_mono; [apply (IH (i + 1) L (set_asked k s) p c); [done|done|lia|lia]|]. intros v s' (Hs' & Hv & Hall).
    split; [eapply asked_trans; [|exact Hs']; done|]. split; [lia|]. intros Hvx j r xr Hj Hr Hxr. destruct (decide (j = i)) as [->|Hji].
    - destruct go; [specialize (Hlt eq_refl); lia|]. exact (Hstay eq_refl r xr Hr Hxr).
    - apply (Hall ltac:(lia) j r xr); [lia|done|done]. }
  destruct go; [do 2 step; apply Hrec; lia|]. apply crun_if; intros _; apply Hrec; lia || done.
Qed.
Lemma slot_count_emptied c c' n : emptied c c' n -> slot_count c' = slot_count c.
Proof. intros []. unfold slot_count. lia. Qed.
(** What purging leaves of the entry [c] of [s]: the entry [d] of [s']. *)
Record pruned s (c : dns_cent_t) s' (d : dns_cent_t) : Prop := {
  pn_env : env s' = env s;
  pn_name : qname d = qname c;
  pn_flags : flags d = flags c \/ flags d = drop_flag (flags c) DF_AUTH;
  pn_neg : forall l t n, side c = Neg l t n -> side d = Neg l t n;
  pn_slots : forall j,
    slot d j = None /\ (forall r, slot c j = Some r -> exists x, rrsets s !! r = Some x /\ late s x) \/
    slot d j = slot c j /\ forall r, slot c j = Some r -> rrsets s' !! r = rrsets s !! r
}.
Lemma pruned_refl s s' c : env s' = env s -> rrsets s' = rrsets s -> pruned s c s' c.
Proof. intros He Hr. split; [done|done|by left|done|]. intros j. right. by rewrite Hr. Qed.
Lemma late_env s s' x : env s' = env s -> late s' x -> late s x.
Proof. unfold late. by intros ->. Qed.
Lemma timely_env s s' x : env s' = env s -> timely s' x -> timely s x.
Proof. unfold timely. by intros ->. Qed.
Lemma drop_auth_twice f : drop_flag (drop_flag f DF_AUTH) DF_AUTH = drop_flag f DF_AUTH.
Proof. unfold drop_flag. by rewrite <- Z.land_assoc, Z.land_diag. Qed.
Lemma pruned_trans s1 c1 s2 c2 s3 c3 : pruned s1 c1 s2 c2 -> pruned s2 c2 s3 c3 -> pruned s1 c1 s3 c3.
Proof.
  intros [A1 A2 A3 A4 A5] [B1 B2 B3 B4 B5]. split; [congruence|congruence| |auto|].
  - destruct A3 as [A3|A3], B3 as [B3|B3]; rewrite B3, A3, ?drop_auth_twice; auto.
  - intros j. destruct (A5 j) as [[An Al]|[Ae As]], (B5 j) as [[Bn Bl]|[Be Bs]].
    + left. by split.
    + left. split; [congruence|done].
    + left. split; [done|]. intros r Hr. destruct (Bl r) as (x & Hx & Hl); [congruence|]. exists x. split; [by rewrite <- (As r Hr)|by eapply late_env].
    + right. split; [congruence|]. intros r Hr. rewrite Bs, As; [done|done|congruence].
Qed.
Lemma pruned_timely s c s' d j r x : pruned s c s' d -> timely s x -> slot d j = Some r -> rrsets s !! r = Some x -> rrsets s' !! r = Some x /\ timely s' x.
Proof.
  intros [P1 _ _ _ P5] Ht Hd Hr. split; [|by eapply (timely_env s' s)]. destruct (P5 j) as [[Hn _]|[He Hs]]; [congruence|]. rewrite Hs; [done|congruence].
Qed.
Lemma pruned_cleared L s p c i r x s' : store_ok L s -> cents s !! p = Some c -> 0 <= i < slot_count c -> slot c i = Some r -> rrsets s !! r = Some x -> late s x ->
  env s' = env s -> rrsets s' = delete r (rrsets s) -> pruned s c s' (cleared c i (size_of x)).
Proof.
  intros H Hc Hi Hsl Hx Hl He Hr. pose proof (so_cents _ _ H p c Hc) as Hok. destruct (upd_slot_fields c i None) as (Fn & _).
  assert (Hslot : forall j, slot (cleared c i (size_of x)) j = if decide (j = i) then None else slot c j) by (intros j; by apply (slot_upd (rrsets s))).
  split; [done|exact Fn|by right| |].
  - intros l t n E. unfold slot, slots in Hsl. rewrite E in Hsl. by destruct (0 <=? i).
  - intros j. rewrite Hslot. destruct (decide (j = i)) as [->|Hji].
    + left. split; [done|]. intros r' Hr'. assert (r' = r) as -> by congruence. by exists x.
    + right. split; [done|]. intros r' Hr'. rewrite Hr, lookup_delete_ne; [done|]. intros ->. apply Hji. eapply (lk_inj _ _ _ (so_links _ _ H) p c j p c i r'); done.
Qed.
(** The slots from [i] on are purged; [y] counts what stays, [z] what stays in the second
    array. *)
Definition purged_from (n : nat) i s c (x y z : Z) (v : Z * Z * Z) s' c' : Prop :=
  slot_count c' = slot_count c /\ negative c' = negative c /\ x <= v.1.1 /\ y <= v.1.2 /\ z <= v.2 /\ pruned s c s' c' /\
  (forall j, j < i -> slot c' j = slot c j) /\
  (forall j r xr, i <= j < i + Z.of_nat n -> slot c' j = Some r -> rrsets s' !! r = Some xr -> timely s' xr) /\
  (v.1.2 = y -> forall j, i <= j < i + Z.of_nat n -> slot c' j = None) /\
  (v.2 = z -> forall j, i <= j < i + Z.of_nat n -> NRRMU <= j -> slot c' j = None).
Lemma purge_loop_run n : forall i L T s k p c x y z, inv L T s -> sized T s -> T !! k = Some p -> cents s !! p = Some c -> 0 <= i -> i + Z.of_nat n <= slot_count c ->
  crun (purge_loop n i p false x y z) s (fun v s' => exists L' c', inv L' T s' /\ sized T s' /\ shrunk p L s L' s' /\ cents s' !! p = Some c' /\ purged_from n i s c x y z v s' c').
Proof.
  induction n as [|n IH]; intros i L T s k p c x y z H Hs Hk Hc Hi Hn; cbn [purge_loop].
  { step. exists L, c. split_and!; try done; [destruct s; apply (shrunk_ask p L asked)|]. split_and!; try done; try (intros; lia). by apply pruned_refl. }
  pose proof (so_cents _ _ (iv_store _ _ _ H) p c Hc) as Hok. do 3 step. apply crun_lift. rewrite (rrarr_index_ok _ _ _ Hok) by lia. cbn [succeeds]. step.
  eapply crun_mono; [apply must_go_run; intros r Hr; eapply live_sets; [apply H|done..]|]. intros go ? ([a ->] & Hgo & Hstay). assert (Ha : inv L T (set_asked a s)) by (by apply inv_ask). destruct go.
  - destruct (Hgo eq_refl) as (r & xr & Hsl & Hx & Hlate). step. eapply crun_mono; [apply (del_set_inv L T (set_asked a s) k p c i r xr Ha Hs Hk Hc Hsl Hx)|].
    intros [] s1 (H1 & Hs1 & Hsh & Hcs & Hrr). set (c1 := cleared c i (size_of xr)) in *. assert (Hc1 : cents s1 !! p = Some c1) by (by rewrite Hcs; cbn; rewrite lookup_insert_eq).
    pose proof (cleared_emptied _ _ i (size_of xr) Hok ltac:(lia)) as Hem. fold c1 in Hem. pose proof (slot_count_emptied _ _ _ Hem) as Hcnt.
    assert (Hslot : forall j, slot c1 j = if decide (j = i) then None else slot c j) by (intros j; apply (slot_upd _ _ i None j Hok); lia).
    assert (Hp1 : pruned s c s1 c1) by (apply (pruned_cleared L s p c i r xr s1 (iv_store _ _ _ H) Hc); try done; [lia|apply Hsh]).
    eapply crun_mono; [apply (IH (i + 1) _ T s1 k p c1 _ y z H1 Hs1 Hk Hc1); lia|]. intros v s2 (L' & c' & H2 & Hs2 & Hsh2 & Hc2 & Hct2 & Hn2 & Hx2 & Hy & Hz & Hp & Hb & Htime & Hnum & Haft).
    assert (Hc'i : slot c' i = None) by (rewrite Hb by lia; by rewrite Hslot, decide_True).
    exists L', c'. split_and!; try done; [eapply shrunk_trans; [apply (shrunk_ask p L a)|]; by eapply shrunk_trans|]. split_and!; try done; try lia.
    + rewrite Hn2. apply Hem.
    + by eapply pruned_trans.
    + intros j Hj. rewrite Hb by lia. by rewrite Hslot, decide_False by lia.
    + intros j r' xr' Hj Hr'. destruct (decide (j = i)) as [->|Hji]; [congruence|]. apply (Htime j); [lia|done].
    + intros Hv j Hj. destruct (decide (j = i)) as [->|Hji]; [done|]. apply Hnum; [done|lia].
    + intros Hv j Hj Hj8. destruct (decide (j = i)) as [->|Hji]; [done|]. apply Haft; [done|lia|done].
  - assert (Hrec : forall y' z', y <= y' -> z <= z' -> (y' = y -> slot c i = None) -> (z' = z -> NRRMU <= i -> slot c i = None) ->
      crun (purge_loop n (i + 1) p false x y' z') (set_asked a s) (fun v s' => exists L' c', inv L' T s' /\ sized T s' /\ shrunk p L s L' s' /\ cents s' !! p = Some c' /\ purged_from (S n) i s c x y z v s' c')).
    { intros y' z' Hy' Hz' Hynone Hnone. eapply crun_mono; [apply (IH (i + 1) L T (set_asked a s) k p c x y' z' Ha Hs Hk Hc); lia|].
      intros v s2 (L' & c' & H2 & Hs2 & Hsh2 & Hc2 & Hct2 & Hn2 & Hx2 & Hy & Hz & Hp & Hb & Htime & Hnum & Haft).
      assert (Hp' : pruned s c s2 c') by (eapply pruned_trans; [by apply (pruned_refl s (set_asked a s))|exact Hp]).
      assert (Hc'i : slot c' i = slot c i) by (apply Hb; lia).
      exists L', c'. split_and!; try done; [by eapply shrunk_trans; [apply (shrunk_ask p L a)|]|]. split_and!; try done; try lia.
      - intros j Hj. apply Hb. lia.
      - intros j r' xr' Hj Hr' Hxr'. destruct (decide (j = i)) as [->|Hji]; [|apply (Htime j r' xr'); [lia|done|done]].
        rewrite Hc'i in Hr'. destruct (live_sets _ _ _ _ _ _ (iv_store _ _ _ H) Hc Hr') as [x0 Hx0].
        destruct (pruned_timely _ _ _ _ i r' x0 Hp' (Hstay eq_refl r' x0 Hr' Hx0)) as [Hx1 Ht]; [congruence|done|]. congruence.
      - intros Hv j Hj. destruct (decide (j = i)) as [->|Hji]; [rewrite Hc'i; apply Hynone; lia|]. apply Hnum; lia.
      - intros Hv j Hj Hj8. destruct (decide (j = i)) as [->|Hji]; [rewrite Hc'i; apply Hnone; lia|]. apply Haft; lia. }
    destruct (slot c i) as [r|] eqn:Esl; cbn [is_some]; apply Hrec; try done; try lia; destruct (Z.leb_spec NRRMU i); lia.
Qed.

(** The second array goes when it is empty. *)
Definition without_ext (c : dns_cent_t) (mu : list (option positive)) : dns_cent_t := with_cs (cs c - sizeof_ptr * NRREXT) (with_side (Rr mu None) c).
Lemma nones_sums R l : (forall i, mjoin (l !! i) = None) -> count_sets l = 0 /\ sum_sizes R l = 0.
Proof.
  induction l as [|o l IH]; intros H; [done|]. destruct (IH (fun i => H (S i))) as [H1 H2]. specialize (H O). cbn in H. subst o. cbn. lia.
Qed.
Lemma without_ext_ok R c mu e : cent_ok R c -> side c = Rr mu (Some e) -> (forall j, NRRMU <= j < slot_count c -> slot c j = None) ->
  cent_ok R (without_ext c mu) /\ (forall j, slot (without_ext c mu) j = slot c j) /\ neg_lent (without_ext c mu) = neg_lent c.
Proof.
  intros [G1 G2 G3 G4] Es Hnone. rewrite Es in G1. destruct G1 as (Hn & Hm & He). specialize (He e eq_refl).
  assert (Hsl : slots c = mu ++ e) by (unfold slots; by rewrite Es). assert (Hsl' : slots (without_ext c mu) = mu) by (unfold slots; cbn; by rewrite app_nil_r).
  assert (Hjoin : forall i, mjoin (e !! i) = None).
  { intros i. destruct (decide (i < 39)%nat); [|by rewrite lookup_ge_None_2 by lia]. specialize (Hnone (8 + Z.of_nat i)). unfold slot_count, NRRMU in Hnone.
    rewrite Hsl, length_app in Hnone. rewrite slot_mjoin in Hnone by lia. rewrite Hsl, lookup_app_r in Hnone by lia. rewrite <- Hnone by lia. do 2 f_equal. lia. }
  destruct (nones_sums R e Hjoin) as [C1 C2]. split; [|split].
  - constructor.
    + cbn. split_and!; done.
    + rewrite Hsl'. cbn. rewrite G2, Hsl, count_sets_app. lia.
    + rewrite Hsl'. unfold ext_size in *. rewrite Es in G3. cbn. rewrite G3, Hsl, sum_sizes_app. lia.
    + done.
  - intros j. unfold slot. destruct (0 <=? j); [|done]. rewrite Hsl, Hsl'. destruct (decide (Z.to_nat j < length mu)%nat); [by rewrite lookup_app_l|].
    rewrite lookup_app_r by lia. rewrite Hjoin. by rewrite lookup_ge_None_2 by lia.
  - unfold neg_lent. by rewrite Es.
Qed.
(** A change of an entry of the table that is counted. *)
Lemma resized L T s k p c c' n : inv L T s -> sized T s -> T !! k = Some p -> cents s !! p = Some c -> cent_ok (rrsets s) c' -> neg_lent c' = neg_lent c ->
  (forall j, slot c' j = slot c j) -> qname c' = qname c -> cs c' = cs c + n ->
  let s' := DnsStore.set_size (cache_size s + n) (set_cents (<[p := c']> (cents s)) s) in inv L T s' /\ sized T s' /\ shrunk p L s L s'.
Proof.
  intros H Hs Hk Hc Hok Hn Hsl Hq Hcs s'. set (s1 := set_cents (<[p := c']> (cents s)) s).
  assert (H1 : store_ok L s1) by (apply (store_cent_upd L s p c c' (iv_store _ _ _ H) Hc Hok Hn Hsl)).
  assert (Hon : on_cent p s s1) by (by apply (on_cent_upd p c c')).
  pose proof (on_cent_inv L T s L s1 k p H Hk Hon H1) as Hi. split; [|split].
  - destruct Hi. split; [by apply store_size|by apply (tbl_ext _ s1)|done|done].
  - unfold sized in *. cbn [s' cache_size DnsStore.set_size cents set_cents]. rewrite Hs, !(sum_cs_delete _ T _ _ Hk).
    rewrite (sum_cs_ext (cents s) (<[p := c']> (cents s))).
    + unfold cs_at. rewrite lookup_insert_eq, Hc. cbn. lia.
    + intros k' q Hq'. apply lookup_delete_Some in Hq' as [Hkk Hq']. unfold cs_at. rewrite lookup_insert_ne; [done|]. intros <-. apply Hkk. eapply tbl_inj; [apply H|..]; eauto.
  - split; try done; [intros q Hqp; cbn; by rewrite lookup_insert_ne|]. exists ∅. split; [by rewrite filter_nothing by set_solver|set_solver].
Qed.
Definition all_timely s c : Prop := forall j r x, slot c j = Some r -> rrsets s !! r = Some x -> timely s x.
Lemma negative_slot R c j : cent_ok R c -> negative c = true -> slot c j = None.
Proof. intros Hok En. unfold slot. rewrite (negative_slots _ _ Hok En). by destruct (0 <=? j). Qed.
Lemma purge_all_test L T s p c : inv L T s -> cents s !! p = Some c ->
  crun (purge_all_rrsets p true) s (fun v s' => asked_only s s' /\ 0 <= v.1 /\ (v.1 = 0 -> all_timely s c) /\ (negative c = true -> v.2 = 0)).
Proof.
  intros H Hc. pose proof (so_cents _ _ (iv_store _ _ _ H) p c Hc) as Hok. unfold purge_all_rrsets. do 2 step. apply crun_if; intros En.
  { step. split_and!; try done. intros _ j r x Hj. by rewrite (negative_slot _ _ _ Hok En) in Hj. } step.
  apply crun_lift. rewrite (rrarr_len_ok _ _ Hok). cbn [succeeds]. assert (Hpos : 0 <= slot_count c) by (unfold slot_count; lia). step.
  eapply crun_mono; [apply (purge_loop_test _ 0 L s p c 0 0 0 (iv_store _ _ _ H) Hc); lia|]. intros [[rv a] b] ? ([n ->] & Hrv & Hall). cbn [fst snd] in *. do 3 step. apply crun_lift.
  assert (Hall' : rv = 0 -> all_timely s c) by (intros -> j r x Hj; apply (Hall eq_refl j); [pose proof (slot_in _ _ _ Hj); lia|done]).
  destruct (the_rr_ok _ _ Hok En) as (mu & ext & -> & _). cbn [succeeds]. rewrite En. destruct (is_some ext && (b =? 0)); [do 2 step|]; step; cbn [fst snd]; (split; [done|split; [lia|split; [intros; apply Hall'; lia|done]]]).
Qed.
Lemma pruned_ext_gone s s' c mu e : side c = Rr mu (Some e) -> env s' = env s -> rrsets s' = rrsets s -> (forall j, slot (without_ext c mu) j = slot c j) -> pruned s c s' (without_ext c mu).
Proof.
  intros Es He Hr Hsl. split; [done|done|by left| |].
  - intros l t n E. congruence.
  - intros j. right. by rewrite Hsl, Hr.
Qed.
Lemma purge_all_run L T s k p c : inv L T s -> sized T s -> T !! k = Some p -> cents s !! p = Some c ->
  crun (purge_all_rrsets p false) s (fun v s' => 0 <= v.1 /\ exists L' c', inv L' T s' /\ sized T s' /\ shrunk p L s L' s' /\ cents s' !! p = Some c' /\
    pruned s c s' c' /\ all_timely s' c' /\ negative c' = negative c /\ (v.2 = 0 -> forall j, slot c' j = None) /\ (negative c = true -> v.2 = 0)).
Proof.
  intros H Hs Hk Hc. pose proof (so_cents _ _ (iv_store _ _ _ H) p c Hc) as Hok. unfold purge_all_rrsets. do 2 step.
  apply crun_if; intros En.
  { step. split; [done|]. assert (Hnone : forall j, slot c j = None) by (intros j; by apply (negative_slot (rrsets s))).
    exists L, c. split_and!; try done; [destruct s; apply (shrunk_ask p L asked)|by apply pruned_refl|]. intros j r x Hj. by rewrite Hnone in Hj. } step.
  apply crun_lift. rewrite (rrarr_len_ok _ _ Hok). cbn [succeeds]. assert (Hpos : 0 <= slot_count c) by (unfold slot_count; lia). step.
  eapply crun_mono; [apply (purge_loop_run _ 0 L T s k p c 0 0 0 H Hs Hk Hc); lia|].
  intros [[rv a] b] s1 (L1 & c1 & H1 & Hs1 & Hsh & Hc1 & Hct & Hn1 & Hrv & Ha & Hz & Hp & _ & Htime & Hnum & Haft). cbn [fst snd] in *. rewrite Z2Nat.id in * by lia. do 3 step. apply crun_lift.
  pose proof (so_cents _ _ (iv_store _ _ _ H1) p c1 Hc1) as Hok1. rewrite En in Hn1. destruct (the_rr_ok _ _ Hok1 Hn1) as (mu & ext & E & Es). rewrite E. cbn [succeeds].
  assert (Hall : all_timely s1 c1) by (intros j r x Hj; apply (Htime j r x); [pose proof (slot_in _ _ _ Hj); lia|done]).
  assert (Hnum' : a = 0 -> forall j, slot c1 j = None) by (intros Ha0 j; destruct (decide (0 <= j < slot_count c)); [by apply Hnum|apply slot_out; lia]).
  apply crun_if; intros Eb; [|step; split; [done|]; exists L1, c1; split_and!; try done; congruence]. apply andb_true_iff in Eb as [Ee Eb]. destruct ext as [e|]; [|done]. apply Z.eqb_eq in Eb.
  destruct (without_ext_ok _ _ _ _ Hok1 Es) as (K1 & K2 & K3). { intros j Hj. apply Haft; [done|rewrite Hct in Hj; unfold NRRMU in *; lia|lia]. }
  do 2 step. step. step. step. split; [cbn [fst]; lia|]. exists L1, (without_ext c1 mu).
  destruct (resized L1 T s1 k p c1 (without_ext c1 mu) (- (sizeof_ptr * NRREXT)) H1 Hs1 Hk Hc1 K1 K3 K2 eq_refl) as (R1 & R2 & R3); [cbn; lia|].
  split; [exact R1|]. split; [exact R2|]. split; [by eapply shrunk_trans|]. split; [apply lookup_insert_eq|].
  split; [eapply pruned_trans; [exact Hp|by eapply (pruned_ext_gone s1)]|]. split; [intros j r x; rewrite K2; apply Hall|]. split; [by rewrite En|].
  split; [intros Ha0 j; rewrite K2; by apply Hnum'|congruence].
Qed.

(** * [purge_cent] *)
Definition cent_gone (c : dns_cent_t) (delete_ : bool) (numrrs : Z) : cm bool :=
  if delete_ && (numrrs =? 0) then
    if negb (negative c) then mret true
    else if has (flags c) DF_LOCAL then mret false else timedout_nxdom c
  else mret false.
Lemma cent_gone_run R s c d n : cent_ok R c -> crun (cent_gone c d n) s (fun go s' => asked_only s s' /\
  if go : bool then d = true /\ n = 0 /\ (negative c = true -> late_neg s c) else d = true -> n = 0 -> timely_neg s c).
Proof.
  intros Hok. unfold cent_gone. apply crun_if; intros E; [|step; split; [done|]; intros -> ->; done]. apply andb_true_iff in E as [-> E]. apply Z.eqb_eq in E.
  destruct (negative c) eqn:En; cbn [negb]; [|step; by split_and!]. destruct (has (flags c) DF_LOCAL) eqn:El; [step; split; [done|by left]|].
  eapply crun_mono; [by eapply timedout_nxdom_run|]. intros b s' [Ha Hb]. split; [exact Ha|]. by destruct b.
Qed.
Lemma asked_inv L T s s' : inv L T s -> asked_only s s' -> inv L T s'.
Proof. intros H [n ->]. by apply inv_ask. Qed.
Lemma asked_sized T s s' : sized T s -> asked_only s s' -> sized T s'.
Proof. by intros H [n ->]. Qed.
Lemma asked_cents s s' : asked_only s s' -> cents s' = cents s.
Proof. by intros [n ->]. Qed.
Lemma asked_trimmed T s s' : asked_only s s' -> trimmed T s T s'.
Proof. intros [n ->]. apply trimmed_ask. Qed.
Lemma purge_cent_test L T s p c : inv L T s -> cents s !! p = Some c ->
  crun (purge_cent p true true) s (fun v s' => asked_only s s' /\ (v = 0 -> all_timely s c /\ (negative c = true -> timely_neg s c))).
Proof.
  intros H Hc. pose proof (so_cents _ _ (iv_store _ _ _ H) p c Hc) as Hok. unfold purge_cent. step. eapply crun_mono; [by apply (purge_all_test L T s p c)|].
  intros [npurge numrrs] ? ([n ->] & Hnp & Hall & Hneg). cbn [fst snd] in *. do 3 step. eapply crun_mono; [apply (cent_gone_run (rrsets s) (set_asked n s) c true numrrs Hok)|].
  intros go s1 [A1 Hgo]. destruct go; [do 2 step; step; split; [by eapply asked_trans; [|exact A1]|done]|].
  assert (Hgood : npurge = 0 -> all_timely s c /\ (negative c = true -> timely_neg s c)) by (intros Hz; split; [by apply Hall|intros En; by apply Hgo, Hneg]).
  apply crun_if; intros _; [step; split; [by eapply asked_trans; [|exact A1]|exact Hgood]|].
  assert (H1 : inv L T s1) by (eapply asked_inv; [by apply inv_ask|done]). assert (Hc1 : cents s1 !! p = Some c) by (by rewrite (asked_cents _ _ A1)).
  step. eapply crun_mono; [apply (stale_run L T s1 p c (c_ns c) RRMUINDEX_NS H1 Hc1); done|]. intros ns s2 A2. rewrite andb_false_r. do 2 step.
  assert (H2 : inv L T s2) by (by eapply asked_inv). assert (Hc2 : cents s2 !! p = Some c) by (by rewrite (asked_cents _ _ A2)).
  step. eapply crun_mono; [apply (stale_run L T s2 p c (c_soa c) RRMUINDEX_SOA H2 Hc2); done|]. intros soa s3 A3. rewrite andb_false_r. do 2 step. step. split.
  - eapply asked_trans; [by eexists|]. eapply asked_trans; [exact A1|]. exact (asked_trans _ _ _ A2 A3).
  - intros Hv. apply Hgood. destruct ns, soa; lia.
Qed.
(** A reference is dropped. *)
Definition settled L T s p c s' : Prop := inv L T s' /\ sized T s' /\ shrunk p L s L s' /\ rrsets s' = rrsets s /\
  exists c', cents s' !! p = Some c' /\ side c' = side c /\ flags c' = flags c /\ qname c' = qname c.
Lemma settle L T s k p c c' : inv L T s -> sized T s -> T !! k = Some p -> cents s !! p = Some c -> cent_ok (rrsets s) c' -> side c' = side c ->
  flags c' = flags c -> qname c' = qname c -> cs c' = cs c -> settled L T s p c (set_cents (<[p := c']> (cents s)) s).
Proof.
  intros H Hs Hk Hc Hok Hsd Hfl Hq Hcs. assert (Hn : neg_lent c' = neg_lent c) by (unfold neg_lent; by rewrite Hsd).
  assert (Hsl : forall j, slot c' j = slot c j) by (intros j; unfold slot, slots; by rewrite Hsd).
  destruct (resized L T s k p c c' 0 H Hs Hk Hc Hok Hn Hsl Hq) as (R1 & R2 & R3); [lia|].
  rewrite Z.add_0_r in *. assert (E : DnsStore.set_size (cache_size s) (set_cents (<[p := c']> (cents s)) s) = set_cents (<[p := c']> (cents s)) s) by done.
  rewrite E in *. split; [done|]. split; [done|]. split; [done|]. split; [done|]. exists c'. split; [apply lookup_insert_eq|done].
Qed.
Lemma drop_ref_run L T s k p c (b : bool) f : inv L T s -> sized T s -> T !! k = Some p -> cents s !! p = Some c ->
  (forall c, side (f c) = side c /\ flags (f c) = flags c /\ num_rrs (f c) = num_rrs c /\ cs (f c) = cs c /\ qname (f c) = qname c) ->
  crun (if b then update p f else mret tt : cm unit) s (fun _ s' => settled L T s p c s').
Proof.
  intros H Hs Hk Hc Hf. destruct b; [|step; split_and!; [done|done| |done|by exists c]; destruct s; apply (shrunk_ask p L asked)].
  step. destruct (Hf c) as (F1 & F2 & F3 & F4 & F5). apply (settle L T s k p c); try done.
  destruct (so_cents _ _ (iv_store _ _ _ H) p c Hc) as [G1 G2 G3 G4]. unfold slots, ext_size, negative in *.
  constructor; unfold slots, ext_size, negative; rewrite ?F1, ?F2, ?F3, ?F4, ?F5; done.
Qed.
Lemma settled_pruned L T s p c s' : settled L T s p c s' -> exists c', cents s' !! p = Some c' /\ pruned s c s' c' /\ side c' = side c /\ flags c' = flags c /\ env s' = env s /\ rrsets s' = rrsets s.
Proof.
  intros (_ & _ & Hsh & Hr & c' & Hc & Hsd & Hfl & Hq). pose proof (sh_env _ _ _ _ _ Hsh) as He. exists c'. split_and!; try done.
  split; [done|done|by left|by rewrite Hsd|]. intros j. right. unfold slot, slots. by rewrite Hsd, Hr.
Qed.
(** The entry [c] of [s] as it was has nothing left; what is in the cache instead of it, of
    which nothing is out of date. *)
Definition spent s c : Prop := (forall j r, slot c j = Some r -> exists x, rrsets s !! r = Some x /\ late s x) /\ (negative c = true -> late_neg s c).
Definition refreshed (d : bool) s c s' c' : Prop := pruned s c s' c' /\ all_timely s' c' /\ (d = true -> negative c' = true -> timely_neg s' c').
Lemma refreshed_step d s c s1 c1 s2 c2 : refreshed d s c s1 c1 -> pruned s1 c1 s2 c2 -> side c2 = side c1 -> flags c2 = flags c1 -> env s2 = env s1 -> rrsets s2 = rrsets s1 -> refreshed d s c s2 c2.
Proof.
  intros (Hp & Ht & Hn) Hp2 Hsd Hfl He Hr. split; [by eapply pruned_trans|]. split.
  - intros j r x. unfold slot, slots. rewrite Hsd, Hr. intros Hj Hx. apply (timely_env s2 s1); [done|]. by apply (Ht j r x).
  - intros Hd. unfold negative. rewrite Hfl. intros En. specialize (Hn Hd En). unfold timely_neg in *. by rewrite Hsd, Hfl, He.
Qed.
Lemma refreshed_asked d s c s1 c1 s2 : refreshed d s c s1 c1 -> asked_only s1 s2 -> refreshed d s c s2 c1.
Proof. intros H [n ->]. apply (refreshed_step d s c s1 c1); try done. by apply pruned_refl. Qed.
Lemma refreshed_settled d L T s c s1 c1 s2 p : refreshed d s c s1 c1 -> settled L T s1 p c1 s2 -> exists c2, cents s2 !! p = Some c2 /\ refreshed d s c s2 c2.
Proof. intros H Hst. destruct (settled_pruned _ _ _ _ _ _ Hst) as (c2 & Hc2 & Hp & Hsd & Hfl & He & Hr). exists c2. split; [done|]. by eapply refreshed_step. Qed.
Lemma spent_pruned R s c s1 c1 : cent_ok R c -> pruned s c s1 c1 -> negative c1 = negative c -> (forall j, slot c1 j = None) -> (negative c1 = true -> late_neg s1 c1) -> spent s c.
Proof.
  intros Hok [P1 _ P3 P4 P5] Hn Hnone Hlate. split.
  - intros j r Hj. destruct (P5 j) as [[_ Hl]|[He _]]; [by apply Hl|]. rewrite Hnone in He. congruence.
  - intros En. destruct (the_neg_ok _ _ Hok En) as (l & t & m & _ & Es). destruct Hlate as (l' & t' & m' & n & Es' & Hloc & Hlt); [congruence|].
    rewrite (P4 l t m Es) in Es'. injection Es' as <- <- <-. exists l, t, m, n. split; [done|]. rewrite <- P1. split; [|done].
    destruct P3 as [Hf|Hf]; rewrite Hf in Hloc; [done|by rewrite drop_auth_local in Hloc].
Qed.
Lemma purge_cent_run L T s k p c d : inv L T s -> sized T s -> T !! k = Some p -> cents s !! p = Some c ->
  crun (purge_cent p d false) s (fun v s' => exists L' T', inv L' T' s' /\ sized T' s' /\ trimmed T s T' s' /\
    ((v < 0 /\ d = true /\ T' = delete k T /\ spent s c) \/ (0 <= v /\ T' = T /\ exists c', cents s' !! p = Some c' /\ refreshed d s c s' c'))).
Proof.
  intros H Hs Hk Hc. pose proof (so_cents _ _ (iv_store _ _ _ H) p c Hc) as Hok. unfold purge_cent. step. eapply crun_mono; [by apply (purge_all_run L T s k p c)|].
  intros [npurge numrrs] s1 (Hnp & L1 & c1 & H1 & Hs1 & Hsh & Hc1 & Hp1 & Hall & Hn1 & Hnone & Hzero). cbn [fst snd] in *. do 3 step.
  assert (Htr1 : trimmed T s T s1) by (by eapply shrunk_trimmed).
  eapply crun_mono; [apply (cent_gone_run (rrsets s1) s1 c1 d numrrs (so_cents _ _ (iv_store _ _ _ H1) p c1 Hc1))|]. intros go s2 [A2 Hgo].
  assert (H2 : inv L1 T s2) by (by eapply asked_inv). assert (Hs2 : sized T s2) by (by eapply asked_sized). assert (Hc2 : cents s2 !! p = Some c1) by (by rewrite (asked_cents _ _ A2)).
  assert (Htr2 : trimmed T s T s2) by (eapply trimmed_trans; [exact Htr1|by apply asked_trimmed]). destruct go.
  { destruct Hgo as (Hd & Hz & Hlate). step. eapply crun_mono; [by apply (del_cache_ent_run L1 T s2 k p)|]. intros [] s3 (L3 & Hrm). step. exists L3, (delete k T). split; [apply Hrm|].
    split; [by apply (rm_sized _ _ _ _ _ _ _ Hrm)|]. split; [|left; split_and!; [lia|done|done|by eapply spent_pruned; eauto]].
    eapply trimmed_trans; [exact Htr2|]. eapply shrunk_gone; [exact Hk|by eapply removed_shrunk|rewrite (rm_cents _ _ _ _ _ _ _ Hrm); apply lookup_delete_eq]. }
  assert (R2 : refreshed d s c s2 c1).
  { eapply refreshed_asked; [|exact A2]. split; [done|]. split; [done|]. intros Hd En. apply Hgo; [done|]. apply Hzero. congruence. }
  apply crun_if; intros _; [step; exists L1, T; split_and!; try done; right; split_and!; [done|done|by exists c1]|].
  step. eapply crun_mono; [apply (stale_run L1 T s2 p c1 (c_ns c1) RRMUINDEX_NS H2 Hc2); done|]. intros ns s3 A3. step.
  assert (H3 : inv L1 T s3) by (by eapply asked_inv). assert (Hs3 : sized T s3) by (by eapply asked_sized). assert (Hc3 : cents s3 !! p = Some c1) by (by rewrite (asked_cents _ _ A3)).
  eapply crun_mono; [apply (drop_ref_run L1 T s3 k p c1 (ns && negb false) (with_cns cundef) H3 Hs3 Hk Hc3); done|].
  intros [] s4 S4. pose proof S4 as (H4 & Hs4 & Hsh4 & _). destruct (refreshed_settled _ _ _ _ _ _ _ _ _ (refreshed_asked _ _ _ _ _ _ R2 A3) S4) as (c4 & Hc4 & R4). step.
  assert (Htr4 : trimmed T s T s4).
  { eapply trimmed_trans; [exact Htr2|]. eapply trimmed_trans; [exact (asked_trimmed _ _ _ A3)|]. by eapply shrunk_trimmed. }
  eapply crun_mono; [apply (stale_run L1 T s4 p c4 (c_soa c1) RRMUINDEX_SOA H4 Hc4); done|]. intros soa s5 A5. step.
  assert (H5 : inv L1 T s5) by (by eapply asked_inv). assert (Hs5 : sized T s5) by (by eapply asked_sized). assert (Hc5 : cents s5 !! p = Some c4) by (by rewrite (asked_cents _ _ A5)).
  eapply crun_mono; [apply (drop_ref_run L1 T s5 k p c4 (soa && negb false) (with_csoa cundef) H5 Hs5 Hk Hc5); done|].
  intros [] s6 S6. pose proof S6 as (H6 & Hs6 & Hsh6 & _). step. exists L1, T. split_and!; try done.
  - eapply trimmed_trans; [exact Htr4|]. eapply trimmed_trans; [exact (asked_trimmed _ _ _ A5)|]. by eapply shrunk_trimmed.
  - right. split_and!; [destruct ns, soa; lia|done|]. exact (refreshed_settled _ _ _ _ _ _ _ _ _ (refreshed_asked _ _ _ _ _ _ R4 A5) S6).
Qed.
