(* ===== verification/DnsMerge.v ===== *)
(** Adding the sets of one entry of pdnsd's cache to another. *)
From S2P Require Import Prelude CLib Rhn DnsName DnsNameProps DnsCompress HevList DnsStore DnsCents DnsHash DnsCache DnsRrl DnsHeap DnsEntry DnsFree DnsCopy.

Implicit Types (s : cache) (L : list positive) (p q r : positive).

(** An operation on the entry [p] that keeps the memory consistent. *)
Definition works p s s' : Prop := on_cent p s s' /\ exists L', store_ok L' s'.
Lemma works_refl L p s : store_ok L s -> works p s s.
Proof. intros H. split; [done|eauto]. Qed.
Lemma works_trans p s1 s2 s3 : works p s1 s2 -> works p s2 s3 -> works p s1 s3.
Proof. intros [A1 _] [B1 B2]. split; [by etrans|done]. Qed.
Lemma works_ask L p n s : store_ok L s -> works p s (set_asked n s).
Proof. intros H. split; [apply on_cent_ask|exists L; by apply store_ask]. Qed.
Lemma works_cent p s s' c : works p s s' -> cents s !! p = Some c -> exists c', cents s' !! p = Some c'.
Proof. intros [H _] Hc. destruct (on_cent_name _ _ _ _ H Hc) as (c' & ? & _). eauto. Qed.

(** * Conflicts *)
Lemma info_ok i : 0 <= i < NRRTOT -> exists x, info i = Ok x.
Proof.
  intros Hi. unfold info. rewrite (proj2 (Z.leb_le 0 i)) by lia. destruct (lookup_lt_is_Some_2 rr_info (Z.to_nat i)) as [x ->]; [|eauto].
  change (length rr_info) with 47%nat. unfold NRRTOT in Hi. lia.
Qed.
Lemma slot_count_le R c : cent_ok R c -> slot_count c <= NRRTOT.
Proof.
  intros Hok. unfold slot_count, NRRTOT. destruct (negative c) eqn:E; [rewrite (negative_slots _ _ Hok E); cbn; lia|].
  destruct (slots_length _ _ Hok E) as (? & ext & _ & _ & _ & ->). destruct ext; lia.
Qed.
Lemma conflict_at_run L s p c rri i : store_ok L s -> cents s !! p = Some c -> 0 <= i < slot_count c -> crun (conflict_at p rri i) s (fun _ s' => s' = s).
Proof.
  intros H Hc Hi. pose proof (so_cents _ _ H p c Hc) as Hok. pose proof (slot_count_le _ _ Hok). unfold conflict_at. do 3 step. apply crun_lift. rewrite (rrarr_index_ok _ _ _ Hok Hi). cbn [succeeds].
  destruct (slot c i) as [r|] eqn:E; [|by step]. destruct (lk_live _ _ _ (so_links _ _ H) _ _ _ _ Hc E) as [x Hx]. do 3 step. apply crun_lift.
  destruct (info_ok i) as [y ->]; [lia|]. cbn [succeeds]. by step.
Qed.
(** Sets are only taken away. *)
Record fewer p s c s' c' : Prop := {
  fw_works : works p s s'; fw_cent : cents s' !! p = Some c'; fw_count : slot_count c' = slot_count c; fw_neg : negative c' = negative c;
  fw_slots : forall j, slot c j = None -> slot c' j = None
}.
Lemma fewer_refl L p s c : store_ok L s -> cents s !! p = Some c -> fewer p s c s c.
Proof. intros H Hc. split; try done. by apply (works_refl L). Qed.
Lemma fewer_trans p s1 c1 s2 c2 s3 c3 : fewer p s1 c1 s2 c2 -> fewer p s2 c2 s3 c3 -> fewer p s1 c1 s3 c3.
Proof. intros [] []. split; try congruence; [by eapply works_trans|auto]. Qed.
Lemma del_index_fewer L s p c i : store_ok L s -> cents s !! p = Some c -> 0 <= i < NRRTOT ->
  crun (del_cent_rrset_by_index p i) s (fun _ s' => exists c', fewer p s c s' c' /\ slot c' i = None).
Proof.
  intros H Hc Hi. pose proof (so_cents _ _ H p c Hc) as Hok. eapply crun_mono; [by apply (del_index_drops L s p c i)|]. intros n s' Hd. destruct (slot c i) as [r|] eqn:E.
  - destruct Hd as (x & Hx & -> & Hcs & Hrr & Hst & Hdr). set (c' := cleared c i (size_of x)) in *. exists c'. pose proof (slot_in _ _ _ E) as Hin.
    assert (Hslot : forall j, slot c' j = if decide (j = i) then None else slot c j) by (intros j; by apply (slot_upd _ _ i None j Hok)).
    pose proof (cleared_emptied _ _ i (size_of x) Hok Hin) as Hem. fold c' in Hem. split; [|by rewrite Hslot, decide_True]. split.
    + split; [apply Hdr|by eexists].
    + by rewrite Hcs, lookup_insert_eq.
    + destruct Hem. unfold slot_count. lia.
    + apply Hem.
    + intros j Hj. rewrite Hslot. by destruct (decide (j = i)).
  - destruct Hd as [_ ->]. exists c. split; [by apply (fewer_refl L)|done].
Qed.
Lemma conflicts_loop_run n : forall i L s p c rri a b, store_ok L s -> cents s !! p = Some c -> 0 <= i -> i + Z.of_nat n <= slot_count c ->
  crun (conflicts_loop n i p rri a b) s (fun _ s' => exists k, s' = set_asked k s).
Proof.
  induction n as [|n IH]; intros i L s p c rri a b H Hc Hi Hn; cbn [conflicts_loop]; [step; exists (asked s); by destruct s|]. step.
  eapply crun_mono; [apply (conflict_at_run L s p c); [done|done|lia]|]. intros o ? ->. destruct o as [x|]; [|apply (IH (i + 1) L s p c); [done|done|lia|lia]].
  apply crun_if; intros _; [step; exists (asked s); by destruct s|]. do 2 step.
  eapply crun_mono; [apply (IH (i + 1) L (set_asked (S (asked s)) s) p c); [by apply store_ask|done|lia|lia]|]. intros o s' [k ->]. by exists k.
Qed.
Lemma remove_loop_run n : forall i L s p c rri, store_ok L s -> cents s !! p = Some c -> 0 <= i -> i + Z.of_nat n <= slot_count c ->
  crun (for_range n i (fun k => o ← conflict_at p rri k; if is_some o then _ ← del_cent_rrset_by_index p k; mret tt else mret tt)) s (fun _ s' => exists c', fewer p s c s' c').
Proof.
  induction n as [|n IH]; intros i L s p c rri H Hc Hi Hn; cbn [for_range]; [step; exists c; by apply (fewer_refl L)|]. step.
  pose proof (slot_count_le _ _ (so_cents _ _ H p c Hc)).
  apply (crun_mono _ _ (fun _ s1 => exists c1, fewer p s c s1 c1)).
  { step. eapply crun_mono; [apply (conflict_at_run L s p c); [done|done|lia]|]. intros o ? ->. destruct o as [x|]; cbn [is_some]; [|step; exists c; by apply (fewer_refl L)].
    step. eapply crun_mono; [apply (del_index_fewer L s p c i H Hc); lia|]. intros m s1 (c1 & Hf & _). step. by exists c1. }
  intros _ s1 (c1 & Hf). pose proof Hf as [[_ [L1 H1]] Hc1 Hct _ _]. eapply crun_mono; [apply (IH (i + 1) L1 s1 p c1 rri H1 Hc1); lia|].
  intros _ s2 (c2 & Hf2). exists c2. by eapply fewer_trans.
Qed.
Lemma cr_check_run L s p c i t n f : store_ok L s -> cents s !! p = Some c -> 0 <= i < NRRTOT ->
  crun (cr_check_add p i t n f) s (fun _ s' => exists c', fewer p s c s' c').
Proof.
  intros H Hc Hi. pose proof (so_cents _ _ H p c Hc) as Hok. assert (Hz : 0 <= slot_count c) by (unfold slot_count; lia).
  assert (Hrefl : forall b : bool, crun (mret b) s (fun _ s' => exists c', fewer p s c s' c')) by (intros b; step; exists c; by apply (fewer_refl L)).
  unfold cr_check_add. apply crun_if; intros _; [apply Hrefl|]. step. apply crun_lift. destruct (info_ok i Hi) as [rri ->]. cbn [succeeds]. do 2 step. rewrite (rrarr_len_ok _ _ Hok).
  assert (Hremove : forall s1, (exists k, s1 = set_asked k s) -> crun (ilim ← lift (Ok (slot_count c));
     _ ← for_range (Z.to_nat ilim) 0 (fun k => o ← conflict_at p rri k; if is_some o then _ ← del_cent_rrset_by_index p k; mret tt else mret tt);
     mret true) s1 (fun _ s' => exists c', fewer p s c s' c')).
  { intros s1 [k ->]. step. apply crun_lift. cbn [succeeds]. step.
    eapply crun_mono; [apply (remove_loop_run _ 0 L (set_asked k s) p c rri); [by apply store_ask|done|lia|lia]|]. intros _ s' (c' & Hf). step. exists c'.
    eapply fewer_trans; [|exact Hf]. split; try done. by apply (works_ask L). }
  apply crun_if; intros _; [apply Hremove; exists (asked s); by destruct s|]. apply crun_if; intros _; [apply Hrefl|].
  step. apply crun_lift. cbn [succeeds]. step.
  eapply crun_mono; [apply (conflicts_loop_run _ 0 L s p c rri 0 0 H Hc); lia|]. intros o ? [k ->].
  assert (Hask : forall b : bool, crun (mret b) (set_asked k s) (fun _ s' => exists c', fewer p s c s' c')).
  { intros b. step. exists c. split; try done. by apply (works_ask L). }
  destruct o as [[ncf nttl]|]; [|apply Hask]. apply crun_if; intros _; [apply Hask|]. apply crun_if; intros _; [apply Hremove; by exists k|apply Hask].
Qed.

(** * One set *)
Lemma adjust_ttl_run L s p c i r x : store_ok L s -> cents s !! p = Some c -> slot c i = Some r -> rrsets s !! r = Some x ->
  crun (adjust_ttl r) s (fun _ s' => works p s s' /\ store_ok L s' /\ exists x', lent x' = lent x /\ rrs x' = rrs x /\ s' = set_rrsets (<[r := x']> (rrsets s)) s).
Proof.
  intros H Hc Hi Hx. unfold adjust_ttl. do 4 step. set (x' := if has (rflags x) CF_NOCACHE then _ else _). step.
  assert (Hx' : lent x' = lent x /\ rrs x' = rrs x) by (unfold x'; by destruct (has (rflags x) CF_NOCACHE)). destruct Hx' as [Hl Hr].
  destruct (store_put_set L s p c i r x x' H Hc Hi Hx Hl Hr) as [H' Hon]. split; [split; [done|by eexists]|]. split; [done|]. by exists x'.
Qed.
(** A set that is not yet listed is adjusted and listed. *)
Lemma list_set_run L s p c i r x : store_ok L s -> cents s !! p = Some c -> slot c i = Some r -> rrsets s !! r = Some x -> lent x = None ->
  crun (_ ← adjust_ttl r; insert_rrl (Some r) p i) s (fun ok s' => works p s s' /\ cents s' = cents s /\ (ok = false -> starved s) /\
    forall q, q <> r -> rrsets s' !! q = rrsets s !! q).
Proof.
  intros H Hc Hi Hx Hl. step. eapply crun_mono; [by apply (adjust_ttl_run L s p c i r x)|]. intros [] s1 (Hw & H1 & x' & Hl' & _ & Hs1).
  assert (Hx1 : rrsets s1 !! r = Some x') by (rewrite Hs1; apply lookup_insert_eq). assert (Hc1 : cents s1 !! p = Some c) by (by rewrite Hs1).
  eapply crun_mono; [apply (insert_set_store L s1 p c i r x' H1 Hc1 Hi Hx1); congruence|]. intros ok s2 (Hon & Hcs & Hst & L2 & o & H2 & Hrr).
  split; [eapply works_trans; [exact Hw|split; [done|by eexists]]|]. split; [rewrite Hcs; by rewrite Hs1|]. split; [intros Hok; specialize (Hst Hok); by rewrite Hs1 in Hst|].
  intros q Hq. rewrite Hrr, lookup_insert_ne by done. rewrite Hs1. cbn. by rewrite lookup_insert_ne.
Qed.
Lemma add_records_run l : forall L s p i t n f x, store_ok L s -> has_set s p i x -> 0 <= i < NRRTOT ->
  crun (add_records l p i t n f (last_pos (rrs x))) s (fun ok s' => works p s s' /\ if ok then has_set s' p i (with_rrs (rrs x ++ l) x) else starved s).
Proof.
  induction l as [|rr l IH]; intros L s p i t n f x H Hx Hi; cbn [add_records].
  { step. split; [by apply (works_refl L)|]. rewrite app_nil_r. by destruct x. }
  step. eapply crun_mono; [apply (add_rr_store L s p i t n f rr (last_pos (rrs x)) (Some x) H Hi)|].
  { split; [done|]. intros k Hk. by apply last_pos_lt. }
  intros [ok rt] s1 (Hon & [L1 H1] & _ & Hpost). cbn [fst snd default from_option] in Hpost. assert (Hw : works p s s1) by (split; eauto).
  destruct ok; [|step; done]. destruct Hpost as [-> Hs1]. rewrite insert_rr_last in *. cbn [fst snd] in *. change (id x) with x in *.
  rewrite (last_pos_snoc (rrs x) rr). eapply crun_mono; [apply (IH L1 s1 p i t n f (with_rrs (rrs x ++ [rr]) x) H1 Hs1 Hi)|].
  intros ok s2 (Hw2 & Hp2). split; [by eapply works_trans|]. destruct ok; [|by apply (on_cent_env p s s1)]. cbn [rrs with_rrs] in Hp2. rewrite <- app_assoc in Hp2. done.
Qed.
Lemma works_starved p s s' : works p s s' -> starved s' -> starved s.
Proof. intros [H _]. by apply (on_cent_env p). Qed.
Lemma replace_set_run L s p c i new : store_ok L s -> cents s !! p = Some c -> 0 <= i < NRRTOT ->
  crun (replace_set p i new) s (fun x s' => works p s s' /\ match x with Done => True | CleanUp j => j = i /\ starved s | AddSize => starved s end).
Proof.
  intros H Hc Hi. unfold replace_set. step. eapply crun_mono; [by apply (del_index_fewer L s p c i)|]. intros m s1 (c1 & [Hw1 Hc1 _ _ _] & Hi1). pose proof Hw1 as [_ [L1 H1]].
  step. eapply crun_mono; [by apply (cr_check_run L1 s1 p c1 i)|]. intros fits s2 (c2 & [Hw2 Hc2 _ _ Hsl2]). pose proof Hw2 as [_ [L2 H2]].
  assert (Hw : works p s s2) by (by eapply works_trans). destruct fits; cbn [negb]; [|by step].
  step. eapply crun_mono; [apply (add_rrset_store L2 s2 p i (ttl new) (ts new) (rflags new) H2); [by exists c2; auto|done]|].
  intros ok s3 (Hon3 & Hst3 & _ & Hset). assert (Hw3 : works p s s3) by (eapply works_trans; [exact Hw|by split]).
  destruct ok; cbn [negb]; [|step; split; [done|by apply (works_starved p s s2)]]. destruct Hst3 as [L3 H3].
  step. eapply crun_mono; [exact (add_records_run (rrs new) L3 s3 p i (ttl new) (ts new) (rflags new) _ H3 Hset Hi)|].
  intros ok s4 (Hw4 & Hset4). assert (Hw4' : works p s s4) by (by eapply works_trans).
  destruct ok; cbn [negb]; [|step; split; [done|split; [done|by apply (works_starved p s s3)]]]. destruct Hset4 as (c4 & r & Hc4 & Hi4 & Hx4). pose proof Hw4 as [_ [L4 H4]].
  step. eapply crun_get_cent; [exact Hc4|]. step. apply crun_lift.
  rewrite (rrarr_index_ok _ _ _ (so_cents _ _ H4 _ _ Hc4) (slot_in _ _ _ Hi4)), Hi4. cbn [succeeds]. apply crun_assoc. step.
  eapply crun_mono; [by apply (list_set_run L4 s4 p c4 i r _ H4 Hc4 Hi4 Hx4)|]. intros ok s5 (Hw5 & _ & Hok & _). step. split; [by eapply works_trans|].
  destruct ok; [done|]. split; [done|]. apply (works_starved p s s4); auto.
Qed.

(** * All sets *)
Lemma precedes_run s old new : crun (precedes old new) s (fun _ s' => exists k, s' = set_asked k s).
Proof.
  assert (Hid : exists k, s = set_asked k s) by (exists (asked s); by destruct s).
  unfold precedes. apply crun_if; intros _; [by step|]. apply crun_if; intros _; [|by step]. unfold timedout. do 3 step. do 2 step. by eexists.
Qed.
Lemma merge_sets_run n : forall i L s q p d c, store_ok L s -> q <> p -> cents s !! q = Some d -> cents s !! p = Some c -> 0 <= i -> i + Z.of_nat n <= slot_count d ->
  crun (merge_sets n i q p) s (fun x s' => works p s s' /\ match x with Done => True | CleanUp j => 0 <= j < NRRTOT /\ starved s | AddSize => starved s end).
Proof.
  induction n as [|n IH]; intros i L s q p d c H Hqp Hd Hc Hi Hn; cbn [merge_sets]; [step; split; [by apply (works_refl L)|done]|].
  pose proof (so_cents _ _ H q d Hd) as Hdok. pose proof (so_cents _ _ H p c Hc) as Hok. pose proof (slot_count_le _ _ Hdok).
  assert (Hrec : forall s1, works p s s1 -> crun (merge_sets n (i + 1) q p) s1 (fun x s' => works p s s' /\ match x with Done => True | CleanUp j => 0 <= j < NRRTOT /\ starved s | AddSize => starved s end)).
  { intros s1 Hw. pose proof Hw as [Hon [L1 H1]]. destruct (works_cent _ _ _ _ Hw Hc) as [c1 Hc1].
    eapply crun_mono; [apply (IH (i + 1) L1 s1 q p d c1 H1 Hqp); [by rewrite (oc_cents _ _ _ Hon)|done|lia|lia]|].
    intros x s2 (Hw2 & Hx). split; [by eapply works_trans|]. destruct x; [done|by apply (works_starved p s s1)|]. destruct Hx. split; [done|by apply (works_starved p s s1)]. }
  do 3 step. apply crun_lift. rewrite (rrarr_index_ok _ _ _ Hdok) by lia. cbn [succeeds]. destruct (slot d i) as [r|] eqn:Er; [|apply Hrec; by apply (works_refl L)].
  destruct (lk_live _ _ _ (so_links _ _ H) _ _ _ _ Hd Er) as [new Hnew]. do 2 step. do 3 step. apply crun_lift. rewrite (rrarr_testext_ok _ _ _ Hok) by lia. cbn [succeeds]. step.
  apply (crun_mono _ _ (fun _ s' => exists k, s' = set_asked k s)).
  { destruct (slot c i) as [r'|] eqn:Er'; [|step; exists (asked s); by destruct s]. destruct (lk_live _ _ _ (so_links _ _ H) _ _ _ _ Hc Er') as [old Hold]. do 2 step. apply precedes_run. }
  intros stays ? [k ->]. destruct stays; [apply Hrec; by apply (works_ask L)|].
  step. eapply crun_mono; [apply (replace_set_run L (set_asked k s) p c i new); [by apply store_ask|done|lia]|]. intros x s1 (Hw & Hx).
  assert (Hw' : works p s s1) by (eapply works_trans; [by apply (works_ask L)|exact Hw]).
  assert (Hstv : starved (set_asked k s) -> starved s) by done.
  destruct x; [by apply Hrec|step; auto|]. step. destruct Hx as [-> Hx]. split; [done|]. split; [lia|auto].
Qed.
