(* ===== verification/DnsAdd.v ===== *)
(** [add_cache] keeps the invariant of pdnsd's cache. *)
From S2P Require Import Prelude CLib Rhn DnsName DnsNameProps DnsCompress DnsMessage HevList DnsStore DnsCents DnsHash DnsCache DnsRrl DnsHeap DnsEntry DnsFree DnsCopy DnsTable DnsPurge DnsCent DnsMerge.

Implicit Types (T : gmap (list label) positive) (K N : list label) (s : cache) (L : list positive) (p q : positive).

(** * What callers rely on

    The cache between two calls. *)
Definition cache_ok T s : Prop := (exists L, inv L T s) /\ sized T s /\ insert_sort s = true.
(** The entries that callers have stay theirs, as they are. *)
Record frame T s T' s' : Prop := {
  fr_env : env s' = env s;
  fr_brk : (brk s <= brk s')%positive;
  fr_new : forall q, is_Some (cents s' !! q) -> outside T' q -> outside T q /\ is_Some (cents s !! q);
  fr_own : forall q c, outside T q -> cents s !! q = Some c -> outside T' q /\ cents s' !! q = Some c /\
    forall i r, slot c i = Some r -> rrsets s' !! r = rrsets s !! r
}.
Lemma frame_refl T s : frame T s T s.
Proof. by split. Qed.
Lemma cframe_trans T1 s1 T2 s2 T3 s3 : frame T1 s1 T2 s2 -> frame T2 s2 T3 s3 -> frame T1 s1 T3 s3.
Proof.
  intros [A1 A2 A4 A3] [B1 B2 B4 B3]. split; [congruence|by etrans| |].
  { intros q Hc Ho. destruct (B4 q Hc Ho). by apply A4. }
  intros q c Ho Hc. destruct (A3 q c Ho Hc) as (Ho2 & Hc2 & Hs2).
  destruct (B3 q c Ho2 Hc2) as (Ho3 & Hc3 & Hs3). split_and!; try done. intros i r Hi. rewrite (Hs3 i r Hi). by eapply Hs2.
Qed.
Lemma trimmed_frame T s T' s' : trimmed T s T' s' -> frame T s T' s'.
Proof.
  intros [E1 E2 E3 E4 E5 E6 E7 E8]. split; [done|by rewrite E5| |].
  - intros q Hc Ho. pose proof (E7 q Hc Ho) as Hq. split; [done|]. by rewrite <- (E6 q Hq).
  - intros q c Ho Hc. split; [by eapply outside_sub|]. split; [by rewrite E6|]. intros i r Hi. by eapply E8.
Qed.
Lemma works_frame T k p s s' : T !! k = Some p -> works p s s' -> frame T s T s'.
Proof.
  intros Hk [[[] O2 O3 O4 _] _]. assert (Hne : forall q, outside T q -> q <> p) by (intros q Ho ->; by apply (Ho k)). split; [done|done| |].
  - intros q Hc Ho. split; [done|]. by rewrite <- (O3 q (Hne q Ho)).
  - intros q c Ho Hc. split_and!; [done|by rewrite O3 by auto|]. intros i r Hi. eapply O4; eauto.
Qed.
Lemma around_frame T s s' : cents s !! brk s = None -> cents s' !! brk s = None -> around (brk s) s s' -> frame T s T s'.
Proof.
  intros Hb Hb' [[] O2 O3 O4]. split; [done|done| |].
  - intros q Hc Ho. split; [done|]. rewrite <- O3; [done|]. intros ->. rewrite Hb' in Hc. by destruct Hc.
  - intros q c Ho Hc. assert (q <> brk s) by (intros ->; congruence). split_and!; [done|by rewrite O3|]. intros i r Hi. by eapply O4.
Qed.
Lemma asked_ok T s s' : cache_ok T s -> asked_only s s' -> cache_ok T s'.
Proof. intros ([L H] & Hs & Hi) [n ->]. split; [exists L; by apply inv_ask|done]. Qed.
Lemma purge_ok sz lazy T s : cache_ok T s -> crun (purge_cache sz lazy) s (fun _ s' => exists T', T' ⊆ T /\ cache_ok T' s' /\ frame T s T' s').
Proof.
  intros ([L H] & Hs & Hi). eapply crun_mono; [apply (purge_cache_run sz lazy L T s H Hs); by left|]. intros [] s' (L' & T' & H' & Hs' & Htr & _).
  exists T'. split; [apply Htr|]. split; [|by apply trimmed_frame]. split; [by exists L'|]. split; [done|]. by apply (tr_sort _ _ _ _ Htr).
Qed.

(** * A new entry *)
Lemma list_sets_run n : forall i L s p c, store_ok L s -> cents s !! p = Some c -> 0 <= i -> i + Z.of_nat n <= slot_count c ->
  (forall j r, i <= j -> slot c j = Some r -> lent <$> rrsets s !! r = Some None) ->
  crun (list_sets n i p) s (fun ok s' => works p s s' /\ cents s' = cents s /\ (ok = false -> starved s)).
Proof.
  induction n as [|n IH]; intros i L s p c H Hc Hi Hn Hnew; cbn [list_sets]; [step; split; [by apply (works_refl L)|done]|].
  pose proof (so_cents _ _ H p c Hc) as Hok. do 3 step. apply crun_lift. rewrite (rrarr_index_ok _ _ _ Hok) by lia. cbn [succeeds].
  destruct (slot c i) as [r|] eqn:Er; [|apply (IH (i + 1) L s p c); try done; [lia|lia|intros j r Hj; apply Hnew; lia]].
  pose proof (Hnew i r ltac:(lia) Er) as Hx. destruct (rrsets s !! r) as [x|] eqn:Ex; [|done]. injection Hx as Hx.
  apply crun_assoc. step. eapply crun_mono; [by apply (list_set_run L s p c i r x)|]. intros ok s1 (Hw & Hcs & Hst & Hrr). destruct ok; [|by step].
  pose proof Hw as [_ [L1 H1]]. eapply crun_mono; [apply (IH (i + 1) L1 s1 p c H1); [by rewrite Hcs|lia|lia|]|].
  - intros j r' Hj Hr'. rewrite Hrr; [apply (Hnew j); [lia|done]|]. intros ->.
    destruct (lk_inj _ _ _ (so_links _ _ H) _ _ _ _ _ _ _ Hc Hc Er Hr') as [_ Hij]. lia.
  - intros ok s2 (Hw2 & Hcs2 & Hst2). split; [by eapply works_trans|]. split; [congruence|]. intros E. by apply (works_starved p s s1); auto.
Qed.
Lemma drop_nocache_negative f : has (drop_flag f DF_NOCACHE) DF_NEGATIVE = has f DF_NEGATIVE.
Proof. by apply land_land_one. Qed.
Lemma list_neg_run L s p c : store_ok L s -> cents s !! p = Some c -> negative c = true -> neg_lent c = None ->
  crun (_ ← adjust_dom_ttl p; insert_rrl None p (-1)) s (fun ok s' => works p s s' /\ (ok = false -> starved s)).
Proof.
  intros H Hc Hn Hl. pose proof (so_cents _ _ H p c Hc) as Hok. destruct (the_neg_ok _ _ Hok Hn) as (l & t & m & E & Es).
  assert (l = None) as -> by (unfold neg_lent in Hl; by rewrite Es in Hl). unfold adjust_dom_ttl. do 5 step. step. apply crun_lift. rewrite E. cbn [succeeds].
  set (c' := if has (flags c) DF_NOCACHE then _ else _).
  assert (Hc' : qname c' = qname c /\ cs c' = cs c /\ num_rrs c' = num_rrs c /\ negative c' = true /\ exists t', side c' = Neg None t' m).
  { unfold c'. destruct (has (flags c) DF_NOCACHE); split_and!; try done; try (by eexists). unfold negative. cbn. by rewrite drop_nocache_negative. }
  destruct Hc' as (F1 & F2 & F3 & F4 & t' & F5). step.
  assert (H1 : store_ok L (set_cents (<[p := c']> (cents s)) s)).
  { apply (store_cent_upd L s p c c' H Hc).
    - destruct Hok as [G1 G2 G3 G4]. unfold slots, ext_size in *. rewrite Es in *. constructor; unfold slots, ext_size; rewrite ?F5, ?F1, ?F2, ?F3; done.
    - unfold neg_lent. by rewrite Es, F5.
    - intros j. unfold slot, slots. by rewrite Es, F5. }
  eapply crun_mono; [apply (insert_neg_store L _ p c' (-1) t' m H1); [apply lookup_insert_eq|done]|].
  intros ok s2 (Hon & _ & Hst & L2 & o & H2 & _). split; [|intros E'; by destruct (Hst E') as [k Hk]; exists k].
  split; [|by exists L2]. etrans; [by apply (on_cent_upd p c c')|exact Hon].
Qed.
Lemma inv_outside L T s q : inv L T s -> cents s !! q = None -> outside T q.
Proof. intros H Hq k Hk. destruct (inv_lookup _ _ _ _ _ H Hk) as (c & _ & Hc & _). congruence. Qed.
Lemma fresh_outside L T s : inv L T s -> outside T (brk s) /\ cents s !! brk s = None.
Proof. intros H. destruct (store_fresh _ _ (iv_store _ _ _ H)) as (_ & _ & _ & Hb). split; [by eapply inv_outside|done]. Qed.
Lemma gone_unlisted L s p : store_ok L s -> cents s !! p = None -> unlisted s p.
Proof. intros H Hp a e Ha <-. destruct (lent_cent _ _ _ _ H Ha). congruence. Qed.
(** The attempt has left nothing behind. *)
Definition unchanged T s s' : Prop := (exists L', inv L' T s') /\ sized T s' /\ frame T s T s' /\ insert_sort s' = insert_sort s.
Lemma around_unchanged L T s L' s' : inv L T s -> sized T s -> around (brk s) s s' -> store_ok L' s' -> cents s' !! brk s = None -> unchanged T s s'.
Proof.
  intros H Hs Har H' Hb. destruct (fresh_outside L T s H) as [Ho Hn]. split; [|split; [by apply (around_sized T s s' (brk s))|split; [by apply around_frame|apply Har]]].
  exists L'. apply (around_inv L T s L' s' (brk s)); try done. by apply (gone_unlisted L').
Qed.
Lemma around_tbl L T s s' : inv L T s -> around (brk s) s s' -> tbl_ok T s'.
Proof.
  intros H Har. destruct (fresh_outside L T s H) as [Ho Hn]. apply (tbl_ext T s); [apply Har| |apply H].
  intros k p N Hk. apply named_same. apply (ar_cents _ _ _ Har). intros ->. by apply (Ho k).
Qed.
Lemma release_then {A} L s p c (m : cm A) Q : store_ok L s -> cents s !! p = Some c -> (forall L' s', gone p L s L' s' -> crun m s' Q) ->
  crun (_ ← free_cent p; _ ← free p; m) s Q.
Proof. intros H Hc Hm. apply crun_assoc. step. eapply crun_mono; [by apply (release_store L s p c)|]. intros [] s' (L' & Hg). by eapply Hm. Qed.

(** The copy is put on the list, according to its kind. *)
Lemma list_copy_run L s s0 q c d : store_ok L s -> cents s !! q = Some d -> same_cent s0 c s d ->
  crun (c ← get_cent q;
        if negb (negative c) then ilim ← lift (RRARR_LEN c); list_sets (Z.to_nat ilim) 0 q
        else _ ← adjust_dom_ttl q; insert_rrl None q (-1)) s (fun ok s' => works q s s' /\ (ok = false -> starved s)).
Proof.
  intros H Hq Hsame. pose proof (so_cents _ _ H q d Hq) as Hok. do 2 step. destruct (negative d) eqn:E; cbn [negb].
  - apply (list_neg_run L s q d); try done. apply Hsame.
  - step. apply crun_lift. rewrite (rrarr_len_ok _ _ Hok). cbn [succeeds]. eapply crun_mono; [apply (list_sets_run _ 0 L s q d H Hq); try lia|].
    + unfold slot_count. lia.
    + intros j r _ Hj. pose proof (sc_slots _ _ _ _ Hsame j) as Hcp. rewrite Hj in Hcp. destruct (slot c j) as [t|]; [|done].
      destruct Hcp as (r' & x & [= <-] & _ & Hx). by rewrite Hx.
    + intros ok s' (Hw & _ & Hst). done.
Qed.
Definition added T s K (s' : cache) (q : positive) : Prop :=
  (exists L', inv L' (<[fold_name K := q]> T) s') /\ (exists c, cents s' !! q = Some c /\ qname c = enc K) /\ cache_size s' = sum_cs (cents s') T /\
  frame T s (<[fold_name K := q]> T) s' /\ insert_sort s' = insert_sort s.
Lemma added_intro L T s K L' s' q m n : inv L T s -> sized T s -> q = brk s -> around q s s' -> store_ok L' s' -> tbl_ok (<[fold_name K := q]> T) (set_buckets m s') ->
  named (cents s') q K -> T !! fold_name K = None -> n = ent_num s' + 1 -> added T s K (set_num n (set_buckets m s')) q.
Proof.
  intros H Hs -> Har H' Ht (c & Hc & Hq & HK) HT ->. destruct (fresh_outside L T s H) as [Ho Hn]. split; [|split; [|split; [|split]]].
  - exists L'. split; [by apply store_num, store_buckets|by apply (tbl_ext _ (set_buckets m s'))| |].
    + cbn [ent_num set_num set_buckets]. rewrite (st_num _ _ (ar_stays _ _ _ Har)), (iv_num _ _ _ H), map_size_insert_None by done. lia.
    + intros a e Ha. destruct (lents_step (brk s) L s L' s' (iv_store _ _ _ H) H' (ar_cents _ _ _ Har) (ar_sets _ _ _ Har) a e Ha) as [->|(e' & He' & <-)].
      * exists (fold_name K). by rewrite lookup_insert_eq.
      * destruct (iv_lents _ _ _ H _ _ He') as [k Hk]. exists k. rewrite lookup_insert_ne; [done|]. congruence.
  - by exists c.
  - pose proof (around_sized T s s' (brk s) Ho Har Hs) as Hs'. exact Hs'.
  - destruct Har as [[] O2 O3 O4]. split; [done|done| |].
    { intros p Hp Hop. assert (p <> brk s) by (intros ->; by apply (Hop (fold_name K)); rewrite lookup_insert_eq). split.
      - intros k Hk. apply (Hop k). rewrite lookup_insert_ne; [done|]. congruence.
      - by rewrite <- O3. }
    intros p d Hop Hd. assert (p <> brk s) by (intros ->; congruence). split_and!; [|by rewrite <- O3 in Hd|intros i r Hi; by eapply O4].
    intros k Hk. apply lookup_insert_Some in Hk as [[_ <-]|[_ Hk]]; [congruence|by apply (Hop k)].
  - apply Har.
Qed.
Lemma add_new_run L T s d cd K loc : inv L T s -> sized T s -> outside T d -> cents s !! d = Some cd -> qname cd = enc K -> name_ok K ->
  T !! fold_name K = None -> place T s K loc ->
  crun (add_new d loc) s (fun o s' => match o with Some q => added T s K s' q | None => unchanged T s s' /\ starved s end).
Proof.
  intros H Hs Ho Hd Hq HK HT Hpl. unfold add_new. step. eapply crun_mono; [by apply (copy_cent_run L s d cd (iv_store _ _ _ H))|].
  intros o s1 (Har & [L1 H1] & Hpost). destruct o as [q|]; [|step; destruct Hpost as [Hb Hst]; split; [by eapply around_unchanged|done]].
  destruct Hpost as (-> & c & Hc & Hsame). set (q := brk s) in *.
  apply crun_assoc. step. eapply crun_mono; [by apply (list_copy_run L1 s1 s q cd c)|]. intros ok s2 (Hw & Hst). pose proof Hw as [Hon [L2 H2]].
  assert (Har2 : around q s s2) by (etrans; [exact Har|by apply on_cent_around]). destruct (on_cent_name _ _ _ _ Hon Hc) as (c2 & Hc2 & Hn2).
  assert (Hnm : named (cents s2) q K) by (exists c2; split; [done|]; split; [by rewrite Hn2, (sc_name _ _ _ _ Hsame)|done]).
  assert (Hstv : ok = false -> starved s).
  { intros E. destruct (Hst E) as [k Hk]. exists k. by rewrite <- (st_env _ _ (ar_stays _ _ _ Har)). }
  assert (Hfail : forall s3, around q s s3 -> store_ok L2 s3 -> is_Some (cents s3 !! q) -> starved s ->
    crun (_ ← free_cent q; _ ← free q; mret None) s3 (fun o s' => match o with Some q => added T s K s' q | None => unchanged T s s' /\ starved s end)).
  { intros s3 A3 H3 [c3 Hc3] Hs3. apply (release_then L2 s3 q c3); [done|done|]. intros L4 s4 Hg. step. split; [|done].
    apply (around_unchanged L T s L4 s4 H Hs); [etrans; [exact A3|by eapply gone_around]|apply Hg|]. rewrite (go_cents _ _ _ _ _ Hg). apply lookup_delete_eq. }
  step. destruct ok; [|step; apply Hfail; eauto].
  eapply crun_mono; [apply (add_dns_hash_run T s2 K loc q); [by apply (around_tbl L T s)| | | |]|]; try done.
  - apply (place_ext T s); [apply Har2|done].
  - apply (fresh_outside L T s H).
  - intros ok s3 Hok. destruct ok.
    + destruct Hok as (m & -> & Ht). do 3 step. step.
      apply (added_intro L T s K L2 (set_asked (S (asked s2)) s2) q m); try done; [etrans; [exact Har2|apply around_ask]|by apply store_ask].
    + destruct Hok as [[k Hk] ->]. apply Hfail; [etrans; [exact Har2|apply around_ask]|by apply store_ask|by eexists|].
      exists k. by rewrite <- (st_env _ _ (ar_stays _ _ _ Har2)).
Qed.

(** * The entry counts again, and the cache is purged *)
Definition counted L T s k p : Prop := inv L T s /\ sized (delete k T) s /\ T !! k = Some p.
Lemma count_in L T s k p c : counted L T s k p -> cents s !! p = Some c ->
  inv L T (DnsStore.set_size (cache_size s + cs c) s) /\ sized T (DnsStore.set_size (cache_size s + cs c) s).
Proof.
  intros (H & Hs & Hk) Hc. split; [destruct H; split; [by apply store_size|by apply (tbl_ext _ s)|done|done]|].
  unfold sized in *. cbn [cache_size DnsStore.set_size cents]. rewrite Hs, (sum_cs_delete _ T _ _ Hk). unfold cs_at. rewrite Hc. cbn. lia.
Qed.
Lemma count_out L T s k p c : inv L T s -> sized T s -> T !! k = Some p -> cents s !! p = Some c -> counted L T (DnsStore.set_size (cache_size s + - cs c) s) k p.
Proof.
  intros H Hs Hk Hc. split; [destruct H; split; [by apply store_size|by apply (tbl_ext _ s)|done|done]|]. split; [|done].
  unfold sized in *. cbn [cache_size DnsStore.set_size cents]. rewrite Hs, (sum_cs_delete _ T _ _ Hk). unfold cs_at. rewrite Hc. cbn. lia.
Qed.
Lemma works_counted L T s s' k p : counted L T s k p -> works p s s' -> exists L', counted L' T s' k p.
Proof.
  intros (H & Hs & Hk) [Hon [L' H']]. exists L'. split; [by eapply on_cent_inv|]. split; [|done]. eapply on_cent_sized; [apply H|done|done|done].
Qed.
(** What an operation on the cache leaves: part of the table [T]. *)
Definition leaves T s T0 s' : Prop := exists T', T' ⊆ T0 /\ cache_ok T' s' /\ frame T s T' s'.
Lemma add_done_run L T s k p c : counted L T s k p -> cents s !! p = Some c -> insert_sort s = true -> crun (add_done p) s (fun _ s' => leaves T s T s').
Proof.
  intros H Hc Hi. destruct (count_in L T s k p c H Hc) as [H1 Hs1]. unfold add_done. do 4 step. set (s1 := DnsStore.set_size _ _) in *. do 2 step.
  eapply crun_mono; [apply (purge_ok _ true T s1); split; [by exists L|done]|]. intros [] s' (T' & Hsub & Hok & Hfr). exists T'. split_and!; try done.
  destruct Hfr as [F1 F2 F3 F4]. by split.
Qed.
Lemma flags_ok R c f a b : cent_ok R c -> Z.land f 1 = 0 -> cent_ok R (with_csoa a (with_cns b (with_flags (Z.lor (flags c) f) c))).
Proof.
  intros [G1 G2 G3 G4] Hf. constructor; try done. cbn [side with_csoa with_cns with_flags]. unfold negative in *. cbn [flags with_csoa with_cns with_flags]. by rewrite lor_negative.
Qed.
Lemma auth_wild f : Z.land (Z.land f (Z.lor DF_AUTH DF_WILD)) 1 = 0.
Proof. rewrite <- Z.land_assoc. change (Z.land (Z.lor DF_AUTH DF_WILD) 1) with 0. by rewrite Z.land_0_r. Qed.
Lemma add_to_run T s d cd k p : cache_ok T s -> T !! k = Some p -> outside T d -> cents s !! d = Some cd -> crun (add_to d p) s (fun _ s' => leaves T s T s').
Proof.
  intros ([L H] & Hs & Hi) Hk Ho Hd. destruct (inv_lookup _ _ _ _ _ H Hk) as (c0 & _ & Hc0 & _). assert (Hdp : d <> p) by (intros ->; by apply (Ho k)).
  unfold add_to. step. eapply crun_mono; [by apply (purge_cent_run L T s k p c0 false)|]. intros v s1 (L1 & T1 & H1 & Hs1 & Htr & [(_ & Hx & _)|(_ & -> & c & Hc & _)]); [done|].
  assert (Hd1 : cents s1 !! d = Some cd) by (by rewrite (tr_cents _ _ _ _ Htr)). assert (Hi1 : insert_sort s1 = true) by (by apply (tr_sort _ _ _ _ Htr)).
  pose proof (count_out L1 T s1 k p c H1 Hs1 Hk Hc) as Hcnt. do 3 step. step. set (s2 := DnsStore.set_size _ _) in *.
  assert (Hf2 : frame T s T s2) by (pose proof (trimmed_frame _ _ _ _ Htr) as [F1 F2 F3 F4]; by split).
  pose proof (so_cents _ _ (iv_store _ _ _ H1) d cd Hd1) as Hdok. do 3 step. apply crun_lift. rewrite (rrarr_len_ok _ _ Hdok). cbn [succeeds].
  step. eapply crun_mono; [apply (merge_sets_run _ 0 L1 s2 d p cd c (iv_store _ _ _ (proj1 Hcnt)) Hdp Hd1 Hc); unfold slot_count; lia|].
  intros x s3 (Hw & Hx). destruct (works_counted _ _ _ _ _ _ Hcnt Hw) as [L3 Hcnt3]. destruct (works_cent _ _ _ _ Hw Hc) as [c3 Hc3].
  assert (Hf3 : frame T s T s3) by (eapply cframe_trans; [exact Hf2|by eapply works_frame]).
  assert (Hi3 : insert_sort s3 = true) by (by rewrite (st_sort _ _ (oc_stays _ _ _ (proj1 Hw)))).
  (** without memory the entry counts with what it has *)
  assert (Hback : forall s4, works p s3 s4 -> crun (c ← get_cent p; add_size (cs c)) s4 (fun _ s' => leaves T s T s')).
  { intros s4 Hw4. destruct (works_counted _ _ _ _ _ _ Hcnt3 Hw4) as [L4 Hcnt4]. destruct (works_cent _ _ _ _ Hw4 Hc3) as [c4 Hc4]. do 3 step.
    destruct (count_in L4 T s4 k p c4 Hcnt4 Hc4) as [H5 Hs5]. exists T. split; [done|]. split.
    - split; [by exists L4|]. split; [done|]. cbn. by rewrite (st_sort _ _ (oc_stays _ _ _ (proj1 Hw4))).
    - eapply cframe_trans; [exact Hf3|]. pose proof (works_frame T k p _ _ Hk Hw4) as [F1 F2 F3 F4]. by split. }
  destruct x as [| |j].
  - step. eapply crun_get_cent; [exact Hc3|]. step. step. set (c4 := with_csoa _ _). pose proof Hcnt3 as (H3 & Hs3 & _).
    pose proof (flags_ok (rrsets s3) c3 _ (greater_ref (c_soa c3) (c_soa cd)) (greater_ref (c_ns c3) (c_ns cd)) (so_cents _ _ (iv_store _ _ _ H3) p c3 Hc3) (auth_wild (flags cd))) as Hok4.
    fold c4 in Hok4. assert (Hw4 : works p s3 (set_cents (<[p := c4]> (cents s3)) s3)).
    { split; [by apply (on_cent_upd p c3 c4)|]. exists L3. by apply (store_cent_upd L3 s3 p c3 c4 (iv_store _ _ _ H3) Hc3 Hok4). }
    destruct (works_counted _ _ _ _ _ _ Hcnt3 Hw4) as [L4 Hcnt4]. eapply crun_mono; [apply (add_done_run L4 T _ k p c4 Hcnt4); [apply lookup_insert_eq|done]|].
    intros [] s5 (T5 & Hsub & Hok5 & Hf5). exists T5. split_and!; try done. eapply cframe_trans; [exact Hf3|]. eapply cframe_trans; [by eapply works_frame|exact Hf5].
  - do 2 step. apply Hback. by apply (works_refl L3), Hcnt3.
  - step. step. eapply crun_mono; [apply (del_index_fewer L3 s3 p c3 j (iv_store _ _ _ (proj1 Hcnt3)) Hc3); by destruct Hx|]. intros m s4 (c4 & [Hw4 _ _ _ _] & _). step. by apply Hback.
Qed.

(** * [add_cache] *)
Lemma any_local_run n : forall i L s p c, store_ok L s -> cents s !! p = Some c -> 0 <= i -> i + Z.of_nat n <= slot_count c -> crun (any_local n i p) s (fun _ s' => s' = s).
Proof.
  induction n as [|n IH]; intros i L s p c H Hc Hi Hn; cbn [any_local]; [by step|]. do 3 step. apply crun_lift.
  rewrite (rrarr_index_ok _ _ _ (so_cents _ _ H p c Hc)) by lia. cbn [succeeds]. assert (Hrec : crun (any_local n (i + 1) p) s (fun _ s' => s' = s)) by (apply (IH (i + 1) L s p c); [done|done|lia|lia]).
  destruct (slot c i) as [r|] eqn:Er; [|done]. destruct (lk_live _ _ _ (so_links _ _ H) _ _ _ _ Hc Er) as [x Hx]. do 2 step. apply crun_if; intros _; [by step|done].
Qed.
(** The table after an entry of the name [K] has been added: nothing else is new. *)
Definition grown K T T' : Prop := forall k p, T' !! k = Some p -> k = fold_name K \/ T !! k = Some p.
Lemma grown_insert K T T' q : T' ⊆ <[fold_name K := q]> T -> grown K T T'.
Proof. intros H k p Hk. apply (lookup_weaken _ _ _ _ Hk) in H. apply lookup_insert_Some in H as [[<- _]|[_ H]]; auto. Qed.
Lemma grown_sub K T T' : T' ⊆ T -> grown K T T'.
Proof. intros H k p Hk. right. by eapply lookup_weaken. Qed.
Definition add_post K T s s' : Prop := exists T', grown K T T' /\ cache_ok T' s' /\ frame T s T' s'.
Lemma leaves_add K T s s' : leaves T s T s' -> add_post K T s s'.
Proof. intros (T' & Hsub & H). exists T'. split; [by apply grown_sub|done]. Qed.
Lemma add_miss n T s d cd K : cache_ok T s -> outside T d -> cents s !! d = Some cd -> qname cd = enc K -> name_ok K -> T !! fold_name K = None ->
  crun (add_cache_at (S n) d) s (fun _ s' => add_post K T s s').
Proof.
  intros Hok Ho Hd Hq HK HT. pose proof Hok as ([L H] & Hs & Hi). cbn [add_cache_at]. do 2 step. rewrite Hq. destruct (dns_lookup_run' T s K (iv_table _ _ _ H) HK) as (loc & El & Hpl).
  step. eapply crun_Ok; [exact El|]. rewrite HT. apply crun_if; intros E.
  { do 2 step. eapply crun_mono; [by apply (purge_ok _ true T s)|]. intros _ s' (T' & Hsub & H'). exists T'. split; [by apply grown_sub|done]. }
  step. eapply crun_mono; [by apply (add_new_run L T s d cd K loc)|]. intros o s1 Hpost. destruct o as [q|].
  - destruct Hpost as ([L1 H1] & (c & Hc & _) & Hsz & Hfr & Hi1). set (T1 := <[fold_name K := q]> T) in *.
    assert (Hcnt : counted L1 T1 s1 (fold_name K) q).
    { split; [done|]. split; [|apply lookup_insert_eq]. unfold T1. by rewrite delete_insert_eq, delete_id. }
    eapply crun_mono; [apply (add_done_run L1 T1 s1 (fold_name K) q c Hcnt Hc); congruence|]. intros _ s2 (T2 & Hsub & Hok2 & Hfr2).
    exists T2. split; [by eapply grown_insert|]. split; [done|]. by eapply cframe_trans.
  - step. destruct Hpost as ((H1 & Hs1 & Hfr & Hi1) & _). exists T. split; [by apply grown_sub|]. split; [|done]. split; [done|]. split; [done|congruence].
Qed.
Lemma add_cache_run T s d cd K : cache_ok T s -> outside T d -> cents s !! d = Some cd -> qname cd = enc K -> name_ok K -> crun (add_cache d) s (fun _ s' => add_post K T s s').
Proof.
  intros Hok Ho Hd Hq HK. destruct (T !! fold_name K) as [p|] eqn:HT; [|by apply (add_miss 1 T s d cd K)].
  pose proof Hok as ([L H] & Hs & Hi). unfold add_cache. cbn [add_cache_at]. do 2 step. rewrite Hq. destruct (dns_lookup_run' T s K (iv_table _ _ _ H) HK) as (loc & El & Hpl).
  step. eapply crun_Ok; [exact El|]. rewrite HT. apply crun_if; intros E.
  - destruct (inv_lookup _ _ _ _ _ H HT) as (c & _ & Hc & _). pose proof (so_cents _ _ (iv_store _ _ _ H) p c Hc) as Hcok.
    do 3 step. apply crun_lift. rewrite (rrarr_len_ok _ _ Hcok). cbn [succeeds].
    step. eapply crun_mono; [apply (any_local_run _ 0 L s p c (iv_store _ _ _ H) Hc); unfold slot_count; lia|]. intros b ? ->. destruct b.
    { step. apply leaves_add. exists T. split; [done|]. split; [done|apply frame_refl]. }
    step. eapply crun_mono; [by apply (del_cache_ent_at L T s K loc p)|]. intros [] s1 (L1 & Hrm).
    assert (Htr : trimmed T s (delete (fold_name K) T) s1) by (eapply shrunk_gone; [exact HT|by eapply removed_shrunk|rewrite (rm_cents _ _ _ _ _ _ _ Hrm); apply lookup_delete_eq]).
    eapply crun_mono; [apply (add_miss 0 (delete (fold_name K) T) s1 d cd K); try done|].
    + split; [exists L1; apply Hrm|]. split; [by apply (rm_sized _ _ _ _ _ _ _ Hrm)|]. by rewrite (rm_sort _ _ _ _ _ _ _ Hrm).
    + by eapply outside_sub; [apply delete_subseteq|].
    + by rewrite (tr_cents _ _ _ _ Htr).
    + apply lookup_delete_eq.
    + intros _ s2 (T2 & Hgr & Hok2 & Hfr). exists T2. split; [|split; [done|]].
      * intros k q Hk. destruct (Hgr k q Hk) as [->|Hk']; [by left|]. apply lookup_delete_Some in Hk' as [_ Hk']. by right.
      * eapply cframe_trans; [by apply trimmed_frame|done].
  - eapply crun_mono; [by apply (add_to_run T s d cd (fold_name K) p)|]. intros [] s' Hl. by apply leaves_add.
Qed.
