(* ===== verification/DnsLookup.v ===== *)
(** Deleting, invalidating and looking up entries keep the invariant of pdnsd's
    cache. *)
From S2P Require Import Prelude CLib Rhn DnsName DnsNameProps DnsCompress DnsMessage HevList DnsStore DnsCents DnsHash DnsCache DnsRrl DnsHeap DnsEntry DnsFree DnsCopy DnsTable DnsPurge DnsCent DnsMerge DnsAdd.

Implicit Types (T : gmap (list label) positive) (K N : list label) (s : cache) (L : list positive) (p q : positive).

(** What an operation does that may delete entries, and adds none. *)
Definition keeps T s s' : Prop := leaves T s T s'.
Lemma keeps_same T s : cache_ok T s -> keeps T s s.
Proof. intros H. exists T. split; [done|]. split; [done|apply frame_refl]. Qed.
Lemma cache_lookup T s k p : cache_ok T s -> T !! k = Some p -> exists c N, cents s !! p = Some c /\ qname c = enc N /\ name_ok N /\ fold_name N = k.
Proof. intros ([L H] & _). by eapply inv_lookup. Qed.
Lemma cache_find T s K x : cache_ok T s -> name_ok K -> exists loc, dns_lookup (enc K ++ x) s = Ok ((T !! fold_name K, loc), s).
Proof. intros ([L H] & _) HK. destruct (dns_lookup_run T s K x (iv_table _ _ _ H) HK) as (loc & E & _). by exists loc. Qed.
Lemma cache_find' T s K : cache_ok T s -> name_ok K -> exists loc, dns_lookup (enc K) s = Ok ((T !! fold_name K, loc), s).
Proof. intros H HK. destruct (cache_find T s K [] H HK) as (loc & E). rewrite app_nil_r in E. by exists loc. Qed.
Lemma removed_ok p k L T s L' s' : cache_ok T s -> inv L T s -> T !! k = Some p -> removed p k L T s L' s' -> cache_ok (delete k T) s' /\ frame T s (delete k T) s'.
Proof.
  intros (_ & Hs & Hi) H Hk Hrm. split.
  - split; [exists L'; apply Hrm|]. split; [by apply (rm_sized _ _ _ _ _ _ _ Hrm)|]. by rewrite (rm_sort _ _ _ _ _ _ _ Hrm).
  - apply trimmed_frame. eapply shrunk_gone; [exact Hk|by eapply removed_shrunk|rewrite (rm_cents _ _ _ _ _ _ _ Hrm); apply lookup_delete_eq].
Qed.

(** * [del_cache] *)
Lemma buckets_ok T s m : cache_ok T s -> tbl_ok T (set_buckets m s) -> cache_ok T (set_buckets m s).
Proof. intros ([L []] & Hs & Hi) Ht. split; [exists L; split; [by apply store_buckets|done..]|done]. Qed.
Lemma del_cache_run T s K x : cache_ok T s -> name_ok K -> crun (del_cache (enc K ++ x)) s (fun _ s' => cache_ok (delete (fold_name K) T) s' /\ frame T s (delete (fold_name K) T) s').
Proof.
  intros Hok HK. pose proof Hok as ([L H] & Hs & Hi). unfold del_cache. step. pose proof (del_dns_hash_run T s K x (iv_table _ _ _ H) HK) as Hd.
  eapply crun_mono; [exact Hd|]. intros o ? (-> & m & -> & Ht). destruct (T !! fold_name K) as [p|] eqn:HT.
  - eapply crun_mono; [by apply (del_cent_removed L T s (fold_name K) p m)|]. intros [] s' (L' & Hrm). by eapply removed_ok.
  - step. rewrite delete_id in * by done. split; [by apply buckets_ok|]. by split.
Qed.

(** * Changes in place *)
Lemma in_place T s s' k p c c' : cache_ok T s -> T !! k = Some p -> works p s s' -> cents s !! p = Some c -> cents s' !! p = Some c' -> cs c' = cs c -> cache_ok T s' /\ frame T s T s'.
Proof.
  intros ([L H] & Hs & Hi) Hk Hw Hc Hc' Hcs. pose proof Hw as [Hon [L' H']]. split; [|by eapply works_frame]. split; [exists L'; by eapply on_cent_inv|].
  split; [|by rewrite (st_sort _ _ (oc_stays _ _ _ Hon))]. unfold sized in *. rewrite (st_size _ _ (oc_stays _ _ _ Hon)), Hs. symmetry. apply sum_cs_ext.
  intros k' q Hq. unfold cs_at. destruct (decide (q = p)) as [->|Hqp]; [by rewrite Hc, Hc'|]. by rewrite (oc_cents _ _ _ Hon).
Qed.
Lemma invalidate_sets_run n : forall i L s p c, store_ok L s -> cents s !! p = Some c -> 0 <= i -> i + Z.of_nat n <= slot_count c ->
  crun (invalidate_sets n i p) s (fun _ s' => works p s s' /\ cents s' = cents s).
Proof.
  induction n as [|n IH]; intros i L s p c H Hc Hi Hn; cbn [invalidate_sets]; [step; split; [by apply (works_refl L)|done]|]. do 3 step. apply crun_lift.
  rewrite (rrarr_index_ok _ _ _ (so_cents _ _ H p c Hc)) by lia. cbn [succeeds]. step. destruct (slot c i) as [r|] eqn:Er.
  - destruct (lk_live _ _ _ (so_links _ _ H) _ _ _ _ Hc Er) as [x Hx]. do 3 step. set (x' := with_rflags _ _).
    destruct (store_put_set L s p c i r x x' H Hc Er Hx eq_refl eq_refl) as [H1 Hon].
    eapply crun_mono; [apply (IH (i + 1) L _ p c H1); [done|lia|lia]|]. intros [] s2 [Hw Hcs]. split; [eapply works_trans; [split; [exact Hon|by exists L]|exact Hw]|by rewrite Hcs].
  - step. apply (IH (i + 1) L s p c); [done|done|lia|lia].
Qed.
Lemma drop_auth_ok R c : cent_ok R c -> cent_ok R (with_flags (drop_flag (flags c) DF_AUTH) c).
Proof. intros [G1 G2 G3 G4]. constructor; try done. unfold negative in *. cbn [flags side with_flags]. by rewrite drop_auth_negative. Qed.
Lemma flags_works L s p c f : store_ok L s -> cents s !! p = Some c -> has f DF_NEGATIVE = negative c -> works p s (set_cents (<[p := with_flags f c]> (cents s)) s).
Proof.
  intros H Hc Hf. split; [by apply (on_cent_upd p c)|]. exists L. apply (store_cent_upd L s p c); try done.
  destruct (so_cents _ _ H p c Hc) as [G1 G2 G3 G4]. constructor; try done. unfold negative in *. cbn [flags side with_flags]. by rewrite Hf.
Qed.
Lemma invalidate_record_run T s K x : cache_ok T s -> name_ok K -> crun (invalidate_record (enc K ++ x)) s (fun _ s' => cache_ok T s' /\ frame T s T s').
Proof.
  intros Hok HK. pose proof Hok as ([L H] & Hs & Hi). destruct (cache_find T s K x Hok HK) as (loc & El). unfold invalidate_record. step. eapply crun_Ok; [exact El|].
  destruct (T !! fold_name K) as [p|] eqn:HT; [|step; split; [done|apply frame_refl]]. destruct (inv_lookup _ _ _ _ _ H HT) as (c & _ & Hc & _).
  pose proof (so_cents _ _ (iv_store _ _ _ H) p c Hc) as Hcok. do 3 step.
  apply (crun_mono _ _ (fun _ s1 => works p s s1 /\ exists c1, cents s1 !! p = Some c1 /\ cs c1 = cs c)).
  { destruct (negative c) eqn:En; cbn [negb].
    - destruct (the_neg_ok _ _ Hcok En) as (l & t & m & E & Es). step. apply crun_lift. rewrite E. cbn [succeeds]. step. split; [|eexists; split; [apply lookup_insert_eq|done]].
      split; [by apply (on_cent_upd p c)|]. exists L. apply (store_cent_upd L s p c (with_side (Neg l t 0) c) (iv_store _ _ _ H) Hc).
      + destruct Hcok as [G1 G2 G3 G4]. unfold slots, ext_size in *. rewrite Es in *. by constructor.
      + unfold neg_lent. by rewrite Es.
      + intros j. unfold slot, slots. by rewrite Es.
    - step. apply crun_lift. rewrite (rrarr_len_ok _ _ Hcok). cbn [succeeds].
      eapply crun_mono; [apply (invalidate_sets_run _ 0 L s p c (iv_store _ _ _ H) Hc); unfold slot_count; lia|]. intros [] s1 [Hw Hcs]. split; [done|]. exists c. by rewrite Hcs. }
  intros [] s1 (Hw & c1 & Hc1 & Hcs1). pose proof Hw as [_ [L1 H1]]. eapply crun_update; [exact Hc1|].
  assert (Hw2 : works p s1 (set_cents (<[p := with_flags (drop_flag (flags c1) DF_AUTH) c1]> (cents s1)) s1)) by (apply (flags_works L1); [done|done|apply drop_auth_negative]).
  eapply (in_place T s _ (fold_name K) p c); [done|done|by eapply works_trans|done|apply lookup_insert_eq|done].
Qed.
Lemma set_cent_flags_run T s K f : cache_ok T s -> name_ok K -> Z.land f DF_NEGATIVE = 0 -> crun (set_cent_flags (enc K) f) s (fun b s' => b = is_some (T !! fold_name K) /\ cache_ok T s' /\ frame T s T s').
Proof.
  intros Hok HK Hf. pose proof Hok as ([L H] & Hs & Hi). destruct (cache_find' T s K Hok HK) as (loc & El). unfold set_cent_flags. step. eapply crun_Ok; [exact El|].
  destruct (T !! fold_name K) as [p|] eqn:HT; [|step; split_and!; [done|done|apply frame_refl]]. destruct (inv_lookup _ _ _ _ _ H HT) as (c & _ & Hc & _).
  step. eapply crun_update; [exact Hc|]. step. split; [done|].
  assert (Hw : works p s (set_cents (<[p := with_flags (u16 (Z.lor (flags c) f)) c]> (cents s)) s)).
  { apply (flags_works L); [apply H|done|]. rewrite u16_negative. by apply lor_negative. }
  eapply (in_place T s _ (fold_name K) p c); [done|done|done|done|apply lookup_insert_eq|done].
Qed.

(** * Up the hierarchy *)
Definition offset (k : nat) N : Z := zlen (wire (take k N)).
Lemma offset_drop k N : drop (Z.to_nat (offset k N)) (enc N) = enc (drop k N).
Proof. unfold offset. rewrite Nat2Z.id. apply drop_enc. Qed.
Lemma rd_offset k N l : N !! k = Some l -> rd (enc N) (offset k N) = Ok (zlen l) /\ offset (S k) N = offset k N + (zlen l + 1).
Proof.
  intros Hl. assert (HN : enc N = wire (take k N) ++ enc (drop k N)) by (unfold enc; rewrite <- (take_drop k N) at 1; by rewrite wire_app, <- app_assoc).
  split.
  - rewrite HN, (drop_S _ _ _ Hl), enc_cons. by apply rd_mid'.
  - unfold offset. rewrite (take_S_r _ _ _ Hl), wire_app, length_app. rewrite wire_cons. cbn. rewrite length_app. cbn. lia.
Qed.
Lemma rd_root N : rd (enc N) (offset (length N) N) = Ok 0.
Proof. unfold offset, enc. rewrite take_ge by lia. by apply rd_mid'. Qed.
(** The first ancestor at which [g] decides. *)
Definition decided {A} (N : list label) (k : nat) (stop : A) (g : nat -> option A) (a : A) : Prop :=
  (exists j, (k < j < length N)%nat /\ g j = Some a /\ forall i, (k < i < j)%nat -> g i = None) \/
  ((forall j, (k < j < length N)%nat -> g j = None) /\ a = stop).
Lemma ancestors_run {A} (N : list label) (stop : A) f g s : Forall label_ok N ->
  (forall k, (1 <= k < length N)%nat -> f (offset k N) s = Ok (g k, s)) ->
  forall fuel k, (k <= length N)%nat -> (length N - k < fuel)%nat -> exists a, ancestors fuel (enc N) (offset k N) stop f s = Ok (a, s) /\ decided N k stop g a.
Proof.
  intros HN Hf. assert (Hpos : forall k l, N !! k = Some l -> zlen l <> 0) by (intros k l Hl; rewrite Forall_forall in HN; destruct (HN l) as [? _]; [by eapply list_elem_of_lookup_2|lia]).
  induction fuel as [|fuel IH]; intros k Hk Hfu; [lia|]. cbn [ancestors]. unfold mbind at 1, cm_bind at 1, lift.
  destruct (N !! k) as [l|] eqn:El.
  2: { apply lookup_ge_None_1 in El. assert (k = length N) as -> by lia. rewrite rd_root. cbn [Z.eqb]. exists stop. split; [done|]. right. split; [lia|done]. }
  destruct (rd_offset k N l El) as [Erd Eof]. rewrite Erd. rewrite (proj2 (Z.eqb_neq _ 0)) by (by eapply Hpos). rewrite <- Eof. unfold mbind at 1, cm_bind at 1.
  pose proof (lookup_lt_Some _ _ _ El) as Hlt. destruct (N !! S k) as [l'|] eqn:El'.
  2: { apply lookup_ge_None_1 in El'. assert (S k = length N) as -> by lia. rewrite rd_root. cbn [Z.eqb]. exists stop. split; [done|]. right. split; [lia|done]. }
  pose proof (lookup_lt_Some _ _ _ El') as Hlt'. destruct (rd_offset (S k) N l' El') as [Erd' _]. rewrite Erd', (proj2 (Z.eqb_neq _ 0)) by (by eapply Hpos).
  unfold mbind at 1, cm_bind at 1. rewrite Hf by lia. destruct (g (S k)) as [a|] eqn:Eg.
  - exists a. split; [done|]. left. exists (S k). split; [lia|]. split; [done|]. lia.
  - destruct (IH (S k)) as (a & Ea & Hd); [lia|lia|]. exists a. split; [exact Ea|].
    assert (Hk' : forall i, (k < i)%nat -> i = S k \/ (S k < i)%nat) by lia. destruct Hd as [(j & Hj & Hg & Hmin)|[Hno ->]].
    + left. exists j. split; [lia|]. split; [done|]. intros i Hi. destruct (Hk' i ltac:(lia)) as [->|]; [done|]. apply Hmin. lia.
    + right. split; [|done]. intros i Hi. destruct (Hk' i ltac:(lia)) as [->|]; [done|]. apply Hno. lia.
Qed.
Lemma fuel_enc N : Forall label_ok N -> (length N - 0 < length (enc N))%nat.
Proof. intros HN. pose proof (wire_lower N HN). unfold enc. rewrite length_app. cbn [length]. lia. Qed.

(** * The search of [lookup_cache] *)
Definition star : label := [42].
Definition at_ancestor T (C : gmap positive dns_cent_t) N (k : nat) : option (option positive * wildness) :=
  match T !! fold_name (drop k N) with
  | None => None
  | Some p =>
      match C !! p with
      | None => None
      | Some c =>
          Some (if negative c then (Some p, w_neg)
                else if has (flags c) DF_WILD then
                  match T !! fold_name (star :: drop k N) with Some q => (Some q, w_wild) | None => (None, Exact) end
                else if has (flags c) DF_LOCAL then (Some p, w_locnerr) else (None, Exact))
      end
  end.
Definition searched T (C : gmap positive dns_cent_t) N (wild : bool) (x : option positive * wildness) : Prop :=
  match T !! fold_name N with
  | Some p => x = (Some p, Exact)
  | None => if wild then decided N 0 (None, Exact) (at_ancestor T C N) x else x = (None, Exact)
  end.
Lemma name_ok_star k N : name_ok N -> (1 <= k < length N)%nat -> name_ok (star :: drop k N) /\ zlen (enc (drop k N)) <= DNSNAMEBUFSIZE - 2.
Proof.
  intros HN Hk. destruct (name_ok_drop k N HN) as [Hl _]. destruct HN as [HN Hz].
  assert (Hshort : zlen (enc (drop k N)) <= DNSNAMEBUFSIZE - 2).
  { rewrite <- (take_drop k N) in Hz. unfold enc in *. rewrite wire_app, <- app_assoc, length_app in Hz.
    assert (HT : Forall label_ok (take k N)) by (by apply Forall_take). pose proof (wire_lower _ HT) as Hw. rewrite length_take in Hw. lia. }
  split; [|done]. split; [constructor; [|done]; by repeat constructor|]. rewrite zlen_enc_cons. change (zlen star) with 1. lia.
Qed.
Lemma search_run T s N wild : cache_ok T s -> name_ok N -> exists x, search (enc N) wild s = Ok (x, s) /\ searched T (cents s) N wild x.
Proof.
  intros Hok HN. destruct (cache_find' T s N Hok HN) as (loc & El). unfold search, searched, mbind at 1, cm_bind at 1. rewrite El. cbv beta iota.
  destruct (T !! fold_name N) as [p|] eqn:HT; [rewrite orb_true_r; by exists (Some p, Exact)|]. destruct wild; [|by exists (None, Exact)]. cbn [negb orb is_some].
  destruct (ancestors_run N (None, Exact) (fun at_ : Z =>
    let nm := drop (Z.to_nat at_) (enc N) in
    '(o, _) ← dns_lookup nm;
    match o with
    | None => mret None
    | Some ce =>
        c ← get_cent ce;
        if negative c then mret (Some (Some ce, w_neg)) else
        if has (flags c) DF_WILD then
          '(_, rest) ← lift (rhncpy (replicate (Z.to_nat (DNSNAMEBUFSIZE - 2)) 0) nm);
          '(o, _) ← dns_lookup ([1; 42] ++ rest);
          mret (Some (o, if is_some o then w_wild else Exact))
        else if has (flags c) DF_LOCAL then mret (Some (Some ce, w_locnerr))
        else mret (Some (None, Exact))
    end) (at_ancestor T (cents s) N) s (proj1 HN)) with (fuel := length (enc N)) (k := 0%nat) as (a & Ea & Hd).
  - intros k Hk. cbv zeta. rewrite offset_drop. pose proof (name_ok_drop k N HN) as HNk. destruct (name_ok_star k N HN Hk) as [Hstar Hshort].
    destruct (cache_find' T s (drop k N) Hok HNk) as (loc' & El'). unfold mbind at 1, cm_bind at 1. rewrite El'. cbv beta iota. unfold at_ancestor.
    destruct (T !! fold_name (drop k N)) as [p|] eqn:HTk; [|done]. destruct (cache_lookup T s _ p Hok HTk) as (c & _ & Hc & _). rewrite Hc.
    unfold mbind at 1, cm_bind at 1, get_cent, gets, mbind, cm_bind. rewrite Hc. cbn [found mret cm_ret].
    destruct (negative c); [done|]. destruct (has (flags c) DF_WILD); [|by destruct (has (flags c) DF_LOCAL)].
    set (buf := replicate _ 0). assert (Hcpy : exists x, rhncpy buf (enc (drop k N)) = Ok (zlen (enc (drop k N)), enc (drop k N) ++ x)).
    { exists (drop (length (enc (drop k N))) buf). unfold rhncpy. rewrite (rhnlen_enc _ HNk). cbn [mbind res_bind]. destruct HNk as [HNk Hz].
      rewrite (proj2 (Z.leb_le _ _) Hz). cbn [PDNSD_ASSERT mbind res_bind]. rewrite (proj2 (Z.ltb_ge _ _)) by lia. rewrite (rdn_enc _ (conj HNk Hz)). cbn [mbind res_bind].
      rewrite wrn_ok; [|lia|unfold buf; rewrite length_replicate; unfold DNSNAMEBUFSIZE in *; lia]. cbn [mbind res_bind mret res_ret]. unfold put. by rewrite take_0. }
    destruct Hcpy as (x & ->). unfold lift. cbv beta iota. pose proof (cache_find T s (star :: drop k N) x Hok Hstar) as (loc2 & E2).
    rewrite enc_cons in E2. unfold star in E2. cbn [length app] in E2. change (Z.of_nat 1) with 1 in E2. cbn [app]. rewrite E2. unfold star. by destruct (T !! fold_name ([42] :: drop k N)).
  - lia.
  - apply fuel_enc, HN.
  - exists a. split; [exact Ea|done].
Qed.

(** * Copies for callers *)
Record framed (o : option positive) T s T' s' : Prop := {
  fd_env : env s' = env s;
  fd_brk : (brk s <= brk s')%positive;
  fd_new : forall q, is_Some (cents s' !! q) -> outside T' q -> o = Some q \/ (outside T q /\ is_Some (cents s !! q));
  fd_own : forall q c, outside T q -> cents s !! q = Some c -> outside T' q /\ cents s' !! q = Some c /\
    forall i r, slot c i = Some r -> rrsets s' !! r = rrsets s !! r
}.
Lemma frame_framed T s T' s' o : frame T s T' s' -> framed o T s T' s'.
Proof. intros [F1 F2 F3 F4]. split; auto. Qed.
Lemma framed_None T s T' s' : framed None T s T' s' -> frame T s T' s'.
Proof. intros [F1 F2 F3 F4]. split; auto. intros q Hq Ho. by destruct (F3 q Hq Ho). Qed.
Lemma framed_trans o T1 s1 T2 s2 T3 s3 : frame T1 s1 T2 s2 -> framed o T2 s2 T3 s3 -> framed o T1 s1 T3 s3.
Proof.
  intros [A1 A2 A4 A3] [B1 B2 B4 B3]. split; [congruence|by etrans| |].
  - intros q Hq Ho. destruct (B4 q Hq Ho) as [|[Hq2 Ho2]]; [by left|right]. by apply A4.
  - intros q c Ho Hc. destruct (A3 q c Ho Hc) as (Ho2 & Hc2 & Hs2). destruct (B3 q c Ho2 Hc2) as (Ho3 & Hc3 & Hs3). split_and!; try done. intros i r Hi. rewrite (Hs3 i r Hi). by eapply Hs2.
Qed.
Lemma same_unlisted L s s0 q c c' : store_ok L s -> cents s !! q = Some c' -> same_cent s0 c s c' -> unlisted s q.
Proof.
  intros H Hq Hsame a e Ha Hce. apply core_of in Ha. rewrite Hce in Ha. destruct (rrset e) as [r|].
  - destruct (lk_set _ _ _ (so_links _ _ H) _ _ _ _ Ha) as (d & x & Hd & Hi & Hx & Hl). assert (d = c') as -> by congruence.
    pose proof (sc_slots _ _ _ _ Hsame (idx e)) as Hcp. rewrite Hi in Hcp. destruct (slot c (idx e)) as [t|]; [|done]. destruct Hcp as (r' & y & [= <-] & _ & Hy).
    rewrite Hx in Hy. injection Hy as ->. done.
  - destruct (lk_cent _ _ _ (so_links _ _ H) _ _ _ Ha) as (d & Hd & Hl). assert (d = c') as -> by congruence. rewrite (sc_lent _ _ _ _ Hsame) in Hl. done.
Qed.
Lemma copy_ok T s k p c : cache_ok T s -> T !! k = Some p -> cents s !! p = Some c ->
  crun (copy_cent p) s (fun o s' => cache_ok T s' /\ framed o T s T s' /\ match o with
    | Some q => q = brk s /\ outside T q /\ exists c', cents s' !! p = Some c /\ cents s' !! q = Some c' /\ same_cent s c s' c'
    | None => starved s end).
Proof.
  intros ([L H] & Hs & Hi) Hk Hc. destruct (fresh_outside L T s H) as [Ho Hn]. assert (Hp : p <> brk s) by (intros ->; congruence).
  eapply crun_mono; [by apply (copy_cent_run L s p c); [apply H|]|]. intros o s' (Har & [L' H'] & Hpost).
  assert (Hsz : sized T s') by (by apply (around_sized T s s' (brk s))). assert (Hi' : insert_sort s' = true) by (by rewrite (st_sort _ _ (ar_stays _ _ _ Har))).
  destruct o as [q|].
  - destruct Hpost as (-> & c' & Hc' & Hsame). split; [|split].
    + split; [|done]. exists L'. apply (around_inv L T s L' s' (brk s)); try done. by eapply same_unlisted.
    + destruct Har as [[] O2 O3 O4]. split; [done|done| |].
      * intros q Hq Hoq. destruct (decide (q = brk s)) as [->|Hqb]; [by left|right]. split; [done|]. by rewrite <- O3.
      * intros q d Hoq Hd. assert (q <> brk s) by (intros ->; congruence). split_and!; [done|by rewrite O3|]. intros i r Hr. by eapply O4.
    + split; [done|]. split; [done|]. exists c'. split; [by rewrite (ar_cents _ _ _ Har)|]. done.
  - destruct Hpost as [Hb Hst]. split; [|split; [by apply frame_framed, around_frame|done]]. split; [|done].
    exists L'. apply (around_inv L T s L' s' (brk s)); try done. by apply (gone_unlisted L').
Qed.

(** * [lookup_cache]

    The copy [d] in [s'] of the entry [c] of [s], without what was out of date. *)
Record current s (c : dns_cent_t) s' (d : dns_cent_t) : Prop := {
  cu_name : qname d = qname c;
  cu_flags : flags d = flags c \/ flags d = drop_flag (flags c) DF_AUTH;
  cu_neg : forall l t n, side c = Neg l t n -> side d = Neg None t n /\ timely_neg s c;
  cu_slots : forall j, match slot c j with
    | None => slot d j = None
    | Some r => exists x, rrsets s !! r = Some x /\
        (slot d j = None /\ late s x \/ timely s x /\ exists r', slot d j = Some r' /\ rrsets s' !! r' = Some (with_lent None x))
    end
}.
Lemma same_current L s p c s1 c1 s' d : store_ok L s -> cents s !! p = Some c -> refreshed true s c s1 c1 -> same_cent s1 c1 s' d -> current s c s' d.
Proof.
  intros H Hc ([P1 P2 P3 P4 P5] & Ht & Hn) Hsame. split.
  - by rewrite (sc_name _ _ _ _ Hsame).
  - by rewrite (sc_flags _ _ _ _ Hsame).
  - intros l t n Es. pose proof (P4 _ _ _ Es) as Es1. split; [by eapply sc_neg|]. destruct (so_cents _ _ H p c Hc) as [G _ _ _]. rewrite Es in G.
    assert (En : negative c1 = true) by (unfold negative in *; destruct P3 as [->| ->]; rewrite ?drop_auth_negative; done).
    destruct (Hn eq_refl En) as [Hl|(l' & t' & n' & m & E' & Hm)].
    + left. destruct P3 as [Hf|Hf]; rewrite Hf in Hl; [done|by rewrite drop_auth_local in Hl].
    + right. rewrite Es1 in E'. injection E' as <- <- <-. exists l, t, n, m. split; [done|by rewrite <- P1].
  - intros j. pose proof (sc_slots _ _ _ _ Hsame j) as Hcp. destruct (slot c j) as [r|] eqn:Ej.
    + destruct (live_sets _ _ _ _ _ _ H Hc Ej) as [x Hx]. exists x. split; [done|]. destruct (P5 j) as [[Hnone Hl]|[He Hr]].
      * left. rewrite Hnone in Hcp. split; [done|]. destruct (Hl r Ej) as (x' & Hx' & Hlate). congruence.
      * right. rewrite He, Ej in Hcp. destruct Hcp as (r' & x' & Hr' & Hx' & Hcopy). rewrite (Hr r Ej), Hx in Hx'. injection Hx' as <-.
        split; [|by exists r']. apply (timely_env s s1); [done|]. apply (Ht j r x); [congruence|by rewrite Hr].
    + destruct (P5 j) as [[Hnone _]|[He _]]; [by rewrite Hnone in Hcp|]. rewrite He, Ej in Hcp. done.
Qed.
(** The cache that [lookup_cache] finds: the one of the caller, or what the other threads
    made of it while the lock was given up. *)
Definition looked (others : cm unit) T s Tl sl : Prop :=
  Tl = T /\ sl = s \/ exists s1, asked_only s s1 /\ others s1 = Ok (tt, sl) /\ frame T s Tl sl.
(** [x] is the answer for the name [N]. *)
Definition answers (others : cm unit) T s N (wild : bool) (x : option positive * wildness) Tl sl s' : Prop :=
  looked others T s Tl sl /\ cache_ok Tl sl /\ exists o, searched Tl (cents sl) N wild (o, x.2) /\
    match o, x.1 with
    | None, None => True
    | None, Some _ => False
    | Some p, None => exists c, cents sl !! p = Some c /\ (starved sl \/ spent sl c)
    | Some p, Some q => cents s !! q = None /\ exists c d, cents sl !! p = Some c /\ cents s' !! q = Some d /\ current sl c s' d
    end.
Definition lookup_post (others : cm unit) T s N wild (x : option positive * wildness) s' : Prop :=
  (exists Tl sl, answers others T s N wild x Tl sl s') /\
  exists T', cache_ok T' s' /\ framed x.1 T s T' s' /\ forall q, x.1 = Some q -> outside T' q.
Lemma searched_some T C N wild p w : (forall k p, T !! k = Some p -> is_Some (C !! p)) -> searched T C N wild (Some p, w) -> exists k, T !! k = Some p /\ (w = Exact -> k = fold_name N).
Proof.
  intros HC H. unfold searched in H. destruct (T !! fold_name N) as [p'|] eqn:HT.
  - injection H as <- ->. eauto.
  - destruct wild; [|done]. destruct H as [(j & _ & Hg & _)|[_ H]]; [|done]. unfold at_ancestor in Hg. destruct (T !! fold_name (drop j N)) as [p'|] eqn:HTj; [|done].
    destruct (C !! p') as [c|]; [|done]. destruct (negative c); [injection Hg as Hp Hw; subst; by eexists|].
    destruct (has (flags c) DF_WILD); [destruct (T !! fold_name (star :: drop j N)) eqn:HTs; [injection Hg as Hp Hw; subst; by eexists|done]|].
    destruct (has (flags c) DF_LOCAL); [injection Hg as Hp Hw; subst; by eexists|done].
Qed.
Lemma cache_cents T s k p : cache_ok T s -> T !! k = Some p -> is_Some (cents s !! p).
Proof. intros H Hk. destruct (cache_lookup T s k p H Hk) as (c & _ & Hc & _). eauto. Qed.

Section Lookup.
(** What other threads do to the cache while its lock is given up. *)
Context (others : cm unit).
Context (others_ok : forall T s, cache_ok T s -> crun others s (fun _ s' => exists T', cache_ok T' s' /\ frame T s T' s')).
Lemma old_cent T s q : cache_ok T s -> (brk s <= q)%positive -> cents s !! q = None.
Proof. intros ([L H] & _) Hq. apply eq_None_not_Some. intros Hc. pose proof (so_brk _ _ (iv_store _ _ _ H) q (or_intror (or_intror Hc))). lia. Qed.
Lemma asked_frame T s s' : asked_only s s' -> frame T s T s'.
Proof. intros H. by apply trimmed_frame, asked_trimmed. Qed.
Lemma looked_frame T s Tl sl : looked others T s Tl sl -> frame T s Tl sl.
Proof. intros [[-> ->]|(s1 & _ & _ & H)]; [apply frame_refl|done]. Qed.
(** The end of [lookup_cache]: a copy of the entry [p], found by [search] in [sl] and purged. *)
Lemma lookup_copy T s Tl sl T1 s1 N wild k p (w : wildness) c c1 : cache_ok T s -> looked others T s Tl sl -> cache_ok Tl sl -> searched Tl (cents sl) N wild (Some p, w) ->
  cents sl !! p = Some c -> frame Tl sl T1 s1 -> cache_ok T1 s1 -> T1 !! k = Some p -> cents s1 !! p = Some c1 -> refreshed true sl c s1 c1 ->
  crun (copy_cent p) s1 (fun o s' => lookup_post others T s N wild (o, w) s').
Proof.
  intros Hok Hlk Hokl Hsr Hc Hf Hok1 Hk Hc1 Hr. pose proof (cframe_trans _ _ _ _ _ _ (looked_frame _ _ _ _ Hlk) Hf) as Hf1.
  eapply crun_mono; [by apply (copy_ok T1 s1 k p c1)|]. intros o s' (Hok' & Hfr & Hpost). split.
  - exists Tl, sl. split; [done|]. split; [done|]. exists (Some p). split; [done|]. cbn [fst]. destruct o as [q|].
    + destruct Hpost as (-> & _ & d & _ & Hd & Hsame). split; [apply (old_cent T s _ Hok), Hf1|]. exists c, d. split_and!; try done.
      destruct Hokl as ([Ll Hl] & _). by eapply (same_current Ll sl p c s1 c1); [apply Hl|..].
    + exists c. split; [done|]. left. unfold starved in *. by rewrite <- (fr_env _ _ _ _ Hf).
  - exists T1. split; [done|]. split; [by eapply framed_trans|]. cbn [fst]. intros q ->. by destruct Hpost as (-> & Ho & _).
Qed.
Lemma lookup_none T s Tl sl T1 s1 N wild o (w : wildness) : looked others T s Tl sl -> cache_ok Tl sl -> searched Tl (cents sl) N wild (o, w) ->
  (forall p, o = Some p -> exists c, cents sl !! p = Some c /\ spent sl c) -> frame Tl sl T1 s1 -> cache_ok T1 s1 -> lookup_post others T s N wild (None, w) s1.
Proof.
  intros Hlk Hokl Hsr Hsp Hf Hok1. split.
  - exists Tl, sl. split; [done|]. split; [done|]. exists o. split; [done|]. destruct o as [p|]; [|done]. cbn [fst]. destruct (Hsp p eq_refl) as (c & Hc & Hs). exists c. auto.
  - exists T1. split; [done|]. split; [|done]. apply frame_framed. eapply cframe_trans; [by apply (looked_frame _ _ _ _ Hlk)|done].
Qed.
(** What is done with the second lock. *)
Lemma lookup_again T s N wild s1 : cache_ok T s -> name_ok N -> asked_only s s1 ->
  crun (_ ← others;
        '(o, w) ← search (enc N) wild;
        match o with
        | None => mret (None, w)
        | Some ce =>
            n ← purge_cent ce true false;
            if n <? 0 then mret (None, w) else o ← copy_cent ce; mret (o, w)
        end) s1 (fun x s' => lookup_post others T s N wild x s').
Proof.
  intros Hok HN Ha. pose proof (others_ok T s1 (asked_ok T s s1 Hok Ha)) as Hrun. apply crun_out in Hrun as ([] & s2 & Eo & T2 & Hok2 & Hf2).
  step. eapply crun_Ok; [exact Eo|]. cbv beta.
  assert (Hlk : looked others T s T2 s2) by (right; exists s1; split_and!; [done|done|eapply cframe_trans; [by apply asked_frame|done]]).
  destruct (search_run T2 s2 N wild Hok2 HN) as ([o2 w2] & Es2 & Hs2). step. eapply crun_Ok; [exact Es2|]. cbv beta iota.
  destruct o2 as [p|]; [|step; by eapply (lookup_none T s T2 s2 T2 s2 N wild None); [..|apply frame_refl|]].
  destruct (searched_some T2 (cents s2) N wild p w2 (fun k p Hk => cache_cents T2 s2 k p Hok2 Hk) Hs2) as (k & Hk & _). destruct (cache_cents T2 s2 k p Hok2 Hk) as [c Hc].
  pose proof Hok2 as ([L2 H2] & Hs2' & Hi2). step. eapply crun_mono; [by apply (purge_cent_run L2 T2 s2 k p c true)|].
  intros m s3 (L3 & T3 & H3 & Hs3 & Htr & Hm). assert (Hok3 : cache_ok T3 s3) by (split; [by exists L3|split; [done|by apply (tr_sort _ _ _ _ Htr)]]).
  pose proof (trimmed_frame _ _ _ _ Htr) as Hf3. apply crun_if; intros Em.
  - step. destruct Hm as [(_ & _ & _ & Hsp)|(Hm & _)]; [|lia]. eapply (lookup_none T s T2 s2 T3 s3 N wild (Some p)); try done. intros p' [= <-]. by exists c.
  - destruct Hm as [(Hm & _)|(_ & -> & c1 & Hc1 & Hr)]; [lia|]. step. eapply crun_mono; [by apply (lookup_copy T s T2 s2 T2 s3 N wild k p w2 c c1)|].
    intros o s4 Hpost. by step.
Qed.
Lemma lookup_cache_run T s N wild : cache_ok T s -> name_ok N -> crun (lookup_cache others (enc N) wild) s (fun x s' => lookup_post others T s N wild x s').
Proof.
  intros Hok HN. unfold lookup_cache. destruct (search_run T s N wild Hok HN) as ([o w] & Es & Hs). step. eapply crun_Ok; [exact Es|]. cbv beta iota.
  assert (Hlk : looked others T s T s) by (by left).
  apply crun_bind. apply (crun_mono _ _ (fun x s1 => if x.2 =? 0 then lookup_post others T s N wild (x.1, w) s1 else asked_only s s1)).
  { destruct o as [p|]; [|step; by apply (lookup_none T s T s T s N wild None); [..|apply frame_refl|]].
    destruct (searched_some T (cents s) N wild p w (fun k p Hk => cache_cents T s k p Hok Hk) Hs) as (k & Hk & _). destruct (cache_cents T s k p Hok Hk) as [c Hc].
    pose proof Hok as ([L H] & _). step. eapply crun_mono; [by apply (purge_cent_test L T s p c)|]. intros n s1 [Ha Hgood]. apply crun_if; intros E.
    - destruct (Hgood ltac:(lia)) as [Hall Hneg]. assert (Hr : refreshed true s c s1 c).
      { apply (refreshed_asked true s c s c s1); [|done]. split; [by apply pruned_refl|]. by split. }
      apply crun_bind. eapply crun_mono; [apply (lookup_copy T s T s T s1 N wild k p w c c); try done; [by apply asked_frame|by eapply asked_ok|by rewrite (asked_cents _ _ Ha)]|].
      intros o s2 Hpost. step. cbn [fst snd Z.eqb]. exact Hpost.
    - step. cbn [snd]. rewrite E. exact Ha. }
  intros [o1 n] s1 H1. cbn [fst snd] in H1. cbv beta iota. apply crun_if; intros E; rewrite E in H1; [by step|]. by apply lookup_again.
Qed.
End Lookup.
