(* ===== verification/DnsEmpty.v ===== *)
(** Emptying pdnsd's cache: all of it, or what a list of names selects. *)
From S2P Require Import Prelude CLib Rhn DnsName DnsNameProps DnsCompress DnsMessage HevList DnsStore DnsCents DnsHash DnsCache DnsRrl DnsHeap DnsEntry DnsFree DnsCopy DnsTable DnsPurge DnsCent DnsMerge DnsAdd DnsLookup.

Implicit Types (T : gmap (list label) positive) (K N : list label) (s : cache) (L : list positive) (p q : positive).

(** * A whole bucket *)
Lemma uncounted_trimmed p k L T s L' s' : T !! k = Some p -> uncounted p k L T s L' s' -> trimmed T s (delete k T) s'.
Proof.
  intros Hk [U1 U2 U3 U4 U5 U6 U7 U8 U9 U10]. eapply (shrunk_gone T k p L s L'); [done| |rewrite U7; apply lookup_delete_eq].
  split; try done. intros q Hq. by rewrite U7, lookup_delete_ne.
Qed.
(** [T'] is [T] without the entries at the addresses [D]. *)
Record freed (D : list positive) T s T' s' : Prop := {
  fe_counts : exists L', counts L' T' s';
  fe_sized : sized T' s';
  fe_buckets : hash_buckets s' = hash_buckets s;
  fe_trimmed : trimmed T s T' s';
  fe_table : forall k q, T' !! k = Some q <-> T !! k = Some q /\ q ∉ D;
  fe_cents : forall q, q ∉ D -> cents s' !! q = cents s !! q
}.
Lemma free_chain_run l : forall L T s, counts L T s -> sized T s -> (forall he, he ∈ l -> exists k, T !! k = Some (data he)) -> NoDup (data <$> l) ->
  crun (free_chain l) s (fun _ s' => exists T', freed (data <$> l) T s T' s').
Proof.
  induction l as [|he l IH]; intros L T s H Hs Hl Hnd; cbn [free_chain].
  { step. exists T. split; try done; [by exists L|]. intros k q. split; [|naive_solver]. intros Hk. split; [done|]. apply not_elem_of_nil. }
  rewrite fmap_cons in Hnd. apply NoDup_cons in Hnd as [Hne Hnd]. destruct (Hl he ltac:(set_solver)) as [k Hk].
  step. eapply crun_mono; [by apply (del_cent_counts L T s k (data he))|]. intros [] s1 (L1 & Hun).
  assert (Hkey : forall k' q, T !! k' = Some q -> k' <> k -> q <> data he).
  { intros k' q Hq Hkk ->. apply Hkk. eapply names_inj; [apply H|..]; eauto. }
  eapply crun_mono; [apply (IH L1 (delete k T) s1); [apply Hun|by apply (un_sized _ _ _ _ _ _ _ Hun)| |done]|].
  { intros he' Hin. destruct (Hl he' ltac:(set_solver)) as [k' Hk']. exists k'. rewrite lookup_delete_ne; [done|]. intros <-. apply Hne.
    assert (data he' = data he) as <- by congruence. by apply list_elem_of_fmap_2. }
  intros [] s2 (T2 & [F1 F2 F3 F4 F5 F6]). exists T2. split; try done.
  - by rewrite F3, (un_buckets _ _ _ _ _ _ _ Hun).
  - eapply trimmed_trans; [by eapply uncounted_trimmed|done].
  - intros k' q. rewrite F5, lookup_delete_Some, fmap_cons, not_elem_of_cons. split.
    + intros ((Hkk & Hq) & Hn). split; [done|]. split; [by eapply Hkey|done].
    + intros (Hq & Hqd & Hn). split; [|done]. split; [|done]. intros <-. congruence.
  - intros q. rewrite fmap_cons, not_elem_of_cons. intros [Hqd Hn]. rewrite F6 by done. by rewrite (un_cents _ _ _ _ _ _ _ Hun), lookup_delete_ne by done.
Qed.
Definition bucket_of (k : list label) : Z := (name_hash k).1.
Lemma fold_idem N : fold_name (fold_name N) = fold_name N.
Proof. unfold fold_name. rewrite map_map. apply map_ext. intros l. rewrite map_map. apply map_ext. apply tolower_idem. Qed.
Lemma bucket_fold N : bucket_of (fold_name N) = bucket_of N.
Proof. unfold bucket_of. by rewrite (name_hash_fold _ _ (fold_idem N)). Qed.
Lemma chain_key T s i he : tbl_ok T s -> he ∈ chain s i -> exists N, named (cents s) (data he) N /\ bucket_of N = i /\ T !! fold_name N = Some (data he).
Proof.
  intros H Hin. pose proof (tb_chain _ _ H i) as Hall. rewrite Forall_forall in Hall. destruct (Hall he Hin) as (N & HN & Hh & Hk). exists N. split; [done|]. split; [|done].
  unfold bucket_of. by rewrite Hh.
Qed.
Lemma key_chain T s k p : tbl_ok T s -> T !! k = Some p -> exists he, he ∈ chain s (bucket_of k) /\ data he = p.
Proof.
  intros H Hk. destruct (tb_map _ _ H _ _ Hk) as (N & i & he & <- & HN & Hin & Hd). exists he. split; [|done]. rewrite bucket_fold.
  destruct (chain_key T s i he H Hin) as (N' & HN' & <- & _). rewrite Hd in HN'. by rewrite (named_unique _ _ _ _ HN HN').
Qed.
Lemma tbl_cleared T s i T' s' : tbl_ok T s -> hash_buckets s' = <[i := []]> (hash_buckets s) -> (forall k q, T' !! k = Some q <-> T !! k = Some q /\ q ∉ data <$> chain s i) ->
  (forall q, q ∉ data <$> chain s i -> cents s' !! q = cents s !! q) -> tbl_ok T' s'.
Proof.
  intros H Hb HT Hc. assert (Hch : forall j, chain s' j = if decide (j = i) then [] else chain s j).
  { intros j. unfold chain. rewrite Hb. destruct (decide (j = i)) as [->|]; [by rewrite lookup_insert_eq|by rewrite lookup_insert_ne]. }
  assert (Hother : forall j he, j <> i -> he ∈ chain s j -> data he ∉ data <$> chain s i).
  { intros j he Hj Hin (he' & Hd & Hin')%list_elem_of_fmap. destruct (chain_key _ _ _ _ H Hin) as (N & HN & <- & _), (chain_key _ _ _ _ H Hin') as (N' & HN' & <- & _).
    rewrite Hd in HN. by rewrite (named_unique _ _ _ _ HN HN') in Hj. }
  constructor.
  - intros j. rewrite Hch. destruct (decide (j = i)) as [->|Hj]; [done|]. pose proof (tb_chain _ _ H j) as Hall. rewrite Forall_forall in *. intros he Hin.
    destruct (Hall he Hin) as (N & HN & Hh & Hk). exists N. split; [apply (named_same s); [by apply Hc, (Hother j)|done]|]. split; [done|]. apply HT. split; [done|by apply (Hother j)].
  - intros k p Hk. apply HT in Hk as [Hk Hn]. destruct (tb_map _ _ H _ _ Hk) as (N & j & he & Hf & HN & Hin & Hd). exists N, j, he. split; [done|].
    split; [by apply (named_same s); [apply Hc|]|]. split; [|done]. rewrite Hch. destruct (decide (j = i)) as [->|]; [|done]. exfalso. apply Hn. rewrite <- Hd. by apply list_elem_of_fmap_2.
  - intros j. rewrite Hch. destruct (decide (j = i)); [constructor|apply H].
  - intros j. rewrite Hch. destruct (decide (j = i)); [constructor|apply H].
Qed.
(** What becomes of the table when some keys of the bucket [i] go. *)
Record emptied_bucket (i : Z) (sel : list label -> bool) T s T' s' : Prop := {
  eb_ok : cache_ok T' s';
  eb_frame : frame T s T' s';
  eb_table : forall k q, T' !! k = Some q <-> T !! k = Some q /\ ~ (bucket_of k = i /\ sel k = true)
}.
Lemma free_bucket_run i T s : cache_ok T s -> crun (free_dns_hash_bucket i) s (fun _ s' => exists T', emptied_bucket i (fun _ => true) T s T' s').
Proof.
  intros ([L H] & Hs & Hi). unfold free_dns_hash_bucket, put_chain. do 2 step. do 2 step. set (s1 := set_buckets _ s). destruct (inv_counts _ _ _ H) as [C1 C2 C3 C4].
  assert (Hmem : forall k q, T !! k = Some q -> (q ∈ data <$> chain s i <-> bucket_of k = i)).
  { intros k q Hk. split.
    - intros (he & -> & Hin)%list_elem_of_fmap. destruct (chain_key _ _ _ _ (iv_table _ _ _ H) Hin) as (N & _ & <- & HN). rewrite <- (bucket_fold N). f_equal. exact (tbl_inj T s _ _ _ (iv_table _ _ _ H) Hk HN).
    - intros <-. destruct (key_chain _ _ _ _ (iv_table _ _ _ H) Hk) as (he & Hin & <-). by apply list_elem_of_fmap_2. }
  eapply crun_mono; [apply (free_chain_run (chain s i) L T s1)|].
  - split; [by apply store_buckets|done..].
  - done.
  - intros he Hin. destruct (chain_key _ _ _ _ (iv_table _ _ _ H) Hin) as (N & _ & _ & HN). by eexists.
  - apply H.
  - intros [] s2 (T2 & [[L2 [F1a F1b F1c F1d]] F2 F3 F4 F5 F6]). exists T2. split.
    + split; [|split; [done|by apply (tr_sort _ _ _ _ F4)]]. exists L2. split; try done. by apply (tbl_cleared T s i T2 s2); [apply H|..].
    + pose proof (trimmed_frame _ _ _ _ F4) as [G1 G2 G3 G4]. by split.
    + intros k q. rewrite F5. split; intros [Hk Hn]; (split; [done|]); [intros [Hb _]|intros Hb]; apply Hn; [by apply (Hmem k)|split; [by apply (Hmem k q)|done]].
Qed.

(** * A list of names *)
Fixpoint chosen (sla : list slist_t) (Ds : list (list label)) (k : list label) : bool :=
  match sla, Ds with
  | sl :: sla, D :: Ds =>
      if (common k D =? length D)%nat && (negb (exact sl) || (common k D =? length k)%nat) then included sl else chosen sla Ds k
  | _, _ => false
  end.
(** The names of the list. *)
Definition names_of (sla : list slist_t) (Ds : list (list label)) : Prop := Forall2 (fun sl D => domain sl = enc D /\ name_ok D) sla Ds.
Lemma common_fold A B : common (fold_name A) B = common A B.
Proof. unfold common. by rewrite fold_idem. Qed.
Lemma off_zero_iff A m : Forall label_ok A -> (m <= length A)%nat -> off A m = 0 <-> m = length A.
Proof.
  intros HA Hm. split; [|intros ->; apply off_all]. intros H. destruct (decide (m = length A)) as [|Hne]; [done|]. exfalso.
  unfold off, head_of in H. destruct A as [|l A]; [cbn in *; lia|]. replace (length (l :: A) - m)%nat with (S (length A - m)) in H by (cbn [length] in *; lia).
  cbn [take] in H. rewrite wire_cons in H. cbn [length] in H. lia.
Qed.
Lemma selected_spec sla : forall Ds N, names_of sla Ds -> name_ok N -> selected (enc N) sla = Ok (chosen sla Ds (fold_name N)).
Proof.
  induction sla as [|sl sla IH]; intros Ds N HD HN; inversion HD as [|? D ? Ds' [Hsl HDk] HD']; subst; [done|]. cbn [selected chosen].
  pose proof (domain_match_spec N D [] [] HN HDk) as Hm. rewrite !app_nil_r in Hm. rewrite Hsl, Hm. cbn [mbind res_bind]. rewrite common_fold, (length_fold N).
  destruct (common_le N D) as [H1 H2]. assert (E1 : (off D (common N D) =? 0) = (common N D =? length D)%nat).
  { apply eq_true_iff_eq. rewrite Z.eqb_eq, Nat.eqb_eq. apply off_zero_iff; [apply HDk|done]. }
  assert (E2 : (off N (common N D) =? 0) = (common N D =? length N)%nat).
  { apply eq_true_iff_eq. rewrite Z.eqb_eq, Nat.eqb_eq. apply off_zero_iff; [apply HN|done]. }
  rewrite E1, E2. destruct ((common N D =? length D)%nat && (negb (exact sl) || (common N D =? length N)%nat)); [done|]. by apply IH.
Qed.
Section Selected.
Context (i : Z) (sla : list slist_t) (Ds : list (list label)) (HD : names_of sla Ds).
Definition sel : list label -> bool := chosen sla Ds.
(** The keys of a part of a chain. *)
Definition key_in T (l : list dns_hash_ent_t) (k : list label) : Prop := exists he, he ∈ l /\ T !! k = Some (data he).
Lemma free_selected_run fuel : forall n T s l, cache_ok T s -> chain s i = l -> (length l - n <= fuel)%nat ->
  crun (free_selected_loop fuel i sla n) s (fun _ s' => exists T', cache_ok T' s' /\ frame T s T' s' /\
    forall k q, T' !! k = Some q <-> T !! k = Some q /\ ~ (key_in T (drop n l) k /\ sel k = true)).
Proof.
  induction fuel as [|fuel IH]; intros n T s l Hok Hl Hf; cbn [free_selected_loop].
  { step. exists T. split; [done|]. split; [apply frame_refl|]. intros k q. split; [|by intros []]. intros Hk. split; [done|]. rewrite drop_ge by lia.
    intros [(he & Hin & _) _]. by apply not_elem_of_nil in Hin. }
  pose proof Hok as ([L H] & Hs & Hi). do 2 step. rewrite Hl. destruct (l !! n) as [he|] eqn:Ehe.
  2: { step. exists T. split; [done|]. split; [apply frame_refl|]. intros k q. split; [|by intros []]. intros Hk. split; [done|]. apply lookup_ge_None_1 in Ehe. rewrite drop_ge by lia.
    intros [(he & Hin & _) _]. by apply not_elem_of_nil in Hin. }
  assert (Hin : he ∈ chain s i) by (rewrite Hl; by eapply list_elem_of_lookup_2). destruct (chain_key _ _ _ _ (iv_table _ _ _ H) Hin) as (N & (c & Hc & Hq & HN) & Hb & Hk).
  do 3 step. apply crun_lift. rewrite Hq, (selected_spec sla Ds N HD HN). cbn [succeeds]. fold (sel (fold_name N)). destruct (sel (fold_name N)) eqn:Esel.
  - unfold put_chain. do 2 step. rewrite <- Hl in Ehe. pose proof (tbl_remove T s i n he (fold_name N) (iv_table _ _ _ H) Ehe Hk) as Ht. rewrite Hl in Ht.
    step. eapply crun_mono; [by apply (del_cent_counts_on L T s (fold_name N) (data he))|]. intros [] s1 (L1 & Hrm & Hbk).
    destruct (removed_ok _ _ _ _ _ _ _ Hok H Hk Hrm) as [Hok1 Hfr1].
    assert (Hl1 : chain s1 i = take n l ++ drop (S n) l) by (unfold chain; rewrite Hbk; cbn; by rewrite lookup_insert_eq).
    eapply crun_mono; [apply (IH n (delete (fold_name N) T) s1 _ Hok1 Hl1)|].
    { rewrite length_app, length_take, length_drop. rewrite Hl in Ehe. apply lookup_lt_Some in Ehe. lia. }
    intros [] s2 (T2 & Hok2 & Hfr2 & HT2). exists T2. split; [done|]. split; [by eapply cframe_trans|]. rewrite Hl in Ehe. intros k q. rewrite HT2, lookup_delete_Some.
    rewrite (drop_app_le (take n l)) by (rewrite length_take; apply lookup_lt_Some in Ehe; lia). rewrite (drop_ge (take n l)) by (rewrite length_take; lia). cbn [app].
    rewrite (drop_S _ _ _ Ehe). unfold key_in. split.
    + intros ((Hkk & Hkq) & Hn). split; [done|]. intros [(he' & Hin' & Hk') Hse]. apply elem_of_cons in Hin' as [->|Hin'].
      * apply Hkk. by eapply tbl_inj; [apply H|..].
      * apply Hn. split; [|done]. exists he'. split; [done|]. by rewrite lookup_delete_ne.
    + intros [Hkq Hn]. split; [split; [|done]|].
      * intros <-. apply Hn. split; [|done]. exists he. split; [by constructor|congruence].
      * intros [(he' & Hin' & Hk') Hse]. apply lookup_delete_Some in Hk' as [_ Hk']. apply Hn. split; [|done]. exists he'. split; [by constructor|done].
  - eapply crun_mono; [apply (IH (S n) T s l Hok Hl); lia|]. intros [] s2 (T2 & Hok2 & Hfr2 & HT2). exists T2. split; [done|]. split; [done|].
    intros k q. rewrite HT2, (drop_S _ _ _ Ehe). unfold key_in. split; intros [Hkq Hn]; (split; [done|]); intros [(he' & Hin' & Hk') Hse]; apply Hn; (split; [|done]).
    + apply elem_of_cons in Hin' as [->|Hin']; [|by exists he']. exfalso. assert (k = fold_name N) as -> by (by eapply tbl_inj; [apply H|..]). congruence.
    + exists he'. split; [by constructor|done].
Qed.
Lemma free_selected_bucket T s : cache_ok T s -> crun (free_dns_hash_selected i sla) s (fun _ s' => exists T', emptied_bucket i sel T s T' s').
Proof.
  intros Hok. pose proof Hok as ([L H] & _). unfold free_dns_hash_selected. do 2 step. eapply crun_mono; [apply (free_selected_run _ 0 T s (chain s i) Hok eq_refl); lia|].
  intros [] s' (T' & Hok' & Hfr & HT). exists T'. split; [done|done|]. intros k q. rewrite HT. cbn [drop]. unfold key_in.
  split; intros [Hk Hn]; (split; [done|]); intros [Hb Hse]; apply Hn; (split; [|done]).
  - destruct (key_chain _ _ _ _ (iv_table _ _ _ H) Hk) as (he & Hin & Hd). exists he. split; [by rewrite <- Hb|by rewrite Hd].
  - destruct Hb as (he & Hin & Hkd). destruct (chain_key _ _ _ _ (iv_table _ _ _ H) Hin) as (N & _ & <- & HN). rewrite <- (bucket_fold N). f_equal.
    exact (tbl_inj T s _ _ _ (iv_table _ _ _ H) Hkd HN).
Qed.
End Selected.

(** * The whole table *)
Definition selection (sla : option (list (slist_t * list label))) (k : list label) : bool :=
  match sla with Some l => chosen (l.*1) (l.*2) k | None => true end.
Definition named_list (sla : option (list (slist_t * list label))) : Prop :=
  match sla with Some l => Forall (fun x => domain x.1 = enc x.2 /\ name_ok x.2) l | None => True end.
Lemma named_list_names l : named_list (Some l) -> names_of (l.*1) (l.*2).
Proof. intros H. apply Forall2_fmap. apply Forall_Forall2_diag. done. Qed.
Lemma clear_bucket_run i sla T s : named_list sla -> cache_ok T s ->
  crun (match (fun l => l.*1) <$> sla with Some l => free_dns_hash_selected i l | None => free_dns_hash_bucket i end) s
    (fun _ s' => exists T', emptied_bucket i (selection sla) T s T' s').
Proof.
  intros Hn Hok. destruct sla as [l|]; cbn [fmap option_fmap option_map].
  - apply (free_selected_bucket i (l.*1) (l.*2)); [by apply named_list_names|done].
  - by apply free_bucket_run.
Qed.
(** The keys [A] may be added by the threads that run meanwhile, and the keys [D] changed. *)
Record between (A D : list label -> Prop) T s T' s' : Prop := {
  bt_ok : cache_ok T' s';
  bt_frame : frame T s T' s';
  bt_new : forall k q, T' !! k = Some q -> A k \/ T !! k = Some q;
  bt_kept : forall k q, T !! k = Some q -> ~ D k -> T' !! k = Some q
}.
Section Emptying.
Context (others : Z -> cm unit) (A D : list label -> Prop).
Context (others_ok : forall i T s, cache_ok T s -> crun (others i) s (fun _ s' => exists T', between A D T s T' s')).
Record emptied (sel : list label -> bool) (lo hi : Z) T s T' s' : Prop := {
  em_ok : cache_ok T' s';
  em_frame : frame T s T' s';
  em_new : forall k q, T' !! k = Some q -> A k \/ T !! k = Some q /\ (lo <= bucket_of k < hi -> sel k = false);
  em_kept : forall k q, T !! k = Some q -> ~ D k -> sel k = false -> T' !! k = Some q
}.
Lemma emptied_one i sel T s T' s' : emptied_bucket i sel T s T' s' -> emptied sel i (i + 1) T s T' s'.
Proof.
  intros [H1 H2 H3]. split; [done|done|..].
  - intros k q Hk. right. apply H3 in Hk as [Hk Hn]. split; [done|]. intros Hb. destruct (sel k); [|done]. exfalso. apply Hn. split; [lia|done].
  - intros k q Hk _ Hs. apply H3. split; [done|]. intros [_ Ht]. congruence.
Qed.
Lemma emptied_between sel lo hi T s T1 s1 T2 s2 : emptied sel lo hi T s T1 s1 -> between A D T1 s1 T2 s2 -> emptied sel lo hi T s T2 s2.
Proof.
  intros [A1 A2 A3 A4] [B1 B2 B3 B4]. split; [done|by eapply cframe_trans|..].
  - intros k q Hk. destruct (B3 k q Hk) as [?|Hk1]; [by left|auto].
  - auto.
Qed.
Lemma emptied_range_trans sel lo mid hi T s T1 s1 T2 s2 : emptied sel lo mid T s T1 s1 -> emptied sel mid hi T1 s1 T2 s2 -> emptied sel lo hi T s T2 s2.
Proof.
  intros [A1 A2 A3 A4] [B1 B2 B3 B4]. split; [done|by eapply cframe_trans|..].
  - intros k q Hk. destruct (B3 k q Hk) as [?|[Hk1 Hs2]]; [by left|]. destruct (A3 k q Hk1) as [?|[Hk0 Hs1]]; [by left|]. right. split; [done|]. intros Hb.
    destruct (decide (bucket_of k < mid)); [apply Hs1|apply Hs2]; lia.
  - auto.
Qed.
Lemma empty_loop_run sla n : forall i T s, named_list sla -> cache_ok T s ->
  crun (empty_loop n i ((fun l => l.*1) <$> sla) others) s (fun _ s' => exists T', emptied (selection sla) i (i + Z.of_nat n) T s T' s').
Proof.
  induction n as [|n IH]; intros i T s Hn Hok; cbn [empty_loop].
  { step. exists T. split; [done|apply frame_refl|..]; [|done]. intros k q Hk. right. split; [done|]. lia. }
  step. eapply crun_mono; [by apply (clear_bucket_run i sla T s)|]. intros _ s1 (T1 & H1%emptied_one). destruct n as [|n].
  - step. exists T1. done.
  - step. eapply crun_mono; [apply (others_ok i T1 s1), H1|]. intros _ s2 (T2 & H2). eapply crun_mono; [apply (IH (i + 1) T2 s2 Hn), H2|].
    intros _ s3 (T3 & H3). exists T3. eapply emptied_range_trans; [by eapply emptied_between|]. by replace (i + Z.of_nat (S (S n))) with (i + 1 + Z.of_nat (S n)) by lia.
Qed.
Lemma empty_cache_run got sla T s : named_list sla -> cache_ok T s ->
  crun (empty_cache got others ((fun l => l.*1) <$> sla)) s (fun b s' => b = got /\ exists T', cache_ok T' s' /\ frame T s T' s' /\
    if got then (forall k q, T' !! k = Some q -> A k \/ T !! k = Some q /\ selection sla k = false) /\
      (forall k q, T !! k = Some q -> ~ D k -> selection sla k = false -> T' !! k = Some q)
    else T' = T /\ s' = s).
Proof.
  intros Hn Hok. unfold empty_cache. destruct got; cbn [negb].
  2: { step. split; [done|]. exists T. split; [done|]. split; [apply frame_refl|done]. }
  step. eapply crun_mono; [by apply (empty_loop_run sla _ 0 T s)|]. intros _ s1 (T1 & [H1 H2 H3 H4]). step. split; [done|]. exists T1. split; [done|]. split; [done|]. split; [|done].
  intros k q Hk. destruct (H3 k q Hk) as [?|[Hk0 Hs]]; [by left|]. right. split; [done|]. apply Hs. pose proof (name_hash_range k). unfold bucket_of. lia.
Qed.
End Emptying.
Lemma free_range_run n : forall i T s, cache_ok T s -> crun (for_range n i free_dns_hash_bucket) s
  (fun _ s' => exists T', cache_ok T' s' /\ frame T s T' s' /\ forall k q, T' !! k = Some q -> T !! k = Some q /\ ~ (i <= bucket_of k < i + Z.of_nat n)).
Proof.
  induction n as [|n IH]; intros i T s Hok; cbn [for_range].
  { step. exists T. split; [done|]. split; [apply frame_refl|]. intros k q Hk. split; [done|lia]. }
  step. eapply crun_mono; [by apply (free_bucket_run i T s)|]. intros _ s1 (T1 & [H1 H2 H3]). eapply crun_mono; [by apply (IH (i + 1) T1 s1)|].
  intros _ s2 (T2 & H4 & H5 & H6). exists T2. split; [done|]. split; [by eapply cframe_trans|]. intros k q Hk. destruct (H6 k q Hk) as [Hk1 Hb]. apply H3 in Hk1 as [Hk1 Hb1].
  split; [done|]. intros Hr. destruct (decide (bucket_of k = i)); [by apply Hb1|]. apply Hb. lia.
Qed.
(** Nothing that the cache had is left: the only entries, sets and list entries are those of callers. *)
Record nothing T s s' : Prop := {
  no_ok : cache_ok ∅ s';
  no_num : ent_num s' = 0;
  no_size : cache_size s' = 0;
  no_lents : lents s' = ∅;
  no_cents : forall q c, cents s' !! q = Some c <-> outside T q /\ cents s !! q = Some c;
  no_rrsets : forall r x, rrsets s' !! r = Some x -> exists q c i, outside T q /\ cents s !! q = Some c /\ slot c i = Some r
}.
Lemma cache_ok_empty T s s' : frame T s ∅ s' -> cache_ok ∅ s' -> nothing T s s'.
Proof.
  intros Hf Hok. pose proof Hok as ([L [H1 H2 H3 H4]] & Hs & Hi).
  assert (Hc : forall q c, cents s' !! q = Some c <-> outside T q /\ cents s !! q = Some c).
  { assert (Ho : forall q, outside ∅ q) by (intros q k; by rewrite lookup_empty). intros q c. split.
    - intros Hq. destruct (fr_new _ _ _ _ Hf q ltac:(by eexists) (Ho q)) as [Hoq [c0 Hc0]]. split; [done|].
      destruct (fr_own _ _ _ _ Hf q c0 Hoq Hc0) as (_ & Hc' & _). congruence.
    - intros [Hoq Hq]. by destruct (fr_own _ _ _ _ Hf q c Hoq Hq) as (_ & Hc' & _). }
  split; [done|by rewrite H3, map_size_empty|by rewrite Hs| |done|].
  - apply map_empty. intros a. destruct (lents s' !! a) as [e|] eqn:Ea; [|done]. destruct (H4 a e Ea) as [k Hk]. by rewrite lookup_empty in Hk.
  - intros r x Hr. destruct (lk_owned _ _ _ (so_links _ _ H1) r x Hr) as (q & c & i & Hq & Hsl). apply Hc in Hq as [Ho Hq]. by exists q, c, i.
Qed.
Lemma destroy_cache_run T s : cache_ok T s -> crun (destroy_cache true) s (fun _ s' => nothing T s s').
Proof.
  intros Hok. unfold destroy_cache, free_dns_hash. eapply crun_mono; [by apply (free_range_run _ 0 T s)|]. intros _ s' (T' & Hok' & Hf & HT).
  assert (T' = ∅) as -> by (apply map_empty; intros k; destruct (T' !! k) as [q|] eqn:Ek; [|done]; destruct (HT k q Ek) as [_ []]; pose proof (name_hash_range k); unfold bucket_of; lia).
  by apply cache_ok_empty.
Qed.
