(* ===== verification/DnsHosts.v ===== *)
(** Hosts files in pdnsd (dns.c): a file in the format of /etc/hosts is read into the
    cache, with the names for the way back from address to name.

    A file is the lines that [getline] will yield, each with its newline, and whether the
    end of the file is why there are no more.  Opening files and the conversions of
    addresses, [inet_aton] and [inet_pton], are parameters. *)
From S2P Require Import Prelude CLib Rhn DnsName DnsNameProps DnsCompress RhnText DnsStore DnsCents DnsHash DnsCache.

Definition T_NS : Z := 2.

(** The local variable [cent] of a block: it begins, with what was there, and ends. *)
Definition declare : cm positive :=
  p ← new_address;
  m ← gets cents;
  _ ← sets (set_cents (<[p := Cent [] 0 0 0 (Neg None 0 0) 0 0]> m));
  mret p.
Definition namebuf : list Z := replicate (Z.to_nat DNSNAMEBUFSIZE) 0.

(** * From address to name *)

(** What [%u] and [%x] print, of a byte and of four bits. *)
Definition decimal (n : Z) : list Z :=
  if n <? 10 then [48 + n] else if n <? 100 then [48 + n / 10; 48 + n mod 10]
  else [48 + n / 100; 48 + n / 10 mod 10; 48 + n mod 10].
Definition hexdigit (n : Z) : list Z := [if n <? 10 then 48 + n else 87 + n].
(** [snprintf] of the text [t] to [buf+o], at most [size] bytes. *)
Definition snprintf (buf : list Z) (o size : Z) (t : list Z) : res (list Z * Z) :=
  buf ← (if size =? 0 then mret buf else wrn buf o (take (Z.to_nat (size - 1)) t ++ [0]) : res (list Z));
  mret (buf, zlen t).
(** [strncp], which is [strncpy] here: the rest is filled with NULs. *)
Definition strncp (buf : list Z) (o : Z) (t : list Z) (size : Z) : res (list Z * bool) :=
  buf ← wrn buf o (take (Z.to_nat size) t ++ replicate (Z.to_nat size - length t) 0);
  if zlen t <? size then mret (buf, true) else
  buf ← wr buf (o + size - 1) 0;
  mret (buf, false).
(** The loop over the bytes of the address from [i] down. *)
Fixpoint nibbles (n : nat) (a buf : list Z) (offs : Z) : res (bool * list Z * Z) :=
  match n with
  | O => mret (true, buf, offs)
  | S i =>
      bt ← rd a (Z.of_nat i);
      '(buf, n) ← snprintf buf offs (DNSNAMEBUFSIZE - offs) (hexdigit (Z.land bt 15) ++ dot :: hexdigit (Z.land (Z.shiftr bt 4) 15) ++ [dot]);
      let offs := offs + n in
      if DNSNAMEBUFSIZE <=? offs then mret (false, buf, offs) else nibbles i a buf offs
  end.
Definition a2ptrstr (a : list Z) (tp : Z) (buf : list Z) : res (bool * list Z) :=
  if tp =? T_A then
    p3 ← rd a 3; p2 ← rd a 2; p1 ← rd a 1; p0 ← rd a 0;
    '(buf, n) ← snprintf buf 0 DNSNAMEBUFSIZE
      (decimal p3 ++ dot :: decimal p2 ++ dot :: decimal p1 ++ dot :: decimal p0 ++ chars ".in-addr.arpa.");
    mret (negb (DNSNAMEBUFSIZE <=? n), buf)
  else if tp =? T_AAAA then
    '(ok, buf, offs) ← nibbles 16 a buf 0;
    if negb ok then mret (false, buf) else
    '(buf, ok) ← strncp buf offs (chars "ip6.arpa.") (DNSNAMEBUFSIZE - offs);
    mret (ok, buf)
  else mret (false, buf).

(** * [add_host] *)
Definition add_name_rr (cent : positive) (tp ttl : Z) (name : list Z) : cm bool :=
  sz ← lift (rhnlen name);
  d ← lift (rdn name 0 sz);
  add_cent_rr cent tp ttl 0 CF_LOCAL d.
(** What is done twice, with a first record that differs; the variable [ce] begins anew
    each time. *)
Definition host_entry (name : list Z) (ttl flags : Z) (first : positive -> cm bool) (rns : list Z) : cm bool :=
  ce ← declare;
  ok ← init_cent ce name 0 0 flags;
  if negb ok then _ ← free ce; mret false else
  ok ← first ce;
  if negb ok then _ ← free_cent ce; _ ← free ce; mret false else
  ok ← add_name_rr ce T_NS ttl rns;
  if negb ok then _ ← free_cent ce; _ ← free ce; mret false else
  _ ← add_cache ce;
  _ ← free_cent ce;
  _ ← free ce;
  mret true.
Definition add_host (pn rns a : list Z) (tp a_sz ttl flags : Z) (reverse : bool) : cm Z :=
  ok ← host_entry pn ttl flags (fun ce => d ← lift (rdn a 0 a_sz); add_cent_rr ce tp ttl 0 CF_LOCAL d) rns;
  if negb ok then mret 0 else
  if negb reverse then mret 1 else
  '(ok, b2) ← lift (a2ptrstr a tp namebuf);
  if negb (ok : bool) then mret (-1) else
  '(ok, rhn) ← lift (str2rhn b2 namebuf);
  if ok =? 0 then mret (-1) else
  ok ← host_entry rhn ttl flags (fun ce => add_name_rr ce T_PTR ttl pn) rns;
  mret (if ok : bool then 1 else 0).

(** * [read_hosts] *)

(** Over blanks, or over a word, to what ends it or to the NUL. *)
Definition blanks (buf : list Z) (p : Z) : res (Z * Z) :=
  p ← scan_while (fun c => negb (c =? 0) && isspace c) buf p; c ← rd buf p; mret (p, c).
Definition word (buf : list Z) (p : Z) : res (Z * Z) :=
  p ← scan_while (fun c => negb (c =? 0) && negb (isspace c)) buf p; c ← rd buf p; mret (p, c).
(** A line up to its first name: the line with a NUL behind the address, where the
    address begins, and where the name begins and ends; [None] is [nextline]. *)
Definition split_line (buf : list Z) : res (option (list Z * Z * Z * Z)) :=
  h ← scan_while (fun c => negb (c =? 0) && negb (c =? 35)) buf 0;
  c ← rd buf h;
  buf ← (if c =? 35 then wr buf h 0 else mret buf : res (list Z));
  '(pi, c) ← blanks buf 0;
  if c =? 0 then mret None else
  '(p, c) ← word buf (pi + 1);
  if c =? 0 then mret None else
  buf ← wr buf p 0;
  '(pn, c) ← blanks buf (p + 1);
  if c =? 0 then mret None else
  '(p, _) ← word buf (pn + 1);
  mret (Some (buf, pi, pn, p)).
(** The string that begins at an address. *)
Fixpoint string_of (l : list Z) : list Z :=
  match l with [] => [] | c :: l => if c =? 0 then [] else c :: string_of l end.

Inductive sourced : Type := Sourced | Not_sourced | No_memory.
(** The files that can be opened, and the bytes of an address that is understood. *)
Record libc : Type := Libc {
  fopen : list Z -> option (list (list Z) * bool);
  inet_aton : list Z -> option (list Z);
  inet_pton : list Z -> option (list Z)
}.
Section Hosts.
Context (lib : libc).

(** The type of the address, its size and its bytes. *)
Definition host_address (s : list Z) : option (Z * Z * list Z) :=
  match inet_aton lib s with
  | Some a => Some (T_A, 4, a)
  | None => match inet_pton lib s with Some a => Some (T_AAAA, 16, a) | None => None end
  end.
Fixpoint host_aliases (fuel : nat) (buf rns a : list Z) (tp sz ttl flags p : Z) : cm bool :=
  match fuel with
  | O => fail OutOfFuel
  | S fuel =>
      '(pn, c) ← lift (blanks buf p);
      if c =? 0 then mret true else
      '(p, _) ← lift (word buf (pn + 1));
      '(ok, rhn) ← lift (parsestr2rhn (drop (Z.to_nat pn) buf) (p - pn) namebuf);
      if negb (ok : bool) then mret true else
      r ← add_host rhn rns a tp sz ttl flags false;
      if r =? 0 then mret false else host_aliases fuel buf rns a tp sz ttl flags p
  end.
(** One line, in its buffer; [false] is [goto cleanup_return]. *)
Definition host_line (rns : list Z) (ttl flags : Z) (aliases : bool) (line : list Z) : cm bool :=
  o ← lift (split_line (line ++ [0]));
  match o with
  | None => mret true
  | Some (buf, pi, pn, p) =>
      '(ok, rhn) ← lift (parsestr2rhn (drop (Z.to_nat pn) buf) (p - pn) namebuf);
      if negb (ok : bool) then mret true else
      match host_address (string_of (drop (Z.to_nat pi) buf)) with
      | None => mret true
      | Some (tp, sz, a) =>
          r ← add_host rhn rns a tp sz ttl flags true;
          if r =? 0 then mret false else
          if r <? 0 then mret true else
          if aliases then host_aliases (S (length buf)) buf rns a tp sz ttl flags p else mret true
      end
  end.
Fixpoint host_lines (rns : list Z) (ttl flags : Z) (aliases : bool) (lines : list (list Z)) : cm bool :=
  match lines with
  | [] => mret true
  | line :: lines =>
      ok ← host_line rns ttl flags aliases line;
      if ok : bool then host_lines rns ttl flags aliases lines else mret false
  end.
(** A message about the file, if there is memory for it. *)
Definition complain : cm sourced := ok ← malloc; mret (if ok : bool then Not_sourced else No_memory).
Definition read_hosts (fn rns : list Z) (ttl flags : Z) (aliases : bool) : cm sourced :=
  match fopen lib fn with
  | None => complain
  | Some (lines, eof) =>
      ok ← malloc;
      if negb ok then mret No_memory else
      ok ← host_lines rns ttl flags aliases lines;
      if negb (ok : bool) then mret No_memory else
      if eof : bool then mret Sourced else complain
  end.
End Hosts.

(** * Lines *)
Definition line_buf (buf : list Z) : Prop := is_bytes buf /\ 0 < zlen buf /\ byte_at buf (zlen buf - 1) = 0.
Lemma line_buf_wr buf p : line_buf buf -> 0 <= p < zlen buf -> exists buf', wr buf p 0 = Ok buf' /\ line_buf buf' /\ zlen buf' = zlen buf.
Proof.
  intros (Hb & Hl & H0) Hp. rewrite wr_ok by lia. eexists. split; [done|]. assert (E : zlen (<[Z.to_nat p := 0]> buf) = zlen buf) by (by rewrite length_insert).
  split; [|done]. split; [apply Forall_insert; [done|lia]|]. rewrite E. split; [done|]. rewrite byte_at_insert by lia. by destruct (_ =? _).
Qed.
Lemma stop_ok (f : Z -> bool) buf p : line_buf buf -> f 0 = false -> 0 <= p < zlen buf ->
  exists q, (q ← scan_while f buf p; c ← rd buf q; mret (q, c)) = Ok (q, byte_at buf q) /\ p <= q < zlen buf /\ (byte_at buf q <> 0 -> q + 1 < zlen buf).
Proof.
  intros (Hb & Hl & H0) Hf Hp. destruct (scan_while_total f buf p (zlen buf - 1)) as (q & -> & Hq); [lia|lia|by rewrite H0|].
  exists q. cbn [mbind res_bind]. rewrite rd_ok by lia. split; [done|]. split; [lia|]. intros Hne. destruct (decide (q = zlen buf - 1)) as [->|]; [done|lia].
Qed.
Lemma blanks_ok buf p : line_buf buf -> 0 <= p < zlen buf -> exists q, blanks buf p = Ok (q, byte_at buf q) /\ p <= q < zlen buf /\ (byte_at buf q <> 0 -> q + 1 < zlen buf).
Proof. intros H Hp. by apply (stop_ok (fun c => negb (c =? 0) && isspace c)). Qed.
Lemma word_ok buf p : line_buf buf -> 0 <= p < zlen buf -> exists q, word buf p = Ok (q, byte_at buf q) /\ p <= q < zlen buf /\ (byte_at buf q <> 0 -> q + 1 < zlen buf).
Proof. intros H Hp. by apply (stop_ok (fun c => negb (c =? 0) && negb (isspace c))). Qed.
Lemma split_line_ok buf : line_buf buf -> exists o, split_line buf = Ok o /\ forall buf' pi pn p, o = Some (buf', pi, pn, p) ->
  line_buf buf' /\ 0 <= pi < zlen buf' /\ 0 <= pn < p /\ p < zlen buf'.
Proof.
  intros H. unfold split_line. destruct (stop_ok (fun c => negb (c =? 0) && negb (c =? 35)) buf 0 H eq_refl) as (h & E & Hh & _); [destruct H; lia|].
  destruct (scan_while _ buf 0) as [h'|] eqn:Es; cbn [mbind res_bind] in E |- *; [|done]. destruct (rd buf h') as [c|]; cbn [mbind res_bind] in E |- *; [|done]. injection E as -> ->.
  assert (H1 : exists buf1, (if byte_at buf h =? 35 then wr buf h 0 else mret buf) = Ok buf1 /\ line_buf buf1 /\ zlen buf1 = zlen buf).
  { destruct (_ =? 35); [apply line_buf_wr; [done|lia]|by exists buf]. }
  destruct H1 as (buf1 & -> & H1 & L1). cbn [mbind res_bind]. destruct (blanks_ok buf1 0 H1) as (pi & -> & Hpi & Hpi'); [lia|]. cbn [mbind res_bind].
  destruct (Z.eqb_spec (byte_at buf1 pi) 0); [by exists None|]. destruct (word_ok buf1 (pi + 1) H1) as (p & -> & Hp & Hp'); [split; [lia|auto]|]. cbn [mbind res_bind].
  destruct (Z.eqb_spec (byte_at buf1 p) 0); [by exists None|]. destruct (line_buf_wr buf1 p H1) as (buf2 & -> & H2 & L2); [lia|]. cbn [mbind res_bind]. specialize (Hp' ltac:(done)).
  destruct (blanks_ok buf2 (p + 1) H2) as (pn & -> & Hpn & Hpn'); [lia|]. cbn [mbind res_bind].
  destruct (Z.eqb_spec (byte_at buf2 pn) 0); [by exists None|]. destruct (word_ok buf2 (pn + 1) H2) as (p' & -> & Hq & _); [split; [lia|auto]|]. cbn [mbind res_bind].
  eexists. split; [done|]. intros ? ? ? ? [= <- <- <- <-]. split; [done|]. lia.
Qed.

(** * The name of an address *)
Definition ip4_name (a : list Z) : list label := map decimal (rev a) ++ [chars "in-addr"; chars "arpa"].
Definition ip6_name (a : list Z) : list label :=
  flat_map (fun b => [hexdigit (Z.land b 15); hexdigit (Z.land (Z.shiftr b 4) 15)]) (rev a) ++ [chars "ip6"; chars "arpa"].
Definition plain_label (l : label) : Prop := (1 <= zlen l <= 3) /\ is_bytes l /\ Forall plain l.
Definition plainb (l : label) : bool := (1 <=? zlen l) && (zlen l <=? 3) && forallb (fun c => (0 <=? c) && (c <? 256) && isgraph c && negb (escaped c)) l.
Lemma plainb_ok l : plainb l = true -> plain_label l.
Proof.
  unfold plainb. intros [[H1 H2]%andb_true_iff H3]%andb_true_iff. rewrite forallb_forall in H3. split; [lia|].
  split; apply List.Forall_forall; intros c Hc; specialize (H3 c Hc); apply andb_true_iff in H3 as [[H3 H4]%andb_true_iff H5]; [lia|]. split; [done|by destruct (escaped c)].
Qed.
Lemma decimal_plain n : 0 <= n < 256 -> plain_label (decimal n).
Proof. intros H. apply plainb_ok. revert n H. apply (forall_upto (fun n => plainb (decimal n)) 256). vm_compute. reflexivity. Qed.
Lemma hexdigit_plain n : 0 <= n < 16 -> plain_label (hexdigit n) /\ zlen (hexdigit n) = 1.
Proof. intros H. split; [|done]. apply plainb_ok. revert n H. apply (forall_upto (fun n => plainb (hexdigit n)) 16). vm_compute. reflexivity. Qed.
Lemma dotted_app ls ls' : dotted (ls ++ ls') = dotted ls ++ dotted ls'.
Proof. unfold dotted. by rewrite map_app, concat_app. Qed.
Lemma snprintf_ok buf o t : 0 <= o -> o + zlen t < 256 -> zlen buf = 256 -> snprintf buf o (DNSNAMEBUFSIZE - o) t = Ok (put buf o (t ++ [0]), zlen t).
Proof.
  intros Ho Ht Hb. unfold snprintf, DNSNAMEBUFSIZE. replace (256 - o =? 0) with false by lia. rewrite (take_ge t) by lia. rewrite wrn_ok by (rewrite ?length_app; cbn [length]; lia). done.
Qed.
Lemma take_put buf o d x : 0 <= o -> o + zlen d <= zlen buf -> take (Z.to_nat (o + zlen d)) (put buf o (d ++ x)) = take (Z.to_nat o) buf ++ d.
Proof. intros Ho Hd. unfold put. rewrite <- app_assoc, app_assoc. apply take_app_length'. rewrite length_app, length_take. lia. Qed.
Definition nibble_labels (b : Z) : list label := [hexdigit (Z.land b 15); hexdigit (Z.land (Z.shiftr b 4) 15)].
Lemma nibbles_ok n : forall a buf offs, (n <= length a)%nat -> zlen buf = 256 -> 0 <= offs -> offs + 4 * Z.of_nat n < 256 ->
  exists buf', nibbles n a buf offs = Ok (true, buf', offs + 4 * Z.of_nat n) /\ zlen buf' = 256 /\
    take (Z.to_nat (offs + 4 * Z.of_nat n)) buf' = take (Z.to_nat offs) buf ++ dotted (flat_map nibble_labels (rev (take n a))).
Proof.
  induction n as [|n IH]; intros a buf offs Hn Hb Ho Hl; cbn [nibbles].
  { exists buf. rewrite Z.add_0_r, take_0. cbn. by rewrite app_nil_r. }
  destruct (lookup_lt_is_Some_2 a n) as [b Ha]; [lia|]. rewrite rd_ok by lia. assert (Hbt : byte_at a (Z.of_nat n) = b) by (unfold byte_at; rewrite Nat2Z.id; by apply nth_lookup_Some).
  rewrite Hbt. cbn [mbind res_bind]. set (t := hexdigit _ ++ _). assert (Ht : zlen t = 4) by done. rewrite snprintf_ok by lia. cbn [mbind res_bind]. rewrite Ht.
  unfold DNSNAMEBUFSIZE. replace (256 <=? offs + 4) with false by lia. destruct (IH a (put buf offs (t ++ [0])) (offs + 4)) as (buf' & E & Hb' & Htk); [lia|rewrite length_put; rewrite ?length_app; cbn [length]; lia|lia|lia|].
  exists buf'. split; [rewrite E; do 2 f_equal; lia|]. split; [done|]. replace (offs + 4 * Z.of_nat (S n)) with (offs + 4 + 4 * Z.of_nat n) by lia. rewrite Htk.
  rewrite (take_S_r _ _ _ Ha), rev_app_distr. cbn [rev app flat_map]. fold t. rewrite dotted_app, app_assoc. f_equal.
  unfold nibble_labels at 1. rewrite !dotted_cons. cbn [app]. transitivity (take (Z.to_nat offs) buf ++ t); [|done]. rewrite <- Ht. apply take_put; lia.
Qed.
Definition address_name (tp : Z) (a : list Z) : list label := if tp =? T_A then ip4_name a else ip6_name a.
Lemma a2ptrstr_text tp sz a : (tp = T_A /\ sz = 4 \/ tp = T_AAAA /\ sz = 16) -> is_bytes a -> zlen a = sz ->
  exists x, a2ptrstr a tp namebuf = Ok (true, dotted (address_name tp a) ++ 0 :: x).
Proof.
  intros Htp Hb Hl. assert (Hnb : zlen namebuf = 256) by done. destruct Htp as [[-> ->]|[-> ->]]; unfold a2ptrstr, address_name; cbn [Z.eqb Pos.eqb T_A T_AAAA].
  - destruct a as [|p0 [|p1 [|p2 [|p3 [|? ?]]]]]; cbn [length] in Hl; try lia. rewrite !rd_ok by (cbn [length]; lia). cbn [mbind res_bind].
    change (byte_at [p0; p1; p2; p3] 3) with p3. change (byte_at [p0; p1; p2; p3] 2) with p2. change (byte_at [p0; p1; p2; p3] 1) with p1. change (byte_at [p0; p1; p2; p3] 0) with p0.
    assert (Hd : Forall (fun b => zlen (decimal b) <= 3) [p0; p1; p2; p3]) by (eapply Forall_impl; [exact Hb|]; intros b Hb'; apply decimal_plain, Hb').
    assert (Et : decimal p3 ++ dot :: decimal p2 ++ dot :: decimal p1 ++ dot :: decimal p0 ++ chars ".in-addr.arpa." = dotted (ip4_name [p0; p1; p2; p3])).
    { unfold ip4_name. cbn [rev map app]. rewrite !dotted_cons. done. }
    set (t := decimal p3 ++ _) in *. assert (Ht : zlen t < 256).
    { rewrite !List.Forall_cons_iff in Hd. assert (Hc : length (chars ".in-addr.arpa.") = 14%nat) by done. unfold t. repeat (rewrite length_app; cbn [length]). rewrite Hc. lia. }
    pose proof (snprintf_ok namebuf 0 t) as Hs. change (DNSNAMEBUFSIZE - 0) with DNSNAMEBUFSIZE in Hs. rewrite Hs by lia. cbn [mbind res_bind]. unfold DNSNAMEBUFSIZE. replace (256 <=? zlen t) with false by lia.
    rewrite <- Et. eexists. cbn [negb]. unfold put. rewrite take_0. cbn [app]. rewrite <- app_assoc. done.
  - destruct (nibbles_ok 16 a namebuf 0) as (buf & -> & Hbl & Htk); [lia|done|lia|lia|]. cbn [mbind res_bind negb]. change (0 + 4 * Z.of_nat 16) with 64 in *. unfold strncp, DNSNAMEBUFSIZE.
    set (d := take _ (chars "ip6.arpa.") ++ _). assert (Hd : d = chars "ip6.arpa." ++ 0 :: replicate 182 0) by (vm_compute; reflexivity). assert (Hdl : zlen d = 192) by (by rewrite Hd).
    rewrite wrn_ok by lia. cbn [mbind res_bind]. change (zlen (chars "ip6.arpa.") <? 256 - 64) with true. cbn [mbind res_bind].
    eexists. unfold put. rewrite Htk, Hd, take_0, take_ge by lia. unfold ip6_name. rewrite dotted_app. cbn [app]. by rewrite <- !app_assoc.
Qed.
Definition short_labels (k : Z) (ls : list label) : Prop := Forall (fun l => 1 <= zlen l <= k /\ is_bytes l /\ Forall plain l) ls.
Lemma short_wire k ls : short_labels k ls -> zlen (wire ls) <= (k + 1) * zlen ls.
Proof. induction 1 as [|l ls (Hl & _) _ IH]; [cbn; lia|]. rewrite wire_cons. cbn [length]. rewrite length_app. nia. Qed.
Lemma short_name k ls tl : short_labels k ls -> short_labels 63 tl -> k <= 63 -> (k + 1) * zlen ls + zlen (wire tl) < 256 -> tl <> [] ->
  name_ok (ls ++ tl) /\ Forall (Forall plain) (ls ++ tl) /\ ls ++ tl <> [].
Proof.
  intros Hls Htl Hk Hsz Hne. pose proof (short_wire k ls Hls). split; [|split; [|by destruct ls]].
  - split; [|rewrite zlen_enc, wire_app, length_app; unfold DNSNAMEBUFSIZE; lia].
    apply Forall_app_2; [eapply Forall_impl; [exact Hls|]|eapply Forall_impl; [exact Htl|]]; intros l (Hl & Hb & _); (split; [lia|done]).
  - apply Forall_app_2; [eapply Forall_impl; [exact Hls|]|eapply Forall_impl; [exact Htl|]]; intros l (_ & _ & Hp); exact Hp.
Qed.
Lemma address_name_ok tp sz a : (tp = T_A /\ sz = 4 \/ tp = T_AAAA /\ sz = 16) -> is_bytes a -> zlen a = sz ->
  name_ok (address_name tp a) /\ Forall (Forall plain) (address_name tp a) /\ address_name tp a <> [].
Proof.
  intros Htp Hb Hl. assert (Hr : Forall (fun b => 0 <= b < 256) (rev a)) by (by apply Forall_rev).
  assert (Hlit : forall s, bool_decide (1 <= zlen (chars s) <= 63) && forallb (fun c => (0 <=? c) && (c <? 256) && isgraph c && negb (escaped c)) (chars s) = true ->
    1 <= zlen (chars s) <= 63 /\ is_bytes (chars s) /\ Forall plain (chars s)).
  { intros s [H1%bool_decide_eq_true H2]%andb_true_iff. split; [done|]. rewrite forallb_forall in H2.
    split; apply List.Forall_forall; intros c Hc; specialize (H2 c Hc); apply andb_true_iff in H2 as [[H3 H4]%andb_true_iff H5]; [lia|]. split; [done|by destruct (escaped c)]. }
  destruct Htp as [[-> ->]|[-> ->]]; unfold address_name; cbn [Z.eqb Pos.eqb T_A T_AAAA]; apply (short_name 3); try done.
  - apply Forall_map. eapply Forall_impl; [exact Hr|]. intros b Hb'. apply (decimal_plain b Hb').
  - apply Forall_cons_2; [|apply Forall_cons_2; [|apply List.Forall_nil; done]]; [apply (Hlit "in-addr")|apply (Hlit "arpa")]; vm_compute; reflexivity.
  - rewrite length_map, length_rev, Hl. done.
  - induction Hr as [|b l Hb' _ IH]; [apply List.Forall_nil|]. cbn [flat_map app]. pose proof (Z.land_ones b 4 ltac:(lia)) as H1. pose proof (Z.land_ones (Z.shiftr b 4) 4 ltac:(lia)) as H2.
    change (Z.ones 4) with 15 in *. change (2 ^ 4) with 16 in *. apply Forall_cons_2; [|apply Forall_cons_2; [|exact IH]]; apply hexdigit_plain; rewrite ?H1, ?H2; by apply Z.mod_pos_bound.
  - apply Forall_cons_2; [|apply Forall_cons_2; [|apply List.Forall_nil; done]]; [apply (Hlit "ip6")|apply (Hlit "arpa")]; vm_compute; reflexivity.
  - assert (Hlen : forall l, zlen (flat_map (fun b => [hexdigit (Z.land b 15); hexdigit (Z.land (b ≫ 4) 15)]) l) = 2 * zlen l) by (induction l as [|b l IH]; [done|]; cbn [flat_map app length] in *; lia).
    rewrite Hlen, length_rev, Hl. done.
Qed.
(** The name for the way back is what [str2rhn] makes of the text. *)
Lemma reverse_name tp sz a : (tp = T_A /\ sz = 4 \/ tp = T_AAAA /\ sz = 16) -> is_bytes a -> zlen a = sz ->
  exists b2 x, a2ptrstr a tp namebuf = Ok (true, b2) /\ str2rhn b2 namebuf = Ok (1, enc (address_name tp a) ++ x) /\ name_ok (address_name tp a).
Proof.
  intros Htp Hb Hl. destruct (a2ptrstr_text tp sz a Htp Hb Hl) as [x E]. destruct (address_name_ok tp sz a Htp Hb Hl) as (HN & Hp & Hne).
  exists (dotted (address_name tp a) ++ 0 :: x), (drop (length (enc (address_name tp a))) namebuf). split; [done|]. split; [|done].
  destruct (address_name tp a) as [|l ls] eqn:En; [done|]. pose proof HN as [Hok Hz]. pose proof Hok as [Hl1 _]%Forall_cons. pose proof Hp as [Hp1 _]%Forall_cons.
  destruct l as [|c l]; [destruct Hl1; cbn [length] in *; lia|]. apply Forall_cons in Hp1 as [Hc _]. unfold str2rhn.
  assert (E0 : forall y, rd (c :: y) 0 = Ok c) by (intros y; apply (rd_mid [])). rewrite dotted_cons. cbn [app]. rewrite E0. cbn [mbind res_bind].
  pose proof (plain_not c Hc) as Hd. apply orb_false_iff in Hd as [_ Hd]. rewrite Hd. cbn [mbind res_bind].
  pose proof (str2rhn_loop_ok ((c :: l) :: ls) (Z.to_nat DNSNAMEBUFSIZE) [] x namebuf) as Hs. cbn [app] in Hs. rewrite dotted_cons in Hs. cbn [app] in Hs. change (zlen []) with 0 in Hs.
  pose proof (wire_lower _ Hok). rewrite Hs; try done. rewrite zlen_enc in Hz. unfold DNSNAMEBUFSIZE in *. cbn [length] in *. lia.
Qed.
