(* ===== verification/DnsControl.v ===== *)
(** The control socket of pdnsd (status.c): the commands that delete and invalidate
    records, read hosts files, add records and negative entries and empty the cache, read
    from a connection, parsed and carried out.

    A connection is what its reads will yield: each [read] gets at most what is left of
    the first part; an empty part is an error, none is the end.  The buffers that
    [malloc] gives for text are not objects of the heap; what [malloc] answers is. *)
From S2P Require Import Prelude CLib Rhn DnsName DnsStore DnsCents DnsHash DnsCache DnsHosts.

Definition T_CNAME : Z := 5.
Definition T_MX : Z := 15.
Definition T_MAX : Z := 51.
Definition CTL_CMDVERNR : Z := 26624.
Definition CTL_STATS : Z := 1.
Definition CTL_SERVER : Z := 2.
Definition CTL_RECORD : Z := 3.
Definition CTL_SOURCE : Z := 4.
Definition CTL_ADD : Z := 5.
Definition CTL_NEG : Z := 6.
Definition CTL_CONFIG : Z := 7.
Definition CTL_INCLUDE : Z := 8.
Definition CTL_EVAL : Z := 9.
Definition CTL_EMPTY : Z := 10.
Definition CTL_DUMP : Z := 11.
Definition CTL_R_DELETE : Z := 1.
Definition CTL_R_INVAL : Z := 2.

(** What goes back to the client. *)
Inductive answer : Type :=
  | Succ | Unknown_command | Bad_version | Command_too_short | Incomplete_command | Bad_command | Bad_domain_name
  | Bad_arg | Bad_ttl | Bad_flags | Bad_record_type | Bad_arguments | Bad_filename | Source_failed | Out_of_memory | Wildcard_first | Not_locked.

Definition conn : Type := list (list Z).
(** A computation on the cache and the connection, that may leave with an answer: the
    [break]s and [goto]s of the [switch]. *)
Definition ctl (A : Type) : Type := conn -> cm ((A * conn) + answer).
#[export] Instance ctl_ret : MRet ctl := fun A a rs => mret (inl (a, rs)).
#[export] Instance ctl_bind : MBind ctl := fun A B f m rs =>
  x ← m rs; match x with inl (a, rs) => f a rs | inr e => mret (inr e) end.
Definition goto {A} (e : answer) : ctl A := fun _ => mret (inr e).
Definition on_cache {A} (m : cm A) : ctl A := fun rs => a ← m; mret (inl (a, rs)).

(** * Reading *)
Definition read (n : Z) (rs : conn) : list Z * conn :=
  match rs with
  | [] => ([], [])
  | d :: rs => (take (Z.to_nat n) d, match drop (Z.to_nat n) d with [] => rs | d => d :: rs end)
  end.
Definition ntoh (d : list Z) : Z := fold_left (fun n b => n * 256 + b) d 0.
(** [read_short], [read_long]: [None] for 0. *)
Definition read_number (n : Z) (rs : conn) : option Z * conn :=
  let '(d, rs) := read n rs in (if zlen d =? n then Some (ntoh d) else None, rs).
Definition read_short : conn -> option Z * conn := read_number 2.
Definition read_long : conn -> option Z * conn := read_number 4.
(** The [while] loops: [n] bytes are missing. *)
Fixpoint read_loop (fuel : nat) (n : Z) (got : list Z) (rs : conn) : res (option (list Z) * conn) :=
  if n <=? 0 then mret (Some got, rs) else
  match fuel with
  | O => Fault OutOfFuel
  | S fuel =>
      let '(d, rs) := read n rs in
      if zlen d =? 0 then mret (None, rs) else read_loop fuel (n - zlen d) (got ++ d) rs
  end.
Definition read_bytes (n : Z) (rs : conn) : res (option (list Z) * conn) := read_loop (Z.to_nat n) n [] rs.
(** The string, with its NUL, of a length that is read; it is undefined for the
    length 65535. *)
Inductive text : Type := Text (buf : list Z) (len : Z) | Undefined | Failed.
Definition read_allocstring (rs : conn) : cm (text * conn) :=
  let '(o, rs) := read_short rs in
  match o with
  | None => mret (Failed, rs)
  | Some count =>
      if count =? 65535 then mret (Undefined, rs) else
      ok ← malloc;
      if negb ok then mret (Failed, rs) else
      '(o, rs) ← lift (read_bytes count rs);
      mret (match o with None => Failed | Some d => Text (d ++ [0]) count end, rs)
  end.
(** Into a buffer of [DNSNAMEBUFSIZE] bytes. *)
Definition read_domain (rs : conn) : res (text * conn) :=
  let '(o, rs) := read_short rs in
  match o with
  | None => mret (Failed, rs)
  | Some count =>
      if count =? 65535 then mret (Undefined, rs) else
      if DNSNAMEBUFSIZE <=? count then mret (Failed, rs) else
      '(o, rs) ← read_bytes count rs;
      match o with
      | None => mret (Failed, rs)
      | Some d =>
          buf ← wrn (replicate (Z.to_nat DNSNAMEBUFSIZE) 0) 0 d;
          buf ← wr buf count 0;
          mret (Text buf count, rs)
      end
  end.

(** The same, with the label that is jumped to. *)
Definition short_or (e : answer) : ctl Z := fun rs =>
  match read_short rs with (Some n, rs) => mret (inl (n, rs)) | (None, _) => mret (inr e) end.
Definition long_or (e : answer) : ctl Z := fun rs =>
  match read_long rs with (Some n, rs) => mret (inl (n, rs)) | (None, _) => mret (inr e) end.
Definition domain_or (e : answer) : ctl (list Z) := fun rs =>
  '(t, rs) ← lift (read_domain rs);
  mret (match t with Text buf _ => inl (buf, rs) | _ => inr e end).
Definition bytes_or (n : Z) (e : answer) : ctl (list Z) := fun rs =>
  '(o, rs) ← lift (read_bytes n rs);
  mret (match o with Some d => inl (d, rs) | None => inr e end).
(** [parsestr2rhn] into a buffer of [DNSNAMEBUFSIZE] bytes. *)
Definition parse_or (str : list Z) (len : Z) (e : answer) : ctl (list Z) := fun rs =>
  '(ok, name) ← lift (parsestr2rhn str len (replicate (Z.to_nat DNSNAMEBUFSIZE) 0));
  mret (if ok : bool then inl (name, rs) else inr e).

(** * The commands *)
Definition ctl_record : ctl answer :=
  cmd2 ← short_or Incomplete_command;
  buf ← domain_or Incomplete_command;
  name ← parse_or buf DNSNAMEBUFSIZE Bad_domain_name;
  if cmd2 =? CTL_R_DELETE then _ ← on_cache (del_cache name); mret Succ
  else if cmd2 =? CTL_R_INVAL then _ ← on_cache (invalidate_record name); mret Succ
  else mret Bad_command.

(** The loop over the addresses, from the one at [adrp] on. *)
Fixpoint add_addresses (n : nat) (cent : positive) (tp ttl sz : Z) (adrbuf : list Z) (adrp : Z) : cm bool :=
  match n with
  | O => mret true
  | S n =>
      d ← lift (rdn adrbuf adrp sz);
      ok ← add_cent_rr cent tp ttl 0 CF_LOCAL d;
      if negb ok then mret false else add_addresses n cent tp ttl sz adrbuf (adrp + sz)
  end.
(** The data of the records: a number of addresses of [sz] bytes, or [sz] bytes in
    [dbuf]. *)
Inductive rdata : Type := Addresses (nadr sz : Z) (adrbuf : list Z) | Rdata (sz : Z) (dbuf : list Z).
Definition add_rdata (cent : positive) (tp ttl : Z) (x : rdata) : cm bool :=
  match x with
  | Addresses nadr sz adrbuf => add_addresses (Z.to_nat nadr) cent tp ttl sz adrbuf 0
  | Rdata sz dbuf => d ← lift (rdn dbuf 0 sz); add_cent_rr cent tp ttl 0 CF_LOCAL d
  end.
Definition wild_name (name : list Z) : res bool :=
  a ← rd name 0;
  if a =? 1 then b ← rd name 1; mret (b =? 42) else mret false.
(** The entry is built, added and released. *)
Definition add_local (name : list Z) (tp ttl flags : Z) (x : rdata) : cm answer :=
  cent ← declare;
  ok ← init_cent cent name 0 0 flags;
  if negb ok then _ ← free cent; mret Out_of_memory else
  ok ← add_rdata cent tp ttl x;
  if negb ok then _ ← free_cent cent; _ ← free cent; mret Out_of_memory else
  c ← get_cent cent;
  wild ← lift (wild_name (qname c));
  ok ← (if wild : bool then set_cent_flags (drop 2 (qname c)) DF_WILD else mret true);
  a ← (if ok : bool then _ ← add_cache cent; mret Succ else mret Wildcard_first : cm answer);
  _ ← free_cent cent;
  _ ← free cent;
  mret a.
Definition read_address_list (sz : Z) : ctl rdata :=
  nadr ← short_or Incomplete_command;
  if nadr =? 0 then goto Bad_arg else
  ok ← on_cache malloc;
  if negb ok then goto Out_of_memory else
  adrbuf ← bytes_or (nadr * sz) Bad_arg;
  mret (Addresses nadr sz adrbuf).
Definition read_name_data : ctl rdata :=
  buf ← domain_or Incomplete_command;
  dbuf ← parse_or buf DNSNAMEBUFSIZE Bad_domain_name;
  sz ← on_cache (lift (rhnlen dbuf));
  mret (Rdata sz dbuf).
(** One [read] of the two bytes of the preference. *)
Definition read_mx_data : ctl rdata :=
  pref ← (fun rs => let '(d, rs) := read 2 rs in mret (if zlen d =? 2 then inl (d, rs) else inr Bad_arg)) : ctl (list Z);
  buf ← domain_or Incomplete_command;
  name ← parse_or buf DNSNAMEBUFSIZE Bad_domain_name;
  sz ← on_cache (lift (rhnlen name));
  mret (Rdata (sz + 2) (pref ++ name)).
Definition ctl_add : ctl answer :=
  tp ← short_or Incomplete_command;
  buf ← domain_or Incomplete_command;
  ttl ← long_or Incomplete_command;
  flags ← short_or Incomplete_command;
  name ← parse_or buf DNSNAMEBUFSIZE Bad_domain_name;
  if ttl <? 0 then goto Bad_ttl else
  if has flags DF_NEGATIVE then goto Bad_flags else
  x ← (if tp =? T_A then read_address_list 4
       else if tp =? T_AAAA then read_address_list 16
       else if (tp =? T_CNAME) || (tp =? T_PTR) || (tp =? T_NS) then read_name_data
       else if tp =? T_MX then read_mx_data
       else goto Bad_arg);
  on_cache (add_local name tp ttl flags x).

Definition PDNSD_NOT_CACHED_TYPE (type : Z) : res bool :=
  if (type <? T_MIN) || (T_MAX <? type) then mret true else i ← rd rrlkuptab (type - T_MIN); mret (NRRTOT <=? i).
Definition add_negative (name : list Z) (tp ttl : Z) : cm answer :=
  cent ← declare;
  ok ← (if tp =? 255 then init_cent cent name ttl 0 (Z.lor DF_LOCAL DF_NEGATIVE) else init_cent cent name 0 0 0);
  if negb ok then _ ← free cent; mret Out_of_memory else
  ok ← (if tp =? 255 then mret true else add_cent_rrset_by_type cent tp ttl 0 (Z.lor CF_LOCAL CF_NEGATIVE));
  if negb ok then _ ← free_cent cent; _ ← free cent; mret Out_of_memory else
  _ ← add_cache cent;
  _ ← free_cent cent;
  _ ← free cent;
  mret Succ.
Definition ctl_neg : ctl answer :=
  buf ← domain_or Incomplete_command;
  tp ← short_or Incomplete_command;
  ttl ← long_or Incomplete_command;
  name ← parse_or buf DNSNAMEBUFSIZE Bad_domain_name;
  bad ← on_cache (if negb (tp =? 255) then lift (PDNSD_NOT_CACHED_TYPE tp) else mret false);
  if bad : bool then goto Bad_record_type else
  if ttl <? 0 then goto Bad_ttl else
  on_cache (add_negative name tp ttl).

(** The list of names: [p] is the position in the text of [len] bytes, [sla] the list so
    far, which grows by eight elements at a time. *)
Fixpoint end_of_name (fuel : nat) (names : list Z) (len q : Z) : res Z :=
  match fuel with
  | O => Fault OutOfFuel
  | S fuel => if len <=? q then mret q else b ← rd names q; if b =? 0 then mret q else end_of_name fuel names len (q + 1)
  end.
Definition skip_sign (names : list Z) (p : Z) : res (bool * Z) :=
  b ← rd names p;
  mret (if b =? 45 then (false, p + 1) else (true, if b =? 43 then p + 1 else p)).
Definition skip_dot (names : list Z) (len p : Z) : res Z :=
  if negb (p + 1 <? len) then mret p else
  b ← rd names p;
  if negb (b =? 46) then mret p else
  b ← rd names (p + 1);
  mret (if negb (b =? 0) then p + 1 else p).
Fixpoint name_list (fuel : nat) (names : list Z) (len p : Z) (sla : list slist_t) : ctl (list slist_t) :=
  if len <=? p then mret sla else
  match fuel with
  | O => on_cache (fail OutOfFuel)
  | S fuel =>
      '(rule, p) ← on_cache (lift (skip_sign names p));
      p ← on_cache (lift (skip_dot names len p));
      q ← on_cache (lift (end_of_name (S (length names)) names len p));
      rhn ← parse_or (drop (Z.to_nat p) names) (q - p) Bad_domain_name;
      sz ← on_cache (lift (rhnlen rhn));
      ok ← on_cache (if Z.land (zlen sla) 7 =? 0 then malloc else mret true);
      if negb ok then goto Out_of_memory else
      ok ← on_cache malloc;
      if negb ok then goto Out_of_memory else
      d ← on_cache (lift (rdn rhn 0 sz));
      name_list fuel names len (q + 1) (sla ++ [SList d false rule])
  end.
Section Serving.
(** For [empty_cache]: whether the lock is obtained, and what runs while it is yielded. *)
Context (got : bool) (others : Z -> cm unit).
Definition ctl_empty : ctl answer :=
  t ← (fun rs => '(t, rs) ← read_allocstring rs; mret (inl (t, rs))) : ctl text;
  sla ← (match t with
         | Failed => goto Bad_arguments
         | Undefined => mret []
         | Text names len => name_list (Z.to_nat len) names len 0 []
         end : ctl (list slist_t));
  ok ← on_cache (empty_cache got others (match sla with [] => None | _ => Some sla end));
  mret (if ok : bool then Succ else Not_locked).

(** The file is read into the cache. *)
Context (lib : libc).
Definition ctl_source : ctl answer :=
  t ← (fun rs => '(t, rs) ← read_allocstring rs; mret (inl (t, rs))) : ctl text;
  fn ← (match t with Text fn _ => mret fn | _ => goto Bad_filename end : ctl (list Z));
  buf ← domain_or Incomplete_command;
  ttl ← long_or Incomplete_command;
  servaliases ← short_or Incomplete_command;
  flags ← short_or Incomplete_command;
  owner ← parse_or buf DNSNAMEBUFSIZE Bad_domain_name;
  if ttl <? 0 then goto Bad_ttl else
  if has flags DF_NEGATIVE then goto Bad_flags else
  r ← on_cache (read_hosts lib (string_of fn) owner ttl flags (negb (servaliases =? 0)));
  mret (match r with Sourced => Succ | Not_sourced => Source_failed | No_memory => Out_of_memory end).

(** One connection.  [elsewhere] carries out the commands that report, or change servers
    and configuration, or read a configuration. *)
Definition other_commands : list Z := [CTL_STATS; CTL_SERVER; CTL_CONFIG; CTL_INCLUDE; CTL_EVAL; CTL_DUMP].
Context (elsewhere : Z -> conn -> cm answer).
Definition command (cmd : Z) : ctl answer :=
  if cmd =? CTL_RECORD then ctl_record
  else if cmd =? CTL_SOURCE then ctl_source
  else if cmd =? CTL_ADD then ctl_add
  else if cmd =? CTL_NEG then ctl_neg
  else if cmd =? CTL_EMPTY then ctl_empty
  else if bool_decide (cmd ∈ other_commands)
  then fun rs => a ← elsewhere cmd rs; mret (inr a)
  else goto Unknown_command.
Definition status_query (rs : conn) : cm answer :=
  match read_short rs with
  | (None, _) => mret Command_too_short
  | (Some cmd, rs) =>
      if negb (Z.land cmd 65280 =? CTL_CMDVERNR) then mret Bad_version else
      x ← command (Z.land cmd 255) rs;
      mret (match x with inl (a, _) => a | inr a => a end)
  end.
(** The loop of [status_thread] over the connections it accepts. *)
Fixpoint status_thread (qs : list conn) : cm (list answer) :=
  match qs with
  | [] => mret []
  | rs :: qs => a ← status_query rs; l ← status_thread qs; mret (a :: l)
  end.
End Serving.
