(* ===== verification/DnsParse.v ===== *)
(** Names as text, of any bytes: [parsestr2rhn] stays within its buffers, ends, and what
    it accepts is a name, the one the text says. *)
From S2P Require Import Prelude CLib Rhn DnsName DnsNameProps DnsCompress RhnText.

(** A byte that can be in a label of a text. *)
Definition textual (c : Z) : Prop := c <> 0 /\ c <> dot.
(** The first [n] bytes of [str] say the name [N]: its labels with dots between them, and
    maybe one behind; the text ends before a NUL. *)
Definition says (str : list Z) (n : Z) (N : list label) : Prop :=
  exists t y, str = t ++ y /\ zlen t <= n /\ (zlen t = n \/ exists y', y = 0 :: y') /\
    ((N = [] /\ t = [dot]) \/ (N <> [] /\ Forall (Forall textual) N /\ (t = dotted N \/ t ++ [dot] = dotted N))).
(** Nothing more is read at the end of [pre]. *)
Definition over (n : Z) (pre y : list Z) : Prop := n <= zlen pre \/ exists y', y = 0 :: y'.

Lemma inside_Some n j : inside (Some n) j = (j <? n).
Proof. done. Qed.
Lemma copy_label_any fuel : forall x pre n rhn jlim, n <= zlen (pre ++ x) -> 0 < Z.of_nat fuel -> jlim - zlen pre < Z.of_nat fuel -> jlim < zlen rhn ->
  exists ok l y, x = l ++ y /\ copy_label fuel (pre ++ x) (Some n) rhn (zlen pre) jlim = Ok (ok, put rhn (zlen pre + 1) l, zlen pre + zlen l) /\
    Forall textual l /\ zlen pre + zlen l <= Z.max (zlen pre) jlim /\ (l <> [] -> zlen pre + zlen l <= n) /\
    (ok = true -> over n (pre ++ l) y \/ (zlen (pre ++ l) < n /\ exists y', y = dot :: y')).
Proof.
  induction fuel as [|fuel IH]; intros x pre n rhn jlim Hn Hf Hj Hr; [lia|]. cbn [copy_label]. rewrite inside_Some.
  assert (Hput : put rhn (zlen pre + 1) [] = rhn) by (apply put_nil; lia).
  assert (Hstop : forall ok, (ok = true -> over n pre x \/ (zlen pre < n /\ exists y', x = dot :: y')) -> exists ok' l y, x = l ++ y /\
    Ok (ok, rhn, zlen pre) = Ok (ok', put rhn (zlen pre + 1) l, zlen pre + zlen l) /\ Forall textual l /\ zlen pre + zlen l <= Z.max (zlen pre) jlim /\ (l <> [] -> zlen pre + zlen l <= n) /\
    (ok' = true -> over n (pre ++ l) y \/ (zlen (pre ++ l) < n /\ exists y', y = dot :: y'))).
  { intros ok Hok. exists ok, [], x. rewrite Hput, app_nil_r. cbn [length]. split_and!; try done; [|lia]. do 3 f_equal. lia. }
  destruct (Z.ltb_spec (zlen pre) n) as [Hin|Hin]; cbn [negb]; [|apply Hstop; intros _; by left; left].
  destruct x as [|c x]; [rewrite app_nil_r in Hn; lia|]. rewrite rd_mid. cbn [mbind res_bind].
  destruct (Z.eqb_spec c 0) as [->|H0]; cbn [orb]; [apply Hstop; intros _; left; right; eauto|].
  destruct (Z.eqb_spec c dot) as [->|H1]; [apply Hstop; intros _; right; eauto|].
  destruct (Z.leb_spec jlim (zlen pre)) as [Hl|Hl]; [by apply Hstop|]. rewrite wr_ok by lia. cbn [mbind res_bind]. rewrite insert_put by lia.
  destruct (IH x (pre ++ [c]) n (put rhn (zlen pre + 1) [c]) jlim) as (ok & l & y & -> & E & Ht & Hjl & Hnl & Hend).
  { by rewrite <- app_assoc. } { lia. } { rewrite length_app. cbn [length]. lia. } { rewrite length_put; cbn [length]; lia. }
  rewrite <- app_assoc in E. cbn [app] in E. replace (zlen (pre ++ [c])) with (zlen pre + 1) in * by (rewrite length_app; cbn [length]; lia). rewrite E.
  exists ok, (c :: l), y. split; [done|]. split.
  { f_equal. f_equal; [|cbn [length]; lia]. f_equal. replace (zlen pre + 1 + 1) with (zlen pre + 1 + zlen [c]) by done. rewrite put_app; [done|lia|]. cbn [length]. lia. }
  cbn [length]. split; [by constructor|]. split; [lia|]. split; [intros _; destruct l; [cbn [length]; lia|specialize (Hnl ltac:(done)); cbn [length] in *; lia]|].
  intros Hok. specialize (Hend Hok). rewrite <- app_assoc in Hend. exact Hend.
Qed.
Lemma more_over n p y : over n p y -> more (p ++ y) n (zlen p) = Ok false.
Proof.
  unfold more. intros [H|[y' ->]]; [by rewrite (proj2 (Z.ltb_ge _ _)) by lia|]. rewrite rd_mid. by destruct (zlen p <? n).
Qed.
Lemma more_dot n p y : zlen p < n -> more (p ++ dot :: y) n (zlen p) = Ok true.
Proof. intros H. unfold more. by rewrite (proj2 (Z.ltb_lt _ _) H), rd_mid. Qed.
Lemma wire_snoc ls l : wire (ls ++ [l]) = wire ls ++ zlen l :: l.
Proof. rewrite wire_app. f_equal. rewrite wire_cons. change (wire []) with (@nil Z). by rewrite app_nil_r. Qed.
Lemma dotted_snoc ls l : dotted (ls ++ [l]) = dotted ls ++ l ++ [dot].
Proof. unfold dotted. rewrite map_app, concat_app. cbn. by rewrite app_nil_r. Qed.
(** A length byte and its label, behind the labels before. *)
Lemma put_label rhn ls l : zlen (wire ls) + 1 + zlen l <= zlen rhn ->
  <[Z.to_nat (zlen (wire ls)) := zlen l]> (put (put rhn 0 (wire ls)) (zlen (wire ls) + 1) l) = put rhn 0 (wire (ls ++ [l])).
Proof.
  intros H. set (w := wire ls) in *. set (r := put rhn 0 w). assert (Hr : length r = length rhn) by (apply length_put; lia).
  assert (Hc : <[Z.to_nat (zlen w) := zlen l]> (put r (zlen w + 1) l) = put (<[Z.to_nat (zlen w) := zlen l]> r) (zlen w + 1) l).
  { apply bytes_ext; [by rewrite length_insert, !length_put, length_insert by (rewrite ?length_insert; lia)|]. rewrite length_insert, length_put by lia. intros i Hi.
    rewrite byte_at_insert by (rewrite ?length_put; lia). rewrite !byte_at_put by (rewrite ?length_insert; lia). rewrite byte_at_insert by lia. zcases. }
  rewrite Hc, insert_put by lia. pose proof (put_app rhn 0 w [zlen l] ltac:(lia) ltac:(cbn [length]; lia)) as H1.
  pose proof (put_app rhn 0 (w ++ [zlen l]) l ltac:(lia) ltac:(rewrite length_app; cbn [length]; lia)) as H2. rewrite Z.add_0_l in H1, H2. unfold r. rewrite H1.
  replace (zlen w + 1) with (zlen (w ++ [zlen l])) by (rewrite length_app; cbn [length]; lia). rewrite H2. f_equal. by rewrite wire_snoc, <- app_assoc.
Qed.
Lemma put_end rhn ls : zlen (enc ls) <= zlen rhn -> wr (put rhn 0 (wire ls)) (zlen (wire ls)) 0 = Ok (put rhn 0 (enc ls)).
Proof.
  intros H. rewrite zlen_enc in H. rewrite wr_ok by (rewrite length_put; lia). rewrite insert_put by (rewrite length_put; lia).
  pose proof (put_app rhn 0 (wire ls) [0] ltac:(lia) ltac:(cbn [length]; lia)) as H1. rewrite Z.add_0_l in H1. by rewrite H1.
Qed.

Record parsed (str : list Z) (n : Z) (rhn : list Z) (N : list label) (rhn' : list Z) : Prop := {
  pa_name : name_ok N; pa_buf : rhn' = put rhn 0 (enc N); pa_says : says str n N
}.
Lemma over_end n t y : zlen t <= n -> over n t y -> zlen t = n \/ exists y', y = 0 :: y'.
Proof. intros Ht [H|H]; [left; lia|by right]. Qed.
Lemma parse_loop_any fuel : forall ls x n rhn, Forall label_ok ls -> Forall (Forall textual) ls -> is_bytes x -> n <= zlen (dotted ls ++ x) -> zlen (dotted ls) <= n ->
  zlen (wire ls) <= 255 -> 255 - zlen (wire ls) < Z.of_nat fuel -> DNSNAMEBUFSIZE <= zlen rhn ->
  exists ok rhn', parsestr2rhn_loop fuel (dotted ls ++ x) n (put rhn 0 (wire ls)) (zlen (wire ls)) = Ok (ok, rhn') /\
    (ok = true -> exists N, parsed (dotted ls ++ x) n rhn N rhn').
Proof.
  unfold DNSNAMEBUFSIZE. induction fuel as [|fuel IH]; intros ls x n rhn Hls Htx Hx Hn Hpn Hw Hf Hr; [lia|]. cbn [parsestr2rhn_loop].
  assert (Hlen : length (dotted ls) = length (wire ls)) by apply length_dotted. set (i := zlen (wire ls)) in *.
  assert (Hjl : jlim_of i = Z.min 254 (i + 63)) by (unfold jlim_of, DNSNAMEBUFSIZE; destruct (Z.ltb_spec (256 - 2) (i + 63)); lia).
  destruct (copy_label_any 64 x (dotted ls) n (put rhn 0 (wire ls)) (jlim_of i)) as (ok & l & y & -> & E & Ht & Hj & Hln & Hend); [lia|lia|lia|rewrite length_put; lia|].
  rewrite Hlen in E. fold i in E. rewrite E. clear E. cbn [mbind res_bind]. rewrite Hlen, Hjl in Hj. fold i in Hj. rewrite Hlen in Hln. fold i in Hln. destruct ok; cbn [negb]; [|eexists _, _; by split].
  assert (Hm : exists m, more (dotted ls ++ l ++ y) n (i + zlen l) = Ok m /\
    (m = false -> over n (dotted ls ++ l) y) /\ (m = true -> zlen (dotted ls ++ l) < n /\ exists y', y = dot :: y')).
  { rewrite app_assoc. replace (i + zlen l) with (zlen (dotted ls ++ l)) by (rewrite length_app; lia).
    destruct (Hend eq_refl) as [Ho|[Ho [y' ->]]]; [exists false; by rewrite more_over|exists true; rewrite more_dot by done]. split; [done|]. split; [done|eauto]. }
  destruct Hm as (m & Hm & Hm0 & Hm1). rewrite Hm. cbn [mbind res_bind]. apply Forall_app in Hx as [Hl Hy]. destruct l as [|a l].
  - replace (i + zlen [] <=? i) with true by (cbn [length]; lia). destruct m; [eexists _, _; by split|]. rewrite put_nil, put_end by (rewrite ?zlen_enc; lia). cbn [mbind res_bind].
    eexists _, _. split; [done|]. intros Hi. exists ls. split; [|done|].
    + split; [done|]. rewrite zlen_enc. unfold DNSNAMEBUFSIZE. lia.
    + exists (dotted ls), y. split; [done|]. split; [done|]. split; [apply over_end; [done|]; specialize (Hm0 eq_refl); by rewrite app_nil_r in Hm0|].
      right. split; [intros ->; done|]. split; [done|]. by left.
  - set (l0 := a :: l) in *. assert (Hl0 : 1 <= zlen l0) by (unfold l0; cbn [length]; lia). specialize (Hln ltac:(done)).
    assert (Hok : label_ok l0) by (split; [lia|done]). replace (i + zlen l0 <=? i) with false by lia. replace (i + zlen l0 - i) with (zlen l0) by lia. rewrite u8_small by lia.
    rewrite wr_ok by (rewrite length_put; rewrite ?length_put; lia). cbn [mbind res_bind]. pose proof (put_label rhn ls l0) as Hpl. fold i in Hpl. rewrite Hpl by lia. clear Hpl. cbn [mbind res_bind].
    assert (Hls' : Forall label_ok (ls ++ [l0])) by (apply Forall_app_2; [done|by constructor]). assert (Htx' : Forall (Forall textual) (ls ++ [l0])) by (apply Forall_app_2; [done|by constructor]).
    assert (Hw' : zlen (wire (ls ++ [l0])) = i + zlen l0 + 1) by (rewrite wire_snoc, length_app; cbn [length]; fold i; lia).
    destruct m.
    + destruct (Hm1 eq_refl) as (Hlt & y' & ->). rewrite length_app in Hlt.
      assert (Hs : dotted ls ++ l0 ++ dot :: y' = dotted (ls ++ [l0]) ++ y') by (rewrite dotted_snoc; by rewrite <- !app_assoc). rewrite Hs in *. rewrite <- Hw'.
      apply IH; [done|done|by apply (Forall_cons_1 _ _ _ Hy)|done|rewrite length_dotted; lia|lia|lia|done].
    + rewrite <- Hw', put_end by (rewrite zlen_enc; lia). cbn [mbind res_bind]. eexists _, _. split; [done|]. intros _. exists (ls ++ [l0]). split; [|done|].
      * split; [done|]. rewrite zlen_enc. unfold DNSNAMEBUFSIZE. lia.
      * exists (dotted ls ++ l0), y. split; [by rewrite <- app_assoc|]. split; [rewrite length_app; lia|]. split; [apply over_end; [rewrite length_app; lia|by apply Hm0]|].
        right. split; [by destruct ls|]. split; [done|]. right. by rewrite dotted_snoc, <- app_assoc.
Qed.
Lemma parsestr2rhn_any str n rhn : is_bytes str -> 0 <= n <= zlen str -> DNSNAMEBUFSIZE <= zlen rhn ->
  exists ok rhn', parsestr2rhn str n rhn = Ok (ok, rhn') /\ (ok = true -> exists N, parsed str n rhn N rhn').
Proof.
  intros Hb Hn Hr. unfold parsestr2rhn.
  assert (Hgo : exists ok rhn', parsestr2rhn_loop (Z.to_nat DNSNAMEBUFSIZE) str n rhn 0 = Ok (ok, rhn') /\ (ok = true -> exists N, parsed str n rhn N rhn')).
  { pose proof (parse_loop_any (Z.to_nat DNSNAMEBUFSIZE) [] str n rhn) as H. change (wire []) with (@nil Z) in H. change (dotted [] ++ str) with str in H. rewrite put_nil in H by lia.
    apply H; try done; unfold DNSNAMEBUFSIZE in *; cbn; try lia; apply List.Forall_nil; done. }
  assert (Hroot : forall y, str = dot :: y -> (n = 1 \/ exists y', y = 0 :: y') -> 0 < n -> exists ok rhn', (rhn1 ← wr rhn 0 0; mret (true, rhn1) : res (bool * list Z)) = Ok (ok, rhn') /\ (ok = true -> exists N, parsed str n rhn N rhn')).
  { intros y -> Hy Hpos. unfold DNSNAMEBUFSIZE in Hr. rewrite wr_ok by lia. cbn [mbind res_bind]. eexists _, _. split; [done|]. intros _. exists []. split; [split; [done|cbn; done]| |].
    - rewrite insert_put by lia. done.
    - exists [dot], y. split; [done|]. cbn [length]. split; [lia|]. split; [destruct Hy as [->|Hy]; [by left|by right]|by left]. }
  destruct (Z.ltb_spec 0 n) as [Hpos|]; [|exact Hgo]. destruct str as [|c str]; [cbn [length] in Hn; lia|]. assert (E0 : rd (c :: str) 0 = Ok c) by apply (rd_mid []). rewrite E0. cbn [mbind res_bind].
  destruct (Z.eqb_spec c dot) as [->|]; [|exact Hgo]. destruct (Z.eqb_spec n 1) as [->|Hn1]; [apply (Hroot str); eauto|].
  destruct str as [|c' str]; [cbn [length] in Hn; lia|]. assert (E1 : rd (dot :: c' :: str) 1 = Ok c') by apply (rd_mid [dot]). rewrite E1. cbn [mbind res_bind].
  destruct (Z.eqb_spec c' 0) as [->|]; [apply (Hroot (0 :: str)); eauto|exact Hgo].
Qed.

(** * What says a name is accepted *)
Lemma copy_label_stop l : forall fuel pre y n rhn jlim, Forall textual l -> (length l < fuel)%nat -> (l <> [] -> zlen pre + zlen l <= jlim) -> jlim < zlen rhn ->
  n <= zlen (pre ++ l ++ y) -> (l <> [] -> zlen pre + zlen l <= n) -> (over n (pre ++ l) y \/ (zlen (pre ++ l) < n /\ exists y', y = dot :: y')) ->
  copy_label fuel (pre ++ l ++ y) (Some n) rhn (zlen pre) jlim = Ok (true, put rhn (zlen pre + 1) l, zlen pre + zlen l).
Proof.
  induction l as [|a l IH]; intros [|fuel] pre y n rhn jlim Ht Hf Hj Hr Hn Hl Hs; cbn [length] in Hf; try lia; cbn [copy_label]; rewrite inside_Some.
  - rewrite app_nil_r in Hs. cbn [length app]. rewrite put_nil, Z.add_0_r by lia. destruct (Z.ltb_spec (zlen pre) n) as [Hin|]; cbn [negb]; [|done].
    assert (Hy : exists c y', y = c :: y' /\ (c =? 0) || (c =? dot) = true).
    { destruct Hs as [[Ho|[y' ->]]|[_ [y' ->]]]; [lia|by exists 0, y'|by exists dot, y']. }
    destruct Hy as (c & y' & -> & Hc). rewrite rd_mid. cbn [mbind res_bind]. by rewrite Hc.
  - apply Forall_cons in Ht as [[Ha0 Ha1] Ht]. specialize (Hj ltac:(done)). specialize (Hl ltac:(done)). cbn [length] in Hj, Hl, Hn.
    replace (zlen pre <? n) with true by lia. cbn [negb app]. rewrite rd_mid. cbn [mbind res_bind]. rewrite (proj2 (Z.eqb_neq _ _) Ha0), (proj2 (Z.eqb_neq _ _) Ha1). cbn [orb].
    replace (jlim <=? zlen pre) with false by lia. rewrite wr_ok by lia. cbn [mbind res_bind]. rewrite insert_put by lia.
    specialize (IH fuel (pre ++ [a]) y n (put rhn (zlen pre + 1) [a]) jlim Ht ltac:(lia)). rewrite length_put in IH by (cbn [length]; lia).
    replace (zlen (pre ++ [a])) with (zlen pre + 1) in IH by (rewrite length_app; cbn [length]; lia). rewrite <- !app_assoc in IH. cbn [app] in IH.
    rewrite IH; [|lia|lia|done|lia|done]. f_equal. f_equal; [|cbn [length]; lia]. f_equal. replace (zlen pre + 1 + 1) with (zlen pre + 1 + zlen [a]) by done. rewrite put_app; [done|lia|]. cbn [length]. lia.
Qed.
(** The text of the labels that are left. *)
Definition rest_text (Ns : list label) (t : list Z) : Prop := t = dotted Ns \/ (Ns <> [] /\ t ++ [dot] = dotted Ns).
Lemma dotted_last l ls : exists d, dotted (l :: ls) = d ++ [dot].
Proof.
  revert l. induction ls as [|l' ls IH]; intros l; [exists l; by rewrite dotted_cons|]. destruct (IH l') as [d Hd]. exists (l ++ dot :: d). rewrite dotted_cons, Hd, <- app_assoc. done.
Qed.
Lemma rest_text_cons l Ns t : rest_text (l :: Ns) t -> (Ns = [] /\ t = l) \/ exists t', t = l ++ dot :: t' /\ rest_text Ns t'.
Proof.
  intros [->|[_ H]].
  - right. exists (dotted Ns). split; [apply dotted_cons|by left].
  - rewrite dotted_cons in H. destruct Ns as [|l' Ns]; [left; split; [done|]; by apply app_inj_2 in H as [-> _]|]. right. destruct (dotted_last l' Ns) as [d Hd]. exists d.
    rewrite Hd in H. replace (l ++ dot :: d ++ [dot]) with ((l ++ dot :: d) ++ [dot]) in H by (by rewrite <- app_assoc). apply app_inj_2 in H as [-> _]; [|done].
    split; [done|]. right. by split.
Qed.
Lemma parse_loop_complete Ns : forall fuel ls t y n rhn, Forall (Forall textual) Ns -> name_ok (ls ++ Ns) -> rest_text Ns t -> ls ++ Ns <> [] ->
  n <= zlen (dotted ls ++ t ++ y) -> zlen (dotted ls ++ t) <= n -> over n (dotted ls ++ t) y -> 255 - zlen (wire ls) < Z.of_nat fuel -> DNSNAMEBUFSIZE <= zlen rhn ->
  parsestr2rhn_loop fuel (dotted ls ++ t ++ y) n (put rhn 0 (wire ls)) (zlen (wire ls)) = Ok (true, put rhn 0 (enc (ls ++ Ns))).
Proof.
  unfold DNSNAMEBUFSIZE. induction Ns as [|l Ns IH]; intros fuel ls t y n rhn Htx [Hok Hsz] Ht Hne Hn Hpn Hov Hf Hr; unfold DNSNAMEBUFSIZE in Hsz; rewrite zlen_enc, wire_app, length_app in Hsz;
    (destruct fuel as [|fuel]; [lia|]); cbn [parsestr2rhn_loop]; pose proof (length_dotted ls) as Hlen; set (i := zlen (wire ls)) in *.
  - assert (t = []) as -> by (by destruct Ht as [->|[? _]]). rewrite app_nil_r in *. cbn [app] in *. unfold i. rewrite <- Hlen at 1.
    pose proof (copy_label_stop [] 64 (dotted ls) y n (put rhn 0 (wire ls)) (jlim_of i)) as Hc. cbn [app length] in Hc. rewrite app_nil_r in Hc.
    assert (Hjl : jlim_of i <= 254) by (unfold jlim_of, DNSNAMEBUFSIZE; destruct (256 - 2 <? i + 63) eqn:?; lia).
    rewrite Hlen in Hc |- *. fold i in Hc |- *. rewrite Hc; [|done|lia|done|rewrite length_put; lia|done|done|by left]. cbn [mbind res_bind negb]. rewrite put_nil, Z.add_0_r by lia.
    replace i with (zlen (dotted ls)) at 1 by lia. rewrite more_over by done. cbn [mbind res_bind]. rewrite (proj2 (Z.leb_le i i)) by lia. unfold i. rewrite put_end by (rewrite zlen_enc; fold i; lia). cbn [mbind res_bind].
    replace (zlen (wire ls) =? 0) with false; [done|]. destruct ls as [|l ls]; [done|]. rewrite wire_cons. cbn [length]. lia.
  - apply Forall_cons in Htx as [Hl Htx]. apply Forall_app in Hok as [Hls HNs]. apply Forall_cons in HNs as [[Hl1 Hlb] HNs]. rewrite wire_cons in Hsz. cbn [length] in Hsz. rewrite length_app in Hsz.
    assert (Hjl : i + zlen l <= jlim_of i <= 254) by (unfold jlim_of, DNSNAMEBUFSIZE; destruct (Z.ltb_spec (256 - 2) (i + 63)); lia).
    assert (Hgo : forall z, t ++ y = l ++ z -> (over n (dotted ls ++ l) z \/ (zlen (dotted ls ++ l) < n /\ exists y', z = dot :: y')) -> zlen (dotted ls ++ l) <= n ->
      copy_label 64 (dotted ls ++ t ++ y) (Some n) (put rhn 0 (wire ls)) i (jlim_of i) = Ok (true, put (put rhn 0 (wire ls)) (i + 1) l, i + zlen l)).
    { intros z Hz Hend Hle. rewrite Hz in *. rewrite length_app in Hle. pose proof (copy_label_stop l 64 (dotted ls) z n (put rhn 0 (wire ls)) (jlim_of i)) as Hc.
      rewrite Hlen in Hc. fold i in Hc. rewrite Hlen in Hle. fold i in Hle. apply Hc; try done; [lia|lia|rewrite length_put; lia|lia]. }
    assert (Hw : zlen (wire (ls ++ [l])) = i + zlen l + 1) by (rewrite wire_snoc, length_app; cbn [length]; fold i; lia).
    pose proof (put_label rhn ls l) as Hpl. fold i in Hpl. assert (Hass : ls ++ l :: Ns = (ls ++ [l]) ++ Ns) by (by rewrite <- app_assoc).
    destruct (rest_text_cons l Ns t Ht) as [[-> ->]|(t' & -> & Ht')].
    + rewrite (Hgo y) by (by try left). cbn [mbind res_bind negb]. assert (Hm : more (dotted ls ++ l ++ y) n (i + zlen l) = Ok false).
      { rewrite app_assoc. replace (i + zlen l) with (zlen (dotted ls ++ l)) by (rewrite length_app; lia). by apply more_over. }
      rewrite Hm. cbn [mbind res_bind]. replace (i + zlen l <=? i) with false by lia. replace (i + zlen l - i) with (zlen l) by lia. rewrite u8_small by lia.
      rewrite wr_ok by (rewrite length_put; rewrite ?length_put; lia). cbn [mbind res_bind]. rewrite Hpl by lia. rewrite <- Hw. cbn [length] in Hsz. rewrite put_end by (rewrite zlen_enc; lia). cbn [mbind res_bind].
      rewrite Hw. replace (i + zlen l + 1 =? 0) with false by lia. done.
    + assert (Htext : dotted ls ++ (l ++ dot :: t') ++ y = dotted (ls ++ [l]) ++ t' ++ y) by (rewrite dotted_snoc; by rewrite <- !app_assoc).
      assert (Htext' : dotted ls ++ l ++ dot :: t' = dotted (ls ++ [l]) ++ t') by (rewrite dotted_snoc; by rewrite <- !app_assoc).
      assert (Hlt : zlen (dotted ls ++ l) < n) by (rewrite !length_app in *; cbn [length] in *; lia).
      rewrite (Hgo (dot :: t' ++ y)); [|by rewrite <- app_assoc|right; eauto|lia]. cbn [mbind res_bind negb].
      assert (Hm : more (dotted ls ++ (l ++ dot :: t') ++ y) n (i + zlen l) = Ok true).
      { replace (dotted ls ++ (l ++ dot :: t') ++ y) with ((dotted ls ++ l) ++ dot :: t' ++ y) by (by rewrite <- !app_assoc). replace (i + zlen l) with (zlen (dotted ls ++ l)) by (rewrite length_app; lia). by apply more_dot. }
      rewrite Hm. cbn [mbind res_bind]. replace (i + zlen l <=? i) with false by lia. replace (i + zlen l - i) with (zlen l) by lia. rewrite u8_small by lia.
      rewrite wr_ok by (rewrite length_put; rewrite ?length_put; lia). cbn [mbind res_bind]. rewrite Hpl, Htext, <- Hw, Hass by lia. rewrite Htext in Hn. rewrite Htext' in Hpn, Hov.
      apply IH; try done; [|by rewrite <- Hass|lia]. split; [rewrite <- Hass; by apply Forall_app_2; [|constructor]|]. rewrite <- Hass. unfold DNSNAMEBUFSIZE. rewrite zlen_enc, wire_app, length_app, wire_cons. cbn [length]. rewrite length_app. lia.
Qed.
Lemma parsestr2rhn_complete str n rhn N : 0 <= n <= zlen str -> name_ok N -> says str n N -> DNSNAMEBUFSIZE <= zlen rhn -> parsestr2rhn str n rhn = Ok (true, put rhn 0 (enc N)).
Proof.
  intros Hn HN (t & y & -> & Htn & Hend & Ht) Hr. unfold parsestr2rhn, DNSNAMEBUFSIZE in *. destruct Ht as [[-> ->]|(Hne & Htx & Ht)].
  - cbn [length app] in *. replace (0 <? n) with true by lia. assert (E0 : rd (dot :: y) 0 = Ok dot) by apply (rd_mid []). rewrite E0. cbn [mbind res_bind]. rewrite Z.eqb_refl.
    assert (Hroot : (if n =? 1 then mret true else c' ← rd (dot :: y) 1; mret (c' =? 0) : res bool) = Ok true).
    { destruct (Z.eqb_spec n 1); [done|]. destruct Hend as [|[y' ->]]; [lia|]. assert (E1 : rd (dot :: 0 :: y') 1 = Ok 0) by apply (rd_mid [dot]). by rewrite E1. }
    rewrite Hroot. cbn [mbind res_bind]. rewrite wr_ok by lia. cbn [mbind res_bind]. by rewrite insert_put by lia.
  - destruct N as [|l N]; [done|]. pose proof HN as [HNl _]. apply Forall_cons in HNl as [[Hl _] _]. apply Forall_cons in Htx as Htx'. destruct Htx' as [Hlt _].
    assert (Hrt : rest_text (l :: N) t) by (destruct Ht as [->|Ht]; [by left|by right]). destruct l as [|a l]; [cbn [length] in Hl; lia|].
    assert (Ha : exists t', t = a :: t') by (destruct (rest_text_cons _ _ _ Hrt) as [[_ ->]|(t' & -> & _)]; eauto). destruct Ha as [t' ->].
    apply Forall_cons in Hlt as [[_ Hdot] _]. cbn [length] in Htn. replace (0 <? n) with true by lia. cbn [app]. assert (E0 : rd (a :: t' ++ y) 0 = Ok a) by apply (rd_mid []). rewrite E0. cbn [mbind res_bind].
    rewrite (proj2 (Z.eqb_neq a dot) Hdot). cbn [mbind res_bind mret res_ret].
    pose proof (parse_loop_complete ((a :: l) :: N) (Z.to_nat 256) [] (a :: t') y n rhn Htx HN Hrt) as Hp. change (wire []) with (@nil Z) in Hp. change (dotted []) with (@nil Z) in Hp. cbn [app length] in Hp. rewrite put_nil in Hp by lia.
    apply Hp; [done|exact (proj2 Hn)|lia| |lia|done]. destruct Hend as [H|H]; [left; cbn [length] in *; lia|by right].
Qed.
(** C40: parsestr2rhn accepts exactly the texts that say a name - labels of 1 to 63 bytes other than dot and NUL, separated by dots, with or without one at the end, of at most 256 bytes in all, or a single dot -, and then writes that name; on every text it ends and stays within both buffers. *)
Theorem parsestr2rhn_exact str n rhn : is_bytes str -> 0 <= n <= zlen str -> DNSNAMEBUFSIZE <= zlen rhn ->
  exists ok rhn', parsestr2rhn str n rhn = Ok (ok, rhn') /\
    if ok : bool then exists N, name_ok N /\ says str n N /\ rhn' = put rhn 0 (enc N) else forall N, name_ok N -> ~ says str n N.
Proof.
  intros Hb Hn Hr. destruct (parsestr2rhn_any str n rhn Hb Hn Hr) as (ok & rhn' & E & Hp). exists ok, rhn'. split; [exact E|]. destruct ok.
  - destruct (Hp eq_refl) as (N & [H1 H2 H3]). by exists N.
  - intros N HN Hs. rewrite (parsestr2rhn_complete str n rhn N Hn HN Hs Hr) in E. discriminate.
Qed.
(** "a.bc" and what is behind it in a buffer. *)
Lemma parsestr2rhn_exact_witness : parsestr2rhn [97; 46; 98; 99; 0; 7] 6 (replicate 256 0) = Ok (true, put (replicate 256 0) 0 (enc [[97]; [98; 99]])) /\
  exists ok rhn', parsestr2rhn [97; 46; 98; 99; 0; 7] 6 (replicate 256 0) = Ok (ok, rhn') /\
    if ok : bool then exists N, name_ok N /\ says [97; 46; 98; 99; 0; 7] 6 N /\ rhn' = put (replicate 256 0) 0 (enc N) else forall N, name_ok N -> ~ says [97; 46; 98; 99; 0; 7] 6 N.
Proof.
  split; [vm_compute; reflexivity|]. apply (parsestr2rhn_exact [97; 46; 98; 99; 0; 7] 6 (replicate 256 0)); [|cbn; lia|vm_compute; discriminate].
  unfold is_bytes. apply (bool_decide_unpack _). vm_compute. exact I.
Defined.
