(* ===== verification/DnsServe.v ===== *)
(** The local variable [cent] with which the commands of pdnsd's control socket build an
    entry, and what every command keeps. *)
From S2P Require Import Prelude CLib HevList Rhn DnsName DnsNameProps DnsCompress DnsMessage DnsStore DnsCents DnsHash DnsCache DnsRrl DnsHeap DnsEntry DnsFree DnsCopy DnsTable DnsPurge DnsCent DnsMerge DnsAdd DnsLookup DnsEmpty DnsHosts DnsControl DnsParse.

Implicit Types (T : gmap (list label) positive) (K N : list label) (s : cache) (L : list positive) (p q : positive).

(** * What takes entries off the list, and puts none on it *)
Definition sheds {A} (m : cm A) : Prop := forall s, match m s with Ok (_, s') => core <$> lents s' ⊆ core <$> lents s | Fault _ => True end.
Create HintDb sheds.
Lemma sheds_bind {A B} (m : cm A) (f : A -> cm B) : sheds m -> (forall a, sheds (f a)) -> sheds (m ≫= f).
Proof.
  intros Hm Hf s. unfold mbind, cm_bind. specialize (Hm s). destruct (m s) as [[a s1]|]; [|done]. specialize (Hf a s1). destruct (f a s1) as [[b s2]|]; [|done]. by etrans.
Qed.
Lemma sheds_ret {A} (a : A) : sheds (mret a).
Proof. intros s. cbn. reflexivity. Qed.
Lemma sheds_lift {A} (r : res A) : sheds (lift r).
Proof. intros s. unfold lift. destruct r; [reflexivity|done]. Qed.
Lemma sheds_gets {A} (f : cache -> A) : sheds (gets f).
Proof. intros s. cbn. reflexivity. Qed.
Lemma sheds_sets f : (forall s, lents (f s) = lents s) -> sheds (sets f).
Proof. intros H s. unfold sets. rewrite H. reflexivity. Qed.
Lemma sheds_malloc : sheds malloc.
Proof. intros s. cbn. reflexivity. Qed.
Lemma sheds_found {A} (o : option A) : sheds (found o).
Proof. intros s. destruct o; [cbn; reflexivity|done]. Qed.
#[export] Hint Resolve sheds_ret sheds_lift sheds_gets sheds_malloc sheds_found : sheds.
Ltac shed := repeat match goal with
  | |- sheds (_ ≫= _) => apply sheds_bind
  | |- forall _, _ => intro
  | |- sheds (match ?x with _ => _ end) => destruct x
  | |- sheds (match ?x with _ => _ end _) => destruct x
  | |- sheds (sets _) => apply sheds_sets; done
  | |- sheds _ => solve [eauto with sheds]
  | |- sheds _ => progress cbv beta zeta
  end.
Lemma sheds_lent p e' s e : lents s !! p = Some e -> rrset e' = rrset e -> cent e' = cent e -> idx e' = idx e ->
  core <$> <[p := e']> (lents s) ⊆ core <$> lents s.
Proof.
  intros He H1 H2 H3. rewrite fmap_insert. apply insert_subseteq_l; [|done]. rewrite lookup_fmap, He. cbn. unfold core. by rewrite H1, H2, H3.
Qed.
Lemma sheds_set_next p x : sheds (set_next p x).
Proof.
  intros s. unfold set_next, get_lent, put_lent, gets, sets, mbind, cm_bind. destruct (lents s !! p) as [e|] eqn:E; cbn [found mret cm_ret]; [|done]. rewrite E. cbn [found mret cm_ret].
  by apply (sheds_lent p _ s e).
Qed.
Lemma sheds_set_prev p x : sheds (set_prev p x).
Proof.
  intros s. unfold set_prev, get_lent, put_lent, gets, sets, mbind, cm_bind. destruct (lents s !! p) as [e|] eqn:E; cbn [found mret cm_ret]; [|done]. rewrite E. cbn [found mret cm_ret].
  by apply (sheds_lent p _ s e).
Qed.
Lemma sheds_free_lent p : sheds (free_lent p).
Proof.
  intros s. unfold free_lent, gets, sets, mbind, cm_bind. destruct (lents s !! p) as [e|] eqn:E; cbn [found mret cm_ret]; [|done].
  cbn. rewrite fmap_delete. apply delete_subseteq.
Qed.
Lemma sheds_get_lent p : sheds (get_lent p).
Proof. unfold get_lent. shed. Qed.
Lemma sheds_get_set p : sheds (get_set p).
Proof. unfold get_set. shed. Qed.
Lemma sheds_get_cent p : sheds (get_cent p).
Proof. unfold get_cent. shed. Qed.
Lemma sheds_put_set p x : sheds (put_set p x).
Proof. unfold put_set. shed. Qed.
Lemma sheds_put_cent p x : sheds (put_cent p x).
Proof. unfold put_cent. shed. Qed.
Lemma sheds_new_address : sheds new_address.
Proof. unfold new_address. shed. Qed.
#[export] Hint Resolve sheds_set_next sheds_set_prev sheds_free_lent sheds_get_lent sheds_get_set sheds_get_cent sheds_put_set sheds_put_cent sheds_new_address : sheds.
Lemma sheds_remove p : sheds (remove_rrl p).
Proof. unfold remove_rrl. shed. Qed.
Lemma sheds_update p f : sheds (update p f).
Proof. unfold update. shed. Qed.
#[export] Hint Resolve sheds_remove sheds_update : sheds.
Lemma sheds_add_set p i t n f : sheds (add_cent_rrset_by_index p i t n f).
Proof. unfold add_cent_rrset_by_index. shed. Qed.
#[export] Hint Resolve sheds_add_set : sheds.
Lemma sheds_add_type p i t n f : sheds (add_cent_rrset_by_type p i t n f).
Proof. unfold add_cent_rrset_by_type. shed. Qed.
Lemma sheds_add_int p i t n f d r : sheds (add_cent_rr_int p i t n f d r).
Proof. unfold add_cent_rr_int, create_rr. shed. Qed.
#[export] Hint Resolve sheds_add_type sheds_add_int : sheds.
Lemma sheds_add_rr p i t n f d : sheds (add_cent_rr p i t n f d).
Proof. unfold add_cent_rr. shed. Qed.
Lemma crun_sheds {A} (m : cm A) s Q : sheds m -> crun m s Q -> crun m s (fun a s' => Q a s' /\ core <$> lents s' ⊆ core <$> lents s).
Proof. intros Hm. specialize (Hm s). unfold crun. destruct (m s) as [[a s']|]; [done|done]. Qed.

(** * A draft *)

(** The state when the caller has built the entry [p] of the name [N], and may have
    used the cache, since [T0], [s0]. *)
Record draft T0 s0 T p N s : Prop := {
  dr_ok : cache_ok T s;
  dr_out : outside T p;
  dr_cent : exists c, cents s !! p = Some c /\ qname c = enc N;
  dr_frame : framed (Some p) T0 s0 T s;
  dr_fresh : cents s0 !! p = None
}.
Section Draft.
Context T0 s0 p N (HN : name_ok N).
Notation draft T s := (draft T0 s0 T p N s).
Lemma draft_step T s s' : draft T s -> on_cent p s s' -> (exists L', store_ok L' s') -> core <$> lents s' ⊆ core <$> lents s -> draft T s'.
Proof.
  intros [([L H] & Hs & Hi) Ho (c & Hc & Hq) Hf Hfr] Hon [L' H'] Hcore. pose proof (on_cent_around _ _ _ Hon) as Har.
  assert (Hu : unlisted s' p).
  { intros a e Ha%core_of Hce. apply (lookup_weaken _ _ _ _ Ha) in Hcore. apply core_Some in Hcore as (e' & He' & _ & Hce' & _). apply (lents_outside L T s p H Ho a e' He'). congruence. }
  pose proof (oc_name _ _ _ Hon) as Hnm. rewrite Hc in Hnm. destruct (cents s' !! p) as [c'|] eqn:Hc'; [|done]. injection Hnm as Hnm. split; [|done|exists c'; split; [done|congruence]| |done].
  - split; [exists L'; by apply (around_inv L T s L' s' p)|]. split; [by apply (around_sized T s s' p)|]. by rewrite (st_sort _ _ (oc_stays _ _ _ Hon)).
  - destruct Hf as [F1 F2 F3 F4]. split.
    + by rewrite (st_env _ _ (oc_stays _ _ _ Hon)).
    + etrans; [exact F2|apply Hon].
    + intros q Hq' Hoq. destruct (decide (q = p)) as [->|Hqp]; [by left|]. rewrite (oc_cents _ _ _ Hon q Hqp) in Hq'. by apply F3.
    + intros q d Hoq Hd. assert (Hqp : q <> p) by (intros ->; congruence). destruct (F4 q d Hoq Hd) as (A1 & A2 & A3). split; [done|]. split; [by rewrite (oc_cents _ _ _ Hon)|].
      intros i r Hr. rewrite <- (A3 i r Hr). by apply (oc_sets _ _ _ Hon q d i r).
Qed.
Lemma draft_use T s T' s' : draft T s -> cache_ok T' s' -> frame T s T' s' -> draft T' s'.
Proof.
  intros [Hok Ho (c & Hc & Hq) [F1 F2 F3 F4] Hfr] Hok' [G1 G2 G3 G4]. destruct (G4 p c Ho Hc) as (Ho' & Hc' & _). split; [done|done|by exists c| |done]. split; [congruence|by etrans| |].
  - intros q Hq' Hoq. destruct (G3 q Hq' Hoq) as [Hoq' Hq'']. by apply F3.
  - intros q d Hoq Hd. destruct (F4 q d Hoq Hd) as (A1 & A2 & A3). destruct (G4 q d A1 A2) as (B1 & B2 & B3). split_and!; [done..|]. intros i r Hr. rewrite (B3 i r Hr). by eapply A3.
Qed.
(** Adding a record, or an empty set. *)
Lemma draft_rr T s type t n f d : draft T s -> cached_type type -> crun (add_cent_rr p type t n f d) s (fun _ s' => draft T s').
Proof.
  intros Hd Hty. destruct (dr_ok _ _ _ _ _ _ Hd) as ([L H] & _). destruct (dr_cent _ _ _ _ _ _ Hd) as (c & Hc & _).
  eapply crun_mono; [apply crun_sheds; [apply sheds_add_rr|apply (add_cent_rr_store L s p); [apply H|by exists c|done]]|]. intros ok s' ((Hon & Hst & _) & Hcore). by apply (draft_step T s).
Qed.
Lemma draft_set T s type t n f : draft T s -> cached_type type -> (forall i, empty_slot s p i) -> crun (add_cent_rrset_by_type p type t n f) s (fun _ s' => draft T s').
Proof.
  intros Hd (i & Ht & Hi & Hr) He. destruct (dr_ok _ _ _ _ _ _ Hd) as ([L H] & _).
  eapply crun_mono; [apply crun_sheds; [apply sheds_add_type|]|].
  - unfold add_cent_rrset_by_type. step. apply crun_lift. replace ((0 <=? type - T_MIN) && (type - T_MIN <? T_NUM)) with true by lia. cbn [succeeds PDNSD_ASSERT]. step. apply crun_lift. rewrite Hi. cbn [succeeds].
    by apply (add_rrset_store L s p i t n f); [apply H|..].
  - intros ok s' ((Hon & Hst & _) & Hcore). by apply (draft_step T s).
Qed.
Lemma draft_add T s : draft T s -> crun (add_cache p) s (fun _ s' => exists T', draft T' s' /\ grown N T T').
Proof.
  intros Hd. destruct (dr_cent _ _ _ _ _ _ Hd) as (c & Hc & Hq). eapply crun_mono; [apply (add_cache_run T s p c N); [apply Hd|apply Hd|done|done|done]|].
  intros _ s' (T' & Hg & Hok & Hf). exists T'. split; [by apply (draft_use T s)|done].
Qed.
Lemma draft_release T s : draft T s -> crun (_ ← free_cent p; free p) s (fun _ s' => cache_ok T s' /\ frame T0 s0 T s').
Proof.
  intros [([L H] & Hs & Hi) Ho (c & Hc & Hq) [F1 F2 F3 F4] Hfr]. eapply crun_mono; [apply (release_store L s p c); [apply H|done]|]. intros _ s' (L' & Hg).
  pose proof (gone_around _ _ _ _ _ Hg) as Har. assert (Hn : cents s' !! p = None) by (rewrite (go_cents _ _ _ _ _ Hg); apply lookup_delete_eq). split.
  - split; [exists L'; apply (around_inv L T s L' s' p); try done; [apply Hg|apply (gone_unlisted L'); [apply Hg|done]]|].
    split; [by apply (around_sized T s s' p)|]. by rewrite (st_sort _ _ (ar_stays _ _ _ Har)).
  - split; [by rewrite (st_env _ _ (ar_stays _ _ _ Har))|etrans; [exact F2|apply Har]| |].
    + intros q Hq' Hoq. assert (Hqp : q <> p) by (intros ->; rewrite Hn in Hq'; by destruct Hq'). rewrite (ar_cents _ _ _ Har q Hqp) in Hq'. destruct (F3 q Hq' Hoq) as [[= ->]|]; done.
    + intros q d Hoq Hd. assert (Hqp : q <> p) by (intros ->; congruence). destruct (F4 q d Hoq Hd) as (A1 & A2 & A3). split; [done|]. split; [by rewrite (ar_cents _ _ _ Har)|].
      intros i r Hr. rewrite <- (A3 i r Hr). by apply (ar_sets _ _ _ Har q d i r).
Qed.
End Draft.

(** * Beginning one *)
Definition undefined_cent : dns_cent_t := Cent [] 0 0 0 (Neg None 0 0) 0 0.
Definition declared s : cache := set_cents (<[brk s := undefined_cent]> (cents s)) (set_brk (Pos.succ (brk s)) s).
Lemma declare_run s : declare s = Ok (brk s, declared s).
Proof. done. Qed.
Lemma frame_asked T s n b : (brk s <= b)%positive -> frame T s T (set_asked n (set_brk b s)).
Proof. intros Hb. by split. Qed.
Lemma store_later L s n b : (brk s <= b)%positive -> store_ok L s -> store_ok L (set_asked n (set_brk b s)).
Proof. intros Hb [H1 H2 H3 H4 H5]. split; try done. intros p Hp. cbn in *. specialize (H5 p Hp). lia. Qed.
Lemma cache_later T s n b : (brk s <= b)%positive -> cache_ok T s -> cache_ok T (set_asked n (set_brk b s)).
Proof.
  intros Hb ([L [H1 H2 H3 H4]] & Hs & Hi). split; [|done]. exists L. split; [by apply store_later|by apply (tbl_ext T s)|done|done].
Qed.
(** Without memory the variable goes again. *)
Lemma undeclare_run T s n : cache_ok T s -> crun (free (brk s)) (set_asked n (declared s)) (fun _ s' => cache_ok T s' /\ frame T s T s').
Proof.
  intros Hok. pose proof Hok as ([L H] & _). destruct (fresh_outside L T s H) as [_ Hn]. assert (Hi : cents (set_asked n (declared s)) !! brk s = Some undefined_cent) by apply lookup_insert_eq.
  step.
  replace (set_cents _ _) with (set_asked n (set_brk (Pos.succ (brk s)) s)); [split; [apply cache_later; [lia|done]|apply frame_asked; lia]|].
  unfold declared, set_cents, set_asked, set_brk. cbn. by rewrite delete_insert_eq, delete_id.
Qed.
Lemma rdn_enc_app N x : rdn (enc N ++ x) 0 (zlen (enc N)) = Ok (enc N).
Proof. rewrite rdn_ok by (rewrite ?length_app; lia). unfold sub. rewrite Nat2Z.id. f_equal. apply take_app_length. Qed.
Lemma init_cent_run T s N x ttl ts f : cache_ok T s -> name_ok N -> crun (init_cent (brk s) (enc N ++ x) ttl ts f) (declared s) (fun ok s' =>
  if ok : bool then draft T s T (brk s) N s' /\ (forall i, empty_slot s' (brk s) i) else exists n, s' = set_asked n (declared s)).
Proof.
  intros Hok HN. pose proof Hok as ([L H] & Hs & Hi). destruct (fresh_outside L T s H) as [Ho Hn]. unfold init_cent. step. apply crun_lift. rewrite (rhnlen_spec N x) by apply HN. cbn [succeeds].
  do 2 step. destruct ok; cbn [negb]; [|step; by eexists]. step. apply crun_lift.
  rewrite rdn_enc_app.
  cbn [succeeds]. assert (Hc : cents (set_asked (S (asked (declared s))) (declared s)) !! brk s = Some undefined_cent) by apply lookup_insert_eq. do 2 step. step.
  set (c := Cent _ _ _ _ _ _ _). set (s1 := set_cents _ _).
  assert (Ec : c = fresh_cent (enc N) ttl ts (u16 f) cundef cundef) by (unfold c, fresh_cent; by rewrite u16_negative).
  pose proof (fresh_cent_ok (rrsets s) N ttl ts (u16 f) cundef cundef HN) as Hcok. destruct (fresh_cent_slots (enc N) ttl ts (u16 f) cundef cundef) as [Hsl Hng]. rewrite <- Ec in Hcok, Hsl, Hng.
  pose proof (store_later L s (S (asked s)) (brk s) ltac:(lia) (iv_store _ _ _ H)) as H0.
  destruct (store_new_cent L (set_asked (S (asked s)) (set_brk (brk s) s)) c H0 Hcok Hsl Hng) as [H1 Har].
  assert (Es : s1 = set_cents (<[brk s := c]> (cents s)) (set_brk (Pos.succ (brk s)) (set_asked (S (asked s)) (set_brk (brk s) s)))).
  { unfold s1, declared, set_cents, set_asked, set_brk. cbn. by rewrite insert_insert_eq. }
  cbn [brk set_asked set_brk cents] in H1, Har. rewrite <- Es in H1, Har. assert (Har0 : around (brk s) s s1) by (destruct Har; split; try done).
  assert (Hcs : cents s1 = <[brk s := c]> (cents s)) by (by rewrite Es).
  assert (Hu : unlisted s1 (brk s)).
  { intros a e Ha Hce. rewrite Es in Ha. change (lents s !! a = Some e) in Ha. by apply (lents_outside L T s (brk s) H Ho a e Ha). }
  split; [|intros i; exists c; rewrite Hcs; split; [apply lookup_insert_eq|done]].
  split; [|done|exists c; rewrite Hcs; split; [apply lookup_insert_eq|done]| |done].
  - split; [exists L; by apply (around_inv L T s L s1 (brk s))|]. split; [by apply (around_sized T s s1 (brk s))|by rewrite (st_sort _ _ (ar_stays _ _ _ Har0))].
  - destruct Har0 as [[] O2 O3 O4]. split; [done|done| |].
    + intros q Hq Hoq. destruct (decide (q = brk s)) as [->|Hqb]; [by left|right]. split; [done|]. by rewrite <- O3.
    + intros q d Hoq Hd. assert (q <> brk s) by (intros ->; congruence). split_and!; [done|by rewrite O3|]. intros i r Hr. by eapply O4.
Qed.

(** * Commands *)
Implicit Types (rs : conn).

Definition conn_ok rs : Prop := Forall is_bytes rs.
(** * Reading *)
Lemma read_ok n rs : conn_ok rs -> 0 <= n -> is_bytes (read n rs).1 /\ zlen (read n rs).1 <= n /\ conn_ok (read n rs).2.
Proof.
  intros H Hn. destruct rs as [|d rs]; cbn [read fst snd]; [split; [apply List.Forall_nil|]; split; [cbn; lia|done]|]. apply Forall_cons in H as [Hd Hrs].
  split; [by apply Forall_take|]. split; [rewrite length_take; lia|]. destruct (drop (Z.to_nat n) d) as [|b l] eqn:E; [done|]. constructor; [|done]. rewrite <- E. by apply Forall_drop.
Qed.
Lemma ntoh_snoc d b : ntoh (d ++ [b]) = ntoh d * 256 + b.
Proof. unfold ntoh. by rewrite fold_left_app. Qed.
Lemma ntoh_range d : is_bytes d -> 0 <= ntoh d < 256 ^ zlen d.
Proof.
  induction d as [|b d IH] using rev_ind; [done|]. intros [Hd Hb]%Forall_app. apply Forall_cons in Hb as [Hb _]. specialize (IH Hd). rewrite ntoh_snoc, length_app. cbn [length].
  replace (Z.of_nat (length d + 1)) with (Z.succ (zlen d)) by lia. rewrite Z.pow_succ_r by lia. lia.
Qed.
Lemma read_number_ok n rs : conn_ok rs -> 0 <= n -> conn_ok (read_number n rs).2 /\ (forall v, (read_number n rs).1 = Some v -> 0 <= v < 256 ^ n).
Proof.
  intros H Hn. destruct (read_ok n rs H Hn) as (H1 & H2 & H3). unfold read_number. destruct (read n rs) as [d rs']. cbn [fst snd] in *. split; [done|]. intros v.
  destruct (Z.eqb_spec (zlen d) n) as [<-|]; [|done]. intros [= <-]. by apply ntoh_range.
Qed.
Lemma read_loop_ok fuel : forall n got rs, conn_ok rs -> is_bytes got -> n <= Z.of_nat fuel -> 0 <= n ->
  exists o rs', read_loop fuel n got rs = Ok (o, rs') /\ conn_ok rs' /\ forall d, o = Some d -> is_bytes d /\ zlen d = zlen got + n.
Proof.
  induction fuel as [|fuel IH]; intros n got rs Hrs Hg Hf Hn; cbn [read_loop]; (destruct (Z.leb_spec n 0) as [H0|H0]; [exists (Some got), rs; split; [done|]; split; [done|]; intros d [= <-]; split; [done|lia]|]); [lia|].
  destruct (read_ok n rs Hrs Hn) as (H1 & H2 & H3). destruct (read n rs) as [d rs']. cbn [fst snd] in *. destruct (Z.eqb_spec (zlen d) 0) as [|Hd]; [exists None, rs'; by split_and!|].
  destruct (IH (n - zlen d) (got ++ d) rs') as (o & rs2 & E & Hrs2 & Ho); [done|by apply Forall_app_2|lia|lia|]. exists o, rs2. split; [exact E|]. split; [done|].
  intros x Hx. destruct (Ho x Hx) as [? Hlen]. split; [done|]. rewrite length_app in Hlen. lia.
Qed.
Lemma read_bytes_ok n rs : conn_ok rs -> 0 <= n -> exists o rs', read_bytes n rs = Ok (o, rs') /\ conn_ok rs' /\ forall d, o = Some d -> is_bytes d /\ zlen d = n.
Proof. intros H Hn. destruct (read_loop_ok (Z.to_nat n) n [] rs H) as (o & rs' & E & H1 & H2); [apply List.Forall_nil|lia|done|]. exists o, rs'. done. Qed.
Definition text_ok (t : text) : Prop := match t with Text buf len => is_bytes buf /\ 0 <= len < zlen buf | _ => True end.
Lemma read_domain_ok rs : conn_ok rs -> exists t rs', read_domain rs = Ok (t, rs') /\ conn_ok rs' /\ forall buf len, t = Text buf len -> is_bytes buf /\ zlen buf = DNSNAMEBUFSIZE.
Proof.
  intros H. unfold read_domain. destruct (read_number_ok 2 rs H ltac:(lia)) as [H1 H2]. unfold read_short. destruct (read_number 2 rs) as [[count|] rs1]; cbn [fst snd] in *; [|by eexists _, _].
  specialize (H2 count eq_refl). destruct (Z.eqb_spec count 65535); [by eexists _, _|]. destruct (Z.leb_spec DNSNAMEBUFSIZE count); [by eexists _, _|]. unfold DNSNAMEBUFSIZE in *.
  destruct (read_bytes_ok count rs1 H1 ltac:(lia)) as (o & rs2 & -> & H3 & H4). cbn [mbind res_bind]. destruct o as [d|]; [|by eexists _, _]. destruct (H4 d eq_refl) as [Hd Hlen].
  set (b := replicate _ 0). assert (Hb : is_bytes b) by (apply Forall_replicate; lia). assert (Hbl : zlen b = 256) by done.
  rewrite wrn_ok by lia. cbn [mbind res_bind]. rewrite wr_ok by (rewrite length_put; lia). cbn [mbind res_bind]. eexists _, _. split; [done|]. split; [done|]. intros buf len [= <- _]. split.
  - apply Forall_insert; [|lia]. unfold put. apply Forall_app_2; [by apply Forall_take|]. apply Forall_app_2; [done|by apply Forall_drop].
  - rewrite length_insert, length_put; lia.
Qed.

(** * Computations on a connection *)
Definition served T s s' : Prop := exists T', cache_ok T' s' /\ frame T s T' s'.
Lemma served_refl T s : cache_ok T s -> served T s s.
Proof. intros H. exists T. split; [done|apply frame_refl]. Qed.
Definition safe {A} (P : A -> Prop) (m : ctl A) : Prop := forall T s rs, conn_ok rs -> cache_ok T s ->
  crun (m rs) s (fun x s' => served T s s' /\ match x with inl (a, rs') => P a /\ conn_ok rs' | inr _ => True end).
Lemma safe_bind {A B} (P : A -> Prop) (Q : B -> Prop) (m : ctl A) (f : A -> ctl B) : safe P m -> (forall a, P a -> safe Q (f a)) -> safe Q (m ≫= f).
Proof.
  intros Hm Hf T s rs Hrs Hok. unfold mbind, ctl_bind. step. eapply crun_mono; [by apply Hm|]. intros [[a rs']|e] s1 [(T1 & H1 & F1) H2]; [|step; split; [by exists T1|done]].
  destruct H2 as [Ha Hrs']. eapply crun_mono; [by apply (Hf a Ha T1)|]. intros x s2 [(T2 & H3 & F2) H4]. split; [|done]. exists T2. split; [done|by eapply cframe_trans].
Qed.
Lemma safe_ret {A} (P : A -> Prop) a : P a -> safe P (mret a).
Proof. intros Ha T s rs Hrs Hok. unfold mret, ctl_ret. step. split; [by apply served_refl|done]. Qed.
Lemma safe_goto {A} (P : A -> Prop) e : safe P (goto e).
Proof. intros T s rs Hrs Hok. unfold goto. step. split; [by apply served_refl|done]. Qed.
Lemma safe_cache {A} (P : A -> Prop) (m : cm A) : (forall T s, cache_ok T s -> crun m s (fun a s' => P a /\ served T s s')) -> safe P (on_cache m).
Proof. intros H T s rs Hrs Hok. unfold on_cache. step. eapply crun_mono; [by apply (H T)|]. intros a s' [Ha Hs]. by step. Qed.
Lemma safe_lift {A} (P : A -> Prop) (r : res A) : succeeds r P -> safe P (on_cache (lift r)).
Proof. intros H. apply safe_cache. intros T s Hok. apply crun_lift. destruct r; [|done]. split; [done|by apply served_refl]. Qed.
Lemma asked_served T s n : cache_ok T s -> served T s (set_asked n s).
Proof. intros ([L []] & Hs & Hi). exists T. split; [|by split]. split; [|done]. exists L. split; [by destruct iv_store; split|by apply (tbl_ext T s)|done|done]. Qed.
Lemma malloc_served T s : cache_ok T s -> crun malloc s (fun _ s' => served T s s').
Proof. intros Hok. step. by apply asked_served. Qed.
Lemma safe_malloc : safe (fun _ => True) (on_cache malloc).
Proof. apply safe_cache. intros T s Hok. eapply crun_mono; [by apply malloc_served|done]. Qed.
Lemma safe_weaken {A} (P Q : A -> Prop) (m : ctl A) : (forall a, P a -> Q a) -> safe P m -> safe Q m.
Proof. intros H Hm T s rs Hrs Hok. eapply crun_mono; [by apply (Hm T)|]. intros [[a rs']|e] s' [Hs Hx]; (split; [done|]); [|done]. destruct Hx as [Ha ?]. split; [by apply H|done]. Qed.

Lemma safe_short e : safe (fun n => 0 <= n < 65536) (short_or e).
Proof.
  intros T s rs Hrs Hok. unfold short_or, read_short. destruct (read_number_ok 2 rs Hrs ltac:(lia)) as [H1 H2]. destruct (read_number 2 rs) as [[v|] rs']; cbn [fst snd] in *; step; (split; [by apply served_refl|]); [|done].
  split; [by apply H2|done].
Qed.
Lemma safe_long e : safe (fun n => 0 <= n < 2 ^ 32) (long_or e).
Proof.
  intros T s rs Hrs Hok. unfold long_or, read_long. destruct (read_number_ok 4 rs Hrs ltac:(lia)) as [H1 H2]. destruct (read_number 4 rs) as [[v|] rs']; cbn [fst snd] in *; step; (split; [by apply served_refl|]); [|done].
  split; [by apply H2|done].
Qed.
Lemma safe_domain e : safe (fun buf => is_bytes buf /\ zlen buf = DNSNAMEBUFSIZE) (domain_or e).
Proof.
  intros T s rs Hrs Hok. unfold domain_or. step. apply crun_lift. destruct (read_domain_ok rs Hrs) as (t & rs' & -> & H1 & H2). cbn [succeeds]. step.
  split; [by apply served_refl|]. destruct t as [buf len| |]; [|done..]. split; [by eapply H2|done].
Qed.
Lemma safe_bytes n e : 0 <= n -> safe (fun d => is_bytes d /\ zlen d = n) (bytes_or n e).
Proof.
  intros Hn T s rs Hrs Hok. unfold bytes_or. step. apply crun_lift. destruct (read_bytes_ok n rs Hrs Hn) as (o & rs' & -> & H1 & H2). cbn [succeeds]. step.
  split; [by apply served_refl|]. destruct o as [d|]; [|done]. split; [by apply H2|done].
Qed.
Create HintDb safe.
(** A name in its buffer. *)
Definition in_buffer (rhn : list Z) : Prop := exists N x, name_ok N /\ rhn = enc N ++ x.
Lemma put_front rhn d : put rhn 0 d = d ++ drop (length d) rhn.
Proof. unfold put. by rewrite take_0. Qed.
Lemma safe_parse str n e : is_bytes str -> 0 <= n <= zlen str -> safe in_buffer (parse_or str n e).
Proof.
  intros Hb Hn T s rs Hrs Hok. unfold parse_or. step. apply crun_lift. set (buf := replicate _ 0).
  destruct (parsestr2rhn_any str n buf Hb Hn ltac:(done)) as (ok & rhn & -> & Hp). cbn [succeeds]. step.
  split; [by apply served_refl|]. destruct ok; [|done]. split; [|done]. destruct (Hp eq_refl) as (N & [HN -> _]). exists N, (drop (length (enc N)) buf). split; [done|apply put_front].
Qed.
#[export] Hint Resolve safe_short safe_long safe_domain safe_malloc : safe.

(** * The commands *)
Definition any {A} (_ : A) : Prop := True.
Lemma safe_record : safe any ctl_record.
Proof.
  eapply safe_bind; [apply safe_short|]. intros cmd2 _. eapply safe_bind; [apply safe_domain|]. intros buf [Hb Hlen].
  eapply safe_bind; [apply (safe_parse buf); [done|lia]|]. intros name (N & x & HN & ->). destruct (cmd2 =? CTL_R_DELETE); [|destruct (cmd2 =? CTL_R_INVAL); [|by apply safe_ret]].
  - eapply safe_bind; [|intros; by apply safe_ret]. apply (safe_cache any). intros T s Hok. eapply crun_mono; [by apply (del_cache_run T s N x)|]. intros u s' [H1 H2]. split; [done|]. by eexists.
  - eapply safe_bind; [|intros; by apply safe_ret]. apply (safe_cache any). intros T s Hok. eapply crun_mono; [by apply (invalidate_record_run T s N x)|]. intros u s' H. split; [done|]. by exists T.
Qed.

(** ** Adding *)
Lemma cached_types tp : tp ∈ [T_A; T_AAAA; T_CNAME; T_PTR; T_NS; T_MX] -> cached_type tp.
Proof.
  rewrite !elem_of_cons. intros [->|[->|[->|[->|[->|[->|H]]]]]]; [..|by apply not_elem_of_nil in H];
    (eexists; split; [by vm_compute|]; split; [vm_compute; reflexivity|by vm_compute]).
Qed.
Definition rdata_ok (x : rdata) : Prop := match x with Addresses n sz b => 0 <= n /\ 0 < sz /\ zlen b = n * sz | Rdata sz d => 0 <= sz <= zlen d end.
Section Adding.
Context T0 s0 p N (HN : name_ok N).
Notation draft T s := (draft T0 s0 T p N s).
Lemma add_addresses_run n : forall T s tp ttl sz b i, draft T s -> cached_type tp -> 0 <= i -> 0 < sz -> i + Z.of_nat n * sz <= zlen b ->
  crun (add_addresses n p tp ttl sz b i) s (fun _ s' => draft T s').
Proof.
  induction n as [|n IH]; intros T s tp ttl sz b i Hd Hty Hi Hsz Hb; cbn [add_addresses]; [by step|]. step. apply crun_lift. rewrite rdn_ok by nia. cbn [succeeds].
  step. eapply crun_mono; [by apply draft_rr|]. intros ok s1 Hd1. destruct ok; cbn [negb]; [|by step]. apply IH; [done|done|lia|lia|nia].
Qed.
Lemma add_rdata_run T s tp ttl x : draft T s -> cached_type tp -> rdata_ok x -> crun (add_rdata p tp ttl x) s (fun _ s' => draft T s').
Proof.
  intros Hd Hty Hx. destruct x as [n sz b|sz d]; cbn [add_rdata rdata_ok] in *.
  - apply add_addresses_run; [done|done|lia|lia|]. rewrite Z2Nat.id; lia.
  - step. apply crun_lift. rewrite rdn_ok by lia. cbn [succeeds]. by apply draft_rr.
Qed.
(** The end of the block. *)
Lemma release_run {A} (a : A) T s : draft T s -> crun (_ ← free_cent p; _ ← free p; mret a) s (fun _ s' => served T0 s0 s').
Proof.
  intros Hd. apply crun_assoc, crun_bind. eapply crun_mono; [by apply (draft_release T0 s0 p N T s)|]. intros ? s' H. step. by exists T.
Qed.
End Adding.
Lemma wild_name_enc N : name_ok N -> exists b, wild_name (enc N) = Ok b /\ (b = true -> exists K, N = [42] :: K).
Proof.
  intros [HN _]. unfold wild_name. destruct N as [|l N]; [by exists false|]. apply Forall_cons in HN as [[Hl _] _]. rewrite enc_cons. assert (E0 : rd (zlen l :: l ++ enc N) 0 = Ok (zlen l)) by apply (rd_mid []). rewrite E0. cbn [mbind res_bind].
  destruct (Z.eqb_spec (zlen l) 1) as [Hl1|]; [|by exists false]. destruct l as [|a [|? ?]]; cbn [length] in Hl1; [lia| |lia].
  assert (E1 : rd (zlen [a] :: [a] ++ enc N) 1 = Ok a) by apply (rd_mid [zlen [a]] a). rewrite E1. cbn [mbind res_bind]. destruct (Z.eqb_spec a 42) as [->|]; [exists true|by exists false]. split; [done|]. eauto.
Qed.
Lemma add_local_run T s N x tp ttl f r : cache_ok T s -> name_ok N -> cached_type tp -> rdata_ok r -> crun (add_local (enc N ++ x) tp ttl f r) s (fun _ s' => served T s s').
Proof.
  intros Hok HN Hty Hr. unfold add_local. step. eapply crun_Ok; [apply declare_run|]. step. eapply crun_mono; [by apply (init_cent_run T s N x)|]. intros ok s1 H1. destruct ok; cbn [negb].
  2: { destruct H1 as [n ->]. step. eapply crun_mono; [by apply (undeclare_run T s n)|]. intros ? s' H. step. by exists T. }
  destruct H1 as [H1 _]. step. eapply crun_mono; [by apply (add_rdata_run T s (brk s) N T s1)|]. intros ok s2 H2. destruct ok; cbn [negb]; [|by apply (release_run T s (brk s) N Out_of_memory T s2)].
  destruct (dr_cent _ _ _ _ _ _ H2) as (c & Hc & Hq). step. eapply crun_get_cent; [exact Hc|]. step. apply crun_lift. rewrite Hq. destruct (wild_name_enc N HN) as (b & -> & Hw). cbn [succeeds].
  step. apply (crun_mono _ _ (fun _ s3 => draft T s T (brk s) N s3)).
  { destruct b; [|by step]. destruct (Hw eq_refl) as [K ->]. pose proof (name_ok_drop 1 _ HN) as HK. cbn [drop] in HK. change (drop 2 (enc ([42] :: K))) with (enc K).
    eapply crun_mono; [apply (set_cent_flags_run T s2 K DF_WILD); [apply H2|done|done]|]. intros ? s3 (_ & H3 & F3). by apply (draft_use T s (brk s) ([42] :: K) T s2). }
  intros ok s3 H3. step. apply (crun_mono _ _ (fun _ s4 => exists T4, draft T s T4 (brk s) N s4)).
  { destruct ok; [|step; by exists T]. step. eapply crun_mono; [by apply (draft_add T s (brk s) N HN T s3)|]. intros ? s4 (T4 & H4 & _). step. by exists T4. }
  intros a s4 (T4 & H4). by apply (release_run T s (brk s) N a T4 s4).
Qed.
Lemma safe_addresses sz : 0 < sz -> safe rdata_ok (read_address_list sz).
Proof.
  intros Hsz. eapply safe_bind; [apply safe_short|]. intros n [Hn _]. destruct (n =? 0); [apply safe_goto|]. eapply safe_bind; [apply safe_malloc|]. intros ok _. destruct ok; [|apply safe_goto].
  eapply safe_bind; [apply safe_bytes, Z.mul_nonneg_nonneg; lia|]. intros b [_ Hb]. apply safe_ret. cbn [rdata_ok]. split; [lia|done].
Qed.
Lemma safe_rhnlen N x : name_ok N -> safe (fun n => n = zlen (enc N)) (on_cache (lift (rhnlen (enc N ++ x)))).
Proof. intros [HN _]. apply safe_lift. by rewrite (rhnlen_spec N x HN). Qed.
Lemma safe_name_data : safe rdata_ok read_name_data.
Proof.
  eapply safe_bind; [apply safe_domain|]. intros buf [Hb Hlen]. eapply safe_bind; [apply (safe_parse buf); [done|lia]|]. intros name (N & x & HN & ->).
  eapply safe_bind; [by apply safe_rhnlen|]. intros sz ->. apply safe_ret. cbn. rewrite length_app. lia.
Qed.
Lemma safe_mx_data : safe rdata_ok read_mx_data.
Proof.
  apply (safe_bind (fun d => zlen d = 2)).
  { intros T s rs Hrs Hok. destruct (read_ok 2 rs Hrs ltac:(lia)) as (H1 & H2 & H3). destruct (read 2 rs) as [d rs']. cbn [fst snd] in *. step. split; [by apply served_refl|]. by destruct (Z.eqb_spec (zlen d) 2). }
  intros pref Hpref. eapply safe_bind; [apply safe_domain|]. intros buf [Hb Hlen]. eapply safe_bind; [apply (safe_parse buf); [done|lia]|]. intros name (N & x & HN & ->).
  eapply safe_bind; [by apply safe_rhnlen|]. intros sz ->. apply safe_ret. cbn. rewrite !length_app. lia.
Qed.
Lemma safe_add : safe any ctl_add.
Proof.
  eapply safe_bind; [apply safe_short|]. intros tp _. eapply safe_bind; [apply safe_domain|]. intros buf [Hb Hlen]. eapply safe_bind; [apply safe_long|]. intros ttl _.
  eapply safe_bind; [apply safe_short|]. intros f _. eapply safe_bind; [apply (safe_parse buf); [done|lia]|]. intros name (N & x & HN & ->).
  destruct (ttl <? 0); [apply safe_goto|]. destruct (has f DF_NEGATIVE); [apply safe_goto|].
  apply (safe_bind (fun r => rdata_ok r /\ cached_type tp)).
  { destruct (Z.eqb_spec tp T_A) as [->|]; [eapply safe_weaken; [|by apply safe_addresses]; intros r Hr; split; [done|apply cached_types; set_solver]|].
    destruct (Z.eqb_spec tp T_AAAA) as [->|]; [eapply safe_weaken; [|by apply safe_addresses]; intros r Hr; split; [done|apply cached_types; set_solver]|].
    destruct ((tp =? T_CNAME) || (tp =? T_PTR) || (tp =? T_NS)) eqn:E.
    { eapply safe_weaken; [|apply safe_name_data]. intros r Hr. split; [done|]. apply cached_types.
      apply orb_true_iff in E as [[E|E]%orb_true_iff|E]; apply Z.eqb_eq in E as ->; set_solver. }
    destruct (Z.eqb_spec tp T_MX) as [->|]; [eapply safe_weaken; [|apply safe_mx_data]; intros r Hr; split; [done|apply cached_types; set_solver]|apply safe_goto]. }
  intros r [Hr Hty]. apply safe_cache. intros T s Hok. eapply crun_mono; [by apply (add_local_run T s N x tp ttl f r)|]. done.
Qed.

(** ** Hosts files *)
Definition lib_ok (lib : libc) : Prop :=
  (forall (t : list Z) a, inet_aton lib t = Some a -> is_bytes a /\ zlen a = 4) /\ (forall (t : list Z) a, inet_pton lib t = Some a -> is_bytes a /\ zlen a = 16) /\
  (forall fn lines eof, fopen lib fn = Some (lines, eof) -> Forall is_bytes lines).
Definition owned (rns : list Z) : Prop := exists N x, name_ok N /\ rns = enc N ++ x.
Lemma add_name_rr_run T0 s0 p N T s tp ttl M x : draft T0 s0 T p N s -> cached_type tp -> name_ok M -> crun (add_name_rr p tp ttl (enc M ++ x)) s (fun _ s' => draft T0 s0 T p N s').
Proof.
  intros Hd Hty HM. unfold add_name_rr. step. apply crun_lift. rewrite (rhnlen_spec M x) by apply HM. cbn [succeeds]. step. apply crun_lift. rewrite rdn_enc_app. cbn [succeeds].
  by apply draft_rr.
Qed.
Lemma host_entry_run T s N x ttl f first rns : cache_ok T s -> name_ok N -> owned rns ->
  (forall T0 s0 p N T s, draft T0 s0 T p N s -> crun (first p) s (fun _ s' => draft T0 s0 T p N s')) ->
  crun (host_entry (enc N ++ x) ttl f first rns) s (fun _ s' => served T s s').
Proof.
  intros Hok HN (M & y & HM & ->) Hfirst. unfold host_entry. step. eapply crun_Ok; [apply declare_run|]. step. eapply crun_mono; [by apply (init_cent_run T s N x)|]. intros ok s1 H1. destruct ok; cbn [negb].
  2: { destruct H1 as [n ->]. step. eapply crun_mono; [by apply (undeclare_run T s n)|]. intros ? s' H. step. by exists T. }
  destruct H1 as [H1 _]. step. eapply crun_mono; [by apply (Hfirst T s (brk s) N T s1)|]. intros ok s2 H2. destruct ok; cbn [negb]; [|by apply (release_run T s (brk s) N false T s2)].
  step. eapply crun_mono; [apply (add_name_rr_run T s (brk s) N T s2 T_NS ttl M y H2); [apply cached_types; set_solver|done]|]. intros ok s3 H3. destruct ok; cbn [negb]; [|by apply (release_run T s (brk s) N false T s3)].
  step. eapply crun_mono; [by apply (draft_add T s (brk s) N HN T s3)|]. intros ? s4 (T4 & H4 & _). by apply (release_run T s (brk s) N true T4 s4).
Qed.
Definition address_ok (tp sz : Z) (a : list Z) : Prop := (tp = T_A /\ sz = 4 \/ tp = T_AAAA /\ sz = 16) /\ is_bytes a /\ zlen a = sz.
Lemma add_host_run T s N x rns a tp sz ttl f rev : cache_ok T s -> name_ok N -> owned rns -> address_ok tp sz a -> crun (add_host (enc N ++ x) rns a tp sz ttl f rev) s (fun _ s' => served T s s').
Proof.
  intros Hok HN Hrns (Htp & Hb & Hl). unfold add_host. step. eapply crun_mono; [apply (host_entry_run T s N x); try done|].
  { intros T0 s0 p M T1 s1 Hd. step. apply crun_lift. rewrite rdn_ok by lia. cbn [succeeds]. apply draft_rr; [done|]. apply cached_types. destruct Htp as [[-> _]|[-> _]]; set_solver. }
  intros ok s1 (T1 & H1 & F1). assert (Hs1 : served T s s1) by (by exists T1). destruct ok; cbn [negb]; [|by step]. destruct rev; cbn [negb]; [|by step].
  destruct (reverse_name tp sz a Htp Hb Hl) as (b2 & y & E1 & E2 & HR). step. apply crun_lift. rewrite E1. cbn [succeeds negb]. step. apply crun_lift. rewrite E2. cbn [succeeds Z.eqb].
  step. eapply crun_mono; [apply (host_entry_run T1 s1 (address_name tp a) y); try done|].
  { intros T0 s0 p M T2 s2 Hd. by apply add_name_rr_run; [|apply cached_types; set_solver|]. }
  intros ok s2 (T2 & H2 & F2). step. exists T2. split; [done|by eapply cframe_trans].
Qed.
Lemma parse_run str n T s : is_bytes str -> 0 <= n <= zlen str -> crun (lift (parsestr2rhn str n namebuf)) s (fun x s' => s' = s /\ (x.1 = true -> owned x.2)).
Proof.
  intros Hb Hn. apply crun_lift. destruct (parsestr2rhn_any str n namebuf Hb Hn ltac:(done)) as (ok & rhn & -> & Hp). cbn [succeeds fst snd]. split; [done|]. intros ->.
  destruct (Hp eq_refl) as (N & [HN -> _]). exists N, (drop (length (enc N)) namebuf). split; [done|apply put_front].
Qed.
Lemma host_aliases_run fuel : forall T s buf rns a tp sz ttl f (p : Z), cache_ok T s -> line_buf buf -> owned rns -> address_ok tp sz a -> 0 <= p < zlen buf -> zlen buf - p < Z.of_nat fuel ->
  crun (host_aliases fuel buf rns a tp sz ttl f p) s (fun _ s' => served T s s').
Proof.
  induction fuel as [|fuel IH]; intros T s buf rns a tp sz ttl f p Hok Hbuf Hrns Ha Hp Hf; [lia|]. cbn [host_aliases]. destruct (blanks_ok buf p Hbuf Hp) as (pn & E & Hpn & Hpn').
  step. apply crun_lift. rewrite E. cbn [succeeds]. destruct (Z.eqb_spec (byte_at buf pn) 0); [step; by apply served_refl|]. specialize (Hpn' ltac:(done)).
  destruct (word_ok buf (pn + 1) Hbuf) as (q & E2 & Hq & _); [lia|]. step. apply crun_lift. rewrite E2. cbn [succeeds]. step.
  eapply crun_mono; [apply (parse_run (drop (Z.to_nat pn) buf) (q - pn) T); [apply Forall_drop, Hbuf|rewrite length_drop; lia]|]. intros [ok rhn] ? [-> Hrhn]. cbn [fst snd] in Hrhn.
  destruct ok; cbn [negb]; [|step; by apply served_refl]. destruct (Hrhn eq_refl) as (N & x & HN & ->). step. eapply crun_mono; [by apply (add_host_run T s N x)|].
  intros r s1 (T1 & H1 & F1). apply crun_if; intros _; [step; by exists T1|]. eapply crun_mono; [apply (IH T1 s1 buf rns a tp sz ttl f q); try done; lia|].
  intros ok s2 (T2 & H2 & F2). exists T2. split; [done|by eapply cframe_trans].
Qed.
Section Lib.
Context (lib : libc) (Hlib : lib_ok lib).
Lemma host_address_ok t tp sz a : host_address lib t = Some (tp, sz, a) -> address_ok tp sz a.
Proof.
  destruct Hlib as (H4 & H6 & _). unfold host_address. destruct (inet_aton lib t) as [a4|] eqn:E4.
  - intros [= <- <- <-]. destruct (H4 _ _ E4). split; [by left|done].
  - destruct (inet_pton lib t) as [a6|] eqn:E6; [|done]. intros [= <- <- <-]. destruct (H6 _ _ E6). split; [by right|done].
Qed.
Lemma host_line_run T s rns ttl f aliases line : cache_ok T s -> owned rns -> is_bytes line -> crun (host_line lib rns ttl f aliases line) s (fun _ s' => served T s s').
Proof.
  intros Hok Hrns Hline. assert (Hb : line_buf (line ++ [0])).
  { split; [apply Forall_app_2; [done|by repeat constructor]|]. rewrite length_app. cbn [length]. split; [lia|]. unfold byte_at. replace (Z.to_nat (Z.of_nat (length line + 1) - 1)) with (length line) by lia. by rewrite app_nth2, Nat.sub_diag by lia. }
  unfold host_line. destruct (split_line_ok _ Hb) as (o & E & Ho). step. apply crun_lift. rewrite E. cbn [succeeds]. destruct o as [[[[buf pi] pn] p]|]; [|step; by apply served_refl].
  destruct (Ho _ _ _ _ eq_refl) as (Hbuf & Hpi & Hpn & Hp). step. eapply crun_mono; [apply (parse_run (drop (Z.to_nat pn) buf) (p - pn) T); [apply Forall_drop, Hbuf|rewrite length_drop; lia]|].
  intros [ok rhn] ? [-> Hrhn]. cbn [fst snd] in Hrhn. destruct ok; cbn [negb]; [|step; by apply served_refl]. destruct (Hrhn eq_refl) as (N & x & HN & ->).
  destruct (host_address lib _) as [[[tp sz] a]|] eqn:Ea; [|step; by apply served_refl]. apply host_address_ok in Ea. step. eapply crun_mono; [by apply (add_host_run T s N x)|].
  intros r s1 (T1 & H1 & F1). apply crun_if; intros _; [step; by exists T1|]. apply crun_if; intros _; [step; by exists T1|]. destruct aliases; [|step; by exists T1].
  eapply crun_mono; [apply (host_aliases_run _ T1 s1 buf rns a tp sz ttl f p); try done; lia|]. intros ok s2 (T2 & H2 & F2). exists T2. split; [done|by eapply cframe_trans].
Qed.
Lemma host_lines_run lines : forall T s rns ttl f aliases, cache_ok T s -> owned rns -> Forall is_bytes lines -> crun (host_lines lib rns ttl f aliases lines) s (fun _ s' => served T s s').
Proof.
  induction lines as [|line lines IH]; intros T s rns ttl f aliases Hok Hrns Hl; cbn [host_lines]; [step; by apply served_refl|]. apply Forall_cons in Hl as [Hl Hls].
  step. eapply crun_mono; [by apply (host_line_run T s)|]. intros ok s1 (T1 & H1 & F1). destruct ok; [|step; by exists T1].
  eapply crun_mono; [by apply (IH T1 s1)|]. intros ok s2 (T2 & H2 & F2). exists T2. split; [done|by eapply cframe_trans].
Qed.
Lemma complain_run T s : cache_ok T s -> crun complain s (fun _ s' => served T s s').
Proof. intros Hok. unfold complain. step. eapply crun_mono; [by apply malloc_served|]. intros ok s' H. by step. Qed.
Lemma read_hosts_run T s fn rns ttl f aliases : cache_ok T s -> owned rns -> crun (read_hosts lib fn rns ttl f aliases) s (fun _ s' => served T s s').
Proof.
  intros Hok Hrns. unfold read_hosts. destruct (fopen lib fn) as [[lines eof]|] eqn:E; [|by apply complain_run]. step. eapply crun_mono; [by apply malloc_served|]. intros ok s1 (T1 & H1 & F1).
  destruct ok; cbn [negb]; [|step; by exists T1]. step. eapply crun_mono; [apply (host_lines_run lines T1 s1); [done|done|by eapply Hlib]|]. intros ok s2 (T2 & H2 & F2).
  assert (F : frame T s T2 s2) by (by eapply cframe_trans). destruct ok; cbn [negb]; [|step; by exists T2]. destruct eof; [step; by exists T2|].
  eapply crun_mono; [by apply (complain_run T2)|]. intros r s3 (T3 & H3 & F3). exists T3. split; [done|by eapply cframe_trans].
Qed.
End Lib.

(** ** Negative entries *)
Lemma not_cached_spec tp : 0 <= tp -> exists b, PDNSD_NOT_CACHED_TYPE tp = Ok b /\ (b = false -> cached_type tp).
Proof.
  intros H. unfold PDNSD_NOT_CACHED_TYPE, cached_type, T_MIN, T_MAX, T_NUM. destruct (Z.ltb_spec tp 1); [by exists true|]. destruct (Z.ltb_spec 51 tp); [by exists true|]. cbn [orb].
  assert (Hl : zlen rrlkuptab = 51) by done. rewrite rd_ok by lia. cbn [mbind res_bind]. eexists. split; [done|]. intros Hb. eexists. split; [lia|]. split; [done|]. split; [|lia].
  assert (Hall : Forall (fun i => 0 <= i) rrlkuptab) by (repeat (constructor; [lia|]); constructor). unfold byte_at.
  rewrite List.Forall_nth in Hall. apply Hall. lia.
Qed.
Lemma add_negative_run T s N x tp ttl : cache_ok T s -> name_ok N -> (tp <> 255 -> cached_type tp) -> crun (add_negative (enc N ++ x) tp ttl) s (fun _ s' => served T s s').
Proof.
  intros Hok HN Hty. unfold add_negative. step. eapply crun_Ok; [apply declare_run|]. step.
  apply (crun_mono _ _ (fun (ok : bool) s' => if ok then draft T s T (brk s) N s' /\ (forall i, empty_slot s' (brk s) i) else exists n, s' = set_asked n (declared s))).
  { destruct (tp =? 255); by apply (init_cent_run T s N x). }
  intros ok s1 H1. destruct ok; cbn [negb].
  2: { destruct H1 as [n ->]. step. eapply crun_mono; [by apply (undeclare_run T s n)|]. intros ? s' H. step. by exists T. }
  destruct H1 as [H1 He]. step. apply (crun_mono _ _ (fun _ s2 => draft T s T (brk s) N s2)).
  { destruct (Z.eqb_spec tp 255); [by step|]. apply (draft_set T s (brk s) N T s1); auto. }
  intros ok s2 H2. destruct ok; cbn [negb]; [|by apply (release_run T s (brk s) N Out_of_memory T s2)].
  step. eapply crun_mono; [by apply (draft_add T s (brk s) N HN T s2)|]. intros ? s3 (T3 & H3 & _). by apply (release_run T s (brk s) N Succ T3 s3).
Qed.
Lemma safe_neg : safe any ctl_neg.
Proof.
  eapply safe_bind; [apply safe_domain|]. intros buf [Hb Hlen]. eapply safe_bind; [apply safe_short|]. intros tp [Htp _]. eapply safe_bind; [apply safe_long|]. intros ttl _.
  eapply safe_bind; [apply (safe_parse buf); [done|lia]|]. intros name (N & x & HN & ->).
  apply (safe_bind (fun bad => bad = false -> tp <> 255 -> cached_type tp)).
  { destruct (Z.eqb_spec tp 255) as [->|]; cbn [negb].
    - apply (safe_cache). intros T s Hok. step. split; [intros _ Hne; by destruct Hne|by apply served_refl].
    - apply safe_lift. destruct (not_cached_spec tp Htp) as (b & -> & H). cbn. auto. }
  intros bad Hbad. destruct bad; [apply safe_goto|]. destruct (ttl <? 0); [apply safe_goto|].
  apply safe_cache. intros T s Hok. eapply crun_mono; [by apply (add_negative_run T s N x tp ttl); auto|]. done.
Qed.

(** ** Emptying *)
Lemma end_of_name_ok fuel : forall names len (q : Z), 0 <= q <= len -> len < zlen names -> len - q < Z.of_nat fuel -> exists q' : Z, end_of_name fuel names len q = Ok q' /\ q <= q' <= len.
Proof.
  induction fuel as [|fuel IH]; intros names len q Hq Hl Hf; [lia|]. cbn [end_of_name]. destruct (Z.leb_spec len q); [exists q; split; [done|lia]|].
  rewrite rd_ok by lia. cbn [mbind res_bind]. destruct (byte_at names q =? 0); [exists q; split; [done|lia]|]. destruct (IH names len (q + 1)) as (q' & -> & ?); [lia..|]. exists q'. split; [done|lia].
Qed.
Lemma skip_sign_ok names len (p : Z) : 0 <= p < len -> len < zlen names -> exists b (p' : Z), skip_sign names p = Ok (b, p') /\ p <= p' <= len.
Proof. intros Hp Hl. unfold skip_sign. rewrite rd_ok by lia. cbn [mbind res_bind]. destruct (byte_at names p =? 45); [|destruct (byte_at names p =? 43)]; (eexists _, _; split; [done|lia]). Qed.
Lemma skip_dot_ok names len (p : Z) : 0 <= p <= len -> len < zlen names -> exists p' : Z, skip_dot names len p = Ok p' /\ p <= p' <= len.
Proof.
  intros Hp Hl. unfold skip_dot. destruct (Z.ltb_spec (p + 1) len); cbn [negb]; [|exists p; split; [done|lia]]. rewrite (rd_ok names p) by lia. cbn [mbind res_bind].
  destruct (byte_at names p =? 46); cbn [negb]; [|exists p; split; [reflexivity|lia]]. rewrite rd_ok by lia. cbn [mbind res_bind]. destruct (byte_at names (p + 1) =? 0); (eexists; split; [reflexivity|cbn; lia]).
Qed.
Definition listed_names (sla : list slist_t) : Prop := exists Ds, names_of sla Ds.
Lemma safe_name_list fuel : forall names len (p : Z) sla, is_bytes names -> 0 <= p -> len < zlen names -> len - p <= Z.of_nat fuel -> listed_names sla -> safe listed_names (name_list fuel names len p sla).
Proof.
  induction fuel as [|fuel IH]; intros names len p sla Hb Hp Hl Hf Hsla; cbn [name_list]; (destruct (Z.leb_spec len p); [by apply safe_ret|]); [lia|].
  apply (safe_bind (fun x : bool * Z => p <= x.2 <= len)); [apply safe_lift; destruct (skip_sign_ok names len p) as (b & p' & -> & ?); [lia..|done]|]. intros [rule p1] Hp1. cbn [snd] in Hp1.
  apply (safe_bind (fun p2 : Z => p1 <= p2 <= len)); [apply safe_lift; destruct (skip_dot_ok names len p1) as (p' & -> & ?); [lia..|done]|]. intros p2 Hp2.
  apply (safe_bind (fun q : Z => p2 <= q <= len)); [apply safe_lift; destruct (end_of_name_ok (S (length names)) names len p2) as (q' & -> & ?); [lia..|done]|]. intros q Hq.
  eapply safe_bind; [apply (safe_parse (drop (Z.to_nat p2) names)); [by apply Forall_drop|rewrite length_drop; lia]|]. intros rhn (N & x & HN & ->).
  eapply safe_bind; [by apply safe_rhnlen|]. intros sz ->.
  apply (safe_bind any); [destruct (Z.land (zlen sla) 7 =? 0); [eapply safe_weaken; [|apply safe_malloc]; done|apply safe_cache; intros T s Hok; step; split; [done|by apply served_refl]]|].
  intros ok _. destruct ok; [|apply safe_goto]. eapply safe_bind; [apply safe_malloc|]. intros ok _. destruct ok; [|apply safe_goto].
  apply (safe_bind (fun d => d = enc N)); [apply safe_lift; by rewrite rdn_enc_app|]. intros d ->. apply IH; [done|lia|done|lia|].
  destruct Hsla as [Ds HD]. exists (Ds ++ [N]). apply Forall2_app; [done|]. apply Forall2_cons_2; [done|apply Forall2_nil_2].
Qed.
Lemma named_pairs sla Ds : names_of sla Ds -> exists l, l.*1 = sla /\ named_list (Some l).
Proof.
  induction 1 as [|sl D sla Ds [H1 H2] _ (l & <- & Hl)]; [exists []; split; [done|by apply Forall_nil_2]|]. exists ((sl, D) :: l). split; [done|]. by apply Forall_cons_2.
Qed.
Section Serving.
(** What other threads do while [empty_cache] yields its lock keeps the cache consistent. *)
Context (got : bool) (others : Z -> cm unit) (lib : libc) (elsewhere : Z -> conn -> cm answer).
Context (others_ok : forall i T s, cache_ok T s -> crun (others i) s (fun _ s' => served T s s')) (Hlib : lib_ok lib).
Lemma empty_served l T s : named_list l -> cache_ok T s -> crun (empty_cache got others ((fun l => l.*1) <$> l)) s (fun _ s' => served T s s').
Proof.
  intros Hl Hok. eapply crun_mono; [apply (empty_cache_run others any any); [|done|done]|].
  - intros i T1 s1 Hok1. eapply crun_mono; [by apply (others_ok i T1)|]. intros ? s2 (T2 & H2 & F2). exists T2. split; [done|done|by left|]. intros k q _ []. done.
  - intros b s' (_ & T' & H' & F' & _). by exists T'.
Qed.
Lemma safe_allocstring : safe text_ok (fun rs => '(t, rs) ← read_allocstring rs; mret (inl (t, rs))).
Proof.
  intros T s rs Hrs Hok. unfold read_allocstring. destruct (read_number_ok 2 rs Hrs ltac:(lia)) as [H1 H2]. unfold read_short. destruct (read_number 2 rs) as [[count|] rs1]; cbn [fst snd] in *.
  2: { step. step. step. split; [by apply served_refl|done]. }
  specialize (H2 count eq_refl). step. apply crun_if; intros E; [step; step; split; [by apply served_refl|done]|]. step. step. destruct ok; cbn [negb]; [|step; step; split; [by apply asked_served|done]].
  step. apply crun_lift. destruct (read_bytes_ok count rs1 H1 ltac:(lia)) as (o & rs2 & -> & H3 & H4). cbn [succeeds]. step. step. split; [by apply asked_served|]. split; [|done].
  destruct o as [d|]; [|done]. destruct (H4 d eq_refl) as [Hd Hlen]. cbn [text_ok]. split; [apply Forall_app_2; [done|by repeat constructor]|]. rewrite length_app. cbn [length]. lia.
Qed.
Lemma safe_empty : safe any (ctl_empty got others).
Proof.
  eapply safe_bind; [apply safe_allocstring|]. intros t Ht.
  apply (safe_bind listed_names).
  { destruct t as [names len| |]; [|apply safe_ret; exists []; apply Forall2_nil_2|apply safe_goto]. destruct Ht as [Hb Hl]. apply safe_name_list; [done|lia|lia|lia|]. exists []; apply Forall2_nil_2. }
  intros sla [Ds HD]. apply (safe_bind any); [|intros ok _; by apply safe_ret]. apply safe_cache. intros T s Hok. destruct (named_pairs sla Ds HD) as (l & Hl & Hn).
  destruct sla as [|sl sla].
  - eapply crun_mono; [by apply (empty_served None T s)|]. done.
  - pose proof (empty_served (Some l) T s Hn Hok) as H. cbn [fmap option_fmap option_map] in H. rewrite Hl in H. eapply crun_mono; [exact H|]. done.
Qed.

Lemma safe_source : safe any (ctl_source lib).
Proof.
  eapply safe_bind; [apply safe_allocstring|]. intros t _. apply (safe_bind any); [destruct t; [by apply safe_ret|apply safe_goto..]|]. intros fn _.
  eapply safe_bind; [apply safe_domain|]. intros buf [Hb Hlen]. eapply safe_bind; [apply safe_long|]. intros ttl _. eapply safe_bind; [apply safe_short|]. intros aliases _.
  eapply safe_bind; [apply safe_short|]. intros f _. eapply safe_bind; [apply (safe_parse buf); [done|lia]|]. intros owner Ho.
  destruct (ttl <? 0); [apply safe_goto|]. destruct (has f DF_NEGATIVE); [apply safe_goto|]. eapply safe_bind; [|intros r _; by apply safe_ret].
  apply (safe_cache any). intros T s Hok. eapply crun_mono; [by apply (read_hosts_run lib Hlib T s)|]. done.
Qed.

(** * Connections

    A request that is carried out here, that is, whose command is not one of those of
    [elsewhere]. *)
Definition carried_out rs : Prop := forall cmd rs', read_short rs = (Some cmd, rs') -> Z.land cmd 255 ∉ other_commands.
Lemma safe_command cmd : cmd ∉ other_commands -> safe any (command got others lib elsewhere cmd).
Proof.
  intros Hcmd. unfold command. destruct (cmd =? CTL_RECORD); [apply safe_record|]. destruct (cmd =? CTL_SOURCE); [apply safe_source|]. destruct (cmd =? CTL_ADD); [apply safe_add|].
  destruct (cmd =? CTL_NEG); [apply safe_neg|]. destruct (cmd =? CTL_EMPTY); [apply safe_empty|]. rewrite bool_decide_eq_false_2 by done. apply safe_goto.
Qed.
Lemma status_query_run rs T s : conn_ok rs -> carried_out rs -> cache_ok T s -> crun (status_query got others lib elsewhere rs) s (fun _ s' => served T s s').
Proof.
  intros Hrs Hcmd Hok. unfold status_query. destruct (read_number_ok 2 rs Hrs ltac:(lia)) as [H1 _]. unfold carried_out, read_short in *.
  destruct (read_number 2 rs) as [[cmd|] rs1]; cbn [fst snd] in *; [|step; by apply served_refl].
  apply crun_if; intros E; [step; by apply served_refl|]. step. eapply crun_mono; [by apply (safe_command _ (Hcmd _ _ eq_refl) T)|]. intros x s' [H _]. by step.
Qed.
Lemma status_thread_run qs : forall T s, Forall conn_ok qs -> Forall carried_out qs -> cache_ok T s -> crun (status_thread got others lib elsewhere qs) s (fun l s' => length l = length qs /\ served T s s').
Proof.
  induction qs as [|rs qs IH]; intros T s Hqs Hcs Hok; cbn [status_thread]; [step; split; [done|by apply served_refl]|]. apply Forall_cons in Hqs as [Hrs Hqs]. apply Forall_cons in Hcs as [Hc Hcs].
  step. eapply crun_mono; [by apply status_query_run|]. intros a s1 (T1 & H1 & F1). step. eapply crun_mono; [by apply (IH T1)|]. intros l s2 (Hl & T2 & H2 & F2). step. split; [cbn; by rewrite Hl|].
  exists T2. split; [done|by eapply cframe_trans].
Qed.
End Serving.
