(* ===== verification/DnsSpec.v ===== *)
(** What pdnsd's cache promises, and the runs that show that the promises are about
    something. *)
From S2P Require Import Prelude CLib Rhn DnsName DnsNameProps DnsCompress DnsMessage HevList DnsStore DnsCents DnsHash DnsCache DnsControl DnsParse DnsRrl DnsSort DnsHeap DnsEntry DnsFree DnsCopy DnsTable DnsPurge DnsCent DnsMerge DnsAdd DnsLookup DnsEmpty DnsHosts DnsServe.

Implicit Types (T : gmap (list label) positive) (K N : list label) (s : cache) (L : list positive) (p q : positive) (rs : conn).

Definition state_after {A} (m : cm A) s : cache := match m s with Ok (_, s') => s' | Fault _ => s end.
Lemma state_after_run {A} (m : cm A) s Q : crun m s Q -> exists a, Q a (state_after m s).
Proof. unfold crun, state_after. destruct (m s) as [[a s']|]; [eauto|done]. Qed.

(** * Runs *)

(** The empty cache. *)
Lemma fresh_cache_ok e : cache_ok ∅ (mk_dns_hash e).
Proof.
  assert (Hs : store_ok [] (mk_dns_hash e)).
  { split; try done.
    - split; [constructor|done|done|done].
    - intros a [x Hx]. cbn in Hx; by rewrite lookup_empty in Hx.
    - intros p [[x Hx]|[[x Hx]|[x Hx]]]; cbn in Hx; by rewrite lookup_empty in Hx. }
  assert (Hch : forall i, chain (mk_dns_hash e) i = []) by (intros i; unfold chain; cbn; by rewrite lookup_empty).
  split; [|split; [|done]].
  - exists []. split; [done| |done|intros a x Hx; cbn in Hx; by rewrite lookup_empty in Hx].
    split; [intros i|done|intros i|intros i]; rewrite Hch; constructor.
  - unfold sized, sum_cs. cbn. by rewrite map_fold_empty.
Qed.
(** What a caller does with the answer of a server: one record. *)
Definition put_answer (N : list label) (tp ttl ts : Z) (d : list Z) : cm unit :=
  cent ← declare;
  ok ← init_cent cent (enc N) 0 0 0;
  if negb ok then free cent else
  _ ← add_cent_rr cent tp ttl ts 0 d;
  _ ← add_cache cent;
  _ ← free_cent cent;
  free cent.
Lemma put_answer_run T s N tp ttl ts d : cache_ok T s -> name_ok N -> cached_type tp -> crun (put_answer N tp ttl ts d) s (fun _ s' => served T s s').
Proof.
  intros Hok HN Hty. unfold put_answer. step. eapply crun_Ok; [apply declare_run|]. pose proof (init_cent_run T s N [] 0 0 0 Hok HN) as Hi. rewrite app_nil_r in Hi.
  step. eapply crun_mono; [exact Hi|]. intros ok s1 H1. destruct ok; cbn [negb].
  2: { destruct H1 as [n ->]. eapply crun_mono; [by apply (undeclare_run T s n)|]. intros ? s' H. by exists T. }
  destruct H1 as [H1 _]. step. eapply crun_mono; [by apply (draft_rr T s (brk s) N T s1)|]. intros ? s2 H2. step. eapply crun_mono; [by apply (draft_add T s (brk s) N HN T s2)|].
  intros ? s3 (T3 & H3 & _). eapply crun_mono; [by apply (draft_release T s (brk s) N T3 s3)|]. intros ? s4 H4. by exists T3.
Qed.
(** A name, and the name below it. *)
Definition name_b : list label := [[98]; [99]].
Definition name_a : list label := [[97]; [98]; [99]].
Lemma names_a_b : name_ok name_a /\ name_ok name_b.
Proof. split; (split; [repeat constructor; done|by vm_compute]). Qed.
Definition sample_env : environ := Environ (fun _ => true) (fun n => 1000 + Z.of_nat n) 120 604800 900 2048.
(** Two entries from servers, the older one added last. *)
Definition sample_run : cm unit := _ ← put_answer name_a 1 300 1000 [1; 2; 3; 4]; put_answer name_b 1 300 900 [5; 6; 7; 8].
Definition sample : cache := state_after sample_run (mk_dns_hash sample_env).
Lemma sample_ok : exists T, cache_ok T sample /\ frame ∅ (mk_dns_hash sample_env) T sample.
Proof.
  destruct names_a_b as [Ha Hb]. assert (Hrun : crun sample_run (mk_dns_hash sample_env) (fun _ s' => served ∅ (mk_dns_hash sample_env) s')).
  { unfold sample_run. step. eapply crun_mono; [apply (put_answer_run ∅); [apply fresh_cache_ok|done|apply cached_types; by constructor]|]. intros ? s1 (T1 & H1 & F1).
    eapply crun_mono; [apply (put_answer_run T1); [done|done|apply cached_types; by constructor]|]. intros ? s2 (T2 & H2 & F2). exists T2. split; [done|by eapply cframe_trans]. }
  apply state_after_run in Hrun as (_ & T & H). exists T. exact H.
Qed.
(** What is in a chain is in the table. *)
Lemma chain_has T s i he N : cache_ok T s -> chain s i = [he] -> name_ok N -> qname <$> cents s !! data he = Some (enc N) -> T !! fold_name N = Some (data he).
Proof.
  intros ([L H] & _) Hc HN Hq. destruct (chain_key T s i he (iv_table _ _ _ H)) as (N' & (c & Hcs & Hqn & HN') & _ & HT); [rewrite Hc; by constructor|].
  rewrite Hcs in Hq. injection Hq as Hq. by rewrite (enc_inj N N') by congruence.
Qed.

(** * The control socket *)

(** C31: Whatever clients send to the control socket, cut into reads in any way, as long as the commands are to delete or invalidate records, read hosts files, add records or negative entries or empty the cache (or are unknown, or cut off), and whatever the files hold, the memory and the time are, and other threads that keep the cache consistent do while its lock is yielded: no command makes a wrong access or runs on for ever, each connection gets one answer, and afterwards table, chains, entries, sets and the list by age are consistent, with exact counts and sizes, and no entry is left that is not in the table. The commands that report, change servers or read a configuration are not among them. *)
Theorem control_safe e got others lib elsewhere qs :
  (forall i T s, cache_ok T s -> crun (others i) s (fun _ s' => served T s s')) -> lib_ok lib ->
  Forall conn_ok qs -> Forall carried_out qs ->
  exists answers s' T, status_thread got others lib elsewhere qs (mk_dns_hash e) = Ok (answers, s') /\ length answers = length qs /\
    cache_ok T s' /\ forall q c, cents s' !! q = Some c -> exists k, T !! k = Some q.
Proof.
  intros Ho Hl Hqs Hcs. pose proof (status_thread_run got others lib elsewhere Ho Hl qs ∅ _ Hqs Hcs (fresh_cache_ok e)) as Hr. apply crun_out in Hr as (l & s' & E & Hn & T & Hok & Hf).
  exists l, s', T. split_and!; try done. intros q c Hc. destruct Hok as ([L H] & _). destruct (decide (Exists (fun kp => kp.2 = q) (map_to_list T))) as [Hx|Hx].
  - apply Exists_exists in Hx as ([k p] & Hin & Hpq). cbn in Hpq. subst p. exists k. by apply elem_of_map_to_list.
  - exfalso. destruct (fr_new _ _ _ _ Hf q ltac:(by eexists)) as [_ [x Hx']]; [|cbn in Hx'; by rewrite lookup_empty in Hx'].
    intros k Hk. apply Hx, Exists_exists. exists (k, q). split; [by apply elem_of_map_to_list|done].
Qed.
(** In two bytes, in four; a string with its length. *)
Definition be16 (n : Z) : list Z := [n / 256; n mod 256].
Definition be32 (n : Z) : list Z := be16 (n / 65536) ++ be16 (n mod 65536).
Definition counted_string (l : list Z) : list Z := be16 (zlen l) ++ l.
(** The file "h" has one line; its address is the only one that is understood. *)
Definition sample_lib : libc := Libc
  (fun fn => if decide (fn = chars "h") then Some ([chars "1.2.3.4 x.c y.c # two names"], true) else None)
  (fun a => if decide (a = chars "1.2.3.4") then Some [1; 2; 3; 4] else None) (fun _ => None).
Lemma sample_lib_ok : lib_ok sample_lib.
Proof.
  split_and!; cbn.
  - intros t a. case_decide; [|done]. intros [= <-]. split; [|done]. unfold is_bytes. apply (bool_decide_unpack _). vm_compute. exact I.
  - done.
  - intros fn lines eof. case_decide; [|done]. intros [= <- <-]. unfold is_bytes. apply (bool_decide_unpack _). vm_compute. exact I.
Qed.
Definition carried_outb rs : bool := match (read_short rs).1 with Some cmd => bool_decide (Z.land cmd 255 ∉ other_commands) | None => true end.
Lemma carried_outb_ok qs : forallb carried_outb qs = true -> Forall carried_out qs.
Proof.
  rewrite forallb_forall, List.Forall_forall. intros H rs Hrs cmd rs' E. specialize (H rs Hrs). unfold carried_outb in H. rewrite E in H. by apply bool_decide_eq_true in H.
Qed.
(** The file is read, which gives x.c, y.c and the name for the way back; addresses for b.c are added, in three parts; then those for *.b.c; a.b.c is said not to exist; B.C is deleted; all
    that ends in c is deleted; a command is cut off; a command is unknown. *)
Definition sample_requests : list conn :=
  [ [be16 (CTL_CMDVERNR + CTL_SOURCE) ++ counted_string (chars "h") ++ counted_string (chars "o.") ++ be32 300 ++ be16 1 ++ be16 DF_LOCAL];
    [be16 (CTL_CMDVERNR + CTL_ADD) ++ be16 T_A ++ be16 3; [98; 46]; [99] ++ be32 300 ++ be16 DF_LOCAL ++ be16 1 ++ [1; 2; 3; 4]];
    [be16 (CTL_CMDVERNR + CTL_ADD) ++ be16 T_A ++ counted_string [42; 46; 98; 46; 99] ++ be32 300 ++ be16 DF_LOCAL ++ be16 2 ++ [1; 2; 3; 4; 5; 6; 7; 8]];
    [be16 (CTL_CMDVERNR + CTL_NEG) ++ counted_string [97; 46; 98; 46; 99] ++ be16 255 ++ be32 60];
    [be16 (CTL_CMDVERNR + CTL_RECORD) ++ be16 CTL_R_DELETE ++ counted_string [66; 46; 67; 46]];
    [be16 (CTL_CMDVERNR + CTL_EMPTY) ++ counted_string [43; 99]];
    [be16 (CTL_CMDVERNR + CTL_NEG) ++ be16 7; [97]];
    [be16 (CTL_CMDVERNR + 99)] ].
Definition nowhere : Z -> conn -> cm answer := fun _ _ => fail Stale.
Lemma control_safe_witness :
  (match status_thread true (fun _ => mret tt) sample_lib nowhere sample_requests (mk_dns_hash sample_env) with
   | Ok (l, s) => l = [Succ; Succ; Succ; Succ; Succ; Succ; Incomplete_command; Unknown_command] /\ ent_num s = 1 | Fault _ => False end) /\
  exists answers s' T, status_thread true (fun _ => mret tt) sample_lib nowhere sample_requests (mk_dns_hash sample_env) = Ok (answers, s') /\ length answers = length sample_requests /\
    cache_ok T s' /\ forall q c, cents s' !! q = Some c -> exists k, T !! k = Some q.
Proof.
  split; [vm_compute; split; reflexivity|]. apply control_safe.
  - intros i T s H. by apply served_refl.
  - apply sample_lib_ok.
  - unfold conn_ok, is_bytes. apply (bool_decide_unpack _). vm_compute. exact I.
  - apply carried_outb_ok. vm_compute. reflexivity.
Defined.

(** * The hash table *)
Inductive table_op : Type := Find (K : list label) | Insert (K : list label) (p : positive) | Remove (K : list label).
(** What a caller of hash.c does: an entry is inserted where a search has found nothing. *)
Definition on_table (o : table_op) : cm (option positive) :=
  match o with
  | Find K => '(d, _) ← dns_lookup (enc K); mret d
  | Insert K p => '(d, loc) ← dns_lookup (enc K); match d with Some q => mret (Some q) | None => _ ← add_dns_hash p loc; mret None end
  | Remove K => del_dns_hash (enc K)
  end.
Fixpoint on_tables (l : list table_op) : cm (list (option positive)) :=
  match l with [] => mret [] | o :: l => x ← on_table o; xs ← on_tables l; mret (x :: xs) end.
(** The same on a finite map from names in lower case. *)
Definition on_map (o : table_op) T : option positive * gmap (list label) positive :=
  match o with
  | Find K => (T !! fold_name K, T)
  | Insert K p => (T !! fold_name K, match T !! fold_name K with Some _ => T | None => <[fold_name K := p]> T end)
  | Remove K => (T !! fold_name K, delete (fold_name K) T)
  end.
Fixpoint on_maps (l : list table_op) T : list (option positive) :=
  match l with [] => [] | o :: l => (on_map o T).1 :: on_maps l (on_map o T).2 end.
Definition table_op_ok s (o : table_op) : Prop := match o with Find K | Remove K => name_ok K | Insert K p => named (cents s) p K end.
(** What the table relies on: the entries and the memory. *)
Definition same_entries s s' : Prop := cents s' = cents s /\ env s' = env s.
Lemma on_table_run o T s : (forall n, memory (env s) n = true) -> tbl_ok T s -> table_op_ok s o ->
  crun (on_table o) s (fun x s' => x = (on_map o T).1 /\ tbl_ok (on_map o T).2 s' /\ same_entries s s').
Proof.
  intros Hm H Ho. destruct o as [K|K p|K]; cbn [on_table on_map fst snd table_op_ok] in *.
  - destruct (dns_lookup_run' T s K H Ho) as (loc & E & _). step. eapply crun_Ok; [exact E|]. step. done.
  - pose proof Ho as (c & Hc & _ & HK). destruct (dns_lookup_run' T s K H HK) as (loc & E & Hp). step. eapply crun_Ok; [exact E|]. destruct (T !! fold_name K) as [q|] eqn:HT; [by step|].
    assert (Hout : forall k, T !! k <> Some p).
    { intros k Hk. destruct (tbl_named T s k p H Hk) as (N & <- & HN). rewrite (named_unique _ _ _ _ HN Ho) in Hk. congruence. }
    step. eapply crun_mono; [by apply (add_dns_hash_run T s K loc p)|]. intros ok s' Hpost. step. split; [done|]. destruct ok.
    + destruct Hpost as (m & -> & Ht). by split.
    + destruct Hpost as [[n Hn] _]. by rewrite Hm in Hn.
  - pose proof (del_dns_hash_run T s K [] H Ho) as Hd. rewrite app_nil_r in Hd. eapply crun_mono; [exact Hd|]. intros x s' (-> & m & -> & Ht). done.
Qed.
Lemma on_tables_run l : forall T s, (forall n, memory (env s) n = true) -> tbl_ok T s -> Forall (table_op_ok s) l -> crun (on_tables l) s (fun xs _ => xs = on_maps l T).
Proof.
  induction l as [|o l IH]; intros T s Hm H Hl; cbn [on_tables on_maps]; [by step|]. apply Forall_cons in Hl as [Ho Hl]. step. eapply crun_mono; [by apply (on_table_run o T s)|].
  intros x s1 (-> & H1 & Hc & He). step. eapply crun_mono; [apply (IH (on_map o T).2 s1); [by rewrite He|done|]|].
  - eapply Forall_impl; [exact Hl|]. intros [K|K p|K]; cbn; [done| |done]. unfold named. by rewrite Hc.
  - intros xs s2 ->. by step.
Qed.
(** C32: The hash table is a finite map of names without regard to letter case: a search finds what was inserted under any spelling of the name and not removed since, for every sequence of searches, insertions and removals on 1024 chains ordered by hash. *)
Theorem names_refine_map T s l : (forall n, memory (env s) n = true) -> tbl_ok T s -> Forall (table_op_ok s) l ->
  exists s', on_tables l s = Ok (on_maps l T, s').
Proof.
  intros Hm H Hl. pose proof (on_tables_run l T s Hm H Hl) as Hr. apply crun_out in Hr as (xs & s' & E & ->). by exists s'.
Qed.
Definition name_B : list label := [[66]; [99]].
(** From an empty table over the entries of the sample. *)
Definition bare : cache := set_buckets ∅ sample.
Definition sample_ops : list table_op := [Find name_b; Insert name_b 8; Insert name_a 3; Find name_B; Insert name_b 8; Find name_a; Remove name_B; Find name_b; Find name_a].
Lemma bare_ok : tbl_ok ∅ bare.
Proof.
  assert (Hch : forall i, chain bare i = []) by (intros i; unfold chain, bare; cbn; by rewrite lookup_empty).
  split; [intros i|done|intros i|intros i]; rewrite Hch; constructor.
Qed.
Lemma named_at s p N c : cents s !! p = Some c -> qname c = enc N -> name_ok N -> named (cents s) p N.
Proof. intros. by exists c. Qed.
Lemma sample_a : named (cents bare) 3 name_a.
Proof. eapply named_at; [vm_compute; reflexivity|done|apply names_a_b]. Qed.
Lemma sample_b : named (cents bare) 8 name_b.
Proof. eapply named_at; [vm_compute; reflexivity|done|apply names_a_b]. Qed.
Lemma names_refine_map_witness :
  on_maps sample_ops ∅ = [None; None; None; Some 8; Some 8; Some 3; Some 8; None; Some 3]%positive /\
  (forall n, memory (env bare) n = true) /\ exists s', on_tables sample_ops bare = Ok (on_maps sample_ops ∅, s').
Proof.
  assert (Hm : forall n, memory (env bare) n = true) by (intros n; vm_compute; reflexivity).
  split; [vm_compute; reflexivity|]. split; [exact Hm|]. apply (names_refine_map ∅ bare sample_ops Hm bare_ok).
  destruct names_a_b as [Ha Hb]. assert (HB : name_ok name_B) by (split; [repeat constructor; done|by vm_compute]).
  pose proof sample_a. pose proof sample_b. unfold sample_ops. repeat (apply List.Forall_cons; [assumption|]). apply List.Forall_nil.
Defined.

(** * The list by age *)
(** C33: sort_rrl sorts: on every well-formed list of up to 2^32 - 1 entries it ends without a wrong access with a well-formed list of the same entries, each as before but for its links, in the order of their time stamps. *)
Theorem sort_rrl_sorts L s : rlist L s -> Forall (dated s) L -> Z.of_nat (length L) < 2 ^ 32 ->
  exists L' m h t, let s' := relinked s m h t in
    sort_rrl s = Ok (tt, s') /\ rlist L' s' /\ L' ≡ₚ L /\ StronglySorted (fun a b => stamp s a <= stamp s b) L' /\ core <$> m = core <$> lents s.
Proof.
  intros Hl Hd Hn. pose proof (sort_rrl_run L s Hl Hd Hn) as Hr. apply crun_out in Hr as ([] & s' & E & L' & m & h & t & -> & H). by exists L', m, h, t.
Qed.
(** Without insertion in order (while a cache file is read) the older set comes last. *)
Definition unsorted : cache := state_after sample_run (set_sort false (mk_dns_hash sample_env)).
Lemma sort_rrl_sorts_witness : stamp unsorted 10 < stamp unsorted 5 /\
  exists L' m h t, let s' := relinked unsorted m h t in
    sort_rrl unsorted = Ok (tt, s') /\ rlist L' s' /\ L' ≡ₚ [5; 10]%positive /\ StronglySorted (fun a b => stamp unsorted a <= stamp unsorted b) L' /\ core <$> m = core <$> lents unsorted.
Proof.
  split; [vm_compute; reflexivity|]. apply sort_rrl_sorts; [|vm_compute; by repeat (constructor; [eexists; split; [reflexivity|]; by eexists|])|vm_compute; reflexivity].
  split; [|vm_compute; by repeat split|vm_compute; reflexivity|vm_compute; reflexivity].
  apply (bool_decide_unpack _). vm_compute. exact I.
Defined.

(** * Purging *)
(** C34: purge_cache on a consistent cache ends without a wrong access with a consistent cache whose size is within the limit, unless only local records are left in the list; it adds nothing, keeps every entry it leaves under its name, and touches nothing of callers. *)
Theorem purge_cache_bounded L T s sz lazy : inv L T s -> sized T s -> few s ->
  exists s' L' T', purge_cache sz lazy s = Ok (tt, s') /\ inv L' T' s' /\ sized T' s' /\ trimmed T s T' s' /\ (cache_size s' <= sz \/ Forall (local_at s') L').
Proof.
  intros H Hs Hf. pose proof (purge_cache_run sz lazy L T s H Hs Hf) as Hr. apply crun_out in Hr as ([] & s' & E & L' & T' & Hp). by exists s', L', T'.
Qed.
Lemma purge_cache_bounded_witness : cache_size sample = 340 /\ exists L T, inv L T sample /\
  exists s' L' T', purge_cache 200 false sample = Ok (tt, s') /\ inv L' T' s' /\ sized T' s' /\ trimmed T sample T' s' /\ (cache_size s' <= 200 \/ Forall (local_at s') L').
Proof.
  split; [vm_compute; reflexivity|]. destruct sample_ok as (T & ([L H] & Hs & Hi) & _). exists L, T. split; [exact H|].
  apply (purge_cache_bounded L T sample 200 false H Hs). left. exact Hi.
Defined.

(** * Copies *)
(** C35: copy_cent makes a deep copy: every record set is copied with its data, into new memory and off the list by age, flags and counts are those of the original, and what was in memory before is unchanged; when memory runs out on the way, what had been copied is released again and nothing is returned. *)
Theorem copy_cent_deep L s p c : store_ok L s -> cents s !! p = Some c ->
  exists o s', copy_cent p s = Ok (o, s') /\ around (brk s) s s' /\ (exists L', store_ok L' s') /\
    match o with
    | Some q => q = brk s /\ exists d, cents s' !! q = Some d /\ same_cent s c s' d
    | None => cents s' !! brk s = None /\ starved s
    end.
Proof. intros H Hc. pose proof (copy_cent_run L s p c H Hc) as Hr. by apply crun_out in Hr as (o & s' & E & Hp); exists o, s'. Qed.
(** An entry of the sample. *)
Lemma sample_entry : exists c, cents sample !! 3%positive = Some c /\ qname c = enc name_a.
Proof. eexists. split; vm_compute; reflexivity. Qed.
Lemma copy_cent_deep_witness : exists L c, store_ok L sample /\ cents sample !! 3%positive = Some c /\
  exists o s', copy_cent 3 sample = Ok (o, s') /\ around (brk sample) sample s' /\ (exists L', store_ok L' s') /\
    match o with
    | Some q => q = brk sample /\ exists d, cents s' !! q = Some d /\ same_cent sample c s' d
    | None => cents s' !! brk sample = None /\ starved sample
    end.
Proof.
  destruct sample_ok as (T & ([L H] & _) & _). destruct sample_entry as (c & Hc & _). exists L, c. split; [apply H|]. split; [exact Hc|].
  exact (copy_cent_deep L sample 3 c (iv_store _ _ _ H) Hc).
Defined.

(** * Looking up *)
(** C36: The search of lookup_cache, as the code does it: it finds the entry of the name itself; else, with wildcards, the closest name above it that has an entry decides, whatever that entry is: a negative entry answers, an entry marked so gives the wildcard entry below it, if there is one, a local entry says that there is no such name, and any other entry, such as one from a server, ends the search with nothing. The comment of lookup_cache and the manual have the search go on to a negated or wildcard name further up; [ordinary_hides_negative] shows that it does not. *)
Theorem search_closest T s N wild : cache_ok T s -> name_ok N ->
  exists x, search (enc N) wild s = Ok (x, s) /\ searched T (cents s) N wild x.
Proof. intros H HN. by apply search_run. Qed.
(** With local records for b.c and *.b.c: a.b.c is answered by the wildcard. *)
Definition wild_requests : list conn := take 2 (drop 1 sample_requests).
Definition wild_run : cm (list answer) := status_thread true (fun _ => mret tt) sample_lib nowhere wild_requests.
Definition wild_sample : cache := state_after wild_run (mk_dns_hash sample_env).
Lemma wild_ok : exists T, cache_ok T wild_sample.
Proof.
  assert (Hq : Forall conn_ok wild_requests) by (unfold conn_ok, is_bytes; apply (bool_decide_unpack _); vm_compute; exact I).
  assert (Ho : forall i T s, cache_ok T s -> crun ((fun _ : Z => mret tt : cm unit) i) s (fun _ s' => served T s s')) by (intros i T s H; by apply served_refl).
  pose proof (status_thread_run true _ _ nowhere Ho sample_lib_ok wild_requests ∅ (mk_dns_hash sample_env) Hq (carried_outb_ok wild_requests eq_refl) (fresh_cache_ok _)) as Hr.
  apply state_after_run in Hr as (_ & _ & T & H & _). exists T. exact H.
Qed.
Lemma search_closest_witness : (exists q, search (enc name_a) true wild_sample = Ok ((Some q, w_wild), wild_sample)) /\
  exists T, cache_ok T wild_sample /\ exists x, search (enc name_a) true wild_sample = Ok (x, wild_sample) /\ searched T (cents wild_sample) name_a true x.
Proof.
  split; [eexists; vm_compute; reflexivity|]. destruct wild_ok as [T H]. exists T. split; [exact H|]. apply (search_closest T wild_sample name_a true H). apply names_a_b.
Defined.
(** The name c is negated, and b.c is in the cache from a server: z.c is found to be negated, z.b.c is not. *)
Definition hidden_run : cm answer := _ ← sample_run; add_negative (enc [[99]]) 255 60.
Definition hidden_sample : cache := state_after hidden_run (mk_dns_hash sample_env).
Fact ordinary_hides_negative : (exists q, search (enc [[122]; [99]]) true hidden_sample = Ok ((Some q, w_neg), hidden_sample)) /\
  search (enc [[122]; [98]; [99]]) true hidden_sample = Ok ((None, Exact), hidden_sample).
Proof. split; [eexists|]; vm_compute; reflexivity. Qed.
(** C37: lookup_cache answers with what its search of the cache finds, of the cache of the caller or of the one that other threads have left while the lock was given up: without an entry there is no answer; with one the answer is a deep copy of that entry with exactly its name, its sets and their records, of which a set is missing only when its time was over at some moment and copied only when it is kept for ever or its time was not over at some moment, and likewise a negative entry; no copy is given only when there was no memory or when every set (or the negative entry) was out of date. The cache stays consistent, and nothing else of callers changes. *)
Theorem lookup_cache_copies others T s N wild :
  (forall T s, cache_ok T s -> crun others s (fun _ s' => served T s s')) -> cache_ok T s -> name_ok N ->
  exists x s', lookup_cache others (enc N) wild s = Ok (x, s') /\ lookup_post others T s N wild x s'.
Proof. intros Ho H HN. pose proof (lookup_cache_run others Ho T s N wild H HN) as Hr. by apply crun_out in Hr as (x & s' & E & Hp); exists x, s'. Qed.
Lemma lookup_cache_copies_witness : (exists q s', lookup_cache (mret tt) (enc name_a) false sample = Ok ((Some q, Exact), s')) /\ exists T, cache_ok T sample /\
  exists x s', lookup_cache (mret tt) (enc name_a) false sample = Ok (x, s') /\ lookup_post (mret tt) T sample name_a false x s'.
Proof.
  split; [do 2 eexists; vm_compute; reflexivity|].
  destruct sample_ok as (T & H & _). exists T. split; [exact H|]. apply (lookup_cache_copies (mret tt) T sample name_a false); [|exact H|apply names_a_b].
  intros T' s' H'. by apply served_refl.
Defined.

(** * Emptying *)
(** C38: empty_cache with a list of names to include and exclude deletes exactly the entries for which the first name of the list that matches says so, without a list every entry: what is left is what was not selected, and what other threads have added while the lock was yielded between buckets; entries that they leave alone and that are not selected stay. *)
Theorem empty_cache_selects others A D got sla T s :
  (forall i T s, cache_ok T s -> crun (others i) s (fun _ s' => exists T', between A D T s T' s')) -> named_list sla -> cache_ok T s ->
  exists s' T', empty_cache got others ((fun l => l.*1) <$> sla) s = Ok (got, s') /\ cache_ok T' s' /\ frame T s T' s' /\
    if got then (forall k q, T' !! k = Some q -> A k \/ T !! k = Some q /\ selection sla k = false) /\
      (forall k q, T !! k = Some q -> ~ D k -> selection sla k = false -> T' !! k = Some q)
    else T' = T /\ s' = s.
Proof.
  intros Ho Hn H. pose proof (empty_cache_run others A D Ho got sla T s Hn H) as Hr. apply crun_out in Hr as (b & s' & E & -> & T' & Hp). by exists s', T'.
Qed.
(** Of a.b.c and b.c all below b.c goes, but not b.c itself. *)
Definition sample_list : option (list (slist_t * list label)) := Some [(SList (enc name_b) true false, name_b); (SList (enc name_b) false true, name_b)].
Lemma sample_list_ok : named_list sample_list.
Proof. destruct names_a_b as [_ Hb]. unfold named_list, sample_list. repeat (apply List.Forall_cons; [done|]). apply List.Forall_nil. Qed.
Definition nobody {B} (_ : B) : Prop := False.
Lemma empty_cache_selects_witness : selection sample_list name_a = true /\ selection sample_list name_b = false /\ exists T, cache_ok T sample /\
  exists s' T', empty_cache true (fun _ => mret tt) ((fun l => l.*1) <$> sample_list) sample = Ok (true, s') /\ cache_ok T' s' /\ frame T sample T' s' /\
    (forall k q, T' !! k = Some q -> nobody k \/ T !! k = Some q /\ selection sample_list k = false) /\
    (forall k q, T !! k = Some q -> ~ nobody k -> selection sample_list k = false -> T' !! k = Some q).
Proof.
  split; [vm_compute; reflexivity|]. split; [vm_compute; reflexivity|]. destruct sample_ok as (T & H & _). exists T. split; [exact H|].
  apply (empty_cache_selects (fun _ => mret tt) nobody nobody true sample_list T sample); [|exact sample_list_ok|exact H].
  intros i T1 s1 H1. exists T1. split; [exact H1|apply frame_refl|by right|done].
Defined.
(** C39: destroy_cache leaves nothing of the cache: number and size of the entries are 0, the list is empty, and the entries and record sets that are left in memory are exactly those that callers have. *)
Theorem destroy_cache_releases T s : cache_ok T s -> exists s', destroy_cache true s = Ok (tt, s') /\ nothing T s s'.
Proof. intros H. pose proof (destroy_cache_run T s H) as Hr. apply crun_out in Hr as ([] & s' & E & Hp). by exists s'. Qed.
Lemma destroy_cache_releases_witness : exists T, cache_ok T sample /\ exists s', destroy_cache true sample = Ok (tt, s') /\ nothing T sample s'.
Proof. destruct sample_ok as (T & H & _). exists T. split; [exact H|]. exact (destroy_cache_releases T sample H). Defined.
